(* ===== verification/_CoqProject ===== *)
-Q . S2P
Prelude.v
Riscv.v
Mem.v
Lock.v
Spinlock.v
Kalloc.v
Allocator.v
Vm.v
VmInv.v
VmOps.v
Cow.v
Uvmcopy.v
UserMem.v
Freewalk.v
UserView.v
Copy.v
AddressSpaces.v
Bio.v
BioSpec.v
BlockCache.v
Log.v
LogSpec.v
LogCommit.v
LogCrash.v
LogOps.v
Transactions.v
UserIO.v
Pipe.v
PipeSpec.v
Blocks.v
LogBlocks.v
Fs.v
FsBlocks.v
FsFiles.v
FsMap.v
FsContents.v
FsWrite.v
FsInode.v
FsSpec.v
FsDir.v
FsTable.v
FsPath.v
Mkfs.v
MkfsInv.v
MkfsImage.v
MkfsSpec.v
File.v
Sysfile.v
FileRefs.v
FileWrite.v
Proc.v
ProcSpec.v
ProcTable.v
ProcWait.v
Exec.v
ExecSpec.v
Syscall.v
SyscallSpec.v
Sched.v
Grep.v
Console.v
Sh.v
ShLex.v
ShParse.v
ShSpec.v
ShRun.v
Umalloc.v
UmallocSpec.v
Uart.v
Printf.v
Kprintf.v
Ulib.v
Virtio.v
VirtioInv.v
VirtioSpec.v
Boot.v
Plic.v
Main.v
Programs.v
Sleeplock.v
