(* ===== verification/Prelude.v ===== *)
(** * xv6-riscv with copy-on-write fork: a verification library

    ** The program

    The repository is the xv6 teaching kernel for RISC-V (src/kernel) with
    copy-on-write [fork], its user programs (src/user) and the tool that makes
    the file-system image (src/mkfs).  The kernel's layers, bottom up: machine
    constants and page-table entries (riscv.h, memlayout.h, param.h); byte
    routines (string.c); spinlocks (spinlock.c); the page allocator with its
    reference counts (kalloc.c); page tables and address spaces (vm.c) with
    the page-fault handler that breaks sharing (trap.c); the buffer cache and
    its sleep locks (bio.c, sleeplock.c); the write-ahead log (log.c); the file
    system (fs.c); pipes, open files and the console (pipe.c, file.c,
    console.c) on the serial port (uart.c); processes and scheduling (proc.c);
    running programs (exec.c); system calls and traps (sysfile.c, sysproc.c,
    syscall.c, trap.c).  Below the buffer cache is the disk driver
    (virtio_disk.c), beside it the interrupt controller (plic.c); the harts
    boot through start.c and main.c.  Of the user programs the shell (sh.c), grep (grep.c), the
    memory allocator (umalloc.c), the library (ulib.c, printf.c) and the small
    programs (wc.c, cat.c, echo.c, ls.c, init.c and others).

    ** Conventions

    Code is a function in the state monad [M] below.  A result is [Ok], a
    [Panic] with the kernel's message, [Undef] where C leaves the behaviour
    undefined (an index outside an array), or [Hang] for a call that sleeps or
    loops for ever.  [wp c Q s] says that [c] run in [s] returns, with a result
    that satisfies [Q]: a theorem in this form, or one that states
    [c s = Ok a s'], includes termination and the absence of panics.
    [triple P c Q] is partial correctness and is used for what every function
    of a component keeps true.
    Integers are [Z] with wrap-around written out ([u8], [u32], [u64], [s32]).
    Loops have fuel computed from their arguments and the theorems show that
    it suffices; running out of it is [Hang] or an impossible case.
    Where the code calls [sched], the process leaves the CPU: a stretch of
    code between two switches is one definition, and what runs afterwards is
    another ([Asleep] in a result says where it stopped).

    ** Files

    - [Prelude]: the monad, its rules and tactics, machine integers.
    - [Riscv]: constants, addresses and page-table entries.
    - [Mem]: bytes and words in memory, kernel/string.c.
    - [Lock]: spinlocks as one CPU's code sees them (class [Locks]) and the
      lock discipline of code ([locks]); [Spinlock]: kernel/spinlock.c at the
      level of its memory accesses on any number of CPUs, mutual exclusion,
      interrupts off in critical sections, and refinement of the interface.
    - [Kalloc], [Allocator]: kernel/kalloc.c; free list, reference counts.
    - [Vm]: the code of kernel/vm.c and of trap.c's copy-on-write handler on
      physical memory.  [VmInv]: the invariant that ties page-table words to
      abstract address spaces and counts; [VmOps], [Cow], [Uvmcopy],
      [UserMem], [Freewalk], [Copy]: what each routine does to them;
      [UserView], [AddressSpaces]: the theorems in terms of what each process
      sees of its memory.
    - [Sleeplock]: kernel/sleeplock.c with any number of processes.
    - [Bio]: kernel/bio.c and sleeplock.c for buffers; [BioSpec]: the doubly
      linked list in order of use, and the cache as a store of blocks;
      [BlockCache]: the refinement.
    - [Log]: kernel/log.c; [LogSpec], [LogCommit]: its loops as sequences of
      disk writes; [LogCrash]: crashes and reboots; [LogOps]: operations;
      [Transactions]: atomicity, recovery and reservation.
    - [UserIO]: the interface of user memory to the rest of the kernel (class
      [UserSpace]) and its implementation by [Vm].
    - [Pipe], [PipeSpec]: kernel/pipe.c refines a queue.
    - [Blocks]: the interface of the block layer to the file system (class
      [Blocks]); [LogBlocks]: its implementation by the cache and the log
      inside an operation.
    - [Fs]: kernel/fs.c.  [FsBlocks], [FsFiles]: the free map and which block
      belongs to which file; [FsMap]: [bmap]; [FsContents]: the bytes of a
      file and [readi]; [FsWrite], [FsInode]: [writei] and [iupdate];
      [FsSpec]: the theorems on files; [FsDir]: directories; [FsTable]: the
      inode table; [FsPath]: path lookup.
    - [Mkfs]: mkfs/mkfs.c.  [MkfsInv]: the blocks of one file of the image and
      what [iappend] does to them; [MkfsImage]: the invariant of the image as
      a whole, and [main]; [MkfsSpec]: the finished image, and the kernel
      booting on it.
    - [File], [Sysfile]: kernel/file.c, sysfile.c, and the part of pipe.c and
      syscall.c they use; [FileRefs]: reference counts of open files;
      [FileWrite]: a chunk of [filewrite] is atomic under crashes.
    - [Proc]: kernel/proc.c on the interface [Files]; [ProcSpec]: what each
      function keeps true of the process table; [ProcTable], [ProcWait]: the
      theorems on the table, [wakeup], [kill], [exit] and [wait].
    - [Sched]: scheduler, sleep, wakeup, yield and kill interleaved on any
      number of CPUs, one step for each lock operation.
    - [Exec], [ExecSpec]: kernel/exec.c; the stack of the new program.
    - [Syscall], [SyscallSpec]: sysproc.c, the dispatcher and trap.c.
    - [Console]: line editing and reading, kernel/console.c; [Uart]:
      kernel/uart.c and writing to the console.
    - [Virtio]: kernel/virtio_disk.c; [VirtioInv]: the driver with the device,
      processes and interrupts, the atomic disk that specifies them, and the
      invariant; [VirtioSpec]: the refinement.
    - [Printf]: numbers as text, shared by [Kprintf], kernel/printf.c, and
      [Ulib], user/ulib.c and user/printf.c.
    - [Grep]: user/grep.c.
    - [Sh]: the parser of user/sh.c on the line and its nodes in memory;
      [ShLex]: tokens; [ShParse]: the parser on tokens, their simulation and
      the grammar; [ShSpec]: the theorems on parsing; [ShRun]: running
      commands, the main loop, and the theorem on a session.
    - [Umalloc], [UmallocSpec]: user/umalloc.c.
    - [Boot]: the registers of a hart with the accessors of riscv.h,
      kernel/start.c and the machine-mode timer interrupt of kernelvec.S;
      [Plic]: kernel/plic.c on an interface of the controller (classes
      [Controller] and [ControllerLaws]); [Main]: kernel/main.c on all harts.
    - [Programs]: the small user programs as interaction trees over system
      calls.

    ** What the theorems show

    Address spaces: [fork] gives the child the parent's view of memory and
    leaves no shared page writable; breaking sharing is invisible to every
    process; [copyout] changes exactly the bytes it should of one address
    space and [copyin] reads them; growing and shrinking touch exactly the
    pages concerned; in all of them the reference counts stay exact.
    Allocator: [kinit], [kalloc] and [kfree] on all branches.  Spinlocks
    and sleep locks: mutual exclusion in every interleaving.  Buffer cache: refinement of a
    block store, eviction in order of use.  Log: a transaction is atomic under
    crashes at any disk write, also during recovery; log space is reserved.
    Files: [writei] and [readi] in terms of the bytes of a file, without
    effect on other files; the count of an open file is the number of its
    descriptors; a chunk of a write is all on disk or not at all after a
    crash.  Pipes: first-in first-out under any interleaving of readers and
    writers, across wrap-around of the counters.  Directories: [dirlink] adds
    a name and changes no other; a path leads where following its components
    leads, and references to inodes are kept exactly.  mkfs: the image has exactly the files given,
    and the kernel boots on it and finds and reads them.  Console: the ring holds what line editing
    gives.  Serial port: a queue of 32 bytes between writers and the device.
    Disk driver: it refines a disk on which every request takes effect
    atomically, with any number of processes, the device completing requests
    in any order and interrupts at any time; it does not panic and no request
    is stuck.  Printing: [printf] writes the text of its format, [panic]
    prints whatever locks are held, [atoi] reads back what [%d] writes.
    Processes: identifiers are unique, unused slots are
    empty and parents have not exited, from boot on; [exit] does not lose its
    wakeup and [wait] collects exactly one child; a killed process does not
    return to user space.  Scheduling: no process on two CPUs, no lost wakeup,
    and a sleeper whose condition holds can always be woken.  exec: all or
    nothing, and the new program finds its arguments.  grep: the matcher has
    the declarative meaning of patterns and the program prints the matching
    lines however the file is read.  The shell: it parses exactly the
    sentences of its grammar, always ends, its words are strings in the
    buffer, what is printed parses back, and a session runs the programs the
    commands stand for with the right descriptors.  The user allocator: its
    blocks tile the heap.  Booting: [start] hands over to [main] in supervisor
    mode, timer interrupts are invisible to what they interrupt, a hart claims
    the interrupts of the serial port and the disk only, and no hart runs
    before hart 0 has set up the kernel.  Programs: [wc] counts lines, words and
    characters however the file is read, [cat] copies and [echo] writes its
    arguments, and what init forks becomes a shell.  Some theorems show flaws: a double free
    goes unnoticed, three full transactions overflow the log, [kill(0)] kills
    the next process, grep stops at a long line, and a root directory that
    fills its blocks gets a size that includes a block it does not have.

    ** Bounds

    Fuel: page-table walks have three levels; loops over address ranges run
    once per page or per block; loops over the buffer list have NBUF + 1
    steps; pipe and console loops one step per byte; loops over the process
    table NPROC steps; grep one round per byte of the file at most; the
    shell's parser nests at most four calls per character of the line; the
    allocator's loops run once per free block, and there is at most one per
    header's size of heap; the driver's chains and rings have NUM entries.
    Each is the number of iterations the code can make, plus one for the final test.
    The theorems on files assume a disk with one block of free map, as mkfs
    makes.

    ** Not modelled

    Assembly (entry.S, trampoline.S, swtch.S and the first half of
    kernelvec.S): register saves.  The harts of [Main] see memory in one
    order; the fences in the code are steps without effect.  The disk that the buffer cache uses is what [virtio_disk_rw] promises its
    callers, a block transferred as a whole, which is what [VirtioSpec] proves
    of the driver; a block write is not torn by a crash.  The device itself
    behaves as the virtio specification says.  In the layers below processes,
    waiting for another process is a call that does not return; in pipes, the
    console, the serial port, the disk driver and processes each stretch of
    code between two sleeps is a step.  Of the user programs, the test programs.  mkfs is modelled without
    the host's errors: opening, reading and writing files succeeds. *)

From Stdlib Require Export ZArith Lia.
From stdpp Require Export base gmap list strings numbers.
Export list_basics.list list_relations.list list_misc.list list_monad.list list_numbers.list list_tactics.list.

#[global] Set Default Goal Selector "!".
Local Open Scope Z_scope.

(** ** Outcomes of kernel code

    [Ok a s]: the function returned [a] in state [s].  [Panic msg]: the code
    called [panic(msg)], which prints and loops forever.  [Undef]: the code
    did something C leaves undefined (an index out of an array's bounds).
    [Hang]: the fuel of a loop ran out, or a spin loop can never leave. *)
Inductive res (S A : Type) : Type :=
| Ok (a : A) (s : S)
| Panic (msg : string)
| Undef
| Hang.
Arguments Ok {S A} a s.
Arguments Panic {S A} msg.
Arguments Undef {S A}.
Arguments Hang {S A}.

(** The state-and-outcome monad in which the kernel's functions are written. *)
Definition M (S A : Type) : Type := S -> res S A.

Definition ret {S A} (a : A) : M S A := fun s => Ok a s.
Definition bind {S A B} (c : M S A) (k : A -> M S B) : M S B :=
  fun s => match c s with
           | Ok a s' => k a s'
           | Panic msg => Panic msg
           | Undef => Undef
           | Hang => Hang
           end.
Definition gets {S A} (f : S -> A) : M S A := fun s => Ok (f s) s.
Definition modify {S} (f : S -> S) : M S unit := fun s => Ok tt (f s).
Definition panic {S A} (msg : string) : M S A := fun _ => Panic msg.
Definition undef {S A} : M S A := fun _ => Undef.
Definition hang {S A} : M S A := fun _ => Hang.

(** Run a component's code on a larger state that contains its state. *)
Definition zoom {S T A} (get : T -> S) (set : S -> T -> T) (c : M S A) : M T A :=
  fun t => match c (get t) with
           | Ok a s => Ok a (set s t)
           | Panic msg => Panic msg
           | Undef => Undef
           | Hang => Hang
           end.

(** [for(i = i0; n times; i++) body(i)]. *)
Fixpoint forz {T} (n : nat) (i : Z) (body : Z -> M T unit) : M T unit :=
  match n with
  | O => ret tt
  | S n' => bind (body i) (fun _ => forz n' (i + 1) body)
  end.

Declare Scope kernel_scope.
Delimit Scope kernel_scope with kernel.
Notation "'do!' x <- c ; k" := (bind c (fun x => k))
  (at level 10, x name, c at level 99, k at level 200) : kernel_scope.
Notation "c ;; k" := (bind c (fun _ => k))
  (at level 100, k at level 200, right associativity) : kernel_scope.
Open Scope kernel_scope.

(** Total correctness: the code returns, and the result satisfies [Q]. *)
Definition wp {S A} (c : M S A) (Q : A -> S -> Prop) (s : S) : Prop :=
  match c s with Ok a s' => Q a s' | _ => False end.

(** ** Machine integers: unsigned values are kept in range, wrap-around is
    written out where the code computes. *)
Definition u8 (z : Z) : Z := z mod 2 ^ 8.
Definition u16 (z : Z) : Z := z mod 2 ^ 16.
Definition u32 (z : Z) : Z := z mod 2 ^ 32.
Definition u64 (z : Z) : Z := z mod 2 ^ 64.
Definition s8 (z : Z) : Z := (z + 2 ^ 7) mod 2 ^ 8 - 2 ^ 7.
Definition s16 (z : Z) : Z := (z + 2 ^ 15) mod 2 ^ 16 - 2 ^ 15.
Definition s32 (z : Z) : Z := (z + 2 ^ 31) mod 2 ^ 32 - 2 ^ 31.

Arguments u8 : simpl never.
Arguments u16 : simpl never.
Arguments u32 : simpl never.
Arguments u64 : simpl never.
Arguments s8 : simpl never.
Arguments s16 : simpl never.
Arguments s32 : simpl never.

(** [b & mask] is non-zero. *)
Definition hasbit (w mask : Z) : bool := negb (Z.land w mask =? 0).

Arguments hasbit : simpl never.

(** ** Rules of the monad *)
Section Rules.
Context {S : Type}.

Lemma wp_ret {A} (a : A) (Q : A -> S -> Prop) s : Q a s -> wp (ret a) Q s.
Proof. done. Qed.

Lemma wp_bind {A B} (c : M S A) (k : A -> M S B) Q s :
  wp c (fun a => wp (k a) Q) s -> wp (bind c k) Q s.
Proof. unfold wp, bind. by destruct (c s). Qed.

Lemma wp_bind_inv {A B} (c : M S A) (k : A -> M S B) Q s :
  wp (bind c k) Q s -> wp c (fun a => wp (k a) Q) s.
Proof. unfold wp, bind. by destruct (c s). Qed.

Lemma wp_mono {A} (c : M S A) (P Q : A -> S -> Prop) s :
  wp c P s -> (forall a s', P a s' -> Q a s') -> wp c Q s.
Proof. unfold wp. destruct (c s); naive_solver. Qed.

Lemma wp_gets {A} (f : S -> A) (Q : A -> S -> Prop) s : Q (f s) s -> wp (gets f) Q s.
Proof. done. Qed.

Lemma wp_modify (f : S -> S) (Q : unit -> S -> Prop) s : Q tt (f s) -> wp (modify f) Q s.
Proof. done. Qed.

Lemma wp_conj {A} (c : M S A) (P Q : A -> S -> Prop) s :
  wp c P s -> wp c Q s -> wp c (fun a s' => P a s' /\ Q a s') s.
Proof. unfold wp. by destruct (c s). Qed.

Lemma wp_ok {A} (c : M S A) (Q : A -> S -> Prop) s :
  wp c Q s -> exists a s', c s = Ok a s' /\ Q a s'.
Proof. unfold wp. destruct (c s); naive_solver. Qed.

Lemma wp_of_ok {A} (c : M S A) (Q : A -> S -> Prop) s a s' :
  c s = Ok a s' -> Q a s' -> wp c Q s.
Proof. unfold wp. by intros ->. Qed.

Lemma wp_run {A} (c : M S A) (Q : A -> S -> Prop) s a s' :
  c s = Ok a s' -> wp c Q s -> Q a s'.
Proof. unfold wp. by intros ->. Qed.

Lemma wp_bind_ok {A B} (c : M S A) (k : A -> M S B) Q s a s' :
  c s = Ok a s' -> wp (k a) Q s' -> wp (bind c k) Q s.
Proof. unfold wp, bind. by intros ->. Qed.

Lemma bind_ok {A B} (c : M S A) (k : A -> M S B) s a s' :
  c s = Ok a s' -> bind c k s = k a s'.
Proof. unfold bind. by intros ->. Qed.

Lemma bind_assoc {A B C} (c : M S A) (k : A -> M S B) (h : B -> M S C) s :
  bind (bind c k) h s = bind c (fun a => bind (k a) h) s.
Proof. unfold bind. by destruct (c s). Qed.
End Rules.

Lemma wp_zoom {S T A} (get : T -> S) (set : S -> T -> T) (c : M S A) Q t :
  wp c (fun a s => Q a (set s t)) (get t) -> wp (zoom get set c) Q t.
Proof. unfold wp, zoom. by destruct (c (get t)). Qed.

(** Partial correctness: what holds if the code returns. *)
Definition triple {S A} (P : S -> Prop) (c : M S A) (Q : A -> S -> Prop) : Prop :=
  forall s a s', P s -> c s = Ok a s' -> Q a s'.

Section Triples.
Context {S : Type}.

Lemma triple_bind {A B} (P : S -> Prop) (c : M S A) Q (h : A -> M S B) R :
  triple P c Q -> (forall a, triple (Q a) (h a) R) -> triple P (bind c h) R.
Proof.
  intros Hc Hh s b s' Hs E. unfold bind in E. destruct (c s) as [a s1| | |] eqn:Ec; try discriminate E.
  eapply Hh; [|exact E]. by eapply Hc.
Qed.
Lemma triple_ret {A} (P : S -> Prop) (a : A) (Q : A -> S -> Prop) : (forall s, P s -> Q a s) -> triple P (ret a) Q.
Proof. intros H s b s' Hs [= <- <-]. by apply H. Qed.
Lemma triple_gets {A} (P : S -> Prop) (f : S -> A) (Q : A -> S -> Prop) : (forall s, P s -> Q (f s) s) -> triple P (gets f) Q.
Proof. intros H s b s' Hs [= <- <-]. by apply H. Qed.
Lemma triple_modify (P : S -> Prop) (f : S -> S) (Q : unit -> S -> Prop) : (forall s, P s -> Q tt (f s)) -> triple P (modify f) Q.
Proof. intros H s b s' Hs [= <- <-]. by apply H. Qed.
Lemma triple_panic {A} P m (Q : A -> S -> Prop) : triple P (panic m) Q.
Proof. by intros s a s' _ [=]. Qed.
Lemma triple_undef {A} P (Q : A -> S -> Prop) : triple P undef Q.
Proof. by intros s a s' _ [=]. Qed.
Lemma triple_hang {A} P (Q : A -> S -> Prop) : triple P hang Q.
Proof. by intros s a s' _ [=]. Qed.
Lemma triple_pure {A} (P : S -> Prop) (phi : Prop) (c : M S A) Q : (phi -> triple P c Q) -> triple (fun s => P s /\ phi) c Q.
Proof. intros H s a s' [Hs Hp] E. by eapply H. Qed.
Lemma triple_weak {A} (P P' : S -> Prop) (c : M S A) Q : (forall s, P' s -> P s) -> triple P c Q -> triple P' c Q.
Proof. intros Hp Hc s a s' Hs E. eapply Hc; [by apply Hp|exact E]. Qed.
Lemma triple_post {A} (P : S -> Prop) (c : M S A) Q (Q' : A -> S -> Prop) : (forall a s, Q a s -> Q' a s) -> triple P c Q -> triple P c Q'.
Proof. intros Hp Hc s a s' Hs E. apply Hp. by eapply Hc. Qed.
End Triples.

(** The invariant rule for counted loops. *)
Lemma wp_forz {T} (I : Z -> T -> Prop) n i (body : Z -> M T unit) s :
  I i s ->
  (forall j s', i <= j < i + Z.of_nat n -> I j s' -> wp (body j) (fun _ => I (j + 1)) s') ->
  wp (forz n i body) (fun _ => I (i + Z.of_nat n)) s.
Proof.
  revert i s. induction n as [|n IH]; intros i s Hi Hb.
  - apply wp_ret. by rewrite Z.add_0_r.
  - apply wp_bind. eapply wp_mono; [apply Hb; [lia|done]|]. intros [] s' Hi'.
    replace (i + Z.of_nat (S n)) with (i + 1 + Z.of_nat n) by lia.
    apply IH; [done|]. intros j s'' Hj. apply Hb. lia.
Qed.

(** ** Integers *)
Lemma u8_range z : 0 <= u8 z < 256.
Proof. apply (Z.mod_pos_bound z 256). lia. Qed.
Lemma u32_range z : 0 <= u32 z < 2 ^ 32.
Proof. by apply Z.mod_pos_bound. Qed.
Lemma u64_range z : 0 <= u64 z < 2 ^ 64.
Proof. by apply Z.mod_pos_bound. Qed.
Lemma s32_range z : - 2 ^ 31 <= s32 z < 2 ^ 31.
Proof. unfold s32. pose proof (Z.mod_pos_bound (z + 2 ^ 31) (2 ^ 32)). lia. Qed.
Lemma u8_small z : 0 <= z < 256 -> u8 z = z.
Proof. intros. by apply Z.mod_small. Qed.
Lemma u32_small z : 0 <= z < 2 ^ 32 -> u32 z = z.
Proof. intros. by apply Z.mod_small. Qed.
Lemma u64_small z : 0 <= z < 2 ^ 64 -> u64 z = z.
Proof. intros. by apply Z.mod_small. Qed.
Lemma s32_small z : - 2 ^ 31 <= z < 2 ^ 31 -> s32 z = z.
Proof. intros. unfold s32. rewrite Z.mod_small; lia. Qed.

Lemma hasbit_true w m : hasbit w m = true <-> Z.land w m <> 0.
Proof. unfold hasbit. rewrite negb_true_iff, Z.eqb_neq. done. Qed.
Lemma hasbit_false w m : hasbit w m = false <-> Z.land w m = 0.
Proof. unfold hasbit. rewrite negb_false_iff, Z.eqb_eq. done. Qed.

(** A single-bit mask tests one bit. *)
Lemma hasbit_pow2 w n : 0 <= n -> hasbit w (2 ^ n) = Z.testbit w n.
Proof.
  intros Hn. unfold hasbit. apply eq_true_iff_eq. rewrite negb_true_iff, Z.eqb_neq. split.
  - intros H. destruct (Z.testbit w n) eqn:E; [done|]. exfalso. apply H.
    apply Z.bits_inj'. intros i Hi. rewrite Z.land_spec, Z.bits_0, Z.pow2_bits_eqb by lia.
    destruct (Z.eqb_spec n i) as [->|]; [by rewrite E | by rewrite andb_false_r].
  - intros H E. apply (f_equal (fun z => Z.testbit z n)) in E.
    rewrite Z.land_spec, Z.bits_0, Z.pow2_bits_eqb, H, Z.eqb_refl in E by lia. done.
Qed.

(** Bounds of bitwise operations. *)
Lemma bits_bound x n : 0 <= n -> 0 <= x -> (forall i, n <= i -> Z.testbit x i = false) -> x < 2 ^ n.
Proof.
  intros Hn Hx H. assert (x = x mod 2 ^ n) as ->.
  { apply Z.bits_inj'. intros i Hi. destruct (Z.ltb_spec i n).
    - by rewrite Z.mod_pow2_bits_low.
    - rewrite H, Z.mod_pow2_bits_high by lia. done. }
  apply Z.mod_pos_bound, Z.pow_pos_nonneg; lia.
Qed.
Lemma bits_high x n i : 0 <= x < 2 ^ n -> n <= i -> Z.testbit x i = false.
Proof.
  intros Hx Hi. destruct (Z.ltb_spec n 0) as [Hn|Hn]; [rewrite Z.pow_neg_r in Hx; lia|].
  rewrite <- (Z.mod_small x (2 ^ n)) by done. by apply Z.mod_pow2_bits_high.
Qed.
Lemma lor_range a b n : 0 <= n -> 0 <= a < 2 ^ n -> 0 <= b < 2 ^ n -> 0 <= Z.lor a b < 2 ^ n.
Proof.
  intros Hn Ha Hb. assert (0 <= Z.lor a b) by (apply Z.lor_nonneg; lia). split; [done|].
  apply bits_bound; [done..|]. intros i Hi. rewrite Z.lor_spec.
  by rewrite (bits_high a n), (bits_high b n).
Qed.
Lemma land_range a b n : 0 <= n -> 0 <= a < 2 ^ n -> 0 <= Z.land a b < 2 ^ n.
Proof.
  intros Hn Ha. assert (0 <= Z.land a b) by (apply Z.land_nonneg; lia). split; [done|].
  apply bits_bound; [done..|]. intros i Hi. rewrite Z.land_spec. by rewrite (bits_high a n).
Qed.

(** ** Automation *)
Create HintDb kernel.
#[export] Hint Resolve u8_range u32_range u64_range s32_range : kernel.

(** One step of symbolic execution. *)
Ltac wpstep :=
  match goal with
  | |- wp (ret _) _ _ => apply wp_ret
  | |- wp (bind _ _) _ _ => apply wp_bind
  | |- wp (gets _) _ _ => apply wp_gets
  | |- wp (modify _) _ _ => apply wp_modify
  | |- wp (if ?b then _ else _) _ _ => destruct b eqn:?
  | |- wp (match ?x with _ => _ end) _ _ => destruct x eqn:?
  end; cbn beta.
Ltac wpsteps := repeat wpstep.

(** Use a specification lemma [H : wp c P s] for the head of the goal. *)
Ltac wpuse H := eapply wp_mono; [apply H|]; cbn beta.

(** Boolean tests on integers into propositions. *)
Ltac boolz :=
  repeat match goal with
  | H : (_ =? _) = true |- _ => apply Z.eqb_eq in H
  | H : (_ =? _) = false |- _ => apply Z.eqb_neq in H
  | H : (_ <? _) = true |- _ => apply Z.ltb_lt in H
  | H : (_ <? _) = false |- _ => apply Z.ltb_ge in H
  | H : (_ <=? _) = true |- _ => apply Z.leb_le in H
  | H : (_ <=? _) = false |- _ => apply Z.leb_gt in H
  | H : _ && _ = true |- _ => apply andb_true_iff in H; destruct H
  | H : _ || _ = false |- _ => apply orb_false_iff in H; destruct H
  | H : negb _ = true |- _ => apply negb_true_iff in H
  | H : negb _ = false |- _ => apply negb_false_iff in H
  end.
