(* ===== verification/Riscv.v ===== *)
(** * kernel/riscv.h, kernel/memlayout.h, kernel/param.h, kernel/fcntl.h

    The constants and the address and page-table-entry arithmetic of the
    kernel, as functions on [Z]; the round trips of the PTE encoding and the
    decomposition of a virtual address into its three indices. *)

From S2P Require Import Prelude.
Local Open Scope Z_scope.

(** ** kernel/param.h *)
Definition NPROC : Z := 64.
Definition NCPU : Z := 8.
Definition NOFILE : Z := 16.
Definition NFILE : Z := 100.
Definition NINODE : Z := 50.
Definition NDEV : Z := 10.
Definition ROOTDEV : Z := 1.
Definition MAXARG : Z := 32.
Definition MAXOPBLOCKS : Z := 10.
Definition LOGSIZE : Z := MAXOPBLOCKS * 3.
Definition NBUF : Z := MAXOPBLOCKS * 3.
Definition FSSIZE : Z := 2000.
Definition MAXPATH : Z := 128.

(** ** kernel/fcntl.h *)
Definition O_RDONLY : Z := 0.
Definition O_WRONLY : Z := 1.
Definition O_RDWR : Z := 2.
Definition O_CREATE : Z := 0x200.
Definition O_TRUNC : Z := 0x400.

(** ** kernel/riscv.h: pages *)
Definition PGSIZE : Z := 4096.
Definition PGSHIFT : Z := 12.
Definition PGROUNDUP (sz : Z) : Z := Z.land (u64 (sz + PGSIZE - 1)) (u64 (Z.lnot (PGSIZE - 1))).
Definition PGROUNDDOWN (a : Z) : Z := Z.land a (u64 (Z.lnot (PGSIZE - 1))).

(** ** kernel/riscv.h: page-table entries *)
Definition PTE_V : Z := Z.shiftl 1 0.
Definition PTE_R : Z := Z.shiftl 1 1.
Definition PTE_W : Z := Z.shiftl 1 2.
Definition PTE_X : Z := Z.shiftl 1 3.
Definition PTE_U : Z := Z.shiftl 1 4.
Definition PTE_COW : Z := Z.shiftl 1 8.

Definition PA2PTE (pa : Z) : Z := u64 (Z.shiftl (Z.shiftr pa 12) 10).
Definition PTE2PA (pte : Z) : Z := u64 (Z.shiftl (Z.shiftr pte 10) 12).
Definition PTE_FLAGS (pte : Z) : Z := Z.land pte 0x3FF.

Definition PXMASK : Z := 0x1FF.
Definition PXSHIFT (level : Z) : Z := PGSHIFT + 9 * level.
Definition PX (level va : Z) : Z := Z.land (Z.shiftr va (PXSHIFT level)) PXMASK.

Definition MAXVA : Z := Z.shiftl 1 (9 + 9 + 9 + 12 - 1).

Definition SATP_SV39 : Z := Z.shiftl 8 60.
Definition MAKE_SATP (pagetable : Z) : Z := Z.lor SATP_SV39 (Z.shiftr pagetable 12).

Definition SSTATUS_SPP : Z := Z.shiftl 1 8.
Definition SSTATUS_SPIE : Z := Z.shiftl 1 5.
Definition SSTATUS_SIE : Z := Z.shiftl 1 1.

(** ** kernel/memlayout.h *)
Definition UART0 : Z := 0x10000000.
Definition UART0_IRQ : Z := 10.
Definition VIRTIO0 : Z := 0x10001000.
Definition VIRTIO0_IRQ : Z := 1.
Definition PLIC : Z := 0x0c000000.
Definition KERNBASE : Z := 0x80000000.
Definition PHYSTOP : Z := KERNBASE + 128 * 1024 * 1024.
Definition TRAMPOLINE : Z := MAXVA - PGSIZE.
Definition KSTACK (p : Z) : Z := TRAMPOLINE - (p + 1) * 2 * PGSIZE.
Definition TRAPFRAME : Z := TRAMPOLINE - PGSIZE.

(** kernel/riscv.h: the slot of a physical page in the reference counts. *)
Definition PA2COWINDEX (pa : Z) : Z := u64 (pa - KERNBASE) / PGSIZE.

(** The virtual page number and the page base of an address. *)
Definition vpn (va : Z) : Z := va / PGSIZE.
Definition pg (a : Z) : Z := a - a mod PGSIZE.

Arguments PGROUNDUP : simpl never.
Arguments PGROUNDDOWN : simpl never.
Arguments PA2PTE : simpl never.
Arguments PTE2PA : simpl never.
Arguments PTE_FLAGS : simpl never.
Arguments PX : simpl never.
Arguments PA2COWINDEX : simpl never.
Arguments vpn : simpl never.
Arguments pg : simpl never.

(** Unfold the constants of the memory layout. *)
Ltac layout := unfold TRAPFRAME, TRAMPOLINE, PHYSTOP, KERNBASE, PGSIZE in *.

(** ** Page rounding *)
Lemma u64_lnot_mask : u64 (Z.lnot (PGSIZE - 1)) = 2 ^ 64 - 4096.
Proof. reflexivity. Qed.

Lemma land_pgmask a : 0 <= a < 2 ^ 64 -> Z.land a (2 ^ 64 - 4096) = a - a mod 4096.
Proof.
  intros Ha.
  assert (E : a - a mod 4096 = Z.shiftl (Z.shiftr a 12) 12).
  { rewrite Z.shiftl_mul_pow2, Z.shiftr_div_pow2 by lia.
    change (2 ^ 12) with 4096. pose proof (Z.div_mod a 4096). lia. }
  rewrite E. change (2 ^ 64 - 4096) with (Z.shiftl (Z.ones 52) 12).
  apply Z.bits_inj'. intros i Hi. rewrite Z.land_spec, !Z.shiftl_spec by lia.
  destruct (Z.ltb_spec i 12).
  { rewrite !(Z.testbit_neg_r _ (i - 12)) by lia. apply andb_false_r. }
  rewrite Z.shiftr_spec by lia. replace (i - 12 + 12) with i by lia.
  destruct (Z.ltb_spec (i - 12) 52).
  { rewrite Z.ones_spec_low by lia. apply andb_true_r. }
  rewrite Z.ones_spec_high by lia. rewrite andb_false_r. symmetry.
  destruct (Z.eq_dec a 0) as [->|Hz]; [by rewrite Z.bits_0|].
  apply Z.bits_above_log2; [lia|]. apply Z.log2_lt_pow2; [lia|].
  apply Z.lt_le_trans with (2 ^ 64); [lia|]. apply Z.pow_le_mono_r; lia.
Qed.

Lemma PGROUNDDOWN_pg a : 0 <= a < 2 ^ 64 -> PGROUNDDOWN a = pg a.
Proof. intros. unfold PGROUNDDOWN, pg. rewrite u64_lnot_mask. by apply land_pgmask. Qed.

Lemma PGROUNDUP_eq a : 0 <= a < 2 ^ 64 - 4096 ->
  PGROUNDUP a = (a + 4095) / 4096 * 4096.
Proof.
  intros. unfold PGROUNDUP, PGSIZE. rewrite u64_small by lia.
  change (u64 (Z.lnot (4096 - 1))) with (2 ^ 64 - 4096).
  rewrite land_pgmask by lia. pose proof (Z.div_mod (a + 4096 - 1) 4096).
  replace (a + 4096 - 1) with (a + 4095) in * by lia. lia.
Qed.

Lemma pg_le a : 0 <= a -> 0 <= pg a <= a.
Proof. unfold pg, PGSIZE. pose proof (Z.mod_pos_bound a 4096). pose proof (Z.mod_le a 4096). lia. Qed.

Lemma pg_aligned a : pg a mod PGSIZE = 0.
Proof.
  unfold pg, PGSIZE. pose proof (Z.div_mod a 4096).
  replace (a - a mod 4096) with (a / 4096 * 4096) by lia. by apply Z.mod_mul.
Qed.

Lemma pg_page p o : p mod PGSIZE = 0 -> 0 <= o < PGSIZE -> pg (p + o) = p.
Proof.
  unfold pg, PGSIZE. intros Hp Ho. pose proof (Z.div_mod p 4096).
  replace (p + o) with (o + p / 4096 * 4096) by lia.
  rewrite Z.mod_add by lia. rewrite Z.mod_small; lia.
Qed.

Lemma pg_self p : p mod PGSIZE = 0 -> pg p = p.
Proof. unfold pg. lia. Qed.

(** ** Page-table entries *)
Lemma PTE2PA_eq w : PTE2PA w = u64 (w / 1024 * 4096).
Proof. unfold PTE2PA. by rewrite Z.shiftl_mul_pow2, Z.shiftr_div_pow2 by lia. Qed.

Lemma PA2PTE_eq pa : PA2PTE pa = u64 (pa / 4096 * 1024).
Proof. unfold PA2PTE. by rewrite Z.shiftl_mul_pow2, Z.shiftr_div_pow2 by lia. Qed.

Lemma PTE2PA_aligned w : PTE2PA w mod PGSIZE = 0.
Proof.
  rewrite PTE2PA_eq. unfold u64, PGSIZE. change (2 ^ 64) with (2 ^ 52 * 4096).
  rewrite Z.mul_mod_distr_r by lia. by apply Z.mod_mul.
Qed.

Lemma PTE2PA_range w : 0 <= PTE2PA w < 2 ^ 64.
Proof. apply u64_range. Qed.

(** The physical address of an entry depends only on the bits above the flags. *)
Lemma PTE2PA_high w w' : Z.shiftr w 10 = Z.shiftr w' 10 -> PTE2PA w = PTE2PA w'.
Proof. unfold PTE2PA. by intros ->. Qed.

Lemma PA2PTE_lor pa f : 0 <= pa < 2 ^ 56 -> 0 <= f < 1024 ->
  Z.lor (PA2PTE pa) f = pa / 4096 * 1024 + f.
Proof.
  intros Hpa Hf. rewrite PA2PTE_eq, u64_small; last first.
  { pose proof (Z.div_pos pa 4096). pose proof (Z.div_lt_upper_bound pa 4096 (2 ^ 44)). lia. }
  assert (Z.land (pa / 4096 * 1024) f = 0) as Hdis.
  { apply Z.bits_inj'. intros i Hi. rewrite Z.land_spec, Z.bits_0.
    change 1024 with (2 ^ 10). rewrite <- Z.shiftl_mul_pow2 by lia.
    destruct (Z.ltb_spec i 10); [by rewrite Z.shiftl_spec_low by lia|].
    rewrite <- (Z.mod_small f (2 ^ 10)), Z.mod_pow2_bits_high by lia. apply andb_false_r. }
  rewrite <- Z.lxor_lor by done. symmetry. by apply Z.add_nocarry_lxor.
Qed.

(** Encoding a page address with flags and decoding it gives them back. *)
Lemma PTE2PA_PA2PTE pa f : 0 <= pa < 2 ^ 56 -> pa mod PGSIZE = 0 -> 0 <= f < 1024 ->
  PTE2PA (Z.lor (PA2PTE pa) f) = pa.
Proof.
  unfold PGSIZE. intros Hpa Hal Hf. rewrite PA2PTE_lor, PTE2PA_eq by lia.
  pose proof (Z.div_mod pa 4096).
  replace ((pa / 4096 * 1024 + f) / 1024) with (pa / 4096).
  - rewrite u64_small; lia.
  - rewrite Z.add_comm, Z.div_add by lia. rewrite (Z.div_small f); lia.
Qed.

Lemma PTE_FLAGS_eq w : PTE_FLAGS w = w mod 1024.
Proof. unfold PTE_FLAGS. change 0x3FF with (Z.ones 10). by rewrite Z.land_ones by lia. Qed.

Lemma PTE_FLAGS_PA2PTE pa f : 0 <= pa < 2 ^ 56 -> 0 <= f < 1024 ->
  PTE_FLAGS (Z.lor (PA2PTE pa) f) = f.
Proof.
  intros. rewrite PA2PTE_lor, PTE_FLAGS_eq by lia.
  rewrite Z.add_comm, Z.mod_add by lia. by apply Z.mod_small.
Qed.

Lemma PTE_FLAGS_range w : 0 <= PTE_FLAGS w < 1024.
Proof. rewrite PTE_FLAGS_eq. apply Z.mod_pos_bound. lia. Qed.

Lemma PTE_FLAGS_testbit w i : 0 <= i -> Z.testbit (PTE_FLAGS w) i = (i <? 10) && Z.testbit w i.
Proof.
  intros. rewrite PTE_FLAGS_eq. change 1024 with (2 ^ 10).
  destruct (Z.ltb_spec i 10); [by rewrite Z.mod_pow2_bits_low by lia|].
  by rewrite Z.mod_pow2_bits_high by lia.
Qed.

(** Flag tests as bit tests. *)
Lemma hasbit_V w : hasbit w PTE_V = Z.testbit w 0.
Proof. apply (hasbit_pow2 w 0). lia. Qed.
Lemma hasbit_R w : hasbit w PTE_R = Z.testbit w 1.
Proof. apply (hasbit_pow2 w 1). lia. Qed.
Lemma hasbit_W w : hasbit w PTE_W = Z.testbit w 2.
Proof. apply (hasbit_pow2 w 2). lia. Qed.
Lemma hasbit_X w : hasbit w PTE_X = Z.testbit w 3.
Proof. apply (hasbit_pow2 w 3). lia. Qed.
Lemma hasbit_U w : hasbit w PTE_U = Z.testbit w 4.
Proof. apply (hasbit_pow2 w 4). lia. Qed.
Lemma hasbit_COW w : hasbit w PTE_COW = Z.testbit w 8.
Proof. apply (hasbit_pow2 w 8). lia. Qed.
Create Rewrite HintDb ptebits.
#[export] Hint Rewrite hasbit_V hasbit_R hasbit_W hasbit_X hasbit_U hasbit_COW : ptebits.

(** ** Virtual addresses *)
Lemma PX_eq l va : 0 <= l -> PX l va = va / 2 ^ (12 + 9 * l) mod 512.
Proof.
  intros. unfold PX, PXMASK, PXSHIFT, PGSHIFT. change 0x1FF with (Z.ones 9).
  rewrite Z.land_ones, Z.shiftr_div_pow2 by lia. done.
Qed.

Lemma PX_range l va : 0 <= PX l va < 512.
Proof.
  unfold PX, PXMASK. change 0x1FF with (Z.ones 9). rewrite Z.land_ones by lia.
  by apply Z.mod_pos_bound.
Qed.
#[export] Hint Resolve PX_range PTE2PA_aligned PTE2PA_range PTE_FLAGS_range : kernel.

Lemma MAXVA_eq : MAXVA = 2 ^ 38.
Proof. reflexivity. Qed.

(** The three indices and the page number determine each other. *)
Lemma vpn_PX va : 0 <= va < MAXVA ->
  vpn va = PX 2 va * 2 ^ 18 + PX 1 va * 2 ^ 9 + PX 0 va.
Proof.
  rewrite MAXVA_eq. intros H. unfold vpn, PGSIZE. rewrite !PX_eq by lia.
  change (12 + 9 * 2) with 30. change (12 + 9 * 1) with 21. change (12 + 9 * 0) with 12.
  replace (va / 2 ^ 30) with (va / 2 ^ 12 / 512 / 512) by (by rewrite !Z.div_div by lia).
  replace (va / 2 ^ 21) with (va / 2 ^ 12 / 512) by (by rewrite !Z.div_div by lia).
  change (2 ^ 12) with 4096. set (n := va / 4096).
  assert (0 <= n < 2 ^ 26) by (split; [apply Z.div_pos|apply Z.div_lt_upper_bound]; lia).
  pose proof (Z.div_mod n 512). pose proof (Z.div_mod (n / 512) 512).
  rewrite (Z.mod_small (n / 512 / 512)); [lia|].
  split; [apply Z.div_pos; [apply Z.div_pos|]; lia|].
  do 2 (apply Z.div_lt_upper_bound; [lia|]). lia.
Qed.

Lemma PX_vpn l va : 0 <= l -> PX l va = vpn va / 2 ^ (9 * l) mod 512.
Proof.
  intros. rewrite PX_eq by lia. unfold vpn, PGSIZE. change 4096 with (2 ^ 12).
  rewrite Z.div_div by (try apply Z.pow_pos_nonneg; lia). by rewrite <- Z.pow_add_r by lia.
Qed.

(** Addresses with the same indices are in the same page. *)
Lemma PX_inj va va' : 0 <= va < MAXVA -> 0 <= va' < MAXVA ->
  PX 2 va = PX 2 va' -> PX 1 va = PX 1 va' -> PX 0 va = PX 0 va' -> vpn va = vpn va'.
Proof. intros H H' E2 E1 E0. rewrite !vpn_PX by done. by rewrite E2, E1, E0. Qed.
