(* ===== verification/Mem.v ===== *)
(** * Byte-addressed memory and kernel/string.c

    Physical memory is a finite map from byte addresses to bytes (an address
    that was never written reads as 0; no theorem relies on that value).
    Multi-byte words are little-endian, as on RISC-V.  The routines of
    kernel/string.c are functions from memory to memory. *)

From S2P Require Import Prelude.
Local Open Scope Z_scope.

(** ** Loads and stores *)
Definition ld8 (m : gmap Z Z) (a : Z) : Z := u8 (default 0 (m !! a)).
Definition st8 (m : gmap Z Z) (a v : Z) : gmap Z Z := <[a := u8 v]> m.

Fixpoint ldn (k : nat) (m : gmap Z Z) (a : Z) : Z :=
  match k with
  | O => 0
  | S k' => ld8 m a + 256 * ldn k' m (a + 1)
  end.
Fixpoint stn (k : nat) (m : gmap Z Z) (a v : Z) : gmap Z Z :=
  match k with
  | O => m
  | S k' => stn k' (st8 m a v) (a + 1) (v / 256)
  end.
Definition ld64 (m : gmap Z Z) (a : Z) : Z := ldn 8 m a.
Definition st64 (m : gmap Z Z) (a v : Z) : gmap Z Z := stn 8 m a v.
Arguments ld64 : simpl never.
Arguments st64 : simpl never.

(** [x] lies in the [n] bytes from [a]. *)
Definition inrange (a n x : Z) : bool := (a <=? x) && (x <? a + n).

(** ** kernel/string.c *)
Module KString.

(** [memset]: [for(i = 0; i < n; i++) cdst[i] = c]. *)
Fixpoint memset_loop (n : nat) (m : gmap Z Z) (dst c : Z) : gmap Z Z :=
  match n with
  | O => m
  | S n' => memset_loop n' (st8 m dst c) (dst + 1) c
  end.
Definition memset (m : gmap Z Z) (dst c n : Z) : gmap Z Z := memset_loop (Z.to_nat n) m dst c.
Arguments memset : simpl never.

(** [memcmp]: difference of the first unequal bytes, 0 when there is none. *)
Fixpoint memcmp (n : nat) (m : gmap Z Z) (s1 s2 : Z) : Z :=
  match n with
  | O => 0
  | S n' => if ld8 m s1 =? ld8 m s2 then memcmp n' m (s1 + 1) (s2 + 1)
            else ld8 m s1 - ld8 m s2
  end.

(** The two loops of [memmove]. *)
Fixpoint copy_up (n : nat) (m : gmap Z Z) (d s : Z) : gmap Z Z :=
  match n with
  | O => m
  | S n' => copy_up n' (st8 m d (ld8 m s)) (d + 1) (s + 1)
  end.
Fixpoint copy_down (n : nat) (m : gmap Z Z) (d s : Z) : gmap Z Z :=
  match n with
  | O => m
  | S n' => copy_down n' (st8 m (d - 1) (ld8 m (s - 1))) (d - 1) (s - 1)
  end.
Definition memmove (m : gmap Z Z) (dst src n : Z) : gmap Z Z :=
  if n =? 0 then m
  else if (src <? dst) && (dst <? src + n)
       then copy_down (Z.to_nat n) m (dst + n) (src + n)
       else copy_up (Z.to_nat n) m dst src.
Arguments memmove : simpl never.
Definition memcpy (m : gmap Z Z) (dst src n : Z) : gmap Z Z := memmove m dst src n.

(** [while(n > 0 && *p && *p == *q) n--, p++, q++; ...] *)
Fixpoint strncmp (n : nat) (m : gmap Z Z) (p q : Z) : Z :=
  match n with
  | O => 0
  | S n' => if negb (ld8 m p =? 0) && (ld8 m p =? ld8 m q)
            then strncmp n' m (p + 1) (q + 1)
            else ld8 m p - ld8 m q
  end.

(** [strncpy]: the zero-filling tail loop is [memset_loop] with 0. *)
Fixpoint strncpy (n : nat) (m : gmap Z Z) (s t : Z) : gmap Z Z :=
  match n with
  | O => m
  | S n' => let c := ld8 m t in
            let m' := st8 m s c in
            if c =? 0 then memset_loop n' m' (s + 1) 0
            else strncpy n' m' (s + 1) (t + 1)
  end.

(** [safestrcpy]: copies at most n-1 bytes, then terminates. *)
Fixpoint safestrcpy_loop (n : nat) (m : gmap Z Z) (s t : Z) : gmap Z Z :=
  match n with
  | O => st8 m s 0
  | S n' => let c := ld8 m t in
            let m' := st8 m s c in
            if c =? 0 then st8 m' (s + 1) 0
            else safestrcpy_loop n' m' (s + 1) (t + 1)
  end.
Definition safestrcpy (m : gmap Z Z) (s t n : Z) : gmap Z Z :=
  if n <=? 0 then m else safestrcpy_loop (Z.to_nat (n - 1)) m s t.

(** [strlen] runs until a NUL; [fuel] bounds the scan. *)
Fixpoint strlen (fuel : nat) (m : gmap Z Z) (s : Z) : option Z :=
  match fuel with
  | O => None
  | S f => if ld8 m s =? 0 then Some 0
           else match strlen f m (s + 1) with Some n => Some (n + 1) | None => None end
  end.

(** The C string at [a], cut at [n] bytes: what [strncmp] compares. *)
Fixpoint cstr (n : nat) (m : gmap Z Z) (a : Z) : list Z :=
  match n with
  | O => []
  | S n' => if ld8 m a =? 0 then [] else ld8 m a :: cstr n' m (a + 1)
  end.

(** ** Theorems *)
Lemma inrange_true a n x : inrange a n x = true <-> a <= x < a + n.
Proof. unfold inrange. rewrite andb_true_iff, Z.leb_le, Z.ltb_lt. done. Qed.
Lemma inrange_false a n x : inrange a n x = false <-> ~ (a <= x < a + n).
Proof. rewrite <- inrange_true. by rewrite not_true_iff_false. Qed.

(** Case analysis on the range tests of the goal. *)
Ltac inr_cases :=
  repeat match goal with
  | |- context [inrange ?a ?n ?x] =>
      let E := fresh "E" in
      destruct (inrange a n x) eqn:E;
      [rewrite inrange_true in E | rewrite inrange_false in E]
  end.

Lemma ld8_range m a : 0 <= ld8 m a < 256.
Proof. apply u8_range. Qed.

Lemma u8_ld8 m a : u8 (ld8 m a) = ld8 m a.
Proof. apply u8_small, ld8_range. Qed.

Lemma ld8_st8 m a v x : ld8 (st8 m a v) x = if a =? x then u8 v else ld8 m x.
Proof.
  unfold ld8, st8. destruct (Z.eqb_spec a x) as [->|Hne].
  - rewrite lookup_insert_eq. cbn. apply u8_small, u8_range.
  - by rewrite lookup_insert_ne.
Qed.

Lemma memset_loop_spec n m d c x :
  ld8 (memset_loop n m d c) x = if inrange d (Z.of_nat n) x then u8 c else ld8 m x.
Proof.
  revert m d. induction n as [|n IH]; intros m d; cbn [memset_loop].
  { inr_cases; [lia|done]. }
  rewrite IH, ld8_st8. destruct (Z.eqb_spec d x); inr_cases; try done; lia.
Qed.

Lemma memset_spec m d c n x : 0 <= n ->
  ld8 (memset m d c n) x = if inrange d n x then u8 c else ld8 m x.
Proof. intros. unfold memset. rewrite memset_loop_spec, Z2Nat.id by lia. done. Qed.

Lemma copy_up_spec n m d s x : d <= s \/ s + Z.of_nat n <= d ->
  ld8 (copy_up n m d s) x = if inrange d (Z.of_nat n) x then ld8 m (x - d + s) else ld8 m x.
Proof.
  revert m d s. induction n as [|n IH]; intros m d s Hd; cbn [copy_up].
  { inr_cases; [lia|done]. }
  rewrite IH by lia. rewrite !ld8_st8, u8_ld8.
  destruct (Z.eqb_spec d x); destruct (Z.eqb_spec d (x - (d + 1) + (s + 1)));
    inr_cases; try lia; try done; f_equal; lia.
Qed.

Lemma copy_down_spec n m d s x : s <= d ->
  ld8 (copy_down n m d s) x =
  if inrange (d - Z.of_nat n) (Z.of_nat n) x then ld8 m (x - d + s) else ld8 m x.
Proof.
  revert m d s. induction n as [|n IH]; intros m d s Hd; cbn [copy_down].
  { inr_cases; [lia|done]. }
  rewrite IH by lia. rewrite !ld8_st8, u8_ld8.
  destruct (Z.eqb_spec (d - 1) x); destruct (Z.eqb_spec (d - 1) (x - (d - 1) + (s - 1)));
    inr_cases; try lia; try done; f_equal; lia.
Qed.

(** [memmove] copies the source as it was before the call, however the two
    ranges overlap. *)
Lemma memmove_spec m dst src n x : 0 <= n ->
  ld8 (memmove m dst src n) x =
  if inrange dst n x then ld8 m (x - dst + src) else ld8 m x.
Proof.
  intros Hn. unfold memmove. destruct (Z.eqb_spec n 0) as [->|Hn0].
  { inr_cases; [lia|done]. }
  destruct ((src <? dst) && (dst <? src + n)) eqn:E.
  - boolz. rewrite copy_down_spec by lia. rewrite Z2Nat.id by lia.
    replace (dst + n - n) with dst by lia. inr_cases; [f_equal; lia|done].
  - rewrite copy_up_spec by (rewrite andb_false_iff, !Z.ltb_ge in E; lia).
    by rewrite Z2Nat.id by lia.
Qed.
End KString.
Import KString.

(** Words. *)
Lemma ldn_ext k m m' a b :
  (forall i, 0 <= i < Z.of_nat k -> ld8 m (a + i) = ld8 m' (b + i)) -> ldn k m a = ldn k m' b.
Proof.
  revert a b. induction k as [|k IH]; intros a b H; cbn [ldn]; [done|].
  f_equal.
  - specialize (H 0). rewrite !Z.add_0_r in H. apply H. lia.
  - f_equal. apply IH. intros i Hi. specialize (H (i + 1)).
    replace (a + 1 + i) with (a + (i + 1)) by lia.
    replace (b + 1 + i) with (b + (i + 1)) by lia. apply H. lia.
Qed.

Lemma ldn_range k m a : 0 <= ldn k m a < 256 ^ Z.of_nat k.
Proof.
  revert a. induction k as [|k IH]; intros a; cbn [ldn]; [done|].
  rewrite Nat2Z.inj_succ, Z.pow_succ_r by lia. specialize (IH (a + 1)).
  pose proof (ld8_range m a). lia.
Qed.

Lemma ld64_range m a : 0 <= ld64 m a < 2 ^ 64.
Proof. apply (ldn_range 8). Qed.
#[export] Hint Resolve ld64_range ld8_range : kernel.

Lemma ld8_stn_other k m a v x : inrange a (Z.of_nat k) x = false -> ld8 (stn k m a v) x = ld8 m x.
Proof.
  revert m a v. induction k as [|k IH]; intros m a v H; cbn [stn]; [done|].
  rewrite inrange_false in H. rewrite IH by (rewrite inrange_false; lia).
  rewrite ld8_st8. destruct (Z.eqb_spec a x); [lia|done].
Qed.

Lemma ldn_stn_same k m a v : ldn k (stn k m a v) a = v mod 256 ^ Z.of_nat k.
Proof.
  revert m a v. induction k as [|k IH]; intros m a v; cbn [ldn stn].
  { by rewrite Z.mod_1_r. }
  rewrite IH. rewrite ld8_stn_other by (rewrite inrange_false; lia).
  rewrite ld8_st8, Z.eqb_refl. rewrite Nat2Z.inj_succ, Z.pow_succ_r by lia.
  unfold u8. change (2 ^ 8) with 256.
  rewrite Z.rem_mul_r by (try apply Z.pow_nonzero; lia). done.
Qed.

Lemma ld64_st64_same m a v : ld64 (st64 m a v) a = u64 v.
Proof. apply (ldn_stn_same 8). Qed.

Lemma ld64_st64_other m a b v : b + 8 <= a \/ a + 8 <= b -> ld64 (st64 m a v) b = ld64 m b.
Proof.
  intros H. apply ldn_ext. intros i Hi. apply (ld8_stn_other 8).
  rewrite inrange_false. lia.
Qed.

Lemma ld8_st64_other m a v x : ~ (a <= x < a + 8) -> ld8 (st64 m a v) x = ld8 m x.
Proof. intros H. apply (ld8_stn_other 8). rewrite inrange_false. lia. Qed.

Lemma ld8_stn k m a v x :
  ld8 (stn k m a v) x = if inrange a (Z.of_nat k) x then u8 (v / 256 ^ (x - a)) else ld8 m x.
Proof.
  revert m a v. induction k as [|k IH]; intros m a v; cbn [stn].
  { inr_cases; [lia|done]. }
  rewrite IH, ld8_st8. destruct (Z.eqb_spec a x) as [->|Hne]; inr_cases; try lia; try done.
  - by rewrite Z.sub_diag, Z.div_1_r.
  - rewrite Z.div_div by (try apply Z.pow_pos_nonneg; lia).
    rewrite <- Z.pow_succ_r by lia. do 3 f_equal. lia.
Qed.

Lemma ld8_st64 m a v x :
  ld8 (st64 m a v) x = if inrange a 8 x then u8 (v / 256 ^ (x - a)) else ld8 m x.
Proof. apply (ld8_stn 8). Qed.

Lemma ldn_zero k m a : (forall i, 0 <= i < Z.of_nat k -> ld8 m (a + i) = 0) -> ldn k m a = 0.
Proof.
  revert a. induction k as [|k IH]; intros a H; cbn [ldn]; [done|].
  rewrite IH.
  - specialize (H 0). rewrite Z.add_0_r in H. rewrite H by lia. done.
  - intros i Hi. replace (a + 1 + i) with (a + (i + 1)) by lia. apply H. lia.
Qed.

Lemma ld64_memset_zero m d n a : 0 <= n -> d <= a -> a + 8 <= d + n -> ld64 (memset m d 0 n) a = 0.
Proof.
  intros. apply ldn_zero. intros i Hi. rewrite memset_spec by lia.
  inr_cases; [done|lia].
Qed.

(** Two memories agree on a page. *)
Definition same_page (m m' : gmap Z Z) (p : Z) : Prop :=
  forall i, 0 <= i < 4096 -> ld8 m' (p + i) = ld8 m (p + i).

(** Writing outside a page keeps the words of the page. *)
Lemma ld64_same_page m m' p i : same_page m m' p -> 0 <= i -> i + 8 <= 4096 ->
  ld64 m' (p + i) = ld64 m (p + i).
Proof.
  intros H Hi Hi'. apply ldn_ext. intros j Hj. rewrite <- !Z.add_assoc. apply H. lia.
Qed.

Lemma ld64_ext m m' a : (forall x, ld8 m x = ld8 m' x) -> ld64 m a = ld64 m' a.
Proof. intros H. apply ldn_ext. intros i _. apply H. Qed.

#[global] Opaque memset memmove ld64 st64.
