(* ===== verification/Lock.v ===== *)
(** * The interface of spinlocks to the rest of the kernel

    Code that runs on one CPU sees a spinlock through [acquire], [release]
    and [holding].  A component's state carries the list of spinlocks its CPU
    holds; [acquire] panics when the CPU already holds the lock and [release]
    when it does not, as in kernel/spinlock.c.  What happens between the two
    is one atomic step of the CPU; [Spinlock.v] models the implementation and
    proves the mutual exclusion this rests on. *)

From S2P Require Import Prelude.
Local Open Scope Z_scope.

Class Locks (S : Type) := {
  held : S -> list string;
  set_held : list string -> S -> S;
  held_set : forall l s, held (set_held l s) = l;
  set_held_set : forall l l' s, set_held l (set_held l' s) = set_held l s;
  set_held_id : forall s, set_held (held s) s = s
}.

(** [remove1 x l] drops the first [x]. *)
Fixpoint remove1 (x : string) (l : list string) : list string :=
  match l with
  | [] => []
  | y :: l' => if String.eqb x y then l' else y :: remove1 x l'
  end.

Section Ops.
Context {S : Type} {HL : Locks S}.

Definition holding (lk : string) (s : S) : bool := existsb (String.eqb lk) (held s).

Definition acquire (lk : string) : M S unit := fun s =>
  if holding lk s then Panic "acquire" else Ok tt (set_held (lk :: held s) s).

Definition release (lk : string) : M S unit := fun s =>
  if holding lk s then Ok tt (set_held (remove1 lk (held s)) s) else Panic "release".

Definition initlock (lk : string) : M S unit :=
  modify (fun s => set_held (remove1 lk (held s)) s).

Lemma holding_false lk s : holding lk s = false <-> lk ∉ held s.
Proof.
  unfold holding. rewrite <- not_true_iff_false, existsb_exists, list_elem_of_In.
  setoid_rewrite String.eqb_eq. naive_solver.
Qed.

Lemma acquire_ok lk s : lk ∉ held s -> acquire lk s = Ok tt (set_held (lk :: held s) s).
Proof. intros H%holding_false. unfold acquire. by rewrite H. Qed.

Lemma release_head lk l s : held s = lk :: l -> release lk s = Ok tt (set_held l s).
Proof.
  intros E. unfold release, holding. rewrite E. cbn. by rewrite String.eqb_refl.
Qed.

(** A critical section: the body runs with the lock held and keeps the held
    locks; afterwards they are as before. *)
Lemma wp_critical {A} lk (c : M S A) (Q : A -> S -> Prop) s :
  lk ∉ held s ->
  wp c (fun a s' => held s' = lk :: held s /\ Q a (set_held (held s) s'))
    (set_held (lk :: held s) s) ->
  wp (do! _ <- acquire lk; do! a <- c; do! _ <- release lk; ret a) Q s.
Proof.
  intros Hl Hc. eapply wp_bind_ok; [by apply acquire_ok|].
  apply wp_bind. eapply wp_mono; [exact Hc|]. intros a s' [Hh HQ].
  eapply wp_bind_ok; [by apply release_head|]. by apply wp_ret.
Qed.
(** Lock discipline: run with exactly the locks [h], the code that returns
    does so with exactly the locks [h']. *)
Definition locks {A} (h : list string) (c : M S A) (h' : list string) : Prop :=
  forall s a s', held s = h -> c s = Ok a s' -> held s' = h'.

Lemma locks_ret {A} h (a : A) : locks h (ret a) h.
Proof. intros s b s' Hs [= _ <-]. done. Qed.
Lemma locks_gets {A} h (f : S -> A) : locks h (gets f) h.
Proof. intros s b s' Hs [= _ <-]. done. Qed.
Lemma locks_bind {A B} h h1 h2 (c : M S A) (k : A -> M S B) :
  locks h c h1 -> (forall a, locks h1 (k a) h2) -> locks h (bind c k) h2.
Proof.
  intros Hc Hk s b s' Hs E. unfold bind in E. destruct (c s) as [a s1|m| |] eqn:Ec; try discriminate E.
  eapply Hk; [|exact E]. by eapply Hc.
Qed.
Lemma locks_acquire h lk : locks h (acquire lk) (lk :: h).
Proof.
  intros s a s' Hs E. unfold acquire in E. destruct (holding lk s); [discriminate E|].
  injection E as _ <-. by rewrite held_set, Hs.
Qed.
Lemma locks_release h lk : locks (lk :: h) (release lk) h.
Proof.
  intros s a s' Hs E. unfold release in E. destruct (holding lk s); [|discriminate E].
  injection E as _ <-. rewrite held_set, Hs. cbn. by rewrite String.eqb_refl.
Qed.
Lemma locks_panic {A} h h' m : locks h (panic m : M S A) h'.
Proof. by intros s a s' _ [=]. Qed.
Lemma locks_hang {A} h h' : locks h (hang : M S A) h'.
Proof. by intros s a s' _ [=]. Qed.
Lemma locks_forz h body : (forall i, locks h (body i) h) -> forall n i, locks h (forz n i body) h.
Proof.
  intros Hb n. induction n as [|n IH]; intros i; [apply locks_ret|]. eapply locks_bind; [apply Hb|]. intros _. apply IH.
Qed.
Lemma wp_locks {A} h h' (c : M S A) Q s : locks h c h' -> held s = h -> wp c Q s ->
  wp c (fun a s' => Q a s' /\ held s' = h') s.
Proof.
  intros Hc Hh Hw. destruct (wp_ok _ _ _ Hw) as (a & s' & E & HQ). eapply wp_of_ok; [exact E|].
  split; [done|]. by eapply Hc.
Qed.
End Ops.

Create HintDb locks.
#[export] Hint Resolve locks_ret locks_gets locks_acquire locks_release locks_panic locks_hang locks_forz : locks.
Ltac lock_steps :=
  repeat first
    [ solve [eauto with locks]
    | eapply locks_bind; [solve [eauto with locks]|intros ?]
    | eapply locks_bind; [|intros ?]
    | match goal with |- locks _ (match ?x with _ => _ end) _ => destruct x end ].
