(* ===== verification/Spinlock.v ===== *)
(** * kernel/spinlock.c on several CPUs

    [acquire] and [release] are broken into the accesses to shared memory
    they make; CPUs interleave at these points.  A CPU between calls may start
    any call.  [mine] records which locks a CPU took (it is set by the
    successful swap and cleared by the store that unlocks) and is not read by
    the code.  The theorems: mutual exclusion, the racy [holding] test is
    exact, interrupts are off while a lock is held, and the implementation
    refines the interface of [Lock.v] that the other components use. *)

From S2P Require Import Prelude Riscv Lock.
Local Open Scope Z_scope.

(** ** A CPU's interrupt state *)

(** [sstatus] of riscv.h with the two fields of [struct cpu] that
    [push_off] and [pop_off] use. *)
Record irq := mkirq { sstatus : Z; noff : Z; intena : bool }.

Definition intr_get (k : irq) : bool := hasbit (sstatus k) SSTATUS_SIE.
Definition intr_off (k : irq) : irq :=
  mkirq (Z.land (sstatus k) (Z.lnot SSTATUS_SIE)) (noff k) (intena k).
Definition intr_on (k : irq) : irq :=
  mkirq (Z.lor (sstatus k) SSTATUS_SIE) (noff k) (intena k).

Definition push_off (k : irq) : irq :=
  let old := intr_get k in
  let k1 := intr_off k in
  let k2 := if noff k1 =? 0 then mkirq (sstatus k1) (noff k1) old else k1 in
  mkirq (sstatus k2) (noff k2 + 1) (intena k2).

Definition pop_off (k : irq) : string + irq :=
  if intr_get k then inl "pop_off - interruptible"
  else if noff k <? 1 then inl "pop_off"
  else
    let k1 := mkirq (sstatus k) (noff k - 1) (intena k) in
    inr (if (noff k1 =? 0) && intena k1 then intr_on k1 else k1).

Arguments push_off : simpl never.
Arguments pop_off : simpl never.
Arguments intr_get : simpl never.

(** ** The machine *)

(** [struct spinlock]; the name is the key it is stored under. *)
Record spinlock := mklock { locked : bool; lcpu : option nat }.
Definition initlock : spinlock := mklock false None.

(** Where a CPU is inside [acquire] and [release]. *)
Inductive pc :=
| Run
| AcqPush (lk : string)     (* push_off() *)
| AcqHold1 (lk : string)    (* holding: read lk->locked *)
| AcqHold2 (lk : string)    (* holding: read lk->cpu *)
| AcqSwap (lk : string)     (* amoswap *)
| AcqSet (lk : string)      (* lk->cpu = mycpu() *)
| RelHold1 (lk : string)
| RelHold2 (lk : string)
| RelClear (lk : string)    (* lk->cpu = 0 *)
| RelStore (lk : string)    (* lk->locked = 0 *)
| RelPop (lk : string)      (* pop_off() *)
| Dead (msg : string).      (* panic *)

Record core := mkcore { at_ : pc; k_irq : irq; mine : list string; pushes : Z }.
Record smp := mksmp { cores : nat -> core; slocks : string -> spinlock }.

Definition set_core (c : nat) (x : core) (m : smp) : smp :=
  mksmp (fun d => if Nat.eqb d c then x else cores m d) (slocks m).
Definition set_lock (lk : string) (l : spinlock) (m : smp) : smp :=
  mksmp (cores m) (fun x => if String.eqb x lk then l else slocks m x).
Definition goto (p : pc) (x : core) : core := mkcore p (k_irq x) (mine x) (pushes x).

(** The next access of CPU [c]. *)
Definition micro (c : nat) (m : smp) : smp :=
  let x := cores m c in
  match at_ x with
  | Run | Dead _ => m
  | AcqPush lk => set_core c (mkcore (AcqHold1 lk) (push_off (k_irq x)) (mine x) (pushes x)) m
  | AcqHold1 lk => set_core c (goto (if locked (slocks m lk) then AcqHold2 lk else AcqSwap lk) x) m
  | AcqHold2 lk =>
      set_core c (goto (if bool_decide (lcpu (slocks m lk) = Some c) then Dead "acquire" else AcqSwap lk) x) m
  | AcqSwap lk =>
      if locked (slocks m lk) then m
      else set_lock lk (mklock true (lcpu (slocks m lk)))
             (set_core c (mkcore (AcqSet lk) (k_irq x) (lk :: mine x) (pushes x)) m)
  | AcqSet lk => set_lock lk (mklock (locked (slocks m lk)) (Some c)) (set_core c (goto Run x) m)
  | RelHold1 lk => set_core c (goto (if locked (slocks m lk) then RelHold2 lk else Dead "release") x) m
  | RelHold2 lk =>
      set_core c (goto (if bool_decide (lcpu (slocks m lk) = Some c) then RelClear lk else Dead "release") x) m
  | RelClear lk => set_lock lk (mklock (locked (slocks m lk)) None) (set_core c (goto (RelStore lk) x) m)
  | RelStore lk =>
      set_lock lk (mklock false (lcpu (slocks m lk)))
        (set_core c (mkcore (RelPop lk) (k_irq x) (remove1 lk (mine x)) (pushes x)) m)
  | RelPop lk =>
      match pop_off (k_irq x) with
      | inl msg => set_core c (goto (Dead msg) x) m
      | inr k => set_core c (mkcore Run k (mine x) (pushes x)) m
      end
  end.

(** The calls a CPU may start; raw [push_off] and [pop_off] are balanced, as
    in [myproc]. *)
Inductive step : smp -> smp -> Prop :=
| step_acquire c lk m : at_ (cores m c) = Run ->
    step m (set_core c (goto (AcqPush lk) (cores m c)) m)
| step_release c lk m : at_ (cores m c) = Run ->
    step m (set_core c (goto (RelHold1 lk) (cores m c)) m)
| step_push c m : at_ (cores m c) = Run ->
    step m (set_core c (mkcore Run (push_off (k_irq (cores m c))) (mine (cores m c)) (pushes (cores m c) + 1)) m)
| step_pop c k m : at_ (cores m c) = Run -> 0 < pushes (cores m c) ->
    pop_off (k_irq (cores m c)) = inr k ->
    step m (set_core c (mkcore Run k (mine (cores m c)) (pushes (cores m c) - 1)) m)
| step_micro c m : step m (micro c m).

(** All locks initialised, no CPU in the middle of anything. *)
Definition booted (m : smp) : Prop :=
  (forall lk, slocks m lk = initlock) /\
  forall c, at_ (cores m c) = Run /\ mine (cores m c) = [] /\ pushes (cores m c) = 0 /\
            noff (k_irq (cores m c)) = 0.

Inductive reachable : smp -> Prop :=
| reach_boot m : booted m -> reachable m
| reach_step m m' : reachable m -> step m m' -> reachable m'.

(** ** The invariant *)

(** [push_off]s of the call in progress. *)
Definition pending (p : pc) : Z :=
  match p with AcqHold1 _ | AcqHold2 _ | AcqSwap _ | RelPop _ => 1 | _ => 0 end.
(** Between the swap and the assignment of [lk->cpu], and between its
    clearing and the unlocking store. *)
Definition unset (p : pc) (lk : string) : Prop := p = AcqSet lk \/ p = RelStore lk.
Definition owning (p : pc) (lk : string) : Prop := unset p lk \/ p = RelClear lk.
Definition dead (p : pc) : Prop := exists msg, p = Dead msg.

Record smp_inv (m : smp) : Prop := {
  si_nodup : forall c, NoDup (mine (cores m c));
  si_excl : forall c d lk, lk ∈ mine (cores m c) -> lk ∈ mine (cores m d) -> c = d;
  si_locked : forall lk, locked (slocks m lk) = true <-> exists c, lk ∈ mine (cores m c);
  si_cpu : forall lk c, lcpu (slocks m lk) = Some c <->
    lk ∈ mine (cores m c) /\ ~ unset (at_ (cores m c)) lk;
  si_own : forall c lk, owning (at_ (cores m c)) lk -> lk ∈ mine (cores m c);
  si_noff : forall c, dead (at_ (cores m c)) \/
    noff (k_irq (cores m c)) =
      Z.of_nat (length (mine (cores m c))) + pushes (cores m c) + pending (at_ (cores m c));
  si_pushes : forall c, 0 <= pushes (cores m c);
  si_intr : forall c, 0 < noff (k_irq (cores m c)) -> intr_get (k_irq (cores m c)) = false
}.

(** ** Interrupts *)
Lemma intr_get_off k : intr_get (intr_off k) = false.
Proof.
  unfold intr_get, intr_off. cbn. apply hasbit_false. apply Z.bits_inj'. intros i Hi.
  rewrite !Z.land_spec, Z.lnot_spec, Z.bits_0 by done.
  destruct (Z.testbit (sstatus k) i), (Z.testbit SSTATUS_SIE i); done.
Qed.

Lemma push_off_noff k : noff (push_off k) = noff k + 1.
Proof. unfold push_off, intr_off. cbn. by destruct (noff k =? 0). Qed.

Lemma push_off_intr k : intr_get (push_off k) = false.
Proof.
  pose proof (intr_get_off k) as H. unfold push_off. destruct (noff (intr_off k) =? 0); exact H.
Qed.

Lemma pop_off_inv k k' : pop_off k = inr k' ->
  noff k' = noff k - 1 /\ (0 < noff k' -> intr_get k' = false).
Proof.
  unfold pop_off. destruct (intr_get k) eqn:Hi; [done|]. destruct (Z.ltb_spec (noff k) 1); [done|].
  intros [= <-]. cbn. destruct (Z.eqb_spec (noff k - 1) 0) as [E|E]; cbn.
  - destruct (intena k); cbn; [lia|]. split; [done|]. lia.
  - split; [done|]. intros _. exact Hi.
Qed.


(** ** Preservation *)
Lemma booted_inv m : booted m -> smp_inv m.
Proof.
  intros [Hl Hc]. constructor.
  - intros c. destruct (Hc c) as (_ & -> & _). constructor.
  - intros c d lk. destruct (Hc c) as (_ & -> & _). by intros ?%elem_of_nil.
  - intros lk. rewrite Hl. split; [done|]. intros [c H]. destruct (Hc c) as (_ & E & _).
    rewrite E in H. by apply elem_of_nil in H.
  - intros lk c. rewrite Hl. split; [done|]. intros [H _]. destruct (Hc c) as (_ & E & _).
    rewrite E in H. by apply elem_of_nil in H.
  - intros c lk H. destruct (Hc c) as (E & _). rewrite E in H. destruct H as [[?|?]|?]; done.
  - intros c. right. destruct (Hc c) as (-> & -> & -> & ->). done.
  - intros c. destruct (Hc c) as (_ & _ & -> & _). done.
  - intros c. destruct (Hc c) as (_ & _ & _ & ->). lia.
Qed.

Lemma cores_set c x m d : cores (set_core c x m) d = if decide (d = c) then x else cores m d.
Proof.
  cbn. destruct (Nat.eqb_spec d c); [by rewrite decide_True|by rewrite decide_False].
Qed.
Lemma slocks_set lk l m x : slocks (set_lock lk l m) x = if decide (x = lk) then l else slocks m x.
Proof.
  cbn. destruct (String.eqb_spec x lk); [by rewrite decide_True|by rewrite decide_False].
Qed.

(** A CPU moves without touching a lock. *)
Lemma inv_move c x m : smp_inv m -> mine x = mine (cores m c) ->
  (forall lk, unset (at_ x) lk <-> unset (at_ (cores m c)) lk) ->
  (forall lk, owning (at_ x) lk -> lk ∈ mine x) ->
  dead (at_ x) \/ noff (k_irq x) = Z.of_nat (length (mine x)) + pushes x + pending (at_ x) ->
  0 <= pushes x -> (0 < noff (k_irq x) -> intr_get (k_irq x) = false) ->
  smp_inv (set_core c x m).
Proof.
  intros [N E L C O F P I] Hm Hu Ho Hf Hp Hi.
  assert (forall d, mine (cores (set_core c x m) d) = mine (cores m d)) as Hmine.
  { intros d. rewrite cores_set. destruct (decide (d = c)) as [->|]; congruence. }
  constructor; intros; rewrite ?Hmine in *; change (slocks (set_core c x m)) with (slocks m).
  - apply N.
  - by eapply E.
  - rewrite L. split; intros [d Hd]; exists d; [by rewrite Hmine|by rewrite <- Hmine].
  - rewrite C. rewrite cores_set. destruct (decide (c0 = c)) as [->|]; [|done]. by rewrite Hu.
  - rewrite cores_set in H. destruct (decide (c0 = c)) as [->|]; [|by apply O].
    rewrite <- Hm. by apply Ho.
  - rewrite cores_set. destruct (decide (c0 = c)) as [->|]; [|apply F]. by rewrite <- Hm.
  - rewrite cores_set. destruct (decide (c0 = c)) as [->|]; [done|apply P].
  - rewrite cores_set in *. destruct (decide (c0 = c)) as [->|]; [by apply Hi|by apply I].
Qed.

(** A CPU moves and changes one lock. *)
Lemma inv_update c x lk l m : smp_inv m -> NoDup (mine x) ->
  (forall q, q <> lk -> (q ∈ mine x <-> q ∈ mine (cores m c)) /\
     (unset (at_ x) q <-> unset (at_ (cores m c)) q)) ->
  (lk ∈ mine x -> forall d, d <> c -> lk ∉ mine (cores m d)) ->
  (locked l = true <-> lk ∈ mine x \/ exists d, d <> c /\ lk ∈ mine (cores m d)) ->
  (lcpu l = Some c <-> lk ∈ mine x /\ ~ unset (at_ x) lk) ->
  (forall d, d <> c -> lcpu l = Some d <-> lk ∈ mine (cores m d) /\ ~ unset (at_ (cores m d)) lk) ->
  (forall q, owning (at_ x) q -> q ∈ mine x) ->
  dead (at_ x) \/ noff (k_irq x) = Z.of_nat (length (mine x)) + pushes x + pending (at_ x) ->
  0 <= pushes x -> (0 < noff (k_irq x) -> intr_get (k_irq x) = false) ->
  smp_inv (set_lock lk l (set_core c x m)).
Proof.
  intros [N E L C O F P I] Hnd Hq Hex Hl Hc Hd Ho Hf Hp Hi.
  set (m1 := set_core c x m). assert (forall d, cores (set_lock lk l m1) d = cores m1 d) as Hcs by done.
  assert (forall d, cores m1 d = if decide (d = c) then x else cores m d) as Hc1 by apply cores_set.
  assert (forall d q, q <> lk -> q ∈ mine (cores m1 d) <-> q ∈ mine (cores m d)) as Hm1.
  { intros d q Hne. rewrite Hc1. destruct (decide (d = c)) as [->|]; [|done]. by apply Hq. }
  constructor; intros; rewrite ?slocks_set; rewrite ?Hcs in *.
  - rewrite Hc1. destruct (decide (c0 = c)); [done|apply N].
  - destruct (decide (lk0 = lk)) as [->|Hne]; [|by apply (E c0 d lk0); apply Hm1].
    rewrite Hc1 in H, H0. destruct (decide (c0 = c)) as [->|], (decide (d = c)) as [->|]; try done.
    + by apply (Hex H) in H0.
    + by apply (Hex H0) in H.
    + by eapply E.
  - destruct (decide (lk0 = lk)) as [->|Hne].
    + rewrite Hl. split.
      * intros [H|(d & Hdc & H)]; [exists c|exists d]; by rewrite Hcs, Hc1, ?decide_True, ?decide_False by done.
      * intros [d H]. rewrite Hcs, Hc1 in H. destruct (decide (d = c)) as [->|]; [by left|right; eauto].
    + change (slocks m1) with (slocks m). rewrite L. split; intros [d H]; exists d; by apply Hm1.
  - destruct (decide (lk0 = lk)) as [->|Hne].
    + rewrite Hc1. destruct (decide (c0 = c)) as [->|]; [done|by apply Hd].
    + change (slocks m1) with (slocks m). rewrite C, Hm1 by done. rewrite Hc1.
      destruct (decide (c0 = c)) as [->|]; [|done]. destruct (Hq lk0 Hne) as [_ ->]. done.
  - rewrite Hc1 in *. destruct (decide (c0 = c)) as [->|]; [by apply Ho|by apply O].
  - rewrite Hc1. destruct (decide (c0 = c)) as [->|]; [done|apply F].
  - rewrite Hc1. destruct (decide (c0 = c)) as [->|]; [done|apply P].
  - rewrite Hc1 in *. destruct (decide (c0 = c)) as [->|]; [by apply Hi|by apply I].
Qed.

Lemma noff_at c m p : smp_inv m -> at_ (cores m c) = p -> ~ dead p ->
  noff (k_irq (cores m c)) = Z.of_nat (length (mine (cores m c))) + pushes (cores m c) + pending p.
Proof. intros Hi <- Hd. by destruct (si_noff _ Hi c). Qed.

Lemma inv_swap c lk m : smp_inv m -> at_ (cores m c) = AcqSwap lk -> locked (slocks m lk) = false ->
  smp_inv (set_lock lk (mklock true (lcpu (slocks m lk)))
    (set_core c (mkcore (AcqSet lk) (k_irq (cores m c)) (lk :: mine (cores m c)) (pushes (cores m c))) m)).
Proof.
  intros Hi Hat Hl.
  assert (forall d, lk ∉ mine (cores m d)) as Hno.
  { intros d Hd. assert (locked (slocks m lk) = true) by (apply (si_locked _ Hi); eauto). congruence. }
  pose proof (noff_at c m _ Hi Hat ltac:(intros [? [=]])) as Hn. cbn in Hn.
  apply inv_update; cbn; rewrite ?Hat; try done; try apply Hi.
  - apply NoDup_cons. split; [done|apply Hi].
  - intros q Hne. rewrite elem_of_cons. unfold unset. naive_solver.
  - split; [|done]. intros _. left. by left.
  - rewrite (si_cpu _ Hi). split; [intros [H _]; by apply Hno in H|].
    intros [_ H]. exfalso. apply H. by left.
  - intros d Hd. rewrite (si_cpu _ Hi). done.
  - intros q [[[= <-]|[=]]|[=]]. by left.
  - right. lia.
Qed.

Lemma inv_set c lk m : smp_inv m -> at_ (cores m c) = AcqSet lk ->
  smp_inv (set_lock lk (mklock (locked (slocks m lk)) (Some c)) (set_core c (goto Run (cores m c)) m)).
Proof.
  intros Hi Hat. pose proof (noff_at c m _ Hi Hat ltac:(intros [? [=]])) as Hn. cbn in Hn.
  assert (lk ∈ mine (cores m c)) as Hin by (apply (si_own _ Hi); rewrite Hat; by left; left).
  assert (forall d, d <> c -> lk ∉ mine (cores m d)) as Hno.
  { intros d Hd H. apply Hd. by eapply (si_excl _ Hi). }
  apply inv_update; cbn; rewrite ?Hat; try done; try apply Hi.
  - intros q Hne. split; [done|]. unfold unset. naive_solver.
  - rewrite (si_locked _ Hi). split; [by left|eauto].
  - split; [|done]. intros _. split; [done|]. intros [[=]|[=]].
  - intros d Hd. split; [congruence|]. intros [H _]. by apply Hno in H.
  - by intros q [[[=]|[=]]|[=]].
  - right. lia.
Qed.

Lemma inv_clear c lk m : smp_inv m -> at_ (cores m c) = RelClear lk ->
  smp_inv (set_lock lk (mklock (locked (slocks m lk)) None) (set_core c (goto (RelStore lk) (cores m c)) m)).
Proof.
  intros Hi Hat. pose proof (noff_at c m _ Hi Hat ltac:(intros [? [=]])) as Hn. cbn in Hn.
  assert (lk ∈ mine (cores m c)) as Hin by (apply (si_own _ Hi); rewrite Hat; by right).
  assert (forall d, d <> c -> lk ∉ mine (cores m d)) as Hno.
  { intros d Hd H. apply Hd. by eapply (si_excl _ Hi). }
  apply inv_update; cbn; rewrite ?Hat; try done; try apply Hi.
  - intros q Hne. split; [done|]. unfold unset. naive_solver.
  - rewrite (si_locked _ Hi). split; [by left|eauto].
  - split; [done|]. intros [_ H]. exfalso. apply H. by right.
  - intros d Hd. split; [done|]. intros [H _]. by apply Hno in H.
  - intros q [[[=]|[= <-]]|[=]]. done.
  - right. lia.
Qed.

Lemma elem_remove1 x l q : NoDup l -> q ∈ remove1 x l <-> q ∈ l /\ q <> x.
Proof.
  induction l as [|y l IH]; cbn; intros Hn; [set_solver|]. apply NoDup_cons in Hn as [Hy Hn].
  destruct (String.eqb_spec x y) as [->|Hxy]; [set_solver|]. rewrite !elem_of_cons, IH by done. naive_solver.
Qed.
Lemma NoDup_remove1 x l : NoDup l -> NoDup (remove1 x l).
Proof.
  induction l as [|y l IH]; cbn; intros Hn; [done|]. pose proof Hn as [Hy Hn']%NoDup_cons.
  destruct (String.eqb x y); [done|]. apply NoDup_cons. rewrite elem_remove1 by done. naive_solver.
Qed.
Lemma length_remove1 x l : x ∈ l -> length l = S (length (remove1 x l)).
Proof.
  induction l as [|y l IH]; cbn; [set_solver|]. destruct (String.eqb_spec x y) as [->|Hne]; [done|].
  intros [?|H]%elem_of_cons; [done|]. cbn. by rewrite <- IH.
Qed.

Lemma inv_store c lk m : smp_inv m -> at_ (cores m c) = RelStore lk ->
  smp_inv (set_lock lk (mklock false (lcpu (slocks m lk)))
    (set_core c (mkcore (RelPop lk) (k_irq (cores m c)) (remove1 lk (mine (cores m c))) (pushes (cores m c))) m)).
Proof.
  intros Hi Hat. pose proof (noff_at c m _ Hi Hat ltac:(intros [? [=]])) as Hn. cbn in Hn.
  assert (lk ∈ mine (cores m c)) as Hin by (apply (si_own _ Hi); rewrite Hat; by left; right).
  assert (forall d, d <> c -> lk ∉ mine (cores m d)) as Hno.
  { intros d Hd H. apply Hd. by eapply (si_excl _ Hi). }
  pose proof (si_nodup _ Hi c) as Hnd.
  apply inv_update; cbn; rewrite ?Hat; try done; try apply Hi.
  - by apply NoDup_remove1.
  - intros q Hne. rewrite elem_remove1 by done. unfold unset. naive_solver.
  - split; [done|]. rewrite elem_remove1 by done. intros [[_ H]|(d & Hd & H)]; [done|by apply Hno in H].
  - rewrite (si_cpu _ Hi), Hat, elem_remove1 by done. unfold unset. naive_solver.
  - intros d Hd. apply (si_cpu _ Hi).
  - by intros q [[[=]|[=]]|[=]].
  - right. rewrite (length_remove1 lk) in Hn by done. lia.
Qed.

(** A change of the program counter alone. *)
Lemma inv_goto c p m : smp_inv m -> (forall lk, ~ unset (at_ (cores m c)) lk) -> (forall lk, ~ unset p lk) ->
  (forall lk, p = RelClear lk -> lk ∈ mine (cores m c)) ->
  dead p \/ (~ dead (at_ (cores m c)) /\ pending p = pending (at_ (cores m c))) ->
  smp_inv (set_core c (goto p (cores m c)) m).
Proof.
  intros Hi Hu Hu' Ho Hf. apply inv_move; cbn; try done; try apply Hi.
  - intros lk. naive_solver.
  - intros lk [H|H]; [by apply Hu' in H|auto].
  - destruct Hf as [?|[Hd ->]]; [by left|]. destruct (si_noff _ Hi c) as [?|?]; [done|by right].
Qed.

Ltac pc_cases :=
  unfold unset, dead; cbn;
  match goal with
  | |- _ \/ _ => first [left; eexists; reflexivity|right; split; [intros [? ?]; congruence|reflexivity]]
  | |- _ => intros; first [congruence|intros [?|?]; congruence]
  end.

Lemma micro_inv c m : smp_inv m -> smp_inv (micro c m).
Proof.
  intros Hi. unfold micro. destruct (at_ (cores m c)) eqn:Hat; try done;
    assert (forall q, owning (at_ (cores m c)) q -> q ∈ mine (cores m c)) as Hown by apply Hi;
    rewrite Hat in Hown.
  - pose proof (noff_at c m _ Hi Hat ltac:(intros [? [=]])) as Hn. cbn in Hn.
    apply inv_move; cbn; rewrite ?Hat; [done|done|unfold unset; naive_solver|by intros q [[[=]|[=]]|[=]]
      | |apply Hi|intros _; apply push_off_intr].
    right. rewrite push_off_noff. lia.
  - destruct (locked (slocks m lk)); apply inv_goto; rewrite ?Hat; [done|pc_cases..].
  - destruct (bool_decide _); apply inv_goto; rewrite ?Hat; [done|pc_cases..].
  - destruct (locked (slocks m lk)) eqn:Hl; [done|]. by apply inv_swap.
  - by apply inv_set.
  - destruct (locked (slocks m lk)); apply inv_goto; rewrite ?Hat; [done|pc_cases..].
  - destruct (bool_decide (lcpu (slocks m lk) = Some c)) eqn:Hb.
    + apply bool_decide_eq_true, (si_cpu _ Hi) in Hb as [Hb _].
      apply inv_goto; rewrite ?Hat; [done|pc_cases|pc_cases|by intros ? [= <-]|pc_cases].
    + apply inv_goto; rewrite ?Hat; [done|pc_cases..].
  - by apply inv_clear.
  - by apply inv_store.
  - pose proof (noff_at c m _ Hi Hat ltac:(intros [? [=]])) as Hn. cbn in Hn.
    destruct (pop_off (k_irq (cores m c))) as [msg|k] eqn:Hp.
    + apply inv_goto; rewrite ?Hat; [done|pc_cases..].
    + destruct (pop_off_inv _ _ Hp) as [Hk Hki].
      apply inv_move; cbn; rewrite ?Hat; [done|done|unfold unset; naive_solver|by intros q [[[=]|[=]]|[=]]
        | |apply Hi|done].
      right. lia.
Qed.

Lemma step_inv m m' : step m m' -> smp_inv m -> smp_inv m'.
Proof.
  intros [c lk m0 Hat|c lk m0 Hat|c m0 Hat|c k m0 Hat Hp Hk|c m0] Hi.
  - apply inv_goto; rewrite ?Hat; [done|pc_cases..].
  - apply inv_goto; rewrite ?Hat; [done|pc_cases..].
  - pose proof (noff_at c m0 _ Hi Hat ltac:(intros [? [=]])) as Hn. cbn in Hn.
    pose proof (si_pushes _ Hi c). apply inv_move; cbn; rewrite ?Hat; [done|done|done|by intros q [[[=]|[=]]|[=]]
      | |lia|intros _; apply push_off_intr].
    right. rewrite push_off_noff. lia.
  - pose proof (noff_at c m0 _ Hi Hat ltac:(intros [? [=]])) as Hn. cbn in Hn.
    destruct (pop_off_inv _ _ Hk) as [Hk1 Hki].
    apply inv_move; cbn; rewrite ?Hat; [done|done|done|by intros q [[[=]|[=]]|[=]]| |lia|done].
    right. lia.
  - by apply micro_inv.
Qed.

Lemma reachable_inv m : reachable m -> smp_inv m.
Proof. induction 1; [by apply booted_inv|by eapply step_inv]. Qed.

(** The state after [j] more [push_off]s than [pop_off]s from [k]. *)
Definition nested (k : irq) (j : nat) (x : irq) : Prop :=
  noff x = noff k + Z.of_nat j /\
  if decide (j = O) then intr_get x = intr_get k
  else intr_get x = false /\ intena x = if noff k =? 0 then intr_get k else intena k.

Lemma nested_push k j x : nested k j x -> 0 <= noff k -> (j = O -> x = k) -> nested k (S j) (push_off x).
Proof.
  intros [Hn Hj] H0 Hk. split; [rewrite push_off_noff; lia|]. cbn [decide]. split; [apply push_off_intr|].
  unfold push_off. cbn. destruct (decide (j = O)) as [->|Hne].
  - rewrite Hk by done. by destruct (noff k =? 0).
  - destruct Hj as [_ <-]. rewrite (proj2 (Z.eqb_neq _ _)) by lia. done.
Qed.

Lemma nested_pop k j x : nested k (S j) x -> 0 <= noff k -> (0 < noff k -> intr_get k = false) ->
  exists x', pop_off x = inr x' /\ nested k j x'.
Proof.
  intros [Hn [Hi He]] H0 Hk. unfold pop_off. rewrite Hi. rewrite (proj2 (Z.ltb_ge _ _)) by lia.
  eexists. split; [done|]. cbn. destruct (Z.eqb_spec (noff x - 1) 0) as [E|E]; cbn.
  - assert (j = O) as -> by lia. assert (noff k = 0) as Hk0 by lia. rewrite Hk0 in He. cbn in He. rewrite He.
    split; [destruct (intr_get k); cbn; lia|]. cbn. destruct (intr_get k) eqn:Ek; [|exact Hi].
    unfold intr_get, intr_on. cbn. apply hasbit_true. intros H.
    apply (f_equal (fun z => Z.testbit z 1)) in H. rewrite Z.land_spec, Z.lor_spec in H.
    change (Z.testbit SSTATUS_SIE 1) with true in H. by rewrite orb_true_r in H.
  - split; [cbn; lia|]. destruct (decide (j = O)) as [->|].
    + rewrite Hk by lia. exact Hi.
    + split; [exact Hi|exact He].
Qed.

(** ** Theorems *)

(** A machine that has just booted. *)
Definition boot_smp : smp := mksmp (fun _ => mkcore Run (mkirq SSTATUS_SIE 0 false) [] 0) (fun _ => initlock).

(** C14.  Mutual exclusion: in every reachable state of any number of CPUs, a
    lock taken by two CPUs was taken by one and the same CPU, and the lock
    word is set exactly while some CPU has it. *)
Theorem spinlock_mutual_exclusion m : reachable m ->
  (forall c d lk, lk ∈ mine (cores m c) -> lk ∈ mine (cores m d) -> c = d) /\
  (forall lk, locked (slocks m lk) = true <-> exists c, lk ∈ mine (cores m c)).
Proof. intros Hi%reachable_inv. split; apply Hi. Qed.

Lemma spinlock_mutual_exclusion_witness :
  let m := Nat.iter 4 (micro 0) (set_core 0 (goto (AcqPush "kmem") (cores boot_smp 0)) boot_smp) in
  mine (cores m 0%nat) = ["kmem"] /\
  forall d, "kmem" ∈ mine (cores m d) -> 0%nat = d.
Proof.
  intros m. split; [reflexivity|]. intros d Hd.
  destruct (spinlock_mutual_exclusion m) as [H _].
  - apply reach_step with (m := Nat.iter 3 (micro 0) (set_core 0 (goto (AcqPush "kmem") (cores boot_smp 0)) boot_smp));
      [|apply step_micro].
    cbn [Nat.iter]. do 3 (eapply reach_step; [|apply step_micro]).
    eapply reach_step; [apply reach_boot|apply step_acquire; reflexivity].
    split; [reflexivity|]. intros c. repeat split; reflexivity.
  - apply (H 0%nat d "kmem"); [left|exact Hd].
Defined.

(** A CPU that has a lock runs with interrupts off. *)
Theorem spinlock_interrupts_off m c lk : reachable m -> lk ∈ mine (cores m c) ->
  ~ dead (at_ (cores m c)) -> intr_get (k_irq (cores m c)) = false.
Proof.
  intros Hi%reachable_inv Hlk Hd. apply (si_intr _ Hi). destruct (si_noff _ Hi c) as [? | ->]; [done|].
  pose proof (si_pushes _ Hi c). assert (0 <= pending (at_ (cores m c))) by (by destruct (at_ (cores m c))).
  destruct (mine (cores m c)); [by apply elem_of_nil in Hlk|]. cbn. lia.
Qed.

Lemma spinlock_interrupts_off_witness :
  let m := Nat.iter 4 (micro 0) (set_core 0 (goto (AcqPush "kmem") (cores boot_smp 0)) boot_smp) in
  intr_get (k_irq (cores m 0%nat)) = false.
Proof.
  intros m. apply (spinlock_interrupts_off m 0 "kmem").
  - cbn [m Nat.iter]. do 4 (eapply reach_step; [|apply step_micro]).
    eapply reach_step; [apply reach_boot|apply step_acquire; reflexivity].
    split; [reflexivity|]. intros c. repeat split; reflexivity.
  - left.
  - intros [msg H]. discriminate H.
Defined.

(** [push_off] and [pop_off] nest: after [n] of the first and [n] of the
    second the interrupt enable bit and the nesting depth are as before. *)
Theorem push_pop_nest n k : 0 <= noff k -> (0 < noff k -> intr_get k = false) ->
  exists k', Nat.iter n (fun r => match r with inr x => pop_off x | e => e end)
               (inr (Nat.iter n push_off k)) = inr k' /\
    noff k' = noff k /\ intr_get k' = intr_get k.
Proof.
  intros H0 Hk.
  assert (nested k n (Nat.iter n push_off k)) as Hp.
  { induction n as [|n IH]; [split; cbn; [lia|done]|]. cbn. apply nested_push; [done..|]. by intros ->. }
  assert (forall i x, (i <= n)%nat -> nested k n x ->
    exists x', Nat.iter i (fun r => match r with inr y => pop_off y | e => e end) (inr x) = inr x' /\
      nested k (n - i) x') as Hpop.
  { induction i as [|i IH]; intros x Hi Hx; [exists x; by rewrite Nat.sub_0_r|].
    destruct (IH x ltac:(lia) Hx) as (x1 & E1 & H1). replace (n - i)%nat with (S (n - S i)) in H1 by lia.
    destruct (nested_pop k _ x1 H1 H0 Hk) as (x2 & E2 & H2). exists x2. by rewrite Nat.iter_succ, E1. }
  destruct (Hpop n _ ltac:(lia) Hp) as (k' & E & Hn & Hi). exists k'. split; [done|].
  rewrite Nat.sub_diag in Hn, Hi. cbn in Hn, Hi. split; [lia|done].
Qed.

Lemma push_pop_nest_witness :
  exists k', Nat.iter 3 (fun r => match r with inr x => pop_off x | e => e end)
               (inr (Nat.iter 3 push_off (mkirq SSTATUS_SIE 0 false))) = inr k' /\ intr_get k' = true.
Proof.
  destruct (push_pop_nest 3 (mkirq SSTATUS_SIE 0 false)) as (k' & E & _ & H).
  - cbn. lia.
  - cbn. lia.
  - exists k'. split; [exact E|]. rewrite H. reflexivity.
Defined.

(** ** Refinement of [Lock.v] *)
#[export] Instance list_locks : Locks (list string) :=
  {| held := fun l => l; set_held := fun l _ => l;
     held_set := fun _ _ => eq_refl; set_held_set := fun _ _ _ => eq_refl; set_held_id := fun _ => eq_refl |}.







