(* ===== verification/Kalloc.v ===== *)
(** * kernel/kalloc.c: the physical page allocator with reference counts

    State: physical memory, the head of the free list (a list of pages linked
    through their first eight bytes, 0 is null), the array of 8-bit reference
    counts used for copy-on-write, and the spinlocks held.  [end_] is the
    first address after the kernel, which the linker script defines. *)

From S2P Require Import Prelude Riscv Mem Lock.
Import KString.
Local Open Scope Z_scope.

Record machine := mkmachine {
  mem : gmap Z Z;
  freelist : Z;
  counter : gmap Z Z;
  mlocks : list string
}.

#[export] Instance machine_locks : Locks machine.
Proof.
  refine {| held := mlocks;
            set_held l s := mkmachine (mem s) (freelist s) (counter s) l |}.
  - done.
  - done.
  - by intros [].
Defined.

Definition set_mem (f : gmap Z Z -> gmap Z Z) (s : machine) : machine :=
  mkmachine (f (mem s)) (freelist s) (counter s) (mlocks s).
Definition set_freelist (p : Z) (s : machine) : machine :=
  mkmachine (mem s) p (counter s) (mlocks s).
Definition set_counter (f : gmap Z Z -> gmap Z Z) (s : machine) : machine :=
  mkmachine (mem s) (freelist s) (f (counter s)) (mlocks s).

(** The reference count of a page; the array is zero-initialised. *)
Definition cnt (s : machine) (pa : Z) : Z := default 0 (counter s !! PA2COWINDEX pa).

Section Kalloc.
Variable end_ : Z.

(** [sizeof(pa_ref_count.counter)]: [PA2COWINDEX(PHYSTOP) + 1]. *)
Definition NCOUNTER : Z := PA2COWINDEX PHYSTOP + 1.

(** Loads and stores of the array; an index out of bounds is undefined. *)
Definition counter_update (pa : Z) (f : Z -> Z) : M machine Z := fun s =>
  if PA2COWINDEX pa <? NCOUNTER
  then Ok (u8 (f (cnt s pa))) (set_counter (insert (PA2COWINDEX pa) (u8 (f (cnt s pa)))) s)
  else Undef.

Definition increase_count (pa : Z) : M machine unit :=
  acquire "cow" ;;
  counter_update pa (fun c => c + 1) ;;
  release "cow".

(** [int ret = --counter[...]], returned as a [uint64]. *)
Definition decrease_count (pa : Z) : M machine Z :=
  acquire "cow" ;;
  do! ret_ <- counter_update pa (fun c => c - 1);
  release "cow" ;;
  ret (u64 ret_).

Definition kfree (pa : Z) : M machine unit :=
  if negb (pa mod PGSIZE =? 0) || (pa <? end_) || (PHYSTOP <=? pa)
  then panic "kfree"
  else
    do! r <- decrease_count pa;
    let res := s32 r in
    if res <? 0 then panic "kfree: decrease counter"
    else if 0 <? res then ret tt
    else
      modify (set_mem (fun m => memset m pa 1 PGSIZE)) ;;
      acquire "kmem" ;;
      modify (fun s => set_mem (fun m => st64 m pa (freelist s)) s) ;;
      modify (set_freelist pa) ;;
      release "kmem".

Definition kalloc : M machine Z :=
  acquire "kmem" ;;
  do! r <- gets freelist;
  (if r =? 0 then ret tt else modify (fun s => set_freelist (ld64 (mem s) r) s)) ;;
  release "kmem" ;;
  (if r =? 0 then ret tt
   else modify (set_mem (fun m => memset m r 5 PGSIZE)) ;; increase_count r) ;;
  ret r.

(** [for (int i = 0; i < sizeof(counter); ++i) counter[i] = 1]. *)
Fixpoint init_counters (n : nat) (c : gmap Z Z) : gmap Z Z :=
  match n with
  | O => c
  | S n' => <[Z.of_nat n' := 1]> (init_counters n' c)
  end.

(** [for (; p + PGSIZE <= pa_end; p += PGSIZE) kfree(p)]. *)
Fixpoint freerange_loop (fuel : nat) (p pa_end : Z) : M machine unit :=
  if p + PGSIZE <=? pa_end then
    match fuel with
    | O => hang
    | S f => kfree p ;; freerange_loop f (p + PGSIZE) pa_end
    end
  else ret tt.

Definition freerange (pa_start pa_end : Z) : M machine unit :=
  let p := PGROUNDUP pa_start in
  modify (set_counter (init_counters (Z.to_nat NCOUNTER))) ;;
  freerange_loop (Z.to_nat ((pa_end - p) / PGSIZE + 1)) p pa_end.

Definition kinit : M machine unit :=
  initlock "kmem" ;;
  initlock "cow" ;;
  freerange end_ PHYSTOP.

(** ** The allocator's invariant *)

(** A page the allocator manages. *)
Definition page_ok (p : Z) : Prop := p mod PGSIZE = 0 /\ end_ <= p /\ p < PHYSTOP.

(** The linked list that starts at [head] in memory. *)
Fixpoint fl_rep (m : gmap Z Z) (head : Z) (l : list Z) : Prop :=
  match l with
  | [] => head = 0
  | p :: l' => head = p /\ fl_rep m (ld64 m p) l'
  end.

Record alloc_inv (l : list Z) (s : machine) : Prop := {
  ai_kmem : "kmem" ∉ mlocks s;
  ai_cow : "cow" ∉ mlocks s;
  ai_rep : fl_rep (mem s) (freelist s) l;
  ai_nodup : NoDup l;
  ai_pages : Forall page_ok l;
  ai_range : forall p, page_ok p -> 0 <= cnt s p <= 255;
  ai_zero : forall p, page_ok p -> cnt s p = 0 <-> p ∈ l
}.
End Kalloc.

#[export] Instance page_ok_dec end_ p : Decision (page_ok end_ p).
Proof. unfold page_ok. apply _. Defined.

(** ** Lemmas *)

Lemma cnt_set_mem f s p : cnt (set_mem f s) p = cnt s p.
Proof. reflexivity. Qed.

Lemma PA2COWINDEX_eq pa : KERNBASE <= pa < PHYSTOP -> PA2COWINDEX pa = (pa - KERNBASE) / 4096.
Proof. intros H. unfold PA2COWINDEX, PGSIZE. rewrite u64_small; [done|]. layout. lia. Qed.

Lemma PA2COWINDEX_bound pa : KERNBASE <= pa < PHYSTOP -> 0 <= PA2COWINDEX pa < NCOUNTER.
Proof.
  intros H. rewrite PA2COWINDEX_eq by done. change NCOUNTER with 32769.
  layout.
  split; [apply Z.div_pos|apply Z.div_lt_upper_bound]; lia.
Qed.

Lemma PA2COWINDEX_inj p q : KERNBASE <= p < PHYSTOP -> KERNBASE <= q < PHYSTOP ->
  p mod PGSIZE = 0 -> q mod PGSIZE = 0 -> PA2COWINDEX p = PA2COWINDEX q -> p = q.
Proof.
  intros Hp Hq Ap Aq. rewrite !PA2COWINDEX_eq by done. layout.
  intros E. apply Z.mod_divide in Ap as [a ->]; [|lia]. apply Z.mod_divide in Aq as [b ->]; [|lia].
  replace (a * 4096 - 2147483648) with ((a - 524288) * 4096) in E by lia.
  replace (b * 4096 - 2147483648) with ((b - 524288) * 4096) in E by lia.
  rewrite !Z.div_mul in E by lia. lia.
Qed.

(** Two distinct pages do not overlap. *)
Lemma pages_disjoint p q i j : p mod PGSIZE = 0 -> q mod PGSIZE = 0 -> p <> q ->
  0 <= i < PGSIZE -> 0 <= j < PGSIZE -> p + i <> q + j.
Proof.
  intros Hp Hq Hne Hi Hj E. apply Hne.
  by rewrite <- (pg_page p i), <- (pg_page q j), E.
Qed.

Lemma fl_rep_ext m m' head l :
  (forall p, p ∈ l -> ld64 m' p = ld64 m p) -> fl_rep m head l -> fl_rep m' head l.
Proof.
  revert head. induction l as [|p l IH]; intros head H; cbn; [done|].
  intros [-> Hr]. split; [done|]. rewrite H by set_solver. apply IH; [|done]. set_solver.
Qed.

Lemma same_page_trans m1 m2 m3 p : same_page m1 m2 p -> same_page m2 m3 p -> same_page m1 m3 p.
Proof. intros H1 H2 i Hi. by rewrite H2, H1. Qed.

Lemma same_page_memset m p q c : p mod PGSIZE = 0 -> q mod PGSIZE = 0 -> p <> q ->
  same_page m (memset m p c PGSIZE) q.
Proof.
  intros Hp Hq Hne i Hi. rewrite memset_spec by done. inr_cases; [|done].
  exfalso. apply (pages_disjoint p q (q + i - p) i); auto; unfold PGSIZE in *; lia.
Qed.

Lemma same_page_st64 m p q i v : p mod PGSIZE = 0 -> q mod PGSIZE = 0 -> p <> q ->
  0 <= i -> i + 8 <= 4096 -> same_page m (st64 m (p + i) v) q.
Proof.
  intros Hp Hq Hne Hi Hi' j Hj. apply ld8_st64_other. intros H.
  apply (pages_disjoint p q (q + j - p) j); auto; unfold PGSIZE in *; lia.
Qed.

Lemma same_page_st64_head m p q v : p mod PGSIZE = 0 -> q mod PGSIZE = 0 -> p <> q ->
  same_page m (st64 m p v) q.
Proof. intros. pose proof (same_page_st64 m p q 0 v) as H'. rewrite Z.add_0_r in H'. by apply H'. Qed.

Section KallocProofs.
Variable end_ : Z.
Hypothesis end_kernel : KERNBASE <= end_.

Abbreviation page_ok := (page_ok end_).
Abbreviation alloc_inv := (alloc_inv end_).

Lemma page_ok_range p : page_ok p -> KERNBASE <= p < PHYSTOP.
Proof. intros (? & ? & ?). lia. Qed.

Lemma page_ok_index p : page_ok p -> (PA2COWINDEX p <? NCOUNTER) = true.
Proof. intros H%page_ok_range. apply Z.ltb_lt. by apply PA2COWINDEX_bound. Qed.

Lemma page_ok_inj p q : page_ok p -> page_ok q -> PA2COWINDEX p = PA2COWINDEX q -> p = q.
Proof.
  intros Hp Hq. apply PA2COWINDEX_inj; try by apply page_ok_range.
  - apply Hp.
  - apply Hq.
Qed.

Lemma page_ok_nonzero p : page_ok p -> p <> 0.
Proof. intros H%page_ok_range ->. by destruct H. Qed.

Lemma increase_count_eq pa s : "cow" ∉ mlocks s -> page_ok pa ->
  increase_count pa s = Ok tt (set_counter (insert (PA2COWINDEX pa) (u8 (cnt s pa + 1))) s).
Proof.
  intros Hl Hp. unfold increase_count, bind. rewrite acquire_ok by done. cbn.
  unfold counter_update. rewrite page_ok_index by done. by destruct s.
Qed.

Lemma decrease_count_eq pa s : "cow" ∉ mlocks s -> page_ok pa ->
  decrease_count pa s =
  Ok (u8 (cnt s pa - 1)) (set_counter (insert (PA2COWINDEX pa) (u8 (cnt s pa - 1))) s).
Proof.
  intros Hl Hp. unfold decrease_count, bind. rewrite acquire_ok by done. cbn.
  unfold counter_update. rewrite page_ok_index by done.
  cbn. unfold ret. rewrite u64_small; [by destruct s|].
  match goal with |- context [u8 ?z] => pose proof (u8_range z) end. lia.
Qed.

Lemma cnt_insert pa q v m f c h : page_ok pa -> page_ok q ->
  cnt (mkmachine m f (<[PA2COWINDEX pa := v]> c) h) q =
  if decide (q = pa) then v else cnt (mkmachine m f c h) q.
Proof.
  intros Hp Hq. unfold cnt. cbn. case_decide as E.
  - subst. by rewrite lookup_insert_eq.
  - rewrite lookup_insert_ne; [done|]. intros Hi. by apply E, page_ok_inj.
Qed.

Lemma cnt_set_counter pa q v s : page_ok pa -> page_ok q ->
  cnt (set_counter (insert (PA2COWINDEX pa) v) s) q = if decide (q = pa) then v else cnt s q.
Proof. intros Hp Hq. unfold set_counter. by rewrite cnt_insert. Qed.

(** ** kalloc *)
Lemma kalloc_empty s : alloc_inv [] s -> kalloc s = Ok 0 s.
Proof.
  intros [Hk _ Hr _ _ _ _]. cbn in Hr. unfold kalloc, bind. rewrite acquire_ok by done.
  cbn. rewrite Hr. cbn. destruct s; cbn in *. by subst.
Qed.

Lemma kalloc_eq p l s : alloc_inv (p :: l) s ->
  kalloc s = Ok p (mkmachine (memset (mem s) p 5 PGSIZE) (ld64 (mem s) p)
                     (<[PA2COWINDEX p := 1]> (counter s)) (mlocks s)).
Proof.
  intros [Hk Hc Hr _ Hp _ Hz]. cbn in Hr. destruct Hr as [Hf Hr].
  apply Forall_cons in Hp as [Hp _]. pose proof (page_ok_nonzero _ Hp) as Hnz.
  assert (cnt s p = 0) as Hcnt by (apply Hz; set_solver).
  unfold kalloc, bind. rewrite acquire_ok by done. cbn. rewrite Hf.
  rewrite (proj2 (Z.eqb_neq p 0)) by done. cbn.
  rewrite (increase_count_eq p) by done. destruct s; cbn in *. unfold cnt in *; cbn in *.
  by rewrite Hcnt.
Qed.

Lemma kalloc_inv p l s s' : alloc_inv (p :: l) s -> kalloc s = Ok p s' -> alloc_inv l s'.
Proof.
  intros Hi. rewrite (kalloc_eq p l) by done. intros [= <-].
  destruct Hi as [Hk Hc Hr Hn Hp Hb Hz]. cbn in Hr. destruct Hr as [Hf Hr].
  apply NoDup_cons in Hn as [Hn Hn']. apply Forall_cons in Hp as [Hp Hp'].
  constructor; cbn; try done.
  - eapply fl_rep_ext; [|done]. intros q Hq. rewrite Forall_forall in Hp'.
    specialize (Hp' q Hq). rewrite <- (Z.add_0_r q).
    apply ld64_same_page; [|done..]. apply same_page_memset; [apply Hp|apply Hp'|set_solver].
  - intros q Hq. rewrite cnt_insert by done. case_decide; [lia|]. by apply Hb.
  - intros q Hq. rewrite cnt_insert by done. case_decide as E.
    + subst. split; [lia|done].
    + rewrite (Hz q Hq). set_solver.
Qed.

(** ** kfree *)
Lemma kfree_bad pa s : ~ page_ok pa -> kfree end_ pa s = Panic "kfree".
Proof.
  intros H. unfold kfree.
  destruct (negb (pa mod PGSIZE =? 0) || (pa <? end_) || (PHYSTOP <=? pa)) eqn:E; [done|].
  boolz. exfalso. by apply H.
Qed.

Lemma kfree_guard pa : page_ok pa ->
  negb (pa mod PGSIZE =? 0) || (pa <? end_) || (PHYSTOP <=? pa) = false.
Proof.
  intros (H1 & H2 & H3). rewrite (proj2 (Z.eqb_eq _ _) H1), (proj2 (Z.ltb_ge _ _) H2).
  by rewrite (proj2 (Z.leb_gt _ _) H3).
Qed.

(** A shared page only loses a reference. *)
Lemma kfree_shared pa s : "cow" ∉ mlocks s -> page_ok pa -> 2 <= cnt s pa <= 255 ->
  kfree end_ pa s = Ok tt (set_counter (insert (PA2COWINDEX pa) (cnt s pa - 1)) s).
Proof.
  intros Hl Hp Hc. unfold kfree. rewrite kfree_guard by done. unfold bind.
  rewrite decrease_count_eq by done. rewrite u8_small, s32_small by lia.
  rewrite (proj2 (Z.ltb_ge _ _)) by lia. by rewrite (proj2 (Z.ltb_lt _ _)) by lia.
Qed.

(** The last reference: the page goes to the head of the free list. *)
Lemma kfree_last pa s : "cow" ∉ mlocks s -> "kmem" ∉ mlocks s -> page_ok pa -> cnt s pa = 1 ->
  kfree end_ pa s = Ok tt (mkmachine (st64 (memset (mem s) pa 1 PGSIZE) pa (freelist s)) pa
                             (<[PA2COWINDEX pa := 0]> (counter s)) (mlocks s)).
Proof.
  intros Hl Hk Hp Hc. unfold kfree. rewrite kfree_guard by done. unfold bind.
  rewrite decrease_count_eq by done. rewrite Hc. change (u8 (1 - 1)) with 0.
  change (s32 0) with 0. cbn -[acquire release]. rewrite acquire_ok by done. by destruct s.
Qed.

Lemma kfree_last_inv pa l s s' : alloc_inv l s -> page_ok pa -> cnt s pa = 1 ->
  kfree end_ pa s = Ok tt s' -> alloc_inv (pa :: l) s'.
Proof.
  intros [Hk Hc Hr Hn Hp Hb Hz] Hpa Hcnt. rewrite kfree_last by done. intros [= <-].
  assert (pa ∉ l) as Hnin by (intros Hin; apply (Hz pa Hpa) in Hin; lia).
  constructor; cbn; try done.
  - split; [done|]. rewrite ld64_st64_same, u64_small.
    2:{ destruct l as [|q l]; cbn in Hr; [rewrite Hr; lia|]. destruct Hr as [-> _].
        apply Forall_cons in Hp as [Hq _]. apply page_ok_range in Hq. layout. lia. }
    eapply fl_rep_ext; [|done]. intros q Hq. rewrite Forall_forall in Hp.
    specialize (Hp q Hq). assert (pa <> q) by set_solver.
    rewrite <- (Z.add_0_r q). apply ld64_same_page; [|done..].
    eapply same_page_trans; [apply (same_page_memset _ pa); [apply Hpa|apply Hp|done]|].
    apply same_page_st64_head; [apply Hpa|apply Hp|done].
  - by apply NoDup_cons.
  - by apply Forall_cons.
  - intros q Hq. rewrite cnt_insert by done. case_decide; [lia|]. by apply Hb.
  - intros q Hq. rewrite cnt_insert by done. case_decide as E.
    + subst. set_solver.
    + rewrite elem_of_cons. rewrite (Hz q Hq). naive_solver.
Qed.

Lemma set_count_inv pa l s v : alloc_inv l s -> page_ok pa -> 1 <= cnt s pa -> 1 <= v <= 255 ->
  alloc_inv l (set_counter (insert (PA2COWINDEX pa) v) s).
Proof.
  intros [Hk Hc Hr Hn Hp Hb Hz] Hpa Hcnt Hv. constructor; cbn; try done.
  - intros q Hq. rewrite cnt_set_counter by done. case_decide; [lia|]. by apply Hb.
  - intros q Hq. rewrite cnt_set_counter by done. case_decide as E; [|by apply Hz].
    subst. rewrite <- (Hz pa Hpa). lia.
Qed.

(** ** Initialisation *)
Lemma init_counters_lookup n c i :
  init_counters n c !! i = if decide (0 <= i < Z.of_nat n) then Some 1 else c !! i.
Proof.
  induction n as [|n IH]; cbn [init_counters].
  { case_decide; [lia|done]. }
  destruct (decide (i = Z.of_nat n)) as [->|Hne].
  - rewrite lookup_insert_eq. rewrite decide_True; [done|lia].
  - rewrite lookup_insert_ne by done. rewrite IH. apply decide_ext. lia.
Qed.

(** Every page before [p] is free, every page from [p] on has count 1. *)
Definition booted_to (p : Z) (l : list Z) (s : machine) : Prop :=
  alloc_inv l s /\ (forall q, q ∈ l <-> page_ok q /\ q < p) /\
  (forall q, page_ok q -> p <= q -> cnt s q = 1).

Lemma freerange_loop_spec fuel p l s :
  p mod PGSIZE = 0 -> end_ <= p -> PHYSTOP - p <= Z.of_nat fuel * PGSIZE ->
  booted_to p l s ->
  wp (freerange_loop end_ fuel p PHYSTOP)
     (fun _ s' => exists l', alloc_inv l' s' /\ forall q, q ∈ l' <-> page_ok q) s.
Proof.
  revert p l s. induction fuel as [|fuel IH]; intros p l s Hal He Hf (Hi & Hl & Hc);
    cbn [freerange_loop]; destruct (Z.leb_spec (p + PGSIZE) PHYSTOP) as [Hle|Hgt].
  1: layout; lia.
  2: { assert (page_ok p) as Hp by (repeat split; [done..|layout; lia]).
    assert (cnt s p = 1) as H1 by (by apply Hc).
    pose proof (kfree_last p s (ai_cow _ _ _ Hi) (ai_kmem _ _ _ Hi) Hp H1) as Hk.
    pose proof (kfree_last_inv _ _ _ _ Hi Hp H1 Hk) as Hi'.
    eapply wp_bind_ok; [exact Hk|]. eapply (IH _ (p :: l)).
    - unfold PGSIZE in *. by rewrite Z.add_mod, Hal by lia.
    - layout; lia.
    - layout; lia.
    - split; [exact Hi'|]. split.
      + intros q. rewrite elem_of_cons, Hl. split.
        * intros [->|[? ?]]; [split; [done|layout; lia]|split; [done|layout; lia]].
        * intros [Hq Hlt]. destruct (decide (q = p)); [by left|right]. split; [done|].
          destruct Hq as [Hq _]. layout.
          apply Z.mod_divide in Hq as [a ->]; [|lia]. apply Z.mod_divide in Hal as [b ->]; lia.
      + intros q Hq Hge. unfold cnt; cbn. rewrite lookup_insert_ne; [apply Hc; [done|layout; lia]|].
        intros E. apply page_ok_inj in E; [|done..]. layout; lia. }
  all: apply wp_ret; exists l; split; [done|]; intros q; rewrite Hl; split; [by intros [? ?]|].
  all: intros Hq; split; [done|]; destruct Hq as (Hq & ? & ?); layout.
  all: apply Z.mod_divide in Hq as [a ->]; [|lia]; apply Z.mod_divide in Hal as [b ->]; lia.
Qed.

Lemma kinit_ok s : end_ < PHYSTOP -> freelist s = 0 -> mlocks s = [] ->
  wp (kinit end_) (fun _ s' => exists l, alloc_inv l s' /\ forall q, q ∈ l <-> page_ok q) s.
Proof.
  intros He Hf Hl. unfold kinit, freerange, initlock.
  assert (PGROUNDUP end_ = (end_ + 4095) / 4096 * 4096) as Hup
    by (apply PGROUNDUP_eq; layout; lia).
  pose proof (Z.div_mod (end_ + 4095) 4096) as Hdm.
  pose proof (Z.mod_pos_bound (end_ + 4095) 4096) as Hmb.
  assert (Z.of_nat (Z.to_nat NCOUNTER) = NCOUNTER) as Hn by (by apply Z2Nat.id).
  revert Hn. generalize (Z.to_nat NCOUNTER) as n. intros n Hn.
  do 3 (apply wp_bind, wp_modify). rewrite Hup. cbn -[init_counters Z.to_nat freerange_loop].
  apply (freerange_loop_spec _ _ []).
  - unfold PGSIZE. by apply Z.mod_mul.
  - lia.
  - set (d := PHYSTOP - _). pose proof (Z.div_mod d PGSIZE). pose proof (Z.mod_pos_bound d PGSIZE).
    destruct (Z.le_gt_cases 0 (d / PGSIZE + 1)); [rewrite Z2Nat.id by lia|]; layout; lia.
  - assert (forall q t, page_ok q -> counter t = init_counters n (counter s) -> cnt t q = 1) as Hone.
    { intros q t Hq Ht. unfold cnt. rewrite Ht.
      rewrite init_counters_lookup, decide_True; [done|].
      pose proof (PA2COWINDEX_bound q (page_ok_range q Hq)). lia. }
    split; [|split].
    + constructor; cbn -[init_counters]; rewrite ?Hl; try done.
      * set_solver.
      * set_solver.
      * constructor.
      * intros q Hq. rewrite Hone by done. lia.
      * intros q Hq. rewrite Hone by done. set_solver.
    + intros q. split; [set_solver|]. intros [(Hq & ? & ?) Hlt]. exfalso. layout.
      apply Z.mod_divide in Hq as [a ->]; [|lia]. lia.
    + intros q Hq _. by apply Hone.
Qed.
End KallocProofs.
