(* ===== verification/Allocator.v ===== *)
(** * The page allocator: the theorems

    What kernel/kalloc.c guarantees about its free list and its reference
    counts, and the double-free case its own check misses. *)

From S2P Require Import Prelude Riscv Mem Lock Kalloc.
Import KString.
Local Open Scope Z_scope.

(** [kinit] makes every page between the end of the kernel and PHYSTOP
    free exactly once, with reference count 0, and only those pages. *)
Theorem kinit_frees_all end_ s :
  KERNBASE <= end_ < PHYSTOP -> freelist s = 0 -> mlocks s = [] ->
  exists s' l, kinit end_ s = Ok tt s' /\ fl_rep (mem s') (freelist s') l /\ NoDup l /\
    (forall p, p ∈ l <-> page_ok end_ p) /\ (forall p, page_ok end_ p -> cnt s' p = 0).
Proof.
  intros He Hf Hl.
  destruct (wp_ok _ _ _ (kinit_ok end_ ltac:(lia) s ltac:(lia) Hf Hl)) as ([] & s' & E & l & Ha & Hin).
  exists s', l. split; [done|]. split; [apply Ha|]. split; [apply Ha|]. split; [done|].
  intros p Hp. by apply (ai_zero _ _ _ Ha p Hp), Hin.
Qed.

Lemma kinit_frees_all_witness : exists s' (l : list Z),
  kinit (PHYSTOP - 8192) (mkmachine ∅ 0 ∅ []) = Ok tt s' /\
  (forall p, p ∈ l <-> page_ok (PHYSTOP - 8192) p).
Proof.
  destruct (kinit_frees_all (PHYSTOP - 8192) (mkmachine ∅ 0 ∅ [])) as (s' & l & E & _ & _ & Hl & _).
  - done.
  - reflexivity.
  - reflexivity.
  - exists s', l. auto.
Defined.

(** A machine with a non-empty free list. *)
Lemma kinit_state : exists p l s, alloc_inv (PHYSTOP - 8192) (p :: l) s.
Proof.
  destruct (wp_ok _ _ _ (kinit_ok (PHYSTOP - 8192) ltac:(done) (mkmachine ∅ 0 ∅ []) ltac:(done) eq_refl eq_refl))
    as (? & s & _ & l & Ha & Hl).
  destruct l as [|p l]; [|by exists p, l, s].
  exfalso. apply (elem_of_nil (PHYSTOP - 8192)), Hl. done.
Qed.

(** [kalloc] returns 0 and changes nothing exactly when no page is free;
    otherwise it returns a free page, which leaves the free list, gets count 1
    and the fill pattern, while all other pages and counts stay. *)
Theorem kalloc_takes end_ l s : KERNBASE <= end_ -> alloc_inv end_ l s ->
  match l with
  | [] => kalloc s = Ok 0 s
  | p :: l' => exists s', kalloc s = Ok p s' /\ alloc_inv end_ l' s' /\ page_ok end_ p /\ (p ∉ l') /\
      cnt s' p = 1 /\ (forall i, 0 <= i < PGSIZE -> ld8 (mem s') (p + i) = 5) /\
      (forall q, page_ok end_ q -> q <> p -> cnt s' q = cnt s q /\ same_page (mem s) (mem s') q)
  end.
Proof.
  intros He Ha. destruct l as [|p l]; [by eapply kalloc_empty|].
  pose proof (kalloc_eq end_ He p l s Ha) as E. eexists. split; [exact E|].
  pose proof (ai_pages _ _ _ Ha) as [Hp _]%Forall_cons. pose proof (ai_nodup _ _ _ Ha) as [Hn _]%NoDup_cons.
  split; [by eapply kalloc_inv|]. split; [done|]. split; [done|].
  rewrite cnt_insert with (end_ := end_) by done. rewrite decide_True by done. split; [done|]. split.
  - intros i Hi. cbn. rewrite memset_spec by done. inr_cases; [done|lia].
  - intros q Hq Hne. rewrite cnt_insert with (end_ := end_) by done. rewrite decide_False by done.
    split; [done|]. cbn. apply same_page_memset; [apply Hp|apply Hq|congruence].
Qed.

Lemma kalloc_takes_witness : exists p l s s',
  alloc_inv (PHYSTOP - 8192) (p :: l) s /\ kalloc s = Ok p s' /\ alloc_inv (PHYSTOP - 8192) l s'.
Proof.
  destruct kinit_state as (p & l & s & Ha).
  destruct (kalloc_takes (PHYSTOP - 8192) (p :: l) s) as (s' & E & Ha' & _).
  - done.
  - exact Ha.
  - exists p, l, s, s'. auto.
Defined.

(** [kfree] panics on an address that is not an allocatable page; on a
    page with several references it only drops one; on the last reference the
    page goes to the head of the free list. *)
Theorem kfree_drops_reference end_ l s p : KERNBASE <= end_ -> alloc_inv end_ l s ->
  (~ page_ok end_ p -> kfree end_ p s = Panic "kfree") /\
  (page_ok end_ p -> 2 <= cnt s p ->
     exists s', kfree end_ p s = Ok tt s' /\ alloc_inv end_ l s' /\ cnt s' p = cnt s p - 1 /\ mem s' = mem s) /\
  (page_ok end_ p -> cnt s p = 1 ->
     exists s', kfree end_ p s = Ok tt s' /\ alloc_inv end_ (p :: l) s' /\ cnt s' p = 0 /\
       forall q, page_ok end_ q -> q <> p -> cnt s' q = cnt s q /\ same_page (mem s) (mem s') q).
Proof.
  intros He Ha. split; [|split].
  - apply kfree_bad.
  - intros Hp Hc. pose proof (ai_range _ _ _ Ha p Hp) as Hr.
    pose proof (kfree_shared end_ He p s (ai_cow _ _ _ Ha) Hp ltac:(lia)) as E.
    eexists. split; [exact E|]. split; [by apply set_count_inv; try done; lia|]. split; [|done].
    rewrite cnt_set_counter with (end_ := end_) by done. by rewrite decide_True.
  - intros Hp Hc. pose proof (kfree_last end_ He p s (ai_cow _ _ _ Ha) (ai_kmem _ _ _ Ha) Hp Hc) as E.
    eexists. split; [exact E|]. split; [by eapply kfree_last_inv|].
    rewrite cnt_insert with (end_ := end_) by done. rewrite decide_True by done. split; [done|].
    intros q Hq Hne. rewrite cnt_insert with (end_ := end_) by done. rewrite decide_False by done.
    split; [done|]. cbn.
    eapply same_page_trans; [apply (same_page_memset _ p); [apply Hp|apply Hq|congruence]|].
    apply same_page_st64_head; [apply Hp|apply Hq|congruence].
Qed.

Lemma kfree_drops_reference_witness : exists s, kfree (PHYSTOP - 8192) 17 s = Panic "kfree".
Proof.
  destruct kinit_state as (p & l & s & Ha). exists s.
  destruct (kfree_drops_reference (PHYSTOP - 8192) (p :: l) s 17) as (H & _).
  - done.
  - exact Ha.
  - apply H. intros (H1 & _). discriminate H1.
Defined.

(** Freeing a page that is already free is not detected: the count is
    an unsigned byte, so it wraps to 255, the test [res < 0] is false and
    [kfree] returns as if the page were shared. *)
Theorem kfree_double_free_unnoticed end_ l s p : KERNBASE <= end_ -> alloc_inv end_ l s -> p ∈ l ->
  exists s', kfree end_ p s = Ok tt s' /\ cnt s' p = 255 /\ mem s' = mem s /\ freelist s' = freelist s.
Proof.
  intros He Ha Hin. assert (page_ok end_ p) as Hp by (by eapply Forall_forall; [apply Ha|]).
  assert (cnt s p = 0) as Hc by (by apply (ai_zero _ _ _ Ha p Hp)).
  eexists. split.
  - unfold kfree. rewrite kfree_guard by done. unfold bind.
    rewrite (decrease_count_eq end_ He p s (ai_cow _ _ _ Ha) Hp). rewrite Hc. reflexivity.
  - rewrite cnt_set_counter with (end_ := end_) by done. by rewrite decide_True.
Qed.

Lemma kfree_double_free_unnoticed_witness : exists p s s',
  kfree (PHYSTOP - 8192) p s = Ok tt s' /\ cnt s' p = 255.
Proof.
  destruct kinit_state as (p & l & s & Ha).
  destruct (kfree_double_free_unnoticed (PHYSTOP - 8192) (p :: l) s p) as (s' & E & Hc & _).
  - done.
  - exact Ha.
  - left.
  - exists p, s, s'. auto.
Defined.
