(* ===== verification/Vm.v ===== *)
(** * kernel/vm.c and the copy-on-write handler of kernel/trap.c

    Sv39 page tables stored in physical memory, one definition per function
    of vm.c, and [cow_page_fault_handler] of trap.c, which [copyout] calls.
    A page table is the physical address of its root page; a PTE pointer is
    the address of a 64-bit word.  The kernel reads physical memory through
    its direct map, so a kernel pointer is a physical address.  [trampoline]
    and [etext] are addresses of symbols the linker places. *)

From S2P Require Import Prelude Riscv Mem Lock Kalloc.
Import KString.
Local Open Scope Z_scope.

Definition load64 (a : Z) : M machine Z := gets (fun s => ld64 (mem s) a).
Definition store64 (a v : Z) : M machine unit := modify (set_mem (fun m => st64 m a v)).
Definition memset_at (a c n : Z) : M machine unit := modify (set_mem (fun m => memset m a c n)).
Definition memmove_at (d s n : Z) : M machine unit := modify (set_mem (fun m => memmove m d s n)).

(** [(uint64)-1] *)
Definition MINUS1 : Z := 2 ^ 64 - 1.

Section Vm.
Variable end_ : Z.

(** The loop of [walk]: [level] counts down to 0. *)
Fixpoint walk_levels (level : nat) (pagetable va : Z) (alloc : bool) : M machine Z :=
  match level with
  | O => ret (pagetable + 8 * PX 0 va)
  | S l =>
      let pte := pagetable + 8 * PX (Z.of_nat level) va in
      do! e <- load64 pte;
      if hasbit e PTE_V then walk_levels l (PTE2PA e) va alloc
      else if negb alloc then ret 0
      else
        do! pagetable' <- kalloc;
        if pagetable' =? 0 then ret 0
        else
          memset_at pagetable' 0 PGSIZE ;;
          store64 pte (Z.lor (PA2PTE pagetable') PTE_V) ;;
          walk_levels l pagetable' va alloc
  end.

Definition walk (pagetable va : Z) (alloc : bool) : M machine Z :=
  if MAXVA <=? va then panic "walk" else walk_levels 2 pagetable va alloc.

Definition walkaddr (pagetable va : Z) : M machine Z :=
  if MAXVA <=? va then ret 0
  else
    do! pte <- walk pagetable va false;
    if pte =? 0 then ret 0
    else
      do! e <- load64 pte;
      if negb (hasbit e PTE_V) then ret 0
      else if negb (hasbit e PTE_U) then ret 0
      else ret (PTE2PA e).

Fixpoint mappages_loop (fuel : nat) (pagetable a last pa perm : Z) : M machine Z :=
  match fuel with
  | O => hang
  | S f =>
      do! pte <- walk pagetable a true;
      if pte =? 0 then ret (-1)
      else
        do! e <- load64 pte;
        if hasbit e PTE_V then panic "mappages: remap"
        else
          store64 pte (Z.lor (Z.lor (PA2PTE pa) perm) PTE_V) ;;
          if a =? last then ret 0
          else mappages_loop f pagetable (u64 (a + PGSIZE)) last (u64 (pa + PGSIZE)) perm
  end.

(** The loop stops at [last], or panics in [walk] once [a] reaches [MAXVA]. *)
Definition mappages_fuel (a last : Z) : nat :=
  Z.to_nat ((if a <=? last then last - a else MAXVA - a) / PGSIZE + 2).

Definition mappages (pagetable va size pa perm : Z) : M machine Z :=
  if size =? 0 then panic "mappages: size"
  else
    let a := PGROUNDDOWN va in
    let last := PGROUNDDOWN (u64 (va + size - 1)) in
    mappages_loop (mappages_fuel a last) pagetable a last pa perm.

Definition kvmmap (kpgtbl va pa sz perm : Z) : M machine unit :=
  do! r <- mappages kpgtbl va sz pa perm;
  if r =? 0 then ret tt else panic "kvmmap".

Fixpoint uvmunmap_loop (fuel : nat) (pagetable a limit : Z) (do_free : bool) : M machine unit :=
  if a <? limit then
    match fuel with
    | O => hang
    | S f =>
        do! pte <- walk pagetable a false;
        if pte =? 0 then panic "uvmunmap: walk"
        else
          do! e <- load64 pte;
          if negb (hasbit e PTE_V) then panic "uvmunmap: not mapped"
          else if PTE_FLAGS e =? PTE_V then panic "uvmunmap: not a leaf"
          else
            (if do_free then kfree end_ (PTE2PA e) else ret tt) ;;
            store64 pte 0 ;;
            uvmunmap_loop f pagetable (u64 (a + PGSIZE)) limit do_free
    end
  else ret tt.

Definition uvmunmap (pagetable va npages : Z) (do_free : bool) : M machine unit :=
  if negb (va mod PGSIZE =? 0) then panic "uvmunmap: not aligned"
  else uvmunmap_loop (Z.to_nat npages) pagetable va (u64 (va + npages * PGSIZE)) do_free.

Definition uvmcreate : M machine Z :=
  do! pagetable <- kalloc;
  if pagetable =? 0 then ret 0
  else memset_at pagetable 0 PGSIZE ;; ret pagetable.

Definition uvmfirst (pagetable src sz : Z) : M machine unit :=
  if PGSIZE <=? sz then panic "uvmfirst: more than a page"
  else
    do! m <- kalloc;
    memset_at m 0 PGSIZE ;;
    do! _ <- mappages pagetable 0 PGSIZE m (Z.lor (Z.lor (Z.lor PTE_W PTE_R) PTE_X) PTE_U);
    memmove_at m src sz.

Definition uvmdealloc (pagetable oldsz newsz : Z) : M machine Z :=
  if oldsz <=? newsz then ret oldsz
  else
    (if PGROUNDUP newsz <? PGROUNDUP oldsz then
       let npages := s32 ((PGROUNDUP oldsz - PGROUNDUP newsz) / PGSIZE) in
       uvmunmap pagetable (PGROUNDUP newsz) (u64 npages) true
     else ret tt) ;;
    ret newsz.

Fixpoint uvmalloc_loop (fuel : nat) (pagetable a oldsz newsz xperm : Z) : M machine Z :=
  if a <? newsz then
    match fuel with
    | O => hang
    | S f =>
        do! m <- kalloc;
        if m =? 0 then uvmdealloc pagetable a oldsz ;; ret 0
        else
          memset_at m 0 PGSIZE ;;
          do! r <- mappages pagetable a PGSIZE m (Z.lor (Z.lor PTE_R PTE_U) xperm);
          if negb (r =? 0)
          then kfree end_ m ;; uvmdealloc pagetable a oldsz ;; ret 0
          else uvmalloc_loop f pagetable (u64 (a + PGSIZE)) oldsz newsz xperm
    end
  else ret newsz.

Definition uvmalloc (pagetable oldsz newsz xperm : Z) : M machine Z :=
  if newsz <? oldsz then ret oldsz
  else
    let oldsz := PGROUNDUP oldsz in
    uvmalloc_loop (Z.to_nat ((newsz - oldsz) / PGSIZE + 1)) pagetable oldsz oldsz newsz xperm.

(** Recursion over the tree: [fuel] bounds its depth (three levels). *)
Fixpoint freewalk (fuel : nat) (pagetable : Z) : M machine unit :=
  match fuel with
  | O => hang
  | S f =>
      forz 512 0 (fun i =>
        do! pte <- load64 (pagetable + 8 * i);
        if hasbit pte PTE_V && (Z.land pte (Z.lor (Z.lor PTE_R PTE_W) PTE_X) =? 0)
        then freewalk f (PTE2PA pte) ;; store64 (pagetable + 8 * i) 0
        else if hasbit pte PTE_V then panic "freewalk: leaf"
        else ret tt) ;;
      kfree end_ pagetable
  end.

Definition uvmfree (pagetable sz : Z) : M machine unit :=
  (if 0 <? sz then uvmunmap pagetable 0 (PGROUNDUP sz / PGSIZE) true else ret tt) ;;
  freewalk 3 pagetable.

Fixpoint uvmcopy_loop (fuel : nat) (old new i sz : Z) : M machine Z :=
  if i <? sz then
    match fuel with
    | O => hang
    | S f =>
        do! pte <- walk old i false;
        if pte =? 0 then panic "uvmcopy: pte should exist"
        else
          do! e <- load64 pte;
          if negb (hasbit e PTE_V) then panic "uvmcopy: page not present"
          else
            let pa := PTE2PA e in
            (if hasbit e PTE_W
             then store64 pte (Z.land e (Z.lnot PTE_W)) ;;
                  do! e' <- load64 pte; store64 pte (Z.lor e' PTE_COW)
             else ret tt) ;;
            do! e'' <- load64 pte;
            let flags := PTE_FLAGS e'' in
            do! r <- mappages new i PGSIZE pa flags;
            if negb (r =? 0) then uvmunmap new 0 (i / PGSIZE) true ;; ret (-1)
            else
              increase_count pa ;;
              uvmcopy_loop f old new (u64 (i + PGSIZE)) sz
    end
  else ret 0.

Definition uvmcopy (old new sz : Z) : M machine Z :=
  uvmcopy_loop (Z.to_nat (sz / PGSIZE + 1)) old new 0 sz.

Definition uvmclear (pagetable va : Z) : M machine unit :=
  do! pte <- walk pagetable va false;
  if pte =? 0 then panic "uvmclear"
  else do! e <- load64 pte; store64 pte (Z.land e (Z.lnot PTE_U)).

(** trap.c *)
Definition cow_page_fault_handler (pagetable va : Z) : M machine Z :=
  if (va =? 0) || (MAXVA <=? va) then ret MINUS1
  else
    do! pte <- walk pagetable va false;
    if pte =? 0 then ret MINUS1
    else
      do! e <- load64 pte;
      if negb (hasbit e PTE_V) then ret MINUS1
      else if negb (hasbit e PTE_U) then ret MINUS1
      else if hasbit e PTE_W then ret 0
      else if negb (hasbit e PTE_COW) then ret MINUS1
      else
        let pa := PTE2PA e in
        do! m <- kalloc;
        if m =? 0 then ret MINUS1
        else
          store64 pte (Z.lor (Z.lor (Z.land (PTE_FLAGS e) (Z.lnot PTE_COW)) PTE_W) (PA2PTE m)) ;;
          memmove_at m pa PGSIZE ;;
          kfree end_ pa ;;
          ret 0.

Fixpoint copyout_loop (fuel : nat) (pagetable dstva src len : Z) : M machine Z :=
  if 0 <? len then
    match fuel with
    | O => hang
    | S f =>
        let va0 := PGROUNDDOWN dstva in
        do! r <- cow_page_fault_handler pagetable dstva;
        if r =? MINUS1 then ret (-1)
        else
          do! pa0 <- walkaddr pagetable va0;
          if pa0 =? 0 then ret (-1)
          else
            let n0 := PGSIZE - (dstva - va0) in
            let n := if len <? n0 then len else n0 in
            memmove_at (pa0 + (dstva - va0)) src n ;;
            copyout_loop f pagetable (u64 (va0 + PGSIZE)) (src + n) (len - n)
    end
  else ret 0.
Definition copyout (pagetable dstva src len : Z) : M machine Z :=
  copyout_loop (Z.to_nat (len / PGSIZE + 2)) pagetable dstva src len.

Fixpoint copyin_loop (fuel : nat) (pagetable dst srcva len : Z) : M machine Z :=
  if 0 <? len then
    match fuel with
    | O => hang
    | S f =>
        let va0 := PGROUNDDOWN srcva in
        do! pa0 <- walkaddr pagetable va0;
        if pa0 =? 0 then ret (-1)
        else
          let n0 := PGSIZE - (srcva - va0) in
          let n := if len <? n0 then len else n0 in
          memmove_at dst (pa0 + (srcva - va0)) n ;;
          copyin_loop f pagetable (dst + n) (u64 (va0 + PGSIZE)) (len - n)
    end
  else ret 0.
Definition copyin (pagetable dst srcva len : Z) : M machine Z :=
  copyin_loop (Z.to_nat (len / PGSIZE + 2)) pagetable dst srcva len.

(** The inner loop of [copyinstr]: [n] bytes of one page; returns whether a
    NUL was copied, and the new [dst] and [max]. *)
Fixpoint copyinstr_page (n : nat) (p dst max : Z) : M machine (bool * Z * Z) :=
  match n with
  | O => ret (false, dst, max)
  | S n' =>
      do! c <- gets (fun s => ld8 (mem s) p);
      if c =? 0 then modify (set_mem (fun m => st8 m dst 0)) ;; ret (true, dst, max)
      else modify (set_mem (fun m => st8 m dst c)) ;; copyinstr_page n' (p + 1) (dst + 1) (max - 1)
  end.
Fixpoint copyinstr_loop (fuel : nat) (pagetable dst srcva max : Z) (got_null : bool) : M machine Z :=
  if negb got_null && (0 <? max) then
    match fuel with
    | O => hang
    | S f =>
        let va0 := PGROUNDDOWN srcva in
        do! pa0 <- walkaddr pagetable va0;
        if pa0 =? 0 then ret (-1)
        else
          let n0 := PGSIZE - (srcva - va0) in
          let n := if max <? n0 then max else n0 in
          do! r <- copyinstr_page (Z.to_nat n) (pa0 + (srcva - va0)) dst max;
          let '(got, dst', max') := r in
          copyinstr_loop f pagetable dst' (u64 (va0 + PGSIZE)) max' got
    end
  else ret (if got_null then 0 else -1).
Definition copyinstr (pagetable dst srcva max : Z) : M machine Z :=
  copyinstr_loop (Z.to_nat (max / PGSIZE + 2)) pagetable dst srcva max false.

(** The kernel's own page table: vm.c [kvmmake], proc.c [proc_mapstacks]. *)
Definition proc_mapstacks (kpgtbl : Z) : M machine unit :=
  forz (Z.to_nat NPROC) 0 (fun p =>
    do! pa <- kalloc;
    if pa =? 0 then panic "kalloc"
    else kvmmap kpgtbl (KSTACK p) pa PGSIZE (Z.lor PTE_R PTE_W)).

Definition kvmmake (etext trampoline : Z) : M machine Z :=
  do! kpgtbl <- kalloc;
  memset_at kpgtbl 0 PGSIZE ;;
  kvmmap kpgtbl UART0 UART0 PGSIZE (Z.lor PTE_R PTE_W) ;;
  kvmmap kpgtbl VIRTIO0 VIRTIO0 PGSIZE (Z.lor PTE_R PTE_W) ;;
  kvmmap kpgtbl PLIC PLIC 0x400000 (Z.lor PTE_R PTE_W) ;;
  kvmmap kpgtbl KERNBASE KERNBASE (u64 (etext - KERNBASE)) (Z.lor PTE_R PTE_X) ;;
  kvmmap kpgtbl etext etext (u64 (PHYSTOP - etext)) (Z.lor PTE_R PTE_W) ;;
  kvmmap kpgtbl TRAMPOLINE trampoline PGSIZE (Z.lor PTE_R PTE_X) ;;
  proc_mapstacks kpgtbl ;;
  ret kpgtbl.
End Vm.
