(* ===== verification/VmInv.v ===== *)
(** * The invariant of page tables, reference counts and the free list

    The abstract state says which physical pages are page-table pages (by
    root and path of indices), which leaf entries each address space has (by
    root and virtual page number) and how many references to each page the
    kernel itself holds.  [vm_inv] relates it to the machine: tables in memory
    encode it, and every reference count is the number of references. *)

From S2P Require Import Prelude Riscv Mem Lock Kalloc Vm.
Import KString.
Local Open Scope Z_scope.

Record vmabs := mkabs {
  tabs : gmap (Z * list Z) Z;
  leaves : gmap (Z * Z) Z;
  kown : gmap Z Z
}.

Definition kref (g : vmabs) (p : Z) : Z := default 0 (kown g !! p).
Definition set_kown (p v : Z) (g : vmabs) : vmabs := mkabs (tabs g) (leaves g) (<[p := v]> (kown g)).
Definition is_tab (g : vmabs) (p : Z) : Prop := exists k, tabs g !! k = Some p.

(** Pages below the trapframe page belong to the user. *)
Definition user_vpn (n : Z) : Prop := n < vpn TRAPFRAME.

(** The user mappings of the physical page [p], over all address spaces. *)
Definition maps_to (p : Z) (kw : (Z * Z) * Z) : Prop := user_vpn kw.1.2 /\ PTE2PA kw.2 = p.
#[export] Instance maps_to_dec p kw : Decision (maps_to p kw).
Proof. unfold maps_to, user_vpn. apply _. Defined.
Definition leafref (g : vmabs) (p : Z) : Z := Z.of_nat (size (filter (maps_to p) (leaves g))).

Definition upath (va : Z) : list Z := [PX 2 va; PX 1 va].
Definition npath (n : Z) : list Z := [n / 2 ^ 18; n / 2 ^ 9 mod 512].

(** The word of entry [i] of the table page [a]. *)
Definition ent (s : machine) (a i : Z) : Z := ld64 (mem s) (a + 8 * i).

(** A physical page that some address space may write is mapped nowhere else. *)
Definition excl_ok (L : gmap (Z * Z) Z) : Prop :=
  forall r n w r' n' w', L !! (r, n) = Some w -> L !! (r', n') = Some w' ->
    user_vpn n -> user_vpn n' -> PTE2PA w = PTE2PA w' -> hasbit w PTE_W = true ->
    (r, n) = (r', n').
(** A shared page is at the same virtual page in all address spaces. *)
Definition same_ok (L : gmap (Z * Z) Z) : Prop :=
  forall r n w r' n' w', L !! (r, n) = Some w -> L !! (r', n') = Some w' ->
    user_vpn n -> user_vpn n' -> PTE2PA w = PTE2PA w' -> n = n'.

(** The address [walk] finds: the leaf entry of [va], 0 when a table on the
    way is missing. *)
Definition slot (g : vmabs) (r va : Z) : Z :=
  match tabs g !! (r, upath va) with Some a => a + 8 * PX 0 va | None => 0 end.

(** The page [p] becomes the table at [k]. *)
Definition add_tab (k : Z * list Z) (p : Z) (g : vmabs) : vmabs :=
  mkabs (<[k := p]> (tabs g)) (leaves g) (<[p := 0]> (kown g)).

(** The address spaces after the leaf of page [n] of [r] becomes [v]. *)
Definition upd_leaf (r n v : Z) (L : gmap (Z * Z) Z) : gmap (Z * Z) Z :=
  if hasbit v PTE_V then <[(r, n) := v]> L else delete (r, n) L.

(** Machines that no load can tell apart. *)
Definition meq (s s' : machine) : Prop :=
  (forall x, ld8 (mem s) x = ld8 (mem s') x) /\ freelist s = freelist s' /\
  counter s = counter s' /\ mlocks s = mlocks s'.

Section Inv.
Variable end_ : Z.

(** A page the kernel owns alone. *)
Definition fresh_page (g : vmabs) (p : Z) : Prop :=
  page_ok end_ p /\ ~ is_tab g p /\ kref g p = 1 /\ leafref g p = 0.

Record vm_inv (l : list Z) (g : vmabs) (s : machine) : Prop := {
  vi_alloc : alloc_inv end_ l s;
  vi_root : forall r p a, tabs g !! (r, p) = Some a -> tabs g !! (r, []) = Some r;
  vi_path : forall r p i a, tabs g !! (r, p ++ [i]) = Some a ->
    0 <= i < 512 /\ (length p < 2)%nat /\ is_Some (tabs g !! (r, p));
  vi_tab : forall k a, tabs g !! k = Some a -> page_ok end_ a /\ cnt s a = 1 /\ kref g a = 0;
  vi_inj : forall k k' a, tabs g !! k = Some a -> tabs g !! k' = Some a -> k = k';
  vi_inner : forall r p a i, tabs g !! (r, p) = Some a -> (length p < 2)%nat -> 0 <= i < 512 ->
    tabs g !! (r, p ++ [i]) = (if hasbit (ent s a i) PTE_V then Some (PTE2PA (ent s a i)) else None) /\
    (hasbit (ent s a i) PTE_V = true ->
       Z.land (ent s a i) (Z.lor (Z.lor PTE_R PTE_W) PTE_X) = 0);
  vi_leaf : forall r i2 i1 i0 a, tabs g !! (r, [i2; i1]) = Some a -> 0 <= i0 < 512 ->
    leaves g !! (r, i2 * 2 ^ 18 + i1 * 2 ^ 9 + i0) =
    (if hasbit (ent s a i0) PTE_V then Some (ent s a i0) else None);
  vi_leafdom : forall r n w, leaves g !! (r, n) = Some w ->
    0 <= n < 2 ^ 27 /\ is_Some (tabs g !! (r, npath n));
  vi_leafok : forall r n w, leaves g !! (r, n) = Some w ->
    (PTE_FLAGS w <> PTE_V /\ (hasbit w PTE_U = true -> user_vpn n)) /\
    (user_vpn n -> page_ok end_ (PTE2PA w) /\ 1 <= cnt s (PTE2PA w) /\ ~ is_tab g (PTE2PA w));
  vi_excl : excl_ok (leaves g);
  vi_same : same_ok (leaves g);
  vi_cnt : forall p, page_ok end_ p -> ~ is_tab g p -> cnt s p = leafref g p + kref g p
}.
End Inv.

(** ** Counting *)
Lemma kref_set g p v q : kref (set_kown p v g) q = if decide (q = p) then v else kref g q.
Proof.
  unfold kref, set_kown. cbn. case_decide as E.
  - subst. by rewrite lookup_insert_eq.
  - by rewrite lookup_insert_ne.
Qed.

Lemma leafref_nonneg g p : 0 <= leafref g p.
Proof. unfold leafref. lia. Qed.

Lemma leafref_pos g p r n w : leaves g !! (r, n) = Some w -> user_vpn n -> PTE2PA w = p ->
  1 <= leafref g p.
Proof.
  intros Hl Hu Hp. unfold leafref.
  assert (size (filter (maps_to p) (leaves g)) <> 0%nat); [|lia].
  intros E%map_size_empty_inv. assert (filter (maps_to p) (leaves g) !! (r, n) = Some w) as H.
  { apply map_lookup_filter_Some. split; [done|]. by split. }
  by rewrite E in H.
Qed.

(** The number of mappings after adding or removing a leaf. *)
Definition hit (p n w : Z) : Z := if decide (maps_to p ((0, n), w)) then 1 else 0.

Lemma leafref_add t L k r n w p : L !! (r, n) = None ->
  leafref (mkabs t (<[(r, n) := w]> L) k) p = leafref (mkabs t L k) p + hit p n w.
Proof.
  intros Hn. unfold leafref, hit. cbn [leaves].
  destruct (decide (maps_to p ((0, n), w))) as [H|H].
  - rewrite map_filter_insert_True by exact H. rewrite map_size_insert_None; [lia|].
    apply map_lookup_filter_None. by left.
  - rewrite map_filter_insert_not'; [lia|exact H|]. intros y Hy. by rewrite Hn in Hy.
Qed.

Lemma leafref_del t L k r n w p : L !! (r, n) = Some w ->
  leafref (mkabs t (delete (r, n) L) k) p = leafref (mkabs t L k) p - hit p n w.
Proof.
  intros Hn. rewrite <- (insert_delete_id L (r, n) w Hn) at 2.
  rewrite leafref_add by apply lookup_delete_eq. lia.
Qed.

Section InvProofs.
Variable end_ : Z.
Hypothesis end_kernel : KERNBASE <= end_.
Abbreviation page_ok := (page_ok end_).
Abbreviation alloc_inv := (alloc_inv end_).
Abbreviation vm_inv := (vm_inv end_).
Abbreviation fresh_page := (fresh_page end_).

Lemma ent_same s s' a i : same_page (mem s) (mem s') a -> 0 <= i < 512 -> ent s' a i = ent s a i.
Proof. intros H Hi. unfold ent. apply ld64_same_page; [done|lia..]. Qed.

Lemma tab_not_free l g s a : vm_inv l g s -> is_tab g a -> a ∉ l.
Proof.
  intros Hi [k Hk] Hl. destruct (vi_tab _ _ _ _ Hi k a Hk) as (Hp & Hc & _).
  apply (ai_zero _ _ _ (vi_alloc _ _ _ _ Hi) a Hp) in Hl. lia.
Qed.

Lemma leaf_not_free l g s r n w : vm_inv l g s -> leaves g !! (r, n) = Some w -> user_vpn n ->
  PTE2PA w ∉ l.
Proof.
  intros Hi Hw Hu Hl. destruct (vi_leafok _ _ _ _ Hi r n w Hw) as [_ Hok].
  destruct (Hok Hu) as (Hp & Hc & _).
  apply (ai_zero _ _ _ (vi_alloc _ _ _ _ Hi) _ Hp) in Hl. lia.
Qed.

Lemma free_page l g s p : vm_inv l g s -> p ∈ l ->
  page_ok p /\ cnt s p = 0 /\ ~ is_tab g p /\ leafref g p = 0 /\ kref g p = 0.
Proof.
  intros Hi Hl. pose proof (vi_alloc _ _ _ _ Hi) as Ha.
  assert (page_ok p) as Hp by (by eapply Forall_forall; [apply Ha|]).
  assert (cnt s p = 0) as Hc by (by apply (ai_zero _ _ _ Ha p Hp)).
  assert (~ is_tab g p) as Ht by (intros Ht; by apply (tab_not_free _ _ _ _ Hi Ht)).
  assert (leafref g p = 0) as Hlr.
  { destruct (decide (leafref g p = 0)) as [|Hne]; [done|exfalso].
    unfold leafref in Hne. assert (filter (maps_to p) (leaves g) <> ∅) as Hx.
    { intros E. rewrite E in Hne. by rewrite map_size_empty in Hne. }
    apply map_choose in Hx as ([r n] & w & Hw).
    apply map_lookup_filter_Some in Hw as [Hw [Hu Hpa]]. cbn in *.
    apply (leaf_not_free _ _ _ _ _ _ Hi Hw Hu). by rewrite Hpa. }
  pose proof (vi_cnt _ _ _ _ Hi p Hp Ht). repeat split; try done; try lia; apply Hp.
Qed.

(** Memory changes outside the tables, and a change of the kernel's own
    references of one page together with its count. *)
Lemma inv_kown l l' g s s' p v :
  vm_inv l g s -> alloc_inv l' s' ->
  (forall a, is_tab g a -> same_page (mem s) (mem s') a) ->
  page_ok p -> ~ is_tab g p ->
  (forall q, page_ok q -> cnt s' q = if decide (q = p) then cnt s q + (v - kref g p) else cnt s q) ->
  (1 <= leafref g p -> 1 <= cnt s' p) ->
  vm_inv l' (set_kown p v g) s'.
Proof.
  intros Hi Ha Hm Hp Ht Hc Hlive.
  assert (forall k a i, tabs g !! k = Some a -> 0 <= i < 512 -> ent s' a i = ent s a i) as He.
  { intros k a i Hk. apply ent_same. apply Hm. by exists k. }
  destruct Hi as [_ Hroot Hpath Htab Hinj Hinner Hleaf Hdom Hok Hexcl Hsame Hcnt].
  constructor; cbn [tabs leaves set_kown]; try done.
  - intros k a Hk. destruct (Htab k a Hk) as (Hpa & Hca & Hka).
    assert (a <> p) by (intros ->; apply Ht; by exists k).
    rewrite kref_set, Hc by done. by rewrite !decide_False by done.
  - intros r q a i Hk Hlen Hr. rewrite (He _ _ i Hk Hr). by apply Hinner.
  - intros r i2 i1 i0 a Hk Hi0. rewrite (He _ _ i0 Hk Hi0). by apply Hleaf.
  - intros r n w Hw. destruct (Hok r n w Hw) as [Hf Hu]. split; [done|]. intros Hun.
    destruct (Hu Hun) as (Hpa & Hca & Hta). split; [done|]. split; [|done].
    destruct (decide (PTE2PA w = p)) as [E|E].
    + rewrite E. apply Hlive. by eapply leafref_pos.
    + by rewrite Hc, decide_False.
  - intros q Hq Htq. rewrite Hc by done. rewrite kref_set. rewrite (Hcnt q Hq Htq).
    change (leafref (set_kown p v g) q) with (leafref g q). case_decide; subst; lia.
Qed.

Lemma inv_mem l g s s' :
  vm_inv l g s -> alloc_inv l s' ->
  (forall a, is_tab g a -> same_page (mem s) (mem s') a) ->
  (forall q, page_ok q -> cnt s' q = cnt s q) -> vm_inv l g s'.
Proof.
  intros Hi Ha Hm Hc.
  assert (forall k a i, tabs g !! k = Some a -> 0 <= i < 512 -> ent s' a i = ent s a i) as He.
  { intros k a i Hk. apply ent_same. apply Hm. by exists k. }
  destruct Hi as [_ Hroot Hpath Htab Hinj Hinner Hleaf Hdom Hok Hexcl Hsame Hcnt].
  constructor; try done.
  - intros k a Hk. destruct (Htab k a Hk) as (Hpa & Hca & Hka). by rewrite Hc.
  - intros r q a i Hk Hlen Hr. rewrite (He _ _ i Hk Hr). by apply Hinner.
  - intros r i2 i1 i0 a Hk Hi0. rewrite (He _ _ i0 Hk Hi0). by apply Hleaf.
  - intros r n w Hw. destruct (Hok r n w Hw) as [Hf Hu]. split; [done|]. intros Hun.
    destruct (Hu Hun) as (Hpa & Hca & Hta). by rewrite Hc.
  - intros q Hq Htq. by rewrite Hc; [apply Hcnt|].
Qed.

(** Memory writes that avoid the free pages keep the allocator's invariant. *)
Lemma alloc_inv_mem l s f : alloc_inv l s ->
  (forall p, p ∈ l -> same_page (mem s) (f (mem s)) p) -> alloc_inv l (set_mem f s).
Proof.
  intros [Hk Hc Hr Hn Hp Hb Hz] Hs. constructor; cbn; try done.
  eapply fl_rep_ext; [|done]. intros p Hpl.
  rewrite <- (Z.add_0_r p). by apply ld64_same_page; [apply Hs|..].
Qed.

(** ** The allocator, abstractly *)

(** [kalloc] takes the head of the free list and gives the kernel its only
    reference. *)
Lemma kalloc_abs p l g s : vm_inv (p :: l) g s ->
  exists s', kalloc s = Ok p s' /\ vm_inv l (set_kown p 1 g) s' /\
    mem s' = memset (mem s) p 5 PGSIZE /\ mlocks s' = mlocks s.
Proof.
  intros Hi. pose proof (vi_alloc _ _ _ _ Hi) as Ha.
  destruct (free_page _ _ _ p Hi) as (Hp & Hc & Ht & Hlr & Hkr); [set_solver|].
  pose proof (kalloc_eq end_ end_kernel p l s Ha) as E.
  pose proof (kalloc_inv end_ end_kernel p l s _ Ha E) as Ha'.
  eexists. split; [exact E|]. split; [|done].
  eapply inv_kown; try done.
  - intros a Hta. destruct Hta as [k Hk]. destruct (vi_tab _ _ _ _ Hi k a Hk) as (Hpa & _).
    apply same_page_memset; [apply Hp|apply Hpa|]. intros ->. apply Ht. by exists k.
  - intros q Hq. rewrite cnt_insert with (end_ := end_) by done. case_decide; [subst; lia|done].
  - lia.
Qed.

Lemma kalloc_abs_empty g s : vm_inv [] g s -> kalloc s = Ok 0 s.
Proof. intros Hi. by eapply kalloc_empty, (vi_alloc _ _ _ _ Hi). Qed.

(** [kfree] gives up one reference of the kernel; the page is freed when no
    reference is left. *)
Lemma kfree_abs p l g s : vm_inv l g s -> page_ok p -> ~ is_tab g p -> 1 <= kref g p ->
  exists l' s', kfree end_ p s = Ok tt s' /\ vm_inv l' (set_kown p (kref g p - 1) g) s' /\
    l' = (if decide (leafref g p + kref g p = 1) then p :: l else l) /\
    (forall q, q mod PGSIZE = 0 -> q <> p \/ leafref g p + kref g p <> 1 ->
       same_page (mem s) (mem s') q) /\ mlocks s' = mlocks s.
Proof.
  intros Hi Hp Ht Hk. pose proof (vi_alloc _ _ _ _ Hi) as Ha.
  pose proof (vi_cnt _ _ _ _ Hi p Hp Ht) as Hc. pose proof (leafref_nonneg g p) as Hl0.
  pose proof (ai_range _ _ _ Ha p Hp) as Hr.
  destruct (decide (leafref g p + kref g p = 1)) as [E1|E1].
  - assert (cnt s p = 1) as Hc1 by lia.
    pose proof (kfree_last end_ end_kernel p s (ai_cow _ _ _ Ha) (ai_kmem _ _ _ Ha) Hp Hc1) as E.
    pose proof (kfree_last_inv end_ end_kernel p l s _ Ha Hp Hc1 E) as Ha'.
    assert (forall q, q mod PGSIZE = 0 -> q <> p ->
      same_page (mem s) (st64 (memset (mem s) p 1 PGSIZE) p (freelist s)) q) as Hsp.
    { intros q Hq Hne. eapply same_page_trans.
      - by apply (same_page_memset _ p); [apply Hp|..].
      - by apply same_page_st64_head; [apply Hp|..]. }
    eexists _, _. split; [exact E|]. split; [|split; [done|split; [|done]]].
    + eapply inv_kown; try done.
      * intros a [k Ha2]. destruct (vi_tab _ _ _ _ Hi k a Ha2) as (Hpa & _).
        apply Hsp; [apply Hpa|]. intros ->. apply Ht. by exists k.
      * intros q Hq. rewrite cnt_insert with (end_ := end_) by done. case_decide; [subst; lia|done].
      * lia.
    + intros q Hq [?|?]; [by apply Hsp|done].
  - assert (2 <= cnt s p <= 255) as Hc2 by lia.
    pose proof (kfree_shared end_ end_kernel p s (ai_cow _ _ _ Ha) Hp Hc2) as E.
    eexists _, _. split; [exact E|]. split; [|split; [done|split; done]].
    eapply inv_kown; try done.
    + apply set_count_inv; [done..|lia|lia].
    + intros q Hq. rewrite cnt_set_counter with (end_ := end_) by done. case_decide; [subst; lia|done].
    + rewrite cnt_set_counter with (end_ := end_) by done. rewrite decide_True by done. lia.
Qed.

(** [increase_count] adds a reference. *)
Lemma increase_count_abs p l g s : vm_inv l g s -> page_ok p -> ~ is_tab g p ->
  1 <= cnt s p <= 254 ->
  exists s', increase_count p s = Ok tt s' /\ vm_inv l (set_kown p (kref g p + 1) g) s' /\
    mem s' = mem s /\ mlocks s' = mlocks s.
Proof.
  intros Hi Hp Ht Hr. pose proof (vi_alloc _ _ _ _ Hi) as Ha.
  pose proof (increase_count_eq end_ end_kernel p s (ai_cow _ _ _ Ha) Hp) as E.
  rewrite u8_small in E by lia. eexists. split; [exact E|]. split; [|done].
  eapply inv_kown; try done.
  - apply set_count_inv; [done..|lia|lia].
  - intros q Hq. rewrite cnt_set_counter with (end_ := end_) by done. case_decide; [subst; lia|done].
  - rewrite cnt_set_counter with (end_ := end_) by done. rewrite decide_True by done. lia.
Qed.

(** ** walk without allocation *)
Lemma npath_vpn va : 0 <= va < MAXVA -> npath (vpn va) = upath va.
Proof.
  intros H. unfold npath, upath. rewrite (PX_vpn 2), (PX_vpn 1) by lia. f_equal.
  rewrite Z.mod_small; [done|]. rewrite MAXVA_eq in H. unfold vpn, PGSIZE.
  rewrite Z.div_div by lia.
  split; [apply Z.div_pos|apply Z.div_lt_upper_bound]; lia.
Qed.

Lemma npath_idx i2 i1 i0 : 0 <= i1 < 512 -> 0 <= i0 < 512 ->
  npath (i2 * 2 ^ 18 + i1 * 2 ^ 9 + i0) = [i2; i1].
Proof.
  intros H1 H0. unfold npath. f_equal; [|f_equal].
  - replace (i2 * 2 ^ 18 + i1 * 2 ^ 9 + i0) with (i1 * 2 ^ 9 + i0 + i2 * 2 ^ 18) by lia.
    rewrite Z.div_add by lia. rewrite Z.div_small; lia.
  - replace (i2 * 2 ^ 18 + i1 * 2 ^ 9 + i0) with (i0 + (i1 + i2 * 2 ^ 9) * 2 ^ 9) by lia.
    rewrite Z.div_add by lia. rewrite (Z.div_small i0) by lia.
    rewrite Z.add_0_l. change 512 with (2 ^ 9). rewrite Z.mod_add by lia. rewrite Z.mod_small; lia.
Qed.

Lemma walk_ro l g s r va : vm_inv l g s -> tabs g !! (r, []) = Some r -> 0 <= va < MAXVA ->
  walk r va false s = Ok (slot g r va) s.
Proof.
  intros Hi Hr Hva. unfold walk. rewrite (proj2 (Z.leb_gt _ _)) by lia.
  pose proof (vi_inner _ _ _ _ Hi) as Hinner. unfold ent in Hinner.
  destruct (Hinner r [] r (PX 2 va) Hr) as [E2 _]; [cbn; lia|apply PX_range|].
  cbn [walk_levels]. unfold bind, load64, gets. change (Z.of_nat 2) with 2. change (Z.of_nat 1) with 1.
  cbn [app] in E2. destruct (hasbit (ld64 (mem s) (r + 8 * PX 2 va)) PTE_V) eqn:V2.
  - destruct (Hinner r [PX 2 va] _ (PX 1 va) E2) as [E1 _]; [cbn; lia|apply PX_range|].
    cbn [app] in E1. unfold slot, upath. rewrite E1.
    by destruct (hasbit (ld64 (mem s) (PTE2PA _ + 8 * PX 1 va)) PTE_V).
  - assert (tabs g !! (r, upath va) = None) as E1.
    { destruct (tabs g !! (r, upath va)) as [a|] eqn:E; [|done].
      apply (vi_path _ _ _ _ Hi r [PX 2 va]) in E as (_ & _ & [b Hb]). by rewrite E2 in Hb. }
    unfold slot. by rewrite E1.
Qed.

(** The entry found holds the leaf of the page, or nothing valid. *)
Lemma leaf_at l g s r va a : vm_inv l g s -> 0 <= va < MAXVA -> tabs g !! (r, upath va) = Some a ->
  leaves g !! (r, vpn va) =
  if hasbit (ent s a (PX 0 va)) PTE_V then Some (ent s a (PX 0 va)) else None.
Proof.
  intros Hi Hva Ha. rewrite vpn_PX by done.
  by apply (vi_leaf _ _ _ _ Hi); [|apply PX_range].
Qed.

Lemma leaf_none l g s r va : vm_inv l g s -> 0 <= va < MAXVA -> tabs g !! (r, upath va) = None ->
  leaves g !! (r, vpn va) = None.
Proof.
  intros Hi Hva Ha. destruct (leaves g !! (r, vpn va)) as [w|] eqn:E; [|done].
  apply (vi_leafdom _ _ _ _ Hi) in E as [_ [b Hb]]. by rewrite npath_vpn, Ha in Hb.
Qed.

Lemma slot_nonzero l g s r va a : vm_inv l g s -> tabs g !! (r, upath va) = Some a ->
  slot g r va = a + 8 * PX 0 va /\ slot g r va <> 0.
Proof.
  intros Hi Ha. unfold slot. rewrite Ha. split; [done|].
  destruct (vi_tab _ _ _ _ Hi _ _ Ha) as (Hp & _). apply page_ok_range in Hp; [|done].
  pose proof (PX_range 0 va). layout. lia.
Qed.

(** ** Updates of the tables *)

(** Entries after a store into entry [i] of table page [a]. *)
Lemma ent_st64 s a i v b j : page_ok a -> page_ok b -> 0 <= i < 512 -> 0 <= j < 512 ->
  0 <= v < 2 ^ 64 ->
  ent (set_mem (fun m => st64 m (a + 8 * i) v) s) b j =
  if decide (a = b /\ i = j) then v else ent s b j.
Proof.
  intros [Ha _] [Hb _] Hi Hj Hv. unfold ent. cbn. case_decide as E.
  - destruct E as [-> ->]. by rewrite ld64_st64_same, u64_small.
  - destruct (decide (a = b)) as [->|Hne].
    + apply ld64_st64_other. assert (i <> j) by naive_solver. lia.
    + apply ld64_same_page; [|lia..]. by apply same_page_st64; [..|lia|lia].
Qed.

Lemma set_mem_inv l g s a i v : vm_inv l g s -> is_tab g a -> 0 <= i < 512 ->
  alloc_inv l (set_mem (fun m => st64 m (a + 8 * i) v) s).
Proof.
  intros Hi Ht Hr. apply alloc_inv_mem; [apply Hi|]. intros p Hp.
  destruct (free_page _ _ _ _ Hi Hp) as (Hpo & _ & Hnt & _).
  destruct Ht as [k Hk]. destruct (vi_tab _ _ _ _ Hi k a Hk) as (Hao & _).
  apply same_page_st64; [apply Hao|apply Hpo| |lia|lia]. intros ->. apply Hnt. by exists k.
Qed.

Lemma fresh_not_leaf g p r n w : fresh_page g p -> leaves g !! (r, n) = Some w -> user_vpn n ->
  PTE2PA w <> p.
Proof. intros (_ & _ & _ & H) Hl Hu E. pose proof (leafref_pos g p r n w Hl Hu E). lia. Qed.

Lemma hasbit_0 m : hasbit 0 m = false.
Proof. apply hasbit_false. apply Z.land_0_l. Qed.

Lemma kernel_pte p : page_ok p ->
  0 <= Z.lor (PA2PTE p) PTE_V < 2 ^ 64 /\
  hasbit (Z.lor (PA2PTE p) PTE_V) PTE_V = true /\
  PTE2PA (Z.lor (PA2PTE p) PTE_V) = p /\
  Z.land (Z.lor (PA2PTE p) PTE_V) (Z.lor (Z.lor PTE_R PTE_W) PTE_X) = 0.
Proof.
  intros Hp. pose proof (page_ok_range _ end_kernel _ Hp) as Hr. destruct Hp as [Ha _].
  assert (0 <= p < 2 ^ 56) as H56 by (layout; lia).
  split; [|split; [|split]].
  - rewrite PA2PTE_lor by (done || lia). change PTE_V with 1.
    pose proof (Z.div_pos p 4096). pose proof (Z.div_lt_upper_bound p 4096 (2 ^ 44)). lia.
  - rewrite hasbit_V, Z.lor_spec. change (Z.testbit PTE_V 0) with true. apply orb_true_r.
  - by apply PTE2PA_PA2PTE.
  - rewrite PA2PTE_lor by (done || lia). change PTE_V with 1.
    apply Z.bits_inj'. intros i Hi. rewrite Z.land_spec, Z.bits_0.
    change (Z.lor (Z.lor PTE_R PTE_W) PTE_X) with 14.
    destruct (Z.ltb_spec i 4).
    + rewrite <- (Z.mod_pow2_bits_low _ 10) by lia. rewrite Z.add_comm, Z.mod_add by lia.
      assert (i = 0 \/ i = 1 \/ i = 2 \/ i = 3) as [->|[->|[->| ->]]] by lia; reflexivity.
    + rewrite (Z.bits_above_log2 14); [apply andb_false_r|lia|]. change (Z.log2 14) with 3. lia.
Qed.

Lemma is_tab_add k p g q : tabs g !! k = None -> is_tab (add_tab k p g) q <-> q = p \/ is_tab g q.
Proof.
  intros Hk. unfold is_tab, add_tab. cbn. split.
  - intros [k' Hk']. destruct (decide (k = k')) as [->|Hne].
    + rewrite lookup_insert_eq in Hk'. left. congruence.
    + rewrite lookup_insert_ne in Hk' by done. right. by exists k'.
  - intros [->|[k' Hk']].
    + exists k. apply lookup_insert_eq.
    + exists k'. rewrite lookup_insert_ne; [done|]. congruence.
Qed.

(** What the new table must satisfy, whether it is a root or below one. *)
Lemma inv_add_tab l g s s' k p :
  vm_inv l g s -> fresh_page g p -> tabs g !! k = None ->
  alloc_inv l s' -> counter s' = counter s ->
  (forall r q a, <[k := p]> (tabs g) !! (r, q) = Some a -> <[k := p]> (tabs g) !! (r, []) = Some r) ->
  (forall r q i a, <[k := p]> (tabs g) !! (r, q ++ [i]) = Some a ->
     0 <= i < 512 /\ (length q < 2)%nat /\ is_Some (<[k := p]> (tabs g) !! (r, q))) ->
  (forall r q a i, <[k := p]> (tabs g) !! (r, q) = Some a -> (length q < 2)%nat -> 0 <= i < 512 ->
    <[k := p]> (tabs g) !! (r, q ++ [i]) =
      (if hasbit (ent s' a i) PTE_V then Some (PTE2PA (ent s' a i)) else None) /\
    (hasbit (ent s' a i) PTE_V = true ->
       Z.land (ent s' a i) (Z.lor (Z.lor PTE_R PTE_W) PTE_X) = 0)) ->
  (forall j, 0 <= j < 512 -> ent s' p j = 0) ->
  (forall r i2 i1 a i0, tabs g !! (r, [i2; i1]) = Some a -> 0 <= i0 < 512 -> ent s' a i0 = ent s a i0) ->
  vm_inv l (add_tab k p g) s'.
Proof.
  intros Hi Hf Hk Ha Hc Hroot Hpath Hinner Hz Hsame. pose proof Hf as (Hp & Hnt & Hkr & Hlr).
  assert (forall q, cnt s' q = cnt s q) as Hcq by (intros q; unfold cnt; by rewrite Hc).
  constructor; try done.
  - intros k' a Hk'. cbn in Hk'. unfold add_tab, kref. cbn.
    destruct (decide (k = k')) as [->|Hne].
    + rewrite lookup_insert_eq in Hk'. injection Hk' as <-. rewrite lookup_insert_eq, Hcq.
      split; [done|]. split; [|done]. rewrite (vi_cnt _ _ _ _ Hi) by done. lia.
    + rewrite lookup_insert_ne in Hk' by done.
      destruct (vi_tab _ _ _ _ Hi k' a Hk') as (? & ? & ?). rewrite Hcq.
      rewrite lookup_insert_ne by (intros ->; apply Hnt; by exists k'). done.
  - intros k1 k2 a H1 H2. cbn in H1, H2.
    apply lookup_insert_Some in H1 as [[E1 P1]|[N1 P1]];
      apply lookup_insert_Some in H2 as [[E2 P2]|[N2 P2]]; [congruence| | |].
    + exfalso. apply Hnt. exists k2. congruence.
    + exfalso. apply Hnt. exists k1. congruence.
    + by apply (vi_inj _ _ _ _ Hi _ _ a).
  - intros r i2 i1 i0 a Hk' Hi0. cbn in Hk' |- *. destruct (decide (k = (r, [i2; i1]))) as [->|Hne].
    + rewrite lookup_insert_eq in Hk'. injection Hk' as <-. rewrite Hz, hasbit_0 by done.
      destruct (leaves g !! _) as [w|] eqn:E; [|done].
      apply (vi_leafdom _ _ _ _ Hi) in E as [_ [b Hb]].
      destruct (Hpath r [i2] i1 p) as (Hi1 & _); [by rewrite lookup_insert_eq|].
      rewrite npath_idx in Hb by done. by rewrite Hk in Hb.
    + rewrite lookup_insert_ne in Hk' by done. rewrite (Hsame _ _ _ _ _ Hk' Hi0).
      by apply (vi_leaf _ _ _ _ Hi).
  - intros r n w Hw. destruct (vi_leafdom _ _ _ _ Hi r n w Hw) as [Hn [b Hb]]. split; [done|].
    cbn. destruct (decide (k = (r, npath n))) as [->|Hne].
    + by rewrite lookup_insert_eq.
    + by rewrite lookup_insert_ne, Hb.
  - intros r n w Hw. destruct (vi_leafok _ _ _ _ Hi r n w Hw) as [Hfl Hu]. split; [done|].
    intros Hun. destruct (Hu Hun) as (? & ? & Htw). rewrite Hcq. split; [done|]. split; [done|].
    rewrite is_tab_add by done. intros [E|E]; [|done].
    by apply (fresh_not_leaf g p r n w Hf Hw Hun).
  - apply Hi.
  - apply Hi.
  - intros q Hq Htq. rewrite is_tab_add in Htq by done.
    rewrite Hcq, (vi_cnt _ _ _ _ Hi) by naive_solver.
    change (leafref (add_tab k p g) q) with (leafref g q). f_equal.
    unfold kref, add_tab. cbn. rewrite lookup_insert_ne; naive_solver.
Qed.

(** A new root: [uvmcreate]. *)
Lemma inv_new_root l g s p :
  vm_inv l g s -> fresh_page g p -> (forall j, 0 <= j < 512 -> ent s p j = 0) ->
  vm_inv l (add_tab (p, []) p g) s.
Proof.
  intros Hi Hf Hz. pose proof Hf as (Hp & Hnt & _).
  assert (forall q, tabs g !! (p, q) = None) as Hno.
  { intros q. destruct (tabs g !! (p, q)) as [a|] eqn:E; [|done].
    apply (vi_root _ _ _ _ Hi) in E. exfalso. apply Hnt. by exists (p, []). }
  apply (inv_add_tab l g s); try done.
  - apply Hi.
  - intros r q a H. destruct (decide (r = p)) as [->|Hne]; [by rewrite lookup_insert_eq|].
    rewrite lookup_insert_ne in H |- * by congruence. by eapply (vi_root _ _ _ _ Hi).
  - intros r q i a H. assert ((p, []) <> (r, q ++ [i])) as Hne.
    { intros [= _ E]. by destruct q. }
    rewrite lookup_insert_ne in H by done.
    destruct (vi_path _ _ _ _ Hi _ _ _ _ H) as (? & ? & [b Hb]). split; [done|]. split; [done|].
    rewrite lookup_insert_ne; [by rewrite Hb|]. intros [= <- <-]. by rewrite Hno in Hb.
  - intros r q a i H Hl Hr. rewrite (lookup_insert_ne _ _ (r, q ++ [i])) by (intros [= _ E]; by destruct q).
    apply lookup_insert_Some in H as [[[= <- <-] <-]|[Hne H]].
    + rewrite Hz, hasbit_0 by done. rewrite Hno. done.
    + by apply (vi_inner _ _ _ _ Hi).
Qed.

(** A new table below [(r, q)]: the allocating step of [walk]. *)
Lemma inv_new_table l g s r q a i p :
  vm_inv l g s -> tabs g !! (r, q) = Some a -> (length q < 2)%nat -> 0 <= i < 512 ->
  tabs g !! (r, q ++ [i]) = None -> fresh_page g p -> (forall j, 0 <= j < 512 -> ent s p j = 0) ->
  vm_inv l (add_tab (r, q ++ [i]) p g)
    (set_mem (fun m => st64 m (a + 8 * i) (Z.lor (PA2PTE p) PTE_V)) s).
Proof.
  intros Hi Hq Hlen Hr Hno Hf Hz. pose proof Hf as (Hp & Hnt & _).
  destruct (kernel_pte p Hp) as (Wr & WV & Wpa & Wl).
  destruct (vi_tab _ _ _ _ Hi _ _ Hq) as (Hpa & _).
  assert (a <> p) as Hap by (intros ->; apply Hnt; by exists (r, q)).
  assert (forall i', (r, q ++ [i]) <> (r, (q ++ [i]) ++ [i'])) as Hlong.
  { intros i' [= E]. apply (f_equal length) in E. rewrite !length_app in E. cbn in E. lia. }
  apply (inv_add_tab l g s); try done.
  - by eapply set_mem_inv; [|exists (r, q)|].
  - intros r' q' b H. assert ((r, q ++ [i]) <> (r', [])) as Hne by (intros [= _ E]; by destruct q).
    rewrite (lookup_insert_ne _ _ (r', [])) by done.
    apply lookup_insert_Some in H as [[[= <- <-] <-]|[_ H]]; by eapply (vi_root _ _ _ _ Hi).
  - intros r' q' i' b H. apply lookup_insert_Some in H as [[E <-]|[Hne H]].
    + injection E as <- E. apply app_inj_tail in E as [<- <-]. split; [done|]. split; [done|].
      destruct (decide ((r, q ++ [i]) = (r, q))) as [E|E]; [by rewrite E, lookup_insert_eq|].
      by rewrite lookup_insert_ne, Hq.
    + destruct (vi_path _ _ _ _ Hi _ _ _ _ H) as (? & ? & [c Hc]). split; [done|]. split; [done|].
      destruct (decide ((r, q ++ [i]) = (r', q'))) as [E|E]; [by rewrite E, lookup_insert_eq|].
      by rewrite lookup_insert_ne, Hc.
  - intros r' q' b j H Hl Hj. apply lookup_insert_Some in H as [[[= <- <-] <-]|[Hne H]].
    + rewrite ent_st64, decide_False by (done || naive_solver). rewrite Hz, hasbit_0 by done.
      rewrite lookup_insert_ne by done. split; [|done].
      destruct (tabs g !! (r, (q ++ [i]) ++ [j])) as [c|] eqn:E; [|done].
      apply (vi_path _ _ _ _ Hi) in E as (_ & _ & [d Hd]). by rewrite Hno in Hd.
    + destruct (vi_tab _ _ _ _ Hi _ _ H) as (Hb & _). rewrite ent_st64 by done.
      case_decide as E.
      * destruct E as [-> ->]. pose proof (vi_inj _ _ _ _ Hi _ _ _ Hq H) as [= -> ->].
        by rewrite lookup_insert_eq, WV, Wpa.
      * rewrite lookup_insert_ne; [by apply (vi_inner _ _ _ _ Hi)|].
        intros [= <- E']. apply app_inj_tail in E' as [<- <-].
        rewrite Hq in H. injection H as ->. by apply E.
  - intros j Hj. rewrite ent_st64, decide_False by (done || naive_solver). by apply Hz.
  - intros r' i2 i1 b i0 H Hi0. destruct (vi_tab _ _ _ _ Hi _ _ H) as (Hb & _).
    rewrite ent_st64, decide_False; [done| |done..]. intros [-> _].
    pose proof (vi_inj _ _ _ _ Hi _ _ _ Hq H) as [= -> ->]. cbn in Hlen. lia.
Qed.

Lemma upd_leaf_eq r n v L : upd_leaf r n v L !! (r, n) = if hasbit v PTE_V then Some v else None.
Proof. unfold upd_leaf. destruct (hasbit v PTE_V); [apply lookup_insert_eq|apply lookup_delete_eq]. Qed.
Lemma upd_leaf_ne r n v L k : k <> (r, n) -> upd_leaf r n v L !! k = L !! k.
Proof.
  intros Hne. unfold upd_leaf.
  destruct (hasbit v PTE_V); [by apply lookup_insert_ne|by apply lookup_delete_ne].
Qed.

Lemma npath_inj i2 i1 i0 j2 j1 j0 : 0 <= i1 < 512 -> 0 <= i0 < 512 -> 0 <= j1 < 512 -> 0 <= j0 < 512 ->
  i2 * 2 ^ 18 + i1 * 2 ^ 9 + i0 = j2 * 2 ^ 18 + j1 * 2 ^ 9 + j0 -> [i2; i1] = [j2; j1] /\ i0 = j0.
Proof.
  intros H1 H0 H1' H0' E. assert ([i2; i1] = [j2; j1]) as P.
  { rewrite <- (npath_idx i2 i1 i0), <- (npath_idx j2 j1 j0) by done. by rewrite E. }
  split; [done|]. injection P as -> ->. lia.
Qed.

(** Storing a leaf entry. *)
Lemma inv_set_leaf l g s r va a v k' :
  vm_inv l g s -> 0 <= va < MAXVA -> tabs g !! (r, upath va) = Some a -> 0 <= v < 2 ^ 64 ->
  let g' := mkabs (tabs g) (upd_leaf r (vpn va) v (leaves g)) k' in
  (hasbit v PTE_V = true ->
     (PTE_FLAGS v <> PTE_V /\ (hasbit v PTE_U = true -> user_vpn (vpn va))) /\
     (user_vpn (vpn va) -> page_ok (PTE2PA v) /\ 1 <= cnt s (PTE2PA v) /\ ~ is_tab g (PTE2PA v))) ->
  excl_ok (leaves g') -> same_ok (leaves g') ->
  (forall p, is_tab g p -> kref g' p = 0) ->
  (forall p, page_ok p -> ~ is_tab g p -> leafref g' p + kref g' p = leafref g p + kref g p) ->
  vm_inv l g' (set_mem (fun m => st64 m (a + 8 * PX 0 va) v) s).
Proof.
  intros Hi Hva Ha Hv g' Hok Hex Hsa Hkt Hcount.
  assert (is_tab g a) as Hta by (by exists (r, upath va)).
  pose proof (PX_range 0 va) as R0. pose proof (PX_range 1 va) as R1.
  destruct (vi_tab _ _ _ _ Hi _ _ Ha) as (Hpa & _).
  constructor; cbn [tabs leaves g']; try done.
  - by apply set_mem_inv with (g := g).
  - apply Hi.
  - apply Hi.
  - intros k b Hk. destruct (vi_tab _ _ _ _ Hi k b Hk) as (? & ? & ?). split; [done|].
    split; [done|]. apply Hkt. by exists k.
  - apply Hi.
  - intros r' p b i Hk Hl Hr. destruct (vi_tab _ _ _ _ Hi _ _ Hk) as (Hb & _).
    rewrite ent_st64, decide_False; [by apply (vi_inner _ _ _ _ Hi)| |done..].
    intros [-> _]. pose proof (vi_inj _ _ _ _ Hi _ _ _ Ha Hk) as [= -> <-]. cbn in Hl. lia.
  - intros r' i2 i1 i0 b Hk Hi0. destruct (vi_tab _ _ _ _ Hi _ _ Hk) as (Hb & _).
    destruct (vi_path _ _ _ _ Hi r' [i2] i1 b Hk) as (Hi1 & _).
    rewrite ent_st64 by done. case_decide as E.
    + destruct E as [-> <-]. pose proof (vi_inj _ _ _ _ Hi _ _ _ Ha Hk) as [= -> <- <-].
      rewrite <- vpn_PX by done. apply upd_leaf_eq.
    + rewrite upd_leaf_ne; [by apply (vi_leaf _ _ _ _ Hi)|].
      rewrite vpn_PX by done. intros [= -> E']. apply npath_inj in E' as [[= -> ->] ->]; [|done..].
      apply E. unfold upath in Ha. rewrite Hk in Ha. by injection Ha as ->.
  - intros r' n w Hw. destruct (decide ((r', n) = (r, vpn va))) as [[= -> ->]|Hne].
    + rewrite npath_vpn, Ha by done. split; [|done]. rewrite MAXVA_eq in Hva. unfold vpn, PGSIZE.
      split; [apply Z.div_pos|apply Z.div_lt_upper_bound]; lia.
    + rewrite upd_leaf_ne in Hw by done. by apply (vi_leafdom _ _ _ _ Hi) in Hw.
  - intros r' n w Hw. destruct (decide ((r', n) = (r, vpn va))) as [[= -> ->]|Hne].
    + rewrite upd_leaf_eq in Hw. destruct (hasbit v PTE_V); [|done]. injection Hw as <-.
      by apply Hok.
    + rewrite upd_leaf_ne in Hw by done. by apply (vi_leafok _ _ _ _ Hi) in Hw.
  - intros p Hp Hnt. change (cnt (set_mem _ s) p) with (cnt s p).
    rewrite Hcount by done. by apply (vi_cnt _ _ _ _ Hi).
Qed.

(** ** The invariant depends on memory only through loads *)
#[global] Instance meq_equiv : Equivalence meq.
Proof.
  split.
  - by intros s.
  - intros s1 s2 (H1 & H2 & H3 & H4). split; [intros x; by rewrite H1|done].
  - intros s1 s2 s3 (H1 & H2 & H3 & H4) (K1 & K2 & K3 & K4).
    split; [intros x; by rewrite H1, K1|]. split; [congruence|]. split; congruence.
Qed.

#[global] Instance alloc_inv_proper l : Proper (meq ==> iff) (alloc_inv l).
Proof.
  assert (forall s s', meq s s' -> alloc_inv l s -> alloc_inv l s') as H.
  { intros s s' (Hm & Hf & Hc & Hl) [Hk Hw Hr Hn Hp Hb Hz].
    assert (forall p, cnt s' p = cnt s p) as Hcp by (intros p; unfold cnt; by rewrite Hc).
    constructor; rewrite <- ?Hl; try done.
    - rewrite <- Hf. eapply fl_rep_ext; [|done]. intros p _. by apply ld64_ext.
    - intros p Hpo. rewrite Hcp. by apply Hb.
    - intros p Hpo. rewrite Hcp. by apply Hz. }
  intros s s' E. split; apply H; [done|by symmetry].
Qed.

#[global] Instance vm_inv_proper l g : Proper (meq ==> iff) (vm_inv l g).
Proof.
  assert (forall s s', meq s s' -> vm_inv l g s -> vm_inv l g s') as H.
  { intros s s' E Hi. pose proof E as (Hm & Hf & Hc & Hl).
    apply inv_mem with (s := s); [done| | |].
    - rewrite <- E. apply Hi.
    - intros a _ i _. by rewrite Hm.
    - intros q _. unfold cnt. by rewrite Hc. }
  intros s s' E. split; apply H; [done|by symmetry].
Qed.
End InvProofs.
