(* ===== verification/VmOps.v ===== *)
(** * Page-table operations against the abstract state

    Each operation of kernel/vm.c that builds or takes down mappings, as a
    transformation of the abstract address spaces of [VmInv.v]. *)

From S2P Require Import Prelude Riscv Mem Lock Kalloc Vm VmInv.
Import KString.
Local Open Scope Z_scope.

(** The user mapping of page [n] to [pa] takes over one kernel reference. *)
Definition charge (n pa : Z) (g : vmabs) : gmap Z Z :=
  if decide (user_vpn n) then <[pa := kref g pa - 1]> (kown g) else kown g.
(** Dropping the mapping gives the reference back to the kernel. *)
Definition credit (n pa : Z) (g : vmabs) : gmap Z Z :=
  if decide (user_vpn n) then <[pa := kref g pa + 1]> (kown g) else kown g.

Definition map_leaf (r n w : Z) (g : vmabs) : vmabs :=
  mkabs (tabs g) (<[(r, n) := w]> (leaves g)) (charge n (PTE2PA w) g).
Definition unmap_leaf (r n w : Z) (g : vmabs) : vmabs :=
  mkabs (tabs g) (delete (r, n) (leaves g)) (credit n (PTE2PA w) g).

(** New page-table pages were taken from the free list for root [r]; the
    mappings, the kernel's references and all data pages are as before. *)
Record grows (end_ r : Z) (l : list Z) (g : vmabs) (s : machine)
    (l' : list Z) (g' : vmabs) (s' : machine) : Prop := {
  gr_free : exists pre, l = pre ++ l';
  gr_leaves : leaves g' = leaves g;
  gr_kref : forall p, kref g' p = kref g p;
  gr_tabs : tabs g ⊆ tabs g';
  gr_new : forall k a, tabs g' !! k = Some a -> tabs g !! k = Some a \/ (k.1 = r /\ a ∈ l);
  gr_mem : forall q, q mod PGSIZE = 0 -> q ∉ l -> ~ is_tab g q -> same_page (mem s) (mem s') q;
  gr_cnt : forall q, page_ok end_ q -> q ∉ l -> cnt s' q = cnt s q;
  gr_locks : mlocks s' = mlocks s
}.

(** Mappings were dropped: pages may have gone to the free list, every page
    that is still referenced has its contents. *)
Record shrinks (end_ : Z) (l : list Z) (g : vmabs) (s : machine)
    (l' : list Z) (g' : vmabs) (s' : machine) : Prop := {
  sh_free : exists pre, l' = pre ++ l;
  sh_tabs : tabs g' = tabs g;
  sh_kref : forall p, kref g' p = kref g p;
  sh_mem : forall q, q mod PGSIZE = 0 -> q ∉ l' -> ~ is_tab g q -> same_page (mem s) (mem s') q;
  sh_locks : mlocks s' = mlocks s
}.

(** A general step for root [r]: no page in use was freed, tables were only
    added, the kernel's references and the pages in use are as before. *)
Record evolves (r : Z) (l : list Z) (g : vmabs) (s : machine)
    (l' : list Z) (g' : vmabs) (s' : machine) : Prop := {
  ev_free : forall p, p ∈ l' -> p ∈ l;
  ev_kref : forall p, kref g' p = kref g p;
  ev_tabs : tabs g ⊆ tabs g';
  ev_new : forall k a, tabs g' !! k = Some a -> tabs g !! k = Some a \/ (k.1 = r /\ a ∈ l);
  ev_mem : forall q, q mod PGSIZE = 0 -> q ∉ l -> ~ is_tab g q -> same_page (mem s) (mem s') q;
  ev_locks : mlocks s' = mlocks s
}.

(** [k] leaves of [r] from page [n] on removed. *)
Fixpoint del_range (k : nat) (r n : Z) (L : gmap (Z * Z) Z) : gmap (Z * Z) Z :=
  match k with
  | O => L
  | S k' => del_range k' r (n + 1) (delete (r, n) L)
  end.

(** The pages of an address space of [sz] bytes. *)
Definition npages (sz : Z) : Z := (sz + PGSIZE - 1) / PGSIZE.

(** The path from the root to the table [walk] is at when [level] remain. *)
Definition pathto (level : nat) (va : Z) : list Z := take (2 - level) (upath va).

(** The leaf entry [mappages] writes. *)
Definition pte_of (pa perm : Z) : Z := Z.lor (Z.lor (PA2PTE pa) perm) PTE_V.

Lemma grows_refl e r l g s : grows e r l g s l g s.
Proof. constructor; try done; [by exists []|naive_solver]. Qed.

Lemma grows_trans e r l1 g1 s1 l2 g2 s2 l3 g3 s3 :
  grows e r l1 g1 s1 l2 g2 s2 -> grows e r l2 g2 s2 l3 g3 s3 -> grows e r l1 g1 s1 l3 g3 s3.
Proof.
  intros [[pre1 F1] L1 K1 T1 N1 M1 C1 O1] [[pre2 F2] L2 K2 T2 N2 M2 C2 O2].
  assert (forall q, q ∉ l1 -> q ∉ l2) as Hsub by (intros q; subst l1; set_solver).
  constructor.
  - exists (pre1 ++ pre2). by rewrite F1, F2, app_assoc.
  - congruence.
  - intros p. by rewrite K2, K1.
  - by etransitivity.
  - intros k a Hk. destruct (N2 k a Hk) as [H|[H H']]; [by apply N1|right].
    split; [done|]. subst l1. set_solver.
  - intros q Hq Hl Ht. eapply same_page_trans; [by apply M1|]. apply M2; [done|by apply Hsub|].
    intros [k Hk]. destruct (N1 k q Hk) as [H|[H H']]; [apply Ht; by exists k|done].
  - intros q Hq Hl. rewrite C2; [by apply C1|done|]. by apply Hsub.
  - congruence.
Qed.

Lemma grows_root e r l g s l' g' s' : grows e r l g s l' g' s' ->
  forall r', tabs g !! (r', []) = Some r' -> tabs g' !! (r', []) = Some r'.
Proof. intros H r' Hr. by eapply lookup_weaken; [|apply (gr_tabs _ _ _ _ _ _ _ _ H)]. Qed.

(** ** The entries [mappages] writes *)
Lemma pte_of_lor pa perm : pte_of pa perm = Z.lor (PA2PTE pa) (Z.lor perm PTE_V).
Proof. unfold pte_of. by rewrite Z.lor_assoc. Qed.

Lemma perm_range perm : 0 <= perm < 1024 -> 0 <= Z.lor perm PTE_V < 1024.
Proof. intros. change 1024 with (2 ^ 10). apply lor_range; [lia|lia|]. by change PTE_V with 1. Qed.

Lemma PA2PTE_range pa : 0 <= PA2PTE pa < 2 ^ 64.
Proof. apply u64_range. Qed.

Lemma pte_of_facts pa perm : 0 <= pa < 2 ^ 56 -> pa mod PGSIZE = 0 -> 0 <= perm < 1024 ->
  0 <= pte_of pa perm < 2 ^ 64 /\ hasbit (pte_of pa perm) PTE_V = true /\
  PTE2PA (pte_of pa perm) = pa /\ PTE_FLAGS (pte_of pa perm) = Z.lor perm PTE_V.
Proof.
  intros Hpa Hal Hperm. rewrite pte_of_lor. pose proof (perm_range perm Hperm) as Hr.
  split; [|split; [|split]].
  - apply lor_range; [lia|apply PA2PTE_range|]. change (2 ^ 64) with (1024 * 2 ^ 54). lia.
  - rewrite hasbit_V, !Z.lor_spec. change (Z.testbit PTE_V 0) with true. by rewrite !orb_true_r.
  - by apply PTE2PA_PA2PTE.
  - by apply PTE_FLAGS_PA2PTE.
Qed.

(** Flag bits of an entry are the bits of its flags. *)
Lemma flags_testbit w i : 0 <= i < 10 -> Z.testbit w i = Z.testbit (PTE_FLAGS w) i.
Proof. intros H. rewrite PTE_FLAGS_testbit by lia. by rewrite (proj2 (Z.ltb_lt i 10)) by lia. Qed.

(** The reference a user mapping takes or gives back. *)
Lemma charge_kref n w g t L p :
  kref (mkabs t L (charge n (PTE2PA w) g)) p = kref g p - hit p n w.
Proof.
  unfold kref, charge, hit, maps_to. cbn. destruct (decide (user_vpn n)) as [Hu|Hu].
  - destruct (decide (PTE2PA w = p)) as [<-|Hne].
    + rewrite lookup_insert_eq, decide_True by done. cbn. unfold kref. lia.
    + rewrite lookup_insert_ne, decide_False by naive_solver. unfold kref. lia.
  - rewrite decide_False by naive_solver. unfold kref. lia.
Qed.
Lemma credit_kref n w g t L p :
  kref (mkabs t L (credit n (PTE2PA w) g)) p = kref g p + hit p n w.
Proof.
  unfold kref, credit, hit, maps_to. cbn. destruct (decide (user_vpn n)) as [Hu|Hu].
  - destruct (decide (PTE2PA w = p)) as [<-|Hne].
    + rewrite lookup_insert_eq, decide_True by done. cbn. unfold kref. lia.
    + rewrite lookup_insert_ne, decide_False by naive_solver. unfold kref. lia.
  - rewrite decide_False by naive_solver. unfold kref. lia.
Qed.

Lemma hit_range p n w : 0 <= hit p n w <= 1.
Proof. unfold hit. case_decide; lia. Qed.

(** Removing a leaf keeps the two sharing conditions. *)
Lemma excl_ok_delete L k : excl_ok L -> excl_ok (delete k L).
Proof.
  intros H r n w r' n' w' H1 H2. apply lookup_delete_Some in H1 as [_ H1].
  apply lookup_delete_Some in H2 as [_ H2]. by eapply H.
Qed.
Lemma same_ok_delete L k : same_ok L -> same_ok (delete k L).
Proof.
  intros H r n w r' n' w' H1 H2. apply lookup_delete_Some in H1 as [_ H1].
  apply lookup_delete_Some in H2 as [_ H2]. by eapply H.
Qed.

(** A leaf to a page nobody maps keeps them. *)
Lemma excl_ok_fresh g r n w : excl_ok (leaves g) -> leafref g (PTE2PA w) = 0 ->
  excl_ok (<[(r, n) := w]> (leaves g)).
Proof.
  intros H Hf r1 n1 w1 r2 n2 w2 H1 H2 U1 U2 E W.
  apply lookup_insert_Some in H1 as [[[= <- <-] <-]|[_ H1]];
    apply lookup_insert_Some in H2 as [[[= <- <-] <-]|[_ H2]]; [done| | |by eapply H].
  - pose proof (leafref_pos _ _ _ _ _ H2 U2 (eq_sym E)). lia.
  - pose proof (leafref_pos _ _ _ _ _ H1 U1 E). lia.
Qed.
Lemma same_ok_fresh g r n w : same_ok (leaves g) -> leafref g (PTE2PA w) = 0 ->
  same_ok (<[(r, n) := w]> (leaves g)).
Proof.
  intros H Hf r1 n1 w1 r2 n2 w2 H1 H2 U1 U2 E.
  apply lookup_insert_Some in H1 as [[[= <- <-] <-]|[_ H1]];
    apply lookup_insert_Some in H2 as [[[= <- <-] <-]|[_ H2]]; [done| | |by eapply H].
  - pose proof (leafref_pos _ _ _ _ _ H2 U2 (eq_sym E)). lia.
  - pose proof (leafref_pos _ _ _ _ _ H1 U1 E). lia.
Qed.

Lemma npages_bounds sz : 0 <= sz -> (npages sz - 1) * PGSIZE < sz <= npages sz * PGSIZE /\ 0 <= npages sz.
Proof.
  intros H. unfold npages. pose proof (Z.div_mod (sz + PGSIZE - 1) PGSIZE ltac:(done)).
  pose proof (Z.mod_pos_bound (sz + PGSIZE - 1) PGSIZE ltac:(done)).
  pose proof (Z.div_pos (sz + PGSIZE - 1) PGSIZE). unfold PGSIZE in *. lia.
Qed.

Lemma npages_top sz : 0 <= sz <= TRAPFRAME -> npages sz * PGSIZE <= TRAPFRAME.
Proof.
  intros H. destruct (npages_bounds sz) as [[Hb _] _]; [lia|].
  assert (TRAPFRAME = PGSIZE * (TRAPFRAME / PGSIZE)) as E by done.
  set (t := TRAPFRAME / PGSIZE) in E. unfold PGSIZE in *. lia.
Qed.

Lemma PGROUNDUP_npages sz : 0 <= sz <= TRAPFRAME -> PGROUNDUP sz = npages sz * PGSIZE.
Proof.
  intros H. assert (TRAPFRAME < 2 ^ 64 - 4096) by done. rewrite PGROUNDUP_eq by lia.
  unfold npages. replace (sz + PGSIZE - 1) with (sz + 4095) by (unfold PGSIZE; lia). done.
Qed.

Lemma npages_mul n : npages (n * PGSIZE) = n.
Proof.
  unfold npages. replace (n * PGSIZE + PGSIZE - 1) with (4095 + n * PGSIZE) by (unfold PGSIZE; lia).
  by rewrite Z.div_add by done.
Qed.

Lemma npages_mono a b : a <= b -> npages a <= npages b.
Proof. intros. unfold npages. apply Z.div_le_mono; [done|lia]. Qed.

Section Ops.
Variable end_ : Z.
Hypothesis end_kernel : KERNBASE <= end_.
Abbreviation page_ok := (page_ok end_).
Abbreviation alloc_inv := (alloc_inv end_).
Abbreviation vm_inv := (vm_inv end_).
Abbreviation fresh_page := (fresh_page end_).
Abbreviation grows := (grows end_).

(** ** Filling a page the kernel owns *)
Lemma inv_page_write l g s p f : vm_inv l g s -> page_ok p -> ~ is_tab g p -> p ∉ l ->
  (forall m q, q mod PGSIZE = 0 -> p <> q -> same_page m (f m) q) ->
  vm_inv l g (set_mem f s).
Proof.
  intros Hi Hp Ht Hl Hf. apply inv_mem with (s := s); [done| | |done].
  - apply alloc_inv_mem; [apply Hi|]. intros q Hq.
    destruct (free_page _ _ _ _ q Hi Hq) as (Hqo & _).
    apply Hf; [apply Hqo|]. intros <-. done.
  - intros a [k Hk]. destruct (vi_tab _ _ _ _ Hi k a Hk) as (Hao & _).
    apply Hf; [apply Hao|]. intros <-. apply Ht. by exists k.
Qed.

(** A page the kernel references is not free. *)
Lemma kref_not_free l g s p : vm_inv l g s -> 1 <= kref g p -> p ∉ l.
Proof. intros Hi Hk Hl. destruct (free_page _ _ _ _ p Hi Hl) as (_ & _ & _ & _ & ?). lia. Qed.

Lemma memset_other p c m q : p mod PGSIZE = 0 -> q mod PGSIZE = 0 -> p <> q ->
  same_page m (memset m p c PGSIZE) q.
Proof. intros. by apply same_page_memset. Qed.

(** [kalloc] followed by [memset(m, 0, PGSIZE)]. *)
Lemma kalloc_zeroed p l g s : vm_inv (p :: l) g s ->
  exists s1, kalloc s = Ok p s1 /\
    let s2 := set_mem (fun m => memset m p 0 PGSIZE) s1 in
    vm_inv l (set_kown p 1 g) s2 /\ fresh_page (set_kown p 1 g) p /\ p <> 0 /\
    (forall j, 0 <= j < 512 -> ent s2 p j = 0) /\
    (forall i, 0 <= i < PGSIZE -> ld8 (mem s2) (p + i) = 0) /\
    (forall q, q mod PGSIZE = 0 -> q <> p -> same_page (mem s) (mem s2) q) /\
    (forall q, page_ok q -> q <> p -> cnt s2 q = cnt s q) /\ mlocks s2 = mlocks s.
Proof.
  intros Hi. destruct (free_page _ _ _ _ p Hi) as (Hp & Hc & Ht & Hlr & Hkr); [set_solver|].
  destruct (kalloc_abs _ end_kernel _ _ _ _ Hi) as (s1 & E & Hi1 & Hm & Hlk).
  pose proof (kalloc_eq _ end_kernel p l s (vi_alloc _ _ _ _ Hi)) as E'.
  rewrite E in E'. injection E' as E'.
  exists s1. split; [done|]. intros s2.
  assert (kref (set_kown p 1 g) p = 1) as Hk1 by (by rewrite kref_set, decide_True).
  split.
  { apply inv_page_write with (p := p); [done..| |].
    - apply (kref_not_free _ _ _ _ Hi1). lia.
    - intros m q Hq Hne. apply memset_other; [apply Hp|done..]. }
  split; [split; [done|split; [done|split; [done|done]]]|].
  split; [by apply page_ok_nonzero in Hp|].
  split; [|split; [|split; [|split; [|done]]]].
  - intros j Hj. unfold ent, s2. cbn. apply ld64_memset_zero; unfold PGSIZE; lia.
  - intros i Hr. unfold s2. cbn. rewrite memset_spec by (unfold PGSIZE; lia).
    inr_cases; [done|]. unfold PGSIZE in *. lia.
  - intros q Hq Hne. apply same_page_trans with (m2 := mem s1).
    + rewrite Hm. apply memset_other; [apply Hp|done|congruence].
    + unfold s2. cbn. apply memset_other; [apply Hp|done|congruence].
  - intros q Hq Hne. unfold s2. rewrite E'. unfold cnt. cbn.
    rewrite lookup_insert_ne; [done|]. intros Ei.
    apply (page_ok_inj _ end_kernel p q) in Ei; [congruence|done..].
Qed.

(** ** walk with allocation *)
Lemma pathto_step level va : (level < 2)%nat ->
  pathto level va = pathto (S level) va ++ [PX (Z.of_nat (S level)) va].
Proof. intros H. destruct level as [|[|level]]; [done|done|lia]. Qed.

Lemma walk_step l p g s r q a i :
  vm_inv (p :: l) g s -> tabs g !! (r, q) = Some a -> (length q < 2)%nat -> 0 <= i < 512 ->
  tabs g !! (r, q ++ [i]) = None ->
  exists s1, kalloc s = Ok p s1 /\ p <> 0 /\
    let s3 := set_mem (fun m => st64 m (a + 8 * i) (Z.lor (PA2PTE p) PTE_V))
                (set_mem (fun m => memset m p 0 PGSIZE) s1) in
    let g3 := add_tab (r, q ++ [i]) p (set_kown p 1 g) in
    vm_inv l g3 s3 /\ grows r (p :: l) g s l g3 s3.
Proof.
  intros Hi Hq Hlen Hr Hno.
  destruct (kalloc_zeroed _ _ _ _ Hi) as (s1 & E & Hi2 & Hf & Hnz & Hent & _ & Hmem & Hcnt & Hlk).
  exists s1. split; [done|]. split; [done|]. intros s3 g3.
  destruct (free_page _ _ _ _ p Hi) as (Hp & _ & Ht & _ & Hkr); [set_solver|].
  destruct (vi_tab _ _ _ _ Hi _ _ Hq) as (Ha & _).
  split; [by apply inv_new_table|].
  assert (forall k, tabs g3 !! k = <[(r, q ++ [i]) := p]> (tabs g) !! k) as Htabs by done.
  constructor.
  - by exists [p].
  - done.
  - intros x. unfold kref, g3, add_tab, set_kown. cbn. rewrite insert_insert_eq.
    destruct (decide (x = p)) as [->|Hne].
    + rewrite lookup_insert_eq. done.
    + by rewrite lookup_insert_ne.
  - apply insert_subseteq. done.
  - intros k b Hk. rewrite Htabs in Hk. apply lookup_insert_Some in Hk as [[<- <-]|[_ Hk]]; [right|by left].
    split; [done|]. set_solver.
  - intros x Hx Hl Hnt. eapply same_page_trans; [apply Hmem; [done|set_solver]|].
    apply same_page_st64; [apply Ha|done| |lia|lia]. intros ->. apply Hnt. by exists (r, q).
  - intros x Hx Hl. unfold s3. rewrite cnt_set_mem. apply Hcnt; [done|set_solver].
  - unfold s3. cbn [mlocks set_mem] in Hlk |- *. exact Hlk.
Qed.

Lemma walk_levels_alloc r va : forall level a l g s,
  (level <= 2)%nat -> vm_inv l g s -> tabs g !! (r, pathto level va) = Some a ->
  exists l' g' s' x, walk_levels level a va true s = Ok x s' /\ vm_inv l' g' s' /\
    grows r l g s l' g' s' /\
    ((x = 0 /\ l' = [] /\ (length l < level)%nat) \/
     exists a', tabs g' !! (r, upath va) = Some a' /\ x = a' + 8 * PX 0 va).
Proof.
  induction level as [|level IH]; intros a l g s Hlev Hi Ha.
  { exists l, g, s, (a + 8 * PX 0 va). split; [done|]. split; [done|].
    split; [apply grows_refl|]. right. by exists a. }
  cbn [walk_levels]. unfold bind at 1. unfold load64 at 1, gets at 1.
  assert (length (pathto (S level) va) < 2)%nat as Hlen.
  { unfold pathto. rewrite length_take. cbn. lia. }
  set (i := PX (Z.of_nat (S level)) va). assert (0 <= i < 512) as Hr by apply PX_range.
  destruct (vi_inner _ _ _ _ Hi _ _ _ i Ha Hlen Hr) as [E _]. unfold ent in E.
  unfold i in E. rewrite <- pathto_step in E by lia. fold i in E.
  destruct (hasbit (ld64 (mem s) (a + 8 * i)) PTE_V) eqn:V.
  { edestruct (IH (PTE2PA (ld64 (mem s) (a + 8 * i))) l g s) as (l' & g' & s' & x & Ew & Hi' & Hg' & Hres); [lia|done|exact E|].
    exists l', g', s', x. split; [done|]. split; [done|]. split; [done|].
    destruct Hres as [(-> & -> & Hl)|?]; [left|by right]. split; [done|]. split; [done|lia]. }
  cbn [negb]. destruct l as [|p l].
  { exists [], g, s, 0. unfold bind. rewrite (kalloc_abs_empty _ _ _ Hi). cbn.
    split; [done|]. split; [done|]. split; [apply grows_refl|]. left. cbn. split; [done|]. split; [done|lia]. }
  destruct (walk_step l p g s r (pathto (S level) va) a i) as (s1 & K & Hnz & Hi3 & Hgr);
    [done..| |].
  { unfold i. rewrite <- (pathto_step level) by lia. done. }
  unfold bind at 1. rewrite K. rewrite (proj2 (Z.eqb_neq p 0)) by done.
  unfold bind, memset_at, store64, modify. cbn [set_mem].
  edestruct (IH p) as (l' & g' & s' & x & Ew & Hi' & Hg' & Hres); [lia|exact Hi3| |].
  { cbn [tabs add_tab]. unfold i. rewrite <- (pathto_step level) by lia. apply lookup_insert_eq. }
  exists l', g', s', x. split; [exact Ew|]. split; [done|].
  split; [by eapply grows_trans|]. destruct Hres as [(-> & -> & Hl)|?]; [left|by right].
  split; [done|]. split; [done|]. cbn. lia.
Qed.

Lemma walk_alloc l g s r va : vm_inv l g s -> tabs g !! (r, []) = Some r -> 0 <= va < MAXVA ->
  exists l' g' s' x, walk r va true s = Ok x s' /\ vm_inv l' g' s' /\
    grows r l g s l' g' s' /\
    ((x = 0 /\ l' = [] /\ (length l < 2)%nat) \/
     exists a', tabs g' !! (r, upath va) = Some a' /\ x = a' + 8 * PX 0 va).
Proof.
  intros Hi Hr Hva. unfold walk. rewrite (proj2 (Z.leb_gt _ _)) by lia.
  by apply walk_levels_alloc.
Qed.

(** ** Adding and removing a leaf *)
Lemma inv_map_leaf l g s r va a w :
  vm_inv l g s -> 0 <= va < MAXVA -> tabs g !! (r, upath va) = Some a ->
  leaves g !! (r, vpn va) = None -> 0 <= w < 2 ^ 64 -> hasbit w PTE_V = true ->
  PTE_FLAGS w <> PTE_V /\ (hasbit w PTE_U = true -> user_vpn (vpn va)) ->
  (user_vpn (vpn va) -> page_ok (PTE2PA w) /\ 1 <= cnt s (PTE2PA w) /\ ~ is_tab g (PTE2PA w)) ->
  excl_ok (<[(r, vpn va) := w]> (leaves g)) -> same_ok (<[(r, vpn va) := w]> (leaves g)) ->
  vm_inv l (map_leaf r (vpn va) w g) (set_mem (fun m => st64 m (a + 8 * PX 0 va) w) s).
Proof.
  intros Hi Hva Ha Hno Hw HV Hfl Hu Hex Hsa.
  pose proof (inv_set_leaf end_ l g s r va a w (charge (vpn va) (PTE2PA w) g)) as H.
  unfold upd_leaf in H. rewrite HV in H. apply H; try done.
  - intros p Hp. rewrite charge_kref. destruct Hp as [k Hk].
    destruct (vi_tab _ _ _ _ Hi k p Hk) as (_ & _ & ->). unfold hit.
    rewrite decide_False; [done|]. intros [Hun E]. cbn in *. destruct (Hu Hun) as (_ & _ & Hnt).
    apply Hnt. rewrite E. by exists k.
  - intros p Hp Hnt. rewrite charge_kref. rewrite leafref_add by done.
    change (leafref (mkabs (tabs g) (leaves g) _) p) with (leafref g p). lia.
Qed.

Lemma inv_unmap_leaf l g s r va a w :
  vm_inv l g s -> 0 <= va < MAXVA -> tabs g !! (r, upath va) = Some a ->
  leaves g !! (r, vpn va) = Some w ->
  vm_inv l (unmap_leaf r (vpn va) w g) (set_mem (fun m => st64 m (a + 8 * PX 0 va) 0) s).
Proof.
  intros Hi Hva Ha Hw.
  pose proof (inv_set_leaf end_ l g s r va a 0 (credit (vpn va) (PTE2PA w) g)) as H.
  unfold upd_leaf in H. rewrite hasbit_0 in H.
  destruct (vi_leafok _ _ _ _ Hi _ _ _ Hw) as [_ Hu].
  apply H; try done.
  - apply excl_ok_delete, Hi.
  - apply same_ok_delete, Hi.
  - intros p Hp. rewrite credit_kref. destruct Hp as [k Hk].
    destruct (vi_tab _ _ _ _ Hi k p Hk) as (_ & _ & ->). unfold hit.
    rewrite decide_False; [done|]. intros [Hun E]. cbn in *. destruct (Hu Hun) as (_ & _ & Hnt).
    apply Hnt. rewrite E. by exists k.
  - intros p Hp Hnt. rewrite credit_kref. rewrite (leafref_del _ _ _ _ _ w) by done.
    change (leafref (mkabs (tabs g) (leaves g) _) p) with (leafref g p). lia.
Qed.

(** The result of [mappages] on one page. *)
Definition mapped (r n w : Z) (x : Z) (g : vmabs) : vmabs := if x =? 0 then map_leaf r n w g else g.

Lemma grows_store r l g s l' g' s' a i w : grows r l g s l' g' s' -> vm_inv l' g' s' ->
  is_tab g' a -> 0 <= i < 512 ->
  grows r l g s l' g' (set_mem (fun m => st64 m (a + 8 * i) w) s').
Proof.
  intros [F L K T N M C O] Hi [k Hk] Hr. destruct (vi_tab _ _ _ _ Hi k a Hk) as (Ha & _).
  constructor; try done. intros q Hq Hl Hnt. eapply same_page_trans; [by apply M|].
  apply same_page_st64; [apply Ha|done| |lia|lia]. intros ->.
  destruct (N k q Hk) as [H|[_ H]]; [apply Hnt; by exists k|done].
Qed.

Lemma mappages_page l g s r va pa perm :
  vm_inv l g s -> tabs g !! (r, []) = Some r -> 0 <= va < MAXVA -> va mod PGSIZE = 0 ->
  leaves g !! (r, vpn va) = None ->
  0 <= pa < 2 ^ 56 -> pa mod PGSIZE = 0 -> 0 <= perm < 1024 ->
  Z.lor perm PTE_V <> PTE_V /\ (hasbit perm PTE_U = true -> user_vpn (vpn va)) ->
  (user_vpn (vpn va) -> page_ok pa /\ 1 <= cnt s pa /\ ~ is_tab g pa) ->
  excl_ok (<[(r, vpn va) := pte_of pa perm]> (leaves g)) ->
  same_ok (<[(r, vpn va) := pte_of pa perm]> (leaves g)) ->
  exists l' g1 s' x, mappages r va PGSIZE pa perm s = Ok x s' /\
    vm_inv l' (mapped r (vpn va) (pte_of pa perm) x g1) s' /\ grows r l g s l' g1 s' /\
    (x = 0 \/ x = -1 /\ l' = [] /\ (length l < 2)%nat).
Proof.
  intros Hi Hr Hva Hal Hno Hpa Hpal Hperm Hfl Hu Hex Hsa.
  destruct (pte_of_facts pa perm) as (Wr & WV & Wpa & Wf); [done..|].
  unfold mappages. change (PGSIZE =? 0) with false. cbn match.
  assert (PGROUNDDOWN va = va) as Ea.
  { rewrite PGROUNDDOWN_pg by (rewrite MAXVA_eq in Hva; lia). by apply pg_self. }
  assert (PGROUNDDOWN (u64 (va + PGSIZE - 1)) = va) as El.
  { rewrite MAXVA_eq in Hva. rewrite u64_small by (layout; lia).
    rewrite PGROUNDDOWN_pg by (layout; lia).
    replace (va + PGSIZE - 1) with (va + 4095) by (layout; lia). apply pg_page; [done|layout; lia]. }
  rewrite Ea, El. unfold mappages_fuel. rewrite Z.leb_refl, Z.sub_diag.
  change (Z.to_nat (0 / PGSIZE + 2)) with 2%nat. cbn [mappages_loop].
  destruct (walk_alloc l g s r va Hi Hr Hva) as (l' & g1 & s1 & x & E & Hi1 & Hg & Hres).
  rewrite (bind_ok _ _ _ _ _ E).
  destruct Hres as [(-> & -> & Hshort)|(a & Ha & ->)].
  { exists [], g1, s1, (-1). split; [done|]. split; [done|]. split; [done|]. by right. }
  destruct (slot_nonzero _ end_kernel _ _ _ r va a Hi1 Ha) as [Es Hnz]. rewrite Es in Hnz.
  rewrite (proj2 (Z.eqb_neq _ 0)) by done.
  rewrite (bind_ok _ _ s1 (ld64 (mem s1) (a + 8 * PX 0 va)) s1) by done.
  pose proof (leaf_at _ _ _ _ r va a Hi1 Hva Ha) as Hl. rewrite (gr_leaves _ _ _ _ _ _ _ _ Hg), Hno in Hl.
  unfold ent in Hl. destruct (hasbit (ld64 (mem s1) (a + 8 * PX 0 va)) PTE_V); [done|].
  fold (pte_of pa perm).
  rewrite (bind_ok _ _ s1 tt (set_mem (fun m => st64 m (a + 8 * PX 0 va) (pte_of pa perm)) s1)) by done.
  rewrite Z.eqb_refl.
  assert (user_vpn (vpn va) -> pa ∉ l) as Hpl.
  { intros Hun Hin. destruct (Hu Hun) as (_ & Hc & _).
    destruct (free_page _ _ _ _ pa Hi Hin) as (_ & ? & _). lia. }
  exists l', g1, (set_mem (fun m => st64 m (a + 8 * PX 0 va) (pte_of pa perm)) s1), 0.
  split; [done|]. split; [|split; [|by left]].
  - unfold mapped. cbn match. apply inv_map_leaf; rewrite ?(gr_leaves _ _ _ _ _ _ _ _ Hg); try done.
    + rewrite Wf. split; [apply Hfl|]. rewrite hasbit_U, flags_testbit, Wf, Z.lor_spec by lia.
      change (Z.testbit PTE_V 4) with false. rewrite orb_false_r, <- hasbit_U. apply Hfl.
    + rewrite Wpa. intros Hun. destruct (Hu Hun) as (Hpo & Hc & Hnt). split; [done|].
      rewrite (gr_cnt _ _ _ _ _ _ _ _ Hg) by auto. split; [done|].
      intros [k Hk]. destruct (gr_new _ _ _ _ _ _ _ _ Hg k pa Hk) as [?|[_ ?]];
        [apply Hnt; by exists k|by apply Hpl].
  - apply grows_store; [done..|by exists (r, upath va)|apply PX_range].
Qed.

(** ** uvmunmap *)

(** Freeing a page and clearing an entry of a table page commute. *)
Lemma kfree_store_comm pa a i s s1 : page_ok pa -> page_ok a -> pa <> a -> 0 <= i < 512 ->
  "cow" ∉ mlocks s -> "kmem" ∉ mlocks s -> 1 <= cnt s pa <= 255 ->
  kfree end_ pa (set_mem (fun m => st64 m (a + 8 * i) 0) s) = Ok tt s1 ->
  exists s2, bind (kfree end_ pa) (fun _ => store64 (a + 8 * i) 0) s = Ok tt s2 /\ meq s1 s2.
Proof.
  intros Hp Ha Hne Hr Hc Hk Hcnt E. set (t := set_mem _ s) in E.
  assert (cnt t pa = cnt s pa) as Hct by done. unfold bind.
  destruct (decide (cnt s pa = 1)) as [H1|H1].
  - rewrite (kfree_last _ end_kernel pa t) in E by (done || congruence). injection E as <-.
    rewrite (kfree_last _ end_kernel pa s) by (done || congruence). eexists. split; [done|].
    split; [|done]. intros x. cbn. destruct Ha as [Ha _], Hp as [Hp _].
    rewrite !ld8_st64, !memset_spec, !ld8_st64 by (unfold PGSIZE; lia).
    inr_cases; try done.
    1: exfalso; apply (pages_disjoint pa a (x - pa) (x - a)); unfold PGSIZE in *; auto; lia.
    exfalso; apply (pages_disjoint pa a (x - pa) (x - a)); unfold PGSIZE in *; auto; lia.
  - rewrite (kfree_shared _ end_kernel pa t) in E by (done || lia). injection E as <-.
    rewrite (kfree_shared _ end_kernel pa s) by (done || lia). eexists. split; [done|]. done.
Qed.

Lemma shrinks_refl l g s : shrinks end_ l g s l g s.
Proof. constructor; try done. by exists []. Qed.

Lemma shrinks_trans l1 g1 s1 l2 g2 s2 l3 g3 s3 :
  shrinks end_ l1 g1 s1 l2 g2 s2 -> shrinks end_ l2 g2 s2 l3 g3 s3 ->
  shrinks end_ l1 g1 s1 l3 g3 s3.
Proof.
  intros [[p1 F1] T1 K1 M1 O1] [[p2 F2] T2 K2 M2 O2]. constructor.
  - exists (p2 ++ p1). by rewrite F2, F1, app_assoc.
  - congruence.
  - intros p. by rewrite K2, K1.
  - intros q Hq Hl Hnt. eapply same_page_trans.
    + apply M1; [done| |done]. subst l3. set_solver.
    + apply M2; [done..|]. unfold is_tab. by rewrite T1.
  - congruence.
Qed.

Lemma del_range_lookup k r n L r' m :
  del_range k r n L !! (r', m) =
  if decide (r' = r /\ n <= m < n + Z.of_nat k) then None else L !! (r', m).
Proof.
  revert n L. induction k as [|k IH]; intros n L; cbn [del_range].
  { rewrite decide_False; [done|lia]. }
  rewrite IH. destruct (decide (r' = r /\ n = m)) as [[-> ->]|Hne].
  - rewrite lookup_delete_eq. repeat case_decide; try done; exfalso; lia.
  - rewrite lookup_delete_ne by naive_solver. apply decide_ext. lia.
Qed.

(** One user page: free it, clear its entry. *)
Lemma unmap_free_page l g s r va a w :
  vm_inv l g s -> 0 <= va < MAXVA -> user_vpn (vpn va) -> tabs g !! (r, upath va) = Some a ->
  leaves g !! (r, vpn va) = Some w -> 0 <= kref g (PTE2PA w) ->
  exists l' g' s', bind (kfree end_ (PTE2PA w)) (fun _ => store64 (a + 8 * PX 0 va) 0) s = Ok tt s' /\
    vm_inv l' g' s' /\ leaves g' = delete (r, vpn va) (leaves g) /\ shrinks end_ l g s l' g' s'.
Proof.
  intros Hi Hva Hun Ha Hw Hk. set (pa := PTE2PA w).
  destruct (vi_leafok _ _ _ _ Hi _ _ _ Hw) as [_ Hu]. destruct (Hu Hun) as (Hp & Hc & Hnt).
  destruct (vi_tab _ _ _ _ Hi _ _ Ha) as (Hao & _).
  assert (pa <> a) as Hne by (intros E; apply Hnt; fold pa; rewrite E; by exists (r, upath va)).
  pose proof (inv_unmap_leaf _ _ _ _ _ _ _ Hi Hva Ha Hw) as Hi1.
  set (g1 := unmap_leaf r (vpn va) w g) in *. set (s1 := set_mem _ s) in *.
  assert (forall p, kref g1 p = kref g p + hit p (vpn va) w) as Hk1.
  { intros p. unfold g1, unmap_leaf. apply credit_kref. }
  assert (hit pa (vpn va) w = 1) as Hh by (unfold hit; by rewrite decide_True).
  destruct (kfree_abs _ end_kernel pa l g1 s1 Hi1 Hp) as (l' & s2 & E & Hi2 & Hl' & Hm & Hlk);
    [done|rewrite Hk1; unfold pa in *; lia|].
  pose proof (vi_alloc _ _ _ _ Hi) as Hal.
  destruct (kfree_store_comm pa a (PX 0 va) s s2) as (s3 & E3 & Heq);
    [done..|apply PX_range|apply Hal|apply Hal|pose proof (ai_range _ _ _ Hal pa Hp); unfold pa in *; lia|done|].
  exists l', (set_kown pa (kref g1 pa - 1) g1), s3. split; [done|]. split; [by rewrite <- Heq|].
  split; [done|]. pose proof Heq as (Hm3 & _ & _ & Hlk3). constructor.
  - rewrite Hl'. case_decide; [by exists [pa]|by exists []].
  - done.
  - intros p. rewrite kref_set. rewrite !Hk1. destruct (decide (p = pa)) as [Ep|Ep].
    + rewrite Ep, Hh. lia.
    + unfold hit. rewrite decide_False; [lia|]. intros [_ Ex]. by apply Ep.
  - intros q Hq Hl Hqt. assert (same_page (mem s) (mem s2) q) as Hsp.
    { eapply same_page_trans with (m2 := mem s1).
      - apply same_page_st64; [apply Hao|done| |pose proof (PX_range 0 va); lia..].
        intros ->. apply Hqt. by exists (r, upath va).
      - apply Hm; [done|]. destruct (decide (q = pa)) as [->|]; [right|by left].
        intros Ec. rewrite Hl', decide_True in Hl by done. set_solver. }
    intros i Hir. rewrite <- Hm3. by apply Hsp.
  - rewrite <- Hlk3, Hlk. done.
Qed.

Lemma vpn_add va i : vpn (va + i * PGSIZE) = vpn va + i.
Proof. unfold vpn, PGSIZE. by rewrite Z.div_add by lia. Qed.

Lemma user_below va : va < TRAPFRAME -> user_vpn (vpn va).
Proof.
  unfold user_vpn, vpn. intros H. apply Z.div_lt_upper_bound; [layout; lia|].
  change (TRAPFRAME / PGSIZE) with (TRAPFRAME / 4096).
  assert (TRAPFRAME = PGSIZE * (TRAPFRAME / 4096)) by done. lia.
Qed.

Lemma uvmunmap_free_loop k : forall l g s r va,
  vm_inv l g s -> tabs g !! (r, []) = Some r -> 0 <= va -> va mod PGSIZE = 0 ->
  va + Z.of_nat k * PGSIZE <= TRAPFRAME ->
  (forall i, 0 <= i < Z.of_nat k -> is_Some (leaves g !! (r, vpn va + i))) ->
  (forall p, 0 <= kref g p) ->
  exists l' g' s', uvmunmap_loop end_ k r va (va + Z.of_nat k * PGSIZE) true s = Ok tt s' /\
    vm_inv l' g' s' /\ leaves g' = del_range k r (vpn va) (leaves g) /\ shrinks end_ l g s l' g' s'.
Proof.
  induction k as [|k IH]; intros l g s r va Hi Hr H0 Hal Hend Hmap Hk; cbn [uvmunmap_loop].
  { rewrite Z.mul_0_l, Z.add_0_r, Z.ltb_irrefl. exists l, g, s.
    split; [done|]. split; [done|]. split; [done|]. apply shrinks_refl. }
  assert (TRAPFRAME < MAXVA) as Htf by done.
  assert (0 <= va < MAXVA) as Hva by (unfold PGSIZE in *; lia).
  rewrite (proj2 (Z.ltb_lt _ _)) by (unfold PGSIZE in *; lia).
  rewrite (bind_ok _ _ _ _ _ (walk_ro _ _ _ _ r va Hi Hr Hva)).
  destruct (Hmap 0) as [w Hw]; [lia|]. rewrite Z.add_0_r in Hw.
  destruct (tabs g !! (r, upath va)) as [a|] eqn:Ha.
  2:{ pose proof (leaf_none _ _ _ _ r va Hi Hva Ha). congruence. }
  destruct (slot_nonzero _ end_kernel _ _ _ r va a Hi Ha) as [Es Hnz].
  rewrite (proj2 (Z.eqb_neq _ 0)) by done. rewrite Es.
  rewrite (bind_ok _ _ s (ent s a (PX 0 va)) s) by done.
  pose proof (leaf_at _ _ _ _ r va a Hi Hva Ha) as Hl. rewrite Hw in Hl.
  destruct (hasbit (ent s a (PX 0 va)) PTE_V) eqn:EV; [|done]. injection Hl as <-.
  cbn [negb].
  destruct (vi_leafok _ _ _ _ Hi _ _ _ Hw) as [[Hfl _] _].
  rewrite (proj2 (Z.eqb_neq _ _)) by done.
  assert (user_vpn (vpn va)) as Hun by (apply user_below; unfold PGSIZE in *; lia).
  destruct (unmap_free_page l g s r va a w) as (l1 & g1 & s1 & E1 & Hi1 & Hl1 & Hs1);
    [done..|apply Hk|].
  rewrite <- bind_assoc. rewrite (bind_ok _ _ _ _ _ E1).
  assert (u64 (va + PGSIZE) = va + 1 * PGSIZE) as Eu.
  { rewrite MAXVA_eq in Hva. rewrite u64_small; unfold PGSIZE; lia. }
  rewrite Eu. replace (va + Z.of_nat (S k) * PGSIZE) with (va + 1 * PGSIZE + Z.of_nat k * PGSIZE) by lia.
  destruct (IH l1 g1 s1 r (va + 1 * PGSIZE)) as (l2 & g2 & s2 & E2 & Hi2 & Hl2 & Hs2).
  - done.
  - by rewrite (sh_tabs _ _ _ _ _ _ _ Hs1).
  - unfold PGSIZE; lia.
  - by rewrite Z.mod_add by done.
  - unfold PGSIZE in *; lia.
  - intros i Hir. rewrite Hl1, vpn_add. rewrite lookup_delete_ne by (intros [= Ex]; lia).
    replace (vpn va + 1 + i) with (vpn va + (i + 1)) by lia. apply Hmap. lia.
  - intros p. by rewrite (sh_kref _ _ _ _ _ _ _ Hs1).
  - exists l2, g2, s2. split; [done|]. split; [done|]. split; [|by eapply shrinks_trans].
    rewrite Hl2, Hl1, vpn_add. done.
Qed.

Lemma uvmunmap_free l g s r va n :
  vm_inv l g s -> tabs g !! (r, []) = Some r -> 0 <= va -> va mod PGSIZE = 0 -> 0 <= n ->
  va + n * PGSIZE <= TRAPFRAME ->
  (forall i, 0 <= i < n -> is_Some (leaves g !! (r, vpn va + i))) -> (forall p, 0 <= kref g p) ->
  exists l' g' s', uvmunmap end_ r va n true s = Ok tt s' /\ vm_inv l' g' s' /\
    leaves g' = del_range (Z.to_nat n) r (vpn va) (leaves g) /\ shrinks end_ l g s l' g' s'.
Proof.
  intros Hi Hr H0 Hal Hn Hend Hmap Hk. unfold uvmunmap. rewrite (proj2 (Z.eqb_eq _ _) Hal). cbn [negb].
  assert (TRAPFRAME < 2 ^ 64) by done.
  rewrite u64_small by (unfold PGSIZE in *; lia).
  destruct (Z_of_nat_complete n Hn) as [k ->]. rewrite Nat2Z.id. by apply uvmunmap_free_loop.
Qed.

(** ** Composition of steps *)
Lemma grows_evolves r l g s l' g' s' : grows r l g s l' g' s' -> evolves r l g s l' g' s'.
Proof. intros [[pre ->] L K T N M C O]. constructor; try done. set_solver. Qed.

Lemma evolves_refl r l g s : evolves r l g s l g s.
Proof. apply grows_evolves, grows_refl. Qed.

Lemma evolves_not_tab r l g s l' g' s' q : evolves r l g s l' g' s' ->
  q ∉ l -> ~ is_tab g q -> ~ is_tab g' q.
Proof.
  intros E Hl Ht [k Hk]. destruct (ev_new _ _ _ _ _ _ _ E k q Hk) as [H|[_ H]]; [|done].
  apply Ht. by exists k.
Qed.

Lemma evolves_trans r l1 g1 s1 l2 g2 s2 l3 g3 s3 :
  evolves r l1 g1 s1 l2 g2 s2 -> evolves r l2 g2 s2 l3 g3 s3 -> evolves r l1 g1 s1 l3 g3 s3.
Proof.
  intros E1 E2. pose proof E1 as [F1 K1 T1 N1 M1 O1]. pose proof E2 as [F2 K2 T2 N2 M2 O2].
  constructor.
  - auto.
  - intros p. by rewrite K2, K1.
  - by etransitivity.
  - intros k a Hk. destruct (N2 k a Hk) as [H|[H H']]; [by apply N1|right]. auto.
  - intros q Hq Hl Ht. eapply same_page_trans; [by apply M1|]. apply M2; [done|auto|].
    by eapply evolves_not_tab.
  - congruence.
Qed.

Lemma evolves_shrinks r l1 g1 s1 l2 g2 s2 l3 g3 s3 :
  evolves r l1 g1 s1 l2 g2 s2 -> shrinks end_ l2 g2 s2 l3 g3 s3 ->
  (forall p, p ∈ l3 -> p ∈ l1) -> evolves r l1 g1 s1 l3 g3 s3.
Proof.
  intros E1 [F2 T2 K2 M2 O2] Hsub. pose proof E1 as [F1 K1 T1 N1 M1 O1]. constructor.
  - done.
  - intros p. by rewrite K2, K1.
  - by rewrite T2.
  - intros k a. rewrite T2. apply N1.
  - intros q Hq Hl Ht. eapply same_page_trans; [by apply M1|]. apply M2; [done|auto|].
    by eapply evolves_not_tab.
  - congruence.
Qed.

Lemma evolves_root r l g s l' g' s' r' : evolves r l g s l' g' s' ->
  tabs g !! (r', []) = Some r' -> tabs g' !! (r', []) = Some r'.
Proof. intros E H. by eapply lookup_weaken; [|apply (ev_tabs _ _ _ _ _ _ _ E)]. Qed.

Lemma user_page m : m * PGSIZE < TRAPFRAME -> user_vpn m.
Proof. intros H. rewrite <- (Z.div_mul m PGSIZE) by done. by apply user_below. Qed.

(** A step keeps the contents of every page some address space maps. *)
Lemma evolves_leaf r l g s l' g' s' r' m w : vm_inv l g s -> evolves r l g s l' g' s' ->
  leaves g !! (r', m) = Some w -> user_vpn m -> same_page (mem s) (mem s') (PTE2PA w).
Proof.
  intros Hi Hev Hw Hu. destruct (vi_leafok _ _ _ _ Hi _ _ _ Hw) as [_ Hok].
  destruct (Hok Hu) as (Hpo & _ & Hpt).
  apply (ev_mem _ _ _ _ _ _ _ Hev); [apply Hpo|by eapply (leaf_not_free end_)|done].
Qed.

(** A page nobody maps that did not lose a reference is not newly free. *)
Lemma leafref_witness g p : leafref g p <> 0 ->
  exists r n w, leaves g !! (r, n) = Some w /\ user_vpn n /\ PTE2PA w = p.
Proof.
  intros Hne. assert (filter (maps_to p) (leaves g) <> ∅) as Hx.
  { intros E. unfold leafref in Hne. rewrite E in Hne. by rewrite map_size_empty in Hne. }
  apply map_choose in Hx as ([r n] & w & Hw).
  apply map_lookup_filter_Some in Hw as [Hw [Hu Hpa]]. by exists r, n, w.
Qed.

Lemma free_kept l g s l' g' s' : vm_inv l g s -> vm_inv l' g' s' -> tabs g ⊆ tabs g' ->
  (forall p, kref g' p = kref g p) ->
  (forall r n w, leaves g !! (r, n) = Some w -> user_vpn n ->
     exists w', leaves g' !! (r, n) = Some w' /\ PTE2PA w' = PTE2PA w) ->
  forall p, p ∈ l' -> p ∈ l.
Proof.
  intros Hi Hi' Ht Hk Hl p Hp. destruct (free_page _ _ _ _ p Hi' Hp) as (Hpo & _ & Hpt & Hlr & Hkr).
  assert (~ is_tab g p) as Hnt.
  { intros [k Hkk]. apply Hpt. exists k. by eapply lookup_weaken. }
  apply (ai_zero _ _ _ (vi_alloc _ _ _ _ Hi) p Hpo). rewrite (vi_cnt _ _ _ _ Hi p Hpo Hnt).
  rewrite <- Hk, Hkr. destruct (decide (leafref g p = 0)) as [->|Hne]; [done|exfalso].
  destruct (leafref_witness g p Hne) as (r & n & w & Hw & Hun & Hpa).
  destruct (Hl r n w Hw Hun) as (w' & Hw' & Ew).
  pose proof (leafref_pos g' p r n w' Hw' Hun ltac:(congruence)). lia.
Qed.

(** ** uvmcreate *)
Lemma uvmcreate_spec l g s : vm_inv l g s ->
  match l with
  | [] => uvmcreate s = Ok 0 s
  | p :: l' => exists s', uvmcreate s = Ok p s' /\
      vm_inv l' (add_tab (p, []) p (set_kown p 1 g)) s' /\
      evolves p l g s l' (add_tab (p, []) p (set_kown p 1 g)) s'
  end.
Proof.
  intros Hi. unfold uvmcreate. destruct l as [|p l].
  { by rewrite (bind_ok _ _ _ _ _ (kalloc_abs_empty _ _ _ Hi)). }
  destruct (free_page _ _ _ _ p Hi) as (Hp & Hc & Ht & Hlr & Hkr); [set_solver|].
  destruct (kalloc_zeroed _ _ _ _ Hi) as (s1 & E & Hi2 & Hf & Hnz & Hent & _ & Hmem & Hcnt & Hlk).
  rewrite (bind_ok _ _ _ _ _ E). rewrite (proj2 (Z.eqb_neq _ _)) by done.
  eexists. split; [done|]. split; [by apply inv_new_root|].
  constructor; try done.
  - set_solver.
  - intros q. unfold kref, add_tab, set_kown. cbn. rewrite insert_insert_eq.
    destruct (decide (q = p)) as [->|Hne]; [by rewrite lookup_insert_eq|by rewrite lookup_insert_ne].
  - apply insert_subseteq. destruct (tabs g !! (p, [])) as [b|] eqn:Eb; [|done].
    exfalso. apply Ht. exists (p, []). by eapply (vi_root _ _ _ _ Hi).
  - intros k a Hk. cbn in Hk. apply lookup_insert_Some in Hk as [[<- <-]|[_ Hk]]; [right|by left].
    split; [done|set_solver].
  - intros q Hq Hql _. apply Hmem; [done|set_solver].
Qed.
End Ops.
