(* ===== verification/Cow.v ===== *)
(** * Copy-on-write: the page-fault handler and [uvmcopy]

    kernel/trap.c [cow_page_fault_handler] and kernel/vm.c [uvmcopy], proved
    against the abstract address spaces of [VmInv.v]. *)

From S2P Require Import Prelude Riscv Mem Lock Kalloc Vm VmInv VmOps.
Import KString.
Local Open Scope Z_scope.

(** The entry the handler installs: the new page, writable, no longer COW. *)
Definition cow_pte (w m : Z) : Z :=
  Z.lor (Z.lor (Z.land (PTE_FLAGS w) (Z.lnot PTE_COW)) PTE_W) (PA2PTE m).

(** The entry [uvmcopy] leaves in the parent: a writable page becomes COW. *)
Definition share_pte (w : Z) : Z :=
  if hasbit w PTE_W then Z.lor (Z.land w (Z.lnot PTE_W)) PTE_COW else w.

(** ** Entries *)
Lemma cow_flags_range w : 0 <= Z.lor (Z.land (PTE_FLAGS w) (Z.lnot PTE_COW)) PTE_W < 1024.
Proof.
  pose proof (PTE_FLAGS_range w) as H. change 1024 with (2 ^ 10) in *.
  apply lor_range; [lia|by apply land_range|by change PTE_W with 4].
Qed.

Lemma cow_pte_facts w m : 0 <= m < 2 ^ 56 -> m mod PGSIZE = 0 ->
  0 <= cow_pte w m < 2 ^ 64 /\ PTE2PA (cow_pte w m) = m /\
  PTE_FLAGS (cow_pte w m) = Z.lor (Z.land (PTE_FLAGS w) (Z.lnot PTE_COW)) PTE_W.
Proof.
  intros Hm Hal. unfold cow_pte. rewrite Z.lor_comm. pose proof (cow_flags_range w) as Hr.
  split; [|split].
  - apply lor_range; [lia|apply PA2PTE_range|]. change (2 ^ 64) with (1024 * 2 ^ 54). lia.
  - by apply PTE2PA_PA2PTE.
  - by apply PTE_FLAGS_PA2PTE.
Qed.

(** Every flag of the new entry: W set, COW clear, the others unchanged. *)
Lemma cow_pte_bits w m i : 0 <= m < 2 ^ 56 -> m mod PGSIZE = 0 -> 0 <= i < 10 ->
  Z.testbit (cow_pte w m) i = (i =? 2) || (Z.testbit w i && negb (i =? 8)).
Proof.
  intros Hm Hal Hi. destruct (cow_pte_facts w m Hm Hal) as (_ & _ & Hf).
  rewrite flags_testbit, Hf by done.
  rewrite Z.lor_spec, Z.land_spec, Z.lnot_spec, <- flags_testbit by lia.
  change PTE_W with (2 ^ 2). change PTE_COW with (2 ^ 8). rewrite !Z.pow2_bits_eqb by lia.
  rewrite (Z.eqb_sym 2 i), (Z.eqb_sym 8 i). apply orb_comm.
Qed.

Lemma share_pte_pa w : PTE2PA (share_pte w) = PTE2PA w.
Proof.
  unfold share_pte. destruct (hasbit w PTE_W); [|done]. apply PTE2PA_high.
  apply Z.bits_inj'. intros i Hi. rewrite !Z.shiftr_spec, Z.lor_spec, Z.land_spec, Z.lnot_spec by lia.
  change PTE_W with (2 ^ 2). change PTE_COW with (2 ^ 8). rewrite !Z.pow2_bits_eqb by lia.
  rewrite (proj2 (Z.eqb_neq 2 (i + 10))), (proj2 (Z.eqb_neq 8 (i + 10))) by lia.
  by rewrite andb_true_r, orb_false_r.
Qed.

(** A shared entry is never writable; the other flags except COW stay. *)
Lemma share_pte_bits w i : 0 <= i ->
  Z.testbit (share_pte w) i =
  if Z.testbit w 2 then (i =? 8) || (Z.testbit w i && negb (i =? 2)) else Z.testbit w i.
Proof.
  intros Hi. unfold share_pte. rewrite hasbit_W. destruct (Z.testbit w 2); [|done].
  rewrite Z.lor_spec, Z.land_spec, Z.lnot_spec by lia.
  change PTE_W with (2 ^ 2). change PTE_COW with (2 ^ 8). rewrite !Z.pow2_bits_eqb by lia.
  rewrite (Z.eqb_sym 2 i), (Z.eqb_sym 8 i). apply orb_comm.
Qed.

Lemma share_pte_range w : 0 <= w < 2 ^ 64 -> 0 <= share_pte w < 2 ^ 64.
Proof.
  intros H. unfold share_pte. destruct (hasbit w PTE_W); [|done].
  apply lor_range; [lia|by apply land_range|by change PTE_COW with 256].
Qed.

Lemma flags_V_only w : PTE_FLAGS w = PTE_V -> forall i, 0 < i < 10 -> Z.testbit w i = false.
Proof.
  intros E i Hi. rewrite flags_testbit, E by lia. change PTE_V with (2 ^ 0).
  rewrite Z.pow2_bits_eqb by lia. apply Z.eqb_neq. lia.
Qed.

Section Cow.
Variable end_ : Z.
Hypothesis end_kernel : KERNBASE <= end_.
Abbreviation page_ok := (page_ok end_).
Abbreviation vm_inv := (vm_inv end_).

(** ** The handler up to the allocation *)

(** The tests of the handler on a mapped page are tests of its leaf. *)
Lemma cow_handler_leaf l g s r va w :
  vm_inv l g s -> tabs g !! (r, []) = Some r -> 0 < va < MAXVA ->
  leaves g !! (r, vpn va) = Some w ->
  exists a, tabs g !! (r, upath va) = Some a /\ w = ent s a (PX 0 va) /\
  cow_page_fault_handler end_ r va s =
  (if negb (hasbit w PTE_U) then ret MINUS1
   else if hasbit w PTE_W then ret 0
   else if negb (hasbit w PTE_COW) then ret MINUS1
   else
     do! m <- kalloc;
     if m =? 0 then ret MINUS1
     else store64 (a + 8 * PX 0 va) (cow_pte w m) ;;
          memmove_at m (PTE2PA w) PGSIZE ;;
          kfree end_ (PTE2PA w) ;;
          ret 0) s.
Proof.
  intros Hi Hr Hva Hw. unfold cow_page_fault_handler.
  rewrite (proj2 (Z.eqb_neq _ _)), (proj2 (Z.leb_gt _ _)) by lia. cbn [orb].
  assert (0 <= va < MAXVA) as Hm by lia.
  destruct (tabs g !! (r, upath va)) as [a|] eqn:Ha; last first.
  { rewrite (leaf_none _ _ _ _ r va Hi Hm Ha) in Hw. done. }
  exists a. split; [done|].
  destruct (slot_nonzero _ end_kernel _ _ _ r va a Hi Ha) as [Es Hnz].
  rewrite (leaf_at _ _ _ _ r va a Hi Hm Ha) in Hw.
  destruct (hasbit (ent s a (PX 0 va)) PTE_V) eqn:HV; [|done]. injection Hw as <-. split; [done|].
  rewrite (bind_ok _ _ _ _ _ (walk_ro _ _ _ _ r va Hi Hr Hm)).
  rewrite (proj2 (Z.eqb_neq _ 0)) by done. rewrite Es.
  rewrite (bind_ok _ _ s (ent s a (PX 0 va)) s) by done. by rewrite HV.
Qed.

Lemma cow_handler_reject l g s r va :
  vm_inv l g s -> tabs g !! (r, []) = Some r -> 0 <= va < 2 ^ 64 ->
  va = 0 \/ MAXVA <= va \/ leaves g !! (r, vpn va) = None \/
  (exists w, leaves g !! (r, vpn va) = Some w /\
     (hasbit w PTE_U = false \/ hasbit w PTE_W = false /\ hasbit w PTE_COW = false)) ->
  cow_page_fault_handler end_ r va s = Ok MINUS1 s.
Proof.
  intros Hi Hr Hva Hbad.
  destruct (decide (0 < va < MAXVA)) as [Hm|Hm]; last first.
  { unfold cow_page_fault_handler.
    destruct (Z.eqb_spec va 0); [done|]. by rewrite (proj2 (Z.leb_le _ _)) by lia. }
  destruct (leaves g !! (r, vpn va)) as [w|] eqn:Hw.
  { destruct (cow_handler_leaf l g s r va w) as (a & _ & _ & ->); [done..|].
    destruct Hbad as [?|[?|[?|(w' & [= <-] & Hb)]]]; [lia|lia|done|].
    destruct Hb as [->|[-> ->]]; [done|]. by destruct (hasbit w PTE_U). }
  unfold cow_page_fault_handler.
  rewrite (proj2 (Z.eqb_neq _ _)), (proj2 (Z.leb_gt _ _)) by lia. cbn [orb].
  rewrite (bind_ok _ _ _ _ _ (walk_ro _ _ _ _ r va Hi Hr ltac:(lia))).
  destruct (tabs g !! (r, upath va)) as [a|] eqn:Ha; [|unfold slot; by rewrite Ha].
  destruct (slot_nonzero _ end_kernel _ _ _ r va a Hi Ha) as [Es Hnz].
  rewrite (proj2 (Z.eqb_neq _ 0)) by done. rewrite Es.
  rewrite (bind_ok _ _ s (ent s a (PX 0 va)) s) by done.
  rewrite (leaf_at _ _ _ _ r va a Hi ltac:(lia) Ha) in Hw.
  by destruct (hasbit (ent s a (PX 0 va)) PTE_V).
Qed.

Lemma cow_handler_writable l g s r va w :
  vm_inv l g s -> tabs g !! (r, []) = Some r -> 0 < va < MAXVA ->
  leaves g !! (r, vpn va) = Some w -> hasbit w PTE_U = true -> hasbit w PTE_W = true ->
  cow_page_fault_handler end_ r va s = Ok 0 s.
Proof.
  intros Hi Hr Hva Hw HU HW.
  destruct (cow_handler_leaf l g s r va w) as (a & _ & _ & ->); [done..|]. by rewrite HU, HW.
Qed.

(** ** The handler's copy *)

(** Out of memory: nothing changes. *)
Lemma cow_handler_nomem g s r va w :
  vm_inv [] g s -> tabs g !! (r, []) = Some r -> 0 < va < MAXVA ->
  leaves g !! (r, vpn va) = Some w -> hasbit w PTE_W = false ->
  cow_page_fault_handler end_ r va s = Ok MINUS1 s.
Proof.
  intros Hi Hr Hva Hw HW.
  destruct (cow_handler_leaf [] g s r va w) as (a & _ & _ & ->); [done..|]. rewrite HW.
  destruct (hasbit w PTE_U), (hasbit w PTE_COW); try done. cbn [negb].
  by rewrite (bind_ok _ _ _ _ _ (kalloc_abs_empty _ _ _ Hi)).
Qed.

(** The state between the store of the new entry and [kfree]: the leaf points
    to [m]; the kernel holds the reference the old mapping had. *)
Definition cow_abs (r n w m : Z) (g : vmabs) : vmabs :=
  mkabs (tabs g) (<[(r, n) := cow_pte w m]> (leaves g))
    (<[m := 0]> (<[PTE2PA w := kref g (PTE2PA w) + 1]> (kown g))).

Lemma hit_user p n w : user_vpn n -> hit p n w = if decide (PTE2PA w = p) then 1 else 0.
Proof. intros Hu. unfold hit. apply decide_ext. unfold maps_to. cbn. naive_solver. Qed.

Lemma cow_swap l g s r va a w m :
  vm_inv l g s -> 0 <= va < MAXVA -> tabs g !! (r, upath va) = Some a ->
  leaves g !! (r, vpn va) = Some w -> user_vpn (vpn va) -> hasbit w PTE_V = true ->
  fresh_page end_ g m ->
  vm_inv l (cow_abs r (vpn va) w m g) (set_mem (fun x => st64 x (a + 8 * PX 0 va) (cow_pte w m)) s).
Proof.
  intros Hi Hva Ha Hw Hun HV (Hm & Hmt & Hmk & Hml).
  pose proof (page_ok_range _ end_kernel _ Hm) as Hmr.
  destruct (cow_pte_facts w m) as (Vr & Vpa & Vf); [layout; lia|apply Hm|].
  assert (forall i, 0 <= i < 10 -> Z.testbit (cow_pte w m) i = (i =? 2) || (Z.testbit w i && negb (i =? 8)))
    as Vb by (intros i Hir; apply cow_pte_bits; [layout; lia|apply Hm|done]).
  destruct (vi_leafok _ _ _ _ Hi _ _ _ Hw) as [[Hfl HfU] Hu].
  destruct (Hu Hun) as (Hpo & Hpc & Hpt).
  assert (hasbit (cow_pte w m) PTE_V = true) as VV.
  { rewrite hasbit_V in HV. by rewrite hasbit_V, Vb, HV by lia. }
  assert (PTE2PA w <> m) as Hne.
  { intros E. pose proof (leafref_pos g m r (vpn va) w Hw Hun E). lia. }
  pose proof (inv_set_leaf end_ l g s r va a (cow_pte w m)
    (<[m := 0]> (<[PTE2PA w := kref g (PTE2PA w) + 1]> (kown g)))) as H.
  unfold upd_leaf in H. rewrite VV in H. apply H; clear H; try done.
  - intros _. rewrite Vpa. split; [|].
    + split; [|done]. intros E. pose proof (flags_V_only _ E 2 ltac:(lia)) as E2.
      by rewrite Vb in E2 by lia.
    + intros _. split; [done|]. split; [|done]. rewrite (vi_cnt _ _ _ _ Hi m Hm Hmt). lia.
  - apply excl_ok_fresh; [apply Hi|by rewrite Vpa].
  - apply same_ok_fresh; [apply Hi|by rewrite Vpa].
  - intros p [k Hk]. unfold kref; cbn. rewrite !lookup_insert_ne.
    + apply (vi_tab _ _ _ _ Hi k p Hk).
    + intros <-. apply Hpt. by exists k.
    + intros <-. apply Hmt. by exists k.
  - intros p Hp Hnt. rewrite <- (insert_delete_eq (leaves g)).
    rewrite leafref_add by apply lookup_delete_eq. rewrite (leafref_del _ _ _ _ _ w) by done.
    change (leafref (mkabs (tabs g) (leaves g) _) p) with (leafref g p).
    rewrite !hit_user, Vpa by done. unfold kref; cbn.
    destruct (decide (p = m)) as [->|Hpm].
    + rewrite lookup_insert_eq, decide_False, decide_True by done. cbn. unfold kref in Hmk. lia.
    + rewrite lookup_insert_ne by done. destruct (decide (p = PTE2PA w)) as [->|Hpw].
      * rewrite lookup_insert_eq, decide_True, decide_False by done. cbn. unfold kref. lia.
      * rewrite lookup_insert_ne, !decide_False by done. lia.
Qed.

Lemma memmove_other m d src q : d mod PGSIZE = 0 -> q mod PGSIZE = 0 -> d <> q ->
  same_page m (memmove m d src PGSIZE) q.
Proof.
  intros Hd Hq Hne i Hi. rewrite memmove_spec by (unfold PGSIZE; lia). inr_cases; [|done].
  exfalso. apply (pages_disjoint d q (q + i - d) i); unfold PGSIZE in *; auto; lia.
Qed.

(** What the handler does to a COW page when memory is available. *)
Record cow_done (r n w m : Z) (l : list Z) (g : vmabs) (s : machine)
    (l' : list Z) (g' : vmabs) (s' : machine) : Prop := {
  cd_free : l' = if decide (leafref g (PTE2PA w) + kref g (PTE2PA w) = 1) then PTE2PA w :: l else l;
  cd_tabs : tabs g' = tabs g;
  cd_leaves : leaves g' = <[(r, n) := cow_pte w m]> (leaves g);
  cd_kref : forall p, kref g' p = kref g p;
  cd_copy : forall i, 0 <= i < PGSIZE -> ld8 (mem s') (m + i) = ld8 (mem s) (PTE2PA w + i);
  cd_mem : forall q, q mod PGSIZE = 0 -> q <> m -> q ∉ l' -> ~ is_tab g q ->
    same_page (mem s) (mem s') q;
  cd_locks : mlocks s' = mlocks s
}.

Lemma cow_abs_kref r n w m g : PTE2PA w <> m -> kref g m = 0 ->
  forall p, kref (cow_abs r n w m (set_kown m 1 g)) p =
    if decide (p = PTE2PA w) then kref g (PTE2PA w) + 1 else kref g p.
Proof.
  intros Hne Hmk p. unfold cow_abs, kref at 1. cbn [kown]. destruct (decide (p = m)) as [->|Hpm].
  - rewrite lookup_insert_eq, decide_False by done. by cbn.
  - rewrite lookup_insert_ne by done. destruct (decide (p = PTE2PA w)) as [->|Hpp].
    + rewrite lookup_insert_eq. cbn. by rewrite kref_set, decide_False.
    + rewrite lookup_insert_ne by done. change (kref (set_kown m 1 g) p = kref g p).
      by rewrite kref_set, decide_False.
Qed.

Lemma cow_handler_copy m l g s r va w :
  vm_inv (m :: l) g s -> tabs g !! (r, []) = Some r -> 0 < va < MAXVA ->
  leaves g !! (r, vpn va) = Some w ->
  hasbit w PTE_U = true -> hasbit w PTE_W = false -> hasbit w PTE_COW = true ->
  (forall p, 0 <= kref g p) ->
  exists l' g' s', cow_page_fault_handler end_ r va s = Ok 0 s' /\ vm_inv l' g' s' /\
    cow_done r (vpn va) w m l g s l' g' s'.
Proof.
  intros Hi Hr Hva Hw HU HW HC Hk.
  destruct (cow_handler_leaf (m :: l) g s r va w) as (a & Ha & Ew & ->); [done..|].
  rewrite HU, HW, HC. cbn [negb]. assert (0 <= va < MAXVA) as Hva' by lia.
  destruct (vi_leafok _ _ _ _ Hi _ _ _ Hw) as [[_ HfU] Hu]. pose proof (HfU HU) as Hun.
  destruct (Hu Hun) as (Hpo & _ & Hpt).
  assert (hasbit w PTE_V = true) as HV.
  { pose proof (leaf_at _ _ _ _ r va a Hi Hva' Ha) as E. rewrite <- Ew, Hw in E. by destruct (hasbit w PTE_V). }
  set (pa := PTE2PA w) in *.
  destruct (free_page _ _ _ _ m Hi) as (Hm & _ & Hmt & Hml & Hmk); [set_solver|].
  assert (pa <> m) as Hne by (intros E; pose proof (leafref_pos g m r (vpn va) w Hw Hun E); lia).
  destruct (kalloc_abs _ end_kernel _ _ _ _ Hi) as (s1 & E1 & Hi1 & Hm1 & Hlk1).
  rewrite (bind_ok _ _ _ _ _ E1). pose proof (page_ok_nonzero _ end_kernel _ Hm) as Hmnz.
  rewrite (proj2 (Z.eqb_neq _ _)) by done.
  set (s2 := set_mem (fun x => st64 x (a + 8 * PX 0 va) (cow_pte w m)) s1).
  rewrite (bind_ok _ _ s1 tt s2) by done.
  assert (fresh_page end_ (set_kown m 1 g) m) as Hfr.
  { split; [done|]. split; [done|]. split; [|done]. rewrite kref_set. by rewrite decide_True. }
  pose proof (cow_swap l _ s1 r va a w m Hi1 Hva' Ha Hw Hun HV Hfr) as Hi2. fold s2 in Hi2.
  set (g2 := cow_abs _ _ _ _ _) in Hi2.
  pose proof (cow_abs_kref r (vpn va) w m g Hne Hmk) as Hk2. fold g2 pa in Hk2.
  set (s3 := set_mem (fun x => memmove x m pa PGSIZE) s2).
  rewrite (bind_ok _ _ s2 tt s3) by done.
  assert (vm_inv l g2 s3) as Hi3.
  { apply inv_page_write with (p := m); [done..| |].
    - by pose proof (ai_nodup _ _ _ (vi_alloc _ _ _ _ Hi)) as [? ?]%NoDup_cons.
    - intros x q Hq Hmq. by apply memmove_other; [apply Hm|..]. }
  assert (leafref g2 pa + kref g2 pa = leafref g pa + kref g pa) as Hsum.
  { rewrite <- (vi_cnt _ _ _ _ Hi2 pa Hpo Hpt). unfold s2. rewrite cnt_set_mem.
    rewrite (vi_cnt _ _ _ _ Hi1 pa Hpo Hpt). rewrite kref_set, decide_False by done. done. }
  destruct (kfree_abs _ end_kernel pa l g2 s3 Hi3 Hpo Hpt) as (l' & s4 & E4 & Hi4 & Hl' & Hm4 & Hlk4).
  { rewrite Hk2, decide_True by done. specialize (Hk pa). lia. }
  rewrite (bind_ok _ _ _ _ _ E4). rewrite Hsum in Hl', Hm4.
  exists l', (set_kown pa (kref g2 pa - 1) g2), s4. split; [done|]. split; [done|].
  assert (forall q, q mod PGSIZE = 0 -> q <> m -> ~ is_tab g q -> same_page (mem s) (mem s3) q) as Hm3.
  { intros q Hq Hqm Hqt. eapply same_page_trans with (m2 := mem s1).
    { rewrite Hm1. apply memset_other; [apply Hm|done|congruence]. }
    eapply same_page_trans with (m2 := mem s2).
    - destruct (vi_tab _ _ _ _ Hi _ _ Ha) as (Hao & _). pose proof (PX_range 0 va).
      apply same_page_st64; [apply Hao|done| |lia..]. intros ->. apply Hqt. by exists (r, upath va).
    - apply memmove_other; [apply Hm|done|congruence]. }
  constructor.
  - exact Hl'.
  - reflexivity.
  - reflexivity.
  - intros p. rewrite kref_set, !Hk2. destruct (decide (p = pa)) as [->|]; [|done].
    rewrite decide_True by done. lia.
  - intros i Hir. rewrite Hm4; [|apply Hm|by left|done].
    unfold s3. cbn. rewrite memmove_spec by (unfold PGSIZE; lia). inr_cases; [|lia].
    replace (m + i - m + pa) with (pa + i) by lia.
    transitivity (ld8 (mem s1) (pa + i)).
    + destruct (vi_tab _ _ _ _ Hi _ _ Ha) as (Hao & _). pose proof (PX_range 0 va).
      unfold s2. cbn. apply (same_page_st64 (mem s1) a pa); [apply Hao|apply Hpo| |lia..|done].
      intros ->. apply Hpt. by exists (r, upath va).
    + rewrite Hm1. apply memset_other; [apply Hm|apply Hpo|intros Ex; by apply Hne|done].
  - intros q Hq Hqm Hql Hqt. eapply same_page_trans; [by apply Hm3|]. apply Hm4; [done|].
    destruct (decide (q = pa)) as [->|]; [right|by left]. intros Ec. rewrite Hl', decide_True in Hql by done.
    apply Hql. left.
  - rewrite Hlk4, <- Hlk1. done.
Qed.
End Cow.
