(* ===== verification/Uvmcopy.v ===== *)
(** * kernel/vm.c [uvmcopy]: the address space of a forked child

    [uvmcopy] lets the child map the parent's pages: writable pages become
    copy-on-write in both, every page gets one more reference, and a failure
    takes the child's mappings down again. *)

From S2P Require Import Prelude Riscv Mem Lock Kalloc Vm VmInv VmOps Cow.
Import KString.
Local Open Scope Z_scope.

(** The entry the child gets for the parent's entry [w]. *)
Definition child_pte (w : Z) : Z := pte_of (PTE2PA w) (PTE_FLAGS (share_pte w)).

(** All references to a page. *)
Definition refs (g : vmabs) (p : Z) : Z := leafref g p + kref g p.

(** The leaves after the pages [n .. n+k-1] of [old] were shared with [new]. *)
Definition shared (old new n k : Z) (L L' : gmap (Z * Z) Z) : Prop :=
  forall r m, L' !! (r, m) =
    if decide (n <= m < n + k) then
      if decide (r = old) then share_pte <$> L !! (old, m)
      else if decide (r = new) then child_pte <$> L !! (old, m)
      else L !! (r, m)
    else L !! (r, m).

(** The leaves after a failed [uvmcopy]: the child has none of the pages up to
    [n], the parent has its own, some of them copy-on-write now. *)
Definition rolled (old new n : Z) (L L' : gmap (Z * Z) Z) : Prop :=
  (forall m, L' !! (old, m) = L !! (old, m) \/ L' !! (old, m) = share_pte <$> L !! (old, m)) /\
  (forall m, 0 <= m < n -> L' !! (new, m) = None) /\
  (forall r m, r <> old -> r <> new \/ n <= m -> L' !! (r, m) = L !! (r, m)).

(** ** Entries *)
Lemma share_pte_W w : hasbit (share_pte w) PTE_W = false.
Proof.
  rewrite hasbit_W, share_pte_bits by lia. by destruct (Z.testbit w 2).
Qed.

Lemma share_pte_idem w : share_pte (share_pte w) = share_pte w.
Proof. unfold share_pte at 1. by rewrite share_pte_W. Qed.

(** Flags other than W and COW are those of the parent's entry. *)
Lemma share_pte_flag w i : 0 <= i -> i <> 2 -> i <> 8 -> Z.testbit (share_pte w) i = Z.testbit w i.
Proof.
  intros Hi H2 H8. rewrite share_pte_bits by done. destruct (Z.testbit w 2); [|done].
  rewrite (proj2 (Z.eqb_neq _ _)), (proj2 (Z.eqb_neq i 2)) by done. by rewrite andb_true_r.
Qed.

Lemma share_pte_not_V w : PTE_FLAGS w <> PTE_V -> PTE_FLAGS (share_pte w) <> PTE_V.
Proof.
  intros Hne E. apply Hne. destruct (Z.testbit w 2) eqn:W.
  - pose proof (flags_V_only _ E 8 ltac:(lia)) as H8. by rewrite share_pte_bits, W in H8 by lia.
  - unfold share_pte in E. by rewrite hasbit_W, W in E.
Qed.

Lemma child_pte_facts w : 0 <= PTE2PA w < 2 ^ 56 -> PTE2PA w mod PGSIZE = 0 ->
  hasbit w PTE_V = true ->
  PTE2PA (child_pte w) = PTE2PA w /\ PTE_FLAGS (child_pte w) = PTE_FLAGS (share_pte w).
Proof.
  intros Hr Ha HV. pose proof (PTE_FLAGS_range (share_pte w)) as Hf.
  destruct (pte_of_facts (PTE2PA w) (PTE_FLAGS (share_pte w)) Hr Ha Hf) as (_ & _ & Hp & He).
  split; [done|]. unfold child_pte. rewrite He. apply Z.bits_inj'. intros i Hi.
  rewrite Z.lor_spec. change PTE_V with (2 ^ 0). rewrite Z.pow2_bits_eqb by lia.
  destruct (Z.eqb_spec 0 i) as [<-|]; [|by rewrite orb_false_r].
  rewrite <- flags_testbit, share_pte_flag by lia. rewrite hasbit_V in HV. by rewrite HV.
Qed.

(** Two stores to the same word. *)
Lemma st8_stn_comm k m a b v w : b < a -> st8 (stn k m a v) b w = stn k (st8 m b w) a v.
Proof.
  revert m a v. induction k as [|k IH]; intros m a v H; cbn [stn]; [done|].
  rewrite IH by lia. f_equal. unfold st8. apply insert_insert_ne. lia.
Qed.
Lemma stn_stn k m a v w : stn k (stn k m a v) a w = stn k m a w.
Proof.
  revert m a v w. induction k as [|k IH]; intros m a v w; cbn [stn]; [done|].
  rewrite st8_stn_comm by lia. rewrite IH. f_equal. unfold st8. apply insert_insert_eq.
Qed.
Lemma st64_st64 m a v w : st64 (st64 m a v) a w = st64 m a w.
Proof. Transparent st64. apply (stn_stn 8). Opaque st64. Qed.

(** ** Counting under sharing *)
Lemma leafref_same_pa t L k k' r n w w' p : L !! (r, n) = Some w -> PTE2PA w' = PTE2PA w ->
  leafref (mkabs t (<[(r, n) := w']> L) k) p = leafref (mkabs t L k') p.
Proof.
  intros Hw E. rewrite <- (insert_delete_eq L (r, n) w'). rewrite leafref_add by apply lookup_delete_eq.
  rewrite (leafref_del _ _ _ _ _ w) by done. unfold hit.
  change (leafref (mkabs t L k') p) with (leafref (mkabs t L k) p).
  rewrite (decide_ext (maps_to p (0, n, w')) (maps_to p (0, n, w))); [lia|].
  unfold maps_to. cbn. by rewrite E.
Qed.

(** ** Sharing one page *)
Lemma excl_ok_share L r n w : excl_ok L -> L !! (r, n) = Some w ->
  excl_ok (<[(r, n) := share_pte w]> L).
Proof.
  intros H Hw r1 n1 w1 r2 n2 w2 H1 H2 U1 U2 E W.
  apply lookup_insert_Some in H1 as [[[= <- <-] <-]|[_ H1]].
  { by rewrite share_pte_W in W. }
  apply lookup_insert_Some in H2 as [[[= <- <-] <-]|[_ H2]]; [|by eapply H].
  rewrite share_pte_pa in E. by eapply H.
Qed.

(** A second, read-only mapping of a page that is read-only everywhere. *)
Lemma excl_ok_child L r n w r' w' : excl_ok L -> L !! (r, n) = Some w -> user_vpn n ->
  hasbit w PTE_W = false -> hasbit w' PTE_W = false -> PTE2PA w' = PTE2PA w ->
  excl_ok (<[(r', n) := w']> L).
Proof.
  intros H Hw Hu W W' E r1 n1 w1 r2 n2 w2 H1 H2 U1 U2 E12 HW.
  apply lookup_insert_Some in H1 as [[[= <- <-] <-]|[_ H1]]; [congruence|].
  apply lookup_insert_Some in H2 as [[[= <- <-] <-]|[_ H2]]; [|by eapply H].
  pose proof (H r1 n1 w1 r n w H1 Hw U1 Hu ltac:(congruence) HW) as [= -> ->]. congruence.
Qed.

Lemma same_ok_pa L r n w r' w' : same_ok L -> L !! (r, n) = Some w -> user_vpn n ->
  PTE2PA w' = PTE2PA w -> same_ok (<[(r', n) := w']> L).
Proof.
  intros H Hw Hu E r1 n1 w1 r2 n2 w2 H1 H2 U1 U2 E12.
  apply lookup_insert_Some in H1 as [[[= <- <-] <-]|[_ H1]];
    apply lookup_insert_Some in H2 as [[[= <- <-] <-]|[_ H2]]; [done| | |by eapply H].
  - eapply (H r n w); [done..|congruence].
  - eapply (H r1 n1 w1 r n w); [done..|congruence].
Qed.

Section Uvmcopy.
Variable end_ : Z.
Hypothesis end_kernel : KERNBASE <= end_.
Abbreviation page_ok := (page_ok end_).
Abbreviation vm_inv := (vm_inv end_).

Definition share_leaf (r n w : Z) (g : vmabs) : vmabs :=
  mkabs (tabs g) (<[(r, n) := share_pte w]> (leaves g)) (kown g).

Lemma share_store l g s r r' va a w :
  vm_inv l g s -> 0 <= va < MAXVA -> tabs g !! (r, upath va) = Some a ->
  leaves g !! (r, vpn va) = Some w -> user_vpn (vpn va) ->
  let pte := a + 8 * PX 0 va in
  exists s', (if hasbit w PTE_W
              then store64 pte (Z.land w (Z.lnot PTE_W)) ;;
                   do! e' <- load64 pte; store64 pte (Z.lor e' PTE_COW)
              else ret tt) s = Ok tt s' /\
    vm_inv l (share_leaf r (vpn va) w g) s' /\ ld64 (mem s') pte = share_pte w /\
    evolves r' l g s l (share_leaf r (vpn va) w g) s' /\ (forall q, cnt s' q = cnt s q).
Proof.
  intros Hi Hva Ha Hw Hun pte. pose proof (leaf_at _ _ _ _ r va a Hi Hva Ha) as El.
  rewrite Hw in El. destruct (hasbit (ent s a (PX 0 va)) PTE_V) eqn:HV; [|done]. injection El as Ew.
  pose proof (ld64_range (mem s) pte) as Hr. change (ld64 (mem s) pte) with (ent s a (PX 0 va)) in Hr.
  rewrite <- Ew in HV, Hr. destruct (hasbit w PTE_W) eqn:HW.
  - set (s' := set_mem (fun m => st64 m pte (share_pte w)) s).
    exists s'. split.
    { unfold bind, store64, load64, modify, gets, set_mem. cbn [mem freelist counter mlocks]. rewrite ld64_st64_same, st64_st64.
      rewrite u64_small by (by apply land_range). unfold s', set_mem, share_pte. by rewrite HW. }
    pose proof (share_pte_range w Hr) as Hsr.
    split; [|split; [|split; [|done]]].
    + pose proof (inv_set_leaf end_ l g s r va a (share_pte w) (kown g)) as H. unfold upd_leaf in H.
      assert (hasbit (share_pte w) PTE_V = true) as HsV.
      { rewrite hasbit_V in HV |- *. by rewrite share_pte_flag. }
      destruct (vi_leafok _ _ _ _ Hi _ _ _ Hw) as [[Hf HU] Hok]. rewrite HsV in H.
      apply H; clear H; try done.
      * rewrite share_pte_pa. intros _. split; [|done]. split; [by apply share_pte_not_V|done].
      * apply excl_ok_share; [apply Hi|done].
      * eapply same_ok_pa; [apply Hi|done..|apply share_pte_pa].
      * intros p [k Hk]. apply (vi_tab _ _ _ _ Hi k p Hk).
      * intros p _ _. by rewrite (leafref_same_pa _ _ _ (kown g) _ _ w) by (done || apply share_pte_pa).
    + unfold s'. cbn. by rewrite ld64_st64_same, u64_small.
    + destruct (vi_tab _ _ _ _ Hi _ _ Ha) as (Hao & _). pose proof (PX_range 0 va).
      constructor; try done; [by left|].
      intros q Hq _ Hnt. apply same_page_st64; [apply Hao|done| |lia..].
      intros ->. apply Hnt. by exists (r, upath va).
  - exists s. assert (share_pte w = w) as Esh by (unfold share_pte; by rewrite HW).
    assert (share_leaf r (vpn va) w g = g) as ->.
    { unfold share_leaf. rewrite Esh, insert_id by done. by destruct g. }
    split; [done|]. split; [done|]. split; [|split; [by apply (evolves_refl end_)|done]].
    by rewrite Esh, Ew.
Qed.

(** The leaves after one page is shared. *)
Definition share1 (old new n w : Z) (L : gmap (Z * Z) Z) : gmap (Z * Z) Z :=
  <[(new, n) := child_pte w]> (<[(old, n) := share_pte w]> L).

(** Mapping the page in the child, and the reference that accounts for it. *)
Lemma share_map l g s old new va w :
  vm_inv l (share_leaf old (vpn va) w g) s -> tabs g !! (new, []) = Some new -> old <> new ->
  0 <= va < TRAPFRAME -> va mod PGSIZE = 0 -> hasbit w PTE_V = true ->
  leaves g !! (old, vpn va) = Some w -> leaves g !! (new, vpn va) = None ->
  refs (share_leaf old (vpn va) w g) (PTE2PA w) <= 254 ->
  let g0 := share_leaf old (vpn va) w g in
  exists l' g' s' x, mappages new va PGSIZE (PTE2PA w) (PTE_FLAGS (share_pte w)) s = Ok x s' /\
    ((x = 0 /\ exists s'', increase_count (PTE2PA w) s' = Ok tt s'' /\ vm_inv l' g' s'' /\
        leaves g' = share1 old new (vpn va) w (leaves g) /\ evolves new l g0 s l' g' s'') \/
     (x = -1 /\ vm_inv l' g' s' /\ leaves g' = leaves g0 /\ evolves new l g0 s l' g' s')).
Proof.
  intros Hi Hr Hne Hva Hal HV Hw Hno Hb g0. set (pa := PTE2PA w) in *.
  pose proof (user_below va ltac:(lia)) as Hun.
  assert (TRAPFRAME < MAXVA) as Htf by done.
  assert (leaves g0 !! (old, vpn va) = Some (share_pte w)) as Hw0 by apply lookup_insert_eq.
  destruct (vi_leafok _ _ _ _ Hi _ _ _ Hw0) as [[Hf HfU] Hok]. rewrite share_pte_pa in Hok.
  destruct (Hok Hun) as (Hpo & Hpc & Hpt). fold pa in Hpo, Hpc, Hpt.
  pose proof (page_ok_range _ end_kernel _ Hpo) as Hpr.
  assert (0 <= pa < 2 ^ 56) as Hp56 by (layout; lia).
  destruct (child_pte_facts w Hp56 (proj1 Hpo) HV) as [Cp Cf].
  assert (hasbit (child_pte w) PTE_W = false) as CW.
  { rewrite hasbit_W, flags_testbit, Cf, <- flags_testbit, <- hasbit_W by lia. apply share_pte_W. }
  destruct (mappages_page _ end_kernel l g0 s new va pa (PTE_FLAGS (share_pte w)))
    as (l' & g1 & s' & x & E & Hi1 & Hg & Hx); try done.
  - lia.
  - cbn. by rewrite lookup_insert_ne by naive_solver.
  - apply Hpo.
  - apply PTE_FLAGS_range.
  - split.
    + intros E. destruct (pte_of_facts pa (PTE_FLAGS (share_pte w))) as (_ & _ & _ & Hpf);
        [done|apply Hpo|apply PTE_FLAGS_range|]. rewrite E in Hpf. apply Hf.
      rewrite <- Cf. exact Hpf.
    + intros _. exact Hun.
  - eapply excl_ok_child; [apply Hi|exact Hw0|done|apply share_pte_W|exact CW|].
    by rewrite share_pte_pa, <- Cp.
  - eapply same_ok_pa; [apply Hi|exact Hw0|done|]. by rewrite share_pte_pa, <- Cp.
  - exists l'. destruct (Z.eqb_spec x 0) as [->|Hx0]; last first.
    { exists g1, s', x. split; [done|]. right. destruct Hx as [?|(-> & -> & _)]; [done|].
      split; [done|]. split; [done|]. split; [apply Hg|]. by eapply (grows_evolves end_). }
    unfold mapped in Hi1. cbn match in Hi1.
    change (pte_of pa (PTE_FLAGS (share_pte w))) with (child_pte w) in Hi1. set (g2 := map_leaf _ _ _ _) in Hi1.
    assert (pa ∉ l) as Hpl by (intros Hin; destruct (free_page _ _ _ _ pa Hi Hin) as (_ & ? & _); lia).
    assert (~ is_tab g1 pa) as Hpt1.
    { by apply (evolves_not_tab _ _ _ _ _ _ _ pa (grows_evolves _ end_kernel _ _ _ _ _ _ _ Hg)). }
    destruct (increase_count_abs _ end_kernel pa l' g2 s') as (s'' & Ei & Hi2 & Hm & Hlk); [done..| |].
    { rewrite (gr_cnt _ _ _ _ _ _ _ _ Hg) by done. split; [done|].
      rewrite (vi_cnt _ _ _ _ Hi pa Hpo Hpt). exact Hb. }
    exists (set_kown pa (kref g2 pa + 1) g2), s', 0. split; [done|]. left. split; [done|].
    exists s''. split; [done|]. split; [done|]. split.
    { cbn. unfold share1. by rewrite (gr_leaves _ _ _ _ _ _ _ _ Hg). }
    destruct (grows_evolves _ end_kernel _ _ _ _ _ _ _ Hg) as [F K T N M O].
    constructor; try done.
    + assert (forall p, kref g2 p = kref g0 p - if decide (pa = p) then 1 else 0) as K2.
      { intros p. unfold g2, map_leaf. by rewrite charge_kref, K, hit_user, Cp. }
      intros p. rewrite kref_set. destruct (decide (p = pa)) as [->|]; rewrite K2.
      * rewrite decide_True by done. lia.
      * rewrite decide_False by congruence. lia.
    + intros q. rewrite Hm. apply M.
    + congruence.
Qed.

(** ** The loop, from the state [l0 g0 s0] the call starts in *)
Section Loop.
Variables (old new sz N : Z) (l0 : list Z) (g0 : vmabs) (s0 : machine).
Hypothesis Hinv0 : vm_inv l0 g0 s0.
Hypothesis Hold : tabs g0 !! (old, []) = Some old.
Hypothesis Hnew : tabs g0 !! (new, []) = Some new.
Hypothesis Hne : old <> new.
Hypothesis HN : 0 <= N.
Hypothesis Hsz : (N - 1) * PGSIZE < sz <= N * PGSIZE.
Hypothesis Htop : N * PGSIZE <= TRAPFRAME.
Hypothesis Hmapped : forall m, 0 <= m < N -> is_Some (leaves g0 !! (old, m)).
Hypothesis Hfresh : forall m, 0 <= m < N -> leaves g0 !! (new, m) = None.
Hypothesis Hkref : forall p, 0 <= kref g0 p.

Lemma shared_step n w L : shared old new 0 n (leaves g0) L -> 0 <= n ->
  leaves g0 !! (old, n) = Some w -> shared old new 0 (n + 1) (leaves g0) (share1 old new n w L).
Proof.
  intros Hs Hn Hw r m. unfold share1. destruct (decide (m = n)) as [->|Hm].
  - rewrite (decide_True (P := 0 <= n < 0 + (n + 1))) by lia. destruct (decide (r = new)) as [->|Hr].
    + rewrite lookup_insert_eq, (decide_False (P := new = old)) by done. by rewrite Hw.
    + rewrite lookup_insert_ne by naive_solver. destruct (decide (r = old)) as [->|Hro].
      * by rewrite lookup_insert_eq, Hw.
      * rewrite lookup_insert_ne by naive_solver. rewrite Hs. rewrite decide_False by lia. done.
  - rewrite !lookup_insert_ne by naive_solver. rewrite Hs. apply decide_ext. lia.
Qed.

Lemma rolled_of n w L : shared old new 0 n (leaves g0) L -> 0 <= n < N ->
  leaves g0 !! (old, n) = Some w ->
  rolled old new N (leaves g0) (del_range (Z.to_nat n) new 0 (<[(old, n) := share_pte w]> L)).
Proof.
  intros Hs Hn Hw. split; [|split].
  - intros m. rewrite del_range_lookup, decide_False by naive_solver.
    destruct (decide (m = n)) as [->|Hm].
    + rewrite lookup_insert_eq, Hw. by right.
    + rewrite lookup_insert_ne by naive_solver. rewrite Hs. case_decide; [|by left].
      rewrite decide_True by done. by right.
  - intros m Hm. rewrite del_range_lookup. case_decide as E; [done|].
    rewrite lookup_insert_ne by naive_solver. rewrite Hs, decide_False by lia. by apply Hfresh.
  - intros r m Hr Hrm. rewrite del_range_lookup, decide_False by lia.
    rewrite lookup_insert_ne by naive_solver. rewrite Hs. case_decide; [|done].
    rewrite !decide_False by lia. done.
Qed.

Lemma rolled_kept L' : rolled old new N (leaves g0) L' ->
  forall r m w, leaves g0 !! (r, m) = Some w -> user_vpn m ->
    0 <= m -> exists w', L' !! (r, m) = Some w' /\ PTE2PA w' = PTE2PA w.
Proof.
  intros (Ho & Hc & Hr) r m w Hw Hu Hm. destruct (decide (r = old)) as [->|Hro].
  - destruct (Ho m) as [-> | ->]; rewrite Hw; [by exists w|]. exists (share_pte w).
    split; [done|apply share_pte_pa].
  - exists w. split; [|done]. rewrite Hr; [done..|]. destruct (decide (r = new)) as [->|]; [right|by left].
    destruct (decide (m < N)); [|lia]. by rewrite Hfresh in Hw by lia.
Qed.

(** Sharing page [n] does not change the references of another page. *)
Lemma share1_refs n w g g' p : leaves g !! (old, n) = Some w -> user_vpn n ->
  leaves g !! (new, n) = None -> PTE2PA (child_pte w) = PTE2PA w ->
  leaves g' = share1 old new n w (leaves g) -> (forall q, kref g' q = kref g q) ->
  p <> PTE2PA w -> refs g' p = refs g p.
Proof.
  intros Hw Hu Hno Cp Hl Hk Hp. unfold refs. rewrite Hk. f_equal.
  transitivity (leafref (mkabs (tabs g) (share1 old new n w (leaves g)) (kown g)) p).
  { unfold leafref. cbn. by rewrite Hl. }
  unfold share1. rewrite leafref_add by (by rewrite lookup_insert_ne by naive_solver).
  rewrite (leafref_same_pa _ _ _ (kown g) _ _ w) by (done || apply share_pte_pa).
  rewrite hit_user, Cp, decide_False by done. unfold leafref. cbn. lia.
Qed.

(** One iteration, up to the result of [mappages]. *)
Lemma uvmcopy_iter fuel l g s va w :
  vm_inv l g s -> tabs g !! (old, []) = Some old -> tabs g !! (new, []) = Some new ->
  0 <= va < TRAPFRAME -> va mod PGSIZE = 0 -> va < sz ->
  leaves g !! (old, vpn va) = Some w -> leaves g !! (new, vpn va) = None ->
  refs g (PTE2PA w) <= 254 ->
  exists l' g' s2 x, hasbit w PTE_V = true /\
    uvmcopy_loop end_ (S fuel) old new va sz s =
    (if negb (x =? 0) then uvmunmap end_ new 0 (va / PGSIZE) true ;; ret (-1)
     else increase_count (PTE2PA w) ;; uvmcopy_loop end_ fuel old new (u64 (va + PGSIZE)) sz) s2 /\
    ((x = 0 /\ exists s3, increase_count (PTE2PA w) s2 = Ok tt s3 /\ vm_inv l' g' s3 /\
        leaves g' = share1 old new (vpn va) w (leaves g) /\ evolves new l g s l' g' s3) \/
     (x = -1 /\ vm_inv l' g' s2 /\ leaves g' = <[(old, vpn va) := share_pte w]> (leaves g) /\
        evolves new l g s l' g' s2)).
Proof.
  intros Hi Hro Hrn Hva Hal Hlt Hwv Hng Hrefs. assert (TRAPFRAME < MAXVA) as Htf by done.
  pose proof (user_below va ltac:(lia)) as Hun. cbn [uvmcopy_loop].
  rewrite (proj2 (Z.ltb_lt _ _)) by done.
  rewrite (bind_ok _ _ _ _ _ (walk_ro _ _ _ _ old va Hi Hro ltac:(lia))).
  destruct (tabs g !! (old, upath va)) as [a|] eqn:Ha.
  2:{ pose proof (leaf_none _ _ _ _ old va Hi ltac:(lia) Ha). congruence. }
  destruct (slot_nonzero _ end_kernel _ _ _ old va a Hi Ha) as [Es Hnz].
  rewrite (proj2 (Z.eqb_neq _ 0)) by done. rewrite Es.
  pose proof (leaf_at _ _ _ _ old va a Hi ltac:(lia) Ha) as El. rewrite Hwv in El.
  destruct (hasbit (ent s a (PX 0 va)) PTE_V) eqn:HV; [|done]. injection El as Ew.
  rewrite (bind_ok _ _ s w s) by (by rewrite Ew). rewrite Ew, HV, <- Ew. cbn [negb]. rewrite <- Ew in HV.
  destruct (share_store l g s old new va a w Hi ltac:(lia) Ha Hwv Hun)
    as (s1 & E1 & Hi1 & Hld & Hev1 & Hc1).
  cbn zeta. rewrite (bind_ok _ _ _ _ _ E1).
  rewrite (bind_ok _ _ s1 (share_pte w) s1) by (unfold load64, gets; by rewrite Hld).
  destruct (share_map l g s1 old new va w) as (l2 & g2 & s2 & x & E2 & Hres); try done.
  { unfold refs. etransitivity; [|exact Hrefs]. apply Z.eq_le_incl. unfold refs. f_equal.
    unfold share_leaf. by rewrite (leafref_same_pa _ _ _ (kown g) _ _ w) by (done || apply share_pte_pa). }
  exists l2, g2, s2, x. split; [done|]. split; [by rewrite (bind_ok _ _ _ _ _ E2)|].
  destruct Hres as [(-> & s3 & E3 & Hi3 & Hl3 & Hev3)|(-> & Hi3 & Hl3 & Hev3)]; [left|right].
  - split; [done|]. exists s3. split; [done|]. split; [done|]. split; [done|]. by eapply evolves_trans.
  - split; [done|]. split; [done|]. split; [done|]. by eapply evolves_trans.
Qed.

(** A failure at page [n] takes the child's mappings down. *)
Lemma uvmcopy_fail n w L l g s :
  vm_inv l g s -> shared old new 0 n (leaves g0) L -> 0 <= n < N ->
  leaves g0 !! (old, n) = Some w -> leaves g = <[(old, n) := share_pte w]> L ->
  evolves new l0 g0 s0 l g s ->
  exists l' g' s', uvmunmap end_ new 0 n true s = Ok tt s' /\ vm_inv l' g' s' /\
    evolves new l0 g0 s0 l' g' s' /\ rolled old new N (leaves g0) (leaves g').
Proof.
  intros Hi Hsh Hn Hw Hl Hev.
  destruct (uvmunmap_free _ end_kernel l g s new 0 n) as (l4 & g4 & s4 & E4 & Hi4 & Hl4 & Hs4);
    [done|by eapply (evolves_root _ _ _ _ _ _ _ _ Hev)|lia|done|lia|unfold PGSIZE in *; lia| | |].
  - intros i Hir. change (vpn 0 + i) with i. rewrite Hl, lookup_insert_ne by naive_solver.
    rewrite Hsh, decide_True, decide_False, decide_True by (done || lia).
    destruct (Hmapped i) as [v Hv]; [lia|]. by rewrite Hv.
  - intros q. rewrite (ev_kref _ _ _ _ _ _ _ Hev). apply Hkref.
  - change (vpn 0) with 0 in Hl4. rewrite Hl in Hl4.
    pose proof (rolled_of n w L Hsh ltac:(lia) Hw) as Hr4. rewrite <- Hl4 in Hr4.
    exists l4, g4, s4. split; [done|]. split; [done|]. split; [|done].
    eapply (evolves_shrinks end_); [exact Hev|exact Hs4|].
    eapply (free_kept end_); [exact Hinv0|exact Hi4|..].
    + rewrite (sh_tabs _ _ _ _ _ _ _ Hs4). apply Hev.
    + intros q. rewrite (sh_kref _ _ _ _ _ _ _ Hs4). apply Hev.
    + intros r m w' Hw' Hu'. apply (rolled_kept _ Hr4 r m w' Hw' Hu').
      destruct (vi_leafdom _ _ _ _ Hinv0 _ _ _ Hw') as [[? _] _]. done.
Qed.

Lemma uvmcopy_loop_spec k : forall fuel l g s n,
  (k <= fuel)%nat -> n + Z.of_nat k = N -> 0 <= n -> vm_inv l g s ->
  shared old new 0 n (leaves g0) (leaves g) -> evolves new l0 g0 s0 l g s ->
  (forall m w, n <= m < N -> leaves g !! (old, m) = Some w -> refs g (PTE2PA w) <= 254) ->
  exists l' g' s' x, uvmcopy_loop end_ fuel old new (n * PGSIZE) sz s = Ok x s' /\
    vm_inv l' g' s' /\ evolves new l0 g0 s0 l' g' s' /\
    ((x = 0 /\ shared old new 0 N (leaves g0) (leaves g')) \/
     (x = -1 /\ rolled old new N (leaves g0) (leaves g'))).
Proof.
  induction k as [|k IH]; intros fuel l g s n Hfuel Hn Hn0 Hi Hsh Hev Hrefs.
  { exists l, g, s, 0. assert (n = N) as -> by lia. split; [|by auto].
    destruct fuel; cbn [uvmcopy_loop]; by rewrite (proj2 (Z.ltb_ge _ _)) by lia. }
  destruct fuel as [|fuel]; [lia|].
  set (va := n * PGSIZE). assert (TRAPFRAME < MAXVA) as Htf by done.
  assert (0 <= va < TRAPFRAME) as Hva by (unfold va, PGSIZE in *; lia).
  assert (vpn va = n) as Ev by (unfold vpn, va; by rewrite Z.div_mul).
  destruct (Hmapped n) as [w Hw]; [lia|].
  assert (leaves g !! (old, n) = Some w) as Hwg by (rewrite Hsh, decide_False by lia; done).
  assert (leaves g !! (new, n) = None) as Hng.
  { rewrite Hsh, decide_False by lia. apply Hfresh. lia. }
  assert (user_vpn n) as Hun by (rewrite <- Ev; apply user_below; lia).
  destruct (uvmcopy_iter fuel l g s va w) as (l2 & g2 & s2 & x & HV & E & Hres);
    rewrite ?Ev; [done|by eapply evolves_root|by eapply evolves_root|done
                 |unfold va; by rewrite Z.mod_mul|unfold va, PGSIZE in *; lia|done|done
                 |apply (Hrefs n); [lia|done]|].
  rewrite E. rewrite Ev in Hres.
  destruct Hres as [(-> & s3 & E3 & Hi3 & Hl3 & Hev3)|(-> & Hi3 & Hl3 & Hev3)].
  - cbn [negb Z.eqb]. rewrite (bind_ok _ _ _ _ _ E3).
    replace (u64 (va + PGSIZE)) with ((n + 1) * PGSIZE)
      by (rewrite MAXVA_eq in Htf; rewrite u64_small; unfold va, PGSIZE in *; lia).
    apply (IH fuel l2 g2 s3); [lia|lia|lia|done| | |].
    + rewrite Hl3. by apply shared_step.
    + by eapply evolves_trans.
    + intros m w' Hm Hw'. rewrite Hl3 in Hw'. unfold share1 in Hw'.
      rewrite !lookup_insert_ne in Hw' by (intros [=]; lia).
      destruct (vi_leafok _ _ _ _ Hi _ _ _ Hwg) as [_ Hok]. destruct (Hok Hun) as (Hpo & _).
      pose proof (page_ok_range _ end_kernel _ Hpo).
      rewrite (share1_refs n w g g2 (PTE2PA w')); try done; [by apply (Hrefs m); [lia|]|..].
      * apply child_pte_facts; [layout; lia|apply Hpo|done].
      * apply Hev3.
      * intros Epa. assert (m = n); [|lia].
        eapply (vi_same _ _ _ _ Hi old m w' old n w); try done.
        rewrite <- (Z.div_mul m PGSIZE) by done. apply user_below. unfold PGSIZE in *; lia.
  - cbn [negb Z.eqb Z.opp]. replace (va / PGSIZE) with n by (unfold va; by rewrite Z.div_mul).
    destruct (uvmcopy_fail n w (leaves g) l2 g2 s2) as (l4 & g4 & s4 & E4 & Hi4 & Hev4 & Hr4);
      [done|done|lia|done|done|by eapply evolves_trans|].
    rewrite (bind_ok _ _ _ _ _ E4). exists l4, g4, s4, (-1). split; [done|].
    split; [done|]. split; [done|]. by right.
Qed.
End Loop.

(** [uvmcopy] in full: on success the child maps every page of the parent, on
    failure it maps none; either way no other address space is affected, the
    pages in use keep their contents, and no page is lost or newly freed. *)
Lemma uvmcopy_spec l g s old new sz :
  vm_inv l g s -> tabs g !! (old, []) = Some old -> tabs g !! (new, []) = Some new -> old <> new ->
  0 <= sz <= TRAPFRAME ->
  (forall m, 0 <= m < npages sz -> is_Some (leaves g !! (old, m))) ->
  (forall m, 0 <= m < npages sz -> leaves g !! (new, m) = None) ->
  (forall p, 0 <= kref g p) ->
  (forall m w, 0 <= m < npages sz -> leaves g !! (old, m) = Some w -> refs g (PTE2PA w) <= 254) ->
  exists l' g' s' x, uvmcopy end_ old new sz s = Ok x s' /\
    vm_inv l' g' s' /\ evolves new l g s l' g' s' /\
    ((x = 0 /\ shared old new 0 (npages sz) (leaves g) (leaves g')) \/
     (x = -1 /\ rolled old new (npages sz) (leaves g) (leaves g'))).
Proof.
  intros Hi Ho Hn Hne Hsz Hm Hf Hk Hr. unfold uvmcopy.
  destruct (npages_bounds sz) as [Hb H0]; [lia|]. pose proof (npages_top sz Hsz) as Ht.
  change 0 with (0 * PGSIZE) at 2.
  eapply uvmcopy_loop_spec with (k := Z.to_nat (npages sz)) (n := 0); try done.
  - apply Z2Nat.inj_le; [lia|pose proof (Z.div_pos sz PGSIZE); unfold PGSIZE in *; lia|].
    replace (sz / PGSIZE + 1) with ((sz + 1 * PGSIZE) / PGSIZE) by (by rewrite Z.div_add).
    unfold npages. apply Z.div_le_mono; [done|lia].
  - lia.
  - intros r m. rewrite decide_False by lia. done.
  - by apply (evolves_refl end_).
Qed.

(** ** The count cannot overflow: a page has at most one mapping per address
    space, and the reference count is a byte. *)
Definition roots (g : vmabs) : gset Z := set_map fst (dom (tabs g)).

Lemma leafref_roots l g s p : vm_inv l g s -> leafref g p <= Z.of_nat (size (roots g)).
Proof.
  intros Hi. unfold leafref, roots. apply inj_le.
  set (F := filter (maps_to p) (leaves g)).
  assert (forall r n w, F !! (r, n) = Some w -> leaves g !! (r, n) = Some w /\ user_vpn n /\ PTE2PA w = p) as HF.
  { intros r n w H. apply map_lookup_filter_Some in H as [H [U P]]. done. }
  rewrite <- size_dom. change (size (dom F)) with (length (elements (dom F))).
  rewrite <- (length_fmap fst). apply submseteq_length, NoDup_submseteq.
  - apply NoDup_fmap_2_strong; [|apply NoDup_elements].
    intros [r1 n1] [r2 n2] H1 H2 E. cbn in E. subst r2. f_equal.
    apply elem_of_elements, elem_of_dom in H1 as [w1 H1].
    apply elem_of_elements, elem_of_dom in H2 as [w2 H2].
    apply HF in H1 as (H1 & U1 & P1), H2 as (H2 & U2 & P2).
    eapply (vi_same _ _ _ _ Hi r1 n1 w1 r1 n2 w2); try done. congruence.
  - intros r Hr. apply list_elem_of_fmap in Hr as ([r' n] & -> & Hr).
    apply elem_of_elements, elem_of_dom in Hr as [w Hw]. apply HF in Hw as (Hw & _).
    apply (vi_leafdom _ _ _ _ Hi) in Hw as [_ [a Ha]].
    apply elem_of_elements, elem_of_map. exists (r', npath n). split; [done|]. by apply elem_of_dom.
Qed.

Corollary refs_bounded l g s old m w : vm_inv l g s -> leaves g !! (old, m) = Some w ->
  kref g (PTE2PA w) = 0 -> (size (roots g) <= 254)%nat -> refs g (PTE2PA w) <= 254.
Proof. intros Hi Hw Hk Hr. unfold refs. pose proof (leafref_roots l g s (PTE2PA w) Hi). lia. Qed.
End Uvmcopy.
