(* ===== verification/UserMem.v ===== *)
(** * Growing, shrinking and freeing user memory

    kernel/vm.c [uvmalloc], [uvmdealloc], [uvmclear], [freewalk] and
    [uvmfree]. *)

From S2P Require Import Prelude Riscv Mem Lock Kalloc Vm VmInv VmOps Cow.
Import KString.
Local Open Scope Z_scope.

(** The leaves after the pages [n .. N-1] of [r] were added, each a page
    taken from the free list [l0] and full of zeroes in [s']. *)
Definition grown (r n N perm : Z) (l0 : list Z) (L L' : gmap (Z * Z) Z) (s' : machine) : Prop :=
  (forall m, n <= m < N -> exists p, p ∈ l0 /\ L' !! (r, m) = Some (pte_of p perm) /\
     forall i, 0 <= i < PGSIZE -> ld8 (mem s') (p + i) = 0) /\
  (forall r' m, ~ (r' = r /\ n <= m < N) -> L' !! (r', m) = L !! (r', m)).

Section UserMem.
Variable end_ : Z.
Hypothesis end_kernel : KERNBASE <= end_.
Abbreviation page_ok := (page_ok end_).
Abbreviation vm_inv := (vm_inv end_).

Lemma uvmdealloc_spec l g s r oldsz newsz :
  vm_inv l g s -> tabs g !! (r, []) = Some r -> 0 <= newsz -> 0 <= oldsz <= TRAPFRAME ->
  (forall m, npages newsz <= m < npages oldsz -> is_Some (leaves g !! (r, m))) ->
  (forall p, 0 <= kref g p) ->
  exists l' g' s', uvmdealloc end_ r oldsz newsz s = Ok (Z.min oldsz newsz) s' /\ vm_inv l' g' s' /\
    leaves g' = del_range (Z.to_nat (npages oldsz - npages newsz)) r (npages newsz) (leaves g) /\
    shrinks end_ l g s l' g' s'.
Proof.
  intros Hi Hr Hn Ho Hm Hk. unfold uvmdealloc.
  destruct (Z.leb_spec oldsz newsz) as [Hle|Hlt].
  { exists l, g, s. rewrite Z.min_l by done. split; [done|]. split; [done|].
    pose proof (npages_mono _ _ Hle). replace (Z.to_nat (npages oldsz - npages newsz)) with O by lia.
    split; [done|]. by apply shrinks_refl. }
  rewrite Z.min_r by lia. rewrite !PGROUNDUP_npages by lia.
  pose proof (npages_mono newsz oldsz ltac:(lia)) as Hmono.
  pose proof (npages_top oldsz ltac:(lia)) as Htop. destruct (npages_bounds newsz Hn) as [_ H0].
  destruct (Z.ltb_spec (npages newsz * PGSIZE) (npages oldsz * PGSIZE)) as [Hl|Hl].
  - assert (TRAPFRAME < 2 ^ 31 * PGSIZE) as Ht31 by done.
    assert (u64 (s32 ((npages oldsz * PGSIZE - npages newsz * PGSIZE) / PGSIZE)) = npages oldsz - npages newsz)
      as ->.
    { rewrite <- Z.mul_sub_distr_r, Z.div_mul by done.
      rewrite s32_small, u64_small; unfold PGSIZE in *; lia. }
    destruct (uvmunmap_free _ end_kernel l g s r (npages newsz * PGSIZE) (npages oldsz - npages newsz))
      as (l' & g' & s' & E & Hi' & Hl' & Hs');
      [done|done|unfold PGSIZE; lia|by rewrite Z.mod_mul|lia|unfold PGSIZE in *; lia| |done|].
    + intros i Hir. unfold vpn. rewrite Z.div_mul by done. apply Hm. lia.
    + exists l', g', s'. rewrite (bind_ok _ _ _ _ _ E). split; [done|]. split; [done|]. split; [|done].
      unfold vpn in Hl'. rewrite Z.div_mul in Hl' by done. exact Hl'.
  - exists l, g, s. split; [done|]. split; [done|].
    replace (Z.to_nat (npages oldsz - npages newsz)) with O by (unfold PGSIZE in *; lia).
    split; [done|]. by apply shrinks_refl.
Qed.

(** Taking [p] off the free list, growing the tables, and ending with the
    kernel's reference to [p] given to a mapping or given up. *)
Lemma evolves_alloc r p l g s l1 g1 s1 s2 l' g' s' :
  vm_inv (p :: l) g s -> (forall q, q mod PGSIZE = 0 -> q <> p -> same_page (mem s) (mem s1) q) ->
  mlocks s1 = mlocks s -> evolves r l (set_kown p 1 g) s1 l1 g1 s2 ->
  tabs g' = tabs g1 -> (forall q, kref g' q = if decide (q = p) then 0 else kref g1 q) ->
  (forall q, q ∈ l' -> q = p \/ q ∈ l1) ->
  (forall q, q mod PGSIZE = 0 -> q <> p -> same_page (mem s2) (mem s') q) -> mlocks s' = mlocks s2 ->
  evolves r (p :: l) g s l' g' s'.
Proof.
  intros Hi Hm1 Hk1 [F K T N M O] Ht Hk Hl Hm' Hlk.
  destruct (free_page _ _ _ _ p Hi) as (_ & _ & _ & _ & Hpk); [set_solver|]. constructor.
  - intros q Hq. destruct (Hl q Hq) as [->|Hq1]; [by left|right; by apply F].
  - intros q. rewrite Hk. destruct (decide (q = p)) as [->|Hne]; [done|].
    rewrite K, kref_set. by rewrite decide_False.
  - by rewrite Ht.
  - intros k a Hka. rewrite Ht in Hka.
    destruct (N k a Hka) as [?|[? ?]]; [by left|right; split; [done|by right]].
  - intros q Hq Hql Hqt. apply not_elem_of_cons in Hql as [Hqp Hql].
    eapply same_page_trans; [by apply Hm1|]. eapply same_page_trans; [by apply M|by apply Hm'].
  - congruence.
Qed.

(** One page of [uvmalloc]: a zeroed page is mapped, or it is given back. *)
Lemma alloc_page l p g s r va perm :
  vm_inv (p :: l) g s -> tabs g !! (r, []) = Some r -> 0 <= va < TRAPFRAME -> va mod PGSIZE = 0 ->
  leaves g !! (r, vpn va) = None -> 0 <= perm < 1024 -> Z.lor perm PTE_V <> PTE_V ->
  exists s1, kalloc s = Ok p s1 /\ p <> 0 /\
  let s2 := set_mem (fun m => memset m p 0 PGSIZE) s1 in
  exists l' g' s' x, mappages r va PGSIZE p perm s2 = Ok x s' /\
    ((x = 0 /\ vm_inv l' g' s' /\ leaves g' = <[(r, vpn va) := pte_of p perm]> (leaves g) /\
      evolves r (p :: l) g s l' g' s' /\ forall i, 0 <= i < PGSIZE -> ld8 (mem s') (p + i) = 0) \/
     (x = -1 /\ (length l < 2)%nat /\ exists s'', kfree end_ p s' = Ok tt s'' /\ vm_inv l' g' s'' /\
      leaves g' = leaves g /\ evolves r (p :: l) g s l' g' s'')).
Proof.
  intros Hi Hr Hva Hal Hno Hperm HV. pose proof (user_below va ltac:(lia)) as Hun.
  destruct (free_page _ _ _ _ p Hi) as (Hp & _ & Hpt & Hpl & Hpk); [set_solver|].
  assert (p ∉ l) as Hnl by (by pose proof (ai_nodup _ _ _ (vi_alloc _ _ _ _ Hi)) as [? _]%NoDup_cons).
  destruct (kalloc_zeroed _ end_kernel _ _ _ _ Hi) as (s1 & E & Hi2 & Hf & Hnz & _ & Hz & Hmem & Hcnt & Hlk).
  exists s1. split; [done|]. split; [done|]. cbn zeta. set (s2 := set_mem _ s1) in *.
  pose proof (page_ok_range _ end_kernel _ Hp) as Hpr. assert (TRAPFRAME < MAXVA) as Htf by done.
  assert (0 <= p < 2 ^ 56) as Hp56 by (layout; lia).
  destruct (pte_of_facts p perm Hp56 (proj1 Hp) Hperm) as (_ & _ & Wpa & _).
  destruct (mappages_page _ end_kernel l (set_kown p 1 g) s2 r va p perm)
    as (l' & g1 & s' & x & Em & Hi1 & Hg & Hx); try done.
  - lia.
  - apply Hp.
  - intros _. split; [done|]. split; [|done].
    rewrite (vi_cnt _ _ _ _ Hi2 p Hp Hpt). destruct Hf as (_ & _ & -> & ->). lia.
  - apply excl_ok_fresh; [apply Hi|by rewrite Wpa].
  - apply same_ok_fresh; [apply Hi|by rewrite Wpa].
  - pose proof (grows_evolves _ end_kernel _ _ _ _ _ _ _ Hg) as Hev.
    assert (kref g1 p = 1) as Hk1 by (rewrite (ev_kref _ _ _ _ _ _ _ Hev), kref_set; by rewrite decide_True).
    assert (~ is_tab g1 p) as Hpt1 by (by eapply evolves_not_tab).
    destruct (Z.eqb_spec x 0) as [->|Hx0].
    + exists l', (map_leaf r (vpn va) (pte_of p perm) g1), s', 0. split; [done|]. left. split; [done|].
      split; [exact Hi1|]. split; [cbn; by rewrite (gr_leaves _ _ _ _ _ _ _ _ Hg)|]. split.
      * eapply (evolves_alloc r p l g s l' g1 s2 s'); try done; [|by right].
        intros q. unfold map_leaf. rewrite charge_kref, hit_user, Wpa by done.
        destruct (decide (q = p)) as [->|]; [rewrite decide_True by done; lia|].
        rewrite decide_False by congruence. lia.
      * intros i Hir. rewrite <- (Hz i Hir). by apply (gr_mem _ _ _ _ _ _ _ _ Hg p); [apply Hp|..].
    + destruct Hx as [?|(-> & -> & Hshort)]; [done|]. change (mapped r (vpn va) (pte_of p perm) (-1) g1) with g1 in Hi1.
      destruct (kfree_abs _ end_kernel p [] g1 s' Hi1 Hp Hpt1) as (l2 & s'' & Ek & Hi2' & Hl2 & Hm2 & Hlk2);
        [lia|].
      assert (leafref g1 p = 0) as Hlr1 by (unfold leafref; by rewrite (gr_leaves _ _ _ _ _ _ _ _ Hg)).
      exists l2, (set_kown p (kref g1 p - 1) g1), s', (-1). split; [done|]. right. split; [done|]. split; [done|].
      exists s''. split; [done|]. split; [done|]. split; [apply Hg|].
      eapply (evolves_alloc r p l g s [] g1 s2 s'); try done.
      * intros q. rewrite kref_set, Hk1. done.
      * intros q. rewrite Hl2. destruct (decide _); [|by right]. set_solver.
      * intros q Hq Hqp. apply Hm2; [done|by left].
Qed.

(** ** uvmalloc, from the state [l0 g0 s0] the call starts in *)
Section Grow.
Variables (r n0 N newsz xperm : Z) (l0 : list Z) (g0 : vmabs) (s0 : machine).
Let perm := Z.lor (Z.lor PTE_R PTE_U) xperm.
Hypothesis Hinv0 : vm_inv l0 g0 s0.
Hypothesis Hroot : tabs g0 !! (r, []) = Some r.
Hypothesis Hn0 : 0 <= n0.
Hypothesis HnN : n0 <= N.
Hypothesis Hnew : newsz <= N * PGSIZE.
Hypothesis Hlow : n0 < N -> (N - 1) * PGSIZE < newsz.
Hypothesis Htop : N * PGSIZE <= TRAPFRAME.
Hypothesis Hxp : 0 <= xperm < 1024.
Hypothesis Hfresh : forall m, n0 <= m < N -> leaves g0 !! (r, m) = None.
Hypothesis Hkref : forall p, 0 <= kref g0 p.

Lemma perm_ok : 0 <= perm < 1024 /\ Z.lor perm PTE_V <> PTE_V.
Proof.
  split.
  - change 1024 with (2 ^ 10) in *. apply lor_range; [lia|done|done].
  - intros E. apply (f_equal (fun z => Z.testbit z 1)) in E. unfold perm in E.
    rewrite !Z.lor_spec in E. change (Z.testbit PTE_V 1) with false in E.
    change (Z.testbit PTE_R 1) with true in E. done.
Qed.

Lemma free_pte q : q ∈ l0 -> PTE2PA (pte_of q perm) = q.
Proof.
  intros Hq. destruct (free_page _ _ _ _ q Hinv0 Hq) as (Hqo & _).
  pose proof (page_ok_range _ end_kernel _ Hqo). destruct perm_ok.
  apply pte_of_facts; [layout; lia|apply Hqo|done].
Qed.

(** Giving back what was allocated so far restores the address space. *)
Lemma uvmalloc_fail n l g s :
  vm_inv l g s -> n0 <= n <= N -> grown r n0 n perm l0 (leaves g0) (leaves g) s ->
  evolves r l0 g0 s0 l g s ->
  exists l' g' s' y, uvmdealloc end_ r (n * PGSIZE) (n0 * PGSIZE) s = Ok y s' /\ vm_inv l' g' s' /\
    leaves g' = leaves g0 /\ evolves r l0 g0 s0 l' g' s'.
Proof.
  intros Hi Hn [Hgr Hrest] Hev.
  destruct (uvmdealloc_spec l g s r (n * PGSIZE) (n0 * PGSIZE)) as (l' & g' & s' & E & Hi' & Hl' & Hs').
  - done.
  - by eapply (evolves_root _ _ _ _ _ _ _ _ Hev).
  - unfold PGSIZE; lia.
  - unfold PGSIZE in *; lia.
  - intros m Hm. rewrite !npages_mul in Hm. destruct (Hgr m Hm) as (p & _ & -> & _). by eexists.
  - intros q. rewrite (ev_kref _ _ _ _ _ _ _ Hev). apply Hkref.
  - rewrite !npages_mul in Hl'. assert (leaves g' = leaves g0) as Hlv.
    { rewrite Hl'. apply map_eq. intros [r' m]. rewrite del_range_lookup.
      rewrite Z2Nat.id by lia. destruct (decide _) as [[-> Hm]|Hm].
      - symmetry. apply Hfresh. lia.
      - apply Hrest. intros [-> ?]. apply Hm. lia. }
    exists l', g', s', (Z.min (n * PGSIZE) (n0 * PGSIZE)). split; [done|]. split; [done|]. split; [done|].
    eapply (evolves_shrinks end_); [exact Hev|exact Hs'|].
    eapply (free_kept end_); [exact Hinv0|exact Hi'|..].
    + rewrite (sh_tabs _ _ _ _ _ _ _ Hs'). apply Hev.
    + intros q. rewrite (sh_kref _ _ _ _ _ _ _ Hs'). apply Hev.
    + intros r' m w Hw _. exists w. by rewrite Hlv.
Qed.

Lemma grown_step n p L s s' : n0 <= n -> p ∈ l0 -> grown r n0 n perm l0 (leaves g0) L s ->
  (forall m, n0 <= m < n -> forall w, L !! (r, m) = Some w -> same_page (mem s) (mem s') (PTE2PA w)) ->
  (forall q, q ∈ l0 -> PTE2PA (pte_of q perm) = q) ->
  (forall i, 0 <= i < PGSIZE -> ld8 (mem s') (p + i) = 0) ->
  grown r n0 (n + 1) perm l0 (leaves g0) (<[(r, n) := pte_of p perm]> L) s'.
Proof.
  intros Hn Hp [Hgr Hrest] Hsame Hpte Hz. split.
  - intros m Hm. destruct (decide (m = n)) as [->|Hne].
    + exists p. by rewrite lookup_insert_eq.
    + destruct (Hgr m ltac:(lia)) as (q & Hq & Hw & Hzq). exists q. split; [done|].
      rewrite lookup_insert_ne by naive_solver. split; [done|]. intros i Hir.
      rewrite <- (Hzq i Hir). pose proof (Hsame m ltac:(lia) _ Hw i Hir) as Es. by rewrite Hpte in Es.
  - intros r' m Hm. rewrite lookup_insert_ne; [apply Hrest; lia|]. intros [= -> ->]. lia.
Qed.

Lemma uvmalloc_loop_spec k : forall fuel l g s n,
  (k <= fuel)%nat -> n + Z.of_nat k = N -> n0 <= n -> vm_inv l g s ->
  grown r n0 n perm l0 (leaves g0) (leaves g) s -> evolves r l0 g0 s0 l g s ->
  exists l' g' s' x, uvmalloc_loop end_ fuel r (n * PGSIZE) (n0 * PGSIZE) newsz xperm s = Ok x s' /\
    vm_inv l' g' s' /\ evolves r l0 g0 s0 l' g' s' /\
    ((x = newsz /\ grown r n0 N perm l0 (leaves g0) (leaves g') s') \/
     (x = 0 /\ leaves g' = leaves g0)).
Proof.
  destruct perm_ok as [Hpr HpV].
  induction k as [|k IH]; intros fuel l g s n Hfuel Hn Hn0' Hi Hgr Hev.
  { exists l, g, s, newsz. assert (n = N) as -> by lia. split; [|by auto].
    destruct fuel; cbn [uvmalloc_loop]; by rewrite (proj2 (Z.ltb_ge _ _)) by lia. }
  destruct fuel as [|fuel]; [lia|]. cbn [uvmalloc_loop].
  set (va := n * PGSIZE). assert (TRAPFRAME < MAXVA) as Htf by done.
  assert (0 <= va < TRAPFRAME) as Hva by (unfold va, PGSIZE in *; lia).
  assert (vpn va = n) as Ev by (unfold vpn, va; by rewrite Z.div_mul).
  rewrite (proj2 (Z.ltb_lt _ _)) by (unfold va, PGSIZE in *; lia).
  assert (leaves g !! (r, n) = None) as Hno.
  { destruct Hgr as [_ Hrest]. rewrite Hrest by lia. apply Hfresh. lia. }
  destruct l as [|p l].
  { rewrite (bind_ok _ _ _ _ _ (kalloc_abs_empty _ _ _ Hi)). cbn [Z.eqb].
    destruct (uvmalloc_fail n [] g s) as (l' & g' & s' & y & E & Hi' & Hl' & Hev'); [done|lia|done..|].
    unfold va. rewrite (bind_ok _ _ _ _ _ E). exists l', g', s', 0. auto 6. }
  destruct (alloc_page l p g s r va perm) as (s1 & Ek & Hnz & l2 & g2 & s2 & x & Em & Hres);
    rewrite ?Ev; [done|by eapply (evolves_root _ _ _ _ _ _ _ _ Hev)|done
                 |unfold va; by rewrite Z.mod_mul|done..|].
  rewrite (bind_ok _ _ _ _ _ Ek). rewrite (proj2 (Z.eqb_neq _ _)) by done.
  rewrite (bind_ok _ _ s1 tt (set_mem (fun m => memset m p 0 PGSIZE) s1)) by done.
  rewrite (bind_ok _ _ _ _ _ Em). rewrite Ev in Hres.
  destruct Hres as [(-> & Hi2 & Hl2 & Hev2 & Hz)|(-> & _ & s3 & E3 & Hi3 & Hl3 & Hev3)].
  - cbn [negb Z.eqb].
    replace (u64 (va + PGSIZE)) with ((n + 1) * PGSIZE)
      by (rewrite MAXVA_eq in Htf; rewrite u64_small; unfold va, PGSIZE in *; lia).
    apply (IH fuel l2 g2 s2); [lia|lia|lia|done| |by eapply evolves_trans].
    rewrite Hl2. apply (grown_step n p (leaves g) s); [done| |done| | |done].
    + apply (ev_free _ _ _ _ _ _ _ Hev). left.
    + intros m Hm w Hw. eapply (evolves_leaf end_); [exact Hi|exact Hev2|exact Hw|].
      apply user_page. unfold PGSIZE in *; lia.
    + apply free_pte.
  - cbn [negb Z.eqb Z.opp]. rewrite (bind_ok _ _ _ _ _ E3).
    destruct (uvmalloc_fail n l2 g2 s3) as (l' & g' & s' & y & E & Hi' & Hl' & Hev');
      [done|lia| |by eapply evolves_trans|].
    + rewrite Hl3. destruct Hgr as [Hgr Hrest]. split; [|done]. intros m Hm.
      destruct (Hgr m Hm) as (q & Hq & Hw & Hzq). exists q. split; [done|]. split; [done|].
      intros i Hir. rewrite <- (Hzq i Hir). rewrite <- (free_pte q Hq).
      eapply (evolves_leaf end_); [exact Hi|exact Hev3|exact Hw| |done].
      apply user_page. unfold PGSIZE in *; lia.
    + unfold va. rewrite (bind_ok _ _ _ _ _ E). exists l', g', s', 0. auto 6.
Qed.
End Grow.

Lemma uvmalloc_spec l g s r oldsz newsz xperm :
  vm_inv l g s -> tabs g !! (r, []) = Some r -> 0 <= oldsz <= newsz -> newsz <= TRAPFRAME ->
  0 <= xperm < 1024 -> (forall m, npages oldsz <= m < npages newsz -> leaves g !! (r, m) = None) ->
  (forall p, 0 <= kref g p) ->
  let perm := Z.lor (Z.lor PTE_R PTE_U) xperm in
  exists l' g' s' x, uvmalloc end_ r oldsz newsz xperm s = Ok x s' /\
    vm_inv l' g' s' /\ evolves r l g s l' g' s' /\
    ((x = newsz /\ grown r (npages oldsz) (npages newsz) perm l (leaves g) (leaves g') s') \/
     (x = 0 /\ leaves g' = leaves g)).
Proof.
  intros Hi Hr Ho Hn Hx Hf Hk perm. unfold uvmalloc. rewrite (proj2 (Z.ltb_ge _ _)) by lia.
  cbn zeta. rewrite PGROUNDUP_npages by lia.
  destruct (npages_bounds oldsz) as [Hb0 H0]; [lia|]. destruct (npages_bounds newsz) as [Hb1 H1]; [lia|].
  pose proof (npages_mono oldsz newsz ltac:(lia)) as Hm. pose proof (npages_top newsz ltac:(lia)) as Ht.
  eapply uvmalloc_loop_spec with (k := Z.to_nat (npages newsz - npages oldsz)); try done; try lia.
  - set (n := npages oldsz) in *. set (N := npages newsz) in *.
    apply Z2Nat.inj_le; [lia| |].
    + pose proof (Z.div_le_mono (- PGSIZE) (newsz - n * PGSIZE) PGSIZE ltac:(done)) as Hd.
      change (- PGSIZE / PGSIZE) with (-1) in Hd. unfold PGSIZE in *; lia.
    + pose proof (Z.div_le_mono ((N - n - 1) * PGSIZE) (newsz - n * PGSIZE) PGSIZE ltac:(done)) as Hd.
      rewrite Z.div_mul in Hd by done. unfold PGSIZE in *; lia.
  - split; [|done]. intros m Hmm. lia.
  - by apply (evolves_refl end_).
Qed.
End UserMem.
