(* ===== verification/Freewalk.v ===== *)
(** * Taking down an address space: [freewalk] and [uvmfree]

    kernel/vm.c.  [freewalk] frees the page-table pages of a root whose leaves
    are all gone; [uvmfree] drops the user pages first.  In between a table
    page is freed before its parent's entry is cleared, so the proof follows
    the tree and re-establishes the invariant at the end. *)

From S2P Require Import Prelude Riscv Mem Lock Kalloc Vm VmInv VmOps UserMem.
Import KString.
Local Open Scope Z_scope.

(** The address spaces without the tables of [r]. *)
Definition drop_root (r : Z) (g : vmabs) : vmabs :=
  mkabs (filter (fun kv => kv.1.1 <> r) (tabs g)) (leaves g) (kown g).

Section Freewalk.
Variable end_ : Z.
Hypothesis end_kernel : KERNBASE <= end_.
Abbreviation page_ok := (page_ok end_).
Abbreviation alloc_inv := (alloc_inv end_).
Abbreviation vm_inv := (vm_inv end_).

Section Tree.
Variables (r : Z) (l0 : list Z) (g0 : vmabs) (s0 : machine).
Hypothesis Hinv0 : vm_inv l0 g0 s0.
Hypothesis Hnoleaf : forall n, leaves g0 !! (r, n) = None.

(** The tables of [r] below the path [p]. *)
Definition sub (p : list Z) (q : Z) : Prop := exists sfx, tabs g0 !! (r, p ++ sfx) = Some q.

(** What a walk that freed the pages [F] leaves alone. *)
Record freed (F : Z -> Prop) (l : list Z) (s : machine) (l' : list Z) (s' : machine) : Prop := {
  fr_alloc : alloc_inv l' s';
  fr_list : forall q, q ∈ l' <-> q ∈ l \/ F q;
  fr_mem : forall q, q mod PGSIZE = 0 -> ~ F q -> same_page (mem s) (mem s') q;
  fr_cnt : forall q, page_ok q -> ~ F q -> cnt s' q = cnt s q;
  fr_locks : mlocks s' = mlocks s
}.

Lemma sub_self p a : tabs g0 !! (r, p) = Some a -> sub p a.
Proof. intros H. exists []. by rewrite app_nil_r. Qed.

Lemma sub_child p i q : sub (p ++ [i]) q -> sub p q.
Proof. intros [x H]. exists (i :: x). by rewrite <- app_assoc in H. Qed.

Lemma sub_none p q : tabs g0 !! (r, p) = None -> ~ sub p q.
Proof.
  intros H [x Hx]. revert q Hx. induction x as [|i x IH] using rev_ind; intros q Hx.
  - by rewrite app_nil_r, H in Hx.
  - rewrite app_assoc in Hx. apply (vi_path _ _ _ _ Hinv0) in Hx as (_ & _ & [b Hb]). by apply (IH b).
Qed.

(** A page is at one place of the tree. *)
Lemma sub_disjoint p i j q : sub (p ++ [i]) q -> sub (p ++ [j]) q -> i = j.
Proof.
  intros [x Hx] [y Hy]. pose proof (vi_inj _ _ _ _ Hinv0 _ _ _ Hx Hy) as [= E].
  rewrite <- !app_assoc in E. apply app_inv_head in E. by injection E.
Qed.

Lemma sub_above p i a : tabs g0 !! (r, p) = Some a -> ~ sub (p ++ [i]) a.
Proof.
  intros Ha [x Hx]. pose proof (vi_inj _ _ _ _ Hinv0 _ _ _ Ha Hx) as [= E].
  apply (f_equal length) in E. rewrite !length_app in E. cbn in E. lia.
Qed.

Lemma sub_cases p a q : tabs g0 !! (r, p) = Some a -> sub p q ->
  q = a \/ exists i, 0 <= i < 512 /\ sub (p ++ [i]) q.
Proof.
  intros Ha [[|i x] Hx]; [left|right].
  - rewrite app_nil_r in Hx. congruence.
  - exists i. assert (sub (p ++ [i]) q) as Hs by (exists x; by rewrite <- app_assoc).
    split; [|done]. destruct (tabs g0 !! (r, p ++ [i])) as [c|] eqn:Hc; [|by apply (sub_none _ q) in Hc].
    by apply (vi_path _ _ _ _ Hinv0) in Hc as (? & _).
Qed.

Lemma sub_page p q : sub p q -> page_ok q /\ cnt s0 q = 1.
Proof. intros [x Hx]. by destruct (vi_tab _ _ _ _ Hinv0 _ _ Hx) as (? & ? & _). Qed.

(** The loop invariant of [freewalk] at the table [a] of path [p]. *)
Record walking (p : list Z) (a : Z) (l : list Z) (s : machine) (i : Z) (s' : machine) : Prop := {
  wk_done : exists l', alloc_inv l' s' /\
    (forall q, q ∈ l' <-> q ∈ l \/ exists j, 0 <= j < i /\ sub (p ++ [j]) q);
  wk_mem : forall q, q mod PGSIZE = 0 -> q <> a -> ~ (exists j, 0 <= j < i /\ sub (p ++ [j]) q) ->
    same_page (mem s) (mem s') q;
  wk_ent : forall j, i <= j < 512 -> ent s' a j = ent s a j;
  wk_cnt : forall q, page_ok q -> ~ (exists j, 0 <= j < i /\ sub (p ++ [j]) q) -> cnt s' q = cnt s q;
  wk_locks : mlocks s' = mlocks s
}.

Definition intact (p : list Z) (s : machine) : Prop :=
  forall q, sub p q -> same_page (mem s0) (mem s) q /\ cnt s q = 1.

Lemma path_length p a : tabs g0 !! (r, p) = Some a -> (length p <= 2)%nat.
Proof.
  destruct p as [|i p _] using rev_ind; [cbn; lia|]. intros H.
  apply (vi_path _ _ _ _ Hinv0) in H as (_ & H & _). rewrite length_app. cbn. lia.
Qed.

Lemma tree_entry p a i : tabs g0 !! (r, p) = Some a -> 0 <= i < 512 ->
  let e := ent s0 a i in
  (hasbit e PTE_V = true /\ Z.land e (Z.lor (Z.lor PTE_R PTE_W) PTE_X) = 0 /\
   tabs g0 !! (r, p ++ [i]) = Some (PTE2PA e)) \/
  (hasbit e PTE_V = false /\ tabs g0 !! (r, p ++ [i]) = None).
Proof.
  intros Ha Hr e. destruct (decide (length p < 2)%nat) as [Hl|Hl].
  - destruct (vi_inner _ _ _ _ Hinv0 r p a i Ha Hl Hr) as [E R]. fold e in E, R.
    destruct (hasbit e PTE_V); [left|right]; auto.
  - right. split.
    + pose proof (path_length p a Ha). destruct p as [|i2 [|i1 [|]]]; cbn in *; try lia.
      pose proof (vi_leaf _ _ _ _ Hinv0 r i2 i1 i a Ha Hr) as E. rewrite Hnoleaf in E. fold e in E.
      by destruct (hasbit e PTE_V).
    + destruct (tabs g0 !! (r, p ++ [i])) eqn:E; [|done].
      apply (vi_path _ _ _ _ Hinv0) in E as (_ & ? & _). lia.
Qed.

Lemma walking_skip p a l s i s' : walking p a l s i s' -> (forall q, ~ sub (p ++ [i]) q) -> 0 <= i ->
  walking p a l s (i + 1) s'.
Proof.
  intros [[l' [Ha Hl]] M E C K] Hno Hi.
  assert (forall q, (exists j, 0 <= j < i + 1 /\ sub (p ++ [j]) q) <-> exists j, 0 <= j < i /\ sub (p ++ [j]) q) as Hex.
  { intros q. split; intros (j & Hj & Hs); exists j; split; try done; [|lia].
    destruct (decide (j = i)) as [->|]; [by apply Hno in Hs|lia]. }
  constructor; try done.
  - exists l'. split; [done|]. intros q. by rewrite Hl, Hex.
  - intros q. rewrite Hex. apply M.
  - intros j Hj. apply E. lia.
  - intros q. rewrite Hex. apply C.
Qed.

(** The subtree below entry [i] freed, then the entry cleared. *)
Lemma walking_step p a l s i s1 l1 l2 s2 :
  tabs g0 !! (r, p) = Some a -> 0 <= i < 512 -> a ∉ l -> walking p a l s i s1 ->
  alloc_inv l1 s1 -> (forall q, q ∈ l1 <-> q ∈ l \/ exists j, 0 <= j < i /\ sub (p ++ [j]) q) ->
  freed (sub (p ++ [i])) l1 s1 l2 s2 ->
  walking p a l s (i + 1) (set_mem (fun m => st64 m (a + 8 * i) 0) s2).
Proof.
  intros Hp Hi Hal [_ M E C K] Ha1 Hl1 [A2 L2 M2 C2 K2].
  destruct (vi_tab _ _ _ _ Hinv0 _ _ Hp) as (Hpa & _).
  assert (forall q, (exists j, 0 <= j < i + 1 /\ sub (p ++ [j]) q) <->
    (exists j, 0 <= j < i /\ sub (p ++ [j]) q) \/ sub (p ++ [i]) q) as Hex.
  { intros q. split.
    - intros (j & Hj & Hs). destruct (decide (j = i)) as [->|]; [by right|left]. exists j. split; [lia|done].
    - intros [(j & Hj & Hs)|Hs]; [exists j|exists i]; split; try done; lia. }
  assert (forall j, ~ sub (p ++ [j]) a) as Hna by (intros j; by apply sub_above).
  assert (a ∉ l2) as Hal2.
  { rewrite L2, Hl1. intros [[?|(j & _ & ?)]|?]; [done|by eapply Hna..]. }
  constructor.
  - exists l2. split.
    + apply alloc_inv_mem; [done|]. intros q Hq.
      pose proof (proj1 (Forall_forall _ _) (ai_pages _ _ _ A2) q Hq) as Hqo.
      apply same_page_st64; [apply Hpa|apply Hqo| |lia..]. by intros ->.
    + intros q. rewrite L2, Hl1, Hex. tauto.
  - intros q Hq Hqa Hns. rewrite Hex in Hns. apply Decidable.not_or in Hns as [N1 N2].
    eapply same_page_trans; [by apply M|]. eapply same_page_trans; [by apply M2|].
    apply same_page_st64; [apply Hpa|done|congruence|lia..].
  - intros j Hj. rewrite <- E by lia. unfold ent. cbn. rewrite ld64_st64_other by lia.
    apply ld64_same_page; [|lia..]. apply M2; [apply Hpa|apply Hna].
  - intros q Hq Hns. rewrite Hex in Hns. apply Decidable.not_or in Hns as [N1 N2].
    rewrite cnt_set_mem, C2 by done. by apply C.
  - cbn. congruence.
Qed.

(** One entry, given that the recursive call frees the subtree below it. *)
Lemma freewalk_entry f p a l s i s' :
  tabs g0 !! (r, p) = Some a -> intact p s -> a ∉ l -> 0 <= i < 512 -> walking p a l s i s' ->
  (forall c l1 s1, tabs g0 !! (r, p ++ [i]) = Some c -> alloc_inv l1 s1 -> intact (p ++ [i]) s1 ->
     wp (freewalk end_ f c) (fun _ s2 => exists l2, freed (sub (p ++ [i])) l1 s1 l2 s2) s1) ->
  wp (do! pte <- load64 (a + 8 * i);
      if hasbit pte PTE_V && (Z.land pte (Z.lor (Z.lor PTE_R PTE_W) PTE_X) =? 0)
      then freewalk end_ f (PTE2PA pte) ;; store64 (a + 8 * i) 0
      else if hasbit pte PTE_V then panic "freewalk: leaf" else ret tt)
     (fun _ => walking p a l s (i + 1)) s'.
Proof.
  intros Ha Hint Hal Hi Hwk IH. apply wp_bind, wp_gets.
  change (ld64 (mem s') (a + 8 * i)) with (ent s' a i).
  assert (ent s' a i = ent s0 a i) as ->.
  { rewrite (wk_ent _ _ _ _ _ _ Hwk) by lia. apply ent_same; [|done].
    by apply Hint, sub_self. }
  destruct (tree_entry p a i Ha Hi) as [(HV & HR & Hc)|(HV & Hc)]; rewrite HV.
  - rewrite HR. cbn [andb Z.eqb]. destruct (wk_done _ _ _ _ _ _ Hwk) as (l1 & Ha1 & Hl1).
    apply wp_bind. eapply wp_mono; [apply (IH _ l1 s' Hc Ha1)|].
    + intros q Hq. destruct (Hint q (sub_child _ _ _ Hq)) as [Hm Hcn].
      assert (~ exists j, 0 <= j < i /\ sub (p ++ [j]) q) as Hn.
      { intros (j & Hj & Hs). pose proof (sub_disjoint _ _ _ _ Hq Hs). lia. }
      destruct (sub_page _ _ Hq) as [Hqo _]. split.
      * eapply same_page_trans; [exact Hm|]. apply (wk_mem _ _ _ _ _ _ Hwk); [apply Hqo| |done].
        intros ->. by apply (sub_above p i a Ha).
      * by rewrite (wk_cnt _ _ _ _ _ _ Hwk).
    + intros [] s2 (l2 & Hfr). by eapply wp_modify, walking_step.
  - cbn [andb]. apply wp_ret. apply walking_skip; [done| |lia]. intros q. by apply sub_none.
Qed.

Lemma freewalk_node f p a l s :
  tabs g0 !! (r, p) = Some a -> alloc_inv l s -> intact p s ->
  (forall i c l1 s1, tabs g0 !! (r, p ++ [i]) = Some c -> alloc_inv l1 s1 -> intact (p ++ [i]) s1 ->
     wp (freewalk end_ f c) (fun _ s2 => exists l2, freed (sub (p ++ [i])) l1 s1 l2 s2) s1) ->
  wp (freewalk end_ (S f) a) (fun _ s' => exists l', freed (sub p) l s l' s') s.
Proof.
  intros Ha Hal Hint IH. destruct (vi_tab _ _ _ _ Hinv0 _ _ Ha) as (Hpa & _).
  destruct (Hint a (sub_self _ _ Ha)) as [_ Hca].
  assert (a ∉ l) as Hnl by (intros H; apply (ai_zero _ _ _ Hal a Hpa) in H; lia).
  cbn [freewalk]. apply wp_bind. eapply wp_mono.
  { apply (wp_forz (walking p a l s)).
    - constructor; try done. exists l. split; [done|]. intros q. split; [by left|].
      intros [?|(j & ? & _)]; [done|lia].
    - intros j s' Hj Hwk. apply freewalk_entry; try done. apply IH. }
  intros [] s1 [[l1 [A1 L1]] M E C K]. change (0 + Z.of_nat 512) with 512 in *.
  assert (forall q, q = a \/ (exists j, 0 <= j < 512 /\ sub (p ++ [j]) q) <-> sub p q) as Hsub.
  { intros q. split.
    - intros [->|(j & _ & Hs)]; [by apply sub_self|by apply sub_child in Hs].
    - by apply sub_cases. }
  assert (cnt s1 a = 1) as Hc1.
  { rewrite C; [done..|]. intros (j & _ & Hs). by apply (sub_above _ _ _ Ha) in Hs. }
  pose proof (kfree_last end_ end_kernel a s1 (ai_cow _ _ _ A1) (ai_kmem _ _ _ A1) Hpa Hc1) as Ek.
  pose proof (kfree_last_inv end_ end_kernel a l1 s1 _ A1 Hpa Hc1 Ek) as A2.
  eapply wp_of_ok; [exact Ek|]. exists (a :: l1). constructor; [exact A2|..].
  - intros q. rewrite elem_of_cons, L1, <- Hsub. tauto.
  - intros q Hq Hns. rewrite <- Hsub in Hns. apply Decidable.not_or in Hns as [N1 N2].
    eapply same_page_trans; [by apply M|]. cbn.
    eapply same_page_trans; [apply (same_page_memset _ a); [apply Hpa|done|congruence]|].
    apply same_page_st64_head; [apply Hpa|done|congruence].
  - intros q Hq Hns. rewrite <- Hsub in Hns. apply Decidable.not_or in Hns as [N1 N2].
    rewrite cnt_insert with (end_ := end_) by done. rewrite decide_False by done. by apply C.
  - done.
Qed.

Lemma freewalk_spec d : forall p a l s, (length p + d = 2)%nat -> tabs g0 !! (r, p) = Some a ->
  alloc_inv l s -> intact p s ->
  wp (freewalk end_ (S d) a) (fun _ s' => exists l', freed (sub p) l s l' s') s.
Proof.
  induction d as [|d IH]; intros p a l s Hlen Ha Hal Hint; apply freewalk_node; try done;
    intros i c l1 s1 Hc A1 I1.
  - apply (vi_path _ _ _ _ Hinv0) in Hc as (_ & ? & _). lia.
  - apply IH; try done. rewrite length_app. cbn. lia.
Qed.
End Tree.

(** ** The whole tree *)
Lemma tabs_drop g r k : tabs (drop_root r g) !! k = if decide (k.1 = r) then None else tabs g !! k.
Proof.
  unfold drop_root. cbn. destruct k as [r' p]. cbn. destruct (decide (r' = r)) as [->|Hne].
  - apply map_lookup_filter_None. right. intros a _ H. by apply H.
  - destruct (tabs g !! (r', p)) as [a|] eqn:E.
    + by apply map_lookup_filter_Some.
    + apply map_lookup_filter_None. by left.
Qed.

Lemma drop_root_inv l g s r l' s' : vm_inv l g s -> (forall n, leaves g !! (r, n) = None) ->
  freed (sub r g []) l s l' s' -> vm_inv l' (drop_root r g) s'.
Proof.
  intros Hi Hno [A L M C K].
  assert (forall k a, tabs (drop_root r g) !! k = Some a -> tabs g !! k = Some a /\ k.1 <> r /\ ~ sub r g [] a)
    as Hkeep.
  { intros k a Hk. rewrite tabs_drop in Hk. destruct (decide (k.1 = r)) as [|Hne]; [done|].
    split; [done|]. split; [done|]. intros [p Hp].
    pose proof (vi_inj _ _ _ _ Hi _ _ _ Hk Hp) as ->. by apply Hne. }
  assert (forall k a i, tabs (drop_root r g) !! k = Some a -> 0 <= i < 512 -> ent s' a i = ent s a i) as He.
  { intros k a i Hk Hri. destruct (Hkeep k a Hk) as (Hk' & _ & Hns).
    destruct (vi_tab _ _ _ _ Hi _ _ Hk') as (Hpa & _). apply ent_same; [|done]. apply M; [apply Hpa|done]. }
  assert (forall k, k.1 <> r -> tabs (drop_root r g) !! k = tabs g !! k) as Hother.
  { intros k Hk. rewrite tabs_drop. by rewrite decide_False. }
  assert (forall p, ~ is_tab g p -> ~ is_tab (drop_root r g) p) as Hnt.
  { intros p Hp [k Hk]. apply Hkeep in Hk as [Hk _]. apply Hp. by exists k. }
  constructor.
  - exact A.
  - intros r' p a Hk. destruct (Hkeep _ _ Hk) as (Hk' & Hne & _). cbn in Hne.
    rewrite Hother by done. by eapply (vi_root _ _ _ _ Hi).
  - intros r' p i a Hk. destruct (Hkeep _ _ Hk) as (Hk' & Hne & _). cbn in Hne.
    rewrite Hother by done. by eapply (vi_path _ _ _ _ Hi).
  - intros k a Hk. destruct (Hkeep _ _ Hk) as (Hk' & _ & Hns).
    destruct (vi_tab _ _ _ _ Hi _ _ Hk') as (Hpa & Hca & Hka). split; [done|]. split; [|done].
    by rewrite C.
  - intros k k' a Hk Hk'. apply Hkeep in Hk as [Hk _]. apply Hkeep in Hk' as [Hk' _].
    by eapply (vi_inj _ _ _ _ Hi).
  - intros r' p a i Hk Hl Hri. rewrite (He _ _ _ Hk Hri). destruct (Hkeep _ _ Hk) as (Hk' & Hne & _).
    cbn in Hne. rewrite Hother by done. by apply (vi_inner _ _ _ _ Hi).
  - intros r' i2 i1 i0 a Hk Hri. rewrite (He _ _ _ Hk Hri). destruct (Hkeep _ _ Hk) as (Hk' & _).
    by apply (vi_leaf _ _ _ _ Hi).
  - intros r' n w Hw. cbn in Hw. assert (r' <> r) as Hne by (intros ->; by rewrite Hno in Hw).
    rewrite Hother by done. by eapply (vi_leafdom _ _ _ _ Hi).
  - intros r' n w Hw. cbn in Hw. destruct (vi_leafok _ _ _ _ Hi _ _ _ Hw) as [Hf Hok]. split; [done|].
    intros Hu. destruct (Hok Hu) as (Hpo & Hpc & Hpt). split; [done|]. split; [|by apply Hnt].
    rewrite C; [done..|]. intros [p Hp]. apply Hpt. by exists (r, p).
  - apply Hi.
  - apply Hi.
  - intros p Hp Hpt. change (cnt s' p = leafref g p + kref g p).
    destruct (decide (p ∈ l')) as [Hin|Hin].
    + rewrite (proj2 (ai_zero _ _ _ A p Hp) Hin). apply L in Hin as [Hin|[q Hq]].
      * destruct (free_page _ _ _ _ p Hi Hin) as (_ & _ & _ & -> & ->). done.
      * destruct (vi_tab _ _ _ _ Hi _ _ Hq) as (_ & _ & ->).
        destruct (decide (leafref g p = 0)) as [->|Hlr]; [done|exfalso].
        destruct (leafref_witness g p Hlr) as (r' & n & w & Hw & Hu & <-).
        destruct (vi_leafok _ _ _ _ Hi _ _ _ Hw) as [_ Hok]. destruct (Hok Hu) as (_ & _ & Ht).
        apply Ht. by exists (r, q).
    + assert (~ sub r g [] p) as Hns by (intros Hs; apply Hin, L; by right).
      rewrite C by done. apply (vi_cnt _ _ _ _ Hi); [done|]. intros [[r' q] Hk].
      destruct (decide (r' = r)) as [->|Hne]; [apply Hns; by exists q|].
      apply Hpt. exists (r', q). by rewrite Hother.
Qed.
Lemma freewalk_inv l g s r : vm_inv l g s -> tabs g !! (r, []) = Some r ->
  (forall n, leaves g !! (r, n) = None) ->
  exists l' s', freewalk end_ 3 r s = Ok tt s' /\ vm_inv l' (drop_root r g) s' /\
    (forall q, q ∈ l' <-> q ∈ l \/ exists p, tabs g !! (r, p) = Some q) /\
    (forall q, q mod PGSIZE = 0 -> ~ is_tab g q -> same_page (mem s) (mem s') q) /\
    mlocks s' = mlocks s.
Proof.
  intros Hi Hr Hno.
  destruct (wp_ok _ _ _ (freewalk_spec r l g s Hi Hno 2 [] r l s eq_refl Hr (vi_alloc _ _ _ _ Hi) ltac:(
    intros q Hq; split; [done|by apply (sub_page r l g s Hi [])])))
    as ([] & s' & E & l' & Hfr).
  exists l', s'. split; [exact E|]. split; [by eapply drop_root_inv|].
  destruct Hfr as [A L M C K]. split; [done|]. split; [|done].
  intros q Hq Hnt. apply M; [done|]. intros [p Hp]. apply Hnt. by exists (r, p).
Qed.

(** ** uvmfree *)
Lemma uvmfree_spec l g s r sz : vm_inv l g s -> tabs g !! (r, []) = Some r -> 0 <= sz <= TRAPFRAME ->
  (forall m, 0 <= m < npages sz -> is_Some (leaves g !! (r, m))) ->
  (forall m, npages sz <= m -> leaves g !! (r, m) = None) -> (forall p, 0 <= kref g p) ->
  exists l' g' s', uvmfree end_ r sz s = Ok tt s' /\ vm_inv l' g' s' /\
    (forall k, tabs g' !! k = if decide (k.1 = r) then None else tabs g !! k) /\
    (forall r' m, leaves g' !! (r', m) = if decide (r' = r) then None else leaves g !! (r', m)) /\
    (forall p, kref g' p = kref g p) /\
    (forall q, q mod PGSIZE = 0 -> q ∉ l' -> ~ is_tab g q -> same_page (mem s) (mem s') q).
Proof.
  intros Hi Hr Hsz Hm Hn Hk. destruct (npages_bounds sz) as [Hb H0]; [lia|].
  assert (exists l1 g1 s1, (if 0 <? sz then uvmunmap end_ r 0 (PGROUNDUP sz / PGSIZE) true else ret tt) s
    = Ok tt s1 /\ vm_inv l1 g1 s1 /\ leaves g1 = del_range (Z.to_nat (npages sz)) r 0 (leaves g) /\
    shrinks end_ l g s l1 g1 s1) as (l1 & g1 & s1 & E1 & Hi1 & Hl1 & Hs1).
  { destruct (Z.ltb_spec 0 sz) as [Hpos|Hz].
    - rewrite PGROUNDUP_npages, Z.div_mul by (done || lia).
      apply (uvmunmap_free _ end_kernel l g s r 0); try done. by apply npages_top.
    - assert (sz = 0) as -> by lia. exists l, g, s. split; [done|]. split; [done|].
      split; [done|]. by apply shrinks_refl. }
  assert (forall r' m, leaves g1 !! (r', m) = if decide (r' = r) then None else leaves g !! (r', m)) as Hlv.
  { intros r' m. rewrite Hl1, del_range_lookup, Z2Nat.id by lia.
    destruct (decide (r' = r)) as [->|Hne]; [|by rewrite decide_False by naive_solver].
    destruct (decide (r = r /\ 0 <= m < 0 + npages sz)) as [|Hout]; [done|].
    destruct (decide (npages sz <= m)); [by apply Hn|].
    destruct (leaves g !! (r, m)) eqn:E; [|done]. apply (vi_leafdom _ _ _ _ Hi) in E as [? _]. lia. }
  destruct (freewalk_inv l1 g1 s1 r) as (l' & s' & E & Hi' & L & M & K); [done| | |].
  { by rewrite (sh_tabs _ _ _ _ _ _ _ Hs1). }
  { intros n. by rewrite Hlv, decide_True. }
  exists l', (drop_root r g1), s'. unfold uvmfree. rewrite (bind_ok _ _ _ _ _ E1). split; [done|].
  split; [done|]. split; [|split; [done|split]].
  - intros k. rewrite tabs_drop. by rewrite (sh_tabs _ _ _ _ _ _ _ Hs1).
  - apply (sh_kref _ _ _ _ _ _ _ Hs1).
  - intros q Hq Hql Hqt. assert (~ is_tab g1 q) as Hqt1.
    { unfold is_tab. by rewrite (sh_tabs _ _ _ _ _ _ _ Hs1). }
    eapply same_page_trans; [|by apply M]. apply (sh_mem _ _ _ _ _ _ _ Hs1); [done| |done].
    intros Hq1. apply Hql, L. by left.
Qed.
End Freewalk.
