(* ===== verification/UserView.v ===== *)
(** * What a process sees of its memory

    [uview g s r va] is the byte at the user address [va] of the address space
    with root [r].  Sharing pages copy-on-write (fork), breaking the sharing
    (the page-fault handler) and freeing other address spaces leave every
    process's view unchanged. *)

From S2P Require Import Prelude Riscv Mem Lock Kalloc Vm VmInv VmOps Cow Uvmcopy UserMem Freewalk.
Import KString.
Local Open Scope Z_scope.

Definition uview (g : vmabs) (s : machine) (r va : Z) : option Z :=
  match leaves g !! (r, vpn va) with
  | Some w => Some (ld8 (mem s) (PTE2PA w + va mod PGSIZE))
  | None => None
  end.

(** The process may write the page of [va] without a fault. *)
Definition writable (g : vmabs) (r va : Z) : Prop :=
  exists w, leaves g !! (r, vpn va) = Some w /\ hasbit w PTE_U = true /\ hasbit w PTE_W = true.

Lemma uview_same g s g' s' r r' va :
  (forall w, leaves g !! (r, vpn va) = Some w ->
     (exists w', leaves g' !! (r', vpn va) = Some w' /\ PTE2PA w' = PTE2PA w) /\
     same_page (mem s) (mem s') (PTE2PA w)) ->
  (leaves g !! (r, vpn va) = None -> leaves g' !! (r', vpn va) = None) ->
  uview g' s' r' va = uview g s r va.
Proof.
  intros Hs Hn. unfold uview. destruct (leaves g !! (r, vpn va)) as [w|].
  - destruct (Hs w eq_refl) as [(w' & -> & ->) Hm]. f_equal. apply Hm.
    apply Z.mod_pos_bound. done.
  - by rewrite Hn.
Qed.

Section View.
Variable end_ : Z.
Hypothesis end_kernel : KERNBASE <= end_.
Abbreviation vm_inv := (vm_inv end_).

Lemma cow_done_view r n w m l g s l' g' s' r' va :
  vm_inv (m :: l) g s -> vm_inv l' g' s' -> cow_done r n w m l g s l' g' s' -> user_vpn (vpn va) ->
  leaves g !! (r, n) = Some w -> user_vpn n ->
  uview g' s' r' va = uview g s r' va.
Proof.
  intros Hi Hi' [F T L K C M O] Hu Hw Hun.
  destruct (free_page _ _ _ _ m Hi) as (Hm & _); [set_solver|].
  pose proof (page_ok_range _ end_kernel _ Hm) as Hmr.
  destruct (decide ((r', vpn va) = (r, n))) as [[= -> Ev]|Hne].
  - unfold uview. rewrite Ev, L, lookup_insert_eq, Hw. f_equal.
    destruct (cow_pte_facts w m) as (_ & -> & _); [layout; lia|apply Hm|].
    apply C, Z.mod_pos_bound. done.
  - apply uview_same.
    + intros v Hv. assert (leaves g' !! (r', vpn va) = Some v) as Hv' by (rewrite L, lookup_insert_ne; done).
      split; [by exists v|]. destruct (vi_leafok _ _ _ _ Hi _ _ _ Hv) as [_ Hok].
      destruct (Hok Hu) as (Hpo & _ & Hpt). apply M; [apply Hpo| |by eapply (leaf_not_free end_)|done].
      intros E. apply (leaf_not_free end_ _ _ _ _ _ _ Hi Hv Hu). rewrite E. left.
    + intros Hv. by rewrite L, lookup_insert_ne.
Qed.

Lemma shared_view l g s old new N l' g' s' va :
  vm_inv l g s -> vm_inv l' g' s' -> evolves new l g s l' g' s' -> old <> new ->
  N * PGSIZE <= TRAPFRAME ->
  shared old new 0 N (leaves g) (leaves g') -> user_vpn (vpn va) ->
  (0 <= vpn va < N -> uview g' s' new va = uview g s old va) /\
  (forall r, r <> new \/ ~ (0 <= vpn va < N) -> uview g' s' r va = uview g s r va).
Proof.
  intros Hi Hi' Hev Hne Htop Hsh Hu. split.
  - intros Hr. apply uview_same.
    + intros w Hw. split; [|by eapply (evolves_leaf end_)].
      exists (child_pte w). rewrite Hsh, decide_True, decide_False, decide_True, Hw by (done || lia).
      split; [done|]. destruct (vi_leafok _ _ _ _ Hi _ _ _ Hw) as [_ Hok]. destruct (Hok Hu) as (Hpo & _).
      pose proof (page_ok_range _ end_kernel _ Hpo).
      unfold child_pte. apply pte_of_facts; [layout; lia|apply Hpo|apply PTE_FLAGS_range].
    + intros Hw. rewrite Hsh, decide_True, decide_False, decide_True, Hw by (done || lia). done.
  - intros r Hr. apply uview_same.
    + intros w Hw. split; [|by eapply (evolves_leaf end_)]. rewrite Hsh.
      destruct (decide (0 <= vpn va < 0 + N)) as [Hin|]; [|by exists w].
      destruct (decide (r = old)) as [->|].
      * exists (share_pte w). rewrite Hw. split; [done|apply share_pte_pa].
      * rewrite decide_False by (destruct Hr; [done|lia]). by exists w.
    + intros Hw. rewrite Hsh. destruct (decide (0 <= vpn va < 0 + N)) as [Hin|]; [|done].
      destruct (decide (r = old)) as [->|]; [by rewrite Hw|].
      by rewrite decide_False by (destruct Hr; [done|lia]).
Qed.

Lemma rolled_view l g s old new N l' g' s' r va :
  vm_inv l g s -> evolves new l g s l' g' s' -> 
  rolled old new N (leaves g) (leaves g') -> (forall m, 0 <= m < N -> leaves g !! (new, m) = None) ->
  user_vpn (vpn va) -> 0 <= va -> uview g' s' r va = uview g s r va.
Proof.
  intros Hi Hev (Ho & Hc & Hr) Hf Hu H0. assert (0 <= vpn va) by (apply Z.div_pos; done).
  apply uview_same.
  - intros w Hw. split; [|by eapply (evolves_leaf end_)]. destruct (decide (r = old)) as [->|Hro].
    + destruct (Ho (vpn va)) as [-> | ->]; rewrite Hw; [by exists w|].
      exists (share_pte w). split; [done|apply share_pte_pa].
    + exists w. split; [|done]. rewrite Hr; [done..|].
      destruct (decide (r = new)) as [->|]; [right|by left].
      destruct (decide (vpn va < N)); [by rewrite Hf in Hw by lia|lia].
  - intros Hw. destruct (decide (r = old)) as [->|Hro].
    + destruct (Ho (vpn va)) as [-> | ->]; by rewrite Hw.
    + destruct (decide (r = new /\ vpn va < N)) as [[-> ?]|Hx]; [apply Hc; lia|].
      rewrite Hr; [done..|]. destruct (decide (r = new)); [right|by left]. lia.
Qed.
End View.
