(* ===== verification/Copy.v ===== *)
(** * Copying between kernel and user memory

    kernel/vm.c [walkaddr], [copyin], [copyinstr] and [copyout].  The kernel
    side is a buffer apart from the page tables, the free pages and every
    page an address space maps; the user side is described by the view of
    [UserView.v]. *)

From S2P Require Import Prelude Riscv Mem Lock Kalloc Vm VmInv VmOps Cow Uvmcopy UserView.
Import KString.
Local Open Scope Z_scope.

(** The physical page [walkaddr] finds; 0 when the user may not touch [va]. *)
Definition uaddr (g : vmabs) (r va : Z) : Z :=
  if MAXVA <=? va then 0
  else match leaves g !! (r, vpn va) with
       | Some w => if hasbit w PTE_U then PTE2PA w else 0
       | None => 0
       end.

(** Pages the kernel manages for others: free, tables, or mapped. *)
Definition managed (l : list Z) (g : vmabs) (q : Z) : Prop :=
  q ∈ l \/ is_tab g q \/ 1 <= leafref g q.

(** The bytes [d .. d+n-1] belong to no table, free page or mapped page. *)
Definition kbuf (l : list Z) (g : vmabs) (d n : Z) : Prop :=
  forall q, managed l g q -> d + n <= q \/ q + PGSIZE <= d.

Lemma kbuf_sub l g d n d' n' : kbuf l g d n -> d <= d' -> d' + n' <= d + n -> kbuf l g d' n'.
Proof. intros H H1 H2 q Hq. destruct (H q Hq); lia. Qed.

(** Addresses of one page. *)
Lemma vpn_same va i : 0 <= i -> va mod PGSIZE + i < PGSIZE -> vpn (va + i) = vpn va /\
  (va + i) mod PGSIZE = va mod PGSIZE + i.
Proof.
  intros H0 H1. unfold vpn. pose proof (Z.div_mod va PGSIZE ltac:(done)) as E.
  pose proof (Z.mod_pos_bound va PGSIZE ltac:(done)).
  assert (va + i = PGSIZE * (va / PGSIZE) + (va mod PGSIZE + i)) as E' by lia. split.
  - symmetry. eapply Z.div_unique; [|exact E']. left. lia.
  - symmetry. eapply Z.mod_unique; [|exact E']. left. lia.
Qed.

Lemma pg_mod va : 0 <= va < 2 ^ 64 -> va - PGROUNDDOWN va = va mod PGSIZE.
Proof.
  intros H. rewrite PGROUNDDOWN_pg by done. unfold pg.
  pose proof (Z.div_mod va PGSIZE ltac:(done)). unfold PGSIZE in *. lia.
Qed.

Section Copy.
Variable end_ : Z.
Hypothesis end_kernel : KERNBASE <= end_.
Abbreviation vm_inv := (vm_inv end_).

Lemma walkaddr_eq l g s r va : vm_inv l g s -> tabs g !! (r, []) = Some r -> 0 <= va ->
  walkaddr r va s = Ok (uaddr g r va) s.
Proof.
  intros Hi Hr Hva. unfold walkaddr, uaddr. destruct (Z.leb_spec MAXVA va) as [|Hm]; [done|].
  rewrite (bind_ok _ _ _ _ _ (walk_ro _ _ _ _ r va Hi Hr ltac:(lia))).
  destruct (tabs g !! (r, upath va)) as [a|] eqn:Ha; last first.
  { rewrite (leaf_none _ _ _ _ r va Hi ltac:(lia) Ha). unfold slot. by rewrite Ha. }
  destruct (slot_nonzero _ end_kernel _ _ _ r va a Hi Ha) as [Es Hnz].
  rewrite (proj2 (Z.eqb_neq _ 0)) by done. rewrite Es.
  rewrite (bind_ok _ _ s (ent s a (PX 0 va)) s) by done.
  rewrite (leaf_at _ _ _ _ r va a Hi ltac:(lia) Ha).
  destruct (hasbit (ent s a (PX 0 va)) PTE_V); [|done]. cbn [negb].
  by destruct (hasbit (ent s a (PX 0 va)) PTE_U).
Qed.

Lemma uaddr_leaf l g s r va : vm_inv l g s -> uaddr g r va <> 0 ->
  exists w, leaves g !! (r, vpn va) = Some w /\ hasbit w PTE_U = true /\ uaddr g r va = PTE2PA w /\
    user_vpn (vpn va) /\ page_ok end_ (PTE2PA w) /\ ~ is_tab g (PTE2PA w) /\ va < MAXVA.
Proof.
  intros Hi. unfold uaddr. destruct (Z.leb_spec MAXVA va) as [|Hm]; [done|].
  destruct (leaves g !! (r, vpn va)) as [w|] eqn:Hw; [|done].
  destruct (hasbit w PTE_U) eqn:HU; [|done]. intros _. exists w.
  destruct (vi_leafok _ _ _ _ Hi _ _ _ Hw) as [[_ Hu] Hok]. destruct (Hok (Hu HU)) as (Hp & _ & Ht).
  repeat split; try done; try apply Hp. by apply Hu.
Qed.

(** Writes into a kernel buffer. *)
Lemma kbuf_page l g d n q m f : kbuf l g d n -> managed l g q ->
  (forall x, inrange d n x = false -> ld8 (f m) x = ld8 m x) -> same_page m (f m) q.
Proof.
  intros Hk Hq Hf i Hi. apply Hf. apply inrange_false. destruct (Hk q Hq); unfold PGSIZE in *; lia.
Qed.

Lemma kbuf_write l g s d n f : vm_inv l g s -> kbuf l g d n ->
  (forall x, inrange d n x = false -> ld8 (f (mem s)) x = ld8 (mem s) x) ->
  vm_inv l g (set_mem f s).
Proof.
  intros Hi Hk Hf. apply inv_mem with (s := s); [done| | |done].
  - apply alloc_inv_mem; [apply Hi|]. intros p Hp. eapply kbuf_page; [done|by left|done].
  - intros a Ha. cbn. eapply kbuf_page; [done|by right; left|done].
Qed.

Lemma kbuf_view l g s d n f r va : vm_inv l g s -> kbuf l g d n ->
  (forall x, inrange d n x = false -> ld8 (f (mem s)) x = ld8 (mem s) x) ->
  user_vpn (vpn va) -> uview g (set_mem f s) r va = uview g s r va.
Proof.
  intros Hi Hk Hf Hu. apply uview_same; [|done]. intros w Hw. split; [by exists w|].
  eapply kbuf_page; [done| |done]. right; right. by eapply leafref_pos.
Qed.

Lemma memmove_outside m d src n x : 0 <= n -> inrange d n x = false ->
  ld8 (memmove m d src n) x = ld8 m x.
Proof. intros Hn Hx. rewrite memmove_spec by done. by rewrite Hx. Qed.

(** Memory below the first allocatable page is a kernel buffer. *)
Lemma low_kbuf l g s d n : vm_inv l g s -> d + n <= end_ -> kbuf l g d n.
Proof.
  intros Hi Hd q Hq. left. assert (page_ok end_ q) as (_ & ? & _); [|lia].
  destruct Hq as [Hq|[[k Hk]|Hq]].
  - by destruct (free_page _ _ _ _ q Hi Hq).
  - by destruct (vi_tab _ _ _ _ Hi k q Hk).
  - destruct (leafref_witness g q ltac:(lia)) as (r & m & w & Hw & Hu & <-).
    destruct (vi_leafok _ _ _ _ Hi _ _ _ Hw) as [_ Hok]. by destruct (Hok Hu).
Qed.

(** The part of the transfer that stays in the page of [va]. *)
Definition chunk (va len : Z) : Z := Z.min len (PGSIZE - va mod PGSIZE).

(** ** copyin *)

(** What [copyin] achieved: [k] bytes were copied from the user's view, the
    rest of memory is as before, and it stopped early only at an address the
    user may not read. *)
Record copied_in (g : vmabs) (r dst srcva len : Z) (s : machine) (x : Z) (s' : machine) (k : Z) : Prop := {
  ci_range : 0 <= k <= len;
  ci_mem : forall y, ld8 (mem s') y =
    if inrange dst k y then default 0 (uview g s r (srcva + (y - dst))) else ld8 (mem s) y;
  ci_access : forall i, 0 <= i < k -> uaddr g r (srcva + i) <> 0;
  ci_result : (x = 0 /\ k = len) \/ (x = -1 /\ k < len /\ uaddr g r (srcva + k) = 0);
  ci_rest : s' = set_mem (fun _ => mem s') s
}.

Lemma uaddr_same g r va i : 0 <= va -> 0 <= i -> va mod PGSIZE + i < PGSIZE ->
  uaddr g r (va + i) = uaddr g r va.
Proof.
  intros Hva H0 H1. destruct (vpn_same va i H0 H1) as [Ev _]. unfold uaddr. rewrite Ev.
  assert ((MAXVA <=? va + i) = (MAXVA <=? va)) as ->; [|done].
  pose proof (Z.div_mod va PGSIZE ltac:(done)) as E. assert (MAXVA = PGSIZE * 2 ^ 26) as EM by done.
  pose proof (Z.mod_pos_bound va PGSIZE ltac:(done)).
  apply eq_true_iff_eq. rewrite !Z.leb_le, EM. unfold PGSIZE in *. lia.
Qed.

Lemma uaddr_down g r va : 0 <= va < 2 ^ 64 -> uaddr g r (PGROUNDDOWN va) = uaddr g r va.
Proof.
  intros H. pose proof (pg_mod va H) as E. pose proof (Z.mod_pos_bound va PGSIZE ltac:(done)) as Hb.
  rewrite PGROUNDDOWN_pg in * by done. pose proof (pg_aligned va). pose proof (pg_le va).
  rewrite <- (uaddr_same g r (pg va) (va mod PGSIZE)) by lia. f_equal. lia.
Qed.

(** The next page after the page of [va]. *)
Lemma next_page va : 0 <= va < MAXVA ->
  u64 (PGROUNDDOWN va + PGSIZE) = va + (PGSIZE - va mod PGSIZE) /\
  u64 (PGROUNDDOWN va + PGSIZE) mod PGSIZE = 0 /\ 0 <= u64 (PGROUNDDOWN va + PGSIZE) < 2 ^ 64.
Proof.
  intros H. pose proof (Z.mod_pos_bound va PGSIZE ltac:(done)). rewrite MAXVA_eq in H.
  rewrite PGROUNDDOWN_pg by lia. pose proof (pg_aligned va) as Ha. pose proof (pg_le va).
  split; [|split; [|apply u64_range]].
  - rewrite u64_small; unfold pg, PGSIZE in *; lia.
  - rewrite u64_small by (unfold pg, PGSIZE in *; lia).
    rewrite <- (Z.mul_1_l PGSIZE) at 1. by rewrite Z.mod_add.
Qed.

Lemma uview_chunk l g s r va i : vm_inv l g s -> 0 <= va -> uaddr g r va <> 0 ->
  0 <= i -> va mod PGSIZE + i < PGSIZE ->
  uview g s r (va + i) = Some (ld8 (mem s) (uaddr g r va + va mod PGSIZE + i)).
Proof.
  intros Hi Hva Hu H0 H1. destruct (vpn_same va i H0 H1) as [Ev Em].
  destruct (uaddr_leaf l g s r va Hi Hu) as (w & Hw & _ & -> & _). unfold uview.
  rewrite Ev, Hw, Em. do 2 f_equal. lia.
Qed.

Lemma copied_in_none g r dst srcva s : copied_in g r dst srcva 0 s 0 s 0.
Proof. constructor; try lia; [|by destruct s]. intros y. inr_cases; [lia|done]. Qed.

(** One chunk followed by the rest. *)
Lemma copied_in_step l g r dst srcva len s x s' k : vm_inv l g s -> kbuf l g dst len ->
  0 <= srcva < 2 ^ 64 -> 0 < len -> uaddr g r srcva <> 0 ->
  let n := chunk srcva len in
  let s1 := set_mem (fun m => memmove m dst (uaddr g r srcva + srcva mod PGSIZE) n) s in
  copied_in g r (dst + n) (srcva + (PGSIZE - srcva mod PGSIZE)) (len - n) s1 x s' k ->
  copied_in g r dst srcva len s x s' (n + k).
Proof.
  intros Hi Hkb Hva Hlen Hu n s1 [R M A X S1].
  pose proof (Z.mod_pos_bound srcva PGSIZE ltac:(done)) as Hb.
  assert (0 < n <= len) as Hn by (unfold n, chunk; lia).
  assert (0 < k -> n = PGSIZE - srcva mod PGSIZE) as Hkn by (unfold n, chunk in *; lia).
  assert (forall y, inrange dst len y = false -> ld8 (memmove (mem s) dst (uaddr g r srcva + srcva mod PGSIZE) n) y
    = ld8 (mem s) y) as Hout.
  { intros y Hy. apply memmove_outside; [lia|]. rewrite inrange_false in *. lia. }
  constructor.
  - lia.
  - intros y. rewrite M. destruct (inrange (dst + n) k y) eqn:E1.
    + apply inrange_true in E1. rewrite (proj2 (inrange_true dst (n + k) y)) by lia.
      assert (uaddr g r (srcva + (PGSIZE - srcva mod PGSIZE) + (y - (dst + n))) <> 0) as Hu'.
      { apply A. lia. }
      destruct (uaddr_leaf l g s r _ Hi Hu') as (w & _ & _ & _ & Hun & _).
      unfold s1. rewrite (kbuf_view l g s dst len) by done. pose proof (Hkn ltac:(lia)).
      do 2 f_equal. lia.
    + apply inrange_false in E1. unfold s1. cbn. rewrite memmove_spec by lia.
      destruct (inrange dst n y) eqn:E2.
      * apply inrange_true in E2. rewrite (proj2 (inrange_true dst (n + k) y)) by lia.
        rewrite (uview_chunk l) by (done || (unfold n, chunk in *; lia)). cbn. f_equal. lia.
      * apply inrange_false in E2. rewrite (proj2 (inrange_false dst (n + k) y)) by lia. done.
  - intros i Hir. destruct (decide (i < n)) as [Hin|Hin].
    + rewrite uaddr_same; [done|lia..|]. unfold n, chunk in *; lia.
    + specialize (A (i - n) ltac:(lia)). rewrite <- Hkn in A by lia.
      by replace (srcva + n + (i - n)) with (srcva + i) in A by lia.
  - destruct X as [[-> ->]|(-> & Hlt & Hz)]; [left; lia|right]. split; [done|]. split; [lia|].
    assert (n = PGSIZE - srcva mod PGSIZE) as En by (unfold n, chunk in *; lia).
    rewrite <- Hz. f_equal. lia.
  - rewrite S1. done.
Qed.

Lemma copyin_loop_spec l g r : tabs g !! (r, []) = Some r -> forall fuel dst srcva len s,
  vm_inv l g s -> 0 <= srcva < 2 ^ 64 -> 0 <= len -> kbuf l g dst len ->
  len + srcva mod PGSIZE <= Z.of_nat fuel * PGSIZE ->
  exists x s' k, copyin_loop fuel r dst srcva len s = Ok x s' /\ vm_inv l g s' /\
    copied_in g r dst srcva len s x s' k.
Proof.
  intros Hr. induction fuel as [|fuel IH]; intros dst srcva len s Hi Hva Hlen Hkb Hfuel; cbn [copyin_loop].
  { assert (len = 0) as -> by (pose proof (Z.mod_pos_bound srcva PGSIZE ltac:(done)); lia).
    exists 0, s, 0. split; [done|]. split; [done|]. apply copied_in_none. }
  destruct (Z.ltb_spec 0 len) as [Hpos|Hz]; last first.
  { assert (len = 0) as -> by lia. exists 0, s, 0. split; [done|]. split; [done|]. apply copied_in_none. }
  pose proof (Z.mod_pos_bound srcva PGSIZE ltac:(done)) as Hmb. pose proof (pg_mod srcva Hva) as Epg.
  assert (0 <= PGROUNDDOWN srcva) as H0 by (rewrite PGROUNDDOWN_pg by done; pose proof (pg_le srcva); lia).
  cbn zeta. rewrite (bind_ok _ _ _ _ _ (walkaddr_eq l g s r _ Hi Hr H0)).
  rewrite uaddr_down by done. destruct (Z.eqb_spec (uaddr g r srcva) 0) as [Hu|Hu].
  { exists (-1), s, 0. split; [done|]. split; [done|]. constructor; try lia; [| |by destruct s].
    - intros y. inr_cases; [lia|done].
    - right. rewrite Z.add_0_r. lia. }
  destruct (uaddr_leaf l g s r srcva Hi Hu) as (_ & _ & _ & _ & _ & _ & _ & Hmax).
  destruct (next_page srcva ltac:(lia)) as (En & Em & Er).
  rewrite Epg. replace (if len <? PGSIZE - srcva mod PGSIZE then len else PGSIZE - srcva mod PGSIZE)
    with (chunk srcva len) by (unfold chunk; destruct (Z.ltb_spec len (PGSIZE - srcva mod PGSIZE)); lia).
  set (n := chunk srcva len). assert (0 < n <= len) as Hn by (unfold n, chunk; lia).
  set (s1 := set_mem (fun m => memmove m dst (uaddr g r srcva + srcva mod PGSIZE) n) s).
  rewrite (bind_ok _ _ s tt s1) by done.
  assert (vm_inv l g s1) as Hi1.
  { apply (kbuf_write l g s dst n); [done|eapply kbuf_sub; [done|lia..]|].
    intros y. by apply memmove_outside; lia. }
  destruct (IH (dst + n) (u64 (PGROUNDDOWN srcva + PGSIZE)) (len - n) s1) as (x & s' & k & E & Hi' & Hc);
    [done|done|lia|eapply kbuf_sub; [done|lia..]| |].
  { rewrite Em. unfold n, chunk, PGSIZE in *. lia. }
  exists x, s', (n + k). split; [done|]. split; [done|]. rewrite En in Hc.
  by eapply copied_in_step.
Qed.

Lemma copyin_spec l g s r dst srcva len :
  vm_inv l g s -> tabs g !! (r, []) = Some r -> 0 <= srcva < 2 ^ 64 -> 0 <= len ->
  kbuf l g dst len ->
  exists x s' k, copyin r dst srcva len s = Ok x s' /\ vm_inv l g s' /\
    copied_in g r dst srcva len s x s' k.
Proof.
  intros Hi Hr Hva Hlen Hkb. unfold copyin. apply copyin_loop_spec with (l := l); try done.
  pose proof (Z.div_mod len PGSIZE ltac:(done)). pose proof (Z.mod_pos_bound len PGSIZE ltac:(done)).
  pose proof (Z.div_pos len PGSIZE ltac:(done) ltac:(done)).
  pose proof (Z.mod_pos_bound srcva PGSIZE ltac:(done)).
  rewrite Z2Nat.id by lia. unfold PGSIZE in *. lia.
Qed.

(** ** copyout *)

(** The reasons for which a write to [va] is refused. *)
Definition refused (l : list Z) (g : vmabs) (r va : Z) : Prop :=
  va = 0 \/ MAXVA <= va \/ leaves g !! (r, vpn va) = None \/
  exists w, leaves g !! (r, vpn va) = Some w /\
    (hasbit w PTE_U = false \/ hasbit w PTE_W = false /\ (hasbit w PTE_COW = false \/ l = [])).

(** The user may access page [n]. *)
Definition accessible (g : vmabs) (r n : Z) : Prop := exists w, leaves g !! (r, n) = Some w /\ hasbit w PTE_U = true.

(** Nobody's view changes, kernel data stays, nothing new is managed. *)
Record quiet (l : list Z) (g : vmabs) (s : machine) (l' : list Z) (g' : vmabs) (s' : machine) : Prop := {
  qu_tabs : tabs g' = tabs g;
  qu_kref : forall p, kref g' p = kref g p;
  qu_managed : forall q, managed l' g' q -> managed l g q;
  qu_kernel : forall q, q mod PGSIZE = 0 -> ~ managed l g q -> same_page (mem s) (mem s') q;
  qu_locks : mlocks s' = mlocks s;
  qu_access : forall r n, accessible g' r n <-> accessible g r n
}.

Lemma quiet_refl l g s : quiet l g s l g s.
Proof. by constructor. Qed.

Lemma quiet_trans l1 g1 s1 l2 g2 s2 l3 g3 s3 :
  quiet l1 g1 s1 l2 g2 s2 -> quiet l2 g2 s2 l3 g3 s3 -> quiet l1 g1 s1 l3 g3 s3.
Proof.
  intros [T K M P O A] [T' K' M' P' O' A']. constructor; try congruence; auto.
  2:{ intros r n. by rewrite A', A. }
  intros q Hq Hm. eapply same_page_trans; [by apply P|]. apply P'; [done|]. intros H. by apply Hm, M.
Qed.

Lemma cow_done_quiet r n w m l g s l' g' s' : vm_inv (m :: l) g s -> vm_inv l' g' s' ->
  leaves g !! (r, n) = Some w -> user_vpn n -> hasbit w PTE_U = true ->
  cow_done r n w m l g s l' g' s' -> quiet (m :: l) g s l' g' s'.
Proof.
  intros Hi Hi' Hw Hu HU [F T L K C M O].
  destruct (free_page _ _ _ _ m Hi) as (Hm & _); [set_solver|].
  pose proof (page_ok_range _ end_kernel _ Hm) as Hmr.
  assert (forall q, managed l' g' q -> managed (m :: l) g q) as Hman.
  { intros q [Hq|[[k Hk]|Hq]].
    - rewrite F in Hq. destruct (decide _); [|left; by right].
      apply elem_of_cons in Hq as [->|Hq]; [|left; by right]. right; right. by eapply leafref_pos.
    - right; left. exists k. by rewrite <- T.
    - destruct (leafref_witness g' q ltac:(lia)) as (r' & n' & w' & Hw' & Hu' & <-).
      rewrite L in Hw'. apply lookup_insert_Some in Hw' as [[_ <-]|[_ Hw']].
      + destruct (cow_pte_facts w m) as (_ & -> & _); [layout; lia|apply Hm|]. left. by left.
      + right; right. by eapply leafref_pos. }
  constructor; try done.
  - intros q Hq Hnm. apply M; [done| | |].
    + intros ->. apply Hnm. left. by left.
    + intros Hl. apply Hnm, Hman. by left.
    + intros Ht. apply Hnm. right. by left.
  - intros r' n'. unfold accessible. rewrite L. destruct (decide ((r', n') = (r, n))) as [[= -> ->]|Hne].
    + rewrite lookup_insert_eq, Hw. split; intros _; [by exists w|]. exists (cow_pte w m). split; [done|].
      rewrite hasbit_U, cow_pte_bits by (lia || (layout; lia) || apply Hm). rewrite hasbit_U in HU. by rewrite HU.
    + by rewrite lookup_insert_ne.
Qed.

(** Before a write the handler is called: it refuses, or the page is writable
    and nobody's view has changed. *)
Lemma cow_prepare l g s r va :
  vm_inv l g s -> tabs g !! (r, []) = Some r -> 0 <= va < 2 ^ 64 -> (forall p, 0 <= kref g p) ->
  (cow_page_fault_handler end_ r va s = Ok MINUS1 s /\ refused l g r va) \/
  (exists l' g' s', cow_page_fault_handler end_ r va s = Ok 0 s' /\ vm_inv l' g' s' /\
     quiet l g s l' g' s' /\ writable g' r va /\ va < MAXVA /\
     (forall r' x, user_vpn (vpn x) -> uview g' s' r' x = uview g s r' x)).
Proof.
  intros Hi Hr Hva Hk.
  destruct (decide (0 < va < MAXVA)) as [Hm|Hm]; last first.
  { left. split; [|unfold refused; lia]. apply (cow_handler_reject _ end_kernel l g); try done. lia. }
  destruct (leaves g !! (r, vpn va)) as [w|] eqn:Hw; last first.
  { left. split; [|unfold refused; auto]. apply (cow_handler_reject _ end_kernel l g); try done. auto. }
  destruct (hasbit w PTE_U) eqn:HU; last first.
  { left. split; [|right; right; right; eauto]. apply (cow_handler_reject _ end_kernel l g); eauto 8. }
  destruct (hasbit w PTE_W) eqn:HW.
  { right. exists l, g, s. split; [by apply (cow_handler_writable _ end_kernel l g _ _ _ w)|].
    split; [done|]. split; [apply quiet_refl|]. split; [by exists w|]. by split; [lia|]. }
  destruct (hasbit w PTE_COW) eqn:HC; last first.
  { left. split; [|right; right; right; eauto 6]. apply (cow_handler_reject _ end_kernel l g); eauto 10. }
  destruct l as [|m l].
  { left. split; [by eapply (cow_handler_nomem _ end_kernel g)|]. right; right; right. exists w. auto. }
  right. destruct (cow_handler_copy _ end_kernel m l g s r va w) as (l' & g' & s' & E & Hi' & Hd); try done.
  destruct (vi_leafok _ _ _ _ Hi _ _ _ Hw) as [[_ Hu] _]. specialize (Hu HU).
  exists l', g', s'. split; [done|]. split; [done|]. split; [by eapply cow_done_quiet|].
  split; [|split; [lia|]].
  - destruct (free_page _ _ _ _ m Hi) as (Hmo & _); [set_solver|].
    pose proof (page_ok_range _ end_kernel _ Hmo).
    exists (cow_pte w m). rewrite (cd_leaves _ _ _ _ _ _ _ _ _ _ Hd), lookup_insert_eq. split; [done|].
    rewrite hasbit_U, hasbit_W, !cow_pte_bits by (lia || (layout; lia) || apply Hmo).
    rewrite hasbit_U in HU. by rewrite HU.
  - intros r' x Hx. by eapply (cow_done_view end_).
Qed.

(** The store through the kernel's direct map into a page only this address
    space maps. *)
Lemma write_page l g s r va src n :
  vm_inv l g s -> writable g r va -> 0 <= va < MAXVA -> 0 < n -> va mod PGSIZE + n <= PGSIZE ->
  let s' := set_mem (fun m => memmove m (uaddr g r va + va mod PGSIZE) src n) s in
  vm_inv l g s' /\ quiet l g s l g s' /\
  forall r' x, user_vpn (vpn x) -> uview g s' r' x =
    if decide (r' = r /\ va <= x < va + n) then Some (ld8 (mem s) (src + (x - va))) else uview g s r' x.
Proof.
  intros Hi (w & Hw & HU & HW) Hva Hn Hfit.
  assert (uaddr g r va = PTE2PA w) as ->.
  { unfold uaddr. rewrite (proj2 (Z.leb_gt _ _)) by lia. by rewrite Hw, HU. }
  set (pa := PTE2PA w). set (o := va mod PGSIZE) in *. intros s'.
  assert (0 <= o) as Ho by (by apply Z.mod_pos_bound).
  destruct (vi_leafok _ _ _ _ Hi _ _ _ Hw) as [[_ Hu] Hok]. specialize (Hu HU).
  destruct (Hok Hu) as (Hpo & _ & Hpt). fold pa in Hpo, Hpt.
  assert (forall m q, q mod PGSIZE = 0 -> pa <> q -> same_page m (memmove m (pa + o) src n) q) as Hsame.
  { intros m q Hq Hne i Hir. apply memmove_outside; [lia|]. apply inrange_false. intros Hin.
    apply (pages_disjoint pa q (q + i - pa) i); unfold PGSIZE in *; auto; try lia. apply Hpo. }
  split; [|split].
  - apply (inv_page_write end_ l g s pa); try done. by eapply (leaf_not_free end_).
  - constructor; try done. intros q Hq Hnm. apply Hsame; [done|]. intros E.
    apply Hnm. right; right. by eapply leafref_pos.
  - intros r' x Hx. destruct (decide ((r', vpn x) = (r, vpn va))) as [[= -> Ev]|Hne].
    + assert (x = va + (x mod PGSIZE - o)) as Exo.
      { unfold vpn in Ev. unfold o. pose proof (Z.div_mod x PGSIZE ltac:(done)).
        pose proof (Z.div_mod va PGSIZE ltac:(done)). lia. }
      unfold uview. rewrite Ev, Hw. fold pa. unfold s'. cbn. rewrite memmove_spec by lia.
      destruct (inrange (pa + o) n (pa + x mod PGSIZE)) eqn:E.
      * apply inrange_true in E. rewrite decide_True by lia. do 2 f_equal. lia.
      * apply inrange_false in E. rewrite decide_False by lia. done.
    + rewrite decide_False.
      2:{ intros [-> Hin]. apply Hne. f_equal. replace x with (va + (x - va)) by lia.
          apply vpn_same; unfold o in *; lia. }
      apply uview_same; [|done]. intros v Hv. split; [by exists v|]. apply Hsame.
      * destruct (vi_leafok _ _ _ _ Hi _ _ _ Hv) as [_ Hok']. apply (Hok' Hx).
      * intros E. apply Hne. symmetry. by eapply (vi_excl _ _ _ _ Hi).
Qed.

(** What [copyout] achieved: [k] bytes of the view of [r] are those of the
    kernel buffer, every other byte of every view is as before. *)
Record copied_out (l : list Z) (g : vmabs) (s : machine) (r dstva src len x : Z)
    (l' : list Z) (g' : vmabs) (s' : machine) (k : Z) : Prop := {
  co_inv : vm_inv l' g' s';
  co_range : 0 <= k <= len;
  co_quiet : quiet l g s l' g' s';
  co_view : forall r' va, user_vpn (vpn va) -> uview g' s' r' va =
    if decide (r' = r /\ dstva <= va < dstva + k) then Some (ld8 (mem s) (src + (va - dstva)))
    else uview g s r' va;
  co_result : (x = 0 /\ k = len) \/ (x = -1 /\ k < len /\ refused l' g' r (dstva + k))
}.

Lemma copied_out_none l g s r dstva src : vm_inv l g s ->
  copied_out l g s r dstva src 0 0 l g s 0.
Proof.
  intros Hi. constructor; [done|lia|apply quiet_refl| |by left].
  intros r' va _. rewrite decide_False by lia. done.
Qed.

(** Kernel data outside the managed pages. *)
Lemma quiet_byte l g s l' g' s' d n y : quiet l g s l' g' s' -> kbuf l g d n -> d <= y < d + n ->
  ld8 (mem s') y = ld8 (mem s) y.
Proof.
  intros Q Hk Hy. assert (y = pg y + y mod PGSIZE) as E by (unfold pg; lia). rewrite E.
  pose proof (Z.mod_pos_bound y PGSIZE ltac:(done)) as Hb.
  apply (qu_kernel _ _ _ _ _ _ Q); [apply pg_aligned| |done]. intros Hm.
  destruct (Hk _ Hm); unfold pg, PGSIZE in *; lia.
Qed.

Lemma quiet_kbuf l g s l' g' s' d n : quiet l g s l' g' s' -> kbuf l g d n -> kbuf l' g' d n.
Proof. intros Q Hk q Hq. apply Hk. by apply (qu_managed _ _ _ _ _ _ Q). Qed.

Lemma copied_out_step l g s r dstva src len l1 g1 s1 x l' g' s' k :
  quiet l g s l1 g1 s1 -> kbuf l g src len -> 0 < len ->
  let n := chunk dstva len in
  (forall r' va, user_vpn (vpn va) -> uview g1 s1 r' va =
    if decide (r' = r /\ dstva <= va < dstva + n) then Some (ld8 (mem s) (src + (va - dstva)))
    else uview g s r' va) ->
  copied_out l1 g1 s1 r (dstva + (PGSIZE - dstva mod PGSIZE)) (src + n) (len - n) x l' g' s' k ->
  copied_out l g s r dstva src len x l' g' s' (n + k).
Proof.
  intros Q Hkb Hlen n Hv1 [I R Q' V X].
  pose proof (Z.mod_pos_bound dstva PGSIZE ltac:(done)) as Hb.
  assert (0 < n <= len) as Hn by (unfold n, chunk; lia).
  assert (0 < k -> n = PGSIZE - dstva mod PGSIZE) as Hkn by (unfold n, chunk in *; lia).
  constructor; [done|lia|by eapply quiet_trans| |].
  - intros r' va Hu. rewrite V by done. destruct (decide (r' = r)) as [->|Hr'].
    2:{ rewrite decide_False by naive_solver. rewrite Hv1 by done. rewrite !decide_False by naive_solver. done. }
    destruct (decide (r = r /\ dstva + (PGSIZE - dstva mod PGSIZE) <= va < dstva + (PGSIZE - dstva mod PGSIZE) + k))
      as [[_ Hin]|Hout].
    + pose proof (Hkn ltac:(lia)). rewrite decide_True by lia.
      rewrite (quiet_byte _ _ _ _ _ _ src len _ Q) by (done || lia). do 2 f_equal. lia.
    + rewrite Hv1 by done. apply decide_ext. split; [intros [_ ?]; split; [done|lia]|intros [_ ?]; split; [done|]].
      destruct (decide (0 < k)); [|lia]. pose proof (Hkn ltac:(lia)). lia.
  - destruct X as [[-> ->]|(-> & Hlt & Hz)]; [left; lia|right]. split; [done|]. split; [lia|].
    assert (n = PGSIZE - dstva mod PGSIZE) as En by (unfold n, chunk in *; lia).
    replace (dstva + (n + k)) with (dstva + (PGSIZE - dstva mod PGSIZE) + k) by lia. done.
Qed.

Lemma copyout_loop_spec r : forall fuel l g dstva src len s,
  vm_inv l g s -> tabs g !! (r, []) = Some r -> (forall p, 0 <= kref g p) ->
  0 <= dstva < 2 ^ 64 -> 0 <= len -> kbuf l g src len ->
  len + dstva mod PGSIZE <= Z.of_nat fuel * PGSIZE ->
  exists x l' g' s' k, copyout_loop end_ fuel r dstva src len s = Ok x s' /\
    copied_out l g s r dstva src len x l' g' s' k.
Proof.
  induction fuel as [|fuel IH]; intros l g dstva src len s Hi Hr Hk Hva Hlen Hkb Hfuel; cbn [copyout_loop].
  { assert (len = 0) as -> by (pose proof (Z.mod_pos_bound dstva PGSIZE ltac:(done)); lia).
    exists 0, l, g, s, 0. split; [done|]. by apply copied_out_none. }
  destruct (Z.ltb_spec 0 len) as [Hpos|Hz]; last first.
  { assert (len = 0) as -> by lia. exists 0, l, g, s, 0. split; [done|]. by apply copied_out_none. }
  pose proof (Z.mod_pos_bound dstva PGSIZE ltac:(done)) as Hmb. pose proof (pg_mod dstva Hva) as Epg.
  assert (0 <= PGROUNDDOWN dstva) as H0 by (rewrite PGROUNDDOWN_pg by done; pose proof (pg_le dstva); lia).
  cbn zeta. destruct (cow_prepare l g s r dstva Hi Hr Hva Hk) as [[E Href]|(l1 & g1 & s1 & E & Hi1 & Q1 & HW & Hmax & V1)].
  { rewrite (bind_ok _ _ _ _ _ E). rewrite Z.eqb_refl. exists (-1), l, g, s, 0. split; [done|].
    constructor; [done|lia|apply quiet_refl| |].
    - intros r' va _. rewrite decide_False by lia. done.
    - right. rewrite Z.add_0_r. done. }
  rewrite (bind_ok _ _ _ _ _ E). change (0 =? MINUS1) with false. cbn match.
  assert (tabs g1 !! (r, []) = Some r) as Hr1 by (by rewrite (qu_tabs _ _ _ _ _ _ Q1)).
  rewrite (bind_ok _ _ _ _ _ (walkaddr_eq l1 g1 s1 r _ Hi1 Hr1 H0)). rewrite uaddr_down by done.
  assert (uaddr g1 r dstva <> 0) as Hu.
  { destruct HW as (w & Hw & HU & _). unfold uaddr. rewrite (proj2 (Z.leb_gt _ _)) by lia. rewrite Hw, HU.
    destruct (vi_leafok _ _ _ _ Hi1 _ _ _ Hw) as [[_ Hun] Hok]. destruct (Hok (Hun HU)) as (Hpo & _).
    by apply (page_ok_nonzero _ end_kernel). }
  rewrite (proj2 (Z.eqb_neq _ _)) by done.
  destruct (next_page dstva ltac:(lia)) as (En & Em & Er).
  rewrite Epg. replace (if len <? PGSIZE - dstva mod PGSIZE then len else PGSIZE - dstva mod PGSIZE)
    with (chunk dstva len) by (unfold chunk; destruct (Z.ltb_spec len (PGSIZE - dstva mod PGSIZE)); lia).
  set (n := chunk dstva len). assert (0 < n <= len) as Hn by (unfold n, chunk; lia).
  destruct (write_page l1 g1 s1 r dstva src n Hi1 HW) as (Hi2 & Q2 & V2); [lia..|unfold n, chunk; lia|].
  set (s2 := set_mem (fun m => memmove m (uaddr g1 r dstva + dstva mod PGSIZE) src n) s1) in *.
  rewrite (bind_ok _ _ s1 tt s2) by done.
  assert (quiet l g s l1 g1 s2) as Q12 by (by eapply quiet_trans).
  destruct (IH l1 g1 (u64 (PGROUNDDOWN dstva + PGSIZE)) (src + n) (len - n) s2) as (x & l' & g' & s' & k & Ex & Hc).
  - done.
  - done.
  - intros p. rewrite (qu_kref _ _ _ _ _ _ Q1). apply Hk.
  - done.
  - lia.
  - eapply kbuf_sub; [by eapply quiet_kbuf|lia..].
  - rewrite Em. unfold n, chunk, PGSIZE in *. lia.
  - exists x, l', g', s', (n + k). split; [done|]. rewrite En in Hc.
    eapply (copied_out_step l g s r dstva src len l1 g1 s2); try done.
    intros r' va Hun. rewrite V2 by done. fold n. destruct (decide (r' = r /\ dstva <= va < dstva + n)) as [[_ Hin]|].
    + f_equal. apply (quiet_byte _ _ _ _ _ _ src len _ Q1); [done|lia].
    + by apply V1.
Qed.

Lemma copyout_spec l g s r dstva src len :
  vm_inv l g s -> tabs g !! (r, []) = Some r -> (forall p, 0 <= kref g p) ->
  0 <= dstva < 2 ^ 64 -> 0 <= len -> kbuf l g src len ->
  exists x l' g' s' k, copyout end_ r dstva src len s = Ok x s' /\
    copied_out l g s r dstva src len x l' g' s' k.
Proof.
  intros Hi Hr Hk Hva Hlen Hkb. unfold copyout. apply copyout_loop_spec; try done.
  pose proof (Z.div_mod len PGSIZE ltac:(done)). pose proof (Z.mod_pos_bound len PGSIZE ltac:(done)).
  pose proof (Z.div_pos len PGSIZE ltac:(done) ltac:(done)).
  pose proof (Z.mod_pos_bound dstva PGSIZE ltac:(done)).
  rewrite Z2Nat.id by lia. unfold PGSIZE in *. lia.
Qed.

(** ** copyinstr *)
Definition upto (got : bool) (j : Z) : Z := if got then j + 1 else j.

Lemma copyinstr_page_spec n : forall p dst max s,
  (forall i j, 0 <= i < Z.of_nat n -> 0 <= j < Z.of_nat n -> p + i <> dst + j) ->
  exists got j s', copyinstr_page n p dst max s = Ok (got, dst + j, max - j) s' /\
    0 <= j <= Z.of_nat n /\ (forall i, 0 <= i < j -> ld8 (mem s) (p + i) <> 0) /\
    (if got then j < Z.of_nat n /\ ld8 (mem s) (p + j) = 0 else j = Z.of_nat n) /\
    (forall y, ld8 (mem s') y =
       if inrange dst (upto got j) y then ld8 (mem s) (p + (y - dst)) else ld8 (mem s) y) /\
    s' = set_mem (fun _ => mem s') s.
Proof.
  induction n as [|n IH]; intros p dst max s Hdis; cbn [copyinstr_page].
  { exists false, 0, s. rewrite Z.add_0_r, Z.sub_0_r. split; [done|]. split; [lia|]. split; [lia|].
    split; [done|]. split; [|by destruct s]. intros y. unfold upto. inr_cases; [lia|done]. }
  rewrite (bind_ok _ _ s (ld8 (mem s) p) s) by done.
  destruct (Z.eqb_spec (ld8 (mem s) p) 0) as [Hz|Hnz].
  - exists true, 0, (set_mem (fun m => st8 m dst 0) s). rewrite Z.add_0_r, Z.sub_0_r. split; [done|].
    split; [lia|]. split; [lia|]. rewrite Z.add_0_r. split; [split; [lia|done]|]. split; [|done].
    intros y. unfold upto. cbn. rewrite ld8_st8. destruct (Z.eqb_spec dst y) as [<-|Hne]; inr_cases; try lia; try done.
    rewrite Z.sub_diag, Z.add_0_r, Hz. done.
  - set (s1 := set_mem (fun m => st8 m dst (ld8 (mem s) p)) s). rewrite (bind_ok _ _ s tt s1) by done.
    assert (forall y, y <> dst -> ld8 (mem s1) y = ld8 (mem s) y) as Hs1.
    { intros y Hy. unfold s1. cbn. rewrite ld8_st8. by destruct (Z.eqb_spec dst y). }
    destruct (IH (p + 1) (dst + 1) (max - 1) s1) as (got & j & s' & E & Hj & Hnzs & Hgot & Hm & Hs').
    { intros i j Hi Hj. specialize (Hdis (i + 1) (j + 1)). lia. }
    assert (forall i, 0 <= i < Z.of_nat n -> ld8 (mem s1) (p + 1 + i) = ld8 (mem s) (p + (i + 1))) as Hb.
    { intros i Hi. rewrite Hs1; [f_equal; lia|]. specialize (Hdis (i + 1) 0). lia. }
    exists got, (j + 1), s'. replace (dst + (j + 1)) with (dst + 1 + j) by lia.
    replace (max - (j + 1)) with (max - 1 - j) by lia. split; [done|]. split; [lia|]. split; [|split; [|split]].
    + intros i Hi. destruct (decide (i = 0)) as [->|]; [by rewrite Z.add_0_r|].
      specialize (Hnzs (i - 1) ltac:(lia)). rewrite Hb in Hnzs by lia.
      by replace (i - 1 + 1) with i in Hnzs by lia.
    + destruct got; [|lia]. destruct Hgot as [Hlt Hz]. split; [lia|]. by rewrite Hb in Hz by lia.
    + intros y. rewrite Hm. destruct (inrange (dst + 1) (upto got j) y) eqn:E1.
      * apply inrange_true in E1. rewrite (proj2 (inrange_true dst (upto got (j + 1)) y)) by (unfold upto in *; destruct got; lia).
        rewrite Hb by (unfold upto in *; destruct got; lia). f_equal. lia.
      * apply inrange_false in E1. destruct (decide (y = dst)) as [->|Hy].
        -- rewrite (proj2 (inrange_true dst (upto got (j + 1)) dst)) by (unfold upto in *; destruct got; lia).
           unfold s1. cbn. rewrite ld8_st8, Z.eqb_refl, u8_ld8. f_equal. lia.
        -- rewrite (proj2 (inrange_false dst (upto got (j + 1)) y)) by (unfold upto in *; destruct got; lia).
           by apply Hs1.
    + rewrite Hs'. done.
Qed.

(** What [copyinstr] achieved: the user's string up to its NUL, or as far as
    [max] and the user's mappings go. *)
Record copied_str (g : vmabs) (r dst srcva max : Z) (s : machine) (x : Z) (s' : machine) (k : Z) : Prop := {
  cs_range : 0 <= k <= max;
  cs_mem : forall y, ld8 (mem s') y =
    if inrange dst (upto (x =? 0) k) y then default 0 (uview g s r (srcva + (y - dst))) else ld8 (mem s) y;
  cs_chars : forall i, 0 <= i < k -> exists b, uview g s r (srcva + i) = Some b /\ b <> 0;
  cs_result : (x = 0 /\ k < max /\ uview g s r (srcva + k) = Some 0) \/
              (x = -1 /\ (k = max \/ uaddr g r (srcva + k) = 0));
  cs_access : forall i, 0 <= i < upto (x =? 0) k -> uaddr g r (srcva + i) <> 0;
  cs_rest : s' = set_mem (fun _ => mem s') s
}.

Lemma copied_str_stop g r dst srcva max s : 0 <= max -> max = 0 \/ uaddr g r srcva = 0 ->
  copied_str g r dst srcva max s (-1) s 0.
Proof.
  intros Hm Hs. constructor; try (cbn; lia); [| |by destruct s].
  - intros y. cbn. inr_cases; [lia|done].
  - right. rewrite Z.add_0_r. split; [done|]. destruct Hs; auto.
Qed.

(** A chunk without NUL followed by the rest. *)
Lemma copied_str_step l g r dst srcva max s s1 x s' k : vm_inv l g s -> kbuf l g dst max ->
  0 <= srcva < 2 ^ 64 -> 0 < max -> uaddr g r srcva <> 0 ->
  let n := chunk srcva max in
  (forall i, 0 <= i < n -> ld8 (mem s) (uaddr g r srcva + srcva mod PGSIZE + i) <> 0) ->
  (forall y, ld8 (mem s1) y = if inrange dst n y
     then ld8 (mem s) (uaddr g r srcva + srcva mod PGSIZE + (y - dst)) else ld8 (mem s) y) ->
  s1 = set_mem (fun _ => mem s1) s ->
  copied_str g r (dst + n) (srcva + (PGSIZE - srcva mod PGSIZE)) (max - n) s1 x s' k ->
  copied_str g r dst srcva max s x s' (n + k).
Proof.
  intros Hi Hkb Hva Hmax Hu n Hnz Hm1 Hs1 [R M C X A S'].
  pose proof (Z.mod_pos_bound srcva PGSIZE ltac:(done)) as Hb.
  assert (0 < n <= max) as Hn by (unfold n, chunk; lia).
  assert (n < max -> n = PGSIZE - srcva mod PGSIZE) as Hkn by (unfold n, chunk in *; lia).
  assert (0 < upto (x =? 0) k -> n < max) as Hup.
  { unfold upto. destruct X as [(-> & ? & _)|(-> & _)]; cbn; lia. }
  assert (forall va, uaddr g r va <> 0 -> uview g s1 r va = uview g s r va) as Hv1.
  { intros va Hua. destruct (uaddr_leaf l g s r va Hi Hua) as (w & _ & _ & _ & Hun & _).
    rewrite Hs1. apply (kbuf_view l g s dst max); try done. intros y Hy. rewrite Hm1.
    rewrite inrange_false in Hy. by rewrite (proj2 (inrange_false dst n y)) by lia. }
  assert (forall i, 0 <= i < n -> uview g s r (srcva + i) =
    Some (ld8 (mem s) (uaddr g r srcva + srcva mod PGSIZE + i))) as Hch.
  { intros i Hir. apply (uview_chunk l); try done; try lia. unfold n, chunk in *; lia. }
  constructor.
  - lia.
  - intros y. rewrite M. replace (upto (x =? 0) (n + k)) with (n + upto (x =? 0) k) by (unfold upto; destruct (x =? 0); lia).
    assert (0 <= upto (x =? 0) k) by (unfold upto; destruct (x =? 0); lia).
    destruct (inrange (dst + n) (upto (x =? 0) k) y) eqn:E1.
    + apply inrange_true in E1. rewrite (proj2 (inrange_true dst (n + upto (x =? 0) k) y)) by lia.
      pose proof (Hkn ltac:(lia)). rewrite Hv1 by (apply A; lia). do 2 f_equal. lia.
    + apply inrange_false in E1. rewrite Hm1. destruct (inrange dst n y) eqn:E2.
      * apply inrange_true in E2. rewrite (proj2 (inrange_true dst (n + upto (x =? 0) k) y)) by lia.
        by rewrite Hch by lia.
      * apply inrange_false in E2. by rewrite (proj2 (inrange_false dst (n + upto (x =? 0) k) y)) by lia.
  - intros i Hir. destruct (decide (i < n)) as [Hin|Hin]; 
      [rewrite Hch by lia; eexists; split; [done|apply Hnz; lia]|].
    pose proof (Hkn ltac:(lia)). destruct (C (i - n) ltac:(lia)) as (b & Hb' & Hbn). exists b. split; [|done].
    rewrite <- Hb', Hv1; [f_equal; lia|]. apply A. unfold upto. destruct (x =? 0); lia.
  - destruct X as [(-> & Hlt & Hz)|(-> & Hz)]; [left|right]; (split; [done|]).
    + split; [lia|]. pose proof (Hkn ltac:(lia)). rewrite <- Hz, Hv1; [f_equal; lia|]. apply A. cbn. lia.
    + destruct Hz as [->|Hz]; [left; lia|]. destruct (decide (n = max)) as [->|]; [left; lia|right].
      rewrite <- Hz. f_equal. lia.
  - intros i Hir. destruct (decide (i < n)) as [Hin|Hin].
    + rewrite uaddr_same; [done|lia..|]. unfold n, chunk in *; lia.
    + assert (0 <= i - n < upto (x =? 0) k) as Hr' by (unfold upto in *; destruct (x =? 0); lia).
      pose proof (Hkn ltac:(lia)). specialize (A (i - n) Hr'). by replace (srcva + (PGSIZE - srcva mod PGSIZE) + (i - n))
        with (srcva + i) in A by lia.
  - rewrite S', Hs1. done.
Qed.

Lemma copyinstr_loop_spec l g r : tabs g !! (r, []) = Some r -> forall fuel dst srcva max s,
  vm_inv l g s -> 0 <= srcva < 2 ^ 64 -> 0 <= max -> kbuf l g dst max ->
  max + srcva mod PGSIZE <= Z.of_nat fuel * PGSIZE ->
  exists x s' k, copyinstr_loop fuel r dst srcva max false s = Ok x s' /\ vm_inv l g s' /\
    copied_str g r dst srcva max s x s' k.
Proof.
  intros Hr. induction fuel as [|fuel IH]; intros dst srcva max s Hi Hva Hmax Hkb Hfuel;
    cbn [copyinstr_loop negb andb].
  { assert (max = 0) as -> by (pose proof (Z.mod_pos_bound srcva PGSIZE ltac:(done)); lia).
    exists (-1), s, 0. split; [done|]. split; [done|]. apply copied_str_stop; auto. }
  destruct (Z.ltb_spec 0 max) as [Hpos|Hz]; last first.
  { assert (max = 0) as -> by lia. exists (-1), s, 0. split; [done|]. split; [done|].
    apply copied_str_stop; auto. }
  pose proof (Z.mod_pos_bound srcva PGSIZE ltac:(done)) as Hmb. pose proof (pg_mod srcva Hva) as Epg.
  assert (0 <= PGROUNDDOWN srcva) as H0 by (rewrite PGROUNDDOWN_pg by done; pose proof (pg_le srcva); lia).
  cbn zeta. rewrite (bind_ok _ _ _ _ _ (walkaddr_eq l g s r _ Hi Hr H0)).
  rewrite uaddr_down by done. destruct (Z.eqb_spec (uaddr g r srcva) 0) as [Hu|Hu].
  { exists (-1), s, 0. split; [done|]. split; [done|]. apply copied_str_stop; auto. }
  destruct (uaddr_leaf l g s r srcva Hi Hu) as (w & Hw & _ & Eu & Hun & Hpo & _ & Hmax').
  destruct (next_page srcva ltac:(lia)) as (En & Em & Er).
  rewrite Epg. replace (if max <? PGSIZE - srcva mod PGSIZE then max else PGSIZE - srcva mod PGSIZE)
    with (chunk srcva max) by (unfold chunk; destruct (Z.ltb_spec max (PGSIZE - srcva mod PGSIZE)); lia).
  set (n := chunk srcva max). assert (0 < n <= max) as Hn by (unfold n, chunk; lia).
  destruct (copyinstr_page_spec (Z.to_nat n) (uaddr g r srcva + srcva mod PGSIZE) dst max s)
    as (got & j & s1 & E & Hj & Hnz & Hgot & Hm & Hs1).
  { rewrite Z2Nat.id by lia. intros i j Hi' Hj' Ex.
    destruct (Hkb (uaddr g r srcva)) as [?|?]; [|unfold n, chunk, PGSIZE in *; lia..].
    right; right. rewrite Eu. by eapply leafref_pos. }
  rewrite Z2Nat.id in * by lia. rewrite (bind_ok _ _ _ _ _ E). cbn beta iota.
  assert (vm_inv l g s1) as Hi1.
  { rewrite Hs1. apply (kbuf_write l g s dst max); [done..|]. intros y Hy. rewrite Hm.
    rewrite inrange_false in Hy. rewrite (proj2 (inrange_false _ _ _)); [done|].
    unfold upto. destruct got; lia. }
  assert (forall i, 0 <= i < n -> uview g s r (srcva + i) =
    Some (ld8 (mem s) (uaddr g r srcva + srcva mod PGSIZE + i))) as Hch.
  { intros i Hir. apply (uview_chunk l); try done; try lia. unfold n, chunk in *; lia. }
  assert (forall i, 0 <= i < n -> uaddr g r (srcva + i) <> 0) as Hacc.
  { intros i Hir. rewrite uaddr_same; [done|lia..|]. unfold n, chunk in *; lia. }
  destruct got.
  - destruct Hgot as [Hjn Hz]. exists 0, s1, j.
    split; [by destruct fuel|]. split; [done|]. constructor; try done.
    + lia.
    + intros y. rewrite Hm. cbn. inr_cases; [|done]. by rewrite Hch by lia.
    + intros i Hir. rewrite Hch by lia. eexists. split; [done|apply Hnz; lia].
    + left. split; [done|]. split; [lia|]. rewrite Hch by lia. by rewrite Hz.
    + intros i Hir. apply Hacc. cbn in Hir. lia.
  - subst j. destruct (IH (dst + n) (u64 (PGROUNDDOWN srcva + PGSIZE)) (max - n) s1)
      as (x & s' & k & Ex & Hi' & Hc); [done|done|lia|eapply kbuf_sub; [done|lia..]| |].
    { rewrite Em. unfold n, chunk, PGSIZE in *. lia. }
    exists x, s', (n + k). split; [done|]. split; [done|]. rewrite En in Hc.
    by eapply (copied_str_step l g r dst srcva max s s1).
Qed.

Lemma copyinstr_spec l g s r dst srcva max :
  vm_inv l g s -> tabs g !! (r, []) = Some r -> 0 <= srcva < 2 ^ 64 -> 0 <= max ->
  kbuf l g dst max ->
  exists x s' k, copyinstr r dst srcva max s = Ok x s' /\ vm_inv l g s' /\
    copied_str g r dst srcva max s x s' k.
Proof.
  intros Hi Hr Hva Hmax Hkb. unfold copyinstr. apply copyinstr_loop_spec with (l := l); try done.
  pose proof (Z.div_mod max PGSIZE ltac:(done)). pose proof (Z.mod_pos_bound max PGSIZE ltac:(done)).
  pose proof (Z.div_pos max PGSIZE ltac:(done) ltac:(done)).
  pose proof (Z.mod_pos_bound srcva PGSIZE ltac:(done)).
  rewrite Z2Nat.id by lia. unfold PGSIZE in *. lia.
Qed.
End Copy.
