(* ===== verification/AddressSpaces.v ===== *)
(** * Address spaces: the theorems

    What the virtual-memory system promises its callers, in terms of the view
    each process has of its memory, with a small machine on which the
    hypotheses hold. *)

From S2P Require Import Prelude Riscv Mem Lock Kalloc Vm VmInv VmOps Cow Uvmcopy UserMem Freewalk UserView Copy.
Import KString.
Local Open Scope Z_scope.

(** ** A machine with two address spaces *)
Lemma boot_state : exists l s, vm_inv KERNBASE l (mkabs ∅ ∅ ∅) s /\ forall q, q ∈ l <-> page_ok KERNBASE q.
Proof.
  destruct (wp_ok _ _ _ (kinit_ok KERNBASE ltac:(done) (mkmachine ∅ 0 ∅ []) ltac:(done) eq_refl eq_refl))
    as (? & s & _ & l & Ha & Hl).
  exists l, s. split; [|done].
  assert (forall g : vmabs, forall p, leafref (mkabs ∅ ∅ ∅) p = 0) as Hlr by (intros g p; done).
  constructor; cbn; try done.
  intros p Hp _. rewrite Hlr by exact (mkabs ∅ ∅ ∅). change (kref (mkabs ∅ ∅ ∅) p) with 0.
  by apply (ai_zero _ _ _ Ha p Hp), Hl.
Qed.

Lemma boot_length l : (forall q, q ∈ l <-> page_ok KERNBASE q) -> (8 <= length l)%nat.
Proof.
  intros Hl. set (ps := map (fun i => KERNBASE + i * 4096) [0; 1; 2; 3; 4; 5; 6; 7]).
  change 8%nat with (length ps). apply submseteq_length, NoDup_submseteq.
  - apply (bool_decide_unpack _). by vm_compute.
  - intros q Hq. apply Hl. unfold page_ok. revert q Hq. apply Forall_forall.
    apply (bool_decide_unpack _). by vm_compute.
Qed.

Lemma demo_space : exists l g s old new w, vm_inv KERNBASE l g s /\
  tabs g !! (old, []) = Some old /\ tabs g !! (new, []) = Some new /\ old <> new /\
  (forall p, 0 <= kref g p) /\ leaves g = {[ (old, 0) := w ]} /\
  hasbit w PTE_U = true /\ hasbit w PTE_W = true /\ refs g (PTE2PA w) = 1.
Proof.
  destruct boot_state as (l & s & Hi & Hl). apply boot_length in Hl.
  destruct l as [|p1 [|p2 [|p3 l]]]; cbn in Hl; try lia.
  destruct (uvmcreate_spec KERNBASE ltac:(done) _ _ _ Hi) as (s1 & _ & Hi1 & Hev1).
  destruct (uvmcreate_spec KERNBASE ltac:(done) _ _ _ Hi1) as (s2 & _ & Hi2 & Hev2).
  set (g2 := add_tab (p2, []) p2 _) in Hi2, Hev2.
  assert (p1 <> p2) as Hne.
  { pose proof (ai_nodup _ _ _ (vi_alloc _ _ _ _ Hi)) as Hnd.
    apply NoDup_cons in Hnd as [Hnd _]. set_solver. }
  assert (tabs g2 !! (p1, []) = Some p1) as Hr1.
  { cbn. rewrite lookup_insert_ne by congruence. apply lookup_insert_eq. }
  assert (tabs g2 !! (p2, []) = Some p2) as Hr2 by apply lookup_insert_eq.
  destruct (alloc_page KERNBASE ltac:(done) l p3 g2 s2 p1 0 22) as (s3 & _ & _ & l' & g' & s' & x & _ & Hres);
    [done|done|done|done|done|lia|done|].
  destruct Hres as [(_ & Hi' & Hl' & Hev' & _)|(_ & Hshort & _)]; [|lia].
  change (leaves g2) with (∅ : gmap (Z * Z) Z) in Hl'. change (vpn 0) with 0 in Hl'.
  assert (forall p, kref g' p = 0) as Hk.
  { intros p. rewrite (ev_kref _ _ _ _ _ _ _ Hev'), (ev_kref _ _ _ _ _ _ _ Hev2), (ev_kref _ _ _ _ _ _ _ Hev1). done. }
  destruct (free_page _ _ _ _ p3 Hi2) as (Hp3 & _); [set_solver|].
  pose proof (page_ok_range _ ltac:(done) _ Hp3) as Hr3.
  destruct (pte_of_facts p3 22) as (_ & _ & Epa & Efl); [layout; lia|apply Hp3|lia|].
  exists l', g', s', p1, p2, (pte_of p3 22). split; [done|].
  split; [by eapply (evolves_root _ _ _ _ _ _ _ _ Hev')|].
  split; [by eapply (evolves_root _ _ _ _ _ _ _ _ Hev')|]. split; [done|].
  split; [intros p; rewrite Hk; done|]. split; [by rewrite Hl', insert_empty|].
  rewrite hasbit_U, hasbit_W, !(flags_testbit (pte_of p3 22)), Efl by lia.
  split; [done|]. split; [done|]. unfold refs. rewrite Hk, Epa.
  transitivity (leafref (mkabs (tabs g') (<[(p1, 0) := pte_of p3 22]> ∅) (kown g')) p3 + 0).
  { unfold leafref. cbn. by rewrite Hl'. }
  rewrite leafref_add, hit_user, Epa, decide_True by done. done.
Qed.

(** ** Theorems *)

(** C1.  fork's [uvmcopy]: with enough memory the child's view of the first
    [sz] bytes is the parent's and no shared page is writable; without it the
    child maps nothing.  In both cases every other view, the parent's
    included, is what it was, the page-table invariant (reference counts
    included) holds, and no page that was in use becomes free. *)
Theorem uvmcopy_forks end_ l g s old new sz :
  KERNBASE <= end_ -> vm_inv end_ l g s ->
  tabs g !! (old, []) = Some old -> tabs g !! (new, []) = Some new -> old <> new ->
  0 <= sz <= TRAPFRAME ->
  (forall m, 0 <= m < npages sz -> is_Some (leaves g !! (old, m))) ->
  (forall m, 0 <= m < npages sz -> leaves g !! (new, m) = None) ->
  (forall p, 0 <= kref g p) ->
  (forall m w, 0 <= m < npages sz -> leaves g !! (old, m) = Some w -> refs g (PTE2PA w) <= 254) ->
  exists x l' g' s', uvmcopy end_ old new sz s = Ok x s' /\ vm_inv end_ l' g' s' /\
    (forall p, p ∈ l' -> p ∈ l) /\
    ((x = 0 /\
      (forall va, 0 <= va < npages sz * PGSIZE -> uview g' s' new va = uview g s old va /\
         ~ writable g' old va /\ ~ writable g' new va) /\
      (forall r va, user_vpn (vpn va) -> r <> new \/ npages sz <= vpn va ->
         uview g' s' r va = uview g s r va)) \/
     (x = -1 /\ (forall m, 0 <= m < npages sz -> leaves g' !! (new, m) = None) /\
      (forall r va, 0 <= va -> user_vpn (vpn va) -> uview g' s' r va = uview g s r va))).
Proof.
  intros He Hi Ho Hn Hne Hsz Hm Hf Hk Hr.
  destruct (uvmcopy_spec end_ He l g s old new sz) as (l' & g' & s' & x & E & Hi' & Hev & Hres); try done.
  exists x, l', g', s'. split; [done|]. split; [done|]. split; [apply Hev|].
  pose proof (npages_top sz Hsz) as Ht.
  destruct Hres as [[-> Hsh]|[-> Hro]]; [left|right]; (split; [done|]).
  - assert (forall va, 0 <= va < npages sz * PGSIZE -> 0 <= vpn va < npages sz /\ user_vpn (vpn va)) as Hv.
    { intros va Hva. split; [|apply user_below; lia]. unfold vpn.
      split; [apply Z.div_pos; done || lia|apply Z.div_lt_upper_bound; [done|lia]]. }
    split.
    + intros va Hva. destruct (Hv va Hva) as [Hv1 Hu].
      split; [by apply (shared_view end_ He l g s old new (npages sz) l')|].
      assert (forall r, writable g' r va -> r = old \/ r = new -> False) as Hw.
      { intros r (w & Hw & _ & HW) Hr'. rewrite Hsh, decide_True in Hw by lia.
        destruct (Hm (vpn va) Hv1) as [v Hv'].
        destruct Hr' as [-> | ->]; [rewrite decide_True in Hw by done|rewrite decide_False, decide_True in Hw by done];
          rewrite Hv' in Hw; injection Hw as <-; [by rewrite share_pte_W in HW|].
        destruct (vi_leafok _ _ _ _ Hi _ _ _ Hv') as [_ Hok]. destruct (Hok Hu) as (Hpo & _).
        pose proof (page_ok_range _ He _ Hpo).
        destruct (pte_of_facts (PTE2PA v) (PTE_FLAGS (share_pte v))) as (_ & _ & _ & Efl);
          [layout; lia|apply Hpo|apply PTE_FLAGS_range|].
        unfold child_pte in HW. rewrite hasbit_W, flags_testbit, Efl, Z.lor_spec, <- flags_testbit in HW by lia.
        rewrite <- hasbit_W, share_pte_W in HW. done. }
      split; intros H; eapply Hw; eauto.
    + intros r va Hu Hrv. apply (shared_view end_ He l g s old new (npages sz) l'); try done.
      destruct Hrv; [by left|right; lia].
  - split; [apply Hro|]. intros r va H0 Hu. by eapply (rolled_view end_).
Qed.

Lemma uvmcopy_forks_witness : exists l g s old new x l' g' s',
  uvmcopy KERNBASE old new 4096 s = Ok x s' /\ vm_inv KERNBASE l g s /\ vm_inv KERNBASE l' g' s'.
Proof.
  destruct demo_space as (l & g & s & old & new & w & Hi & Ho & Hn & Hne & Hk & Hl & _ & _ & Hr).
  destruct (uvmcopy_forks KERNBASE l g s old new 4096) as (x & l' & g' & s' & E & Hi' & _).
  - done.
  - exact Hi.
  - exact Ho.
  - exact Hn.
  - exact Hne.
  - done.
  - intros m Hm. change (npages 4096) with 1 in Hm. replace m with 0 by lia. rewrite Hl, lookup_singleton_eq. eauto.
  - intros m Hm. rewrite Hl, lookup_singleton_ne; [done|congruence].
  - exact Hk.
  - intros m v Hm Hv. change (npages 4096) with 1 in Hm. replace m with 0 in Hv by lia.
    rewrite Hl, lookup_singleton_eq in Hv. injection Hv as <-. rewrite Hr. lia.
  - exists l, g, s, old, new, x, l', g', s'. auto.
Defined.

(** C10.  The copy-on-write page fault: the handler either refuses, leaving the
    machine as it was, for one of the listed reasons, or it makes the page
    writable for the faulting process without changing the view of any
    process; the invariant, with all reference counts, is kept. *)
Theorem cow_fault_transparent end_ l g s r va :
  KERNBASE <= end_ -> vm_inv end_ l g s -> tabs g !! (r, []) = Some r ->
  0 <= va < 2 ^ 64 -> (forall p, 0 <= kref g p) ->
  (cow_page_fault_handler end_ r va s = Ok MINUS1 s /\ refused l g r va) \/
  (exists l' g' s', cow_page_fault_handler end_ r va s = Ok 0 s' /\ vm_inv end_ l' g' s' /\
     writable g' r va /\ (forall p, kref g' p = kref g p) /\
     (forall r' x, user_vpn (vpn x) -> uview g' s' r' x = uview g s r' x)).
Proof.
  intros He Hi Hr Hva Hk.
  destruct (cow_prepare end_ He l g s r va Hi Hr Hva Hk) as [?|(l' & g' & s' & E & Hi' & Q & HW & _ & V)];
    [by left|right].
  exists l', g', s'. split; [done|]. split; [done|]. split; [done|]. split; [apply Q|done].
Qed.

Lemma cow_fault_transparent_witness : exists l g s r,
  vm_inv KERNBASE l g s /\
  ((cow_page_fault_handler KERNBASE r 8 s = Ok MINUS1 s /\ refused l g r 8) \/
   exists l' g' s', cow_page_fault_handler KERNBASE r 8 s = Ok 0 s' /\ vm_inv KERNBASE l' g' s' /\
     writable g' r 8).
Proof.
  destruct demo_space as (l & g & s & old & new & w & Hi & Ho & Hn & Hne & Hk & Hl & _ & _ & Hr).
  exists l, g, s, old. split; [exact Hi|].
  destruct (cow_fault_transparent KERNBASE l g s old 8) as [H|(l' & g' & s' & E & Hi' & HW & _)].
  - done.
  - exact Hi.
  - exact Ho.
  - done.
  - exact Hk.
  - left. exact H.
  - right. exists l', g', s'. auto.
Defined.

(** C11.  [copyout] writes the user memory of exactly one address space: after
    it, [k] bytes of the view of [r] are the kernel buffer's, every other byte
    of every view is unchanged, and it fails only at an address where a write
    is refused.  It always returns. *)
Theorem copyout_isolated end_ l g s r dstva src len :
  KERNBASE <= end_ -> vm_inv end_ l g s -> tabs g !! (r, []) = Some r -> (forall p, 0 <= kref g p) ->
  0 <= dstva < 2 ^ 64 -> 0 <= len -> kbuf l g src len ->
  exists x l' g' s' k, copyout end_ r dstva src len s = Ok x s' /\ vm_inv end_ l' g' s' /\
    (forall r' va, user_vpn (vpn va) -> uview g' s' r' va =
       if decide (r' = r /\ dstva <= va < dstva + k) then Some (ld8 (mem s) (src + (va - dstva)))
       else uview g s r' va) /\
    ((x = 0 /\ k = len) \/ (x = -1 /\ 0 <= k < len /\ refused l' g' r (dstva + k))).
Proof.
  intros He Hi Hr Hk Hva Hlen Hkb.
  destruct (copyout_spec end_ He l g s r dstva src len) as (x & l' & g' & s' & k & E & [I R Q V X]); try done.
  exists x, l', g', s', k. split; [done|]. split; [done|]. split; [done|].
  destruct X as [[? ?]|(? & ? & ?)]; [by left|right]. split; [done|]. split; [lia|done].
Qed.

Lemma copyout_isolated_witness : exists l g s r x l' g' s',
  copyout KERNBASE r 100 4096 200 s = Ok x s' /\ vm_inv KERNBASE l g s /\ vm_inv KERNBASE l' g' s'.
Proof.
  destruct demo_space as (l & g & s & old & new & w & Hi & Ho & Hn & Hne & Hk & Hl & _ & _ & Hr).
  destruct (copyout_isolated KERNBASE l g s old 100 4096 200) as (x & l' & g' & s' & k & E & Hi' & _).
  - done.
  - exact Hi.
  - exact Ho.
  - exact Hk.
  - done.
  - done.
  - apply (low_kbuf KERNBASE l g s); [exact Hi|done].
  - exists l, g, s, old, x, l', g', s'. auto.
Defined.

(** [copyin] always returns; on success the buffer holds the user's
    bytes, on failure a prefix of them up to the first address the user may
    not read; nothing else in memory changes. *)
Theorem copyin_reads end_ l g s r dst srcva len :
  KERNBASE <= end_ -> vm_inv end_ l g s -> tabs g !! (r, []) = Some r ->
  0 <= srcva < 2 ^ 64 -> 0 <= len -> kbuf l g dst len ->
  exists x s' k, copyin r dst srcva len s = Ok x s' /\ vm_inv end_ l g s' /\ 0 <= k <= len /\
    (forall y, ld8 (mem s') y = if inrange dst k y then default 0 (uview g s r (srcva + (y - dst)))
                               else ld8 (mem s) y) /\
    (forall i, 0 <= i < k -> uaddr g r (srcva + i) <> 0) /\
    ((x = 0 /\ k = len) \/ (x = -1 /\ k < len /\ uaddr g r (srcva + k) = 0)).
Proof.
  intros He Hi Hr Hva Hlen Hkb.
  destruct (copyin_spec end_ He l g s r dst srcva len) as (x & s' & k & E & Hi' & [R M A X S]); try done.
  exists x, s', k. done.
Qed.

Lemma copyin_reads_witness : exists l g s r x s',
  vm_inv KERNBASE l g s /\ copyin r 4096 100 200 s = Ok x s' /\ vm_inv KERNBASE l g s'.
Proof.
  destruct demo_space as (l & g & s & old & new & w & Hi & Ho & Hn & Hne & Hk & Hl & _ & _ & Hr).
  destruct (copyin_reads KERNBASE l g s old 4096 100 200) as (x & s' & k & E & Hi' & _).
  - done.
  - exact Hi.
  - exact Ho.
  - done.
  - done.
  - apply (low_kbuf KERNBASE l g s); [exact Hi|done].
  - exists l, g, s, old, x, s'. auto.
Defined.

(** [copyinstr] always returns; 0 exactly when a NUL lies within [max]
    readable bytes, and then the buffer holds the user's string with its NUL;
    otherwise -1.  It writes at most [max] bytes. *)
Theorem copyinstr_string end_ l g s r dst srcva max :
  KERNBASE <= end_ -> vm_inv end_ l g s -> tabs g !! (r, []) = Some r ->
  0 <= srcva < 2 ^ 64 -> 0 <= max -> kbuf l g dst max ->
  exists x s' k, copyinstr r dst srcva max s = Ok x s' /\ vm_inv end_ l g s' /\ 0 <= k <= max /\
    (forall y, ~ (dst <= y < dst + max) -> ld8 (mem s') y = ld8 (mem s) y) /\
    (forall i, 0 <= i < k -> exists b, uview g s r (srcva + i) = Some b /\ b <> 0 /\ ld8 (mem s') (dst + i) = b) /\
    ((x = 0 /\ k < max /\ uview g s r (srcva + k) = Some 0 /\ ld8 (mem s') (dst + k) = 0) \/
     (x = -1 /\ (k = max \/ uaddr g r (srcva + k) = 0))).
Proof.
  intros He Hi Hr Hva Hmax Hkb.
  destruct (copyinstr_spec end_ He l g s r dst srcva max) as (x & s' & k & E & Hi' & [R M C X A S]); try done.
  exists x, s', k. split; [done|]. split; [done|]. split; [done|].
  assert (0 <= upto (x =? 0) k <= max) as Hup.
  { unfold upto. destruct X as [(-> & ? & _)|(-> & _)]; cbn; lia. }
  split; [|split].
  - intros y Hy. rewrite M. by rewrite (proj2 (inrange_false _ _ _)) by lia.
  - intros i Hir. destruct (C i Hir) as (b & Hb & Hnz). exists b. split; [done|]. split; [done|].
    rewrite M, (proj2 (inrange_true _ _ _)) by (unfold upto; destruct (x =? 0); lia).
    replace (srcva + (dst + i - dst)) with (srcva + i) by lia. by rewrite Hb.
  - destruct X as [(-> & Hlt & Hz)|X]; [left|by right]. split; [done|]. split; [done|]. split; [done|].
    rewrite M, (proj2 (inrange_true _ _ _)) by (cbn; lia).
    replace (srcva + (dst + k - dst)) with (srcva + k) by lia. by rewrite Hz.
Qed.

Lemma copyinstr_string_witness : exists l g s r x s',
  vm_inv KERNBASE l g s /\ copyinstr r 4096 100 128 s = Ok x s' /\ vm_inv KERNBASE l g s'.
Proof.
  destruct demo_space as (l & g & s & old & new & w & Hi & Ho & Hn & Hne & Hk & Hl & _ & _ & Hr).
  destruct (copyinstr_string KERNBASE l g s old 4096 100 128) as (x & s' & k & E & Hi' & _).
  - done.
  - exact Hi.
  - exact Ho.
  - done.
  - done.
  - apply (low_kbuf KERNBASE l g s); [exact Hi|done].
  - exists l, g, s, old, x, s'. auto.
Defined.

(** [uvmalloc] from [oldsz] to [newsz]: on success every new page is
    mapped with the requested permissions to a page taken from the free list
    that is all zeroes; on failure (0) the address space is exactly what it
    was.  Other views do not change and no page in use is freed. *)
Theorem uvmalloc_grows end_ l g s r oldsz newsz xperm :
  KERNBASE <= end_ -> vm_inv end_ l g s -> tabs g !! (r, []) = Some r ->
  0 <= oldsz <= newsz -> newsz <= TRAPFRAME -> 0 <= xperm < 1024 ->
  (forall m, npages oldsz <= m < npages newsz -> leaves g !! (r, m) = None) ->
  (forall p, 0 <= kref g p) ->
  exists x l' g' s', uvmalloc end_ r oldsz newsz xperm s = Ok x s' /\ vm_inv end_ l' g' s' /\
    (forall p, p ∈ l' -> p ∈ l) /\
    (forall r' va, user_vpn (vpn va) -> r' <> r \/ ~ (npages oldsz <= vpn va < npages newsz) ->
       uview g' s' r' va = uview g s r' va) /\
    ((x = newsz /\ (forall va, 0 <= va -> npages oldsz <= vpn va < npages newsz ->
        uview g' s' r va = Some 0 /\
        exists p, p ∈ l /\ leaves g' !! (r, vpn va) = Some (pte_of p (Z.lor (Z.lor PTE_R PTE_U) xperm)))) \/
     (x = 0 /\ leaves g' = leaves g)).
Proof.
  intros He Hi Hr Ho Hn Hx Hf Hk.
  destruct (uvmalloc_spec end_ He l g s r oldsz newsz xperm) as (l' & g' & s' & x & E & Hi' & Hev & Hres); try done.
  exists x, l', g', s'. split; [done|]. split; [done|]. split; [apply Hev|].
  assert (forall r' m, r' <> r \/ ~ (npages oldsz <= m < npages newsz) -> leaves g' !! (r', m) = leaves g !! (r', m)) as Hsame.
  { intros r' m Hrm. destruct Hres as [[-> [_ Hrest]]|[-> ->]]; [|done]. apply Hrest. tauto. }
  split.
  { intros r' va Hu Hrv. apply uview_same.
    - intros w Hw. split; [|by eapply (evolves_leaf end_)]. exists w. by rewrite Hsame.
    - intros Hw. by rewrite Hsame. }
  destruct Hres as [[-> [Hg _]]|?]; [left|by right]. split; [done|]. intros va H0 Hva.
  destruct (Hg _ Hva) as (p & Hp & Hlv & Hz).
  split; [|by exists p]. unfold uview. rewrite Hlv. f_equal.
  destruct (free_page _ _ _ _ p Hi Hp) as (Hpo & _). pose proof (page_ok_range _ He _ Hpo).
  destruct (pte_of_facts p (Z.lor (Z.lor PTE_R PTE_U) xperm)) as (_ & _ & -> & _); [layout; lia|apply Hpo| |].
  { change 1024 with (2 ^ 10) in *. apply lor_range; [lia|done|done]. }
  apply Hz, Z.mod_pos_bound. done.
Qed.

Lemma uvmalloc_grows_witness : exists l g s r x l' g' s',
  vm_inv KERNBASE l g s /\ uvmalloc KERNBASE r 4096 12288 4 s = Ok x s' /\ vm_inv KERNBASE l' g' s'.
Proof.
  destruct demo_space as (l & g & s & old & new & w & Hi & Ho & Hn & Hne & Hk & Hl & _ & _ & Hr).
  destruct (uvmalloc_grows KERNBASE l g s old 4096 12288 4) as (x & l' & g' & s' & E & Hi' & _).
  - done.
  - exact Hi.
  - exact Ho.
  - done.
  - done.
  - done.
  - intros m Hm. change (npages 4096) with 1 in Hm. rewrite Hl, lookup_singleton_ne; [done|]. intros [=]. lia.
  - exact Hk.
  - exists l, g, s, old, x, l', g', s'. auto.
Defined.

(** [uvmdealloc] from [oldsz] to a smaller [newsz] removes exactly the
    pages above [newsz] from this address space; every other view, shared
    pages included, is unchanged. *)
Theorem uvmdealloc_shrinks end_ l g s r oldsz newsz :
  KERNBASE <= end_ -> vm_inv end_ l g s -> tabs g !! (r, []) = Some r ->
  0 <= newsz -> 0 <= oldsz <= TRAPFRAME ->
  (forall m, npages newsz <= m < npages oldsz -> is_Some (leaves g !! (r, m))) ->
  (forall p, 0 <= kref g p) ->
  exists l' g' s', uvmdealloc end_ r oldsz newsz s = Ok (Z.min oldsz newsz) s' /\ vm_inv end_ l' g' s' /\
    tabs g' = tabs g /\
    (forall r' va, user_vpn (vpn va) -> uview g' s' r' va =
       if decide (r' = r /\ npages newsz <= vpn va < npages oldsz) then None else uview g s r' va).
Proof.
  intros He Hi Hr Hn Ho Hm Hk.
  destruct (uvmdealloc_spec end_ He l g s r oldsz newsz) as (l' & g' & s' & E & Hi' & Hl & Hs); try done.
  exists l', g', s'. split; [done|]. split; [done|]. split; [apply Hs|].
  intros r' va Hu. assert (leaves g' !! (r', vpn va) =
    if decide (r' = r /\ npages newsz <= vpn va < npages oldsz) then None else leaves g !! (r', vpn va)) as El.
  { rewrite Hl, del_range_lookup. apply decide_ext. lia. }
  destruct (decide (r' = r /\ npages newsz <= vpn va < npages oldsz)) as [|Hout]; [unfold uview; by rewrite El|].
  apply uview_same; [|congruence]. intros w Hw. split; [exists w; by rewrite El|].
  destruct (vi_leafok _ _ _ _ Hi _ _ _ Hw) as [_ Hok]. destruct (Hok Hu) as (Hpo & _ & Hpt).
  apply (sh_mem _ _ _ _ _ _ _ Hs); [apply Hpo| |done].
  rewrite <- El in Hw. by eapply (leaf_not_free end_).
Qed.

Lemma uvmdealloc_shrinks_witness : exists l g s r l' g' s',
  vm_inv KERNBASE l g s /\ uvmdealloc KERNBASE r 4096 0 s = Ok 0 s' /\ vm_inv KERNBASE l' g' s'.
Proof.
  destruct demo_space as (l & g & s & old & new & w & Hi & Ho & Hn & Hne & Hk & Hl & _ & _ & Hr).
  destruct (uvmdealloc_shrinks KERNBASE l g s old 4096 0) as (l' & g' & s' & E & Hi' & _).
  - done.
  - exact Hi.
  - exact Ho.
  - done.
  - done.
  - intros m Hm. change (npages 4096) with 1 in Hm. change (npages 0) with 0 in Hm.
    replace m with 0 by lia. rewrite Hl, lookup_singleton_eq. eauto.
  - exact Hk.
  - exists l, g, s, old, l', g', s'. auto.
Defined.
