(* ===== verification/Bio.v ===== *)
(** * kernel/bio.c and kernel/sleeplock.c: the buffer cache

    Buffers are indices 0 .. NBUF-1 of an array, linked through [prev] and
    [next] in order of use; index NBUF is [bcache.head].  The disk is what
    [virtio_disk_rw] reads and writes: block contents by block number, with
    the sequence of writes it has performed.  A block is the map from offsets
    to bytes that [Mem.v] loads from and stores to. *)

From S2P Require Import Prelude Riscv Mem Lock.
Local Open Scope Z_scope.

Abbreviation block := (gmap Z Z).

(** kernel/fs.h *)
Definition BSIZE : Z := 1024.

(** ** State *)

(** [struct buf]; [slock] is its sleep lock, with the pid that holds it. *)
Record buf := mkbuf {
  valid : bool; bdev : Z; blockno : Z; slock : option Z; refcnt : Z;
  prev : nat; next : nat; data : block
}.

Record bst := mkbst {
  bcache : nat -> buf;
  disk : gmap Z block;
  trace : list (Z * block);
  cur : Z;
  blocks_held : list string
}.

#[export] Instance bst_locks : Locks bst.
Proof.
  refine {| held := blocks_held;
            set_held l s := mkbst (bcache s) (disk s) (trace s) (cur s) l |}.
  - done.
  - done.
  - by intros [].
Defined.

Definition HEAD : nat := Z.to_nat NBUF.

Definition upd (i : nat) (f : buf -> buf) (s : bst) : bst :=
  mkbst (fun j => if Nat.eqb j i then f (bcache s i) else bcache s j) (disk s) (trace s) (cur s) (blocks_held s).

Definition set_valid v b := mkbuf v (bdev b) (blockno b) (slock b) (refcnt b) (prev b) (next b) (data b).
Definition set_slock o b := mkbuf (valid b) (bdev b) (blockno b) o (refcnt b) (prev b) (next b) (data b).
Definition set_refcnt f b := mkbuf (valid b) (bdev b) (blockno b) (slock b) (f (refcnt b)) (prev b) (next b) (data b).
Definition set_prev p b := mkbuf (valid b) (bdev b) (blockno b) (slock b) (refcnt b) p (next b) (data b).
Definition set_next n b := mkbuf (valid b) (bdev b) (blockno b) (slock b) (refcnt b) (prev b) n (data b).
Definition set_data d b := mkbuf (valid b) (bdev b) (blockno b) (slock b) (refcnt b) (prev b) (next b) d.

Definition getb {A} (i : nat) (f : buf -> A) : M bst A := gets (fun s => f (bcache s i)).
Definition setb (i : nat) (f : buf -> buf) : M bst unit := modify (upd i f).

(** The contents of a block on disk. *)
Definition dblock (s : bst) (b : Z) : block := default ∅ (disk s !! b).

(** virtio_disk.c [virtio_disk_rw], as its callers see it: the request has
    been performed when it returns. *)
Definition virtio_disk_rw (i : nat) (write : bool) : M bst unit := fun s =>
  let b := bcache s i in
  if write
  then Ok tt (mkbst (bcache s) (<[blockno b := data b]> (disk s)) (trace s ++ [(blockno b, data b)]) (cur s) (blocks_held s))
  else Ok tt (upd i (set_data (dblock s (blockno b))) s).

(** ** kernel/sleeplock.c, for the lock of a buffer

    A process that finds the lock taken sleeps until the holder releases it;
    with no other process to run, that is forever. *)
Definition acquiresleep (i : nat) : M bst unit :=
  acquire "sleep lock" ;;
  do! l <- getb i slock;
  match l with
  | Some _ => hang
  | None =>
      do! p <- gets cur;
      setb i (set_slock (Some p)) ;;
      release "sleep lock"
  end.

Definition releasesleep (i : nat) : M bst unit :=
  acquire "sleep lock" ;;
  setb i (set_slock None) ;;
  release "sleep lock".

Definition holdingsleep (i : nat) : M bst bool :=
  acquire "sleep lock" ;;
  do! l <- getb i slock;
  do! p <- gets cur;
  release "sleep lock" ;;
  ret (bool_decide (l = Some p)).

(** ** kernel/bio.c *)

(** Put buffer [b] right behind the head. *)
Definition link_head (b : nat) : M bst unit :=
  do! n <- getb HEAD next;
  setb b (set_next n) ;;
  setb b (set_prev HEAD) ;;
  setb n (set_prev b) ;;
  setb HEAD (set_next b).

Definition binit : M bst unit :=
  initlock "bcache" ;;
  setb HEAD (set_prev HEAD) ;;
  setb HEAD (set_next HEAD) ;;
  forz HEAD 0 (fun z =>
    let b := Z.to_nat z in
    do! n <- getb HEAD next;
    setb b (set_next n) ;;
    setb b (set_prev HEAD) ;;
    setb b (set_slock None) ;;
    setb n (set_prev b) ;;
    setb HEAD (set_next b)).

(** [for(b = ...; b != &head; b = b->dir) if(test(b)) found]: the list has
    at most NBUF elements. *)
Fixpoint scan (fuel : nat) (dir : buf -> nat) (test : buf -> bool) (b : nat) (s : bst) : option nat :=
  match fuel with
  | O => None
  | S f => if Nat.eqb b HEAD then None
           else if test (bcache s b) then Some b
           else scan f dir test (dir (bcache s b)) s
  end.

Definition bget (dev blk : Z) : M bst nat :=
  acquire "bcache" ;;
  do! hit <- gets (fun s => scan (S HEAD) next (fun b => (bdev b =? dev) && (blockno b =? blk)) (next (bcache s HEAD)) s);
  match hit with
  | Some b =>
      setb b (set_refcnt (fun r => u32 (r + 1))) ;;
      release "bcache" ;;
      acquiresleep b ;;
      ret b
  | None =>
      do! free <- gets (fun s => scan (S HEAD) prev (fun b => refcnt b =? 0) (prev (bcache s HEAD)) s);
      match free with
      | Some b =>
          setb b (fun x => mkbuf false dev blk (slock x) 1 (prev x) (next x) (data x)) ;;
          release "bcache" ;;
          acquiresleep b ;;
          ret b
      | None => panic "bget: no buffers"
      end
  end.

Definition bread (dev blk : Z) : M bst nat :=
  do! b <- bget dev blk;
  do! v <- getb b valid;
  (if v then ret tt else virtio_disk_rw b false ;; setb b (set_valid true)) ;;
  ret b.

Definition bwrite (b : nat) : M bst unit :=
  do! h <- holdingsleep b;
  if negb h then panic "bwrite" else virtio_disk_rw b true.

Definition brelse (b : nat) : M bst unit :=
  do! h <- holdingsleep b;
  if negb h then panic "brelse"
  else
    releasesleep b ;;
    acquire "bcache" ;;
    setb b (set_refcnt (fun r => u32 (r - 1))) ;;
    do! r <- getb b refcnt;
    (if r =? 0 then
       do! n <- getb b next;
       do! p <- getb b prev;
       setb n (set_prev p) ;;
       setb p (set_next n) ;;
       link_head b
     else ret tt) ;;
    release "bcache".

Definition bpin (b : nat) : M bst unit :=
  acquire "bcache" ;;
  setb b (set_refcnt (fun r => u32 (r + 1))) ;;
  release "bcache".

Definition bunpin (b : nat) : M bst unit :=
  acquire "bcache" ;;
  setb b (set_refcnt (fun r => u32 (r - 1))) ;;
  release "bcache".

#[global] Opaque HEAD.
