(* ===== verification/BioSpec.v ===== *)
(** * The list of buffers in order of use

    The circular doubly linked list of kernel/bio.c, as a list of indices:
    what the loops of [bget] find, and what unlinking a buffer and putting it
    behind the head do. *)

From S2P Require Import Prelude Riscv Mem Lock Bio.
Local Open Scope Z_scope.

(** Following [f] from [a] passes through [l] and arrives at [z]. *)
Fixpoint chain (f : nat -> nat) (a : nat) (l : list nat) (z : nat) : Prop :=
  match l with
  | [] => f a = z
  | x :: l' => f a = x /\ chain f x l' z
  end.

(** The last element of [a :: l]. *)
Fixpoint lst (a : nat) (l : list nat) : nat :=
  match l with [] => a | x :: l' => lst x l' end.

Definition fupd (f : nat -> nat) (k v : nat) : nat -> nat := fun j => if Nat.eqb j k then v else f j.

Definition nxt (s : bst) : nat -> nat := fun j => next (bcache s j).
Definition prv (s : bst) : nat -> nat := fun j => prev (bcache s j).

(** The buffers from most to least recently used. *)
Definition lru_list (s : bst) (l : list nat) : Prop :=
  chain (nxt s) HEAD l HEAD /\ chain (prv s) HEAD (rev l) HEAD.

Lemma fupd_eq f k v : fupd f k v k = v.
Proof. unfold fupd. by rewrite Nat.eqb_refl. Qed.
Lemma fupd_ne f k v j : j <> k -> fupd f k v j = f j.
Proof. intros H. unfold fupd. by rewrite (proj2 (Nat.eqb_neq j k)). Qed.

Lemma chain_ext f g a l z : (forall j, j ∈ a :: l -> f j = g j) -> chain f a l z -> chain g a l z.
Proof.
  revert a. induction l as [|x l IH]; intros a H; cbn.
  - rewrite H; [done|]. left.
  - intros [Hx Hl]. rewrite <- H by left. split; [done|]. apply IH; [|done].
    intros j Hj. apply H. by right.
Qed.

Lemma chain_app f a l1 x l2 z : chain f a (l1 ++ x :: l2) z <-> chain f a l1 x /\ chain f x l2 z.
Proof.
  revert a. induction l1 as [|y l1 IH]; intros a; cbn; [done|]. rewrite IH. tauto.
Qed.

Lemma chain_first f a l z : chain f a l z -> f a = List.hd z l.
Proof. destruct l; cbn; [done|by intros [? _]]. Qed.

Lemma lst_in a l : lst a l ∈ a :: l.
Proof. revert a. induction l as [|x l IH]; intros a; cbn; [left|]. right. apply IH. Qed.

Lemma lst_snoc a l x : lst a (l ++ [x]) = x.
Proof. revert a. induction l as [|y l IH]; intros a; cbn; [done|apply IH]. Qed.

Lemma lst_rev a l : lst a (rev l) = List.hd a l.
Proof. destruct l as [|x l]; cbn; [done|]. apply lst_snoc. Qed.

(** Redirecting the last link. *)
Lemma chain_redirect f a l z z' : chain f a l z -> NoDup (a :: l) -> chain (fupd f (lst a l) z') a l z'.
Proof.
  revert a. induction l as [|x l IH]; intros a Hc Hn; cbn [lst].
  - cbn. apply fupd_eq.
  - destruct Hc as [Hx Hc]. apply NoDup_cons in Hn as [Ha Hn]. split; [|by apply IH].
    rewrite fupd_ne; [done|]. intros E. apply Ha. rewrite E. apply lst_in.
Qed.

(** Taking [b] out of the list. *)
Lemma chain_unlink f H l1 b l2 : chain f H (l1 ++ b :: l2) H -> NoDup (H :: l1 ++ b :: l2) ->
  chain (fupd f (lst H l1) (f b)) H (l1 ++ l2) H.
Proof.
  intros [H1 H2]%chain_app Hn. apply NoDup_cons in Hn as [Ha Hn]. apply NoDup_app in Hn as (Hn1 & Hd & Hn2).
  assert (NoDup (H :: l1)) as Hn1' by (apply NoDup_cons; split; [set_solver|done]).
  pose proof (chain_redirect f H l1 b (f b) H1 Hn1') as Hr. pose proof (lst_in H l1) as Hp.
  set (p := lst H l1) in *.
  destruct l2 as [|n l2].
  - cbn in H2. rewrite app_nil_r. rewrite H2 in *. done.
  - destruct H2 as [Hb H2]. rewrite Hb in *. apply chain_app. split; [done|].
    eapply chain_ext; [|exact H2]. intros j Hj. rewrite fupd_ne; [done|]. intros ->.
    apply elem_of_cons in Hp as [Hp|Hp]; [rewrite Hp in *; set_solver|]. apply (Hd p Hp). by right.
Qed.

(** Putting [b] first. *)
Lemma chain_front f H b l : chain f H l H -> b ∉ H :: l -> NoDup (H :: l) ->
  chain (fupd (fupd f b (f H)) H b) H (b :: l) H.
Proof.
  intros Hc Hb Hn. apply NoDup_cons in Hn as [Ha Hn]. split; [apply fupd_eq|].
  assert (b <> H) as Hne by set_solver. destruct l as [|x l]; cbn in Hc |- *.
  - rewrite fupd_ne, fupd_eq by done. done.
  - destruct Hc as [Hx Hc]. split; [by rewrite fupd_ne, fupd_eq by done|].
    eapply chain_ext; [|exact Hc]. intros j Hj. rewrite !fupd_ne; [done|set_solver..].
Qed.

(** Putting [b] first, seen backwards. *)
Lemma chain_back f H b l : chain f H (rev l) H -> b ∉ H :: l -> NoDup (H :: l) ->
  chain (fupd (fupd f b H) (List.hd H l) b) H (rev (b :: l)) H.
Proof.
  intros Hc Hb Hn. cbn [rev]. apply chain_app. rewrite <- lst_rev.
  pose proof (lst_in H (rev l)) as Hl. assert (forall x, x ∈ rev l <-> x ∈ l) as Hrev.
  { intros x. by rewrite list_elem_of_In, <- in_rev, <- list_elem_of_In. }
  assert (lst H (rev l) <> b) as Hne.
  { intros E. rewrite E in Hl. apply Hb. apply elem_of_cons in Hl as [->|Hl]; [left|right; by apply Hrev]. }
  split.
  - eapply chain_redirect.
    + eapply chain_ext; [|exact Hc]. intros j Hj. rewrite fupd_ne; [done|]. intros ->. apply Hb.
      apply elem_of_cons in Hj as [->|Hj]; [left|right; by apply Hrev].
    + apply NoDup_cons in Hn as [Ha Hn]. apply NoDup_cons. rewrite Hrev. split; [done|].
      by rewrite <- Permutation_rev.
  - cbn. rewrite fupd_ne by congruence. apply fupd_eq.
Qed.

(** ** The loops of [bget] *)
Lemma scan_chain dir test s : forall l fuel b, chain (fun j => dir (bcache s j)) b l HEAD ->
  HEAD ∉ l -> (length l < fuel)%nat ->
  scan fuel dir test (dir (bcache s b)) s = List.find (fun i => test (bcache s i)) l.
Proof.
  induction l as [|x l IH]; intros fuel b Hc Hh Hf; (destruct fuel as [|fuel]; [cbn in Hf; lia|]); cbn in Hc |- *.
  - rewrite Hc, Nat.eqb_refl. done.
  - destruct Hc as [-> Hc]. apply not_elem_of_cons in Hh as [Hx Hh].
    rewrite (proj2 (Nat.eqb_neq x HEAD)) by congruence.
    destruct (test (bcache s x)); [done|]. apply IH; [done..|]. cbn in Hf. lia.
Qed.

(** ** Moving a buffer to the front *)

(** Everything of a buffer but its links. *)
Definition strip (b : buf) : bool * Z * Z * option Z * Z * block :=
  (valid b, bdev b, blockno b, slock b, refcnt b, data b).

(** The states differ in the links of the buffers only. *)
Definition links_only (s s' : bst) : Prop :=
  (forall j, strip (bcache s' j) = strip (bcache s j)) /\
  disk s' = disk s /\ trace s' = trace s /\ cur s' = cur s /\ blocks_held s' = blocks_held s.

Lemma links_only_refl s : links_only s s.
Proof. by split. Qed.
Lemma links_only_trans s1 s2 s3 : links_only s1 s2 -> links_only s2 s3 -> links_only s1 s3.
Proof.
  intros (B1 & D1 & T1 & C1 & H1) (B2 & D2 & T2 & C2 & H2).
  split; [intros j; by rewrite B2, B1|]. repeat split; congruence.
Qed.
Lemma links_only_prev i v s : links_only s (upd i (set_prev v) s).
Proof. split; [|done]. intros j. cbn. by destruct (Nat.eqb_spec j i) as [->|]. Qed.
Lemma links_only_next i v s : links_only s (upd i (set_next v) s).
Proof. split; [|done]. intros j. cbn. by destruct (Nat.eqb_spec j i) as [->|]. Qed.

Lemma nxt_set_next i v s j : nxt (upd i (set_next v) s) j = fupd (nxt s) i v j.
Proof. unfold nxt, fupd. cbn. by destruct (Nat.eqb_spec j i) as [->|]. Qed.
Lemma nxt_set_prev i v s j : nxt (upd i (set_prev v) s) j = nxt s j.
Proof. unfold nxt. cbn. by destruct (Nat.eqb_spec j i) as [->|]. Qed.
Lemma prv_set_prev i v s j : prv (upd i (set_prev v) s) j = fupd (prv s) i v j.
Proof. unfold prv, fupd. cbn. by destruct (Nat.eqb_spec j i) as [->|]. Qed.
Lemma prv_set_next i v s j : prv (upd i (set_next v) s) j = prv s j.
Proof. unfold prv. cbn. by destruct (Nat.eqb_spec j i) as [->|]. Qed.

Lemma rev_app_cons (l1 : list nat) b l2 : rev (l1 ++ b :: l2) = rev l2 ++ b :: rev l1.
Proof. rewrite rev_app_distr. cbn. by rewrite <- app_assoc. Qed.

Lemma unlink_lru s l1 b l2 : lru_list s (l1 ++ b :: l2) -> NoDup (HEAD :: l1 ++ b :: l2) ->
  lru_list (upd (prv s b) (set_next (nxt s b)) (upd (nxt s b) (set_prev (prv s b)) s)) (l1 ++ l2).
Proof.
  intros [Hn Hp] Hd. rewrite rev_app_cons in Hp.
  assert (prv s b = lst HEAD l1) as Ep.
  { apply chain_app in Hp as [_ Hp]. apply chain_first in Hp. rewrite Hp.
    rewrite <- (rev_involutive l1) at 2. by rewrite lst_rev. }
  assert (nxt s b = lst HEAD (rev l2)) as En.
  { apply chain_app in Hn as [_ Hn]. apply chain_first in Hn. by rewrite Hn, lst_rev. }
  split.
  - eapply chain_ext; [|apply (chain_unlink (nxt s) HEAD l1 b l2 Hn Hd)]. intros j _.
    rewrite nxt_set_next, <- Ep. unfold fupd. destruct (Nat.eqb j (prv s b)); [done|].
    by rewrite nxt_set_prev.
  - rewrite rev_app_distr. eapply chain_ext; [|apply (chain_unlink (prv s) HEAD (rev l2) b (rev l1) Hp)].
    + intros j _. rewrite prv_set_next, prv_set_prev, En. done.
    + rewrite <- rev_app_cons. apply NoDup_cons in Hd as [Ha Hd]. apply NoDup_cons.
      by rewrite <- Permutation_rev.
Qed.

Lemma link_head_lru s l b : lru_list s l -> b ∉ HEAD :: l -> NoDup (HEAD :: l) ->
  exists s', link_head b s = Ok tt s' /\ lru_list s' (b :: l) /\ links_only s s'.
Proof.
  intros [Hn Hp] Hb Hd. eexists. split; [reflexivity|].
  pose proof (chain_first _ _ _ _ Hn) as Ef.
  assert (nxt s HEAD <> b) as Hne.
  { rewrite Ef. destruct l as [|x l]; cbn; [set_solver|]. intros ->. apply Hb. right. left. }
  split; [split|].
  - eapply chain_ext; [|apply (chain_front (nxt s) HEAD b l Hn Hb Hd)]. intros j _.
    unfold nxt, fupd. cbn. destruct (Nat.eqb_spec j HEAD) as [->|]; [done|].
    destruct (Nat.eqb_spec j (next (bcache s HEAD))) as [->|]; cbn;
      destruct (Nat.eqb_spec (next (bcache s HEAD)) b); cbn; rewrite ?Nat.eqb_refl; cbn; try done;
      destruct (Nat.eqb_spec j b) as [->|]; cbn; rewrite ?Nat.eqb_refl; done.
  - eapply chain_ext; [|apply (chain_back (prv s) HEAD b l Hp Hb Hd)]. intros j _.
    rewrite <- Ef. unfold nxt, prv, fupd in *. cbn. destruct (Nat.eqb_spec j HEAD) as [->|];
      destruct (Nat.eqb_spec (next (bcache s HEAD)) b) as [E|]; try (by rewrite E in Hne);
      repeat (match goal with |- context [Nat.eqb ?x ?y] => destruct (Nat.eqb_spec x y); subst end; cbn); try done; congruence.
  - repeat (eapply links_only_trans; [|first [apply links_only_prev|apply links_only_next]]). apply links_only_refl.
Qed.

(** [brelse]'s six assignments move [b] to the front. *)
Lemma relink_lru s l b : lru_list s l -> NoDup (HEAD :: l) -> b ∈ l ->
  exists s' l', bind (getb b next) (fun n => bind (getb b prev) (fun p =>
      bind (setb n (set_prev p)) (fun _ => bind (setb p (set_next n)) (fun _ => link_head b)))) s = Ok tt s' /\
    lru_list s' (b :: l') /\ b :: l' ≡ₚ l /\ links_only s s'.
Proof.
  intros Hl Hd Hb. apply list_elem_of_split in Hb as (l1 & l2 & ->).
  pose proof (unlink_lru s l1 b l2 Hl Hd) as Hu. set (s1 := upd _ _ _) in Hu.
  assert (NoDup (b :: HEAD :: l1 ++ l2)) as [Hb Hd']%NoDup_cons.
  { eapply NoDup_Permutation_proper; [|exact Hd]. rewrite <- Permutation_middle. constructor. }
  destruct (link_head_lru s1 (l1 ++ l2) b Hu Hb Hd') as (s' & E & Hl' & Ho).
  exists s', (l1 ++ l2). split; [exact E|]. split; [done|].
  split; [by rewrite Permutation_middle|]. eapply links_only_trans; [|exact Ho].
  unfold s1. eapply links_only_trans; [apply links_only_prev|apply links_only_next].
Qed.

(** * The buffer cache as a block store

    The abstract store has the disk and, for every block some process holds
    or the log has pinned, its reference count, its contents and whether it is
    locked.  [bio_rep] says that the cache implements the store; each routine
    of kernel/bio.c is a transformation of the store.  Which buffer holds a
    block, and which one is recycled, is not visible in it. *)

Record lbuf := mklb { lref : Z; ldata : block; llock : bool }.
Record store := mkstore { live : gmap Z lbuf; sdisk : gmap Z block; strace : list (Z * block) }.

Definition sblock (A : store) (b : Z) : block := default ∅ (sdisk A !! b).
(** The contents of a block as a reader of the cache sees it. *)
Definition view (A : store) (b : Z) : block :=
  match live A !! b with Some x => ldata x | None => sblock A b end.

(** Buffer [i] holds the live block [b]. *)
Definition here (s : bst) (i : nat) (b : Z) : Prop :=
  (i < HEAD)%nat /\ 0 < refcnt (bcache s i) /\ blockno (bcache s i) = b.

Definition is_locked (x : buf) : bool := match slock x with Some _ => true | None => false end.

Definition buf_ok (dev : Z) (A : store) (p : Z) (x : buf) : Prop :=
  0 <= refcnt x < 2 ^ 32 /\
  if decide (refcnt x = 0) then
    slock x = None /\
    (bdev x = dev -> live A !! blockno x = None /\ (valid x = true -> data x = sblock A (blockno x)))
  else bdev x = dev /\ valid x = true /\
    live A !! blockno x = Some (mklb (refcnt x) (data x) (is_locked x)) /\
    (slock x = None \/ slock x = Some p).

Record bio_rep (dev : Z) (A : store) (s : bst) : Prop := {
  br_lru : exists l, lru_list s l /\ l ≡ₚ seq 0 HEAD;
  br_bcache : "bcache" ∉ blocks_held s;
  br_sleep : "sleep lock" ∉ blocks_held s;
  br_disk : disk s = sdisk A;
  br_trace : trace s = strace A;
  br_uniq : forall i j, (i < HEAD)%nat -> (j < HEAD)%nat -> bdev (bcache s i) = dev ->
    bdev (bcache s j) = dev -> blockno (bcache s i) = blockno (bcache s j) -> i = j;
  br_buf : forall i, (i < HEAD)%nat -> buf_ok dev A (cur s) (bcache s i);
  br_live : forall b x, live A !! b = Some x -> exists i, here s i b
}.

(** ** Transformations of the store *)
Definition set_live (b : Z) (x : lbuf) (A : store) : store :=
  mkstore (<[b := x]> (live A)) (sdisk A) (strace A).
Definition drop_live (b : Z) (A : store) : store := mkstore (delete b (live A)) (sdisk A) (strace A).

Definition read_store (b : Z) (A : store) : store :=
  set_live b (match live A !! b with
              | Some x => mklb (lref x + 1) (ldata x) true
              | None => mklb 1 (sblock A b) true
              end) A.
Definition write_store (b : Z) (d : block) (A : store) : store :=
  mkstore (live A) (<[b := d]> (sdisk A)) (strace A ++ [(b, d)]).
Definition release_store (b : Z) (x : lbuf) (A : store) : store :=
  if lref x =? 1 then drop_live b A else set_live b (mklb (lref x - 1) (ldata x) false) A.

Lemma here_buf dev A s i b : bio_rep dev A s -> here s i b ->
  bdev (bcache s i) = dev /\ valid (bcache s i) = true /\ 0 < refcnt (bcache s i) < 2 ^ 32 /\
  live A !! b = Some (mklb (refcnt (bcache s i)) (data (bcache s i)) (is_locked (bcache s i))) /\
  (slock (bcache s i) = None \/ slock (bcache s i) = Some (cur s)).
Proof.
  intros Hr (Hi & Hc & <-). destruct (br_buf _ _ _ Hr i Hi) as [Hb Hx].
  rewrite decide_False in Hx by lia. destruct Hx as (? & ? & ? & ?). repeat split; try done; lia.
Qed.

(** A live block is in one buffer. *)
Lemma here_inj dev A s i j b : bio_rep dev A s -> here s i b -> here s j b -> i = j.
Proof.
  intros Hr Hi Hj. destruct (here_buf _ _ _ _ _ Hr Hi) as (Di & _). destruct (here_buf _ _ _ _ _ Hr Hj) as (Dj & _).
  destruct Hi as (Li & _ & Bi), Hj as (Lj & _ & Bj). eapply (br_uniq _ _ _ Hr); congruence.
Qed.

(** [s'] is [s] with buffer [i] replaced. *)
Definition differs_at (s : bst) (i : nat) (x' : buf) (s' : bst) : Prop :=
  (forall j, bcache s' j = if decide (j = i) then x' else bcache s j) /\
  disk s' = disk s /\ trace s' = trace s /\ cur s' = cur s /\ blocks_held s' = blocks_held s.

Lemma upd_differs i f s : differs_at s i (f (bcache s i)) (upd i f s).
Proof.
  split; [|done]. intros j. cbn. destruct (Nat.eqb_spec j i); [by rewrite decide_True|by rewrite decide_False].
Qed.
Lemma differs_upd s i x s' f : differs_at s i x s' -> differs_at s i (f x) (upd i f s').
Proof.
  intros (B & D & T & C & H). split; [|done]. intros j. cbn.
  destruct (Nat.eqb_spec j i) as [->|]; rewrite B; [by rewrite !decide_True|by rewrite !decide_False].
Qed.

(** Only one buffer changes, links and disk stay. *)
Lemma rep_update dev A s i x' lv s' :
  bio_rep dev A s -> (i < HEAD)%nat -> differs_at s i x' s' ->
  prev x' = prev (bcache s i) -> next x' = next (bcache s i) -> bdev x' = dev ->
  (forall b, b <> blockno x' -> lv !! b = live A !! b) ->
  (0 < refcnt (bcache s i) -> blockno x' = blockno (bcache s i)) ->
  (forall j, (j < HEAD)%nat -> j <> i -> bdev (bcache s j) = dev -> blockno (bcache s j) <> blockno x') ->
  buf_ok dev (mkstore lv (sdisk A) (strace A)) (cur s) x' ->
  (is_Some (lv !! blockno x') -> 0 < refcnt x') ->
  bio_rep dev (mkstore lv (sdisk A) (strace A)) s'.
Proof.
  intros Hr Hi (Hb & Hdk & Htr & Hcu & Hhd) Hp Hn Hd Hlv Hold Hu Hok Hpos.
  constructor; rewrite ?Hdk, ?Htr, ?Hcu, ?Hhd; try apply Hr.
  - destruct (br_lru _ _ _ Hr) as (l & [Hln Hlp] & Hperm). exists l. split; [|done]. split.
    + eapply chain_ext; [|exact Hln]. intros j _. unfold nxt. rewrite Hb. by destruct (decide (j = i)) as [->|].
    + eapply chain_ext; [|exact Hlp]. intros j _. unfold prv. rewrite Hb. by destruct (decide (j = i)) as [->|].
  - intros j k Hj Hk. rewrite !Hb. destruct (decide (j = i)) as [->|], (decide (k = i)) as [->|]; try done.
    + intros _ Dk E. by destruct (Hu k Hk ltac:(done) Dk).
    + intros Dj _ E. by destruct (Hu j Hj ltac:(done) Dj).
    + by apply (br_uniq _ _ _ Hr).
  - intros j Hj. rewrite Hb. destruct (decide (j = i)) as [->|Hne]; [exact Hok|].
    destruct (br_buf _ _ _ Hr j Hj) as [Hrc Hx]. split; [done|].
    destruct (decide (refcnt (bcache s j) = 0)).
    + destruct Hx as [Hs Hx]. split; [done|]. intros Dj. destruct (Hx Dj) as [Hl Hv].
      cbn. rewrite Hlv by (by apply Hu). done.
    + destruct Hx as (Dj & Hv & Hl & Hs). split; [done|]. split; [done|]. cbn.
      rewrite Hlv by (by apply Hu). done.
  - intros b x Hx. cbn in Hx. destruct (decide (b = blockno x')) as [->|Hne].
    + exists i. split; [done|]. rewrite Hb, decide_True by done. split; [|done]. apply Hpos. eauto.
    + rewrite Hlv in Hx by done. destruct (br_live _ _ _ Hr b x Hx) as (j & Hj & Hc & Eb). exists j.
      split; [done|]. rewrite Hb. destruct (decide (j = i)) as [->|]; [|done].
      exfalso. apply Hne. rewrite Hold by lia. done.
Qed.

(** ** The routines in closed form *)
Lemma take_lock lk (s : bst) : lk ∉ blocks_held s ->
  acquire lk s = Ok tt (mkbst (bcache s) (disk s) (trace s) (cur s) (lk :: blocks_held s)).
Proof. intros H. by rewrite (acquire_ok lk s) by exact H. Qed.

Lemma acquiresleep_eq i s : "sleep lock" ∉ blocks_held s -> slock (bcache s i) = None ->
  acquiresleep i s = Ok tt (upd i (set_slock (Some (cur s))) s).
Proof.
  intros Hl Hs. unfold acquiresleep. rewrite (bind_ok _ _ _ _ _ (take_lock "sleep lock" s Hl)).
  unfold bind, getb, gets, setb, modify. cbn. rewrite Hs. by destruct s.
Qed.

Lemma releasesleep_eq i s : "sleep lock" ∉ blocks_held s ->
  releasesleep i s = Ok tt (upd i (set_slock None) s).
Proof.
  intros Hl. unfold releasesleep. rewrite (bind_ok _ _ _ _ _ (take_lock "sleep lock" s Hl)).
  by destruct s.
Qed.

Lemma holdingsleep_eq i s : "sleep lock" ∉ blocks_held s ->
  holdingsleep i s = Ok (bool_decide (slock (bcache s i) = Some (cur s))) s.
Proof.
  intros Hl. unfold holdingsleep. rewrite (bind_ok _ _ _ _ _ (take_lock "sleep lock" s Hl)).
  by destruct s.
Qed.

Lemma bpin_eq i s : "bcache" ∉ blocks_held s ->
  bpin i s = Ok tt (upd i (set_refcnt (fun r => u32 (r + 1))) s).
Proof.
  intros Hl. unfold bpin. rewrite (bind_ok _ _ _ _ _ (take_lock "bcache" s Hl)). by destruct s.
Qed.

Lemma bunpin_eq i s : "bcache" ∉ blocks_held s ->
  bunpin i s = Ok tt (upd i (set_refcnt (fun r => u32 (r - 1))) s).
Proof.
  intros Hl. unfold bunpin. rewrite (bind_ok _ _ _ _ _ (take_lock "bcache" s Hl)). by destruct s.
Qed.

(** The buffer [bget] takes for a block. *)
Definition cached (dev b : Z) (x : buf) : bool := (bdev x =? dev) && (blockno x =? b).

Lemma bget_eq dev b s l : "bcache" ∉ blocks_held s -> "sleep lock" ∉ blocks_held s ->
  lru_list s l -> l ≡ₚ seq 0 HEAD ->
  bget dev b s =
  match List.find (fun i => cached dev b (bcache s i)) l with
  | Some i => bind (acquiresleep i) (fun _ => ret i) (upd i (set_refcnt (fun r => u32 (r + 1))) s)
  | None =>
      match List.find (fun i => refcnt (bcache s i) =? 0) (rev l) with
      | Some i => bind (acquiresleep i) (fun _ => ret i)
          (upd i (fun x => mkbuf false dev b (slock x) 1 (prev x) (next x) (data x)) s)
      | None => Panic "bget: no buffers"
      end
  end.
Proof.
  intros Hb Hsl [Hn Hp] Hperm.
  assert (HEAD ∉ l) as Hh. { rewrite Hperm, elem_of_seq. lia. }
  assert (length l < S HEAD)%nat as Hlen by (rewrite Hperm, length_seq; lia).
  assert (HEAD ∉ rev l) as Hh' by (by rewrite <- Permutation_rev).
  assert (length (rev l) < S HEAD)%nat as Hlen' by (by rewrite length_rev).
  unfold bget. rewrite (bind_ok _ _ _ _ _ (take_lock "bcache" s Hb)).
  set (s1 := mkbst (bcache s) (disk s) (trace s) (cur s) ("bcache" :: blocks_held s)).
  rewrite (bind_ok _ _ s1 (List.find (fun i => cached dev b (bcache s i)) l) s1).
  2:{ unfold gets. f_equal. by apply (scan_chain next (cached dev b) s1 l). }
  destruct (List.find (fun i => cached dev b (bcache s i)) l) as [i|].
  { by destruct s. }
  rewrite (bind_ok _ _ s1 (List.find (fun i => refcnt (bcache s i) =? 0) (rev l)) s1).
  2:{ unfold gets. f_equal. by apply (scan_chain prev (fun x => refcnt x =? 0) s1 (rev l)). }
  destruct (List.find _ (rev l)) as [i|]; [|done]. by destruct s.
Qed.

Lemma find_cached dev A s l b i : bio_rep dev A s -> l ≡ₚ seq 0 HEAD -> (i < HEAD)%nat ->
  bdev (bcache s i) = dev -> blockno (bcache s i) = b ->
  List.find (fun j => cached dev b (bcache s j)) l = Some i.
Proof.
  intros Hr Hp Hi Hd Hb. destruct (List.find _ l) as [j|] eqn:E.
  - apply find_some in E as [Hj Hc]. apply list_elem_of_In in Hj. rewrite Hp, elem_of_seq in Hj.
    unfold cached in Hc. boolz. f_equal. eapply (br_uniq _ _ _ Hr); try done; try lia; congruence.
  - exfalso. assert (In i l) as Hin by (apply list_elem_of_In; rewrite Hp, elem_of_seq; lia).
    pose proof (find_none _ _ E i Hin) as Hc. cbn in Hc. unfold cached in Hc.
    by rewrite Hd, Hb, !Z.eqb_refl in Hc.
Qed.

(** Some buffer is unreferenced while fewer than NBUF blocks are live. *)
Lemma free_buffer dev A s : bio_rep dev A s -> (size (live A) < HEAD)%nat ->
  exists i, (i < HEAD)%nat /\ refcnt (bcache s i) = 0.
Proof.
  intros Hr Hsz. destruct (decide (Exists (fun i => refcnt (bcache s i) = 0) (seq 0 HEAD))) as [He|He].
  { apply Exists_exists in He as (i & Hi & E). apply elem_of_seq in Hi. exists i. split; [lia|done]. }
  exfalso. apply not_Exists_Forall in He; [|apply _]. rewrite Forall_forall in He.
  set (bs := map (fun i => blockno (bcache s i)) (seq 0 HEAD)).
  assert (HEAD <= size (dom (live A)))%nat; [|rewrite size_dom in *; lia].
  assert (length bs = HEAD) as <- by (unfold bs; by rewrite length_map, length_seq).
  change (size (dom (live A))) with (length (elements (dom (live A)))).
  apply submseteq_length, NoDup_submseteq.
  - unfold bs. apply NoDup_fmap_2_strong; [|apply NoDup_seq].
    intros i j Hi Hj E. pose proof (He i Hi) as Hi0. pose proof (He j Hj) as Hj0.
    apply elem_of_seq in Hi, Hj.
    destruct (br_buf _ _ _ Hr i ltac:(lia)) as [_ Hx]. rewrite decide_False in Hx by done.
    destruct (br_buf _ _ _ Hr j ltac:(lia)) as [_ Hy]. rewrite decide_False in Hy by done.
    by eapply (br_uniq _ _ _ Hr); [lia|lia|apply Hx|apply Hy|].
  - intros b Hb. unfold bs in Hb. apply list_elem_of_fmap in Hb as (i & -> & Hi).
    pose proof (He i Hi) as Hi0. apply elem_of_seq in Hi.
    destruct (br_buf _ _ _ Hr i ltac:(lia)) as [_ Hx]. rewrite decide_False in Hx by done.
    apply elem_of_elements, elem_of_dom. eexists. apply Hx.
Qed.

Lemma find_free s l : l ≡ₚ seq 0 HEAD -> (exists i, (i < HEAD)%nat /\ refcnt (bcache s i) = 0) ->
  exists i, List.find (fun j => refcnt (bcache s j) =? 0) (rev l) = Some i /\
    (i < HEAD)%nat /\ refcnt (bcache s i) = 0.
Proof.
  intros Hp (i & Hi & H0). destruct (List.find _ (rev l)) as [j|] eqn:E.
  - exists j. split; [done|]. apply find_some in E as [Hj Hc]. apply in_rev, list_elem_of_In in Hj.
    rewrite Hp, elem_of_seq in Hj. split; [lia|]. by apply Z.eqb_eq.
  - exfalso. assert (In i (rev l)) as Hin.
    { apply in_rev. rewrite rev_involutive. apply list_elem_of_In. rewrite Hp, elem_of_seq. lia. }
    pose proof (find_none _ _ E i Hin) as Hc. cbn in Hc. by rewrite H0 in Hc.
Qed.

(** ** Specifications *)

(** Buffers that hold a block keep holding it. *)
Definition keeps (A' : store) (s s' : bst) : Prop :=
  forall i b, here s i b -> is_Some (live A' !! b) -> here s' i b.

(** The locked buffer [bget] returns: the one that had the block, or a free
    one. *)
Definition got (dev b : Z) (A : store) (s : bst) (i : nat) (x : buf) : Prop :=
  (i < HEAD)%nat /\ bdev x = dev /\ blockno x = b /\ slock x = Some (cur s) /\
  refcnt x = match live A !! b with Some y => lref y + 1 | None => 1 end /\
  prev x = prev (bcache s i) /\ next x = next (bcache s i) /\
  (valid x = true -> data x = view A b) /\ (valid x = false -> live A !! b = None) /\
  (0 < refcnt (bcache s i) -> blockno (bcache s i) = b) /\
  (forall j, (j < HEAD)%nat -> j <> i -> bdev (bcache s j) = dev -> blockno (bcache s j) <> b).

Definition readable (A : store) (b : Z) : Prop :=
  match live A !! b with
  | Some x => llock x = false /\ lref x < 2 ^ 32 - 1
  | None => (size (live A) < HEAD)%nat
  end.

Lemma bget_hit dev A s b i : bio_rep dev A s -> readable A b -> (i < HEAD)%nat ->
  bdev (bcache s i) = dev -> blockno (bcache s i) = b ->
  exists s' x, bget dev b s = Ok i s' /\ differs_at s i x s' /\ got dev b A s i x.
Proof.
  intros Hr Hpre Hi Hd Hb. destruct (br_lru _ _ _ Hr) as (l & Hl & Hp).
  rewrite (bget_eq dev b s l (br_bcache _ _ _ Hr) (br_sleep _ _ _ Hr) Hl Hp).
  rewrite (find_cached dev A s l b i Hr Hp Hi Hd Hb).
  assert (slock (bcache s i) = None /\ u32 (refcnt (bcache s i) + 1) = match live A !! b with Some y => lref y + 1 | None => 1 end /\
    (valid (bcache s i) = true -> data (bcache s i) = view A b) /\ (valid (bcache s i) = false -> live A !! b = None))
    as (Hs & Hc & Hv & Hv').
  { destruct (br_buf _ _ _ Hr i Hi) as [Hrc Hx]. unfold readable, view in *.
    destruct (decide (refcnt (bcache s i) = 0)) as [E|E].
    - destruct Hx as [Hs Hx]. destruct (Hx Hd) as [Hlv Hv]. rewrite Hb in Hlv, Hv. rewrite Hlv, E.
      split; [done|]. split; [done|]. split; [done|done].
    - destruct Hx as (_ & Hv & Hlv & Hs). rewrite Hb in Hlv. rewrite Hlv in Hpre |- *. cbn in Hpre |- *.
      destruct Hpre as [Hlk Hmax]. split; [unfold is_locked in Hlk; by destruct (slock (bcache s i))|].
      rewrite u32_small by lia. split; [done|]. split; [done|]. congruence. }
  set (s1 := upd i (set_refcnt (fun r => u32 (r + 1))) s).
  assert (bcache s1 i = set_refcnt (fun r => u32 (r + 1)) (bcache s i)) as E1.
  { unfold s1. cbn. by rewrite Nat.eqb_refl. }
  rewrite (bind_ok _ _ _ _ _ (acquiresleep_eq i s1 (br_sleep _ _ _ Hr) ltac:(by rewrite E1))).
  eexists _, _. split; [reflexivity|]. split; [apply (differs_upd s), upd_differs|].
  unfold got. cbn. repeat (split; [done|]). intros j Hj Hne Dj Ej. apply Hne.
  eapply (br_uniq _ _ _ Hr); congruence.
Qed.

Lemma bget_miss dev A s b : bio_rep dev A s -> readable A b ->
  (forall i, (i < HEAD)%nat -> bdev (bcache s i) = dev -> blockno (bcache s i) <> b) ->
  exists i s' x, bget dev b s = Ok i s' /\ differs_at s i x s' /\ got dev b A s i x.
Proof.
  intros Hr Hpre Hno. destruct (br_lru _ _ _ Hr) as (l & Hl & Hp).
  rewrite (bget_eq dev b s l (br_bcache _ _ _ Hr) (br_sleep _ _ _ Hr) Hl Hp).
  assert (live A !! b = None) as Hlv.
  { destruct (live A !! b) as [y|] eqn:E; [|done]. destruct (br_live _ _ _ Hr b y E) as (i & Hh).
    destruct (here_buf _ _ _ _ _ Hr Hh) as (Dj & _). destruct Hh as (Hi & _ & Eb). by destruct (Hno i Hi Dj). }
  unfold readable in Hpre. rewrite Hlv in Hpre.
  destruct (List.find (fun i => cached dev b (bcache s i)) l) as [i|] eqn:Ef.
  { apply find_some in Ef as [Hin Hc]. apply list_elem_of_In in Hin. rewrite Hp, elem_of_seq in Hin.
    unfold cached in Hc. boolz. by destruct (Hno i ltac:(lia)). }
  destruct (find_free s l Hp (free_buffer dev A s Hr Hpre)) as (i & -> & Hi & H0).
  destruct (br_buf _ _ _ Hr i Hi) as [_ Hx]. rewrite decide_True in Hx by done. destruct Hx as [Hs _].
  set (f := fun x : buf => mkbuf false dev b (slock x) 1 (prev x) (next x) (data x)).
  assert (bcache (upd i f s) i = f (bcache s i)) as E1 by (cbn; by rewrite Nat.eqb_refl).
  rewrite (bind_ok _ _ _ _ _ (acquiresleep_eq i (upd i f s) (br_sleep _ _ _ Hr) ltac:(by rewrite E1))).
  eexists i, _, _. split; [reflexivity|]. split; [apply (differs_upd s), upd_differs|].
  unfold got. cbn. rewrite Hlv. repeat (split; [done|]). split; [lia|]. intros j Hj _. by apply Hno.
Qed.

Lemma got_rep dev b A s i x s' : bio_rep dev A s -> got dev b A s i x -> differs_at s i x s' ->
  valid x = true -> refcnt x < 2 ^ 32 ->
  bio_rep dev (read_store b A) s' /\ here s' i b /\ keeps (read_store b A) s s'.
Proof.
  intros Hr (Hi & Hd & Hb & Hs & Hc & Hp & Hn & Hv & _ & Hold & Hu) Hdiff Hval Hmax.
  assert (1 <= refcnt x) as Hc1.
  { rewrite Hc. destruct (live A !! b) as [y|] eqn:Ey; [|lia].
    destruct (br_live _ _ _ Hr b y Ey) as (j & Hh).
    destruct (here_buf _ _ _ _ _ Hr Hh) as (_ & _ & ? & El & _). rewrite Ey in El. injection El as ->. cbn. lia. }
  assert (here s' i b) as Hhere.
  { split; [done|]. destruct Hdiff as (B & _). rewrite B, decide_True by done. split; [lia|done]. }
  split; [|split; [done|]].
  - unfold read_store, set_live. subst b. apply (rep_update dev A s i x); try done.
    + intros c Hne. by rewrite lookup_insert_ne by congruence.
    + by intros ->%Hold.
    + split; [lia|]. rewrite decide_False by lia. split; [done|]. split; [done|]. split.
      * cbn. rewrite lookup_insert_eq. unfold is_locked. rewrite Hs, (Hv Hval). unfold view.
        rewrite Hc. by destruct (live A !! blockno x).
      * by right.
    + intros _. lia.
  - intros j c Hj _. destruct Hdiff as (B & _). destruct (decide (j = i)) as [->|Hne].
    + destruct Hj as (_ & Hc' & <-). rewrite Hold by done. done.
    + unfold here. rewrite B, decide_False by done. done.
Qed.

Lemma bread_spec dev A s b : bio_rep dev A s -> readable A b ->
  exists i s', bread dev b s = Ok i s' /\ bio_rep dev (read_store b A) s' /\ here s' i b /\
    keeps (read_store b A) s s' /\ cur s' = cur s.
Proof.
  intros Hr Hpre.
  assert (exists i s' x, bget dev b s = Ok i s' /\ differs_at s i x s' /\ got dev b A s i x)
    as (i & s1 & x & E & Hdiff & Hgot).
  { destruct (decide (Exists (fun i => bdev (bcache s i) = dev /\ blockno (bcache s i) = b) (seq 0 HEAD))) as [He|He].
    - apply Exists_exists in He as (i & Hi%elem_of_seq & Hd & Hb).
      destruct (bget_hit dev A s b i Hr Hpre ltac:(lia) Hd Hb) as (s1 & x & ?). by exists i, s1, x.
    - apply bget_miss; try done. intros i Hi Hd Hb. apply He, Exists_exists. exists i.
      split; [apply elem_of_seq; lia|done]. }
  unfold bread. rewrite (bind_ok _ _ _ _ _ E). pose proof Hdiff as (B & Dk & Tr & Cu & Hh).
  assert (refcnt x < 2 ^ 32) as Hmax.
  { destruct Hgot as (_ & _ & _ & _ & -> & _). unfold readable in Hpre. destruct (live A !! b); lia. }
  assert (bcache s1 i = x) as Ex by (rewrite B; by rewrite decide_True).
  rewrite (bind_ok _ _ s1 (valid x) s1) by (unfold getb, gets; by rewrite Ex).
  destruct (valid x) eqn:Hval.
  - destruct (got_rep dev b A s i x s1 Hr Hgot Hdiff Hval Hmax) as (Hr' & Hh' & Hk). exists i, s1. done.
  - set (x2 := set_valid true (set_data (dblock s (blockno x)) x)).
    set (s2 := upd i (set_valid true) (upd i (set_data (dblock s1 (blockno x))) s1)).
    assert (differs_at s i x2 s2) as Hd2.
    { unfold s2, x2. replace (dblock s1 (blockno x)) with (dblock s (blockno x)) by (unfold dblock; by rewrite Dk).
      apply differs_upd, (differs_upd s i x s1 (set_data (dblock s (blockno x))) Hdiff). }
    assert (got dev b A s i x2) as Hg2.
    { destruct Hgot as (Hi & Hd & Hb & Hs & Hc & Hp & Hn & Hv & Hv' & Hold & Hu). specialize (Hv' Hval).
      unfold x2, got. cbn. repeat (split; [done|]). split; [|done].
      intros _. unfold view. rewrite Hv', Hb. unfold dblock, sblock. by rewrite (br_disk _ _ _ Hr). }
    destruct (got_rep dev b A s i x2 s2 Hr Hg2 Hd2 eq_refl Hmax) as (Hr' & Hh' & Hk).
    exists i, s2. split; [|done]. unfold bind, virtio_disk_rw, setb, modify, ret. by rewrite Ex.
Qed.

(** A held buffer changes its contents, count or lock, and stays held. *)
Lemma held_update dev A s i b f x : bio_rep dev A s -> here s i b ->
  (forall y, bdev (f y) = bdev y /\ blockno (f y) = blockno y /\ prev (f y) = prev y /\ next (f y) = next y /\
     valid (f y) = valid y) ->
  x = mklb (refcnt (f (bcache s i))) (data (f (bcache s i))) (is_locked (f (bcache s i))) ->
  0 < lref x < 2 ^ 32 ->
  slock (f (bcache s i)) = None \/ slock (f (bcache s i)) = Some (cur s) ->
  bio_rep dev (set_live b x A) (upd i f s) /\ here (upd i f s) i b /\
  keeps (set_live b x A) s (upd i f s) /\ cur (upd i f s) = cur s.
Proof.
  intros Hr Hh Hf Hx Hc Hs. destruct (here_buf _ _ _ _ _ Hr Hh) as (Hd & Hv & _ & _ & _).
  pose proof Hh as (Hi & Hpos & Hb). destruct (Hf (bcache s i)) as (Fd & Fb & Fp & Fn & Fv).
  pose proof (upd_differs i f s) as Hdiff. pose proof Hdiff as (B & _).
  assert (here (upd i f s) i b) as Hh'.
  { split; [done|]. rewrite B, decide_True by done. subst x. cbn in Hc. split; [lia|congruence]. }
  split; [|split; [done|split; [|done]]].
  - unfold set_live. rewrite <- Hb, <- Fb. apply (rep_update dev A s i (f (bcache s i))); try done; try congruence.
    + intros c Hne. by rewrite lookup_insert_ne.
    + intros j Hj Hne Dj Ej. apply Hne. eapply (br_uniq _ _ _ Hr); congruence.
    + subst x. cbn in Hc. split; [lia|]. rewrite decide_False by lia. split; [congruence|]. split; [congruence|].
      split; [|done]. cbn. by rewrite lookup_insert_eq.
    + intros _. subst x. cbn in Hc. lia.
  - intros j c Hj _. destruct (decide (j = i)) as [->|Hne].
    + destruct Hj as (_ & _ & <-). by rewrite Hb.
    + unfold here. rewrite B, decide_False by done. done.
Qed.

(** What the buffer of a live block contains. *)
Lemma here_live dev A s i b x : bio_rep dev A s -> here s i b -> live A !! b = Some x ->
  refcnt (bcache s i) = lref x /\ data (bcache s i) = ldata x /\
  slock (bcache s i) = (if llock x then Some (cur s) else None) /\ 0 < lref x < 2 ^ 32.
Proof.
  intros Hr Hh Hx. destruct (here_buf _ _ _ _ _ Hr Hh) as (_ & _ & Hc & Hl & Hs).
  rewrite Hx in Hl. injection Hl as ->. cbn. split; [done|]. split; [done|]. split; [|done].
  unfold is_locked. destruct Hs as [-> | ->]; done.
Qed.

Lemma set_data_spec dev A s i b x d : bio_rep dev A s -> here s i b -> live A !! b = Some x ->
  exists s', setb i (set_data d) s = Ok tt s' /\
    bio_rep dev (set_live b (mklb (lref x) d (llock x)) A) s' /\ here s' i b /\
    keeps (set_live b (mklb (lref x) d (llock x)) A) s s' /\ cur s' = cur s.
Proof.
  intros Hr Hh Hx. destruct (here_live _ _ _ _ _ _ Hr Hh Hx) as (Hc & _ & Hs & Hb).
  eexists. split; [reflexivity|]. apply held_update; try done.
  - f_equal; [done|]. unfold is_locked. cbn. rewrite Hs. by destruct (llock x).
  - cbn. rewrite Hs. destruct (llock x); auto.
Qed.

Lemma bpin_spec dev A s i b x : bio_rep dev A s -> here s i b -> live A !! b = Some x -> lref x < 2 ^ 32 - 1 ->
  exists s', bpin i s = Ok tt s' /\
    bio_rep dev (set_live b (mklb (lref x + 1) (ldata x) (llock x)) A) s' /\ here s' i b /\
    keeps (set_live b (mklb (lref x + 1) (ldata x) (llock x)) A) s s' /\ cur s' = cur s.
Proof.
  intros Hr Hh Hx Hmax. destruct (here_live _ _ _ _ _ _ Hr Hh Hx) as (Hc & Hdt & Hs & Hb).
  eexists. split; [apply bpin_eq, Hr|]. apply held_update; try done; cbn; [|lia|].
  - f_equal; [rewrite Hc, u32_small; lia|done|]. unfold is_locked. cbn. rewrite Hs. by destruct (llock x).
  - rewrite Hs. destruct (llock x); auto.
Qed.

Lemma bunpin_spec dev A s i b x : bio_rep dev A s -> here s i b -> live A !! b = Some x -> 1 < lref x ->
  exists s', bunpin i s = Ok tt s' /\
    bio_rep dev (set_live b (mklb (lref x - 1) (ldata x) (llock x)) A) s' /\ here s' i b /\
    keeps (set_live b (mklb (lref x - 1) (ldata x) (llock x)) A) s s' /\ cur s' = cur s.
Proof.
  intros Hr Hh Hx Hmin. destruct (here_live _ _ _ _ _ _ Hr Hh Hx) as (Hc & Hdt & Hs & Hb).
  eexists. split; [apply bunpin_eq, Hr|]. apply held_update; try done; cbn; [|lia|].
  - f_equal; [rewrite Hc, u32_small; lia|done|]. unfold is_locked. cbn. rewrite Hs. by destruct (llock x).
  - rewrite Hs. destruct (llock x); auto.
Qed.

Lemma bwrite_spec dev A s i b x : bio_rep dev A s -> here s i b -> live A !! b = Some x -> llock x = true ->
  exists s', bwrite i s = Ok tt s' /\ bio_rep dev (write_store b (ldata x) A) s' /\
    (forall j, bcache s' j = bcache s j) /\ cur s' = cur s.
Proof.
  intros Hr Hh Hx Hlk. destruct (here_live _ _ _ _ _ _ Hr Hh Hx) as (Hc & Hdt & Hs & Hb).
  destruct (here_buf _ _ _ _ _ Hr Hh) as (Hd & _). pose proof Hh as (Hi & Hpos & Ebn).
  rewrite Hlk in Hs. unfold bwrite. rewrite (bind_ok _ _ _ _ _ (holdingsleep_eq i s (br_sleep _ _ _ Hr))).
  rewrite bool_decide_true by done. cbn [negb].
  eexists. split; [reflexivity|]. split; [|done]. rewrite Hdt, Ebn.
  constructor; cbn; try apply Hr.
  - by rewrite (br_disk _ _ _ Hr).
  - by rewrite (br_trace _ _ _ Hr).
  - intros j Hj. destruct (br_buf _ _ _ Hr j Hj) as [Hrc Hy]. split; [done|].
    destruct (decide (refcnt (bcache s j) = 0)) as [E|E]; [|exact Hy].
    destruct Hy as [Hsl Hy]. split; [done|]. intros Dj. destruct (Hy Dj) as [Hlv Hv]. split; [exact Hlv|].
    intros Hval. rewrite (Hv Hval). unfold sblock. cbn. rewrite lookup_insert_ne; [done|].
    intros Eb. rewrite <- Eb, Hx in Hlv. done.
Qed.

Lemma rep_links dev A s s' : bio_rep dev A s -> links_only s s' ->
  (exists l, lru_list s' l /\ l ≡ₚ seq 0 HEAD) -> bio_rep dev A s'.
Proof.
  intros Hr (B & Dk & Tr & Cu & Hh) Hl.
  assert (forall j, valid (bcache s' j) = valid (bcache s j) /\ bdev (bcache s' j) = bdev (bcache s j) /\
    blockno (bcache s' j) = blockno (bcache s j) /\ slock (bcache s' j) = slock (bcache s j) /\
    refcnt (bcache s' j) = refcnt (bcache s j) /\ data (bcache s' j) = data (bcache s j)) as Hf.
  { intros j. pose proof (B j) as E. unfold strip in E. by injection E as -> -> -> -> -> ->. }
  constructor; rewrite ?Dk, ?Tr, ?Cu, ?Hh; try apply Hr; try done.
  - intros i j. destruct (Hf i) as (_ & -> & -> & _), (Hf j) as (_ & -> & -> & _). apply (br_uniq _ _ _ Hr).
  - intros i Hi. unfold buf_ok, is_locked. destruct (Hf i) as (-> & -> & -> & -> & -> & ->).
    apply (br_buf _ _ _ Hr i Hi).
  - intros b x Hx. destruct (br_live _ _ _ Hr b x Hx) as (i & Hh'). exists i. unfold here.
    destruct (Hf i) as (_ & _ & -> & _ & -> & _). exact Hh'.
Qed.

(** The count of a buffer that nobody needs any more drops to 0. *)
Lemma rep_idle dev A s i b x f : bio_rep dev A s -> here s i b -> live A !! b = Some x ->
  ldata x = sblock A b ->
  (forall y, bdev (f y) = bdev y /\ blockno (f y) = blockno y /\ prev (f y) = prev y /\ next (f y) = next y /\
     data (f y) = data y /\ slock (f y) = None) ->
  refcnt (f (bcache s i)) = 0 ->
  bio_rep dev (drop_live b A) (upd i f s) /\ keeps (drop_live b A) s (upd i f s).
Proof.
  intros Hr Hh Hx Hclean Hf H0. destruct (here_live _ _ _ _ _ _ Hr Hh Hx) as (_ & Hdt & _ & _).
  destruct (here_buf _ _ _ _ _ Hr Hh) as (Hd & _). pose proof Hh as (Hi & Hpos & Hb).
  destruct (Hf (bcache s i)) as (Fd & Fb & Fp & Fn & Fda & Fs).
  pose proof (upd_differs i f s) as Hdiff. pose proof Hdiff as (B & _). split.
  - unfold drop_live. rewrite <- Hb, <- Fb. apply (rep_update dev A s i (f (bcache s i))); try done; try congruence.
    + intros c Hne. by rewrite lookup_delete_ne by congruence.
    + intros j Hj Hne Dj Ej. apply Hne. eapply (br_uniq _ _ _ Hr); congruence.
    + split; [lia|]. rewrite decide_True by done. split; [done|]. intros _. cbn. rewrite lookup_delete_eq.
      split; [done|]. intros _. rewrite Fda, Fb, Hb, Hdt, Hclean. done.
    + rewrite lookup_delete_eq. by intros [? ?].
  - intros j c Hj Hc. destruct (decide (j = i)) as [->|Hne].
    + destruct Hj as (_ & _ & <-). cbn in Hc. rewrite Hb, lookup_delete_eq in Hc. by destruct Hc.
    + unfold here. rewrite B, decide_False by done. done.
Qed.

Lemma brelse_spec dev A s i b x : bio_rep dev A s -> here s i b -> live A !! b = Some x -> llock x = true ->
  (lref x = 1 -> ldata x = sblock A b) ->
  exists s', brelse i s = Ok tt s' /\ bio_rep dev (release_store b x A) s' /\
    keeps (release_store b x A) s s' /\ cur s' = cur s.
Proof.
  intros Hr Hh Hx Hlk Hclean. destruct (here_live _ _ _ _ _ _ Hr Hh Hx) as (Hc & Hdt & Hs & Hb).
  rewrite Hlk in Hs. unfold brelse. rewrite (bind_ok _ _ _ _ _ (holdingsleep_eq i s (br_sleep _ _ _ Hr))).
  rewrite bool_decide_true by done. cbn [negb].
  rewrite (bind_ok _ _ _ _ _ (releasesleep_eq i s (br_sleep _ _ _ Hr))).
  set (s1 := upd i (set_slock None) s).
  rewrite (bind_ok _ _ _ _ _ (take_lock "bcache" s1 (br_bcache _ _ _ Hr))).
  set (f := fun y => set_refcnt (fun r => u32 (r - 1)) (set_slock None y)).
  set (s2 := upd i f s). set (s2h := mkbst (bcache (upd i (set_refcnt (fun r => u32 (r - 1))) s1)) (disk s) (trace s) (cur s) ("bcache" :: blocks_held s)).
  rewrite (bind_ok _ _ _ tt s2h) by done.
  assert (forall j, bcache s2h j = bcache s2 j) as E2.
  { intros j. cbn. destruct (Nat.eqb_spec j i) as [->|]; [by rewrite Nat.eqb_refl|]. done. }
  assert (refcnt (bcache s2 i) = lref x - 1) as Hc2.
  { unfold s2. cbn. rewrite Nat.eqb_refl. cbn. rewrite Hc, u32_small; lia. }
  rewrite (bind_ok _ _ s2h (lref x - 1) s2h) by (unfold getb, gets; by rewrite E2, Hc2).
  unfold release_store. destruct (Z.eqb_spec (lref x) 1) as [H1|H1].
  - destruct (rep_idle dev A s i b x f Hr Hh Hx (Hclean H1)) as [Hr2 Hk2]; [done|cbn; rewrite Hc, H1; done|].
    fold s2 in Hr2, Hk2. rewrite (proj2 (Z.eqb_eq _ 0)) by lia.
    destruct (br_lru _ _ _ Hr2) as (l & [Hn2 Hp2] & Hp).
    assert (NoDup (HEAD :: l)) as Hd.
    { apply NoDup_cons. rewrite Hp, elem_of_seq. split; [lia|apply NoDup_seq]. }
    assert (i ∈ l) as Hil by (rewrite Hp, elem_of_seq; destruct Hh; lia).
    destruct (relink_lru s2h l i) as (s3h & l' & E3 & Hl3 & Hp3 & Ho); [|done|done|].
    { split; [eapply chain_ext; [|exact Hn2]|eapply chain_ext; [|exact Hp2]]; intros j _;
        unfold nxt, prv; by rewrite E2. }
    rewrite (bind_ok _ _ _ _ _ E3).
    set (s3 := mkbst (bcache s3h) (disk s3h) (trace s3h) (cur s3h) (blocks_held s)).
    assert (links_only s2 s3) as Ho3.
    { destruct Ho as (B & Dk & Tr & Cu & Hhd). split; [|done]. intros j. cbn. by rewrite B, E2. }
    exists s3. split; [|split; [|split]].
    + destruct Ho as (_ & _ & _ & _ & Hhd). unfold release, holding. cbn. rewrite Hhd. by cbn.
    + eapply rep_links; [exact Hr2|exact Ho3|]. exists (i :: l'). split; [exact Hl3|]. by rewrite Hp3.
    + intros j c Hj Hc'. specialize (Hk2 j c Hj Hc'). unfold here in *. destruct Ho3 as (B & _).
      pose proof (B j) as E. unfold strip in E.
      assert (refcnt (bcache s3 j) = refcnt (bcache s2 j) /\ blockno (bcache s3 j) = blockno (bcache s2 j)) as [-> ->]
        by (split; congruence).
      done.
    + apply Ho3.
  - rewrite (proj2 (Z.eqb_neq _ 0)) by lia.
    destruct (held_update dev A s i b f (mklb (lref x - 1) (ldata x) false) Hr Hh) as (Hr2 & Hh2 & Hk2 & Hcu2);
      [done|cbn; f_equal; [rewrite Hc, u32_small; lia|done]|cbn; lia|by left|].
    fold s2 in Hr2, Hh2, Hk2.
    set (s3 := mkbst (bcache s2h) (disk s) (trace s) (cur s) (blocks_held s)).
    exists s3. split; [done|]. assert (links_only s2 s3) as Ho3.
    { split; [|done]. intros j. cbn -[s2h]. by rewrite E2. }
    split; [|split; [|done]].
    + eapply rep_links; [exact Hr2|exact Ho3|]. destruct (br_lru _ _ _ Hr2) as (l & [Hn2 Hp2] & Hp).
      exists l. split; [|done]. split; [eapply chain_ext; [|exact Hn2]|eapply chain_ext; [|exact Hp2]]; intros j _;
        unfold nxt, prv; cbn -[s2h]; by rewrite E2.
    + intros j c Hj Hc'. specialize (Hk2 j c Hj Hc'). unfold here in *. cbn -[s2h]. rewrite E2. done.
Qed.

(** ** binit *)

(** The cache as the loader leaves it: all zeroes. *)
Definition zero_buf : buf := mkbuf false 0 0 None 0 0 0 ∅.

Definition binit_body (z : Z) : M bst unit :=
  let b := Z.to_nat z in
  do! n <- getb HEAD next;
  setb b (set_next n) ;;
  setb b (set_prev HEAD) ;;
  setb b (set_slock None) ;;
  setb n (set_prev b) ;;
  setb HEAD (set_next b).

Lemma binit_body_lru s l b : lru_list s l -> b ∉ HEAD :: l -> NoDup (HEAD :: l) ->
  (forall j, slock (bcache s j) = None) ->
  exists s', binit_body (Z.of_nat b) s = Ok tt s' /\ lru_list s' (b :: l) /\ links_only s s'.
Proof.
  intros Hl Hb Hd Hs. destruct (link_head_lru s l b Hl Hb Hd) as (s1 & E & [Hn Hp] & Ho).
  eexists. unfold binit_body. rewrite Nat2Z.id. split; [reflexivity|].
  unfold link_head, bind, getb, gets, setb, modify in E. injection E as <-.
  split.
  - split; [eapply chain_ext; [|exact Hn]|eapply chain_ext; [|exact Hp]]; intros j _; unfold nxt, prv; cbn;
      repeat (match goal with |- context [Nat.eqb ?x ?y] => destruct (Nat.eqb_spec x y); subst end; cbn);
      congruence.
  - split; [|done]. intros j. unfold strip. cbn.
    repeat (match goal with |- context [Nat.eqb ?x ?y] => destruct (Nat.eqb_spec x y); subst end; cbn);
      rewrite ?Hs; congruence.
Qed.

Lemma binit_spec dev s : dev <> 0 -> (forall i, bcache s i = zero_buf) -> blocks_held s = [] ->
  exists s', binit s = Ok tt s' /\ bio_rep dev (mkstore ∅ (disk s) (trace s)) s' /\ cur s' = cur s /\
    blocks_held s' = [] /\ forall i, bdev (bcache s' i) = 0 /\ slock (bcache s' i) = None.
Proof.
  intros Hdev Hz Hh. unfold binit, initlock.
  set (s1 := upd HEAD (set_next HEAD) (upd HEAD (set_prev HEAD) s)).
  assert (wp (forz HEAD 0 binit_body) (fun _ s' => lru_list s' (rev (seq 0 HEAD)) /\ links_only s1 s') s1) as Hloop.
  { eapply wp_mono; [apply (wp_forz (fun z s' => lru_list s' (rev (seq 0 (Z.to_nat z))) /\ links_only s1 s'))|].
    - split; [|apply links_only_refl]. unfold s1. split; cbn; unfold nxt, prv; cbn; by rewrite ?Nat.eqb_refl.
    - intros z s' Hz' [Hl Ho].
      assert (NoDup (HEAD :: rev (seq 0 (Z.to_nat z)))) as Hnd.
      { apply NoDup_cons. rewrite <- Permutation_rev, elem_of_seq. split; [lia|apply NoDup_seq]. }
      destruct (binit_body_lru s' (rev (seq 0 (Z.to_nat z))) (Z.to_nat z)) as (s2 & E & Hl2 & Ho2); [done| |done| |].
      + rewrite elem_of_cons, <- Permutation_rev, elem_of_seq. lia.
      + intros j. destruct Ho as (B & _). pose proof (B j) as E. unfold strip in E.
        assert (slock (bcache s' j) = slock (bcache s1 j)) as -> by congruence.
        unfold s1. cbn. rewrite ?Hz. by destruct (Nat.eqb_spec j HEAD).
      + rewrite Z2Nat.id in E by lia. eapply wp_of_ok; [exact E|].
        replace (Z.to_nat (z + 1)) with (S (Z.to_nat z)) by lia. rewrite seq_S, rev_app_distr.
        split; [exact Hl2|]. by eapply links_only_trans.
    - intros [] s' [Hl Ho]. split; [|done]. by replace (Z.to_nat (0 + Z.of_nat HEAD)) with HEAD in Hl by lia. }
  destruct (wp_ok _ _ _ Hloop) as ([] & s' & E & Hl & Ho). exists s'. split.
  { rewrite (bind_ok _ _ s tt s).
    2:{ unfold modify. cbn. rewrite Hh. cbn. destruct s; cbn in *. by subst. }
    exact E. }
  clear E Hloop. destruct Ho as (B & Dk & Tr & Cu & Hhd).
  assert (forall j, bdev (bcache s' j) = 0 /\ slock (bcache s' j) = None /\ refcnt (bcache s' j) = 0) as Hf.
  { intros j. pose proof (B j) as Ej. unfold strip in Ej.
    assert (bdev (bcache s1 j) = 0 /\ slock (bcache s1 j) = None /\ refcnt (bcache s1 j) = 0) as (? & ? & ?).
    { unfold s1. cbn. rewrite ?Hz. destruct (Nat.eqb_spec j HEAD); cbn; rewrite ?Nat.eqb_refl, ?Hz; repeat split. }
    repeat split; congruence. }
  assert (blocks_held s' = []) as Hh' by (rewrite Hhd; exact Hh).
  split; [|split; [exact Cu|split; [exact Hh'|intros j; destruct (Hf j) as (? & ? & ?); done]]].
  constructor.
  - exists (rev (seq 0 HEAD)). split; [exact Hl|]. by rewrite <- Permutation_rev.
  - rewrite Hh'. apply not_elem_of_nil.
  - rewrite Hh'. apply not_elem_of_nil.
  - exact Dk.
  - exact Tr.
  - intros i j _ _ Hi. destruct (Hf i) as (E & _). congruence.
  - intros i _. destruct (Hf i) as (Hd & Hs & Hc). split; [lia|]. rewrite decide_True by exact Hc.
    split; [exact Hs|]. rewrite Hd. congruence.
  - intros b x Hx. cbn in Hx. rewrite lookup_empty in Hx. discriminate Hx.
Qed.

(** ** Every routine releases the spinlocks it takes *)
Lemma locks_setb h i f : locks h (setb i f) h.
Proof. intros s a s' Hs [= _ <-]. done. Qed.
Lemma locks_disk h i w : locks h (virtio_disk_rw i w) h.
Proof. intros s a s' Hs E. unfold virtio_disk_rw in E. destruct w; by injection E as _ <-. Qed.
#[export] Hint Resolve locks_setb locks_disk : locks.
#[export] Hint Extern 0 (locks _ (getb _ _) _) => apply locks_gets : locks.

Lemma locks_acquiresleep h i : locks h (acquiresleep i) h.
Proof. unfold acquiresleep. lock_steps. Qed.
Lemma locks_releasesleep h i : locks h (releasesleep i) h.
Proof. unfold releasesleep. lock_steps. Qed.
Lemma locks_holdingsleep h i : locks h (holdingsleep i) h.
Proof. unfold holdingsleep. lock_steps. Qed.
#[export] Hint Resolve locks_acquiresleep locks_releasesleep locks_holdingsleep : locks.

Lemma locks_bread h dev b : locks h (bread dev b) h.
Proof. unfold bread, bget. lock_steps. Qed.
Lemma locks_bwrite h i : locks h (bwrite i) h.
Proof. unfold bwrite. lock_steps. Qed.
Lemma locks_brelse h i : locks h (brelse i) h.
Proof. unfold brelse, link_head. lock_steps. Qed.
Lemma locks_bpin h i : locks h (bpin i) h.
Proof. unfold bpin. lock_steps. Qed.
Lemma locks_bunpin h i : locks h (bunpin i) h.
Proof. unfold bunpin. lock_steps. Qed.
#[export] Hint Resolve locks_bread locks_bwrite locks_brelse locks_bpin locks_bunpin : locks.
