(* ===== verification/BlockCache.v ===== *)
(** * What the buffer cache promises

    The cache refines the store of [BioSpec.v]: any sequence of calls that is
    allowed there can be made of kernel/bio.c and has the same effect. *)

From S2P Require Import Prelude Riscv Mem Lock Bio BioSpec.
Local Open Scope Z_scope.

(** ** Calls *)
Inductive call := Read (b : Z) | Fill (b : Z) (d : block) | Write (b : Z) | Release (b : Z) | Pin (b : Z) | Unpin (b : Z).

(** What a call does to the store, and when it may be made: a block is read
    when nobody has locked it and a buffer is available, filled, written and
    released by the process that holds it, and released with its changes
    written or pinned. *)
Inductive allowed : store -> call -> store -> Prop :=
| allowed_read A b : readable A b -> allowed A (Read b) (read_store b A)
| allowed_fill A b x d : live A !! b = Some x -> llock x = true ->
    allowed A (Fill b d) (set_live b (mklb (lref x) d true) A)
| allowed_write A b x : live A !! b = Some x -> llock x = true -> allowed A (Write b) (write_store b (ldata x) A)
| allowed_release A b x : live A !! b = Some x -> llock x = true -> (lref x = 1 -> ldata x = sblock A b) ->
    allowed A (Release b) (release_store b x A)
| allowed_pin A b x : live A !! b = Some x -> lref x < 2 ^ 32 - 1 ->
    allowed A (Pin b) (set_live b (mklb (lref x + 1) (ldata x) (llock x)) A)
| allowed_unpin A b x : live A !! b = Some x -> 1 < lref x ->
    allowed A (Unpin b) (set_live b (mklb (lref x - 1) (ldata x) (llock x)) A).

(** The code, on the buffer [i] that [bread] returned for the block. *)
Inductive runs (dev : Z) : bst -> call -> bst -> Prop :=
| runs_read s b i s' : bread dev b s = Ok i s' -> here s' i b -> runs dev s (Read b) s'
| runs_fill s b d i s' : here s i b -> setb i (set_data d) s = Ok tt s' -> runs dev s (Fill b d) s'
| runs_write s b i s' : here s i b -> bwrite i s = Ok tt s' -> runs dev s (Write b) s'
| runs_release s b i s' : here s i b -> brelse i s = Ok tt s' -> runs dev s (Release b) s'
| runs_pin s b i s' : here s i b -> bpin i s = Ok tt s' -> runs dev s (Pin b) s'
| runs_unpin s b i s' : here s i b -> bunpin i s = Ok tt s' -> runs dev s (Unpin b) s'.

Inductive star {S} (R : S -> call -> S -> Prop) : S -> list call -> S -> Prop :=
| star_nil s : star R s [] s
| star_cons s c s' cs s'' : R s c s' -> star R s' cs s'' -> star R s (c :: cs) s''.

Lemma cache_step dev A s c A' : bio_rep dev A s -> allowed A c A' -> exists s', runs dev s c s' /\ bio_rep dev A' s'.
Proof.
  intros Hr Hal. destruct Hal as [A b Hrd|A b x d Hx Hl|A b x Hx Hl|A b x Hx Hl Hc|A b x Hx Hm|A b x Hx Hm].
  1:{ destruct (bread_spec dev A s b Hr Hrd) as (i & s' & E & Hr' & Hh & _). exists s'. split; [by econstructor|done]. }
  all: destruct (br_live _ _ _ Hr b x Hx) as (i & Hh).
  - destruct (set_data_spec dev A s i b x d Hr Hh Hx) as (s' & E & Hr' & _). rewrite Hl in Hr'. exists s'.
    split; [by econstructor|done].
  - destruct (bwrite_spec dev A s i b x Hr Hh Hx Hl) as (s' & E & Hr' & _). exists s'. split; [by econstructor|done].
  - destruct (brelse_spec dev A s i b x Hr Hh Hx Hl Hc) as (s' & E & Hr' & _). exists s'. split; [by econstructor|done].
  - destruct (bpin_spec dev A s i b x Hr Hh Hx Hm) as (s' & E & Hr' & _). exists s'. split; [by econstructor|done].
  - destruct (bunpin_spec dev A s i b x Hr Hh Hx Hm) as (s' & E & Hr' & _). exists s'. split; [by econstructor|done].
Qed.

(** C19.  The cache refines the block store: from a cache that represents a
    store, every allowed sequence of calls runs through kernel/bio.c without
    panic and without waiting, and ends in a cache that represents the store
    the sequence leads to; the writes the disk has seen are the store's. *)
Theorem cache_refines_store dev A s cs A' : bio_rep dev A s -> star allowed A cs A' ->
  exists s', star (runs dev) s cs s' /\ bio_rep dev A' s' /\ disk s' = sdisk A' /\ trace s' = strace A'.
Proof.
  intros Hr Hal. revert s Hr. induction Hal as [A|A c A1 cs A2 Hc _ IH]; intros s Hr.
  - exists s. split; [constructor|]. split; [done|]. split; apply Hr.
  - destruct (cache_step dev A s c A1 Hr Hc) as (s1 & R1 & Hr1). destruct (IH s1 Hr1) as (s2 & R2 & Hr2).
    exists s2. split; [by econstructor|done].
Qed.

(** The cache right after boot. *)
Definition cold (D : gmap Z block) : bst := mkbst (fun _ => zero_buf) D [] 1 [].

Lemma cold_rep D : exists s, binit (cold D) = Ok tt s /\ bio_rep 1 (mkstore ∅ D []) s.
Proof. destruct (binit_spec 1 (cold D)) as (s & E & Hr & _); [done|done|done|]. eauto. Qed.

Lemma readable_first D b : readable (mkstore ∅ D []) b.
Proof. unfold readable. cbn. rewrite lookup_empty, map_size_empty. apply Nat.ltb_lt. reflexivity. Qed.

Definition demo_block : block := {[0 := 9]}.

Lemma cache_refines_store_witness : exists s s', binit (cold ∅) = Ok tt s /\
  star (runs 1) s [Read 7; Fill 7 demo_block; Write 7; Release 7] s' /\ trace s' = [(7, demo_block)].
Proof.
  destruct (cold_rep ∅) as (s & E & Hr). exists s.
  set (A := mkstore ∅ ∅ []) in *. set (A1 := read_store 7 A).
  set (A2 := set_live 7 (mklb 1 demo_block true) A1). set (A3 := write_store 7 demo_block A2).
  destruct (cache_refines_store 1 A s [Read 7; Fill 7 demo_block; Write 7; Release 7]
    (release_store 7 (mklb 1 demo_block true) A3) Hr) as (s' & R & _ & _ & T).
  - apply (star_cons _ _ _ A1); [apply allowed_read, readable_first|].
    apply (star_cons _ _ _ A2); [by apply (allowed_fill A1 7 (mklb 1 ∅ true))|].
    apply (star_cons _ _ _ A3); [by apply (allowed_write A2 7 (mklb 1 demo_block true))|].
    apply (star_cons _ _ _ (release_store 7 (mklb 1 demo_block true) A3)); [|constructor].
    by apply (allowed_release A3 7 (mklb 1 demo_block true)).
  - exists s'. split; [exact E|]. split; [exact R|exact T].
Defined.

(** ** Eviction *)

Lemma binit_unlocked D s : binit (cold D) = Ok tt s -> forall i, bdev (bcache s i) = 0 /\ slock (bcache s i) = None.
Proof.
  intros E i. destruct (binit_spec 1 (cold D)) as (s' & E' & _ & _ & _ & Hz); [done|done|done|].
  rewrite E in E'. injection E' as <-. apply Hz.
Qed.

(** A block that is not cached goes into the least recently used buffer
    nobody refers to (the last such buffer of the list that [brelse] keeps in
    order of use), and when every buffer is referred to [bget] panics. *)
Theorem bget_evicts_lru dev b s l : "bcache" ∉ blocks_held s -> "sleep lock" ∉ blocks_held s ->
  lru_list s l -> l ≡ₚ seq 0 HEAD ->
  (forall i, i ∈ l -> cached dev b (bcache s i) = false) -> (forall i, slock (bcache s i) = None) ->
  match List.find (fun i => refcnt (bcache s i) =? 0) (rev l) with
  | Some i => exists s', bget dev b s = Ok i s' /\ lru_list s' l /\
      bcache s' i = mkbuf false dev b (Some (cur s)) 1 (prev (bcache s i)) (next (bcache s i)) (data (bcache s i)) /\
      (forall j, j <> i -> bcache s' j = bcache s j)
  | None => bget dev b s = Panic "bget: no buffers"
  end.
Proof.
  intros H1 H2 Hl Hp Hno Hs. rewrite (bget_eq dev b s l H1 H2 Hl Hp).
  destruct (List.find (fun i => cached dev b (bcache s i)) l) as [i|] eqn:Ef.
  { apply find_some in Ef as [Hin Hc]. apply list_elem_of_In in Hin. by rewrite (Hno i Hin) in Hc. }
  destruct (List.find (fun i => refcnt (bcache s i) =? 0) (rev l)) as [i|]; [|done].
  set (f := fun x : buf => mkbuf false dev b (slock x) 1 (prev x) (next x) (data x)).
  assert (bcache (upd i f s) i = f (bcache s i)) as E1 by (cbn; by rewrite Nat.eqb_refl).
  rewrite (bind_ok _ _ _ _ _ (acquiresleep_eq i (upd i f s) H2 ltac:(rewrite E1; apply Hs))).
  eexists. split; [reflexivity|]. destruct Hl as [Hn Hpr].
  split; [split; [eapply chain_ext; [|exact Hn]|eapply chain_ext; [|exact Hpr]]; intros j _; unfold nxt, prv; cbn;
    destruct (Nat.eqb_spec j i) as [->|]; rewrite ?Nat.eqb_refl; done|].
  split; [cbn; by rewrite !Nat.eqb_refl|]. intros j Hj. cbn. by destruct (Nat.eqb_spec j i).
Qed.

Lemma bget_evicts_lru_witness : exists s s' i, binit (cold ∅) = Ok tt s /\ bget 1 7 s = Ok i s' /\ blockno (bcache s' i) = 7.
Proof.
  destruct (cold_rep ∅) as (s & E & Hr). destruct (br_lru _ _ _ Hr) as (l & Hl & Hp).
  assert (forall i, i ∈ l -> (i < HEAD)%nat) as Hlt.
  { intros i Hi. rewrite Hp, elem_of_seq in Hi. lia. }
  assert (forall i, (i < HEAD)%nat -> refcnt (bcache s i) = 0) as H0.
  { intros i Hi. destruct (br_buf _ _ _ Hr i Hi) as [_ Hx]. case_decide; [done|].
    destruct Hx as (_ & _ & Hlv & _). cbn in Hlv. by rewrite lookup_empty in Hlv. }
  pose proof (binit_unlocked ∅ s E) as Hz.
  pose proof (bget_evicts_lru 1 7 s l (br_bcache _ _ _ Hr) (br_sleep _ _ _ Hr) Hl Hp) as Hw.
  assert (exists i, List.find (fun i => refcnt (bcache s i) =? 0) (rev l) = Some i) as [i Ei].
  { destruct (find_free s l Hp) as (i & Ei & _); [|eauto]. exists 0%nat.
    assert (0 < HEAD)%nat as Hpos by (apply Nat.ltb_lt; reflexivity). split; [done|]. by apply H0. }
  rewrite Ei in Hw. destruct Hw as (s' & Eb & _ & Hb & _).
  - intros j _. unfold cached. by rewrite (proj1 (Hz j)).
  - intros j. apply Hz.
  - exists s, s', i. split; [exact E|]. split; [exact Eb|]. by rewrite Hb.
Defined.
