(* ===== verification/Log.v ===== *)
(** * kernel/log.c: the write-ahead log

    The in-memory log header, the functions that move blocks between the
    cache, the on-disk log and their home locations, and the bookkeeping of
    file-system operations.  [sleep] is waiting for another process; in the
    sequential model a call that would sleep does not return. *)

From S2P Require Import Prelude Riscv Mem Lock Bio.
Local Open Scope Z_scope.

(** Words of a block. *)
Definition ld32 (d : block) (off : Z) : Z := ldn 4 d off.
Definition st32 (d : block) (off v : Z) : block := stn 4 d off v.

(** [struct log] with its [struct logheader]. *)
Record log := mklog {
  lstart : Z; lsize : Z; outstanding : Z; committing : bool; ldev : Z;
  lh_n : Z; lh_block : list Z
}.

Record lst := mklst { bio : bst; lg : log }.

#[export] Instance lst_locks : Locks lst.
Proof.
  refine {| held s := blocks_held (bio s);
            set_held l s := mklst (set_held l (bio s)) (lg s) |}.
  - done.
  - done.
  - by intros [[] ?].
Defined.

Definition set_lg (f : log -> log) (s : lst) : lst := mklst (bio s) (f (lg s)).
Definition getl {A} (f : log -> A) : M lst A := gets (fun s => f (lg s)).
Definition setl (f : log -> log) : M lst unit := modify (set_lg f).

(** Calls into the buffer cache. *)
Definition io {A} (c : M bst A) : M lst A := zoom bio (fun b s => mklst b (lg s)) c.

Definition set_n (n : Z) (l : log) : log :=
  mklog (lstart l) (lsize l) (outstanding l) (committing l) (ldev l) n (lh_block l).
Definition set_out (f : Z -> Z) (l : log) : log :=
  mklog (lstart l) (lsize l) (f (outstanding l)) (committing l) (ldev l) (lh_n l) (lh_block l).
Definition set_committing (c : bool) (l : log) : log :=
  mklog (lstart l) (lsize l) (outstanding l) c (ldev l) (lh_n l) (lh_block l).

(** [log.lh.block[i]]: an index outside the array is undefined. *)
Definition get_block (i : Z) : M lst Z := fun s =>
  match lh_block (lg s) !! Z.to_nat i with
  | Some b => if i <? 0 then Undef else Ok b s
  | None => Undef
  end.
Definition set_block (i b : Z) : M lst unit := fun s =>
  if (i <? 0) || (LOGSIZE <=? i) then Undef
  else Ok tt (set_lg (fun l => mklog (lstart l) (lsize l) (outstanding l) (committing l) (ldev l) (lh_n l)
                                (<[Z.to_nat i := b]> (lh_block l))) s).

Definition install_trans (recovering : bool) : M lst unit :=
  do! n <- getl lh_n;
  forz (Z.to_nat n) 0 (fun tail =>
    do! dev <- getl ldev;
    do! start <- getl lstart;
    do! lbuf <- io (bread dev (start + tail + 1));
    do! blk <- get_block tail;
    do! dbuf <- io (bread dev blk);
    do! d <- io (getb lbuf data);
    io (setb dbuf (set_data d)) ;;
    io (bwrite dbuf) ;;
    (if recovering then ret tt else io (bunpin dbuf)) ;;
    io (brelse lbuf) ;;
    io (brelse dbuf)).

Definition read_head : M lst unit :=
  do! dev <- getl ldev;
  do! start <- getl lstart;
  do! buf <- io (bread dev start);
  do! lh <- io (getb buf data);
  setl (set_n (s32 (ld32 lh 0))) ;;
  do! n <- getl lh_n;
  forz (Z.to_nat n) 0 (fun i => set_block i (s32 (ld32 lh (4 + 4 * i)))) ;;
  io (brelse buf).

Definition write_head : M lst unit :=
  do! dev <- getl ldev;
  do! start <- getl lstart;
  do! buf <- io (bread dev start);
  do! n <- getl lh_n;
  io (setb buf (fun b => set_data (st32 (data b) 0 n) b)) ;;
  forz (Z.to_nat n) 0 (fun i =>
    do! b <- get_block i;
    io (setb buf (fun x => set_data (st32 (data x) (4 + 4 * i) b) x))) ;;
  io (bwrite buf) ;;
  io (brelse buf).

Definition recover_from_log : M lst unit :=
  read_head ;;
  install_trans true ;;
  setl (set_n 0) ;;
  write_head.

(** [sb->logstart] and [sb->nlog] of the superblock; the size check of the
    header is a constant. *)
Definition initlog (dev logstart nlog : Z) : M lst unit :=
  if BSIZE <=? 4 + 4 * LOGSIZE then panic "initlog: too big logheader"
  else
    initlock "log" ;;
    setl (fun l => mklog logstart nlog (outstanding l) (committing l) dev (lh_n l) (lh_block l)) ;;
    recover_from_log.

Definition begin_op : M lst unit :=
  acquire "log" ;;
  do! c <- getl committing;
  if c then hang
  else
    do! n <- getl lh_n;
    do! o <- getl outstanding;
    if LOGSIZE <? n + (o + 1) * MAXOPBLOCKS then hang
    else setl (set_out (fun x => x + 1)) ;; release "log".

Definition write_log : M lst unit :=
  do! n <- getl lh_n;
  forz (Z.to_nat n) 0 (fun tail =>
    do! dev <- getl ldev;
    do! start <- getl lstart;
    do! to <- io (bread dev (start + tail + 1));
    do! blk <- get_block tail;
    do! from <- io (bread dev blk);
    do! d <- io (getb from data);
    io (setb to (set_data d)) ;;
    io (bwrite to) ;;
    io (brelse from) ;;
    io (brelse to)).

Definition commit : M lst unit :=
  do! n <- getl lh_n;
  if 0 <? n then
    write_log ;;
    write_head ;;
    install_trans false ;;
    setl (set_n 0) ;;
    write_head
  else ret tt.

Definition end_op : M lst unit :=
  acquire "log" ;;
  setl (set_out (fun x => x - 1)) ;;
  do! c <- getl committing;
  if c then panic "log.committing"
  else
    do! o <- getl outstanding;
    do! do_commit <- (if o =? 0 then setl (set_committing true) ;; ret true else ret false);
    release "log" ;;
    if do_commit then
      commit ;;
      acquire "log" ;;
      setl (set_committing false) ;;
      release "log"
    else ret tt.

(** The first [i] with [log.lh.block[i] == blockno], or [n]. *)
Fixpoint absorb (fuel : nat) (i n blk : Z) : M lst Z :=
  match fuel with
  | O => ret i
  | S f => if i <? n then do! b <- get_block i; if b =? blk then ret i else absorb f (i + 1) n blk
           else ret i
  end.

Definition log_write (b : nat) : M lst unit :=
  acquire "log" ;;
  do! n <- getl lh_n;
  do! size <- getl lsize;
  if (LOGSIZE <=? n) || (size - 1 <=? n) then panic "too big a transaction"
  else
    do! o <- getl outstanding;
    if o <? 1 then panic "log_write outside of trans"
    else
      do! blk <- io (getb b blockno);
      do! i <- absorb (Z.to_nat n) 0 n blk;
      set_block i blk ;;
      (if i =? n then io (bpin b) ;; setl (set_n (n + 1)) else ret tt) ;;
      release "log".
