(* ===== verification/LogSpec.v ===== *)
(** * The log on the abstract block store

    Each function of kernel/log.c as a transformation of the store of
    [BioSpec.v]; the disk writes of a commit and of recovery. *)

From S2P Require Import Prelude Riscv Mem Lock Bio BioSpec Log.
Local Open Scope Z_scope.

(** ** The header block *)
Fixpoint put_blocks (i : Z) (bl : list Z) (d : block) : block :=
  match bl with
  | [] => d
  | b :: bl' => put_blocks (i + 1) bl' (st32 d (4 + 4 * i) b)
  end.
Definition encode_head (bl : list Z) (d : block) : block :=
  put_blocks 0 bl (st32 d 0 (Z.of_nat (length bl))).

(** What [read_head] reads. *)
Definition head_n (d : block) : Z := s32 (ld32 d 0).
Definition head_block (d : block) (i : nat) : Z := s32 (ld32 d (4 + 4 * Z.of_nat i)).
Definition decode_head (d : block) : list Z := map (head_block d) (seq 0 (Z.to_nat (head_n d))).

Lemma ld32_st32_same d o v : 0 <= v < 2 ^ 31 -> s32 (ld32 (st32 d o v) o) = v.
Proof.
  intros H. unfold ld32, st32. rewrite (ldn_stn_same 4). change (256 ^ Z.of_nat 4) with (2 ^ 32).
  rewrite Z.mod_small by lia. apply s32_small. lia.
Qed.

Lemma ld32_st32_other d o p v : p + 4 <= o \/ o + 4 <= p -> ld32 (st32 d o v) p = ld32 d p.
Proof.
  intros H. apply ldn_ext. intros i Hi. apply (ld8_stn_other 4). apply KString.inrange_false. lia.
Qed.

Lemma put_blocks_other bl : forall i d p, p + 4 <= 4 + 4 * i -> ld32 (put_blocks i bl d) p = ld32 d p.
Proof.
  induction bl as [|b bl IH]; intros i d p H; [done|]. cbn [put_blocks]. rewrite IH by lia.
  apply ld32_st32_other. lia.
Qed.

Lemma put_blocks_at bl : forall i d j b, bl !! j = Some b -> 0 <= b < 2 ^ 31 -> 0 <= i ->
  s32 (ld32 (put_blocks i bl d) (4 + 4 * (i + Z.of_nat j))) = b.
Proof.
  induction bl as [|c bl IH]; intros i d j b Hj Hb Hi; [done|]. cbn [put_blocks]. destruct j as [|j]; cbn in Hj.
  - injection Hj as ->. rewrite Z.add_0_r. rewrite put_blocks_other by lia. by apply ld32_st32_same.
  - replace (i + Z.of_nat (S j)) with (i + 1 + Z.of_nat j) by lia. apply IH; try done. lia.
Qed.

Definition blocks_ok (bl : list Z) : Prop :=
  Forall (fun b => 0 <= b < 2 ^ 31) bl /\ Z.of_nat (length bl) < 2 ^ 31.

(** The header survives its encoding. *)
Lemma decode_encode bl d : blocks_ok bl -> decode_head (encode_head bl d) = bl.
Proof.
  intros [Hb Hl]. unfold decode_head, encode_head.
  assert (head_n (put_blocks 0 bl (st32 d 0 (Z.of_nat (length bl)))) = Z.of_nat (length bl)) as ->.
  { unfold head_n. rewrite put_blocks_other by lia. apply ld32_st32_same. lia. }
  rewrite Nat2Z.id. apply list_eq. intros j. change (map ?f ?l) with (f <$> l). rewrite list_lookup_fmap.
  destruct (decide (j < length bl)%nat) as [Hj|Hj].
  - rewrite lookup_seq_lt by done. destruct (lookup_lt_is_Some_2 bl j Hj) as [b Eb]. rewrite Eb. cbn. f_equal.
    unfold head_block. apply (put_blocks_at bl 0); try done. by eapply Forall_lookup_1 in Hb.
  - rewrite lookup_seq_ge by lia. cbn. symmetry. apply lookup_ge_None. lia.
Qed.

(** ** Disk writes *)
Definition apply_writes (ws : list (Z * block)) (D : gmap Z block) : gmap Z block :=
  foldl (fun D w => <[w.1 := w.2]> D) D ws.

Definition blk (D : gmap Z block) (b : Z) : block := default ∅ (D !! b).

Lemma apply_app ws1 ws2 D : apply_writes (ws1 ++ ws2) D = apply_writes ws2 (apply_writes ws1 D).
Proof. apply foldl_app. Qed.

Lemma apply_cons b d ws D : apply_writes ((b, d) :: ws) D = apply_writes ws (<[b := d]> D).
Proof. done. Qed.

Lemma apply_other ws D b : b ∉ ws.*1 -> apply_writes ws D !! b = D !! b.
Proof.
  revert D. induction ws as [|[c d] ws IH]; intros D H; [done|]. cbn in H.
  apply not_elem_of_cons in H as [H1 H2]. rewrite apply_cons, IH by done. by rewrite lookup_insert_ne.
Qed.

(** With distinct blocks, each block has what was written to it. *)
Lemma apply_at ws D j b d : NoDup ws.*1 -> ws !! j = Some (b, d) -> apply_writes ws D !! b = Some d.
Proof.
  revert D j. induction ws as [|[c e] ws IH]; intros D j Hn Hj; [done|]. cbn in Hn.
  apply NoDup_cons in Hn as [Hw Hn]. rewrite apply_cons. destruct j as [|j]; cbn in Hj.
  - injection Hj as -> ->. rewrite apply_other by done. apply lookup_insert_eq.
  - by eapply IH.
Qed.

(** Only the disk changes. *)
Definition writes (ws : list (Z * block)) (A : store) : store :=
  mkstore (live A) (apply_writes ws (sdisk A)) (strace A ++ ws).

Lemma writes_nil A : writes [] A = A.
Proof. unfold writes. cbn. rewrite app_nil_r. by destruct A. Qed.
Lemma writes_snoc ws b d A : writes (ws ++ [(b, d)]) A = write_store b d (writes ws A).
Proof. unfold writes, write_store. by rewrite apply_app, app_assoc. Qed.
Lemma writes_app ws1 ws2 A : writes (ws1 ++ ws2) A = writes ws2 (writes ws1 A).
Proof. unfold writes. cbn. by rewrite apply_app, app_assoc. Qed.
Lemma writes_view ws A b : is_Some (live A !! b) -> view (writes ws A) b = view A b.
Proof. intros [x Hx]. unfold view. cbn. by rewrite Hx. Qed.

(** ** Calls into the cache, seen from the log *)
Section Calls.
Context {dev : Z} {A : store} {s : lst} (Hr : bio_rep dev A (bio s)).

Lemma io_bread b Q : readable A b ->
  (forall i s', bio_rep dev (read_store b A) (bio s') -> here (bio s') i b ->
     keeps (read_store b A) (bio s) (bio s') -> lg s' = lg s -> Q i s') ->
  wp (io (bread dev b)) Q s.
Proof.
  intros Hb HQ. destruct (bread_spec dev A (bio s) b Hr Hb) as (i & s' & E & Hr' & Hh & Hk & _).
  unfold wp, io, zoom. rewrite E. by apply HQ.
Qed.

Context {i : nat} {b : Z} {x : lbuf} (Hh : here (bio s) i b) (Hx : live A !! b = Some x).

Lemma io_data Q : Q (ldata x) s -> wp (io (getb i data)) Q s.
Proof.
  intros HQ. unfold wp, io, zoom, getb, gets.
  destruct (here_live _ _ _ _ _ _ Hr Hh Hx) as (_ & -> & _). by destruct s.
Qed.

Lemma io_set_data f d Q : (forall y, data y = ldata x -> f y = set_data d y) ->
  (forall s', bio_rep dev (set_live b (mklb (lref x) d (llock x)) A) (bio s') -> here (bio s') i b ->
     keeps (set_live b (mklb (lref x) d (llock x)) A) (bio s) (bio s') -> lg s' = lg s -> Q tt s') ->
  wp (io (setb i f)) Q s.
Proof.
  intros Hf HQ. destruct (set_data_spec dev A (bio s) i b x d Hr Hh Hx) as (s' & E & Hr' & Hh' & Hk & _).
  unfold wp, io, zoom, setb, modify. unfold setb, modify in E. injection E as <-.
  assert (upd i f (bio s) = upd i (set_data d) (bio s)) as ->; [|by apply HQ].
  unfold upd. f_equal. destruct (here_live _ _ _ _ _ _ Hr Hh Hx) as (_ & Hd & _). by rewrite Hf.
Qed.

Lemma io_bwrite Q : llock x = true ->
  (forall s', bio_rep dev (write_store b (ldata x) A) (bio s') -> (forall j c, here (bio s) j c -> here (bio s') j c) ->
     lg s' = lg s -> Q tt s') ->
  wp (io (bwrite i)) Q s.
Proof.
  intros Hl HQ. destruct (bwrite_spec dev A (bio s) i b x Hr Hh Hx Hl) as (s' & E & Hr' & Hb & _).
  unfold wp, io, zoom. rewrite E. apply HQ; [exact Hr'| |done]. intros j c. unfold here. cbn. by rewrite Hb.
Qed.

Lemma io_bpin Q : lref x < 2 ^ 32 - 1 ->
  (forall s', bio_rep dev (set_live b (mklb (lref x + 1) (ldata x) (llock x)) A) (bio s') -> here (bio s') i b ->
     keeps (set_live b (mklb (lref x + 1) (ldata x) (llock x)) A) (bio s) (bio s') -> lg s' = lg s -> Q tt s') ->
  wp (io (bpin i)) Q s.
Proof.
  intros Hl HQ. destruct (bpin_spec dev A (bio s) i b x Hr Hh Hx Hl) as (s' & E & Hr' & Hb & Hk & _).
  unfold wp, io, zoom. rewrite E. by apply HQ.
Qed.

Lemma io_bunpin Q : 1 < lref x ->
  (forall s', bio_rep dev (set_live b (mklb (lref x - 1) (ldata x) (llock x)) A) (bio s') -> here (bio s') i b ->
     keeps (set_live b (mklb (lref x - 1) (ldata x) (llock x)) A) (bio s) (bio s') -> lg s' = lg s -> Q tt s') ->
  wp (io (bunpin i)) Q s.
Proof.
  intros Hl HQ. destruct (bunpin_spec dev A (bio s) i b x Hr Hh Hx Hl) as (s' & E & Hr' & Hb & Hk & _).
  unfold wp, io, zoom. rewrite E. by apply HQ.
Qed.

Lemma io_brelse Q : llock x = true -> (lref x = 1 -> ldata x = sblock A b) ->
  (forall s', bio_rep dev (release_store b x A) (bio s') -> keeps (release_store b x A) (bio s) (bio s') ->
     lg s' = lg s -> Q tt s') ->
  wp (io (brelse i)) Q s.
Proof.
  intros Hl Hc HQ. destruct (brelse_spec dev A (bio s) i b x Hr Hh Hx Hl Hc) as (s' & E & Hr' & Hk & _).
  unfold wp, io, zoom. rewrite E. by apply HQ.
Qed.
End Calls.

(** ** One round of each loop *)

(** Compare stores block by block. *)
Ltac store_eq p b :=
  repeat (unfold set_live, drop_live, read_store, write_store, release_store; cbn); f_equal;
  apply map_eq; let k := fresh "k" in intros k;
  destruct (decide (k = p)); [subst k|destruct (decide (k = b)); [subst k|]];
  simplify_map_eq; try done.

Lemma lookup_read b A : live (read_store b A) !! b =
  Some (match live A !! b with Some x => mklb (lref x + 1) (ldata x) true | None => mklb 1 (sblock A b) true end).
Proof. unfold read_store, set_live. cbn. by rewrite lookup_insert_eq. Qed.

Lemma lookup_read_ne b c A : c <> b -> live (read_store b A) !! c = live A !! c.
Proof. intros H. unfold read_store, set_live. cbn. by rewrite lookup_insert_ne. Qed.

Lemma readable_live A b x : live A !! b = Some x -> llock x = false -> lref x < 2 ^ 32 - 1 -> readable A b.
Proof. intros E H1 H2. unfold readable. by rewrite E. Qed.

Lemma readable_free A b : live A !! b = None -> (size (live A) < HEAD)%nat -> readable A b.
Proof. intros E H. unfold readable. by rewrite E. Qed.

Lemma live_pos dev A s b x : bio_rep dev A s -> live A !! b = Some x -> 0 < lref x.
Proof.
  intros Hr Hx. destruct (br_live _ _ _ Hr b x Hx) as (k & Hk).
  destruct (here_live _ _ _ _ _ _ Hr Hk Hx) as (_ & _ & _ & H). lia.
Qed.

Definition get_ok (i b : Z) (s : lst) : Prop := get_block i s = Ok b s.

Lemma get_ok_lg i b s s' : lg s' = lg s -> get_ok i b s -> get_ok i b s'.
Proof.
  unfold get_ok, get_block. intros ->. destruct (lh_block (lg s) !! Z.to_nat i); [|done].
  destruct (i <? 0); [done|]. by intros [= ->].
Qed.

Definition write_log_body (tail : Z) : M lst unit :=
  do! dev <- getl ldev;
  do! start <- getl lstart;
  do! to <- io (bread dev (start + tail + 1));
  do! blk <- get_block tail;
  do! from <- io (bread dev blk);
  do! d <- io (getb from data);
  io (setb to (set_data d)) ;;
  io (bwrite to) ;;
  io (brelse from) ;;
  io (brelse to).

(** One block goes from the cache to its place in the log. *)
Lemma write_log_step dev A s tail b x :
  bio_rep dev A (bio s) -> ldev (lg s) = dev -> get_ok tail b s ->
  let p := lstart (lg s) + tail + 1 in
  live A !! p = None -> (size (live A) < HEAD)%nat ->
  live A !! b = Some x -> llock x = false -> lref x < 2 ^ 32 - 1 ->
  wp (write_log_body tail) (fun _ s' => bio_rep dev (write_store p (ldata x) A) (bio s') /\ lg s' = lg s) s.
Proof.
  intros Hr Hdev Hg p Hp Hsz Hx Hl Hmax.
  assert (b <> p) as Hne by congruence. assert (p <> b) as Hne' by done.
  unfold write_log_body. apply wp_bind, wp_gets, wp_bind, wp_gets. rewrite Hdev. fold p.
  apply wp_bind. apply (io_bread Hr); [by apply readable_free|]. intros i s1 Hr1 Hi1 _ L1.
  eapply wp_bind_ok; [by eapply get_ok_lg|].
  assert (live (read_store p A) !! b = Some x) as Hx1 by (by rewrite lookup_read_ne).
  apply wp_bind. apply (io_bread Hr1); [by eapply readable_live|]. intros j s2 Hr2 Hj2 Hk2 L2.
  set (A2 := read_store b (read_store p A)) in *.
  assert (live A2 !! b = Some (mklb (lref x + 1) (ldata x) true)) as Eb by (unfold A2; by rewrite lookup_read, Hx1).
  assert (live A2 !! p = Some (mklb 1 (sblock A p) true)) as Ep.
  { unfold A2. rewrite lookup_read_ne by done. rewrite lookup_read, Hp. reflexivity. }
  assert (here (bio s2) i p) as Hi2 by (apply Hk2; eauto).
  apply wp_bind, (io_data Hr2 Hj2 Eb). cbn [ldata].
  apply wp_bind, (io_set_data Hr2 Hi2 Ep _ (ldata x)); [done|]. cbn [lref llock].
  intros s3 Hr3 Hi3 Hk3 L3. set (A3 := set_live p (mklb 1 (ldata x) true) A2) in *.
  assert (live A3 !! p = Some (mklb 1 (ldata x) true)) as Ep3 by (unfold A3; cbn; apply lookup_insert_eq).
  assert (live A3 !! b = Some (mklb (lref x + 1) (ldata x) true)) as Eb3 by (unfold A3; cbn; by rewrite lookup_insert_ne).
  assert (here (bio s3) j b) as Hj3 by (apply Hk3; eauto).
  apply wp_bind, (io_bwrite Hr3 Hi3 Ep3); [done|]. cbn [ldata]. intros s4 Hr4 Hk4 L4.
  set (A4 := write_store p (ldata x) A3) in *.
  apply wp_bind, (io_brelse Hr4 (Hk4 _ _ Hj3) (x := mklb (lref x + 1) (ldata x) true) Eb3); [done| |].
  { cbn. pose proof (live_pos _ _ _ _ _ Hr Hx). lia. }
  intros s5 Hr5 Hk5 L5. pose proof (live_pos _ _ _ _ _ Hr Hx) as Hpos.
  assert (release_store b (mklb (lref x + 1) (ldata x) true) A4 = set_live b (mklb (lref x) (ldata x) false) A4) as E5.
  { unfold release_store. cbn [lref]. rewrite (proj2 (Z.eqb_neq _ _)) by lia. cbn. do 3 f_equal. lia. }
  rewrite E5 in Hr5, Hk5. set (A5 := set_live b (mklb (lref x) (ldata x) false) A4) in *.
  assert (live A5 !! p = Some (mklb 1 (ldata x) true)) as Ep5 by (unfold A5; cbn; by rewrite lookup_insert_ne).
  apply (io_brelse Hr5 (Hk5 _ _ (Hk4 _ _ Hi3) ltac:(eauto)) Ep5); [done| |].
  { intros _. unfold sblock, A5. cbn. by rewrite lookup_insert_eq. }
  intros s6 Hr6 _ L6. split; [|congruence].
  assert (release_store p (mklb 1 (ldata x) true) A5 = write_store p (ldata x) A) as <-; [|exact Hr6].
  unfold A5, A4, A3, A2. store_eq p b. destruct x as [r d l]. cbn in *. by subst.
Qed.

Definition install_body (recovering : bool) (tail : Z) : M lst unit :=
  do! dev <- getl ldev;
  do! start <- getl lstart;
  do! lbuf <- io (bread dev (start + tail + 1));
  do! blk <- get_block tail;
  do! dbuf <- io (bread dev blk);
  do! d <- io (getb lbuf data);
  io (setb dbuf (set_data d)) ;;
  io (bwrite dbuf) ;;
  (if recovering then ret tt else io (bunpin dbuf)) ;;
  io (brelse lbuf) ;;
  io (brelse dbuf).

(** Up to the write of the home block [b] the two uses agree: both blocks
    are read, the home block gets the logged contents [d] and is written. *)
Definition installing (p b : Z) (r : Z) (A : store) : store :=
  let d := sblock A p in
  write_store b d (set_live b (mklb r d true) (set_live p (mklb 1 d true) A)).

Lemma install_write dev A s tail b (recovering : bool) Q :
  bio_rep dev A (bio s) -> ldev (lg s) = dev -> get_ok tail b s ->
  let p := lstart (lg s) + tail + 1 in
  let r := match live A !! b with Some x => lref x + 1 | None => 1 end in
  live A !! p = None -> b <> p -> (size (live A) < HEAD)%nat -> readable (read_store p A) b ->
  (forall i j s', bio_rep dev (installing p b r A) (bio s') -> here (bio s') i p -> here (bio s') j b -> lg s' = lg s ->
     wp ((if recovering then ret tt else io (bunpin j)) ;; io (brelse i) ;; io (brelse j)) Q s') ->
  wp (install_body recovering tail) Q s.
Proof.
  intros Hr Hdev Hg p r Hp Hne Hsz Hrd HQ. assert (p <> b) as Hne' by done.
  unfold install_body. apply wp_bind, wp_gets, wp_bind, wp_gets. rewrite Hdev. fold p.
  apply wp_bind. apply (io_bread Hr); [by apply readable_free|]. intros i s1 Hr1 Hi1 _ L1.
  eapply wp_bind_ok; [by eapply get_ok_lg|].
  apply wp_bind. apply (io_bread Hr1); [done|]. intros j s2 Hr2 Hj2 Hk2 L2.
  set (A2 := read_store b (read_store p A)) in *.
  assert (exists e, live A2 !! b = Some (mklb r e true)) as [e Eb].
  { unfold A2. rewrite lookup_read, lookup_read_ne by done. unfold r. destruct (live A !! b); eauto. }
  assert (live A2 !! p = Some (mklb 1 (sblock A p) true)) as Ep.
  { unfold A2. rewrite lookup_read_ne by done. rewrite lookup_read, Hp. reflexivity. }
  assert (here (bio s2) i p) as Hi2 by (apply Hk2; eauto).
  apply wp_bind, (io_data Hr2 Hi2 Ep). cbn [ldata].
  apply wp_bind, (io_set_data Hr2 Hj2 Eb _ (sblock A p)); [done|]. cbn [lref llock].
  intros s3 Hr3 Hj3 Hk3 L3. set (A3 := set_live b (mklb r (sblock A p) true) A2) in *.
  assert (live A3 !! b = Some (mklb r (sblock A p) true)) as Eb3 by (unfold A3; cbn; apply lookup_insert_eq).
  assert (live A3 !! p = Some (mklb 1 (sblock A p) true)) as Ep3 by (unfold A3; cbn; by rewrite lookup_insert_ne).
  assert (here (bio s3) i p) as Hi3 by (apply Hk3; eauto).
  apply wp_bind, (io_bwrite Hr3 Hj3 Eb3); [done|]. cbn [ldata]. intros s4 Hr4 Hk4 L4.
  apply (HQ i j); [|by apply Hk4|by apply Hk4|congruence].
  assert (write_store b (sblock A p) A3 = installing p b r A) as <-; [|done].
  unfold A3, A2, installing. store_eq p b.
Qed.

(** The cache gives up the log block and then the home block. *)
Lemma install_release dev A B s i j p b r d :
  bio_rep dev A (bio s) -> here (bio s) i p -> here (bio s) j b -> p <> b ->
  live A !! p = Some (mklb 1 d true) -> sblock A p = d ->
  live A !! b = Some (mklb r d true) -> sblock A b = d ->
  release_store b (mklb r d true) (drop_live p A) = B ->
  wp (io (brelse i) ;; io (brelse j)) (fun _ s' => bio_rep dev B (bio s') /\ lg s' = lg s) s.
Proof.
  intros Hr Hi Hj Hne Ep Dp Eb Db <-.
  apply wp_bind, (io_brelse Hr Hi Ep); [done|by intros _|]. intros s1 Hr1 Hk1 L1.
  change (release_store p (mklb 1 d true) A) with (drop_live p A) in *.
  assert (live (drop_live p A) !! b = Some (mklb r d true)) as Eb1 by (cbn; by rewrite lookup_delete_ne).
  apply (io_brelse Hr1 (Hk1 _ _ Hj ltac:(eauto)) Eb1); [done|by intros _|]. intros s2 Hr2 _ L2.
  split; [done|congruence].
Qed.

(** After a commit: the home block is written and the log's pin is dropped. *)
Lemma install_step dev A s tail b x :
  bio_rep dev A (bio s) -> ldev (lg s) = dev -> get_ok tail b s ->
  let p := lstart (lg s) + tail + 1 in
  live A !! p = None -> (size (live A) < HEAD)%nat ->
  live A !! b = Some x -> llock x = false -> lref x < 2 ^ 32 - 1 ->
  wp (install_body false tail)
    (fun _ s' => bio_rep dev (release_store b (mklb (lref x) (sblock A p) true) (write_store b (sblock A p) A)) (bio s') /\
       lg s' = lg s) s.
Proof.
  intros Hr Hdev Hg p Hp Hsz Hx Hl Hmax. assert (b <> p) as Hne by congruence. assert (p <> b) as Hne' by done.
  pose proof (live_pos _ _ _ _ _ Hr Hx) as Hpos.
  apply (install_write dev A s tail b); try done.
  { eapply (readable_live _ _ x); [by rewrite lookup_read_ne|done|done]. }
  fold p. rewrite Hx. intros i j s1 Hr1 Hi1 Hj1 L1. set (d := sblock A p). set (A1 := installing p b (lref x + 1) A) in *.
  assert (live A1 !! b = Some (mklb (lref x + 1) d true)) as Eb by (unfold A1; cbn; apply lookup_insert_eq).
  apply wp_bind, (io_bunpin Hr1 Hj1 Eb); [cbn; lia|]. intros s2 Hr2 Hj2 Hk2 L2. cbn [lref ldata llock] in *.
  replace (lref x + 1 - 1) with (lref x) in * by lia.
  set (A2 := set_live b (mklb (lref x) d true) A1) in *.
  assert (live A2 !! p = Some (mklb 1 d true)) as Ep2.
  { unfold A2, A1, installing. cbn. rewrite !lookup_insert_ne by done. apply lookup_insert_eq. }
  assert (live A2 !! b = Some (mklb (lref x) d true)) as Eb2 by (unfold A2; cbn; apply lookup_insert_eq).
  assert (sblock A2 b = d) as Db by (unfold sblock, A2, A1; cbn; by rewrite lookup_insert_eq).
  assert (sblock A2 p = d) as Dp by (unfold sblock, A2, A1; cbn; by rewrite lookup_insert_ne).
  assert (here (bio s2) i p) as Hi2 by (apply Hk2; eauto).
  eapply wp_mono; [exact (install_release dev A2 _ s2 i j p b (lref x) d Hr2 Hi2 Hj2 Hne' Ep2 Dp Eb2 Db eq_refl)|].
  intros [] s3 [Hr3 L3]. split; [|congruence].
  assert (release_store b (mklb (lref x) d true) (drop_live p A2) =
    release_store b (mklb (lref x) d true) (write_store b d A)) as <-; [|exact Hr3].
  unfold release_store. cbn [lref ldata]. unfold A2, A1, installing. fold d.
  destruct (Z.eqb_spec (lref x) 1); store_eq p b.
Qed.

(** During recovery: the home block is written. *)
Lemma recover_step dev A s tail b :
  bio_rep dev A (bio s) -> ldev (lg s) = dev -> get_ok tail b s ->
  let p := lstart (lg s) + tail + 1 in
  live A !! p = None -> live A !! b = None -> b <> p -> (S (size (live A)) < HEAD)%nat ->
  wp (install_body true tail)
    (fun _ s' => bio_rep dev (write_store b (sblock A p) A) (bio s') /\ lg s' = lg s) s.
Proof.
  intros Hr Hdev Hg p Hp Hb Hne Hsz. assert (p <> b) as Hne' by done.
  apply (install_write dev A s tail b); try done; [lia| |].
  { apply readable_free; [by rewrite lookup_read_ne|]. unfold read_store, set_live. cbn.
    rewrite map_size_insert_None by done. done. }
  fold p. rewrite Hb. intros i j s1 Hr1 Hi1 Hj1 L1. set (d := sblock A p). set (A1 := installing p b 1 A) in *.
  apply wp_bind, wp_ret.
  assert (live A1 !! p = Some (mklb 1 d true)) as Ep.
  { unfold A1, installing. cbn. rewrite !lookup_insert_ne by done. apply lookup_insert_eq. }
  assert (live A1 !! b = Some (mklb 1 d true)) as Eb by (unfold A1; cbn; apply lookup_insert_eq).
  assert (sblock A1 b = d) as Db by (unfold sblock, A1; cbn; by rewrite lookup_insert_eq).
  assert (sblock A1 p = d) as Dp by (unfold sblock, A1; cbn; by rewrite lookup_insert_ne).
  eapply wp_mono; [exact (install_release dev A1 _ s1 i j p b 1 d Hr1 Hi1 Hj1 Hne' Ep Dp Eb Db eq_refl)|].
  intros [] s3 [Hr3 L3]. split; [|congruence].
  assert (release_store b (mklb 1 d true) (drop_live p A1) = write_store b d A) as <-; [|exact Hr3].
  unfold A1, installing. fold d. store_eq p b.
Qed.

(** ** The header *)

(** The in-memory header lists [bl]. *)
Definition logged (s : lst) (bl : list Z) : Prop :=
  lh_n (lg s) = Z.of_nat (length bl) /\ take (length bl) (lh_block (lg s)) = bl /\
  Z.of_nat (length (lh_block (lg s))) = LOGSIZE.

Lemma logged_lg s s' bl : lg s' = lg s -> logged s bl -> logged s' bl.
Proof. unfold logged. by intros ->. Qed.

Lemma logged_get s bl i b : logged s bl -> bl !! i = Some b -> get_ok (Z.of_nat i) b s.
Proof.
  intros (_ & Ht & _) Hi. unfold get_ok, get_block. rewrite Nat2Z.id, (proj2 (Z.ltb_ge _ _)) by lia.
  rewrite <- Ht in Hi. apply lookup_take_Some in Hi as [-> _]. done.
Qed.

Lemma put_blocks_snoc bl : forall i d b,
  put_blocks i (bl ++ [b]) d = st32 (put_blocks i bl d) (4 + 4 * (i + Z.of_nat (length bl))) b.
Proof.
  induction bl as [|c bl IH]; intros i d b; cbn [put_blocks app length].
  - by rewrite Z.add_0_r.
  - rewrite IH. do 3 f_equal. lia.
Qed.

Lemma write_head_spec dev A s bl : bio_rep dev A (bio s) -> ldev (lg s) = dev -> logged s bl ->
  live A !! lstart (lg s) = None -> (size (live A) < HEAD)%nat ->
  wp write_head (fun _ s' =>
    bio_rep dev (write_store (lstart (lg s)) (encode_head bl (sblock A (lstart (lg s)))) A) (bio s') /\ lg s' = lg s) s.
Proof.
  intros Hr Hdev Hlg Hp Hsz. set (p := lstart (lg s)) in *. pose proof Hlg as (Hn & _).
  unfold write_head. apply wp_bind, wp_gets, wp_bind, wp_gets. rewrite Hdev. fold p.
  apply wp_bind, (io_bread Hr); [by apply readable_free|]. intros i s1 Hr1 Hi1 _ L1.
  apply wp_bind, wp_gets. rewrite L1, Hn.
  assert (live (read_store p A) !! p = Some (mklb 1 (sblock A p) true)) as E1 by (rewrite lookup_read, Hp; reflexivity).
  set (d0 := st32 (sblock A p) 0 (Z.of_nat (length bl))).
  apply wp_bind, (io_set_data Hr1 Hi1 E1 _ d0); [by intros y ->|]. cbn [lref llock]. intros s2 Hr2 Hi2 _ L2.
  set (J := fun (z : Z) (s' : lst) => here (bio s') i p /\ lg s' = lg s /\
    bio_rep dev (set_live p (mklb 1 (put_blocks 0 (take (Z.to_nat z) bl) d0) true) A) (bio s')).
  apply wp_bind. eapply wp_mono; [apply (wp_forz J)|].
  - split; [done|]. split; [congruence|]. change (put_blocks 0 (take (Z.to_nat 0) bl) d0) with d0.
    assert (set_live p (mklb 1 d0 true) (read_store p A) = set_live p (mklb 1 d0 true) A) as <-; [|exact Hr2].
    unfold read_store, set_live. cbn. f_equal. apply insert_insert_eq.
  - intros z s3 Hz (Hi3 & L3 & Hr3).
    destruct (lookup_lt_is_Some_2 bl (Z.to_nat z) ltac:(lia)) as [b Hb].
    eapply wp_bind_ok.
    { apply (get_ok_lg _ _ _ _ L3). rewrite <- (Z2Nat.id z) by lia. by apply (logged_get s bl). }
    assert (live (set_live p (mklb 1 (put_blocks 0 (take (Z.to_nat z) bl) d0) true) A) !! p =
      Some (mklb 1 (put_blocks 0 (take (Z.to_nat z) bl) d0) true)) as E3 by apply lookup_insert_eq.
    apply (io_set_data Hr3 Hi3 E3 _ (put_blocks 0 (take (Z.to_nat (z + 1)) bl) d0)).
    { intros y ->. cbn. replace (Z.to_nat (z + 1)) with (S (Z.to_nat z)) by lia.
      rewrite (take_S_r _ _ b) by done. rewrite put_blocks_snoc, length_take_le by lia.
      by rewrite Z.add_0_l, Z2Nat.id by lia. }
    cbn [lref llock]. intros s4 Hr4 Hi4 _ L4. split; [done|]. split; [congruence|].
    unfold set_live in Hr4 |- *. cbn in Hr4. by rewrite insert_insert_eq in Hr4.
  - intros [] s3 (Hi3 & L3 & Hr3). rewrite Z.add_0_l, Nat2Z.id, Nat2Z.id, firstn_all in Hr3.
    change (put_blocks 0 bl d0) with (encode_head bl (sblock A p)) in Hr3. set (d := encode_head bl (sblock A p)) in *.
    assert (live (set_live p (mklb 1 d true) A) !! p = Some (mklb 1 d true)) as E3 by apply lookup_insert_eq.
    apply wp_bind, (io_bwrite Hr3 Hi3 E3); [done|]. cbn [ldata]. intros s4 Hr4 Hk4 L4.
    apply (io_brelse Hr4 (Hk4 _ _ Hi3) (x := mklb 1 d true) E3); [done| |].
    { intros _. unfold sblock. cbn. by rewrite lookup_insert_eq. }
    intros s5 Hr5 _ L5. split; [|congruence].
    assert (release_store p (mklb 1 d true) (write_store p d (set_live p (mklb 1 d true) A)) = write_store p d A) as <-;
      [|exact Hr5].
    unfold write_store, release_store, drop_live, set_live. cbn. f_equal.
    rewrite delete_insert_eq. by apply delete_id.
Qed.

(** All but the header. *)
Definition same_log (l l' : log) : Prop :=
  lstart l' = lstart l /\ lsize l' = lsize l /\ outstanding l' = outstanding l /\
  committing l' = committing l /\ ldev l' = ldev l.

Lemma same_log_trans l1 l2 l3 : same_log l1 l2 -> same_log l2 l3 -> same_log l1 l3.
Proof. unfold same_log. intuition congruence. Qed.

Definition head_ok (d : block) : Prop := 0 <= head_n d <= LOGSIZE.

Lemma decode_length d : head_ok d -> Z.of_nat (length (decode_head d)) = head_n d.
Proof. intros H. unfold decode_head. rewrite length_map, length_seq. unfold head_ok in H. lia. Qed.

Lemma read_head_spec dev A s : bio_rep dev A (bio s) -> ldev (lg s) = dev ->
  live A !! lstart (lg s) = None -> (size (live A) < HEAD)%nat ->
  Z.of_nat (length (lh_block (lg s))) = LOGSIZE -> head_ok (sblock A (lstart (lg s))) ->
  wp read_head (fun _ s' => bio_rep dev A (bio s') /\ logged s' (decode_head (sblock A (lstart (lg s)))) /\
    same_log (lg s) (lg s')) s.
Proof.
  intros Hr Hdev Hp Hsz Hlen Hok. set (p := lstart (lg s)) in *. set (d := sblock A p) in *.
  unfold read_head. apply wp_bind, wp_gets, wp_bind, wp_gets. rewrite Hdev. fold p.
  apply wp_bind, (io_bread Hr); [by apply readable_free|]. intros i s1 Hr1 Hi1 _ L1.
  assert (live (read_store p A) !! p = Some (mklb 1 d true)) as E1 by (rewrite lookup_read, Hp; reflexivity).
  apply wp_bind, (io_data Hr1 Hi1 E1). cbn [ldata]. apply wp_bind, wp_modify, wp_bind, wp_gets.
  cbn [set_lg lg set_n lh_n]. fold (head_n d).
  set (J := fun (z : Z) (s' : lst) => bio s' = bio s1 /\ same_log (lg s) (lg s') /\ lh_n (lg s') = head_n d /\
    Z.of_nat (length (lh_block (lg s'))) = LOGSIZE /\ forall j, (Z.of_nat j < z) -> lh_block (lg s') !! j = Some (head_block d j)).
  apply wp_bind. eapply wp_mono; [apply (wp_forz J)|].
  - split; [done|]. cbn. rewrite L1. split; [done|]. split; [done|]. split; [done|]. lia.
  - intros z s2 Hz (B2 & S2 & N2 & Len2 & Hj). unfold head_ok in Hok. unfold set_block.
    rewrite (proj2 (Z.ltb_ge z 0)), (proj2 (Z.leb_gt LOGSIZE z)) by lia. cbn [orb].
    apply (wp_of_ok _ _ _ _ _ eq_refl).
    split; [done|]. split; [done|]. split; [done|]. cbn [set_lg lg lh_block]. rewrite length_insert. split; [done|].
    intros j Hlt. destruct (decide (j = Z.to_nat z)) as [->|Hne].
    + rewrite list_lookup_insert_eq by lia. unfold head_block. by rewrite Z2Nat.id by lia.
    + rewrite list_lookup_insert_ne by done. apply Hj. lia.
  - intros [] s2 (B2 & S2 & N2 & Len2 & Hj). rewrite Z.add_0_l, Z2Nat.id in Hj by (destruct Hok; lia).
    rewrite <- B2 in Hr1, Hi1.
    apply (io_brelse Hr1 Hi1 E1); [done|by intros _|]. intros s3 Hr3 _ L3. rewrite L3. split; [|split; [|done]].
    + assert (release_store p (mklb 1 d true) (read_store p A) = A) as <-; [|exact Hr3].
      unfold release_store, drop_live, read_store, set_live. cbn. destruct A as [lv dk tr]. cbn in *. f_equal.
      rewrite delete_insert_eq. by apply delete_id.
    + apply (logged_lg s2); [done|]. pose proof (decode_length d Hok) as Hdl. split; [congruence|]. split; [|done].
      apply list_eq. intros j. destruct (decide (j < length (decode_head d))%nat) as [Hlt|Hge].
      * rewrite lookup_take_lt, Hj by lia. unfold decode_head. change (map ?f ?l) with (f <$> l).
        rewrite list_lookup_fmap. unfold decode_head in Hlt. rewrite length_map, length_seq in Hlt.
        by rewrite lookup_seq_lt.
      * rewrite lookup_take_ge by lia. symmetry. apply lookup_ge_None. lia.
Qed.
