(* ===== verification/LogCommit.v ===== *)
(** * The writes of a commit and of recovery

    [commit_writes] and [recover_writes] are the sequences of block writes the
    loops of kernel/log.c issue, as functions of the store; the code performs
    exactly these. *)

From S2P Require Import Prelude Riscv Mem Lock Bio BioSpec Log LogSpec.
Local Open Scope Z_scope.

(** Blocks that are not part of the log. *)
Definition outside (l : log) (b : Z) : Prop := b < lstart l \/ lstart l + lsize l <= b.

Definition log_writes (start : Z) (A : store) (bl : list Z) : list (Z * block) :=
  imap (fun i b => (start + Z.of_nat i + 1, view A b)) bl.
Definition home_writes (A : store) (bl : list Z) : list (Z * block) := map (fun b => (b, view A b)) bl.
Definition commit_writes (start : Z) (A : store) (bl : list Z) : list (Z * block) :=
  let h := encode_head bl (sblock A start) in
  log_writes start A bl ++ [(start, h)] ++ home_writes A bl ++ [(start, encode_head [] h)].

Definition install_writes (start : Z) (D : gmap Z block) (bl : list Z) : list (Z * block) :=
  imap (fun i b => (b, blk D (start + Z.of_nat i + 1))) bl.
Definition recover_writes (start : Z) (D : gmap Z block) : list (Z * block) :=
  install_writes start D (decode_head (blk D start)) ++ [(start, encode_head [] (blk D start))].

(** The log releases its reference to each logged block. *)
Definition unpin (b : Z) (lv : gmap Z lbuf) : gmap Z lbuf :=
  match lv !! b with
  | Some x => if lref x =? 1 then delete b lv else <[b := mklb (lref x - 1) (ldata x) (llock x)]> lv
  | None => lv
  end.
Definition unpins (bl : list Z) (lv : gmap Z lbuf) : gmap Z lbuf := foldl (fun lv b => unpin b lv) lv bl.

Lemma unpin_ne b c lv : c <> b -> unpin b lv !! c = lv !! c.
Proof.
  intros H. unfold unpin. destruct (lv !! b) as [x|]; [|done].
  destruct (lref x =? 1); [by rewrite lookup_delete_ne|by rewrite lookup_insert_ne].
Qed.
Lemma unpin_none b c lv : lv !! c = None -> unpin b lv !! c = None.
Proof.
  intros H. destruct (decide (c = b)) as [->|]; [|by rewrite unpin_ne]. unfold unpin. by rewrite H.
Qed.
Lemma unpin_size b lv : (size (unpin b lv) <= size lv)%nat.
Proof.
  unfold unpin. destruct (lv !! b) as [x|] eqn:E; [|done]. destruct (lref x =? 1).
  - rewrite map_size_delete, E. cbn. lia.
  - by rewrite map_size_insert, E.
Qed.
Lemma unpins_snoc bl b lv : unpins (bl ++ [b]) lv = unpin b (unpins bl lv).
Proof. unfold unpins. by rewrite foldl_app. Qed.
Lemma unpins_cons b bl lv : unpins (b :: bl) lv = unpins bl (unpin b lv).
Proof. done. Qed.
Lemma unpins_other bl : forall lv c, c ∉ bl -> unpins bl lv !! c = lv !! c.
Proof.
  induction bl as [|b bl IH]; intros lv c H; [done|]. apply not_elem_of_cons in H as [H1 H2].
  rewrite unpins_cons, IH by done. by apply unpin_ne.
Qed.
Lemma unpins_none bl : forall lv c, lv !! c = None -> unpins bl lv !! c = None.
Proof. induction bl as [|b bl IH]; intros lv c H; [done|]. rewrite unpins_cons. by apply IH, unpin_none. Qed.
Lemma unpins_size bl : forall lv, (size (unpins bl lv) <= size lv)%nat.
Proof.
  induction bl as [|b bl IH]; intros lv; [done|]. rewrite unpins_cons. pose proof (IH (unpin b lv)).
  pose proof (unpin_size b lv). lia.
Qed.

(** A transaction that can commit: the header lists distinct blocks outside
    the log, all pinned in the cache, and there is a buffer to spare. *)
Record committable (dev : Z) (A : store) (s : lst) (bl : list Z) : Prop := {
  ct_rep : bio_rep dev A (bio s);
  ct_dev : ldev (lg s) = dev;
  ct_logged : logged s bl;
  ct_nodup : NoDup bl;
  ct_room : Z.of_nat (length bl) < lsize (lg s);
  ct_outside : Forall (outside (lg s)) bl;
  ct_pinned : Forall (fun b => exists x, live A !! b = Some x /\ llock x = false /\ lref x < 2 ^ 32 - 1) bl;
  ct_area : forall i, 0 <= i < lsize (lg s) -> live A !! (lstart (lg s) + i) = None;
  ct_free : (size (live A) < HEAD)%nat
}.

Lemma write_log_spec dev A s bl : committable dev A s bl ->
  wp write_log (fun _ s' => bio_rep dev (writes (log_writes (lstart (lg s)) A bl) A) (bio s') /\ lg s' = lg s) s.
Proof.
  intros H. pose proof (ct_logged _ _ _ _ H) as Hlog. pose proof Hlog as (Hn & _). set (ws := log_writes (lstart (lg s)) A bl).
  assert (length ws = length bl) as Hlen by (unfold ws, log_writes; apply length_imap).
  unfold write_log. apply wp_bind, wp_gets. rewrite Hn, Nat2Z.id.
  eapply wp_mono; [apply (wp_forz (fun z s' => bio_rep dev (writes (take (Z.to_nat z) ws) A) (bio s') /\ lg s' = lg s))|].
  - split; [|done]. change (take (Z.to_nat 0) ws) with (@nil (Z * block)). rewrite writes_nil. apply H.
  - intros z s1 Hz [Hr1 L1]. destruct (lookup_lt_is_Some_2 bl (Z.to_nat z) ltac:(lia)) as [b Hb].
    destruct (Forall_lookup_1 _ _ _ _ (ct_pinned _ _ _ _ H) Hb) as (x & Hx & Hl & Hmax).
    pose proof (ct_room _ _ _ _ H).
    eapply wp_mono; [apply (write_log_step dev _ s1 z b x Hr1)|].
    + rewrite L1. apply H.
    + rewrite <- (Z2Nat.id z) by lia. apply (logged_get s1 bl); [|done]. by apply (logged_lg s).
    + rewrite L1. cbn [writes live]. rewrite <- Z.add_assoc. apply (ct_area _ _ _ _ H). lia.
    + apply H.
    + done.
    + done.
    + done.
    + intros [] s2 [Hr2 L2]. split; [|congruence]. replace (Z.to_nat (z + 1)) with (S (Z.to_nat z)) by lia.
      rewrite (take_S_r _ _ (lstart (lg s) + z + 1, ldata x)).
      2:{ unfold ws, log_writes. rewrite list_lookup_imap, Hb. cbn. unfold view. rewrite Hx.
          by rewrite Z2Nat.id by lia. }
      rewrite writes_snoc. by rewrite L1 in Hr2.
  - intros [] s1 [Hr1 L1]. split; [|done]. by rewrite Z.add_0_l, Nat2Z.id, <- Hlen, firstn_all in Hr1.
Qed.

(** The store once the blocks [bl] have been installed. *)
Definition installed (A : store) (bl : list Z) : store :=
  mkstore (unpins bl (live A)) (apply_writes (home_writes A bl) (sdisk A)) (strace A ++ home_writes A bl).

Lemma home_fst A bl : (home_writes A bl).*1 = bl.
Proof. unfold home_writes. induction bl as [|b bl IH]; [done|]. cbn. f_equal. exact IH. Qed.

Lemma installed_snoc A bl b x : b ∉ bl -> live A !! b = Some x -> llock x = false ->
  installed A (bl ++ [b]) = release_store b (mklb (lref x) (ldata x) true) (write_store b (ldata x) (installed A bl)).
Proof.
  intros Hb Hx Hl. unfold installed, home_writes. rewrite map_app, unpins_snoc, apply_app, app_assoc.
  cbn [map]. unfold view. rewrite Hx. unfold release_store, unpin. rewrite unpins_other, Hx by done. cbn [lref ldata].
  rewrite Hl. by destruct (lref x =? 1).
Qed.

(** [install_trans(0)]: the contents the log has are those of the cache. *)
Lemma install_spec dev A s bl : committable dev A s bl ->
  (forall i b, bl !! i = Some b -> sblock A (lstart (lg s) + Z.of_nat i + 1) = view A b) ->
  wp (install_trans false) (fun _ s' => bio_rep dev (installed A bl) (bio s') /\ lg s' = lg s) s.
Proof.
  intros H Hlogd. pose proof (ct_logged _ _ _ _ H) as Hlog. pose proof Hlog as (Hn & _).
  unfold install_trans. apply wp_bind, wp_gets. rewrite Hn, Nat2Z.id.
  eapply wp_mono; [apply (wp_forz (fun z s' => bio_rep dev (installed A (take (Z.to_nat z) bl)) (bio s') /\ lg s' = lg s))|].
  - split; [|done]. change (take (Z.to_nat 0) bl) with (@nil Z). unfold installed. cbn. rewrite app_nil_r.
    destruct A. apply H.
  - intros z s1 Hz [Hr1 L1]. destruct (lookup_lt_is_Some_2 bl (Z.to_nat z) ltac:(lia)) as [b Hb].
    destruct (Forall_lookup_1 _ _ _ _ (ct_pinned _ _ _ _ H) Hb) as (x & Hx & Hl & Hmax).
    pose proof (ct_room _ _ _ _ H) as Hroom.
    assert (b ∉ take (Z.to_nat z) bl) as Hnew.
    { intros Hin. apply list_elem_of_lookup in Hin as [j Hj]. apply lookup_take_Some in Hj as [Hj Hlt].
      pose proof (NoDup_lookup _ _ _ _ (ct_nodup _ _ _ _ H) Hj Hb). lia. }
    assert (sblock (installed A (take (Z.to_nat z) bl)) (lstart (lg s1) + z + 1) = ldata x) as Hd.
    { rewrite L1. transitivity (sblock A (lstart (lg s) + z + 1)).
      - unfold sblock, installed. cbn [sdisk]. rewrite apply_other; [done|]. rewrite home_fst. intros Hin.
        apply list_elem_of_lookup in Hin as [j Hj]. apply lookup_take_Some in Hj as [Hj _].
        pose proof (Forall_lookup_1 _ _ _ _ (ct_outside _ _ _ _ H) Hj) as Ho. unfold outside in Ho. lia.
      - pose proof (Hlogd (Z.to_nat z) b Hb) as Hd. rewrite Z2Nat.id in Hd by lia. rewrite Hd. unfold view. by rewrite Hx. }
    eapply wp_mono; [apply (install_step dev _ s1 z b x Hr1)|].
    + rewrite L1. apply H.
    + rewrite <- (Z2Nat.id z) by lia. apply (logged_get s1 bl); [|done]. by apply (logged_lg s).
    + rewrite L1. cbn [installed live]. apply unpins_none. rewrite <- Z.add_assoc. apply (ct_area _ _ _ _ H). lia.
    + cbn [installed live]. pose proof (unpins_size (take (Z.to_nat z) bl) (live A)). pose proof (ct_free _ _ _ _ H). lia.
    + cbn [installed live]. by rewrite unpins_other.
    + done.
    + done.
    + intros [] s2 [Hr2 L2]. split; [|congruence]. replace (Z.to_nat (z + 1)) with (S (Z.to_nat z)) by lia.
      rewrite Hd in Hr2. rewrite (take_S_r _ _ b) by done. by rewrite (installed_snoc _ _ b x).
  - intros [] s1 [Hr1 L1]. split; [|done]. by rewrite Z.add_0_l, Nat2Z.id, firstn_all in Hr1.
Qed.

Lemma committable_lg dev A A' s s' bl : committable dev A s bl -> bio_rep dev A' (bio s') -> live A' = live A ->
  lg s' = lg s -> committable dev A' s' bl.
Proof.
  intros H Hr Hl L. constructor; rewrite ?Hl, ?L; try apply H; [done|].
  apply (logged_lg s); [done|apply H].
Qed.

Lemma log_writes_fst start A bl b : b ∈ (log_writes start A bl).*1 -> start < b <= start + Z.of_nat (length bl).
Proof.
  intros H. apply list_elem_of_fmap in H as ([c d] & -> & H). apply elem_of_lookup_imap in H as (i & e & E & Hi).
  injection E as -> _. apply lookup_lt_Some in Hi. cbn. lia.
Qed.

Lemma log_writes_nodup start A bl : NoDup (log_writes start A bl).*1.
Proof.
  unfold log_writes. rewrite fmap_imap. apply NoDup_alt. intros i j b Hi Hj.
  rewrite list_lookup_imap in Hi, Hj. destruct (bl !! i), (bl !! j); try done. cbn in Hi, Hj.
  injection Hi as <-. injection Hj as Hj. lia.
Qed.

Lemma log_writes_at start A bl D i b : bl !! i = Some b ->
  apply_writes (log_writes start A bl) D !! (start + Z.of_nat i + 1) = Some (view A b).
Proof.
  intros H. apply (apply_at _ _ i); [apply log_writes_nodup|]. unfold log_writes. by rewrite list_lookup_imap, H.
Qed.

Lemma home_writes_ext A B bl : (forall b, b ∈ bl -> view A b = view B b) -> home_writes A bl = home_writes B bl.
Proof.
  intros H. unfold home_writes. apply map_ext_in. intros b Hb. f_equal. by apply H, list_elem_of_In.
Qed.

(** The log ends empty, the logged blocks are home and no longer pinned, and
    the disk has seen exactly [commit_writes]. *)
Definition committed (start : Z) (A : store) (bl : list Z) : store :=
  mkstore (unpins bl (live A)) (apply_writes (commit_writes start A bl) (sdisk A))
    (strace A ++ commit_writes start A bl).

Lemma start_outside dev A s bl : committable dev A s bl -> lstart (lg s) ∉ bl.
Proof.
  intros H Hin. pose proof (proj1 (Forall_forall _ _) (ct_outside _ _ _ _ H) _ Hin) as Ho.
  pose proof (ct_room _ _ _ _ H). unfold outside in Ho. lia.
Qed.

Lemma logged_nil s : Z.of_nat (length (lh_block (lg s))) = LOGSIZE -> logged (set_lg (set_n 0) s) [].
Proof. intros H. split; [done|]. split; [done|]. exact H. Qed.

Lemma commit_some dev A s bl : committable dev A s bl -> bl <> [] ->
  wp commit (fun _ s' => bio_rep dev (committed (lstart (lg s)) A bl) (bio s') /\ lg s' = set_n 0 (lg s)) s.
Proof.
  intros H Hne. set (p := lstart (lg s)). pose proof (ct_logged _ _ _ _ H) as (Hn & _ & Hlen).
  pose proof (ct_room _ _ _ _ H) as Hroom. pose proof (start_outside _ _ _ _ H) as Hout. fold p in Hout.
  unfold commit. apply wp_bind, wp_gets. rewrite Hn.
  rewrite (proj2 (Z.ltb_lt _ _)) by (destruct bl; [done|cbn; lia]).
  apply wp_bind. eapply wp_mono; [apply (write_log_spec _ _ _ _ H)|]. intros [] s1 [Hr1 L1]. fold p in Hr1.
  set (A1 := writes (log_writes p A bl) A) in *.
  pose proof (committable_lg _ _ A1 _ s1 _ H Hr1 eq_refl L1) as H1.
  assert (live A !! p = None) as Hp. { rewrite <- (Z.add_0_r p). apply (ct_area _ _ _ _ H). lia. }
  assert (sblock A1 p = sblock A p) as Hh1.
  { unfold sblock, A1. cbn. rewrite apply_other; [done|]. intros Hin. apply log_writes_fst in Hin. lia. }
  apply wp_bind. eapply wp_mono; [apply (write_head_spec dev A1 s1 bl Hr1)|]; [apply H1|apply H1| |apply H1|].
  { rewrite L1. exact Hp. }
  rewrite L1. fold p. rewrite Hh1. intros [] s2 [Hr2 L2]. set (h := encode_head bl (sblock A p)) in *.
  set (A2 := write_store p h A1) in *.
  assert (lg s2 = lg s) as L2' by congruence.
  pose proof (committable_lg _ _ A2 _ s2 _ H Hr2 eq_refl L2') as H2.
  apply wp_bind. eapply wp_mono; [apply (install_spec dev A2 s2 bl H2)|].
  { intros i b Hi. rewrite L2'. fold p. pose proof (lookup_lt_Some _ _ _ Hi).
    unfold sblock, A2. cbn. rewrite lookup_insert_ne by lia. rewrite (log_writes_at p A bl (sdisk A) i b Hi). cbn.
    destruct (Forall_lookup_1 _ _ _ _ (ct_pinned _ _ _ _ H) Hi) as (x & Hx & _). unfold view. cbn. by rewrite Hx. }
  intros [] s3 [Hr3 L3]. assert (lg s3 = lg s) as L3' by congruence.
  apply wp_bind, wp_modify.
  assert (home_writes A2 bl = home_writes A bl) as Ehw.
  { apply home_writes_ext. intros b Hb. destruct (proj1 (Forall_forall _ _) (ct_pinned _ _ _ _ H) b Hb) as (x & Hx & _).
    unfold view. cbn. by rewrite Hx. }
  assert (sblock (installed A2 bl) p = h) as Hh3.
  { unfold sblock, installed. cbn [sdisk]. rewrite apply_other by (by rewrite home_fst). cbn. by rewrite lookup_insert_eq. }
  eapply wp_mono; [apply (write_head_spec dev (installed A2 bl) (set_lg (set_n 0) s3) [])|].
  - exact Hr3.
  - cbn. rewrite L3'. apply H.
  - apply logged_nil. by rewrite L3'.
  - cbn. rewrite L3'. by apply unpins_none.
  - cbn. pose proof (unpins_size bl (live A)). pose proof (ct_free _ _ _ _ H). lia.
  - intros [] s4 [Hr4 L4]. cbn [set_lg lg set_n lstart] in Hr4, L4. rewrite L3' in Hr4, L4. fold p in Hr4.
    split; [|done]. rewrite Hh3 in Hr4.
    assert (write_store p (encode_head [] h) (installed A2 bl) = committed p A bl) as <-; [|exact Hr4].
    unfold committed, commit_writes. fold h. unfold installed. rewrite Ehw. unfold A2, A1, write_store, writes.
    cbn [live sdisk strace]. rewrite !apply_app. cbn. f_equal. by rewrite <- !app_assoc.
Qed.

Lemma commit_none s : lh_n (lg s) = 0 -> commit s = Ok tt s.
Proof. intros H. unfold commit, bind, getl, gets. by rewrite H. Qed.

(** ** Recovery *)

(** The disk at boot: the header is readable and lists blocks outside the
    log. *)
Record recoverable (l : log) (D : gmap Z block) : Prop := {
  rc_head : head_ok (blk D (lstart l));
  rc_room : Z.of_nat (length (decode_head (blk D (lstart l)))) < lsize l;
  rc_outside : Forall (outside l) (decode_head (blk D (lstart l)))
}.

Lemma install_writes_fst start D bl : (install_writes start D bl).*1 = bl.
Proof.
  unfold install_writes. rewrite fmap_imap. apply list_eq. intros i. rewrite list_lookup_imap.
  by destruct (bl !! i).
Qed.

Lemma head_gt_1 : (1 < HEAD)%nat.
Proof. apply Nat.ltb_lt. reflexivity. Qed.

Lemma recover_install_spec dev A s bl : bio_rep dev A (bio s) -> live A = ∅ -> ldev (lg s) = dev -> logged s bl ->
  Z.of_nat (length bl) < lsize (lg s) -> Forall (outside (lg s)) bl ->
  wp (install_trans true) (fun _ s' =>
    bio_rep dev (writes (install_writes (lstart (lg s)) (sdisk A) bl) A) (bio s') /\ lg s' = lg s) s.
Proof.
  intros Hr Hlv Hdev Hlog Hroom Hout. pose proof Hlog as (Hn & _). set (ws := install_writes (lstart (lg s)) (sdisk A) bl).
  assert (length ws = length bl) as Hlen by (unfold ws, install_writes; apply length_imap).
  unfold install_trans. apply wp_bind, wp_gets. rewrite Hn, Nat2Z.id.
  eapply wp_mono; [apply (wp_forz (fun z s' => bio_rep dev (writes (take (Z.to_nat z) ws) A) (bio s') /\ lg s' = lg s))|].
  - split; [|done]. change (take (Z.to_nat 0) ws) with (@nil (Z * block)). by rewrite writes_nil.
  - intros z s1 Hz [Hr1 L1]. destruct (lookup_lt_is_Some_2 bl (Z.to_nat z) ltac:(lia)) as [b Hb].
    pose proof (Forall_lookup_1 _ _ _ _ Hout Hb) as Ho. unfold outside in Ho.
    eapply wp_mono; [apply (recover_step dev _ s1 z b Hr1)|].
    + by rewrite L1.
    + rewrite <- (Z2Nat.id z) by lia. apply (logged_get s1 bl); [|done]. by apply (logged_lg s).
    + cbn [writes live]. by rewrite Hlv, lookup_empty.
    + cbn [writes live]. by rewrite Hlv, lookup_empty.
    + rewrite L1. lia.
    + cbn [writes live]. rewrite Hlv. rewrite map_size_empty. apply head_gt_1.
    + intros [] s2 [Hr2 L2]. split; [|congruence]. replace (Z.to_nat (z + 1)) with (S (Z.to_nat z)) by lia.
      rewrite (take_S_r _ _ (b, blk (sdisk A) (lstart (lg s) + z + 1))).
      2:{ unfold ws, install_writes. rewrite list_lookup_imap, Hb. cbn. by rewrite Z2Nat.id by lia. }
      rewrite writes_snoc. rewrite L1 in Hr2. assert (sblock (writes (take (Z.to_nat z) ws) A) (lstart (lg s) + z + 1) =
        blk (sdisk A) (lstart (lg s) + z + 1)) as <-; [|done].
      unfold sblock, blk. cbn. rewrite apply_other; [done|]. rewrite fmap_take. unfold ws. rewrite install_writes_fst.
      intros Hin. apply list_elem_of_lookup in Hin as [j Hj]. apply lookup_take_Some in Hj as [Hj _].
      pose proof (Forall_lookup_1 _ _ _ _ Hout Hj) as Hj'. unfold outside in Hj'. lia.
  - intros [] s1 [Hr1 L1]. split; [|done]. by rewrite Z.add_0_l, Nat2Z.id, <- Hlen, firstn_all in Hr1.
Qed.

(** Recovery from a cold cache performs [recover_writes]. *)
Lemma recover_spec dev A s : bio_rep dev A (bio s) -> live A = ∅ -> ldev (lg s) = dev ->
  Z.of_nat (length (lh_block (lg s))) = LOGSIZE -> recoverable (lg s) (sdisk A) ->
  wp recover_from_log (fun _ s' =>
    bio_rep dev (writes (recover_writes (lstart (lg s)) (sdisk A)) A) (bio s') /\ logged s' [] /\
    same_log (lg s) (lg s')) s.
Proof.
  intros Hr Hlv Hdev Hlen [Hok Hroom Hout]. set (p := lstart (lg s)) in *.
  assert (forall b, live A !! b = None) as Hnone by (intros b; by rewrite Hlv, lookup_empty).
  assert (size (live A) < HEAD)%nat as Hsz. { rewrite Hlv, map_size_empty. pose proof head_gt_1. lia. }
  change (blk (sdisk A) p) with (sblock A p) in *. set (bl := decode_head (sblock A p)) in *.
  unfold recover_from_log. apply wp_bind. eapply wp_mono; [by apply (read_head_spec dev A s)|].
  intros [] s1 (Hr1 & Hlog1 & S1). fold p bl in Hlog1. pose proof S1 as (S1s & S1z & _ & _ & S1d).
  apply wp_bind. eapply wp_mono; [apply (recover_install_spec dev A s1 bl Hr1 Hlv)|]; [congruence|done|by rewrite S1z| |].
  { eapply Forall_impl; [exact Hout|]. intros b. unfold outside. by rewrite S1s, S1z. }
  intros [] s2 [Hr2 L2]. rewrite S1s in Hr2. fold p in Hr2.
  apply wp_bind, wp_modify.
  assert (sblock (writes (install_writes p (sdisk A) bl) A) p = sblock A p) as Hp.
  { unfold sblock. cbn. rewrite apply_other; [done|]. rewrite install_writes_fst. intros Hin.
    pose proof (proj1 (Forall_forall _ _) Hout _ Hin) as Ho. unfold outside, p in Ho. lia. }
  eapply wp_mono; [apply (write_head_spec dev _ (set_lg (set_n 0) s2) [] Hr2)|].
  - cbn. rewrite L2. congruence.
  - apply logged_nil. rewrite L2. apply Hlog1.
  - cbn. apply Hnone.
  - exact Hsz.
  - intros [] s3 [Hr3 L3]. cbn [set_lg lg set_n lstart] in Hr3, L3. rewrite L2, S1s in Hr3. fold p in Hr3.
    rewrite Hp in Hr3. rewrite L3, L2. split; [|split].
    + unfold recover_writes. change (blk (sdisk A) p) with (sblock A p). fold bl.
      rewrite writes_snoc. exact Hr3.
    + apply (logged_lg (set_lg (set_n 0) s2)); [done|]. apply logged_nil. rewrite L2. apply Hlog1.
    + exact S1.
Qed.

Lemma remove1_absent x l : x ∉ l -> remove1 x l = l.
Proof.
  induction l as [|y l IH]; intros H; [done|]. apply not_elem_of_cons in H as [H1 H2]. cbn.
  destruct (String.eqb_spec x y); [done|]. by rewrite IH.
Qed.

Lemma initlog_spec dev A s start size : bio_rep dev A (bio s) -> live A = ∅ ->
  Z.of_nat (length (lh_block (lg s))) = LOGSIZE ->
  let l := mklog start size (outstanding (lg s)) (committing (lg s)) dev (lh_n (lg s)) (lh_block (lg s)) in
  recoverable l (sdisk A) -> "log" ∉ blocks_held (bio s) ->
  wp (initlog dev start size) (fun _ s' =>
    bio_rep dev (writes (recover_writes start (sdisk A)) A) (bio s') /\ logged s' [] /\ same_log l (lg s')) s.
Proof.
  intros Hr Hlv Hlen l Hrc Hh. unfold initlog. change (BSIZE <=? 4 + 4 * LOGSIZE) with false. cbn iota.
  unfold initlock. apply wp_bind, wp_modify. rewrite (remove1_absent "log") by exact Hh.
  apply wp_bind, wp_modify. set (s1 := set_lg _ _).
  eapply wp_mono; [apply (recover_spec dev A s1)|].
  - destruct s as [[] ?]. exact Hr.
  - exact Hlv.
  - done.
  - exact Hlen.
  - exact Hrc.
  - done.
Qed.
