(* ===== verification/LogCrash.v ===== *)
(** * Crashes

    A crash loses the cache and everything in memory and keeps the block
    writes that had been performed; a reboot runs [binit] and [initlog] on
    what is on the disk.  Recovery may itself be interrupted, any number of
    times.  Writes of whole blocks are assumed not to be torn. *)

From S2P Require Import Prelude Riscv Mem Lock Bio BioSpec Log LogSpec LogCommit.
Local Open Scope Z_scope.

(** Memory as the loader leaves it, with disk [D]. *)
Definition loaded (D : gmap Z block) : lst :=
  mklst (mkbst (fun _ => zero_buf) D [] 0 [])
    (mklog 0 0 0 false 0 0 (replicate (Z.to_nat LOGSIZE) 0)).

Definition boot (dev start size : Z) (D : gmap Z block) : res lst unit :=
  (io binit ;; initlog dev start size) (loaded D).

(** [D'] is on the disk once a boot has run to its end. *)
Inductive reboots (dev start size : Z) : gmap Z block -> gmap Z block -> Prop :=
| reboots_done D s' : boot dev start size D = Ok tt s' -> reboots dev start size D (disk (bio s'))
| reboots_crash D s' k D' : boot dev start size D = Ok tt s' ->
    reboots dev start size (apply_writes (take k (trace (bio s'))) D) D' -> reboots dev start size D D'.

Section Recovery.
Context (dev start size : Z) (Hdev : dev <> 0).

Definition in_log (b : Z) : Prop := start <= b < start + size.
(** Data of the file system. *)
Definition home (b : Z) : Prop := ~ in_log b.

(** The log is empty and the home blocks contain [T]. *)
Definition clean (T : Z -> block) (D : gmap Z block) : Prop :=
  head_n (blk D start) = 0 /\ forall b, home b -> blk D b = T b.

(** The header lists the blocks whose contents are in the log only. *)
Definition redo (T : Z -> block) (D : gmap Z block) : Prop :=
  let bl := decode_head (blk D start) in
  head_ok (blk D start) /\ NoDup bl /\ Z.of_nat (length bl) < size /\ Forall home bl /\
  (forall i b, bl !! i = Some b -> blk D (start + Z.of_nat i + 1) = T b) /\
  (forall b, home b -> b ∉ bl -> blk D b = T b).

Lemma clean_redo T D : 0 < size -> clean T D -> redo T D.
Proof.
  intros Hs [H0 H]. unfold redo. assert (decode_head (blk D start) = []) as ->.
  { unfold decode_head. by rewrite H0. }
  split; [unfold head_ok; by rewrite H0|]. split; [constructor|]. split; [done|]. split; [constructor|]. split; [done|].
  intros b Hb _. by apply H.
Qed.

Lemma clean_ext T T' D : (forall b, T b = T' b) -> clean T D -> clean T' D.
Proof. intros E [H1 H2]. split; [done|]. intros b Hb. rewrite <- E. by apply H2. Qed.

Lemma home_outside b l : lstart l = start -> lsize l = size -> home b <-> outside l b.
Proof. intros <- <-. unfold home, in_log, outside. lia. Qed.

Lemma blk_other ws D b : b ∉ ws.*1 -> blk (apply_writes ws D) b = blk D b.
Proof. intros H. unfold blk. by rewrite apply_other. Qed.

Lemma blk_at ws D j b d : NoDup ws.*1 -> ws !! j = Some (b, d) -> blk (apply_writes ws D) b = d.
Proof. intros H1 H2. unfold blk. by rewrite (apply_at _ _ j _ d). Qed.

Lemma head_n_clear d : head_n (encode_head [] d) = 0.
Proof. unfold head_n, encode_head. cbn [put_blocks length]. by apply ld32_st32_same. Qed.

(** A recovery that ran [k] of its writes has left the log as it was; one
    that ran to its end has put every block home. *)
Lemma recover_prefix T D k : redo T D -> (k <= length (decode_head (blk D start)))%nat ->
  redo T (apply_writes (take k (recover_writes start D)) D).
Proof.
  intros (Hok & Hnd & Hroom & Hout & Hlog & Hhome) Hk. unfold recover_writes.
  set (bl := decode_head (blk D start)) in *. set (ws := install_writes start D bl).
  assert (length ws = length bl) as Hlen by (unfold ws, install_writes; apply length_imap).
  rewrite take_app_le by lia.
  assert (forall b, in_log b -> b ∉ (take k ws).*1) as Hin.
  { intros b Hb Hi. rewrite fmap_take in Hi. unfold ws in Hi. rewrite install_writes_fst in Hi.
    apply (subseteq_take k) in Hi. by apply (proj1 (Forall_forall _ _) Hout b Hi). }
  unfold redo. rewrite blk_other by (apply Hin; unfold in_log; lia). fold bl.
  split; [done|]. split; [done|]. split; [done|]. split; [done|]. split.
  - intros i b Hi. rewrite blk_other; [by apply Hlog|]. apply Hin. apply lookup_lt_Some in Hi. unfold in_log. lia.
  - intros b Hb Hn. rewrite blk_other; [by apply Hhome|]. intros Hi. apply Hn.
    rewrite fmap_take in Hi. unfold ws in Hi. rewrite install_writes_fst in Hi. by apply (subseteq_take k) in Hi.
Qed.

Lemma recover_all T D : redo T D -> clean T (apply_writes (recover_writes start D) D).
Proof.
  intros (Hok & Hnd & Hroom & Hout & Hlog & Hhome). unfold recover_writes.
  set (bl := decode_head (blk D start)) in *. rewrite apply_app. cbn [apply_writes foldl]. split.
  - unfold blk at 1. cbn. rewrite lookup_insert_eq. cbn. apply head_n_clear.
  - intros b Hb. unfold blk. cbn [fst snd]. rewrite lookup_insert_ne by (intros <-; apply Hb; unfold in_log; lia).
    fold (blk (apply_writes (install_writes start D bl) D) b).
    destruct (decide (b ∈ bl)) as [Hin|Hin].
    + apply list_elem_of_lookup in Hin as [i Hi]. rewrite <- (Hlog i b Hi).
      apply (blk_at _ _ i); [by rewrite install_writes_fst|]. unfold install_writes. by rewrite list_lookup_imap, Hi.
    + rewrite blk_other by (by rewrite install_writes_fst). by apply Hhome.
Qed.

Lemma recover_length D : length (recover_writes start D) = S (length (decode_head (blk D start))).
Proof. unfold recover_writes, install_writes. rewrite length_app, length_imap. cbn. lia. Qed.

Lemma recover_any T D k : 0 < size -> redo T D -> redo T (apply_writes (take k (recover_writes start D)) D).
Proof.
  intros Hs H. destruct (decide (k <= length (decode_head (blk D start)))%nat); [by apply recover_prefix|].
  rewrite take_ge by (rewrite recover_length; lia). apply clean_redo; [done|]. by apply recover_all.
Qed.

(** A boot performs recovery. *)
Lemma boot_ok T D : redo T D ->
  exists s', boot dev start size D = Ok tt s' /\ trace (bio s') = recover_writes start D /\
    disk (bio s') = apply_writes (recover_writes start D) D.
Proof.
  intros (Hok & Hnd & Hroom & Hout & Hlog & Hhome).
  destruct (binit_spec dev (bio (loaded D)) Hdev) as (b' & E & Hr & _ & Hhd & _); [done|done|].
  cbn [loaded bio disk trace] in Hr.
  assert (wp (initlog dev start size) (fun _ s' => bio_rep dev (writes (recover_writes start D) (mkstore ∅ D [])) (bio s'))
    (mklst b' (lg (loaded D)))) as Hw.
  { eapply wp_mono; [apply (initlog_spec dev (mkstore ∅ D []) (mklst b' (lg (loaded D))) start size Hr)|].
    - done.
    - reflexivity.
    - constructor; [exact Hok|exact Hroom|]. eapply Forall_impl; [exact Hout|].
      intros c Hc. by apply (home_outside c).
    - cbn. rewrite Hhd. apply not_elem_of_nil.
    - by intros [] s' (H & _). }
  destruct (wp_ok _ _ _ Hw) as ([] & s' & E' & Hr'). exists s'. split.
  - unfold boot. rewrite (bind_ok _ _ _ tt (mklst b' (lg (loaded D)))); [done|]. unfold io, zoom. by rewrite E.
  - rewrite (br_trace _ _ _ Hr'), (br_disk _ _ _ Hr'). split; reflexivity.
Qed.

Lemma reboots_clean T D D' : 0 < size -> reboots dev start size D D' -> redo T D -> clean T D'.
Proof.
  intros Hs Hrb. induction Hrb as [D s' E|D s' k D' E _ IH]; intros H.
  - destruct (boot_ok T D H) as (s2 & E2 & _ & Hd). rewrite E in E2. injection E2 as <-. rewrite Hd. by apply recover_all.
  - destruct (boot_ok T D H) as (s2 & E2 & Ht & _). rewrite E in E2. injection E2 as <-. apply IH. rewrite Ht.
    by apply recover_any.
Qed.
End Recovery.

(** ** Commit *)

(** The home blocks before and after the transaction. *)
Definition old_blocks (A : store) : Z -> block := sblock A.
Definition new_blocks (A : store) (bl : list Z) (b : Z) : block :=
  if decide (b ∈ bl) then view A b else sblock A b.

Lemma take_split {A} (l1 l2 : list A) k : (length l1 <= k)%nat -> take k (l1 ++ l2) = l1 ++ take (k - length l1) l2.
Proof. intros H. rewrite take_app, take_ge by lia. done. Qed.

Section CommitCrash.
Context {dev : Z} {A : store} {s : lst} {bl : list Z} (Hc : committable dev A s bl).
Context (Hbl : Forall (fun b => 0 <= b < 2 ^ 31) bl) (H0 : head_n (sblock A (lstart (lg s))) = 0).
Abbreviation start := (lstart (lg s)).
Abbreviation size := (lsize (lg s)).

Lemma bl_home : Forall (home start size) bl.
Proof. eapply Forall_impl; [apply Hc|]. intros b Hb. by apply (home_outside _ _ b (lg s)). Qed.

Lemma log_prefix_clean k : clean start size (old_blocks A) (apply_writes (take k (log_writes start A bl)) (sdisk A)).
Proof.
  assert (forall b, b ∈ (take k (log_writes start A bl)).*1 -> start < b < start + size) as Hin.
  { intros b Hb. rewrite fmap_take in Hb. apply (subseteq_take k), log_writes_fst in Hb.
    pose proof (ct_room _ _ _ _ Hc). lia. }
  split.
  - rewrite blk_other; [exact H0|]. intros Hb. apply Hin in Hb. lia.
  - intros b Hb. rewrite blk_other; [done|]. intros Hb'. apply Hb. apply Hin in Hb'. unfold in_log. lia.
Qed.

(** The disk right after the header has been written. *)
Definition at_commit : gmap Z block :=
  <[start := encode_head bl (sblock A start)]> (apply_writes (log_writes start A bl) (sdisk A)).

Lemma home_prefix_redo j : redo start size (new_blocks A bl) (apply_writes (take j (home_writes A bl)) at_commit).
Proof.
  pose proof (ct_room _ _ _ _ Hc) as Hroom. pose proof bl_home as Hhome. pose proof (ct_logged _ _ _ _ Hc) as (_ & Ht & Hlen).
  assert (Z.of_nat (length bl) <= LOGSIZE) as Hmax by (rewrite <- Hlen, <- Ht, length_take; lia).
  assert (forall b, b ∈ (take j (home_writes A bl)).*1 -> b ∈ bl) as Hin.
  { intros b Hb. rewrite fmap_take, home_fst in Hb. by apply (subseteq_take j) in Hb. }
  assert (forall b, in_log start size b -> b ∉ (take j (home_writes A bl)).*1) as Hlog.
  { intros b Hb Hi. by apply (proj1 (Forall_forall _ _) Hhome b (Hin b Hi)). }
  assert (blk (apply_writes (take j (home_writes A bl)) at_commit) start = encode_head bl (sblock A start)) as Hh.
  { rewrite blk_other by (apply Hlog; unfold in_log; lia). unfold blk, at_commit. by rewrite lookup_insert_eq. }
  assert (decode_head (encode_head bl (sblock A start)) = bl) as Hde.
  { apply decode_encode. split; [done|]. change LOGSIZE with 30 in Hmax. lia. }
  unfold redo. rewrite Hh, Hde. split; [|split; [apply Hc|split; [done|split; [done|split]]]].
  - unfold head_ok, head_n, encode_head. rewrite put_blocks_other by lia. rewrite ld32_st32_same; [lia|].
    change LOGSIZE with 30 in Hmax. lia.
  - intros i b Hi. pose proof (lookup_lt_Some _ _ _ Hi). rewrite blk_other by (apply Hlog; unfold in_log; lia).
    unfold blk, at_commit. rewrite lookup_insert_ne by lia. rewrite (log_writes_at _ _ _ _ i b) by done.
    unfold new_blocks. rewrite decide_True; [done|]. by eapply list_elem_of_lookup_2.
  - intros b Hb Hn. rewrite blk_other by (intros Hi; by apply Hn, Hin). unfold new_blocks. rewrite decide_False by done.
    unfold blk, at_commit. rewrite lookup_insert_ne by (intros <-; apply Hb; unfold in_log; lia).
    rewrite apply_other; [done|]. intros Hi. apply log_writes_fst in Hi. apply Hb. unfold in_log. lia.
Qed.

(** A complete commit. *)
Lemma commit_clean : clean start size (new_blocks A bl) (apply_writes (commit_writes start A bl) (sdisk A)).
Proof.
  pose proof (ct_room _ _ _ _ Hc) as Hroom. unfold commit_writes.
  rewrite apply_app. cbn [app]. rewrite apply_cons. fold at_commit. rewrite apply_app. cbn [apply_writes foldl]. split.
  - unfold blk. cbn. rewrite lookup_insert_eq. apply head_n_clear.
  - intros b Hb. unfold blk. cbn. rewrite lookup_insert_ne by (intros <-; apply Hb; unfold in_log; lia).
    fold (blk (apply_writes (home_writes A bl) at_commit) b). unfold new_blocks. case_decide as Hin.
    + apply list_elem_of_lookup in Hin as [i Hi]. apply (blk_at _ _ i); [rewrite home_fst; apply Hc|].
      unfold home_writes. change (map ?f ?l) with (f <$> l). by rewrite list_lookup_fmap, Hi.
    + rewrite blk_other by (by rewrite home_fst). unfold blk, at_commit.
      rewrite lookup_insert_ne by (intros <-; apply Hb; unfold in_log; lia).
      rewrite apply_other; [done|]. intros Hi. apply log_writes_fst in Hi. apply Hb. unfold in_log. lia.
Qed.

(** Before the header is written the disk has the old blocks, after that
    recovery leads to the new ones. *)
Lemma commit_prefix k :
  let D := apply_writes (take k (commit_writes start A bl)) (sdisk A) in
  if (k <=? length bl)%nat then redo start size (old_blocks A) D else redo start size (new_blocks A bl) D.
Proof.
  pose proof (ct_room _ _ _ _ Hc) as Hroom.
  assert (length (log_writes start A bl) = length bl) as Hl1 by apply length_imap.
  assert (length (home_writes A bl) = length bl) as Hl2 by apply length_map.
  cbn zeta. destruct (decide (k < S (length bl + S (length bl)))%nat) as [Hlt|Hge].
  2:{ rewrite (proj2 (Nat.leb_gt _ _)) by lia.
      rewrite take_ge by (unfold commit_writes; rewrite !length_app; cbn; lia).
      apply clean_redo; [lia|]. apply commit_clean. }
  unfold commit_writes. destruct (Nat.leb_spec k (length bl)) as [Hk|Hk].
  { rewrite take_app_le by lia. apply clean_redo; [lia|]. apply log_prefix_clean. }
  rewrite take_split by lia. destruct (k - length (log_writes start A bl))%nat as [|j] eqn:Ej; [lia|].
  cbn [app take]. rewrite apply_app, apply_cons. fold at_commit.
  rewrite take_app_le by lia. apply home_prefix_redo.
Qed.
End CommitCrash.
