(* ===== verification/LogOps.v ===== *)
(** * Operations and transactions

    [begin_op], [log_write] and [end_op]: reservation of log space,
    absorption, and a whole transaction from the first to the last of them. *)

From S2P Require Import Prelude Riscv Mem Lock Bio BioSpec Log LogSpec LogCommit LogCrash.
Local Open Scope Z_scope.

(** ** Lock discipline of the log *)
Lemma locks_io {A} h (c : M bst A) h' : locks h c h' -> locks h (io c) h'.
Proof.
  intros Hc s a s' Hs E. unfold io, zoom in E. destruct (c (bio s)) as [b t| | |] eqn:Ec; try discriminate E.
  injection E as _ <-. exact (Hc _ _ _ Hs Ec).
Qed.
Lemma locks_setl h f : locks h (setl f) h.
Proof. intros s a s' Hs [= _ <-]. exact Hs. Qed.
Lemma locks_get_block h i : locks h (get_block i) h.
Proof.
  intros s a s' Hs E. unfold get_block in E. destruct (lh_block (lg s) !! Z.to_nat i); [|discriminate E].
  destruct (i <? 0); [discriminate E|]. by injection E as _ <-.
Qed.
Lemma locks_set_block h i b : locks h (set_block i b) h.
Proof.
  intros s a s' Hs E. unfold set_block in E. destruct (_ || _); [discriminate E|]. by injection E as _ <-.
Qed.
#[export] Hint Resolve locks_io locks_setl locks_get_block locks_set_block : locks.
#[export] Hint Extern 0 (locks _ (getl _) _) => apply locks_gets : locks.

Lemma locks_write_log h : locks h write_log h.
Proof. unfold write_log. eapply locks_bind; [auto with locks|]. intros n. apply locks_forz. intros i. lock_steps. Qed.
Lemma locks_install h r : locks h (install_trans r) h.
Proof. unfold install_trans. eapply locks_bind; [auto with locks|]. intros n. apply locks_forz. intros i. lock_steps. Qed.
Lemma locks_write_head h : locks h write_head h.
Proof. unfold write_head. lock_steps. apply locks_forz. intros i. lock_steps. Qed.
#[export] Hint Resolve locks_write_log locks_install locks_write_head : locks.
Lemma locks_commit h : locks h commit h.
Proof. unfold commit. lock_steps. Qed.
Lemma locks_initlog dev start size : locks [] (initlog dev start size) [].
Proof.
  unfold initlog. destruct (BSIZE <=? 4 + 4 * LOGSIZE); [apply locks_panic|].
  apply (locks_bind [] []); [by intros s a s' Hs [= _ <-]; cbn in Hs |- *; rewrite Hs|].
  intros _. eapply locks_bind; [auto with locks|]. intros _. unfold recover_from_log, read_head. lock_steps.
Qed.

(** Other spinlocks do not matter to the cache. *)
Lemma rep_held dev A s l : bio_rep dev A s -> "bcache" ∉ l -> "sleep lock" ∉ l -> bio_rep dev A (set_held l s).
Proof. intros Hr H1 H2. constructor; cbn; try apply Hr; done. Qed.

Definition log_free (s : lst) : Prop := "log" ∉ blocks_held (bio s).

Lemma take_log s : log_free s ->
  acquire "log" s = Ok tt (mklst (set_held ("log" :: blocks_held (bio s)) (bio s)) (lg s)).
Proof. intros H. by rewrite (acquire_ok "log" s) by exact H. Qed.

Lemma drop_log s l : blocks_held (bio s) = "log" :: l ->
  release "log" s = Ok tt (mklst (set_held l (bio s)) (lg s)).
Proof. intros H. by rewrite (release_head "log" l s) by exact H. Qed.

(** The cache while the log is locked, and after. *)
Lemma rep_lock dev A s : bio_rep dev A (bio s) -> bio_rep dev A (set_held ("log" :: blocks_held (bio s)) (bio s)).
Proof.
  intros Hr. apply rep_held; [done| |]; apply not_elem_of_cons; (split; [done|apply Hr]).
Qed.

(** ** begin_op *)

(** An operation starts when the log has room for it; otherwise it waits. *)
Lemma begin_op_eq s : log_free s ->
  begin_op s =
  if committing (lg s) || (LOGSIZE <? lh_n (lg s) + (outstanding (lg s) + 1) * MAXOPBLOCKS) then Hang
  else Ok tt (set_lg (set_out (fun x => x + 1)) s).
Proof.
  intros H. unfold begin_op. rewrite (bind_ok _ _ _ _ _ (take_log s H)). unfold bind, getl, gets. cbn [lg].
  destruct (committing (lg s)); [done|]. cbn [orb lg].
  destruct (LOGSIZE <? lh_n (lg s) + (outstanding (lg s) + 1) * MAXOPBLOCKS); [done|].
  destruct s as [[] ?]. reflexivity.
Qed.

(** ** log_write *)
Lemma absorb_spec s n b : (forall i, 0 <= i < n -> exists c, get_ok i c s) -> forall f i, 0 <= i <= n ->
  Z.of_nat f = n - i ->
  exists j, absorb f i n b s = Ok j s /\ i <= j <= n /\ (forall k, i <= k < j -> ~ get_ok k b s) /\
    (j < n -> get_ok j b s).
Proof.
  intros Hget f. induction f as [|f IH]; intros i Hi Hf.
  - exists i. cbn. split; [done|]. split; [lia|]. split; intros; lia.
  - cbn [absorb]. rewrite (proj2 (Z.ltb_lt i n)) by lia. destruct (Hget i ltac:(lia)) as [c Hc].
    rewrite (bind_ok _ _ _ _ _ Hc). destruct (Z.eqb_spec c b) as [->|Hne].
    + exists i. split; [done|]. split; [lia|]. split; [intros; lia|done].
    + destruct (IH (i + 1)) as (j & E & Hj & Hno & Hyes); [lia|lia|]. exists j. split; [done|]. split; [lia|].
      split; [|done]. intros k Hk. destruct (decide (k = i)) as [->|]; [|apply Hno; lia].
      unfold get_ok in *. congruence.
Qed.

Lemma logged_get_iff s bl i b : logged s bl -> (i < length bl)%nat -> get_ok (Z.of_nat i) b s -> bl !! i = Some b.
Proof.
  intros H Hi Hg. destruct (lookup_lt_is_Some_2 bl i Hi) as [c Hc]. rewrite Hc. f_equal.
  pose proof (logged_get _ _ _ _ H Hc) as Hg'. unfold get_ok in *. congruence.
Qed.

(** The place [log_write] finds for a block. *)
Lemma absorb_logged s bl b : logged s bl ->
  exists j, absorb (length bl) 0 (Z.of_nat (length bl)) b s = Ok (Z.of_nat j) s /\
    if decide (b ∈ bl) then bl !! j = Some b else j = length bl.
Proof.
  intros H. destruct (absorb_spec s (Z.of_nat (length bl)) b) with (f := length bl) (i := 0) as (j & E & Hj & Hno & Hyes).
  - intros i Hi. destruct (lookup_lt_is_Some_2 bl (Z.to_nat i) ltac:(lia)) as [c Hc]. exists c.
    rewrite <- (Z2Nat.id i) by lia. by apply (logged_get s bl).
  - lia.
  - lia.
  - exists (Z.to_nat j). rewrite Z2Nat.id by lia. split; [done|]. case_decide as Hin.
    + destruct (decide (j < Z.of_nat (length bl))) as [Hlt|Hge].
      * apply (logged_get_iff s); [done|lia|]. rewrite Z2Nat.id by lia. by apply Hyes.
      * exfalso. apply list_elem_of_lookup in Hin as [k Hk]. pose proof (lookup_lt_Some _ _ _ Hk).
        apply (Hno (Z.of_nat k)); [lia|]. by apply (logged_get s bl).
    + destruct (decide (j < Z.of_nat (length bl))) as [Hlt|Hge]; [|lia]. exfalso. apply Hin.
      apply (list_elem_of_lookup_2 _ (Z.to_nat j)). apply (logged_get_iff s); [done|lia|].
      rewrite Z2Nat.id by lia. by apply Hyes.
Qed.

Lemma logged_set s bl j b : logged s bl -> (j < length bl)%nat -> bl !! j = Some b ->
  <[j := b]> (lh_block (lg s)) = lh_block (lg s).
Proof.
  intros (_ & Ht & _) Hj Hb. apply list_insert_id. rewrite <- Ht in Hb. by apply lookup_take_Some in Hb as [? _].
Qed.

Lemma logged_snoc s bl b : logged s bl -> Z.of_nat (length bl) < LOGSIZE ->
  take (S (length bl)) (<[length bl := b]> (lh_block (lg s))) = bl ++ [b].
Proof.
  intros (_ & Ht & Hlen) Hl. rewrite (take_S_r _ _ b) by (apply list_lookup_insert_eq; lia).
  f_equal. rewrite take_insert_ge by lia. done.
Qed.

Section LogWrite.
Context {dev : Z} {A : store} {s : lst} {bl : list Z} {i : nat} {b : Z} {x : lbuf}.
Context (Hr : bio_rep dev A (bio s)) (Hh : here (bio s) i b) (Hx : live A !! b = Some x).
Context (Hlog : logged s bl) (Hf : log_free s) (Ho : 1 <= outstanding (lg s)).
Context (Hn : Z.of_nat (length bl) < LOGSIZE) (Hsz : Z.of_nat (length bl) < lsize (lg s) - 1).

Lemma log_write_prefix Q :
  (forall j s1, bio s1 = set_held ("log" :: blocks_held (bio s)) (bio s) -> lg s1 = lg s ->
     (if decide (b ∈ bl) then bl !! j = Some b else j = length bl) ->
     wp (set_block (Z.of_nat j) b ;;
         (if Z.of_nat j =? Z.of_nat (length bl) then io (bpin i) ;; setl (set_n (Z.of_nat (length bl) + 1)) else ret tt) ;;
         release "log") Q s1) ->
  wp (log_write i) Q s.
Proof.
  intros HQ. unfold log_write. eapply wp_bind_ok; [by apply take_log|].
  set (s1 := mklst _ _). pose proof Hlog as (Hlh & _).
  apply wp_bind, wp_gets. cbn [s1 lg]. rewrite Hlh. apply wp_bind, wp_gets. cbn [s1 lg].
  rewrite (proj2 (Z.leb_gt _ _)), (proj2 (Z.leb_gt _ _)) by lia. cbn [orb].
  apply wp_bind, wp_gets. cbn [s1 lg]. rewrite (proj2 (Z.ltb_ge _ _)) by lia.
  assert (io (getb i blockno) s1 = Ok b s1) as Eb.
  { unfold io, zoom, getb, gets. destruct Hh as (_ & _ & E). cbn. by rewrite E. }
  eapply wp_bind_ok; [exact Eb|]. rewrite Nat2Z.id.
  assert (logged s1 bl) as Hlog1 by (by apply (logged_lg s)).
  destruct (absorb_logged s1 bl b Hlog1) as (j & E & Hj).
  eapply wp_bind_ok; [exact E|]. by apply HQ.
Qed.

(** A block that is already in the log is absorbed: nothing changes. *)
Lemma log_write_absorb : b ∈ bl -> log_write i s = Ok tt s.
Proof.
  intros Hin. assert (wp (log_write i) (fun _ s' => s' = s) s) as Hw.
  { apply log_write_prefix. intros j s1 B1 L1 Hj. rewrite decide_True in Hj by done.
    pose proof (lookup_lt_Some _ _ _ Hj) as Hlt. unfold set_block. eapply wp_bind_ok.
    { rewrite (proj2 (Z.ltb_ge _ _)), (proj2 (Z.leb_gt _ _)) by lia. reflexivity. }
    rewrite (proj2 (Z.eqb_neq _ _)) by lia. apply wp_bind, wp_ret.
    unfold set_lg. cbn beta. rewrite Nat2Z.id, L1, (logged_set s bl j b) by done.
    eapply wp_of_ok; [apply (drop_log _ (blocks_held (bio s)))|]; cbn; rewrite B1; [done|].
    destruct s as [[] []]. cbn in *. subst. done. }
  destruct (wp_ok _ _ _ Hw) as ([] & s' & E & ->). exact E.
Qed.

(** A new block is appended to the header and pinned. *)
Lemma log_write_new : b ∉ bl -> lref x < 2 ^ 32 - 1 ->
  wp (log_write i) (fun _ s' =>
    bio_rep dev (set_live b (mklb (lref x + 1) (ldata x) (llock x)) A) (bio s') /\ here (bio s') i b /\
    logged s' (bl ++ [b]) /\ same_log (lg s) (lg s') /\ blocks_held (bio s') = blocks_held (bio s) /\
    keeps (set_live b (mklb (lref x + 1) (ldata x) (llock x)) A) (bio s) (bio s')) s.
Proof.
  intros Hin Hmax. apply log_write_prefix. intros j s1 B1 L1 Hj. rewrite decide_False in Hj by done. subst j.
  unfold set_block. eapply wp_bind_ok.
  { rewrite (proj2 (Z.ltb_ge _ _)), (proj2 (Z.leb_gt _ _)) by lia. reflexivity. }
  rewrite Z.eqb_refl. set (s2 := set_lg _ s1).
  assert (bio_rep dev A (bio s2)) as Hr2 by (cbn; rewrite B1; by apply rep_lock).
  assert (here (bio s2) i b) as Hh2 by (cbn; rewrite B1; exact Hh).
  apply wp_bind, wp_bind.
  eapply wp_mono; [apply (wp_locks ("log" :: blocks_held (bio s)) ("log" :: blocks_held (bio s)) (io (bpin i)) (fun _ s' =>
    bio_rep dev (set_live b (mklb (lref x + 1) (ldata x) (llock x)) A) (bio s') /\ here (bio s') i b /\ lg s' = lg s2 /\
    keeps (set_live b (mklb (lref x + 1) (ldata x) (llock x)) A) (bio s2) (bio s')))|].
  - apply locks_io, locks_bpin.
  - cbn. by rewrite B1.
  - apply (io_bpin Hr2 Hh2 Hx); [done|]. intros s3 Hr3 Hh3 K3 L3. done.
  - intros [] s3 [(Hr3 & Hh3 & L3 & K3) Hd3]. apply wp_modify.
    eapply wp_of_ok; [apply (drop_log _ (blocks_held (bio s))); exact Hd3|]. cbn [bio lg set_lg].
    split; [|split; [|split; [|split; [|split; [done|]]]]].
    + apply rep_held; [done|apply Hr|apply Hr].
    + exact Hh3.
    + unfold logged. cbn [lg lh_n lh_block set_lg set_n]. rewrite L3. cbn [s2 set_lg lg lh_block]. rewrite L1, Nat2Z.id, length_app, length_insert.
      cbn [length]. split; [lia|]. split; [|apply Hlog]. rewrite Nat.add_1_r. by apply logged_snoc.
    + rewrite L3. cbn. by rewrite L1.
    + intros j c Hj Hc. apply (K3 j c); [|done]. cbn. rewrite B1. exact Hj.
Qed.
End LogWrite.

(** ** A transaction *)

(** The use of the log its comment prescribes: read the block, change it,
    [log_write] it, release it. *)
Definition update (dev b : Z) (d : block) : M lst unit :=
  do! bp <- io (bread dev b);
  io (setb bp (set_data d)) ;;
  log_write bp ;;
  io (brelse bp).

Fixpoint updates (dev : Z) (ups : list (Z * block)) : M lst unit :=
  match ups with
  | [] => ret tt
  | (b, d) :: ups' => update dev b d ;; updates dev ups'
  end.

Definition transaction (dev : Z) (ups : list (Z * block)) : M lst unit :=
  begin_op ;; updates dev ups ;; end_op.

Definition staged (d : block) : lbuf := mklb 1 d false.

(** In the middle of an operation: the updates [m] are in the cache, pinned
    by the log. *)
Record pending (dev : Z) (A : store) (s : lst) (m : gmap Z block) (bl : list Z) : Prop := {
  pd_rep : bio_rep dev (mkstore (staged <$> m) (sdisk A) (strace A)) (bio s);
  pd_dev : ldev (lg s) = dev;
  pd_logged : logged s bl;
  pd_nodup : NoDup bl;
  pd_blocks : forall b, b ∈ bl <-> is_Some (m !! b);
  pd_out : 1 <= outstanding (lg s);
  pd_free : log_free s
}.

Lemma pending_size dev A s m bl : pending dev A s m bl -> size m = length bl.
Proof.
  intros H. rewrite <- size_dom. assert (dom m = list_to_set bl) as ->.
  { apply set_eq. intros b. rewrite elem_of_dom, elem_of_list_to_set. symmetry. apply H. }
  apply size_list_to_set, H.
Qed.

Definition log_add (b : Z) (bl : list Z) : list Z := if decide (b ∈ bl) then bl else bl ++ [b].

Lemma logged_max s bl : logged s bl -> Z.of_nat (length bl) <= LOGSIZE.
Proof. intros (_ & Ht & Hl). rewrite <- Hl, <- Ht, length_take. lia. Qed.

Section Update.
Context {dev : Z} {A : store} {s : lst} {m : gmap Z block} {bl : list Z} {b : Z} (d : block).
Context (H : pending dev A s m bl).
Context (Hroom : Z.of_nat (length bl) < LOGSIZE /\ Z.of_nat (length bl) < lsize (lg s) - 1).

(** The block as [bread] finds it. *)
Lemma update_read : readable (mkstore (staged <$> m) (sdisk A) (strace A)) b.
Proof.
  unfold readable. cbn. rewrite lookup_fmap. destruct (m !! b) as [d'|] eqn:E; cbn; [lia|].
  rewrite map_size_fmap, (pending_size _ _ _ _ _ H). destruct Hroom as [Hl _].
  apply Nat.lt_le_trans with (Z.to_nat LOGSIZE); [lia|]. apply Nat.leb_le. reflexivity.
Qed.

Lemma update_store r l : r = 1 -> l = false ->
  mkstore (<[b := mklb r d l]> (staged <$> m)) (sdisk A) (strace A) =
  mkstore (staged <$> <[b := d]> m) (sdisk A) (strace A).
Proof. intros -> ->. by rewrite fmap_insert. Qed.

Lemma update_spec :
  wp (update dev b d) (fun _ s' => pending dev A s' (<[b := d]> m) (log_add b bl) /\ same_log (lg s) (lg s')) s.
Proof.
  pose proof (pd_rep _ _ _ _ _ H) as Hr. set (A1 := mkstore (staged <$> m) (sdisk A) (strace A)) in *.
  set (h := blocks_held (bio s)). destruct Hroom as [Hl1 Hl2].
  set (r := match m !! b with Some _ => 2 | None => 1 end).
  (* read and modify *)
  unfold update. apply wp_bind. eapply wp_mono.
  { apply (wp_locks h h (io (bread dev b)) (fun i s1 => bio_rep dev (read_store b A1) (bio s1) /\ here (bio s1) i b /\
      lg s1 = lg s)); [apply locks_io, locks_bread|done|]. apply (io_bread Hr); [apply update_read|]. done. }
  intros i s1 [(Hr1 & Hh1 & L1) Hd1].
  assert (exists e, live (read_store b A1) !! b = Some (mklb r e true)) as [e E1].
  { rewrite lookup_read. cbn. rewrite lookup_fmap. unfold r. destruct (m !! b); eauto. }
  apply wp_bind. eapply wp_mono.
  { apply (wp_locks h h _ (fun _ s2 => bio_rep dev (set_live b (mklb r d true) A1) (bio s2) /\ here (bio s2) i b /\
      lg s2 = lg s)); [apply locks_io, locks_setb|done|].
    apply (io_set_data Hr1 Hh1 E1 _ d); [done|]. cbn [lref llock]. intros s2 Hr2 Hh2 _ L2.
    split; [|split; [done|congruence]]. unfold read_store, set_live in Hr2. cbn in Hr2.
    by rewrite insert_insert_eq in Hr2. }
  intros [] s2 [(Hr2 & Hh2 & L2) Hd2]. set (A2 := set_live b (mklb r d true) A1) in *.
  assert (live A2 !! b = Some (mklb r d true)) as E2 by apply lookup_insert_eq.
  assert (logged s2 bl) as Hlog2 by (apply (logged_lg s); [done|apply H]).
  assert (log_free s2) as Hf2.
  { unfold log_free. change (blocks_held (bio s2)) with (held s2). rewrite Hd2. apply H. }
  assert (1 <= outstanding (lg s2)) as Ho2 by (rewrite L2; apply H).
  assert (Z.of_nat (length bl) < lsize (lg s2) - 1) as Hl2' by (by rewrite L2).
  (* log *)
  apply wp_bind. apply (wp_mono _ (fun _ s3 => bio_rep dev (set_live b (mklb 2 d true) A1) (bio s3) /\ here (bio s3) i b /\
    logged s3 (log_add b bl) /\ same_log (lg s) (lg s3) /\ blocks_held (bio s3) = h)).
  { unfold log_add. pose proof (pd_blocks _ _ _ _ _ H b) as Hb. case_decide as Hin.
    - eapply wp_of_ok; [by apply (log_write_absorb (dev := dev) (A := A2) (bl := bl) (b := b)); try exact E2|].
      apply Hb in Hin as [d' E]. unfold A2, r in Hr2. rewrite E in Hr2. rewrite L2. done.
    - eapply wp_mono; [apply (log_write_new Hr2 Hh2 E2 Hlog2 Hf2 Ho2 Hl1 Hl2' Hin)|].
      + unfold r. cbn. destruct (m !! b); lia.
      + intros [] s3 (Hr3 & Hh3 & Hlog3 & S3 & Hd3 & _). cbn [lref ldata llock] in Hr3. rewrite L2 in S3.
        unfold r in Hr3. destruct (m !! b) eqn:E; [destruct Hin; apply Hb; eauto|]. unfold A2, set_live in Hr3. cbn in Hr3.
        rewrite insert_insert_eq in Hr3. split; [exact Hr3|]. split; [done|]. split; [done|]. split; [done|].
        rewrite Hd3. exact Hd2. }
  intros [] s3 (Hr3 & Hh3 & Hlog3 & S3 & Hd3).
  (* release *)
  assert (live (set_live b (mklb 2 d true) A1) !! b = Some (mklb 2 d true)) as E3 by apply lookup_insert_eq.
  eapply wp_mono.
  { apply (wp_locks h h (io (brelse i)) (fun _ s4 => bio_rep dev (release_store b (mklb 2 d true) (set_live b (mklb 2 d true) A1)) (bio s4) /\
      lg s4 = lg s3)); [apply locks_io, locks_brelse|done|]. apply (io_brelse Hr3 Hh3 E3); [done|done|]. done. }
  intros [] s4 [(Hr4 & L4) Hd4]. rewrite L4. split; [|done]. unfold release_store in Hr4. cbn in Hr4. unfold set_live in Hr4. cbn in Hr4.
  rewrite insert_insert_eq, update_store in Hr4 by lia.
  constructor; [done|rewrite L4; destruct S3 as (_ & _ & _ & _ & ->); apply H| | | | |].
  - by apply (logged_lg s3).
  - unfold log_add. pose proof (pd_nodup _ _ _ _ _ H). case_decide; [done|]. apply NoDup_app. split; [done|].
    split; [|apply NoDup_singleton]. intros c Hc Hcb. apply list_elem_of_singleton in Hcb as ->. done.
  - intros c. rewrite lookup_insert_is_Some. rewrite <- (pd_blocks _ _ _ _ _ H). unfold log_add.
    case_decide; [|rewrite elem_of_app, list_elem_of_singleton];
      destruct (decide (b = c)) as [->|]; naive_solver.
  - rewrite L4. destruct S3 as (_ & _ & -> & _). apply H.
  - unfold log_free. change (blocks_held (bio s4)) with (held s4). rewrite Hd4. apply H.
Qed.
End Update.

(** Nothing in progress: no block is live, the log is empty in memory and on
    disk. *)
Record idle (dev : Z) (A : store) (s : lst) : Prop := {
  id_rep : bio_rep dev A (bio s);
  id_live : live A = ∅;
  id_dev : ldev (lg s) = dev;
  id_logged : logged s [];
  id_out : outstanding (lg s) = 0;
  id_committing : committing (lg s) = false;
  id_head : head_n (sblock A (lstart (lg s))) = 0;
  id_free : log_free s
}.

Lemma apply_size ups : forall m, (size m <= size (apply_writes ups m))%nat.
Proof.
  induction ups as [|[b d] ups IH]; intros m; [done|]. rewrite apply_cons.
  pose proof (IH (<[b := d]> m)). rewrite map_size_insert in *. destruct (m !! b); cbn in *; lia.
Qed.

Lemma log_add_length b bl : (length (log_add b bl) <= S (length bl))%nat.
Proof. unfold log_add. case_decide; [lia|]. rewrite length_app. cbn. lia. Qed.

Lemma updates_spec dev A ups : forall s m bl, pending dev A s m bl ->
  Z.of_nat (size (apply_writes ups m)) <= LOGSIZE - 1 -> Z.of_nat (size (apply_writes ups m)) < lsize (lg s) - 1 ->
  wp (updates dev ups) (fun _ s' => exists bl', pending dev A s' (apply_writes ups m) bl' /\ same_log (lg s) (lg s')) s.
Proof.
  induction ups as [|[b d] ups IH]; intros s m bl H H1 H2.
  - apply wp_ret. exists bl. split; [exact H|done].
  - rewrite apply_cons in *. cbn [updates]. pose proof (apply_size ups (<[b := d]> m)) as Hsz.
    pose proof (pending_size _ _ _ _ _ H) as Hm.
    assert (size m <= size (<[b := d]> m))%nat as Hle.
    { rewrite map_size_insert. destruct (m !! b); cbn; lia. }
    apply wp_bind. eapply wp_mono; [apply (update_spec d H); lia|]. intros [] s1 [H' S1].
    eapply wp_mono; [apply (IH s1 _ _ H'); [done|]|].
    + destruct S1 as (_ & -> & _). done.
    + intros [] s2 (bl' & H'' & S2). exists bl'. split; [done|]. by eapply same_log_trans.
Qed.

(** The blocks of an operation that has made all its updates. *)
Section Finish.
Context {dev : Z} {A : store} {s : lst} {m : gmap Z block} {bl : list Z} (H : pending dev A s m bl).
Context (Hout : map_Forall (fun b _ => outside (lg s) b /\ 0 <= b < 2 ^ 31) m).
Context (Hroom : Z.of_nat (length bl) < lsize (lg s)) (Hmax : Z.of_nat (length bl) < LOGSIZE).
Abbreviation A1 := (mkstore (staged <$> m) (sdisk A) (strace A)).

Lemma bl_blocks : Forall (fun b => outside (lg s) b /\ 0 <= b < 2 ^ 31) bl.
Proof. apply Forall_forall. intros b Hb. apply (pd_blocks _ _ _ _ _ H) in Hb as [d Hd]. by apply (Hout b d). Qed.

Lemma pending_committable s' : bio s' = bio s -> same_log (lg s) (lg s') -> logged s' bl -> committable dev A1 s' bl.
Proof.
  intros B S L. pose proof S as (Ss & Sz & _ & _ & Sd). constructor; rewrite ?B, ?Ss, ?Sz, ?Sd; try apply H; try done.
  - eapply Forall_impl; [apply bl_blocks|]. intros b [Hb _]. unfold outside. by rewrite Ss, Sz.
  - apply Forall_forall. intros b Hb. apply (pd_blocks _ _ _ _ _ H) in Hb as [d Hd]. exists (staged d).
    cbn. rewrite lookup_fmap, Hd. done.
  - intros i Hi. cbn. rewrite lookup_fmap. destruct (m !! (lstart (lg s) + i)) as [d|] eqn:E; [|done].
    destruct (Hout _ d E) as [Ho _]. unfold outside in Ho. lia.
  - cbn. rewrite map_size_fmap, (pending_size _ _ _ _ _ H).
    apply Nat.lt_le_trans with (Z.to_nat LOGSIZE); [lia|]. apply Nat.leb_le. reflexivity.
Qed.

(** Dropping the log's references leaves no block live. *)
Lemma unpins_staged : unpins bl (staged <$> m) = ∅.
Proof.
  apply map_eq. intros c. rewrite lookup_empty. destruct (decide (c ∈ bl)) as [Hc|Hc].
  - clear -Hc H. pose proof (pd_nodup _ _ _ _ _ H) as Hnd.
    assert (forall b x, (staged <$> m) !! b = Some x -> lref x = 1) as Hall.
    { intros b x. rewrite lookup_fmap. destruct (m !! b); cbn; [|done]. by intros [= <-]. }
    clear H. revert Hall. generalize (staged <$> m). induction bl as [|b bl' IH]; intros lv Hall; [by apply not_elem_of_nil in Hc|].
    apply NoDup_cons in Hnd as [Hb Hnd]. rewrite unpins_cons. apply elem_of_cons in Hc as [->|Hc].
    + apply unpins_none. unfold unpin. destruct (lv !! b) as [x|] eqn:E; [|done]. rewrite (Hall b x E). cbn. apply lookup_delete_eq.
    + apply IH; [done|done|]. intros k x Hk. destruct (decide (k = b)) as [->|Hne].
      * unfold unpin in Hk. destruct (lv !! b) as [y|] eqn:E; [|by rewrite E in Hk].
        rewrite (Hall b y E) in Hk. cbn in Hk. by rewrite lookup_delete_eq in Hk.
      * rewrite unpin_ne in Hk by done. by apply (Hall k).
  - rewrite unpins_other by done. rewrite lookup_fmap. destruct (m !! c) eqn:E; [|done].
    exfalso. apply Hc. apply (pd_blocks _ _ _ _ _ H). eauto.
Qed.
End Finish.

(** [end_op] of the only operation commits. *)
Lemma end_op_commits s Q : log_free s -> outstanding (lg s) = 1 -> committing (lg s) = false ->
  wp commit (fun _ s' => Q tt (set_lg (set_committing false) s'))
    (set_lg (set_committing true) (set_lg (set_out (fun x => x - 1)) s)) ->
  wp end_op Q s.
Proof.
  intros Hf Ho Hc Hw. unfold end_op. eapply wp_bind_ok; [by apply take_log|].
  apply wp_bind, wp_modify, wp_bind, wp_gets. cbn [set_lg lg set_out committing]. rewrite Hc.
  apply wp_bind, wp_gets. cbn [set_lg lg set_out outstanding]. rewrite Ho. cbn.
  apply wp_bind. eapply wp_bind_ok; [reflexivity|]. apply wp_ret.
  eapply wp_bind_ok; [by apply (drop_log _ (blocks_held (bio s)))|]. cbn [bio set_lg lg].
  set (h := blocks_held (bio s)). apply wp_bind.
  eapply wp_mono; [apply (wp_locks h h commit); [apply locks_commit| |]|].
  - reflexivity.
  - destruct s as [[] ?]. exact Hw.
  - intros [] s1 [HQ Hd]. assert (log_free s1) as Hf1.
    { unfold log_free. change (blocks_held (bio s1)) with (held s1). rewrite Hd. exact Hf. }
    eapply wp_bind_ok; [by apply take_log|]. apply wp_bind, wp_modify.
    eapply wp_of_ok; [by apply (drop_log _ (blocks_held (bio s1)))|]. destruct s1 as [[] ?]. exact HQ.
Qed.
