(* ===== verification/Transactions.v ===== *)
(** * What the log promises to the file system

    A transaction's updates reach the disk together or not at all, whatever
    the moment of a crash; reservations keep the log from overflowing. *)

From S2P Require Import Prelude Riscv Mem Lock Bio BioSpec Log LogSpec LogCommit LogCrash LogOps.
Local Open Scope Z_scope.

(** The blocks an operation may update. *)
Definition updatable (l : log) (m : gmap Z block) : Prop :=
  map_Forall (fun b _ => outside l b /\ 0 <= b < 2 ^ 31) m /\
  Z.of_nat (size m) <= MAXOPBLOCKS /\ MAXOPBLOCKS + 1 < lsize l.

(** The home blocks with the updates [m]. *)
Definition updated (D : gmap Z block) (m : gmap Z block) (b : Z) : block := default (blk D b) (m !! b).

Lemma begin_pending dev A s : idle dev A s -> MAXOPBLOCKS + 1 < lsize (lg s) ->
  exists s', begin_op s = Ok tt s' /\ pending dev A s' ∅ [] /\ bio s' = bio s /\
    lg s' = set_out (fun x => x + 1) (lg s).
Proof.
  intros H Hsz. pose proof (id_logged _ _ _ H) as (Hn & _ & Hlen). cbn in Hn.
  exists (set_lg (set_out (fun x => x + 1)) s). split; [|split; [|done]].
  - rewrite begin_op_eq by apply H. by rewrite (id_committing _ _ _ H), (id_out _ _ _ H), Hn.
  - constructor; cbn.
    + destruct A as [lv dk tr]. pose proof (id_live _ _ _ H) as El. cbn in El. subst. rewrite fmap_empty. apply H.
    + apply H.
    + apply H.
    + constructor.
    + intros b. rewrite lookup_empty. split; [by intros ?%not_elem_of_nil|by intros [? ?]].
    + by rewrite (id_out _ _ _ H).
    + apply H.
Qed.

(** What [end_op] leaves behind, and what the disk has seen. *)
Record finished (dev : Z) (A : store) (s : lst) (m : gmap Z block) (s' : lst) (W : list (Z * block)) : Prop := {
  fin_idle : idle dev (mkstore ∅ (apply_writes W (sdisk A)) (strace A ++ W)) s';
  fin_log : same_log (lg s) (set_out (fun _ => outstanding (lg s)) (lg s'));
  fin_home : forall b, home (lstart (lg s)) (lsize (lg s)) b ->
    blk (apply_writes W (sdisk A)) b = updated (sdisk A) m b;
  fin_crash : forall k, let D := apply_writes (take k W) (sdisk A) in
    redo (lstart (lg s)) (lsize (lg s)) (blk (sdisk A)) D \/
    redo (lstart (lg s)) (lsize (lg s)) (updated (sdisk A) m) D
}.

Lemma redo_ext start size T T' D : (forall b, T b = T' b) -> redo start size T D -> redo start size T' D.
Proof.
  intros E (H1 & H2 & H3 & H4 & H5 & H6). split; [done|]. split; [done|]. split; [done|]. split; [done|].
  split; [intros i b Hi; rewrite <- E; by apply H5|]. intros b Hb Hn. rewrite <- E. by apply H6.
Qed.

Lemma new_updated dev A s m bl b : pending dev A s m bl ->
  new_blocks (mkstore (staged <$> m) (sdisk A) (strace A)) bl b = updated (sdisk A) m b.
Proof.
  intros H. unfold new_blocks, updated. case_decide as Hin.
  - apply (pd_blocks _ _ _ _ _ H) in Hin as [d Hd]. unfold view. cbn. by rewrite lookup_fmap, Hd.
  - destruct (m !! b) eqn:E; [|done]. destruct Hin. apply (pd_blocks _ _ _ _ _ H). eauto.
Qed.

Lemma end_finishes dev A s m bl : pending dev A s m bl -> updatable (lg s) m ->
  outstanding (lg s) = 1 -> committing (lg s) = false ->
  head_n (sblock A (lstart (lg s))) = 0 ->
  wp end_op (fun _ s' => exists W, finished dev A s m s' W) s.
Proof.
  intros H (Hout & Hm & Hsz) Ho Hc H0. pose proof (pending_size _ _ _ _ _ H) as Hlen. pose proof (pd_logged _ _ _ _ _ H) as (Hn & Ht & Hll).
  change MAXOPBLOCKS with 10 in *. assert (Z.of_nat (length bl) < LOGSIZE) as Hmax by (change LOGSIZE with 30; lia).
  apply end_op_commits; [apply H|done|done|]. set (s1 := set_lg _ _).
  assert (committable dev (mkstore (staged <$> m) (sdisk A) (strace A)) s1 bl) as Hct.
  { constructor; try apply (pending_committable H Hout ltac:(lia) Hmax s); done. }
  set (A1 := mkstore (staged <$> m) (sdisk A) (strace A)) in *.
  destruct (decide (bl = [])) as [->|Hne].
  - assert (m = ∅) as -> by (apply map_size_empty_inv; done).
    eapply wp_of_ok; [by apply commit_none|]. exists []. constructor; cbn [apply_writes foldl].
    + rewrite app_nil_r. constructor; cbn.
      * pose proof (pd_rep _ _ _ _ _ H) as Hr. by rewrite fmap_empty in Hr.
      * done.
      * apply H.
      * apply H.
      * by rewrite Ho.
      * done.
      * exact H0.
      * apply H.
    + unfold same_log. cbn. by rewrite Hc.
    + intros b _. unfold updated. by rewrite lookup_empty.
    + intros k. left. rewrite take_nil. apply clean_redo; [lia|]. split; [exact H0|done].
  - assert (Forall (fun b => 0 <= b < 2 ^ 31) bl) as Hbl.
    { eapply Forall_impl; [apply (bl_blocks H Hout)|]. by intros b [_ ?]. }
    set (W := commit_writes (lstart (lg s)) A1 bl).
    assert (forall k, redo (lstart (lg s)) (lsize (lg s)) (blk (sdisk A)) (apply_writes (take k W) (sdisk A)) \/
      redo (lstart (lg s)) (lsize (lg s)) (updated (sdisk A) m) (apply_writes (take k W) (sdisk A))) as Hcr.
    { intros k. pose proof (commit_prefix Hct Hbl H0 k) as Hk. cbn zeta in Hk. fold W in Hk.
      destruct (k <=? length bl)%nat; [left|right]; [done|]. eapply redo_ext; [|exact Hk]. intros b. by apply (new_updated dev A s). }
    assert (clean (lstart (lg s)) (lsize (lg s)) (updated (sdisk A) m) (apply_writes W (sdisk A))) as Hclean.
    { eapply clean_ext; [|apply (commit_clean Hct)]. intros b. by apply (new_updated dev A s). }
    eapply wp_mono; [apply (wp_locks (blocks_held (bio s)) (blocks_held (bio s)) commit); [apply locks_commit|done|
      apply (commit_some _ _ _ _ Hct Hne)]|].
    intros [] s2 [[Hr2 L2] Hd2]. exists W. constructor.
    + constructor; cbn [set_lg lg bio].
      * unfold committed in Hr2. change (live A1) with (staged <$> m) in Hr2. rewrite (unpins_staged H) in Hr2. exact Hr2.
      * done.
      * rewrite L2. apply H.
      * unfold logged. cbn [set_lg lg set_committing lh_n lh_block]. rewrite L2. done.
      * rewrite L2. cbn. by rewrite Ho.
      * done.
      * rewrite L2. cbn. apply Hclean.
      * unfold log_free. cbn. change (blocks_held (bio s2)) with (held s2). rewrite Hd2. apply H.
    + cbn [set_lg lg]. rewrite L2. unfold same_log. cbn. by rewrite Hc.
    + apply Hclean.
    + exact Hcr.
Qed.

(** ** From boot *)

Lemma boot_idle dev start size T D : dev <> 0 -> redo start size T D ->
  exists s' A, boot dev start size D = Ok tt s' /\ idle dev A s' /\ lstart (lg s') = start /\ lsize (lg s') = size /\
    sdisk A = apply_writes (recover_writes start D) D.
Proof.
  intros Hdev Hre. pose proof (recover_all start size T D Hre) as [Hh _].
  destruct Hre as (Hok & Hnd & Hroom & Hout & Hlog & Hhome).
  destruct (binit_spec dev (bio (loaded D)) Hdev) as (b' & E & Hr & _ & Hhd & _); [done|done|].
  cbn [loaded bio disk trace] in Hr. set (s1 := mklst b' (lg (loaded D))). set (A1 := mkstore ∅ D []).
  set (A2 := writes (recover_writes start D) A1).
  assert (wp (initlog dev start size) (fun _ s' => (bio_rep dev A2 (bio s') /\ logged s' [] /\
    same_log (mklog start size 0 false dev 0 (lh_block (lg s1))) (lg s')) /\ held s' = []) s1) as Hw.
  { apply (wp_locks [] [] (initlog dev start size)); [apply locks_initlog|exact Hhd|].
    apply (initlog_spec dev A1 s1 start size Hr).
    - done.
    - reflexivity.
    - constructor; [exact Hok|exact Hroom|]. eapply Forall_impl; [exact Hout|].
      intros c Hc. by apply (home_outside start size c).
    - cbn. rewrite Hhd. apply not_elem_of_nil. }
  destruct (wp_ok _ _ _ Hw) as ([] & s' & E' & (Hr' & Hlg' & Ss & Sz & So & Sc & Sd) & Hd').
  exists s', A2. split; [|split; [|split; [exact Ss|split; [exact Sz|reflexivity]]]].
  - unfold boot. rewrite (bind_ok _ _ _ tt s1); [exact E'|]. unfold io, zoom. by rewrite E.
  - constructor.
    + exact Hr'.
    + reflexivity.
    + exact Sd.
    + exact Hlg'.
    + exact So.
    + exact Sc.
    + rewrite Ss. exact Hh.
    + unfold log_free. change (blocks_held (bio s')) with (held s'). rewrite Hd'. apply not_elem_of_nil.
Qed.

Lemma updatable_log l l' m : lstart l' = lstart l -> lsize l' = lsize l -> updatable l m -> updatable l' m.
Proof.
  intros E1 E2 (H1 & H2 & H3). unfold updatable. rewrite E2. split; [|done]. intros b d Hd.
  destruct (H1 b d Hd) as [Ho Hb]. unfold outside. by rewrite E1, E2.
Qed.

Lemma transaction_spec dev A s ups : idle dev A s -> updatable (lg s) (apply_writes ups ∅) ->
  wp (transaction dev ups) (fun _ s' => exists W, finished dev A s (apply_writes ups ∅) s' W) s.
Proof.
  intros H Hu. pose proof Hu as (_ & Hm & Hsz). change MAXOPBLOCKS with 10 in *.
  destruct (begin_pending dev A s H Hsz) as (s1 & E1 & H1 & B1 & L1).
  unfold transaction. eapply wp_bind_ok; [exact E1|]. apply wp_bind.
  eapply wp_mono; [apply (updates_spec dev A ups s1 ∅ [] H1)|].
  - change LOGSIZE with 30. lia.
  - rewrite L1. cbn. lia.
  - intros [] s2 (bl & H2 & S2). pose proof S2 as (Ss & Sz & So & Sc & Sd). rewrite L1 in Ss, Sz, So, Sc.
    eapply wp_mono; [apply (end_finishes dev A s2 _ bl H2)|].
    + by apply (updatable_log (lg s)).
    + rewrite So. cbn. by rewrite (id_out _ _ _ H).
    + rewrite Sc. apply H.
    + rewrite Ss. apply H.
    + intros [] s3 (W & [F1 F2 F3 F4]). exists W. rewrite Ss, Sz in F3, F4. constructor; [exact F1| |exact F3|exact F4].
      destruct F2 as (Gs & Gz & Go & Gc & Gd). unfold same_log. cbn in *. rewrite Gs, Gz, Gc, Gd, Ss, Sz, Sc, Sd, L1. done.
Qed.

(** C2.  All or nothing: a transaction ([begin_op], reading, changing and
    logging up to MAXOPBLOCKS distinct blocks, [end_op]) started when the log
    is idle returns and leaves all its updates at home.  Cut off after any
    number [k] of its disk writes, the machine boots again, and however often
    that recovery is itself interrupted, what the file system ends up with is
    either every block as it was before or every update. *)
Theorem transaction_atomic dev A s ups : dev <> 0 -> idle dev A s -> updatable (lg s) (apply_writes ups ∅) ->
  let start := lstart (lg s) in let size := lsize (lg s) in
  let D0 := disk (bio s) in let D1 := updated D0 (apply_writes ups ∅) in
  exists s' W, transaction dev ups s = Ok tt s' /\ trace (bio s') = trace (bio s) ++ W /\
    (forall b, home start size b -> blk (disk (bio s')) b = D1 b) /\
    forall k, let D := apply_writes (take k W) D0 in
      (exists s1, boot dev start size D = Ok tt s1) /\
      ((forall D', reboots dev start size D D' -> forall b, home start size b -> blk D' b = blk D0 b) \/
       (forall D', reboots dev start size D D' -> forall b, home start size b -> blk D' b = D1 b)).
Proof.
  intros Hdev H Hu start size D0 D1. pose proof Hu as (_ & _ & Hsz). change MAXOPBLOCKS with 10 in Hsz.
  destruct (wp_ok _ _ _ (transaction_spec dev A s ups H Hu)) as ([] & s' & E & W & [F1 F2 F3 F4]).
  pose proof (br_disk _ _ _ (id_rep _ _ _ H)) as HD. pose proof (br_trace _ _ _ (id_rep _ _ _ H)) as HT.
  exists s', W. split; [exact E|]. unfold D1, D0. rewrite HD, HT.
  rewrite (br_trace _ _ _ (id_rep _ _ _ F1)), (br_disk _ _ _ (id_rep _ _ _ F1)). cbn [sdisk strace].
  split; [reflexivity|]. split; [exact F3|]. intros k. pose proof (F4 k) as Hk. cbn zeta in Hk |- *.
  set (D := apply_writes (take k W) (sdisk A)) in *. destruct Hk as [Hr|Hr]; fold start size in Hr.
  - split; [destruct (boot_ok dev start size Hdev _ D Hr) as (s1 & E1 & _); eauto|]. left.
    intros D' Hrb. apply (reboots_clean dev start size Hdev _ D D' ltac:(lia) Hrb Hr).
  - split; [destruct (boot_ok dev start size Hdev _ D Hr) as (s1 & E1 & _); eauto|]. right.
    intros D' Hrb. apply (reboots_clean dev start size Hdev _ D D' ltac:(lia) Hrb Hr).
Qed.

(** A fresh disk of the layout mkfs makes: 30 log blocks from block 2. *)
Lemma fresh_clean T : (forall b, T b = ∅) -> clean 2 30 T ∅.
Proof. intros H. split; [reflexivity|]. intros b _. by rewrite H. Qed.

Lemma fresh_idle : exists s A, idle 1 A s /\ lstart (lg s) = 2 /\ lsize (lg s) = 30.
Proof.
  destruct (boot_idle 1 2 30 (fun _ => ∅) ∅) as (s & A & _ & H & Hs & Hz & _); [done| |eauto].
  by apply clean_redo, fresh_clean.
Qed.

Lemma transaction_atomic_witness : exists s s' W, transaction 1 [(45, {[0 := 7]}); (46, {[0 := 8]})] s = Ok tt s' /\
  trace (bio s') = trace (bio s) ++ W.
Proof.
  destruct fresh_idle as (s & A & H & Hs & Hz). exists s.
  destruct (transaction_atomic 1 A s [(45, {[0 := 7]}); (46, {[0 := 8]})]) as (s' & W & E & T & _).
  - done.
  - exact H.
  - unfold updatable. rewrite Hz. split; [|split; [vm_compute; discriminate|reflexivity]].
    apply map_Forall_insert_2; [unfold outside; rewrite Hs, Hz; cbn; lia|].
    apply map_Forall_insert_2; [unfold outside; rewrite Hs, Hz; cbn; lia|]. apply map_Forall_empty.
  - exists s', W. split; [exact E|exact T].
Defined.

(** Recovery: on a disk whose log header lists the blocks that are in the
    log, boot returns with every such block at home, all others untouched,
    the log empty in memory and on disk, and nothing left locked or pinned in
    the cache. *)
Theorem boot_recovers dev start size T D : dev <> 0 -> 0 < size -> redo start size T D ->
  exists s' A, boot dev start size D = Ok tt s' /\ idle dev A s' /\
    (forall b, home start size b -> blk (disk (bio s')) b = T b) /\
    head_n (blk (disk (bio s')) start) = 0.
Proof.
  intros Hdev Hs Hre. destruct (boot_idle dev start size T D Hdev Hre) as (s' & A & E & H & _ & _ & Hd).
  exists s', A. split; [exact E|]. split; [exact H|]. rewrite (br_disk _ _ _ (id_rep _ _ _ H)), Hd.
  destruct (recover_all start size T D Hre) as [H1 H2]. split; [exact H2|exact H1].
Qed.

(** A committed transaction that writes block 45. *)
Definition committed_disk : gmap Z block := <[2 := encode_head [45] ∅]> {[3 := {[0 := 7]}]}.

Lemma boot_recovers_witness : exists s', boot 1 2 30 committed_disk = Ok tt s' /\ blk (disk (bio s')) 45 = {[0 := 7]}.
Proof.
  destruct (boot_recovers 1 2 30 (fun b => if b =? 45 then {[0 := 7]} else ∅) committed_disk) as (s' & A & E & _ & Hb & _).
  - done.
  - done.
  - assert (blk committed_disk 2 = encode_head [45] ∅) as Eh by reflexivity.
    unfold redo. rewrite Eh, decode_encode by (split; [repeat constructor; lia|cbn; lia]).
    split; [vm_compute; split; discriminate|]. split; [apply NoDup_singleton|]. split; [done|].
    split; [constructor; [unfold home, in_log; lia|constructor]|]. split.
    + intros [|i] b; [|done]. intros [= <-]. reflexivity.
    + intros b Hb Hn. destruct (Z.eqb_spec b 45) as [->|]; [destruct Hn; apply list_elem_of_singleton; done|].
      unfold blk, committed_disk. unfold home, in_log in Hb. rewrite lookup_insert_ne by lia. by rewrite lookup_singleton_ne by lia.
  - exists s'. split; [exact E|]. apply Hb. unfold home, in_log. lia.
Defined.

(** ** Reservation of log space *)

(** [rs] lists how many more blocks each operation in progress may log. *)
Definition total (rs : list Z) : Z := foldr Z.add 0 rs.
Definition reserved (s : lst) (rs : list Z) : Prop :=
  outstanding (lg s) = Z.of_nat (length rs) /\ Forall (fun r => 0 <= r <= MAXOPBLOCKS) rs /\
  lh_n (lg s) + total rs <= LOGSIZE.

Lemma total_max rs : Forall (fun r => 0 <= r <= MAXOPBLOCKS) rs -> total rs <= Z.of_nat (length rs) * MAXOPBLOCKS.
Proof. change MAXOPBLOCKS with 10. induction 1; cbn [total foldr length]; [lia|]. fold (total l). lia. Qed.

Lemma total_pos rs : Forall (fun r => 0 <= r <= MAXOPBLOCKS) rs -> 0 <= total rs.
Proof. induction 1; cbn [total foldr]; [lia|]. fold (total l). lia. Qed.

Lemma total_insert rs : forall j r r', rs !! j = Some r -> total (<[j := r']> rs) = total rs + (r' - r).
Proof.
  induction rs as [|x rs IH]; intros [|j] r r' Hj; try done; cbn in Hj.
  - injection Hj as ->. cbn. lia.
  - change (total (<[S j := r']> (x :: rs))) with (x + total (<[j := r']> rs)).
    change (total (x :: rs)) with (x + total rs). rewrite (IH j r r' Hj). lia.
Qed.

Lemma total_at rs j r : Forall (fun r => 0 <= r <= MAXOPBLOCKS) rs -> rs !! j = Some r -> r <= total rs.
Proof.
  intros Hf. revert j. induction Hf as [|x l Hx Hf IH]; intros [|j] Hj; try done; cbn [total foldr]; fold (total l); cbn in Hj.
  - injection Hj as ->. pose proof (total_pos l Hf). lia.
  - pose proof (IH j Hj). lia.
Qed.

(** Reservation: whenever [begin_op] lets an operation start, the log has
    room for MAXOPBLOCKS blocks of each operation in progress, this one
    included; when it has not, or a commit is running, [begin_op] waits. *)
Theorem begin_op_reserves s rs : log_free s -> reserved s rs ->
  match begin_op s with
  | Ok _ s' => committing (lg s) = false /\ reserved s' (MAXOPBLOCKS :: rs) /\ bio s' = bio s
  | Hang => committing (lg s) = true \/ LOGSIZE < lh_n (lg s) + (Z.of_nat (length rs) + 1) * MAXOPBLOCKS
  | _ => False
  end.
Proof.
  intros Hf (Ho & Hr & Ht). rewrite begin_op_eq by done. rewrite Ho. destruct (committing (lg s)); cbn [orb]; [by left|].
  destruct (Z.ltb_spec LOGSIZE (lh_n (lg s) + (Z.of_nat (length rs) + 1) * MAXOPBLOCKS)) as [Hlt|Hge]; [by right|].
  split; [done|]. split; [|done]. unfold reserved. cbn [set_lg lg set_out outstanding lh_n length]. rewrite Ho.
  split; [lia|]. split; [constructor; [change MAXOPBLOCKS with 10; lia|done]|].
  cbn [total foldr]. fold (total rs). pose proof (total_max rs Hr). lia.
Qed.

Lemma begin_op_reserves_witness : exists s s', begin_op s = Ok tt s' /\ reserved s' [10].
Proof.
  destruct fresh_idle as (s & A & H & _). exists s. pose proof (id_logged _ _ _ H) as (Hn & _).
  pose proof (begin_op_reserves s [] (id_free _ _ _ H)) as Hb.
  rewrite begin_op_eq in Hb |- * by apply H. rewrite (id_committing _ _ _ H), (id_out _ _ _ H), Hn in Hb |- *.
  eexists. split; [reflexivity|]. apply Hb. split; [apply H|]. split; [constructor|]. rewrite Hn. vm_compute. discriminate.
Defined.

(** Within its reservation an operation's [log_write] never panics when
    the log has more than LOGSIZE blocks: a block already in the log is
    absorbed and changes nothing, a new one is appended to the header, pinned
    once more in the cache, and taken off the operation's reservation. *)
Theorem log_write_in_reservation dev A s bl i b x rs j r :
  bio_rep dev A (bio s) -> here (bio s) i b -> live A !! b = Some x -> lref x < 2 ^ 32 - 1 ->
  logged s bl -> log_free s -> reserved s rs -> rs !! j = Some r -> 0 < r -> LOGSIZE < lsize (lg s) ->
  if decide (b ∈ bl) then log_write i s = Ok tt s
  else exists s', log_write i s = Ok tt s' /\ logged s' (bl ++ [b]) /\ reserved s' (<[j := r - 1]> rs) /\
    bio_rep dev (set_live b (mklb (lref x + 1) (ldata x) (llock x)) A) (bio s') /\ here (bio s') i b.
Proof.
  intros Hr Hh Hx Hmax Hlog Hf (Ho & Hall & Ht) Hj Hpos Hsz. pose proof Hlog as (Hn & _).
  pose proof (total_at rs j r Hall Hj) as Htot. pose proof (lookup_lt_Some _ _ _ Hj) as Hjl.
  assert (1 <= outstanding (lg s)) as Ho1 by lia.
  assert (Z.of_nat (length bl) < LOGSIZE) as Hl by lia.
  assert (Z.of_nat (length bl) < lsize (lg s) - 1) as Hl' by lia.
  case_decide as Hin; [by eapply log_write_absorb|].
  destruct (wp_ok _ _ _ (log_write_new Hr Hh Hx Hlog Hf Ho1 Hl Hl' Hin Hmax)) as ([] & s' & E & Hr' & Hh' & Hlog' & S & _).
  exists s'. split; [done|]. split; [done|]. split; [|done]. destruct S as (_ & _ & So & _). pose proof Hlog' as (Hn' & _).
  split; [rewrite So, length_insert; done|]. split.
  - apply Forall_insert; [done|]. pose proof (Forall_lookup_1 _ _ _ _ Hall Hj) as Hb. cbn in Hb. lia.
  - rewrite (total_insert rs j r) by done. rewrite length_app in Hn'. cbn in Hn'. lia.
Qed.

(** An operation that has just read a block. *)
Lemma fresh_read size : 12 <= size -> exists A s i x,
  bio_rep 1 A (bio s) /\ here (bio s) i 45 /\ live A !! 45 = Some x /\ lref x = 1 /\
  logged s [] /\ log_free s /\ reserved s [10] /\ lsize (lg s) = size.
Proof.
  intros Hsz. destruct (boot_idle 1 2 size (fun _ => ∅) ∅) as (s & A & _ & H & _ & Hz & _); [done| |].
  { apply clean_redo; [lia|]. split; [reflexivity|done]. }
  destruct (begin_pending 1 A s H) as (s1 & E1 & H1 & B1 & L1); [rewrite Hz; change MAXOPBLOCKS with 10; lia|].
  pose proof (pd_rep _ _ _ _ _ H1) as Hr. rewrite fmap_empty in Hr. set (A1 := mkstore ∅ (sdisk A) (strace A)) in Hr.
  assert (readable A1 45) as Hrd by (unfold readable; cbn; rewrite lookup_empty, map_size_empty; pose proof head_gt_1; lia).
  destruct (bread_spec 1 A1 (bio s1) 45 Hr Hrd) as (i & b2 & E2 & Hr2 & Hh2 & _).
  exists (read_store 45 A1), (mklst b2 (lg s1)), i, (mklb 1 (sblock A1 45) true).
  pose proof (id_logged _ _ _ H) as (Hn & _).
  assert (blocks_held b2 = blocks_held (bio s1)) as Hd2 by (by apply (locks_bread (blocks_held (bio s1)) _ _ _ _ _ eq_refl E2)).
  split; [exact Hr2|]. split; [exact Hh2|]. split; [by rewrite lookup_read|]. split; [done|].
  split; [by apply (logged_lg s1); [|apply H1]|].
  split; [unfold log_free; cbn; rewrite Hd2; apply H1|]. split.
  - unfold reserved. cbn. rewrite L1. cbn. rewrite (id_out _ _ _ H), Hn. split; [done|]. split; [|done].
    constructor; [change MAXOPBLOCKS with 10; lia|constructor].
  - cbn. by rewrite L1.
Qed.

Lemma log_write_in_reservation_witness : exists s i s', log_write i s = Ok tt s' /\ logged s' [45] /\ reserved s' [9].
Proof.
  destruct (fresh_read 40) as (A & s & i & x & Hr & Hh & Hx & H1 & Hlog & Hf & Hres & Hz); [lia|].
  pose proof (log_write_in_reservation 1 A s [] i 45 x [10] 0 10 Hr Hh Hx) as Hw.
  rewrite decide_False in Hw by apply not_elem_of_nil. exists s, i.
  destruct Hw as (s' & E & Hl & Hres' & _); [lia|done|done|done|done|lia|by rewrite Hz|]. exists s'. done.
Defined.

(** ** A log of LOGSIZE blocks *)

Lemma bind_panic {S A B} (c : M S A) (k : A -> M S B) s m : c s = Panic m -> bind c k s = Panic m.
Proof. unfold bind. by intros ->. Qed.

Lemma updates_app dev u1 : forall u2 s s', updates dev u1 s = Ok tt s' -> updates dev (u1 ++ u2) s = updates dev u2 s'.
Proof.
  induction u1 as [|[b d] u1 IH]; intros u2 s s' E; cbn [updates app] in *; [by injection E as ->|].
  unfold bind in E |- *. destruct (update dev b d s) as [[] s1| | |]; try discriminate E. by apply IH.
Qed.

(** No place left: [log_write] panics whatever the block. *)
Lemma log_write_full i s : log_free s -> lsize (lg s) - 1 <= lh_n (lg s) -> log_write i s = Panic "too big a transaction".
Proof.
  intros Hf Hn. unfold log_write. rewrite (bind_ok _ _ _ _ _ (take_log s Hf)). unfold bind, getl, gets. cbn [lg].
  rewrite (proj2 (Z.leb_le _ (lh_n (lg s))) Hn), orb_true_r. done.
Qed.

Lemma update_full dev A s m bl b d : pending dev A s m bl -> Z.of_nat (length bl) < LOGSIZE ->
  lsize (lg s) - 1 <= Z.of_nat (length bl) -> update dev b d s = Panic "too big a transaction".
Proof.
  intros H Hl Hn. pose proof (pd_rep _ _ _ _ _ H) as Hr. set (A1 := mkstore (staged <$> m) (sdisk A) (strace A)) in *.
  assert (readable A1 b) as Hrd.
  { unfold readable. cbn. rewrite lookup_fmap. destruct (m !! b); cbn; [lia|].
    rewrite map_size_fmap, (pending_size _ _ _ _ _ H).
    apply Nat.lt_le_trans with (Z.to_nat LOGSIZE); [lia|]. apply Nat.leb_le. reflexivity. }
  destruct (bread_spec dev A1 (bio s) b Hr Hrd) as (i & b1 & E1 & _).
  assert (blocks_held b1 = blocks_held (bio s)) as Hd by (by apply (locks_bread (blocks_held (bio s)) _ _ _ _ _ eq_refl E1)).
  unfold update. rewrite (bind_ok _ _ _ i (mklst b1 (lg s))) by (unfold io, zoom; by rewrite E1).
  rewrite (bind_ok _ _ _ tt (mklst (upd i (set_data d) b1) (lg s))) by reflexivity.
  apply bind_panic, log_write_full.
  - unfold log_free. cbn. rewrite Hd. apply H.
  - cbn. destruct (pd_logged _ _ _ _ _ H) as [-> _]. done.
Qed.

(** Distinct blocks, one update each. *)
Lemma apply_size_distinct ups : forall m : gmap Z block, NoDup ups.*1 -> (forall b, b ∈ ups.*1 -> m !! b = None) ->
  size (apply_writes ups m) = (size m + length ups)%nat.
Proof.
  induction ups as [|[b d] ups IH]; intros m Hnd Hm; [cbn; lia|]. cbn [fmap list_fmap fst] in *.
  apply NoDup_cons in Hnd as [Hb Hnd]. rewrite apply_cons, IH; [|done|].
  - rewrite map_size_insert, (Hm b) by apply list_elem_of_here. cbn. lia.
  - intros c Hc. rewrite lookup_insert_ne by (intros ->; done). apply Hm. by apply list_elem_of_further.
Qed.

(** The log as mkfs lays it out has LOGSIZE blocks, one of them the
    header, and [log_write] refuses the last one: three operations that are
    all let in and log ten distinct blocks each, MAXOPBLOCKS at most per
    operation as required, end in a panic. *)
Theorem three_operations_overflow dev A s ups : idle dev A s -> lsize (lg s) = LOGSIZE ->
  length ups = 30%nat -> NoDup ups.*1 ->
  (begin_op ;; begin_op ;; begin_op ;; updates dev ups) s = Panic "too big a transaction".
Proof.
  intros H Hsz Hlen Hnd. change LOGSIZE with 30 in Hsz.
  destruct (begin_pending dev A s H) as (s1 & E1 & H1 & B1 & L1); [rewrite Hsz; done|].
  pose proof (id_logged _ _ _ H) as (Hn & _). cbn in Hn.
  rewrite (bind_ok _ _ _ _ _ E1).
  assert (begin_op s1 = Ok tt (set_lg (set_out (fun x => x + 1)) s1)) as E2.
  { rewrite begin_op_eq by apply H1. rewrite L1. cbn [set_out committing outstanding lh_n].
    by rewrite (id_committing _ _ _ H), (id_out _ _ _ H), Hn. }
  rewrite (bind_ok _ _ _ _ _ E2). set (s2 := set_lg (set_out (fun x => x + 1)) s1).
  assert (begin_op s2 = Ok tt (set_lg (set_out (fun x => x + 1)) s2)) as E3.
  { rewrite begin_op_eq by apply H1. unfold s2. cbn [set_lg lg]. rewrite L1. cbn [set_out committing outstanding lh_n].
    by rewrite (id_committing _ _ _ H), (id_out _ _ _ H), Hn. }
  rewrite (bind_ok _ _ _ _ _ E3). set (s3 := set_lg (set_out (fun x => x + 1)) s2).
  assert (pending dev A s3 ∅ []) as H3.
  { destruct H1 as [P1 P2 P3 P4 P5 P6 P7]. constructor; [exact P1|exact P2|exact P3|exact P4|exact P5| |exact P7].
    cbn. lia. }
  assert (lsize (lg s3) = 30) as Hz3 by (cbn; by rewrite L1).
  assert (exists u1 b d c e u2, ups = u1 ++ (b, d) :: (c, e) :: u2 /\ length u1 = 28%nat) as (u1 & b & d & c & e & u2 & -> & Hl1).
  { exists (take 28 ups). destruct (drop 28 ups) as [|[b d] [|[c e] u2]] eqn:Ed;
      [apply (f_equal length) in Ed; rewrite length_drop in Ed; cbn in Ed; lia..|].
    exists b, d, c, e, u2. rewrite <- Ed, take_drop, length_take, Hlen. done. }
  rewrite fmap_app in Hnd. apply NoDup_app in Hnd as (Hnd1 & Hdis & Hnd2).
  assert (size (apply_writes u1 (∅ : gmap Z block)) = 28%nat) as Hs1.
  { rewrite apply_size_distinct, map_size_empty by done. lia. }
  destruct (wp_ok _ _ _ (updates_spec dev A u1 s3 ∅ [] H3 ltac:(rewrite Hs1; done) ltac:(rewrite Hs1, Hz3; done)))
    as ([] & s4 & E4 & bl4 & H4 & S4).
  rewrite (updates_app dev u1 _ _ _ E4). cbn [updates].
  pose proof (pending_size _ _ _ _ _ H4) as Hb4. rewrite Hs1 in Hb4.
  assert (lsize (lg s4) = 30) as Hz4 by (destruct S4 as (_ & -> & _); done).
  destruct (wp_ok _ _ _ (update_spec d (b := b) H4 ltac:(change LOGSIZE with 30; lia))) as ([] & s5 & E5 & H5 & S5).
  rewrite (bind_ok _ _ _ _ _ E5). apply bind_panic.
  assert (lsize (lg s5) = 30) as Hz5 by (destruct S5 as (_ & -> & _); done).
  pose proof (pending_size _ _ _ _ _ H5) as Hb5.
  assert (size (<[b := d]> (apply_writes u1 ∅)) = 29%nat) as Hs5.
  { rewrite map_size_insert, Hs1. rewrite apply_other; [by rewrite lookup_empty|]. intros Hb. apply (Hdis b Hb).
    cbn. apply list_elem_of_here. }
  rewrite Hs5 in Hb5. apply (update_full dev A s5 _ _ c e H5); [change LOGSIZE with 30|]; lia.
Qed.

Lemma three_operations_overflow_witness : exists s,
  (begin_op ;; begin_op ;; begin_op ;; updates 1 (map (fun i => (Z.of_nat i, ∅)) (seq 100 30))) s =
  Panic "too big a transaction".
Proof.
  destruct fresh_idle as (s & A & H & _ & Hz). exists s.
  apply (three_operations_overflow 1 A s); [exact H|exact Hz|reflexivity|].
  apply (bool_decide_unpack (NoDup _)). vm_compute. exact I.
Defined.
