(* ===== verification/UserIO.v ===== *)
(** * User memory as the rest of the kernel uses it

    Pipes, files and devices move bytes between kernel buffers and a process's
    memory with [copyin] and [copyout].  The class below is what those
    components rely on; the instance is kernel/vm.c's code, with the bytes
    passed through a kernel buffer. *)

From S2P Require Import Prelude Riscv Mem Lock Kalloc Vm VmInv VmOps Cow Uvmcopy UserMem Freewalk UserView Copy.
Import KString.
Local Open Scope Z_scope.

Definition byte_ok (b : Z) : Prop := 0 <= b < 256.

(** What every process sees of its memory: page table, address, byte. *)
Abbreviation views := (Z -> Z -> option Z).

(** The bytes [bs] written from [a] on in the address space [pt]. *)
Definition put (V : views) (pt a : Z) (bs : list Z) : views := fun p x =>
  if decide (p = pt /\ a <= x < a + Z.of_nat (length bs)) then bs !! Z.to_nat (x - a) else V p x.

(** The kernel buffer [old] after a read at [a]: its first bytes are the
    user's, all of them when the read succeeded, otherwise those before the
    first that is not accessible. *)
Definition fetched (V : views) (pt a : Z) (old : list Z) (r : list Z * bool) : Prop :=
  exists bs, r.1 = bs ++ drop (length bs) old /\ Forall byte_ok bs /\
    (forall i b, bs !! i = Some b -> V pt (a + Z.of_nat i) = Some b) /\
    if r.2 then length bs = length old
    else (length bs < length old)%nat /\ V pt (a + Z.of_nat (length bs)) = None.

Class UserSpace (U : Type) := {
  (** [bufsize] bytes at most are moved at a time. *)
  bufsize : Z;
  (** The state is consistent, the elements of [P] are page tables, and
      processes see [V], which is defined at the addresses they may read. *)
  sees : U -> (Z -> Prop) -> views -> Prop;
  (** [copyin(pt, buf, a, n)] with [n] the length of [buf]: the buffer
      afterwards, and [false] for -1. *)
  copy_in : Z -> Z -> list Z -> M U (list Z * bool);
  (** [copyout(pt, a, buf, n)]: [false] for -1. *)
  copy_out : Z -> Z -> list Z -> M U bool;
  copy_in_law : forall u P pt V a old, sees u P V -> P pt -> 0 <= a < 2 ^ 64 -> Forall byte_ok old ->
    Z.of_nat (length old) <= bufsize ->
    exists r u', copy_in pt a old u = Ok r u' /\ sees u' P V /\ fetched V pt a old r;
  copy_out_law : forall u P pt V a bs, sees u P V -> P pt -> 0 <= a < 2 ^ 64 -> Forall byte_ok bs ->
    Z.of_nat (length bs) <= bufsize ->
    exists (ok : bool) u' k V', copy_out pt a bs u = Ok ok u' /\ sees u' P V' /\
      (forall p x, x < TRAPFRAME -> is_Some (V p x) -> V' p x = put V pt a (take k bs) p x) /\
      (forall p x, is_Some (V' p x) <-> is_Some (V p x)) /\
      (if ok then k = length bs else k < length bs)%nat
}.

Lemma put_nil V pt a p x : put V pt a [] p x = V p x.
Proof. unfold put. rewrite decide_False; [done|]. cbn. lia. Qed.

Lemma put_app V pt a bs cs p x :
  put (put V pt a bs) pt (a + Z.of_nat (length bs)) cs p x = put V pt a (bs ++ cs) p x.
Proof.
  unfold put. rewrite length_app. destruct (decide (p = pt)) as [->|Hp].
  2:{ rewrite !decide_False by naive_solver. done. }
  destruct (decide (a <= x < a + Z.of_nat (length bs))) as [H1|H1].
  - rewrite decide_False by lia. rewrite !decide_True by lia. rewrite lookup_app_l by lia. done.
  - destruct (decide (a + Z.of_nat (length bs) <= x < a + Z.of_nat (length bs + length cs))) as [H2|H2].
    + rewrite !decide_True by lia. rewrite lookup_app_r by lia. f_equal. lia.
    + rewrite !decide_False by lia. done.
Qed.

Lemma below_trapframe x : x < TRAPFRAME <-> user_vpn (vpn x).
Proof.
  unfold user_vpn, vpn. change TRAPFRAME with (67108862 * PGSIZE). rewrite Z.div_mul by done.
  change PGSIZE with 4096. pose proof (Z.div_mod x 4096 ltac:(done)). pose proof (Z.mod_pos_bound x 4096 ltac:(done)).
  split; intros; nia.
Qed.

(** ** The instance *)
Section Kernel.
Context (end_ kb kn : Z).

(** Fill a kernel buffer. *)
Fixpoint fill (m : gmap Z Z) (a : Z) (bs : list Z) : gmap Z Z :=
  match bs with [] => m | b :: bs' => fill (st8 m a b) (a + 1) bs' end.

Lemma fill_outside bs : forall m a x, inrange a (Z.of_nat (length bs)) x = false -> ld8 (fill m a bs) x = ld8 m x.
Proof.
  induction bs as [|b bs IH]; intros m a x H; [done|]. cbn [fill length] in *. apply inrange_false in H.
  rewrite IH by (apply inrange_false; lia). rewrite ld8_st8, (proj2 (Z.eqb_neq _ _)) by lia. done.
Qed.

Lemma fill_at bs : forall m a i b, Forall byte_ok bs -> bs !! i = Some b -> ld8 (fill m a bs) (a + Z.of_nat i) = b.
Proof.
  induction bs as [|c bs IH]; intros m a i b Hf Hi; [done|]. apply Forall_cons in Hf as [Hc Hf]. cbn [fill].
  destruct i as [|i]; cbn in Hi.
  - injection Hi as ->. rewrite Z.add_0_r, fill_outside by (apply inrange_false; lia). rewrite ld8_st8, Z.eqb_refl.
    apply u8_small, Hc.
  - replace (a + Z.of_nat (S i)) with (a + 1 + Z.of_nat i) by lia. by apply IH.
Qed.

Definition bytes_at (m : gmap Z Z) (a : Z) (n : nat) : list Z := map (fun i => ld8 m (a + Z.of_nat i)) (seq 0 n).

Definition vm_copy_in (pt a : Z) (old : list Z) : M machine (list Z * bool) :=
  modify (set_mem (fun m => fill m kb old)) ;;
  do! r <- copyin pt kb a (Z.of_nat (length old));
  gets (fun s => (bytes_at (mem s) kb (length old), r =? 0)).

Definition vm_copy_out (pt a : Z) (bs : list Z) : M machine bool :=
  modify (set_mem (fun m => fill m kb bs)) ;;
  do! r <- copyout end_ pt a kb (Z.of_nat (length bs));
  ret (r =? 0).

Definition user_view (g : vmabs) (s : machine) (p x : Z) : option Z :=
  if TRAPFRAME <=? x then None
  else match leaves g !! (p, vpn x) with
       | Some w => if hasbit w PTE_U then uview g s p x else None
       | None => None
       end.

Lemma user_view_some g s p x : is_Some (user_view g s p x) <-> x < TRAPFRAME /\ accessible g p (vpn x).
Proof.
  unfold user_view, accessible, uview. destruct (Z.leb_spec TRAPFRAME x) as [|Hx].
  - split; [by intros [? ?]|intros [? _]; lia].
  - destruct (leaves g !! (p, vpn x)) as [w|]; [|split; [by intros [? ?]|intros (_ & ? & ? & _); done]].
    destruct (hasbit w PTE_U) eqn:HU; split; try (by intros [? ?]); eauto. intros (_ & w' & [= <-] & ?). congruence.
Qed.

Lemma user_view_access g s p x : x < TRAPFRAME -> accessible g p (vpn x) -> user_view g s p x = uview g s p x.
Proof.
  intros Hx (w & Hw & HU). unfold user_view. rewrite (proj2 (Z.leb_gt _ _)) by done. by rewrite Hw, HU.
Qed.

(** The view depends on who may access what, and on [uview]. *)
Lemma user_view_same g s g' s' p x : (accessible g' p (vpn x) <-> accessible g p (vpn x)) ->
  (x < TRAPFRAME -> uview g' s' p x = uview g s p x) -> user_view g' s' p x = user_view g s p x.
Proof.
  intros Ha Hv. destruct (user_view g s p x) as [b|] eqn:E.
  - destruct (proj1 (user_view_some g s p x) ltac:(eauto)) as [Hx Hac].
    rewrite user_view_access by (done || by apply Ha). rewrite Hv by done. by rewrite <- user_view_access.
  - destruct (user_view g' s' p x) as [b|] eqn:E'; [|done].
    destruct (proj1 (user_view_some g' s' p x) ltac:(eauto)) as [Hx Hac].
    destruct (proj2 (user_view_some g s p x)) as [c Hc]; [|congruence]. split; [done|by apply Ha].
Qed.

Definition vm_sees (s : machine) (P : Z -> Prop) (V : views) : Prop :=
  exists l g, vm_inv end_ l g s /\ (forall pt, P pt -> tabs g !! (pt, []) = Some pt) /\ (forall p, 0 <= kref g p) /\
    forall p x, V p x = user_view g s p x.

Context (He : KERNBASE <= end_) (Hkb : 0 <= kn /\ kb + kn <= end_).

Lemma bytes_at_lookup m a n i : (i < n)%nat -> bytes_at m a n !! i = Some (ld8 m (a + Z.of_nat i)).
Proof.
  intros H. unfold bytes_at. change (map ?f ?l) with (f <$> l). by rewrite list_lookup_fmap, lookup_seq_lt.
Qed.

Lemma vm_copy_in_law s P pt V a old : vm_sees s P V -> P pt -> 0 <= a < 2 ^ 64 -> Forall byte_ok old ->
  Z.of_nat (length old) <= kn ->
  exists r s', vm_copy_in pt a old s = Ok r s' /\ vm_sees s' P V /\ fetched V pt a old r.
Proof.
  intros (l & g & Hi & Hrt & Hk & HV) Hpt Ha Hold Hn. set (n := Z.of_nat (length old)) in *. pose proof (Hrt pt Hpt) as Hr.
  assert (kbuf l g kb n) as Hb by (eapply (low_kbuf end_); [done..|lia]).
  set (s1 := set_mem (fun m => fill m kb old) s).
  assert (vm_inv end_ l g s1) as Hi1 by (apply (kbuf_write end_ l g s kb n); [done|done|intros y; apply fill_outside]).
  assert (forall p y, y < TRAPFRAME -> uview g s1 p y = uview g s p y) as V1.
  { intros p y Hy. apply (kbuf_view end_ l g s kb n); [done|done|intros z; apply fill_outside|by apply below_trapframe]. }
  destruct (copyin_spec end_ He l g s1 pt kb a n) as (x & s' & k & E & Hi' & [R M A X S]); try done; [lia|].
  assert (vm_sees s' P V) as Hs'.
  { exists l, g. split; [done|]. split; [done|]. split; [done|]. intros p y. rewrite HV. symmetry. apply user_view_same; [done|].
    intros Hy. rewrite <- V1 by done. rewrite S. apply (kbuf_view end_ l g s1 kb n); try done; [|by apply below_trapframe].
    intros z Hz. rewrite M. destruct (inrange kb k z) eqn:Ez; [|done]. apply inrange_true in Ez. apply inrange_false in Hz. lia. }
  exists (bytes_at (mem s') kb (length old), x =? 0), s'. split; [|split; [done|]].
  - unfold vm_copy_in. rewrite (bind_ok _ _ _ tt s1) by done. by rewrite (bind_ok _ _ _ _ _ E).
  - assert (length (bytes_at (mem s') kb (Z.to_nat k)) = Z.to_nat k) as Hlk by (unfold bytes_at; by rewrite length_map, length_seq).
    exists (bytes_at (mem s') kb (Z.to_nat k)). rewrite Hlk. cbn [fst snd]. split; [|split; [|split]].
    + apply list_eq. intros i. destruct (decide (i < Z.to_nat k)%nat) as [Hik|Hik].
      * rewrite lookup_app_l by lia. by rewrite !bytes_at_lookup by lia.
      * rewrite lookup_app_r, Hlk, lookup_drop by lia. replace (Z.to_nat k + (i - Z.to_nat k))%nat with i by lia.
        destruct (decide (i < length old)%nat) as [Hio|Hio].
        -- rewrite bytes_at_lookup, M, (proj2 (inrange_false _ _ _)) by lia.
           destruct (lookup_lt_is_Some_2 old i Hio) as [b Eb]. rewrite Eb. f_equal. by apply fill_at.
        -- rewrite (lookup_ge_None_2 old) by lia. apply lookup_ge_None_2. unfold bytes_at. rewrite length_map, length_seq. lia.
    + apply Forall_forall. intros b Hb'. apply list_elem_of_fmap in Hb' as (i & -> & _). apply u8_range.
    + intros i b Hib. assert (i < Z.to_nat k)%nat as Hik by (rewrite <- Hlk; by eapply lookup_lt_Some).
      rewrite bytes_at_lookup in Hib by done. injection Hib as <-. pose proof (A (Z.of_nat i) ltac:(lia)) as Hu.
      destruct (uaddr_leaf end_ l g s pt _ Hi Hu) as (w & Hw & HU & _ & Hun & _).
      rewrite HV, user_view_access by (by apply below_trapframe || exists w).
      rewrite M, (proj2 (inrange_true _ _ _)) by lia. replace (a + (kb + Z.of_nat i - kb)) with (a + Z.of_nat i) by lia.
      rewrite V1 by (by apply below_trapframe). unfold uview. by rewrite Hw.
    + destruct X as [[-> ->]|(-> & Hlt & Hz)]; cbn [Z.eqb]; [lia|]. split; [lia|].
      rewrite HV, Z2Nat.id by lia. unfold user_view. destruct (Z.leb_spec TRAPFRAME (a + k)) as [|Ht]; [done|].
      unfold uaddr in Hz. rewrite (proj2 (Z.leb_gt _ _)) in Hz by (layout; lia).
      destruct (leaves g !! (pt, vpn (a + k))) as [w|] eqn:Hw; [|done]. destruct (hasbit w PTE_U) eqn:HU; [|done].
      destruct (vi_leafok _ _ _ _ Hi _ _ _ Hw) as [[_ Hu] Hok]. destruct (Hok (Hu HU)) as (Hp & _).
      pose proof (page_ok_range _ He _ Hp) as Hrange. layout; lia.
Qed.

Lemma vm_copy_out_law s P pt V a bs : vm_sees s P V -> P pt -> 0 <= a < 2 ^ 64 -> Forall byte_ok bs ->
  Z.of_nat (length bs) <= kn ->
  exists (ok : bool) s' k V', vm_copy_out pt a bs s = Ok ok s' /\ vm_sees s' P V' /\
    (forall p x, x < TRAPFRAME -> is_Some (V p x) -> V' p x = put V pt a (take k bs) p x) /\
    (forall p x, is_Some (V' p x) <-> is_Some (V p x)) /\
    (if ok then k = length bs else k < length bs)%nat.
Proof.
  intros (l & g & Hi & Hrt & Hk & HV) Hpt Ha Hf Hn. set (n := Z.of_nat (length bs)) in *.
  pose proof (Hrt pt Hpt) as Hr. assert (kbuf l g kb n) as Hb by (eapply (low_kbuf end_); [done..|lia]).
  set (s1 := set_mem (fun m => fill m kb bs) s).
  assert (vm_inv end_ l g s1) as Hi1 by (apply (kbuf_write end_ l g s kb n); [done|done|intros y; apply fill_outside]).
  destruct (copyout_spec end_ He l g s1 pt a kb n) as (x & l' & g' & s' & k & E & [I R Q W X]); try done; [lia|].
  exists (x =? 0), s', (Z.to_nat k), (user_view g' s'). split; [|split; [|split; [|split]]].
  - unfold vm_copy_out. rewrite (bind_ok _ _ _ tt s1) by done. by rewrite (bind_ok _ _ _ _ _ E).
  - exists l', g'. split; [done|]. split; [intros pt' Hpt'; rewrite (qu_tabs _ _ _ _ _ _ Q); by apply Hrt|].
    split; [intros p; by rewrite (qu_kref _ _ _ _ _ _ Q)|done].
  - intros p y Hlt Hacc. rewrite HV in Hacc. assert (accessible g p (vpn y)) as Hac.
    { destruct Hacc as [b Eb]. unfold user_view in Eb. destruct (TRAPFRAME <=? y); [done|].
      destruct (leaves g !! (p, vpn y)) as [w|] eqn:Hw; [|done]. destruct (hasbit w PTE_U) eqn:HU; [|done]. by exists w. }
    rewrite user_view_access by (done || by apply (qu_access _ _ _ _ _ _ Q)).
    apply below_trapframe in Hlt as Hu. unfold put. rewrite HV, length_take, user_view_access by done.
    rewrite W by done. rewrite (kbuf_view end_ l g s kb n (fun m => fill m kb bs)); [|done|done|intros z; apply fill_outside|done].
    destruct (decide (p = pt /\ a <= y < a + k)) as [[-> Hy]|Hy].
    + rewrite decide_True by lia. rewrite lookup_take_lt by lia.
      destruct (lookup_lt_is_Some_2 bs (Z.to_nat (y - a)) ltac:(lia)) as [b Eb]. rewrite Eb. f_equal.
      replace (kb + (y - a)) with (kb + Z.of_nat (Z.to_nat (y - a))) by lia. by apply fill_at.
    + rewrite decide_False; [done|]. intros [-> ?]. apply Hy. split; [done|]. lia.
  - intros p y. rewrite HV, !user_view_some. by rewrite (qu_access _ _ _ _ _ _ Q).
  - destruct X as [[-> ->]|(-> & ? & _)]; cbn; lia.
Qed.

(** kernel/vm.c implements the interface. *)
Definition vm_user_space : UserSpace machine := {|
  bufsize := kn; sees := vm_sees; copy_in := vm_copy_in; copy_out := vm_copy_out;
  copy_in_law := vm_copy_in_law; copy_out_law := vm_copy_out_law
|}.
End Kernel.
