(* ===== verification/Pipe.v ===== *)
(** * kernel/pipe.c: reading and writing a pipe

    A call runs under the pipe's lock until it returns or goes to sleep,
    which releases the lock; what one process does in between is one step,
    and a pipe's life is a sequence of such steps by any number of processes.
    [killed(pr)] is asked once per round of the writer's loop; [kl] gives the
    answers.  User memory is reached through the interface of [UserIO.v]. *)

From S2P Require Import Prelude Riscv Mem Lock Kalloc Vm VmInv VmOps Cow Uvmcopy UserMem Freewalk UserView Copy UserIO.
Local Open Scope Z_scope.

Definition PIPESIZE : Z := 512.

Record pipe := mkpipe { pdata : list Z; nread : Z; nwrite : Z; readopen : bool; writeopen : bool }.

Record pst (U : Type) := mkpst { pi : pipe; us : U; pheld : list string }.
Arguments mkpst {U} _ _ _.
Arguments pi {U} _.
Arguments us {U} _.
Arguments pheld {U} _.

(** A call has returned, or sleeps with the value of its loop variable. *)
Inductive progress := Done (r : Z) | Asleep (i : Z).

Section Ops.
Context {U : Type} {HU : UserSpace U}.

#[export] Instance pst_locks : Locks (pst U).
Proof.
  refine {| held := pheld; set_held l s := mkpst (pi s) (us s) l |}.
  - done.
  - done.
  - by intros [].
Defined.

Definition getp {A} (f : pipe -> A) : M (pst U) A := gets (fun s => f (pi s)).
Definition setp (f : pipe -> pipe) : M (pst U) unit := modify (fun s => mkpst (f (pi s)) (us s) (pheld s)).
Definition user {A} (c : M U A) : M (pst U) A := zoom us (fun u s => mkpst (pi s) u (pheld s)) c.

(** [pi->data[pi->nwrite++ % PIPESIZE] = ch] *)
Definition push (ch : Z) (p : pipe) : pipe :=
  mkpipe (<[Z.to_nat (nwrite p mod PIPESIZE) := ch]> (pdata p)) (nread p) (u32 (nwrite p + 1)) (readopen p) (writeopen p).
(** [pi->data[pi->nread++ % PIPESIZE]] *)
Definition front (p : pipe) : Z := default 0 (pdata p !! Z.to_nat (nread p mod PIPESIZE)).
Definition pop (p : pipe) : pipe :=
  mkpipe (pdata p) (u32 (nread p + 1)) (nwrite p) (readopen p) (writeopen p).

(** [wakeup] and [release] at the end. *)
Definition leave (r : progress) : M (pst U) progress := release "pipe" ;; ret r.

Fixpoint pipewrite_loop (fuel : nat) (kl : Z -> bool) (pt addr i n : Z) : M (pst U) progress :=
  match fuel with
  | O => hang
  | S f =>
      if i <? n then
        do! ro <- getp readopen;
        if negb ro || kl i then leave (Done (-1))
        else
          do! nw <- getp nwrite;
          do! nr <- getp nread;
          if nw =? u32 (nr + PIPESIZE) then leave (Asleep i)
          else
            do! r <- user (copy_in pt (u64 (addr + i)) [0]);
            if negb r.2 then leave (Done i)
            else setp (push (hd 0 r.1)) ;; pipewrite_loop f kl pt addr (i + 1) n
      else leave (Done i)
  end.

(** From the start ([i = 0]) or from where the process went to sleep. *)
Definition pipewrite (kl : Z -> bool) (pt addr n i : Z) : M (pst U) progress :=
  acquire "pipe" ;; pipewrite_loop (S (Z.to_nat (n - i))) kl pt addr i n.

Fixpoint piperead_loop (fuel : nat) (pt addr i n : Z) : M (pst U) progress :=
  match fuel with
  | O => hang
  | S f =>
      if i <? n then
        do! nr <- getp nread;
        do! nw <- getp nwrite;
        if nr =? nw then leave (Done i)
        else
          do! ch <- getp front;
          setp pop ;;
          do! ok <- user (copy_out pt (u64 (addr + i)) [ch]);
          if ok then piperead_loop f pt addr (i + 1) n else leave (Done i)
      else leave (Done i)
  end.

Definition piperead (killed : bool) (pt addr n : Z) : M (pst U) progress :=
  acquire "pipe" ;;
  do! nr <- getp nread;
  do! nw <- getp nwrite;
  do! wo <- getp writeopen;
  if (nr =? nw) && wo then
    if killed then leave (Done (-1)) else leave (Asleep 0)
  else piperead_loop (S (Z.to_nat n)) pt addr 0 n.
End Ops.

(** ** The queue in the ring *)

(** [q] is in the pipe, oldest byte first. *)
Record holds (p : pipe) (q : list Z) : Prop := {
  ho_len : length (pdata p) = 512%nat;
  ho_read : 0 <= nread p < 2 ^ 32;
  ho_write : nwrite p = u32 (nread p + Z.of_nat (length q));
  ho_room : Z.of_nat (length q) <= PIPESIZE;
  ho_at : forall j b, q !! j = Some b -> pdata p !! Z.to_nat ((nread p + Z.of_nat j) mod PIPESIZE) = Some b;
  ho_bytes : Forall byte_ok q
}.

Lemma u32_mod z : u32 z mod PIPESIZE = z mod PIPESIZE.
Proof. unfold u32. apply Z.mod_mod_divide. by exists (2 ^ 23). Qed.

Lemma mod_range z : 0 <= z mod PIPESIZE < PIPESIZE.
Proof. by apply Z.mod_pos_bound. Qed.

(** The counters tell how many bytes there are, across wrap-around. *)
Lemma u32_shift a k : 0 <= a < 4294967296 -> 0 <= k < 4294967296 ->
  u32 (a + k) = if a + k <? 4294967296 then a + k else a + k - 4294967296.
Proof.
  intros Ha Hk. destruct (Z.ltb_spec (a + k) 4294967296); [apply u32_small; lia|].
  unfold u32. rewrite <- (Z_mod_plus_full (a + k) (-1)), Z.mod_small; lia.
Qed.

Lemma holds_count p q k : holds p q -> 0 <= k <= PIPESIZE ->
  (nwrite p =? u32 (nread p + k)) = (Z.of_nat (length q) =? k).
Proof.
  intros [_ Hr Hw Hl _ _] Hk. rewrite Hw. unfold PIPESIZE in *. change (2 ^ 32) with 4294967296 in *.
  rewrite !u32_shift by lia. apply eq_true_iff_eq. rewrite !Z.eqb_eq.
  destruct (Z.ltb_spec (nread p + k) 4294967296), (Z.ltb_spec (nread p + Z.of_nat (length q)) 4294967296); lia.
Qed.

Lemma holds_empty p q : holds p q -> (nread p =? nwrite p) = bool_decide (q = []).
Proof.
  intros H. rewrite Z.eqb_sym. pose proof (holds_count p q 0 H ltac:(done)) as E.
  rewrite Z.add_0_r, u32_small in E by apply H. rewrite E. destruct q; [done|]. by rewrite bool_decide_false.
Qed.

Lemma index_ne a j k : 0 <= j < PIPESIZE -> 0 <= k < PIPESIZE -> j <> k ->
  Z.to_nat ((a + j) mod PIPESIZE) <> Z.to_nat ((a + k) mod PIPESIZE).
Proof.
  intros Hj Hk Hne E. pose proof (mod_range (a + j)). pose proof (mod_range (a + k)). apply Z2Nat.inj in E; [|lia..].
  unfold PIPESIZE in *. pose proof (Z.div_mod (a + j) 512 ltac:(done)). pose proof (Z.div_mod (a + k) 512 ltac:(done)). lia.
Qed.

Lemma holds_push p q ch : holds p q -> Z.of_nat (length q) < PIPESIZE -> byte_ok ch -> holds (push ch p) (q ++ [ch]).
Proof.
  intros H Hl Hb. pose proof H as [Hlen Hr Hw _ Hat Hby]. constructor; cbn [push pdata nread nwrite].
  - by rewrite length_insert.
  - done.
  - rewrite Hw, length_app. cbn. unfold u32. rewrite Zplus_mod_idemp_l. f_equal. lia.
  - rewrite length_app. cbn. lia.
  - intros j b Hj. rewrite Hw, u32_mod. destruct (decide (j = length q)) as [->|Hne].
    + rewrite lookup_app_r, Nat.sub_diag in Hj by lia. injection Hj as <-.
      apply list_lookup_insert_eq. pose proof (mod_range (nread p + Z.of_nat (length q))). unfold PIPESIZE in *. lia.
    + assert (j < length q)%nat as Hjl.
      { apply lookup_lt_Some in Hj. rewrite length_app in Hj. cbn in Hj. lia. }
      rewrite lookup_app_l in Hj by done. rewrite list_lookup_insert_ne; [by apply Hat|]. apply index_ne; lia.
  - apply Forall_app. split; [done|]. constructor; [done|constructor].
Qed.

Lemma holds_front p b q : holds p (b :: q) -> front p = b.
Proof.
  intros H. unfold front. pose proof (ho_at _ _ H 0 b eq_refl) as E. rewrite Z.add_0_r in E. by rewrite E.
Qed.

Lemma holds_pop p b q : holds p (b :: q) -> holds (pop p) q.
Proof.
  intros [Hlen Hr Hw Hl Hat Hby]. apply Forall_cons in Hby as [_ Hby]. cbn [length] in *.
  constructor; cbn [pop pdata nread nwrite]; try done.
  - apply u32_range.
  - rewrite Hw. unfold u32. rewrite Zplus_mod_idemp_l. f_equal. lia.
  - lia.
  - intros j c Hj. pose proof (Hat (S j) c Hj) as E. rewrite <- E. do 2 f_equal. unfold u32.
    rewrite <- (Zplus_mod_idemp_l _ (Z.of_nat j)), Z.mod_mod_divide by (by exists (2 ^ 23)).
    rewrite Zplus_mod_idemp_l. f_equal. lia.
Qed.
