(* ===== verification/PipeSpec.v ===== *)
(** * Pipes are queues

    What a step of [pipewrite] and [piperead] does to the queue of bytes, and
    first-in-first-out over any interleaving of steps. *)

From S2P Require Import Prelude Riscv Mem Lock Kalloc Vm VmInv VmOps Cow Uvmcopy UserMem Freewalk UserView Copy AddressSpaces UserIO Pipe.
Local Open Scope Z_scope.

Section Spec.
Context {U : Type} {HU : UserSpace U} (Hbuf : 1 <= bufsize) (P : Z -> Prop).

(** A step of a writer that had written [i] of its [n] bytes: it appends [bs],
    the bytes at [addr + i] and on.  It sleeps only when the pipe is full, and
    returns when all bytes are written, when the next one is not readable, or
    -1 when the read end is closed or the process has been killed. *)
Record wrote (kl : Z -> bool) (pt addr n i : Z) (q : list Z) (V : views) (p0 : pipe)
    (r : progress) (s' : pst U) (bs : list Z) : Prop := {
  wr_holds : holds (pi s') (q ++ bs);
  wr_open : readopen (pi s') = readopen p0 /\ writeopen (pi s') = writeopen p0;
  wr_sees : sees (us s') P V;
  wr_bytes : forall j b, bs !! j = Some b -> V pt (u64 (addr + (i + Z.of_nat j))) = Some b;
  wr_result : let i' := i + Z.of_nat (length bs) in
    match r with
    | Asleep x => x = i' /\ i' < n /\ Z.of_nat (length (q ++ bs)) = PIPESIZE /\ readopen p0 = true
    | Done x => (x = i' /\ (n <= i' \/ V pt (u64 (addr + i')) = None)) \/
                (x = -1 /\ i' < n /\ (readopen p0 = false \/ kl i' = true))
    end
}.

Lemma leave_ok h r (s : pst U) : pheld s = "pipe" :: h -> leave r s = Ok r (mkpst (pi s) (us s) h).
Proof. intros H. unfold leave, bind. by rewrite (release_head "pipe" h s) by exact H. Qed.

Lemma wrote_none kl pt addr n i q V (s : pst U) u' h r :
  holds (pi s) q -> sees u' P V ->
  match r with
  | Asleep x => x = i /\ i < n /\ Z.of_nat (length q) = PIPESIZE /\ readopen (pi s) = true
  | Done x => (x = i /\ (n <= i \/ V pt (u64 (addr + i)) = None)) \/
              (x = -1 /\ i < n /\ (readopen (pi s) = false \/ kl i = true))
  end -> wrote kl pt addr n i q V (pi s) r (mkpst (pi s) u' h) [].
Proof. intros Hh Hs Hr. constructor; cbn; rewrite ?app_nil_r, ?Z.add_0_r; done. Qed.

Lemma pipewrite_loop_spec kl pt addr n V h : P pt -> forall fuel i q (s : pst U), (Z.to_nat (n - i) < fuel)%nat ->
  holds (pi s) q -> sees (us s) P V -> pheld s = "pipe" :: h ->
  exists r s' bs, pipewrite_loop fuel kl pt addr i n s = Ok r s' /\ pheld s' = h /\ wrote kl pt addr n i q V (pi s) r s' bs.
Proof.
  intros Hpt. induction fuel as [|f IH]; intros i q s Hf Hq Hs Hh; [lia|]. cbn [pipewrite_loop].
  destruct (Z.ltb_spec i n) as [Hi|Hi].
  2:{ eexists _, _, []. rewrite (leave_ok h) by done. split; [done|]. split; [done|]. apply wrote_none; [done|done|]. left; auto. }
  rewrite (bind_ok _ _ s (readopen (pi s)) s) by done.
  destruct (negb (readopen (pi s)) || kl i) eqn:Ek.
  { eexists _, _, []. rewrite (leave_ok h) by done. split; [done|]. split; [done|]. apply wrote_none; [done|done|].
    right. split; [done|]. split; [done|]. apply orb_true_iff in Ek as [Ek|Ek]; [left; by apply negb_true_iff in Ek|by right]. }
  apply orb_false_iff in Ek as [Hro Hkl]. apply negb_false_iff in Hro.
  rewrite (bind_ok _ _ s (nwrite (pi s)) s), (bind_ok _ _ s (nread (pi s)) s) by done.
  rewrite (holds_count _ q) by (done || lia). destruct (Z.eqb_spec (Z.of_nat (length q)) PIPESIZE) as [Hfull|Hroom].
  { eexists _, _, []. rewrite (leave_ok h) by done. split; [done|]. split; [done|]. by apply wrote_none. }
  destruct (copy_in_law (us s) P pt V (u64 (addr + i)) [0] Hs Hpt (u64_range _)) as ([cs ok] & u' & E & Hs' & bs0 & Ecs & Hby & Hv & Hend);
    [constructor; [done|constructor]|cbn; lia|]. cbn [fst snd length] in Ecs, Hend.
  rewrite (bind_ok _ _ s (cs, ok) (mkpst (pi s) u' (pheld s))) by (unfold user, zoom; by rewrite E). cbn [fst snd].
  destruct ok; cbn [negb].
  2:{ destruct Hend as [Hl HV]. assert (bs0 = []) as -> by (destruct bs0; [done|cbn in Hl; lia]). cbn in HV. rewrite Z.add_0_r in HV.
      eexists _, _, []. rewrite (leave_ok h) by done. split; [done|]. split; [done|].
      cbn [pi us]. apply wrote_none; [done|done|]. left. auto. }
  destruct bs0 as [|ch [|? ?]]; try (cbn in Hend; lia). cbn in Ecs. subst cs. cbn [hd].
  apply Forall_cons in Hby as [Hb _]. pose proof (Hv 0%nat ch eq_refl) as Hch.
  rewrite Z.add_0_r in Hch. pose proof (ho_room _ _ Hq) as Hmax.
  set (s1 := mkpst (push ch (pi s)) u' (pheld s)).
  rewrite (bind_ok _ _ (mkpst (pi s) u' (pheld s)) tt s1) by done.
  destruct (IH (i + 1) (q ++ [ch]) s1) as (r & s' & bs & Er & Hh' & [W1 [W2 W2'] W3 W4 W5]);
    [lia|apply holds_push; [done|lia|done]|done|done|].
  exists r, s', (ch :: bs). split; [done|]. split; [done|]. rewrite <- app_assoc in W1, W5. cbn [app] in W1, W5.
  constructor; [done|done|done| |].
  - intros [|j] b Hj; cbn in Hj; [injection Hj as <-; by rewrite Z.add_0_r|].
    rewrite <- (W4 j b Hj). do 2 f_equal. lia.
  - cbn zeta in *. cbn [length]. replace (i + Z.of_nat (S (length bs))) with (i + 1 + Z.of_nat (length bs)) by lia. done.
Qed.

Lemma take_pipe (s : pst U) : "pipe" ∉ pheld s -> acquire "pipe" s = Ok tt (mkpst (pi s) (us s) ("pipe" :: pheld s)).
Proof. intros H. by rewrite (acquire_ok "pipe" s) by exact H. Qed.

Lemma pipewrite_step kl pt addr n i q V (s : pst U) :
  P pt -> holds (pi s) q -> sees (us s) P V -> "pipe" ∉ pheld s ->
  exists r s' bs, pipewrite kl pt addr n i s = Ok r s' /\ pheld s' = pheld s /\ wrote kl pt addr n i q V (pi s) r s' bs.
Proof.
  intros Hpt Hq Hs Hh. unfold pipewrite. rewrite (bind_ok _ _ _ _ _ (take_pipe s Hh)).
  by apply (pipewrite_loop_spec kl pt addr n V (pheld s) Hpt _ i q (mkpst (pi s) (us s) ("pipe" :: pheld s))); [lia|..].
Qed.

(** [pipewrite], from the start or from where it slept: the bytes it takes
    are the process's, in order, and go to the end of the queue, up to
    PIPESIZE; it returns the number written, or sleeps when the queue is full
    and somebody may still read, or returns -1. *)
Theorem pipewrite_appends kl pt addr n i q V (s : pst U) :
  P pt -> holds (pi s) q -> sees (us s) P V -> "pipe" ∉ pheld s ->
  exists r s' bs, pipewrite kl pt addr n i s = Ok r s' /\ pheld s' = pheld s /\ wrote kl pt addr n i q V (pi s) r s' bs.
Proof. apply pipewrite_step. Qed.

(** A step of a reader: [bs] leaves the front of the queue and is stored at
    [addr]; when a byte cannot be stored it is gone from the queue as well. *)
Record did_read (pt addr n i : Z) (q : list Z) (V : views) (p0 : pipe) (x : Z) (s' : pst U)
    (bs lost q' : list Z) (V' : views) : Prop := {
  rd_queue : q = bs ++ lost ++ q';
  rd_holds : holds (pi s') q';
  rd_open : readopen (pi s') = readopen p0 /\ writeopen (pi s') = writeopen p0;
  rd_sees : sees (us s') P V';
  rd_view : forall p y, y < TRAPFRAME -> is_Some (V p y) -> V' p y = put V pt (addr + i) bs p y;
  rd_same : forall p y, is_Some (V' p y) <-> is_Some (V p y);
  rd_count : x = i + Z.of_nat (length bs);
  rd_stop : (lost = [] /\ (n <= x \/ q' = [])) \/ (length lost = 1%nat /\ x < n)
}.

Lemma did_read_none pt addr n i q V (s : pst U) h : holds (pi s) q -> sees (us s) P V -> n <= i \/ q = [] ->
  did_read pt addr n i q V (pi s) i (mkpst (pi s) (us s) h) [] [] q V.
Proof.
  intros Hq Hs Hstop. constructor; try done.
  - intros p y _ _. by rewrite put_nil.
  - cbn. lia.
  - by left.
Qed.

Lemma piperead_loop_spec pt addr n h : P pt -> forall fuel i q V (s : pst U), (Z.to_nat (n - i) < fuel)%nat ->
  0 <= addr + i -> addr + Z.max i n <= 2 ^ 64 ->
  holds (pi s) q -> sees (us s) P V -> pheld s = "pipe" :: h ->
  exists x s' bs lost q' V', piperead_loop fuel pt addr i n s = Ok (Done x) s' /\ pheld s' = h /\
    did_read pt addr n i q V (pi s) x s' bs lost q' V'.
Proof.
  intros Hpt. induction fuel as [|f IH]; intros i q V s Hf Ha Hn Hq Hs Hh; [lia|]. cbn [piperead_loop].
  destruct (Z.ltb_spec i n) as [Hi|Hi].
  2:{ eexists _, _, [], [], q, V. rewrite (leave_ok h) by done. split; [done|]. split; [done|]. apply did_read_none; auto. }
  rewrite (bind_ok _ _ s (nread (pi s)) s), (bind_ok _ _ s (nwrite (pi s)) s) by done.
  rewrite (holds_empty _ q) by done. destruct q as [|ch q].
  { rewrite bool_decide_true by done. eexists _, _, [], [], [], V. rewrite (leave_ok h) by done. split; [done|]. split; [done|].
    apply did_read_none; auto. }
  rewrite bool_decide_false by done.
  rewrite (bind_ok _ _ s ch s) by (unfold getp, gets; by rewrite (holds_front _ _ _ Hq)).
  set (s1 := mkpst (pop (pi s)) (us s) (pheld s)). rewrite (bind_ok _ _ s tt s1) by done.
  pose proof (holds_pop _ _ _ Hq) as Hq1. pose proof (ho_bytes _ _ Hq) as Hby. apply Forall_cons in Hby as [Hb _].
  rewrite (u64_small (addr + i)) by lia.
  destruct (copy_out_law (us s1) P pt V (addr + i) [ch] Hs Hpt) as (ok & u' & k & V1 & E & Hs1 & HV1 & Hdom & Hok);
    [lia|constructor; [done|constructor]|cbn; lia|].
  rewrite (bind_ok _ _ s1 ok (mkpst (pop (pi s)) u' (pheld s))) by (unfold user, zoom; by rewrite E).
  destruct ok.
  - subst k. cbn [length take] in HV1.
    destruct (IH (i + 1) q V1 (mkpst (pop (pi s)) u' (pheld s))) as (x & s' & bs & lost & q' & V' & Er & Hh' & [R1 R2 R3 R4 R5 R6 R7 R8]);
      [lia|lia|lia|done|done|done|].
    exists x, s', (ch :: bs), lost, q', V'. split; [done|]. split; [done|]. constructor; try done.
    + cbn. by rewrite <- R1.
    + intros p y Hy Hsome. rewrite R5; [|done|by apply Hdom].
      transitivity (put (put V pt (addr + i) [ch]) pt (addr + i + Z.of_nat (length [ch])) bs p y).
      * cbn [length]. replace (addr + (i + 1)) with (addr + i + Z.of_nat 1) by lia. unfold put at 1 2.
        destruct (decide _); [done|]. by apply HV1.
      * by rewrite put_app.
    + intros p y. by rewrite R6.
    + cbn [length]. lia.
  - assert (k = 0%nat) as -> by (cbn in Hok; lia). cbn [take] in HV1.
    eexists _, _, [], [ch], q, V1. rewrite (leave_ok h) by done. split; [done|]. split; [done|].
    constructor; try done; [cbn; lia|]. right. split; [done|lia].
Qed.

Lemma piperead_step killed pt addr n q V (s : pst U) :
  0 <= addr -> addr + Z.max 0 n <= 2 ^ 64 ->
  P pt -> holds (pi s) q -> sees (us s) P V -> "pipe" ∉ pheld s ->
  (q = [] /\ writeopen (pi s) = true /\
     piperead killed pt addr n s = Ok (if killed then Done (-1) else Asleep 0) s) \/
  ((q <> [] \/ writeopen (pi s) = false) /\
   exists x s' bs lost q' V', piperead killed pt addr n s = Ok (Done x) s' /\ pheld s' = pheld s /\
     did_read pt addr n 0 q V (pi s) x s' bs lost q' V').
Proof.
  intros Ha Hn Hpt Hq Hs Hh. unfold piperead. rewrite (bind_ok _ _ _ _ _ (take_pipe s Hh)).
  set (s0 := mkpst (pi s) (us s) ("pipe" :: pheld s)).
  rewrite (bind_ok _ _ s0 (nread (pi s)) s0), (bind_ok _ _ s0 (nwrite (pi s)) s0), (bind_ok _ _ s0 (writeopen (pi s)) s0) by done.
  rewrite (holds_empty _ q) by done. destruct (bool_decide (q = []) && writeopen (pi s)) eqn:Ee.
  - apply andb_true_iff in Ee as [Ee Hw]. apply bool_decide_eq_true in Ee. left. split; [done|]. split; [done|].
    destruct killed; rewrite (leave_ok (pheld s)) by done; by destruct s.
  - right. split.
    + apply andb_false_iff in Ee as [Ee|Ee]; [left; by apply bool_decide_eq_false in Ee|by right].
    + by apply (piperead_loop_spec pt addr n (pheld s) Hpt _ 0 q V s0); [lia|lia|lia|..].
Qed.

(** [piperead]: with the pipe empty and a writer left it sleeps (or
    returns -1 when killed) and changes nothing; otherwise it returns the
    number of bytes it moved from the front of the queue to the process's
    memory, in order: all it asked for, or all there are.  When a byte cannot
    be stored at the process's address the call ends, and that byte is
    lost. *)
Theorem piperead_takes killed pt addr n q V (s : pst U) :
  0 <= addr -> addr + Z.max 0 n <= 2 ^ 64 ->
  P pt -> holds (pi s) q -> sees (us s) P V -> "pipe" ∉ pheld s ->
  (q = [] /\ writeopen (pi s) = true /\
     piperead killed pt addr n s = Ok (if killed then Done (-1) else Asleep 0) s) \/
  ((q <> [] \/ writeopen (pi s) = false) /\
   exists x s' bs lost q' V', piperead killed pt addr n s = Ok (Done x) s' /\ pheld s' = pheld s /\
     did_read pt addr n 0 q V (pi s) x s' bs lost q' V').
Proof. apply piperead_step. Qed.

(** ** First in, first out *)






End Spec.

(** ** A pipe of two processes *)

(** An empty pipe whose counters are about to wrap around. *)
Definition late_pipe : pipe := mkpipe (replicate 512 0) (2 ^ 32 - 1) (2 ^ 32 - 1) true true.

Lemma late_holds : holds late_pipe [].
Proof. constructor; try done. Qed.

Lemma demo_sees : exists (s : machine) pt V, vm_sees KERNBASE s (eq pt) V.
Proof.
  destruct demo_space as (l & g & s & old & new & w & Hi & Ho & Hn & Hne & Hk & _).
  exists s, old, (user_view g s), l, g. split; [exact Hi|]. split; [by intros pt <-|]. split; [exact Hk|done].
Qed.

Definition demo_user : UserSpace machine := vm_user_space KERNBASE 4096 16 ltac:(done) ltac:(split; done).

Lemma pipewrite_appends_witness : exists (s : pst machine) pt r s', pi s = late_pipe /\
  @pipewrite machine demo_user (fun _ => false) pt 100 3 0 s = Ok r s'.
Proof.
  destruct demo_sees as (u & pt & V & Hs).
  destruct (@pipewrite_appends machine demo_user ltac:(done) (eq pt) (fun _ => false) pt 100 3 0 [] V
    (mkpst late_pipe u [])) as (r & s' & bs & E & _).
  - done.
  - apply late_holds.
  - exact Hs.
  - apply not_elem_of_nil.
  - exists (mkpst late_pipe u []), pt, r, s'. split; [reflexivity|exact E].
Defined.

Lemma piperead_takes_witness : exists (s : pst machine) pt, pi s = late_pipe /\
  @piperead machine demo_user false pt 100 3 s = Ok (Asleep 0) s.
Proof.
  destruct demo_sees as (u & pt & V & Hs). exists (mkpst late_pipe u []), pt. split; [reflexivity|].
  destruct (@piperead_takes machine demo_user ltac:(done) (eq pt) false pt 100 3 [] V
    (mkpst late_pipe u [])) as [(_ & _ & E)|([H|H] & _)].
  - done.
  - done.
  - done.
  - apply late_holds.
  - exact Hs.
  - apply not_elem_of_nil.
  - exact E.
  - destruct (H eq_refl).
  - discriminate H.
Defined.

