(* ===== verification/Blocks.v ===== *)
(** * The block layer as the file system uses it

    kernel/fs.c reads a block, looks at it or changes it, logs it if it
    changed, and releases it, all inside a transaction.  The class states what
    those calls promise: [v] is what a reader of each block sees, [hs] the
    blocks the process holds with their buffer and present contents, [lg] the
    blocks the transaction has logged. *)

From S2P Require Import Prelude Riscv Mem Lock Bio.
Local Open Scope Z_scope.

Abbreviation contents := (Z -> block).
Abbreviation holding := (gmap Z (nat * block)).

Definition setv (b : Z) (d : block) (v : contents) : contents := fun c => if decide (c = b) then d else v c.

Class Blocks (S : Type) := {
  fsdev : Z;
  b_read : Z -> Z -> M S nat;
  b_data : nat -> M S block;
  b_set : nat -> block -> M S unit;
  b_log : nat -> M S unit;
  b_rel : nat -> M S unit;
  (** Blocks that belong to the file system. *)
  fsblock : Z -> Prop;
  brep : S -> contents -> holding -> gset Z -> Prop;
  b_read_law : forall s v hs lg b, brep s v hs lg -> fsblock b -> hs !! b = None -> (size hs < 4)%nat ->
    exists h s', b_read fsdev b s = Ok h s' /\ brep s' v (<[b := (h, v b)]> hs) lg;
  b_data_law : forall s v hs lg b h d, brep s v hs lg -> hs !! b = Some (h, d) -> b_data h s = Ok d s;
  b_set_law : forall s v hs lg b h d d', brep s v hs lg -> hs !! b = Some (h, d) ->
    exists s', b_set h d' s = Ok tt s' /\ brep s' v (<[b := (h, d')]> hs) lg;
  (** Up to MAXOPBLOCKS blocks can be logged. *)
  b_log_law : forall s v hs lg b h d, brep s v hs lg -> hs !! b = Some (h, d) ->
    b ∈ lg \/ Z.of_nat (size lg) < MAXOPBLOCKS ->
    exists s', b_log h s = Ok tt s' /\ brep s' (setv b d v) hs ({[b]} ∪ lg);
  (** A block is released as it was found or as it was logged. *)
  b_rel_law : forall s v hs lg b h d, brep s v hs lg -> hs !! b = Some (h, d) -> d = v b ->
    exists s', b_rel h s = Ok tt s' /\ brep s' v (delete b hs) lg
}.
