(* ===== verification/LogBlocks.v ===== *)
(** * The log as the block layer of the file system

    Between [begin_op] and [end_op] the calls of kernel/log.c and kernel/bio.c
    behave as [Blocks.v] states; an operation written against that interface
    is atomic. *)

From S2P Require Import Prelude Riscv Mem Lock Bio BioSpec Log LogSpec LogCommit LogCrash LogOps Transactions Blocks.
Local Open Scope Z_scope.

Section LogBlocks.
(** A transaction on device [dev] with the log at [start], [size], that found
    the disk [D]. *)
Context (dev start size_ : Z) (D : gmap Z block) (tr : list (Z * block)) (Hsize : MAXOPBLOCKS + 1 < size_).

Definition home_block (b : Z) : Prop := (b < start \/ start + size_ <= b) /\ 0 <= b < 2 ^ 31.

(** The buffer of block [b]: held blocks are locked, logged blocks pinned. *)
Definition buffer (v : contents) (hs : holding) (L : gset Z) (b : Z) : option lbuf :=
  match hs !! b with
  | Some (_, d) => Some (mklb (if decide (b ∈ L) then 2 else 1) d true)
  | None => if decide (b ∈ L) then Some (mklb 1 (v b) false) else None
  end.

Record open_op (A : store) (bl : list Z) (s : lst) (v : contents) (hs : holding) (L : gset Z) : Prop := {
  oo_rep : bio_rep dev A (bio s);
  oo_disk : sdisk A = D /\ strace A = tr;
  oo_log : ldev (lg s) = dev /\ lstart (lg s) = start /\ lsize (lg s) = size_;
  oo_logged : logged s bl;
  oo_nodup : NoDup bl;
  oo_blocks : forall b, b ∈ bl <-> b ∈ L;
  oo_max : Z.of_nat (size L) <= MAXOPBLOCKS;
  oo_out : outstanding (lg s) = 1 /\ committing (lg s) = false;
  oo_free : log_free s;
  oo_live : forall b, live A !! b = buffer v hs L b;
  oo_home : forall b, b ∈ L \/ is_Some (hs !! b) -> home_block b;
  oo_held : forall b h d, hs !! b = Some (h, d) -> here (bio s) h b;
  oo_view : forall b, b ∉ L -> v b = blk D b
}.

Lemma open_length A bl s v hs L : open_op A bl s v hs L -> length bl = size L.
Proof.
  intros H. assert (L = list_to_set bl) as ->.
  { apply set_eq. intros b. rewrite elem_of_list_to_set. symmetry. apply H. }
  symmetry. apply size_list_to_set, H.
Qed.

Lemma open_live_size A bl s v hs L : open_op A bl s v hs L -> (size (live A) <= size L + size hs)%nat.
Proof.
  intros H. rewrite <- (size_dom (live A)), <- (size_dom hs).
  assert (dom (live A) ⊆ L ∪ dom hs) as Hs.
  { intros b. rewrite elem_of_dom, (oo_live _ _ _ _ _ _ H). unfold buffer. intros [x Hx]. apply elem_of_union.
    destruct (hs !! b) eqn:E; [right; apply elem_of_dom; eauto|]. case_decide; [by left|done]. }
  apply subseteq_size in Hs. rewrite size_union_alt in Hs. pose proof (subseteq_size (dom hs ∖ L) (dom hs) ltac:(set_solver)). lia.
Qed.

Lemma held_live A bl s v hs L b h d : open_op A bl s v hs L -> hs !! b = Some (h, d) ->
  live A !! b = Some (mklb (if decide (b ∈ L) then 2 else 1) d true) /\ here (bio s) h b.
Proof.
  intros H Hb. split; [|by apply (oo_held _ _ _ _ _ _ H b h d)]. rewrite (oo_live _ _ _ _ _ _ H). unfold buffer. by rewrite Hb.
Qed.

(** After a call into the cache: the live buffers, the held ones. *)
Lemma open_step A bl s v hs L A' s' hs' : open_op A bl s v hs L -> bio_rep dev A' (bio s') -> lg s' = lg s -> held s' = held s ->
  sdisk A' = D /\ strace A' = tr -> (forall b, live A' !! b = buffer v hs' L b) ->
  (forall b, is_Some (hs' !! b) -> home_block b) ->
  (forall b h d, hs' !! b = Some (h, d) -> here (bio s') h b) -> open_op A' bl s' v hs' L.
Proof.
  intros H Hr L1 Hh Hd Hlv Hhm Hhere. constructor; try done.
  - rewrite L1. apply H.
  - apply (logged_lg s); [done|apply H].
  - apply H.
  - apply H.
  - apply H.
  - rewrite L1. apply H.
  - unfold log_free. change (blocks_held (bio s')) with (held s'). rewrite Hh. apply H.
  - intros b [Hb|Hb]; [|by apply Hhm]. apply (oo_home _ _ _ _ _ _ H). by left.
  - apply H.
Qed.

Definition op_rep (s : lst) (v : contents) (hs : holding) (L : gset Z) : Prop := exists A bl, open_op A bl s v hs L.

Lemma run_io {B} (c : M bst B) (Q : B -> lst -> Prop) s : (forall h, locks h c h) -> wp (io c) Q s ->
  exists a s', io c s = Ok a s' /\ Q a s' /\ held s' = held s.
Proof.
  intros Hl Hw. destruct (wp_ok _ _ _ (wp_locks (held s) (held s) _ _ s (locks_io _ _ _ (Hl _)) eq_refl Hw)) as (a & s' & E & HQ & Hh). eauto.
Qed.

Section Laws.
Context {A : store} {bl : list Z} {s : lst} {v : contents} {hs : holding} {L : gset Z} (H : open_op A bl s v hs L).

Lemma op_read b : home_block b -> hs !! b = None -> (size hs < 4)%nat ->
  exists h s', io (bread dev b) s = Ok h s' /\ op_rep s' v (<[b := (h, v b)]> hs) L.
Proof.
  intros Hb Hn Hsz. pose proof (oo_rep _ _ _ _ _ _ H) as Hr. pose proof (oo_live _ _ _ _ _ _ H b) as Elv. unfold buffer in Elv. rewrite Hn in Elv.
  assert (readable A b) as Hrd.
  { unfold readable. rewrite Elv. case_decide; [done|]. pose proof (open_live_size _ _ _ _ _ _ H). pose proof (oo_max _ _ _ _ _ _ H).
    change MAXOPBLOCKS with 10 in *. change HEAD with 30%nat. lia. }
  destruct (run_io (bread dev b) (fun i s' => bio_rep dev (read_store b A) (bio s') /\ here (bio s') i b /\
     keeps (read_store b A) (bio s) (bio s') /\ lg s' = lg s) s)
    as (h & s' & E & (Hr' & Hh & Hk & L1) & Hd); [intros; apply locks_bread|by apply (io_bread Hr)|].
  exists h, s'. split; [done|]. exists (read_store b A), bl. apply (open_step A _ s v hs); try done.
  - apply H.
  - intros c. unfold buffer. destruct (decide (c = b)) as [->|Hc].
    + rewrite lookup_read, lookup_insert_eq, Elv. case_decide as Hin; [done|]. do 2 f_equal.
      rewrite (oo_view _ _ _ _ _ _ H b Hin). unfold sblock. by rewrite (proj1 (oo_disk _ _ _ _ _ _ H)).
    + rewrite lookup_read_ne, lookup_insert_ne by done. apply H.
  - intros c. rewrite lookup_insert_is_Some. intros [<-|[_ Hc]]; [done|]. apply (oo_home _ _ _ _ _ _ H). by right.
  - intros c h' d. destruct (decide (c = b)) as [->|Hc].
    + rewrite lookup_insert_eq. by intros [= <- _].
    + rewrite lookup_insert_ne by done. intros Hc'. apply Hk; [by apply (oo_held _ _ _ _ _ _ H c h' d)|].
      rewrite lookup_read_ne by done. rewrite (proj1 (held_live _ _ _ _ _ _ _ _ _ H Hc')). eauto.
Qed.

Context {b : Z} {h : nat} {d : block} (Hb : hs !! b = Some (h, d)).

Lemma op_data : io (getb h data) s = Ok d s.
Proof.
  destruct (held_live _ _ _ _ _ _ _ _ _ H Hb) as [Hx Hh].
  destruct (wp_ok _ _ _ (io_data (oo_rep _ _ _ _ _ _ H) Hh Hx (fun a s' => a = d /\ s' = s) (conj eq_refl eq_refl))) as (a & s' & E & -> & ->).
  exact E.
Qed.

Lemma op_set d' : exists s', io (setb h (set_data d')) s = Ok tt s' /\ op_rep s' v (<[b := (h, d')]> hs) L.
Proof.
  destruct (held_live _ _ _ _ _ _ _ _ _ H Hb) as [Hx Hh]. pose proof (oo_rep _ _ _ _ _ _ H) as Hr.
  set (A' := set_live b (mklb (if decide (b ∈ L) then 2 else 1) d' true) A).
  destruct (run_io (setb h (set_data d')) (fun _ s' => bio_rep dev A' (bio s') /\ here (bio s') h b /\
     keeps A' (bio s) (bio s') /\ lg s' = lg s) s)
    as ([] & s' & E & (Hr' & Hh' & Hk & L1) & Hd); [intros; apply locks_setb|by apply (io_set_data Hr Hh Hx _ d')|].
  exists s'. split; [done|]. exists A', bl. apply (open_step A _ s v hs); try done.
  - apply H.
  - intros c. unfold buffer, A'. cbn. destruct (decide (c = b)) as [->|Hc]; [by rewrite !lookup_insert_eq|].
    rewrite !lookup_insert_ne by done. apply H.
  - intros c. rewrite lookup_insert_is_Some. intros [<-|[_ Hc]]; apply (oo_home _ _ _ _ _ _ H); right; [by eexists|done].
  - intros c h' e. destruct (decide (c = b)) as [->|Hc]; [rewrite lookup_insert_eq; by intros [= <- _]|].
    rewrite lookup_insert_ne by done. intros Hc'. apply Hk; [by apply (oo_held _ _ _ _ _ _ H c h' e)|].
    unfold A'. cbn. rewrite lookup_insert_ne by done. rewrite (proj1 (held_live _ _ _ _ _ _ _ _ _ H Hc')). eauto.
Qed.

Lemma op_rel : d = v b -> exists s', io (brelse h) s = Ok tt s' /\ op_rep s' v (delete b hs) L.
Proof.
  intros ->. destruct (held_live _ _ _ _ _ _ _ _ _ H Hb) as [Hx Hh]. pose proof (oo_rep _ _ _ _ _ _ H) as Hr.
  set (x := mklb (if decide (b ∈ L) then 2 else 1) (v b) true) in *. set (A' := release_store b x A).
  assert (lref x = 1 -> ldata x = sblock A b) as Hcl.
  { unfold x. cbn. case_decide as Hin; [done|]. intros _. rewrite (oo_view _ _ _ _ _ _ H b Hin). unfold sblock. by rewrite (proj1 (oo_disk _ _ _ _ _ _ H)). }
  destruct (run_io (brelse h) (fun _ s' => bio_rep dev A' (bio s') /\ keeps A' (bio s) (bio s') /\ lg s' = lg s) s)
    as ([] & s' & E & (Hr' & Hk & L1) & Hd); [intros; apply locks_brelse|by apply (io_brelse Hr Hh Hx)|].
  assert (forall c, c <> b -> live A' !! c = live A !! c) as Hother.
  { intros c Hc. unfold A', release_store. destruct (lref x =? 1); cbn; [by rewrite lookup_delete_ne|by rewrite lookup_insert_ne]. }
  exists s'. split; [done|]. exists A', bl. apply (open_step A _ s v hs); try done.
  - unfold A', release_store. destruct (lref x =? 1); apply H.
  - intros c. unfold buffer. destruct (decide (c = b)) as [->|Hc].
    + rewrite lookup_delete_eq. unfold A', release_store, x. cbn. case_decide; cbn; [by rewrite lookup_insert_eq|by rewrite lookup_delete_eq].
    + rewrite Hother, lookup_delete_ne by done. apply H.
  - intros c [y Hc]. apply lookup_delete_Some in Hc as [_ Hc]. apply (oo_home _ _ _ _ _ _ H). right. eauto.
  - intros c h' e Hc. apply lookup_delete_Some in Hc as [Hne Hc]. apply Hk; [by apply (oo_held _ _ _ _ _ _ H c h' e)|].
    rewrite Hother by done. rewrite (proj1 (held_live _ _ _ _ _ _ _ _ _ H Hc)). eauto.
Qed.

Lemma buffer_log c : buffer (setv b d v) hs ({[b]} ∪ L) c =
  if decide (c = b) then Some (mklb 2 d true) else buffer v hs L c.
Proof.
  unfold buffer, setv. destruct (decide (c = b)) as [E|E]; [subst c; rewrite Hb, decide_True by set_solver; done|].
  assert (c ∈ {[b]} ∪ L <-> c ∈ L) as Hc by set_solver.
  destruct (decide (c ∈ L)) as [Hin|Hin]; destruct (hs !! c) as [[]|]; rewrite ?decide_True, ?decide_False by naive_solver; done.
Qed.

Lemma op_log : b ∈ L \/ Z.of_nat (size L) < MAXOPBLOCKS ->
  exists s', log_write h s = Ok tt s' /\ op_rep s' (setv b d v) hs ({[b]} ∪ L).
Proof.
  intros Hroom. destruct (held_live _ _ _ _ _ _ _ _ _ H Hb) as [Hx Hh]. pose proof (oo_rep _ _ _ _ _ _ H) as Hr.
  pose proof (open_length _ _ _ _ _ _ H) as Hlen. pose proof (oo_max _ _ _ _ _ _ H) as Hmax. change MAXOPBLOCKS with 10 in *.
  pose proof (oo_log _ _ _ _ _ _ H) as (Hl1 & Hl2 & Hl3).
  assert (Z.of_nat (length bl) < LOGSIZE) as Hn by (change LOGSIZE with 30; lia).
  assert (Z.of_nat (length bl) < lsize (lg s) - 1) as Hn' by lia.
  assert (1 <= outstanding (lg s)) as Ho by (rewrite (proj1 (oo_out _ _ _ _ _ _ H)); lia).
  destruct (decide (b ∈ L)) as [Hin|Hin].
  - exists s. split.
    { apply (log_write_absorb Hr Hh (oo_logged _ _ _ _ _ _ H) (oo_free _ _ _ _ _ _ H) Ho Hn Hn'). by apply H. }
    replace ({[b]} ∪ L) with L by set_solver. exists A, bl. destruct H as [? ? ? ? ? ? ? ? ? Hlv ? ? Hv]. constructor; try done.
    + intros c. rewrite Hlv. unfold buffer, setv. destruct (hs !! c) eqn:E; [done|]. rewrite (decide_False (P := c = b)); [done|congruence].
    + intros c Hc. unfold setv. rewrite decide_False by congruence. by apply Hv.
  - destruct Hroom as [?|Hroom]; [done|].
    destruct (wp_ok _ _ _ (log_write_new Hr Hh Hx (oo_logged _ _ _ _ _ _ H) (oo_free _ _ _ _ _ _ H) Ho Hn Hn'
      ltac:(by rewrite (oo_blocks _ _ _ _ _ _ H)) ltac:(done)))
      as ([] & s' & E & Hr' & Hh' & Hlog & Sl & Hd & Hk).
    exists s'. split; [done|]. cbn [lref ldata llock] in *. exists (set_live b (mklb 2 d true) A), (bl ++ [b]).
    change (1 + 1) with 2 in *. destruct Sl as (Sa & Sb & Sc & Sd & Se).
    constructor; try done.
    + apply H.
    + by rewrite Sa, Sb, Se.
    + apply NoDup_app. split; [apply H|]. split; [|apply NoDup_singleton]. intros c Hc Hcb. apply list_elem_of_singleton in Hcb as ->.
      apply Hin. by apply H.
    + intros c. rewrite elem_of_app, list_elem_of_singleton, (oo_blocks _ _ _ _ _ _ H). set_solver.
    + rewrite size_union, size_singleton by set_solver. change MAXOPBLOCKS with 10. lia.
    + rewrite Sc, Sd. apply H.
    + unfold log_free. rewrite Hd. apply H.
    + intros c. rewrite buffer_log. cbn. case_decide as Ec; [subst c; by rewrite lookup_insert_eq|].
      rewrite lookup_insert_ne by done. apply H.
    + intros c [Hc|Hc]; [|apply (oo_home _ _ _ _ _ _ H); by right]. apply elem_of_union in Hc as [->%elem_of_singleton|Hc];
        apply (oo_home _ _ _ _ _ _ H); [right; eauto|by left].
    + intros c h' e Hc. apply Hk; [by apply (oo_held _ _ _ _ _ _ H c h' e)|]. cbn. rewrite lookup_insert_is_Some'.
      right. rewrite (proj1 (held_live _ _ _ _ _ _ _ _ _ H Hc)). eauto.
    + intros c Hc. unfold setv. rewrite decide_False by set_solver. apply H. set_solver.
Qed.
End Laws.

(** The interface, discharged by the log. *)
Definition log_blocks : Blocks lst.
Proof.
  refine {| fsdev := dev; b_read d b := io (bread d b); b_data h := io (getb h data);
            b_set h d := io (setb h (set_data d)); b_log := log_write; b_rel h := io (brelse h);
            fsblock := home_block; brep := op_rep |}.
  - intros s v hs L b (A & bl & H) H1 H2 H3. exact (op_read H b H1 H2 H3).
  - intros s v hs L b h d (A & bl & H) H1. exact (op_data H H1).
  - intros s v hs L b h d d' (A & bl & H) H1. exact (op_set H H1 d').
  - intros s v hs L b h d (A & bl & H) H1 H2. exact (op_log H H1 H2).
  - intros s v hs L b h d (A & bl & H) H1 H2. exact (op_rel H H1 H2).
Defined.

(** ** A whole operation *)

Lemma begin_open A s : idle dev A s -> sdisk A = D -> strace A = tr -> lstart (lg s) = start -> lsize (lg s) = size_ ->
  exists s', begin_op s = Ok tt s' /\ op_rep s' (blk D) ∅ ∅.
Proof.
  intros H HD Ht Hs Hz. destruct (begin_pending dev A s H) as (s' & E & Hp & B & Lg); [lia|].
  exists s'. split; [done|]. exists A, []. constructor; rewrite ?Lg.
  - pose proof (pd_rep _ _ _ _ _ Hp) as Hr. rewrite fmap_empty in Hr. rewrite <- (id_live _ _ _ H) in Hr. by destruct A.
  - done.
  - cbn. split; [apply H|done].
  - apply Hp.
  - constructor.
  - intros b. split; [by intros ?%not_elem_of_nil|set_solver].
  - rewrite size_empty. done.
  - cbn. rewrite (id_out _ _ _ H). split; [done|apply H].
  - apply Hp.
  - intros b. rewrite (id_live _ _ _ H). unfold buffer. by rewrite !lookup_empty, decide_False by set_solver.
  - intros b [Hb|[? Hb]]; [set_solver|by rewrite lookup_empty in Hb].
  - intros b h d Hb. by rewrite lookup_empty in Hb.
  - done.
Qed.

(** The updates of an operation. *)
Definition logged_map (v : contents) (L : gset Z) : gmap Z block := set_to_map (fun b => (b, v b)) L.

Lemma lookup_logged v L b : logged_map v L !! b = if decide (b ∈ L) then Some (v b) else None.
Proof.
  apply option_eq. intros d. unfold logged_map. rewrite lookup_set_to_map by done. case_decide; naive_solver.
Qed.

Lemma open_pending A bl s v L A0 : open_op A bl s v ∅ L -> sdisk A0 = D -> strace A0 = tr ->
  pending dev A0 s (logged_map v L) bl.
Proof.
  intros H HD Ht. constructor; try apply H.
  - assert (live A = staged <$> logged_map v L) as Elv.
    { apply map_eq. intros b. rewrite (oo_live _ _ _ _ _ _ H), lookup_fmap, lookup_logged. unfold buffer. rewrite lookup_empty. by case_decide. }
    rewrite <- Elv, HD, Ht. destruct (oo_disk _ _ _ _ _ _ H) as [<- <-]. destruct A. apply H.
  - intros b. rewrite (oo_blocks _ _ _ _ _ _ H), lookup_logged. case_decide; split; done.
  - rewrite (proj1 (oo_out _ _ _ _ _ _ H)). lia.
Qed.

Lemma end_open s v L A0 : op_rep s v ∅ L -> sdisk A0 = D -> strace A0 = tr -> head_n (sblock A0 start) = 0 ->
  exists s' W, end_op s = Ok tt s' /\ idle dev (mkstore ∅ (apply_writes W D) (tr ++ W)) s' /\
    lstart (lg s') = start /\ lsize (lg s') = size_ /\
    (forall b, home start size_ b -> blk (apply_writes W D) b = v b) /\
    forall k, redo start size_ (blk D) (apply_writes (take k W) D) \/ redo start size_ v (apply_writes (take k W) D).
Proof.
  intros (A & bl & H) HD Ht Hh. pose proof (open_pending _ _ _ _ _ A0 H HD Ht) as Hp.
  destruct (oo_log _ _ _ _ _ _ H) as (L1 & L2 & L3). destruct (oo_out _ _ _ _ _ _ H) as [O1 O2].
  assert (forall b, updated D (logged_map v L) b = v b) as Eu.
  { intros b. unfold updated. rewrite lookup_logged. case_decide as Hb; [done|]. cbn. symmetry. by apply H. }
  assert (updatable (lg s) (logged_map v L)) as Hup.
  { split; [|split].
    - intros b d. rewrite lookup_logged. case_decide as Hb; [|done]. intros _. unfold outside. rewrite L2, L3.
      apply (oo_home _ _ _ _ _ _ H). by left.
    - rewrite (pending_size _ _ _ _ _ Hp), (open_length _ _ _ _ _ _ H). apply H.
    - by rewrite L3. }
  destruct (wp_ok _ _ _ (end_finishes dev A0 s (logged_map v L) bl Hp Hup O1 O2 ltac:(by rewrite L2))) as ([] & s' & E & W & [F1 F2 F3 F4]).
  exists s', W. rewrite HD, Ht, L2, L3 in *. split; [done|]. split; [done|].
  destruct F2 as (G1 & G2 & _). cbn in G1, G2. split; [congruence|]. split; [congruence|].
  split; [intros b Hb; rewrite F3 by done; apply Eu|]. intros k. destruct (F4 k) as [Hk|Hk]; [by left|right].
  eapply redo_ext; [|exact Hk]. exact Eu.
Qed.

(** What a crash can leave, after the machine has booted again. *)
Definition all_or_nothing (T T' : Z -> block) (W : list (Z * block)) : Prop :=
  forall k, let D1 := apply_writes (take k W) D in (exists s1, boot dev start size_ D1 = Ok tt s1) /\
    ((forall D', reboots dev start size_ D1 D' -> forall b, home start size_ b -> blk D' b = T b) \/
     (forall D', reboots dev start size_ D1 D' -> forall b, home start size_ b -> blk D' b = T' b)).

Lemma redo_all_or_nothing T T' W : dev <> 0 ->
  (forall k, redo start size_ T (apply_writes (take k W) D) \/ redo start size_ T' (apply_writes (take k W) D)) ->
  all_or_nothing T T' W.
Proof.
  intros Hdev HW k D1. assert (0 < size_) as Hz by (change MAXOPBLOCKS with 10 in Hsize; lia).
  destruct (HW k) as [Hr|Hr]; (split; [destruct (boot_ok dev start size_ Hdev _ D1 Hr) as (s1 & E1 & _); eauto|]); [left|right];
    intros D' Hrb; apply (reboots_clean dev start size_ Hdev _ D1 D' Hz Hrb Hr).
Qed.
End LogBlocks.
