(* ===== verification/Fs.v ===== *)
(** * kernel/fs.c: the file system

    Blocks, inodes, contents, directories and path names, on the interfaces
    of [Blocks.v] and [UserIO.v].  Inodes are indices of [itable]; a null
    pointer is [None].  A sleeping call does not return. *)

From S2P Require Import Prelude Riscv Mem Lock Bio Blocks UserIO.
Import KString.
Local Open Scope Z_scope.

(** ** kernel/fs.h *)
Definition ROOTINO : Z := 1.
Definition FSMAGIC : Z := 0x10203040.
Definition NDIRECT : Z := 12.
Definition NINDIRECT : Z := BSIZE / 4.
Definition MAXFILE : Z := NDIRECT + NINDIRECT.
Definition IPB : Z := BSIZE / 64.
Definition BPB : Z := BSIZE * 8.
Definition DIRSIZ : Z := 14.
Definition T_DIR : Z := 1.
Definition T_FILE : Z := 2.
Definition T_DEVICE : Z := 3.

Record superblock := mksb {
  magic : Z; size_ : Z; nblocks : Z; ninodes : Z; nlog : Z; logstart : Z; inodestart : Z; bmapstart : Z
}.
Definition IBLOCK (i : Z) (sb : superblock) : Z := u32 (i / IPB + inodestart sb).
Definition BBLOCK (b : Z) (sb : superblock) : Z := u32 (b / BPB + bmapstart sb).

(** [struct inode]; [ilk] is its sleep lock with the pid that holds it. *)
Record inode := mkinode {
  idev : Z; inum : Z; iref : Z; ilk : option Z; ivalid : bool;
  itype : Z; imajor : Z; iminor : Z; inlink : Z; isize : Z; iaddrs : list Z
}.

Record stat := mkstat { st_dev : Z; st_ino : Z; st_type : Z; st_nlink : Z; st_size : Z }.

(** Where [readi] puts bytes and [writei] takes them from: a user address, or
    a kernel buffer. *)
Inductive target := ToUser (pt addr : Z) | ToKernel.
Inductive origin := FromUser (pt addr : Z) | FromKernel (bytes : list Z).

Record fst (S U : Type) := mkfst {
  blks : S; usr : U; sb : superblock; itable : list inode; fpid : Z; cwd : nat; fheld : list string
}.
Arguments mkfst {S U} _ _ _ _ _ _ _.
Arguments blks {S U} _.
Arguments usr {S U} _.
Arguments sb {S U} _.
Arguments itable {S U} _.
Arguments fpid {S U} _.
Arguments cwd {S U} _.
Arguments fheld {S U} _.

(** Halfwords and words of a block. *)
Definition lds16 (d : block) (off : Z) : Z := s16 (ldn 2 d off).
Definition st16 (d : block) (off v : Z) : block := stn 2 d off v.
Definition ldw (d : block) (off : Z) : Z := ldn 4 d off.
Definition stw (d : block) (off v : Z) : block := stn 4 d off v.

(** Bytes [off .. off+n-1] of a block, and a block with bytes replaced. *)
Definition get_bytes (d : block) (off n : Z) : list Z := map (fun i => ld8 d (off + Z.of_nat i)) (seq 0 (Z.to_nat n)).
Fixpoint put_bytes (d : block) (off : Z) (bs : list Z) : block :=
  match bs with [] => d | b :: bs' => put_bytes (st8 d off b) (off + 1) bs' end.

Section Fs.
Context {S U : Type} {HB : Blocks S} {HU : UserSpace U}.
Abbreviation F := (M (fst S U)).

#[export] Instance fst_locks : Locks (fst S U).
Proof.
  refine {| held := fheld;
            set_held l s := mkfst (blks s) (usr s) (sb s) (itable s) (fpid s) (cwd s) l |}.
  - done.
  - done.
  - by intros [].
Defined.

Definition blkop {A} (c : M S A) : F A :=
  zoom blks (fun b s => mkfst b (usr s) (sb s) (itable s) (fpid s) (cwd s) (fheld s)) c.
Definition usrop {A} (c : M U A) : F A :=
  zoom usr (fun u s => mkfst (blks s) u (sb s) (itable s) (fpid s) (cwd s) (fheld s)) c.

Definition bread (dev b : Z) : F nat := blkop (b_read dev b).
Definition bdata (h : nat) : F block := blkop (b_data h).
Definition bset (h : nat) (d : block) : F unit := blkop (b_set h d).
Definition log_write (h : nat) : F unit := blkop (b_log h).
Definition brelse (h : nat) : F unit := blkop (b_rel h).

Definition getsb {A} (f : superblock -> A) : F A := gets (fun s => f (sb s)).

(** [itable.inode[i].field]; an index outside the table is undefined. *)
Definition geti {A} (i : nat) (f : inode -> A) : F A := fun s =>
  match itable s !! i with Some x => Ok (f x) s | None => Undef end.
Definition seti (i : nat) (f : inode -> inode) : F unit := fun s =>
  match itable s !! i with
  | Some x => Ok tt (mkfst (blks s) (usr s) (sb s) (<[i := f x]> (itable s)) (fpid s) (cwd s) (fheld s))
  | None => Undef
  end.

Definition set_iref (f : Z -> Z) (x : inode) : inode :=
  mkinode (idev x) (inum x) (f (iref x)) (ilk x) (ivalid x) (itype x) (imajor x) (iminor x) (inlink x) (isize x) (iaddrs x).
Definition set_ilk (o : option Z) (x : inode) : inode :=
  mkinode (idev x) (inum x) (iref x) o (ivalid x) (itype x) (imajor x) (iminor x) (inlink x) (isize x) (iaddrs x).
Definition set_ivalid (v : bool) (x : inode) : inode :=
  mkinode (idev x) (inum x) (iref x) (ilk x) v (itype x) (imajor x) (iminor x) (inlink x) (isize x) (iaddrs x).
Definition set_itype (t : Z) (x : inode) : inode :=
  mkinode (idev x) (inum x) (iref x) (ilk x) (ivalid x) t (imajor x) (iminor x) (inlink x) (isize x) (iaddrs x).
Definition set_inlink (f : Z -> Z) (x : inode) : inode :=
  mkinode (idev x) (inum x) (iref x) (ilk x) (ivalid x) (itype x) (imajor x) (iminor x) (f (inlink x)) (isize x) (iaddrs x).
Definition set_isize (n : Z) (x : inode) : inode :=
  mkinode (idev x) (inum x) (iref x) (ilk x) (ivalid x) (itype x) (imajor x) (iminor x) (inlink x) n (iaddrs x).
Definition set_iaddrs (f : list Z -> list Z) (x : inode) : inode :=
  mkinode (idev x) (inum x) (iref x) (ilk x) (ivalid x) (itype x) (imajor x) (iminor x) (inlink x) (isize x) (f (iaddrs x)).

(** [ip->addrs[i]] *)
Definition get_addr (ip : nat) (i : Z) : F Z := geti ip (fun x => default 0 (iaddrs x !! Z.to_nat i)).
Definition set_addr (ip : nat) (i a : Z) : F unit := seti ip (set_iaddrs (fun l => <[Z.to_nat i := a]> l)).

(** ** Super block and free map *)

Definition readsb (dev : Z) : F unit :=
  do! bp <- bread dev 1;
  do! d <- bdata bp;
  modify (fun s => mkfst (blks s) (usr s)
    (mksb (ldw d 0) (ldw d 4) (ldw d 8) (ldw d 12) (ldw d 16) (ldw d 20) (ldw d 24) (ldw d 28))
    (itable s) (fpid s) (cwd s) (fheld s)) ;;
  brelse bp.

(** [initlog] is the log's, a parameter here. *)
Definition fsinit (initlog : Z -> superblock -> F unit) (dev : Z) : F unit :=
  readsb dev ;;
  do! mg <- getsb magic;
  if negb (mg =? FSMAGIC) then panic "invalid file system"
  else do! b <- getsb (fun b => b); initlog dev b.

Definition bzero (dev bno : Z) : F unit :=
  do! bp <- bread dev bno;
  do! d <- bdata bp;
  bset bp (memset d 0 0 BSIZE) ;;
  log_write bp ;;
  brelse bp.

(** [1 << (bi % 8)] *)
Definition bitmask (bi : Z) : Z := Z.shiftl 1 (bi mod 8).

(** The inner loop of [balloc]: the first free bit of the block at [bi] or
    after. *)
Fixpoint find_free (fuel : nat) (d : block) (b bi size : Z) : option Z :=
  match fuel with
  | O => None
  | Datatypes.S f =>
      if (bi <? BPB) && (b + bi <? size)
      then if Z.land (ld8 d (bi / 8)) (bitmask bi) =? 0 then Some bi else find_free f d b (bi + 1) size
      else None
  end.

Fixpoint balloc_loop (fuel : nat) (dev b size : Z) : F Z :=
  match fuel with
  | O => ret 0
  | Datatypes.S f =>
      if b <? size then
        do! s <- getsb (fun x => x);
        do! bp <- bread dev (BBLOCK b s);
        do! d <- bdata bp;
        match find_free (Z.to_nat BPB) d b 0 size with
        | Some bi =>
            bset bp (st8 d (bi / 8) (Z.lor (ld8 d (bi / 8)) (bitmask bi))) ;;
            log_write bp ;;
            brelse bp ;;
            bzero dev (b + bi) ;;
            ret (b + bi)
        | None => brelse bp ;; balloc_loop f dev (b + BPB) size
        end
      else ret 0
  end.
Definition balloc (dev : Z) : F Z :=
  do! size <- getsb size_;
  balloc_loop (Z.to_nat (size / BPB) + 1) dev 0 size.

Definition bfree (dev b : Z) : F unit :=
  do! s <- getsb (fun x => x);
  do! bp <- bread dev (BBLOCK b s);
  let bi := b mod BPB in
  do! d <- bdata bp;
  if Z.land (ld8 d (bi / 8)) (bitmask bi) =? 0 then panic "freeing free block"
  else
    bset bp (st8 d (bi / 8) (Z.land (ld8 d (bi / 8)) (Z.lnot (bitmask bi)))) ;;
    log_write bp ;;
    brelse bp.

(** ** Inodes *)

Definition iinit : F unit :=
  initlock "itable" ;;
  modify (fun s => mkfst (blks s) (usr s) (sb s) (map (set_ilk None) (itable s)) (fpid s) (cwd s) (fheld s)).

(** The sleep lock of an inode. *)
Definition acquiresleep (ip : nat) : F unit :=
  acquire "sleep lock" ;;
  do! l <- geti ip ilk;
  match l with
  | Some _ => hang
  | None => do! p <- gets fpid; seti ip (set_ilk (Some p)) ;; release "sleep lock"
  end.
Definition releasesleep (ip : nat) : F unit :=
  acquire "sleep lock" ;;
  seti ip (set_ilk None) ;;
  release "sleep lock".
Definition holdingsleep (ip : nat) : F bool :=
  acquire "sleep lock" ;;
  do! l <- geti ip ilk;
  do! p <- gets fpid;
  release "sleep lock" ;;
  ret (bool_decide (l = Some p)).

(** The table entry of (dev, inum), or the first unreferenced one. *)
Fixpoint iget_scan (l : list inode) (i : nat) (dev num : Z) (empty : option nat) : nat + option nat :=
  match l with
  | [] => inr empty
  | x :: l' =>
      if (0 <? iref x) && (idev x =? dev) && (inum x =? num) then inl i
      else iget_scan l' (i + 1) dev num
             (match empty with None => if iref x =? 0 then Some i else None | Some e => Some e end)
  end.

Definition iget (dev num : Z) : F nat :=
  acquire "itable" ;;
  do! l <- gets itable;
  match iget_scan l 0 dev num None with
  | inl i => seti i (set_iref (fun r => r + 1)) ;; release "itable" ;; ret i
  | inr None => panic "iget: no inodes"
  | inr (Some e) =>
      seti e (fun x => mkinode dev num 1 (ilk x) false (itype x) (imajor x) (iminor x) (inlink x) (isize x) (iaddrs x)) ;;
      release "itable" ;;
      ret e
  end.

(** The offset of the on-disk inode [inum] in its block. *)
Definition dip (num : Z) : Z := 64 * (num mod IPB).

Fixpoint ialloc_loop (fuel : nat) (dev type num n : Z) : F (option nat) :=
  match fuel with
  | O => ret None
  | Datatypes.S f =>
      if num <? n then
        do! s <- getsb (fun x => x);
        do! bp <- bread dev (IBLOCK num s);
        do! d <- bdata bp;
        if lds16 d (dip num) =? 0 then
          bset bp (st16 (memset d (dip num) 0 64) (dip num) type) ;;
          log_write bp ;;
          brelse bp ;;
          do! i <- iget dev num; ret (Some i)
        else brelse bp ;; ialloc_loop f dev type (num + 1) n
      else ret None
  end.
Definition ialloc (dev type : Z) : F (option nat) :=
  do! n <- getsb ninodes;
  ialloc_loop (Z.to_nat n) dev type 1 n.

Fixpoint put_addrs (d : block) (off : Z) (l : list Z) : block :=
  match l with [] => d | a :: l' => put_addrs (stw d off a) (off + 4) l' end.

(** The on-disk inode. *)
Definition put_dinode (x : inode) (d : block) : block :=
  let o := dip (inum x) in
  put_addrs (stw (st16 (st16 (st16 (st16 d o (itype x)) (o + 2) (imajor x)) (o + 4) (iminor x)) (o + 6) (inlink x))
    (o + 8) (isize x)) (o + 12) (iaddrs x).
Definition get_dinode (d : block) (x : inode) : inode :=
  let o := dip (inum x) in
  mkinode (idev x) (inum x) (iref x) (ilk x) (ivalid x) (lds16 d o) (lds16 d (o + 2)) (lds16 d (o + 4)) (lds16 d (o + 6))
    (ldw d (o + 8)) (map (fun i => ldw d (o + 12 + 4 * Z.of_nat i)) (seq 0 13)).

Definition iupdate (ip : nat) : F unit :=
  do! x <- geti ip (fun x => x);
  do! s <- getsb (fun x => x);
  do! bp <- bread (idev x) (IBLOCK (inum x) s);
  do! d <- bdata bp;
  bset bp (put_dinode x d) ;;
  log_write bp ;;
  brelse bp.

Definition idup (ip : nat) : F nat :=
  acquire "itable" ;;
  seti ip (set_iref (fun r => r + 1)) ;;
  release "itable" ;;
  ret ip.

Definition ilock (ip : nat) : F unit :=
  do! r <- geti ip iref;
  if r <? 1 then panic "ilock"
  else
    acquiresleep ip ;;
    do! v <- geti ip ivalid;
    if v then ret tt
    else
      do! x <- geti ip (fun x => x);
      do! s <- getsb (fun x => x);
      do! bp <- bread (idev x) (IBLOCK (inum x) s);
      do! d <- bdata bp;
      seti ip (get_dinode d) ;;
      brelse bp ;;
      seti ip (set_ivalid true) ;;
      do! t <- geti ip itype;
      if t =? 0 then panic "ilock: no type" else ret tt.

Definition iunlock (ip : nat) : F unit :=
  do! h <- holdingsleep ip;
  do! r <- geti ip iref;
  if negb h || (r <? 1) then panic "iunlock" else releasesleep ip.

(** ** Contents *)

Definition bmap (ip : nat) (bn : Z) : F Z :=
  do! dev <- geti ip idev;
  if bn <? NDIRECT then
    do! addr <- get_addr ip bn;
    if addr =? 0 then
      do! addr <- balloc dev;
      if addr =? 0 then ret 0 else set_addr ip bn addr ;; ret addr
    else ret addr
  else
    let bn := bn - NDIRECT in
    if bn <? NINDIRECT then
      do! addr <- get_addr ip NDIRECT;
      do! addr <- (if addr =? 0 then
                     do! addr <- balloc dev;
                     if addr =? 0 then ret 0 else set_addr ip NDIRECT addr ;; ret addr
                   else ret addr);
      if addr =? 0 then ret 0
      else
        do! bp <- bread dev addr;
        do! a <- bdata bp;
        let addr := ldw a (4 * bn) in
        do! addr <- (if addr =? 0 then
                       do! addr <- balloc dev;
                       (if addr =? 0 then ret tt else bset bp (stw a (4 * bn) addr) ;; log_write bp) ;;
                       ret addr
                     else ret addr);
        brelse bp ;;
        ret addr
    else panic "bmap: out of range".

Definition free_direct (ip : nat) (dev i : Z) : F unit :=
  do! a <- get_addr ip i;
  if a =? 0 then ret tt else bfree dev a ;; set_addr ip i 0.

Definition itrunc (ip : nat) : F unit :=
  do! dev <- geti ip idev;
  forz (Z.to_nat NDIRECT) 0 (free_direct ip dev) ;;
  do! ind <- get_addr ip NDIRECT;
  (if ind =? 0 then ret tt
   else
     do! bp <- bread dev ind;
     do! a <- bdata bp;
     forz (Z.to_nat NINDIRECT) 0 (fun j =>
       let b := ldw a (4 * j) in if b =? 0 then ret tt else bfree dev b) ;;
     brelse bp ;;
     bfree dev ind ;;
     set_addr ip NDIRECT 0) ;;
  seti ip (set_isize 0) ;;
  iupdate ip.

Definition iput (ip : nat) : F unit :=
  acquire "itable" ;;
  do! x <- geti ip (fun x => x);
  (if (iref x =? 1) && ivalid x && (inlink x =? 0) then
     acquiresleep ip ;;
     release "itable" ;;
     itrunc ip ;;
     seti ip (set_itype 0) ;;
     iupdate ip ;;
     seti ip (set_ivalid false) ;;
     releasesleep ip ;;
     acquire "itable"
   else ret tt) ;;
  seti ip (set_iref (fun r => r - 1)) ;;
  release "itable".

Definition iunlockput (ip : nat) : F unit := iunlock ip ;; iput ip.

Definition stati (ip : nat) : F stat :=
  geti ip (fun x => mkstat (idev x) (inum x) (itype x) (inlink x) (isize x)).

(** kernel/proc.c: copy to or from a user address or a kernel buffer.  For a
    kernel target the bytes are the call's result. *)
Definition either_copyout (t : target) (dst : Z) (bs : list Z) : F bool :=
  match t with
  | ToUser pt _ => usrop (copy_out pt dst bs)
  | ToKernel => ret true
  end.
Definition either_copyin (old : list Z) (o : origin) (src : Z) : F (list Z * bool) :=
  match o with
  | FromUser pt _ => usrop (copy_in pt src old)
  | FromKernel bytes => ret (take (length old) (drop (Z.to_nat src) bytes), true)
  end.
Definition target_addr (t : target) : Z := match t with ToUser _ a => a | ToKernel => 0 end.
Definition origin_addr (o : origin) : Z := match o with FromUser _ a => a | FromKernel _ => 0 end.

(** The result of [readi]: the count, and the bytes for a kernel buffer. *)
Fixpoint readi_loop (fuel : nat) (ip : nat) (t : target) (dst off tot n : Z) (got : list Z) : F (Z * list Z) :=
  match fuel with
  | O => hang
  | Datatypes.S f =>
      if tot <? n then
        do! dev <- geti ip idev;
        do! addr <- bmap ip (off / BSIZE);
        if addr =? 0 then ret (tot, got)
        else
          do! bp <- bread dev addr;
          let m := Z.min (n - tot) (BSIZE - off mod BSIZE) in
          do! d <- bdata bp;
          let bs := get_bytes d (off mod BSIZE) m in
          do! ok <- either_copyout t dst bs;
          if ok then brelse bp ;; readi_loop f ip t (u64 (dst + m)) (u32 (off + m)) (tot + m) n (got ++ bs)
          else brelse bp ;; ret (-1, got)
      else ret (tot, got)
  end.

Definition readi (ip : nat) (t : target) (off n : Z) : F (Z * list Z) :=
  do! size <- geti ip isize;
  if (size <? off) || (u32 (off + n) <? off) then ret (0, [])
  else
    let n := if size <? u32 (off + n) then size - off else n in
    readi_loop (Z.to_nat (n / BSIZE) + 3) ip t (target_addr t) off 0 n [].

Fixpoint writei_loop (fuel : nat) (ip : nat) (o : origin) (src off tot n : Z) : F (Z * Z) :=
  match fuel with
  | O => hang
  | Datatypes.S f =>
      if tot <? n then
        do! dev <- geti ip idev;
        do! addr <- bmap ip (off / BSIZE);
        if addr =? 0 then ret (tot, off)
        else
          do! bp <- bread dev addr;
          let m := Z.min (n - tot) (BSIZE - off mod BSIZE) in
          do! d <- bdata bp;
          do! r <- either_copyin (get_bytes d (off mod BSIZE) m) o src;
          bset bp (put_bytes d (off mod BSIZE) r.1) ;;
          if r.2 then log_write bp ;; brelse bp ;; writei_loop f ip o (u64 (src + m)) (u32 (off + m)) (tot + m) n
          else brelse bp ;; ret (tot, off)
      else ret (tot, off)
  end.

Definition writei (ip : nat) (o : origin) (off n : Z) : F Z :=
  do! size <- geti ip isize;
  if (size <? off) || (u32 (off + n) <? off) then ret (-1)
  else if MAXFILE * BSIZE <? u32 (off + n) then ret (-1)
  else
    do! r <- writei_loop (Z.to_nat (n / BSIZE) + 3) ip o (origin_addr o) off 0 n;
    (if size <? r.2 then seti ip (set_isize r.2) else ret tt) ;;
    iupdate ip ;;
    ret r.1.

(** ** Directories *)

Definition nthb (l : list Z) (i : nat) : Z := default 0 (l !! i).

(** [strncmp(s, t, DIRSIZ)] on the two name buffers. *)
Fixpoint namecmp_loop (n i : nat) (s t : list Z) : Z :=
  match n with
  | O => 0
  | Datatypes.S n' =>
      if negb (nthb s i =? 0) && (nthb s i =? nthb t i) then namecmp_loop n' (i + 1) s t
      else nthb s i - nthb t i
  end.
Definition namecmp (s t : list Z) : Z := namecmp_loop (Z.to_nat DIRSIZ) 0 s t.

(** [strncpy(de.name, name, DIRSIZ)]: zero-filled. *)
Fixpoint name_copy (n : nat) (t : list Z) : list Z :=
  match n with
  | O => []
  | Datatypes.S n' => match t with
                      | [] => replicate n 0
                      | c :: t' => if c =? 0 then replicate n 0 else c :: name_copy n' t'
                      end
  end.

(** [struct dirent]: 16 bytes. *)
Definition de_inum (bs : list Z) : Z := nthb bs 0 + 256 * nthb bs 1.
Definition de_name (bs : list Z) : list Z := drop 2 bs.
Definition dirent (num : Z) (name : list Z) : list Z :=
  [u16 num mod 256; u16 num / 256] ++ name_copy (Z.to_nat DIRSIZ) name.

Fixpoint dirlookup_loop (fuel : nat) (dp : nat) (name : list Z) (off size : Z) : F (option (nat * Z)) :=
  match fuel with
  | O => hang
  | Datatypes.S f =>
      if off <? size then
        do! r <- readi dp ToKernel off 16;
        if negb (r.1 =? 16) then panic "dirlookup read"
        else if de_inum r.2 =? 0 then dirlookup_loop f dp name (u32 (off + 16)) size
        else if namecmp name (de_name r.2) =? 0 then
          do! dev <- geti dp idev;
          do! i <- iget dev (de_inum r.2);
          ret (Some (i, off))
        else dirlookup_loop f dp name (u32 (off + 16)) size
      else ret None
  end.
Definition dirlookup (dp : nat) (name : list Z) : F (option (nat * Z)) :=
  do! t <- geti dp itype;
  if negb (t =? T_DIR) then panic "dirlookup not DIR"
  else do! size <- geti dp isize; dirlookup_loop (Z.to_nat (size / 16) + 2) dp name 0 size.

(** The offset of the first empty entry, or the end. *)
Fixpoint dirlink_loop (fuel : nat) (dp : nat) (off size : Z) : F Z :=
  match fuel with
  | O => hang
  | Datatypes.S f =>
      if off <? size then
        do! r <- readi dp ToKernel off 16;
        if negb (r.1 =? 16) then panic "dirlink read"
        else if de_inum r.2 =? 0 then ret off
        else dirlink_loop f dp (off + 16) size
      else ret off
  end.
Definition dirlink (dp : nat) (name : list Z) (num : Z) : F Z :=
  do! l <- dirlookup dp name;
  match l with
  | Some (ip, _) => iput ip ;; ret (-1)
  | None =>
      do! size <- geti dp isize;
      do! off <- dirlink_loop (Z.to_nat (size / 16) + 2) dp 0 size;
      do! r <- writei dp (FromKernel (dirent num name)) off 16;
      if negb (r =? 16) then ret (-1) else ret 0
  end.

(** ** Paths: a C string is the list of its bytes before the NUL. *)
Definition SLASH : Z := 47.

Fixpoint skip_slashes (path : list Z) : list Z :=
  match path with c :: path' => if c =? SLASH then skip_slashes path' else path | [] => [] end.
Fixpoint take_elem (path : list Z) : list Z * list Z :=
  match path with
  | c :: path' => if c =? SLASH then ([], path) else let '(e, r) := take_elem path' in (c :: e, r)
  | [] => ([], [])
  end.

(** The rest of the path and the name buffer, or [None] for a null result;
    [name] is the buffer before, whose bytes after the terminator stay. *)
Definition skipelem (path name : list Z) : option (list Z * list Z) :=
  match skip_slashes path with
  | [] => None
  | p =>
      let '(e, rest) := take_elem p in
      let len := Z.of_nat (length e) in
      let name' := if DIRSIZ <=? len then take (Z.to_nat DIRSIZ) e else e ++ [0] ++ drop (length e + 1) name in
      Some (skip_slashes rest, name')
  end.

Fixpoint namex_loop (fuel : nat) (ip : nat) (path : list Z) (parent : bool) (name : list Z) : F (option (nat * list Z)) :=
  match fuel with
  | O => hang
  | Datatypes.S f =>
      match skipelem path name with
      | None => if parent then iput ip ;; ret None else ret (Some (ip, name))
      | Some (path', name') =>
          ilock ip ;;
          do! t <- geti ip itype;
          if negb (t =? T_DIR) then iunlockput ip ;; ret None
          else if parent && bool_decide (path' = []) then iunlock ip ;; ret (Some (ip, name'))
          else
            do! next <- dirlookup ip name';
            match next with
            | None => iunlockput ip ;; ret None
            | Some (nx, _) => iunlockput ip ;; namex_loop f nx path' parent name'
            end
      end
  end.
Definition namex (path : list Z) (parent : bool) (name : list Z) : F (option (nat * list Z)) :=
  do! ip <- (if nthb path 0 =? SLASH then iget ROOTDEV ROOTINO else do! c <- gets cwd; idup c);
  namex_loop (Datatypes.S (length path)) ip path parent name.
Definition namei (path : list Z) : F (option nat) :=
  do! r <- namex path false (replicate (Z.to_nat DIRSIZ) 0);
  ret (match r with Some (ip, _) => Some ip | None => None end).
Definition nameiparent (path name : list Z) : F (option (nat * list Z)) := namex path true name.
End Fs.
