(* ===== verification/FsBlocks.v ===== *)
(** * Reading, logging and allocating blocks

    The calls of kernel/fs.c on the block layer, and its free map: [balloc]
    takes a block that is free and [bfree] gives it back. *)

From S2P Require Import Prelude Riscv Mem Lock Bio Blocks UserIO Fs.
Import KString.
Local Open Scope Z_scope.

(** The transaction has room for the blocks [bs]. *)
Definition fits (lg : gset Z) (bs : gset Z) : Prop := Z.of_nat (size (bs ∪ lg)) <= MAXOPBLOCKS.

Lemma fits_in lg bs b : fits lg bs -> b ∈ bs -> b ∈ lg \/ Z.of_nat (size lg) < MAXOPBLOCKS.
Proof.
  intros H Hb. destruct (decide (b ∈ lg)) as [|Hn]; [by left|right]. unfold fits in H.
  assert (size ({[b]} ∪ lg) <= size (bs ∪ lg))%nat as Hle by (apply subseteq_size; set_solver).
  rewrite size_union in Hle by set_solver. rewrite size_singleton in Hle. lia.
Qed.

Lemma size_add (b : Z) (lg : gset Z) : (size ({[b]} ∪ lg) <= 1 + size lg)%nat.
Proof.
  destruct (decide (b ∈ lg)) as [H|H].
  - replace ({[b]} ∪ lg) with lg by set_solver. lia.
  - rewrite size_union, size_singleton by set_solver. lia.
Qed.

Lemma fits_mono lg bs lg' bs' : fits lg bs -> bs' ∪ lg' ⊆ bs ∪ lg -> fits lg' bs'.
Proof. unfold fits. intros H Hs. apply subseteq_size in Hs. lia. Qed.

Section Blocks.
Context {S U : Type} {HB : Blocks S} {HU : UserSpace U}.
Abbreviation F := (M (fst S U)).

Definition with_blks (b : S) (s : fst S U) : fst S U :=
  mkfst b (usr s) (sb s) (itable s) (fpid s) (cwd s) (fheld s).

Lemma with_blks_twice b b' s : with_blks b (with_blks b' s) = with_blks b s.
Proof. done. Qed.
Lemma with_blks_id s : with_blks (blks s) s = s.
Proof. by destruct s. Qed.

Lemma blkop_ok {A} (c : M S A) s a b' : c (blks s) = Ok a b' -> blkop c s = Ok a (with_blks b' s).
Proof. intros E. unfold blkop, zoom. by rewrite E. Qed.

Section Calls.
Context {v : contents} {hs : holding} {lg : gset Z} {s : fst S U} (Hr : brep (blks s) v hs lg).

Lemma bread_ok b : fsblock b -> hs !! b = None -> (size hs < 4)%nat ->
  exists h b', bread fsdev b s = Ok h (with_blks b' s) /\ brep b' v (<[b := (h, v b)]> hs) lg.
Proof.
  intros Hb Hh Hn. destruct (b_read_law _ _ _ _ b Hr Hb Hh Hn) as (h & b' & E & Hr'). exists h, b'. split; [|done].
  by apply blkop_ok.
Qed.

Context {b : Z} {h : nat} {d : block} (Hb : hs !! b = Some (h, d)).

Lemma bdata_ok : bdata h s = Ok d s.
Proof. unfold bdata. rewrite (blkop_ok _ _ _ _ (b_data_law _ _ _ _ b h d Hr Hb)). by rewrite with_blks_id. Qed.

Lemma bset_ok d' : exists b', bset h d' s = Ok tt (with_blks b' s) /\ brep b' v (<[b := (h, d')]> hs) lg.
Proof.
  destruct (b_set_law _ _ _ _ b h d d' Hr Hb) as (b' & E & Hr'). exists b'. split; [|done]. by apply blkop_ok.
Qed.

Lemma log_write_ok : b ∈ lg \/ Z.of_nat (size lg) < MAXOPBLOCKS ->
  exists b', log_write h s = Ok tt (with_blks b' s) /\ brep b' (setv b d v) hs ({[b]} ∪ lg).
Proof.
  intros Hl. destruct (b_log_law _ _ _ _ b h d Hr Hb Hl) as (b' & E & Hr'). exists b'. split; [|done]. by apply blkop_ok.
Qed.

Lemma brelse_ok : d = v b -> exists b', brelse h s = Ok tt (with_blks b' s) /\ brep b' v (delete b hs) lg.
Proof.
  intros Hd. destruct (b_rel_law _ _ _ _ b h d Hr Hb Hd) as (b' & E & Hr'). exists b'. split; [|done]. by apply blkop_ok.
Qed.
End Calls.

(** The idioms of the code. *)

(** Change a held block, log it and release it. *)
Lemma update_held v hs lg s b h d f : brep (blks s) v (<[b := (h, d)]> hs) lg -> hs !! b = None ->
  b ∈ lg \/ Z.of_nat (size lg) < MAXOPBLOCKS ->
  exists b', (bset h f ;; log_write h ;; brelse h) s = Ok tt (with_blks b' s) /\
    brep b' (setv b f v) hs ({[b]} ∪ lg).
Proof.
  intros Hr Hh Hl.
  destruct (bset_ok Hr (lookup_insert_eq _ _ _) f) as (b1 & E1 & Hr1). rewrite insert_insert_eq in Hr1.
  destruct (log_write_ok (s := with_blks b1 s) Hr1 (lookup_insert_eq _ _ _) Hl) as (b2 & E2 & Hr2).
  destruct (brelse_ok (s := with_blks b2 (with_blks b1 s)) Hr2 (lookup_insert_eq _ _ _)) as (b3 & E3 & Hr3).
  { unfold setv. by rewrite decide_True. }
  exists b3. rewrite (bind_ok _ _ _ _ _ E1), (bind_ok _ _ _ _ _ E2), E3. split; [done|].
  by rewrite delete_insert_eq, delete_id in Hr3 by done.
Qed.

(** A block that was only looked at. *)
Lemma release_held v hs lg s b h : brep (blks s) v (<[b := (h, v b)]> hs) lg -> hs !! b = None ->
  exists b', brelse h s = Ok tt (with_blks b' s) /\ brep b' v hs lg.
Proof.
  intros Hr Hh. destruct (brelse_ok Hr (lookup_insert_eq _ _ _) eq_refl) as (b1 & E1 & Hr1). exists b1. split; [done|].
  by rewrite delete_insert_eq, delete_id in Hr1 by done.
Qed.

(** Look at a block. *)
Lemma peek_block v hs lg s b : brep (blks s) v hs lg -> fsblock b -> hs !! b = None -> (size hs < 4)%nat ->
  exists h b1, bread fsdev b s = Ok h (with_blks b1 s) /\ bdata h (with_blks b1 s) = Ok (v b) (with_blks b1 s) /\
    brep b1 v (<[b := (h, v b)]> hs) lg.
Proof.
  intros Hr Hb Hh Hn. destruct (bread_ok Hr b Hb Hh Hn) as (h & b1 & E1 & Hr1). exists h, b1. split; [done|]. split; [|done].
  exact (bdata_ok (s := with_blks b1 s) Hr1 (lookup_insert_eq _ _ _)).
Qed.

(** ** The free map *)

Definition zero_block (d : block) : Prop := forall i, 0 <= i < BSIZE -> ld8 d i = 0.

Definition bit_used (d : block) (bi : Z) : bool := negb (Z.land (ld8 d (bi / 8)) (bitmask bi) =? 0).
Definition used (sb : superblock) (v : contents) (b : Z) : bool := bit_used (v (BBLOCK b sb)) (b mod BPB).

Lemma bit_used_testbit d bi : bit_used d bi = Z.testbit (ld8 d (bi / 8)) (bi mod 8).
Proof.
  unfold bit_used, bitmask. rewrite Z.shiftl_1_l. apply (hasbit_pow2 (ld8 d (bi / 8)) (bi mod 8)).
  apply Z.mod_pos_bound. done.
Qed.

Lemma ld8_bits d o i : 8 <= i -> Z.testbit (ld8 d o) i = false.
Proof. intros H. apply (bits_high _ 8); [apply ld8_range|done]. Qed.

(** Setting a bit, clearing a bit. *)
Definition mark (d : block) (bi : Z) : block := st8 d (bi / 8) (Z.lor (ld8 d (bi / 8)) (bitmask bi)).
Definition unmark (d : block) (bi : Z) : block := st8 d (bi / 8) (Z.land (ld8 d (bi / 8)) (Z.lnot (bitmask bi))).

Lemma mod8 bi : 0 <= bi mod 8 < 8.
Proof. by apply Z.mod_pos_bound. Qed.

Lemma same_bit bi bj : bi / 8 = bj / 8 -> bi mod 8 = bj mod 8 -> bi = bj.
Proof. intros H1 H2. rewrite (Z.div_mod bi 8), (Z.div_mod bj 8), H1, H2 by done. done. Qed.

Lemma bit_used_mark d bi bj : bit_used (mark d bi) bj = (bi =? bj) || bit_used d bj.
Proof.
  rewrite !bit_used_testbit. unfold mark. rewrite ld8_st8. pose proof (mod8 bi). pose proof (mod8 bj).
  destruct (Z.eqb_spec (bi / 8) (bj / 8)) as [E|E].
  - unfold u8. rewrite Z.mod_pow2_bits_low by lia. unfold bitmask.
    rewrite Z.shiftl_1_l, Z.lor_spec, Z.pow2_bits_eqb, E by lia. rewrite orb_comm. f_equal.
    apply eq_true_iff_eq. rewrite !Z.eqb_eq. split; [|by intros ->]. by apply same_bit.
  - destruct (Z.eqb_spec bi bj) as [->|]; [done|]. done.
Qed.

Lemma bit_used_unmark d bi bj : bit_used (unmark d bi) bj = negb (bi =? bj) && bit_used d bj.
Proof.
  rewrite !bit_used_testbit. unfold unmark. rewrite ld8_st8. pose proof (mod8 bi). pose proof (mod8 bj).
  destruct (Z.eqb_spec (bi / 8) (bj / 8)) as [E|E].
  - unfold u8. rewrite Z.mod_pow2_bits_low by lia. unfold bitmask.
    rewrite Z.shiftl_1_l, Z.land_spec, Z.lnot_spec, Z.pow2_bits_eqb, E by lia. rewrite andb_comm. f_equal. f_equal.
    apply eq_true_iff_eq. rewrite !Z.eqb_eq. split; [|by intros ->]. by apply same_bit.
  - destruct (Z.eqb_spec bi bj) as [->|]; [done|]. done.
Qed.

Lemma find_free_spec d b size : forall fuel bi, 0 <= bi ->
  match find_free fuel d b bi size with
  | Some bj => bi <= bj < BPB /\ b + bj < size /\ bit_used d bj = false /\ forall k, bi <= k < bj -> bit_used d k = true
  | None => forall k, bi <= k < bi + Z.of_nat fuel -> k < BPB -> b + k < size -> bit_used d k = true
  end.
Proof.
  induction fuel as [|f IH]; intros bi Hbi; cbn [find_free]; [intros k; lia|].
  destruct ((bi <? BPB) && (b + bi <? size)) eqn:Eg.
  - apply andb_true_iff in Eg as [E1 E2]. boolz.
    destruct (Z.land (ld8 d (bi / 8)) (bitmask bi) =? 0) eqn:Eb.
    + split; [lia|]. split; [lia|]. split; [unfold bit_used; by rewrite Eb|]. intros k; lia.
    + assert (bit_used d bi = true) as Hu by (unfold bit_used; by rewrite Eb).
      specialize (IH (bi + 1) ltac:(lia)). destruct (find_free f d b (bi + 1) size) as [bj|].
      * destruct IH as (H1 & H2 & H3 & H4). split; [lia|]. split; [done|]. split; [done|]. intros k Hk.
        destruct (decide (k = bi)) as [->|]; [done|]. apply H4. lia.
      * intros k Hk H1 H2. destruct (decide (k = bi)) as [->|]; [done|]. apply IH; lia.
  - apply andb_false_iff in Eg. intros k Hk H1 H2. destruct Eg; boolz; lia.
Qed.

(** ** Layout of the disk *)

(** The data blocks. *)
Definition data_block (sb : superblock) (b : Z) : Prop := bmapstart sb + size_ sb / BPB + 1 <= b < size_ sb.

Record layout (sb : superblock) : Prop := {
  la_size : 0 < size_ sb < 2 ^ 31;
  la_inode : 0 < inodestart sb;
  la_inodes : 0 <= ninodes sb /\ inodestart sb + ninodes sb / IPB < bmapstart sb;
  la_bmap : bmapstart sb + size_ sb / BPB + 1 <= size_ sb;
  la_blocks : forall b, inodestart sb <= b < size_ sb -> fsblock b
}.

(** Every block that is not a data block is marked in use. *)
Definition meta_used (sb : superblock) (v : contents) : Prop :=
  forall b, 0 <= b < size_ sb -> used sb v b = false -> data_block sb b.

Lemma BBLOCK_eq sb b : layout sb -> 0 <= b < size_ sb -> BBLOCK b sb = b / BPB + bmapstart sb.
Proof.
  intros [Hs Hi Hn Hm _] Hb. unfold BBLOCK. apply u32_small.
  assert (0 <= b / BPB <= size_ sb / BPB) by (split; [apply Z.div_pos; [lia|done]|apply Z.div_le_mono; [done|lia]]).
  assert (0 <= ninodes sb / IPB) by (apply Z.div_pos; [lia|done]).
  change BPB with 8192 in *. lia.
Qed.

Lemma BBLOCK_range sb b : layout sb -> 0 <= b < size_ sb ->
  inodestart sb <= BBLOCK b sb < size_ sb /\ ~ data_block sb (BBLOCK b sb) /\ bmapstart sb <= BBLOCK b sb.
Proof.
  intros Hl Hb. rewrite BBLOCK_eq by done. destruct Hl as [Hs Hi Hn Hm _]. unfold data_block.
  assert (0 <= b / BPB <= size_ sb / BPB) by (split; [apply Z.div_pos; [lia|done]|apply Z.div_le_mono; [done|lia]]).
  assert (0 <= ninodes sb / IPB) by (apply Z.div_pos; [lia|done]). lia.
Qed.

Lemma data_pos sb b : layout sb -> data_block sb b -> 0 < b < size_ sb /\ inodestart sb <= b.
Proof.
  intros [Hs Hi Hn Hm _] Hb. unfold data_block in Hb.
  assert (0 <= size_ sb / BPB) by (apply Z.div_pos; [lia|done]).
  assert (0 <= ninodes sb / IPB) by (apply Z.div_pos; [lia|done]). lia.
Qed.

Lemma data_fsblock sb b : layout sb -> data_block sb b -> fsblock b.
Proof. intros Hl Hb. destruct (data_pos sb b Hl Hb). apply (la_blocks _ Hl). lia. Qed.

Lemma bmap_fsblock sb b : layout sb -> 0 <= b < size_ sb -> fsblock (BBLOCK b sb).
Proof. intros Hl Hb. destruct (BBLOCK_range sb b Hl Hb) as (? & _). by apply (la_blocks _ Hl). Qed.

(** Held blocks are data blocks in use. *)
Definition holds_data (sb : superblock) (v : contents) (hs : holding) : Prop :=
  map_Forall (fun b _ => data_block sb b /\ used sb v b = true) hs.

Lemma held_not_bmap sb v hs b : layout sb -> holds_data sb v hs -> 0 <= b < size_ sb -> hs !! BBLOCK b sb = None.
Proof.
  intros Hl Hh Hb. destruct (hs !! BBLOCK b sb) as [x|] eqn:E; [|done]. destruct (Hh _ _ E) as [Hd _].
  by destruct (BBLOCK_range sb b Hl Hb) as (_ & ? & _).
Qed.

Lemma held_not_free sb v hs b : holds_data sb v hs -> used sb v b = false -> hs !! b = None.
Proof.
  intros Hh Hb. destruct (hs !! b) as [x|] eqn:E; [|done]. destruct (Hh _ _ E) as [_ Hu]. congruence.
Qed.

(** The contents after block [b] has been taken: its bit is set, it is zero. *)
Definition zeroed (d : block) : block := memset d 0 0 BSIZE.
Definition taken_block (sb : superblock) (v : contents) (b : Z) : contents :=
  let v1 := setv (BBLOCK b sb) (mark (v (BBLOCK b sb)) (b mod BPB)) v in setv b (zeroed (v1 b)) v1.

Lemma zeroed_zero d : zero_block (zeroed d).
Proof.
  intros i Hi. unfold zeroed. rewrite memset_spec by done. rewrite (proj2 (inrange_true _ _ _)) by lia. done.
Qed.

Lemma bzero_spec v hs lg s b : brep (blks s) v hs lg -> fsblock b -> hs !! b = None -> (size hs < 4)%nat ->
  b ∈ lg \/ Z.of_nat (size lg) < MAXOPBLOCKS ->
  exists b', bzero fsdev b s = Ok tt (with_blks b' s) /\ brep b' (setv b (zeroed (v b)) v) hs ({[b]} ∪ lg).
Proof.
  intros Hr Hb Hh Hn Hl. destruct (peek_block v hs lg s b Hr Hb Hh Hn) as (h & b1 & E1 & E2 & Hr1).
  destruct (update_held v hs lg (with_blks b1 s) b h (v b) (zeroed (v b)) Hr1 Hh Hl) as (b2 & E3 & Hr2).
  exists b2. unfold bzero. rewrite (bind_ok _ _ _ _ _ E1), (bind_ok _ _ _ _ _ E2). split; [exact E3|exact Hr2].
Qed.

Lemma seq3 {A B C D} (c1 : F A) (c2 : F B) (c3 : F C) (k : F D) s :
  (c1 ;; c2 ;; c3 ;; k) s = ((c1 ;; c2 ;; c3) ;; k) s.
Proof. unfold bind. destruct (c1 s) as [? s1| | |]; try done. by destruct (c2 s1). Qed.

(** The transaction can log a block of the free map and one more. *)
Definition room_bmap (sb : superblock) (lg : gset Z) : Prop :=
  forall b, 0 <= b < size_ sb -> Z.of_nat (size ({[BBLOCK b sb]} ∪ lg)) < MAXOPBLOCKS.

Section Balloc.
Context {v : contents} {hs : holding} {lg : gset Z} (Hn : (size hs < 4)%nat).

Lemma balloc_take s b bi : let sb := sb s in
  layout sb -> meta_used sb v -> holds_data sb v hs ->
  b mod BPB = 0 -> 0 <= b -> 0 <= bi < BPB -> b + bi < size_ sb -> bit_used (v (BBLOCK b sb)) bi = false ->
  room_bmap sb lg ->
  forall h b1, brep b1 v (<[BBLOCK b sb := (h, v (BBLOCK b sb))]> hs) lg ->
  exists b2, (bset h (mark (v (BBLOCK b sb)) bi) ;; log_write h ;; brelse h ;; bzero fsdev (b + bi) ;; ret (b + bi))
      (with_blks b1 s) = Ok (b + bi) (with_blks b2 s) /\
    used sb v (b + bi) = false /\ data_block sb (b + bi) /\
    brep b2 (taken_block sb v (b + bi)) hs ({[b + bi]} ∪ ({[BBLOCK (b + bi) sb]} ∪ lg)).
Proof.
  intros sb Hl Hm Hh Hbm Hb0 Hbi Hlt Hfree Hroom h b1 Hr.
  assert ((b + bi) mod BPB = bi) as Em.
  { rewrite <- Zplus_mod_idemp_l, Hbm, Z.add_0_l. by apply Z.mod_small. }
  assert (BBLOCK (b + bi) sb = BBLOCK b sb) as Eb.
  { rewrite !BBLOCK_eq by (done || lia). f_equal. pose proof (Z.div_mod b BPB ltac:(done)).
    pose proof (Z.div_mod (b + bi) BPB ltac:(done)). change BPB with 8192 in *. lia. }
  assert (used sb v (b + bi) = false) as Hu by (unfold used; by rewrite Eb, Em).
  assert (data_block sb (b + bi)) as Hd by (apply Hm; [lia|done]).
  pose proof (held_not_bmap sb v hs b Hl Hh ltac:(lia)) as Hnb.
  destruct (update_held v hs lg (with_blks b1 s) _ h _ (mark (v (BBLOCK b sb)) bi) Hr Hnb) as (b2 & E2 & Hr2).
  { right. pose proof (Hroom b ltac:(lia)). pose proof (subseteq_size lg ({[BBLOCK b sb]} ∪ lg) ltac:(set_solver)). lia. }
  pose proof (held_not_free sb v hs _ Hh Hu) as Hnf.
  destruct (bzero_spec _ hs _ (with_blks b2 (with_blks b1 s)) (b + bi) Hr2 (data_fsblock _ _ Hl Hd) Hnf Hn) as (b3 & E3 & Hr3).
  { right. apply Hroom. lia. }
  exists b3. split; [|split; [done|split; [done|]]].
  - rewrite seq3, (bind_ok _ _ _ _ _ E2). by rewrite (bind_ok _ _ _ _ _ E3).
  - unfold taken_block. rewrite Eb, Em. exact Hr3.
Qed.

Lemma balloc_loop_spec : forall fuel b s, let sb := sb s in
  brep (blks s) v hs lg -> layout sb -> meta_used sb v -> holds_data sb v hs ->
  room_bmap sb lg ->
  b mod BPB = 0 -> 0 <= b -> size_ sb <= b + Z.of_nat fuel * BPB ->
  (forall c, 0 <= c < b -> c < size_ sb -> used sb v c = true) ->
  (exists c b', balloc_loop fuel fsdev b (size_ sb) s = Ok c (with_blks b' s) /\
     used sb v c = false /\ data_block sb c /\
     brep b' (taken_block sb v c) hs ({[c]} ∪ ({[BBLOCK c sb]} ∪ lg))) \/
  (exists b', balloc_loop fuel fsdev b (size_ sb) s = Ok 0 (with_blks b' s) /\ brep b' v hs lg /\
     forall c, 0 <= c < size_ sb -> used sb v c = true).
Proof.
  induction fuel as [|f IH]; intros b s sb Hr Hl Hm Hh Hroom Hbm Hb0 Hf Hall; cbn [balloc_loop].
  { right. exists (blks s). rewrite with_blks_id. split; [done|]. split; [done|]. intros c Hc. apply Hall; lia. }
  destruct (Z.ltb_spec b (size_ sb)) as [Hlt|Hge].
  2:{ right. exists (blks s). rewrite with_blks_id. split; [done|]. split; [done|]. intros c Hc. apply Hall; lia. }
  rewrite (bind_ok _ _ s sb s) by done.
  destruct (peek_block v hs lg s (BBLOCK b sb) Hr) as (h & b1 & E1 & E2 & Hr1);
    [by apply bmap_fsblock|by eapply held_not_bmap|done|].
  rewrite (bind_ok _ _ _ _ _ E1), (bind_ok _ _ _ _ _ E2).
  pose proof (find_free_spec (v (BBLOCK b sb)) b (size_ sb) (Z.to_nat BPB) 0 ltac:(done)) as Hff.
  destruct (find_free (Z.to_nat BPB) (v (BBLOCK b sb)) b 0 (size_ sb)) as [bi|].
  - destruct Hff as (Hbi & Hlt' & Hfree & _).
    destruct (balloc_take s b bi Hl Hm Hh Hbm Hb0 Hbi Hlt' Hfree Hroom h b1 Hr1) as (b2 & E3 & Hu & Hd & Hr2).
    left. exists (b + bi), b2. done.
  - destruct (release_held v hs lg (with_blks b1 s) _ h Hr1) as (b2 & E3 & Hr2); [by eapply held_not_bmap|].
    rewrite (bind_ok _ _ _ _ _ E3). rewrite with_blks_twice.
    apply (IH (b + BPB) (with_blks b2 s)); try done.
    + rewrite <- Zplus_mod_idemp_l, Hbm. done.
    + change BPB with 8192. lia.
    + change BPB with 8192 in *. change (size_ sb <= b + 8192 + Z.of_nat f * 8192). lia.
    + intros c Hc Hc'. change (c < size_ sb) in Hc'. destruct (decide (c < b)) as [Hcb|Hcb]; [apply Hall; lia|].
      assert (BBLOCK c sb = BBLOCK b sb /\ c mod BPB = c - b) as [Ec Em].
      { rewrite !BBLOCK_eq by (done || lia). pose proof (Z.div_mod b BPB ltac:(done)). pose proof (Z.div_mod c BPB ltac:(done)).
        pose proof (Z.mod_pos_bound c BPB ltac:(done)). change BPB with 8192 in *. split; [f_equal|]; lia. }
      change (used sb v c = true). unfold used. rewrite Ec, Em. apply Hff; change (Z.of_nat (Z.to_nat BPB)) with 8192; change BPB with 8192 in *; lia.
Qed.

(** A block is taken while one is free. *)
Lemma balloc_spec s : let sb := sb s in
  brep (blks s) v hs lg -> layout sb -> meta_used sb v -> holds_data sb v hs ->
  room_bmap sb lg ->
  (exists c b', balloc fsdev s = Ok c (with_blks b' s) /\ used sb v c = false /\ data_block sb c /\
     brep b' (taken_block sb v c) hs ({[c]} ∪ ({[BBLOCK c sb]} ∪ lg))) \/
  (exists b', balloc fsdev s = Ok 0 (with_blks b' s) /\ brep b' v hs lg /\
     forall c, 0 <= c < size_ sb -> used sb v c = true).
Proof.
  intros sb Hr Hl Hm Hh Hroom. unfold balloc. rewrite (bind_ok _ _ s (size_ sb) s) by done.
  apply balloc_loop_spec; try done; [|intros; lia].
  pose proof (la_size _ Hl). change (Fs.sb s) with sb. rewrite Nat2Z.inj_add, Z2Nat.id by (apply Z.div_pos; [lia|done]).
  pose proof (Z.div_mod (size_ sb) BPB ltac:(done)). pose proof (Z.mod_pos_bound (size_ sb) BPB ltac:(done)).
  change BPB with 8192 in *. lia.
Qed.
End Balloc.
End Blocks.
