(* ===== verification/FsFiles.v ===== *)
(** * The blocks of a file

    Which block holds which part of a file, and what [bmap] does to it. *)

From S2P Require Import Prelude Riscv Mem Lock Bio Blocks UserIO Fs FsBlocks.
Import KString.
Local Open Scope Z_scope.

(** ** Taking and giving back a block *)
Section FreeMap.
Context {S : Type} {HB : Blocks S} {sb : superblock} (Hl : layout sb).

Definition is_bmap (b : Z) : Prop := exists c, 0 <= c < size_ sb /\ b = BBLOCK c sb.

Lemma data_not_bmap b : data_block sb b -> ~ is_bmap b.
Proof. intros Hd (c & Hc & ->). by destruct (BBLOCK_range sb c Hl Hc) as (_ & ? & _). Qed.

Lemma data_index b : data_block sb b -> 0 <= b < size_ sb.
Proof. intros H. destruct (data_pos sb b Hl H). lia. Qed.

Lemma setv_eq b d v : setv b d v b = d.
Proof. unfold setv. by rewrite decide_True. Qed.
Lemma setv_ne b d v c : c <> b -> setv b d v c = v c.
Proof. intros H. unfold setv. by rewrite decide_False. Qed.

Lemma same_bmap b c : 0 <= b < size_ sb -> 0 <= c < size_ sb -> BBLOCK b sb = BBLOCK c sb -> b mod BPB = c mod BPB -> b = c.
Proof.
  intros Hb Hc E1 E2. rewrite !(BBLOCK_eq sb) in E1 by done.
  rewrite (Z.div_mod b BPB), (Z.div_mod c BPB), E2 by done. replace (b / BPB) with (c / BPB) by lia. done.
Qed.

Lemma taken_other v c b : b <> c -> b <> BBLOCK c sb -> taken_block sb v c b = v b.
Proof. intros H1 H2. unfold taken_block. by rewrite !setv_ne. Qed.

Lemma taken_at v c : zero_block (taken_block sb v c c).
Proof. unfold taken_block. rewrite setv_eq. apply zeroed_zero. Qed.

Lemma used_set v c d b : 0 <= b < size_ sb -> 0 <= c < size_ sb ->
  used sb (setv (BBLOCK c sb) d v) b = if decide (BBLOCK b sb = BBLOCK c sb) then bit_used d (b mod BPB) else used sb v b.
Proof. intros Hb Hc. unfold used, setv. by destruct (decide (BBLOCK b sb = BBLOCK c sb)). Qed.

Lemma used_data v c d b : data_block sb c -> 0 <= b < size_ sb -> used sb (setv c d v) b = used sb v b.
Proof.
  intros Hc Hb. unfold used. rewrite setv_ne; [done|]. intros E. apply (data_not_bmap c Hc). by exists b.
Qed.

Lemma used_taken v c b : data_block sb c -> 0 <= b < size_ sb ->
  used sb (taken_block sb v c) b = (c =? b) || used sb v b.
Proof.
  intros Hc Hb. unfold taken_block. rewrite used_data, used_set by (done || by apply data_index).
  case_decide as E.
  - rewrite bit_used_mark. unfold used. rewrite E. f_equal. apply eq_true_iff_eq. rewrite !Z.eqb_eq. split; [|by intros ->].
    intros Em. symmetry. apply same_bmap; try done. by apply data_index.
  - destruct (Z.eqb_spec c b) as [->|]; [done|]. done.
Qed.

Lemma meta_taken v c : data_block sb c -> meta_used sb v -> meta_used sb (taken_block sb v c).
Proof. intros Hc Hm b Hb. rewrite used_taken by done. destruct (c =? b); [done|]. cbn. by apply Hm. Qed.

Lemma meta_data v c d : data_block sb c -> meta_used sb v -> meta_used sb (setv c d v).
Proof. intros Hc Hm b Hb. rewrite used_data by done. by apply Hm. Qed.

Definition given_block (v : contents) (b : Z) : contents :=
  setv (BBLOCK b sb) (unmark (v (BBLOCK b sb)) (b mod BPB)) v.

Lemma used_given v c b : 0 <= c < size_ sb -> 0 <= b < size_ sb ->
  used sb (given_block v c) b = negb (c =? b) && used sb v b.
Proof.
  intros Hc Hb. unfold given_block. rewrite used_set by done. case_decide as E.
  - rewrite bit_used_unmark. unfold used. rewrite E. f_equal. f_equal. apply eq_true_iff_eq. rewrite !Z.eqb_eq.
    split; [|by intros ->]. intros Em. symmetry. by apply same_bmap.
  - destruct (Z.eqb_spec c b) as [->|]; [done|]. done.
Qed.
End FreeMap.

Section Bfree.
Context {S U : Type} {HB : Blocks S} {HU : UserSpace U}.

Lemma bfree_spec v hs lg (s : fst S U) b : brep (blks s) v hs lg -> layout (sb s) -> 0 <= b < size_ (sb s) ->
  hs !! BBLOCK b (sb s) = None -> (size hs < 4)%nat ->
  BBLOCK b (sb s) ∈ lg \/ Z.of_nat (size lg) < MAXOPBLOCKS ->
  if used (sb s) v b then
    exists b', bfree fsdev b s = Ok tt (with_blks b' s) /\ brep b' (given_block (sb := sb s) v b) hs ({[BBLOCK b (sb s)]} ∪ lg)
  else bfree fsdev b s = Panic "freeing free block".
Proof.
  intros Hr Hl Hb Hh Hn Hlog. unfold bfree. rewrite (bind_ok _ _ s (sb s) s) by done.
  destruct (peek_block v hs lg s (BBLOCK b (sb s)) Hr (bmap_fsblock _ _ Hl Hb) Hh Hn) as (h & b1 & E1 & E2 & Hr1).
  rewrite (bind_ok _ _ _ _ _ E1). cbn zeta. rewrite (bind_ok _ _ _ _ _ E2). unfold used, bit_used.
  destruct (Z.land (ld8 (v (BBLOCK b (sb s))) (b mod BPB / 8)) (bitmask (b mod BPB)) =? 0); cbn [negb]; [done|].
  destruct (update_held v hs lg (with_blks b1 s) _ h _ (unmark (v (BBLOCK b (sb s))) (b mod BPB)) Hr1 Hh Hlog) as (b2 & E3 & Hr2).
  exists b2. split; [exact E3|exact Hr2].
Qed.
End Bfree.

(** ** The block map of a file *)
Definition addr_at (x : inode) (i : Z) : Z := default 0 (iaddrs x !! Z.to_nat i).
Definition ind (x : inode) : Z := addr_at x NDIRECT.

(** Block [bn] of the file, 0 when there is none. *)
Definition fblock (v : contents) (x : inode) (bn : Z) : Z :=
  if bn <? NDIRECT then addr_at x bn
  else if ind x =? 0 then 0 else ldw (v (ind x)) (4 * (bn - NDIRECT)).

(** The byte at offset [o]. *)
Definition fbyte (v : contents) (x : inode) (o : Z) : Z := ld8 (v (fblock v x (o / BSIZE))) (o mod BSIZE).

Record inode_ok {S} {HB : Blocks S} (sb : superblock) (v : contents) (x : inode) : Prop := {
  io_len : length (iaddrs x) = 13%nat;
  io_dev : idev x = fsdev;
  io_ind : ind x <> 0 -> data_block sb (ind x) /\ used sb v (ind x) = true;
  io_data : forall bn, 0 <= bn < MAXFILE -> fblock v x bn <> 0 ->
    data_block sb (fblock v x bn) /\ used sb v (fblock v x bn) = true /\ fblock v x bn <> ind x;
  io_inj : forall bn bn', 0 <= bn < MAXFILE -> 0 <= bn' < MAXFILE -> fblock v x bn <> 0 ->
    fblock v x bn = fblock v x bn' -> bn = bn'
}.

(** The file may have got more blocks; nothing else changed. *)
Record grown {S} {HB : Blocks S} (sb : superblock) (v : contents) (x : inode) (v' : contents) (x' : inode) : Prop := {
  gr_ok : inode_ok sb v' x';
  gr_meta : meta_used sb v';
  gr_used : forall b, 0 <= b < size_ sb -> used sb v b = true -> used sb v' b = true;
  gr_keep : forall bn, 0 <= bn < MAXFILE -> fblock v x bn <> 0 -> fblock v' x' bn = fblock v x bn;
  gr_other : forall b, 0 <= b < size_ sb -> used sb v b = true -> b <> ind x -> ~ is_bmap (sb := sb) b -> v' b = v b;
  gr_new : forall bn, 0 <= bn < MAXFILE -> fblock v x bn = 0 -> fblock v' x' bn <> 0 -> zero_block (v' (fblock v' x' bn));
  gr_fresh : forall bn, 0 <= bn < MAXFILE -> fblock v x bn = 0 -> fblock v' x' bn <> 0 -> used sb v (fblock v' x' bn) = false;
  gr_ind : ind x <> 0 -> ind x' = ind x;
  gr_indnew : ind x = 0 -> ind x' <> 0 -> used sb v (ind x') = false;
  gr_rest : x' = set_iaddrs (fun _ => iaddrs x') x
}.

Section Grown.
Context {S : Type} {HB : Blocks S} {sb : superblock} (Hl : layout sb).

Lemma grown_refl v x : inode_ok sb v x -> meta_used sb v -> grown sb v x v x.
Proof. intros H1 H2. constructor; try done. by destruct x. Qed.

(** A mapped block keeps its contents. *)
Lemma grown_block v x v' x' bn : inode_ok sb v x -> grown sb v x v' x' -> 0 <= bn < MAXFILE -> fblock v x bn <> 0 ->
  v' (fblock v x bn) = v (fblock v x bn).
Proof.
  intros Ho Hg Hbn Hne. destruct (io_data _ _ _ Ho bn Hbn Hne) as (Hd & Hu & Hi).
  apply (gr_other _ _ _ _ _ Hg); [by apply data_index|done|done|by apply data_not_bmap].
Qed.

Lemma grown_trans v x v1 x1 v2 x2 : inode_ok sb v x -> grown sb v x v1 x1 -> grown sb v1 x1 v2 x2 -> grown sb v x v2 x2.
Proof.
  intros Ho G1 G2. pose proof (gr_ok _ _ _ _ _ G1) as Ho1. constructor.
  - apply G2.
  - apply G2.
  - intros b Hb Hu. apply G2; [done|]. by apply G1.
  - intros bn Hbn Hne. pose proof (gr_keep _ _ _ _ _ G1 bn Hbn Hne) as E. rewrite (gr_keep _ _ _ _ _ G2) by (done || congruence). done.
  - intros b Hb Hu Hi Hbm. rewrite (gr_other _ _ _ _ _ G2); [by apply G1|done|by apply G1| |done].
    destruct (decide (ind x = 0)) as [E|E]; [|by rewrite (gr_ind _ _ _ _ _ G1 E)].
    intros ->. destruct (decide (ind x1 = 0)) as [E1|E1]; [congruence|].
    pose proof (gr_indnew _ _ _ _ _ G1 E E1). congruence.
  - intros bn Hbn H0 H2. destruct (decide (fblock v1 x1 bn = 0)) as [E|E]; [by apply (gr_new _ _ _ _ _ G2)|].
    rewrite (gr_keep _ _ _ _ _ G2 bn Hbn E). rewrite (grown_block v1 x1 v2 x2) by done.
    by apply (gr_new _ _ _ _ _ G1).
  - intros bn Hbn H0 H2. destruct (decide (fblock v1 x1 bn = 0)) as [E|E].
    + pose proof (gr_fresh _ _ _ _ _ G2 bn Hbn E H2) as Hu. destruct (used sb v (fblock v2 x2 bn)) eqn:Eu; [|done].
      destruct (io_data _ _ _ (gr_ok _ _ _ _ _ G2) bn Hbn H2) as [Hd _].
      rewrite (gr_used _ _ _ _ _ G1) in Hu; [done|by apply data_index|done].
    + rewrite (gr_keep _ _ _ _ _ G2 bn Hbn E). by apply (gr_fresh _ _ _ _ _ G1).
  - intros Hi. rewrite (gr_ind _ _ _ _ _ G2); rewrite (gr_ind _ _ _ _ _ G1); done.
  - intros H0 H2. destruct (decide (ind x1 = 0)) as [E|E].
    + pose proof (gr_indnew _ _ _ _ _ G2 E H2) as Hu. destruct (used sb v (ind x2)) eqn:Eu; [|done].
      destruct (io_ind _ _ _ (gr_ok _ _ _ _ _ G2) H2) as [Hd _].
      rewrite (gr_used _ _ _ _ _ G1) in Hu; [done|by apply data_index|done].
    + rewrite (gr_ind _ _ _ _ _ G2 E) in *. by apply (gr_indnew _ _ _ _ _ G1).
  - rewrite (gr_rest _ _ _ _ _ G2), (gr_rest _ _ _ _ _ G1) at 1. by destruct x.
Qed.

(** Bytes of the file that existed. *)
Lemma grown_byte v x v' x' o : inode_ok sb v x -> grown sb v x v' x' -> 0 <= o < MAXFILE * BSIZE ->
  fblock v x (o / BSIZE) <> 0 -> fbyte v' x' o = fbyte v x o.
Proof.
  intros Ho Hg Hr Hne. assert (0 <= o / BSIZE < MAXFILE) as Hb.
  { split; [apply Z.div_pos; [lia|done]|]. apply Z.div_lt_upper_bound; [done|]. lia. }
  unfold fbyte. rewrite (gr_keep _ _ _ _ _ Hg _ Hb Hne). by rewrite (grown_block v x v' x').
Qed.
End Grown.

(** ** Adding a block *)
Lemma ldw_stw_same d o a : 0 <= a < 2 ^ 32 -> ldw (stw d o a) o = a.
Proof. intros H. unfold ldw, stw. rewrite (ldn_stn_same 4). by apply Z.mod_small. Qed.
Lemma ldw_stw_other d o p a : p + 4 <= o \/ o + 4 <= p -> ldw (stw d o a) p = ldw d p.
Proof. intros H. apply ldn_ext. intros i Hi. apply (ld8_stn_other 4), inrange_false. lia. Qed.
Lemma ldw_zero d o : zero_block d -> 0 <= o -> o + 4 <= BSIZE -> ldw d o = 0.
Proof. intros Hz H1 H2. apply ldn_zero. intros i Hi. apply Hz. lia. Qed.

Lemma addr_insert x i c : length (iaddrs x) = 13%nat -> 0 <= i <= NDIRECT ->
  addr_at (set_iaddrs (fun l => <[Z.to_nat i := c]> l) x) i = c.
Proof.
  intros Hn Hi. unfold addr_at. cbn [set_iaddrs iaddrs]. change NDIRECT with 12 in Hi.
  rewrite list_lookup_insert_eq by lia. done.
Qed.
Lemma addr_insert_ne x i j c : 0 <= i -> 0 <= j -> j <> i ->
  addr_at (set_iaddrs (fun l => <[Z.to_nat i := c]> l) x) j = addr_at x j.
Proof. intros Hi Hj Hne. unfold addr_at. cbn [set_iaddrs iaddrs]. rewrite list_lookup_insert_ne by lia. done. Qed.

Section Add.
Context {S : Type} {HB : Blocks S} {sb : superblock} (Hl : layout sb) {v : contents} {x : inode} {c : Z}.
Context (Ho : inode_ok sb v x) (Hm : meta_used sb v) (Hc : data_block sb c) (Hu : used sb v c = false).
Abbreviation v1 := (taken_block sb v c).

Lemma c_fresh b : used sb v b = true -> b <> c.
Proof. congruence. Qed.

Lemma c_range : 0 < c < 2 ^ 31.
Proof. destruct (data_pos sb c Hl Hc). pose proof (la_size _ Hl). lia. Qed.

Lemma v1_data b : data_block sb b -> used sb v b = true -> v1 b = v b.
Proof.
  intros Hb Hub. apply taken_other; [by apply c_fresh|]. intros ->. apply (data_not_bmap Hl _ Hb). exists c.
  split; [by apply data_index|done].
Qed.

Lemma v1_used b : 0 <= b < size_ sb -> used sb v b = true -> used sb v1 b = true.
Proof. intros Hb Hub. rewrite used_taken by done. by rewrite Hub, orb_true_r. Qed.

Lemma v1_used_c : used sb v1 c = true.
Proof. rewrite used_taken by (done || by apply data_index). by rewrite Z.eqb_refl. Qed.

Lemma v1_other b : 0 <= b < size_ sb -> used sb v b = true -> ~ is_bmap (sb := sb) b -> v1 b = v b.
Proof.
  intros Hb Hub Hbm. apply taken_other; [by apply c_fresh|]. intros ->. apply Hbm. exists c. split; [by apply data_index|done].
Qed.

(** A file that got block [c], as its block [k] or as its indirect block. *)
Lemma add_grown v' x' (k : option Z) : length (iaddrs x') = 13%nat -> x' = set_iaddrs (fun _ => iaddrs x') x ->
  (forall b, 0 <= b < size_ sb -> used sb v' b = used sb v1 b) ->
  match k with
  | Some bn => ind x' = ind x /\ 0 <= bn < MAXFILE /\ fblock v x bn = 0 /\ fblock v' x' bn = c /\ zero_block (v' c)
  | None => ind x = 0 /\ ind x' = c
  end ->
  (forall bn, 0 <= bn < MAXFILE -> k <> Some bn -> fblock v' x' bn = fblock v x bn) ->
  (forall b, 0 <= b < size_ sb -> used sb v b = true -> b <> ind x -> ~ is_bmap (sb := sb) b -> v' b = v b) ->
  grown sb v x v' x'.
Proof.
  intros H1 H2 H3 H4 H5 H6. pose proof (data_index Hl c Hc) as Hci. pose proof c_range as Hcr.
  assert (forall b, 0 <= b < size_ sb -> used sb v b = true -> used sb v' b = true) as Hup.
  { intros b Hb Hub. rewrite H3 by done. by apply v1_used. }
  assert (used sb v' c = true) as Huc by (rewrite H3 by done; apply v1_used_c).
  assert (forall bn, 0 <= bn < MAXFILE -> fblock v x bn <> 0 -> fblock v' x' bn = fblock v x bn) as Hkeep.
  { intros bn Hbn Hne. apply H5; [done|]. intros ->. destruct H4 as (_ & _ & ? & _). done. }
  assert (forall bn, 0 <= bn < MAXFILE -> fblock v' x' bn <> 0 -> fblock v' x' bn = fblock v x bn \/
    k = Some bn /\ fblock v' x' bn = c) as Hcase.
  { intros bn Hbn Hne. destruct (decide (k = Some bn)) as [->|Hk]; [right|left; by apply H5].
    destruct H4 as (_ & _ & _ & ? & _). done. }
  assert (forall bn, 0 <= bn < MAXFILE -> fblock v x bn <> c) as Hnc.
  { intros bn Hbn E. destruct (io_data _ _ _ Ho bn Hbn) as (_ & Hx & _); [lia|]. rewrite E in Hx. congruence. }
  assert (ind x <> c) as Hic.
  { intros E. destruct (io_ind _ _ _ Ho) as (_ & Hx); [lia|]. rewrite E in Hx. congruence. }
  assert (ind x' = ind x \/ ind x = 0 /\ ind x' = c) as Hind by (destruct k; [left; apply H4|by right]).
  constructor; try done.
  - constructor.
    + done.
    + rewrite H2. apply Ho.
    + intros Hne. destruct Hind as [E|[_ E]]; rewrite E in *; [|done].
      destruct (io_ind _ _ _ Ho Hne) as [Hd Hui]. split; [done|]. apply Hup; [by apply data_index|done].
    + intros bn Hbn Hne. destruct (Hcase bn Hbn Hne) as [E|[Ek E]]; rewrite E in *.
      * destruct (io_data _ _ _ Ho bn Hbn Hne) as (Hd & Hub & Hi). split; [done|].
        split; [apply Hup; [by apply data_index|done]|]. destruct Hind as [->|[_ ->]]; [done|]. by apply Hnc.
      * split; [done|]. split; [done|]. subst k. destruct H4 as (-> & _). by apply not_eq_sym.
    + intros bn bn' Hbn Hbn' Hne E. destruct (Hcase bn Hbn Hne) as [E1|[Ek E1]];
        (destruct (Hcase bn' Hbn') as [E2|[Ek' E2]]; [congruence| |]).
      * apply (io_inj _ _ _ Ho); [done|done|congruence|congruence].
      * exfalso. apply (Hnc bn Hbn). congruence.
      * exfalso. apply (Hnc bn' Hbn'). congruence.
      * congruence.
  - intros b Hb. rewrite H3 by done. by apply (meta_taken Hl v c Hc Hm b).
  - intros bn Hbn E Hne. destruct (Hcase bn Hbn Hne) as [E1|[-> E1]]; [congruence|]. rewrite E1. apply H4.
  - intros bn Hbn E Hne. destruct (Hcase bn Hbn Hne) as [E1|[-> E1]]; [congruence|]. by rewrite E1.
  - intros Hne. destruct Hind as [?|[? _]]; done.
  - intros E Hne. destruct Hind as [?|[_ ->]]; [congruence|done].
Qed.

Lemma ind_insert bn : 0 <= bn < NDIRECT -> ind (set_iaddrs (fun l => <[Z.to_nat bn := c]> l) x) = ind x.
Proof. intros H. unfold ind. apply addr_insert_ne; unfold NDIRECT in *; lia. Qed.

Lemma add_direct bn : 0 <= bn < NDIRECT -> addr_at x bn = 0 ->
  let x' := set_iaddrs (fun l => <[Z.to_nat bn := c]> l) x in grown sb v x v1 x' /\ fblock v1 x' bn = c.
Proof.
  intros Hbn H0 x'. pose proof (io_len _ _ _ Ho) as Hlen.
  assert (fblock v1 x' bn = c) as E.
  { unfold fblock. rewrite (proj2 (Z.ltb_lt _ _)) by lia. apply addr_insert; [done|lia]. }
  assert (ind x' = ind x) as Ei by (by apply ind_insert).
  split; [|done]. apply (add_grown v1 x' (Some bn)); try done.
  - cbn. by rewrite length_insert.
  - split; [done|]. split; [unfold MAXFILE, NDIRECT in *; change NINDIRECT with 256; lia|].
    split; [unfold fblock; by rewrite (proj2 (Z.ltb_lt _ _)) by lia|]. split; [done|]. apply taken_at.
  - intros bm Hbm Hne. unfold fblock. rewrite Ei. destruct (Z.ltb_spec bm NDIRECT).
    + apply addr_insert_ne; [lia|lia|congruence].
    + destruct (Z.eqb_spec (ind x) 0) as [|Hi]; [done|]. destruct (io_ind _ _ _ Ho Hi) as [Hd Hui]. by rewrite v1_data.
  - intros b Hb Hub _ Hbm. by apply v1_other.
Qed.

Lemma add_indirect : ind x = 0 ->
  let x' := set_iaddrs (fun l => <[Z.to_nat NDIRECT := c]> l) x in grown sb v x v1 x' /\ ind x' = c.
Proof.
  intros H0 x'. pose proof (io_len _ _ _ Ho) as Hlen.
  assert (ind x' = c) as E by (apply addr_insert; [done|unfold NDIRECT; lia]).
  split; [|done]. apply (add_grown v1 x' None); try done.
  - cbn. by rewrite length_insert.
  - intros bm Hbm _. unfold fblock. rewrite E, H0. cbn [Z.eqb]. destruct (Z.ltb_spec bm NDIRECT).
    + apply addr_insert_ne; unfold NDIRECT in *; lia.
    + pose proof c_range. rewrite (proj2 (Z.eqb_neq c 0)) by lia. apply ldw_zero; [apply taken_at| |].
      * lia.
      * unfold MAXFILE in Hbm. change NINDIRECT with 256 in Hbm. change BSIZE with 1024. lia.
  - intros b Hb Hub _ Hbm. by apply v1_other.
Qed.

Lemma add_entry bn : NDIRECT <= bn < MAXFILE -> ind x <> 0 -> ldw (v (ind x)) (4 * (bn - NDIRECT)) = 0 ->
  let v' := setv (ind x) (stw (v (ind x)) (4 * (bn - NDIRECT)) c) v1 in grown sb v x v' x /\ fblock v' x bn = c.
Proof.
  intros Hbn Hi H0 v'. pose proof c_range as Hcr. destruct (io_ind _ _ _ Ho Hi) as [Hd Hui].
  pose proof (c_fresh _ Hui) as Hic.
  assert (forall bm, NDIRECT <= bm -> fblock v' x bm = if bm =? bn then c else fblock v x bm) as Hf.
  { intros bm Hbm. unfold fblock. rewrite (proj2 (Z.ltb_ge bm NDIRECT)), (proj2 (Z.eqb_neq (ind x) 0)) by done.
    unfold v'. rewrite setv_eq. destruct (Z.eqb_spec bm bn) as [->|]; [apply ldw_stw_same; lia|]. apply ldw_stw_other. lia. }
  assert (fblock v' x bn = c) as E by (rewrite Hf by lia; by rewrite Z.eqb_refl).
  split; [|done]. apply (add_grown v' x (Some bn)).
  - apply Ho.
  - by destruct x.
  - intros b Hb. by apply used_data.
  - split; [done|]. split; [unfold NDIRECT in *; lia|]. split.
    { unfold fblock. rewrite (proj2 (Z.ltb_ge bn NDIRECT)), (proj2 (Z.eqb_neq (ind x) 0)) by (done || lia). done. }
    split; [done|]. unfold v'. rewrite setv_ne by congruence. apply taken_at.
  - intros bm Hbm Hne. destruct (Z.ltb_spec bm NDIRECT) as [Hlt|Hge].
    + unfold fblock. by rewrite (proj2 (Z.ltb_lt bm NDIRECT)).
    + rewrite Hf by done. rewrite (proj2 (Z.eqb_neq bm bn)); [done|]. congruence.
  - intros b Hb Hub Hne Hbm. unfold v'. rewrite setv_ne by done. by apply v1_other.
Qed.
End Add.
