(* ===== verification/FsMap.v ===== *)
(** * [bmap]

    [bmap] of kernel/fs.c finds block [bn] of a file, taking a free block when
    the file has none there. *)

From S2P Require Import Prelude Riscv Mem Lock Bio Blocks UserIO Fs FsBlocks FsFiles.
Import KString.
Local Open Scope Z_scope.

(** The blocks a transaction has logged, with the block of the free map. *)
Definition cost (sb : superblock) (lg : gset Z) : Z := Z.of_nat (size ({[bmapstart sb]} ∪ lg)).

(** The disks mkfs makes: the free map is one block. *)
Record disk_ok {S} {HB : Blocks S} (sb : superblock) : Prop := {
  dk_layout : layout sb;
  dk_small : size_ sb <= BPB
}.

Section Map.
Context {S U : Type} {HB : Blocks S} {HU : UserSpace U}.

(** The state with another disk and another inode [ip]. *)
Definition at_ (b : S) (ip : nat) (x : inode) (s : fst S U) : fst S U :=
  mkfst b (usr s) (sb s) (<[ip := x]> (itable s)) (fpid s) (cwd s) (fheld s).

Lemma at_twice b b' ip x x' s : at_ b ip x (at_ b' ip x' s) = at_ b ip x s.
Proof. unfold at_. cbn. by rewrite list_insert_insert_eq. Qed.
Lemma at_blks b b' ip x s : with_blks b (at_ b' ip x s) = at_ b ip x s.
Proof. done. Qed.
Lemma at_same b ip x s : itable s !! ip = Some x -> with_blks b s = at_ b ip x s.
Proof. intros H. unfold at_. by rewrite list_insert_id. Qed.
Lemma at_lookup b ip x x' s : itable s !! ip = Some x' -> itable (at_ b ip x s) !! ip = Some x.
Proof. intros H. cbn. apply list_lookup_insert_eq. by apply lookup_lt_Some in H. Qed.

Lemma geti_ok {A} ip (f : inode -> A) (s : fst S U) x : itable s !! ip = Some x -> geti ip f s = Ok (f x) s.
Proof. intros H. unfold geti. by rewrite H. Qed.
Lemma seti_ok ip f (s : fst S U) x : itable s !! ip = Some x -> seti ip f s = Ok tt (at_ (blks s) ip (f x) s).
Proof. intros H. unfold seti. by rewrite H. Qed.

Lemma cost_mono {d} lg lg' : lg ⊆ lg' -> cost d lg <= cost d lg'.
Proof. intros H. unfold cost. apply inj_le, subseteq_size. set_solver. Qed.
Lemma cost_add {d} b lg : cost d ({[b]} ∪ lg) <= cost d lg + 1.
Proof.
  unfold cost. replace ({[bmapstart d]} ∪ ({[b]} ∪ lg)) with ({[b]} ∪ ({[bmapstart d]} ∪ lg)) by set_solver.
  pose proof (size_add b ({[bmapstart d]} ∪ lg)). lia.
Qed.
Lemma cost_log {d} lg : cost d lg < MAXOPBLOCKS -> Z.of_nat (size lg) < MAXOPBLOCKS.
Proof. unfold cost. intros H. pose proof (subseteq_size lg ({[bmapstart d]} ∪ lg) ltac:(set_solver)). lia. Qed.

Section Disk.
Context {d : superblock} (Hd : disk_ok d).

Lemma one_bmap b : 0 <= b < size_ d -> BBLOCK b d = bmapstart d.
Proof.
  intros Hb. rewrite BBLOCK_eq by (apply Hd || done). rewrite Z.div_small; [done|]. pose proof (dk_small _ Hd). lia.
Qed.

Lemma cost_bmap b lg : 0 <= b < size_ d -> cost d ({[BBLOCK b d]} ∪ lg) = cost d lg.
Proof. intros Hb. unfold cost. rewrite one_bmap by done. f_equal. f_equal. set_solver. Qed.
Lemma cost_room lg : cost d lg < MAXOPBLOCKS -> room_bmap d lg.
Proof. intros H b Hb. rewrite one_bmap by done. done. Qed.
End Disk.

(** [balloc] within the cost of a transaction. *)
Lemma balloc_cost v hs lg (s : fst S U) : brep (blks s) v hs lg -> disk_ok (sb s) -> meta_used (sb s) v -> holds_data (sb s) v hs ->
  (size hs < 4)%nat -> cost (sb s) lg < MAXOPBLOCKS ->
  (exists c b' lg', balloc fsdev s = Ok c (with_blks b' s) /\ used (sb s) v c = false /\ data_block (sb s) c /\ c <> 0 /\
     brep b' (taken_block (sb s) v c) hs lg' /\ cost (sb s) lg' <= cost (sb s) lg + 1 /\ c ∈ lg' /\ lg ⊆ lg') \/
  (exists b', balloc fsdev s = Ok 0 (with_blks b' s) /\ brep b' v hs lg /\
     forall c, 0 <= c < size_ (sb s) -> used (sb s) v c = true).
Proof.
  intros Hr Hd Hm Hh Hn Hc. pose proof (dk_layout _ Hd) as Hl.
  destruct (balloc_spec Hn s Hr Hl Hm Hh (cost_room Hd lg Hc)) as [(c & b' & E & Hu & Hdc & Hr')|H]; [left|by right].
  exists c, b', ({[c]} ∪ ({[BBLOCK c (sb s)]} ∪ lg)). pose proof (data_pos _ _ Hl Hdc).
  split; [done|]. split; [done|]. split; [done|]. split; [lia|]. split; [done|].
  split; [|set_solver]. pose proof (cost_add (d := sb s) c ({[BBLOCK c (sb s)]} ∪ lg)). rewrite (cost_bmap Hd) in * by lia. done.
Qed.

(** What [bmap] gives. *)
Record mapped (d : superblock) (v : contents) (lg : gset Z) (x : inode) (bn : Z) (v' : contents) (lg' : gset Z) (x' : inode) : Prop := {
  mp_grown : grown d v x v' x';
  mp_cost : cost d lg' <= cost d lg + 2;
  mp_sub : lg ⊆ lg';
  mp_same : fblock v x bn <> 0 -> v' = v /\ lg' = lg /\ x' = x;
  mp_new : fblock v x bn = 0 -> fblock v' x' bn <> 0 -> fblock v' x' bn ∈ lg';
  (** No block: the disk is full. *)
  mp_full : fblock v' x' bn = 0 -> forall c, 0 <= c < size_ d -> used d v' c = true
}.

Lemma mapped_refl d v lg x bn : inode_ok d v x -> meta_used d v -> fblock v x bn <> 0 -> mapped d v lg x bn v lg x.
Proof.
  intros Ho Hm Hne. constructor; try done.
  - by apply grown_refl.
  - lia.
Qed.

Lemma mapped_full d v lg x bn : inode_ok d v x -> meta_used d v -> fblock v x bn = 0 ->
  (forall c, 0 <= c < size_ d -> used d v c = true) -> mapped d v lg x bn v lg x.
Proof.
  intros Ho Hm Hne Hf. constructor; try done.
  - by apply grown_refl.
  - lia.
Qed.

(** The two kinds of block the file can lack: a slot of the inode, a slot of
    the indirect block. *)
Lemma slot_alloc v lg (s : fst S U) ip x i : itable s !! ip = Some x -> brep (blks s) v ∅ lg -> disk_ok (sb s) -> meta_used (sb s) v ->
  cost (sb s) lg < MAXOPBLOCKS ->
  (exists c b' lg', (do! addr <- balloc fsdev; if addr =? 0 then ret 0 else set_addr ip i addr ;; ret addr) s =
       Ok c (at_ b' ip (set_iaddrs (fun l => <[Z.to_nat i := c]> l) x) s) /\
     used (sb s) v c = false /\ data_block (sb s) c /\ c <> 0 /\
     brep b' (taken_block (sb s) v c) ∅ lg' /\ cost (sb s) lg' <= cost (sb s) lg + 1 /\ c ∈ lg' /\ lg ⊆ lg') \/
  (exists b', (do! addr <- balloc fsdev; if addr =? 0 then ret 0 else set_addr ip i addr ;; ret addr) s = Ok 0 (with_blks b' s) /\
     brep b' v ∅ lg /\ forall c, 0 <= c < size_ (sb s) -> used (sb s) v c = true).
Proof.
  intros Hx Hr Hd Hm Hc.
  destruct (balloc_cost v ∅ lg s Hr Hd Hm (map_Forall_empty _) ltac:(rewrite map_size_empty; lia) Hc)
    as [(c & b' & lg' & E & Hu & Hdc & H0 & H)|(b' & E & H)]; [left|right].
  - exists c, b', lg'. rewrite (bind_ok _ _ _ _ _ E), (proj2 (Z.eqb_neq _ _) H0). unfold set_addr.
    rewrite (bind_ok _ _ _ _ _ (seti_ok ip _ (with_blks b' s) x Hx)). done.
  - exists b'. by rewrite (bind_ok _ _ _ _ _ E).
Qed.

(** Look up slot [k] of the indirect block, and fill it when it is empty. *)
Definition bmap_entry (ip : nat) (addr k : Z) : M (fst S U) Z :=
  do! bp <- bread fsdev addr;
  do! a <- bdata bp;
  let addr := ldw a (4 * k) in
  do! addr <- (if addr =? 0 then
                 do! addr <- balloc fsdev;
                 (if addr =? 0 then ret tt else bset bp (stw a (4 * k) addr) ;; log_write bp) ;;
                 ret addr
               else ret addr);
  brelse bp ;;
  ret addr.

Lemma entry_spec v lg (s : fst S U) ip x bn : itable s !! ip = Some x -> brep (blks s) v ∅ lg -> disk_ok (sb s) -> meta_used (sb s) v ->
  inode_ok (sb s) v x -> ind x <> 0 -> NDIRECT <= bn < MAXFILE ->
  ind x ∈ lg /\ cost (sb s) lg + 1 <= MAXOPBLOCKS \/ cost (sb s) lg + 2 <= MAXOPBLOCKS ->
  exists b' v' lg', bmap_entry ip (ind x) (bn - NDIRECT) s = Ok (fblock v' x bn) (with_blks b' s) /\
    brep b' v' ∅ lg' /\ mapped (sb s) v lg x bn v' lg' x /\ (ind x ∈ lg -> cost (sb s) lg' <= cost (sb s) lg + 1).
Proof.
  intros Hx Hr Hd Hm Ho Hi Hbn Hc. pose proof (dk_layout _ Hd) as Hl. destruct (io_ind _ _ _ Ho Hi) as [Hdi Hui].
  assert (forall w, fblock w x bn = ldw (w (ind x)) (4 * (bn - NDIRECT))) as Ef.
  { intros w. unfold fblock. rewrite (proj2 (Z.ltb_ge bn NDIRECT)), (proj2 (Z.eqb_neq (ind x) 0)) by (done || lia). done. }
  destruct (peek_block v ∅ lg s (ind x) Hr (data_fsblock _ _ Hl Hdi) (lookup_empty _)) as (h & b1 & E1 & E2 & Hr1);
    [rewrite map_size_empty; lia|].
  unfold bmap_entry. rewrite (bind_ok _ _ _ _ _ E1), (bind_ok _ _ _ _ _ E2). cbn zeta. rewrite <- Ef.
  destruct (Z.eqb_spec (fblock v x bn) 0) as [E0|E0].
  2:{ destruct (release_held v ∅ lg (with_blks b1 s) _ h Hr1 (lookup_empty _)) as (b2 & E3 & Hr2).
      exists b2, v, lg. rewrite (bind_ok _ _ _ (fblock v x bn) (with_blks b1 s)) by done.
      rewrite (bind_ok _ _ _ _ _ E3). split; [done|]. split; [done|]. split; [by apply mapped_refl|lia]. }
  assert (holds_data (sb s) v (<[ind x := (h, v (ind x))]> ∅)) as Hh.
  { apply map_Forall_insert_2; [done|]. apply map_Forall_empty. }
  destruct (balloc_cost v _ lg (with_blks b1 s) Hr1 Hd Hm Hh) as [(c & b2 & lg2 & E & Hu & Hdc & H0 & Hr2 & Hc2 & Hin & Hsub)|(b2 & E & Hr2 & Hfull)].
  { rewrite map_size_insert_None, map_size_empty by apply lookup_empty. lia. }
  { cbn [sb with_blks]. lia. }
  - cbn [sb with_blks] in *. pose proof (c_fresh Hu _ Hui) as Hic.
    set (a' := stw (v (ind x)) (4 * (bn - NDIRECT)) c).
    destruct (bset_ok (s := with_blks b2 (with_blks b1 s)) Hr2 (lookup_insert_eq _ _ _) a') as (b3 & E3 & Hr3).
    rewrite insert_insert_eq in Hr3.
    destruct (log_write_ok (s := with_blks b3 s) Hr3 (lookup_insert_eq _ _ _)) as (b4 & E4 & Hr4).
    { destruct Hc as [[Hin' _]|Hc]; [left; set_solver|right]. apply (cost_log (d := sb s)). lia. }
    destruct (brelse_ok (s := with_blks b4 s) Hr4 (lookup_insert_eq _ _ _)) as (b5 & E5 & Hr5); [by rewrite setv_eq|].
    rewrite delete_insert_id in Hr5 by apply lookup_empty.
    destruct (add_entry Hl Ho Hm Hdc Hu bn Hbn Hi ltac:(by rewrite <- Ef)) as [G Ec]. cbn zeta in G, Ec. fold a' in G, Ec.
    exists b5, (setv (ind x) a' (taken_block (sb s) v c)), ({[ind x]} ∪ lg2). rewrite Ec. split; [|split; [done|split]].
    + rewrite (bind_ok _ _ _ c (with_blks b4 s)).
      * by rewrite (bind_ok _ _ _ _ _ E5).
      * rewrite (bind_ok _ _ _ _ _ E), (proj2 (Z.eqb_neq _ _) H0).
        rewrite (bind_ok _ _ _ tt (with_blks b4 s)); [done|]. by rewrite (bind_ok _ _ _ _ _ E3).
    + constructor.
      * exact G.
      * pose proof (cost_add (d := sb s) (ind x) lg2). lia.
      * set_solver.
      * congruence.
      * intros _ _. rewrite Ec. set_solver.
      * rewrite Ec. congruence.
    + intros Hil. replace ({[ind x]} ∪ lg2) with lg2 by set_solver. done.
  - cbn [sb with_blks] in *.
    destruct (release_held v ∅ lg (with_blks b2 s) _ h Hr2 (lookup_empty _)) as (b3 & E3 & Hr3).
    exists b3, v, lg. rewrite E0. split; [|split; [done|split; [by apply mapped_full|lia]]].
    rewrite (bind_ok _ _ _ 0 (with_blks b2 s)); [by rewrite (bind_ok _ _ _ _ _ E3)|].
    by rewrite (bind_ok _ _ _ _ _ E).
Qed.

(** The indirect block, taken when the file has none. *)
Lemma ind_spec v lg s ip x : let d := sb s in
  itable s !! ip = Some x -> brep (blks s) v ∅ lg -> disk_ok d -> meta_used d v -> inode_ok d v x ->
  cost d lg < MAXOPBLOCKS ->
  exists b' v' lg' x', (do! addr <- get_addr ip NDIRECT;
      if addr =? 0 then do! addr <- balloc fsdev; if addr =? 0 then ret 0 else set_addr ip NDIRECT addr ;; ret addr
      else ret addr) s = Ok (ind x') (at_ b' ip x' s) /\
    brep b' v' ∅ lg' /\ grown d v x v' x' /\ lg ⊆ lg' /\
    (ind x <> 0 -> v' = v /\ lg' = lg /\ x' = x) /\
    (ind x = 0 -> ind x' <> 0 -> cost d lg' <= cost d lg + 1 /\ ind x' ∈ lg' /\ forall bn, NDIRECT <= bn < MAXFILE -> fblock v' x' bn = 0) /\
    (ind x' = 0 -> v' = v /\ lg' = lg /\ x' = x /\ forall c, 0 <= c < size_ d -> used d v c = true).
Proof.
  intros d Hx Hr Hd Hm Ho Hc. pose proof (dk_layout _ Hd) as Hl.
  unfold get_addr. rewrite (bind_ok _ _ _ _ _ (geti_ok ip _ s x Hx)). change (default 0 _) with (ind x).
  destruct (Z.eqb_spec (ind x) 0) as [E0|E0].
  2:{ exists (blks s), v, lg, x. split; [rewrite <- at_same by done; by rewrite with_blks_id|].
      split; [done|]. split; [by apply grown_refl|]. done. }
  destruct (slot_alloc v lg s ip x NDIRECT Hx Hr Hd Hm Hc) as [(c & b' & lg' & E & Hu & Hdc & H0 & Hr' & Hc' & Hin & Hs)|(b' & E & Hr' & Hf)].
  - destruct (add_indirect Hl Ho Hm Hdc Hu E0) as [G Ei]. set (x' := set_iaddrs _ _) in *.
    exists b', (taken_block d v c), lg', x'. rewrite E, Ei.
    split; [done|]. split; [done|]. split; [done|]. split; [done|]. split; [congruence|]. split; [|congruence].
    intros _ _. split; [done|]. split; [done|]. intros bn Hbn. unfold fblock. rewrite (proj2 (Z.ltb_ge bn NDIRECT)), Ei, (proj2 (Z.eqb_neq c 0)) by (done || lia).
    apply ldw_zero; [apply taken_at|lia|]. destruct Hbn as [H1 H2]. change NDIRECT with 12 in *. change MAXFILE with 268 in *. change BSIZE with 1024. lia.
  - exists b', v, lg, x. rewrite E, E0. split; [by rewrite (at_same b' ip x)|]. split; [done|]. split; [by apply grown_refl|].
    done.
Qed.

(** First the indirect block, then its slot. *)
Lemma mapped_trans {d v lg x bn v1 lg1 x1 v2 lg2} : layout d -> inode_ok d v x -> grown d v x v1 x1 -> lg ⊆ lg1 ->
  (ind x <> 0 -> v1 = v /\ lg1 = lg /\ x1 = x) ->
  (ind x = 0 -> cost d lg1 <= cost d lg + 1 /\ ind x1 ∈ lg1 /\ fblock v1 x1 bn = 0) ->
  NDIRECT <= bn < MAXFILE -> mapped d v1 lg1 x1 bn v2 lg2 x1 -> (ind x1 ∈ lg1 -> cost d lg2 <= cost d lg1 + 1) ->
  mapped d v lg x bn v2 lg2 x1.
Proof.
  intros Hl Ho G1 Hs Hk Hn Hbn M Hci. destruct (decide (ind x = 0)) as [E|E].
  2:{ destruct (Hk E) as (-> & -> & ->). done. }
  destruct (Hn E) as (Hc & Hin & H0). specialize (Hci Hin).
  assert (fblock v x bn = 0) as E0 by (unfold fblock; by rewrite (proj2 (Z.ltb_ge bn NDIRECT)), E by lia).
  constructor; [| lia | | congruence | intros _; by apply M | apply M].
  - by apply (grown_trans Hl v x v1 x1); [..|apply M].
  - etransitivity; [exact Hs|apply M].
Qed.

Lemma bmap_spec v lg s ip x bn : let d := sb s in
  itable s !! ip = Some x -> brep (blks s) v ∅ lg -> disk_ok d -> meta_used d v -> inode_ok d v x ->
  0 <= bn < MAXFILE -> cost d lg + 2 <= MAXOPBLOCKS ->
  exists b' v' lg' x', bmap ip bn s = Ok (fblock v' x' bn) (at_ b' ip x' s) /\ brep b' v' ∅ lg' /\
    mapped d v lg x bn v' lg' x'.
Proof.
  intros d Hx Hr Hd Hm Ho Hbn Hc. pose proof (dk_layout _ Hd) as Hl. unfold bmap.
  rewrite (bind_ok _ _ _ _ _ (geti_ok ip _ s x Hx)), (io_dev _ _ _ Ho). destruct (Z.ltb_spec bn NDIRECT) as [Hlt|Hge].
  - assert (forall w y, fblock w y bn = addr_at y bn) as Ef by (intros; unfold fblock; by rewrite (proj2 (Z.ltb_lt bn NDIRECT))).
    unfold get_addr. rewrite (bind_ok _ _ _ _ _ (geti_ok ip _ s x Hx)). change (default 0 _) with (addr_at x bn).
    destruct (Z.eqb_spec (addr_at x bn) 0) as [E0|E0].
    2:{ exists (blks s), v, lg, x. rewrite Ef. split; [rewrite <- at_same by done; by rewrite with_blks_id|]. split; [done|].
        apply mapped_refl; try done. by rewrite Ef. }
    destruct (slot_alloc v lg s ip x bn Hx Hr Hd Hm ltac:(unfold d in *; lia)) as [(c & b' & lg' & E & Hu & Hdc & H0 & Hr' & Hc' & Hin & Hs)|(b' & E & Hr' & Hf)].
    + destruct (add_direct Hl Ho Hm Hdc Hu bn ltac:(lia) E0) as [G Ec]. set (x' := set_iaddrs _ _) in *.
      exists b', (taken_block d v c), lg', x'. rewrite E, Ec. split; [done|]. split; [done|]. constructor; try done.
      * unfold d in *. lia.
      * by rewrite Ef.
      * by rewrite Ec.
      * by rewrite Ec.
    + exists b', v, lg, x. rewrite E, Ef, E0. split; [by rewrite (at_same b' ip x)|]. split; [done|].
      apply mapped_full; try done. by rewrite Ef.
  - rewrite (proj2 (Z.ltb_lt (bn - NDIRECT) NINDIRECT)) by (unfold MAXFILE in Hbn; lia).
    destruct (ind_spec v lg s ip x Hx Hr Hd Hm Ho ltac:(unfold d in *; lia)) as (b1 & v1 & lg1 & x1 & E1 & Hr1 & G1 & Hs1 & Hk & Hn1 & Hz).
    rewrite <- bind_assoc. rewrite (bind_ok _ _ _ _ _ E1). destruct (Z.eqb_spec (ind x1) 0) as [E0|E0].
    { destruct (Hz E0) as (-> & -> & -> & Hf). exists b1, v, lg, x.
      assert (fblock v x bn = 0) as -> by (unfold fblock; by rewrite (proj2 (Z.ltb_ge bn NDIRECT)), E0).
      split; [done|]. split; [done|]. apply mapped_full; try done. unfold fblock. by rewrite (proj2 (Z.ltb_ge bn NDIRECT)), E0. }
    destruct (entry_spec v1 lg1 (at_ b1 ip x1 s) ip x1 bn) as (b2 & v2 & lg2 & E2 & Hr2 & Hmp & Hci);
      [by eapply at_lookup|done|done|apply G1|apply G1|done|lia| |].
    { cbn [sb at_]. destruct (decide (ind x = 0)) as [Ei|Ei]; [left|right].
      - destruct (Hn1 Ei E0) as (? & ? & _). split; [done|]. unfold d in *. lia.
      - destruct (Hk Ei) as (_ & -> & _). done. }
    exists b2, v2, lg2, x1. split; [exact E2|]. split; [done|]. apply (mapped_trans Hl Ho G1 Hs1); try done; [|lia].
    intros Ei. destruct (Hn1 Ei E0) as (? & ? & Hb). split; [done|]. split; [done|]. apply Hb. lia.
Qed.
End Map.
