(* ===== verification/FsContents.v ===== *)
(** * The contents of a file

    [readi] copies out the bytes of the file, [writei] replaces them. *)

From S2P Require Import Prelude Riscv Mem Lock Bio Blocks UserIO Fs FsBlocks FsFiles FsMap.
Import KString.
Local Open Scope Z_scope.

(** ** Bytes of blocks and files *)

(** [n] bytes of the file from [off] on. *)
Definition file_bytes (v : contents) (x : inode) (off : Z) (n : nat) : list Z :=
  map (fun i => fbyte v x (off + Z.of_nat i)) (seq 0 n).

Lemma length_file_bytes v x off n : length (file_bytes v x off n) = n.
Proof. unfold file_bytes. by rewrite length_map, length_seq. Qed.

Lemma file_bytes_lookup v x off n i : (i < n)%nat -> file_bytes v x off n !! i = Some (fbyte v x (off + Z.of_nat i)).
Proof. intros H. unfold file_bytes. by rewrite list_lookup_fmap, lookup_seq_lt. Qed.

Lemma file_bytes_app v x off n k :
  file_bytes v x off (n + k) = file_bytes v x off n ++ file_bytes v x (off + Z.of_nat n) k.
Proof.
  apply list_eq. intros i. destruct (decide (i < n)%nat) as [H|H].
  - rewrite lookup_app_l by (by rewrite length_file_bytes). by rewrite !file_bytes_lookup by lia.
  - rewrite lookup_app_r, length_file_bytes by (rewrite length_file_bytes; lia). destruct (decide (i < n + k)%nat) as [H1|H1].
    + rewrite !file_bytes_lookup by lia. do 2 f_equal. lia.
    + rewrite !lookup_ge_None_2 by (rewrite length_file_bytes; lia). done.
Qed.

Lemma file_bytes_ok v x off n : Forall byte_ok (file_bytes v x off n).
Proof. apply Forall_forall. intros b Hb. apply list_elem_of_fmap in Hb as (i & -> & _). apply ld8_range. Qed.

(** Offsets within one block. *)
Lemma same_block off i : 0 <= i -> i < BSIZE - off mod BSIZE ->
  (off + i) / BSIZE = off / BSIZE /\ (off + i) mod BSIZE = off mod BSIZE + i.
Proof.
  intros H0 H1. change BSIZE with 1024 in *. pose proof (Z.mod_pos_bound off 1024 ltac:(done)).
  pose proof (Z.div_mod off 1024 ltac:(done)). pose proof (Z.div_mod (off + i) 1024 ltac:(done)).
  pose proof (Z.mod_pos_bound (off + i) 1024 ltac:(done)). lia.
Qed.

(** After a chunk, either all is done or the next block starts. *)
Lemma next_chunk (k : nat) off n tot m : m = Z.min (n - tot) (BSIZE - off mod BSIZE) -> tot < n ->
  tot = n \/ n - tot + off mod BSIZE <= Z.of_nat (1 + k) * BSIZE ->
  tot + m = n \/ n - (tot + m) + (off + m) mod BSIZE <= Z.of_nat k * BSIZE.
Proof.
  intros Em Hlt Hk. destruct (decide (tot + m = n)) as [En|Hne]; [by left|right].
  assert (m = BSIZE - off mod BSIZE) as -> by lia. destruct Hk as [?|Hk]; [lia|].
  replace ((off + (BSIZE - off mod BSIZE)) mod BSIZE) with 0; [lia|].
  replace (off + (BSIZE - off mod BSIZE)) with (off / BSIZE * BSIZE + BSIZE) by (pose proof (Z.div_mod off BSIZE ltac:(done)); lia).
  rewrite <- Zplus_mod_idemp_l, Z.mod_mul by done. done.
Qed.

Lemma get_bytes_file v x off m : 0 <= m <= BSIZE - off mod BSIZE ->
  get_bytes (v (fblock v x (off / BSIZE))) (off mod BSIZE) m = file_bytes v x off (Z.to_nat m).
Proof.
  intros Hm. apply map_ext_in. intros i Hi. apply in_seq in Hi.
  destruct (same_block off (Z.of_nat i)) as [E1 E2]; [lia|lia|]. unfold fbyte. by rewrite E1, E2.
Qed.

Lemma get_bytes_ok d o m : Forall byte_ok (get_bytes d o m).
Proof. apply Forall_forall. intros b Hb. apply list_elem_of_fmap in Hb as (i & -> & _). apply ld8_range. Qed.
Lemma length_get_bytes d o m : length (get_bytes d o m) = Z.to_nat m.
Proof. unfold get_bytes. by rewrite length_map, length_seq. Qed.

Lemma put_bytes_fill bs : forall d o, put_bytes d o bs = fill d o bs.
Proof. induction bs as [|b bs IH]; intros d o; [done|]. apply IH. Qed.

Lemma put_bytes_spec d o bs x : Forall byte_ok bs ->
  ld8 (put_bytes d o bs) x = if inrange o (Z.of_nat (length bs)) x then nthb bs (Z.to_nat (x - o)) else ld8 d x.
Proof.
  intros Hf. rewrite put_bytes_fill. destruct (inrange o _ x) eqn:E; [|by apply fill_outside].
  apply inrange_true in E. destruct (lookup_lt_is_Some_2 bs (Z.to_nat (x - o))) as [b Hb]; [lia|].
  unfold nthb. rewrite Hb. pose proof (fill_at bs d o _ b Hf Hb) as Ef. by rewrite Z2Nat.id, Zplus_minus in Ef by lia.
Qed.

(** ** A file without holes *)
Record file_ok {S} {HB : Blocks S} (d : superblock) (v : contents) (x : inode) : Prop := {
  fo_inode : inode_ok d v x;
  fo_size : 0 <= isize x <= MAXFILE * BSIZE;
  fo_full : forall o, 0 <= o < isize x -> fblock v x (o / BSIZE) <> 0
}.

Lemma block_index o : 0 <= o < MAXFILE * BSIZE -> 0 <= o / BSIZE < MAXFILE.
Proof. intros H. split; [apply Z.div_pos; [lia|done]|]. apply Z.div_lt_upper_bound; [done|]. lia. Qed.

Section Contents.
Context {S U : Type} {HB : Blocks S} {HU : UserSpace U} (Hbuf : BSIZE <= bufsize).

Definition with_usr (u : U) (s : fst S U) : fst S U := mkfst (blks s) u (sb s) (itable s) (fpid s) (cwd s) (fheld s).

(** ** Reading *)

(** The bytes [bs] went to [dst]. *)
Definition moved (t : target) (dst : Z) (V V' : views) (bs : list Z) : Prop :=
  match t with
  | ToUser pt _ => (forall p x, x < TRAPFRAME -> is_Some (V p x) -> V' p x = put V pt dst bs p x) /\
                   (forall p x, is_Some (V' p x) <-> is_Some (V p x))
  | ToKernel => V' = V
  end.

Lemma moved_app t dst V V1 V2 bs cs : moved t dst V V1 bs -> moved t (dst + Z.of_nat (length bs)) V1 V2 cs ->
  moved t dst V V2 (bs ++ cs).
Proof.
  destruct t as [pt a|]; [|by intros -> ->]. intros [H1 D1] [H2 D2]. split; [|intros p x; by rewrite D2].
  intros p x Hx Hs. rewrite H2 by (done || by apply D1). rewrite <- put_app. unfold put at 1 2.
  case_decide; [done|]. by apply H1.
Qed.

Lemma moved_nil t dst V : moved t dst V V [].
Proof. destruct t; [|done]. split; [|done]. intros. by rewrite put_nil. Qed.

Definition target_in (P : Z -> Prop) (t : target) : Prop := match t with ToUser pt _ => P pt | ToKernel => True end.

Lemma either_copyout_ok (s : fst S U) P V t dst bs : sees (usr s) P V -> target_in P t -> 0 <= dst < 2 ^ 64 ->
  Forall byte_ok bs -> Z.of_nat (length bs) <= BSIZE ->
  exists (ok : bool) u' k V', either_copyout t dst bs s = Ok ok (with_usr u' s) /\ sees u' P V' /\
    moved t dst V V' (take k bs) /\ (if ok then k = length bs else k < length bs)%nat /\ (t = ToKernel -> ok = true).
Proof.
  intros Hs Ht Hd Hf Hn. destruct t as [pt a|].
  - destruct (copy_out_law (usr s) P pt V dst bs Hs Ht Hd Hf ltac:(lia)) as (ok & u' & k & V' & E & H1 & H2 & H3 & H4).
    exists ok, u', k, V'. split; [|done]. unfold either_copyout, usrop, zoom. by rewrite E.
  - exists true, (usr s), (length bs), V. split; [by destruct s|]. done.
Qed.

(** A mapped block is found without changing anything. *)
Lemma bmap_found v lg (s : fst S U) ip x bn : itable s !! ip = Some x -> brep (blks s) v ∅ lg -> disk_ok (sb s) ->
  inode_ok (sb s) v x -> 0 <= bn < MAXFILE -> fblock v x bn <> 0 ->
  exists b', bmap ip bn s = Ok (fblock v x bn) (with_blks b' s) /\ brep b' v ∅ lg.
Proof.
  intros Hx Hr Hd Ho Hbn Hne. unfold bmap. rewrite (bind_ok _ _ _ _ _ (geti_ok ip _ s x Hx)), (io_dev _ _ _ Ho).
  unfold get_addr. unfold fblock in *. destruct (Z.ltb_spec bn NDIRECT) as [Hlt|Hge].
  - rewrite (bind_ok _ _ _ _ _ (geti_ok ip _ s x Hx)). change (default 0 _) with (addr_at x bn).
    rewrite (proj2 (Z.eqb_neq _ _) Hne). exists (blks s). by rewrite with_blks_id.
  - rewrite (proj2 (Z.ltb_lt (bn - NDIRECT) NINDIRECT)) by (unfold MAXFILE in Hbn; lia).
    destruct (Z.eqb_spec (ind x) 0) as [|Ei]; [done|]. destruct (io_ind _ _ _ Ho Ei) as [Hdi _].
    rewrite (bind_ok _ _ _ _ _ (geti_ok ip _ s x Hx)). change (default 0 _) with (ind x). rewrite (proj2 (Z.eqb_neq _ _) Ei).
    rewrite (bind_ok _ _ s (ind x) s) by done. rewrite (proj2 (Z.eqb_neq _ _) Ei).
    destruct (peek_block v ∅ lg s (ind x) Hr (data_fsblock _ _ (dk_layout _ Hd) Hdi) (lookup_empty _)) as (h & b1 & E1 & E2 & Hr1);
      [rewrite map_size_empty; lia|].
    rewrite (bind_ok _ _ _ _ _ E1), (bind_ok _ _ _ _ _ E2). cbn zeta. rewrite (proj2 (Z.eqb_neq _ _) Hne).
    destruct (release_held v ∅ lg (with_blks b1 s) _ h Hr1 (lookup_empty _)) as (b2 & E3 & Hr2).
    exists b2. rewrite (bind_ok _ _ _ (ldw (v (ind x)) (4 * (bn - NDIRECT))) (with_blks b1 s)) by done.
    by rewrite (bind_ok _ _ _ _ _ E3).
Qed.

(** The state after the disk and the user memory have changed. *)
Definition io_state (b : S) (u : U) (s : fst S U) : fst S U := with_usr u (with_blks b s).

Section Read.
Context {P : Z -> Prop} {v : contents} {lg : gset Z} {ip : nat} {x : inode} {t : target}.
Context (Ht : target_in P t).

(** One block: [m] bytes of the file. *)
Lemma read_block (s : fst S U) V dst off m : itable s !! ip = Some x -> brep (blks s) v ∅ lg -> disk_ok (sb s) ->
  inode_ok (sb s) v x -> sees (usr s) P V -> 0 <= off < MAXFILE * BSIZE -> fblock v x (off / BSIZE) <> 0 ->
  0 <= dst < 2 ^ 64 -> 0 < m <= BSIZE - off mod BSIZE ->
  exists b1 h b2 (ok : bool) u' b' k V', bmap ip (off / BSIZE) s = Ok (fblock v x (off / BSIZE)) (with_blks b1 s) /\
    bread fsdev (fblock v x (off / BSIZE)) (with_blks b1 s) = Ok h (with_blks b2 s) /\
    bdata h (with_blks b2 s) = Ok (v (fblock v x (off / BSIZE))) (with_blks b2 s) /\
    either_copyout t dst (file_bytes v x off (Z.to_nat m)) (with_blks b2 s) = Ok ok (io_state b2 u' s) /\
    brelse h (io_state b2 u' s) = Ok tt (io_state b' u' s) /\
    brep b' v ∅ lg /\ sees u' P V' /\ moved t dst V V' (take k (file_bytes v x off (Z.to_nat m))) /\
    (if ok then k = Z.to_nat m else k < Z.to_nat m)%nat /\ (t = ToKernel -> ok = true).
Proof.
  intros Hx Hr Hd Ho Hs Hoff Hne Hdst Hm. pose proof (block_index off Hoff) as Hbn. pose proof (dk_layout _ Hd) as Hl.
  destruct (io_data _ _ _ Ho _ Hbn Hne) as (Hdb & _ & _).
  destruct (bmap_found v lg s ip x _ Hx Hr Hd Ho Hbn Hne) as (b1 & E1 & Hr1).
  destruct (peek_block v ∅ lg (with_blks b1 s) _ Hr1 (data_fsblock _ _ Hl Hdb) (lookup_empty _)) as (h & b2 & E2 & E3 & Hr2);
    [rewrite map_size_empty; lia|]. rewrite with_blks_twice in *.
  destruct (either_copyout_ok (with_blks b2 s) P V t dst (file_bytes v x off (Z.to_nat m)) Hs Ht Hdst)
    as (ok & u' & k & V' & E4 & Hs' & Hmv & Hk & Htk).
  { apply file_bytes_ok. }
  { rewrite length_file_bytes. pose proof (Z.mod_pos_bound off BSIZE ltac:(done)). lia. }
  destruct (release_held v ∅ lg (with_usr u' (with_blks b2 s)) _ h Hr2 (lookup_empty _)) as (b3 & E5 & Hr3).
  exists b1, h, b2, ok, u', b3, k, V'. by rewrite length_file_bytes in Hk.
Qed.

(** The loop: [k] more blocks at most. *)
Lemma readi_loop_spec : forall k fuel (s : fst S U) V dst off tot n got, (k < fuel)%nat ->
  itable s !! ip = Some x -> brep (blks s) v ∅ lg -> disk_ok (sb s) -> file_ok (sb s) v x -> sees (usr s) P V ->
  0 <= tot <= n -> 0 <= off -> off + (n - tot) <= isize x -> 0 <= dst -> dst + (n - tot) < 2 ^ 64 ->
  (tot = n \/ n - tot + off mod BSIZE <= Z.of_nat k * BSIZE) ->
  exists (ok : bool) got' j b' u' V', readi_loop fuel ip t dst off tot n got s = Ok (if ok then n else -1, got ++ got') (io_state b' u' s) /\
    brep b' v ∅ lg /\ sees u' P V' /\ moved t dst V V' (take j (file_bytes v x off (Z.to_nat (n - tot)))) /\
    (if ok then j = Z.to_nat (n - tot) /\ got' = file_bytes v x off (Z.to_nat (n - tot)) else t <> ToKernel /\ (j < Z.to_nat (n - tot))%nat).
Proof.
  induction k as [|k IH]; intros fuel s V dst off tot n got Hf Hx Hr Hd Ho Hs Htot Hoff Hend Hdst Hdend Hk;
    (destruct fuel as [|fuel]; [lia|]); cbn [readi_loop].
  - assert (tot = n) as ->.
    { destruct Hk; [done|]. pose proof (Z.mod_pos_bound off BSIZE ltac:(done)). lia. }
    rewrite Z.ltb_irrefl, Z.sub_diag. exists true, [], 0%nat, (blks s), (usr s), V. rewrite app_nil_r.
    split; [by destruct s|]. split; [done|]. split; [done|]. split; [|done]. apply moved_nil.
  - destruct (Z.ltb_spec tot n) as [Hlt|Hge].
    2:{ assert (tot = n) as -> by lia. rewrite Z.sub_diag. exists true, [], 0%nat, (blks s), (usr s), V. rewrite app_nil_r.
        split; [by destruct s|]. split; [done|]. split; [done|]. split; [|done]. apply moved_nil. }
    pose proof (Z.mod_pos_bound off BSIZE ltac:(done)) as Hmod. pose proof (fo_size _ _ _ Ho) as Hsz.
    set (m := Z.min (n - tot) (BSIZE - off mod BSIZE)). assert (0 < m <= BSIZE - off mod BSIZE /\ m <= n - tot) as [Hm Hmn] by (unfold m; lia).
    destruct (read_block s V dst off m Hx Hr Hd (fo_inode _ _ _ Ho) Hs) as (b1 & h & b2 & ok & u' & b3 & j & V' & E1 & E2 & E3 & E4 & E5 & Hr' & Hs' & Hmv & Hj & Htk);
      [lia|apply (fo_full _ _ _ Ho); lia|lia|done|].
    pose proof (fo_full _ _ _ Ho off ltac:(lia)) as Hne.
    rewrite (bind_ok _ _ _ _ _ (geti_ok ip _ s x Hx)), (io_dev _ _ _ (fo_inode _ _ _ Ho)).
    rewrite (bind_ok _ _ _ _ _ E1), (proj2 (Z.eqb_neq _ _) Hne), (bind_ok _ _ _ _ _ E2). cbn zeta. fold m. rewrite (bind_ok _ _ _ _ _ E3).
    rewrite (get_bytes_file v x off m), (bind_ok _ _ _ _ _ E4) by lia.
    assert (file_bytes v x off (Z.to_nat (n - tot)) = file_bytes v x off (Z.to_nat m) ++ file_bytes v x (off + m) (Z.to_nat (n - (tot + m)))) as Eapp.
    { replace (Z.to_nat (n - tot)) with (Z.to_nat m + Z.to_nat (n - (tot + m)))%nat by lia. rewrite file_bytes_app, Z2Nat.id by lia. done. }
    destruct ok.
    + rewrite (bind_ok _ _ _ _ _ E5). change (MAXFILE * BSIZE) with 274432 in Hsz. rewrite u64_small, u32_small by lia.
      destruct (IH fuel (io_state b3 u' s) V' (dst + m) (off + m) (tot + m) n (got ++ file_bytes v x off (Z.to_nat m)))
        as (ok & got' & j' & b' & u2 & V2 & E & Hr2 & Hs2 & Hmv2 & Hj2); [lia|done|done|done|done|done|lia|lia|lia|lia|lia| |].
      { apply (next_chunk k off n tot m); [done|lia|done]. }
      exists ok, (file_bytes v x off (Z.to_nat m) ++ got'), (Z.to_nat m + j')%nat, b', u2, V2. rewrite app_assoc.
      split; [exact E|]. split; [done|]. split; [done|]. rewrite Eapp. split.
      * rewrite take_app_ge, length_file_bytes by (rewrite length_file_bytes; lia).
        replace (Z.to_nat m + j' - Z.to_nat m)%nat with j' by lia. subst j.
        rewrite take_ge in Hmv by (by rewrite length_file_bytes). apply (moved_app _ _ _ _ _ _ _ Hmv).
        by rewrite length_file_bytes, Z2Nat.id by lia.
      * destruct ok; [destruct Hj2 as [-> ->]; split; [lia|done]|]. split; [apply Hj2|lia].
    + rewrite (bind_ok _ _ _ _ _ E5). exists false, [], j, b3, u', V'. rewrite app_nil_r. split; [done|]. split; [done|]. split; [done|].
      split; [|split; [|lia]].
      * rewrite Eapp, take_app_le by (rewrite length_file_bytes; lia). done.
      * intros ->. by specialize (Htk eq_refl).
Qed.

(** The bytes [readi] is to copy: none past the end, none when the range
    overflows. *)
Definition readable (x : inode) (off n : Z) : Z :=
  if (isize x <? off) || (2 ^ 32 <=? off + n) then 0 else Z.min n (isize x - off).

Lemma u32_overflow off n : 0 <= off < 2 ^ 32 -> 0 <= n < 2 ^ 32 -> (u32 (off + n) <? off) = (2 ^ 32 <=? off + n).
Proof.
  intros Ho Hn. destruct (Z.leb_spec (2 ^ 32) (off + n)) as [H|H].
  - apply Z.ltb_lt. unfold u32. replace (off + n) with (off + n - 2 ^ 32 + 1 * 2 ^ 32) by lia.
    rewrite Z.mod_add, Z.mod_small by lia. lia.
  - apply Z.ltb_ge. rewrite u32_small by lia. lia.
Qed.

Lemma readi_spec (s : fst S U) V off n : let m := readable x off n in
  itable s !! ip = Some x -> brep (blks s) v ∅ lg -> disk_ok (sb s) -> file_ok (sb s) v x -> sees (usr s) P V ->
  0 <= off < 2 ^ 32 -> 0 <= n < 2 ^ 32 -> 0 <= target_addr t -> target_addr t + n < 2 ^ 64 ->
  exists (ok : bool) got j b' u' V', readi ip t off n s = Ok (if ok then m else -1, got) (io_state b' u' s) /\
    brep b' v ∅ lg /\ sees u' P V' /\ moved t (target_addr t) V V' (take j (file_bytes v x off (Z.to_nat m))) /\
    (if ok then j = Z.to_nat m /\ got = file_bytes v x off (Z.to_nat m) else t <> ToKernel /\ (j < Z.to_nat m)%nat).
Proof.
  intros m Hx Hr Hd Ho Hs Hoff Hn Ha He. unfold readi. rewrite (bind_ok _ _ _ _ _ (geti_ok ip _ s x Hx)).
  rewrite u32_overflow by done. unfold m, readable. destruct ((isize x <? off) || (2 ^ 32 <=? off + n)) eqn:Eg.
  - exists true, [], 0%nat, (blks s), (usr s), V. split; [by destruct s|]. split; [done|]. split; [done|]. split; [|done].
    apply moved_nil.
  - apply orb_false_iff in Eg as [E1 E2]. boolz. rewrite u32_small by lia.
    assert ((if isize x <? off + n then isize x - off else n) = Z.min n (isize x - off)) as -> by (case_match; boolz; lia).
    set (k := Z.min n (isize x - off)).
    destruct (readi_loop_spec (Z.to_nat (k / BSIZE) + 2) (Z.to_nat (k / BSIZE) + 3) s V (target_addr t) off 0 k [])
      as (ok & got & j & b' & u' & V' & E & H); try done; try (unfold k; lia).
    + right. pose proof (Z.mod_pos_bound off BSIZE ltac:(done)). pose proof (Z.mod_pos_bound k BSIZE ltac:(done)).
      pose proof (Z.div_mod k BSIZE ltac:(done)). rewrite Nat2Z.inj_add, Z2Nat.id by (apply Z.div_pos; [unfold k; lia|done]). lia.
    + rewrite Z.sub_0_r in H. exists ok, got, j, b', u', V'. done.
Qed.
End Read.
End Contents.
