(* ===== verification/FsWrite.v ===== *)
(** * Writing a file

    [writei] replaces bytes of the file, extends it when needed, and leaves
    every other block in use alone. *)

From S2P Require Import Prelude Riscv Mem Lock Bio Blocks UserIO Fs FsBlocks FsFiles FsMap FsContents.
Import KString.
Local Open Scope Z_scope.

(** [b] is a block of the file or of the free map. *)
Definition own_block (d : superblock) (v : contents) (x : inode) (b : Z) : Prop :=
  b = ind x \/ is_bmap (sb := d) b \/ exists bn, 0 <= bn < MAXFILE /\ fblock v x bn = b.

(** The bytes of the file from [off] on are [bs]. *)
Record written {S} {HB : Blocks S} (d : superblock) (v : contents) (x : inode) (off : Z) (bs : list Z) (v' : contents) (x' : inode) : Prop := {
  wr_ok : inode_ok d v' x';
  wr_meta : meta_used d v';
  wr_used : forall b, 0 <= b < size_ d -> used d v b = true -> used d v' b = true;
  wr_keep : forall bn, 0 <= bn < MAXFILE -> fblock v x bn <> 0 -> fblock v' x' bn = fblock v x bn;
  wr_fresh : forall bn, 0 <= bn < MAXFILE -> fblock v x bn = 0 -> fblock v' x' bn <> 0 -> used d v (fblock v' x' bn) = false;
  wr_ind : ind x <> 0 -> ind x' = ind x;
  wr_indnew : ind x = 0 -> ind x' <> 0 -> used d v (ind x') = false;
  wr_old : forall o, 0 <= o < MAXFILE * BSIZE -> fblock v x (o / BSIZE) <> 0 -> inrange off (Z.of_nat (length bs)) o = false ->
    fbyte v' x' o = fbyte v x o;
  wr_new : forall i b, bs !! i = Some b -> fblock v' x' ((off + Z.of_nat i) / BSIZE) <> 0 /\ fbyte v' x' (off + Z.of_nat i) = b;
  wr_other : forall b, 0 <= b < size_ d -> used d v b = true -> ~ own_block d v x b -> v' b = v b;
  wr_rest : x' = set_iaddrs (fun _ => iaddrs x') x
}.

Section Written.
Context {S : Type} {HB : Blocks S} {d : superblock} (Hl : layout d).

(** More blocks, no bytes. *)
Lemma written_grown v x v' x' off : inode_ok d v x -> grown d v x v' x' -> written d v x off [] v' x'.
Proof.
  intros Ho G. constructor; try apply G.
  - intros o Hr Hne _. by apply (grown_byte Hl v x v' x').
  - done.
  - intros b Hb Hu Hn. apply (gr_other _ _ _ _ _ G); [done|done| |]; intros H; apply Hn; [by left|by right; left].
Qed.

(** Bytes of a block the file has. *)
Lemma written_block v x off bs : inode_ok d v x -> meta_used d v -> 0 <= off < MAXFILE * BSIZE -> Forall byte_ok bs ->
  fblock v x (off / BSIZE) <> 0 -> Z.of_nat (length bs) <= BSIZE - off mod BSIZE ->
  let a := fblock v x (off / BSIZE) in written d v x off bs (setv a (put_bytes (v a) (off mod BSIZE) bs) v) x.
Proof.
  intros Ho Hm Hoff Hf Hne Hlen a. pose proof (block_index off Hoff) as Hbn.
  destruct (io_data _ _ _ Ho _ Hbn Hne) as (Hda & Hua & Hia). fold a in Hda, Hua, Hia.
  set (v' := setv a (put_bytes (v a) (off mod BSIZE) bs) v).
  assert (v' (ind x) = v (ind x)) as Ei by (unfold v'; apply setv_ne; congruence).
  assert (forall bn, fblock v' x bn = fblock v x bn) as Ef by (intros bn; unfold fblock; by rewrite Ei).
  assert (forall b, 0 <= b < size_ d -> used d v' b = used d v b) as Eu by (intros; by apply used_data).
  assert (forall o, 0 <= o < MAXFILE * BSIZE -> fblock v x (o / BSIZE) <> 0 ->
    fbyte v' x o = if inrange off (Z.of_nat (length bs)) o then nthb bs (Z.to_nat (o - off)) else fbyte v x o) as Hbyte.
  { intros o Ho' Hno. unfold fbyte. rewrite Ef. unfold v', setv. case_decide as E.
    - assert (o / BSIZE = off / BSIZE) as Eo by (apply (io_inj _ _ _ Ho); [by apply block_index|done|done|done]).
      rewrite E, put_bytes_spec by done.
      assert (o mod BSIZE - off mod BSIZE = o - off) as Em by (rewrite !Z.mod_eq, Eo by done; lia).
      rewrite Em. replace (inrange (off mod BSIZE) (Z.of_nat (length bs)) (o mod BSIZE)) with (inrange off (Z.of_nat (length bs)) o); [done|].
      apply eq_true_iff_eq. rewrite !inrange_true. lia.
    - destruct (inrange off (Z.of_nat (length bs)) o) eqn:Er; [|done]. apply inrange_true in Er. exfalso. apply E. unfold a.
      destruct (same_block off (o - off)) as [E1 _]; [lia|lia|]. rewrite Zplus_minus in E1. by rewrite E1. }
  constructor.
  - constructor; try apply Ho; try setoid_rewrite Ef.
    + intros Hi. rewrite Eu; [by apply Ho|]. apply (data_index Hl). by apply Ho.
    + intros bn Hb Hn. rewrite Eu; [by apply Ho|]. apply (data_index Hl). by apply Ho.
    + apply Ho.
  - by apply (meta_data Hl).
  - intros b Hb. by rewrite Eu.
  - intros bn _ _. apply Ef.
  - intros bn _ E. by rewrite Ef.
  - done.
  - done.
  - intros o Ho' Hno Er. by rewrite Hbyte, Er by done.
  - intros i b Hi. rewrite Ef. pose proof (lookup_lt_Some _ _ _ Hi).
    destruct (same_block off (Z.of_nat i)) as [E1 _]; [lia|lia|]. rewrite E1. split; [done|].
    assert (off + Z.of_nat i < MAXFILE * BSIZE) as Hlt.
    { pose proof (Z.div_mod (off + Z.of_nat i) BSIZE ltac:(done)). pose proof (Z.mod_pos_bound (off + Z.of_nat i) BSIZE ltac:(done)). nia. }
    rewrite Hbyte by (lia || by rewrite E1). rewrite (proj2 (inrange_true _ _ _)) by lia.
    replace (Z.to_nat (off + Z.of_nat i - off)) with i by lia. unfold nthb. by rewrite Hi.
  - intros b Hb Hu Hn. unfold v'. apply setv_ne. intros ->. apply Hn. right; right. by exists (off / BSIZE).
  - by destruct x.
Qed.

Lemma own_later v x off bs v1 x1 b : inode_ok d v x -> written d v x off bs v1 x1 -> used d v b = true ->
  own_block d v1 x1 b -> own_block d v x b.
Proof.
  intros Ho W Hu [->|[H|(bn & Hbn & <-)]].
  - destruct (decide (ind x = 0)) as [E|E]; [|left; by apply (wr_ind _ _ _ _ _ _ _ W)]. destruct (decide (ind x1 = 0)) as [E1|E1]; [left; congruence|].
    pose proof (wr_indnew _ _ _ _ _ _ _ W E E1). congruence.
  - by right; left.
  - right; right. exists bn. split; [done|]. destruct (decide (fblock v x bn = 0)) as [E|E]; [|by rewrite (wr_keep _ _ _ _ _ _ _ W)].
    destruct (decide (fblock v1 x1 bn = 0)) as [E1|E1]; [congruence|].
    pose proof (wr_fresh _ _ _ _ _ _ _ W bn Hbn E E1). congruence.
Qed.

Lemma used_earlier v x off bs v1 x1 b : written d v x off bs v1 x1 -> data_block d b -> used d v1 b = false -> used d v b = false.
Proof.
  intros W Hb Hu. destruct (used d v b) eqn:E; [|done]. rewrite (wr_used _ _ _ _ _ _ _ W) in Hu; [done|by apply (data_index Hl)|done].
Qed.

Lemma written_trans v x off bs v1 x1 cs v2 x2 : inode_ok d v x -> 0 <= off ->
  off + Z.of_nat (length bs) + Z.of_nat (length cs) <= MAXFILE * BSIZE ->
  written d v x off bs v1 x1 -> written d v1 x1 (off + Z.of_nat (length bs)) cs v2 x2 ->
  written d v x off (bs ++ cs) v2 x2.
Proof.
  intros Ho Hoff Hend W1 W2. constructor.
  - apply W2.
  - apply W2.
  - intros b Hb Hu. apply W2; [done|]. by apply W1.
  - intros bn Hbn Hne. pose proof (wr_keep _ _ _ _ _ _ _ W1 bn Hbn Hne) as E. rewrite (wr_keep _ _ _ _ _ _ _ W2) by congruence. done.
  - intros bn Hbn E0 H2. destruct (decide (fblock v1 x1 bn = 0)) as [E|E].
    + apply (used_earlier v x off bs v1 x1); [done| |by apply W2]. by apply (io_data _ _ _ (wr_ok _ _ _ _ _ _ _ W2)).
    + rewrite (wr_keep _ _ _ _ _ _ _ W2 bn Hbn E). by apply W1.
  - intros Hi. rewrite (wr_ind _ _ _ _ _ _ _ W2); rewrite (wr_ind _ _ _ _ _ _ _ W1); done.
  - intros H0 H2. destruct (decide (ind x1 = 0)) as [E|E].
    + apply (used_earlier v x off bs v1 x1); [done| |by apply W2]. by apply (io_ind _ _ _ (wr_ok _ _ _ _ _ _ _ W2)).
    + rewrite (wr_ind _ _ _ _ _ _ _ W2 E) in *. by apply W1.
  - intros o Ho' Hne Er. rewrite length_app in Er. apply inrange_false in Er.
    pose proof (wr_keep _ _ _ _ _ _ _ W1 _ (block_index o Ho') Hne).
    rewrite (wr_old _ _ _ _ _ _ _ W2); [|done|congruence|apply inrange_false; lia].
    apply (wr_old _ _ _ _ _ _ _ W1); [done|done|]. apply inrange_false. lia.
  - intros i b Hi. destruct (decide (i < length bs)%nat) as [H|H].
    + rewrite lookup_app_l in Hi by done. destruct (wr_new _ _ _ _ _ _ _ W1 i b Hi) as [Hn E].
      assert (0 <= off + Z.of_nat i < MAXFILE * BSIZE) as Hr by lia.
      rewrite (wr_keep _ _ _ _ _ _ _ W2); [|by apply block_index|done]. split; [done|].
      rewrite (wr_old _ _ _ _ _ _ _ W2); [done|done|done|apply inrange_false; lia].
    + rewrite lookup_app_r in Hi by lia. destruct (wr_new _ _ _ _ _ _ _ W2 _ b Hi) as [Hn E].
      replace (off + Z.of_nat (length bs) + Z.of_nat (i - length bs)) with (off + Z.of_nat i) in * by lia. done.
  - intros b Hb Hu Hn. rewrite (wr_other _ _ _ _ _ _ _ W2); [by apply W1|done|by apply W1|].
    intros H. apply Hn. by apply (own_later v x off bs v1 x1).
  - rewrite (wr_rest _ _ _ _ _ _ _ W2), (wr_rest _ _ _ _ _ _ _ W1) at 1. by destruct x.
Qed.
End Written.

Section Write.
Context {S U : Type} {HB : Blocks S} {HU : UserSpace U} (Hbuf : BSIZE <= bufsize).

(** The bytes the caller gives. *)
Definition origin_bytes (V : views) (o : origin) (bs : list Z) : Prop :=
  match o with
  | FromUser pt a => forall i b, bs !! i = Some b -> V pt (a + Z.of_nat i) = Some b
  | FromKernel bytes => bs = bytes
  end.
Definition origin_in (P : Z -> Prop) (o : origin) : Prop := match o with FromUser pt _ => P pt | FromKernel _ => True end.

Lemma either_copyin_ok (s : fst S U) P V o bs old j : sees (usr s) P V -> origin_in P o -> origin_bytes V o bs ->
  Forall byte_ok old -> Z.of_nat (length old) <= BSIZE -> (j + length old <= length bs)%nat ->
  0 <= origin_addr o -> origin_addr o + Z.of_nat (length bs) < 2 ^ 64 ->
  exists u', either_copyin old o (origin_addr o + Z.of_nat j) s = Ok (take (length old) (drop j bs), true) (with_usr u' s) /\ sees u' P V.
Proof.
  intros Hs Hi Hb Hf Hn Hj Ha He. destruct o as [pt a|bytes]; cbn in *.
  - destruct (copy_in_law (usr s) P pt V (a + Z.of_nat j) old Hs Hi) as ([bs' ok] & u' & E & Hs' & (cs & E1 & _ & Hc & Hok)); [lia|done|lia|].
    cbn [Datatypes.fst snd] in *. exists u'. split; [|done]. unfold usrop, zoom. rewrite E.
    assert (forall i, (i < length old)%nat -> exists b, bs !! (j + i)%nat = Some b /\ V pt (a + Z.of_nat j + Z.of_nat i) = Some b) as Hget.
    { intros i Hi'. destruct (lookup_lt_is_Some_2 bs (j + i)) as [b Hbi]; [lia|]. exists b. split; [done|].
      replace (a + Z.of_nat j + Z.of_nat i) with (a + Z.of_nat (j + i)) by lia. by apply Hb. }
    destruct ok.
    + rewrite Hok, drop_all, app_nil_r in E1. subst bs'. do 2 f_equal. f_equal. apply list_eq. intros i.
      destruct (decide (i < length old)%nat) as [H|H].
      * rewrite lookup_take_lt, lookup_drop by done. destruct (Hget i H) as (b & -> & Hv).
        destruct (lookup_lt_is_Some_2 cs i) as [c Hci]; [lia|]. rewrite Hci. rewrite (Hc i c Hci) in Hv. congruence.
      * rewrite !lookup_ge_None_2; [done| |lia]. rewrite length_take. lia.
    + destruct Hok as [H1 H2]. destruct (Hget (length cs) H1) as (b & _ & Hv). congruence.
  - subst bytes. exists (usr s). split; [|done]. rewrite Z.add_0_l, Nat2Z.id. by destruct s.
Qed.

Definition wstate (b : S) (u : U) (ip : nat) (x : inode) (s : fst S U) : fst S U := with_usr u (at_ b ip x s).

Lemma wstate_twice b u b' u' ip x x' s : wstate b u ip x (wstate b' u' ip x' s) = wstate b u ip x s.
Proof. unfold wstate, with_usr, at_. cbn. by rewrite list_insert_insert_eq. Qed.
Lemma wstate_lookup b u ip x x' s : itable s !! ip = Some x' -> itable (wstate b u ip x s) !! ip = Some x.
Proof. apply (at_lookup b). Qed.
Lemma wstate_id ip x s : itable s !! ip = Some x -> s = wstate (blks s) (usr s) ip x s.
Proof. intros H. unfold wstate, with_usr, at_. cbn. rewrite list_insert_id by done. by destruct s. Qed.

Context {P : Z -> Prop} {V : views} {o : origin} {bs : list Z} {ip : nat}.
Context (Hin : origin_in P o) (Hbs : origin_bytes V o bs) (Hok : Forall byte_ok bs).
Context (Ha : 0 <= origin_addr o) (He : origin_addr o + Z.of_nat (length bs) < 2 ^ 64).

(** One block: [m] bytes from the [j]th on. *)
Lemma write_block (s : fst S U) v lg x off (j m : nat) : let d := sb s in
  itable s !! ip = Some x -> brep (blks s) v ∅ lg -> disk_ok d -> meta_used d v -> inode_ok d v x -> sees (usr s) P V ->
  0 <= off < MAXFILE * BSIZE -> cost d lg + 2 <= MAXOPBLOCKS ->
  (0 < m)%nat -> Z.of_nat m <= BSIZE - off mod BSIZE -> (j + m <= length bs)%nat ->
  let old w y := get_bytes (w (fblock w y (off / BSIZE))) (off mod BSIZE) (Z.of_nat m) in
  exists b1 v1 lg1 x1, bmap ip (off / BSIZE) s = Ok (fblock v1 x1 (off / BSIZE)) (at_ b1 ip x1 s) /\
    if decide (fblock v1 x1 (off / BSIZE) = 0) then
      brep b1 v1 ∅ lg1 /\ written d v x off [] v1 x1 /\ cost d lg1 <= cost d lg + 2 /\
      forall c, 0 <= c < size_ d -> used d v1 c = true
    else exists h b2 u' b3 v3 lg3, bread fsdev (fblock v1 x1 (off / BSIZE)) (at_ b1 ip x1 s) = Ok h (at_ b2 ip x1 s) /\
      bdata h (at_ b2 ip x1 s) = Ok (v1 (fblock v1 x1 (off / BSIZE))) (at_ b2 ip x1 s) /\
      either_copyin (old v1 x1) o (origin_addr o + Z.of_nat j) (at_ b2 ip x1 s) =
        Ok (take m (drop j bs), true) (wstate b2 u' ip x1 s) /\
      (bset h (put_bytes (v1 (fblock v1 x1 (off / BSIZE))) (off mod BSIZE) (take m (drop j bs))) ;; log_write h ;; brelse h)
        (wstate b2 u' ip x1 s) = Ok tt (wstate b3 u' ip x1 s) /\
      brep b3 v3 ∅ lg3 /\ sees u' P V /\ written d v x off (take m (drop j bs)) v3 x1 /\ cost d lg3 <= cost d lg + 2.
Proof.
  intros d Hx Hr Hd Hm Ho Hs Hoff Hc Hm0 Hmb Hj old. pose proof (block_index off Hoff) as Hbn. pose proof (dk_layout _ Hd) as Hl.
  destruct (bmap_spec v lg s ip x _ Hx Hr Hd Hm Ho Hbn Hc) as (b1 & v1 & lg1 & x1 & E1 & Hr1 & M).
  exists b1, v1, lg1, x1. split; [done|]. pose proof (mp_grown _ _ _ _ _ _ _ _ M) as G. case_decide as E0.
  { split; [done|]. split; [by apply written_grown|]. split; [apply M|]. by apply (mp_full _ _ _ _ _ _ _ _ M). }
  set (a := fblock v1 x1 (off / BSIZE)) in *. set (ch := take m (drop j bs)).
  destruct (io_data _ _ _ (gr_ok _ _ _ _ _ G) _ Hbn E0) as (Hda & _ & _).
  destruct (peek_block v1 ∅ lg1 (at_ b1 ip x1 s) a Hr1 (data_fsblock _ _ Hl Hda) (lookup_empty _)) as (h & b2 & E2 & E3 & Hr2);
    [rewrite map_size_empty; lia|]. rewrite at_blks in *.
  assert (length (old v1 x1) = m) as Elen by (unfold old; by rewrite length_get_bytes, Nat2Z.id).
  assert (length ch = m) as Ech by (unfold ch; rewrite length_take, length_drop; lia).
  pose proof (Z.mod_pos_bound off BSIZE ltac:(done)).
  destruct (either_copyin_ok (at_ b2 ip x1 s) P V o bs (old v1 x1) j Hs Hin Hbs) as (u' & E4 & Hs'); [apply get_bytes_ok|lia|lia|done|done|].
  rewrite Elen in E4.
  destruct (update_held v1 ∅ lg1 (wstate b2 u' ip x1 s) a h (v1 a) (put_bytes (v1 a) (off mod BSIZE) ch) Hr2 (lookup_empty _)) as (b3 & E5 & Hr3).
  { destruct (decide (fblock v x (off / BSIZE) = 0)) as [E|E]; [left; by apply (mp_new _ _ _ _ _ _ _ _ M)|right].
    destruct (mp_same _ _ _ _ _ _ _ _ M E) as (_ & -> & _). apply (cost_log (d := d)). lia. }
  exists h, b2, u', b3, (setv a (put_bytes (v1 a) (off mod BSIZE) ch) v1), ({[a]} ∪ lg1).
  split; [done|]. split; [done|]. split; [done|]. split; [exact E5|]. split; [done|]. split; [done|]. split.
  - apply (written_trans Hl v x off [] v1 x1 ch); [done|lia| |by apply written_grown|].
    + cbn [length]. pose proof (Z.div_mod off BSIZE ltac:(done)). nia.
    + cbn [length]. rewrite Z.add_0_r. apply (written_block Hl); [apply G|apply G|done|by apply Forall_take, Forall_drop|done|lia].
  - destruct (decide (fblock v x (off / BSIZE) = 0)) as [E|E].
    + pose proof (mp_new _ _ _ _ _ _ _ _ M E E0). replace ({[a]} ∪ lg1) with lg1 by set_solver. apply M.
    + destruct (mp_same _ _ _ _ _ _ _ _ M E) as (_ & -> & _). pose proof (cost_add (d := d) a lg). lia.
Qed.

(** The loop: [k] more blocks at most. *)
Lemma writei_loop_spec : forall k fuel (s : fst S U) v lg x off (j : nat), let d := sb s in let n := Z.of_nat (length bs) in
  (k < fuel)%nat -> itable s !! ip = Some x -> brep (blks s) v ∅ lg -> disk_ok d -> meta_used d v -> inode_ok d v x -> sees (usr s) P V ->
  (j <= length bs)%nat -> 0 <= off -> off + (n - Z.of_nat j) <= MAXFILE * BSIZE ->
  cost d lg + 2 * Z.of_nat k <= MAXOPBLOCKS ->
  (Z.of_nat j = n \/ n - Z.of_nat j + off mod BSIZE <= Z.of_nat k * BSIZE) ->
  exists (i : nat) b' u' v' lg' x', writei_loop fuel ip o (origin_addr o + Z.of_nat j) off (Z.of_nat j) n s =
      Ok (Z.of_nat (j + i), off + Z.of_nat i) (wstate b' u' ip x' s) /\
    brep b' v' ∅ lg' /\ sees u' P V /\ (j + i <= length bs)%nat /\ written d v x off (take i (drop j bs)) v' x' /\
    cost d lg' <= cost d lg + 2 * Z.of_nat k /\
    ((j + i < length bs)%nat -> forall c, 0 <= c < size_ d -> used d v' c = true).
Proof.
  induction k as [|k IH]; intros fuel s v lg x off j d n Hf Hx Hr Hd Hm Ho Hs Hj Hoff Hend Hc Hk;
    (destruct fuel as [|fuel]; [lia|]); cbn [writei_loop]; pose proof (Z.mod_pos_bound off BSIZE ltac:(done)) as Hmod;
    (destruct (Z.ltb_spec (Z.of_nat j) n) as [Hlt|Hge];
      [|exists 0%nat, (blks s), (usr s), v, lg, x; rewrite Nat.add_0_r, Z.add_0_r; rewrite <- wstate_id by done;
        split; [done|]; split; [done|]; split; [done|]; split; [done|];
        split; [apply (written_grown (dk_layout _ Hd)); [done|by apply grown_refl]|]; split; [lia|unfold n in *; lia]]).
  - destruct Hk; lia.
  - set (mz := Z.min (n - Z.of_nat j) (BSIZE - off mod BSIZE)). set (m := Z.to_nat mz).
    assert (0 < mz /\ mz = Z.of_nat m /\ mz <= BSIZE - off mod BSIZE /\ mz <= n - Z.of_nat j) as (Hm0 & Emz & Hmb & Hmn) by (unfold m, mz; lia).
    destruct (write_block s v lg x off j m Hx Hr Hd Hm Ho Hs) as (b1 & v1 & lg1 & x1 & E1 & Hcase); [lia|unfold d in *; lia|lia|lia|unfold n in *; lia|].
    rewrite (bind_ok _ _ _ _ _ (geti_ok ip _ s x Hx)), (io_dev _ _ _ Ho), (bind_ok _ _ _ _ _ E1). case_decide as E0.
    { destruct Hcase as (Hr1 & W & Hc1 & Hfull). rewrite (proj2 (Z.eqb_eq _ _) E0).
      exists 0%nat, b1, (usr s), v1, lg1, x1. rewrite Nat.add_0_r, Z.add_0_r.
      split; [done|]. split; [done|]. split; [done|]. split; [done|]. split; [done|]. split; [unfold d; lia|done]. }
    destruct Hcase as (h & b2 & u' & b3 & v3 & lg3 & E2 & E3 & E4 & E5 & Hr3 & Hs3 & W & Hc3).
    rewrite (proj2 (Z.eqb_neq _ _) E0), (bind_ok _ _ _ _ _ E2). cbn zeta. fold mz. rewrite (bind_ok _ _ _ _ _ E3), Emz, (bind_ok _ _ _ _ _ E4).
    cbn [Datatypes.fst snd]. rewrite seq3, (bind_ok _ _ _ _ _ E5). change (MAXFILE * BSIZE) with 274432 in Hend.
    rewrite u64_small, u32_small by (unfold n in *; lia).
    assert (length (take m (drop j bs)) = m) as Elen by (rewrite length_take, length_drop; unfold n in *; lia).
    destruct (IH fuel (wstate b3 u' ip x1 s) v3 lg3 x1 (off + mz) (j + m)%nat) as (i & b' & u2 & v' & lg' & x' & E & Hr' & Hs' & Hj' & W' & Hc' & Hfull);
      [lia|by eapply wstate_lookup|done|done|apply W|apply W|done|unfold n in *; lia|lia|change (MAXFILE * BSIZE) with 274432; unfold n in *; lia
      |change (sb (wstate b3 u' ip x1 s)) with d; unfold d in *; lia| |].
    { rewrite Nat2Z.inj_add, <- Emz. by apply (next_chunk k off n (Z.of_nat j) mz). }
    exists (m + i)%nat, b', u2, v', lg', x'. change (sb (wstate b3 u' ip x1 s)) with d in *. rewrite wstate_twice in E.
    split; [|split; [done|split; [done|split; [lia|split; [|split; [unfold d in *; lia|]]]]]].
    + replace (j + (m + i))%nat with (j + m + i)%nat by lia. rewrite Nat2Z.inj_add, Z.add_assoc, <- Emz in E.
      rewrite <- Emz. replace (off + Z.of_nat (m + i)) with (off + mz + Z.of_nat i) by lia. exact E.
    + replace (take (m + i) (drop j bs)) with (take m (drop j bs) ++ take i (drop (j + m) bs)).
      2:{ rewrite <- drop_drop, <- take_take_drop. done. }
      apply (written_trans (dk_layout _ Hd) v x off _ v3 x1); [done|done| |done|].
      * rewrite Elen, length_take, length_drop. change (MAXFILE * BSIZE) with 274432. unfold n in *. lia.
      * by rewrite Elen, <- Emz.
    + intros H. apply Hfull. lia.
Qed.
End Write.
