(* ===== verification/FsInode.v ===== *)
(** * Inodes on disk, and the whole of [writei]

    [iupdate] writes an inode to its block and [ilock] reads it back; [writei]
    as its callers use it, with the file's size. *)

From S2P Require Import Prelude Riscv Mem Lock Bio Blocks UserIO Fs FsBlocks FsFiles FsMap FsContents FsWrite.
Import KString.
Local Open Scope Z_scope.

(** ** The on-disk inode *)

(** The fields fit their width on disk. *)
Record dinode_ok (x : inode) : Prop := {
  dn_short : forall f, f ∈ [itype x; imajor x; iminor x; inlink x] -> - 2 ^ 15 <= f < 2 ^ 15;
  dn_size : 0 <= isize x < 2 ^ 32;
  dn_len : length (iaddrs x) = 13%nat;
  dn_addrs : Forall (fun a => 0 <= a < 2 ^ 32) (iaddrs x)
}.

Lemma put_addrs_other l : forall d off o, o < off \/ off + 4 * Z.of_nat (length l) <= o -> ld8 (put_addrs d off l) o = ld8 d o.
Proof.
  induction l as [|a l IH]; intros d off o H; [done|]. cbn [put_addrs length] in *. rewrite IH by lia.
  apply (ld8_stn_other 4), inrange_false. lia.
Qed.

Lemma ldw_ext d d' o : (forall i, 0 <= i < 4 -> ld8 d (o + i) = ld8 d' (o + i)) -> ldw d o = ldw d' o.
Proof. intros H. apply ldn_ext. intros i Hi. by apply H. Qed.

Lemma put_addrs_at l : forall d off i a, Forall (fun a => 0 <= a < 2 ^ 32) l -> l !! i = Some a ->
  ldw (put_addrs d off l) (off + 4 * Z.of_nat i) = a.
Proof.
  induction l as [|c l IH]; intros d off i a Hf Hi; [done|]. apply Forall_cons in Hf as [Hc Hf]. cbn [put_addrs].
  destruct i as [|i]; cbn in Hi.
  - injection Hi as ->. rewrite Z.add_0_r. erewrite ldw_ext; [by apply ldw_stw_same|].
    intros i Hi. apply put_addrs_other. lia.
  - replace (off + 4 * Z.of_nat (S i)) with (off + 4 + 4 * Z.of_nat i) by lia. by apply IH.
Qed.

Lemma lds16_st16_same d o a : - 2 ^ 15 <= a < 2 ^ 15 -> lds16 (st16 d o a) o = a.
Proof.
  intros H. unfold lds16, st16. rewrite (ldn_stn_same 2). change (2 ^ (8 * Z.of_nat 2)) with (2 ^ 16).
  unfold s16. rewrite Zplus_mod_idemp_l, Z.mod_small by lia. lia.
Qed.
Lemma lds16_st16_other d o p a : p + 2 <= o \/ o + 2 <= p -> lds16 (st16 d o a) p = lds16 d p.
Proof. intros H. unfold lds16. f_equal. apply ldn_ext. intros i Hi. apply (ld8_stn_other 2), inrange_false. lia. Qed.

(** [iupdate] then [ilock] gives the inode back. *)
Lemma get_put_dinode x d y : dinode_ok x -> inum y = inum x ->
  get_dinode (put_dinode x d) y =
    mkinode (idev y) (inum y) (iref y) (ilk y) (ivalid y) (itype x) (imajor x) (iminor x) (inlink x) (isize x) (iaddrs x).
Proof.
  intros [Hs Hz Hn Ha] En. unfold get_dinode, put_dinode. rewrite En. set (o := dip (inum x)).
  set (d1 := st16 _ (o + 6) _). set (d2 := stw d1 _ _).
  assert (forall p, p + 2 <= o + 12 -> lds16 (put_addrs d2 (o + 12) (iaddrs x)) p = lds16 d2 p) as E1.
  { intros p Hp. unfold lds16. f_equal. apply ldn_ext. intros i Hi. apply put_addrs_other. lia. }
  assert (forall p, p + 2 <= o + 8 -> lds16 d2 p = lds16 d1 p) as E2.
  { intros p Hp. unfold lds16. f_equal. apply ldn_ext. intros i Hi. apply (ld8_stn_other 4), inrange_false. lia. }
  f_equal.
  1-4: rewrite E1, E2 by lia; unfold d1; rewrite ?lds16_st16_other by lia; apply lds16_st16_same, Hs; set_solver.
  - rewrite (ldw_ext _ d2) by (intros i Hi; apply put_addrs_other; lia). apply ldw_stw_same. lia.
  - apply list_eq. intros i. rewrite list_lookup_fmap. destruct (decide (i < 13)%nat) as [Hi|Hi].
    + rewrite lookup_seq_lt by done. cbn [fmap option_fmap option_map]. destruct (lookup_lt_is_Some_2 (iaddrs x) i) as [a Hia]; [lia|].
      rewrite Hia. f_equal. by apply put_addrs_at.
    + rewrite !lookup_ge_None_2; [done|lia|]. rewrite length_seq. lia.
Qed.

(** The other inodes of the block stay. *)
Lemma put_dinode_other x d o : length (iaddrs x) = 13%nat -> o < dip (inum x) \/ dip (inum x) + 64 <= o ->
  ld8 (put_dinode x d) o = ld8 d o.
Proof.
  intros Hn Ho. unfold put_dinode. rewrite put_addrs_other by (rewrite Hn; lia). unfold stw, st16.
  rewrite (ld8_stn_other 4) by (apply inrange_false; lia). rewrite !(ld8_stn_other 2) by (apply inrange_false; lia). done.
Qed.

Lemma get_dinode_other x d y : length (iaddrs x) = 13%nat -> inum y mod IPB <> inum x mod IPB ->
  get_dinode (put_dinode x d) y = get_dinode d y.
Proof.
  intros Hn Hne. assert (forall i, 0 <= i < 64 -> ld8 (put_dinode x d) (dip (inum y) + i) = ld8 d (dip (inum y) + i)) as E.
  { intros i Hi. apply put_dinode_other; [done|]. unfold dip. lia. }
  assert (forall k, 0 <= k -> k + 2 <= 64 -> lds16 (put_dinode x d) (dip (inum y) + k) = lds16 d (dip (inum y) + k)) as E16.
  { intros k H1 H2. unfold lds16. f_equal. apply ldn_ext. intros i Hi. rewrite <- Z.add_assoc. apply E. lia. }
  assert (forall k, 0 <= k -> k + 4 <= 64 -> ldw (put_dinode x d) (dip (inum y) + k) = ldw d (dip (inum y) + k)) as E32.
  { intros k H1 H2. apply ldw_ext. intros i Hi. rewrite <- Z.add_assoc. apply E. lia. }
  unfold get_dinode. f_equal; [rewrite <- (Z.add_0_r (dip _)); by apply E16|by apply E16|by apply E16|by apply E16|by apply E32|].
  apply map_ext_in. intros i Hi. apply in_seq in Hi. rewrite <- Z.add_assoc. apply E32; lia.
Qed.

(** ** The block of an inode *)
Section Iblock.
Context {S : Type} {HB : Blocks S} {d : superblock} (Hl : layout d) {n : Z} (Hn : 0 <= n < ninodes d).

Lemma iblock_range : inodestart d <= IBLOCK n d < bmapstart d.
Proof.
  destruct Hl as [Hs Hi [Hn0 Hnb] Hm _].
  assert (0 <= n / IPB <= ninodes d / IPB) by (split; [apply Z.div_pos; [lia|done]|apply Z.div_le_mono; [done|lia]]).
  assert (0 <= size_ d / BPB) by (apply Z.div_pos; [lia|done]).
  unfold IBLOCK. rewrite u32_small by lia. lia.
Qed.

Lemma iblock_eq : IBLOCK n d = n / IPB + inodestart d.
Proof.
  destruct Hl as [Hs Hi [Hn0 Hnb] Hm _].
  assert (0 <= n / IPB <= ninodes d / IPB) by (split; [apply Z.div_pos; [lia|done]|apply Z.div_le_mono; [done|lia]]).
  assert (0 <= size_ d / BPB) by (apply Z.div_pos; [lia|done]). apply u32_small. lia.
Qed.

Lemma iblock_index : 0 < IBLOCK n d < size_ d.
Proof.
  pose proof iblock_range. destruct Hl as [Hs Hi _ Hm _]. assert (0 <= size_ d / BPB) by (apply Z.div_pos; [lia|done]). lia.
Qed.

Lemma iblock_fs : fsblock (IBLOCK n d).
Proof.
  pose proof iblock_range. destruct Hl as [Hs Hi _ Hm Hb]. assert (0 <= size_ d / BPB) by (apply Z.div_pos; [lia|done]). apply Hb. lia.
Qed.

Lemma iblock_not_data : ~ data_block d (IBLOCK n d).
Proof.
  pose proof iblock_range. unfold data_block. destruct Hl as [Hs _ _ _ _].
  assert (0 <= size_ d / BPB) by (apply Z.div_pos; [lia|done]). lia.
Qed.

Lemma iblock_not_bmap : ~ is_bmap (sb := d) (IBLOCK n d).
Proof. intros (c & Hc & E). pose proof iblock_range. destruct (BBLOCK_range d c Hl Hc) as (_ & _ & ?). lia. Qed.

Lemma iblock_not_own v x : inode_ok d v x -> ~ own_block d v x (IBLOCK n d).
Proof.
  intros Ho. pose proof iblock_index. intros [E|[E|(bn & Hbn & E)]].
  - destruct (io_ind _ _ _ Ho) as [Hd _]; [lia|]. apply iblock_not_data. by rewrite E.
  - by apply iblock_not_bmap.
  - destruct (io_data _ _ _ Ho bn Hbn) as [Hd _]; [lia|]. apply iblock_not_data. by rewrite <- E.
Qed.

Lemma used_iblock v e b : 0 <= b < size_ d -> used d (setv (IBLOCK n d) e v) b = used d v b.
Proof. intros Hb. unfold used. rewrite setv_ne; [done|]. intros E. apply iblock_not_bmap. by exists b. Qed.

Lemma fblock_iblock v e x bn : inode_ok d v x -> fblock (setv (IBLOCK n d) e v) x bn = fblock v x bn.
Proof.
  intros Ho. unfold fblock. destruct (Z.eqb_spec (ind x) 0) as [|Hi]; [done|]. destruct (io_ind _ _ _ Ho Hi) as [Hd _].
  rewrite setv_ne; [done|]. intros E. apply iblock_not_data. by rewrite <- E.
Qed.

Lemma inode_iblock v e x : inode_ok d v x -> inode_ok d (setv (IBLOCK n d) e v) x.
Proof.
  intros Ho. constructor; try apply Ho.
  - intros Hi. destruct (io_ind _ _ _ Ho Hi) as [Hd Hu]. split; [done|]. rewrite used_iblock by (by apply (data_index Hl)). done.
  - intros bn Hbn. rewrite fblock_iblock by done. intros Hne. destruct (io_data _ _ _ Ho bn Hbn Hne) as (Hd & Hu & Hi).
    split; [done|]. split; [|done]. rewrite used_iblock by (by apply (data_index Hl)). done.
  - intros bn bn' Hbn Hbn'. rewrite !fblock_iblock by done. by apply Ho.
Qed.

Lemma fbyte_iblock v e x o : inode_ok d v x -> 0 <= o < MAXFILE * BSIZE -> fblock v x (o / BSIZE) <> 0 ->
  fbyte (setv (IBLOCK n d) e v) x o = fbyte v x o.
Proof.
  intros Ho Hr Hne. unfold fbyte. rewrite fblock_iblock by done.
  destruct (io_data _ _ _ Ho _ (block_index o Hr) Hne) as [Hd _]. rewrite setv_ne; [done|].
  intros E. apply iblock_not_data. by rewrite <- E.
Qed.

Lemma meta_iblock v e : meta_used d v -> meta_used d (setv (IBLOCK n d) e v).
Proof. intros Hm b Hb. rewrite used_iblock by done. by apply Hm. Qed.
End Iblock.

(** The addresses of an inode fit. *)
Lemma inode_addrs {S} {HB : Blocks S} d v x : layout d -> inode_ok d v x -> Forall (fun a => 0 <= a < 2 ^ 32) (iaddrs x).
Proof.
  intros Hl Ho. apply Forall_lookup. intros i a Hi. pose proof (la_size _ Hl) as Hs.
  pose proof (lookup_lt_Some _ _ _ Hi) as Hlt. rewrite (io_len _ _ _ Ho) in Hlt.
  assert (addr_at x (Z.of_nat i) = a) as Ea by (unfold addr_at; by rewrite Nat2Z.id, Hi).
  destruct (decide (a = 0)) as [->|Hne]; [lia|]. assert (data_block d a) as Hd.
  { destruct (decide (i = 12)%nat) as [->|Hi12]; [change (ind x = a) in Ea; rewrite <- Ea in *; by apply (io_ind _ _ _ Ho)|].
    assert (fblock v x (Z.of_nat i) = a) as Ef.
    { unfold fblock. rewrite (proj2 (Z.ltb_lt _ _)) by (change NDIRECT with 12; lia). done. }
    rewrite <- Ef. apply (io_data _ _ _ Ho); [change MAXFILE with 268; lia|by rewrite Ef]. }
  pose proof (data_index Hl a Hd). lia.
Qed.

Section Update.
Context {S U : Type} {HB : Blocks S} {HU : UserSpace U}.

Lemma iupdate_spec (s : fst S U) v lg ip x : itable s !! ip = Some x -> brep (blks s) v ∅ lg -> layout (sb s) ->
  0 <= inum x < ninodes (sb s) -> idev x = fsdev -> IBLOCK (inum x) (sb s) ∈ lg \/ Z.of_nat (size lg) < MAXOPBLOCKS ->
  let I := IBLOCK (inum x) (sb s) in
  exists b', iupdate ip s = Ok tt (with_blks b' s) /\ brep b' (setv I (put_dinode x (v I)) v) ∅ ({[I]} ∪ lg).
Proof.
  intros Hx Hr Hl Hn Hd Hlog I. unfold iupdate. rewrite (bind_ok _ _ _ _ _ (geti_ok ip _ s x Hx)), Hd.
  rewrite (bind_ok _ _ s (sb s) s) by done.
  destruct (peek_block v ∅ lg s I Hr (iblock_fs Hl Hn) (lookup_empty _)) as (h & b1 & E1 & E2 & Hr1); [rewrite map_size_empty; lia|].
  rewrite (bind_ok _ _ _ _ _ E1), (bind_ok _ _ _ _ _ E2).
  destruct (update_held v ∅ lg (with_blks b1 s) I h (v I) (put_dinode x (v I)) Hr1 (lookup_empty _) Hlog) as (b2 & E3 & Hr2).
  exists b2. split; [exact E3|exact Hr2].
Qed.
End Update.

(** ** [writei] *)

(** What a write of [bs] at [off] does to the disk and the inode. *)
Record wrote {S} {HB : Blocks S} (d : superblock) (v : contents) (x : inode) (off : Z) (bs : list Z) (v' : contents) (x' : inode) : Prop := {
  wt_ok : file_ok d v' x';
  wt_meta : meta_used d v';
  wt_used : forall b, 0 <= b < size_ d -> used d v b = true -> used d v' b = true;
  wt_size : isize x' = Z.max (isize x) (off + Z.of_nat (length bs));
  wt_bytes : forall o, 0 <= o < isize x' ->
    fbyte v' x' o = if inrange off (Z.of_nat (length bs)) o then nthb bs (Z.to_nat (o - off)) else fbyte v x o;
  wt_other : forall b, 0 <= b < size_ d -> used d v b = true -> ~ own_block d v x b -> b <> IBLOCK (inum x) d -> v' b = v b;
  wt_dinode : get_dinode (v' (IBLOCK (inum x) d)) x' = x';
  wt_iblock : forall y, inum y mod IPB <> inum x mod IPB ->
    get_dinode (v' (IBLOCK (inum x) d)) y = get_dinode (v (IBLOCK (inum x) d)) y;
  wt_rest : x' = set_isize (isize x') (set_iaddrs (fun _ => iaddrs x') x)
}.

Section Wrote.
Context {S : Type} {HB : Blocks S} {d : superblock} (Hl : layout d).

Lemma grow_ok v x n : inode_ok d v x -> inode_ok d v (set_isize n x).
Proof. intros [H1 H2 H3 H4 H5]. constructor; [exact H1|exact H2|exact H3|exact H4|exact H5]. Qed.

Lemma iblock_used v n : meta_used d v -> 0 <= n < ninodes d -> used d v (IBLOCK n d) = true.
Proof.
  intros Hm Hn. destruct (used d v (IBLOCK n d)) eqn:E; [done|]. destruct (iblock_not_data Hl Hn). apply Hm; [|done].
  pose proof (iblock_index Hl Hn). lia.
Qed.

Lemma written_wrote v x off bs v1 x1 : file_ok d v x -> meta_used d v -> dinode_ok x -> 0 <= inum x < ninodes d ->
  0 <= off <= isize x -> off + Z.of_nat (length bs) <= MAXFILE * BSIZE -> written d v x off bs v1 x1 ->
  let x' := if isize x <? off + Z.of_nat (length bs) then set_isize (off + Z.of_nat (length bs)) x1 else x1 in
  let I := IBLOCK (inum x) d in wrote d v x off bs (setv I (put_dinode x' (v1 I)) v1) x'.
Proof.
  intros Ho Hm Hdn Hn Hoff Hend W x' I. pose proof (fo_size _ _ _ Ho) as Hsz.
  pose proof (wr_rest _ _ _ _ _ _ _ W) as Ex1.
  assert (inum x' = inum x /\ iaddrs x' = iaddrs x1 /\ isize x' = Z.max (isize x) (off + Z.of_nat (length bs))) as (En & Ea & Es).
  { unfold x'. destruct (Z.ltb_spec (isize x) (off + Z.of_nat (length bs))); rewrite Ex1; cbn; (split; [done|]; split; [done|lia]). }
  assert (inode_ok d v1 x') as Hi by (unfold x'; case_match; [apply grow_ok|]; apply W).
  assert (forall bn, fblock v1 x' bn = fblock v1 x1 bn) as Ef.
  { intros bn. unfold fblock, ind, addr_at. by rewrite Ea. }
  assert (v1 I = v I) as EI.
  { pose proof (iblock_index Hl Hn). apply (wr_other _ _ _ _ _ _ _ W); [unfold I; lia|by apply iblock_used|]. apply (iblock_not_own Hl Hn), Ho. }
  assert (forall o, 0 <= o < isize x' -> fblock v1 x1 (o / BSIZE) <> 0 /\
    fbyte v1 x1 o = if inrange off (Z.of_nat (length bs)) o then nthb bs (Z.to_nat (o - off)) else fbyte v x o) as Hb.
  { intros o Hr. destruct (inrange off (Z.of_nat (length bs)) o) eqn:Er.
    - apply inrange_true in Er. destruct (lookup_lt_is_Some_2 bs (Z.to_nat (o - off))) as [b Hb]; [lia|].
      destruct (wr_new _ _ _ _ _ _ _ W _ b Hb) as [Hne E]. rewrite Z2Nat.id, Zplus_minus in Hne, E by lia. unfold nthb. by rewrite Hb.
    - pose proof Er as Er'. apply inrange_false in Er'. assert (o < isize x) as Hlt by lia.
      pose proof (fo_full _ _ _ Ho o ltac:(lia)) as Hne.
      rewrite (wr_keep _ _ _ _ _ _ _ W) by (done || apply block_index; lia). split; [done|].
      apply (wr_old _ _ _ _ _ _ _ W); [lia|done|done]. }
  assert (dinode_ok x') as Hdx.
  { constructor; [|rewrite Es; change (MAXFILE * BSIZE) with 274432 in *; lia|apply Hi|by eapply inode_addrs].
    intros f Hf. apply (dn_short _ Hdn). unfold x' in Hf. rewrite Ex1 in Hf. by destruct (isize x <? _). }
  constructor.
  - constructor; [by apply (inode_iblock Hl Hn)|rewrite Es; lia|]. intros o Hr. rewrite (fblock_iblock Hl Hn), Ef by done. by apply Hb.
  - apply (meta_iblock Hl Hn), W.
  - intros b Hbr Hu. rewrite (used_iblock Hl Hn) by done. by apply W.
  - done.
  - intros o Hr. rewrite (fbyte_iblock Hl Hn); [|done|lia|rewrite Ef; by apply Hb].
    unfold fbyte. rewrite Ef. by apply Hb.
  - intros b Hbr Hu Hown Hne. rewrite setv_ne by done. by apply (wr_other _ _ _ _ _ _ _ W).
  - fold I. rewrite setv_eq, get_put_dinode by done. by destruct x'.
  - intros y Hy. fold I. rewrite setv_eq, EI. apply get_dinode_other; [apply Hdx|by rewrite En].
  - unfold x'. destruct (isize x <? _); rewrite Ex1; done.
Qed.
End Wrote.

(** The blocks a write of [n] bytes at [off] touches. *)
Definition touched (off n : Z) : Z := (n + off mod BSIZE + (BSIZE - 1)) / BSIZE.

Section Writei.
Context {S U : Type} {HB : Blocks S} {HU : UserSpace U} (Hbuf : BSIZE <= bufsize).
Context {P : Z -> Prop} {V : views} {o : origin} {bs : list Z} {ip : nat}.
Context (Hin : origin_in P o) (Hbs : origin_bytes V o bs) (Hok : Forall byte_ok bs).
Context (Ha : 0 <= origin_addr o) (He : origin_addr o + Z.of_nat (length bs) < 2 ^ 64).

Lemma writei_spec (s : fst S U) v lg x off : let d := sb s in let n := Z.of_nat (length bs) in
  itable s !! ip = Some x -> brep (blks s) v ∅ lg -> disk_ok d -> meta_used d v -> file_ok d v x -> dinode_ok x ->
  0 <= inum x < ninodes d -> sees (usr s) P V ->
  0 <= off <= isize x -> off + n <= MAXFILE * BSIZE -> cost d lg + 2 * touched off n + 1 <= MAXOPBLOCKS ->
  exists (i : nat) b' u' v' lg' x', writei ip o off n s = Ok (Z.of_nat i) (wstate b' u' ip x' s) /\
    brep b' v' ∅ lg' /\ sees u' P V /\ (i <= length bs)%nat /\ wrote d v x off (take i bs) v' x' /\
    ((i < length bs)%nat -> forall c, 0 <= c < size_ d -> used d v' c = true).
Proof.
  intros d n Hx Hr Hd Hm Ho Hdn Hnum Hs Hoff Hend Hc. pose proof (dk_layout _ Hd) as Hl. pose proof (fo_size _ _ _ Ho) as Hsz.
  change (MAXFILE * BSIZE) with 274432 in *. assert (0 <= n) as Hn0 by (unfold n; lia).
  unfold writei. rewrite (bind_ok _ _ _ _ _ (geti_ok ip _ s x Hx)). rewrite u32_small by lia.
  rewrite (proj2 (Z.ltb_ge (isize x) off)), (proj2 (Z.ltb_ge (off + n) off)), (proj2 (Z.ltb_ge _ (off + n))) by (change (MAXFILE * BSIZE) with 274432; lia).
  cbn [orb]. set (k := Z.to_nat (touched off n)). pose proof (Z.mod_pos_bound off BSIZE ltac:(done)) as Hmod.
  assert (0 <= touched off n) as Ht0 by (apply Z.div_pos; [|done]; change BSIZE with 1024 in *; lia).
  assert (n + off mod BSIZE <= touched off n * BSIZE) as Ht.
  { unfold touched. change BSIZE with 1024 in *. pose proof (Z.div_mod (n + off mod 1024 + (1024 - 1)) 1024 ltac:(done)).
    pose proof (Z.mod_pos_bound (n + off mod 1024 + (1024 - 1)) 1024 ltac:(done)). lia. }
  assert (k < Z.to_nat (n / BSIZE) + 3)%nat as Hk.
  { unfold k, touched. change BSIZE with 1024 in *.
    pose proof (Z.div_mod (n + off mod 1024 + (1024 - 1)) 1024 ltac:(done)). pose proof (Z.div_mod n 1024 ltac:(done)).
    pose proof (Z.mod_pos_bound (n + off mod 1024 + (1024 - 1)) 1024 ltac:(done)). pose proof (Z.mod_pos_bound n 1024 ltac:(done)). lia. }
  destruct (writei_loop_spec Hbuf Hin Hbs Hok Ha He k (Z.to_nat (n / BSIZE) + 3) s v lg x off 0 Hk Hx Hr Hd Hm (fo_inode _ _ _ Ho) Hs)
    as (i & b1 & u1 & v1 & lg1 & x1 & E & Hr1 & Hs1 & Hi & W & Hc1 & Hfull); [lia|lia|fold n; change (MAXFILE * BSIZE) with 274432; lia|unfold k; fold d; lia|right; unfold k; rewrite Z2Nat.id by done; fold n; lia|].
  cbn [Z.of_nat] in E. rewrite Z.add_0_r in E. fold n in E. rewrite (bind_ok _ _ _ _ _ E). cbn [Datatypes.fst snd].
  rewrite drop_0 in W. assert (length (take i bs) = i) as Eti by (rewrite length_take; lia).
  assert (off + Z.of_nat (length (take i bs)) <= MAXFILE * BSIZE) as Hend' by (rewrite Eti; change (MAXFILE * BSIZE) with 274432; lia).
  pose proof (written_wrote Hl v x off (take i bs) v1 x1 Ho Hm Hdn Hnum Hoff Hend' W) as Hw. cbn zeta in Hw. rewrite Eti in Hw.
  set (x' := if isize x <? off + Z.of_nat i then set_isize (off + Z.of_nat i) x1 else x1) in *.
  rewrite (bind_ok _ _ _ tt (wstate b1 u1 ip x' s)).
  2:{ unfold x'. destruct (isize x <? off + Z.of_nat i); [|done]. rewrite (seti_ok ip _ _ x1) by (by eapply wstate_lookup).
      f_equal. unfold wstate, at_, with_usr. cbn. by rewrite list_insert_insert_eq. }
  assert (inum x' = inum x) as En by (rewrite (wt_rest _ _ _ _ _ _ _ Hw); done).
  destruct (iupdate_spec (wstate b1 u1 ip x' s) v1 lg1 ip x') as (b2 & E2 & Hr2);
    [by eapply wstate_lookup|done|done|by rewrite En| |right; apply (cost_log (d := d)); unfold k in Hc1; rewrite Z2Nat.id in Hc1 by done; fold d in Hc1; lia|].
  { rewrite (wt_rest _ _ _ _ _ _ _ Hw). cbn. apply Ho. }
  rewrite (bind_ok _ _ _ _ _ E2). cbn [sb wstate with_usr at_] in Hr2. rewrite En in Hr2. fold d in Hr2.
  exists i, b2, u1. eexists _, _, x'. split; [reflexivity|]. split; [exact Hr2|]. split; [done|]. split; [done|]. split; [exact Hw|].
  intros Hlt c Hcr. rewrite (used_iblock Hl Hnum) by done. by apply Hfull.
Qed.

(** Outside the file, or past its largest size: nothing happens. *)
Lemma writei_error (s : fst S U) x off n : itable s !! ip = Some x -> 0 <= off < 2 ^ 32 -> 0 <= n < 2 ^ 32 ->
  isize x < off \/ MAXFILE * BSIZE < off + n -> writei ip o off n s = Ok (-1) s.
Proof.
  intros Hx Hoff Hn H. unfold writei. rewrite (bind_ok _ _ _ _ _ (geti_ok ip _ s x Hx)). rewrite u32_overflow by done.
  destruct ((isize x <? off) || (2 ^ 32 <=? off + n)) eqn:E; [done|]. apply orb_false_iff in E as [E1 E2]. boolz.
  rewrite u32_small by lia. rewrite (proj2 (Z.ltb_lt _ _)) by lia. done.
Qed.
End Writei.
