(* ===== verification/FsSpec.v ===== *)
(** * What files promise

    Reading, writing and the free map, for the callers of kernel/fs.c; a small
    disk on which the statements are instantiated. *)

From S2P Require Import Prelude Riscv Mem Lock Kalloc VmInv Bio BioSpec Log LogSpec LogCommit LogCrash LogOps Transactions.
From S2P Require Import UserIO Pipe PipeSpec Blocks LogBlocks Fs FsBlocks FsFiles FsMap FsContents FsWrite FsInode.
Import KString.
Local Open Scope Z_scope.

(** ** A disk of 100 blocks: the log at 2, inodes at 32, the free map at 34,
    data from 35 on; no block is in use. *)
Module SmallDisk.
Definition free_map : block := <[0 := 255]> (<[1 := 255]> (<[2 := 255]> (<[3 := 255]> {[4 := 7]}))).
Definition disk0 : gmap Z block := {[34 := free_map]}.
(** After a first boot, which clears the log. *)
Definition disk1 : gmap Z block := apply_writes (recover_writes 2 disk0) disk0.
Definition sb0 : superblock := mksb FSMAGIC 100 65 16 30 2 32 34.
Definition file0 : inode := mkinode 1 1 1 None true T_FILE 0 0 1 0 (replicate 13 0).

(** The block layer inside an operation on that disk. *)
Definition layer (tr : list (Z * block)) : Blocks lst := log_blocks 1 2 30 disk1 tr ltac:(done).
Definition memory : UserSpace machine := vm_user_space KERNBASE 4096 1024 ltac:(done) ltac:(split; done).

Lemma boots : exists s A, idle 1 A s /\ lstart (lg s) = 2 /\ lsize (lg s) = 30 /\ sdisk A = disk1.
Proof.
  destruct (boot_idle 1 2 30 (blk disk0) disk0) as (s & A & _ & H & Hs & Hz & HD); [done| |].
  - apply clean_redo; [done|]. split; [reflexivity|done].
  - exists s, A. split; [done|]. split; [done|]. done.
Qed.

Lemma begun : exists tr s, @brep lst (layer tr) s (blk disk1) ∅ ∅.
Proof.
  destruct boots as (s & A & H & Hs & Hz & HD).
  destruct (begin_open 1 2 30 disk1 (strace A) ltac:(done) A s H HD eq_refl Hs Hz) as (s' & _ & Hr). by exists (strace A), s'.
Qed.

Section Disk.
Context {tr : list (Z * block)}.
#[local] Existing Instance layer.

Lemma sb0_ok : @disk_ok lst (layer tr) sb0.
Proof. 
  constructor; [|done]. constructor; [done|done|done|done|]. intros b Hb. cbn in Hb |- *. unfold home_block. lia. Qed.

Lemma used0 : forallb (fun i => used sb0 (blk disk1) (Z.of_nat i)) (seq 0 35) = true.
Proof. reflexivity. Qed.

Lemma meta0 : meta_used sb0 (blk disk1).
Proof.
  intros b Hb Hu. change (35 <= b < 100). change (0 <= b < 100) in Hb. destruct (decide (b < 35)) as [Hlt|]; [|lia]. exfalso.
  pose proof used0 as H0. rewrite forallb_forall in H0. specialize (H0 (Z.to_nat b)). rewrite Z2Nat.id in H0 by lia.
  rewrite H0 in Hu; [done|]. apply in_seq. lia.
Qed.

Lemma addr0 i : addr_at file0 i = 0.
Proof.
  unfold addr_at. cbn [file0 iaddrs]. destruct (replicate 13 0 !! Z.to_nat i) as [a|] eqn:E; [|done].
  apply lookup_replicate in E as [-> _]. done.
Qed.
Lemma fblock0 v bn : fblock v file0 bn = 0.
Proof. unfold fblock, ind. rewrite !addr0. by destruct (bn <? NDIRECT). Qed.

Lemma file0_ok v : @file_ok lst (layer tr) sb0 v file0.
Proof.
  constructor; [|done|cbn; lia]. constructor; [done|done| | |].
  - unfold ind. rewrite addr0. done.
  - intros bn Hbn. by rewrite fblock0.
  - intros bn bn' Hbn Hbn'. by rewrite fblock0.
Qed.

Lemma dinode0 : dinode_ok file0.
Proof.
  constructor; [|done|done|].
  - intros f Hf. cbn in Hf. rewrite !elem_of_cons, elem_of_nil in Hf. unfold T_FILE in Hf. lia.
  - apply Forall_replicate. lia.
Qed.

Lemma cost0 : cost sb0 ∅ = 1.
Proof. unfold cost. rewrite union_empty_r_L, size_singleton. done. Qed.
End Disk.
End SmallDisk.

(** A write and a file with other blocks. *)
Lemma wrote_other_file {S} {HB : Blocks S} {d v x off bs v' x' y} : layout d -> inode_ok d v x -> 0 <= inum x < ninodes d -> wrote d v x off bs v' x' ->
  file_ok d v y -> 0 <= inum y < ninodes d -> inum y <> inum x ->
  (ind y <> 0 -> ~ own_block d v x (ind y)) ->
  (forall bn, 0 <= bn < MAXFILE -> fblock v y bn <> 0 -> ~ own_block d v x (fblock v y bn)) -> meta_used d v ->
  file_ok d v' y /\ (forall bn, 0 <= bn < MAXFILE -> fblock v' y bn = fblock v y bn) /\
  (forall p, 0 <= p < isize y -> fbyte v' y p = fbyte v y p) /\
  get_dinode (v' (IBLOCK (inum y) d)) y = get_dinode (v (IBLOCK (inum y) d)) y.
Proof.
  intros Hl Hxo Hxn W Hy Hyn Hne Hi Hb Hm. pose proof (fo_inode _ _ _ Hy) as Ho. pose proof (fo_size _ _ _ Hy) as Hsz.
  assert (forall b, data_block d b -> used d v b = true -> ~ own_block d v x b -> v' b = v b) as Hsame.
  { intros b Hd Hu Hown. apply (wt_other _ _ _ _ _ _ _ W); [by apply (data_index Hl)|done|done|]. intros ->. by apply (iblock_not_data Hl Hxn). }
  assert (forall bn, 0 <= bn < MAXFILE -> fblock v' y bn = fblock v y bn) as Ef.
  { intros bn Hbn. unfold fblock. destruct (bn <? NDIRECT); [done|]. destruct (Z.eqb_spec (ind y) 0) as [|Hiy]; [done|].
    destruct (io_ind _ _ _ Ho Hiy) as [Hd Hu]. rewrite Hsame; [done|done|done|by apply Hi]. }
  assert (forall b, data_block d b -> used d v b = true -> used d v' b = true) as Hup.
  { intros b Hd Hu. apply (wt_used _ _ _ _ _ _ _ W); [by apply (data_index Hl)|done]. }
  split; [|split; [done|split]].
  - constructor; [constructor|done|].
    + apply Ho.
    + apply Ho.
    + intros Hiy. destruct (io_ind _ _ _ Ho Hiy) as [Hd Hu]. split; [done|by apply Hup].
    + intros bn Hbn. rewrite Ef by done. intros Hn. destruct (io_data _ _ _ Ho bn Hbn Hn) as (Hd & Hu & Hd'). split; [done|]. split; [by apply Hup|done].
    + intros bn bn' Hbn Hbn'. rewrite !Ef by done. by apply Ho.
    + intros p Hp. rewrite Ef by (apply block_index; lia). by apply Hy.
  - intros p Hp. pose proof (block_index p ltac:(lia)) as Hbn. unfold fbyte. rewrite Ef by done. pose proof (fo_full _ _ _ Hy p Hp) as Hn.
    destruct (io_data _ _ _ Ho _ Hbn Hn) as (Hd & Hu & _). rewrite Hsame; [done|done|done|by apply Hb].
  - destruct (decide (IBLOCK (inum y) d = IBLOCK (inum x) d)) as [E|E].
    + rewrite E. apply (wt_iblock _ _ _ _ _ _ _ W). intros Emod. apply Hne.
      pose proof (iblock_eq Hl Hxn) as E1. pose proof (iblock_eq Hl Hyn) as E2. rewrite E1, E2 in E.
      rewrite (Z.div_mod (inum y) IPB), (Z.div_mod (inum x) IPB), Emod by done. f_equal. f_equal. lia.
    + rewrite (wt_other _ _ _ _ _ _ _ W); [done| |by apply (iblock_used Hl)| |done].
      * pose proof (iblock_index Hl Hyn). lia.
      * by apply (iblock_not_own Hl Hyn).
Qed.

(** ** Open files *)
Section Files.
Context {S U : Type} {HB : Blocks S} {HU : UserSpace U}.

(** Inode [x] of the table describes a file of the disk [v]. *)
Record open_file (s : fst S U) (v : contents) (lg : gset Z) (ip : nat) (x : inode) : Prop := {
  of_entry : itable s !! ip = Some x;
  of_disk : brep (blks s) v ∅ lg;
  of_super : disk_ok (sb s);
  of_meta : meta_used (sb s) v;
  of_file : file_ok (sb s) v x;
  of_dinode : dinode_ok x;
  of_inum : 0 <= inum x < ninodes (sb s)
}.

Context (Hbuf : BSIZE <= bufsize).

(** Reading: [readi] copies to the caller the bytes of the file from
    [off] on, as many as asked for and the file has, and changes neither disk
    nor file.  When the target is not writable it returns -1 with a proper
    prefix of them copied. *)
Theorem readi_contents P V (s : fst S U) v lg ip x t off n : let m := readable x off n in let bs := file_bytes v x off (Z.to_nat m) in
  open_file s v lg ip x -> sees (usr s) P V -> target_in P t ->
  0 <= off < 2 ^ 32 -> 0 <= n < 2 ^ 32 -> 0 <= target_addr t -> target_addr t + n < 2 ^ 64 ->
  exists (ok : bool) got j b' u' V', readi ip t off n s = Ok (if ok then m else -1, got) (io_state b' u' s) /\
    open_file (io_state b' u' s) v lg ip x /\ sees u' P V' /\ moved t (target_addr t) V V' (take j bs) /\
    (if ok then j = length bs /\ got = bs else t <> ToKernel /\ (j < length bs)%nat).
Proof.
  intros m bs [H1 H2 H3 H4 H5 H6 H7] Hs Ht Hoff Hn Ha He.
  destruct (readi_spec Hbuf Ht s V off n H1 H2 H3 H5 Hs Hoff Hn Ha He) as (ok & got & j & b' & u' & V' & E & Hr & Hs' & Hm & Hj).
  exists ok, got, j, b', u', V'. split; [exact E|]. split; [constructor; done|]. split; [done|]. split; [done|].
  unfold bs. by rewrite length_file_bytes.
Qed.

Section Write.
Context {P : Z -> Prop} {V : views} {o : origin} {bs : list Z} {ip : nat} {s : fst S U} {v : contents} {lg : gset Z} {x : inode} {off : Z}.
Context (Hf : open_file s v lg ip x) (Hs : sees (usr s) P V).
Context (Hin : origin_in P o) (Hbs : origin_bytes V o bs) (Hok : Forall byte_ok bs).
Context (Ha : 0 <= origin_addr o) (He : origin_addr o + Z.of_nat (length bs) < 2 ^ 64).
Context (Hoff : 0 <= off <= isize x) (Hend : off + Z.of_nat (length bs) <= MAXFILE * BSIZE).
Context (Hroom : cost (sb s) lg + 2 * touched off (Z.of_nat (length bs)) + 1 <= MAXOPBLOCKS).

Lemma wrote_dinode d v' x' cs : layout d -> wrote d v x off cs v' x' -> dinode_ok x'.
Proof.
  intros Hl W. pose proof (wt_ok _ _ _ _ _ _ _ W) as Ho. pose proof (fo_size _ _ _ Ho) as Hsz. constructor.
  - intros f Hff. apply (dn_short _ (of_dinode _ _ _ _ _ Hf)). by rewrite (wt_rest _ _ _ _ _ _ _ W) in Hff.
  - change (MAXFILE * BSIZE) with 274432 in *. lia.
  - apply (io_len _ _ _ (fo_inode _ _ _ Ho)).
  - apply (inode_addrs _ _ _ Hl (fo_inode _ _ _ Ho)).
Qed.

Lemma writei_file : exists (i : nat) v' lg' x' s', writei ip o off (Z.of_nat (length bs)) s = Ok (Z.of_nat i) s' /\
  open_file s' v' lg' ip x' /\ sees (usr s') P V /\ (i <= length bs)%nat /\ wrote (sb s) v x off (take i bs) v' x' /\
  sb s' = sb s /\ fheld s' = fheld s /\ fpid s' = fpid s /\ (forall k, k <> ip -> itable s' !! k = itable s !! k) /\
  ((i < length bs)%nat -> forall c, 0 <= c < size_ (sb s) -> used (sb s) v' c = true).
Proof.
  pose proof Hf as [F1 F2 F3 F4 F5 F6 F7].
  destruct (writei_spec Hbuf Hin Hbs Hok Ha He s v lg x off F1 F2 F3 F4 F5 F6 F7 Hs Hoff Hend Hroom)
    as (i & b' & u' & v' & lg' & x' & E & Hr & Hs' & Hi & W & Hfull).
  exists i, v', lg', x', (wstate b' u' ip x' s). split; [exact E|]. split; [|split; [done|split; [done|split; [done|split; [done|split; [done|split; [done|split; [|done]]]]]]]].
  - pose proof (wt_rest _ _ _ _ _ _ _ W) as Ex. constructor; try done.
    + eapply wstate_lookup, Hf.
    + apply W.
    + apply W.
    + eapply wrote_dinode; [apply (dk_layout _ (of_super _ _ _ _ _ Hf))|exact W].
    + rewrite Ex. apply Hf.
  - intros k Hk. cbn. by rewrite list_lookup_insert_ne.
Qed.
End Write.

(** C17.  Writing: inside a transaction with room for the blocks it touches,
    [writei] at an offset of the file returns the number [i] of bytes written;
    the file then is as long as needed, its bytes are the new ones from [off]
    to [off + i] and the old ones elsewhere, the inode on disk says so, no two
    of its blocks coincide and all are marked in use; every other block in use
    is as before; [i] is less than asked only when no block is free. *)
Theorem writei_contents P V o bs ip (s : fst S U) v lg x off :
  open_file s v lg ip x -> sees (usr s) P V -> origin_in P o -> origin_bytes V o bs -> Forall byte_ok bs ->
  0 <= origin_addr o -> origin_addr o + Z.of_nat (length bs) < 2 ^ 64 ->
  0 <= off <= isize x -> off + Z.of_nat (length bs) <= MAXFILE * BSIZE ->
  cost (sb s) lg + 2 * touched off (Z.of_nat (length bs)) + 1 <= MAXOPBLOCKS ->
  exists (i : nat) v' lg' x' s', writei ip o off (Z.of_nat (length bs)) s = Ok (Z.of_nat i) s' /\
    open_file s' v' lg' ip x' /\ sees (usr s') P V /\ (i <= length bs)%nat /\ wrote (sb s) v x off (take i bs) v' x' /\
    sb s' = sb s /\ fheld s' = fheld s /\ fpid s' = fpid s /\ (forall k, k <> ip -> itable s' !! k = itable s !! k) /\
    ((i < length bs)%nat -> forall c, 0 <= c < size_ (sb s) -> used (sb s) v' c = true).
Proof. intros Hf Hs Hin Hbs Hok Ha He Hoff Hend Hroom. exact (writei_file Hf Hs Hin Hbs Hok Ha He Hoff Hend Hroom). Qed.

(** C18.  What was written is read back: reading the range a [writei] reported
    gives exactly the bytes it was given. *)
Theorem writei_readi P V o bs ip (s : fst S U) v lg x off :
  open_file s v lg ip x -> sees (usr s) P V -> origin_in P o -> origin_bytes V o bs -> Forall byte_ok bs ->
  0 <= origin_addr o -> origin_addr o + Z.of_nat (length bs) < 2 ^ 64 ->
  0 <= off <= isize x -> off + Z.of_nat (length bs) <= MAXFILE * BSIZE ->
  cost (sb s) lg + 2 * touched off (Z.of_nat (length bs)) + 1 <= MAXOPBLOCKS ->
  exists (i : nat) s' s'', writei ip o off (Z.of_nat (length bs)) s = Ok (Z.of_nat i) s' /\
    readi ip ToKernel off (Z.of_nat i) s' = Ok (Z.of_nat i, take i bs) s''.
Proof.
  intros Hf Hs Hin Hbs Hok Ha He Hoff Hend Hroom.
  destruct (writei_file Hf Hs Hin Hbs Hok Ha He Hoff Hend Hroom) as (i & v' & lg' & x' & s' & E & Hf' & Hs' & Hi & W & Hsb & _).
  pose proof Hf' as [F1 F2 F3 F4 F5 F6 F7]. change (MAXFILE * BSIZE) with 274432 in *.
  assert (length (take i bs) = i) as Eti by (rewrite length_take; lia).
  destruct (readi_spec Hbuf (t := ToKernel) I s' V off (Z.of_nat i) F1 F2 F3 F5 Hs') as (ok & got & j & b'' & u'' & V' & E' & _ & _ & _ & Hj); [lia|lia|done|cbn; lia|].
  assert (readable x' off (Z.of_nat i) = Z.of_nat i) as Er.
  { unfold readable. pose proof (wt_size _ _ _ _ _ _ _ W) as Ez. rewrite Eti in Ez.
    rewrite (proj2 (Z.ltb_ge _ _)), (proj2 (Z.leb_gt _ _)) by lia. cbn. lia. }
  rewrite Er, Nat2Z.id in *. destruct ok; [|by destruct Hj]. destruct Hj as [_ ->].
  exists i, s', (io_state b'' u'' s'). split; [exact E|]. rewrite E'. do 2 f_equal.
  apply list_eq. intros k. destruct (decide (k < i)%nat) as [Hk|Hk].
  - rewrite file_bytes_lookup by done. pose proof (wt_size _ _ _ _ _ _ _ W) as Ez. rewrite Eti in Ez.
    rewrite (wt_bytes _ _ _ _ _ _ _ W) by lia. rewrite Eti, (proj2 (inrange_true _ _ _)) by lia.
    replace (Z.to_nat (off + Z.of_nat k - off)) with k by lia. unfold nthb.
    destruct (lookup_lt_is_Some_2 (take i bs) k) as [b ->]; [by rewrite Eti|done].
  - rewrite !lookup_ge_None_2; [done|by rewrite Eti; lia|rewrite length_file_bytes; lia].
Qed.

(** Files are separate: a [writei] leaves every other file, one with
    another inode number and none of the same blocks, exactly as it was: its
    map, its bytes, its well-formedness and its inode on disk. *)
Theorem writei_other_files P V o bs ip (s : fst S U) v lg x off y :
  open_file s v lg ip x -> sees (usr s) P V -> origin_in P o -> origin_bytes V o bs -> Forall byte_ok bs ->
  0 <= origin_addr o -> origin_addr o + Z.of_nat (length bs) < 2 ^ 64 ->
  0 <= off <= isize x -> off + Z.of_nat (length bs) <= MAXFILE * BSIZE ->
  cost (sb s) lg + 2 * touched off (Z.of_nat (length bs)) + 1 <= MAXOPBLOCKS ->
  file_ok (sb s) v y -> 0 <= inum y < ninodes (sb s) -> inum y <> inum x ->
  (ind y <> 0 -> ~ own_block (sb s) v x (ind y)) ->
  (forall bn, 0 <= bn < MAXFILE -> fblock v y bn <> 0 -> ~ own_block (sb s) v x (fblock v y bn)) ->
  exists i s' v', writei ip o off (Z.of_nat (length bs)) s = Ok i s' /\ (exists lg', brep (blks s') v' ∅ lg') /\
    file_ok (sb s) v' y /\ (forall bn, 0 <= bn < MAXFILE -> fblock v' y bn = fblock v y bn) /\
    (forall p, 0 <= p < isize y -> fbyte v' y p = fbyte v y p) /\
    get_dinode (v' (IBLOCK (inum y) (sb s))) y = get_dinode (v (IBLOCK (inum y) (sb s))) y.
Proof.
  intros Hf Hs Hin Hbs Hok Ha He Hoff Hend Hroom Hy Hyn Hne Hi Hb.
  destruct (writei_file Hf Hs Hin Hbs Hok Ha He Hoff Hend Hroom) as (i & v' & lg' & x' & s' & E & Hf' & Hs' & _ & W & Hsb & _).
  pose proof (dk_layout _ (of_super _ _ _ _ _ Hf)) as Hl. pose proof (of_inum _ _ _ _ _ Hf) as Hxn.
  exists (Z.of_nat i), s', v'. split; [exact E|]. split; [exists lg'; apply Hf'|]. by apply (wrote_other_file Hl (fo_inode _ _ _ (of_file _ _ _ _ _ Hf)) Hxn W Hy Hyn Hne Hi Hb (of_meta _ _ _ _ _ Hf)).
Qed.
End Files.

(** ** On the small disk *)
Module Demo.
Import SmallDisk.

Lemma small_file : exists tr (s : fst lst machine) pt V,
  @open_file lst machine (layer tr) s (blk disk1) ∅ 0 file0 /\ @sees machine memory (usr s) (eq pt) V /\ sb s = sb0.
Proof.
  destruct begun as (tr & b & Hb). destruct demo_sees as (u & pt & V & Hs).
  exists tr, (mkfst b u sb0 [file0] 1 0 []), pt, V. split; [|split; [exact Hs|reflexivity]].
  constructor; [reflexivity|exact Hb|apply sb0_ok|apply meta0|apply file0_ok|apply dinode0|split; done].
Qed.

Lemma bytes3 : Forall byte_ok [1; 2; 3].
Proof. repeat (apply Forall_cons; split; [unfold byte_ok; lia|]). apply Forall_nil. done. Qed.

Lemma room3 : cost sb0 ∅ + 2 * touched 0 (Z.of_nat (length [1; 2; 3])) + 1 <= MAXOPBLOCKS.
Proof. rewrite cost0. change (touched 0 _) with 1. change MAXOPBLOCKS with 10. lia. Qed.

Definition file1 : inode := mkinode 1 2 1 None true T_FILE 0 0 1 0 (replicate 13 0).
Lemma file1_ok tr v : @file_ok lst (layer tr) sb0 v file1.
Proof.
  destruct (file0_ok (tr := tr) v) as [[H1 H2 H3 H4 H5] Hz Hf]. constructor; [constructor; done|exact Hz|exact Hf].
Qed.
End Demo.
Import SmallDisk Demo.

Lemma readi_contents_witness : exists tr s got s', @readi lst machine (layer tr) memory 0 ToKernel 0 10 s = Ok (0, got) s'.
Proof.
  destruct small_file as (tr & s & pt & V & Hf & Hs & Esb).
  destruct (@readi_contents lst machine (layer tr) memory ltac:(done) (eq pt) V s (blk disk1) ∅ 0 file0 ToKernel 0 10)
    as (ok & got & j & b' & u' & V' & E & _ & _ & _ & Hj); [exact Hf|exact Hs|exact I|done|done|done|done|].
  destruct ok; [|destruct Hj as [Hj _]; destruct (Hj eq_refl)]. exists tr, s, got, (io_state b' u' s). exact E.
Defined.

Lemma writei_contents_witness : exists tr s i s',
  @writei lst machine (layer tr) memory 0 (FromKernel [1; 2; 3]) 0 3 s = Ok i s' /\ sb s' = sb s.
Proof.
  destruct small_file as (tr & s & pt & V & Hf & Hs & Esb).
  destruct (@writei_contents lst machine (layer tr) memory ltac:(done) (eq pt) V (FromKernel [1; 2; 3]) [1; 2; 3] 0 s (blk disk1) ∅ file0 0)
    as (i & v' & lg' & x' & s' & E & _ & _ & _ & _ & E' & _);
    [exact Hf|exact Hs|exact I|reflexivity|exact bytes3|done|done|done|done|rewrite Esb; exact room3|].
  exists tr, s, (Z.of_nat i), s'. split; [exact E|exact E'].
Defined.

Lemma writei_readi_witness : exists tr s i s' s'',
  @writei lst machine (layer tr) memory 0 (FromKernel [1; 2; 3]) 0 3 s = Ok (Z.of_nat i) s' /\
  @readi lst machine (layer tr) memory 0 ToKernel 0 (Z.of_nat i) s' = Ok (Z.of_nat i, take i [1; 2; 3]) s''.
Proof.
  destruct small_file as (tr & s & pt & V & Hf & Hs & Esb).
  destruct (@writei_readi lst machine (layer tr) memory ltac:(done) (eq pt) V (FromKernel [1; 2; 3]) [1; 2; 3] 0 s (blk disk1) ∅ file0 0)
    as (i & s' & s'' & E & E');
    [exact Hf|exact Hs|exact I|reflexivity|exact bytes3|done|done|done|done|rewrite Esb; exact room3|].
  exists tr, s, i, s', s''. split; [exact E|exact E'].
Defined.

Lemma writei_other_files_witness : exists tr s i s' v',
  @writei lst machine (layer tr) memory 0 (FromKernel [1; 2; 3]) 0 3 s = Ok i s' /\ @file_ok lst (layer tr) sb0 v' file1.
Proof.
  destruct small_file as (tr & s & pt & V & Hf & Hs & Esb).
  destruct (@writei_other_files lst machine (layer tr) memory ltac:(done) (eq pt) V (FromKernel [1; 2; 3]) [1; 2; 3] 0 s (blk disk1) ∅ file0 0 file1)
    as (i & s' & v' & E & _ & Hy & _);
    [exact Hf|exact Hs|exact I|reflexivity|exact bytes3|done|done|done|done|rewrite Esb; exact room3|rewrite Esb; apply file1_ok
    |rewrite Esb; split; done|done|done| |].
  - intros bn Hbn Hn. destruct Hn. exact (fblock0 (blk disk1) bn).
  - exists tr, s, i, s', v'. rewrite Esb in Hy. split; [exact E|exact Hy].
Defined.
