(* ===== verification/FsDir.v ===== *)
(** * Directories

    A directory is a file whose bytes are entries of 16 bytes: an inode number,
    0 for an empty entry, and a name of 14 bytes padded with zeros.  The
    theorems say what [dirlookup] and [dirlink] of kernel/fs.c do in terms of
    the list of entries. *)

From S2P Require Import Prelude Riscv Mem Lock Kalloc VmInv Bio BioSpec Log LogSpec LogCommit LogCrash LogOps Transactions.
From S2P Require Import UserIO Pipe PipeSpec Blocks LogBlocks Fs FsBlocks FsFiles FsMap FsContents FsWrite FsInode FsSpec.
Import KString.
Local Open Scope Z_scope.

(** ** Names *)

(** A name as an entry stores it. *)
Definition padded (name : list Z) : list Z := name_copy 14 name.

Lemma length_name_copy n t : length (name_copy n t) = n.
Proof.
  revert t. induction n as [|n IH]; intros t; [done|]. cbn [name_copy]. destruct t as [|c t]; [apply length_replicate|].
  destruct (c =? 0); [apply length_replicate|]. cbn. by rewrite IH.
Qed.

Lemma name_copy_zero n k : name_copy n (replicate k 0) = replicate n 0.
Proof. destruct n, k; done. Qed.

Lemma name_copy_idem n t : name_copy n (name_copy n t) = name_copy n t.
Proof.
  revert t. induction n as [|n IH]; intros t; [done|]. cbn [name_copy]. destruct t as [|c t]; [apply (name_copy_zero (Datatypes.S n) (Datatypes.S n))|].
  destruct (c =? 0) eqn:E; [apply (name_copy_zero (Datatypes.S n) (Datatypes.S n))|]. cbn [name_copy]. by rewrite E, IH.
Qed.

(** The first character decides. *)
Lemma name_copy_step n s i : name_copy (Datatypes.S n) (drop i s) =
  if nthb s i =? 0 then replicate (Datatypes.S n) 0 else nthb s i :: name_copy n (drop (i + 1) s).
Proof.
  unfold nthb. destruct (s !! i) as [c|] eqn:E.
  - rewrite (drop_S _ _ _ E), Nat.add_1_r. done.
  - rewrite drop_ge by (by apply lookup_ge_None). done.
Qed.

Lemma namecmp_loop_eq n i s t : namecmp_loop n i s t = 0 <-> name_copy n (drop i s) = name_copy n (drop i t).
Proof.
  revert i. induction n as [|n IH]; intros i; [done|]. cbn [namecmp_loop]. rewrite !name_copy_step.
  destruct (Z.eqb_spec (nthb s i) 0) as [E|E]; cbn [negb andb].
  - rewrite E. destruct (Z.eqb_spec (nthb t i) 0) as [->|E']; [done|]. cbn [replicate]. split; [lia|].
    intros H. injection H as H _. lia.
  - destruct (Z.eqb_spec (nthb s i) (nthb t i)) as [E'|E'].
    + rewrite IH, <- E', (proj2 (Z.eqb_neq _ _) E). split; [by intros ->|intros H; by injection H].
    + split; [lia|]. destruct (nthb t i =? 0); cbn [replicate]; intros H; injection H as H _; lia.
Qed.

(** [namecmp] compares names as they are stored. *)
Lemma namecmp_padded s t : (namecmp s t =? 0) = bool_decide (padded s = padded t).
Proof.
  apply eq_true_iff_eq. rewrite Z.eqb_eq, bool_decide_eq_true. apply (namecmp_loop_eq 14 0 s t).
Qed.

(** ** Entries *)
Definition entry (v : contents) (x : inode) (i : nat) : list Z := file_bytes v x (16 * Z.of_nat i) 16.
Definition entries (v : contents) (x : inode) : list (list Z) := entry v x <$> seq 0 (Z.to_nat (isize x / 16)).

(** The entry is in use and has this name. *)
Definition names (name e : list Z) : bool := negb (de_inum e =? 0) && (namecmp name (de_name e) =? 0).

(** The first such entry: its index, counted from [i], and inode number. *)
Fixpoint find_name (name : list Z) (i : nat) (l : list (list Z)) : option (nat * Z) :=
  match l with
  | [] => None
  | e :: l' => if names name e then Some (i, de_inum e) else find_name name (i + 1) l'
  end.

(** The first empty entry, or the end. *)
Fixpoint free_entry (i : nat) (l : list (list Z)) : nat :=
  match l with [] => i | e :: l' => if de_inum e =? 0 then i else free_entry (i + 1) l' end.

Lemma find_name_app name i l l' : find_name name i (l ++ l') =
  match find_name name i l with Some r => Some r | None => find_name name (i + length l) l' end.
Proof.
  revert i. induction l as [|e l IH]; intros i; cbn; [by rewrite Nat.add_0_r|]. destruct (names name e); [done|].
  rewrite IH. by rewrite <- Nat.add_assoc.
Qed.

Lemma find_name_none name i l k e : find_name name i l = None -> l !! k = Some e -> names name e = false.
Proof.
  revert i k. induction l as [|d l IH]; intros i [|k]; cbn; try done; destruct (names name d) eqn:E; try done; [by intros _ [= <-]|]. apply IH.
Qed.

Lemma free_entry_spec i l : exists k, free_entry i l = (i + k)%nat /\ (k <= length l)%nat /\
  (forall e, l !! k = Some e -> de_inum e = 0).
Proof.
  revert i. induction l as [|e l IH]; intros i; cbn.
  - exists 0%nat. split_and!; [lia|lia|done].
  - destruct (de_inum e =? 0) eqn:E.
    + exists 0%nat. split_and!; [lia|lia|]. intros e' [= <-]. by apply Z.eqb_eq.
    + destruct (IH (i + 1)%nat) as (k & -> & Hk & He). exists (Datatypes.S k). split_and!; [lia|lia|done].
Qed.

(** An entry that [dirlink] writes. *)
Lemma dirent_inum num name : 0 <= num < 2 ^ 16 -> de_inum (dirent num name) = num.
Proof. intros Hn. unfold de_inum, nthb, dirent, u16. cbn -[Z.mul Z.pow Z.modulo Z.div]. rewrite (Z.mod_small num) by lia. assert (H := Z.div_mod num 256 ltac:(done)). lia. Qed.

Lemma dirent_names num name name' : 0 < num < 2 ^ 16 -> names name' (dirent num name) = bool_decide (padded name' = padded name).
Proof.
  intros Hn. unfold names. rewrite dirent_inum by lia. rewrite (proj2 (Z.eqb_neq num 0)) by lia. cbn [negb andb].
  rewrite namecmp_padded. unfold de_name, dirent, padded. change (Z.to_nat DIRSIZ) with 14%nat.
  change (drop 2 ([u16 num mod 256; u16 num / 256] ++ name_copy 14 name)) with (name_copy 14 name). by rewrite name_copy_idem.
Qed.

(** Putting an entry into an empty place, or behind the last one. *)
Definition place_entry (l : list (list Z)) (k : nat) (e : list Z) : list (list Z) :=
  if decide (k < length l)%nat then <[k := e]> l else l ++ [e].

Lemma place_split l k e : (k <= length l)%nat -> (forall e', l !! k = Some e' -> de_inum e' = 0) ->
  exists l1 mid l2, l = l1 ++ mid ++ l2 /\ place_entry l k e = l1 ++ e :: l2 /\ length l1 = k /\ (length mid <= 1)%nat /\
    (mid = [] -> l2 = []) /\ Forall (fun d => de_inum d = 0) mid.
Proof.
  intros Hk Hfree. unfold place_entry. case_decide as H.
  - destruct (lookup_lt_is_Some_2 l k H) as [d Hd]. exists (take k l), [d], (drop (Datatypes.S k) l).
    split_and!; [symmetry; by apply take_drop_middle|by apply insert_take_drop|rewrite length_take; lia|done|done|].
    apply Forall_singleton. by apply Hfree.
  - exists l, [], []. rewrite app_nil_r. split_and!; [done|done|lia|cbn; lia|done|constructor].
Qed.

Lemma empty_names name d : de_inum d = 0 -> names name d = false.
Proof. unfold names. by intros ->. Qed.

(** Looking up after an entry was placed. *)
Lemma find_placed l k num name name' : (k <= length l)%nat -> (forall e', l !! k = Some e' -> de_inum e' = 0) -> 0 < num < 2 ^ 16 ->
  find_name name 0 l = None ->
  find_name name' 0 (place_entry l k (dirent num name)) =
    if bool_decide (padded name' = padded name) then Some (k, num) else find_name name' 0 l.
Proof.
  intros Hk Hfree Hn Hnone. destruct (place_split l k (dirent num name) Hk Hfree) as (l1 & mid & l2 & -> & -> & Hl & Hm & Hml & Hmid).
  rewrite !find_name_app. cbn [find_name]. rewrite dirent_names, dirent_inum, Hl by lia. cbn [Nat.add].
  assert (Hf : forall nm i, find_name nm i mid = None).
  { intros nm i. destruct mid as [|d [|]]; [done| |cbn in Hm; lia]. cbn. rewrite Forall_singleton in Hmid. by rewrite empty_names. }
  case_bool_decide as Heq.
  - assert (Hn1 : find_name name' 0 l1 = None); [|by rewrite Hn1]. rewrite find_name_app in Hnone.
    assert (Hsame : forall i l, find_name name' i l = find_name name i l).
    { intros i l. revert i. induction l as [|d l IH]; intros i; [done|]. cbn. unfold names. rewrite !namecmp_padded, Heq. by rewrite IH. }
    rewrite Hsame. by destruct (find_name name 0 l1).
  - destruct (find_name name' 0 l1); [done|]. rewrite Hf. destruct mid as [|d [|]]; [by rewrite (Hml eq_refl)|done|cbn in Hm; lia].
Qed.

(** ** The code *)
Section Dir.
Context {S U : Type} {HB : Blocks S} {HU : UserSpace U} (Hbuf : BSIZE <= bufsize).

(** An open directory: its size is a multiple of the size of an entry. *)
Record open_dir (s : fst S U) (v : contents) (lg : gset Z) (dp : nat) (x : inode) : Prop := {
  od_file : open_file s v lg dp x;
  od_type : itype x = T_DIR;
  od_size : isize x mod 16 = 0
}.

Lemma entries_lookup v x i : (i < Z.to_nat (isize x / 16))%nat -> entries v x !! i = Some (entry v x i).
Proof. intros Hi. unfold entries. rewrite list_lookup_fmap, lookup_seq_lt by done. done. Qed.

Lemma entries_length v x : length (entries v x) = Z.to_nat (isize x / 16).
Proof. unfold entries. by rewrite length_fmap, length_seq. Qed.

(** Reading an entry. *)
Lemma read_entry P V (s : fst S U) v lg dp x i : open_dir s v lg dp x -> sees (usr s) P V -> (i < Z.to_nat (isize x / 16))%nat ->
  exists b' u', readi dp ToKernel (16 * Z.of_nat i) 16 s = Ok (16, entry v x i) (io_state b' u' s) /\
    open_dir (io_state b' u' s) v lg dp x /\ sees u' P V.
Proof.
  intros [Hf Ht Hz] Hs Hi. pose proof Hf as [F1 F2 F3 F4 F5 F6 F7]. pose proof (fo_size _ _ _ F5) as Hsz. change (MAXFILE * BSIZE) with 274432 in *.
  pose proof (Z.div_mod (isize x) 16 ltac:(done)) as Hd.
  destruct (readi_spec Hbuf (t := ToKernel) I s V (16 * Z.of_nat i) 16 F1 F2 F3 F5 Hs) as (ok & got & j & b' & u' & V' & E & Hr & Hs' & Hm & Hj); [lia|lia|done|cbn; lia|].
  assert (readable x (16 * Z.of_nat i) 16 = 16) as Er.
  { unfold readable. rewrite (proj2 (Z.ltb_ge _ _)), (proj2 (Z.leb_gt _ _)) by lia. cbn [orb]. lia. }
  rewrite Er in *. destruct ok; [|by destruct Hj]. destruct Hj as [_ ->]. cbn in Hm. subst V'.
  exists b', u'. split; [exact E|]. split; [|done]. by constructor; [constructor|..].
Qed.

(** What [dirlookup] returns for an entry it has found. *)
Definition found (x : inode) (r : option (nat * Z)) : M (fst S U) (option (nat * Z)) :=
  match r with
  | None => ret None
  | Some (i, num) => do! k <- iget (idev x) num; ret (Some (k, 16 * Z.of_nat i))
  end.

Lemma dirlookup_loop_spec P V v lg dp x name k : forall f i (s : fst S U), open_dir s v lg dp x -> sees (usr s) P V ->
  (i + k)%nat = Z.to_nat (isize x / 16) -> (k < f)%nat ->
  exists b' u', dirlookup_loop f dp name (16 * Z.of_nat i) (isize x) s = found x (find_name name i (drop i (entries v x))) (io_state b' u' s) /\
    open_dir (io_state b' u' s) v lg dp x /\ sees u' P V.
Proof.
  induction k as [|k IH]; intros [|f] i s Hd Hs Hk Hf; try lia; cbn [dirlookup_loop];
    pose proof (od_size _ _ _ _ _ Hd) as Hz; pose proof (Z.div_mod (isize x) 16 ltac:(done)) as Hdm;
    pose proof (fo_size _ _ _ (of_file _ _ _ _ _ (od_file _ _ _ _ _ Hd))) as Hsz; change (MAXFILE * BSIZE) with 274432 in *.
  - rewrite (proj2 (Z.ltb_ge _ _)) by lia. rewrite drop_ge by (rewrite entries_length; lia).
    exists (blks s), (usr s). by destruct s.
  - rewrite (proj2 (Z.ltb_lt _ _)) by lia. destruct (read_entry P V s v lg dp x i Hd Hs ltac:(lia)) as (b1 & u1 & E & Hd1 & Hs1).
    rewrite (bind_ok _ _ _ _ _ E). cbn [Datatypes.fst snd]. change (negb (16 =? 16)) with false. cbv iota.
    rewrite (drop_S _ _ _ (entries_lookup v x i ltac:(lia))). cbn [find_name]. unfold names.
    replace (u32 (16 * Z.of_nat i + 16)) with (16 * Z.of_nat (i + 1)) by (rewrite u32_small by lia; lia).
    destruct (IH f (i + 1)%nat (io_state b1 u1 s) Hd1 Hs1 ltac:(lia) ltac:(lia)) as (b2 & u2 & E2 & Hd2 & Hs2).
    replace (drop (Datatypes.S i) (entries v x)) with (drop (i + 1) (entries v x)) by (f_equal; lia).
    destruct (de_inum (entry v x i) =? 0); cbn [negb andb]; [by exists b2, u2|].
    destruct (namecmp name (de_name (entry v x i)) =? 0); [|by exists b2, u2].
    exists b1, u1. split; [|done]. rewrite (bind_ok _ _ _ _ _ (geti_ok dp _ _ x (of_entry _ _ _ _ _ (od_file _ _ _ _ _ Hd1)))). done.
Qed.

Lemma dirlookup_spec P V (s : fst S U) v lg dp x name : open_dir s v lg dp x -> sees (usr s) P V ->
  exists b' u', dirlookup dp name s = found x (find_name name 0 (entries v x)) (io_state b' u' s) /\
    open_dir (io_state b' u' s) v lg dp x /\ sees u' P V.
Proof.
  intros Hd Hs. unfold dirlookup. pose proof (of_entry _ _ _ _ _ (od_file _ _ _ _ _ Hd)) as Hx.
  rewrite (bind_ok _ _ _ _ _ (geti_ok dp _ s x Hx)). rewrite (od_type _ _ _ _ _ Hd). change (negb (T_DIR =? T_DIR)) with false. cbv iota.
  rewrite (bind_ok _ _ _ _ _ (geti_ok dp _ s x Hx)). change 0 with (16 * Z.of_nat 0) at 1.
  apply (dirlookup_loop_spec P V v lg dp x name (Z.to_nat (isize x / 16))); [done|done|lia|lia].
Qed.

Lemma dirlink_loop_spec P V v lg dp x k : forall f i (s : fst S U), open_dir s v lg dp x -> sees (usr s) P V ->
  (i + k)%nat = Z.to_nat (isize x / 16) -> (k < f)%nat ->
  exists b' u', dirlink_loop f dp (16 * Z.of_nat i) (isize x) s = Ok (16 * Z.of_nat (free_entry i (drop i (entries v x)))) (io_state b' u' s) /\
    open_dir (io_state b' u' s) v lg dp x /\ sees u' P V.
Proof.
  induction k as [|k IH]; intros [|f] i s Hd Hs Hk Hf; try lia; cbn [dirlink_loop];
    pose proof (od_size _ _ _ _ _ Hd) as Hz; pose proof (Z.div_mod (isize x) 16 ltac:(done)) as Hdm;
    pose proof (fo_size _ _ _ (of_file _ _ _ _ _ (od_file _ _ _ _ _ Hd))) as Hsz; change (MAXFILE * BSIZE) with 274432 in *.
  - rewrite (proj2 (Z.ltb_ge _ _)) by lia. rewrite drop_ge by (rewrite entries_length; lia). exists (blks s), (usr s). by destruct s.
  - rewrite (proj2 (Z.ltb_lt _ _)) by lia. destruct (read_entry P V s v lg dp x i Hd Hs ltac:(lia)) as (b1 & u1 & E & Hd1 & Hs1).
    rewrite (bind_ok _ _ _ _ _ E). cbn [Datatypes.fst snd]. change (negb (16 =? 16)) with false. cbv iota.
    rewrite (drop_S _ _ _ (entries_lookup v x i ltac:(lia))). cbn [free_entry].
    destruct (IH f (i + 1)%nat (io_state b1 u1 s) Hd1 Hs1 ltac:(lia) ltac:(lia)) as (b2 & u2 & E2 & Hd2 & Hs2).
    replace (drop (Datatypes.S i) (entries v x)) with (drop (i + 1) (entries v x)) by (f_equal; lia).
    replace (16 * Z.of_nat i + 16) with (16 * Z.of_nat (i + 1)) by lia.
    destruct (de_inum (entry v x i) =? 0); [by exists b1, u1|]. by exists b2, u2.
Qed.

Lemma touched_entry i : touched (16 * Z.of_nat i) 16 = 1.
Proof.
  unfold touched. change BSIZE with 1024. pose proof (Z.mod_pos_bound (16 * Z.of_nat i) 1024 ltac:(done)) as Hm.
  assert ((16 * Z.of_nat i) mod 1024 <= 1008).
  { change 1024 with (16 * 64). rewrite Z.mul_mod_distr_l by lia. pose proof (Z.mod_pos_bound (Z.of_nat i) 64 ltac:(done)). lia. }
  symmetry. apply (Z.div_unique _ _ 1 (16 + (16 * Z.of_nat i) mod 1024 - 1)); lia.
Qed.

Lemma length_dirent num name : length (dirent num name) = 16%nat.
Proof. unfold dirent. rewrite length_app, length_name_copy. done. Qed.

(** The entries after one has been written. *)
Lemma entries_wrote d v x v' x' i e : isize x mod 16 = 0 -> 0 <= isize x -> (i <= length (entries v x))%nat -> length e = 16%nat ->
  wrote d v x (16 * Z.of_nat i) e v' x' -> entries v' x' = place_entry (entries v x) i e /\ isize x' mod 16 = 0.
Proof.
  intros Hz Hsz0 Hi He W. rewrite entries_length in Hi. pose proof (Z.div_mod (isize x) 16 ltac:(done)) as Hdm.
  pose proof (wt_size _ _ _ _ _ _ _ W) as Hs'. rewrite He in Hs'. change (Z.of_nat 16) with 16 in Hs'.
  set (N := Z.to_nat (isize x / 16)) in *. set (N' := Nat.max N (i + 1)). assert (HN' : isize x' = 16 * Z.of_nat N') by lia.
  assert (HN : isize x = 16 * Z.of_nat N) by lia. split; [|rewrite HN', Z.mul_comm; by apply Z.mod_mul].
  assert (Hent : forall k, (k < N')%nat -> entry v' x' k = if decide (k = i) then e else entry v x k).
  { intros k Hk. apply list_eq. intros j. unfold entry. destruct (decide (j < 16)%nat) as [Hj|Hj].
    - rewrite file_bytes_lookup by done. rewrite (wt_bytes _ _ _ _ _ _ _ W) by lia. rewrite He. change (Z.of_nat 16) with 16. case_decide as Hki.
      + subst k. rewrite (proj2 (inrange_true _ _ _)) by lia. unfold nthb.
        replace (Z.to_nat (16 * Z.of_nat i + Z.of_nat j - 16 * Z.of_nat i)) with j by lia.
        destruct (lookup_lt_is_Some_2 e j) as [b ->]; [lia|done].
      + rewrite file_bytes_lookup by done. destruct (inrange _ 16 _) eqn:Er; [|done]. apply inrange_true in Er. lia.
    - rewrite lookup_ge_None_2 by (rewrite length_file_bytes; lia). symmetry. apply lookup_ge_None_2. case_decide; [lia|]. rewrite length_file_bytes. lia. }
  apply list_eq. intros k. destruct (decide (k < N')%nat) as [Hk|Hk].
  - rewrite entries_lookup by (rewrite HN', Z.mul_comm, Z.div_mul by done; lia). rewrite Hent by done. unfold place_entry. rewrite entries_length. fold N.
    destruct (decide (i < N)%nat) as [Hlt|Hlt], (decide (k = i)) as [Hki|Hki]; try subst k.
    + by rewrite list_lookup_insert_eq by (by rewrite entries_length).
    + rewrite list_lookup_insert_ne by done. by rewrite entries_lookup by (fold N; lia).
    + rewrite lookup_app_r, entries_length by (rewrite entries_length; fold N; lia). fold N. by replace (i - N)%nat with 0%nat by lia.
    + rewrite lookup_app_l by (rewrite entries_length; fold N; lia). by rewrite entries_lookup by (fold N; lia).
  - rewrite lookup_ge_None_2 by (rewrite entries_length, HN', Z.mul_comm, Z.div_mul by done; lia). symmetry. apply lookup_ge_None_2.
    unfold place_entry. rewrite entries_length. fold N. destruct (decide (i < N)%nat); rewrite ?length_insert, ?length_app, entries_length; fold N; cbn; lia.
Qed.

Lemma name_copy_bytes n t : Forall byte_ok t -> Forall byte_ok (name_copy n t).
Proof.
  assert (Z0 : forall k, Forall byte_ok (replicate k 0)) by (intros k; apply Forall_replicate; by unfold byte_ok).
  intros H. revert n. induction H as [|c t Hc Ht IH]; intros n; destruct n as [|n]; cbn [name_copy]; [constructor|apply Z0|constructor|].
  destruct (c =? 0); [apply Z0|]. by constructor.
Qed.

Lemma dirent_bytes num name : Forall byte_ok name -> Forall byte_ok (dirent num name).
Proof.
  intros Hn. unfold dirent. apply Forall_app. split; [|by apply name_copy_bytes].
  pose proof (Z.mod_pos_bound num (2 ^ 16) ltac:(done)) as H. unfold u16. constructor; [|constructor; [|constructor]]; unfold byte_ok.
  - apply Z.mod_pos_bound. done.
  - split; [apply Z.div_pos; lia|]. apply Z.div_lt_upper_bound; lia.
Qed.

(** [dirlookup] finds the first entry in use with the given name: it
    answers null when the directory has none, and otherwise the inode of that
    entry and its offset; reading changes neither disk nor directory.  Names
    are compared up to 14 characters. *)
Theorem dirlookup_finds P V (s : fst S U) v lg dp x name : open_dir s v lg dp x -> sees (usr s) P V ->
  exists b' u', dirlookup dp name s = found x (find_name name 0 (entries v x)) (io_state b' u' s) /\
    open_dir (io_state b' u' s) v lg dp x /\ sees u' P V.
Proof. apply dirlookup_spec. Qed.

(** C39.  [dirlink] adds a name to a directory: when the directory does not
    have it and the operation has room, it returns 0 and then that name leads
    to the new inode number while every other name leads where it led before;
    it returns -1 only when no disk block is free. *)
Theorem dirlink_adds P V (s : fst S U) v lg dp x name num : open_dir s v lg dp x -> sees (usr s) P V ->
  find_name name 0 (entries v x) = None -> 0 < num < 2 ^ 16 -> Forall byte_ok name ->
  isize x + 16 <= MAXFILE * BSIZE -> cost (sb s) lg + 3 <= MAXOPBLOCKS ->
  exists r s' v' lg' x', dirlink dp name num s = Ok r s' /\ open_file s' v' lg' dp x' /\ sees (usr s') P V /\
    ((r = 0 /\ open_dir s' v' lg' dp x' /\ exists k, forall name', find_name name' 0 (entries v' x') =
        if bool_decide (padded name' = padded name) then Some (k, num) else find_name name' 0 (entries v x)) \/
     (r = -1 /\ forall c, 0 <= c < size_ (sb s) -> used (sb s) v' c = true)).
Proof.
  intros Hd Hs Hnone Hnum Hname Hmax Hcost. unfold dirlink.
  destruct (dirlookup_spec P V s v lg dp x name Hd Hs) as (b1 & u1 & E1 & Hd1 & Hs1). rewrite Hnone in E1. rewrite (bind_ok _ _ _ _ _ E1).
  set (s1 := io_state b1 u1 s) in *. pose proof (of_entry _ _ _ _ _ (od_file _ _ _ _ _ Hd1)) as Hx. rewrite (bind_ok _ _ _ _ _ (geti_ok dp _ s1 x Hx)).
  destruct (dirlink_loop_spec P V v lg dp x (Z.to_nat (isize x / 16)) (Z.to_nat (isize x / 16) + 2) 0 s1 Hd1 Hs1 ltac:(lia) ltac:(lia)) as (b2 & u2 & E2 & Hd2 & Hs2).
  change (16 * Z.of_nat 0) with 0 in E2. rewrite (bind_ok _ _ _ _ _ E2). rewrite drop_0. set (s2 := io_state b2 u2 s1) in *.
  destruct (free_entry_spec 0 (entries v x)) as (k & -> & Hk & Hfree). cbn [Nat.add].
  pose proof (fo_size _ _ _ (of_file _ _ _ _ _ (od_file _ _ _ _ _ Hd))) as Hsz. pose proof (od_size _ _ _ _ _ Hd) as Hz.
  pose proof (Z.div_mod (isize x) 16 ltac:(done)) as Hdm. pose proof Hk as Hk'. rewrite entries_length in Hk'.
  destruct (writei_file Hbuf (P := P) (V := V) (o := FromKernel (dirent num name)) (bs := dirent num name) (off := 16 * Z.of_nat k) (od_file _ _ _ _ _ Hd2) Hs2)
    as (i & v' & lg' & x' & s' & E3 & Hf' & Hs' & Hi & W & Hsb & _ & _ & _ & Hfull); try done.
  - by apply dirent_bytes.
  - rewrite length_dirent. done.
  - lia.
  - rewrite length_dirent. lia.
  - rewrite length_dirent, touched_entry. change (sb s2) with (sb s). lia.
  - rewrite length_dirent in E3, Hi, Hfull. change (Z.of_nat 16) with 16 in E3. rewrite (bind_ok _ _ _ _ _ E3). change (sb s2) with (sb s) in *.
    exists (if Z.of_nat i =? 16 then 0 else -1), s', v', lg', x'. split; [by destruct (Z.of_nat i =? 16)|]. split; [done|]. split; [done|].
    destruct (Z.eqb_spec (Z.of_nat i) 16) as [Hi16|Hi16]; [left|right].
    + split; [done|]. replace i with (length (dirent num name)) in W by (rewrite length_dirent; lia). rewrite take_ge in W by done.
      destruct (entries_wrote _ _ _ _ _ k _ Hz ltac:(lia) Hk (length_dirent num name) W) as [Hent Hz'].
      split; [|exists k; intros name'; rewrite Hent; by apply find_placed]. constructor; [done| |done].
      rewrite (wt_rest _ _ _ _ _ _ _ W). exact (od_type _ _ _ _ _ Hd).
    + split; [done|]. apply Hfull. lia.
Qed.
End Dir.


(** ** On the small disk: an empty directory *)
Module DirDemo.
Import SmallDisk.

Definition dir0 : inode := mkinode 1 1 1 None true T_DIR 0 0 1 0 (replicate 13 0).

Lemma dir0_ok tr v : @file_ok lst (layer tr) sb0 v dir0.
Proof. destruct (file0_ok (tr := tr) v) as [[H1 H2 H3 H4 H5] Hz Hf]. constructor; [constructor; done|exact Hz|exact Hf]. Qed.

Lemma dinode_dir0 : dinode_ok dir0.
Proof.
  constructor; [|done|done|].
  - intros f Hf. cbn in Hf. rewrite !elem_of_cons, elem_of_nil in Hf. unfold T_DIR in Hf. lia.
  - apply Forall_replicate. lia.
Qed.

Lemma small_dir : exists tr (s : fst lst machine) pt V,
  @open_dir lst machine (layer tr) s (blk disk1) ∅ 0 dir0 /\ @sees machine memory (usr s) (eq pt) V /\ sb s = sb0.
Proof.
  destruct begun as (tr & b & Hb). destruct demo_sees as (u & pt & V & Hs).
  exists tr, (mkfst b u sb0 [dir0] 1 0 []), pt, V. split; [|split; [exact Hs|reflexivity]].
  constructor; [|done|done].
  constructor; [reflexivity|exact Hb|apply sb0_ok|apply meta0|apply dir0_ok|apply dinode_dir0|split; done].
Qed.

(** The name "sh". *)
Definition sh_name : list Z := [115; 104].
Lemma sh_bytes : Forall byte_ok sh_name.
Proof. repeat (apply Forall_cons; split; [unfold byte_ok; lia|]). apply Forall_nil. done. Qed.
Lemma room1 : cost sb0 ∅ + 3 <= MAXOPBLOCKS.
Proof. rewrite cost0. change MAXOPBLOCKS with 10. lia. Qed.
End DirDemo.
Import SmallDisk DirDemo.

Lemma dirlookup_finds_witness : exists tr s s', @dirlookup lst machine (layer tr) memory 0 sh_name s = Ok None s'.
Proof.
  destruct small_dir as (tr & s & pt & V & Hd & Hs & Esb).
  destruct (@dirlookup_finds lst machine (layer tr) memory ltac:(done) (eq pt) V s (blk disk1) ∅ 0 dir0 sh_name Hd Hs) as (b' & u' & E & _).
  exists tr, s, (io_state b' u' s). exact E.
Defined.

Lemma dirlink_adds_witness : exists tr s r s', @dirlink lst machine (layer tr) memory 0 sh_name 5 s = Ok r s'.
Proof.
  destruct small_dir as (tr & s & pt & V & Hd & Hs & Esb).
  destruct (@dirlink_adds lst machine (layer tr) memory ltac:(done) (eq pt) V s (blk disk1) ∅ 0 dir0 sh_name 5 Hd Hs)
    as (r & s' & v' & lg' & x' & E & _); [reflexivity|done|exact sh_bytes|done|rewrite Esb; exact room1|].
  exists tr, s, r, s'. exact E.
Defined.
