(* ===== verification/FsTable.v ===== *)
(** * The inode table

    Locking, getting and putting inodes: what [ilock], [iunlock], [iget] and
    [iput] of kernel/fs.c do to the table, with the number of references to
    each inode. *)

From S2P Require Import Prelude Riscv Mem Lock Bio Blocks UserIO Fs FsBlocks FsFiles FsMap FsContents FsWrite FsInode.
Import KString.
Local Open Scope Z_scope.

(** ** The sleep lock of an inode *)
Section Ilock.
Context {S U : Type} {HB : Blocks S} {HU : UserSpace U}.

Definition with_ino (ip : nat) (x : inode) (s : fst S U) : fst S U :=
  mkfst (blks s) (usr s) (sb s) (<[ip := x]> (itable s)) (fpid s) (cwd s) (fheld s).

Lemma with_ino_lookup ip x y s : itable s !! ip = Some y -> itable (with_ino ip x s) !! ip = Some x.
Proof. intros H. cbn. apply list_lookup_insert_eq. by eapply lookup_lt_Some. Qed.

(** Between [acquire] and [release] of a spinlock. *)
Lemma lock_section lk (s : fst S U) : lk ∉ fheld s -> acquire lk s = Ok tt (set_held (lk :: fheld s) s).
Proof. intros H. by rewrite (acquire_ok lk s) by exact H. Qed.

Lemma unlock_section lk (s : fst S U) l : fheld s = lk :: l -> release lk s = Ok tt (set_held l s).
Proof. intros H. by rewrite (release_head lk l s) by exact H. Qed.

Section Calls.
Context {s : fst S U} {ip : nat} {x : inode} (Hx : itable s !! ip = Some x) (Hl : "sleep lock" ∉ fheld s).

Lemma acquiresleep_free : ilk x = None -> acquiresleep ip s = Ok tt (with_ino ip (set_ilk (Some (fpid s)) x) s).
Proof.
  intros Hf. unfold acquiresleep. rewrite (bind_ok _ _ _ _ _ (lock_section "sleep lock" s Hl)). set (s1 := set_held _ s).
  assert (itable s1 !! ip = Some x) as Hx1 by done. rewrite (bind_ok _ _ _ _ _ (geti_ok ip _ s1 x Hx1)), Hf.
  rewrite (bind_ok _ _ s1 (fpid s) s1) by done. rewrite (bind_ok _ _ _ _ _ (seti_ok ip _ s1 x Hx1)).
  by rewrite (unlock_section "sleep lock" _ (fheld s)).
Qed.

Lemma releasesleep_held : releasesleep ip s = Ok tt (with_ino ip (set_ilk None x) s).
Proof.
  unfold releasesleep. rewrite (bind_ok _ _ _ _ _ (lock_section "sleep lock" s Hl)). set (s1 := set_held _ s).
  assert (itable s1 !! ip = Some x) as Hx1 by done. rewrite (bind_ok _ _ _ _ _ (seti_ok ip _ s1 x Hx1)).
  by rewrite (unlock_section "sleep lock" _ (fheld s)).
Qed.

Lemma holdingsleep_mine : ilk x = Some (fpid s) -> holdingsleep ip s = Ok true s.
Proof.
  intros Hf. unfold holdingsleep. rewrite (bind_ok _ _ _ _ _ (lock_section "sleep lock" s Hl)). set (s1 := set_held _ s).
  assert (itable s1 !! ip = Some x) as Hx1 by done. rewrite (bind_ok _ _ _ _ _ (geti_ok ip _ s1 x Hx1)), Hf.
  rewrite (bind_ok _ _ s1 (fpid s) s1) by done. rewrite (bind_ok _ _ s1 tt (set_held (fheld s) s1)) by (by apply unlock_section).
  rewrite bool_decide_true by done. unfold ret. do 2 f_equal. by destruct s.
Qed.

(** An inode that is in memory: no disk access. *)
Lemma ilock_valid : ilk x = None -> ivalid x = true -> 1 <= iref x ->
  ilock ip s = Ok tt (with_ino ip (set_ilk (Some (fpid s)) x) s).
Proof.
  intros Hf Hv Hr. unfold ilock. rewrite (bind_ok _ _ _ _ _ (geti_ok ip _ s x Hx)), (proj2 (Z.ltb_ge _ _)) by lia.
  rewrite (bind_ok _ _ _ _ _ (acquiresleep_free Hf)).
  rewrite (bind_ok _ _ _ _ _ (geti_ok ip _ _ _ (with_ino_lookup ip _ x s Hx))). cbn. by rewrite Hv.
Qed.

Lemma iunlock_mine : ilk x = Some (fpid s) -> 1 <= iref x -> iunlock ip s = Ok tt (with_ino ip (set_ilk None x) s).
Proof.
  intros Hf Hr. unfold iunlock. rewrite (bind_ok _ _ _ _ _ (holdingsleep_mine Hf)), (bind_ok _ _ _ _ _ (geti_ok ip _ s x Hx)).
  rewrite (proj2 (Z.ltb_ge _ _)) by lia. apply releasesleep_held.
Qed.
End Calls.
End Ilock.

(** ** Sums over the table *)
Definition sumz {A} (f : A -> Z) (l : list A) : Z := foldr (fun x a => f x + a) 0 l.

Lemma sumz_insert {A} (f : A -> Z) l i x y : l !! i = Some x -> sumz f (<[i := y]> l) = sumz f l - f x + f y.
Proof.
  revert i. induction l as [|a l IH]; intros [|i] H; [done|done|injection H as ->; cbn; lia|]. specialize (IH i H).
  change (<[S i := y]> (a :: l)) with (a :: <[i := y]> l). cbn [sumz foldr]. fold (sumz f (<[i := y]> l)). fold (sumz f l). lia.
Qed.

Lemma sumz_zero {A} (f : A -> Z) l : (forall i x, l !! i = Some x -> f x = 0) -> sumz f l = 0.
Proof. induction l as [|a l IH]; intros H; [done|]. cbn. fold (sumz f l). rewrite (H 0%nat a eq_refl), IH; [done|]. intros i. apply (H (S i)). Qed.

Lemma sumz_nonneg {A} (f : A -> Z) l : (forall i x, l !! i = Some x -> 0 <= f x) -> 0 <= sumz f l.
Proof. induction l as [|a l IH]; intros H; [done|]. cbn. fold (sumz f l). pose proof (H 0%nat a eq_refl). assert (0 <= sumz f l) by (apply IH; intros i; apply (H (S i))). lia. Qed.

Lemma sumz_ge {A} (f : A -> Z) l i x : (forall i x, l !! i = Some x -> 0 <= f x) -> l !! i = Some x -> f x <= sumz f l.
Proof.
  intros Hf Hi. revert i Hi. induction l as [|a l IH]; intros [|i] Hi; [done|done| |]; cbn; fold (sumz f l).
  - injection Hi as ->. assert (0 <= sumz f l) by (apply sumz_nonneg; intros j; apply (Hf (S j))). lia.
  - pose proof (Hf 0%nat a eq_refl). assert (f x <= sumz f l) by (apply (IH (fun j => Hf (S j)) i Hi)). lia.
Qed.

(** The references to inode [n], and the number of free entries. *)
Definition nref (l : list inode) (n : Z) : Z := sumz (fun x => if inum x =? n then iref x else 0) l.
Definition nfree (l : list inode) : Z := sumz (fun x => if iref x =? 0 then 1 else 0) l.

(** ** The table and the disk *)
Section Table.
Context {S U : Type} {HB : Blocks S} {HU : UserSpace U}.

(** Inode [n] of the disk, in memory with [r] references. *)
Definition disk_inode (d : superblock) (v : contents) (n r : Z) (lk : option Z) : inode :=
  get_dinode (v (IBLOCK n d)) (mkinode fsdev n r lk true 0 0 0 0 0 []).

(** Each referenced inode has one entry; an entry that is marked valid is what
    the disk contains.  [o] is the entry that is locked, and by whom. *)
Record table (d : superblock) (v : contents) (o : option (nat * Z)) (l : list inode) : Prop := {
  tb_ref : forall i x, l !! i = Some x -> 0 <= iref x;
  tb_dev : forall i x, l !! i = Some x -> 0 < iref x -> idev x = fsdev;
  tb_num : forall i x, l !! i = Some x -> 0 < iref x -> 0 <= inum x < ninodes d;
  tb_valid : forall i x, l !! i = Some x -> 0 < iref x -> ivalid x = true -> x = disk_inode d v (inum x) (iref x) (ilk x);
  tb_lock : forall i x, l !! i = Some x -> ilk x = match o with Some (j, p) => if decide (i = j) then Some p else None | None => None end;
  tb_held : forall j p, o = Some (j, p) -> exists x, l !! j = Some x /\ 0 < iref x;
  tb_uniq : forall i j x y, l !! i = Some x -> l !! j = Some y -> 0 < iref x -> 0 < iref y -> inum x = inum y -> i = j
}.

Lemma nref_entry d v o l i x : table d v o l -> l !! i = Some x -> 0 < iref x -> nref l (inum x) = iref x.
Proof.
  intros T Hi Hr. unfold nref. pose proof (sumz_insert (fun y => if inum y =? inum x then iref y else 0) l i x (set_iref (fun _ => 0) x) Hi) as E.
  cbn [inum set_iref iref] in E. rewrite Z.eqb_refl in E. rewrite sumz_zero in E; [lia|].
  intros j y Hj. destruct (decide (j = i)) as [->|Hne].
  - rewrite list_lookup_insert_eq in Hj by (by eapply lookup_lt_Some). injection Hj as <-. cbn. by destruct (_ =? _).
  - rewrite list_lookup_insert_ne in Hj by done. destruct (Z.eqb_spec (inum y) (inum x)) as [En|]; [|done].
    pose proof (tb_ref _ _ _ _ T j y Hj). destruct (decide (iref y = 0)); [done|]. exfalso. apply Hne. apply (tb_uniq _ _ _ _ T j i y x); [done|done|lia|done|done].
Qed.

Lemma nref_none l n : (forall i x, l !! i = Some x -> 0 <= iref x) -> (forall i x, l !! i = Some x -> 0 < iref x -> inum x <> n) -> nref l n = 0.
Proof.
  intros Hr Hn. apply sumz_zero. intros i x Hi. destruct (Z.eqb_spec (inum x) n) as [E|]; [|done]. pose proof (Hr i x Hi).
  destruct (decide (0 < iref x)) as [Hp|]; [|lia]. exfalso. by apply (Hn i x Hi Hp).
Qed.

Lemma nref_some l n : 0 < nref l n -> (forall i x, l !! i = Some x -> 0 <= iref x) -> exists i x, l !! i = Some x /\ inum x = n /\ 0 < iref x.
Proof.
  unfold nref. induction l as [|a l IH]; intros H Hr; [done|]. cbn in H. fold (sumz (fun x => if inum x =? n then iref x else 0) l) in H.
  destruct (decide (inum a = n /\ 0 < iref a)) as [[E Ha]|Hne]; [by exists 0%nat, a|]. destruct IH as (i & x & Hi & Hx); [|intros j; apply (Hr (Datatypes.S j))|by exists (Datatypes.S i), x].
  specialize (Hr 0%nat a eq_refl). destruct (Z.eqb_spec (inum a) n); [|lia]. destruct (decide (0 < iref a)); [by destruct Hne|lia].
Qed.

(** [iget_scan] *)
Lemma iget_scan_spec dev num l : forall i e,
  match iget_scan l i dev num e with
  | inl j => exists k x, j = (i + k)%nat /\ l !! k = Some x /\ 0 < iref x /\ idev x = dev /\ inum x = num
  | inr e' => (forall k x, l !! k = Some x -> 0 < iref x -> idev x = dev -> inum x <> num) /\
      match e' with
      | Some j => e = Some j \/ e = None /\ exists k x, j = (i + k)%nat /\ l !! k = Some x /\ iref x = 0
      | None => e = None /\ forall k x, l !! k = Some x -> iref x <> 0
      end
  end.
Proof.
  induction l as [|a l IH]; intros i e; cbn [iget_scan].
  - split; [done|]. destruct e; [by left|done].
  - destruct ((0 <? iref a) && (idev a =? dev) && (inum a =? num)) eqn:E.
    + apply andb_true_iff in E as [E E3]. apply andb_true_iff in E as [E1 E2]. boolz. exists 0%nat, a. split_and!; try done; lia.
    + specialize (IH (i + 1)%nat (match e with None => if iref a =? 0 then Some i else None | Some e' => Some e' end)).
      destruct (iget_scan l (i + 1) dev num _) as [j|e'].
      * destruct IH as (k & x & -> & Hk & H). exists (Datatypes.S k), x. split; [lia|]. by split.
      * destruct IH as [Hno IH]. split.
        -- intros [|k] x Hk Hr Hd Hn; [|by apply (Hno k x)]. injection Hk as ->. rewrite Hd, Hn, !Z.eqb_refl, (proj2 (Z.ltb_lt _ _) Hr) in E. done.
        -- destruct e' as [j|].
           ++ destruct IH as [IH|[IH (k & x & -> & Hk & Hx)]]; destruct e as [e0|]; try done; [by left| |].
              ** destruct (Z.eqb_spec (iref a) 0); [|done]. injection IH as <-. right. split; [done|]. exists 0%nat, a. split; [lia|done].
              ** right. split; [done|]. exists (Datatypes.S k), x. split; [lia|done].
           ++ destruct IH as [IH Hfull]. destruct e; [done|]. split; [done|]. destruct (Z.eqb_spec (iref a) 0); [done|].
              intros [|k] x Hk; [injection Hk as <-; done|by apply (Hfull k)].
Qed.

Definition with_table (l : list inode) (s : fst S U) : fst S U := mkfst (blks s) (usr s) (sb s) l (fpid s) (cwd s) (fheld s).

(** What changes when the references to one inode change by [k]. *)
Record recounted (l : list inode) (n k : Z) (l' : list inode) : Prop := {
  rc_refs : forall m, nref l' m = nref l m + if m =? n then k else 0;
  rc_free : nfree l' = nfree l + (if nref l n =? 0 then 1 else 0) * -1 + (if nref l' n =? 0 then 1 else 0)
}.

(** One entry changes its count. *)
Lemma table_reref d v o l i x r : table d v o l -> l !! i = Some x -> 0 < iref x -> 0 <= r -> (forall p, o = Some (i, p) -> 0 < r) ->
  table d v o (<[i := set_iref (fun _ => r) x]> l) /\ recounted l (inum x) (r - iref x) (<[i := set_iref (fun _ => r) x]> l).
Proof.
  intros T Hi Hp Hr Hheld. set (y := set_iref (fun _ => r) x). assert (Hlt := lookup_lt_Some _ _ _ Hi).
  assert (Hsplit : forall j z, <[i := y]> l !! j = Some z -> j = i /\ z = y \/ j <> i /\ l !! j = Some z).
  { intros j z Hj. destruct (decide (j = i)) as [->|Hne]; [left; rewrite list_lookup_insert_eq in Hj by done; split; congruence|right; by rewrite list_lookup_insert_ne in Hj]. }
  assert (Hrefs : forall m, nref (<[i := y]> l) m = nref l m + if m =? inum x then r - iref x else 0).
  { intros m. unfold nref. rewrite (sumz_insert _ _ _ _ y Hi). cbn [y inum iref set_iref]. rewrite (Z.eqb_sym m). destruct (inum x =? m); lia. }
  split; constructor.
  - intros j z [[-> ->]|[Hne Hj]]%Hsplit; [done|by eapply tb_ref].
  - intros j z [[-> ->]|[Hne Hj]]%Hsplit Hz; [by apply (tb_dev _ _ _ _ T i x)|by eapply tb_dev].
  - intros j z [[-> ->]|[Hne Hj]]%Hsplit Hz; [by apply (tb_num _ _ _ _ T i x)|by eapply tb_num].
  - intros j z [[-> ->]|[Hne Hj]]%Hsplit Hz Hv; [|by eapply tb_valid]. cbn in Hv. unfold y. rewrite (tb_valid _ _ _ _ T i x Hi Hp Hv). done.
  - intros j z [[-> ->]|[Hne Hj]]%Hsplit; [by apply (tb_lock _ _ _ _ T i x)|by eapply tb_lock].
  - intros j p Ho. destruct (tb_held _ _ _ _ T j p Ho) as (z & Hz & Hzr). destruct (decide (j = i)) as [->|Hne].
    + exists y. split; [by apply list_lookup_insert_eq|by apply (Hheld p)].
    + exists z. split; [by rewrite list_lookup_insert_ne|done].
  - intros j k a b [[-> ->]|[Hj Ha]]%Hsplit [[-> ->]|[Hk Hb]]%Hsplit H1 H2 E; [done| | |by eapply (tb_uniq _ _ _ _ T j k)].
    + by apply (tb_uniq _ _ _ _ T i k x b).
    + by apply (tb_uniq _ _ _ _ T j i a x).
  - exact Hrefs.
  - rewrite Hrefs, Z.eqb_refl, (nref_entry d v o l i x T Hi Hp). unfold nfree. rewrite (sumz_insert _ _ _ _ y Hi). cbn [y iref set_iref].
    replace (iref x + (r - iref x)) with r by lia. destruct (iref x =? 0); lia.
Qed.

(** A free entry is taken. *)
Lemma table_take d v o l e x n : table d v o l -> l !! e = Some x -> iref x = 0 -> 0 <= n < ninodes d ->
  (forall k y, l !! k = Some y -> 0 < iref y -> inum y <> n) ->
  let y := mkinode fsdev n 1 (ilk x) false (itype x) (imajor x) (iminor x) (inlink x) (isize x) (iaddrs x) in
  table d v o (<[e := y]> l) /\ recounted l n 1 (<[e := y]> l).
Proof.
  intros T He H0 Hn Hno y. assert (Hlt := lookup_lt_Some _ _ _ He).
  assert (Hsplit : forall j z, <[e := y]> l !! j = Some z -> j = e /\ z = y \/ j <> e /\ l !! j = Some z).
  { intros j z Hj. destruct (decide (j = e)) as [->|Hne]; [left; rewrite list_lookup_insert_eq in Hj by done; split; congruence|right; by rewrite list_lookup_insert_ne in Hj]. }
  assert (Hnone : nref l n = 0) by (apply nref_none; [apply (tb_ref _ _ _ _ T)|exact Hno]).
  assert (Hrefs : forall m, nref (<[e := y]> l) m = nref l m + if m =? n then 1 else 0).
  { intros m. unfold nref. rewrite (sumz_insert _ _ _ _ y He). cbn [y inum iref]. rewrite H0, (Z.eqb_sym m). destruct (inum x =? m), (n =? m); lia. }
  split; constructor.
  - intros j z [[-> ->]|[Hne Hj]]%Hsplit; [done|by eapply tb_ref].
  - intros j z [[-> ->]|[Hne Hj]]%Hsplit Hz; [done|by eapply tb_dev].
  - intros j z [[-> ->]|[Hne Hj]]%Hsplit Hz; [done|by eapply tb_num].
  - intros j z [[-> ->]|[Hne Hj]]%Hsplit Hz Hv; [done|by eapply tb_valid].
  - intros j z [[-> ->]|[Hne Hj]]%Hsplit; [by apply (tb_lock _ _ _ _ T e x)|by eapply tb_lock].
  - intros j p Ho. destruct (tb_held _ _ _ _ T j p Ho) as (z & Hz & Hzr). exists z. split; [|done]. rewrite list_lookup_insert_ne; [done|]. intros ->. rewrite He in Hz. injection Hz as <-. lia.
  - intros j k a b [[-> ->]|[Hj Ha]]%Hsplit [[-> ->]|[Hk Hb]]%Hsplit H1 H2 E; [done| | |by eapply (tb_uniq _ _ _ _ T j k)]; exfalso.
    + by apply (Hno k b).
    + by apply (Hno j a).
  - exact Hrefs.
  - rewrite Hrefs, Z.eqb_refl, Hnone. unfold nfree. rewrite (sumz_insert _ _ _ _ y He). cbn [y iref]. rewrite H0. change (0 + 1 =? 0) with false. change (0 =? 0) with true. change (1 =? 0) with false. cbn match. lia.
Qed.

(** Entries other than the one that was got keep everything but, perhaps,
    their count. *)
Definition kept (l l' : list inode) : Prop := forall j y, l !! j = Some y -> 0 < iref y -> exists r, l' !! j = Some (set_iref (fun _ => r) y) /\ 0 < r.

Lemma iget_ok d v o (s : fst S U) n : "itable" ∉ fheld s -> table d v o (itable s) -> 0 <= n < ninodes d -> 0 < nref (itable s) n \/ 0 < nfree (itable s) ->
  exists i l' x, iget fsdev n s = Ok i (with_table l' s) /\ l' !! i = Some x /\ inum x = n /\ 0 < iref x /\
    table d v o l' /\ recounted (itable s) n 1 l' /\ kept (itable s) l'.
Proof.
  intros Hl T Hn Hroom. unfold iget. rewrite (bind_ok _ _ _ _ _ (lock_section "itable" s Hl)). set (s1 := set_held _ s).
  rewrite (bind_ok _ _ s1 (itable s) s1) by done. pose proof (iget_scan_spec fsdev n (itable s) 0 None) as Hsc.
  destruct (iget_scan (itable s) 0 fsdev n None) as [j|[e|]].
  - destruct Hsc as (k & x & -> & Hk & Hr & Hd & Hx). change (0 + k)%nat with k. rewrite (bind_ok _ _ _ _ _ (seti_ok k _ s1 x Hk)).
    destruct (table_reref d v o (itable s) k x (iref x + 1) T Hk Hr) as [T' R]; [lia|intros; lia|]. rewrite Hx in R. replace (iref x + 1 - iref x) with 1 in R by lia.
    eexists k, _, _. split; [|split; [exact (list_lookup_insert_eq _ _ (set_iref (fun _ => iref x + 1) x) (lookup_lt_Some _ _ _ Hk))|split; [exact Hx|split; [cbn; lia|split; [exact T'|split; [exact R|]]]]]].
    + unfold bind. rewrite (unlock_section "itable" _ (fheld s)) by done. reflexivity.
    + intros m y Hm Hy. destruct (decide (m = k)) as [->|Hne]; [exists (iref x + 1)|exists (iref y)].
      * rewrite list_lookup_insert_eq by (by eapply lookup_lt_Some). assert (y = x) as -> by congruence. split; [done|lia].
      * rewrite list_lookup_insert_ne by done. split; [rewrite Hm; by destruct y|done].
  - destruct Hsc as [Hno [Hsc|[_ (k & x & -> & Hk & Hx)]]]; [done|]. change (0 + k)%nat with k. rewrite (bind_ok _ _ _ _ _ (seti_ok k _ s1 x Hk)).
    assert (Hno' : forall k y, itable s !! k = Some y -> 0 < iref y -> inum y <> n) by (intros m y Hm Hy; apply (Hno m y Hm Hy), (tb_dev _ _ _ _ T m y Hm Hy)).
    destruct (table_take d v o (itable s) k x n T Hk Hx Hn Hno') as [T' R].
    eexists k, _, _. split; [|split; [exact (list_lookup_insert_eq _ _ _ (lookup_lt_Some _ _ _ Hk))|split; [|split; [|split; [exact T'|split; [exact R|]]]]]]; [|done|done|].
    + unfold bind. rewrite (unlock_section "itable" _ (fheld s)) by done. reflexivity.
    + intros m y Hm Hy. exists (iref y). rewrite list_lookup_insert_ne by (intros ->; rewrite Hk in Hm; injection Hm as ->; lia). split; [rewrite Hm; by destruct y|done].
  - exfalso. destruct Hsc as [Hno [_ Hfull]]. destruct Hroom as [Hroom|Hroom].
    + rewrite nref_none in Hroom; [lia|apply (tb_ref _ _ _ _ T)|]. intros m y Hm Hy. apply (Hno m y Hm Hy), (tb_dev _ _ _ _ T m y Hm Hy).
    + unfold nfree in Hroom. rewrite sumz_zero in Hroom; [lia|]. intros m y Hm. by rewrite (proj2 (Z.eqb_neq _ _) (Hfull m y Hm)).
Qed.

Lemma iput_ok d v o (s : fst S U) ip x : "itable" ∉ fheld s -> table d v o (itable s) -> itable s !! ip = Some x -> 0 < iref x ->
  (forall p, o <> Some (ip, p)) -> inlink x <> 0 \/ ivalid x = false ->
  let l' := <[ip := set_iref (fun _ => iref x - 1) x]> (itable s) in
  iput ip s = Ok tt (with_table l' s) /\ table d v o l' /\ recounted (itable s) (inum x) (-1) l'.
Proof.
  intros Hl T Hx Hr Ho Hlink l'. destruct (table_reref d v o (itable s) ip x (iref x - 1) T Hx Hr) as [T' R]; [lia|intros p Hp; by destruct (Ho p)|].
  replace (iref x - 1 - iref x) with (-1) in R by lia. split; [|done].
  unfold iput. rewrite (bind_ok _ _ _ _ _ (lock_section "itable" s Hl)). set (s1 := set_held _ s).
  rewrite (bind_ok _ _ _ _ _ (geti_ok ip _ s1 x Hx)). replace ((iref x =? 1) && ivalid x && (inlink x =? 0)) with false.
  - rewrite (bind_ok _ _ s1 tt s1) by done. rewrite (bind_ok _ _ _ _ _ (seti_ok ip _ s1 x Hx)). by rewrite (unlock_section "itable" _ (fheld s)).
  - symmetry. destruct Hlink as [H| ->]; [rewrite (proj2 (Z.eqb_neq _ _) H)|]; by rewrite ?andb_false_r, ?andb_false_l.
Qed.

(** Changing an entry without changing its number or its count. *)
Lemma same_counts l i x y : l !! i = Some x -> inum y = inum x -> iref y = iref x ->
  (forall m, nref (<[i := y]> l) m = nref l m) /\ nfree (<[i := y]> l) = nfree l.
Proof. intros Hi E1 E2. split; [intros m; unfold nref|unfold nfree]; rewrite (sumz_insert _ _ _ _ y Hi), ?E1, E2; lia. Qed.

Lemma table_relock d v o o' l i x y : table d v o l -> l !! i = Some x -> 0 < iref x ->
  (ivalid y = true -> y = disk_inode d v (inum x) (iref x) (ilk y)) -> inum y = inum x -> iref y = iref x -> idev y = idev x ->
  ilk y = match o' with Some (j, p) => if decide (i = j) then Some p else None | None => None end ->
  (forall j p, o = Some (j, p) \/ o' = Some (j, p) -> j = i) -> table d v o' (<[i := y]> l).
Proof.
  intros T Hi Hr Hy E1 E2 E3 E4 Ho. assert (Hlt := lookup_lt_Some _ _ _ Hi).
  assert (Hsplit : forall j z, <[i := y]> l !! j = Some z -> j = i /\ z = y \/ j <> i /\ l !! j = Some z).
  { intros j z Hj. destruct (decide (j = i)) as [->|Hne]; [left; rewrite list_lookup_insert_eq in Hj by done; split; congruence|right; by rewrite list_lookup_insert_ne in Hj]. }
  constructor.
  - intros j z [[-> ->]|[Hne Hj]]%Hsplit; [lia|by eapply tb_ref].
  - intros j z [[-> ->]|[Hne Hj]]%Hsplit Hz; [rewrite E3; by apply (tb_dev _ _ _ _ T i x)|by eapply tb_dev].
  - intros j z [[-> ->]|[Hne Hj]]%Hsplit Hz; [rewrite E1; by apply (tb_num _ _ _ _ T i x)|by eapply tb_num].
  - intros j z [[-> ->]|[Hne Hj]]%Hsplit Hz Hv; [rewrite E1, E2; by apply Hy|by eapply tb_valid].
  - intros j z [[-> ->]|[Hne Hj]]%Hsplit; [done|]. rewrite (tb_lock _ _ _ _ T j z Hj).
    destruct o as [[a p]|], o' as [[a' p']|]; repeat (rewrite decide_False by (intros ->; apply Hne; eauto)); done.
  - intros j p Hj. assert (j = i) as -> by eauto. exists y. split; [by apply list_lookup_insert_eq|lia].
  - intros j k a b [[-> ->]|[Hj Ha]]%Hsplit [[-> ->]|[Hk Hb]]%Hsplit H1 H2 E; [done| | |by eapply (tb_uniq _ _ _ _ T j k)].
    + apply (tb_uniq _ _ _ _ T i k x b); [done|done|done|done|congruence].
    + apply (tb_uniq _ _ _ _ T j i a x); [done|done|done|done|congruence].
Qed.

(** [ilock] reads the inode from the disk unless it is in memory. *)
Lemma ilock_ok v lg (s : fst S U) ip x : let d := sb s in let y := disk_inode d v (inum x) (iref x) (Some (fpid s)) in
  "sleep lock" ∉ fheld s -> table d v None (itable s) -> itable s !! ip = Some x -> 0 < iref x -> brep (blks s) v ∅ lg -> layout d -> itype y <> 0 ->
  exists b', ilock ip s = Ok tt (at_ b' ip y s) /\ brep b' v ∅ lg /\ table d v (Some (ip, fpid s)) (<[ip := y]> (itable s)).
Proof.
  intros d y Hl T Hx Hr Hb Hlay Ht. assert (Hlk : ilk x = None) by (by rewrite (tb_lock _ _ _ _ T ip x Hx)).
  assert (T' : table d v (Some (ip, fpid s)) (<[ip := y]> (itable s))).
  { apply (table_relock d v None _ _ ip x); try done; [cbn; by rewrite (tb_dev _ _ _ _ T ip x Hx Hr)|cbn; by rewrite decide_True|]. intros j p [Hj|Hj]; congruence. }
  destruct (ivalid x) eqn:Hv.
  - exists (blks s). split; [|done]. rewrite (ilock_valid Hx Hl) by (done || lia). unfold with_ino, at_. do 4 f_equal. rewrite (tb_valid _ _ _ _ T ip x Hx Hr Hv). done.
  - unfold ilock. rewrite (bind_ok _ _ _ _ _ (geti_ok ip _ s x Hx)), (proj2 (Z.ltb_ge _ _)) by lia. rewrite (bind_ok _ _ _ _ _ (acquiresleep_free Hx Hl Hlk)).
    set (x1 := set_ilk (Some (fpid s)) x). set (s1 := with_ino ip x1 s). pose proof (with_ino_lookup ip x1 x s Hx) as Hx1. fold s1 in Hx1.
    rewrite (bind_ok _ _ _ _ _ (geti_ok ip _ s1 x1 Hx1)). cbn [x1 ivalid set_ilk]. rewrite Hv. rewrite (bind_ok _ _ _ _ _ (geti_ok ip _ s1 x1 Hx1)).
    rewrite (bind_ok _ _ s1 d s1) by done. cbn [x1 idev inum set_ilk]. rewrite (tb_dev _ _ _ _ T ip x Hx Hr).
    destruct (peek_block v ∅ lg s1 (IBLOCK (inum x) d) Hb (iblock_fs Hlay (tb_num _ _ _ _ T ip x Hx Hr)) (lookup_empty _)) as (h & b1 & E1 & E2 & Hb1); [rewrite map_size_empty; lia|].
    rewrite (bind_ok _ _ _ _ _ E1), (bind_ok _ _ _ _ _ E2). set (s2 := with_blks b1 s1). assert (Hx2 : itable s2 !! ip = Some x1) by exact Hx1.
    rewrite (bind_ok _ _ _ _ _ (seti_ok ip _ s2 x1 Hx2)). set (x3 := get_dinode _ x1). set (s3 := at_ (blks s2) ip x3 s2).
    destruct (release_held v ∅ lg s3 (IBLOCK (inum x) d) h Hb1 (lookup_empty _)) as (b2 & E3 & Hb2). rewrite (bind_ok _ _ _ _ _ E3). set (s4 := with_blks b2 s3).
    assert (Hx4 : itable s4 !! ip = Some x3) by (cbn; apply list_lookup_insert_eq; rewrite length_insert; by eapply lookup_lt_Some).
    rewrite (bind_ok _ _ _ _ _ (seti_ok ip _ s4 x3 Hx4)). set (s5 := at_ _ ip _ s4). assert (Ey : set_ivalid true x3 = y).
    { unfold x3, y, disk_inode, get_dinode, set_ivalid, x1. cbn. by rewrite (tb_dev _ _ _ _ T ip x Hx Hr). }
    assert (Hx5 : itable s5 !! ip = Some y) by (cbn; rewrite Ey; apply list_lookup_insert_eq; rewrite !length_insert; by eapply lookup_lt_Some).
    rewrite (bind_ok _ _ _ _ _ (geti_ok ip _ s5 y Hx5)), (proj2 (Z.eqb_neq _ _) Ht). exists b2. split; [|done]. unfold ret, s5, s4, s3, s2, s1, at_, with_blks, with_ino. cbn.
    rewrite Ey, !list_insert_insert_eq. done.
Qed.
End Table.
