(* ===== verification/FsPath.v ===== *)
(** * Paths

    [namei] and [nameiparent] of kernel/fs.c follow a path through the
    directories on the disk; on the way each inode is got, locked, unlocked and
    put back. *)

From S2P Require Import Prelude Riscv Mem Lock Bio Blocks UserIO Fs FsBlocks FsFiles FsMap FsContents FsWrite FsInode FsSpec FsDir FsTable.
Import KString.
Local Open Scope Z_scope.

(** ** The components of a path *)
Definition flush_elem (cur : list Z) : list (list Z) := match cur with [] => [] | _ => [cur] end.
Fixpoint split_path (path cur : list Z) : list (list Z) :=
  match path with
  | [] => flush_elem cur
  | c :: path' => if c =? SLASH then flush_elem cur ++ split_path path' [] else split_path path' (cur ++ [c])
  end.
Definition components (path : list Z) : list (list Z) := split_path path [].

Lemma components_skip path : components (skip_slashes path) = components path.
Proof. induction path as [|c path IH]; [done|]. cbn. destruct (c =? SLASH) eqn:E; [exact IH|]. cbn. by rewrite E. Qed.

Lemma split_elem path : forall cur, let '(e, r) := take_elem path in split_path path cur = flush_elem (cur ++ e) ++ components r.
Proof.
  induction path as [|c path IH]; intros cur; cbn [take_elem].
  - cbn. by rewrite !app_nil_r.
  - destruct (c =? SLASH) eqn:E.
    + cbn. rewrite E, app_nil_r. done.
    + specialize (IH (cur ++ [c])). destruct (take_elem path) as [e r]. cbn. rewrite E, IH. by rewrite <- app_assoc.
Qed.

Lemma skip_slashes_idem path : skip_slashes (skip_slashes path) = skip_slashes path.
Proof. induction path as [|c path IH]; [done|]. cbn. destruct (c =? SLASH) eqn:E; [exact IH|]. cbn. by rewrite E. Qed.
Lemma skip_length path : (length (skip_slashes path) <= length path)%nat.
Proof. induction path as [|a path IH]; [done|]. cbn. destruct (a =? SLASH); cbn; lia. Qed.

(** Nothing starts with a slash once they are skipped. *)
Lemma skip_head c path p : skip_slashes path = c :: p -> (c =? SLASH) = false.
Proof.
  intros E. pose proof (skip_slashes_idem path) as H. rewrite E in H. cbn in H. destruct (c =? SLASH); [|done].
  exfalso. pose proof (skip_length p) as Hl. rewrite H in Hl. cbn in Hl. lia.
Qed.

Lemma components_nil path : skip_slashes path = path -> components path = [] -> path = [].
Proof.
  intros Hs Hc. destruct path as [|c path]; [done|]. unfold components in Hc. pose proof (split_elem (c :: path) []) as H. cbn [take_elem] in H.
  rewrite (skip_head c (c :: path) path Hs) in H. destruct (take_elem path) as [e r]. rewrite Hc in H. done.
Qed.

Lemma name_copy_app n : forall e t, name_copy n (e ++ 0 :: t) = name_copy n e.
Proof.
  induction n as [|n IH]; intros e t; [done|]. destruct e as [|c e]; cbn [app name_copy]; [done|]. destruct (c =? 0); [done|]. by rewrite IH.
Qed.
Lemma name_copy_take n : forall e, name_copy n (take n e) = name_copy n e.
Proof. induction n as [|n IH]; intros e; [done|]. destruct e as [|c e]; [done|]. cbn. destruct (c =? 0); [done|]. by rewrite IH. Qed.

(** [skipelem] takes off the first component; the name buffer compares like
    it. *)
Lemma skipelem_components path name :
  match skipelem path name with
  | None => components path = []
  | Some (rest, name') => exists e, components path = e :: components rest /\ padded name' = padded e /\ (components rest = [] -> rest = [])
  end.
Proof.
  unfold skipelem. rewrite <- (components_skip path). destruct (skip_slashes path) as [|c p] eqn:E; [done|].
  assert (Hc := skip_head c path p E).
  pose proof (split_elem (c :: p) []) as H. cbn [take_elem] in H |- *. rewrite Hc in H |- *. destruct (take_elem p) as [e r]. cbn [app flush_elem] in H.
  exists (c :: e). split; [|split].
  - unfold components at 1. rewrite H. by rewrite components_skip.
  - unfold padded. change (Z.to_nat DIRSIZ) with 14%nat. destruct (DIRSIZ <=? _); [apply name_copy_take|]. apply (name_copy_app 14 (c :: e)).
  - apply components_nil. apply skip_slashes_idem.
Qed.

Lemma skipelem_shorter path name rest name' : skipelem path name = Some (rest, name') -> (length (components rest) < length (components path))%nat.
Proof. intros E. pose proof (skipelem_components path name) as H. rewrite E in H. destruct H as (e & -> & _). cbn. lia. Qed.

Lemma components_length path : (length (components path) <= length path)%nat.
Proof.
  unfold components. assert (H : forall cur, (length (split_path path cur) <= length path + length (flush_elem cur))%nat); [|specialize (H []); cbn in H; lia].
  induction path as [|c path IH]; intros cur; cbn [split_path]; [done|]. destruct (c =? SLASH).
  - rewrite length_app. specialize (IH []). cbn in *. lia.
  - specialize (IH (cur ++ [c])). destruct cur; cbn in *; lia.
Qed.

(** ** Looking up a name *)
Lemma find_name_padded a b : padded a = padded b -> forall l i, find_name a i l = find_name b i l.
Proof.
  intros E l. induction l as [|e l IH]; intros i; [done|]. cbn [find_name]. rewrite IH. unfold names. by rewrite !namecmp_padded, E.
Qed.
Lemma find_name_some name l : forall i k m, find_name name i l = Some (k, m) -> exists e, e ∈ l /\ de_inum e = m /\ m <> 0.
Proof.
  induction l as [|e l IH]; intros i k m H; [done|]. cbn in H. destruct (names name e) eqn:E.
  - injection H as <- <-. exists e. split; [set_solver|]. split; [done|]. unfold names in E. intros E0. rewrite E0 in E. done.
  - destruct (IH _ _ _ H) as (e' & He & ?). exists e'. split; [set_solver|done].
Qed.

(** ** The tree of directories on the disk *)
Section Walk.
Context {S U : Type} {HB : Blocks S} {HU : UserSpace U} (Hbuf : BSIZE <= bufsize).

Definition dnode (d : superblock) (v : contents) (n : Z) : inode := disk_inode d v n 1 None.

(** The inodes [G] are in use and form a tree, or at least a graph: what the
    directories among them name is again in [G]. *)
Record tree (d : superblock) (v : contents) (G : Z -> Prop) : Prop := {
  tr_num : forall n, G n -> 0 <= n < ninodes d;
  tr_type : forall n, G n -> itype (dnode d v n) <> 0;
  tr_link : forall n, G n -> inlink (dnode d v n) <> 0;
  tr_file : forall n, G n -> file_ok d v (dnode d v n);
  tr_size : forall n, G n -> itype (dnode d v n) = T_DIR -> isize (dnode d v n) mod 16 = 0;
  tr_closed : forall n e, G n -> itype (dnode d v n) = T_DIR -> e ∈ entries v (dnode d v n) -> de_inum e <> 0 -> G (de_inum e)
}.

(** Where a path leads from inode [n]: to an inode, or for [par] to the
    directory of the last component; and the last name that was taken off. *)
Fixpoint resolve (d : superblock) (v : contents) (par : bool) (n : Z) (cs : list (list Z)) (last : list Z) : option (Z * list Z) :=
  match cs with
  | [] => if par then None else Some (n, last)
  | c :: cs' =>
      if negb (itype (dnode d v n) =? T_DIR) then None
      else if par && bool_decide (cs' = []) then Some (n, c)
      else match find_name c 0 (entries v (dnode d v n)) with
           | Some (_, m) => resolve d v par m cs' c
           | None => None
           end
  end.

Lemma dinode_get e x : dinode_ok (get_dinode e x).
Proof.
  constructor.
  - intros f Hf. cbn in Hf. rewrite !elem_of_cons, elem_of_nil in Hf. assert (H : forall o, - 2 ^ 15 <= lds16 e o < 2 ^ 15).
    { intros o. unfold lds16, s16. pose proof (Z.mod_pos_bound (ldn 2 e o + 2 ^ 15) (2 ^ 16) ltac:(done)). lia. }
    destruct Hf as [->|[->|[->|[->|[]]]]]; apply H.
  - apply (ldn_range 4).
  - done.
  - apply Forall_forall. intros a Ha. apply list_elem_of_fmap in Ha as (i & -> & _). apply (ldn_range 4).
Qed.

Lemma file_node d v n r lk : file_ok d v (dnode d v n) -> file_ok d v (disk_inode d v n r lk).
Proof. intros [[H1 H2 H3 H4 H5] H6 H7]. constructor; [constructor|exact H6|exact H7]; [exact H1|exact H2|exact H3|exact H4|exact H5]. Qed.

(** Nothing but the table, the cache and the user's memory changes. *)
Record same_rest (s s' : fst S U) : Prop := {
  sr_sb : sb s' = sb s; sr_pid : fpid s' = fpid s; sr_cwd : cwd s' = cwd s; sr_held : fheld s' = fheld s
}.
#[local] Instance same_rest_preorder : PreOrder same_rest.
Proof. split; [done|]. intros a b c [H1 H2 H3 H4] [K1 K2 K3 K4]. constructor; congruence. Qed.

(** Between operations on the table. *)
Record quiet (s : fst S U) (v : contents) (lg : gset Z) (G : Z -> Prop) (P : Z -> Prop) (V : views) : Prop := {
  qu_table : "itable" ∉ fheld s;
  qu_sleep : "sleep lock" ∉ fheld s;
  qu_disk : brep (blks s) v ∅ lg;
  qu_super : disk_ok (sb s);
  qu_meta : meta_used (sb s) v;
  qu_tree : tree (sb s) v G;
  qu_inodes : table (sb s) v None (itable s);
  qu_refs : forall i x, itable s !! i = Some x -> 0 < iref x -> G (inum x);
  qu_user : sees (usr s) P V
}.

Definition fs_with (b : S) (u : U) (l : list inode) (s : fst S U) : fst S U := mkfst b u (sb s) l (fpid s) (cwd s) (fheld s).

(** Unlocking and putting back the inode that is locked. *)
Lemma unlock_put d v (s : fst S U) ip x : "itable" ∉ fheld s -> "sleep lock" ∉ fheld s -> table d v (Some (ip, fpid s)) (itable s) -> itable s !! ip = Some x -> 0 < iref x -> inlink x <> 0 ->
  let l' := <[ip := set_iref (fun _ => iref x - 1) (set_ilk None x)]> (itable s) in
  iunlockput ip s = Ok tt (fs_with (blks s) (usr s) l' s) /\ table d v None l' /\ recounted (itable s) (inum x) (-1) l'.
Proof.
  intros H1 H2 T Hx Hr Hlink l'. assert (Hlk : ilk x = Some (fpid s)) by (rewrite (tb_lock _ _ _ _ T ip x Hx); by rewrite decide_True).
  unfold iunlockput. rewrite (bind_ok _ _ _ _ _ (iunlock_mine Hx H2 Hlk ltac:(lia))). set (s1 := with_ino ip (set_ilk None x) s).
  assert (T1 : table d v None (itable s1)).
  { apply (table_relock d v (Some (ip, fpid s)) None _ ip x); try done; [intros Hv; cbn in Hv |- *; by rewrite (tb_valid _ _ _ _ T ip x Hx Hr Hv)|]. intros j p [Hj|Hj]; congruence. }
  pose proof (with_ino_lookup ip (set_ilk None x) x s Hx) as Hx1.
  destruct (iput_ok d v None s1 ip (set_ilk None x) H1 T1 Hx1 Hr ltac:(done) (or_introl Hlink)) as (E & T2 & R). cbn [itable s1 with_ino] in *. rewrite list_insert_insert_eq in *. change (iref (set_ilk None x)) with (iref x) in *.
  split; [exact E|]. split; [exact T2|]. destruct (same_counts (itable s) ip x (set_ilk None x) Hx eq_refl eq_refl) as [C1 C2]. unfold l'. constructor.
  - intros m. rewrite (rc_refs _ _ _ _ R m). cbn [inum set_ilk]. by rewrite C1.
  - rewrite (rc_free _ _ _ _ R). cbn [inum set_ilk]. by rewrite C1, C2.
Qed.

(** One reference more than [R] to inode [n]. *)
Record holds_one (R : Z -> Z) (f : Z) (l : list inode) (n : Z) : Prop := {
  ho_refs : forall m, nref l m = R m + if m =? n then 1 else 0;
  ho_free : nfree l = f - if R n =? 0 then 1 else 0
}.

Lemma put_back R f l n l' : (forall m, 0 <= R m) -> holds_one R f l n -> recounted l n (-1) l' -> (forall m, nref l' m = R m) /\ nfree l' = f.
Proof.
  intros Hp [H1 H2] [R1 R2]. assert (E : forall m, nref l' m = R m) by (intros m; rewrite R1, H1; destruct (m =? n); lia). split; [exact E|].
  rewrite R2, H1, E, H2, Z.eqb_refl. specialize (Hp n). rewrite (proj2 (Z.eqb_neq (R n + 1) 0)) by lia. lia.
Qed.

Lemma move_on R f l n l1 m l2 : (forall m, 0 <= R m) -> holds_one R f l n -> recounted l m 1 l1 -> recounted l1 n (-1) l2 -> holds_one R f l2 m.
Proof.
  intros Hp [H1 H2] [A1 A2] [B1 B2]. pose proof (Hp n). pose proof (Hp m). constructor.
  - intros k. rewrite B1, A1, H1. destruct (k =? n), (k =? m); lia.
  - rewrite B2, A2, H2, !B1, !A1, !H1, !Z.eqb_refl. destruct (Z.eqb_spec m n) as [->|Hne].
    + rewrite Z.eqb_refl. repeat match goal with |- context [?a =? 0] => destruct (Z.eqb_spec a 0) end; lia.
    + rewrite (proj2 (Z.eqb_neq n m)) by congruence. repeat match goal with |- context [?a =? 0] => destruct (Z.eqb_spec a 0) end; lia.
Qed.

Section Loop.
Context {v : contents} {lg : gset Z} {G : Z -> Prop} {P : Z -> Prop} {V : views} {R : Z -> Z} {f : Z}.
Context (Hpos : forall m, 0 <= R m) (HG : forall m, 0 < R m -> G m) (Hroom : 2 <= f).

(** What [namex] leaves: one more reference to the inode it has found, or
    none. *)
Definition arrived (s' : fst S U) (r : option (nat * list Z)) (t : option (Z * list Z)) : Prop :=
  match t with
  | Some (n, last) => exists i y nm, r = Some (i, nm) /\ padded nm = padded last /\ itable s' !! i = Some y /\ inum y = n /\ 0 < iref y /\ holds_one R f (itable s') n
  | None => r = None /\ (forall m, nref (itable s') m = R m) /\ nfree (itable s') = f
  end.

Lemma quiet_again s b u l : quiet s v lg G P V -> brep b v ∅ lg -> sees u P V -> table (sb s) v None l ->
  ((forall m, nref l m = R m) \/ exists n, G n /\ holds_one R f l n) -> quiet (fs_with b u l s) v lg G P V.
Proof using HG.
  intros [H1 H2 H3 H4 H5 H6 H7 H8 H9] Hb Hu T Hl. constructor; try done. intros i x Hx Hr. cbn in Hx. pose proof (nref_entry _ _ _ _ _ _ T Hx Hr) as E.
  destruct Hl as [Hl|(n & Hn & Hl)]; [apply HG; rewrite <- Hl; lia|]. rewrite (ho_refs _ _ _ _ Hl) in E. destruct (Z.eqb_spec (inum x) n) as [->|]; [done|]. apply HG. lia.
Qed.

Lemma entry_link s i x : quiet s v lg G P V -> itable s !! i = Some x -> 0 < iref x -> inlink x <> 0 \/ ivalid x = false.
Proof.
  intros Q Hx Hr. destruct (ivalid x) eqn:Hv; [left|by right]. rewrite (tb_valid _ _ _ _ (qu_inodes _ _ _ _ _ _ Q) i x Hx Hr Hv).
  exact (tr_link _ _ _ (qu_tree _ _ _ _ _ _ Q) (inum x) (qu_refs _ _ _ _ _ _ Q i x Hx Hr)).
Qed.

(** The inode at [ip], locked. *)
Lemma locked_dir s ip x : quiet s v lg G P V -> itable s !! ip = Some x -> 0 < iref x ->
  let n := inum x in let y := disk_inode (sb s) v n (iref x) (Some (fpid s)) in
  exists b, ilock ip s = Ok tt (fs_with b (usr s) (<[ip := y]> (itable s)) s) /\ brep b v ∅ lg /\
    table (sb s) v (Some (ip, fpid s)) (<[ip := y]> (itable s)) /\ G n /\
    (forall u, itype (dnode (sb s) v n) = T_DIR -> open_dir (fs_with b u (<[ip := y]> (itable s)) s) v lg ip y).
Proof.
  intros Q Hx Hr n y. assert (Hn := qu_refs _ _ _ _ _ _ Q ip x Hx Hr). pose proof (qu_tree _ _ _ _ _ _ Q) as Tr.
  destruct (ilock_ok v lg s ip x (qu_sleep _ _ _ _ _ _ Q) (qu_inodes _ _ _ _ _ _ Q) Hx Hr (qu_disk _ _ _ _ _ _ Q) (dk_layout _ (qu_super _ _ _ _ _ _ Q)) (tr_type _ _ _ Tr n Hn)) as (b & E & Hb & T).
  exists b. split; [exact E|]. split; [exact Hb|]. split; [exact T|]. split; [exact Hn|]. intros u Ht. constructor; [|exact Ht|exact (tr_size _ _ _ Tr n Hn Ht)]. constructor.
  - apply list_lookup_insert_eq. by eapply lookup_lt_Some.
  - exact Hb.
  - exact (qu_super _ _ _ _ _ _ Q).
  - exact (qu_meta _ _ _ _ _ _ Q).
  - apply file_node, (tr_file _ _ _ Tr n Hn).
  - apply dinode_get.
  - exact (tr_num _ _ _ Tr n Hn).
Qed.

(** Giving up on a path. *)
Lemma abandon s b u ip n r (s' := fs_with b u (<[ip := disk_inode (sb s) v n r (Some (fpid s))]> (itable s)) s) x : quiet s v lg G P V -> itable s !! ip = Some x -> 0 < r -> n = inum x -> r = iref x -> G n ->
  holds_one R f (itable s) n -> brep b v ∅ lg -> sees u P V -> table (sb s) v (Some (ip, fpid s)) (itable s') ->
  exists s2, (iunlockput ip ;; ret None) s' = Ok (None : option (nat * list Z)) s2 /\ quiet s2 v lg G P V /\ same_rest s s2 /\ arrived s2 None None.
Proof using HG Hpos.
  intros Q Hx Hr -> -> HGn Hh Hb Hu T. set (n := inum x) in *. set (y := disk_inode _ _ _ _ _) in s'.
  assert (Hy : itable s' !! ip = Some y) by (apply list_lookup_insert_eq; by eapply lookup_lt_Some).
  destruct (unlock_put (sb s) v s' ip y (qu_table _ _ _ _ _ _ Q) (qu_sleep _ _ _ _ _ _ Q) T Hy Hr (tr_link _ _ _ (qu_tree _ _ _ _ _ _ Q) n HGn)) as (E & T2 & Rc).
  destruct (same_counts (itable s) ip x y Hx eq_refl eq_refl) as [C1 C2].
  destruct (put_back R f (itable s') n (<[ip := set_iref (fun _ => iref y - 1) (set_ilk None y)]> (itable s'))) as [B1 B2]; [done| |exact Rc|].
  { constructor; [intros m; cbn [s' itable fs_with]; rewrite C1; apply Hh|cbn [s' itable fs_with]; rewrite C2; apply Hh]. }
  eexists. split; [unfold bind; rewrite E; reflexivity|]. split; [apply (quiet_again s); [done|done|done|exact T2|by left]|]. split; [done|]. split; [done|]. split; [exact B1|exact B2].
Qed.

(** On to the next directory. *)
Lemma descend s b u ip x m : quiet s v lg G P V -> itable s !! ip = Some x -> 0 < iref x -> let n := inum x in let y := disk_inode (sb s) v n (iref x) (Some (fpid s)) in
  holds_one R f (itable s) n -> G n -> G m -> brep b v ∅ lg -> sees u P V -> table (sb s) v (Some (ip, fpid s)) (<[ip := y]> (itable s)) ->
  exists i l x', iget fsdev m (fs_with b u (<[ip := y]> (itable s)) s) = Ok i (fs_with b u l s) /\
    exists s2, iunlockput ip (fs_with b u l s) = Ok tt s2 /\ quiet s2 v lg G P V /\ same_rest s s2 /\
      itable s2 !! i = Some x' /\ inum x' = m /\ 0 < iref x' /\ holds_one R f (itable s2) m.
Proof using HG Hpos Hroom.
  intros Q Hx Hr n y Hh HGn HGm Hb Hu T. set (s1 := fs_with b u (<[ip := y]> (itable s)) s).
  destruct (same_counts (itable s) ip x y Hx eq_refl eq_refl) as [C1 C2].
  assert (Hh1 : holds_one R f (itable s1) n) by (constructor; [intros k; cbn [s1 itable fs_with]; rewrite C1; apply Hh|cbn [s1 itable fs_with]; rewrite C2; apply Hh]).
  destruct (iget_ok (sb s) v (Some (ip, fpid s)) s1 m (qu_table _ _ _ _ _ _ Q) T (tr_num _ _ _ (qu_tree _ _ _ _ _ _ Q) m HGm)) as (i & l & x' & E & Hi & Hm & Hxr & T1 & R1 & K).
  { right. rewrite (ho_free _ _ _ _ Hh1). destruct (R n =? 0); lia. }
  destruct (K ip y) as (r & Hy & Hyr); [apply list_lookup_insert_eq; by eapply lookup_lt_Some|exact Hr|].
  exists i, l. set (s2 := fs_with b u l s). set (y2 := set_iref (fun _ => r) y) in Hy.
  destruct (unlock_put (sb s) v s2 ip y2 (qu_table _ _ _ _ _ _ Q) (qu_sleep _ _ _ _ _ _ Q) T1 Hy Hyr (tr_link _ _ _ (qu_tree _ _ _ _ _ _ Q) n HGn)) as (E2 & T2 & R2).
  assert (Hh2 := move_on R f _ n l m _ Hpos Hh1 R1 R2).
  assert (Hlast : exists x'', <[ip := set_iref (fun _ => iref y2 - 1) (set_ilk None y2)]> l !! i = Some x'' /\ inum x'' = m /\ 0 < iref x'').
  { destruct (decide (i = ip)) as [->|Hne]; [|exists x'; by rewrite list_lookup_insert_ne].
    eexists. split; [apply list_lookup_insert_eq; by eapply lookup_lt_Some|]. assert (x' = y2) as -> by congruence. split; [exact Hm|]. cbn [iref set_iref set_ilk].
    pose proof (nref_entry _ _ _ _ _ _ T1 Hy Hyr) as En. rewrite (rc_refs _ _ _ _ R1), (ho_refs _ _ _ _ Hh1), Hm in En. change (inum y2) with n in Hm. rewrite Hm, !Z.eqb_refl in En.
    specialize (Hpos m). cbn [y2 iref set_iref] in *. lia. }
  destruct Hlast as (x'' & Hi'' & Hm'' & Hr''). exists x''. split; [exact E|]. eexists. split; [exact E2|].
  split; [apply (quiet_again s); [done|done|done|exact T2|right; exists m; by split]|]. split; [done|]. by split.
Qed.

(** The directory of the last component: unlocked, but kept. *)
Lemma stop_here s b ip x : quiet s v lg G P V -> itable s !! ip = Some x -> 0 < iref x -> let n := inum x in let y := disk_inode (sb s) v n (iref x) (Some (fpid s)) in
  holds_one R f (itable s) n -> G n -> brep b v ∅ lg -> table (sb s) v (Some (ip, fpid s)) (<[ip := y]> (itable s)) ->
  exists s2, iunlock ip (fs_with b (usr s) (<[ip := y]> (itable s)) s) = Ok tt s2 /\ quiet s2 v lg G P V /\ same_rest s s2 /\
    itable s2 !! ip = Some (set_ilk None y) /\ holds_one R f (itable s2) n.
Proof using HG.
  intros Q Hx Hr n y Hh HGn Hb T. set (s1 := fs_with b (usr s) (<[ip := y]> (itable s)) s).
  assert (Hy : itable s1 !! ip = Some y) by (apply list_lookup_insert_eq; by eapply lookup_lt_Some). assert (Hlk : ilk y = Some (fpid s1)) by done.
  assert (T1 : table (sb s) v None (<[ip := set_ilk None y]> (itable s1))) by (apply (table_relock _ _ (Some (ip, fpid s)) _ _ ip y); try done; intros j p [Hj|Hj]; congruence).
  destruct (same_counts _ ip y (set_ilk None y) Hy eq_refl eq_refl) as [C1 C2]. destruct (same_counts (itable s) ip x y Hx eq_refl eq_refl) as [D1 D2].
  assert (Hh1 : holds_one R f (<[ip := set_ilk None y]> (itable s1)) n) by (constructor; [intros m; rewrite C1; cbn [s1 itable fs_with]; rewrite D1; apply Hh|rewrite C2; cbn [s1 itable fs_with]; rewrite D2; apply Hh]).
  eexists. split; [exact (iunlock_mine Hy (qu_sleep _ _ _ _ _ _ Q) Hlk ltac:(cbn; lia))|]. split; [apply (quiet_again s b (usr s)); [done|done|apply Q|exact T1|right; by exists n]|].
  split; [done|]. split; [|done]. apply list_lookup_insert_eq. by eapply lookup_lt_Some.
Qed.

Lemma namex_loop_ok par : forall fuel path name s ip x last, quiet s v lg G P V -> itable s !! ip = Some x -> 0 < iref x -> holds_one R f (itable s) (inum x) ->
  (length (components path) < fuel)%nat -> padded name = padded last ->
  exists r s', namex_loop fuel ip path par name s = Ok r s' /\ quiet s' v lg G P V /\ same_rest s s' /\ arrived s' r (resolve (sb s) v par (inum x) (components path) last).
Proof using HG Hpos Hroom Hbuf.
  induction fuel as [|fu IH]; intros path name s ip x last Q Hx Hr Hh Hfuel Hlast; [lia|]. cbn [namex_loop].
  pose proof (skipelem_components path name) as Hsk. destruct (skipelem path name) as [[path' name']|]; cycle 1.
  { rewrite Hsk. cbn [resolve]. destruct par; [|exists (Some (ip, name)), s; split; [done|]; split; [done|]; split; [done|]; by exists ip, x, name].
    destruct (iput_ok (sb s) v None s ip x (qu_table _ _ _ _ _ _ Q) (qu_inodes _ _ _ _ _ _ Q) Hx Hr ltac:(done) (entry_link s ip x Q Hx Hr)) as (E & T & Rc).
    destruct (put_back R f _ _ _ Hpos Hh Rc) as [B1 B2]. eexists None, _. split; [unfold bind; rewrite E; reflexivity|].
    split; [apply (quiet_again s); [done|apply Q|apply Q|exact T|by left]|]. split; [done|]. split; [done|]. by split. }
  destruct Hsk as (c & Hc & Hpad & Hnil). rewrite Hc in Hfuel |- *. cbn [length resolve] in Hfuel |- *.
  destruct (locked_dir s ip x Q Hx Hr) as (b & E1 & Hb & T & HGn & Hopen). set (y := disk_inode _ _ _ _ _) in *. set (n := inum x) in *.
  rewrite (bind_ok _ _ _ _ _ E1). set (s1 := fs_with b (usr s) (<[ip := y]> (itable s)) s).
  assert (Hy : itable s1 !! ip = Some y) by (apply list_lookup_insert_eq; by eapply lookup_lt_Some). rewrite (bind_ok _ _ _ _ _ (geti_ok ip itype s1 y Hy)).
  change (itype y) with (itype (dnode (sb s) v n)). destruct (Z.eqb_spec (itype (dnode (sb s) v n)) T_DIR) as [Ht|Ht]; cbn [negb].
  2:{ destruct (abandon s b (usr s) ip n (iref x) x Q Hx Hr eq_refl eq_refl HGn Hh Hb (qu_user _ _ _ _ _ _ Q) T) as (s2 & E2 & Q2 & S2 & A2). by exists None, s2. }
  assert (Hcn : bool_decide (path' = []) = bool_decide (components path' = [])) by (apply bool_decide_ext; split; [by intros ->|exact Hnil]). rewrite Hcn. destruct (par && bool_decide (components path' = [])).
  - destruct (stop_here s b ip x Q Hx Hr Hh HGn Hb T) as (s2 & E2 & Q2 & S2 & Hx2 & Hh2). rewrite (bind_ok _ _ _ _ _ E2).
    exists (Some (ip, name')), s2. split; [done|]. split; [done|]. split; [done|]. exists ip, (set_ilk None y), name'. by split_and!.
  - destruct (dirlookup_spec Hbuf P V s1 v lg ip y name' (Hopen (usr s) Ht) (qu_user _ _ _ _ _ _ Q)) as (b2 & u2 & E2 & Hod & Hu2).
    unfold bind at 1. rewrite E2, (find_name_padded name' c Hpad). pose proof (of_disk _ _ _ _ _ (od_file _ _ _ _ _ Hod)) as Hb2. cbn [blks io_state with_usr with_blks] in Hb2.
    change (entries v y) with (entries v (dnode (sb s) v n)). destruct (find_name c 0 (entries v (dnode (sb s) v n))) as [[k m]|] eqn:Ef; cbn [found].
    + destruct (find_name_some _ _ _ _ _ Ef) as (e & He & Hem & Hm0). assert (HGm : G m) by (rewrite <- Hem; apply (tr_closed _ _ _ (qu_tree _ _ _ _ _ _ Q) n e HGn Ht He); by rewrite Hem).
      destruct (descend s b2 u2 ip x m Q Hx Hr Hh HGn HGm Hb2 Hu2 T) as (i & l & x' & E3 & s2 & E4 & Q2 & S2 & Hx2 & Hm2 & Hr2 & Hh2).
      change (idev y) with fsdev. unfold bind at 1. change (io_state b2 u2 s1) with (fs_with b2 u2 (<[ip := y]> (itable s)) s). fold n in E3. fold y in E3. rewrite E3. unfold ret at 1. rewrite (bind_ok _ _ _ _ _ E4).
      subst m. rewrite <- Hm2 in Hh2. destruct (IH path' name' s2 i x' c Q2 Hx2 Hr2 Hh2 ltac:(lia) Hpad) as (r & s' & E5 & Q5 & S5 & A5).
      exists r, s'. split; [exact E5|]. split; [exact Q5|]. split; [by transitivity s2|]. rewrite (sr_sb _ _ S2), Hm2 in A5. exact A5.
    + destruct (abandon s b2 u2 ip n (iref x) x Q Hx Hr eq_refl eq_refl HGn Hh Hb2 Hu2 T) as (s2 & E3 & Q2 & S2 & A2). by exists None, s2.
Qed.
End Loop.

(** ** The start of a path *)
Definition start_of (s : fst S U) (path : list Z) : Z :=
  if nthb path 0 =? SLASH then ROOTINO else match itable s !! cwd s with Some x => inum x | None => 0 end.

Lemma idup_ok d v (s : fst S U) ip x : "itable" ∉ fheld s -> table d v None (itable s) -> itable s !! ip = Some x -> 0 < iref x ->
  let l' := <[ip := set_iref (fun _ => iref x + 1) x]> (itable s) in
  idup ip s = Ok ip (with_table l' s) /\ table d v None l' /\ recounted (itable s) (inum x) 1 l'.
Proof.
  intros Hl T Hx Hr l'. destruct (table_reref d v None (itable s) ip x (iref x + 1) T Hx Hr) as [T' Rc]; [lia|done|]. replace (iref x + 1 - iref x) with 1 in Rc by lia. split; [|done].
  unfold idup. rewrite (bind_ok _ _ _ _ _ (lock_section "itable" s Hl)). set (s1 := set_held _ s). rewrite (bind_ok _ _ _ _ _ (seti_ok ip _ s1 x Hx)).
  unfold bind. by rewrite (unlock_section "itable" _ (fheld s)).
Qed.

Lemma first_hold l n l' : (forall m, 0 <= nref l m) -> recounted l n 1 l' -> holds_one (nref l) (nfree l) l' n.
Proof.
  intros Hp [R1 R2]. constructor; [exact R1|]. rewrite R2, R1, Z.eqb_refl. specialize (Hp n). rewrite (proj2 (Z.eqb_neq (nref l n + 1) 0)) by lia. lia.
Qed.

Lemma start_ok s v lg G P V path : quiet s v lg G P V -> fsdev = ROOTDEV -> G ROOTINO -> 1 <= nfree (itable s) ->
  (exists x, itable s !! cwd s = Some x /\ 0 < iref x) ->
  exists ip l x, (if nthb path 0 =? SLASH then iget ROOTDEV ROOTINO else do! c <- gets cwd; idup c) s = Ok ip (with_table l s) /\
    table (sb s) v None l /\ l !! ip = Some x /\ inum x = start_of s path /\ 0 < iref x /\ recounted (itable s) (start_of s path) 1 l.
Proof.
  intros Q Hdev Hroot Hfree (c & Hc & Hcr). unfold start_of. destruct (nthb path 0 =? SLASH).
  - rewrite <- Hdev. destruct (iget_ok (sb s) v None s ROOTINO (qu_table _ _ _ _ _ _ Q) (qu_inodes _ _ _ _ _ _ Q) (tr_num _ _ _ (qu_tree _ _ _ _ _ _ Q) _ Hroot)) as (i & l & x & E & Hi & Hx & Hr & T & Rc & _); [right; lia|].
    exists i, l, x. by split_and!.
  - destruct (idup_ok (sb s) v s (cwd s) c (qu_table _ _ _ _ _ _ Q) (qu_inodes _ _ _ _ _ _ Q) Hc Hcr) as (E & T & Rc). rewrite Hc.
    eexists (cwd s), _, _. split; [exact E|]. split; [exact T|]. split; [apply list_lookup_insert_eq; by eapply lookup_lt_Some|]. split; [done|]. split; [cbn; lia|exact Rc].
Qed.

Lemma refs_pos l : (forall i x, l !! i = Some x -> 0 <= iref x) -> forall m, 0 <= nref l m.
Proof. intros H m. apply sumz_nonneg. intros i x Hi. specialize (H i x Hi). destruct (inum x =? m); lia. Qed.

(** C9.  [namex] follows a path: starting at the root or the current
    directory it goes through the components of the path, each looked up in
    the directory the previous one led to.  When every step finds a directory
    entry it returns the inode the path leads to (the directory of the last
    component and its name, for [nameiparent]), which then has one reference
    more; otherwise it returns null and every inode has the references it had.
    The inode table is consistent with the disk before and after, and nothing
    stays locked. *)
Theorem namex_resolves P V (s : fst S U) v lg G path par name : quiet s v lg G P V -> fsdev = ROOTDEV -> G ROOTINO -> 2 <= nfree (itable s) ->
  (exists x, itable s !! cwd s = Some x /\ 0 < iref x) ->
  exists r s', namex path par name s = Ok r s' /\ quiet s' v lg G P V /\ same_rest s s' /\
    match resolve (sb s) v par (start_of s path) (components path) name with
    | Some (n, last) => exists i y nm, r = Some (i, nm) /\ padded nm = padded last /\ itable s' !! i = Some y /\ inum y = n /\
        forall m, nref (itable s') m = nref (itable s) m + if m =? n then 1 else 0
    | None => r = None /\ forall m, nref (itable s') m = nref (itable s) m
    end.
Proof using Hbuf.
  intros Q Hdev Hroot Hfree Hc. destruct (start_ok s v lg G P V path Q Hdev Hroot ltac:(lia) Hc) as (ip & l & x & E & T & Hx & Hn & Hr & Rc).
  assert (Hpos := refs_pos (itable s) (tb_ref _ _ _ _ (qu_inodes _ _ _ _ _ _ Q))). assert (Hh := first_hold _ _ _ Hpos Rc).
  assert (HG : forall m, 0 < nref (itable s) m -> G m).
  { intros m Hm. destruct (nref_some (itable s) m) as (i & y & Hi & Hy & Hyr); [done|apply (tb_ref _ _ _ _ (qu_inodes _ _ _ _ _ _ Q))|]. rewrite <- Hy. by apply (qu_refs _ _ _ _ _ _ Q i y). }
  assert (HGs : G (start_of s path)).
  { unfold start_of. destruct (nthb path 0 =? SLASH); [done|]. destruct Hc as (c & Hc & Hcr). rewrite Hc. by apply (qu_refs _ _ _ _ _ _ Q (cwd s) c). }
  assert (Q1 : quiet (with_table l s) v lg G P V) by (eapply (quiet_again HG s (blks s) (usr s) l); [done|apply Q|apply Q|done|right; by exists (start_of s path)]).
  unfold namex. rewrite (bind_ok _ _ _ _ _ E). rewrite <- Hn in Hh.
  destruct (namex_loop_ok Hpos HG Hfree par (Datatypes.S (length path)) path name (with_table l s) ip x name Q1 Hx Hr Hh) as (r & s' & E' & Q' & S' & A); [pose proof (components_length path); lia|done|].
  exists r, s'. split; [exact E'|]. split; [exact Q'|]. split; [by transitivity (with_table l s)|]. rewrite <- Hn. change (sb (with_table l s)) with (sb s) in A. unfold arrived in A.
  destruct (resolve _ _ _ _ _ _) as [[n last]|]; [|by destruct A as (? & ? & ?)]. destruct A as (i & y & nm & H1 & H2 & H3 & H4 & H5 & H6). exists i, y, nm. split_and!; try done. apply H6.
Qed.
End Walk.
