(* ===== verification/Mkfs.v ===== *)
(** * mkfs/mkfs.c: making the file-system image

    The image is the contents of its blocks; reading and writing it and the
    input files on the host succeeds.  An input file is its name and the
    pieces in which [read] delivers it.  An inode in memory is the record of
    [Fs.v] with the fields of the inode on disk. *)

From S2P Require Import Prelude Riscv Mem Lock Bio Blocks UserIO Fs.
Import KString.
Local Open Scope Z_scope.

Definition NINODES : Z := 200.
Definition nbitmap : Z := FSSIZE / (BSIZE * 8) + 1.
Definition ninodeblocks : Z := NINODES / IPB + 1.
Definition mk_nlog : Z := LOGSIZE.
Definition nmeta : Z := 2 + mk_nlog + ninodeblocks + nbitmap.
Definition mk_nblocks : Z := FSSIZE - nmeta.

Record mkst := mkmkst { img : contents; freeinode : Z; freeblock : Z; msb : superblock }.
Abbreviation MK := (M mkst).

(** The bytes of [y], lowest first, read as an integer of the machine. *)
Definition xshort (x : Z) : Z := ldn 2 (st8 (st8 ∅ 0 x) 1 (Z.shiftr x 8)) 0.
Definition xint (x : Z) : Z :=
  ldn 4 (st8 (st8 (st8 (st8 ∅ 0 x) 1 (Z.shiftr x 8)) 2 (Z.shiftr x 16)) 3 (Z.shiftr x 24)) 0.

Definition rsect (sec : Z) : MK block := gets (fun s => img s sec).
Definition wsect (sec : Z) (buf : block) : MK unit :=
  modify (fun s => mkmkst (setv sec buf (img s)) (freeinode s) (freeblock s) (msb s)).

Definition no_inode (n : Z) : inode := mkinode 0 n 0 None false 0 0 0 0 0 [].

Definition winode (n : Z) (ip : inode) : MK unit :=
  do! b <- gets msb;
  let bn := IBLOCK n b in
  do! buf <- rsect bn;
  wsect bn (put_dinode ip buf).

Definition rinode (n : Z) : MK inode :=
  do! b <- gets msb;
  let bn := IBLOCK n b in
  do! buf <- rsect bn;
  ret (get_dinode buf (no_inode n)).

(** [freeblock++] *)
Definition next_block : MK Z :=
  do! b <- gets freeblock;
  modify (fun s => mkmkst (img s) (freeinode s) (u32 (freeblock s + 1)) (msb s)) ;;
  ret b.

Definition mk_ialloc (type : Z) : MK Z :=
  do! n <- gets freeinode;
  modify (fun s => mkmkst (img s) (u32 (freeinode s + 1)) (freeblock s) (msb s)) ;;
  winode n (mkinode 0 n 0 None false (xshort type) 0 0 (xshort 1) (xint 0) (replicate 13 0)) ;;
  ret n.

(** [buf[i/8] = buf[i/8] | (0x1 << (i%8))] for the first [n] bits. *)
Fixpoint mark_used (n : nat) (i : Z) (buf : block) : block :=
  match n with
  | O => buf
  | S n' => mark_used n' (i + 1) (st8 buf (i / 8) (Z.lor (ld8 buf (i / 8)) (Z.shiftl 1 (i mod 8))))
  end.
Definition mk_balloc (used : Z) : MK unit :=
  if negb (used <? BSIZE * 8) then panic "assert"
  else
    do! b <- gets msb;
    wsect (bmapstart b) (mark_used (Z.to_nat used) 0 (memset ∅ 0 0 BSIZE)).

(** [din.addrs[i]], and an assignment to it. *)
Definition addr_of (x : inode) (i : Z) : Z := default 0 (iaddrs x !! Z.to_nat i).
Definition with_addr (x : inode) (i a : Z) : inode := set_iaddrs (fun l => <[Z.to_nat i := a]> l) x.

(** The block for part [fbn] of the file, allocated if there is none. *)
Definition direct_block (x : inode) (fbn : Z) : MK (inode * Z) :=
  do! x <- (if xint (addr_of x fbn) =? 0 then do! c <- next_block; ret (with_addr x fbn (xint c)) else ret x);
  ret (x, xint (addr_of x fbn)).
Definition indirect_block (x : inode) (fbn : Z) : MK (inode * Z) :=
  do! x <- (if xint (addr_of x NDIRECT) =? 0 then do! c <- next_block; ret (with_addr x NDIRECT (xint c)) else ret x);
  do! indirect <- rsect (xint (addr_of x NDIRECT));
  do! indirect <- (if ldw indirect (4 * (fbn - NDIRECT)) =? 0
                   then do! c <- next_block;
                        let indirect := stw indirect (4 * (fbn - NDIRECT)) (xint c) in
                        wsect (xint (addr_of x NDIRECT)) indirect ;;
                        ret indirect
                   else ret indirect);
  ret (x, xint (ldw indirect (4 * (fbn - NDIRECT)))).

(** [while(n > 0)]: the bytes [p] are left. *)
Fixpoint iappend_loop (fuel : nat) (x : inode) (off : Z) (p : list Z) : MK (inode * Z) :=
  match p with
  | [] => ret (x, off)
  | _ =>
      match fuel with
      | O => hang
      | S f =>
          let fbn := off / BSIZE in
          if negb (fbn <? MAXFILE) then panic "assert"
          else
            do! r <- (if fbn <? NDIRECT then direct_block x fbn else indirect_block x fbn);
            let n1 := Z.min (Z.of_nat (length p)) ((fbn + 1) * BSIZE - off) in
            do! buf <- rsect r.2;
            wsect r.2 (put_bytes buf (off - fbn * BSIZE) (take (Z.to_nat n1) p)) ;;
            iappend_loop f r.1 (off + n1) (drop (Z.to_nat n1) p)
      end
  end.

(** Each round appends a byte at least. *)
Definition iappend (n : Z) (p : list Z) : MK unit :=
  do! din <- rinode n;
  do! r <- iappend_loop (length p) din (xint (isize din)) p;
  winode n (set_isize (xint r.2) r.1).

Fixpoint append_pieces (n : Z) (pieces : list (list Z)) : MK unit :=
  match pieces with [] => ret tt | p :: ps => iappend n p ;; append_pieces n ps end.

(** "user/", and [strncmp(s, "user/", 5) == 0]. *)
Definition user_prefix : list Z := [117; 115; 101; 114; 47].
Definition shortname (arg : list Z) : list Z :=
  if bool_decide (take 5 arg = user_prefix) then drop 5 arg else arg.
(** Skip a leading underscore. *)
Definition stored_name (name : list Z) : list Z := match name with c :: t => if c =? 95 then t else name | [] => [] end.

Definition add_file (rootino : Z) (file : list Z * list (list Z)) : MK unit :=
  let name := shortname file.1 in
  if bool_decide (47 ∈ name) then panic "assert"
  else
    do! n <- mk_ialloc T_FILE;
    iappend rootino (dirent (xshort n) (stored_name name)) ;;
    append_pieces n file.2.
Fixpoint add_files (rootino : Z) (files : list (list Z * list (list Z))) : MK unit :=
  match files with [] => ret tt | f :: fs => add_file rootino f ;; add_files rootino fs end.

Definition mk_sb : superblock :=
  mksb FSMAGIC (xint FSSIZE) (xint mk_nblocks) (xint NINODES) (xint mk_nlog) (xint 2) (xint (2 + mk_nlog)) (xint (2 + mk_nlog + ninodeblocks)).

(** The bytes of the super block. *)
Definition sb_block (b : superblock) : block :=
  put_addrs (memset ∅ 0 0 BSIZE) 0 [magic b; size_ b; nblocks b; ninodes b; nlog b; logstart b; inodestart b; bmapstart b].

Definition mkfs (files : list (list Z * list (list Z))) : MK unit :=
  modify (fun s => mkmkst (img s) 1 nmeta mk_sb) ;;
  forz (Z.to_nat FSSIZE) 0 (fun i => wsect i (memset ∅ 0 0 BSIZE)) ;;
  wsect 1 (sb_block mk_sb) ;;
  do! rootino <- mk_ialloc T_DIR;
  if negb (rootino =? ROOTINO) then panic "assert"
  else
    iappend rootino (dirent (xshort rootino) [46]) ;;
    iappend rootino (dirent (xshort rootino) [46; 46]) ;;
    add_files rootino files ;;
    do! din <- rinode rootino;
    let off := (xint (isize din) / BSIZE + 1) * BSIZE in
    winode rootino (set_isize (xint off) din) ;;
    do! fb <- gets freeblock;
    mk_balloc fb.
