(* ===== verification/MkfsInv.v ===== *)
(** * The files of an image in the making

    Which blocks a file of the image has and what they contain, and what
    [iappend] does to them. *)

From S2P Require Import Prelude Riscv Mem Lock Bio Blocks UserIO Fs FsBlocks FsFiles FsContents FsInode Mkfs.
Import KString.
Local Open Scope Z_scope.

Lemma xint_id x : 0 <= x < 2 ^ 32 -> xint x = x.
Proof.
  intros H. unfold xint. cbn [ldn]. change (0 + 1) with 1. change (1 + 1) with 2. change (2 + 1) with 3. rewrite !ld8_st8. cbn [Z.eqb Pos.eqb].
  rewrite !Z.shiftr_div_pow2 by done. unfold u8. rewrite !Z.mul_add_distr_l, Z.mul_0_r, Z.add_0_r.
  pose proof (Z.div_mod x (2 ^ 8) ltac:(done)). pose proof (Z.div_mod (x / 2 ^ 8) (2 ^ 8) ltac:(done)). pose proof (Z.div_mod (x / 2 ^ 16) (2 ^ 8) ltac:(done)).
  rewrite Z.div_div in H1 by done. rewrite Z.div_div in H2 by done. change (2 ^ 8 * 2 ^ 8) with (2 ^ 16) in *. change (2 ^ 16 * 2 ^ 8) with (2 ^ 24) in *.
  rewrite (Z.mod_small (x / 2 ^ 24)) by (split; [apply Z.div_pos; lia|apply Z.div_lt_upper_bound; lia]). lia.
Qed.
Lemma xshort_id x : 0 <= x < 2 ^ 16 -> xshort x = x.
Proof.
  intros H. unfold xshort. cbn [ldn]. change (0 + 1) with 1. change (1 + 1) with 2. change (2 + 1) with 3. rewrite !ld8_st8. cbn [Z.eqb Pos.eqb].
  rewrite !Z.shiftr_div_pow2 by done. unfold u8. rewrite Z.mul_0_r, Z.add_0_r. pose proof (Z.div_mod x (2 ^ 8) ltac:(done)).
  rewrite (Z.mod_small (x / 2 ^ 8)) by (split; [apply Z.div_pos; lia|apply Z.div_lt_upper_bound; lia]). lia.
Qed.

(** ** The blocks of a file *)

(** Block number [k] of the file is [L !! k]; [ib] is the indirect block, if
    there is one. *)
Record has_blocks (v : contents) (fb : Z) (x : inode) (ib L : list Z) : Prop := {
  hb_len : length (iaddrs x) = 13%nat;
  hb_max : (length L <= 268)%nat;
  hb_map : forall bn, 0 <= bn < MAXFILE -> fblock v x bn = default 0 (L !! Z.to_nat bn);
  hb_ind : ind x = default 0 (head ib);
  hb_ib : length ib = if (length L <=? 12)%nat then 0%nat else 1%nat;
  hb_nodup : NoDup (ib ++ L);
  hb_range : forall b, b ∈ ib ++ L -> nmeta <= b < fb
}.

(** The blocks contain [bytes], followed by zeros. *)
Definition contains (v : contents) (L : list Z) (bytes : list Z) : Prop :=
  forall k c j, L !! k = Some c -> 0 <= j < BSIZE -> ld8 (v c) j = default 0 (bytes !! Z.to_nat (BSIZE * Z.of_nat k + j)).

Definition fresh (v : contents) (fb : Z) : Prop := forall b, fb <= b < FSSIZE -> zero_block (v b).

(** Number of blocks for [n] bytes. *)
Definition parts (n : nat) : nat := Z.to_nat ((Z.of_nat n + (BSIZE - 1)) / BSIZE).
Definition need (n : nat) : nat := (parts n + if (parts n <=? 12)%nat then 0 else 1)%nat.

Lemma entry_range v fb x ib L bn : fb <= FSSIZE -> has_blocks v fb x ib L -> 0 <= bn < MAXFILE -> 0 <= fblock v x bn < 2 ^ 32.
Proof.
  intros Hfb H Hbn. rewrite (hb_map _ _ _ _ _ H bn Hbn). destruct (L !! Z.to_nat bn) as [c|] eqn:E; cbn; [|lia].
  apply list_elem_of_lookup_2 in E. assert (Hr := hb_range _ _ _ _ _ H c ltac:(set_solver)). change FSSIZE with 2000 in *. change nmeta with 46 in *. unfold id. lia.
Qed.

Lemma ind_range v fb x ib L : fb <= FSSIZE -> has_blocks v fb x ib L -> 0 <= ind x < 2 ^ 32.
Proof.
  intros Hfb H. rewrite (hb_ind _ _ _ _ _ H). destruct ib as [|c ib]; cbn; [lia|].
  assert (Hr := hb_range _ _ _ _ _ H c ltac:(set_solver)). change FSSIZE with 2000 in *. change nmeta with 46 in *. unfold id. lia.
Qed.

(** ** Finding or allocating the block of an offset *)

(** The result of [direct_block] and [indirect_block]. *)
Record located (v : contents) (fb : Z) (x : inode) (ib L : list Z) (bn : nat) (v' : contents) (fb' : Z) (x' : inode) (c : Z) (ib' L' : list Z) : Prop := {
  lo_blocks : has_blocks v' fb' x' ib' L';
  lo_at : L' !! bn = Some c;
  lo_list : L' = if (bn <? length L)%nat then L else L ++ [c];
  lo_new : (bn <? length L)%nat = false -> fb <= c /\ zero_block (v' c);
  lo_ib : ib' = ib \/ (ib = [] /\ ib' = [fb]);
  lo_same : forall b, b ∉ ib' -> v' b = v b;
  lo_fresh : fresh v' fb';
  lo_count : fb' = fb + Z.of_nat (length (ib' ++ L')) - Z.of_nat (length (ib ++ L));
  lo_rest : x' = set_iaddrs (fun _ => iaddrs x') x
}.

Definition at_st (s : mkst) (v : contents) (fb : Z) : mkst := mkmkst v (freeinode s) fb (msb s).

Lemma next_block_ok s v fb : 0 <= fb < FSSIZE -> next_block (at_st s v fb) = Ok fb (at_st s v (fb + 1)).
Proof.
  intros H. unfold next_block, bind, gets, modify, ret, at_st. cbn. rewrite u32_small; [done|]. change FSSIZE with 2000 in H. lia.
Qed.

Lemma addr_at_with x i a j : length (iaddrs x) = 13%nat -> 0 <= i <= NDIRECT -> 0 <= j ->
  addr_at (with_addr x i a) j = if j =? i then a else addr_at x j.
Proof.
  intros Hl Hi Hj. change NDIRECT with 12 in Hi. unfold with_addr, addr_at. cbn [set_iaddrs iaddrs]. destruct (Z.eqb_spec j i) as [->|Hne].
  - rewrite list_lookup_insert_eq by (rewrite Hl; lia). done.
  - rewrite list_lookup_insert_ne by lia. done.
Qed.

Lemma lookup_snoc (L : list Z) c k : (L ++ [c]) !! k = if (k =? length L)%nat then Some c else L !! k.
Proof.
  destruct (Nat.eqb_spec k (length L)) as [->|Hne]; [by rewrite list_lookup_middle|].
  destruct (decide (k < length L)%nat); [by rewrite lookup_app_l|]. rewrite !lookup_ge_None_2; [done|lia|rewrite length_app; cbn; lia].
Qed.

(** A direct block more. *)
Lemma add_direct_blocks v fb x ib L : has_blocks v fb x ib L -> nmeta <= fb -> (length L < 12)%nat ->
  has_blocks v (fb + 1) (with_addr x (Z.of_nat (length L)) fb) ib (L ++ [fb]).
Proof.
  intros H Hlo Hl. pose proof (hb_ib _ _ _ _ _ H) as Hib. rewrite (proj2 (Nat.leb_le _ _)) in Hib by lia. apply nil_length_inv in Hib as ->.
  assert (Haddr : forall j, 0 <= j -> addr_at (with_addr x (Z.of_nat (length L)) fb) j = if j =? Z.of_nat (length L) then fb else addr_at x j)
    by (intros j Hj; apply addr_at_with; [apply H|change NDIRECT with 12; lia|done]).
  assert (Hi : ind (with_addr x (Z.of_nat (length L)) fb) = ind x).
  { unfold ind. rewrite Haddr by done. rewrite (proj2 (Z.eqb_neq _ _)); [done|]. change NDIRECT with 12. lia. }
  constructor.
  - cbn. rewrite length_insert. apply H.
  - rewrite length_app. cbn. lia.
  - intros bn Hbn. specialize (hb_map _ _ _ _ _ H bn Hbn) as Hm. unfold fblock in *. rewrite Hi, lookup_snoc, Haddr by lia.
    destruct (Z.eqb_spec bn (Z.of_nat (length L))) as [->|Hne].
    + rewrite Nat2Z.id, Nat.eqb_refl, (proj2 (Z.ltb_lt _ _)); [done|]. change NDIRECT with 12. lia.
    + rewrite (proj2 (Nat.eqb_neq _ _)) by lia. exact Hm.
  - rewrite Hi. apply H.
  - rewrite length_app. cbn [length]. rewrite (proj2 (Nat.leb_le _ _)) by lia. done.
  - cbn [app]. apply NoDup_app. split; [apply (hb_nodup _ _ _ _ _ H)|]. split; [|apply NoDup_singleton].
    intros b Hb Hb'. apply list_elem_of_singleton in Hb' as ->. assert (Hr := hb_range _ _ _ _ _ H fb Hb). lia.
  - intros b Hb. cbn [app] in Hb. apply elem_of_app in Hb as [Hb|Hb]; [assert (Hr := hb_range _ _ _ _ _ H b Hb); lia|].
    apply list_elem_of_singleton in Hb as ->. lia.
Qed.

(** An entry more in the indirect block. *)
Lemma add_entry_blocks v c x i L : length (iaddrs x) = 13%nat -> ind x = i -> i <> 0 -> (12 <= length L < 268)%nat -> 0 <= c < 2 ^ 32 -> nmeta <= c ->
  (forall bn, 0 <= bn < MAXFILE -> fblock v x bn = default 0 (L !! Z.to_nat bn)) -> NoDup (i :: L) -> (forall b, b ∈ i :: L -> nmeta <= b < c) ->
  has_blocks (setv i (stw (v i) (4 * (Z.of_nat (length L) - NDIRECT)) c) v) (c + 1) x [i] (L ++ [c]).
Proof.
  intros Hx Hi Hi0 Hl Hc Hlo Hm Hn Hr. constructor.
  - done.
  - rewrite length_app. cbn. lia.
  - intros bn Hbn. specialize (Hm bn Hbn). unfold fblock in *. rewrite lookup_snoc. rewrite Hi, (proj2 (Z.eqb_neq _ _) Hi0) in *.
    change NDIRECT with 12 in *. destruct (Z.ltb_spec bn 12) as [Hlt|Hge].
    + rewrite (proj2 (Nat.eqb_neq _ _)) by lia. done.
    + rewrite setv_eq. destruct (Nat.eqb_spec (Z.to_nat bn) (length L)) as [E|E].
      * rewrite <- E, Z2Nat.id by lia. by apply ldw_stw_same.
      * rewrite ldw_stw_other by lia. done.
  - by rewrite Hi.
  - rewrite length_app. cbn [length]. rewrite (proj2 (Nat.leb_gt _ _)) by lia. done.
  - change ([i] ++ L ++ [c]) with ((i :: L) ++ [c]). apply NoDup_app. split; [done|]. split; [|apply NoDup_singleton].
    intros b Hb Hb'. apply list_elem_of_singleton in Hb' as ->. specialize (Hr c Hb). lia.
  - intros b Hb. change ([i] ++ L ++ [c]) with ((i :: L) ++ [c]) in Hb. apply elem_of_app in Hb as [Hb|Hb]; [specialize (Hr b Hb); lia|].
    apply list_elem_of_singleton in Hb as ->. lia.
Qed.

(** The second half of [indirect_block], with the indirect block in place. *)
Definition entry_block (x : inode) (fbn : Z) : M mkst (inode * Z) :=
  do! indirect <- rsect (xint (addr_of x NDIRECT));
  do! indirect <- (if ldw indirect (4 * (fbn - NDIRECT)) =? 0
                   then do! c <- next_block;
                        let indirect := stw indirect (4 * (fbn - NDIRECT)) (xint c) in
                        wsect (xint (addr_of x NDIRECT)) indirect ;;
                        ret indirect
                   else ret indirect);
  ret (x, xint (ldw indirect (4 * (fbn - NDIRECT)))).

Lemma entry_new s v bn fb1 x1 i : ind x1 = i -> 0 < i < 2 ^ 32 -> 0 <= fb1 < FSSIZE -> ldw (v i) (4 * (Z.of_nat bn - NDIRECT)) = 0 ->
  entry_block x1 (Z.of_nat bn) (at_st s v fb1) =
  Ok (x1, fb1) (at_st s (setv i (stw (v i) (4 * (Z.of_nat bn - NDIRECT)) fb1) v) (fb1 + 1)).
Proof.
  intros Hi Hi0 Hf1 E. unfold entry_block. change (addr_of x1 NDIRECT) with (ind x1). rewrite Hi, xint_id by lia.
  assert (Hx : xint fb1 = fb1) by (apply xint_id; change FSSIZE with 2000 in *; lia).
  unfold rsect. unfold bind at 1, gets. cbn [img at_st]. rewrite E. cbn [Z.eqb]. rewrite bind_assoc, (bind_ok _ _ _ _ _ (next_block_ok s v fb1 Hf1)).
  unfold wsect, bind, modify, ret. cbn [img at_st freeinode freeblock msb]. rewrite Hx. rewrite ldw_stw_same by (change FSSIZE with 2000 in *; lia). rewrite Hx. done.
Qed.

Lemma next_zero v fb x ib L bn : has_blocks v fb x ib L -> (bn < 268)%nat -> (bn <? length L)%nat = false -> fblock v x (Z.of_nat bn) = 0.
Proof.
  intros H Hmax E%Nat.ltb_ge. rewrite (hb_map _ _ _ _ _ H) by (change MAXFILE with 268; lia). rewrite Nat2Z.id. by rewrite lookup_ge_None_2.
Qed.

Lemma found_block v fb x ib L bn c : has_blocks v fb x ib L -> L !! bn = Some c -> c = fblock v x (Z.of_nat bn) /\ c <> 0.
Proof.
  intros H E. assert (Hl := lookup_lt_Some _ _ _ E). pose proof (hb_max _ _ _ _ _ H).
  rewrite (hb_map _ _ _ _ _ H) by (change MAXFILE with 268; lia). rewrite Nat2Z.id, E. split; [done|].
  assert (Hr := hb_range _ _ _ _ _ H c ltac:(apply list_elem_of_lookup_2 in E; set_solver)). change nmeta with 46 in Hr. lia.
Qed.

Lemma stays v fb x ib L bn c : has_blocks v fb x ib L -> fresh v fb -> L !! bn = Some c -> located v fb x ib L bn v fb x c ib L.
Proof.
  intros H Hfr E. assert (Hl := lookup_lt_Some _ _ _ E). assert (Hb : (bn <? length L)%nat = true) by (by apply Nat.ltb_lt).
  constructor; try done; [by rewrite Hb|by rewrite Hb|by left|lia|by destruct x].
Qed.

Lemma fresh_more v fb v' fb' : fresh v fb -> fb <= fb' -> (forall b, fb' <= b -> v' b = v b) -> fresh v' fb'.
Proof. intros Hfr Hle Hsame b Hb. rewrite Hsame by lia. apply Hfr. lia. Qed.

(** What is found in the blocks of a file, or put there. *)
Definition locates (step : MK (inode * Z)) (s : mkst) (v : contents) (fb : Z) (x : inode) (ib L : list Z) (bn : nat) : Prop :=
  exists v' fb' x' c ib' L', step (at_st s v fb) = Ok (x', c) (at_st s v' fb') /\ located v fb x ib L bn v' fb' x' c ib' L'.

Section Locate.
Context (s : mkst) (v : contents) (fb : Z) (x : inode) (ib L : list Z) (bn : nat).
Hypothesis (H : has_blocks v fb x ib L) (Hfr : fresh v fb) (Hbn : (bn <= length L)%nat) (Hmax : (bn < 268)%nat) (Hlo : nmeta <= fb).

Lemma direct_ok : (bn < 12)%nat -> (if (bn <? length L)%nat then fb else fb + 1) <= FSSIZE -> locates (direct_block x (Z.of_nat bn)) s v fb x ib L bn.
Proof.
  intros Hd Hroom. unfold locates, direct_block. change (addr_of x) with (addr_at x).
  assert (Hfb : fb <= FSSIZE) by (destruct (bn <? length L)%nat; lia).
  assert (Ea : addr_at x (Z.of_nat bn) = fblock v x (Z.of_nat bn)) by (unfold fblock; rewrite (proj2 (Z.ltb_lt _ _)); [done|change NDIRECT with 12; lia]).
  assert (Hr := entry_range v fb x ib L (Z.of_nat bn) Hfb H ltac:(change MAXFILE with 268; lia)). rewrite Ea, xint_id by done.
  destruct (bn <? length L)%nat eqn:Eb.
  - destruct (lookup_lt_is_Some_2 L bn (proj1 (Nat.ltb_lt _ _) Eb)) as [c Hc]. destruct (found_block v fb x ib L bn c H Hc) as [-> Hne].
    rewrite (proj2 (Z.eqb_neq _ _) Hne). exists v, fb, x, (fblock v x (Z.of_nat bn)), ib, L. split; [|by apply stays].
    unfold bind, ret. change (addr_of x) with (addr_at x). by rewrite Ea, xint_id.
  - rewrite (next_zero v fb x ib L bn H Hmax Eb). cbn [Z.eqb]. pose proof Eb as Eb'. apply Nat.ltb_ge in Eb'. assert (El : bn = length L) by lia.
    assert (Hfb' : 0 <= fb < FSSIZE) by (change nmeta with 46 in *; lia).
    assert (Hx : xint fb = fb) by (apply xint_id; change FSSIZE with 2000 in *; lia).
    rewrite bind_assoc, (bind_ok _ _ _ _ _ (next_block_ok s v fb Hfb')). rewrite Hx.
    exists v, (fb + 1), (with_addr x (Z.of_nat bn) fb), fb, ib, (L ++ [fb]). split.
    + unfold bind, ret. change (addr_of (with_addr x (Z.of_nat bn) fb)) with (addr_at (with_addr x (Z.of_nat bn) fb)).
      rewrite addr_at_with, Z.eqb_refl, Hx by (apply H || change NDIRECT with 12; lia). done.
    + constructor; try done; [rewrite El; apply add_direct_blocks; [done|done|lia]|rewrite El; by rewrite list_lookup_middle|by rewrite Eb| |by left| |].
      * intros _. split; [lia|]. apply Hfr. lia.
      * by apply (fresh_more v fb); [|lia|].
      * rewrite !length_app. cbn. lia.
Qed.


(** The first entry of the indirect block, which is new too. *)
Lemma indirect_first : bn = 12%nat -> length L = 12%nat -> fb + 2 <= FSSIZE -> locates (indirect_block x (Z.of_nat bn)) s v fb x ib L bn.
Proof using All.
  intros -> E12 Hroom. unfold locates. change (indirect_block x (Z.of_nat 12)) with (do! x0 <- (if xint (addr_of x NDIRECT) =? 0 then do! c <- next_block; ret (with_addr x NDIRECT (xint c)) else ret x);
    entry_block x0 (Z.of_nat 12)). change (addr_of x NDIRECT) with (ind x).
  pose proof (hb_ib _ _ _ _ _ H) as Hib. pose proof (hb_ind _ _ _ _ _ H) as Hind.
  rewrite E12 in Hib. cbn in Hib. apply nil_length_inv in Hib. rewrite Hib in Hind. cbn in Hind. unfold id in Hind. rewrite Hind. change (xint 0 =? 0) with true. cbn match.
  change nmeta with 46 in *. change FSSIZE with 2000 in *.
  assert (Hfb' : 0 <= fb < FSSIZE) by (change FSSIZE with 2000; lia). assert (Hx : xint fb = fb) by (apply xint_id; lia).
  rewrite bind_assoc, (bind_ok _ _ _ _ _ (next_block_ok s v fb Hfb')). unfold bind at 1, ret at 1. rewrite Hx. set (x1 := with_addr x NDIRECT fb).
  assert (Ha : forall j, 0 <= j -> addr_at x1 j = if j =? NDIRECT then fb else addr_at x j) by (intros j Hj; apply addr_at_with; [apply H|done|done]).
  assert (Hi1 : ind x1 = fb) by (unfold ind; by rewrite Ha).
  assert (Hz : forall o, 0 <= o -> o + 4 <= BSIZE -> ldw (v fb) o = 0) by (intros o H1 H2; apply ldw_zero; [apply Hfr; change FSSIZE with 2000; lia|done|done]).
  rewrite (entry_new s v 12 (fb + 1) x1 fb Hi1) by (try (apply Hz; done); change FSSIZE with 2000; lia).
  assert (Hmap : forall bn, 0 <= bn < MAXFILE -> fblock v x1 bn = default 0 (L !! Z.to_nat bn)).
  { intros k Hk. pose proof (hb_map _ _ _ _ _ H k Hk) as Hm. unfold fblock in *. rewrite Hi1, Hind, Ha in * by lia. change NDIRECT with 12 in *.
    destruct (Z.ltb_spec k 12); [rewrite (proj2 (Z.eqb_neq _ _)) by lia; exact Hm|].
    rewrite (proj2 (Z.eqb_neq fb 0)), <- Hm by lia. apply Hz; change MAXFILE with 268 in *; change BSIZE with 1024; lia. }
  assert (Hlt : forall b, b ∈ L -> 46 <= b < fb) by (intros b Hb; apply (hb_range _ _ _ _ _ H); set_solver).
  assert (Hnd : NoDup L) by (pose proof (hb_nodup _ _ _ _ _ H) as Hn; by rewrite Hib in Hn).
  do 6 eexists. split; [reflexivity|]. constructor.
  - replace (Z.of_nat 12) with (Z.of_nat (length L)) by lia. apply add_entry_blocks; try done; try lia; [cbn; rewrite length_insert; apply H|change nmeta with 46; lia| |].
    + apply NoDup_cons. split; [|done]. intros Hin. specialize (Hlt fb Hin). lia.
    + intros b Hb. change nmeta with 46. apply elem_of_cons in Hb as [->|Hb]; [lia|]. specialize (Hlt b Hb). lia.
  - rewrite <- E12. by rewrite list_lookup_middle.
  - by rewrite E12.
  - intros _. split; [lia|]. rewrite setv_ne by lia. apply Hfr. change FSSIZE with 2000. lia.
  - by right.
  - intros b Hb. rewrite setv_ne by set_solver. done.
  - apply (fresh_more v fb); [done|lia|]. intros b Hb. rewrite setv_ne by lia. done.
  - rewrite Hib, !length_app. cbn. lia.
  - done.
Qed.

(** A further entry. *)
Lemma indirect_next : (12 <= bn)%nat -> length L <> 12%nat -> (if (bn <? length L)%nat then fb else fb + 1) <= FSSIZE -> locates (indirect_block x (Z.of_nat bn)) s v fb x ib L bn.
Proof using All.
  intros Hd E12 Hroom. unfold locates. change (indirect_block x (Z.of_nat bn)) with (do! x0 <- (if xint (addr_of x NDIRECT) =? 0 then do! c <- next_block; ret (with_addr x NDIRECT (xint c)) else ret x);
    entry_block x0 (Z.of_nat bn)). change (addr_of x NDIRECT) with (ind x).
  assert (Hfb : fb <= FSSIZE) by (destruct (bn <? length L)%nat; lia). change nmeta with 46 in *.
  pose proof (hb_ib _ _ _ _ _ H) as Hib. pose proof (hb_ind _ _ _ _ _ H) as Hind. rewrite (proj2 (Nat.leb_gt _ _)) in Hib by lia.
  destruct ib as [|i [|? ?]] eqn:Eib; try done. cbn in Hind. unfold id in Hind.
  assert (Hri := hb_range _ _ _ _ _ H i ltac:(set_solver)). change nmeta with 46 in Hri. change FSSIZE with 2000 in *. rewrite Hind, xint_id, (proj2 (Z.eqb_neq i 0)) by lia.
  unfold bind at 1, ret at 1. assert (Ef : fblock v x (Z.of_nat bn) = ldw (v i) (4 * (Z.of_nat bn - NDIRECT))).
  { unfold fblock. rewrite Hind, (proj2 (Z.eqb_neq i 0)), (proj2 (Z.ltb_ge _ _)) by (change NDIRECT with 12; lia). done. }
  destruct (bn <? length L)%nat eqn:Eb.
  - destruct (lookup_lt_is_Some_2 L bn (proj1 (Nat.ltb_lt _ _) Eb)) as [c Hc]. destruct (found_block v fb x [i] L bn c H Hc) as [Ec Hne].
    exists v, fb, x, c, [i], L. split; [|by apply stays]. assert (Hr := entry_range v fb x [i] L (Z.of_nat bn) Hfb H ltac:(change MAXFILE with 268; lia)).
    unfold entry_block. change (addr_of x NDIRECT) with (ind x). rewrite Hind, xint_id by lia. unfold rsect, bind, gets. cbn [img at_st].
    rewrite <- Ef, <- Ec, (proj2 (Z.eqb_neq _ _) Hne). unfold ret. rewrite <- Ef, <- Ec. rewrite xint_id; [done|]. rewrite Ec. exact Hr.
  - assert (El : bn = length L) by (apply Nat.ltb_ge in Eb; lia).
    rewrite (entry_new s v bn fb x i Hind) by (try (rewrite <- Ef; by apply (next_zero v fb x [i] L bn)); change FSSIZE with 2000; lia).
    do 6 eexists. split; [reflexivity|]. constructor.
    + rewrite El. apply add_entry_blocks; try done; [apply H|lia|lia|lia|apply (hb_map _ _ _ _ _ H)|apply (hb_nodup _ _ _ _ _ H)|apply (hb_range _ _ _ _ _ H)].
    + rewrite El. by rewrite list_lookup_middle.
    + by rewrite Eb.
    + intros _. split; [lia|]. rewrite setv_ne by lia. apply Hfr. change FSSIZE with 2000. lia.
    + by left.
    + intros b Hb. rewrite setv_ne by set_solver. done.
    + apply (fresh_more v fb); [done|lia|]. intros b Hb. rewrite setv_ne by lia. done.
    + rewrite !length_app. cbn. lia.
    + by destruct x.
Qed.

End Locate.

(** ** Appending *)
Record file_at (v : contents) (fb : Z) (x : inode) (ib L bytes : list Z) : Prop := {
  fa_blocks : has_blocks v fb x ib L;
  fa_len : length L = parts (length bytes);
  fa_bytes : contains v L bytes
}.

(** The file got more bytes and perhaps more blocks, from [fb] on; the blocks
    of other files are as they were. *)
Record appended (v : contents) (fb : Z) (x : inode) (ib L bytes : list Z) (v' : contents) (fb' : Z) (x' : inode) (ib' L' bytes' : list Z) : Prop := {
  ap_file : file_at v' fb' x' ib' L' bytes';
  ap_fresh : fresh v' fb';
  ap_count : fb' + Z.of_nat (need (length bytes)) = fb + Z.of_nat (need (length bytes'));
  ap_le : fb <= fb';
  ap_mine : forall b, b ∈ ib' ++ L' -> b ∈ ib ++ L \/ fb <= b;
  ap_frame : forall b, b < fb -> b ∉ ib ++ L -> v' b = v b;
  ap_rest : x' = set_iaddrs (fun _ => iaddrs x') x
}.

Lemma parts_spec n : Z.of_nat n <= BSIZE * Z.of_nat (parts n) < Z.of_nat n + BSIZE.
Proof.
  unfold parts. change BSIZE with 1024. pose proof (Z.div_mod (Z.of_nat n + (1024 - 1)) 1024 ltac:(done)).
  pose proof (Z.mod_pos_bound (Z.of_nat n + (1024 - 1)) 1024 ltac:(done)). lia.
Qed.
Lemma parts_is n k : Z.of_nat n <= BSIZE * Z.of_nat k < Z.of_nat n + BSIZE -> parts n = k.
Proof. intros H. pose proof (parts_spec n). change BSIZE with 1024 in *. lia. Qed.
Lemma parts_mono n m : (n <= m)%nat -> (parts n <= parts m)%nat.
Proof. intros H. pose proof (parts_spec n). pose proof (parts_spec m). change BSIZE with 1024 in *. lia. Qed.
Lemma need_mono n m : (n <= m)%nat -> (need n <= need m)%nat.
Proof. intros H%parts_mono. unfold need. destruct (Nat.leb_spec (parts n) 12), (Nat.leb_spec (parts m) 12); lia. Qed.

Lemma blocks_need v fb x ib L bytes : file_at v fb x ib L bytes -> length (ib ++ L) = need (length bytes).
Proof. intros [Hb Hl _]. rewrite length_app, (hb_ib _ _ _ _ _ Hb), Hl. unfold need. lia. Qed.

Lemma has_blocks_same v v' fb x ib L : has_blocks v fb x ib L -> (forall b, b ∈ ib -> v' b = v b) -> has_blocks v' fb x ib L.
Proof.
  intros H Hs. constructor; try apply H. intros bn Hbn. rewrite <- (hb_map _ _ _ _ _ H bn Hbn). unfold fblock. destruct (bn <? NDIRECT); [done|].
  pose proof (hb_ind _ _ _ _ _ H) as Hi. destruct ib as [|i ib]; cbn in Hi; unfold id in Hi; rewrite Hi; [done|]. rewrite Hs by set_solver. done.
Qed.

Lemma appended_refl v fb x ib L bytes : file_at v fb x ib L bytes -> fresh v fb -> appended v fb x ib L bytes v fb x ib L bytes.
Proof. intros H1 H2. constructor; try done; [by left|by destruct x]. Qed.

Lemma appended_trans v fb x ib L bytes v1 fb1 x1 ib1 L1 bytes1 v2 fb2 x2 ib2 L2 bytes2 :
  appended v fb x ib L bytes v1 fb1 x1 ib1 L1 bytes1 -> appended v1 fb1 x1 ib1 L1 bytes1 v2 fb2 x2 ib2 L2 bytes2 ->
  appended v fb x ib L bytes v2 fb2 x2 ib2 L2 bytes2.
Proof.
  intros A1 A2. pose proof (ap_le _ _ _ _ _ _ _ _ _ _ _ _ A1). pose proof (ap_le _ _ _ _ _ _ _ _ _ _ _ _ A2).
  pose proof (ap_mine _ _ _ _ _ _ _ _ _ _ _ _ A1) as M1. constructor; try apply A2.
  - pose proof (ap_count _ _ _ _ _ _ _ _ _ _ _ _ A1). pose proof (ap_count _ _ _ _ _ _ _ _ _ _ _ _ A2). lia.
  - lia.
  - intros b Hb. destruct (ap_mine _ _ _ _ _ _ _ _ _ _ _ _ A2 b Hb) as [Hb1|Hb1]; [by apply M1|right; lia].
  - intros b Hlt Hb. rewrite (ap_frame _ _ _ _ _ _ _ _ _ _ _ _ A2); [by apply A1|lia|]. intros Hb1. destruct (M1 b Hb1); [done|lia].
  - rewrite (ap_rest _ _ _ _ _ _ _ _ _ _ _ _ A2), (ap_rest _ _ _ _ _ _ _ _ _ _ _ _ A1) at 1. by destruct x.
Qed.

(** One round of the loop: [d] goes to block number [bn]. *)
Section Part.
Context (v : contents) (fb : Z) (x : inode) (ib L bytes : list Z) (bn : nat) (v' : contents) (fb' : Z) (x' : inode) (c : Z) (ib' L' d : list Z).
Hypothesis (Hf : file_at v fb x ib L bytes) (Lo : located v fb x ib L bn v' fb' x' c ib' L') (Hd : Forall byte_ok d) (Hne : d <> []).
Hypothesis (Hlo : 1024 * Z.of_nat bn <= Z.of_nat (length bytes)) (Hhi : Z.of_nat (length bytes + length d) <= 1024 * (Z.of_nat bn + 1)).

Lemma part_count : parts (length (bytes ++ d)) = S bn /\ (bn <= length L <= S bn)%nat /\ length L' = S bn.
Proof using All.
  destruct Hf as [Hb Hl Hc]. assert (Hnd : (0 < length d)%nat) by (destruct d; [done|cbn; lia]).
  pose proof (parts_spec (length bytes)) as Hp. change BSIZE with 1024 in Hp. split_and!; [|lia|lia|].
  - apply parts_is. rewrite length_app. change BSIZE with 1024. lia.
  - rewrite (lo_list _ _ _ _ _ _ _ _ _ _ _ _ Lo). destruct (Nat.ltb_spec bn (length L)); [lia|rewrite length_app; cbn; lia].
Qed.

Lemma part_not_ib k e : L' !! k = Some e -> e ∉ ib'.
Proof using Lo.
  intros Hk%list_elem_of_lookup_2 Hin. pose proof (hb_nodup _ _ _ _ _ (lo_blocks _ _ _ _ _ _ _ _ _ _ _ _ Lo)) as Hn.
  apply NoDup_app in Hn as (_ & Hn & _). by apply (Hn e).
Qed.

Lemma part_old j : 0 <= j < 1024 -> ld8 (v' c) j = default 0 (bytes !! Z.to_nat (1024 * Z.of_nat bn + j)).
Proof using All.
  destruct part_count as (_ & Hle & _). intros Hj. pose proof (lo_at _ _ _ _ _ _ _ _ _ _ _ _ Lo) as Hat. destruct (bn <? length L)%nat eqn:E.
  - rewrite (lo_same _ _ _ _ _ _ _ _ _ _ _ _ Lo) by (by apply (part_not_ib bn)). rewrite (lo_list _ _ _ _ _ _ _ _ _ _ _ _ Lo), E in Hat. by apply Hf.
  - destruct (lo_new _ _ _ _ _ _ _ _ _ _ _ _ Lo E) as [_ Hz]. rewrite Hz by done. rewrite lookup_ge_None_2; [done|].
    pose proof (fa_len _ _ _ _ _ _ Hf). pose proof (parts_spec (length bytes)) as Hp. change BSIZE with 1024 in Hp. apply Nat.ltb_ge in E. lia.
Qed.

Abbreviation put := (setv c (put_bytes (v' c) (Z.of_nat (length bytes) - Z.of_nat bn * 1024) d) v').

Lemma part_contains : contains put L' (bytes ++ d).
Proof using All.
  destruct part_count as (_ & Hle & Hlen). intros k e j Hk Hj. change BSIZE with 1024 in *. destruct (decide (k = bn)) as [->|Hkb].
  - assert (e = c) as -> by (pose proof (lo_at _ _ _ _ _ _ _ _ _ _ _ _ Lo); congruence). rewrite setv_eq, put_bytes_spec by done. destruct (inrange _ _ j) eqn:Ein.
    + apply inrange_true in Ein. rewrite lookup_app_r by lia. unfold nthb. do 2 f_equal. lia.
    + apply inrange_false in Ein. rewrite part_old by done. destruct (decide (Z.to_nat (1024 * Z.of_nat bn + j) < length bytes)%nat); [by rewrite lookup_app_l|].
      rewrite !lookup_ge_None_2; [done|rewrite length_app; lia|lia].
  - assert (Hkl := lookup_lt_Some _ _ _ Hk). pose proof (hb_nodup _ _ _ _ _ (lo_blocks _ _ _ _ _ _ _ _ _ _ _ _ Lo)) as (_ & _ & Hn)%NoDup_app.
    rewrite setv_ne by (intros ->; apply Hkb; eapply NoDup_lookup; [exact Hn|exact Hk|apply Lo]).
    rewrite (lo_same _ _ _ _ _ _ _ _ _ _ _ _ Lo) by (by apply (part_not_ib k)). rewrite lookup_app_l by lia. apply (fa_bytes _ _ _ _ _ _ Hf); [|done].
    rewrite (lo_list _ _ _ _ _ _ _ _ _ _ _ _ Lo) in Hk. destruct (bn <? length L)%nat; [done|]. rewrite lookup_app_l in Hk by lia. done.
Qed.

Lemma put_part : appended v fb x ib L bytes put fb' x' ib' L' (bytes ++ d).
Proof using All.
  destruct part_count as (Hpn & Hle & Hlen). pose proof (lo_blocks _ _ _ _ _ _ _ _ _ _ _ _ Lo) as Hb'.
  pose proof (lo_list _ _ _ _ _ _ _ _ _ _ _ _ Lo) as HL'. pose proof (lo_at _ _ _ _ _ _ _ _ _ _ _ _ Lo) as Hat. constructor.
  - constructor; [|by rewrite Hlen|apply part_contains].
    apply (has_blocks_same v'); [done|]. intros b Hin. rewrite setv_ne; [done|]. intros ->. by apply (part_not_ib bn c Hat).
  - intros b Hb1. rewrite setv_ne; [by apply (lo_fresh _ _ _ _ _ _ _ _ _ _ _ _ Lo)|]. intros ->.
    assert (Hr := hb_range _ _ _ _ _ Hb' c ltac:(apply elem_of_app; right; by eapply list_elem_of_lookup_2)). lia.
  - rewrite (lo_count _ _ _ _ _ _ _ _ _ _ _ _ Lo), (blocks_need _ _ _ _ _ _ Hf), length_app, (hb_ib _ _ _ _ _ Hb'), Hlen. unfold need. rewrite Hpn. lia.
  - rewrite (lo_count _ _ _ _ _ _ _ _ _ _ _ _ Lo). rewrite !length_app, Hlen. destruct (lo_ib _ _ _ _ _ _ _ _ _ _ _ _ Lo) as [->|[-> ->]]; cbn; lia.
  - intros b [Hin|Hin]%elem_of_app.
    + destruct (lo_ib _ _ _ _ _ _ _ _ _ _ _ _ Lo) as [E|[_ E]]; rewrite E in Hin; [set_solver|]. apply list_elem_of_singleton in Hin. right. lia.
    + rewrite HL' in Hin. destruct (bn <? length L)%nat eqn:E; [set_solver|]. apply elem_of_app in Hin as [Hin|Hin]; [set_solver|].
      apply list_elem_of_singleton in Hin as ->. right. by apply (lo_new _ _ _ _ _ _ _ _ _ _ _ _ Lo).
  - intros b Hlt Hin. rewrite setv_ne.
    + apply (lo_same _ _ _ _ _ _ _ _ _ _ _ _ Lo). destruct (lo_ib _ _ _ _ _ _ _ _ _ _ _ _ Lo) as [E|[_ E]]; rewrite E; [set_solver|]. rewrite list_elem_of_singleton. lia.
    + intros ->. destruct (bn <? length L)%nat eqn:E; [|destruct (lo_new _ _ _ _ _ _ _ _ _ _ _ _ Lo E); lia].
      rewrite HL' in Hat. apply Hin, elem_of_app. right. by eapply list_elem_of_lookup_2.
  - apply Lo.
Qed.
End Part.

(** The block for the next byte, whichever half of the map it is in. *)
Lemma locate_ok s v fb x ib L bytes bn k : file_at v fb x ib L bytes -> fresh v fb -> nmeta <= fb -> (bn < 268)%nat ->
  1024 * Z.of_nat bn <= Z.of_nat (length bytes) -> (0 < k)%nat -> Z.of_nat (length bytes + k) <= 1024 * (Z.of_nat bn + 1) ->
  fb + Z.of_nat (need (length bytes + k)) - Z.of_nat (need (length bytes)) <= FSSIZE ->
  locates (if Z.of_nat bn <? NDIRECT then direct_block x (Z.of_nat bn) else indirect_block x (Z.of_nat bn)) s v fb x ib L bn.
Proof.
  intros [Hb Hl _] Hfr Hm Hmax Hlo Hk Hhi Hroom. change NDIRECT with 12.
  pose proof (parts_spec (length bytes)) as Hp. change BSIZE with 1024 in Hp.
  assert (Hpk : parts (length bytes + k) = S bn) by (apply parts_is; change BSIZE with 1024; lia).
  unfold need in Hroom. rewrite Hpk, <- Hl in Hroom. rewrite <- Hl in Hp. assert (Hle : (bn <= length L <= S bn)%nat) by lia. destruct (Z.ltb_spec (Z.of_nat bn) 12).
  - apply direct_ok; try done; [lia|lia|]. rewrite (proj2 (Nat.leb_le _ _)), (proj2 (Nat.leb_le _ _)) in Hroom by lia. destruct (Nat.ltb_spec bn (length L)); lia.
  - rewrite (proj2 (Nat.leb_gt _ _)) in Hroom by lia. destruct (decide (length L = 12%nat)) as [E|E].
    + apply indirect_first; try done; [lia|lia|]. rewrite E in *. cbn in Hroom. lia.
    + apply indirect_next; try done; [lia|lia|]. rewrite (proj2 (Nat.leb_gt _ _)) in Hroom by lia. destruct (Nat.ltb_spec bn (length L)); lia.
Qed.

Lemma iappend_loop_ok s fuel : forall p v fb x ib L bytes, (length p <= fuel)%nat -> Forall byte_ok p -> file_at v fb x ib L bytes -> fresh v fb -> nmeta <= fb ->
  Z.of_nat (length (bytes ++ p)) <= MAXFILE * BSIZE -> fb + Z.of_nat (need (length (bytes ++ p))) - Z.of_nat (need (length bytes)) <= FSSIZE ->
  exists v' fb' x' ib' L', iappend_loop fuel x (Z.of_nat (length bytes)) p (at_st s v fb) = Ok (x', Z.of_nat (length (bytes ++ p))) (at_st s v' fb') /\
    appended v fb x ib L bytes v' fb' x' ib' L' (bytes ++ p).
Proof.
  induction fuel as [|f IH]; intros p v fb x ib L bytes Hfuel Hp Hf Hfr Hm Hmax Hroom; (destruct p as [|p0 p']; [rewrite app_nil_r; do 5 eexists; split; [reflexivity|by apply appended_refl]|]); [cbn in Hfuel; lia|].
  set (p := p0 :: p') in *. assert (Hpl : (0 < length p)%nat) by (cbn; lia). unfold iappend_loop; fold iappend_loop. cbn zeta. unfold p at 1. cbn match.
  set (off := Z.of_nat (length bytes)) in *. set (bn := Z.to_nat (off / BSIZE)). assert (Ebn : off / BSIZE = Z.of_nat bn) by (unfold bn; rewrite Z2Nat.id by (apply Z.div_pos; [lia|done]); done).
  rewrite length_app in Hmax, Hroom. change (MAXFILE * BSIZE) with 274432 in Hmax. change BSIZE with 1024 in *.
  assert (Hdiv := Z.div_mod off 1024 ltac:(done)). assert (Hmod := Z.mod_pos_bound off 1024 ltac:(done)). rewrite Ebn in *.
  change MAXFILE with 268. rewrite (proj2 (Z.ltb_lt _ _)) by lia. cbn [negb].
  set (n1 := Z.to_nat (Z.min (Z.of_nat (length p)) ((Z.of_nat bn + 1) * 1024 - off))). assert (En1 : Z.min (Z.of_nat (length p)) ((Z.of_nat bn + 1) * 1024 - off) = Z.of_nat n1) by lia.
  rewrite En1. assert (Hn1 : (0 < n1 <= length p)%nat) by lia. assert (Htl : length (take n1 p) = n1) by (rewrite length_take; lia).
  assert (Hmid := need_mono (length bytes + n1) (length bytes + length p) ltac:(lia)).
  destruct (locate_ok s v fb x ib L bytes bn n1 Hf Hfr Hm ltac:(lia) ltac:(lia) ltac:(lia) ltac:(lia) ltac:(lia)) as (v1 & fb1 & x1 & c & ib1 & L1 & E1 & Lo).
  rewrite (bind_ok _ _ _ _ _ E1). cbn [Datatypes.fst Datatypes.snd].
  assert (A1 := put_part v fb x ib L bytes bn v1 fb1 x1 c ib1 L1 (take n1 p) Hf Lo ltac:(by apply Forall_take) ltac:(intros E; rewrite E in Htl; cbn in Htl; lia) ltac:(lia) ltac:(lia)).
  fold off in A1. set (v2 := setv c _ v1) in A1. pose proof (ap_count _ _ _ _ _ _ _ _ _ _ _ _ A1) as Hc1. pose proof (ap_le _ _ _ _ _ _ _ _ _ _ _ _ A1). rewrite length_app, Htl in Hc1.
  assert (Eapp : (bytes ++ take n1 p) ++ drop n1 p = bytes ++ p) by (by rewrite <- app_assoc, take_drop).
  destruct (IH (drop n1 p) v2 fb1 x1 ib1 L1 (bytes ++ take n1 p)) as (v' & fb' & x' & ib' & L' & E2 & A2).
  - rewrite length_drop. lia.
  - by apply Forall_drop.
  - apply A1.
  - apply A1.
  - lia.
  - rewrite Eapp, length_app. change (MAXFILE * 1024) with 274432. lia.
  - rewrite Eapp, !length_app, Htl. lia.
  - rewrite Eapp in *. exists v', fb', x', ib', L'. split; [|by eapply appended_trans].
    rewrite length_app, Htl, Nat2Z.inj_add in E2. fold off in E2. rewrite <- E2. unfold rsect, wsect, bind, gets, modify. cbn [img at_st freeinode freeblock msb]. done.
Qed.
