(* ===== verification/MkfsImage.v ===== *)
(** * The whole image

    The invariant of [main] of mkfs/mkfs.c: which files the image has so far,
    and that every operation adds what it should and leaves the rest. *)

From S2P Require Import Prelude Riscv Mem Lock Bio Blocks UserIO Fs FsBlocks FsFiles FsContents FsInode Mkfs MkfsInv.
From S2P Require Import FsDir.
Import KString.
Local Open Scope Z_scope.

(** ** Inodes *)
Definition inode_at (v : contents) (n : Z) : inode := get_dinode (v (IBLOCK n mk_sb)) (no_inode n).

Lemma IBLOCK_mk n : 0 <= n < 208 -> IBLOCK n mk_sb = n / 16 + 32 /\ 32 <= IBLOCK n mk_sb < 45.
Proof.
  intros Hn. pose proof (Z.div_mod n 16 ltac:(done)). pose proof (Z.mod_pos_bound n 16 ltac:(done)).
  assert (E : IBLOCK n mk_sb = n / 16 + 32); [|rewrite E; lia].
  unfold IBLOCK. change IPB with 16. change (inodestart mk_sb) with 32. apply u32_small. lia.
Qed.

Definition put_inode (v : contents) (n : Z) (x : inode) : contents := setv (IBLOCK n mk_sb) (put_dinode x (v (IBLOCK n mk_sb))) v.

Lemma put_inode_block v n x b : 0 <= n < 208 -> b < 32 \/ 45 <= b -> put_inode v n x b = v b.
Proof. intros Hn Hb. apply setv_ne. destruct (IBLOCK_mk n Hn). lia. Qed.

Lemma put_inode_same v n x : dinode_ok x -> inum x = n ->
  inode_at (put_inode v n x) n = mkinode 0 n 0 None false (itype x) (imajor x) (iminor x) (inlink x) (isize x) (iaddrs x).
Proof. intros Hx Hn. unfold inode_at, put_inode. rewrite setv_eq. rewrite get_put_dinode; [done|done|by rewrite Hn]. Qed.

Lemma put_inode_other v n x m : dinode_ok x -> inum x = n -> 0 <= n < 208 -> 0 <= m < 208 -> m <> n ->
  inode_at (put_inode v n x) m = inode_at v m.
Proof.
  intros Hx En Hn Hm Hne. unfold inode_at, put_inode. destruct (decide (IBLOCK m mk_sb = IBLOCK n mk_sb)) as [E|E]; [|by rewrite setv_ne].
  rewrite E, setv_eq. apply get_dinode_other; [apply Hx|]. rewrite En. cbn [inum no_inode]. change IPB with 16.
  destruct (IBLOCK_mk n Hn) as [E1 _]. destruct (IBLOCK_mk m Hm) as [E2 _]. pose proof (Z.div_mod n 16 ltac:(done)). pose proof (Z.div_mod m 16 ltac:(done)). lia.
Qed.

Definition mk_state (v : contents) (fi fb : Z) : mkst := mkmkst v fi fb mk_sb.

Lemma winode_ok v fi fb n x : winode n x (mk_state v fi fb) = Ok tt (mk_state (put_inode v n x) fi fb).
Proof. done. Qed.
Lemma rinode_ok v fi fb n : rinode n (mk_state v fi fb) = Ok (inode_at v n) (mk_state v fi fb).
Proof. done. Qed.

(** ** The files *)

(** A file: its type, its blocks and its bytes.  The file at index [i] has
    inode number [i + 1]. *)
Record gfile := mkg { g_type : Z; g_ib : list Z; g_L : list Z; g_addrs : list Z; g_bytes : list Z }.
Definition gnode (n : Z) (g : gfile) : inode := mkinode 0 n 0 None false (g_type g) 0 0 1 (Z.of_nat (length (g_bytes g))) (g_addrs g).
Definition gblocks (g : gfile) : list Z := g_ib g ++ g_L g.
Definition gneed (g : gfile) : nat := need (length (g_bytes g)).
Definition no_file (n : Z) : inode := mkinode 0 n 0 None false 0 0 0 0 0 (replicate 13 0).

Record image (v : contents) (fb : Z) (G : list gfile) : Prop := {
  im_count : fb = nmeta + Z.of_nat (sum_list_with gneed G);
  im_room : fb <= FSSIZE;
  im_inodes : (length G < 200)%nat;
  im_fresh : fresh v fb;
  im_file : forall i g, G !! i = Some g -> file_at v fb (gnode (Z.of_nat i + 1) g) (g_ib g) (g_L g) (g_bytes g);
  im_inode : forall i g, G !! i = Some g -> inode_at v (Z.of_nat i + 1) = gnode (Z.of_nat i + 1) g;
  im_type : forall i g, G !! i = Some g -> 0 < g_type g < 2 ^ 15;
  im_free : forall n, 0 <= n < NINODES -> n = 0 \/ Z.of_nat (length G) < n -> inode_at v n = no_file n;
  im_super : v 1 = sb_block mk_sb;
  im_log : forall b, 2 <= b < 32 -> zero_block (v b);
  im_apart : forall i j g h b, G !! i = Some g -> G !! j = Some h -> i <> j -> b ∈ gblocks g -> b ∉ gblocks h
}.

Lemma image_range v fb G i g b : image v fb G -> G !! i = Some g -> b ∈ gblocks g -> nmeta <= b < fb.
Proof. intros I Hg Hb. exact (hb_range _ _ _ _ _ (fa_blocks _ _ _ _ _ _ (im_file _ _ _ I i g Hg)) b Hb). Qed.
Lemma image_low v fb G : image v fb G -> nmeta <= fb.
Proof. intros I. rewrite (im_count _ _ _ I). lia. Qed.

Lemma file_at_frame v fb x ib L bytes v' fb' x' : file_at v fb x ib L bytes -> (forall b, b ∈ ib ++ L -> v' b = v b) -> fb <= fb' ->
  iaddrs x' = iaddrs x -> file_at v' fb' x' ib L bytes.
Proof.
  intros [Hb Hl Hc] Hs Hle Ea. constructor; [|done|].
  - assert (Hb' : has_blocks v' fb x ib L) by (apply (has_blocks_same v); [done|]; intros b Hin; apply Hs; set_solver).
    destruct Hb' as [H1 H2 H3 H4 H5 H6 H7]. constructor; try done.
    + by rewrite Ea.
    + intros bn Hbn. rewrite <- H3 by done. unfold fblock, ind, addr_at. by rewrite Ea.
    + unfold ind, addr_at. rewrite Ea. exact H4.
    + intros b Hin. specialize (H7 b Hin). lia.
  - intros k c j Hk Hj. rewrite Hs; [by apply Hc|]. apply elem_of_app. right. by eapply list_elem_of_lookup_2.
Qed.

Lemma file_at_addrs v fb x ib L bytes : fb <= FSSIZE -> file_at v fb x ib L bytes -> Forall (fun a => 0 <= a < 2 ^ 32) (iaddrs x).
Proof.
  intros Hfb [Hb _ _]. apply Forall_lookup. intros i a Hi. assert (Hlt := lookup_lt_Some _ _ _ Hi). rewrite (hb_len _ _ _ _ _ Hb) in Hlt.
  assert (Ea : addr_at x (Z.of_nat i) = a) by (unfold addr_at; by rewrite Nat2Z.id, Hi).
  destruct (decide (i = 12)%nat) as [->|Hi12]; [change (ind x = a) in Ea; rewrite <- Ea; by eapply ind_range|].
  assert (Ef : fblock v x (Z.of_nat i) = a) by (unfold fblock; rewrite (proj2 (Z.ltb_lt _ _)) by (change NDIRECT with 12; lia); done).
  rewrite <- Ef. eapply entry_range; [done|done|]. change MAXFILE with 268. lia.
Qed.

Lemma gnode_ok v fb x n g ib L : fb <= FSSIZE -> file_at v fb x ib L (g_bytes g) -> iaddrs x = g_addrs g -> 0 < g_type g < 2 ^ 15 -> dinode_ok (gnode n g).
Proof.
  intros Hfb Hf Ea Ht. constructor; cbn [gnode isize iaddrs itype imajor iminor inlink].
  - intros f Hin. rewrite !elem_of_cons, elem_of_nil in Hin. lia.
  - pose proof (fa_len _ _ _ _ _ _ Hf) as Hl. pose proof (hb_max _ _ _ _ _ (fa_blocks _ _ _ _ _ _ Hf)). pose proof (parts_spec (length (g_bytes g))). change BSIZE with 1024 in *. lia.
  - rewrite <- Ea. apply Hf.
  - rewrite <- Ea. by eapply file_at_addrs.
Qed.

Lemma sum_insert {A} (f : A -> nat) l i x y : l !! i = Some x -> (sum_list_with f (<[i := y]> l) + f x = sum_list_with f l + f y)%nat.
Proof.
  revert i. induction l as [|a l IH]; intros [|i] H; [done|done|injection H as ->; cbn; lia|]. specialize (IH i H).
  change (<[S i := y]> (a :: l)) with (a :: <[i := y]> l). cbn [sum_list_with]. lia.
Qed.

(** Writing the inode of a file, when its blocks are already as they should. *)
Lemma image_update v fb G i g v1 fb1 x1 ib1 L1 bytes1 : image v fb G -> G !! i = Some g -> fb1 <= FSSIZE ->
  appended v fb (gnode (Z.of_nat i + 1) g) (g_ib g) (g_L g) (g_bytes g) v1 fb1 x1 ib1 L1 bytes1 ->
  let g1 := mkg (g_type g) ib1 L1 (iaddrs x1) bytes1 in
  image (put_inode v1 (Z.of_nat i + 1) (gnode (Z.of_nat i + 1) g1)) fb1 (<[i := g1]> G).
Proof.
  intros I Hg Hroom A g1. set (n := Z.of_nat i + 1) in *. pose proof (image_low _ _ _ I) as Hlow. change nmeta with 46 in Hlow.
  assert (Hi := lookup_lt_Some _ _ _ Hg). pose proof (im_inodes _ _ _ I) as Hin. assert (Hn : 0 <= n < 208) by lia.
  pose proof (ap_file _ _ _ _ _ _ _ _ _ _ _ _ A) as F1. pose proof (ap_le _ _ _ _ _ _ _ _ _ _ _ _ A) as Hle.
  assert (Hd1 : dinode_ok (gnode n g1)) by (eapply gnode_ok; [exact Hroom|exact F1|done|exact (im_type _ _ _ I i g Hg)]).
  assert (Hout : forall b, 45 <= b -> put_inode v1 n (gnode n g1) b = v1 b) by (intros b Hb; apply put_inode_block; lia).
  assert (Hmeta : forall b, b < 46 -> v1 b = v b).
  { intros b Hb. apply (ap_frame _ _ _ _ _ _ _ _ _ _ _ _ A); [lia|]. intros Hb'. assert (Hr := image_range _ _ _ _ _ b I Hg Hb'). change nmeta with 46 in Hr. lia. }
  assert (Hat : forall m, 0 <= m < 208 -> inode_at v1 m = inode_at v m) by (intros m Hm; unfold inode_at; rewrite Hmeta; [done|]; destruct (IBLOCK_mk m Hm); lia).
  assert (Hother : forall j h, G !! j = Some h -> j <> i -> forall b, b ∈ gblocks h -> v1 b = v b /\ 46 <= b < fb).
  { intros j h Hh Hne b Hb. assert (Hr := image_range _ _ _ _ _ b I Hh Hb). split; [|exact Hr]. apply (ap_frame _ _ _ _ _ _ _ _ _ _ _ _ A); [lia|].
    intros Hb'. by apply (im_apart _ _ _ I j i h g b Hh Hg Hne Hb). }
  assert (Hsplit : forall j h, <[i := g1]> G !! j = Some h -> j = i /\ h = g1 \/ j <> i /\ G !! j = Some h).
  { intros j h Hj. destruct (decide (j = i)) as [->|Hne]; [left|right]; [rewrite list_lookup_insert_eq in Hj by done; split; congruence|].
    by rewrite list_lookup_insert_ne in Hj. }
  constructor.
  - pose proof (sum_insert gneed G i g g1 Hg) as Hs. pose proof (ap_count _ _ _ _ _ _ _ _ _ _ _ _ A) as Hc. pose proof (im_count _ _ _ I) as Hf.
    change (gneed g) with (need (length (g_bytes g))) in Hs. change (gneed g1) with (need (length bytes1)) in Hs. lia.
  - done.
  - by rewrite length_insert.
  - intros b Hb. rewrite Hout by lia. by apply A.
  - intros j h [[-> ->]|[Hne Hh]]%Hsplit.
    + apply (file_at_frame v1 fb1 x1); [exact F1| |lia|done]. intros b Hb. apply Hout. assert (Hr := hb_range _ _ _ _ _ (fa_blocks _ _ _ _ _ _ F1) b Hb). change nmeta with 46 in Hr. lia.
    + apply (file_at_frame v fb (gnode (Z.of_nat j + 1) h)); [by apply I| |done|done]. intros b Hb. destruct (Hother j h Hh Hne b Hb) as [E Hr]. rewrite Hout by lia. exact E.
  - intros j h [[-> ->]|[Hne Hh]]%Hsplit; [by rewrite put_inode_same|]. assert (Hj := lookup_lt_Some _ _ _ Hh).
    rewrite put_inode_other by (done || lia). rewrite Hat by lia. by apply I.
  - intros j h [[-> ->]|[Hne Hh]]%Hsplit; [exact (im_type _ _ _ I i g Hg)|]. exact (im_type _ _ _ I j h Hh).
  - intros m Hm Hfree. rewrite length_insert in Hfree. change NINODES with 200 in Hm. rewrite put_inode_other by (done || lia). rewrite Hat by lia. by apply I.
  - rewrite put_inode_block, Hmeta by lia. apply I.
  - intros b Hb. rewrite put_inode_block, Hmeta by lia. by apply (im_log _ _ _ I).
  - intros j k h h' b [[-> ->]|[Hj Hh]]%Hsplit [[-> ->]|[Hk Hh']]%Hsplit Hjk Hb Hb'; [done| | |by apply (im_apart _ _ _ I j k h h' b)].
    + destruct (ap_mine _ _ _ _ _ _ _ _ _ _ _ _ A b Hb) as [Hold|Hnew]; [by apply (im_apart _ _ _ I i k g h' b Hg Hh')|].
      assert (Hr := image_range _ _ _ _ _ b I Hh' Hb'). lia.
    + destruct (ap_mine _ _ _ _ _ _ _ _ _ _ _ _ A b Hb') as [Hold|Hnew]; [by apply (im_apart _ _ _ I j i h g b Hh Hg)|].
      assert (Hr := image_range _ _ _ _ _ b I Hh Hb). lia.
Qed.

(** ** Making and filling files *)

(** What the image is meant to have: type and bytes of each file. *)
Definition what (g : gfile) : Z * list Z := (g_type g, g_bytes g).
Definition made (v : contents) (fb : Z) (A : list (Z * list Z)) : Prop := exists G, image v fb G /\ what <$> G = A.

Definition size_need (f : Z * list Z) : nat := need (length f.2).
Definition holds (A : list (Z * list Z)) : Prop :=
  nmeta + Z.of_nat (sum_list_with size_need A) <= FSSIZE /\ (length A < 200)%nat /\
  Forall (fun f => Z.of_nat (length f.2) <= MAXFILE * BSIZE) A.

Lemma sum_what G : sum_list_with gneed G = sum_list_with size_need (what <$> G).
Proof. induction G as [|g G IH]; [done|]. cbn. by rewrite IH. Qed.

Definition append_to (i : nat) (p : list Z) (A : list (Z * list Z)) : list (Z * list Z) := alter (fun f => (f.1, f.2 ++ p)) i A.

(** [iappend] appends. *)
Lemma iappend_ok v fi fb A i p : made v fb A -> (i < length A)%nat -> Forall byte_ok p -> holds (append_to i p A) ->
  exists v' fb', iappend (Z.of_nat i + 1) p (mk_state v fi fb) = Ok tt (mk_state v' fi fb') /\ made v' fb' (append_to i p A).
Proof.
  intros (G & I & HA) Hi Hp (Hsum & _ & Hsz). assert (Hlen : length G = length A) by (by rewrite <- HA, length_fmap).
  destruct (lookup_lt_is_Some_2 G i ltac:(lia)) as [g Hg]. assert (Hw : A !! i = Some (what g)) by (by rewrite <- HA, list_lookup_fmap, Hg).
  assert (EA : append_to i p A = <[i := (g_type g, g_bytes g ++ p)]> A).
  { apply list_eq. intros j. unfold append_to. destruct (decide (j = i)) as [->|Hne].
    - rewrite list_lookup_alter_eq, Hw, list_lookup_insert_eq by done. done.
    - by rewrite list_lookup_alter_ne, list_lookup_insert_ne by done. }
  pose proof (sum_insert size_need A i _ (g_type g, g_bytes g ++ p) Hw) as Hs. rewrite <- EA in Hs.
  change (size_need (what g)) with (need (length (g_bytes g))) in Hs. change (size_need (g_type g, g_bytes g ++ p)) with (need (length (g_bytes g ++ p))) in Hs.
  assert (Hbig : Z.of_nat (length (g_bytes g ++ p)) <= MAXFILE * BSIZE).
  { rewrite Forall_lookup in Hsz. specialize (Hsz i (g_type g, g_bytes g ++ p)). apply Hsz. rewrite EA. by rewrite list_lookup_insert_eq. }
  pose proof (im_count _ _ _ I) as Hfb. rewrite sum_what, HA in Hfb. change (MAXFILE * BSIZE) with 274432 in Hbig.
  destruct (iappend_loop_ok (mk_state v fi fb) (length p) p v fb (gnode (Z.of_nat i + 1) g) (g_ib g) (g_L g) (g_bytes g)) as (v1 & fb1 & x1 & ib1 & L1 & E & A1);
    [done|done|by apply I|apply I|by apply (image_low _ _ _ I)|done|lia|].
  pose proof (ap_count _ _ _ _ _ _ _ _ _ _ _ _ A1) as Hc. assert (Hroom : fb1 <= FSSIZE) by lia.
  assert (I1 := image_update _ _ _ _ _ _ _ _ _ _ _ I Hg Hroom A1). cbn zeta in I1.
  set (g1 := mkg _ ib1 L1 _ _) in I1. exists (put_inode v1 (Z.of_nat i + 1) (gnode (Z.of_nat i + 1) g1)), fb1. split.
  - unfold iappend. rewrite (bind_ok _ _ _ _ _ (rinode_ok _ _ _ _)), (im_inode _ _ _ I i g Hg). cbn [gnode isize]. rewrite length_app in Hbig.
    rewrite xint_id by lia. change (at_st _ v fb) with (mk_state v fi fb) in E. change (at_st _ v1 fb1) with (mk_state v1 fi fb1) in E. fold (gnode (Z.of_nat i + 1) g).
    rewrite (bind_ok _ _ _ _ _ E). cbn [Datatypes.fst Datatypes.snd]. rewrite xint_id by (rewrite length_app; lia). rewrite winode_ok. do 3 f_equal.
    rewrite (ap_rest _ _ _ _ _ _ _ _ _ _ _ _ A1). done.
  - exists (<[i := g1]> G). split; [done|]. rewrite list_fmap_insert, HA, EA. done.
Qed.

(** What fits when more is appended fits before. *)
Definition grows (A A' : list (Z * list Z)) : Prop := forall i t b, A !! i = Some (t, b) -> exists b', A' !! i = Some (t, b ++ b').

Lemma grows_cons f A A' : grows (f :: A) A' -> exists b' A'', A' = (f.1, f.2 ++ b') :: A'' /\ grows A A''.
Proof.
  intros H. destruct f as [t b]. destruct (H 0%nat t b eq_refl) as [b' Hb']. destruct A' as [|f' A'']; [done|]. cbn in Hb'. injection Hb' as ->.
  exists b', A''. split; [done|]. intros i. apply (H (S i)).
Qed.

Lemma holds_grows A A' : grows A A' -> holds A' -> holds A.
Proof.
  intros Hg (Hs & Hl & Hf). change FSSIZE with 2000 in *. assert (H : (sum_list_with size_need A <= sum_list_with size_need A')%nat /\ (length A <= length A')%nat /\
    Forall (fun f => Z.of_nat (length f.2) <= MAXFILE * BSIZE) A).
  { clear Hs Hl. revert A' Hg Hf. induction A as [|f A IH]; intros A' Hg Hf; [split_and!; [cbn; lia|cbn; lia|done]|].
    destruct (grows_cons _ _ _ Hg) as (b' & A'' & -> & Hg'). apply Forall_cons in Hf as [Hf0 Hf]. destruct (IH A'' Hg' Hf) as (H1 & H2 & H3).
    cbn [Datatypes.snd] in Hf0. rewrite length_app in Hf0. assert (Hn := need_mono (length f.2) (length (f.2 ++ b')) ltac:(rewrite length_app; lia)).
    split_and!; [cbn [sum_list_with]; change (size_need f) with (need (length f.2)); change (size_need (f.1, f.2 ++ b')) with (need (length (f.2 ++ b'))); lia|cbn; lia|].
    apply Forall_cons. split; [lia|done]. }
  destruct H as (H1 & H2 & H3). split; [change FSSIZE with 2000; lia|]. split; [lia|done].
Qed.

Lemma append_append i p q A : append_to i q (append_to i p A) = append_to i (p ++ q) A.
Proof. unfold append_to. rewrite list_alter_alter_eq. apply list_alter_ext; [|done]. intros [t b] _. cbn. by rewrite <- app_assoc. Qed.
Lemma grows_append i p A : grows A (append_to i p A).
Proof.
  intros j t b Hj. destruct (decide (j = i)) as [->|Hne]; [exists p|exists []]; unfold append_to.
  - by rewrite list_lookup_alter_eq, Hj.
  - by rewrite list_lookup_alter_ne, app_nil_r.
Qed.
Lemma length_append i p A : length (append_to i p A) = length A.
Proof. apply length_alter. Qed.

Lemma append_pieces_ok i ps : forall v fi fb A, made v fb A -> (i < length A)%nat -> Forall (Forall byte_ok) ps -> holds (append_to i (concat ps) A) ->
  exists v' fb', append_pieces (Z.of_nat i + 1) ps (mk_state v fi fb) = Ok tt (mk_state v' fi fb') /\ made v' fb' (append_to i (concat ps) A).
Proof.
  induction ps as [|p ps IH]; intros v fi fb A HA Hi Hps Hh.
  - exists v, fb. split; [done|]. unfold append_to. rewrite list_alter_id; [done|]. intros [t b]. cbn. by rewrite app_nil_r.
  - apply Forall_cons in Hps as [Hp Hps]. cbn [concat] in *. rewrite <- append_append in *.
    destruct (iappend_ok v fi fb A i p HA Hi Hp) as (v1 & fb1 & E1 & HA1); [eapply holds_grows; [apply grows_append|exact Hh]|].
    destruct (IH v1 fi fb1 _ HA1) as (v' & fb' & E & HA'); [by rewrite length_append|done|done|].
    exists v', fb'. split; [|done]. cbn [append_pieces]. by rewrite (bind_ok _ _ _ _ _ E1).
Qed.

(** ** A new file *)
Definition empty_file (t : Z) : gfile := mkg t [] [] (replicate 13 0) [].

Lemma empty_blocks v fb x : iaddrs x = replicate 13 0 -> file_at v fb x [] [] [].
Proof.
  intros Ea. assert (H0 : forall i, addr_at x i = 0).
  { intros i. unfold addr_at. rewrite Ea. destruct (replicate 13 0 !! Z.to_nat i) as [a|] eqn:E; [|done]. by apply lookup_replicate in E as [-> _]. }
  constructor; [|done|done]. constructor.
  - by rewrite Ea.
  - cbn. lia.
  - intros bn Hbn. unfold fblock, ind. rewrite !H0, lookup_nil. by destruct (bn <? NDIRECT).
  - apply (H0 NDIRECT).
  - done.
  - constructor.
  - intros b Hb. by apply elem_of_nil in Hb.
Qed.

Lemma image_add v fb G t : image v fb G -> 0 < t < 2 ^ 15 -> (length G + 1 < 200)%nat ->
  let n := Z.of_nat (length G) + 1 in image (put_inode v n (gnode n (empty_file t))) fb (G ++ [empty_file t]).
Proof.
  intros I Ht Hl n. pose proof (image_low _ _ _ I) as Hlow. change nmeta with 46 in Hlow. assert (Hn : 0 <= n < 208) by lia.
  assert (Hd : dinode_ok (gnode n (empty_file t))) by (eapply (gnode_ok v fb (gnode n (empty_file t))); [apply I|by apply empty_blocks|done|done]).
  assert (Hout : forall b, b < 32 \/ 45 <= b -> put_inode v n (gnode n (empty_file t)) b = v b) by (intros b Hb; by apply put_inode_block).
  assert (Hsplit : forall j h, (G ++ [empty_file t]) !! j = Some h -> j = length G /\ h = empty_file t \/ (j < length G)%nat /\ G !! j = Some h).
  { intros j h Hj. apply lookup_app_Some in Hj as [Hj|[Hge Hj]]; [right; split; [by eapply lookup_lt_Some|done]|left].
    apply list_lookup_singleton_Some in Hj as [Hj <-]. split; [lia|done]. }
  constructor.
  - rewrite sum_list_with_app. cbn. rewrite Nat.add_0_r. apply I.
  - apply I.
  - rewrite length_app. cbn. lia.
  - intros b Hb. rewrite Hout by lia. by apply (im_fresh _ _ _ I).
  - intros j h [[-> ->]|[Hj Hh]]%Hsplit; [by apply empty_blocks|]. apply (file_at_frame v fb (gnode (Z.of_nat j + 1) h)); [by apply I| |done|done].
    intros b Hb. assert (Hr := image_range _ _ _ _ _ b I Hh Hb). change nmeta with 46 in Hr. apply Hout. lia.
  - intros j h [[-> ->]|[Hj Hh]]%Hsplit; [by rewrite put_inode_same|]. rewrite put_inode_other by (done || lia). by apply I.
  - intros j h [[-> ->]|[Hj Hh]]%Hsplit; [done|]. exact (im_type _ _ _ I j h Hh).
  - intros m Hm Hfree. rewrite length_app in Hfree. cbn in Hfree. change NINODES with 200 in Hm. rewrite put_inode_other by (done || lia). apply I; [done|lia].
  - rewrite Hout by lia. apply I.
  - intros b Hb. rewrite Hout by lia. by apply (im_log _ _ _ I).
  - intros j k h h' b [[-> ->]|[Hj Hh]]%Hsplit [[-> ->]|[Hk Hh']]%Hsplit Hjk Hb Hb'; [done|by apply elem_of_nil in Hb|by apply elem_of_nil in Hb'|].
    by apply (im_apart _ _ _ I j k h h' b).
Qed.

(** [ialloc] *)
Lemma mk_ialloc_ok v fb A t : made v fb A -> 0 < t < 2 ^ 15 -> (length A + 1 < 200)%nat -> let n := Z.of_nat (length A) + 1 in
  exists v', mk_ialloc t (mk_state v n fb) = Ok n (mk_state v' (n + 1) fb) /\ made v' fb (A ++ [(t, [])]).
Proof.
  intros (G & I & HA) Ht Hl n. assert (Hlen : length G = length A) by (by rewrite <- HA, length_fmap).
  assert (I1 := image_add v fb G t I Ht ltac:(lia)). cbn zeta in I1. rewrite Hlen in I1. fold n in I1. eexists. split; [|exists (G ++ [empty_file t]); split; [exact I1|by rewrite fmap_app, HA]].
  unfold mk_ialloc, bind at 1, gets. cbn [freeinode mk_state]. unfold bind at 1, modify. cbn [img freeinode freeblock msb mk_state].
  rewrite u32_small by lia. fold (mk_state v (n + 1) fb). rewrite (bind_ok _ _ _ _ _ (winode_ok _ _ _ _ _)). unfold ret. do 3 f_equal.
  rewrite !xshort_id by lia. done.
Qed.

(** * [main] of mkfs: from the input files to the image *)

(** ** What the image is meant to have *)
Definition input := (list Z * list (list Z))%type.
Definition stored (f : input) : list Z := stored_name (shortname f.1).
Definition data_of (f : input) : list Z := concat f.2.
Definition dots : list Z := dirent 1 [46] ++ dirent 1 [46; 46].
Definition root_entries (files : list input) : list Z := dots ++ concat (imap (fun i f => dirent (Z.of_nat i + 2) (stored f)) files).
Definition listing (files : list input) : list (Z * list Z) := (T_DIR, root_entries files) :: ((fun f => (T_FILE, data_of f)) <$> files).

(** The name has no slash, and names and data are bytes. *)
Record input_ok (f : input) : Prop := {
  in_name : 47 ∉ shortname f.1;
  in_bytes : Forall byte_ok f.1;
  in_data : Forall (Forall byte_ok) f.2
}.

Lemma listing_snoc files f : listing (files ++ [f]) =
  append_to (length files + 1) (data_of f) (append_to 0 (dirent (Z.of_nat (length files) + 2) (stored f)) (listing files ++ [(T_FILE, [])])).
Proof.
  unfold listing, root_entries. rewrite imap_app, concat_app, fmap_app. set (l := (fun f => (T_FILE, data_of f)) <$> files).
  assert (E : length files = length l) by (unfold l; by rewrite length_fmap). rewrite Nat.add_1_r. unfold append_to. cbn. rewrite Nat.add_0_r, app_nil_r, E. f_equal.
  clearbody l. clear E. induction l as [|a l IH]; [done|]. cbn. by rewrite IH.
Qed.

Lemma length_listing files : length (listing files) = S (length files).
Proof. cbn. by rewrite length_fmap. Qed.

Lemma grows_listing files more : grows (listing files) (listing (files ++ more)).
Proof.
  intros [|i] t b Hi; cbn in Hi.
  - injection Hi as <- <-. unfold listing, root_entries. rewrite imap_app, concat_app, app_assoc. eexists. reflexivity.
  - exists []. rewrite app_nil_r. unfold listing. rewrite fmap_app. cbn. by apply lookup_app_l_Some.
Qed.

Lemma stored_bytes f : input_ok f -> Forall byte_ok (stored f).
Proof.
  intros [_ H _]. unfold stored. assert (Hs : Forall byte_ok (shortname f.1)) by (unfold shortname; case_bool_decide; [by apply Forall_drop|done]).
  unfold stored_name. destruct (shortname f.1) as [|c t]; [done|]. apply Forall_cons in Hs as Hs'. destruct (c =? 95); [apply Hs'|done].
Qed.

(** ** The loop over the files *)
Lemma add_file_ok v fb done f : made v fb (listing done) -> input_ok f -> holds (listing (done ++ [f])) ->
  let n := Z.of_nat (length done) + 2 in
  exists v' fb', add_file 1 f (mk_state v n fb) = Ok tt (mk_state v' (n + 1) fb') /\ made v' fb' (listing (done ++ [f])).
Proof.
  intros HA Hf Hh n. unfold add_file. rewrite bool_decide_eq_false_2 by (by apply in_name). pose proof Hh as (_ & Hl & _). rewrite length_listing, length_app in Hl. cbn in Hl.
  destruct (mk_ialloc_ok v fb (listing done) T_FILE HA ltac:(done) ltac:(rewrite length_listing; lia)) as (v1 & E1 & HA1).
  rewrite length_listing in E1. replace (Z.of_nat (S (length done)) + 1) with n in E1 by lia. rewrite (bind_ok _ _ _ _ _ E1). rewrite xshort_id by lia.
  rewrite listing_snoc in Hh |- *. assert (Hlen : length (listing done ++ [(T_FILE, [])]) = (length done + 2)%nat) by (rewrite length_app, length_listing; cbn; lia).
  destruct (iappend_ok v1 (n + 1) fb _ 0 (dirent n (stored f)) HA1 ltac:(lia)) as (v2 & fb2 & E2 & HA2);
    [apply dirent_bytes, stored_bytes, Hf|eapply holds_grows; [apply grows_append|exact Hh]|].
  change (Z.of_nat 0 + 1) with 1 in E2. rewrite (bind_ok _ _ _ _ _ E2).
  destruct (append_pieces_ok (length done + 1) f.2 v2 (n + 1) fb2 _ HA2) as (v3 & fb3 & E3 & HA3); [rewrite length_append, Hlen; lia|apply Hf|exact Hh|].
  replace (Z.of_nat (length done + 1) + 1) with n in E3 by lia. exists v3, fb3. split; [exact E3|exact HA3].
Qed.

Lemma add_files_ok files : forall v fb done, made v fb (listing done) -> Forall input_ok files -> holds (listing (done ++ files)) ->
  exists v' fb', add_files 1 files (mk_state v (Z.of_nat (length done) + 2) fb) = Ok tt (mk_state v' (Z.of_nat (length (done ++ files)) + 2) fb') /\
    made v' fb' (listing (done ++ files)).
Proof.
  induction files as [|f files IH]; intros v fb done HA Hf Hh; [rewrite app_nil_r; by exists v, fb|]. apply Forall_cons in Hf as [Hf Hfs].
  rewrite cons_middle, app_assoc in Hh |- *.
  destruct (add_file_ok v fb done f HA Hf) as (v1 & fb1 & E1 & HA1); [eapply holds_grows; [apply grows_listing|exact Hh]|].
  destruct (IH v1 fb1 (done ++ [f]) HA1 Hfs Hh) as (v' & fb' & E & HA'). exists v', fb'. split; [|done]. cbn [add_files]. rewrite (bind_ok _ _ _ _ _ E1).
  replace (Z.of_nat (length (done ++ [f])) + 2) with (Z.of_nat (length done) + 2 + 1) in E by (rewrite length_app; cbn; lia). exact E.
Qed.

(** ** The empty image *)
Abbreviation zeroes := (memset ∅ 0 0 BSIZE).

Lemma zeroes_zero : zero_block zeroes.
Proof. intros i Hi. rewrite memset_spec by done. by destruct (inrange 0 BSIZE i). Qed.

Lemma zero_loop fi fb n : forall i v, exists v', forz n i (fun k => wsect k zeroes) (mk_state v fi fb) = Ok tt (mk_state v' fi fb) /\
  forall b, v' b = if inrange i (Z.of_nat n) b then zeroes else v b.
Proof.
  induction n as [|n IH]; intros i v.
  - exists v. split; [done|]. intros b. destruct (inrange i (Z.of_nat 0) b) eqn:E; [apply inrange_true in E; lia|done].
  - destruct (IH (i + 1) (setv i zeroes v)) as (v' & E & Hv). exists v'. split; [exact E|]. intros b. rewrite Hv.
    destruct (inrange (i + 1) (Z.of_nat n) b) eqn:E1, (inrange i (Z.of_nat (S n)) b) eqn:E2; try done;
      rewrite ?inrange_true in E1; rewrite ?inrange_true in E2; rewrite ?inrange_false in E1; rewrite ?inrange_false in E2; [lia| |].
    + assert (b = i) as -> by lia. apply setv_eq.
    + apply setv_ne. lia.
Qed.

Lemma lds16_zero d o : zero_block d -> 0 <= o -> o + 2 <= BSIZE -> lds16 d o = 0.
Proof. intros Hz H1 H2. unfold lds16. rewrite ldn_zero; [done|]. intros i Hi. apply Hz. lia. Qed.

Lemma zero_inode v n : zero_block (v (IBLOCK n mk_sb)) -> inode_at v n = no_file n.
Proof.
  intros Hz. unfold inode_at, get_dinode, no_file. cbn [inum no_inode idev iref ilk ivalid]. unfold dip. change IPB with 16.
  pose proof (Z.mod_pos_bound n 16 ltac:(done)). assert (Hw : forall o, 0 <= o -> o + 4 <= 1024 -> ldw (v (IBLOCK n mk_sb)) o = 0) by (intros; by apply ldw_zero).
  rewrite !(lds16_zero _ _ Hz) by (change BSIZE with 1024; lia). rewrite Hw by lia. f_equal.
  transitivity (map (fun _ => 0) (seq 0 13)); [|done]. apply map_ext_in. intros i Hi. apply in_seq in Hi. apply Hw; lia.
Qed.

Lemma empty_image v : (forall b, 0 <= b < FSSIZE -> v b = zeroes) -> made (setv 1 (sb_block mk_sb) v) nmeta [].
Proof.
  intros Hv. change FSSIZE with 2000 in Hv. exists []. split; [|done]. constructor; try done.
  - cbn. lia.
  - intros b Hb. change nmeta with 46 in Hb. change FSSIZE with 2000 in Hb. rewrite setv_ne, Hv by lia. apply zeroes_zero.
  - intros n Hn _. change NINODES with 200 in Hn. apply zero_inode. destruct (IBLOCK_mk n ltac:(lia)). rewrite setv_ne, Hv by lia. apply zeroes_zero.
  - intros b Hb. rewrite setv_ne, Hv by lia. apply zeroes_zero.
Qed.

(** ** The free map *)
Lemma mark_used_bits n : forall i d b, 0 <= i -> 0 <= b -> bit_used (mark_used n i d) b = inrange i (Z.of_nat n) b || bit_used d b.
Proof.
  induction n as [|n IH]; intros i d b Hi Hb; cbn [mark_used].
  - destruct (inrange i (Z.of_nat 0) b) eqn:E; [apply inrange_true in E; lia|done].
  - rewrite IH by lia. change (st8 d _ _) with (mark d i). rewrite bit_used_mark.
    destruct (inrange (i + 1) (Z.of_nat n) b) eqn:E1, (inrange i (Z.of_nat (S n)) b) eqn:E2, (Z.eqb_spec i b); try done;
      rewrite ?inrange_true in E1; rewrite ?inrange_true in E2; rewrite ?inrange_false in E1; rewrite ?inrange_false in E2; lia.
Qed.

Lemma map_used v n b : 0 <= n -> 0 <= b < FSSIZE -> used mk_sb (setv 45 (mark_used (Z.to_nat n) 0 zeroes) v) b = (b <? n).
Proof.
  intros Hn Hb. change FSSIZE with 2000 in Hb. unfold used. change BPB with 8192. rewrite Z.mod_small by lia.
  assert (E : BBLOCK b mk_sb = 45). { unfold BBLOCK. change BPB with 8192. rewrite Z.div_small by lia. done. }
  rewrite E, setv_eq, mark_used_bits by lia. rewrite bit_used_testbit.
  assert (Hz : ld8 zeroes (b / 8) = 0). { apply zeroes_zero. change BSIZE with 1024. split; [apply Z.div_pos; lia|apply Z.div_lt_upper_bound; lia]. }
  rewrite Hz, Z.bits_0, orb_false_r. destruct (inrange 0 _ b) eqn:Ei; [apply inrange_true in Ei|apply inrange_false in Ei]; symmetry; [apply Z.ltb_lt|apply Z.ltb_ge]; lia.
Qed.

(** ** The end of [main] *)

(** The directory is given whole blocks. *)
Definition image_size (i : nat) (bytes : list Z) : Z :=
  if (i =? 0)%nat then (Z.of_nat (length bytes) / BSIZE + 1) * BSIZE else Z.of_nat (length bytes).

Record on_disk (v : contents) (fb n t size : Z) (bytes ib L : list Z) : Prop := {
  ds_type : itype (inode_at v n) = t;
  ds_link : inlink (inode_at v n) = 1;
  ds_size : isize (inode_at v n) = size;
  ds_file : file_at v fb (inode_at v n) ib L bytes;
  ds_short : dinode_ok (inode_at v n)
}.

Record finished (v : contents) (fb : Z) (files : list input) (blocks : list (list Z * list Z)) : Prop := {
  fi_super : v 1 = sb_block mk_sb;
  fi_log : forall b, 2 <= b < 32 -> zero_block (v b);
  fi_used : forall b, 0 <= b < FSSIZE -> used mk_sb v b = (b <? fb);
  fi_count : fb = nmeta + Z.of_nat (sum_list_with size_need (listing files));
  fi_room : fb <= FSSIZE;
  fi_few : (length files + 1 < 200)%nat;
  fi_file : forall i t bytes, listing files !! i = Some (t, bytes) ->
    exists ib L, blocks !! i = Some (ib, L) /\ on_disk v fb (Z.of_nat i + 1) t (image_size i bytes) bytes ib L;
  fi_blocks : concat ((fun p => p.1 ++ p.2) <$> blocks) ≡ₚ seqZ nmeta (fb - nmeta);
  fi_free : forall n, 0 <= n < NINODES -> n = 0 \/ Z.of_nat (length files) + 1 < n -> itype (inode_at v n) = 0
}.

Definition pairs (G : list gfile) : list (list Z * list Z) := (fun g => (g_ib g, g_L g)) <$> G.

Section Concat.
Context {A : Type} (f : A -> list Z).

Lemma elem_of_concat_fmap l b : b ∈ concat (f <$> l) <-> exists i x, l !! i = Some x /\ b ∈ f x.
Proof.
  induction l as [|a l IH]; cbn.
  - split; [intros H; by apply elem_of_nil in H|intros (i & x & H & _); by rewrite lookup_nil in H].
  - rewrite elem_of_app, IH. split.
    + intros [H|(i & x & H & Hb)]; [by exists 0%nat, a|by exists (S i), x].
    + intros ([|i] & x & H & Hb); [injection H as ->; by left|right; by exists i, x].
Qed.

Lemma NoDup_concat_fmap l : (forall i x, l !! i = Some x -> NoDup (f x)) ->
  (forall i j x y b, l !! i = Some x -> l !! j = Some y -> i <> j -> b ∈ f x -> b ∉ f y) -> NoDup (concat (f <$> l)).
Proof.
  induction l as [|a l IH]; intros Hn Hd; cbn; [constructor|]. apply NoDup_app. split; [by apply (Hn 0%nat)|]. split.
  - intros b Hb (i & x & Hx & Hb')%elem_of_concat_fmap. by apply (Hd 0%nat (S i) a x b).
  - apply IH; [intros i; apply (Hn (S i))|]. intros i j x y b Hx Hy Hij. apply (Hd (S i) (S j)); [done|done|lia].
Qed.

Lemma length_concat_fmap l : length (concat (f <$> l)) = sum_list_with (fun x => length (f x)) l.
Proof. induction l as [|a l IH]; [done|]. cbn. by rewrite length_app, IH. Qed.
End Concat.

(** Every block that was handed out belongs to one file. *)
Lemma blocks_perm v fb G : image v fb G -> concat ((fun p => p.1 ++ p.2) <$> pairs G) ≡ₚ seqZ nmeta (fb - nmeta).
Proof.
  intros I. unfold pairs. rewrite <- list_fmap_compose. change (_ <$> G) with (gblocks <$> G). pose proof (image_low _ _ _ I) as Hlow.
  apply submseteq_length_Permutation; [apply NoDup_submseteq|].
  - apply NoDup_concat_fmap; [intros i g Hg; exact (hb_nodup _ _ _ _ _ (fa_blocks _ _ _ _ _ _ (im_file _ _ _ I i g Hg)))|apply I].
  - intros b (i & g & Hg & Hb)%elem_of_concat_fmap. assert (Hr := image_range _ _ _ _ _ b I Hg Hb). apply elem_of_seqZ. lia.
  - rewrite length_seqZ, length_concat_fmap. apply Nat.eq_le_incl. rewrite (im_count _ _ _ I). replace (nmeta + _ - nmeta) with (Z.of_nat (sum_list_with gneed G)) by lia.
    rewrite Nat2Z.id. pose proof (im_file _ _ _ I) as Hf. clear - Hf. revert v fb Hf.
    assert (H : forall l, (forall g, g ∈ l -> length (gblocks g) = gneed g) -> sum_list_with gneed l = sum_list_with (fun g => length (gblocks g)) l).
    { induction l as [|g l IH]; intros Hl; [done|]. cbn. rewrite IH by (intros; apply Hl; set_solver). rewrite Hl by set_solver. done. }
    intros v fb Hf. apply H. intros g (i & Hg)%list_elem_of_lookup_1. by eapply blocks_need, Hf.
Qed.

(** The last steps: the size of the directory and the free map. *)
Section Finish.
Context (v : contents) (fb : Z) (G : list gfile) (g0 : gfile) (files : list input).
Hypothesis (I : image v fb G) (HA : what <$> G = listing files) (Hg0 : G !! 0%nat = Some g0) (Hlen : Z.of_nat (length (g_bytes g0)) <= 274432).
Abbreviation root_inode := (set_isize (image_size 0 (g_bytes g0)) (gnode 1 g0)).
Abbreviation final := (setv 45 (mark_used (Z.to_nat fb) 0 zeroes) (put_inode v 1 root_inode)).

Lemma root_size : 0 <= image_size 0 (g_bytes g0) < 2 ^ 31.
Proof using Hlen.
  unfold image_size. cbn [Nat.eqb]. change BSIZE with 1024. pose proof (Z.div_mod (Z.of_nat (length (g_bytes g0))) 1024 ltac:(done)).
  pose proof (Z.mod_pos_bound (Z.of_nat (length (g_bytes g0))) 1024 ltac:(done)). lia.
Qed.

Lemma file_short i g : G !! i = Some g -> dinode_ok (gnode (Z.of_nat i + 1) g).
Proof using I. intros Hg. eapply gnode_ok; [apply I|by apply I|done|exact (im_type _ _ _ I i g Hg)]. Qed.

Lemma root_short : dinode_ok root_inode.
Proof using I Hg0 Hlen.
  destruct (file_short 0 g0 Hg0) as [H1 H2 H3 H4]. constructor; [exact H1| |exact H3|exact H4]. pose proof root_size. cbn [set_isize isize]. lia.
Qed.

Lemma final_data b : 46 <= b -> final b = v b.
Proof. intros Hb. rewrite setv_ne by lia. apply put_inode_block; lia. Qed.

Lemma final_inode n : 0 <= n < 208 -> inode_at final n = if n =? 1 then root_inode else inode_at v n.
Proof using I Hg0 Hlen.
  intros Hn. assert (E : inode_at final n = inode_at (put_inode v 1 root_inode) n) by (unfold inode_at; rewrite setv_ne; [done|]; destruct (IBLOCK_mk n Hn); lia).
  rewrite E. destruct (Z.eqb_spec n 1) as [->|Hne]; [by rewrite put_inode_same by (done || apply root_short)|]. by rewrite put_inode_other by (done || apply root_short).
Qed.

Lemma final_file i g : G !! i = Some g -> on_disk final fb (Z.of_nat i + 1) (g_type g) (image_size i (g_bytes g)) (g_bytes g) (g_ib g) (g_L g).
Proof using I Hg0 Hlen.
  intros Hg. assert (Hi := lookup_lt_Some _ _ _ Hg). pose proof (im_inodes _ _ _ I).
  assert (E : inode_at final (Z.of_nat i + 1) = set_isize (image_size i (g_bytes g)) (gnode (Z.of_nat i + 1) g)).
  { rewrite final_inode by lia. destruct (Z.eqb_spec (Z.of_nat i + 1) 1) as [E|E].
    - assert (i = 0%nat) as -> by lia. assert (g = g0) as -> by congruence. done.
    - rewrite (im_inode _ _ _ I i g Hg). destruct i; [done|done]. }
  constructor; rewrite E; try done.
  - apply (file_at_frame v fb (gnode (Z.of_nat i + 1) g)); [by apply I| |done|done]. intros b Hb. assert (Hr := image_range _ _ _ _ _ b I Hg Hb). change nmeta with 46 in Hr. apply final_data. lia.
  - rewrite <- E, final_inode by lia. destruct (Z.eqb_spec (Z.of_nat i + 1) 1); [apply root_short|]. rewrite (im_inode _ _ _ I i g Hg). by apply file_short.
Qed.

Lemma final_finished : finished final fb files (pairs G).
Proof using All.
  pose proof (image_low _ _ _ I) as Hlow. assert (Hn : length G = S (length files)) by (by rewrite <- (length_fmap what), HA, length_listing). constructor.
  - rewrite setv_ne, put_inode_block by lia. apply I.
  - intros b Hb. rewrite setv_ne, put_inode_block by lia. by apply (im_log _ _ _ I).
  - intros b Hb. apply map_used; [|done]. change nmeta with 46 in Hlow. lia.
  - rewrite (im_count _ _ _ I), sum_what, HA. done.
  - apply I.
  - pose proof (im_inodes _ _ _ I). lia.
  - intros i t bytes Hi. rewrite <- HA, list_lookup_fmap in Hi. destruct (G !! i) as [g|] eqn:Hg; [|done]. injection Hi as <- <-.
    exists (g_ib g), (g_L g). split; [unfold pairs; by rewrite list_lookup_fmap, Hg|by apply final_file].
  - by apply (blocks_perm v).
  - intros n Hm Hfree. change NINODES with 200 in Hm. rewrite final_inode by lia. rewrite (proj2 (Z.eqb_neq n 1)) by lia. rewrite (im_free _ _ _ I); [done|done|lia].
Qed.
End Finish.

Lemma finish_ok v fi fb files : made v fb (listing files) -> holds (listing files) ->
  exists v' blocks, (do! din <- rinode 1;
    let off := (xint (isize din) / BSIZE + 1) * BSIZE in
    winode 1 (set_isize (xint off) din) ;;
    do! fb <- gets freeblock;
    mk_balloc fb) (mk_state v fi fb) = Ok tt (mk_state v' fi fb) /\ finished v' fb files blocks.
Proof.
  intros (G & I & HA) (_ & _ & Hf). destruct G as [|g0 G']; [done|]. set (G := g0 :: G') in *. assert (Hg0 : G !! 0%nat = Some g0) by done.
  apply Forall_cons in Hf as [Hf _]. assert (Hw : g_bytes g0 = root_entries files) by (by injection HA). cbn [Datatypes.snd] in Hf. rewrite <- Hw in Hf. change (MAXFILE * BSIZE) with 274432 in Hf.
  assert (Hlen : Z.of_nat (length (g_bytes g0)) <= 274432) by lia. pose proof (root_size g0 Hlen) as Hs. pose proof (im_room _ _ _ I) as Hroom. change FSSIZE with 2000 in Hroom.
  eexists _, (pairs G). split; [|by apply (final_finished v fb G g0 files I HA Hg0 Hlen)].
  rewrite (bind_ok _ _ _ _ _ (rinode_ok _ _ _ _)). pose proof (im_inode _ _ _ I 0%nat g0 Hg0) as Ein. change (Z.of_nat 0 + 1) with 1 in Ein. rewrite Ein. cbn [gnode isize].
  rewrite (xint_id (Z.of_nat _)) by lia. change ((Z.of_nat (length (g_bytes g0)) / BSIZE + 1) * BSIZE) with (image_size 0 (g_bytes g0)). cbn zeta. rewrite (xint_id (image_size _ _)) by lia.
  rewrite (bind_ok _ _ _ _ _ (winode_ok _ _ _ _ _)). unfold bind at 1, gets. cbn [freeblock mk_state]. unfold mk_balloc. change (BSIZE * 8) with 8192.
  rewrite (proj2 (Z.ltb_lt _ _)) by lia. reflexivity.
Qed.

(** ** [main] *)
Lemma mkfs_ok files s : Forall input_ok files -> holds (listing files) ->
  exists v fi fb blocks, mkfs files s = Ok tt (mk_state v fi fb) /\ finished v fb files blocks.
Proof.
  intros Hf Hh. unfold mkfs. unfold bind at 1, modify. fold (mk_state (img s) 1 nmeta).
  destruct (zero_loop 1 nmeta (Z.to_nat FSSIZE) 0 (img s)) as (v0 & E0 & Hv0). rewrite (bind_ok _ _ _ _ _ E0).
  assert (H0 := empty_image v0 ltac:(intros b Hb; rewrite Hv0; by rewrite (proj2 (inrange_true _ _ _)))).
  unfold bind at 1, wsect at 1, modify. cbn [img freeinode freeblock msb mk_state]. fold (mk_state (setv 1 (sb_block mk_sb) v0) 1 nmeta).
  destruct (mk_ialloc_ok _ _ [] T_DIR H0 ltac:(done) ltac:(cbn; lia)) as (v1 & E1 & H1).
  cbn [length] in E1. change (Z.of_nat 0 + 1) with 1 in E1.
  rewrite (bind_ok _ _ _ _ _ E1). change (negb (1 =? ROOTINO)) with false. cbn match. change (xshort 1) with 1.
  assert (Hdots : holds (listing [])) by (eapply holds_grows; [apply (grows_listing [] files)|exact Hh]).
  destruct (iappend_ok v1 (1 + 1) nmeta _ 0 (dirent 1 [46]) H1 ltac:(cbn; lia)) as (v2 & fb2 & E2 & H2).
  { apply dirent_bytes. apply Forall_singleton. done. }
  { eapply holds_grows; [apply (grows_append 0 (dirent 1 [46; 46]))|]. exact Hdots. }
  change (Z.of_nat 0 + 1) with 1 in E2. rewrite (bind_ok _ _ _ _ _ E2).
  destruct (iappend_ok v2 (1 + 1) fb2 _ 0 (dirent 1 [46; 46]) H2 ltac:(cbn; lia)) as (v3 & fb3 & E3 & H3).
  { apply dirent_bytes. repeat (apply Forall_cons; split; [done|]). constructor. }
  { exact Hdots. }
  change (Z.of_nat 0 + 1) with 1 in E3. rewrite (bind_ok _ _ _ _ _ E3).
  destruct (add_files_ok files v3 fb3 [] H3 Hf Hh) as (v4 & fb4 & E4 & H4). change (Z.of_nat (length []) + 2) with (1 + 1) in E4. rewrite (bind_ok _ _ _ _ _ E4).
  destruct (finish_ok v4 (Z.of_nat (length ([] ++ files)) + 2) fb4 files H4 Hh) as (v5 & blocks & E5 & H5). eauto 10.
Qed.
