(* ===== verification/MkfsSpec.v ===== *)
(** * What mkfs promises to the kernel

    The files of the image, and that the kernel finds them when it boots on
    it. *)

From S2P Require Import Prelude Riscv Mem Lock Kalloc VmInv Bio BioSpec Log LogSpec LogCommit LogCrash LogOps Transactions.
From S2P Require Import UserIO Pipe PipeSpec Blocks LogBlocks Fs FsBlocks FsFiles FsMap FsContents FsWrite FsInode FsSpec FsDir.
From S2P Require Import Mkfs MkfsInv MkfsImage.
From S2P Require Import FsTable FsPath.
Import KString.
Local Open Scope Z_scope.

(** ** Bytes *)
Section Bytes.
Context {v : contents} {fb : Z} {x : inode} {ib L bytes : list Z} (Hf : file_at v fb x ib L bytes).

Lemma mapped_block o : 0 <= o < BSIZE * Z.of_nat (parts (length bytes)) ->
  exists c, L !! Z.to_nat (o / BSIZE) = Some c /\ fblock v x (o / BSIZE) = c /\ 0 <= o / BSIZE < MAXFILE.
Proof using Hf.
  intros Ho. pose proof (fa_blocks _ _ _ _ _ _ Hf) as Hb. pose proof (hb_max _ _ _ _ _ Hb) as Hm. rewrite <- (fa_len _ _ _ _ _ _ Hf) in Ho.
  change BSIZE with 1024 in *. pose proof (Z.div_mod o 1024 ltac:(done)). pose proof (Z.mod_pos_bound o 1024 ltac:(done)).
  destruct (lookup_lt_is_Some_2 L (Z.to_nat (o / 1024))) as [c Hc]; [lia|]. assert (Hr : 0 <= o / 1024 < MAXFILE) by (change MAXFILE with 268; lia).
  exists c. split; [done|]. split; [|done]. rewrite (hb_map _ _ _ _ _ Hb _ Hr), Hc. done.
Qed.

Lemma mapped_byte o : 0 <= o < BSIZE * Z.of_nat (parts (length bytes)) -> fbyte v x o = default 0 (bytes !! Z.to_nat o).
Proof using Hf.
  intros Ho. destruct (mapped_block o Ho) as (c & Hc & E & Hr). unfold fbyte. rewrite E. rewrite (fa_bytes _ _ _ _ _ _ Hf _ c (o mod BSIZE) Hc).
  - do 2 f_equal. rewrite Z2Nat.id by lia. f_equal. symmetry. by apply Z.div_mod.
  - by apply Z.mod_pos_bound.
Qed.

Lemma file_at_bytes off n : (off + n <= length bytes)%nat -> file_bytes v x (Z.of_nat off) n = take n (drop off bytes).
Proof using Hf.
  intros Hn. pose proof (parts_spec (length bytes)) as Hp. apply list_eq. intros i. destruct (decide (i < n)%nat) as [Hi|Hi].
  - rewrite file_bytes_lookup by done. rewrite mapped_byte by lia. rewrite lookup_take_lt, lookup_drop by done.
    replace (Z.to_nat (Z.of_nat off + Z.of_nat i)) with (off + i)%nat by lia. destruct (lookup_lt_is_Some_2 bytes (off + i)) as [b Hb]; [lia|]. by rewrite Hb.
  - rewrite !lookup_ge_None_2; [done|rewrite length_take, length_drop; lia|rewrite length_file_bytes; lia].
Qed.
End Bytes.

(** C16.  mkfs makes the file system it is asked for: when the files fit and
    their names have no slash, it ends with an image that has the super block,
    an empty log, a root directory with one entry for each file, and for each
    file an inode of the right type, link count and size whose blocks contain
    exactly the input; the blocks marked used are the metadata and the blocks
    of the files, each of which belongs to one file only, and the other inodes
    are free. *)
Theorem mkfs_image files s : Forall input_ok files -> holds (listing files) ->
  exists s' blocks, mkfs files s = Ok tt s' /\ finished (img s') (freeblock s') files blocks /\
    forall i t bytes, listing files !! i = Some (t, bytes) ->
      file_bytes (img s') (inode_at (img s') (Z.of_nat i + 1)) 0 (length bytes) = bytes.
Proof.
  intros Hf Hh. destruct (mkfs_ok files s Hf Hh) as (v & fi & fb & blocks & E & Hfin). exists (mk_state v fi fb), blocks. split; [exact E|]. split; [exact Hfin|].
  intros i t bytes Hi. destruct (fi_file _ _ _ _ Hfin i t bytes Hi) as (ib & L & _ & Ho). change 0 with (Z.of_nat 0).
  erewrite file_at_bytes by (apply Ho || lia). rewrite drop_0. by rewrite take_ge.
Qed.

(** "user/_sh" with two pieces of data. *)
Definition demo_files : list input := [([117; 115; 101; 114; 47; 95; 115; 104], [[1; 2]; [3]])].
Lemma demo_input : Forall input_ok demo_files.
Proof.
  apply Forall_singleton. constructor.
  - apply (bool_decide_unpack _). vm_compute. exact Logic.I.
  - repeat (apply Forall_cons; split; [done|]). constructor.
  - repeat (apply Forall_cons; split; [repeat (apply Forall_cons; split; [done|]); constructor|]). constructor.
Qed.
Lemma demo_holds : holds (listing demo_files).
Proof. split; [vm_compute; discriminate|]. split; [vm_compute; lia|]. repeat (apply Forall_cons; split; [vm_compute; discriminate|]). constructor. Qed.

Lemma mkfs_image_witness : exists s' blocks, mkfs demo_files (mkmkst (fun _ => ∅) 1 0 mk_sb) = Ok tt s' /\ finished (img s') (freeblock s') demo_files blocks /\
  file_bytes (img s') (inode_at (img s') 2) 0 3 = [1; 2; 3].
Proof.
  destruct (mkfs_image demo_files (mkmkst (fun _ => ∅) 1 0 mk_sb) demo_input demo_holds) as (s' & blocks & E & Hfin & Hb).
  exists s', blocks. split; [exact E|]. split; [exact Hfin|]. exact (Hb 1%nat T_FILE [1; 2; 3] eq_refl).
Defined.

(** ** The image as the kernel sees it *)

(** Inode [n], in memory. *)
Definition loaded_inode (v : contents) (n : Z) : inode := get_dinode (v (IBLOCK n mk_sb)) (mkinode 1 n 1 None true 0 0 0 0 0 []).

(** The entries of the root directory. *)
Definition root_list (files : list input) : list (list Z) :=
  dirent 1 [46] :: dirent 1 [46; 46] :: imap (fun i f => dirent (Z.of_nat i + 2) (stored f)) files.

Lemma root_concat files : concat (root_list files) = root_entries files.
Proof. unfold root_list, root_entries, dots. cbn [concat]. by rewrite app_assoc. Qed.
Lemma root_list_16 files : Forall (fun e => length e = 16%nat) (root_list files).
Proof.
  assert (H : forall n nm, length (dirent n nm) = 16%nat) by (intros n nm; unfold dirent; rewrite length_app, length_name_copy; done).
  apply Forall_cons. split; [apply H|]. apply Forall_cons. split; [apply H|]. apply Forall_lookup. intros i e Hi. rewrite list_lookup_imap in Hi.
  destruct (files !! i); [|done]. injection Hi as <-. apply H.
Qed.
Lemma length_root_list files : length (root_list files) = (length files + 2)%nat.
Proof. cbn. rewrite length_imap. lia. Qed.

Lemma concat_16 (l : list (list Z)) : Forall (fun e => length e = 16%nat) l -> length (concat l) = (16 * length l)%nat.
Proof. induction 1 as [|e l He _ IH]; [done|]. cbn [concat length]. rewrite length_app, He, IH. lia. Qed.
Lemma concat_chunk (l : list (list Z)) : Forall (fun e => length e = 16%nat) l -> forall j e, l !! j = Some e -> take 16 (drop (16 * j) (concat l)) = e.
Proof.
  induction 1 as [|e0 l He _ IH]; intros j e Hj; [done|]. cbn [concat]. destruct j as [|j].
  - injection Hj as ->. rewrite Nat.mul_0_r, drop_0. apply take_app_length'. by rewrite He.
  - rewrite drop_app_ge by lia. replace (16 * S j - length e0)%nat with (16 * j)%nat by lia. by apply IH.
Qed.

Section Kernel.
Context {S : Type} {HB : Blocks S} (Hdev : fsdev = 1) (Hfs : forall b, 32 <= b < 2000 -> fsblock b).
Context {v : contents} {fb : Z} {files : list input} {blocks : list (list Z * list Z)} (Hfin : finished v fb files blocks).
Context {v' : contents} (Hsame : forall b, 32 <= b < 2000 -> v' b = v b).

Lemma image_disk_ok : disk_ok mk_sb.
Proof using Hfs. constructor; [|done]. constructor; [done|done|done|done|exact Hfs]. Qed.

Lemma used_same b : 0 <= b < 2000 -> used mk_sb v' b = (b <? fb).
Proof using Hfin Hsame.
  intros Hb. rewrite <- (fi_used _ _ _ _ Hfin b Hb). unfold used. rewrite Hsame; [done|]. unfold BBLOCK. change BPB with 8192. rewrite Z.div_small by lia. done.
Qed.

Lemma fb_range : 46 <= fb <= 2000.
Proof using Hfin. pose proof (fi_count _ _ _ _ Hfin). pose proof (fi_room _ _ _ _ Hfin). change nmeta with 46 in *. change FSSIZE with 2000 in *. lia. Qed.

Lemma image_meta : meta_used mk_sb v'.
Proof using Hfin Hsame.
  intros b Hb Hu. change (0 <= b < 2000) in Hb. rewrite used_same in Hu by done. apply Z.ltb_ge in Hu. pose proof fb_range. change (46 <= b < 2000). lia.
Qed.

Section One.
Context {i : nat} {t : Z} {bytes : list Z} (Hi : listing files !! i = Some (t, bytes)).
Abbreviation n := (Z.of_nat i + 1).
Abbreviation x := (loaded_inode v' n).

Lemma few_inodes : 0 <= n < 200.
Proof using Hfin Hi. assert (Hl := lookup_lt_Some _ _ _ Hi). rewrite length_listing in Hl. pose proof (fi_few _ _ _ _ Hfin). lia. Qed.

Lemma loaded_fields : itype x = itype (inode_at v n) /\ inlink x = inlink (inode_at v n) /\ isize x = isize (inode_at v n) /\ iaddrs x = iaddrs (inode_at v n) /\
  imajor x = imajor (inode_at v n) /\ iminor x = iminor (inode_at v n).
Proof using Hfin Hi Hsame. pose proof few_inodes. unfold loaded_inode, inode_at. rewrite Hsame; [done|]. destruct (IBLOCK_mk n ltac:(lia)). lia. Qed.

Lemma image_file_at : exists ib L, file_at v' fb x ib L bytes.
Proof using Hfin Hi Hsame.
  destruct (fi_file _ _ _ _ Hfin i t bytes Hi) as (ib & L & _ & Ho). exists ib, L. apply (file_at_frame v fb (inode_at v n)); [apply Ho| |done|apply loaded_fields].
  intros b Hb. assert (Hr := hb_range _ _ _ _ _ (fa_blocks _ _ _ _ _ _ (ds_file _ _ _ _ _ _ _ _ Ho)) b Hb). pose proof fb_range. change nmeta with 46 in Hr. apply Hsame. lia.
Qed.

Lemma image_inode_ok : inode_ok mk_sb v' x.
Proof using Hfin Hi Hsame Hdev Hfs.
  destruct image_file_at as (ib & L & [Hb _ _]). pose proof fb_range as Hfb.
  assert (Hown : forall b, b ∈ ib ++ L -> data_block mk_sb b /\ used mk_sb v' b = true).
  { intros b Hin. assert (Hr := hb_range _ _ _ _ _ Hb b Hin). change nmeta with 46 in Hr. split; [change (46 <= b < 2000); lia|]. rewrite used_same by lia. apply Z.ltb_lt. lia. }
  assert (Hmap : forall bn, 0 <= bn < MAXFILE -> fblock v' x bn <> 0 -> L !! Z.to_nat bn = Some (fblock v' x bn)).
  { intros bn Hbn Hne. rewrite (hb_map _ _ _ _ _ Hb bn Hbn) in *. destruct (L !! Z.to_nat bn); [done|]. done. }
  assert (Hind : ind x <> 0 -> ind x ∈ ib) by (rewrite (hb_ind _ _ _ _ _ Hb); destruct ib as [|c ib]; [done|intros _; apply elem_of_cons; by left]).
  pose proof (hb_nodup _ _ _ _ _ Hb) as (_ & Hnd & HndL)%NoDup_app. constructor.
  - apply Hb.
  - by rewrite Hdev.
  - intros Hne. apply Hown. apply elem_of_app. left. by apply Hind.
  - intros bn Hbn Hne. pose proof (list_elem_of_lookup_2 _ _ _ (Hmap bn Hbn Hne)) as HinL. destruct (Hown (fblock v' x bn)) as [H1 H2]; [set_solver|]. split; [done|]. split; [done|].
    intros E. apply (Hnd (ind x)); [apply Hind; congruence|by rewrite <- E].
  - intros bn bn' Hbn Hbn' Hne E. pose proof (Hmap bn Hbn Hne) as H1. pose proof (Hmap bn' Hbn' ltac:(congruence)) as H2. rewrite <- E in H2.
    pose proof (NoDup_lookup _ _ _ _ HndL H1 H2). lia.
Qed.

(** The whole file is there, unless the size was rounded up to a block it
    does not have. *)
Lemma image_file_ok : image_size i bytes <= BSIZE * Z.of_nat (parts (length bytes)) -> file_ok mk_sb v' x.
Proof using Hfin Hi Hsame Hdev Hfs.
  intros Hz. destruct (fi_file _ _ _ _ Hfin i t bytes Hi) as (ib0 & L0 & _ & Ho). destruct image_file_at as (ib & L & Hf).
  destruct loaded_fields as (_ & _ & Es & _). rewrite (ds_size _ _ _ _ _ _ _ _ Ho) in Es. pose proof (fa_len _ _ _ _ _ _ Hf) as Hl. pose proof (hb_max _ _ _ _ _ (fa_blocks _ _ _ _ _ _ Hf)).
  assert (Hpos : 0 <= image_size i bytes) by (pose proof (dn_size _ (ds_short _ _ _ _ _ _ _ _ Ho)) as Hd; rewrite (ds_size _ _ _ _ _ _ _ _ Ho) in Hd; lia).
  constructor; [apply image_inode_ok|rewrite Es; change (MAXFILE * BSIZE) with 274432; change BSIZE with 1024 in Hz; lia|].
  intros o Hr. rewrite Es in Hr. destruct (mapped_block Hf o ltac:(lia)) as (c & Hc & E & _). rewrite E.
  assert (Hr' := hb_range _ _ _ _ _ (fa_blocks _ _ _ _ _ _ Hf) c ltac:(apply elem_of_app; right; by eapply list_elem_of_lookup_2)). change nmeta with 46 in Hr'. lia.
Qed.

End One.
End Kernel.

Lemma root_length files : Z.of_nat (length (root_entries files)) = 16 * Z.of_nat (length files + 2).
Proof. rewrite <- root_concat, concat_16, length_root_list by apply root_list_16. lia. Qed.

Section Root.
Context {S : Type} {HB : Blocks S} {v : contents} {fb : Z} {files : list input} {blocks : list (list Z * list Z)} (Hfin : finished v fb files blocks).
Context {v' : contents} (Hsame : forall b, 32 <= b < 2000 -> v' b = v b) (Hfull : ((length files + 2) mod 64 <> 0)%nat).
Abbreviation root := (loaded_inode v' 1).

Lemma root_in : listing files !! 0%nat = Some (T_DIR, root_entries files).
Proof. done. Qed.

(** When the entries do not fill their blocks, rounding adds no block. *)
Lemma root_covered : image_size 0 (root_entries files) = BSIZE * Z.of_nat (parts (length (root_entries files))).
Proof using Hfull.
  pose proof (root_length files) as Hl. pose proof (parts_spec (length (root_entries files))) as Hp. unfold image_size. cbn [Nat.eqb]. change BSIZE with 1024 in *.
  pose proof (Z.div_mod (Z.of_nat (length (root_entries files))) 1024 ltac:(done)). pose proof (Z.mod_pos_bound (Z.of_nat (length (root_entries files))) 1024 ltac:(done)).
  assert (Hne : Z.of_nat (length (root_entries files)) mod 1024 <> 0).
  { intros E. apply Hfull. rewrite E in *. apply (Nat.Div0.mod_divides). exists (Z.to_nat (Z.of_nat (length (root_entries files)) / 1024)). lia. }
  lia.
Qed.

Lemma root_isize : isize root = image_size 0 (root_entries files).
Proof using Hfin Hsame.
  destruct (fi_file _ _ _ _ Hfin 0%nat _ _ root_in) as (ib & L & _ & Ho). rewrite <- (ds_size _ _ _ _ _ _ _ _ Ho). apply (loaded_fields Hfin Hsame root_in).
Qed.

(** The directory is its entries followed by empty ones. *)
Lemma root_is : exists m, entries v' root = root_list files ++ replicate m (replicate 16 0).
Proof using Hfin Hsame Hfull.
  destruct (image_file_at Hfin Hsame root_in) as (ib & L & Hf). change (Z.of_nat 0 + 1) with 1 in Hf. pose proof (root_length files) as Hl. pose proof root_covered as Hc.
  pose proof (parts_spec (length (root_entries files))) as Hp. rewrite <- root_isize in Hc. set (N := Z.to_nat (isize root / 16)).
  change BSIZE with 1024 in *. assert (HN : (16 * N = 1024 * parts (length (root_entries files)))%nat).
  { unfold N. rewrite Hc. replace (1024 * Z.of_nat (parts (length (root_entries files)))) with (64 * Z.of_nat (parts (length (root_entries files))) * 16) by lia. rewrite Z.div_mul by done. lia. }
  exists (N - (length files + 2))%nat. apply list_eq. intros j. unfold entries. fold N. rewrite list_lookup_fmap. destruct (decide (j < N)%nat) as [Hj|Hj].
  - rewrite lookup_seq_lt by done. cbn [fmap option_fmap option_map]. destruct (decide (j < length files + 2)%nat) as [Hlt|Hge].
    + rewrite lookup_app_l by (by rewrite length_root_list). destruct (lookup_lt_is_Some_2 (root_list files) j) as [e He]; [by rewrite length_root_list|]. rewrite He. f_equal.
      unfold entry. replace (16 * Z.of_nat (0 + j)) with (Z.of_nat (16 * j)) by lia. rewrite (file_at_bytes Hf) by lia. rewrite <- root_concat. by apply concat_chunk; [apply root_list_16|].
    + rewrite lookup_app_r, length_root_list by (rewrite length_root_list; lia). rewrite lookup_replicate_2 by lia. f_equal. apply list_eq. intros i.
      unfold entry. destruct (decide (i < 16)%nat) as [Hi|Hi]; [|rewrite !lookup_ge_None_2; [done|rewrite length_replicate; lia|rewrite length_file_bytes; lia]].
      rewrite file_bytes_lookup, lookup_replicate_2 by done. f_equal. rewrite (mapped_byte Hf) by (change BSIZE with 1024; lia). rewrite lookup_ge_None_2; [done|]. lia.
  - rewrite !lookup_ge_None_2; [done|rewrite length_app, length_replicate, length_root_list; lia|rewrite length_seq; lia].
Qed.

End Root.

(** ** Booting on the image *)
Definition disk_of (v : contents) : gmap Z block := list_to_map ((fun b => (b, v b)) <$> seqZ 0 FSSIZE).

Lemma blk_disk_of v b : 0 <= b < FSSIZE -> blk (disk_of v) b = v b.
Proof.
  intros Hb. unfold blk, disk_of. rewrite (elem_of_list_to_map_1 _ b (v b)); [done| |].
  - rewrite <- list_fmap_compose. change ((Datatypes.fst ∘ (fun b0 => (b0, v b0))) <$> seqZ 0 FSSIZE) with ((fun b0 : Z => b0) <$> seqZ 0 FSSIZE). rewrite list_fmap_id. apply NoDup_seqZ.
  - apply list_elem_of_fmap. exists b. split; [done|]. apply elem_of_seqZ. lia.
Qed.


Section Readsb.
Context {S U : Type} {HB : Blocks S}.

End Readsb.

Definition image_layer (D : gmap Z block) (tr : list (Z * block)) : Blocks lst := log_blocks 1 2 30 D tr ltac:(done).

Lemma boots_image v fb files blocks : finished v fb files blocks -> exists st st1 D tr, boot 1 2 30 (disk_of v) = Ok tt st /\ begin_op st = Ok tt st1 /\
  @brep lst (image_layer D tr) st1 (blk D) ∅ ∅ /\ blk D 1 = v 1 /\ forall b, 32 <= b < 2000 -> blk D b = v b.
Proof.
  intros Hfin. assert (Hre : redo 2 30 (blk (disk_of v)) (disk_of v)).
  { apply clean_redo; [done|]. split; [|done]. rewrite blk_disk_of by done. unfold head_n. change (ld32 (v 2) 0) with (ldw (v 2) 0). rewrite ldw_zero; [done|apply (fi_log _ _ _ _ Hfin); done|done|done]. }
  destruct (boot_idle 1 2 30 _ _ ltac:(done) Hre) as (st & A & E & HI & Hs & Hz & HD).
  destruct (recover_all 2 30 _ _ Hre) as [_ Hhome]. set (D := apply_writes (recover_writes 2 (disk_of v)) (disk_of v)) in *.
  destruct (begin_open 1 2 30 D (strace A) ltac:(done) A st HI HD eq_refl Hs Hz) as (st1 & E1 & Hr).
  exists st, st1, D, (strace A). split; [exact E|]. split; [exact E1|]. split; [exact Hr|]. split; [|intros b Hb]; rewrite Hhome by (unfold home, in_log; lia); apply blk_disk_of; change FSSIZE with 2000; lia.
Qed.



(** ** A directory that fills its blocks *)

(** When the entries of the root directory fill their last block exactly, the
    size that mkfs writes includes a block that the directory does not have:
    the kernel allocates it when it reads that far, which it can only do inside
    a transaction. *)
Theorem mkfs_root_hole files s : Forall input_ok files -> holds (listing files) -> ((length files + 2) mod 64 = 0)%nat ->
  exists s', mkfs files s = Ok tt s' /\ let v := img s' in let x := inode_at v 1 in
    let o := Z.of_nat (length (root_entries files)) in 0 <= o < isize x /\ fblock v x (o / BSIZE) = 0.
Proof.
  intros Hf Hh Hmod. destruct (mkfs_ok files s Hf Hh) as (v & fi & fb & blocks & E & Hfin). exists (mk_state v fi fb). split; [exact E|]. cbn [img mk_state].
  destruct (fi_file _ _ _ _ Hfin 0%nat _ _ root_in) as (ib & L & _ & Ho). change (Z.of_nat 0 + 1) with 1 in Ho. rewrite (ds_size _ _ _ _ _ _ _ _ Ho). unfold image_size. cbn [Nat.eqb]. cbn zeta.
  pose proof (fa_blocks _ _ _ _ _ _ (ds_file _ _ _ _ _ _ _ _ Ho)) as Hb. pose proof (fa_len _ _ _ _ _ _ (ds_file _ _ _ _ _ _ _ _ Ho)) as Hl. pose proof (hb_max _ _ _ _ _ Hb) as Hm.
  apply Nat.Div0.mod_divides in Hmod as [q Hq]. pose proof (root_length files) as Hr. rewrite Hq in Hr.
  assert (Hdiv : Z.of_nat (length (root_entries files)) / BSIZE = Z.of_nat q) by (rewrite Hr; change BSIZE with 1024; replace (16 * Z.of_nat (64 * q)) with (Z.of_nat q * 1024) by lia; by apply Z.div_mul).
  assert (Hq' : parts (length (root_entries files)) = q) by (apply parts_is; change BSIZE with 1024; lia).
  pose proof (fi_few _ _ _ _ Hfin). rewrite Hdiv. split; [change BSIZE with 1024; lia|].
  rewrite (hb_map _ _ _ _ _ Hb) by (change MAXFILE with 268; lia). rewrite lookup_ge_None_2; [done|]. lia.
Qed.

(** * Booting on the image and following a path

    The directories of an image made by mkfs are a tree in the sense of path
    lookup, so that the kernel finds every file by its name. *)


(** ** The tree *)
Section Tree.
Context {S : Type} {HB : Blocks S} (Hdev : fsdev = 1) (Hfs : forall b, 32 <= b < 2000 -> fsblock b).
Context {v : contents} {fb : Z} {files : list input} {blocks : list (list Z * list Z)} (Hfin : finished v fb files blocks).
Context {v' : contents} (Hsame : forall b, 32 <= b < 2000 -> v' b = v b) (Hfull : ((length files + 2) mod 64 <> 0)%nat).

Definition in_image (n : Z) : Prop := 1 <= n <= Z.of_nat (length files) + 1.

Lemma dnode_loaded n : dnode mk_sb v' n = loaded_inode v' n.
Proof using Hdev. unfold dnode, disk_inode, loaded_inode. by rewrite Hdev. Qed.

(** Every inode of the image is a file of the listing. *)
Lemma in_listing n : in_image n -> exists i t bytes, n = Z.of_nat i + 1 /\ listing files !! i = Some (t, bytes) /\ (t = T_DIR /\ i = 0%nat \/ t = T_FILE /\ i <> 0%nat).
Proof.
  intros Hn. unfold in_image in Hn. destruct (lookup_lt_is_Some_2 (listing files) (Z.to_nat (n - 1))) as [[t bytes] Hi]; [rewrite length_listing; lia|].
  exists (Z.to_nat (n - 1)), t, bytes. split; [lia|]. split; [done|]. destruct (Z.to_nat (n - 1)) as [|k] eqn:E; [left; by injection Hi|right].
  unfold listing in Hi. rewrite lookup_cons_ne_0, Nat.pred_succ, list_lookup_fmap in Hi by done. destruct (files !! k); [|done]. by injection Hi.
Qed.

Lemma type_in_image n i t bytes : n = Z.of_nat i + 1 -> listing files !! i = Some (t, bytes) -> itype (dnode mk_sb v' n) = t /\ inlink (dnode mk_sb v' n) = 1 /\ isize (dnode mk_sb v' n) = image_size i bytes.
Proof using Hdev Hfin Hsame.
  intros -> Hi. rewrite dnode_loaded. destruct (loaded_fields Hfin Hsame Hi) as (E1 & E2 & E3 & _). destruct (fi_file _ _ _ _ Hfin i t bytes Hi) as (ib & L & _ & Ho).
  rewrite E1, E2, E3. split; [apply Ho|]. split; apply Ho.
Qed.

Lemma root_inums e : e ∈ root_list files -> in_image (de_inum e).
Proof using Hfin.
  clear Hfull. pose proof (fi_few _ _ _ _ Hfin) as Hfew. intros He. unfold in_image. apply elem_of_cons in He as [->|He]; [rewrite dirent_inum by done; lia|]. apply elem_of_cons in He as [->|He]; [rewrite dirent_inum by done; lia|].
  apply list_elem_of_lookup in He as (i & Hi). rewrite list_lookup_imap in Hi. destruct (files !! i) as [f|] eqn:Ef; [|done]. injection Hi as <-.
  apply lookup_lt_Some in Ef. rewrite dirent_inum by lia. lia.
Qed.

Lemma image_tree : tree mk_sb v' in_image.
Proof using Hdev Hfs Hfin Hsame Hfull.
  pose proof (fi_few _ _ _ _ Hfin) as Hfew. constructor.
  - intros n Hn. unfold in_image in Hn. change (ninodes mk_sb) with 200. lia.
  - intros n Hn. destruct (in_listing n Hn) as (i & t & bytes & En & Hi & Ht). destruct (type_in_image n i t bytes En Hi) as (-> & _). by destruct Ht as [[-> _]|[-> _]].
  - intros n Hn. destruct (in_listing n Hn) as (i & t & bytes & En & Hi & Ht). destruct (type_in_image n i t bytes En Hi) as (_ & -> & _). done.
  - intros n Hn. destruct (in_listing n Hn) as (i & t & bytes & -> & Hi & Ht). rewrite dnode_loaded. apply (image_file_ok Hdev Hfs Hfin Hsame Hi).
    destruct Ht as [[-> ->]|[-> Hne]]; [injection Hi as <-; rewrite root_covered by done; lia|]. unfold image_size. rewrite (proj2 (Nat.eqb_neq i 0)) by done. pose proof (parts_spec (length bytes)). lia.
  - intros n Hn Hd. destruct (in_listing n Hn) as (i & t & bytes & En & Hi & Ht). destruct (type_in_image n i t bytes En Hi) as (E1 & _ & ->). rewrite E1 in Hd.
    destruct Ht as [[-> ->]|[-> _]]; [|done]. unfold image_size. cbn [Nat.eqb]. change BSIZE with (64 * 16). rewrite Z.mul_assoc. by apply Z.mod_mul.
  - intros n e Hn Hd He H0. destruct (in_listing n Hn) as (i & t & bytes & En & Hi & Ht). destruct (type_in_image n i t bytes En Hi) as (E1 & _). rewrite E1 in Hd.
    destruct Ht as [[-> ->]|[-> _]]; [|done]. subst n. change (Z.of_nat 0 + 1) with 1 in He. rewrite dnode_loaded in He. destruct (root_is Hfin Hsame Hfull) as [m Em]. rewrite Em in He.
    apply elem_of_app in He as [He|He]; [by apply root_inums|]. apply elem_of_replicate in He as [-> _]. done.
Qed.
End Tree.

(** ** Booting *)
Section Boots.
Context {U : Type} {HU : UserSpace U} (Hbuf : BSIZE <= bufsize).

(** A system whose disk contains the image: in the inode table are the root
    directory, which is the current directory, and the file of inode [n]; two
    entries are free. *)
Definition free_entry_ : inode := mkinode 0 0 0 None false 0 0 0 0 0 [].
Definition running (st : lst) (u : U) (d : superblock) (v : contents) (n : Z) : fst lst U :=
  mkfst st u d [loaded_inode v 1; loaded_inode v n; free_entry_; free_entry_] 1 0 [].

Lemma running_table D tr v n : 1 < n < 200 -> (forall m, 0 <= m < 200 -> loaded_inode (blk D) m = loaded_inode v m) ->
  @table lst (image_layer D tr) mk_sb (blk D) None [loaded_inode v 1; loaded_inode v n; free_entry_; free_entry_].
Proof.
  intros Hn Hload. assert (Hsplit : forall i x, [loaded_inode v 1; loaded_inode v n; free_entry_; free_entry_] !! i = Some x ->
    i = 0%nat /\ x = loaded_inode v 1 \/ i = 1%nat /\ x = loaded_inode v n \/ x = free_entry_).
  { intros [|[|[|[|i]]]] x Hx; [left|right; left|right; right|right; right|done]; by injection Hx. }
  constructor; try (intros i x [(_ & ->)|[(_ & ->)| ->]]%Hsplit; done).
  - intros i x [(_ & ->)|[(_ & ->)| ->]]%Hsplit Hr; [done| |done]. change (0 <= n < 200). lia.
  - intros i x [(_ & ->)|[(_ & ->)| ->]]%Hsplit Hr Hv; [| |done].
    + rewrite <- Hload at 1 by lia. done.
    + rewrite <- Hload at 1 by lia. done.
  - done.
  - intros i j x y [(-> & ->)|[(-> & ->)| ->]]%Hsplit [(-> & ->)|[(-> & ->)| ->]]%Hsplit Hr Hr' E; try done; cbn in E; lia.
Qed.

Lemma running_quiet D tr v fb files blocks st u n P V : finished v fb files blocks -> (forall b, 32 <= b < 2000 -> blk D b = v b) -> ((length files + 2) mod 64 <> 0)%nat ->
  @brep lst (image_layer D tr) st (blk D) ∅ ∅ -> sees u P V -> 1 < n <= Z.of_nat (length files) + 1 ->
  @quiet lst U (image_layer D tr) HU (running st u mk_sb v n) (blk D) ∅ (in_image (files := files)) P V.
Proof.
  intros Hfin Hsame Hmod Hr Hu Hn. pose proof (fi_few _ _ _ _ Hfin) as Hfew.
  assert (Hhome : forall b, 32 <= b < 2000 -> @fsblock lst (image_layer D tr) b) by (intros b Hb; cbn; unfold home_block; lia).
  constructor; [apply not_elem_of_nil|apply not_elem_of_nil|exact Hr|exact (@image_disk_ok lst (image_layer D tr) Hhome)|exact (image_meta Hfin Hsame)| | | |done].
  - exact (@image_tree lst (image_layer D tr) eq_refl Hhome v fb files blocks Hfin (blk D) Hsame Hmod).
  - apply running_table; [lia|]. intros m Hm. unfold loaded_inode. rewrite Hsame; [done|]. destruct (IBLOCK_mk m ltac:(lia)). lia.
  - intros [|[|[|[|i]]]] x Hx Hr'; try done; injection Hx as <-; unfold in_image; cbn in *; lia.
Qed.

End Boots.


(** The directory of "/sh" on that image. *)
Lemma namex_resolves_witness : exists D tr fs r fs', @namex lst machine (image_layer D tr) SmallDisk.memory (47 :: DirDemo.sh_name) true (replicate 14 0) fs = Ok r fs' /\
  exists i y nm, r = Some (i, nm) /\ padded nm = padded DirDemo.sh_name /\ itable fs' !! i = Some y /\ inum y = 1.
Proof.
  destruct demo_sees as (u & pt & V & Hu).
  destruct (mkfs_ok demo_files (mkmkst (fun _ => ∅) 1 0 mk_sb) demo_input demo_holds) as (v & fi & fb & blocks & E & Hfin).
  destruct (boots_image v fb demo_files blocks Hfin) as (st & st1 & D & tr & Eb & Ebe & Hr & Hv1 & Hsame).
  assert (Q := @running_quiet machine SmallDisk.memory D tr v fb demo_files blocks st1 u 2 (eq pt) V Hfin Hsame ltac:(done) Hr Hu ltac:(cbn; lia)).
  destruct (@namex_resolves lst machine (image_layer D tr) SmallDisk.memory ltac:(done) (eq pt) V _ (blk D) ∅ _ (47 :: DirDemo.sh_name) true (replicate 14 0) Q eq_refl) as (r & fs' & E3 & _ & _ & A);
    [unfold in_image; change ROOTINO with 1; change (length demo_files) with 1%nat; lia|change (nfree _) with 2; lia|exists (loaded_inode v 1); split; [reflexivity|change (0 < 1); lia]|].
  exists D, tr, (running st1 u mk_sb v 2), r, fs'. split; [exact E3|].
  change (start_of _ (47 :: DirDemo.sh_name)) with 1 in A. change (components (47 :: DirDemo.sh_name)) with [DirDemo.sh_name] in A. cbn [sb running resolve] in A.
  destruct (@type_in_image lst (image_layer D tr) eq_refl v fb demo_files blocks Hfin (blk D) Hsame 1 0 _ _ eq_refl (root_in (files := demo_files))) as (Et & _). rewrite Et in A.
  destruct A as (i & y & nm & H1 & H2 & H3 & H4 & _). exists i, y, nm. split; [exact H1|]. split; [exact H2|]. split; [exact H3|exact H4].
Defined.
