(* ===== verification/File.v ===== *)
(** * kernel/file.c: open files, and the ends of pipes

    The table of open files on the file system of [Fs.v], with [pipealloc]
    and [pipeclose] of kernel/pipe.c.  Files are indices of [ftable], pipes
    live in pages and are found by their address.  A call that would sleep
    does not return. *)

From S2P Require Import Prelude Riscv Mem Lock Kalloc Vm UserIO Pipe Log.
From S2P Require Import Bio Blocks Fs.
Local Open Scope Z_scope.

(** Transactions, and pages of memory. *)
Class Txn (S : Type) := { txn_begin : M S unit; txn_end : M S unit }.
#[export] Instance log_txn : Txn lst := {| txn_begin := begin_op; txn_end := end_op |}.

Class Pages (U : Type) := {
  page_alloc : M U Z;
  page_free : Z -> M U unit;
  (** [copyinstr]: the string, [None] for -1. *)
  copy_str : Z -> Z -> Z -> M U (option (list Z))
}.

(** A NUL-terminated string in memory, at most [n] bytes. *)
Fixpoint cstring (n : nat) (m : gmap Z Z) (a : Z) : list Z :=
  match n with O => [] | S n' => let c := ld8 m a in if c =? 0 then [] else c :: cstring n' m (a + 1) end.

Definition vm_pages (end_ kb : Z) : Pages machine := {|
  page_alloc := kalloc; page_free := kfree end_;
  copy_str pt a max := do! r <- copyinstr pt kb a max;
                       if r <? 0 then ret None else gets (fun s => Some (cstring (Z.to_nat max) (mem s) kb))
|}.

(** ** kernel/file.h *)
Inductive fdtype := FD_NONE | FD_PIPE | FD_INODE | FD_DEVICE.
#[export] Instance fdtype_eq : EqDecision fdtype.
Proof. solve_decision. Defined.

Record file := mkfile {
  ftype : fdtype; fref : Z; freadable : bool; fwritable : bool; fpipe : Z; fip : nat; foff : Z; fmajor : Z
}.


(** What the calls use of the current process. *)
Record uproc := mkup { pagetable : Z; psz : Z; ofile : list (option nat); args : list Z; pkilled : bool;
  utrapframe : Z; uname : list Z }.

Record kst (S U : Type) := mkkst { fsys : fst S U; ftable : list file; pipes : gmap Z pipe; me : uproc }.
Arguments mkkst {S U} _ _ _ _.
Arguments fsys {S U} _.
Arguments ftable {S U} _.
Arguments pipes {S U} _.
Arguments me {S U} _.

Section File.
Context {S U : Type} {HB : Blocks S} {HT : Txn S} {HU : UserSpace U} {HP : Pages U}.
Abbreviation K := (M (kst S U)).

(** [devsw[major].read] and [.write], with their (user, address, count)
    arguments. *)
Context (devread devwrite : Z -> option (Z -> Z -> Z -> K Z)).

#[export] Instance kst_locks : Locks (kst S U).
Proof.
  refine {| held k := held (fsys k); set_held l k := mkkst (set_held l (fsys k)) (ftable k) (pipes k) (me k) |}.
  - done.
  - done.
  - intros [[] ? ? ?]. done.
Defined.

Definition fsop {A} (c : M (fst S U) A) : K A := zoom fsys (fun f k => mkkst f (ftable k) (pipes k) (me k)) c.
Definition memop {A} (c : M U A) : K A := fsop (usrop c).
Definition begin_op : K unit := fsop (blkop txn_begin).
Definition end_op : K unit := fsop (blkop txn_end).

Definition getf {A} (f : nat) (g : file -> A) : K A := fun k =>
  match ftable k !! f with Some x => Ok (g x) k | None => Undef end.
Definition setf (f : nat) (g : file -> file) : K unit := fun k =>
  match ftable k !! f with
  | Some x => Ok tt (mkkst (fsys k) (<[f := g x]> (ftable k)) (pipes k) (me k))
  | None => Undef
  end.

Definition set_fref (g : Z -> Z) (x : file) : file :=
  mkfile (ftype x) (g (fref x)) (freadable x) (fwritable x) (fpipe x) (fip x) (foff x) (fmajor x).
Definition set_foff (g : Z -> Z) (x : file) : file :=
  mkfile (ftype x) (fref x) (freadable x) (fwritable x) (fpipe x) (fip x) (g (foff x)) (fmajor x).
Definition set_ftype (t : fdtype) (x : file) : file :=
  mkfile t (fref x) (freadable x) (fwritable x) (fpipe x) (fip x) (foff x) (fmajor x).

(** ** Pipes *)

(** A call on the pipe in page [a]; it hangs when it would sleep. *)
Definition pipeop {A} (a : Z) (c : M (pst U) A) : K A := fun k =>
  match pipes k !! a with
  | None => Undef
  | Some p =>
      match c (mkpst p (usr (fsys k)) (held k)) with
      | Ok r s => Ok r (mkkst (set_held (pheld s) (mkfst (blks (fsys k)) (us s) (sb (fsys k)) (itable (fsys k)) (fpid (fsys k)) (cwd (fsys k)) (fheld (fsys k))))
                         (ftable k) (<[a := pi s]> (pipes k)) (me k))
      | Panic m => Panic m
      | Undef => Undef
      | Hang => Hang
      end
  end.
Definition awake (r : progress) : K Z := match r with Done z => ret z | Asleep _ => hang end.

Definition pipeclose (a : Z) (writable : bool) : K unit :=
  do! closed <- pipeop a (
    acquire "pipe" ;;
    setp (fun p => mkpipe (pdata p) (nread p) (nwrite p) (if writable then readopen p else false)
                     (if writable then false else writeopen p)) ;;
    do! p <- getp (fun p => p);
    release "pipe" ;;
    ret (negb (readopen p) && negb (writeopen p)));
  if closed : bool then memop (page_free a) ;; modify (fun k => mkkst (fsys k) (ftable k) (delete a (pipes k)) (me k)) else ret tt.

(** ** kernel/file.c *)

Definition fileinit : K unit := initlock "ftable".

Fixpoint find_unused (l : list file) (i : nat) : option nat :=
  match l with [] => None | x :: l' => if fref x =? 0 then Some i else find_unused l' (i + 1) end.

Definition filealloc : K (option nat) :=
  acquire "ftable" ;;
  do! l <- gets ftable;
  match find_unused l 0 with
  | Some f => setf f (set_fref (fun _ => 1)) ;; release "ftable" ;; ret (Some f)
  | None => release "ftable" ;; ret None
  end.

Definition filedup (f : nat) : K nat :=
  acquire "ftable" ;;
  do! r <- getf f fref;
  if r <? 1 then panic "filedup"
  else setf f (set_fref (fun r => r + 1)) ;; release "ftable" ;; ret f.

Definition fileclose (f : nat) : K unit :=
  acquire "ftable" ;;
  do! r <- getf f fref;
  if r <? 1 then panic "fileclose"
  else
    setf f (set_fref (fun r => r - 1)) ;;
    if 0 <? r - 1 then release "ftable"
    else
      do! ff <- getf f (fun x => x);
      setf f (set_fref (fun _ => 0)) ;;
      setf f (set_ftype FD_NONE) ;;
      release "ftable" ;;
      match ftype ff with
      | FD_PIPE => pipeclose (fpipe ff) (fwritable ff)
      | FD_INODE | FD_DEVICE => begin_op ;; fsop (iput (fip ff)) ;; end_op
      | FD_NONE => ret tt
      end.

(** [struct stat] as bytes; the four bytes of padding come from the kernel
    stack. *)
Fixpoint le_bytes (n : nat) (z : Z) : list Z :=
  match n with O => [] | Datatypes.S n' => z mod 256 :: le_bytes n' (z / 256) end.
Definition stat_bytes (pad : list Z) (st : stat) : list Z :=
  le_bytes 4 (st_dev st) ++ le_bytes 4 (st_ino st) ++ le_bytes 2 (st_type st) ++ le_bytes 2 (st_nlink st) ++
  pad ++ le_bytes 8 (st_size st).

Definition filestat (pad : list Z) (f : nat) (addr : Z) : K Z :=
  do! t <- getf f ftype;
  match t with
  | FD_INODE | FD_DEVICE =>
      do! ip <- getf f fip;
      fsop (ilock ip) ;;
      do! st <- fsop (stati ip);
      fsop (iunlock ip) ;;
      do! pt <- gets (fun k => pagetable (me k));
      do! ok <- memop (copy_out pt addr (stat_bytes pad st));
      ret (if ok : bool then 0 else -1)
  | _ => ret (-1)
  end.

Definition device (table : Z -> option (Z -> Z -> Z -> K Z)) (major addr n : Z) : K Z :=
  if (major <? 0) || (NDEV <=? major) then ret (-1)
  else match table major with None => ret (-1) | Some op => op 1 addr n end.

Definition fileread (f : nat) (addr n : Z) : K Z :=
  do! x <- getf f (fun x => x);
  if negb (freadable x) then ret (-1)
  else
    do! p <- gets me;
    match ftype x with
    | FD_PIPE => do! r <- pipeop (fpipe x) (piperead (pkilled p) (pagetable p) addr n); awake r
    | FD_DEVICE => device devread (fmajor x) addr n
    | FD_INODE =>
        fsop (ilock (fip x)) ;;
        do! r <- fsop (readi (fip x) (ToUser (pagetable p) addr) (foff x) (u32 n));
        (if 0 <? r.1 then setf f (set_foff (fun o => u32 (o + r.1))) else ret tt) ;;
        fsop (iunlock (fip x)) ;;
        ret r.1
    | FD_NONE => panic "fileread"
    end.

(** One transaction's worth of data. *)
Definition maxwrite : Z := (MAXOPBLOCKS - 1 - 1 - 2) / 2 * BSIZE.

Definition write_chunk (f : nat) (addr n1 : Z) : K Z :=
  do! x <- getf f (fun x => x);
  do! p <- gets me;
  begin_op ;;
  fsop (ilock (fip x)) ;;
  do! r <- fsop (writei (fip x) (FromUser (pagetable p) addr) (foff x) n1);
  (if 0 <? r then setf f (set_foff (fun o => u32 (o + r))) else ret tt) ;;
  fsop (iunlock (fip x)) ;;
  end_op ;;
  ret r.

Fixpoint filewrite_loop (fuel : nat) (f : nat) (addr i n : Z) : K Z :=
  match fuel with
  | O => hang
  | Datatypes.S fu =>
      if i <? n then
        let n1 := if maxwrite <? n - i then maxwrite else n - i in
        do! r <- write_chunk f (u64 (addr + i)) n1;
        if negb (r =? n1) then ret i else filewrite_loop fu f addr (i + r) n
      else ret i
  end.

Definition filewrite (f : nat) (addr n : Z) : K Z :=
  do! x <- getf f (fun x => x);
  if negb (fwritable x) then ret (-1)
  else
    do! p <- gets me;
    match ftype x with
    | FD_PIPE => do! r <- pipeop (fpipe x) (pipewrite (fun _ => pkilled p) (pagetable p) addr n 0); awake r
    | FD_DEVICE => device devwrite (fmajor x) addr n
    | FD_INODE =>
        do! i <- filewrite_loop (Z.to_nat (n / maxwrite) + 2) f addr 0 n;
        ret (if i =? n then n else -1)
    | FD_NONE => panic "filewrite"
    end.

(** ** kernel/pipe.c: [pipealloc] *)
Definition new_pipe (old : list Z) : pipe := mkpipe old 0 0 true true.

(** The cleanup at [bad]. *)
Definition close_opt (f : option nat) : K unit := match f with Some f => fileclose f | None => ret tt end.

(** [junk] is what the page holds where the data will be. *)
Definition pipealloc (junk : list Z) : K (option (nat * nat)) :=
  do! f0 <- filealloc;
  match f0 with
  | None => ret None
  | Some f0 =>
      do! f1 <- filealloc;
      match f1 with
      | None => close_opt (Some f0) ;; ret None
      | Some f1 =>
          do! pi <- memop page_alloc;
          if pi =? 0 then close_opt (Some f0) ;; close_opt (Some f1) ;; ret None
          else
            modify (fun k => mkkst (fsys k) (ftable k) (<[pi := new_pipe junk]> (pipes k)) (me k)) ;;
            setf f0 (fun x => mkfile FD_PIPE (fref x) true false pi (fip x) (foff x) (fmajor x)) ;;
            setf f1 (fun x => mkfile FD_PIPE (fref x) false true pi (fip x) (foff x) (fmajor x)) ;;
            ret (Some (f0, f1))
      end
  end.
End File.
