(* ===== verification/Sysfile.v ===== *)
(** * System calls on files

    kernel/sysfile.c and the argument access of kernel/syscall.c.  A path is
    the list of its bytes before the NUL; an uninitialised [name] buffer is
    represented by zeros, as its bytes are not read before they are
    written. *)

From S2P Require Import Prelude Riscv Mem Lock Kalloc Vm UserIO Pipe Log.
From S2P Require Import Bio Blocks Fs File.
Local Open Scope Z_scope.

Section Sysfile.
Context {S U : Type} {HB : Blocks S} {HT : Txn S} {HU : UserSpace U} {HP : Pages U}.
Abbreviation K := (M (kst S U)).
Context (devread devwrite : Z -> option (Z -> Z -> Z -> K Z)).

(** ** kernel/syscall.c: arguments *)

Definition argraw (n : nat) : K Z := fun k =>
  match args (me k) !! n with
  | Some a => if (n <? 6)%nat then Ok a k else Panic "argraw"
  | None => Panic "argraw"
  end.
Definition argint (n : nat) : K Z := do! a <- argraw n; ret (s32 a).
Definition argaddr (n : nat) : K Z := argraw n.

(** The eight bytes at [addr], or [None] for -1. *)
Definition le_val (bs : list Z) : Z := foldr (fun b r => b + 256 * r) 0 bs.
Definition fetchaddr (addr : Z) : K (option Z) :=
  do! p <- gets me;
  if (psz p <=? addr) || (psz p <? u64 (addr + 8)) then ret None
  else
    do! r <- memop (copy_in (pagetable p) addr (replicate 8 0));
    ret (if r.2 : bool then Some (le_val r.1) else None).

(** The string at [addr], of length below [max]; [None] for -1. *)
Definition fetchstr (addr max : Z) : K (option (list Z)) :=
  do! p <- gets me;
  memop (copy_str (pagetable p) addr max).
Definition argstr (n : nat) (max : Z) : K (option (list Z)) := do! a <- argaddr n; fetchstr a max.

(** ** Descriptors *)

Definition argfd (n : nat) : K (option (Z * nat)) :=
  do! fd <- argint n;
  if (fd <? 0) || (NOFILE <=? fd) then ret None
  else
    do! l <- gets (fun k => ofile (me k));
    match l !! Z.to_nat fd with
    | None => undef
    | Some None => ret None
    | Some (Some f) => ret (Some (fd, f))
    end.

Definition set_ofile (g : list (option nat) -> list (option nat)) : K unit :=
  modify (fun k => let p := me k in
    mkkst (fsys k) (ftable k) (pipes k) (mkup (pagetable p) (psz p) (g (ofile p)) (args p) (pkilled p) (utrapframe p) (uname p))).

Fixpoint free_fd {A} (l : list (option A)) (i : nat) : option nat :=
  match l with [] => None | None :: _ => Some i | Some _ :: l' => free_fd l' (i + 1) end.

Definition fdalloc (f : nat) : K (option nat) :=
  do! l <- gets (fun k => ofile (me k));
  match free_fd l 0 with
  | Some fd => set_ofile (fun l => <[fd := Some f]> l) ;; ret (Some fd)
  | None => ret None
  end.

Definition sys_dup : K Z :=
  do! a <- argfd 0;
  match a with
  | None => ret (-1)
  | Some (_, f) =>
      do! fd <- fdalloc f;
      match fd with None => ret (-1) | Some fd => filedup f ;; ret (Z.of_nat fd) end
  end.

Definition sys_read : K Z :=
  do! p <- argaddr 1;
  do! n <- argint 2;
  do! a <- argfd 0;
  match a with None => ret (-1) | Some (_, f) => fileread devread f p n end.

Definition sys_write : K Z :=
  do! p <- argaddr 1;
  do! n <- argint 2;
  do! a <- argfd 0;
  match a with None => ret (-1) | Some (_, f) => filewrite devwrite f p n end.

Definition sys_close : K Z :=
  do! a <- argfd 0;
  match a with
  | None => ret (-1)
  | Some (fd, f) => set_ofile (fun l => <[Z.to_nat fd := None]> l) ;; fileclose f ;; ret 0
  end.

Definition sys_fstat (pad : list Z) : K Z :=
  do! st <- argaddr 1;
  do! a <- argfd 0;
  match a with None => ret (-1) | Some (_, f) => filestat pad f st end.

(** ** Directory entries *)

Definition noname : list Z := replicate (Z.to_nat DIRSIZ) 0.
Definition add_nlink (ip : nat) (d : Z) : K unit := fsop (seti ip (set_inlink (fun n => s16 (n + d))) ;; iupdate ip).
Definition fail_op : K Z := end_op ;; ret (-1).

Definition link_bad (ip : nat) : K Z :=
  fsop (ilock ip) ;; add_nlink ip (-1) ;; fsop (iunlockput ip) ;; end_op ;; ret (-1).

Definition sys_link : K Z :=
  do! old <- argstr 0 MAXPATH;
  match old with
  | None => ret (-1)
  | Some old =>
      do! new <- argstr 1 MAXPATH;
      match new with
      | None => ret (-1)
      | Some new =>
          begin_op ;;
          do! ip <- fsop (namei old);
          match ip with
          | None => fail_op
          | Some ip =>
              fsop (ilock ip) ;;
              do! t <- fsop (geti ip itype);
              if t =? T_DIR then fsop (iunlockput ip) ;; fail_op
              else
                add_nlink ip 1 ;;
                fsop (iunlock ip) ;;
                do! dp <- fsop (nameiparent new noname);
                match dp with
                | None => link_bad ip
                | Some (dp, name) =>
                    fsop (ilock dp) ;;
                    do! ddev <- fsop (geti dp idev);
                    do! idv <- fsop (geti ip idev);
                    do! bad <- (if negb (ddev =? idv) then ret true
                                else do! num <- fsop (geti ip inum);
                                     do! r <- fsop (dirlink dp name num);
                                     ret (r <? 0));
                    if bad : bool then fsop (iunlockput dp) ;; link_bad ip
                    else fsop (iunlockput dp) ;; fsop (iput ip) ;; end_op ;; ret 0
                end
          end
      end
  end.

Fixpoint isdirempty_loop (fuel : nat) (dp : nat) (off size : Z) : K bool :=
  match fuel with
  | O => hang
  | Datatypes.S f =>
      if off <? size then
        do! r <- fsop (readi dp ToKernel off 16);
        if negb (r.1 =? 16) then panic "isdirempty: readi"
        else if negb (de_inum r.2 =? 0) then ret false
        else isdirempty_loop f dp (off + 16) size
      else ret true
  end.
Definition isdirempty (dp : nat) : K bool :=
  do! size <- fsop (geti dp isize); isdirempty_loop (Z.to_nat (size / 16) + 2) dp 32 size.

Definition DOT : list Z := [46; 0].
Definition DOTDOT : list Z := [46; 46; 0].

Definition unlink_bad (dp : nat) : K Z := fsop (iunlockput dp) ;; fail_op.

Definition sys_unlink : K Z :=
  do! path <- argstr 0 MAXPATH;
  match path with
  | None => ret (-1)
  | Some path =>
      begin_op ;;
      do! dp <- fsop (nameiparent path noname);
      match dp with
      | None => fail_op
      | Some (dp, name) =>
          fsop (ilock dp) ;;
          if (namecmp name DOT =? 0) || (namecmp name DOTDOT =? 0) then unlink_bad dp
          else
            do! l <- fsop (dirlookup dp name);
            match l with
            | None => unlink_bad dp
            | Some (ip, off) =>
                fsop (ilock ip) ;;
                do! x <- fsop (geti ip (fun x => x));
                if inlink x <? 1 then panic "unlink: nlink < 1"
                else
                  do! full <- (if itype x =? T_DIR then do! e <- isdirempty ip; ret (negb e) else ret false);
                  if full : bool then fsop (iunlockput ip) ;; unlink_bad dp
                  else
                    do! r <- fsop (writei dp (FromKernel (replicate 16 0)) off 16);
                    if negb (r =? 16) then panic "unlink: writei"
                    else
                      (if itype x =? T_DIR then add_nlink dp (-1) else ret tt) ;;
                      fsop (iunlockput dp) ;;
                      add_nlink ip (-1) ;;
                      fsop (iunlockput ip) ;;
                      end_op ;;
                      ret 0
            end
      end
  end.

(** The new inode, locked. *)
Definition create_fail (ip dp : nat) : K (option nat) :=
  fsop (seti ip (set_inlink (fun _ => 0)) ;; iupdate ip) ;;
  fsop (iunlockput ip) ;;
  fsop (iunlockput dp) ;;
  ret None.

Definition create (path : list Z) (type major minor : Z) : K (option nat) :=
  do! dp <- fsop (nameiparent path noname);
  match dp with
  | None => ret None
  | Some (dp, name) =>
      fsop (ilock dp) ;;
      do! l <- fsop (dirlookup dp name);
      match l with
      | Some (ip, _) =>
          fsop (iunlockput dp) ;;
          fsop (ilock ip) ;;
          do! t <- fsop (geti ip itype);
          if (type =? T_FILE) && ((t =? T_FILE) || (t =? T_DEVICE)) then ret (Some ip)
          else fsop (iunlockput ip) ;; ret None
      | None =>
          do! dev <- fsop (geti dp idev);
          do! ip <- fsop (ialloc dev type);
          match ip with
          | None => fsop (iunlockput dp) ;; ret None
          | Some ip =>
              fsop (ilock ip) ;;
              fsop (seti ip (fun x => mkinode (idev x) (inum x) (iref x) (ilk x) (ivalid x) (itype x) (s16 major) (s16 minor) 1 (isize x) (iaddrs x))) ;;
              fsop (iupdate ip) ;;
              do! inm <- fsop (geti ip inum);
              do! dnm <- fsop (geti dp inum);
              do! bad <- (if type =? T_DIR then
                            do! r <- fsop (dirlink ip DOT inm);
                            if r <? 0 then ret true else do! r <- fsop (dirlink ip DOTDOT dnm); ret (r <? 0)
                          else ret false);
              if bad : bool then create_fail ip dp
              else
                do! r <- fsop (dirlink dp name inm);
                if r <? 0 then create_fail ip dp
                else
                  (if type =? T_DIR then add_nlink dp 1 else ret tt) ;;
                  fsop (iunlockput dp) ;;
                  ret (Some ip)
          end
      end
  end.

(** ** Opening *)

Definition hasflag (m f : Z) : bool := negb (Z.land m f =? 0).

(** The inode to open, locked; [None] after [end_op]. *)
Definition open_inode (path : list Z) (omode : Z) : K (option nat) :=
  if hasflag omode O_CREATE then
    do! ip <- create path T_FILE 0 0;
    match ip with None => end_op ;; ret None | Some ip => ret (Some ip) end
  else
    do! ip <- fsop (namei path);
    match ip with
    | None => end_op ;; ret None
    | Some ip =>
        fsop (ilock ip) ;;
        do! t <- fsop (geti ip itype);
        if (t =? T_DIR) && negb (omode =? O_RDONLY) then fsop (iunlockput ip) ;; end_op ;; ret None
        else ret (Some ip)
    end.

Definition open_fail (ip : nat) : K Z := fsop (iunlockput ip) ;; fail_op.

Definition sys_open : K Z :=
  do! omode <- argint 1;
  do! path <- argstr 0 MAXPATH;
  match path with
  | None => ret (-1)
  | Some path =>
      begin_op ;;
      do! ip <- open_inode path omode;
      match ip with
      | None => ret (-1)
      | Some ip =>
          do! x <- fsop (geti ip (fun x => x));
          if (itype x =? T_DEVICE) && ((imajor x <? 0) || (NDEV <=? imajor x)) then open_fail ip
          else
            do! f <- filealloc;
            match f with
            | None => open_fail ip
            | Some f =>
                do! fd <- fdalloc f;
                match fd with
                | None => fileclose f ;; open_fail ip
                | Some fd =>
                    setf f (fun y =>
                      mkfile (if itype x =? T_DEVICE then FD_DEVICE else FD_INODE) (fref y)
                        (negb (hasflag omode O_WRONLY)) (hasflag omode O_WRONLY || hasflag omode O_RDWR) (fpipe y) ip
                        (if itype x =? T_DEVICE then foff y else 0) (if itype x =? T_DEVICE then imajor x else fmajor y)) ;;
                    (if hasflag omode O_TRUNC && (itype x =? T_FILE) then fsop (itrunc ip) else ret tt) ;;
                    fsop (iunlock ip) ;;
                    end_op ;;
                    ret (Z.of_nat fd)
                end
            end
      end
  end.

Definition sys_mkdir : K Z :=
  begin_op ;;
  do! path <- argstr 0 MAXPATH;
  match path with
  | None => fail_op
  | Some path =>
      do! ip <- create path T_DIR 0 0;
      match ip with None => fail_op | Some ip => fsop (iunlockput ip) ;; end_op ;; ret 0 end
  end.

Definition sys_mknod : K Z :=
  begin_op ;;
  do! major <- argint 1;
  do! minor <- argint 2;
  do! path <- argstr 0 MAXPATH;
  match path with
  | None => fail_op
  | Some path =>
      do! ip <- create path T_DEVICE major minor;
      match ip with None => fail_op | Some ip => fsop (iunlockput ip) ;; end_op ;; ret 0 end
  end.

Definition set_cwd (ip : nat) : K unit :=
  fsop (modify (fun s => mkfst (blks s) (usr s) (sb s) (itable s) (fpid s) ip (fheld s))).

Definition sys_chdir : K Z :=
  begin_op ;;
  do! path <- argstr 0 MAXPATH;
  match path with
  | None => fail_op
  | Some path =>
      do! ip <- fsop (namei path);
      match ip with
      | None => fail_op
      | Some ip =>
          fsop (ilock ip) ;;
          do! t <- fsop (geti ip itype);
          if negb (t =? T_DIR) then fsop (iunlockput ip) ;; fail_op
          else
            fsop (iunlock ip) ;;
            do! c <- gets (fun k => cwd (fsys k));
            fsop (iput c) ;;
            end_op ;;
            set_cwd ip ;;
            ret 0
      end
  end.

(** ** [exec] and [pipe] *)

(** The argument strings with the pages they were copied to; [false] for
    [goto bad]. *)
Fixpoint exec_args (fuel : nat) (uargv i : Z) (argv : list (Z * list Z)) : K (bool * list (Z * list Z)) :=
  match fuel with
  | O => hang
  | Datatypes.S f =>
      if MAXARG <=? i then ret (false, argv)
      else
        do! u <- fetchaddr (u64 (uargv + 8 * i));
        match u with
        | None => ret (false, argv)
        | Some uarg =>
            if uarg =? 0 then ret (true, argv)
            else
              do! pg <- memop page_alloc;
              if pg =? 0 then ret (false, argv)
              else
                do! str <- fetchstr uarg PGSIZE;
                match str with
                | None => ret (false, argv ++ [(pg, [])])
                | Some str => exec_args f uargv (i + 1) (argv ++ [(pg, str)])
                end
        end
  end.

Fixpoint free_args (argv : list (Z * list Z)) : K unit :=
  match argv with [] => ret tt | (pg, _) :: argv' => memop (page_free pg) ;; free_args argv' end.

Definition sys_exec (exec : list Z -> list (list Z) -> K Z) : K Z :=
  do! uargv <- argaddr 1;
  do! path <- argstr 0 MAXPATH;
  match path with
  | None => ret (-1)
  | Some path =>
      do! r <- exec_args (Z.to_nat MAXARG + 1) uargv 0 [];
      if r.1 : bool then do! x <- exec path r.2.*2; free_args r.2 ;; ret x
      else free_args r.2 ;; ret (-1)
  end.

Definition sys_pipe (junk : list Z) : K Z :=
  do! fdarray <- argaddr 0;
  do! fs <- pipealloc junk;
  match fs with
  | None => ret (-1)
  | Some (rf, wf) =>
      do! fd0 <- fdalloc rf;
      match fd0 with
      | None => fileclose rf ;; fileclose wf ;; ret (-1)
      | Some fd0 =>
          do! fd1 <- fdalloc wf;
          match fd1 with
          | None => set_ofile (fun l => <[fd0 := None]> l) ;; fileclose rf ;; fileclose wf ;; ret (-1)
          | Some fd1 =>
              do! pt <- gets (fun k => pagetable (me k));
              do! ok <- memop (copy_out pt fdarray (le_bytes 4 (Z.of_nat fd0)));
              do! ok <- (if ok : bool then memop (copy_out pt (u64 (fdarray + 4)) (le_bytes 4 (Z.of_nat fd1))) else ret false);
              if ok : bool then ret 0
              else
                set_ofile (fun l => <[fd0 := None]> l) ;;
                set_ofile (fun l => <[fd1 := None]> l) ;;
                fileclose rf ;;
                fileclose wf ;;
                ret (-1)
          end
      end
  end.
End Sysfile.
