(* ===== verification/FileRefs.v ===== *)
(** * Reference counts of open files

    The count of an entry of the file table is the number of descriptors that
    name it: through every system call on files, on every path, errors
    included. *)

From S2P Require Import Prelude Riscv Mem Lock Kalloc Vm UserIO Pipe Log.
From S2P Require Import Bio LogBlocks FsSpec Blocks Fs File Sysfile.
Import SmallDisk Demo.
Local Open Scope Z_scope.

Section Refs.
Context {S U : Type} {HB : Blocks S} {HT : Txn S} {HU : UserSpace U} {HP : Pages U}.
Abbreviation KS := (kst S U).
Abbreviation K := (M (kst S U)).

(** Descriptors of the current process that name [f]. *)
Definition fdcount (f : nat) (l : list (option nat)) : Z := Z.of_nat (length (filter (fun o => o = Some f) l)).

(** [others f]: descriptors of other processes; [e f]: references the running
    system call has in hand. *)
Record refs (others e : nat -> Z) (k : KS) : Prop := {
  rf_count : forall f x, ftable k !! f = Some x -> fref x = others f + fdcount f (ofile (me k)) + e f;
  rf_live : forall f, Some f ∈ ofile (me k) -> (f < Z.to_nat NFILE)%nat;
  rf_table : length (ftable k) = Z.to_nat NFILE;
  rf_fds : length (ofile (me k)) = Z.to_nat NOFILE
}.

(** Code that touches neither the table nor the process. *)
Definition silent {A} (c : K A) : Prop := forall k a k', c k = Ok a k' -> ftable k' = ftable k /\ me k' = me k.

Lemma refs_same others e k k' : ftable k' = ftable k -> me k' = me k -> refs others e k -> refs others e k'.
Proof. intros E1 E2 [H1 H2 H3 H4]. constructor; rewrite ?E1, ?E2; done. Qed.

Lemma triple_silent {A} others e (c : K A) : silent c -> triple (refs others e) c (fun _ => refs others e).
Proof. intros Hs k a k' H E. destruct (Hs _ _ _ E). by eapply refs_same. Qed.

Lemma silent_ret {A} (a : A) : silent (ret a).
Proof. by intros k b k' [= _ <-]. Qed.
Lemma silent_gets {A} (g : KS -> A) : silent (gets g).
Proof. by intros k b k' [= _ <-]. Qed.
Lemma silent_panic {A} m : silent (panic m : K A).
Proof. by intros k a k' [=]. Qed.
Lemma silent_hang {A} : silent (hang : K A).
Proof. by intros k a k' [=]. Qed.
Lemma silent_undef {A} : silent (undef : K A).
Proof. by intros k a k' [=]. Qed.
Lemma silent_bind {A B} (c : K A) (h : A -> K B) : silent c -> (forall a, silent (h a)) -> silent (bind c h).
Proof.
  intros Hc Hh k b k' E. unfold bind in E. destruct (c k) as [a k1| | |] eqn:Ec; try discriminate E.
  destruct (Hc _ _ _ Ec) as [<- <-]. by eapply Hh.
Qed.
Lemma silent_fsop {A} (c : M (fst S U) A) : silent (fsop c).
Proof. intros k a k' E. unfold fsop, zoom in E. destruct (c (fsys k)); by simplify_eq/=. Qed.
Lemma silent_memop {A} (c : M U A) : silent (memop c).
Proof. apply silent_fsop. Qed.
Lemma silent_begin : silent begin_op.
Proof. apply silent_fsop. Qed.
Lemma silent_end : silent end_op.
Proof. apply silent_fsop. Qed.
Lemma silent_pipeop {A} p (c : M (pst U) A) : silent (pipeop p c).
Proof.
  intros k a k' E. unfold pipeop in E. destruct (pipes k !! p); [|done].
  destruct (c _); by simplify_eq/=.
Qed.
Lemma silent_acquire l : silent (acquire l).
Proof. intros k a k' E. unfold acquire in E. destruct (Lock.holding l k); by simplify_eq/=. Qed.
Lemma silent_release l : silent (release l).
Proof. intros k a k' E. unfold release in E. destruct (Lock.holding l k); by simplify_eq/=. Qed.
Lemma silent_getf {A} f (g : file -> A) : silent (getf f g).
Proof. intros k a k' E. unfold getf in E. destruct (ftable k !! f); by simplify_eq/=. Qed.
Lemma silent_argraw n : silent (argraw n).
Proof. intros k a k' E. unfold argraw in E. destruct (args (me k) !! n), (n <? 6)%nat; by simplify_eq/=. Qed.
Lemma silent_setpipes g : silent (modify (fun k => mkkst (fsys k) (ftable k) (g k) (me k))).
Proof. by intros k a k' [= _ <-]. Qed.
End Refs.

Create HintDb silent.
#[export] Hint Resolve silent_ret silent_gets silent_panic silent_hang silent_undef silent_fsop silent_memop silent_begin silent_end
  silent_pipeop silent_acquire silent_release silent_getf silent_argraw silent_setpipes : silent.

(** Walk through code that is silent, step by step. *)
Ltac silence :=
  repeat match goal with
  | |- silent (bind _ _) => apply silent_bind; [|intros ?]
  | |- silent (if ?b then _ else _) => destruct b
  | |- silent (match ?o with Some _ => _ | None => _ end) => destruct o as [?|]
  | |- silent (let '(_, _) := ?p in _) => destruct p
  | |- silent (match ?t with FD_NONE => _ | FD_PIPE => _ | FD_INODE => _ | FD_DEVICE => _ end) => destruct t
  | |- silent (match ?r with Done _ => _ | Asleep _ => _ end) => destruct r
  end; eauto with silent.

(** Nothing in hand. *)
Abbreviation none := (fun _ : nat => 0).

Section Ops.
Context {S U : Type} {HB : Blocks S} {HT : Txn S} {HU : UserSpace U} {HP : Pages U}.
Abbreviation KS := (kst S U).
Abbreviation K := (M (kst S U)).
Context {others : nat -> Z}.

(** Silent code, then the rest. *)
Lemma triple_skip {A B} e (c : K A) (h : A -> K B) Q : silent c -> (forall a, triple (refs others e) (h a) Q) ->
  triple (refs others e) (bind c h) Q.
Proof. intros Hc Hh. eapply triple_bind; [by apply triple_silent|exact Hh]. Qed.

Definition bump (f : nat) (d : Z) (e : nat -> Z) : nat -> Z := fun g => if decide (g = f) then e g + d else e g.

Lemma bump_back f d e g : bump f (- d) (bump f d e) g = e g.
Proof. unfold bump. case_decide; lia. Qed.

Lemma refs_ext e e' k : (forall g, e g = e' g) -> refs (S := S) (U := U) others e k -> refs others e' k.
Proof. intros E [H1 H2 H3 H4]. constructor; try done. intros f x Hx. rewrite <- E. by apply H1. Qed.

(** Changing the count of one entry. *)
Lemma refs_insert e f d x y (k : KS) : ftable k !! f = Some x -> fref y = fref x + d -> refs others e k ->
  refs others (bump f d e) (mkkst (fsys k) (<[f := y]> (ftable k)) (pipes k) (me k)).
Proof.
  intros Hx Hy [H1 H2 H3 H4]. constructor; cbn; [|done|by rewrite length_insert|done]. intros h z Hz. unfold bump. case_decide as Eh; [subst h|].
  - rewrite list_lookup_insert_eq in Hz by (by eapply lookup_lt_Some). injection Hz as <-. rewrite Hy, (H1 f x Hx). lia.
  - rewrite list_lookup_insert_ne in Hz by done. by apply H1.
Qed.

Lemma refs_setf e f g d (k k' : KS) : (forall x, fref (g x) = fref x + d) -> setf f g k = Ok tt k' ->
  refs others e k -> refs others (bump f d e) k'.
Proof.
  intros Hg E H. unfold setf in E. destruct (ftable k !! f) as [y|] eqn:Ey; [|done]. injection E as <-. by apply (refs_insert e f d y).
Qed.

Lemma triple_setf e f g d : (forall x, fref (g x) = fref x + d) ->
  triple (refs others e) (setf f g) (fun _ => refs (S := S) (U := U) others (bump f d e)).
Proof. intros Hg k [] k' H E. by eapply refs_setf. Qed.

Lemma triple_setf_keep e f g : (forall x, fref (g x) = fref x) ->
  triple (refs others e) (setf f g) (fun _ => refs (S := S) (U := U) others e).
Proof.
  intros Hg k [] k' H E. eapply refs_ext; [|eapply (refs_setf e f g 0); [|exact E|exact H]].
  - intros h. unfold bump. case_decide; lia.
  - intros x. rewrite Hg. lia.
Qed.

Lemma find_unused_spec l : forall i j, find_unused l i = Some j -> (i <= j)%nat /\ exists x, l !! (j - i)%nat = Some x /\ fref x = 0.
Proof.
  induction l as [|x l IH]; intros i j H; [done|]. cbn in H. destruct (Z.eqb_spec (fref x) 0) as [E|E].
  - injection H as <-. split; [done|]. exists x. by rewrite Nat.sub_diag.
  - apply IH in H as [H1 (y & H2 & H3)]. split; [lia|]. exists y. replace (j - i)%nat with (Datatypes.S (j - (i + 1)))%nat by lia. done.
Qed.

Definition new_ref (e : nat -> Z) (r : option nat) (k : KS) : Prop :=
  match r with
  | Some f => refs others (bump f 1 e) k /\ (f < Z.to_nat NFILE)%nat
  | None => refs others e k
  end.

Lemma filealloc_refs e : triple (refs others e) (filealloc (S := S) (U := U)) (new_ref e).
Proof.
  apply triple_skip; [auto with silent|]. intros _. intros k a k' H E.
  rewrite (bind_ok _ _ k (ftable k) k) in E by done. destruct (find_unused (ftable k) 0) as [f|] eqn:Ef.
  - apply find_unused_spec in Ef as [_ (x & Hx & E0)]. rewrite Nat.sub_0_r in Hx.
    assert (f < Z.to_nat NFILE)%nat as Hf by (rewrite <- (rf_table _ _ _ H); by eapply lookup_lt_Some).
    set (k1 := mkkst (fsys k) (<[f := set_fref (fun _ => 1) x]> (ftable k)) (pipes k) (me k)).
    assert (setf f (set_fref (fun _ => 1)) k = Ok tt k1) as E1 by (unfold setf; by rewrite Hx).
    rewrite (bind_ok _ _ _ _ _ E1) in E. assert (refs others (bump f 1 e) k1) as H1 by (apply (refs_insert e f 1 x); [done|cbn; lia|done]).
    refine (triple_skip (bump f 1 e) _ _ (new_ref e) _ _ k1 a k' H1 E); [auto with silent|]. intros _. by apply triple_ret.
  - refine (triple_skip e _ _ (new_ref e) _ _ k a k' H E); [auto with silent|]. intros _. by apply triple_ret.
Qed.

Lemma filedup_refs e f : triple (refs others e) (filedup (S := S) (U := U) f) (fun _ => refs others (bump f 1 e)).
Proof.
  unfold filedup. apply triple_skip; [auto with silent|]. intros _. apply triple_skip; [auto with silent|]. intros r.
  destruct (r <? 1); [apply triple_panic|]. eapply triple_bind; [by apply (triple_setf e f _ 1)|]. intros [].
  apply triple_skip; [auto with silent|]. intros _. by apply triple_ret.
Qed.

Lemma silent_pipeclose a w : silent (pipeclose (S := S) (U := U) a w).
Proof. unfold pipeclose. apply silent_bind; [auto with silent|]. intros []; silence. Qed.

Lemma fileclose_refs e f : triple (refs others e) (fileclose (S := S) (U := U) f) (fun _ => refs others (bump f (-1) e)).
Proof.
  unfold fileclose. apply triple_skip; [auto with silent|]. intros _ k [] k' H E.
  unfold getf at 1 in E. unfold bind at 1 in E. destruct (ftable k !! f) as [x|] eqn:Hx; [|done].
  destruct (Z.ltb_spec (fref x) 1) as [|Hr]; [done|].
  unfold setf at 1 in E. unfold bind at 1 in E. rewrite Hx in E. set (k1 := mkkst _ _ _ _) in E.
  assert (f < length (ftable k))%nat as Hlt by (by eapply lookup_lt_Some).
  assert (ftable k1 !! f = Some (set_fref (fun r => r - 1) x)) as Hx1 by (by apply list_lookup_insert_eq).
  assert (refs others (bump f (-1) e) k1) as H1 by (apply (refs_insert e f (-1) x); [done|cbn; lia|done]).
  destruct (Z.ltb_spec 0 (fref x - 1)) as [Hpos|Hz].
  { eapply (triple_silent others (bump f (-1) e)); [apply silent_release|exact H1|exact E]. }
  unfold getf in E. unfold bind at 1 in E. rewrite Hx1 in E.
  unfold setf at 1 in E. unfold bind at 1 in E. rewrite Hx1 in E. set (k2 := mkkst _ _ _ _) in E.
  assert (ftable k2 !! f = Some (set_fref (fun _ => 0) (set_fref (fun r => r - 1) x))) as Hx2.
  { apply list_lookup_insert_eq. unfold k1. cbn. by rewrite length_insert. }
  unfold setf at 1 in E. unfold bind at 1 in E. rewrite Hx2 in E. set (k3 := mkkst _ _ _ _) in E.
  assert (refs others (bump f (-1) e) k3) as H3.
  { eapply refs_ext; [|apply (refs_insert (bump f (-1) e) f 0 _ _ k2 Hx2)]; [intros g; unfold bump; case_decide; lia|done|].
    eapply refs_ext; [|apply (refs_insert (bump f (-1) e) f 0 _ _ k1 Hx1)]; [intros g; unfold bump; case_decide; lia|cbn; lia|done]. }
  refine (triple_skip (bump f (-1) e) _ _ (fun _ => refs others (bump f (-1) e)) _ _ k3 tt k' H3 E); [auto with silent|]. intros _.
  apply triple_silent. destruct (ftype _); [apply silent_ret|apply silent_pipeclose|silence|silence].
Qed.

(** Descriptors. *)
Lemma fdcount_set f l i o o' : l !! i = Some o ->
  fdcount f (<[i := o']> l) = fdcount f l + (if decide (o' = Some f) then 1 else 0) - (if decide (o = Some f) then 1 else 0).
Proof.
  intros Hi. rewrite <- (take_drop_middle l i o Hi) at 2. rewrite insert_take_drop by (by eapply lookup_lt_Some).
  unfold fdcount. rewrite !filter_app, !filter_cons, !length_app. case_decide; case_decide; cbn [length]; lia.
Qed.

Lemma free_fd_spec {A} (l : list (option A)) : forall i j, free_fd l i = Some j -> (i <= j)%nat /\ l !! (j - i)%nat = Some None.
Proof.
  induction l as [|[f|] l IH]; intros i j H; [done| |].
  - cbn in H. apply IH in H as [H1 H2]. split; [lia|]. replace (j - i)%nat with (Datatypes.S (j - (i + 1)))%nat by lia. done.
  - injection H as <-. by rewrite Nat.sub_diag.
Qed.

Lemma refs_ofile e e' (k : KS) i o o' : ofile (me k) !! i = Some o ->
  (forall f, o' = Some f -> (f < Z.to_nat NFILE)%nat) ->
  (forall f, e' f = e f - (if decide (o' = Some f) then 1 else 0) + (if decide (o = Some f) then 1 else 0)) -> refs others e k ->
  forall k', set_ofile (fun l => <[i := o']> l) k = Ok tt k' -> refs others e' k'.
Proof.
  intros Hi Hn He [H1 H2 H3 H4] k' [= <-]. constructor; cbn; [| |done|by rewrite length_insert].
  - intros f x Hx. rewrite (fdcount_set _ _ _ _ _ Hi), (H1 f x Hx), He. lia.
  - intros f Hf. apply list_elem_of_lookup in Hf as [j Hj]. apply list_lookup_insert_Some in Hj as [(_ & E & _)|(_ & Hj)]; [by apply Hn|].
    apply H2. by eapply list_elem_of_lookup_2.
Qed.

Definition fd_made (e : nat -> Z) (f : nat) (r : option nat) (k : KS) : Prop :=
  match r with
  | Some fd => refs others (bump f (-1) e) k /\ ofile (me k) !! fd = Some (Some f)
  | None => refs others e k
  end.

Lemma fdalloc_refs e f : (f < Z.to_nat NFILE)%nat -> triple (refs others e) (fdalloc (S := S) (U := U) f) (fd_made e f).
Proof.
  intros Hf k r k' H E. unfold fdalloc in E. rewrite (bind_ok _ _ k (ofile (me k)) k) in E by done.
  destruct (free_fd (ofile (me k)) 0) as [fd|] eqn:Efd; [|by injection E as <- <-].
  apply free_fd_spec in Efd as [_ Hfd]. rewrite Nat.sub_0_r in Hfd.
  destruct (set_ofile (fun l => <[fd := Some f]> l) k) as [[] k1| | |] eqn:E1; rewrite ?(bind_ok _ _ _ _ _ E1) in E; try discriminate E1.
  injection E as <- <-. split.
  - eapply (refs_ofile e _ k fd None (Some f) Hfd); [intros g' Eg'; by simplify_eq| |exact H|exact E1]. intros g. unfold bump. rewrite (decide_False (P := None = Some g)) by done.
    destruct (decide (g = f)) as [->|Hg]; [rewrite decide_True by done; lia|rewrite decide_False by congruence; lia].
  - injection E1 as <-. cbn. apply list_lookup_insert_eq. by eapply lookup_lt_Some.
Qed.

Definition fd_found (e : nat -> Z) (r : option (Z * nat)) (k : KS) : Prop :=
  refs others e k /\ match r with
  | Some (fd, f) => 0 <= fd /\ ofile (me k) !! Z.to_nat fd = Some (Some f)
  | None => True
  end.

Lemma argfd_refs e n : triple (refs others e) (argfd (S := S) (U := U) n) (fd_found e).
Proof.
  unfold argfd, argint. apply triple_skip; [silence|]. intros fd. destruct (Z.ltb_spec fd 0) as [|H0]; [apply triple_ret; intros ? ?; by split|].
  cbn [orb]. destruct (NOFILE <=? fd); [apply triple_ret; intros ? ?; by split|]. intros k r k' H E. rewrite (bind_ok _ _ k (ofile (me k)) k) in E by done.
  destruct (ofile (me k) !! Z.to_nat fd) as [[f|]|] eqn:Ef; [| |discriminate E]; injection E as <- <-; split; done.
Qed.


Lemma live_found e r (k : KS) fd f : fd_found e r k -> r = Some (fd, f) -> (f < Z.to_nat NFILE)%nat.
Proof. intros [H Hr] ->. apply (rf_live _ _ _ H). eapply list_elem_of_lookup_2, Hr. Qed.

(** Start with [argfd]. *)
Lemma triple_argfd {A} e n (h : Z -> nat -> K A) (z : A) Q : (forall k, refs others e k -> Q z k) ->
  (forall fd f, (f < Z.to_nat NFILE)%nat -> triple (fun k => refs others e k /\ ofile (me k) !! Z.to_nat fd = Some (Some f)) (h fd f) Q) ->
  triple (refs others e) (do! a <- argfd n; match a with None => ret z | Some (fd, f) => h fd f end) Q.
Proof.
  intros Hz Hh. eapply triple_bind; [apply argfd_refs|]. intros [[fd f]|].
  - intros k a k' Hk E. pose proof (live_found _ _ _ _ _ Hk eq_refl) as Hf. destruct Hk as (Hr & _ & Ho). by eapply (Hh fd f Hf).
  - apply triple_ret. intros k [Hk _]. by apply Hz.
Qed.

(** Nothing in hand before and after. *)
Definition balanced {A} (c : K A) : Prop := triple (refs others none) c (fun _ => refs others none).

Lemma balanced_silent {A} (c : K A) : silent c -> balanced c.
Proof. apply triple_silent. Qed.

Lemma bump_zero f d (k : KS) : refs others (bump f (- d) (bump f d none)) k -> refs others none k.
Proof. apply refs_ext. intros g. apply (bump_back f d none g). Qed.

Lemma bump_zero' f (k : KS) : refs others (bump f 1 (bump f (-1) none)) k -> refs others none k.
Proof. apply refs_ext. intros g. apply (bump_back f (-1) none g). Qed.

Lemma dup_balanced : balanced (sys_dup (S := S) (U := U)).
Proof.
  apply triple_argfd; [done|]. intros fd0 f Hf. apply (triple_weak (refs others none)); [by intros ? [? _]|].
  eapply triple_bind; [by apply fdalloc_refs|]. intros [fd|]; [|by apply triple_ret].
  apply (triple_weak (refs others (bump f (-1) none))); [by intros ? [? _]|].
  eapply triple_bind; [apply filedup_refs|]. intros ?. apply triple_ret. apply bump_zero'.
Qed.

Lemma close_balanced : balanced (sys_close (S := S) (U := U)).
Proof.
  apply triple_argfd; [done|]. intros fd f Hf. eapply (triple_bind _ _ (fun _ => refs others (bump f 1 none))).
  - intros k [] k' [H Ho] E. eapply (refs_ofile none _ k _ (Some f) None Ho); [done| |exact H|exact E].
    intros g. unfold bump. rewrite (decide_False (P := None = Some g)) by done.
    destruct (decide (g = f)) as [->|Hg]; [rewrite decide_True by done; lia|rewrite decide_False by congruence; lia].
  - intros _. eapply triple_bind; [apply fileclose_refs|]. intros ?. apply triple_ret. apply (bump_zero f 1).
Qed.

Lemma silent_fetch a m : silent (fetchstr (S := S) (U := U) a m).
Proof. unfold fetchstr. silence. Qed.
Lemma silent_argstr n m : silent (argstr (S := S) (U := U) n m).
Proof. unfold argstr, argaddr, fetchstr. silence. Qed.
Lemma silent_argint n : silent (argint (S := S) (U := U) n).
Proof. unfold argint. silence. Qed.
Lemma silent_nlink ip d : silent (add_nlink (S := S) (U := U) ip d).
Proof. apply silent_fsop. Qed.
Lemma silent_fail : silent (fail_op (S := S) (U := U)).
Proof. unfold fail_op. silence. Qed.
End Ops.

Lemma silent_awake {S U} r : silent (awake (S := S) (U := U) r).
Proof. destruct r; [apply silent_ret|apply silent_hang]. Qed.

#[export] Hint Resolve silent_awake silent_fetch silent_argstr silent_argint silent_nlink silent_fail : silent.

(** Walk through code that keeps the counts. *)
Ltac balance :=
  repeat match goal with
  | |- triple _ (bind (setf _ _) _) _ => eapply triple_bind; [apply triple_setf_keep; intros ?; reflexivity|intros ?]
  | |- triple ?P (bind (if ?b then setf _ _ else ret tt) _) _ => apply (triple_bind P _ (fun _ => P)); [destruct b|intros ?]
  | |- triple _ (setf _ _) _ => apply triple_setf_keep; intros ?; reflexivity
  | |- triple _ (bind _ _) _ => apply triple_skip; [by silence|intros ?]
  | |- triple _ (if ?b then _ else _) _ => destruct b
  | |- triple _ (match ?o with Some _ => _ | None => _ end) _ => destruct o as [?|]
  | |- triple _ (let '(_, _) := ?p in _) _ => destruct p
  | |- triple _ (match ?t with FD_NONE => _ | FD_PIPE => _ | FD_INODE => _ | FD_DEVICE => _ end) _ => destruct t
  | |- triple _ (match ?r with Done _ => _ | Asleep _ => _ end) _ => destruct r
  | |- triple _ (awake _) _ => apply triple_silent, silent_awake
  | |- triple _ (ret _) _ => by apply triple_ret
  | |- triple _ (panic _) _ => apply triple_panic
  | |- triple _ hang _ => apply triple_hang
  end.

Section Calls.
Context {S U : Type} {HB : Blocks S} {HT : Txn S} {HU : UserSpace U} {HP : Pages U} {others : nat -> Z}.
Abbreviation KS := (kst S U).
Abbreviation K := (M (kst S U)).
Abbreviation balanced := (balanced (S := S) (U := U) (others := others)).

(** Device drivers do not know about descriptors. *)
Context {devread devwrite : Z -> option (Z -> Z -> Z -> K Z)}.
Definition quiet_devices : Prop := forall t m op, t = devread \/ t = devwrite -> t m = Some op -> forall a b c, silent (op a b c).
Context (Hdev : quiet_devices).

Lemma silent_device t m a n : t = devread \/ t = devwrite -> silent (device t m a n).
Proof.
  intros Ht. unfold device. destruct (_ || _); [apply silent_ret|]. destruct (t m) as [op|] eqn:E; [|apply silent_ret].
  by apply (Hdev t m op Ht E).
Qed.

Lemma fileread_balanced f a n : balanced (fileread devread f a n).
Proof.
  unfold FileRefs.balanced, fileread. apply triple_skip; [auto with silent|]. intros x. balance.
  apply triple_silent, silent_device. by left.
Qed.

Lemma write_chunk_balanced f a n : balanced (write_chunk f a n).
Proof. unfold FileRefs.balanced, write_chunk. balance. Qed.

Lemma filewrite_loop_balanced : forall fuel f a i n, balanced (filewrite_loop fuel f a i n).
Proof.
  induction fuel as [|fuel IH]; intros f a i n; cbn [filewrite_loop]; [apply triple_hang|].
  destruct (i <? n); [|by apply triple_ret]. eapply triple_bind; [apply write_chunk_balanced|]. intros r.
  destruct (negb _); [by apply triple_ret|apply IH].
Qed.

Lemma filewrite_balanced f a n : balanced (filewrite devwrite f a n).
Proof.
  unfold FileRefs.balanced, filewrite. apply triple_skip; [auto with silent|]. intros x. destruct (negb _); [by apply triple_ret|].
  apply triple_skip; [auto with silent|]. intros p. destruct (ftype x).
  - apply triple_panic.
  - balance.
  - eapply triple_bind; [apply filewrite_loop_balanced|]. intros ?. by apply triple_ret.
  - apply triple_silent, silent_device. by right.
Qed.

Lemma read_balanced : balanced (sys_read devread).
Proof.
  apply triple_skip; [apply silent_argraw|]. intros p. apply triple_skip; [apply silent_argint|]. intros n.
  apply triple_argfd; [done|]. intros fd0 f Hf. apply (triple_weak (refs others none)); [by intros ? [? _]|]. apply fileread_balanced.
Qed.
Lemma write_balanced : balanced (sys_write devwrite).
Proof.
  apply triple_skip; [apply silent_argraw|]. intros p. apply triple_skip; [apply silent_argint|]. intros n.
  apply triple_argfd; [done|]. intros fd0 f Hf. apply (triple_weak (refs others none)); [by intros ? [? _]|]. apply filewrite_balanced.
Qed.
Lemma fstat_balanced pad : balanced (sys_fstat pad).
Proof.
  apply triple_skip; [apply silent_argraw|]. intros p. apply triple_argfd; [done|]. intros fd0 f Hf.
  apply (triple_weak (refs others none)); [by intros ? [? _]|]. apply triple_silent. unfold filestat. silence.
Qed.

Lemma link_balanced : balanced sys_link.
Proof. apply balanced_silent. unfold sys_link, link_bad. silence. Qed.
Lemma silent_isdirempty : forall fuel ip off size, silent (isdirempty_loop (S := S) (U := U) fuel ip off size).
Proof. induction fuel as [|f IH]; intros ip off size; cbn [isdirempty_loop]; silence. Qed.
Lemma unlink_balanced : balanced sys_unlink.
Proof.
  apply balanced_silent. unfold sys_unlink, unlink_bad, isdirempty. silence. apply silent_isdirempty.
Qed.
Lemma silent_create p t a b : silent (create (S := S) (U := U) p t a b).
Proof. unfold create, create_fail. silence. Qed.
Lemma mkdir_balanced : balanced sys_mkdir.
Proof. apply balanced_silent. unfold sys_mkdir. silence. apply silent_create. Qed.
Lemma mknod_balanced : balanced sys_mknod.
Proof. apply balanced_silent. unfold sys_mknod. silence. apply silent_create. Qed.
Lemma chdir_balanced : balanced sys_chdir.
Proof. apply balanced_silent. unfold sys_chdir, set_cwd. silence. Qed.

Lemma triple_ext {A} e e' (c : K A) Q : (forall g, e g = e' g) -> triple (refs others e') c Q -> triple (refs others e) c Q.
Proof. intros He. apply triple_weak. intros k. by apply refs_ext. Qed.

Lemma silent_open_inode p m : silent (open_inode (S := S) (U := U) p m).
Proof. unfold open_inode. silence; apply silent_create. Qed.
Lemma silent_open_fail ip : silent (open_fail (S := S) (U := U) ip).
Proof. unfold open_fail. silence. Qed.

(** A file that never got a descriptor is closed again. *)
Lemma close_new {A} e f (c : K A) Q : triple (refs others e) c Q -> triple (refs others (bump f 1 e)) (fileclose f ;; c) Q.
Proof.
  intros Hc. eapply triple_bind; [apply fileclose_refs|]. intros []. apply (triple_ext _ e); [intros g; apply (bump_back f 1 e g)|].
  done.
Qed.

Lemma open_balanced : balanced sys_open.
Proof.
  unfold FileRefs.balanced, sys_open. apply triple_skip; [apply silent_argint|]. intros omode. apply triple_skip; [apply silent_argstr|].
  intros [path|]; [|by apply triple_ret]. apply triple_skip; [apply silent_begin|]. intros _.
  apply triple_skip; [apply silent_open_inode|]. intros [ip|]; [|by apply triple_ret]. apply triple_skip; [apply silent_fsop|]. intros x.
  destruct (_ && _); [apply triple_silent, silent_open_fail|]. eapply triple_bind; [apply filealloc_refs|].
  intros [f|]; [|apply triple_silent, silent_open_fail]. apply triple_pure. intros Hf.
  eapply triple_bind; [by apply fdalloc_refs|]. intros [fd|]; [|apply close_new, triple_silent, silent_open_fail].
  apply (triple_weak (refs others none)); [intros k [Hk _]; revert Hk; apply (bump_zero f 1)|].
  eapply triple_bind; [apply triple_setf_keep; intros ?; reflexivity|]. intros ?. apply triple_silent. silence.
Qed.

Definition new_pipe_ref (r : option (nat * nat)) (k : KS) : Prop :=
  match r with
  | Some (f0, f1) => refs others (bump f1 1 (bump f0 1 none)) k /\ (f0 < Z.to_nat NFILE)%nat /\ (f1 < Z.to_nat NFILE)%nat
  | None => refs others none k
  end.

Lemma pipealloc_refs junk : triple (refs others none) (pipealloc (S := S) (U := U) junk) new_pipe_ref.
Proof.
  unfold pipealloc. eapply triple_bind; [apply filealloc_refs|]. intros [f0|]; [|by apply triple_ret]. apply triple_pure. intros H0.
  eapply triple_bind; [apply filealloc_refs|]. intros [f1|].
  2:{ apply close_new. by apply triple_ret. }
  apply triple_pure. intros H1. apply triple_skip; [apply silent_memop|]. intros pi. destruct (pi =? 0).
  { apply (triple_ext _ (bump f0 1 (bump f1 1 none))); [intros g; unfold bump; do 2 case_decide; lia|]. apply close_new, close_new. by apply triple_ret. }
  apply triple_skip; [apply silent_setpipes|]. intros ?.
  eapply triple_bind; [apply triple_setf_keep; intros ?; reflexivity|]. intros ?.
  eapply triple_bind; [apply triple_setf_keep; intros ?; reflexivity|]. intros ?. by apply triple_ret.
Qed.

(** A descriptor is taken back. *)
Lemma unset_fd {A} e fd f (c : K A) Q : triple (refs others (bump f 1 e)) c Q ->
  triple (fun k => refs others e k /\ ofile (me k) !! fd = Some (Some f)) (set_ofile (fun l => <[fd := None]> l) ;; c) Q.
Proof.
  intros Hc. apply (triple_bind _ _ (fun _ => refs others (bump f 1 e))); [|intros []; exact Hc]. intros k [] k' [H Ho] E.
  eapply (refs_ofile e _ k fd (Some f) None Ho); [done| |exact H|exact E].
  intros g. unfold bump. rewrite (decide_False (P := None = Some g)) by done.
  destruct (decide (g = f)) as [->|Hg]; [rewrite decide_True by done; lia|rewrite decide_False by congruence; lia].
Qed.

(** [fdalloc] leaves the other descriptors alone. *)
Lemma fdalloc_frame e f fd0 g : (f < Z.to_nat NFILE)%nat ->
  triple (fun k => refs others e k /\ ofile (me k) !! fd0 = Some (Some g)) (fdalloc (S := S) (U := U) f) (fun r k =>
    match r with
    | Some fd => refs others (bump f (-1) e) k /\ ofile (me k) !! fd0 = Some (Some g) /\ ofile (me k) !! fd = Some (Some f) /\ fd <> fd0
    | None => refs others e k /\ ofile (me k) !! fd0 = Some (Some g)
    end).
Proof.
  intros Hf k r k' [H Ho] E. pose proof (fdalloc_refs e f Hf k r k' H E) as Hm. unfold fdalloc in E.
  rewrite (bind_ok _ _ k (ofile (me k)) k) in E by done. destruct (free_fd (ofile (me k)) 0) as [fd|] eqn:Efd.
  - apply free_fd_spec in Efd as [_ Hfd]. rewrite Nat.sub_0_r in Hfd. assert (fd <> fd0) as Hne by congruence.
    unfold set_ofile, modify, bind, ret in E. injection E as <- <-. destruct Hm as [Hm1 Hm2]. split; [done|]. split; [|done].
    cbn. by rewrite list_lookup_insert_ne.
  - injection E as <- <-. done.
Qed.

Lemma triple_skip_fd {A B} e R (c : K A) (h : A -> K B) Q : silent c ->
  (forall a, triple (fun k => refs others e k /\ R (ofile (me k))) (h a) Q) ->
  triple (fun k => refs others e k /\ R (ofile (me k))) (bind c h) Q.
Proof.
  intros Hc Hh. apply (triple_bind _ _ (fun _ k => refs others e k /\ R (ofile (me k)))); [|exact Hh].
  intros k a k' [H HR] E. destruct (Hc _ _ _ E) as [E1 E2]. split; [by apply (refs_same others e k)|by rewrite E2].
Qed.

Lemma bump_swap f g e h : bump f 1 (bump g 1 e) h = bump g 1 (bump f 1 e) h.
Proof. unfold bump. do 2 case_decide; lia. Qed.

Lemma pipe_balanced junk : balanced (sys_pipe junk).
Proof.
  unfold FileRefs.balanced, sys_pipe. apply triple_skip; [apply silent_argraw|]. intros fdarray.
  eapply triple_bind; [apply pipealloc_refs|]. intros [[rf wf]|]; [|by apply triple_ret].
  apply triple_pure. intros [Hrf Hwf].
  assert (forall (z : Z), triple (refs others (bump wf 1 (bump rf 1 none))) (fileclose rf ;; fileclose wf ;; ret z) (fun _ => refs (S := S) (U := U) others none)) as Hboth.
  { intros z. apply (triple_ext _ (bump rf 1 (bump wf 1 none))); [intros g; apply bump_swap|]. apply close_new, close_new. by apply triple_ret. }
  eapply triple_bind; [by apply fdalloc_refs|]. intros [fd0|]; [|apply Hboth].
  apply (triple_weak (fun k => refs others (bump wf 1 none) k /\ ofile (me k) !! fd0 = Some (Some rf))).
  { intros k [Hk Ho]. split; [|exact Ho]. revert Hk. apply refs_ext. intros g. unfold bump. do 2 case_decide; lia. }
  eapply triple_bind; [by apply fdalloc_frame|]. intros [fd1|].
  2:{ apply unset_fd. apply (triple_ext _ (bump wf 1 (bump rf 1 none))); [intros g; apply bump_swap|]. apply Hboth. }
  apply (triple_weak (fun k => refs others none k /\ (ofile (me k) !! fd0 = Some (Some rf) /\ ofile (me k) !! fd1 = Some (Some wf)) /\ fd1 <> fd0)).
  { intros k (Hk & H0 & H1 & Hne). split; [|done]. revert Hk. apply (bump_zero wf 1). }
  set (R := fun l : list (option nat) => (l !! fd0 = Some (Some rf) /\ l !! fd1 = Some (Some wf)) /\ fd1 <> fd0).
  apply (triple_weak (fun k => refs others none k /\ R (ofile (me k)))); [done|].
  apply triple_skip_fd; [auto with silent|]. intros pt. apply triple_skip_fd; [auto with silent|]. intros ok.
  apply triple_skip_fd; [destruct ok; auto with silent|]. intros [|].
  { apply triple_ret. by intros k [? _]. }
  apply (triple_bind _ _ (fun _ k => refs others (bump rf 1 none) k /\ ofile (me k) !! fd1 = Some (Some wf))).
  - intros k [] k' [H [[H0 H1] Hne]] E. split.
    + refine (unset_fd none fd0 rf (ret tt) (fun _ => refs others (bump rf 1 none)) _ k tt k' (conj H H0) _); [by apply triple_ret|].
      by rewrite (bind_ok _ _ _ _ _ E).
    + injection E as <-. cbn. by rewrite list_lookup_insert_ne by done.
  - intros []. apply unset_fd, Hboth.
Qed.

Lemma silent_fetchaddr a : silent (fetchaddr (S := S) (U := U) a).
Proof. unfold fetchaddr. silence. Qed.
Lemma silent_exec_args : forall fuel u i l, silent (exec_args (S := S) (U := U) fuel u i l).
Proof. induction fuel as [|f IH]; intros u i l; cbn [exec_args]; silence. apply silent_fetchaddr. Qed.
Lemma silent_free_args : forall l, silent (free_args (S := S) (U := U) l).
Proof. induction l as [|[p ?] l IH]; cbn [free_args]; silence. Qed.

Lemma exec_balanced exec : (forall p l, balanced (exec p l)) -> balanced (sys_exec exec).
Proof.
  intros He. unfold FileRefs.balanced, sys_exec. apply triple_skip; [apply silent_argraw|]. intros u. apply triple_skip; [apply silent_argstr|].
  intros [path|]; [|by apply triple_ret]. apply triple_skip; [apply silent_exec_args|]. intros [[|] l]; cbn [Datatypes.fst snd].
  - eapply triple_bind; [apply He|]. intros x. apply triple_skip; [apply silent_free_args|]. intros ?. by apply triple_ret.
  - apply triple_skip; [apply silent_free_args|]. intros ?. by apply triple_ret.
Qed.
End Calls.

(** ** Any sequence of calls *)
Section Runs.
Context {S U : Type} {HB : Blocks S} {HT : Txn S} {HU : UserSpace U} {HP : Pages U}.
Context (devread devwrite : Z -> option (Z -> Z -> Z -> M (kst S U) Z)).

(** The system calls of kernel/sysfile.c but [exec]. *)
Inductive file_call : M (kst S U) Z -> Prop :=
| call_dup : file_call sys_dup
| call_read : file_call (sys_read devread)
| call_write : file_call (sys_write devwrite)
| call_close : file_call sys_close
| call_fstat pad : file_call (sys_fstat pad)
| call_link : file_call sys_link
| call_unlink : file_call sys_unlink
| call_open : file_call sys_open
| call_mkdir : file_call sys_mkdir
| call_mknod : file_call sys_mknod
| call_chdir : file_call sys_chdir
| call_pipe junk : file_call (sys_pipe junk).

(** A process between boot and now: it makes calls, and in between it
    computes, changing its memory and the arguments of the next call. *)
Inductive runs : kst S U -> kst S U -> Prop :=
| runs_done k : runs k k
| runs_call c k r k1 k' : file_call c -> c k = Ok r k1 -> runs k1 k' -> runs k k'
| runs_user k k1 k' : ftable k1 = ftable k -> ofile (me k1) = ofile (me k) -> runs k1 k' -> runs k k'.

Lemma call_balanced others c : quiet_devices (devread := devread) (devwrite := devwrite) -> file_call c -> balanced (others := others) c.
Proof.
  intros Hd []; [apply dup_balanced|by eapply read_balanced|by eapply write_balanced|apply close_balanced|apply fstat_balanced|apply link_balanced
    |apply unlink_balanced|apply open_balanced|apply mkdir_balanced|apply mknod_balanced|apply chdir_balanced|apply pipe_balanced].
Qed.

(** C15.  Reference counts: through any sequence of system calls on files, on
    success and on every error path, the count of each entry of the file table
    is the number of descriptors that name it, here and in other processes;
    so a descriptor never names a free entry. *)
Theorem file_refs_invariant others k k' : quiet_devices (devread := devread) (devwrite := devwrite) -> (forall f, 0 <= others f) ->
  refs others none k -> runs k k' ->
  refs others none k' /\ forall fd f, ofile (me k') !! fd = Some (Some f) -> exists x, ftable k' !! f = Some x /\ 1 <= fref x.
Proof.
  intros Hd Hpos H Hr. assert (refs others none k') as H'.
  { induction Hr as [|c k r k1 k' Hc E _ IH|k k1 k' E1 E2 _ IH]; [done|apply IH; by eapply (call_balanced others c Hd Hc)|].
    apply IH. destruct H as [H1 H2 H3 H4]. constructor; rewrite ?E1, ?E2; done. }
  split; [exact H'|]. intros fd f Hf. pose proof (rf_live _ _ _ H' f ltac:(by eapply list_elem_of_lookup_2)) as Hlt.
  destruct (lookup_lt_is_Some_2 (ftable k') f) as [x Hx]; [by rewrite (rf_table _ _ _ H')|]. exists x. split; [done|].
  rewrite (rf_count _ _ _ H' f x Hx). specialize (Hpos f). pose proof (fdcount_set f _ fd _ None Hf) as E.
  rewrite decide_False, decide_True in E by done. unfold fdcount in *. lia.
Qed.
End Runs.

(** A process with one open file duplicates its descriptor. *)
Definition one_open (b : lst) (u : machine) : kst lst machine :=
  mkkst (mkfst b u sb0 [] 1 0 []) (mkfile FD_NONE 1 true true 0 0 0 0 :: replicate 99 (mkfile FD_NONE 0 false false 0 0 0 0)) ∅
    (mkup 0 0 (Some 0%nat :: replicate 15 None) (replicate 6 0) false 0 []).

Lemma one_open_refs b u : refs (fun _ => 0) none (one_open b u).
Proof.
  constructor; [|intros f Hf|done|done].
  - intros [|f] x Hx.
    + injection Hx as <-. done.
    + cbn in Hx. change (replicate 99 (mkfile FD_NONE 0 false false 0 0 0 0) !! f = Some x) in Hx.
      apply lookup_replicate in Hx as [-> _]. done.
  - change (Some f ∈ Some 0%nat :: replicate 15 None) in Hf. rewrite elem_of_cons, elem_of_replicate in Hf. destruct Hf as [[= ->]|[? _]]; [|done]. change NFILE with 100. lia.
Qed.

Lemma file_refs_invariant_witness : exists tr k k' fd x, @runs lst machine (layer tr) log_txn memory (vm_pages KERNBASE 4096) (fun _ => None) (fun _ => None) k k' /\
  ofile (me k') !! fd = Some (Some 0%nat) /\ ftable k' !! 0%nat = Some x /\ 1 <= fref x.
Proof.
  destruct small_file as (tr & s & pt & V & _). set (k := one_open (blks s) (usr s)).
  assert (exists k', sys_dup (S := lst) (U := machine) k = Ok 1 k' /\ ofile (me k') !! 1%nat = Some (Some 0%nat)) as (k' & E & Ho) by (eexists; split; reflexivity).
  assert (@runs lst machine (layer tr) log_txn memory (vm_pages KERNBASE 4096) (fun _ => None) (fun _ => None) k k') as Hr.
  { eapply runs_call; [apply call_dup|exact E|apply runs_done]. }
  destruct (file_refs_invariant (HB := layer tr) (HT := log_txn) (HU := memory) (HP := vm_pages KERNBASE 4096) (fun _ => None) (fun _ => None) (fun _ => 0) k k')
    as [_ Hl]; [|intros f; lia|apply one_open_refs|exact Hr|].
  - intros t m op Ht Hop. destruct Ht as [E1|E1]; rewrite E1 in Hop; discriminate Hop.
  - destruct (Hl 1%nat 0%nat Ho) as (x & Hx & Hp). exists tr, k, k', 1%nat, x. split; [exact Hr|]. split; [exact Ho|]. split; [exact Hx|exact Hp].
Defined.
