(* ===== verification/FileWrite.v ===== *)
(** * Writing a file survives a crash

    One round of the loop of [filewrite] (kernel/file.c) from the system call
    down to the disk: a transaction of kernel/log.c around [writei] of
    kernel/fs.c, with the user's bytes fetched through kernel/vm.c. *)

From S2P Require Import Prelude Riscv Mem Lock Kalloc VmInv Bio BioSpec Log LogSpec LogCommit LogCrash LogOps Transactions.
From S2P Require Import Vm UserView AddressSpaces UserIO Pipe Blocks LogBlocks Fs FsBlocks FsFiles FsMap FsContents FsWrite FsInode FsSpec FsTable File.
Import KString.
Local Open Scope Z_scope.

(** The lock does not matter to the file. *)
Section Unlocked.
Context {S : Type} {HB : Blocks S} {d : superblock}.

Lemma file_ilk v x l : file_ok d v x -> file_ok d v (set_ilk l x).
Proof. intros [[H1 H2 H3 H4 H5] H6 H7]. constructor; [constructor; done|done|done]. Qed.
Lemma dinode_ilk x l : dinode_ok x -> dinode_ok (set_ilk l x).
Proof. intros [H1 H2 H3 H4]. constructor; done. Qed.
Lemma wrote_ilk v x off bs v' x' l : wrote d v x off bs v' x' -> wrote d v (set_ilk l x) off bs v' (set_ilk l x').
Proof.
  intros [H1 H2 H3 H4 H5 H6 H7 H8 H9]. constructor; [by apply file_ilk|exact H2|exact H3|exact H4|exact H5|exact H6| |exact H8|].
  - pose proof (f_equal (set_ilk l) H7) as E. exact E.
  - rewrite H9 at 1. done.
Qed.
End Unlocked.

Lemma touched_max off n : 0 <= off -> 0 <= n <= maxwrite -> 0 <= touched off n <= 4.
Proof.
  intros Ho Hn. change maxwrite with 3072 in Hn. unfold touched. change BSIZE with 1024.
  pose proof (Z.mod_pos_bound off 1024 ltac:(done)). pose proof (Z.div_mod (n + off mod 1024 + (1024 - 1)) 1024 ltac:(done)).
  pose proof (Z.mod_pos_bound (n + off mod 1024 + (1024 - 1)) 1024 ltac:(done)). lia.
Qed.

Lemma cost_none d : cost d ∅ = 1.
Proof. unfold cost. rewrite union_empty_r_L, size_singleton. done. Qed.

Section Atomic.
Context {U : Type} {HU : UserSpace U} (Hbuf : BSIZE <= bufsize).
Context (dev start size_ : Z) (D : gmap Z block) (tr : list (Z * block)) (Hsize : MAXOPBLOCKS + 1 < size_).
Abbreviation HB := (log_blocks dev start size_ D tr Hsize).
Abbreviation wr := (@write_chunk lst U HB log_txn HU).

(** No operation is running; inode [x] of the table is a file of the disk. *)
Record at_rest (A : store) (s : fst lst U) (ip : nat) (x : inode) : Prop := {
  ar_idle : idle dev A (blks s);
  ar_disk : sdisk A = D /\ strace A = tr;
  ar_log : lstart (lg (blks s)) = start /\ lsize (lg (blks s)) = size_;
  ar_entry : itable s !! ip = Some x;
  ar_cached : ivalid x = true /\ 1 <= iref x /\ ilk x = None;
  ar_super : @disk_ok lst HB (sb s);
  ar_meta : meta_used (sb s) (blk D);
  ar_file : @file_ok lst HB (sb s) (blk D) x;
  ar_dinode : dinode_ok x;
  ar_inum : 0 <= inum x < ninodes (sb s);
  ar_locks : "sleep lock" ∉ fheld s
}.

(** [begin_op], [ilock]. *)
Lemma chunk_opens A s ip x : at_rest A s ip x ->
  exists b1, Log.begin_op (blks s) = Ok tt b1 /\
    let s1 := with_ino ip (set_ilk (Some (fpid s)) x) (with_blks b1 s) in
    @ilock lst U HB ip (with_blks b1 s) = Ok tt s1 /\ @open_file lst U HB s1 (blk D) ∅ ip (set_ilk (Some (fpid s)) x).
Proof.
  intros [H1 [H2 H2'] [H3 H3'] H4 (H5 & H5' & H5'') H6 H7 H8 H9 H10 H11].
  destruct (begin_open dev start size_ D tr Hsize A (blks s) H1 H2 H2' H3 H3') as (b1 & E & Hr).
  exists b1. split; [exact E|]. set (s1 := with_ino _ _ _). split.
  - apply (ilock_valid (s := with_blks b1 s) (ip := ip) (x := x)); done.
  - constructor; [by eapply (with_ino_lookup ip _ x (with_blks b1 s))|exact Hr|exact H6|exact H7|by apply file_ilk|by apply dinode_ilk|exact H10].
Qed.

(** [iunlock], [end_op]. *)
Lemma chunk_closes A s ip x s' v' L x' : at_rest A s ip x -> @open_file lst U HB s' v' L ip x' ->
  ilk x' = Some (fpid s') -> 1 <= iref x' -> "sleep lock" ∉ fheld s' ->
  exists b' W, @iunlock lst U ip s' = Ok tt (with_ino ip (set_ilk None x') s') /\
    Log.end_op (blks s') = Ok tt b' /\ idle dev (mkstore ∅ (apply_writes W D) (tr ++ W)) b' /\
    lstart (lg b') = start /\ lsize (lg b') = size_ /\
    (forall b, home start size_ b -> blk (apply_writes W D) b = v' b) /\
    forall k, redo start size_ (blk D) (apply_writes (take k W) D) \/ redo start size_ v' (apply_writes (take k W) D).
Proof.
  intros Hr Ho Hk Href Hl. destruct (ar_disk _ _ _ _ Hr) as [H2 H2'].
  destruct (end_open dev start size_ D tr Hsize (blks s') v' L A (of_disk _ _ _ _ _ Ho) H2 H2') as (b' & W & E & Hi & L1 & L2 & Hh & Hc).
  { pose proof (id_head _ _ _ (ar_idle _ _ _ _ Hr)) as H0. by rewrite (proj1 (ar_log _ _ _ _ Hr)) in H0. }
  exists b', W. split; [by apply (iunlock_mine (of_entry _ _ _ _ _ Ho) Hl)|]. done.
Qed.

Lemma write_chunk_spec A P V (k : kst lst U) f y x bs addr : let s := fsys k in let pt := pagetable (me k) in
  ftable k !! f = Some y -> at_rest A s (fip y) x -> sees (usr s) P V -> P pt ->
  (forall i b, bs !! i = Some b -> V pt (addr + Z.of_nat i) = Some b) -> Forall byte_ok bs ->
  0 <= addr -> addr + Z.of_nat (length bs) < 2 ^ 64 -> Z.of_nat (length bs) <= maxwrite ->
  0 <= foff y <= isize x -> foff y + Z.of_nat (length bs) <= MAXFILE * BSIZE ->
  exists (i : nat) k' v' x' W, wr f addr (Z.of_nat (length bs)) k = Ok (Z.of_nat i) k' /\
    (i <= length bs)%nat /\ @wrote lst HB (sb s) (blk D) x (foff y) (take i bs) v' x' /\
    ftable k' !! f = Some (set_foff (fun o => o + Z.of_nat i) y) /\ itable (fsys k') !! fip y = Some x' /\
    idle dev (mkstore ∅ (apply_writes W D) (tr ++ W)) (blks (fsys k')) /\
    (forall b, home start size_ b -> blk (apply_writes W D) b = v' b) /\
    forall j, redo start size_ (blk D) (apply_writes (take j W) D) \/ redo start size_ v' (apply_writes (take j W) D).
Proof.
  intros s pt Hf Hr Hs HP Hbs Hok Ha He Hn Hoff Hend.
  destruct (chunk_opens A s (fip y) x Hr) as (b1 & E1 & E2 & Ho). set (x1 := set_ilk (Some (fpid s)) x) in *.
  set (s1 := with_ino (fip y) x1 (with_blks b1 s)) in *.
  destruct (@writei_file lst U HB HU Hbuf P V (FromUser pt addr) bs (fip y) s1 (blk D) ∅ x1 (foff y) Ho Hs HP Hbs Hok Ha He Hoff Hend)
    as (i & v' & lg' & x2 & s2 & E3 & Ho2 & Hs2 & Hi & W & Hsb & Hhd & Hpid & Htab & Hfull).
  { rewrite cost_none. pose proof (touched_max (foff y) (Z.of_nat (length bs)) ltac:(lia) ltac:(lia)). change MAXOPBLOCKS with 10. lia. }
  pose proof (wt_rest _ _ _ _ _ _ _ W) as Ex2.
  assert (ilk x2 = Some (fpid s2) /\ iref x2 = iref x) as [Hlk Href] by (rewrite Ex2, Hpid; done).
  destruct (ar_cached _ _ _ _ Hr) as (_ & Hr1 & Hfree).
  destruct (chunk_closes A s (fip y) x s2 v' lg' x2 Hr Ho2 Hlk ltac:(lia)) as (b' & Wd & E4 & E5 & Hid & L1 & L2 & Hh & Hc).
  { rewrite Hhd. apply Hr. }
  set (s3 := with_ino (fip y) (set_ilk None x2) s2) in *.
  set (y' := if 0 <? Z.of_nat i then set_foff (fun o => u32 (o + Z.of_nat i)) y else y).
  assert (y' = set_foff (fun o => o + Z.of_nat i) y) as Ey.
  { unfold y', set_foff. change (MAXFILE * BSIZE) with 274432 in Hend. destruct (Z.ltb_spec 0 (Z.of_nat i)).
    - f_equal. apply u32_small. lia.
    - replace (Z.of_nat i) with 0 by lia. rewrite Z.add_0_r. by destruct y. }
  exists i, (mkkst (with_blks b' s3) (<[f := y']> (ftable k)) (pipes k) (me k)), v', (set_ilk None x2), Wd.
  split; [|split; [done|split; [|split; [|split; [|split; [exact Hid|split; [exact Hh|exact Hc]]]]]]].
  - unfold write_chunk, getf. unfold bind at 1. rewrite Hf. rewrite (bind_ok _ _ k (me k) k) by done.
    unfold File.begin_op, fsop at 1, blkop at 1, zoom at 1 2. unfold bind at 1. cbn [log_txn txn_begin fsys]. fold s. rewrite E1.
    unfold fsop at 1, zoom at 1. unfold bind at 1. cbn [fsys ftable pipes me]. change (mkfst b1 _ _ _ _ _ _) with (with_blks b1 s). rewrite E2.
    unfold fsop at 1, zoom at 1. unfold bind at 1. cbn [fsys ftable pipes me]. change (pagetable (me k)) with pt. fold s1. rewrite E3.
    rewrite (bind_ok _ _ _ tt (mkkst s2 (<[f := y']> (ftable k)) (pipes k) (me k))).
    2:{ unfold y', setf. destruct (0 <? Z.of_nat i); [cbn [ftable fsys pipes me]; by rewrite Hf|]. cbn. unfold ret. f_equal. f_equal. by rewrite list_insert_id. }
    unfold fsop at 1, zoom at 1. unfold bind at 1. cbn [fsys ftable pipes me]. rewrite E4.
    unfold File.end_op, fsop, blkop, zoom. unfold bind. cbn [log_txn txn_end fsys ftable pipes me]. change (blks s3) with (blks s2). by rewrite E5.
  - apply (wrote_ilk _ _ _ _ _ _ None) in W. change (set_ilk None x1) with (set_ilk None x) in W. 
    replace (set_ilk None x) with x in W; [exact W|]. rewrite <- Hfree. by destruct x.
  - cbn. rewrite <- Ey. apply list_lookup_insert_eq. by eapply lookup_lt_Some.
  - cbn [fsys with_blks itable]. apply (with_ino_lookup _ _ x2). apply Ho2.
Qed.

(** C4.  Writing a file is atomic: from a moment when no operation is running,
    one round of [filewrite] with up to [maxwrite] bytes returns the number of
    bytes written, advances the offset by it, and leaves on the disk the file
    with those bytes replaced and everything else as it was.  Cut off by a
    crash after any number of disk writes, the machine boots again, and
    however often recovery is interrupted, the disk ends up with either all
    of the write or nothing of it. *)
Theorem write_chunk_atomic A P V (k : kst lst U) f y x bs addr : let s := fsys k in let pt := pagetable (me k) in
  dev <> 0 -> ftable k !! f = Some y -> at_rest A s (fip y) x -> sees (usr s) P V -> P pt ->
  (forall i b, bs !! i = Some b -> V pt (addr + Z.of_nat i) = Some b) -> Forall byte_ok bs ->
  0 <= addr -> addr + Z.of_nat (length bs) < 2 ^ 64 -> Z.of_nat (length bs) <= maxwrite ->
  0 <= foff y <= isize x -> foff y + Z.of_nat (length bs) <= MAXFILE * BSIZE ->
  exists (i : nat) k' v' x' W, wr f addr (Z.of_nat (length bs)) k = Ok (Z.of_nat i) k' /\
    (i <= length bs)%nat /\ @wrote lst HB (sb s) (blk D) x (foff y) (take i bs) v' x' /\
    ftable k' !! f = Some (set_foff (fun o => o + Z.of_nat i) y) /\ itable (fsys k') !! fip y = Some x' /\
    idle dev (mkstore ∅ (apply_writes W D) (tr ++ W)) (blks (fsys k')) /\
    (forall b, home start size_ b -> blk (apply_writes W D) b = v' b) /\
    all_or_nothing dev start size_ D (blk D) v' W.
Proof.
  intros s pt Hdev Hf Hr Hs HP Hbs Hok Ha He Hn Hoff Hend.
  destruct (write_chunk_spec A P V k f y x bs addr Hf Hr Hs HP Hbs Hok Ha He Hn Hoff Hend) as (i & k' & v' & x' & W & E & H1 & H2 & H3 & H4 & H5 & H6 & H7).
  exists i, k', v', x', W. split; [exact E|]. split; [done|]. split; [done|]. split; [done|]. split; [done|]. split; [done|]. split; [done|].
  by apply redo_all_or_nothing.
Qed.
End Atomic.

(** ** On the small disk, with the bytes of a user page *)
Import SmallDisk.

Lemma demo_bytes : exists (u : machine) pt V bs, @sees machine memory u (eq pt) V /\ Forall byte_ok bs /\ length bs = 3%nat /\
  forall i b, bs !! i = Some b -> V pt (100 + Z.of_nat i) = Some b.
Proof.
  destruct demo_space as (l & g & u & pt & new & w & Hi & Ho & _ & _ & Hk & Hl & HU & _).
  set (V := user_view g u). set (bs := map (fun i => default 0 (V pt (100 + Z.of_nat i))) (seq 0 3)).
  assert (forall i, (i < 3)%nat -> exists b, V pt (100 + Z.of_nat i) = Some b /\ byte_ok b) as Hv.
  { intros i Hlt. exists (ld8 (mem u) (PTE2PA w + (100 + Z.of_nat i) mod PGSIZE)). split; [|apply ld8_range].
    unfold V, user_view, uview. rewrite (proj2 (Z.leb_gt _ _)) by (change TRAPFRAME with 274877898752; lia).
    assert (vpn (100 + Z.of_nat i) = 0) as -> by (unfold vpn; apply Z.div_small; change PGSIZE with 4096; lia).
    by rewrite Hl, lookup_singleton_eq, HU. }
  exists u, pt, V, bs. split; [|split; [|split; [done|]]].
  - exists l, g. split; [exact Hi|]. split; [by intros pt' <-|]. split; [exact Hk|done].
  - apply Forall_forall. intros b Hb. apply list_elem_of_fmap in Hb as (i & -> & Hin). apply elem_of_seq in Hin.
    destruct (Hv i ltac:(lia)) as (b & -> & Hb). exact Hb.
  - intros i b Hib. pose proof (lookup_lt_Some _ _ _ Hib) as Hlt. change (length bs) with 3%nat in Hlt.
    destruct (Hv i Hlt) as (c & Ec & _). unfold bs in Hib. rewrite list_lookup_fmap, lookup_seq_lt in Hib by done. change (Some (default 0 (V pt (100 + Z.of_nat i))) = Some b) in Hib.
    rewrite Ec in Hib |- *. exact Hib.
Qed.

Lemma write_chunk_atomic_witness : exists tr k i k' W, @write_chunk lst machine (layer tr) log_txn memory 0 100 3 k = Ok (Z.of_nat i) k' /\
  idle 1 (mkstore ∅ (apply_writes W disk1) (tr ++ W)) (blks (fsys k')).
Proof.
  destruct boots as (b & A & Hid & Hs & Hz & HD). destruct demo_bytes as (u & pt & V & bs & Hsee & Hok & Hlen & Hbs).
  set (y := mkfile FD_INODE 1 true true 0 0 0 0).
  set (k := mkkst (mkfst b u sb0 [file0] 1 0 []) [y] ∅ (mkup pt 4096 (replicate 16 None) (replicate 6 0) false 0 [])).
  destruct (@write_chunk_atomic machine memory ltac:(done) 1 2 30 disk1 (strace A) ltac:(done) A (eq pt) V k 0 y file0 bs 100)
    as (i & k' & v' & x' & W & E & _ & _ & _ & _ & Hi & _); try done.
  - constructor; [exact Hid|done|done|reflexivity|done|apply sb0_ok|apply meta0|apply file0_ok|apply dinode0|done|apply not_elem_of_nil].
  - rewrite Hlen. done.
  - rewrite Hlen. done.
  - rewrite Hlen. done.
  - exists (strace A), k, i, k', W. rewrite Hlen in E. split; [exact E|exact Hi].
Defined.
