(* ===== verification/Proc.v ===== *)
(** * kernel/proc.c: processes

    The process table and the functions on it, as one CPU runs them.  Files
    and memory are reached through the interface [Files]; a process is an
    index of the table, a null pointer is [None].  Where the code calls
    [sched] the process leaves the CPU: [sched] here is what it checks before
    [swtch], and what runs after the process has been chosen again is a
    definition of its own. *)

From stdpp Require Import pretty.
From S2P Require Import Prelude Riscv Mem Lock Kalloc Vm UserIO Pipe.
From S2P Require Import Blocks Fs File Log.
Local Open Scope Z_scope.

(** What processes use of files and memory. *)
Class Files (F : Type) := {
  fl_dup : nat -> M F nat;
  fl_close : nat -> M F unit;
  fl_idup : nat -> M F nat;
  (** [begin_op; iput; end_op] *)
  fl_iput : nat -> M F unit;
  fl_namei : list Z -> M F (option nat);
  fl_mem : forall A, M machine A -> M F A
}.
Arguments fl_mem {F _ A} _.

#[export] Instance kernel_files {S} {HB : Blocks S} {HT : Txn S} {HU : UserSpace machine} {HP : Pages machine} : Files (kst S machine) := {|
  fl_dup := filedup; fl_close := fileclose; fl_idup i := fsop (idup i);
  fl_iput i := File.begin_op ;; fsop (iput i) ;; File.end_op;
  fl_namei p := fsop (namei p); fl_mem A c := memop c
|}.

(** ** kernel/proc.h *)
Inductive procstate := UNUSED | USED | SLEEPING | RUNNABLE | RUNNING | ZOMBIE.
#[export] Instance procstate_eq : EqDecision procstate.
Proof. solve_decision. Defined.

(** What a process can sleep on: a [struct proc], or another address. *)
Inductive channel := NoChan | OnProc (p : nat) | OnAddr (a : Z).
#[export] Instance channel_eq : EqDecision channel.
Proof. solve_decision. Defined.

Record proc := mkproc {
  pstate : procstate; pchan : channel; killed_ : Z; xstate : Z; pid : Z; parent : option nat;
  kstack : Z; sz : Z; pgtbl : Z; trapframe : Z; ctx_ra : Z; ctx_sp : Z;
  ofiles : list (option nat); pcwd : option nat; pname : list Z
}.

(** The trapframe fields the code touches. *)
Definition TF_EPC : Z := 24.
Definition TF_SP : Z := 48.
Definition TF_A0 : Z := 112.
Definition TF_SIZE : Z := 288.

Record pk (F : Type) := mkpk {
  files : F; procs : list proc; nextpid : Z; initproc : option nat; curproc : option nat; lks : list string; ticks : Z
}.
Arguments mkpk {F} _ _ _ _ _ _ _.
Arguments files {F} _.
Arguments procs {F} _.
Arguments nextpid {F} _.
Arguments initproc {F} _.
Arguments curproc {F} _.
Arguments lks {F} _.
Arguments ticks {F} _.

Section Proc.
Context {F : Type} {HF : Files F} {HU : UserSpace machine}.
(** The end of the kernel, the trampoline page and [forkret]. *)
Context (end_ trampoline forkret_addr : Z).
Abbreviation P := (M (pk F)).

#[export] Instance pk_locks : Locks (pk F).
Proof.
  refine {| held := lks; set_held l k := mkpk (files k) (procs k) (nextpid k) (initproc k) (curproc k) l (ticks k) |}.
  - done.
  - done.
  - by intros [].
Defined.

Definition fileop {A} (c : M F A) : P A :=
  zoom files (fun f k => mkpk f (procs k) (nextpid k) (initproc k) (curproc k) (lks k) (ticks k)) c.
Definition mem {A} (c : M machine A) : P A := fileop (fl_mem c).

(** [p->lock] *)
Definition plock (i : nat) : string := String.append "proc " (pretty i).

Definition pget {A} (i : nat) (f : proc -> A) : P A := fun k =>
  match procs k !! i with Some p => Ok (f p) k | None => Undef end.
Definition pset (i : nat) (f : proc -> proc) : P unit := fun k =>
  match procs k !! i with
  | Some p => Ok tt (mkpk (files k) (<[i := f p]> (procs k)) (nextpid k) (initproc k) (curproc k) (lks k) (ticks k))
  | None => Undef
  end.

Definition set_state (s : procstate) (p : proc) : proc :=
  mkproc s (pchan p) (killed_ p) (xstate p) (pid p) (parent p) (kstack p) (sz p) (pgtbl p) (trapframe p) (ctx_ra p) (ctx_sp p) (ofiles p) (pcwd p) (pname p).
Definition set_chan (c : channel) (p : proc) : proc :=
  mkproc (pstate p) c (killed_ p) (xstate p) (pid p) (parent p) (kstack p) (sz p) (pgtbl p) (trapframe p) (ctx_ra p) (ctx_sp p) (ofiles p) (pcwd p) (pname p).
Definition set_killed (z : Z) (p : proc) : proc :=
  mkproc (pstate p) (pchan p) z (xstate p) (pid p) (parent p) (kstack p) (sz p) (pgtbl p) (trapframe p) (ctx_ra p) (ctx_sp p) (ofiles p) (pcwd p) (pname p).
Definition set_xstate (z : Z) (p : proc) : proc :=
  mkproc (pstate p) (pchan p) (killed_ p) z (pid p) (parent p) (kstack p) (sz p) (pgtbl p) (trapframe p) (ctx_ra p) (ctx_sp p) (ofiles p) (pcwd p) (pname p).
Definition set_pid (z : Z) (p : proc) : proc :=
  mkproc (pstate p) (pchan p) (killed_ p) (xstate p) z (parent p) (kstack p) (sz p) (pgtbl p) (trapframe p) (ctx_ra p) (ctx_sp p) (ofiles p) (pcwd p) (pname p).
Definition set_parent (o : option nat) (p : proc) : proc :=
  mkproc (pstate p) (pchan p) (killed_ p) (xstate p) (pid p) o (kstack p) (sz p) (pgtbl p) (trapframe p) (ctx_ra p) (ctx_sp p) (ofiles p) (pcwd p) (pname p).
Definition set_kstack (z : Z) (p : proc) : proc :=
  mkproc (pstate p) (pchan p) (killed_ p) (xstate p) (pid p) (parent p) z (sz p) (pgtbl p) (trapframe p) (ctx_ra p) (ctx_sp p) (ofiles p) (pcwd p) (pname p).
Definition set_sz (z : Z) (p : proc) : proc :=
  mkproc (pstate p) (pchan p) (killed_ p) (xstate p) (pid p) (parent p) (kstack p) z (pgtbl p) (trapframe p) (ctx_ra p) (ctx_sp p) (ofiles p) (pcwd p) (pname p).
Definition set_pgtbl (z : Z) (p : proc) : proc :=
  mkproc (pstate p) (pchan p) (killed_ p) (xstate p) (pid p) (parent p) (kstack p) (sz p) z (trapframe p) (ctx_ra p) (ctx_sp p) (ofiles p) (pcwd p) (pname p).
Definition set_trapframe (z : Z) (p : proc) : proc :=
  mkproc (pstate p) (pchan p) (killed_ p) (xstate p) (pid p) (parent p) (kstack p) (sz p) (pgtbl p) z (ctx_ra p) (ctx_sp p) (ofiles p) (pcwd p) (pname p).
Definition set_context (ra sp : Z) (p : proc) : proc :=
  mkproc (pstate p) (pchan p) (killed_ p) (xstate p) (pid p) (parent p) (kstack p) (sz p) (pgtbl p) (trapframe p) ra sp (ofiles p) (pcwd p) (pname p).
Definition set_ofiles (f : list (option nat) -> list (option nat)) (p : proc) : proc :=
  mkproc (pstate p) (pchan p) (killed_ p) (xstate p) (pid p) (parent p) (kstack p) (sz p) (pgtbl p) (trapframe p) (ctx_ra p) (ctx_sp p) (f (ofiles p)) (pcwd p) (pname p).
Definition set_pcwd (o : option nat) (p : proc) : proc :=
  mkproc (pstate p) (pchan p) (killed_ p) (xstate p) (pid p) (parent p) (kstack p) (sz p) (pgtbl p) (trapframe p) (ctx_ra p) (ctx_sp p) (ofiles p) o (pname p).
Definition set_name (f : list Z -> list Z) (p : proc) : proc :=
  mkproc (pstate p) (pchan p) (killed_ p) (xstate p) (pid p) (parent p) (kstack p) (sz p) (pgtbl p) (trapframe p) (ctx_ra p) (ctx_sp p) (ofiles p) (pcwd p) (f (pname p)).

(** [for(p = proc; p < &proc[NPROC]; p++) body] *)
Fixpoint each_proc (n i : nat) (body : nat -> P unit) : P unit :=
  match n with O => ret tt | Datatypes.S n' => body i ;; each_proc n' (i + 1) body end.
Definition NP : nat := Z.to_nat NPROC.

Definition procinit : P unit :=
  initlock "nextpid" ;;
  initlock "wait_lock" ;;
  each_proc NP 0 (fun i => initlock (plock i) ;; pset i (fun p => set_kstack (KSTACK (Z.of_nat i)) (set_state UNUSED p))).

(** [myproc()]; using a null result is undefined. *)
Definition myproc : P nat := fun k => match curproc k with Some p => Ok p k | None => Undef end.

(** The increment of [nextpid] must not overflow. *)
Definition allocpid : P Z :=
  acquire "nextpid" ;;
  do! n <- gets nextpid;
  (if n =? 2 ^ 31 - 1 then undef
   else modify (fun k => mkpk (files k) (procs k) (n + 1) (initproc k) (curproc k) (lks k) (ticks k))) ;;
  release "nextpid" ;;
  ret n.

(** ** Page tables of processes *)

Definition proc_pagetable (tf : Z) : M machine Z :=
  do! pt <- uvmcreate;
  if pt =? 0 then ret 0
  else
    do! r <- mappages pt TRAMPOLINE PGSIZE trampoline (Z.lor PTE_R PTE_X);
    if r <? 0 then uvmfree end_ pt 0 ;; ret 0
    else
      do! r <- mappages pt TRAPFRAME PGSIZE tf (Z.lor PTE_R PTE_W);
      if r <? 0 then uvmunmap end_ pt TRAMPOLINE 1 false ;; uvmfree end_ pt 0 ;; ret 0
      else ret pt.

Definition proc_freepagetable (pt size : Z) : M machine unit :=
  uvmunmap end_ pt TRAMPOLINE 1 false ;;
  uvmunmap end_ pt TRAPFRAME 1 false ;;
  uvmfree end_ pt size.

Definition freeproc (i : nat) : P unit :=
  do! p <- pget i (fun p => p);
  (if trapframe p =? 0 then ret tt else mem (kfree end_ (trapframe p))) ;;
  pset i (set_trapframe 0) ;;
  (if pgtbl p =? 0 then ret tt else mem (proc_freepagetable (pgtbl p) (sz p))) ;;
  pset i (fun p => set_state UNUSED (set_xstate 0 (set_killed 0 (set_chan NoChan
    (set_name (fun l => <[0%nat := 0]> l) (set_parent None (set_pid 0 (set_sz 0 (set_pgtbl 0 p))))))))).

(** The first unused process, with its lock held. *)
Fixpoint find_unused_proc (n i : nat) : P (option nat) :=
  match n with
  | O => ret None
  | Datatypes.S n' =>
      acquire (plock i) ;;
      do! s <- pget i pstate;
      if bool_decide (s = UNUSED) then ret (Some i)
      else release (plock i) ;; find_unused_proc n' (i + 1)
  end.

Definition allocproc : P (option nat) :=
  do! o <- find_unused_proc NP 0;
  match o with
  | None => ret None
  | Some i =>
      do! n <- allocpid;
      pset i (fun p => set_state USED (set_pid n p)) ;;
      do! tf <- mem kalloc;
      pset i (set_trapframe tf) ;;
      if tf =? 0 then freeproc i ;; release (plock i) ;; ret None
      else
        do! pt <- mem (proc_pagetable tf);
        pset i (set_pgtbl pt) ;;
        if pt =? 0 then freeproc i ;; release (plock i) ;; ret None
        else pset i (fun p => set_context forkret_addr (u64 (kstack p + PGSIZE)) p) ;; ret (Some i)
  end.

(** [safestrcpy(dst, src, 16)] on a name. *)
Fixpoint until_nul (l : list Z) : list Z :=
  match l with [] => [] | c :: l' => if c =? 0 then [] else c :: until_nul l' end.
Definition copy_name (old src : list Z) : list Z :=
  let s := take 15 (until_nul src) in s ++ [0] ++ drop (length s + 1) old.

Definition store_tf (tf off v : Z) : M machine unit := store64 (tf + off) v.

(** "initcode", "/" *)
Definition initcode_name : list Z := [105; 110; 105; 116; 99; 111; 100; 101].
Definition root_path : list Z := [SLASH].

(** [initcode] is at [code], [len] bytes. *)
Definition userinit (code len : Z) : P unit :=
  do! o <- allocproc;
  modify (fun k => mkpk (files k) (procs k) (nextpid k) o (curproc k) (lks k) (ticks k)) ;;
  match o with
  | None => undef
  | Some i =>
      do! p <- pget i (fun p => p);
      mem (uvmfirst (pgtbl p) code len) ;;
      pset i (set_sz PGSIZE) ;;
      mem (store_tf (trapframe p) TF_EPC 0) ;;
      mem (store_tf (trapframe p) TF_SP PGSIZE) ;;
      pset i (set_name (fun l => copy_name l initcode_name)) ;;
      do! d <- fileop (fl_namei root_path);
      pset i (fun p => set_state RUNNABLE (set_pcwd d p)) ;;
      release (plock i)
  end.

Definition growproc (n : Z) : P Z :=
  do! i <- myproc;
  do! p <- pget i (fun p => p);
  if 0 <? n then
    do! r <- mem (uvmalloc end_ (pgtbl p) (sz p) (u64 (sz p + n)) PTE_W);
    if r =? 0 then ret (-1) else pset i (set_sz r) ;; ret 0
  else if n <? 0 then
    do! r <- mem (uvmdealloc end_ (pgtbl p) (sz p) (u64 (sz p + n)));
    pset i (set_sz r) ;; ret 0
  else ret 0.

(** ** Sleeping and waking *)

(** What [sched] checks before [swtch]; a CPU that holds a lock has its
    interrupts off (kernel/spinlock.c). *)
Definition sched (i : nat) : P unit :=
  do! l <- gets lks;
  if negb (bool_decide (plock i ∈ l)) then panic "sched p->lock"
  else if negb (Nat.eqb (length l) 1) then panic "sched locks"
  else
    do! s <- pget i pstate;
    if bool_decide (s = RUNNING) then panic "sched running" else ret tt.

(** The scheduler looks at process [i]: [true] when it switches to it, with
    its lock held. *)
Definition scheduler_visit (i : nat) : P bool :=
  acquire (plock i) ;;
  do! s <- pget i pstate;
  if bool_decide (s = RUNNABLE) then
    pset i (set_state RUNNING) ;;
    modify (fun k => mkpk (files k) (procs k) (nextpid k) (initproc k) (Some i) (lks k) (ticks k)) ;;
    ret true
  else release (plock i) ;; ret false.

(** The process has come back. *)
Definition scheduler_return (i : nat) : P unit :=
  modify (fun k => mkpk (files k) (procs k) (nextpid k) (initproc k) None (lks k) (ticks k)) ;;
  release (plock i).

Definition yield : P unit :=
  do! i <- myproc;
  acquire (plock i) ;;
  pset i (set_state RUNNABLE) ;;
  sched i.
Definition yield_resume : P unit := do! i <- myproc; release (plock i).

Definition sleep (ch : channel) (lk : string) : P unit :=
  do! i <- myproc;
  acquire (plock i) ;;
  release lk ;;
  pset i (fun p => set_state SLEEPING (set_chan ch p)) ;;
  sched i.
Definition sleep_resume (lk : string) : P unit :=
  do! i <- myproc;
  pset i (set_chan NoChan) ;;
  release (plock i) ;;
  acquire lk.

(** Runs when a process is chosen for the first time; [fsinit] once. *)
Definition forkret (first : bool) (fsinit : P unit) : P unit :=
  do! i <- myproc;
  release (plock i) ;;
  if first then fsinit else ret tt.

Definition wakeup (ch : channel) : P unit :=
  each_proc NP 0 (fun i =>
    do! me <- gets curproc;
    if bool_decide (me = Some i) then ret tt
    else
      acquire (plock i) ;;
      do! p <- pget i (fun p => p);
      (if bool_decide (pstate p = SLEEPING) && bool_decide (pchan p = ch) then pset i (set_state RUNNABLE) else ret tt) ;;
      release (plock i)).

Fixpoint kill_loop (n i : nat) (target : Z) : P Z :=
  match n with
  | O => ret (-1)
  | Datatypes.S n' =>
      acquire (plock i) ;;
      do! p <- pget i (fun p => p);
      if pid p =? target then
        pset i (set_killed 1) ;;
        (if bool_decide (pstate p = SLEEPING) then pset i (set_state RUNNABLE) else ret tt) ;;
        release (plock i) ;;
        ret 0
      else release (plock i) ;; kill_loop n' (i + 1) target
  end.
Definition kill (target : Z) : P Z := kill_loop NP 0 target.

Definition setkilled (i : nat) : P unit := acquire (plock i) ;; pset i (set_killed 1) ;; release (plock i).
Definition killed (i : nat) : P bool :=
  acquire (plock i) ;;
  do! z <- pget i killed_;
  release (plock i) ;;
  ret (negb (z =? 0)).

(** ** fork, exit, wait *)

(** [np->ofile[fd] = filedup(p->ofile[fd])] *)
Fixpoint dup_files (l : list (option nat)) (fd np : nat) : P unit :=
  match l with
  | [] => ret tt
  | o :: l' =>
      (match o with
       | Some f => do! g <- fileop (fl_dup f); pset np (set_ofiles (fun l => <[fd := Some g]> l))
       | None => ret tt
       end) ;; dup_files l' (fd + 1) np
  end.

Definition fork : P Z :=
  do! i <- myproc;
  do! o <- allocproc;
  match o with
  | None => ret (-1)
  | Some np =>
      do! p <- pget i (fun p => p);
      do! q <- pget np (fun q => q);
      do! r <- mem (uvmcopy end_ (pgtbl p) (pgtbl q) (sz p));
      if r <? 0 then freeproc np ;; release (plock np) ;; ret (-1)
      else
        pset np (set_sz (sz p)) ;;
        mem (memmove_at (trapframe q) (trapframe p) TF_SIZE) ;;
        mem (store_tf (trapframe q) TF_A0 0) ;;
        dup_files (ofiles p) 0 np ;;
        match pcwd p with
        | None => undef
        | Some d =>
            do! d <- fileop (fl_idup d);
            pset np (fun q => set_name (fun l => copy_name l (pname p)) (set_pcwd (Some d) q)) ;;
            do! n <- pget np pid;
            release (plock np) ;;
            acquire "wait_lock" ;;
            pset np (set_parent (Some i)) ;;
            release "wait_lock" ;;
            acquire (plock np) ;;
            pset np (set_state RUNNABLE) ;;
            release (plock np) ;;
            ret n
        end
  end.

Definition chan_of (o : option nat) : channel := match o with Some p => OnProc p | None => NoChan end.

Definition reparent (i : nat) : P unit :=
  each_proc NP 0 (fun j =>
    do! o <- pget j parent;
    if bool_decide (o = Some i) then
      do! init <- gets initproc;
      pset j (set_parent init) ;;
      wakeup (chan_of init)
    else ret tt).

Fixpoint close_files (l : list (option nat)) (fd i : nat) : P unit :=
  match l with
  | [] => ret tt
  | o :: l' =>
      (match o with
       | Some f => fileop (fl_close f) ;; pset i (set_ofiles (fun l => <[fd := None]> l))
       | None => ret tt
       end) ;; close_files l' (fd + 1) i
  end.

(** Ends in [sched]; the process never runs again. *)
Definition exit (status : Z) : P unit :=
  do! i <- myproc;
  do! init <- gets initproc;
  if bool_decide (init = Some i) then panic "init exiting"
  else
    do! l <- pget i ofiles;
    close_files l 0 i ;;
    do! d <- pget i pcwd;
    match d with
    | None => undef
    | Some d =>
        fileop (fl_iput d) ;;
        pset i (set_pcwd None) ;;
        acquire "wait_lock" ;;
        reparent i ;;
        do! o <- pget i parent;
        wakeup (chan_of o) ;;
        acquire (plock i) ;;
        pset i (fun p => set_state ZOMBIE (set_xstate status p)) ;;
        release "wait_lock" ;;
        sched i
    end.

(** One scan for an exited child: the value to return, or whether there are
    children. *)
Fixpoint wait_scan (n j i : nat) (addr : Z) (kids : bool) : P (Z + bool) :=
  match n with
  | O => ret (inr kids)
  | Datatypes.S n' =>
      do! o <- pget j parent;
      if bool_decide (o = Some i) then
        acquire (plock j) ;;
        do! q <- pget j (fun q => q);
        if bool_decide (pstate q = ZOMBIE) then
          do! pt <- pget i pgtbl;
          do! ok <- (if addr =? 0 then ret true else mem (copy_out pt addr (le_bytes 4 (xstate q))));
          if ok : bool then freeproc j ;; release (plock j) ;; release "wait_lock" ;; ret (inl (pid q))
          else release (plock j) ;; release "wait_lock" ;; ret (inl (-1))
        else release (plock j) ;; wait_scan n' (j + 1) i addr true
      else wait_scan n' (j + 1) i addr kids
  end.

(** A round of the loop of [wait]: it returns or goes to sleep. *)
Definition wait_round (addr : Z) : P progress :=
  do! i <- myproc;
  do! r <- wait_scan NP 0 i addr false;
  match r with
  | inl z => ret (Done z)
  | inr kids =>
      do! stop <- (if kids : bool then killed i else ret true);
      if stop : bool then release "wait_lock" ;; ret (Done (-1))
      else sleep (OnProc i) "wait_lock" ;; ret (Asleep 0)
  end.
Definition wait (addr : Z) : P progress := acquire "wait_lock" ;; wait_round addr.
Definition wait_resume (addr : Z) : P progress := sleep_resume "wait_lock" ;; wait_round addr.
End Proc.
