(* ===== verification/ProcSpec.v ===== *)
(** * The process table

    What every function of kernel/proc.c keeps true of the table, and what
    [wait], [wakeup] and [kill] do. *)

From S2P Require Import Prelude Riscv Mem Lock Kalloc Vm UserIO Pipe.
From S2P Require Import Blocks Fs File Log Proc.
Local Open Scope Z_scope.

(** A slot without a process. *)
Definition blank (p : proc) : Prop := pid p = 0 /\ parent p = None /\ pgtbl p = 0 /\ trapframe p = 0 /\ sz p = 0.

(** A process that has not exited. *)
Definition alive (p : proc) : Prop := pstate p <> UNUSED /\ pstate p <> ZOMBIE.

Section Table.
Context {F : Type} {HF : Files F} {HU : UserSpace machine} (end_ trampoline forkret_addr : Z).
Abbreviation P := (M (pk F)).

Record table_ok (k : pk F) : Prop := {
  to_len : length (procs k) = NP;
  to_next : 1 <= nextpid k < 2 ^ 31;
  to_unused : forall i p, procs k !! i = Some p -> pstate p = UNUSED -> blank p;
  to_used : forall i p, procs k !! i = Some p -> pstate p <> UNUSED -> 0 < pid p < nextpid k;
  (** Process identifiers are unique. *)
  to_uniq : forall i j p q, procs k !! i = Some p -> procs k !! j = Some q -> i <> j -> pid p = pid q -> pid p = 0;
  to_cur : forall i, curproc k = Some i -> exists p, procs k !! i = Some p /\ alive p;
  (** A parent is a process that has not exited, and not its own child. *)
  to_parent : forall i j p, procs k !! i = Some p -> parent p = Some j -> j <> i /\ exists q, procs k !! j = Some q /\ alive q;
  to_init : forall i, initproc k = Some i -> exists p, procs k !! i = Some p /\ alive p /\ parent p = None
}.

Definition childless (i : nat) (k : pk F) : Prop := Some i ∉ parent <$> procs k.

Definition live (i : nat) (k : pk F) : Prop := exists p, procs k !! i = Some p /\ pstate p <> UNUSED.

(** Code that leaves the table alone. *)
Definition still {A} (c : P A) : Prop := forall k a k', c k = Ok a k' ->
  procs k' = procs k /\ nextpid k' = nextpid k /\ curproc k' = curproc k /\ initproc k' = initproc k.

Lemma still_ret {A} (a : A) : still (ret a).
Proof. by intros k b k' [= _ <-]. Qed.
Lemma still_gets {A} (f : pk F -> A) : still (gets f).
Proof. by intros k b k' [= _ <-]. Qed.
Lemma still_fileop {A} (c : M F A) : still (fileop c).
Proof. intros k a k' E. unfold fileop, zoom in E. destruct (c (files k)); by simplify_eq/=. Qed.
Lemma still_mem {A} (c : M machine A) : still (mem c).
Proof. apply still_fileop. Qed.
Lemma still_acquire l : still (acquire l).
Proof. intros k a k' E. unfold acquire in E. destruct (Lock.holding l k); by simplify_eq/=. Qed.
Lemma still_release l : still (release l).
Proof. intros k a k' E. unfold release in E. destruct (Lock.holding l k); by simplify_eq/=. Qed.
Lemma still_pget {A} i (f : proc -> A) : still (pget i f).
Proof. intros k a k' E. unfold pget in E. destruct (procs k !! i); by simplify_eq/=. Qed.
Lemma still_myproc : still myproc.
Proof. intros k a k' E. unfold myproc in E. destruct (curproc k) eqn:Ec; by simplify_eq/=. Qed.
Lemma still_panic {A} m : still (panic m : P A).
Proof. by intros k a k' [=]. Qed.
Lemma still_bind {A B} (c : P A) (h : A -> P B) : still c -> (forall a, still (h a)) -> still (bind c h).
Proof.
  intros Hc Hh k b k' E. unfold bind in E. destruct (c k) as [a k1| | |] eqn:Ec; try discriminate E.
  destruct (Hc _ _ _ Ec) as (<- & <- & <- & <-). by eapply Hh.
Qed.

(** An assertion on the table. *)
Definition tabular (Q : pk F -> Prop) : Prop := forall k k',
  procs k' = procs k -> nextpid k' = nextpid k -> curproc k' = curproc k -> initproc k' = initproc k -> Q k -> Q k'.

Lemma tabular_ok : tabular table_ok.
Proof. intros k k' E1 E2 E3 E4 [H1 H2 H3 H4 H5 H6 H7 H8]. constructor; rewrite ?E1, ?E2, ?E3, ?E4; done. Qed.
Lemma tabular_live i : tabular (live i).
Proof. intros k k' E1 _ _ _. unfold live. by rewrite E1. Qed.
Lemma tabular_childless i : tabular (childless i).
Proof. intros k k' E1 _ _ _. unfold childless. by rewrite E1. Qed.
Lemma tabular_and Q R : tabular Q -> tabular R -> tabular (fun k => Q k /\ R k).
Proof. intros HQ HR k k' E1 E2 E3 E4 [H1 H2]. split; [by apply (HQ k)|by apply (HR k)]. Qed.

Lemma triple_still {A} Q (c : P A) : tabular Q -> still c -> triple Q c (fun _ => Q).
Proof. intros HQ Hc k a k' Hk E. destruct (Hc _ _ _ E) as (E1 & E2 & E3 & E4). by apply (HQ k). Qed.
Lemma step_still {A B} Q (c : P A) (h : A -> P B) R : tabular Q -> still c -> (forall a, triple Q (h a) R) -> triple Q (bind c h) R.
Proof. intros HQ Hc Hh. eapply triple_bind; [by apply triple_still|exact Hh]. Qed.

(** Reading a slot. *)
Lemma step_pget {A B} (Q : pk F -> Prop) i (f : proc -> A) (h : A -> P B) R :
  (forall p, triple (fun k => Q k /\ procs k !! i = Some p) (h (f p)) R) -> triple Q (bind (pget i f) h) R.
Proof.
  intros Hh k b k' Hk E. unfold bind, pget in E. destruct (procs k !! i) as [p|] eqn:Ep; [|done]. by eapply (Hh p).
Qed.

Lemma step_pset {B} (Q Q' : pk F -> Prop) i f (h : unit -> P B) R :
  (forall k p, Q k -> procs k !! i = Some p -> Q' (mkpk (files k) (<[i := f p]> (procs k)) (nextpid k) (initproc k) (curproc k) (lks k) (ticks k))) ->
  triple Q' (h tt) R -> triple Q (bind (pset i f) h) R.
Proof.
  intros Hf Hh k b k' Hk E. unfold bind, pset in E. destruct (procs k !! i) as [p|] eqn:Ep; [|done].
  eapply Hh; [|exact E]. by apply Hf.
Qed.
Lemma last_pset (Q Q' : pk F -> Prop) i f :
  (forall k p, Q k -> procs k !! i = Some p -> Q' (mkpk (files k) (<[i := f p]> (procs k)) (nextpid k) (initproc k) (curproc k) (lks k) (ticks k))) ->
  triple Q (pset i f) (fun _ => Q').
Proof.
  intros Hf k [] k' Hk E. unfold pset in E. destruct (procs k !! i) as [p|] eqn:Ep; [|done]. injection E as <-. by apply Hf.
Qed.

(** Slot [i] becomes [p']. *)
Abbreviation upd k i p' := (mkpk (files k) (<[i := p']> (procs k)) (nextpid k) (initproc k) (curproc k) (lks k) (ticks k)).

Lemma upd_lookup (k : pk F) i p' j q : procs (upd k i p') !! j = Some q -> j = i /\ q = p' \/ j <> i /\ procs k !! j = Some q.
Proof. intros Hq. apply list_lookup_insert_Some in Hq as [(-> & -> & _)|[Hne Hq]]; [by left|right; split; [congruence|done]]. Qed.

(** A live process is still there, or is the changed slot. *)
Lemma upd_alive (k : pk F) i p p' j : procs k !! i = Some p -> (j = i -> alive p -> alive p') ->
  (exists q, procs k !! j = Some q /\ alive q) -> exists q, procs (upd k i p') !! j = Some q /\ alive q.
Proof.
  intros Hp Ha (q & Hq & Hs). cbn. destruct (decide (j = i)) as [->|Hne].
  - exists p'. rewrite Hp in Hq. injection Hq as <-. split; [apply list_lookup_insert_eq; by eapply lookup_lt_Some|by apply Ha].
  - exists q. by rewrite list_lookup_insert_ne.
Qed.

Lemma no_child (k : pk F) i j p : childless i k -> procs k !! j = Some p -> parent p <> Some i.
Proof. intros Hc Hp Epa. apply Hc. apply list_elem_of_fmap. exists p. split; [done|]. by apply list_elem_of_lookup_2 in Hp. Qed.

(** Changing a slot. *)
Lemma slot_ok i p p' (k : pk F) : table_ok k -> procs k !! i = Some p ->
  (pstate p' = UNUSED -> blank p') -> (pstate p' <> UNUSED -> 0 < pid p' < nextpid k) ->
  (pid p' = pid p \/ pid p' = 0 \/ forall j q, procs k !! j = Some q -> pid q <> pid p') ->
  (parent p' = parent p \/ forall j, parent p' = Some j -> j <> i /\ exists q, procs k !! j = Some q /\ alive q) ->
  alive p' \/ childless i k /\ curproc k <> Some i /\ initproc k <> Some i ->
  (initproc k = Some i -> parent p' = None) ->
  table_ok (upd k i p').
Proof.
  intros [H1 H2 H3 H4 H5 H6 H7 H8] Hp Hb Hu Hpid Hpar Ha Hi. pose proof (lookup_lt_Some _ _ _ Hp) as Hlt.
  assert (forall j, curproc k = Some j \/ initproc k = Some j -> j = i -> alive p -> alive p') as Hk.
  { intros j Hj -> _. destruct Ha as [Ha|(_ & Hc & Hn)]; [done|]. by destruct Hj. }
  constructor; cbn.
  - by rewrite length_insert.
  - done.
  - intros j q Hq. destruct (upd_lookup _ _ _ _ _ Hq) as [[-> ->]|[_ Hq']]; [done|by apply (H3 j)].
  - intros j q Hq. destruct (upd_lookup _ _ _ _ _ Hq) as [[-> ->]|[_ Hq']]; [done|by apply (H4 j)].
  - intros j l q r Hq Hr Hne E. destruct (upd_lookup _ _ _ _ _ Hq) as [[-> ->]|[Hj Hq']]; destruct (upd_lookup _ _ _ _ _ Hr) as [[-> ->]|[Hl Hr']]; [done| | |by apply (H5 j l q r)].
    + destruct Hpid as [Ep|[Ep|Ep]]; [|done|by destruct (Ep l r)]. rewrite Ep in *. by apply (H5 i l p r).
    + destruct Hpid as [Ep|[Ep|Ep]]; [|congruence|by destruct (Ep j q)]. rewrite Ep in *. by apply (H5 j i q p).
  - intros j Ej. apply (upd_alive k i p); [done|apply Hk; by left|by apply H6].
  - intros j l q Hq Epa. assert (l <> j /\ exists q, procs k !! l = Some q /\ alive q) as [Hne Hl].
    { destruct (upd_lookup _ _ _ _ _ Hq) as [[-> ->]|[_ Hq']]; [|by apply (H7 j l q)]. destruct Hpar as [Hpar|Hpar]; [apply (H7 i l p); congruence|by apply Hpar]. }
    split; [done|]. apply (upd_alive k i p); [done| |done]. intros -> Hap. destruct Ha as [Ha|[Hc _]]; [done|].
    destruct (upd_lookup _ _ _ _ _ Hq) as [[-> ->]|[_ Hq']]; [done|]. by destruct (no_child _ _ _ _ Hc Hq').
  - intros j Ej. destruct (H8 j Ej) as (q & Hq & Hs & Hpa). destruct (upd_alive k i p p' j Hp) as (r & Hr & Har); [apply Hk; by right|eauto|].
    exists r. split; [done|]. split; [done|]. destruct (upd_lookup _ _ _ _ _ Hr) as [[-> ->]|[_ Hr']]; [by apply Hi|congruence].
Qed.

(** A slot that is not alive has no children and does not run. *)
Lemma dead_slot i (k : pk F) p : table_ok k -> procs k !! i = Some p -> ~ alive p -> childless i k /\ curproc k <> Some i /\ initproc k <> Some i.
Proof.
  intros H Hp Hd. split; [|split].
  - intros Hin. apply list_elem_of_fmap in Hin as (q & Epa & Hin). apply list_elem_of_lookup in Hin as (j & Hj).
    destruct (to_parent _ H j i q Hj (eq_sym Epa)) as (_ & r & Hr & Har). congruence.
  - intros Hc. destruct (to_cur _ H i Hc) as (r & Hr & Har). congruence.
  - intros Hc. destruct (to_init _ H i Hc) as (r & Hr & Har & _). congruence.
Qed.

(** The common case: the process of the slot goes on. *)
Definition tame (f : proc -> proc) : Prop := forall p, pid (f p) = pid p /\ parent (f p) = parent p /\
  (pstate p <> UNUSED -> pstate (f p) <> UNUSED) /\ (alive p -> alive (f p)).

Lemma slot_live i f (k : pk F) p : tame f -> table_ok k -> live i k -> procs k !! i = Some p -> table_ok (upd k i (f p)) /\ live i (upd k i (f p)).
Proof.
  intros Hf H (q & Hq & Hu) Hp. rewrite Hp in Hq. injection Hq as <-. destruct (Hf p) as (E1 & E2 & Hst & Ha). specialize (Hst Hu). split.
  - apply (slot_ok i p); try done.
    + intros _. rewrite E1. by apply (to_used _ H i).
    + by left.
    + by left.
    + destruct (decide (pstate p = ZOMBIE)) as [Hz|Hz]; [right|left; by apply Ha].
      apply (dead_slot i k p H Hp). by intros [_ Hn].
    + intros Hi. rewrite E2. destruct (to_init _ H i Hi) as (q & Hq & _ & Hpa). congruence.
  - exists (f p). split; [|done]. apply list_lookup_insert_eq. by eapply lookup_lt_Some.
Qed.

(** Assertions on who is whose parent. *)
Definition parental (Q : pk F -> Prop) : Prop := forall k k', parent <$> procs k' = parent <$> procs k -> Q k -> Q k'.
Lemma parental_tabular Q : parental Q -> tabular Q.
Proof. intros HQ k k' E1 _ _ _. apply HQ. by rewrite E1. Qed.
Lemma parental_childless i : parental (childless i).
Proof. intros k k' E. unfold childless. by rewrite E. Qed.
Lemma upd_parents (k : pk F) i p p' : procs k !! i = Some p -> parent p' = parent p -> parent <$> procs (upd k i p') = parent <$> procs k.
Proof. intros Hp E. cbn. rewrite list_fmap_insert, E. apply list_insert_id. by rewrite list_lookup_fmap, Hp. Qed.

(** ** The operations *)
Section Ops.
Context (c n : option nat).

(** The current process and the first process are fixed. *)
Definition base (k : pk F) : Prop := table_ok k /\ curproc k = c /\ initproc k = n.

Lemma tabular_base : tabular base.
Proof. intros k k' E1 E2 E3 E4 (H & H1 & H2). split; [by apply (tabular_ok k)|]. split; congruence. Qed.
Definition base_live (i : nat) (k : pk F) : Prop := base k /\ live i k.
Lemma tabular_base_live i : tabular (base_live i).
Proof. apply tabular_and; [apply tabular_base|apply tabular_live]. Qed.

Lemma base_slot_live i f (k : pk F) p : tame f -> base_live i k -> procs k !! i = Some p -> base_live i (upd k i (f p)).
Proof. intros Hf [(H & H1 & H2) Hl] Hp. destruct (slot_live i f k p Hf H Hl Hp) as [H' Hl']. done. Qed.

Lemma step_myproc {A} (h : nat -> P A) R : (forall i, c = Some i -> triple (base_live i) (h i) R) -> triple base (bind myproc h) R.
Proof.
  intros Hh k a k' (H & H1 & H2) E. unfold bind, myproc in E. destruct (curproc k) as [i|] eqn:Ei; [|done].
  eapply (Hh i); [done| |exact E]. split; [split; [done|split; congruence]|]. destruct (to_cur _ H i Ei) as (p & Hp & [Hu _]). by exists p.
Qed.

Lemma each_proc_inv (Q : pk F -> Prop) body : (forall i, triple Q (body i) (fun _ => Q)) -> forall m i, triple Q (each_proc m i body) (fun _ => Q).
Proof. intros Hb m. induction m as [|m IH]; intros i; cbn [each_proc]; [by apply triple_ret|]. eapply triple_bind; [apply Hb|]. intros []. apply IH. Qed.

Lemma wakeup_keeps ch (R : pk F -> Prop) : parental R -> triple (fun k => base k /\ R k) (wakeup (F := F) ch) (fun _ k => base k /\ R k).
Proof.
  intros HR. assert (tabular (fun k => base k /\ R k)) as Ht by (apply tabular_and; [apply tabular_base|by apply parental_tabular]).
  apply each_proc_inv. intros i. apply step_still; [done|apply still_gets|]. intros me. case_bool_decide; [by apply triple_ret|].
  apply step_still; [done|apply still_acquire|]. intros _. apply step_pget. intros p.
  eapply (triple_bind _ _ (fun _ k => base k /\ R k)); [|intros []; by apply triple_still; [|apply still_release]].
  destruct (bool_decide (pstate p = SLEEPING) && bool_decide (pchan p = ch)) eqn:Eg; [|apply triple_ret; by intros k [? _]].
  apply andb_true_iff in Eg as [Es%bool_decide_eq_true _].
  apply last_pset. intros k q [[Hk HRk] Hp] Hq. rewrite Hq in Hp. injection Hp as <-. split; [|by apply (HR k); [apply (upd_parents k i q)|]].
  apply (base_slot_live i (set_state RUNNABLE)); [done| |done]. split; [done|]. exists q. by rewrite Es.
Qed.
Lemma wakeup_base ch : triple base (wakeup (F := F) ch) (fun _ => base).
Proof.
  intros k a k' Hk E. by destruct (wakeup_keeps ch (fun _ => True) (fun _ _ _ _ => I) k a k' (conj Hk I) E).
Qed.

(** A change that leaves identity and resources of a slot alone. *)
Lemma base_slot_same i f (k : pk F) p : (forall p, pstate (f p) = pstate p /\ pid (f p) = pid p /\ parent (f p) = parent p /\
    pgtbl (f p) = pgtbl p /\ trapframe (f p) = trapframe p /\ sz (f p) = sz p) ->
  base k -> procs k !! i = Some p -> base (upd k i (f p)).
Proof.
  intros Hf (H & H1 & H2) Hp. split; [|done]. destruct (Hf p) as (E1 & E2 & E3 & E4 & E5 & E6). apply (slot_ok i p); try done.
  - rewrite E1. intros Hu. unfold blank. rewrite E2, E3, E4, E5, E6. by apply (to_unused _ H i).
  - rewrite E1, E2. by apply (to_used _ H i).
  - by left.
  - by left.
  - unfold alive. rewrite E1. destruct (decide (pstate p <> UNUSED /\ pstate p <> ZOMBIE)) as [Ha|Ha]; [by left|right; by apply (dead_slot i k p)].
  - rewrite E3. intros Hc. destruct (to_init _ H i Hc) as (q & Hq & Hs & Hpa). congruence.
Qed.

Lemma kill_base target : triple base (kill (F := F) target) (fun _ => base).
Proof.
  unfold kill. generalize NP as m, 0%nat as i. induction m as [|m IH]; intros i; cbn [kill_loop]; [by apply triple_ret|].
  apply step_still; [apply tabular_base|apply still_acquire|]. intros _. apply step_pget. intros p. destruct (pid p =? target).
  2:{ apply (triple_weak base); [by intros k [? _]|]. apply step_still; [apply tabular_base|apply still_release|]. intros _. apply IH. }
  apply (step_pset _ (fun k => base k /\ (pstate p = SLEEPING -> live i k))).
  { intros k q [Hk Hp] Hq. split; [by apply base_slot_same|]. intros Es. rewrite Hq in Hp. injection Hp as <-.
    exists (set_killed 1 q). split; [apply list_lookup_insert_eq; by eapply lookup_lt_Some|]. cbn. by rewrite Es. }
  eapply (triple_bind _ _ (fun _ => base)).
  - case_bool_decide as Es.
    + apply last_pset. intros k q [Hk Hl] Hq. by apply (base_slot_live i (set_state RUNNABLE) k q); [..|split; [|apply Hl]|].
    + apply triple_ret. by intros k [? _].
  - intros _. apply step_still; [apply tabular_base|apply still_release|]. intros _. by apply triple_ret.
Qed.

(** A process identifier that was never used. *)
Definition fresh (m : Z) (k : pk F) : Prop := 0 < m < nextpid k /\ forall i p, procs k !! i = Some p -> pid p <> m.
Lemma tabular_fresh m : tabular (fresh m).
Proof. intros k k' E1 E2 _ _. unfold fresh. by rewrite E1, E2. Qed.

Lemma allocpid_base (Q : pk F -> Prop) : tabular base ->
  (forall k k', procs k' = procs k -> curproc k' = curproc k -> initproc k' = initproc k -> Q k -> Q k') ->
  triple (fun k => base k /\ Q k) (allocpid (F := F)) (fun m k => base k /\ Q k /\ fresh m k).
Proof.
  intros _ HQ. unfold allocpid. assert (tabular (fun k => base k /\ Q k)) as Ht.
  { apply tabular_and; [apply tabular_base|]. intros k k' E1 _ E3 E4. by apply HQ. }
  apply step_still; [done|apply still_acquire|]. intros _ k m k' [Hk HQk] E. rewrite (bind_ok _ _ k (nextpid k) k) in E by done.
  pose proof (to_next _ (proj1 Hk)) as Hn. destruct (Z.eqb_spec (nextpid k) (2 ^ 31 - 1)) as [|Hne]; [done|].
  set (k1 := mkpk (files k) (procs k) (nextpid k + 1) (initproc k) (curproc k) (lks k) (ticks k)).
  rewrite (bind_ok _ _ k tt k1) in E by done. assert (base k1 /\ Q k1 /\ fresh (nextpid k) k1) as H1.
  { destruct Hk as (H & H1 & H2). split; [|split].
    - split; [|done]. destruct H as [T1 T2 T3 T4 T5 T6 T7 T8]. constructor; try done; cbn; [lia|]. intros i p Hp Hu. pose proof (T4 i p Hp Hu). lia.
    - by apply (HQ k).
    - split; [cbn; lia|]. intros i p Hp Ep. destruct (decide (pstate p = UNUSED)) as [Hu|Hu].
      + destruct (to_unused _ H i p Hp Hu) as [E0 _]. lia.
      + pose proof (to_used _ H i p Hp Hu). lia. }
  destruct (release "nextpid" k1) as [[] k2| | |] eqn:Er; unfold bind in E; rewrite Er in E; try discriminate E. injection E as <- <-.
  destruct (still_release _ _ _ _ Er) as (E1 & E2 & E3 & E4). destruct H1 as (Hb & Hq & Hf).
  split; [by apply (tabular_base k1)|]. split; [by apply (HQ k1)|by apply (tabular_fresh _ k1)].
Qed.

(** A process that can be given up. *)
Definition spare (i : nat) (k : pk F) : Prop := base_live i k /\ childless i k /\ c <> Some i /\ n <> Some i.
Lemma tabular_spare i : tabular (spare i).
Proof.
  apply tabular_and; [apply tabular_base_live|]. apply tabular_and; [apply tabular_childless|]. by intros ? ?.
Qed.
Lemma spare_slot i f (k : pk F) p : tame f -> spare i k -> procs k !! i = Some p -> spare i (upd k i (f p)).
Proof.
  intros Hf (Hk & Hc & Hn) Hp. split; [by apply base_slot_live|]. split; [|done].
  apply (parental_childless i k); [|done]. apply (upd_parents k i p); [done|]. apply (Hf p).
Qed.

Lemma freeproc_base i : triple (spare i) (freeproc (F := F) end_ i) (fun _ => base).
Proof.
  unfold freeproc. apply step_pget. intros p. apply (triple_weak (spare i)); [by intros k [? _]|].
  apply step_still; [apply tabular_spare|destruct (trapframe p =? 0); [apply still_ret|apply still_mem]|]. intros _.
  set (R := fun k : pk F => exists q, procs k !! i = Some q /\ trapframe q = 0).
  assert (tabular R) as HR by (intros k k' E1 _ _ _; unfold R; by rewrite E1).
  apply (step_pset _ (fun k => spare i k /\ R k)).
  { intros k q Hk Hq. split; [by apply spare_slot|]. exists (set_trapframe 0 q). split; [|done]. apply list_lookup_insert_eq. by eapply lookup_lt_Some. }
  apply step_still; [apply tabular_and; [apply tabular_spare|exact HR]|destruct (pgtbl p =? 0); [apply still_ret|apply still_mem]|]. intros _.
  apply last_pset. intros k q [([(H & H1 & H2) _] & Hch & Hc & Hn) (q' & Hq' & Etf)] Hq. rewrite Hq in Hq'. injection Hq' as <-.
  split; [|done]. apply (slot_ok i q); try done.
  - by right; left.
  - by right.
  - right. split; [done|]. split; congruence.
Qed.

Definition found (o : option nat) (k : pk F) : Prop :=
  match o with
  | Some i => base k /\ exists p, procs k !! i = Some p /\ pstate p = UNUSED
  | None => base k
  end.

Lemma find_unused_base : forall m i, triple base (find_unused_proc (F := F) m i) found.
Proof.
  induction m as [|m IH]; intros i; cbn [find_unused_proc]; [by apply triple_ret|].
  apply step_still; [apply tabular_base|apply still_acquire|]. intros _. apply step_pget. intros p. case_bool_decide as Es.
  - apply triple_ret. intros k [Hk Hp]. split; [done|eauto].
  - apply (triple_weak base); [by intros k [? _]|]. apply step_still; [apply tabular_base|apply still_release|]. intros _. apply IH.
Qed.

(** A process that has just been made. *)
Definition newborn (i : nat) (k : pk F) : Prop := spare i k /\ exists p, procs k !! i = Some p /\ alive p /\ parent p = None.
Lemma tabular_newborn i : tabular (newborn i).
Proof. apply tabular_and; [apply tabular_spare|]. intros k k' E1 _ _ _. by rewrite E1. Qed.
Lemma newborn_slot i f (k : pk F) p : tame f -> newborn i k -> procs k !! i = Some p -> newborn i (upd k i (f p)).
Proof.
  intros Hf [Hk (q & Hq & Ha & Hpa)] Hp. rewrite Hp in Hq. injection Hq as <-. split; [by apply spare_slot|].
  exists (f p). destruct (Hf p) as (_ & -> & _ & Hal). split; [apply list_lookup_insert_eq; by eapply lookup_lt_Some|]. split; [by apply Hal|done].
Qed.

Definition allocated (o : option nat) (k : pk F) : Prop := match o with Some i => newborn i k | None => base k end.

(** Give a new slot back. *)
Lemma give_back {A} i (a : A) : triple (spare i) (freeproc (F := F) end_ i ;; release (plock i) ;; ret a) (fun b k => b = a /\ base k).
Proof.
  eapply triple_bind; [by apply freeproc_base|]. intros []. apply step_still; [apply tabular_base|apply still_release|].
  intros _. by apply triple_ret.
Qed.

Lemma step_spare {A} i f (h : unit -> P A) R : tame f -> triple (spare i) (h tt) R -> triple (spare i) (bind (pset i f) h) R.
Proof. intros Hf. apply step_pset. intros k p. by apply spare_slot. Qed.
Lemma step_spare_still {A B} i (m : P A) (h : A -> P B) R : still m -> (forall a, triple (spare i) (h a) R) -> triple (spare i) (bind m h) R.
Proof. apply step_still, tabular_spare. Qed.

Lemma allocproc_base : triple base (allocproc (F := F) end_ trampoline forkret_addr) allocated.
Proof.
  unfold allocproc. eapply triple_bind; [apply find_unused_base|]. intros [i|]; [|by apply triple_ret].
  set (R := fun k : pk F => exists p, procs k !! i = Some p /\ pstate p = UNUSED). apply (triple_weak (fun k => base k /\ R k)); [done|].
  eapply triple_bind; [apply (allocpid_base R tabular_base); intros k k' E1 _ _; unfold R; by rewrite E1|]. intros m.
  apply (step_pset _ (newborn i)).
  { intros k p (Hk & (p' & Hp' & Hu) & Hf) Hp. rewrite Hp in Hp'. injection Hp' as <-. pose proof Hk as (H & H1 & H2).
    destruct (dead_slot i k p H Hp) as (Hch & Hc & Hn); [by intros [? _]|].
    assert (procs (upd k i (set_state USED (set_pid m p))) !! i = Some (set_state USED (set_pid m p))) as Hnew by (apply list_lookup_insert_eq; by eapply lookup_lt_Some).
    split; [split; [split|]|].
    - split; [|done]. apply (slot_ok i p); try done.
      + cbn. intros _. apply Hf.
      + right; right. apply Hf.
      + by left.
      + by left.
    - by eexists.
    - split; [|split; congruence]. apply (parental_childless i k); [|done]. by apply (upd_parents k i p).
    - eexists. split; [exact Hnew|]. split; [done|]. cbn. by destruct (to_unused _ H i p Hp Hu) as (_ & -> & _). }
  assert (forall tf, triple (newborn i) (pset i (set_trapframe tf)) (fun _ => newborn i)) as Htf.
  { intros tf. apply last_pset. intros k p. by apply newborn_slot. }
  assert (triple (newborn i) (freeproc (F := F) end_ i ;; release (plock i) ;; ret (None : option nat)) allocated) as Hgive.
  { apply (triple_weak (spare i)); [by intros k [? _]|]. eapply triple_post; [|by apply give_back]. by intros o k [-> Hk]. }
  apply step_still; [apply tabular_newborn|apply still_mem|]. intros tf. eapply triple_bind; [apply Htf|]. intros [].
  destruct (tf =? 0); [exact Hgive|].
  apply step_still; [apply tabular_newborn|apply still_mem|]. intros pt. apply (step_pset _ (newborn i)); [intros k p; by apply newborn_slot|].
  destruct (pt =? 0); [exact Hgive|]. apply (step_pset _ (newborn i)); [intros k p; by apply newborn_slot|]. by apply triple_ret.
Qed.

(** A tame change of a live slot in the middle of a sequence. *)
Lemma step_tame {A} i f (h : unit -> P A) R : tame f -> triple (base_live i) (h tt) R -> triple (base_live i) (bind (pset i f) h) R.
Proof. intros Hf. apply step_pset. intros k p. by apply base_slot_live. Qed.
Lemma step_quiet {A B} i (m : P A) (h : A -> P B) R : still m -> (forall a, triple (base_live i) (h a) R) -> triple (base_live i) (bind m h) R.
Proof. apply step_still, tabular_base_live. Qed.
Lemma step_quiet' {A B} (m : P A) (h : A -> P B) R : still m -> (forall a, triple base (h a) R) -> triple base (bind m h) R.
Proof. apply step_still, tabular_base. Qed.
Lemma base_of_live {A} i (h : P A) R : triple base h R -> triple (base_live i) h R.
Proof. apply triple_weak. by intros k [? _]. Qed.

Lemma dup_files_base np : forall l fd, triple (spare np) (dup_files (F := F) l fd np) (fun _ => spare np).
Proof.
  induction l as [|[f|] l IH]; intros fd; cbn [dup_files]; [by apply triple_ret| |].
  - eapply (triple_bind _ _ (fun _ => spare np)); [|intros []; apply IH]. apply step_spare_still; [apply still_fileop|]. intros g.
    apply last_pset. intros k p. by apply spare_slot.
  - apply step_spare_still; [apply still_ret|]. intros _. apply IH.
Qed.

Lemma fork_base : triple base (fork (F := F) end_ trampoline forkret_addr) (fun _ => base).
Proof.
  apply step_myproc. intros i Hi. apply base_of_live. eapply triple_bind; [apply allocproc_base|].
  intros [np|]; [|by apply triple_ret]. apply (triple_weak (spare np)); [by intros k [? _]|]. apply step_spare_still; [apply still_pget|]. intros p. apply step_spare_still; [apply still_pget|]. intros q.
  apply step_spare_still; [apply still_mem|]. intros r. destruct (r <? 0).
  { eapply triple_post; [|by apply give_back]. by intros o k [_ Hk]. }
  apply step_spare; [done|]. apply step_spare_still; [apply still_mem|]. intros _. apply step_spare_still; [apply still_mem|]. intros _.
  eapply triple_bind; [apply dup_files_base|]. intros []. destruct (pcwd p) as [d|]; [|apply triple_undef].
  apply step_spare_still; [apply still_fileop|]. intros d'. apply step_spare; [done|]. apply step_spare_still; [apply still_pget|]. intros m.
  apply step_spare_still; [apply still_release|]. intros _. apply step_spare_still; [apply still_acquire|]. intros _.
  apply (step_pset _ (base_live np)).
  { intros k x ([(H & H1 & H2) (y & Hy & Hu)] & Hch & Hc & Hn) Hx. rewrite Hx in Hy. injection Hy as <-. split.
    - split; [|done]. apply (slot_ok np x); try done; cbn.
      + intros _. by apply (to_used _ H np).
      + by left.
      + right. intros j [= <-]. split; [congruence|]. apply (to_cur _ H). congruence.
      + right. split; [done|]. split; congruence.
      + congruence.
    - exists (set_parent (Some i) x). split; [|done]. apply list_lookup_insert_eq. by eapply lookup_lt_Some. }
  apply step_quiet; [apply still_release|]. intros _. apply step_quiet; [apply still_acquire|]. intros _. apply step_tame; [done|].
  apply step_quiet; [apply still_release|]. intros _. apply triple_ret. by intros k [? _].
Qed.

Lemma sched_still i : still (sched (F := F) i).
Proof.
  unfold sched. apply still_bind; [apply still_gets|]. intros l. destruct (negb _); [apply still_panic|]. destruct (negb _); [apply still_panic|].
  apply still_bind; [apply still_pget|]. intros s. case_bool_decide; [apply still_panic|apply still_ret].
Qed.

Lemma end_sched {A} i (h : P A) : still h -> triple (base_live i) h (fun _ => base).
Proof. intros Hh. apply base_of_live. by apply triple_still; [apply tabular_base|]. Qed.

Lemma sleep_base ch lk : triple base (sleep (F := F) ch lk) (fun _ => base).
Proof.
  apply step_myproc. intros i Hi. apply step_quiet; [apply still_acquire|]. intros _. apply step_quiet; [apply still_release|]. intros _.
  apply step_tame; [done|]. apply end_sched, sched_still.
Qed.
Lemma sleep_resume_base lk : triple base (sleep_resume (F := F) lk) (fun _ => base).
Proof.
  apply step_myproc. intros i Hi. apply step_tame; [done|]. apply end_sched. apply still_bind; [apply still_release|]. intros _. apply still_acquire.
Qed.
Lemma yield_base : triple base (yield (F := F)) (fun _ => base).
Proof.
  apply step_myproc. intros i Hi. apply step_quiet; [apply still_acquire|]. intros _. apply step_tame; [done|]. apply end_sched, sched_still.
Qed.

Lemma each_proc_idx (Q : nat -> pk F -> Prop) body : (forall i, triple (Q i) (body i) (fun _ => Q (i + 1)%nat)) ->
  forall m i, triple (Q i) (each_proc m i body) (fun _ => Q (i + m)%nat).
Proof.
  intros Hb m. induction m as [|m IH]; intros i; cbn [each_proc]; [apply triple_ret; intros k; by rewrite Nat.add_0_r|].
  eapply triple_bind; [apply Hb|]. intros []. eapply triple_post; [|apply IH]. intros [] k. by replace (i + 1 + m)%nat with (i + S m)%nat by lia.
Qed.

(** The first [m] processes are not children of [i]. *)
Definition spared (i m : nat) (k : pk F) : Prop := Some i ∉ take m (parent <$> procs k).
Lemma parental_spared i m : parental (spared i m).
Proof. intros k k' E. unfold spared. by rewrite E. Qed.

Lemma spared_next i j (k : pk F) p : spared i j k -> procs k !! j = Some p -> parent p <> Some i -> spared i (j + 1) k.
Proof.
  intros Hs Hp Hne. unfold spared. rewrite Nat.add_1_r. rewrite (take_S_r _ j (parent p)) by (by rewrite list_lookup_fmap, Hp).
  rewrite not_elem_of_app. split; [done|]. rewrite list_elem_of_singleton. congruence.
Qed.

Lemma adopt_base i j (k : pk F) p : n <> Some i -> base k -> spared i j k -> procs k !! j = Some p -> parent p = Some i ->
  let k1 := upd k j (set_parent (initproc k) p) in base k1 /\ spared i (j + 1) k1.
Proof.
  intros Hn (H & H1 & H2) Hs Hp Epa. cbn zeta. assert (initproc k <> Some j) as Hne.
  { intros Ej. destruct (to_init _ H j Ej) as (q & Hq & _ & Hpa). congruence. }
  split.
  - split; [|done]. apply (slot_ok j p); try done; cbn.
    + intros Hu. destruct (to_unused _ H j p Hp Hu) as (_ & Hpa & _). congruence.
    + intros Hu. by apply (to_used _ H j).
    + by left.
    + right. intros l Hl. split; [congruence|]. destruct (to_init _ H l Hl) as (q & Hq & Ha & _). eauto.
    + unfold alive. cbn. destruct (decide (pstate p <> UNUSED /\ pstate p <> ZOMBIE)) as [Ha|Ha]; [by left|right; by apply (dead_slot j k p)].
  - apply (spared_next i j _ (set_parent (initproc k) p)); cbn.
    + unfold spared. cbn. rewrite list_fmap_insert, take_insert_ge by lia. exact Hs.
    + apply list_lookup_insert_eq. by eapply lookup_lt_Some.
    + congruence.
Qed.

Lemma reparent_base i : n <> Some i -> triple base (reparent (F := F) i) (fun _ k => base k /\ childless i k).
Proof.
  intros Hn. eapply triple_post; [|eapply triple_weak; [|apply (each_proc_idx (fun m k => base k /\ spared i m k))]].
  - intros [] k [Hk Hs]. split; [done|]. unfold spared in Hs. rewrite take_ge in Hs; [done|]. rewrite length_fmap, (to_len _ (proj1 Hk)). cbn. lia.
  - intros k Hk. split; [done|]. unfold spared. apply not_elem_of_nil.
  - intros j. apply step_pget. intros p. case_bool_decide as Ep.
    2:{ apply triple_ret. intros k [[Hk Hs] Hp]. split; [done|]. by apply (spared_next i j k p). }
    intros k a k' [[Hk Hs] Hp] E. rewrite (bind_ok _ _ k (initproc k) k) in E by done. set (k1 := upd k j (set_parent (initproc k) p)).
    rewrite (bind_ok _ _ k tt k1) in E by (unfold pset; by rewrite Hp).
    exact (wakeup_keeps (chan_of (initproc k)) _ (parental_spared i (j + 1)) k1 a k' (adopt_base i j k p Hn Hk Hs Hp Ep) E).
Qed.

Lemma close_files_base i : forall l fd, triple (base_live i) (close_files (F := F) l fd i) (fun _ => base_live i).
Proof.
  induction l as [|[f|] l IH]; intros fd; cbn [close_files]; [by apply triple_ret| |].
  - eapply (triple_bind _ _ (fun _ => base_live i)); [|intros []; apply IH]. apply step_quiet; [apply still_fileop|]. intros g.
    apply last_pset. intros k p. by apply base_slot_live.
  - apply step_quiet; [apply still_ret|]. intros _. apply IH.
Qed.

(** Nothing runs on the CPU. *)
Definition idle (k : pk F) : pk F := mkpk (files k) (procs k) (nextpid k) (initproc k) None (lks k) (ticks k).
Definition left_cpu (k : pk F) : Prop := table_ok (idle k) /\ curproc k = c /\ initproc k = n.
Lemma tabular_left : tabular left_cpu.
Proof. intros k k' E1 E2 E3 E4 (H & H1 & H2). split; [by apply (tabular_ok (idle k))|]. split; congruence. Qed.
Lemma idle_ok (k : pk F) : table_ok k -> table_ok (idle k).
Proof. by intros [H1 H2 H3 H4 H5 H6 H7 H8]. Qed.

Lemma zombie_base i status (k : pk F) p : c = Some i -> n <> Some i -> base k -> childless i k -> procs k !! i = Some p ->
  left_cpu (upd k i (set_state ZOMBIE (set_xstate status p))).
Proof.
  intros Hi Hn (H & H1 & H2) Hch Hp. split; [|done]. pose proof (idle_ok _ H) as H'. destruct (to_cur _ H i) as (q & Hq & Hu & _); [congruence|].
  apply (slot_ok i p _ (idle k)); try done.
  - intros _. rewrite Hp in Hq. injection Hq as <-. exact (to_used _ H i p Hp Hu).
  - by left.
  - by left.
  - right. split; [done|]. split; [done|]. cbn. congruence.
  - cbn. congruence.
Qed.

(** What [exit] does once its children have a new parent. *)
Definition exit_tail (status : Z) (i : nat) : P unit :=
  do! o <- pget i parent;
  wakeup (chan_of o) ;; acquire (plock i) ;; pset i (fun p => set_state ZOMBIE (set_xstate status p)) ;; release "wait_lock" ;; sched i.

Lemma exit_reaches status R : (forall i, c = Some i -> n <> Some i -> triple (fun k => base k /\ childless i k) (exit_tail status i) R) ->
  triple base (exit (F := F) status) R.
Proof.
  intros Ht. apply step_myproc. intros i Hi k a k' Hk E. rewrite (bind_ok _ _ k n k) in E by (unfold gets; by destruct Hk as [(_ & _ & ->) _]).
  case_bool_decide as Hn; [done|]. refine ((_ : triple (base_live i) _ R) k a k' Hk E). clear k a k' Hk E.
  apply step_quiet; [apply still_pget|]. intros l. eapply triple_bind; [apply close_files_base|]. intros [].
  apply step_quiet; [apply still_pget|]. intros [d|]; [|apply triple_undef].
  apply step_quiet; [apply still_fileop|]. intros _. apply step_tame; [done|]. apply step_quiet; [apply still_acquire|]. intros _.
  apply base_of_live. eapply triple_bind; [by apply reparent_base|]. intros []. by apply Ht.
Qed.

Lemma exit_base status : triple base (exit (F := F) status) (fun _ => left_cpu).
Proof.
  apply exit_reaches. intros i Hi Hn.
  assert (tabular (fun k => base k /\ childless i k)) as Ht by (apply tabular_and; [apply tabular_base|apply tabular_childless]).
  apply step_still; [done|apply still_pget|]. intros o.
  eapply triple_bind; [apply wakeup_keeps, parental_childless|]. intros []. apply step_still; [done|apply still_acquire|]. intros _.
  apply (step_pset _ left_cpu); [intros k p [Hb Hch] Hp; by apply zombie_base|].
  apply step_still; [apply tabular_left|apply still_release|]. intros _. apply triple_still; [apply tabular_left|apply sched_still].
Qed.

Lemma setkilled_base i : triple base (setkilled (F := F) i) (fun _ => base).
Proof.
  apply step_quiet'; [apply still_acquire|]. intros _. apply (step_pset _ base); [intros k p Hk; by apply base_slot_same|].
  apply triple_still; [apply tabular_base|apply still_release].
Qed.
Lemma killed_still i : still (killed (F := F) i).
Proof.
  apply still_bind; [apply still_acquire|]. intros _. apply still_bind; [apply still_pget|]. intros z.
  apply still_bind; [apply still_release|]. intros _. apply still_ret.
Qed.

Lemma growproc_base d : triple base (growproc (F := F) end_ d) (fun _ => base).
Proof.
  apply step_myproc. intros i Hi. apply step_quiet; [apply still_pget|]. intros p.
  assert (forall z, triple (base_live i) (ret z : P Z) (fun _ => base)) as Hret by (intros z; apply triple_ret; by intros k [? _]).
  destruct (0 <? d); [|destruct (d <? 0); [|apply Hret]].
  - apply step_quiet; [apply still_mem|]. intros r. destruct (r =? 0); [apply Hret|]. by apply step_tame.
  - apply step_quiet; [apply still_mem|]. intros r. by apply step_tame.
Qed.

Lemma scheduler_visit_base i : c = None ->
  triple base (scheduler_visit (F := F) i) (fun b k => if b then table_ok k /\ curproc k = Some i /\ initproc k = n else base k).
Proof.
  intros Hc. apply step_quiet'; [apply still_acquire|]. intros _ k b k' Hk E.
  destruct (procs k !! i) as [p|] eqn:Hp; [|by unfold bind, pget in E; rewrite Hp in E].
  rewrite (bind_ok _ _ k (pstate p) k) in E by (unfold pget; by rewrite Hp). case_bool_decide as Es.
  - unfold bind, pset in E. rewrite Hp in E. injection E as <- <-. destruct Hk as (H & H1 & H2). split; [|done].
    destruct (slot_live i (set_state RUNNING) k p) as [[T1 T2 T3 T4 T5 T6 T7 T8] _]; [done|done|exists p; by rewrite Es|done|].
    constructor; try done. intros j [= <-]. exists (set_state RUNNING p). split; [|done]. apply list_lookup_insert_eq. by eapply lookup_lt_Some.
  - revert E. unfold bind. destruct (release (plock i) k) as [[] k1| | |] eqn:Er; intros [= <- <-]. eapply (triple_still base _ tabular_base (still_release _)); eauto.
Qed.

(** The process has left: its CPU is idle. *)
Lemma scheduler_return_base i : triple left_cpu (scheduler_return (F := F) i) (fun _ k => table_ok k /\ curproc k = None /\ initproc k = n).
Proof.
  intros k a k' (H & H1 & H2) E. unfold scheduler_return in E. rewrite (bind_ok _ _ k tt (idle k)) in E by done.
  destruct (still_release _ _ _ _ E) as (E1 & E2 & E3 & E4). split; [by apply (tabular_ok (idle k))|]. split; [done|]. by rewrite E4.
Qed.

(** A process [i] that has exited is collected by a scan. *)
Lemma wait_scan_base i addr : forall m j kids, triple base (wait_scan (F := F) end_ m j i addr kids) (fun _ => base).
Proof.
  induction m as [|m IH]; intros j kids; cbn [wait_scan]; [by apply triple_ret|]. apply step_quiet'; [apply still_pget|]. intros o.
  case_bool_decide as Epar; [|apply IH]. apply step_quiet'; [apply still_acquire|]. intros _. apply step_pget. intros q. case_bool_decide as Es.
  2:{ apply (triple_weak base); [by intros k [? _]|]. apply step_quiet'; [apply still_release|]. intros _. apply IH. }
  apply (triple_weak (spare j)).
  { intros k [Hk Hq]. destruct (dead_slot j k q (proj1 Hk) Hq) as (Hch & Hc & Hn); [by intros [_ ?]|]. destruct Hk as (H & H1 & H2).
    split; [split; [done|]|]; [exists q; by rewrite Es|]. split; [done|]. split; congruence. }
  apply step_spare_still; [apply still_pget|]. intros pt.
  apply step_spare_still; [destruct (addr =? 0); [apply still_ret|apply still_mem]|]. intros [].
  - eapply triple_bind; [apply freeproc_base|]. intros []. apply step_quiet'; [apply still_release|]. intros _.
    apply step_quiet'; [apply still_release|]. intros _. by apply triple_ret.
  - apply step_spare_still; [apply still_release|]. intros _. apply step_spare_still; [apply still_release|]. intros _.
    apply triple_ret. by intros k [[Hk _] _].
Qed.

Lemma wait_round_base addr : triple base (wait_round (F := F) end_ addr) (fun _ => base).
Proof.
  apply step_myproc. intros i Hi. apply base_of_live. eapply triple_bind; [apply wait_scan_base|]. intros [z|kids]; [by apply triple_ret|].
  apply step_quiet'; [destruct kids; [apply killed_still|apply still_ret]|]. intros [].
  - apply step_quiet'; [apply still_release|]. intros _. by apply triple_ret.
  - eapply triple_bind; [apply sleep_base|]. intros []. by apply triple_ret.
Qed.
Lemma wait_base addr : triple base (wait (F := F) end_ addr) (fun _ => base).
Proof. apply step_quiet'; [apply still_acquire|]. intros _. apply wait_round_base. Qed.
Lemma wait_resume_base addr : triple base (wait_resume (F := F) end_ addr) (fun _ => base).
Proof. eapply triple_bind; [apply sleep_resume_base|]. intros []. apply wait_round_base. Qed.

(** A live process that has made its first process leaves the CPU to it. *)
Lemma left_of_base (k : pk F) : base k -> left_cpu k.
Proof. intros (H & H1 & H2). split; [by apply idle_ok|done]. Qed.
End Ops.

(** The first process. *)
Lemma userinit_table code len : triple (base None None) (userinit (F := F) end_ trampoline forkret_addr code len) (fun _ k => table_ok k /\ curproc k = None).
Proof.
  unfold userinit. eapply triple_bind; [apply allocproc_base|]. intros o.
  eapply (triple_bind _ _ (fun _ k => match o with Some i => base_live None (Some i) i k | None => True end)).
  - intros k [] k' Hk [= <-]. destruct o as [i|]; [|done]. destruct Hk as [([(H & H1 & H2) Hl] & Hch & _) (p & Hp & Ha & Hpa)].
    split; [|exact Hl]. split; [|done]. destruct H as [T1 T2 T3 T4 T5 T6 T7 T8]. constructor; try done. intros j [= <-]. eauto.
  - intros []. destruct o as [i|]; [|apply triple_undef]. apply step_quiet; [apply still_pget|]. intros p.
    apply step_quiet; [apply still_mem|]. intros _. apply step_tame; [done|]. apply step_quiet; [apply still_mem|]. intros _.
    apply step_quiet; [apply still_mem|]. intros _. apply step_tame; [done|]. apply step_quiet; [apply still_fileop|]. intros d.
    apply step_tame; [done|]. eapply triple_post; [|apply end_sched, still_release]. by intros a k (H & H1 & _).
Qed.

(** The table at boot: static data, all zero. *)
Definition zeroed (k : pk F) : Prop :=
  procs k = replicate NP (mkproc UNUSED NoChan 0 0 0 None 0 0 0 0 0 0 (replicate (Z.to_nat NOFILE) None) None (replicate 16 0)) /\
  nextpid k = 1 /\ initproc k = None /\ curproc k = None.

Definition unborn (p : proc) : Prop := pstate p = UNUSED /\ blank p.
Definition all_unborn (k : pk F) : Prop := length (procs k) = NP /\ Forall unborn (procs k) /\ nextpid k = 1 /\ initproc k = None /\ curproc k = None.

Lemma all_unborn_ok k : all_unborn k -> base None None k.
Proof.
  intros (H1 & H2 & H3 & H4 & H5). rewrite Forall_lookup in H2. split; [|done]. constructor.
  - done.
  - rewrite H3. done.
  - intros i p Hp _. by apply (H2 i).
  - intros i p Hp Hu. by destruct (H2 i p Hp) as [? _].
  - intros i j p q Hp _ _ _. by destruct (H2 i p Hp) as [_ [? _]].
  - by rewrite H5.
  - intros i j p Hp. destruct (H2 i p Hp) as [_ (_ & -> & _)]. done.
  - by rewrite H4.
Qed.

Lemma procinit_table k : zeroed k -> forall k', procinit k = Ok tt k' -> base None None k'.
Proof.
  intros (H1 & H2 & H3 & H4) k' E. apply all_unborn_ok. revert E. apply (fun T : triple all_unborn procinit (fun _ => all_unborn) => T k tt k').
  2:{ split; [by rewrite H1, length_replicate|]. split; [|done]. rewrite H1. by apply Forall_replicate. }
  assert (tabular all_unborn) as Ht by (intros a a' E1 E2 E3 E4; unfold all_unborn; by rewrite E1, E2, E3, E4).
  assert (forall s, still (initlock s : P unit)) as Hs by (intros s; by intros ? ? ? [= _ <-]).
  unfold procinit. apply step_still; [done|apply Hs|]. intros _. apply step_still; [done|apply Hs|]. intros _. apply each_proc_inv. intros i.
  apply step_still; [done|apply Hs|]. intros _. apply last_pset. intros a p (Hl & Hf & Hr) Hp. split; [cbn; by rewrite length_insert|]. split; [|done]. cbn.
  apply Forall_insert; [done|]. rewrite Forall_lookup in Hf. by destruct (Hf i p Hp) as [_ ?].
Qed.
End Table.
