(* ===== verification/ProcTable.v ===== *)
(** * The process table over time

    Any sequence of the functions of kernel/proc.c from boot, with the
    scheduler between processes, keeps the table well formed; what [wakeup]
    and [kill] do to it exactly. *)

From S2P Require Import Prelude Riscv Mem Lock Kalloc Vm UserIO Pipe.
From S2P Require Import Blocks Fs FsSpec File Log Proc ProcSpec.
Local Open Scope Z_scope.

Section Steps.
Context {F : Type} {HF : Files F} {HU : UserSpace machine} (end_ trampoline forkret_addr : Z).
Abbreviation P := (M (pk F)).

(** What runs on a CPU and may return to its caller. *)
Inductive calls : forall A, P A -> Prop :=
  | c_fork : calls Z (fork end_ trampoline forkret_addr)
  | c_kill target : calls Z (kill target)
  | c_wakeup ch : calls unit (wakeup ch)
  | c_setkilled i : calls unit (setkilled i)
  | c_killed i : calls bool (killed i)
  | c_growproc d : calls Z (growproc end_ d)
  | c_wait addr : calls progress (wait end_ addr)
  | c_wait_resume addr : calls progress (wait_resume end_ addr)
  | c_sleep ch lk : calls unit (sleep ch lk)
  | c_sleep_resume lk : calls unit (sleep_resume lk)
  | c_yield : calls unit yield
  | c_yield_resume : calls unit yield_resume
  (** files and memory, which the rest of the kernel works on *)
  | c_files A (m : M F A) : calls A (fileop m).

Inductive pstep (k k' : pk F) : Prop :=
  | ps_call A (m : P A) a : calls A m -> m k = Ok a k' -> pstep k k'
  (** the process changes other fields of its own slot *)
  | ps_own i f : curproc k = Some i -> tame f -> pset i f k = Ok tt k' -> pstep k k'
  (** it has left the CPU in [sched], and the scheduler goes on *)
  | ps_left i : curproc k = Some i -> scheduler_return i k = Ok tt k' -> pstep k k'
  | ps_exit i status k1 : curproc k = Some i -> exit status k = Ok tt k1 -> scheduler_return i k1 = Ok tt k' -> pstep k k'
  | ps_visit i b : curproc k = None -> scheduler_visit i k = Ok b k' -> pstep k k'
  | ps_userinit code len : curproc k = None -> initproc k = None -> userinit end_ trampoline forkret_addr code len k = Ok tt k' -> pstep k k'.

Lemma calls_base c n A (m : P A) : calls A m -> triple (base c n) m (fun _ => base c n).
Proof.
  intros [].
  - apply fork_base.
  - apply kill_base.
  - apply wakeup_base.
  - apply setkilled_base.
  - apply triple_still; [apply tabular_base|apply killed_still].
  - apply growproc_base.
  - apply wait_base.
  - apply wait_resume_base.
  - apply sleep_base.
  - apply sleep_resume_base.
  - apply yield_base.
  - apply triple_still; [apply tabular_base|]. apply still_bind; [apply still_myproc|]. intros i. apply still_release.
  - apply triple_still; [apply tabular_base|apply still_fileop].
Qed.

Lemma pstep_ok k k' : table_ok k -> pstep k k' -> table_ok k'.
Proof.
  intros H Hs. assert (forall c n, curproc k = c -> initproc k = n -> base c n k) as Hb by done. destruct Hs as [A m a Hm E|i f Hc Hf E|i Hc E|i st k1 Hc E1 E2|i b Hc E|code len Hc Hn E].
  - by apply (calls_base (curproc k) (initproc k) A m Hm k a k').
  - unfold pset in E. destruct (procs k !! i) as [p|] eqn:Hp; [|done]. injection E as <-.
    apply (slot_live i f k p); [done|done| |done]. destruct (to_cur _ H i Hc) as (q & Hq & Hu & _). by exists q.
  - by apply (scheduler_return_base (Some i) (initproc k) i k tt k' (left_of_base _ _ _ (Hb _ _ Hc eq_refl))).
  - apply (scheduler_return_base (Some i) (initproc k) i k1 tt k'); [|done]. by apply (exit_base (Some i) (initproc k) st k tt k1); [apply Hb|].
  - pose proof (scheduler_visit_base None (initproc k) i eq_refl k b k' (Hb _ _ Hc eq_refl) E) as Hv. destruct b; apply Hv.
  - by apply (userinit_table end_ trampoline forkret_addr code len k tt k'); [apply Hb|].
Qed.

(** C12.  From boot on, whatever processes, interrupts and the scheduler do in
    whatever order on the table: process identifiers are positive and unique;
    an unused slot holds no identifier, memory, page table or parent; the
    process on the CPU and the first process are neither unused nor exited;
    and the parent of a process is another process that has not exited, so
    that every zombie has someone to collect it and a collected slot has no
    children. *)
Theorem proc_table_invariant k0 k1 k : zeroed k0 -> procinit k0 = Ok tt k1 -> rtc pstep k1 k -> table_ok k.
Proof.
  intros Hz Ei Hr. assert (table_ok k1) as H by apply (procinit_table k0 Hz k1 Ei). clear Ei Hz k0.
  induction Hr as [|k k2 k3 Hs _ IH]; [done|]. apply IH. by apply (pstep_ok k).
Qed.

(** ** What [wakeup] does *)
Definition woken (ch : channel) (me : option nat) (i : nat) (p : proc) : proc :=
  if bool_decide (me <> Some i /\ pstate p = SLEEPING /\ pchan p = ch) then set_state RUNNABLE p else p.

(** No process is locked by this CPU. *)
Definition unlocked (k : pk F) : Prop := forall i, plock i ∉ lks k.
Definition with_procs (l : list proc) (k : pk F) : pk F := mkpk (files k) l (nextpid k) (initproc k) (curproc k) (lks k) (ticks k).

Lemma with_procs_id k : with_procs (procs k) k = k.
Proof. by destruct k. Qed.
Lemma acquire_plock i (k : pk F) : unlocked k -> acquire (plock i) k = Ok tt (set_held (plock i :: lks k) k).
Proof. intros H. exact (acquire_ok (plock i) k (H i)). Qed.
Lemma release_plock i l (k : pk F) : release (plock i) (with_procs l (set_held (plock i :: lks k) k)) = Ok tt (with_procs l k).
Proof. by rewrite (release_head (plock i) (lks k)). Qed.

Lemma wakeup_slot ch i p (k : pk F) : unlocked k -> procs k !! i = Some p ->
  (do! me <- gets curproc;
   if bool_decide (me = Some i) then ret tt
   else acquire (plock i) ;;
     do! p <- pget i (fun p => p);
     (if bool_decide (pstate p = SLEEPING) && bool_decide (pchan p = ch) then pset i (set_state RUNNABLE) else ret tt) ;;
     release (plock i)) k = Ok tt (with_procs (<[i := woken ch (curproc k) i p]> (procs k)) k).
Proof.
  intros Hl Hp. rewrite (bind_ok _ _ k (curproc k) k) by done. unfold woken. case_bool_decide as Hme.
  - rewrite bool_decide_eq_false_2 by tauto. by rewrite list_insert_id, with_procs_id.
  - rewrite (bind_ok _ _ _ _ _ (acquire_plock i k Hl)). set (k1 := set_held (plock i :: lks k) k).
    rewrite (bind_ok _ _ k1 p k1) by (unfold pget; cbn; by rewrite Hp).
    case_bool_decide as Hs; cbn [andb]; [case_bool_decide as Hch|].
    + rewrite bool_decide_eq_true_2 by done. rewrite (bind_ok _ _ k1 tt (with_procs (<[i := set_state RUNNABLE p]> (procs k)) k1)) by (unfold pset; cbn; by rewrite Hp).
      apply release_plock.
    + rewrite bool_decide_eq_false_2 by tauto. rewrite list_insert_id by done. rewrite (bind_ok _ _ k1 tt k1) by done.
      rewrite <- (with_procs_id k1). apply release_plock.
    + rewrite bool_decide_eq_false_2 by tauto. rewrite list_insert_id by done. rewrite (bind_ok _ _ k1 tt k1) by done.
      rewrite <- (with_procs_id k1). apply release_plock.
Qed.

Lemma unlocked_procs l k : unlocked k -> unlocked (with_procs l k).
Proof. done. Qed.

(** The first [m] slots from [i] on, changed by [g]. *)
Definition span (i m : nat) (g : nat -> proc -> proc) (j : nat) (p : proc) : proc := if bool_decide (i <= j < i + m)%nat then g j p else p.

Lemma span_step i m g (l : list proc) p : l !! i = Some p -> imap (span (i + 1) m g) (<[i := g i p]> l) = imap (span i (S m) g) l.
Proof.
  intros Hp. apply list_eq. intros j. rewrite !list_lookup_imap. destruct (decide (j = i)) as [->|Hne].
  - rewrite list_lookup_insert_eq, Hp by (by eapply lookup_lt_Some). cbn. unfold span.
    rewrite bool_decide_eq_false_2 by lia. by rewrite bool_decide_eq_true_2 by lia.
  - rewrite list_lookup_insert_ne by done. destruct (l !! j) as [q|]; [|done]. cbn. f_equal. unfold span.
    destruct (decide (i <= j < i + S m)%nat); [rewrite !bool_decide_eq_true_2 by lia|rewrite !bool_decide_eq_false_2 by lia]; done.
Qed.

Lemma span_none i g (l : list proc) : imap (span i 0 g) l = l.
Proof. apply list_eq. intros j. rewrite list_lookup_imap. destruct (l !! j); [|done]. cbn. unfold span. by rewrite bool_decide_eq_false_2 by lia. Qed.
Lemma span_all g (l : list proc) : length l = NP -> imap (span 0 NP g) l = imap g l.
Proof. intros Hlen. apply imap_ext. intros i p Hp. apply lookup_lt_Some in Hp. unfold span. rewrite bool_decide_eq_true_2; [done|]. lia. Qed.

Lemma each_proc_span g body (Q : pk F -> Prop) : (forall l k, Q k -> Q (with_procs l k)) ->
  (forall i p k, Q k -> procs k !! i = Some p -> body i k = Ok tt (with_procs (<[i := g i p]> (procs k)) k)) ->
  forall m i k, Q k -> (i + m <= length (procs k))%nat -> each_proc m i body k = Ok tt (with_procs (imap (span i m g) (procs k)) k).
Proof.
  intros HQ Hb m. induction m as [|m IH]; intros i k Hk Hlen; cbn [each_proc].
  - by rewrite span_none, with_procs_id.
  - destruct (lookup_lt_is_Some_2 (procs k) i) as [p Hp]; [lia|]. rewrite (bind_ok _ _ _ _ _ (Hb i p k Hk Hp)), IH.
    + cbn. by rewrite (span_step i m g _ p).
    + by apply HQ.
    + cbn. rewrite length_insert. lia.
Qed.

Lemma wakeup_runs ch (k : pk F) : length (procs k) = NP -> unlocked k ->
  wakeup ch k = Ok tt (with_procs (imap (woken ch (curproc k)) (procs k)) k).
Proof.
  intros Hlen Hu. unfold wakeup.
  rewrite (each_proc_span (woken ch (curproc k)) _ (fun k1 => unlocked k1 /\ curproc k1 = curproc k)); [|done| |done|by rewrite Hlen].
  - by rewrite span_all.
  - intros i p k1 [Hu1 Hc1] Hp. rewrite <- Hc1. by apply wakeup_slot.
Qed.

(** [wakeup] always returns; exactly the processes that sleep on the
    channel become runnable, the caller excepted, and nothing else of the
    table, of memory or of the locks changes. *)
Theorem wakeup_wakes ch (k : pk F) : length (procs k) = NP -> unlocked k ->
  wakeup ch k = Ok tt (with_procs (imap (woken ch (curproc k)) (procs k)) k).
Proof. apply wakeup_runs. Qed.

(** ** What [kill] does *)
Definition victim (p : proc) : proc :=
  if bool_decide (pstate p = SLEEPING) then set_state RUNNABLE (set_killed 1 p) else set_killed 1 p.

Lemma kill_hit m i target p (k : pk F) : unlocked k -> procs k !! i = Some p -> pid p = target ->
  kill_loop (S m) i target k = Ok 0 (with_procs (<[i := victim p]> (procs k)) k).
Proof.
  intros Hl Hp Epid. cbn [kill_loop]. rewrite (bind_ok _ _ _ _ _ (acquire_plock i k Hl)). set (k1 := set_held (plock i :: lks k) k).
  rewrite (bind_ok _ _ k1 p k1) by (unfold pget; cbn; by rewrite Hp). rewrite Epid, Z.eqb_refl.
  pose proof (lookup_lt_Some _ _ _ Hp) as Hlt.
  rewrite (bind_ok _ _ k1 tt (with_procs (<[i := set_killed 1 p]> (procs k)) k1)) by (unfold pset; cbn; by rewrite Hp). unfold victim. case_bool_decide as Hs.
  - rewrite (bind_ok _ _ _ tt (with_procs (<[i := set_state RUNNABLE (set_killed 1 p)]> (procs k)) k1)).
    2:{ unfold pset. cbn. rewrite list_lookup_insert_eq by done. by rewrite list_insert_insert_eq. }
    by rewrite (bind_ok _ _ _ _ _ (release_plock i _ k)).
  - rewrite (bind_ok _ _ _ tt _ eq_refl). by rewrite (bind_ok _ _ _ _ _ (release_plock i _ k)).
Qed.

Lemma kill_miss m i target p (k : pk F) : unlocked k -> procs k !! i = Some p -> pid p <> target ->
  kill_loop (S m) i target k = kill_loop m (i + 1) target k.
Proof.
  intros Hl Hp Epid. cbn [kill_loop]. rewrite (bind_ok _ _ _ _ _ (acquire_plock i k Hl)). set (k1 := set_held (plock i :: lks k) k).
  rewrite (bind_ok _ _ k1 p k1) by (unfold pget; cbn; by rewrite Hp). destruct (Z.eqb_spec (pid p) target); [done|].
  rewrite <- (with_procs_id k1). rewrite (bind_ok _ _ _ _ _ (release_plock i (procs k) k)). by rewrite with_procs_id.
Qed.

(** The first slot with this identifier. *)
Definition first_with (Q : proc -> Prop) (l : list proc) (i : nat) (p : proc) : Prop :=
  l !! i = Some p /\ Q p /\ forall j q, (j < i)%nat -> l !! j = Some q -> ~ Q q.

Lemma kill_loop_first target i p (k : pk F) : unlocked k -> first_with (fun p => pid p = target) (procs k) i p ->
  forall m j, (j <= i < j + m)%nat -> kill_loop m j target k = Ok 0 (with_procs (<[i := victim p]> (procs k)) k).
Proof.
  intros Hl (Hp & Epid & Hb) m. induction m as [|m IH]; intros j Hj; [lia|]. destruct (decide (j = i)) as [->|Hne]; [by apply kill_hit|].
  destruct (lookup_lt_is_Some_2 (procs k) j) as [q Hq]; [apply lookup_lt_Some in Hp; lia|]. rewrite (kill_miss m j target q); [|done|done|].
  - apply IH. lia.
  - apply (Hb j q); [lia|done].
Qed.

Lemma kill_loop_none target (k : pk F) : unlocked k -> (forall i p, procs k !! i = Some p -> pid p <> target) ->
  forall m j, (j + m <= length (procs k))%nat -> kill_loop m j target k = Ok (-1) k.
Proof.
  intros Hl Hn m. induction m as [|m IH]; intros j Hj; [done|]. destruct (lookup_lt_is_Some_2 (procs k) j) as [q Hq]; [lia|].
  rewrite (kill_miss m j target q); [|done|done|by apply (Hn j)]. apply IH. lia.
Qed.

Lemma first_or_none (Q : proc -> Prop) (l : list proc) : (forall p, Decision (Q p)) -> (exists i p, first_with Q l i p) \/ (forall i p, l !! i = Some p -> ~ Q p).
Proof.
  intros HQ. induction l as [|p l IH]; [by right|]. destruct (decide (Q p)) as [Hp|Hp].
  - left. exists 0%nat, p. split; [done|]. split; [done|]. intros j q Hj. lia.
  - destruct IH as [(i & q & Hq & HQq & Hb)|Hn].
    + left. exists (S i), q. split; [done|]. split; [done|]. intros [|j] r Hj Hr; [by injection Hr as <-|]. apply (Hb j r); [lia|done].
    + right. intros [|i] q Hq; [by injection Hq as <-|]. by apply (Hn i).
Qed.

(** [kill] always returns.  When a slot has the identifier, the first
    one is marked killed and, when it sleeps, made runnable, and the result is
    0; otherwise nothing changes and the result is -1.  With a well-formed
    table a positive identifier belongs to at most one process. *)
Theorem kill_marks target (k : pk F) : table_ok k -> unlocked k ->
  (exists i p, procs k !! i = Some p /\ pid p = target /\ kill target k = Ok 0 (with_procs (<[i := victim p]> (procs k)) k) /\
     (0 < target -> pstate p <> UNUSED /\ forall j q, procs k !! j = Some q -> pid q = target -> j = i)) \/
  ((forall i p, procs k !! i = Some p -> pid p <> target) /\ kill target k = Ok (-1) k).
Proof.
  intros H Hl. pose proof (to_len _ H) as Hlen. destruct (first_or_none (fun p => pid p = target) (procs k)) as [(i & p & Hf)|Hn]; [apply _| |].
  - left. exists i, p. pose proof Hf as (Hp & Ep & _). pose proof (lookup_lt_Some _ _ _ Hp) as Hlt. split; [done|]. split; [done|]. split.
    + apply (kill_loop_first target i p k Hl Hf). lia.
    + intros Hpos. split.
      * intros Hu. destruct (to_unused _ H i p Hp Hu) as [E0 _]. lia.
      * intros j q Hq Eq. destruct (decide (j = i)) as [|Hne]; [done|]. pose proof (to_uniq _ H j i q p Hq Hp Hne). lia.
  - right. split; [done|]. apply kill_loop_none; [done|done|]. by rewrite Hlen.
Qed.

(** ** Killing process 0 *)
Definition marked (i : nat) (k : pk F) : Prop := exists p, procs k !! i = Some p /\ killed_ p = 1.
Lemma tabular_marked i : tabular (marked i).
Proof. intros k k' E1 _ _ _. unfold marked. by rewrite E1. Qed.
Lemma step_marked {A} i f (h : unit -> P A) R : (forall p, killed_ (f p) = killed_ p) -> triple (marked i) (h tt) R -> triple (marked i) (bind (pset i f) h) R.
Proof.
  intros Hf. apply step_pset. intros k p (q & Hq & Ek) Hp. rewrite Hp in Hq. injection Hq as <-. exists (f p).
  split; [apply list_lookup_insert_eq; by eapply lookup_lt_Some|]. by rewrite Hf.
Qed.
Lemma step_marked_still {A B} i (m : P A) (h : A -> P B) R : still m -> (forall a, triple (marked i) (h a) R) -> triple (marked i) (bind m h) R.
Proof. apply step_still, tabular_marked. Qed.

Abbreviation is_unused := (fun p => pstate p = UNUSED).
Lemma find_unused_first i p : forall m j, (j <= i < j + m)%nat ->
  triple (fun k : pk F => first_with is_unused (procs k) i p /\ killed_ p = 1) (find_unused_proc m j) (fun o k => o = Some i /\ marked i k).
Proof.
  intros m. induction m as [|m IH]; intros j Hj; [lia|]. cbn [find_unused_proc].
  assert (tabular (fun k : pk F => first_with is_unused (procs k) i p /\ killed_ p = 1)) as Ht by (intros k k' E1 _ _ _; by rewrite E1).
  apply step_still; [done|apply still_acquire|]. intros _. apply step_pget. intros q. case_bool_decide as Es.
  - apply triple_ret. intros k [[(Hp & Hs & Hb) Ek] Hq]. assert (j = i) as -> by (destruct (decide (j = i)); [done|destruct (Hb j q ltac:(lia) Hq Es)]).
    split; [done|]. by exists p.
  - apply (triple_weak (fun k => (first_with is_unused (procs k) i p /\ killed_ p = 1) /\ j <> i)).
    { intros k [Hk Hq]. split; [done|]. intros ->. destruct Hk as [(Hp & Hs & _) _]. congruence. }
    apply triple_pure. intros Hne. apply step_still; [done|apply still_release|]. intros _. apply IH. lia.
Qed.

Lemma allocpid_procs (k k' : pk F) a : allocpid k = Ok a k' -> procs k' = procs k.
Proof.
  unfold allocpid, bind. destruct (acquire "nextpid" k) as [[] k1| | |] eqn:E1; try done. unfold gets at 1.
  destruct (nextpid k1 =? 2 ^ 31 - 1); [done|]. unfold modify. match goal with |- context [release "nextpid" ?k2] => destruct (release "nextpid" k2) as [[] k3| | |] eqn:E2 end; try done.
  intros [= _ <-]. destruct (still_acquire _ _ _ _ E1) as (<- & _). by destruct (still_release _ _ _ _ E2) as (-> & _).
Qed.

Lemma allocproc_marked i p : (i < NP)%nat -> triple (fun k : pk F => first_with is_unused (procs k) i p /\ killed_ p = 1)
  (allocproc end_ trampoline forkret_addr) (fun o k => forall np, o = Some np -> np = i /\ marked i k).
Proof.
  intros Hi. unfold allocproc. eapply triple_bind; [apply (find_unused_first i p NP 0); lia|]. intros o.
  apply (triple_weak (fun k => marked i k /\ o = Some i)); [by intros k [? ?]|]. apply triple_pure. intros ->.
  eapply (triple_bind _ _ (fun _ => marked i)).
  { intros k a k' Hm E%allocpid_procs. unfold marked. by rewrite E. }
  assert (triple (marked i) (freeproc (F := F) end_ i ;; release (plock i) ;; ret (None : option nat)) (fun o k => forall np, o = Some np -> np = i /\ marked i k)) as Hgive.
  { intros k a k' _ E. unfold bind in E. destruct (freeproc end_ i k) as [[] k1| | |]; try discriminate E.
    destruct (release (plock i) k1) as [[] k2| | |]; try discriminate E. by injection E as <- _. }
  intros n. apply step_marked; [done|]. apply step_marked_still; [apply still_mem|]. intros tf. apply step_marked; [done|].
  destruct (tf =? 0); [exact Hgive|]. apply step_marked_still; [apply still_mem|]. intros pt. apply step_marked; [done|].
  destruct (pt =? 0); [exact Hgive|]. apply step_marked; [done|]. apply triple_ret. by intros k Hm np [= <-].
Qed.

(** [kill(0)] succeeds while a slot is unused: unused slots have
    identifier 0.  It marks the first of them as killed, and because
    [allocproc] does not clear the mark, the next process made, which takes
    that slot, is killed from the start. *)
Theorem kill_zero_kills_next (k : pk F) i p : table_ok k -> unlocked k -> first_with is_unused (procs k) i p ->
  exists k', kill 0 k = Ok 0 k' /\ procs k' !! i = Some (set_killed 1 p) /\
    forall np k'', allocproc end_ trampoline forkret_addr k' = Ok (Some np) k'' -> np = i /\ marked i k''.
Proof.
  intros H Hl (Hp & Hu & Hb). pose proof (lookup_lt_Some _ _ _ Hp) as Hlt. destruct (to_unused _ H i p Hp Hu) as [E0 _].
  assert (victim p = set_killed 1 p) as Ev by (unfold victim; by rewrite Hu). eexists. split; [|split].
  - unfold kill. apply (kill_loop_first 0 i p); [done| |rewrite <- (to_len _ H); lia]. split; [done|]. split; [done|].
    intros j q Hj Hq Eq. pose proof (to_used _ H j q Hq (Hb j q Hj Hq)). lia.
  - cbn. by rewrite list_lookup_insert_eq, Ev.
  - intros np k'' E. refine (allocproc_marked i (set_killed 1 p) _ _ _ _ _ E np eq_refl); [rewrite <- (to_len _ H); lia|]. split; [|done]. rewrite Ev. split; [|split].
    + cbn. by apply list_lookup_insert_eq.
    + done.
    + intros j q Hj. cbn. rewrite list_lookup_insert_ne by lia. by apply Hb.
Qed.
End Steps.

(** ** Examples *)
Module Table.
(** No files, and a memory. *)
#[export] Instance bare : Files machine := {|
  fl_dup f := ret f; fl_close f := ret tt; fl_idup i := ret i; fl_iput i := ret tt; fl_namei p := ret (Some 0%nat); fl_mem A c := c
|}.
Definition empty : machine := mkmachine ∅ 0 ∅ [].
Definition no_files : list (option nat) := replicate (Z.to_nat NOFILE) None.
Definition unused : proc := mkproc UNUSED NoChan 0 0 0 None 0 0 0 0 0 0 no_files None (replicate 16 0).

(** [init] waits for its child, which runs. *)
Definition init : proc := mkproc SLEEPING (OnProc 0) 0 0 1 None 0 0 0 0 0 0 no_files (Some 0%nat) (replicate 16 0).
Definition kid : proc := mkproc RUNNING NoChan 0 0 2 (Some 0%nat) 0 0 0 0 0 0 no_files (Some 0%nat) (replicate 16 0).
Definition family (l : list proc) (me : option nat) : pk machine := mkpk empty (l ++ replicate 62 unused) 3 (Some 0%nat) me [] 0.
Definition two : pk machine := family [init; kid] (Some 1%nat).

Lemma family_lookup a b me i p : procs (family [a; b] me) !! i = Some p -> i = 0%nat /\ p = a \/ i = 1%nat /\ p = b \/ (2 <= i)%nat /\ p = unused.
Proof.
  intros Hp. change (([a; b] ++ replicate 62 unused) !! i = Some p) in Hp. destruct i as [|[|i]].
  - injection Hp as <-. by left.
  - injection Hp as <-. by right; left.
  - right; right. split; [lia|]. rewrite lookup_app_r in Hp by (cbn; lia). apply lookup_replicate in Hp. apply Hp.
Qed.

Lemma family_ok a b me : alive a -> alive b \/ pstate b = ZOMBIE -> pid a = 1 -> pid b = 2 -> parent a = None -> parent b = Some 0%nat ->
  me = None \/ me = Some 0%nat \/ (me = Some 1%nat /\ alive b) -> table_ok (family [a; b] me).
Proof.
  intros Ha Hb Ea Eb Hpa Hpb Hme. assert (pstate b <> UNUSED) as Hub by (destruct Hb as [[? _]|Hb]; [done|by rewrite Hb]). constructor.
  - done.
  - done.
  - intros i p Hp. destruct (family_lookup _ _ _ _ _ Hp) as [[_ ->]|[[_ ->]|[_ ->]]]; [by destruct Ha|done|done].
  - intros i p Hp Hu. change (nextpid _) with 3. destruct (family_lookup _ _ _ _ _ Hp) as [[_ ->]|[[_ ->]|[_ ->]]]; [lia|lia|done].
  - intros i j p q Hp Hq Hne. destruct (family_lookup _ _ _ _ _ Hp) as [[-> ->]|[[-> ->]|[? ->]]]; destruct (family_lookup _ _ _ _ _ Hq) as [[-> ->]|[[-> ->]|[? ->]]]; cbn; rewrite ?Ea, ?Eb; done.
  - intros i Hi. change (me = Some i) in Hi. destruct Hme as [->|[->|[-> Hal]]]; [done|injection Hi as <-; by exists a|injection Hi as <-; by exists b].
  - intros i j p Hp Hj. destruct (family_lookup _ _ _ _ _ Hp) as [[-> ->]|[[-> ->]|[? ->]]]; [congruence| |done].
    rewrite Hpb in Hj. injection Hj as <-. split; [done|]. by exists a.
  - intros i [= <-]. by exists a.
Qed.

Definition nobody : pk machine := mkpk empty (replicate NP unused) 1 None None [] 0.

Lemma procinit_runs (k : pk machine) : lks k = [] -> procs k = replicate NP unused ->
  exists k1, procinit k = Ok tt k1 /\ lks k1 = [] /\ length (procs k1) = NP /\ forall i p, procs k1 !! i = Some p -> pid p = pid unused.
Proof.
  intros Hl Hp. assert (forall s (k : pk machine), lks k = [] -> (initlock s : M (pk machine) unit) k = Ok tt k) as Hi.
  { intros s [f l n i c h t] Eh. cbn in Eh. by subst h. }
  set (g := fun i p => set_kstack (KSTACK (Z.of_nat i)) (set_state UNUSED p)). exists (with_procs (imap g (procs k)) k). split; [|split; [done|split]].
  - unfold procinit. rewrite (bind_ok _ _ _ _ _ (Hi _ k Hl)), (bind_ok _ _ _ _ _ (Hi _ k Hl)).
    rewrite (each_proc_span g _ (fun k => lks k = [])); [by rewrite span_all by (by rewrite Hp, length_replicate)|done| |done|by rewrite Hp, length_replicate].
    intros i p k1 Hl1 Hp1. rewrite (bind_ok _ _ _ _ _ (Hi _ k1 Hl1)). unfold pset. by rewrite Hp1.
  - cbn. by rewrite length_imap, Hp, length_replicate.
  - intros i p. cbn. rewrite list_lookup_imap, Hp. destruct (replicate NP unused !! i) as [q|] eqn:Hq; [|done]. intros [= <-].
    apply lookup_replicate in Hq as [-> _]. done.
Qed.

Lemma two_ok : table_ok two.
Proof. apply family_ok; try done. - by left. - right; right. done. Qed.
Lemma no_locks (k : pk machine) : lks k = [] -> unlocked k.
Proof. intros E i. rewrite E. apply not_elem_of_nil. Qed.
End Table.
Import Table.

Lemma wakeup_wakes_witness : exists k', wakeup (OnProc 0) two = Ok tt k' /\ procs k' !! 0%nat = Some (set_state RUNNABLE init) /\ procs k' !! 1%nat = Some kid.
Proof. eexists. split; [apply (wakeup_wakes (OnProc 0) two); [reflexivity|by apply no_locks]|]. split; reflexivity. Defined.

Lemma kill_marks_witness : exists k', kill 1 two = Ok 0 k' /\ procs k' !! 0%nat = Some (set_state RUNNABLE (set_killed 1 init)).
Proof.
  destruct (kill_marks 1 two) as [(i & p & Hp & Ep & E & Hu)|[Hn E]]; [apply two_ok|by apply no_locks| |].
  - destruct (family_lookup _ _ _ _ _ Hp) as [[-> ->]|[[-> ->]|[_ ->]]]; [|discriminate Ep|discriminate Ep]. eexists. split; [exact E|reflexivity].
  - destruct (Hn 0%nat init); reflexivity.
Defined.

Lemma kill_zero_kills_next_witness : exists k', kill 0 two = Ok 0 k' /\ procs k' !! 2%nat = Some (set_killed 1 unused).
Proof.
  destruct (kill_zero_kills_next 0 0 0 two 2 unused) as (k' & E & H & _).
  - apply two_ok.
  - by apply no_locks.
  - split; [reflexivity|]. split; [reflexivity|]. intros j q Hj Hq. destruct (family_lookup _ _ _ _ _ Hq) as [[_ ->]|[[_ ->]|[? _]]]; [done|done|lia].
  - exists k'. split; [exact E|exact H].
Defined.

Lemma proc_table_invariant_witness : exists k1, procinit nobody = Ok tt k1 /\ kill 7 k1 = Ok (-1) k1 /\ table_ok k1.
Proof.
  destruct (procinit_runs nobody eq_refl eq_refl) as (k1 & E1 & Hl & Hlen & Hp). exists k1. split; [exact E1|].
  assert (kill 7 k1 = Ok (-1) k1) as E2.
  { apply kill_loop_none; [by apply no_locks| |by rewrite Hlen]. intros i p Hi. rewrite (Hp i p Hi). change (pid unused) with 0. lia. }
  split; [exact E2|]. apply (proc_table_invariant (HU := SmallDisk.memory) KERNBASE 0 0 nobody k1 k1).
  - split; [reflexivity|]. split; [reflexivity|]. split; reflexivity.
  - exact E1.
  - apply rtc_once. apply (ps_call _ _ _ _ _ Z (kill 7) (-1)); [apply c_kill|exact E2].
Defined.
