(* ===== verification/ProcWait.v ===== *)
(** * exit and wait

    What [exit] leaves for the parent, and what [wait] does with it. *)

From S2P Require Import Prelude Riscv Mem Lock Kalloc Vm UserIO Pipe.
From S2P Require Import Blocks Fs FsSpec File Log Proc ProcSpec ProcTable.
Local Open Scope Z_scope.

Section Wait.
Context {F : Type} {HF : Files F} {HU : UserSpace machine} (end_ : Z).
Abbreviation P := (M (pk F)).

(** The slot of a process that has been collected. *)
Definition freed (p : proc) : proc :=
  set_state UNUSED (set_xstate 0 (set_killed 0 (set_chan NoChan
    (set_name (fun l => <[0%nat := 0]> l) (set_parent None (set_pid 0 (set_sz 0 (set_pgtbl 0 (set_trapframe 0 p))))))))).

Definition table (l : list proc) (me : option nat) (k : pk F) : Prop := procs k = l /\ curproc k = me.
Lemma tabular_table l me : tabular (table l me).
Proof. intros k k' E1 _ E3 _ [H1 H2]. split; congruence. Qed.
Lemma step_table {A B} l me (m : P A) (h : A -> P B) R : still m -> (forall a, triple (table l me) (h a) R) -> triple (table l me) (bind m h) R.
Proof. apply step_still, tabular_table. Qed.
Lemma last_table {A} l me (m : P A) : still m -> triple (table l me) m (fun _ => table l me).
Proof. apply triple_still, tabular_table. Qed.
Lemma read_table {A B} l me i p (f : proc -> A) (h : A -> P B) R : l !! i = Some p -> triple (table l me) (h (f p)) R -> triple (table l me) (bind (pget i f) h) R.
Proof.
  intros Hp Hh k a k' [Hl Hc] E. unfold bind, pget in E. rewrite Hl, Hp in E. by apply (Hh k a k').
Qed.
Lemma step_me {B} l i (h : nat -> P B) R : triple (table l (Some i)) (h i) R -> triple (table l (Some i)) (bind myproc h) R.
Proof. intros Hh k a k' [Hl Hc] E. unfold bind, myproc in E. rewrite Hc in E. by apply (Hh k a k'). Qed.
Lemma write_table {B} l me i p f (h : unit -> P B) R : l !! i = Some p -> triple (table (<[i := f p]> l) me) (h tt) R -> triple (table l me) (bind (pset i f) h) R.
Proof. intros Hp. apply step_pset. intros k q [Hl Hc] Hq. split; [|done]. cbn. congruence. Qed.
Lemma end_table l me i p f : l !! i = Some p -> triple (table l me) (pset i f) (fun _ => table (<[i := f p]> l) me).
Proof. intros Hp. apply last_pset. intros k q [Hl Hc] Hq. split; [|done]. cbn. congruence. Qed.

Lemma freeproc_table l me j q : l !! j = Some q -> triple (table l me) (freeproc end_ j) (fun _ => table (<[j := freed q]> l) me).
Proof.
  intros Hq. pose proof (lookup_lt_Some _ _ _ Hq) as Hlt. unfold freeproc. apply (read_table _ _ j q); [done|].
  apply step_table; [destruct (trapframe q =? 0); [apply still_ret|apply still_mem]|]. intros _. apply (write_table _ _ j q); [done|].
  apply step_table; [destruct (pgtbl q =? 0); [apply still_ret|apply still_mem]|]. intros _.
  eapply triple_post; [|apply (end_table _ _ j (set_trapframe 0 q)); by apply list_lookup_insert_eq].
  intros [] k. by rewrite list_insert_insert_eq.
Qed.

Definition child (i : nat) (p : proc) : Prop := parent p = Some i.
Definition dead_child (i : nat) (p : proc) : Prop := child i p /\ pstate p = ZOMBIE.

(** What a scan of the slots from [j] on finds. *)
Definition scanned (l : list proc) (me : option nat) (i j m : nat) (addr : Z) (kids : bool) (r : Z + bool) (k : pk F) : Prop :=
  match r with
  | inl z => exists c q, (j <= c)%nat /\ l !! c = Some q /\ dead_child i q /\
      (forall c' q', (j <= c' < c)%nat -> l !! c' = Some q' -> ~ dead_child i q') /\
      ((z = pid q /\ table (<[c := freed q]> l) me k) \/ (z = -1 /\ addr <> 0 /\ table l me k))
  | inr b => table l me k /\ (forall c q, (j <= c < j + m)%nat -> l !! c = Some q -> ~ dead_child i q) /\
      (b = true <-> kids = true \/ exists c q, (j <= c < j + m)%nat /\ l !! c = Some q /\ child i q)
  end.

(** A slot that is no dead child is passed over. *)
Lemma scanned_next l me i j m addr kids kids' q r k : l !! j = Some q -> ~ dead_child i q -> (kids' = true <-> kids = true \/ child i q) ->
  scanned l me i (j + 1) m addr kids' r k -> scanned l me i j (S m) addr kids r k.
Proof.
  intros Hq Hn Hk. destruct r as [z|b]; cbn.
  - intros (c & x & Hc & Hx & Hd & Hb & Hr). exists c, x. split; [lia|]. split; [done|]. split; [done|]. split; [|done].
    intros c' q' Hc' Hq'. destruct (decide (c' = j)) as [->|]; [congruence|]. apply (Hb c' q'); [lia|done].
  - intros (Ht & Hb & Hi). split; [done|]. split.
    + intros c x Hc Hx. destruct (decide (c = j)) as [->|]; [congruence|]. apply (Hb c x); [lia|done].
    + rewrite Hi, Hk. split.
      * intros [[?|?]|(c & x & Hc & Hx & Hch)]; [by left|right; exists j, q; split; [lia|done]|right; exists c, x; split; [lia|done]].
      * intros [?|(c & x & Hc & Hx & Hch)]; [by left; left|]. destruct (decide (c = j)) as [->|]; [left; right; congruence|].
        right. exists c, x. split; [lia|done].
Qed.

Lemma wait_scan_finds l me i addr : forall m j kids, (j + m <= length l)%nat -> is_Some (l !! i) ->
  triple (table l me) (wait_scan end_ m j i addr kids) (scanned l me i j m addr kids).
Proof.
  intros m. induction m as [|m IH]; intros j kids Hlen Hi; cbn [wait_scan].
  { apply triple_ret. intros k Hk. split; [done|]. split; [intros; lia|]. split; [by left|]. intros [?|(c & q & Hc & _)]; [done|lia]. }
  destruct (lookup_lt_is_Some_2 l j) as [q Hq]; [lia|]. apply (read_table _ _ j q); [done|]. case_bool_decide as Epar.
  2:{ eapply triple_post; [|apply IH; [lia|done]]. intros r k. apply (scanned_next l me i j m addr kids kids q); [done|by intros [? _]|]. unfold child. tauto. }
  apply step_table; [apply still_acquire|]. intros _. apply (read_table _ _ j q); [done|]. case_bool_decide as Es.
  2:{ apply step_table; [apply still_release|]. intros _. eapply triple_post; [|apply IH; [lia|done]]. intros r k.
      apply (scanned_next l me i j m addr kids true q); [done|by intros [_ ?]|]. unfold child. tauto. }
  destruct Hi as [p Hp]. apply (read_table _ _ i p); [done|].
  assert (forall z k, (z = pid q /\ table (<[j := freed q]> l) me k) \/ (z = -1 /\ addr <> 0 /\ table l me k) -> scanned l me i j (S m) addr kids (inl z) k) as Hd.
  { intros z k Hz. exists j, q. split; [lia|]. split; [done|]. split; [done|]. split; [intros; lia|done]. }
  assert (triple (table l me) (freeproc end_ j ;; release (plock j) ;; release "wait_lock" ;; ret (inl (pid q))) (scanned l me i j (S m) addr kids)) as Hfree.
  { eapply triple_bind; [by apply freeproc_table|]. intros []. apply step_table; [apply still_release|]. intros _. apply step_table; [apply still_release|].
    intros _. apply triple_ret. intros k Hk. apply Hd. by left. }
  destruct (Z.eqb_spec addr 0) as [Ea|Ea]; [exact Hfree|].
  apply step_table; [apply still_mem|]. intros []; [exact Hfree|].
  apply step_table; [apply still_release|]. intros _. apply step_table; [apply still_release|]. intros _. apply triple_ret. intros k Hk. apply Hd. by right.
Qed.

Lemma killed_reads l me i p : l !! i = Some p -> triple (table l me) (killed i) (fun b k => b = negb (killed_ p =? 0) /\ table l me k).
Proof.
  intros Hp. unfold killed. apply step_table; [apply still_acquire|]. intros _. apply (read_table _ _ i p); [done|].
  apply step_table; [apply still_release|]. intros _. by apply triple_ret.
Qed.

Lemma sleep_table l i p ch lk : l !! i = Some p ->
  triple (table l (Some i)) (sleep ch lk) (fun _ => table (<[i := set_state SLEEPING (set_chan ch p)]> l) (Some i)).
Proof.
  intros Hp. apply step_me. apply step_table; [apply still_acquire|]. intros _.
  apply step_table; [apply still_release|]. intros _. apply (write_table _ _ i p); [done|]. apply last_table, sched_still.
Qed.

(** What a call of [wait] by process [i] has done when it returns or sleeps. *)
Definition waited (l : list proc) (i : nat) (p : proc) (addr : Z) (r : progress) (k : pk F) : Prop :=
  match r with
  | Done z =>
      (exists c q, l !! c = Some q /\ dead_child i q /\ z = pid q /\ procs k = <[c := freed q]> l) \/
      (z = -1 /\ procs k = l /\
       ((exists c q, l !! c = Some q /\ dead_child i q /\ addr <> 0) \/
        (forall c q, l !! c = Some q -> ~ child i q) \/
        (killed_ p <> 0 /\ forall c q, l !! c = Some q -> ~ dead_child i q)))
  | Asleep _ =>
      (exists c q, l !! c = Some q /\ child i q) /\ (forall c q, l !! c = Some q -> ~ dead_child i q) /\ killed_ p = 0 /\
      procs k = <[i := set_state SLEEPING (set_chan (OnProc i) p)]> l
  end.

Lemma wait_round_does l i p addr : length l = NP -> l !! i = Some p ->
  triple (table l (Some i)) (wait_round end_ addr) (waited l i p addr).
Proof.
  intros Hlen Hp. apply step_me.
  assert (forall c q, l !! c = Some q -> (0 <= c < 0 + NP)%nat) as Hin by (intros c q Hq%lookup_lt_Some; lia).
  eapply triple_bind; [apply (wait_scan_finds l (Some i) i addr NP 0 false); [lia|by exists p]|]. intros [z|kids].
  { apply triple_ret. intros k (c & q & _ & Hq & Hd & _ & [[-> [Ht _]]|(-> & Ha & [Ht _])]); [left|right].
    - by exists c, q.
    - split; [done|]. split; [done|]. left. by exists c, q. }
  apply (triple_weak (fun k => table l (Some i) k /\ ((forall c q, l !! c = Some q -> ~ dead_child i q) /\ (kids = true <-> exists c q, l !! c = Some q /\ child i q)))).
  { intros k (Ht & Hd & Hk). split; [done|]. split; [intros c q Hq; by apply (Hd c); [apply (Hin c q)|]|]. rewrite Hk. split.
    - intros [?|(c & q & _ & Hx)]; [done|]. by exists c, q.
    - intros (c & q & Hq & Hx). right. exists c, q. split; [by apply (Hin c q)|done]. }
  apply triple_pure. intros [Hd Hk].
  eapply (triple_bind _ _ (fun stop k => table l (Some i) k /\ stop = (if kids then negb (killed_ p =? 0) else true))).
  { destruct kids; [|by apply triple_ret]. eapply triple_post; [|by apply killed_reads]. by intros b k [-> Ht]. }
  intros stop. apply triple_pure. intros ->. destruct kids.
  - destruct (Z.eqb_spec (killed_ p) 0) as [Ek|Ek]; cbn [negb].
    + eapply triple_bind; [by apply sleep_table|]. intros []. apply triple_ret. intros k [Ht _]. split; [by apply Hk|done].
    + apply step_table; [apply still_release|]. intros _. apply triple_ret. intros k [Ht _]. right. split; [done|]. split; [done|]. right; right. done.
  - apply step_table; [apply still_release|]. intros _. apply triple_ret. intros k [Ht _]. right. split; [done|]. split; [done|]. right; left.
    intros c q Hq Hch. assert (false = true); [|done]. apply Hk. eauto.
Qed.

Lemma wait_does l i p addr : length l = NP -> l !! i = Some p -> triple (table l (Some i)) (wait end_ addr) (waited l i p addr).
Proof. intros Hlen Hp. apply step_table; [apply still_acquire|]. intros _. by apply wait_round_does. Qed.

(** C25.  [wait] looks at all slots.  With a child that has exited it returns
    the child's identifier and empties its slot and no other, or returns -1,
    changing nothing, when the status cannot be stored at [addr]; without
    children, or killed, it returns -1 and changes nothing; otherwise it
    sleeps, on its own slot, and only while it has a child and none of them
    has exited. *)
Theorem wait_collects (k : pk F) i p addr r k' : table_ok k -> curproc k = Some i -> procs k !! i = Some p ->
  wait end_ addr k = Ok r k' -> waited (procs k) i p addr r k'.
Proof.
  intros H Hc Hp. apply (wait_does (procs k) i p addr (to_len _ H) Hp k r k'). done.
Qed.

(** ** exit *)
Lemma step_cur {B} l me (h : option nat -> P B) R : triple (table l me) (h me) R -> triple (table l me) (bind (gets curproc) h) R.
Proof. intros Hh k a k' [Hl Hc] E. rewrite (bind_ok _ _ k me k) in E by (unfold gets; by rewrite Hc). by apply (Hh k a k'). Qed.

Lemma wakeup_table ch me : forall m i l, (i + m <= length l)%nat ->
  triple (table l me) (each_proc m i (fun i =>
    do! me <- gets curproc;
    if bool_decide (me = Some i) then ret tt
    else acquire (plock i) ;;
      do! p <- pget i (fun p => p);
      (if bool_decide (pstate p = SLEEPING) && bool_decide (pchan p = ch) then pset i (set_state RUNNABLE) else ret tt) ;;
      release (plock i))) (fun _ => table (imap (span i m (woken ch me)) l) me).
Proof.
  induction m as [|m IH]; intros i l Hlen; cbn [each_proc].
  { apply triple_ret. intros k. by rewrite span_none. }
  destruct (lookup_lt_is_Some_2 l i) as [p Hp]; [lia|]. eapply (triple_bind _ _ (fun _ => table (<[i := woken ch me i p]> l) me)).
  2:{ intros []. eapply triple_post; [|apply IH; rewrite length_insert; lia]. intros [] k. by rewrite span_step. }
  assert (<[i := p]> l = l) as Hid by (by apply list_insert_id). apply step_cur. unfold woken. case_bool_decide as Hme.
  - rewrite bool_decide_eq_false_2 by tauto. rewrite Hid. by apply triple_ret.
  - apply step_table; [apply still_acquire|]. intros _. apply (read_table _ _ i p); [done|].
    destruct (decide (pstate p = SLEEPING /\ pchan p = ch)) as [[Hs Hch]|Hn].
    + rewrite !bool_decide_eq_true_2 by done. cbn [andb]. apply (write_table _ _ i p); [done|]. apply last_table, still_release.
    + rewrite (bool_decide_eq_false_2 (me <> Some i /\ _)) by tauto. rewrite Hid.
      assert (bool_decide (pstate p = SLEEPING) && bool_decide (pchan p = ch) = false) as ->.
      { apply not_true_iff_false. rewrite andb_true_iff, !bool_decide_eq_true. tauto. }
      apply step_table; [apply still_ret|]. intros _. apply last_table, still_release.
Qed.

Lemma wakeup_done ch l me : length l = NP -> triple (table l me) (wakeup ch) (fun _ => table (imap (woken ch me) l) me).
Proof. intros Hlen. eapply triple_post; [|by apply (wakeup_table ch me NP 0 l); rewrite Hlen]. intros [] k. by rewrite span_all. Qed.

(** The parent of a dead process is not asleep in [wait]. *)
Definition parent_awake (p : proc) (l : list proc) : Prop :=
  forall q r, parent p = Some q -> l !! q = Some r -> ~ (pstate r = SLEEPING /\ pchan r = OnProc q).

Lemma exit_tail_wakes l i p status : length l = NP -> l !! i = Some p -> parent p <> Some i ->
  triple (table l (Some i))
    (exit_tail status i)
    (fun _ k => exists q, procs k !! i = Some q /\ pstate q = ZOMBIE /\ xstate q = status /\ parent q = parent p /\ parent_awake q (procs k)).
Proof.
  intros Hlen Hp Hself. apply (read_table _ _ i p); [done|]. eapply triple_bind; [by apply wakeup_done|]. intros []. set (l1 := imap _ l).
  assert (l1 !! i = Some p) as Hp1. { unfold l1. rewrite list_lookup_imap, Hp. cbn. f_equal. unfold woken. by rewrite bool_decide_eq_false_2 by tauto. }
  apply step_table; [apply still_acquire|]. intros _. apply (write_table _ _ i p); [done|]. apply step_table; [apply still_release|]. intros _.
  eapply triple_post; [|apply last_table, sched_still]. intros [] k [Hl _]. exists (set_state ZOMBIE (set_xstate status p)). rewrite Hl.
  split; [apply list_lookup_insert_eq; by eapply lookup_lt_Some|]. split; [done|]. split; [done|]. split; [done|].
  intros q r Eq Hr [Hs Hch]. cbn in Eq. assert (q <> i) by congruence. rewrite list_lookup_insert_ne in Hr by done. unfold l1 in Hr.
  rewrite list_lookup_imap in Hr. destruct (l !! q) as [r0|] eqn:Er; [|done]. injection Hr as <-. unfold woken in Hs, Hch. rewrite Eq in Hs, Hch. cbn [chan_of] in Hs, Hch.
  case_bool_decide as Hw; [done|]. apply Hw. split; [congruence|done].
Qed.

(** When [exit] has given up the CPU, the process is a zombie with its
    exit status, and its parent is not asleep in [wait]: the wakeup is not
    lost whatever happened before. *)
Theorem exit_wakes_parent (k : pk F) i status k' : table_ok k -> curproc k = Some i -> exit status k = Ok tt k' ->
  exists q, procs k' !! i = Some q /\ pstate q = ZOMBIE /\ xstate q = status /\ parent_awake q (procs k').
Proof.
  intros H Hc. apply (exit_reaches (Some i) (initproc k) status (fun _ k' => exists q, procs k' !! i = Some q /\ pstate q = ZOMBIE /\ xstate q = status /\ parent_awake q (procs k'))); [|done].
  intros j [= <-] Hn k1 [] k2 [(H1 & Hc1 & _) Hch] E. destruct (to_cur _ H1 i Hc1) as (p & Hp & _).
  destruct (exit_tail_wakes (procs k1) i p status (to_len _ H1) Hp (no_child _ _ _ _ Hch Hp) k1 tt k2 (conj eq_refl Hc1) E) as (q & Hq & Hs & Hx & _ & Ha).
  by exists q.
Qed.
End Wait.

(** ** Examples *)
Import Table.
(** The child has exited with status 7. *)
Definition zombie : proc := set_state ZOMBIE (set_xstate 7 kid).
Definition collect : pk machine := family [set_state RUNNING init; zombie] (Some 0%nat).

Lemma wait_collects_witness : exists k', wait (HU := SmallDisk.memory) KERNBASE 0 collect = Ok (Done 2) k' /\ waited (procs collect) 0 (set_state RUNNING init) 0 (Done 2) k'.
Proof.
  eexists. split; [reflexivity|]. apply (wait_collects (HU := SmallDisk.memory) KERNBASE collect 0 (set_state RUNNING init) 0).
  - apply family_ok; try done.
    + by right.
    + by right; left.
  - reflexivity.
  - reflexivity.
  - reflexivity.
Defined.

Definition returns {S A} (r : res S A) : bool := match r with Ok _ _ => true | _ => false end.
Lemma exit_wakes_parent_witness : exists k' q, exit (F := machine) 7 two = Ok tt k' /\ procs k' !! 1%nat = Some q /\ pstate q = ZOMBIE /\ xstate q = 7 /\ parent_awake q (procs k').
Proof.
  assert (returns (exit (F := machine) 7 two) = true) as Hr by (lazy; reflexivity). destruct (exit 7 two) as [[] k'| | |] eqn:E; try discriminate Hr.
  destruct (exit_wakes_parent two 1 7 k') as (q & Hq & H).
  - apply two_ok.
  - reflexivity.
  - exact E.
  - exists k', q. split; [reflexivity|]. split; [exact Hq|exact H].
Defined.
