(* ===== verification/Exec.v ===== *)
(** * kernel/exec.c: running a program

    [exec] on the file system, on memory and on the current process ([me]).
    The ELF header and a program header are the bytes [readi] delivers to a
    kernel buffer; an argument is the list of its bytes before the NUL. *)

From S2P Require Import Prelude Riscv Mem Lock Kalloc Vm UserIO Pipe Log.
From S2P Require Import Bio Blocks Fs File Sysfile Proc.
Local Open Scope Z_scope.

(** ** kernel/elf.h *)
Definition ELF_MAGIC : Z := 0x464C457F.
Definition ELF_PROG_LOAD : Z := 1.
Record elfhdr := mkelf { e_magic : Z; e_entry : Z; e_phoff : Z; e_phnum : Z }.
Record proghdr := mkph { ph_type : Z; ph_flags : Z; ph_off : Z; ph_vaddr : Z; ph_filesz : Z; ph_memsz : Z }.
Definition elf_size : Z := 64.
Definition ph_size : Z := 56.

(** The field of [n] bytes at [off]. *)
Definition field (bs : list Z) (off n : nat) : Z := le_val (take n (drop off bs)).
Definition elf_of (bs : list Z) : elfhdr := mkelf (field bs 0 4) (field bs 24 8) (field bs 32 8) (field bs 56 2).
Definition ph_of (bs : list Z) : proghdr :=
  mkph (field bs 0 4) (field bs 4 4) (field bs 8 8) (field bs 16 8) (field bs 32 8) (field bs 40 8).

Definition flags2perm (flags : Z) : Z :=
  let perm := if Z.land flags 1 =? 0 then 0 else PTE_X in
  if Z.land flags 2 =? 0 then perm else Z.lor perm PTE_W.

Section Exec.
Context {S : Type} {HB : Blocks S} {HT : Txn S} {HU : UserSpace machine} {HP : Pages machine}.
Context (end_ trampoline : Z).
Abbreviation K := (M (kst S machine)).

(** [n] bytes at a physical address, from the file. *)
Fixpoint loadseg_loop (fuel : nat) (pt va : Z) (ip : nat) (offset size i : Z) : K Z :=
  match fuel with
  | O => hang
  | Datatypes.S f =>
      if i <? size then
        do! pa <- memop (walkaddr pt (u64 (va + i)));
        if pa =? 0 then panic "loadseg: address should exist"
        else
          let n := if size - i <? PGSIZE then size - i else PGSIZE in
          do! r <- fsop (readi ip ToKernel (u32 (offset + i)) n);
          memop (modify (set_mem (fun m => fill m pa r.2))) ;;
          if negb (u32 r.1 =? n) then ret (-1)
          else loadseg_loop f pt va ip offset size (u32 (i + PGSIZE))
      else ret 0
  end.
Definition loadseg (pt va : Z) (ip : nat) (offset size : Z) : K Z :=
  loadseg_loop (Z.to_nat (size / PGSIZE) + 2) pt va ip offset size 0.

(** The label [bad]. *)
Definition exec_bad (pt size : Z) (ip : option nat) : K Z :=
  (if pt =? 0 then ret tt else memop (proc_freepagetable end_ pt size)) ;;
  (match ip with Some ip => fsop (iunlockput ip) ;; File.end_op | None => ret tt end) ;;
  ret (-1).

(** The loop over the program headers: whether it succeeded, and [sz]. *)
Fixpoint load_program (n : nat) (pt : Z) (ip : nat) (off size : Z) : K (bool * Z) :=
  match n with
  | O => ret (true, size)
  | Datatypes.S n' =>
      do! r <- fsop (readi ip ToKernel (u32 off) ph_size);
      if negb (r.1 =? ph_size) then ret (false, size)
      else
        let ph := ph_of r.2 in
        let next := s32 (off + ph_size) in
        if negb (ph_type ph =? ELF_PROG_LOAD) then load_program n' pt ip next size
        else if ph_memsz ph <? ph_filesz ph then ret (false, size)
        else if u64 (ph_vaddr ph + ph_memsz ph) <? ph_vaddr ph then ret (false, size)
        else if negb (ph_vaddr ph mod PGSIZE =? 0) then ret (false, size)
        else
          do! sz1 <- memop (uvmalloc end_ pt size (u64 (ph_vaddr ph + ph_memsz ph)) (flags2perm (s32 (ph_flags ph))));
          if sz1 =? 0 then ret (false, size)
          else
            do! l <- loadseg pt (ph_vaddr ph) ip (u32 (ph_off ph)) (u32 (ph_filesz ph));
            if l <? 0 then ret (false, sz1) else load_program n' pt ip next sz1
  end.

(** Push the argument strings: the stack pointer and the addresses. *)
Fixpoint push_args (argv : list (list Z)) (pt stackbase sp : Z) (ustack : list Z) : K (option (Z * list Z)) :=
  match argv with
  | [] => ret (Some (sp, ustack))
  | s :: argv' =>
      if MAXARG <=? Z.of_nat (length ustack) then ret None
      else
        let sp := u64 (sp - (Z.of_nat (length s) + 1)) in
        let sp := u64 (sp - sp mod 16) in
        if sp <? stackbase then ret None
        else
          do! ok <- memop (copy_out pt sp (s ++ [0]));
          if ok : bool then push_args argv' pt stackbase sp (ustack ++ [sp]) else ret None
  end.

(** Push the array of argument addresses. *)
Definition push_ustack (pt stackbase sp : Z) (ustack : list Z) : K (option Z) :=
  if MAXARG <=? Z.of_nat (length ustack) then undef
  else
    let sp := u64 (sp - (Z.of_nat (length ustack) + 1) * 8) in
    let sp := u64 (sp - sp mod 16) in
    if sp <? stackbase then ret None
    else
      do! ok <- memop (copy_out pt sp (concat (map (le_bytes 8) (ustack ++ [0]))));
      ret (if ok : bool then Some sp else None).

(** Both: the final stack pointer and [argc]. *)
Definition build_stack (argv : list (list Z)) (pt stackbase top : Z) : K (option (Z * Z)) :=
  do! a <- push_args argv pt stackbase top [];
  match a with
  | None => ret None
  | Some (sp, ustack) =>
      do! b <- push_ustack pt stackbase sp ustack;
      ret (match b with Some sp => Some (sp, Z.of_nat (length ustack)) | None => None end)
  end.

(** The part of the path after the last slash. *)
Fixpoint basename (path last : list Z) : list Z :=
  match path with
  | [] => last
  | c :: path' => basename path' (if c =? SLASH then path' else last)
  end.

Definition set_image (pt size : Z) (name : list Z) : K unit :=
  modify (fun k => let p := me k in
    mkkst (fsys k) (ftable k) (pipes k) (mkup pt size (ofile p) (args p) (pkilled p) (utrapframe p) name)).

Definition TF_A1 : Z := 120.

(** From the point where the program is in memory. *)
Definition exec_start (path : list Z) (argv : list (list Z)) (pt size entry : Z) : K Z :=
  do! oldsz <- gets (fun k => psz (me k));
  let size := PGROUNDUP size in
  do! sz1 <- memop (uvmalloc end_ pt size (u64 (size + 2 * PGSIZE)) PTE_W);
  if sz1 =? 0 then exec_bad pt size None
  else
    memop (uvmclear pt (u64 (sz1 - 2 * PGSIZE))) ;;
    let stackbase := u64 (sz1 - PGSIZE) in
    do! a <- build_stack argv pt stackbase sz1;
    match a with
    | None => exec_bad pt sz1 None
    | Some (sp, argc) =>
        do! p <- gets me;
        memop (store_tf (utrapframe p) TF_A1 sp) ;;
        set_image pt sz1 (copy_name (uname p) (basename path path)) ;;
        memop (store_tf (utrapframe p) TF_EPC entry) ;;
        memop (store_tf (utrapframe p) TF_SP sp) ;;
        memop (proc_freepagetable end_ (pagetable p) oldsz) ;;
        ret argc
    end.

Definition exec (path : list Z) (argv : list (list Z)) : K Z :=
  File.begin_op ;;
  do! o <- fsop (namei path);
  match o with
  | None => File.end_op ;; ret (-1)
  | Some ip =>
      fsop (ilock ip) ;;
      do! r <- fsop (readi ip ToKernel 0 elf_size);
      if negb (r.1 =? elf_size) then exec_bad 0 0 (Some ip)
      else
        let elf := elf_of r.2 in
        if negb (e_magic elf =? ELF_MAGIC) then exec_bad 0 0 (Some ip)
        else
          do! p <- gets me;
          do! pt <- memop (proc_pagetable end_ trampoline (utrapframe p));
          if pt =? 0 then exec_bad 0 0 (Some ip)
          else
            do! l <- load_program (Z.to_nat (e_phnum elf)) pt ip (s32 (e_phoff elf)) 0;
            if l.1 : bool then
              fsop (iunlockput ip) ;; File.end_op ;;
              exec_start path argv pt l.2 (e_entry elf)
            else exec_bad pt l.2 (Some ip)
  end.
End Exec.
