(* ===== verification/ExecSpec.v ===== *)
(** * What exec gives the new program

    The argument strings and the array of their addresses on the user stack;
    that a failing [exec] leaves the process as it was. *)

From S2P Require Import Prelude Riscv Mem Lock Kalloc Vm UserIO Pipe Log.
From S2P Require Import Bio Blocks Fs File Sysfile Proc Exec.
Local Open Scope Z_scope.

Create HintDb same.

(** The bytes [bs] are at [a]. *)
Definition holds (V : views) (pt a : Z) (bs : list Z) : Prop := forall j b, bs !! j = Some b -> V pt (a + Z.of_nat j) = Some b.

(** [V'] differs from [V] between [lo] and [hi] of [pt] at most. *)
Definition only_in (V V' : views) (pt lo hi : Z) : Prop :=
  (forall p x, is_Some (V' p x) <-> is_Some (V p x)) /\
  (forall p x, x < TRAPFRAME -> p <> pt \/ x < lo \/ hi <= x -> V' p x = V p x).

Lemma only_in_refl V pt lo hi : only_in V V pt lo hi.
Proof. done. Qed.
Lemma only_in_weak V V' pt lo hi lo' hi' : lo' <= lo -> hi <= hi' -> only_in V V' pt lo hi -> only_in V V' pt lo' hi'.
Proof. intros H1 H2 [Hd Ho]. split; [done|]. intros p x Hx Hp. apply Ho; [done|]. lia. Qed.
Lemma only_in_trans V V1 V2 pt lo hi : only_in V V1 pt lo hi -> only_in V1 V2 pt lo hi -> only_in V V2 pt lo hi.
Proof.
  intros [Hd1 H1] [Hd2 H2]. split; [intros p x; by rewrite Hd2|]. intros p x Hx Hp. by rewrite H2, H1.
Qed.

Lemma holds_elsewhere V V' pt lo hi a bs : only_in V V' pt lo hi -> hi <= a -> a + Z.of_nat (length bs) <= TRAPFRAME -> holds V pt a bs -> holds V' pt a bs.
Proof.
  intros [_ Ho] Ha Ht Hh j b Hj. pose proof (lookup_lt_Some _ _ _ Hj) as Hlt. rewrite Ho; [by apply Hh|lia|lia].
Qed.

Section Args.
Context {S : Type} {HB : Blocks S} {HT : Txn S} {HU : UserSpace machine} {HP : Pages machine}.
Abbreviation K := (M (kst S machine)).

Definition with_usr (u : machine) (k : kst S machine) : kst S machine :=
  let f := fsys k in
  mkkst (mkfst (blks f) u (sb f) (itable f) (fpid f) (cwd f) (fheld f)) (ftable k) (pipes k) (me k).

Lemma memop_ok {A} (c : M machine A) (k : kst S machine) a u : c (usr (fsys k)) = Ok a u -> memop c k = Ok a (with_usr u k).
Proof. intros E. unfold memop, fsop, usrop, zoom. by rewrite E. Qed.

Section Stack.
Context (Pt : Z -> Prop) (pt base top : Z) (V0 : views).
Context (Hpt : Pt pt) (Hbase : PGSIZE <= base) (Htop : top = base + PGSIZE) (Hal : base mod PGSIZE = 0) (Hhi : top <= TRAPFRAME).
(** The stack page can be written. *)
Context (Hacc : forall x, base <= x < top -> is_Some (V0 pt x)).
Context (Hbuf : PGSIZE <= bufsize).

Lemma store_bytes u V a bs : sees u Pt V -> only_in V0 V pt base top -> base <= a -> a + Z.of_nat (length bs) <= top -> Forall byte_ok bs ->
  exists (ok : bool) u' V', copy_out pt a bs u = Ok ok u' /\ sees u' Pt V' /\ only_in V V' pt a (a + Z.of_nat (length bs)) /\ (ok = true -> holds V' pt a bs).
Proof.
  intros Hs Hv Ha He Hb. pose proof (TRAPFRAME : Z).
  destruct (copy_out_law u Pt pt V a bs Hs Hpt) as (ok & u' & k & V' & E & Hs' & Hput & Hdom & Hk); [|done|lia|].
  { change TRAPFRAME with 274877898752 in *. change PGSIZE with 4096 in *. lia. }
  exists ok, u', V'. split; [done|]. split; [done|]. split; [split; [done|]|].
  - intros p x Hx Hout. destruct (V p x) as [b|] eqn:Eb.
    + rewrite Hput by (by rewrite ?Eb). unfold put. rewrite decide_False; [done|]. rewrite length_take. lia.
    + destruct (V' p x) as [b|] eqn:Eb'; [|done]. destruct (proj1 (Hdom p x)) as [? ?]; [by rewrite Eb'|]. congruence.
  - intros -> j b Hj. pose proof (lookup_lt_Some _ _ _ Hj) as Hlt. rewrite Hput.
    + unfold put. rewrite Hk, firstn_all. rewrite decide_True by lia. by replace (Z.to_nat (a + Z.of_nat j - a)) with j by lia.
    + lia.
    + destruct Hv as [Hd _]. apply Hd, Hacc. lia.
Qed.

(** [done] strings are on the stack, at [addrs], the lowest at [sp]. *)
Record pushed (V : views) (sp : Z) (strs : list (list Z)) (addrs : list Z) : Prop := {
  pu_only : only_in V0 V pt sp top;
  pu_len : length addrs = length strs;
  pu_sp : base <= sp <= top;
  pu_al : sp mod 16 = 0;
  pu_str : forall i s a, strs !! i = Some s -> addrs !! i = Some a -> sp <= a /\ a + Z.of_nat (length s) + 1 <= top /\ holds V pt a (s ++ [0])
}.

(** Room for [n] bytes below [sp]. *)
Definition down (sp n : Z) : Z := u64 (u64 (sp - n) - u64 (sp - n) mod 16).
Lemma down_spec sp n : base <= sp <= top -> 0 < n <= PGSIZE -> 0 <= down sp n <= sp - n /\ sp - n < down sp n + 16 /\ down sp n mod 16 = 0.
Proof.
  intros Hsp Hn. unfold down. change TRAPFRAME with 274877898752 in *. change PGSIZE with 4096 in *.
  rewrite (u64_small (sp - n)) by lia. pose proof (Z.mod_pos_bound (sp - n) 16 ltac:(done)). pose proof (Z.mod_le (sp - n) 16 ltac:(lia) ltac:(done)).
  rewrite u64_small by lia. split; [lia|]. split; [lia|]. rewrite Zminus_mod_idemp_r, Z.sub_diag. done.
Qed.

Lemma push_one V V' sp strs addrs s a : pushed V sp strs addrs -> base <= a -> a + Z.of_nat (length s) + 1 <= sp -> a mod 16 = 0 ->
  only_in V V' pt a (a + Z.of_nat (length (s ++ [0]))) -> holds V' pt a (s ++ [0]) -> pushed V' a (strs ++ [s]) (addrs ++ [a]).
Proof.
  intros [H1 H2 H3 H4 H5] Ha He Hm Ho Hh. rewrite length_app in Ho. cbn [length] in Ho. constructor.
  - apply (only_in_trans _ V); [by apply (only_in_weak _ _ _ sp top); [lia|lia|]|]. by apply (only_in_weak _ _ _ _ _ _ _) with (3 := Ho); lia.
  - rewrite !length_app. cbn. lia.
  - lia.
  - done.
  - intros i t b Ht Hb. apply lookup_app_Some in Ht as [Ht|[Hi Ht]].
    + pose proof (lookup_lt_Some _ _ _ Ht) as Hlt. rewrite lookup_app_l in Hb by lia. destruct (H5 i t b Ht Hb) as (E1 & E2 & E3). split; [lia|]. split; [lia|].
      apply (holds_elsewhere V _ pt a (a + Z.of_nat (length s + 1))); [done|lia|rewrite length_app; cbn; lia|done].
    + rewrite lookup_app_r in Hb by lia. rewrite H2 in Hb. destruct (i - length strs)%nat eqn:Ei; [|by destruct n]. injection Ht as <-. injection Hb as <-.
      split; [lia|]. split; [lia|done].
Qed.

Lemma byte_string s : Forall byte_ok s -> Forall byte_ok (s ++ [0]).
Proof. intros H. apply Forall_app. split; [done|]. by constructor. Qed.

Lemma push_args_spec : forall argv k V sp strs addrs, sees (usr (fsys k)) Pt V -> pushed V sp strs addrs ->
  Forall (fun s => Forall byte_ok s /\ Z.of_nat (length s) < PGSIZE) argv -> Z.of_nat (length strs + length argv) < MAXARG ->
  exists r u V', push_args argv pt base sp addrs k = Ok r (with_usr u k) /\ sees u Pt V' /\ only_in V0 V' pt base top /\
    match r with Some (sp', addrs') => pushed V' sp' (strs ++ argv) addrs' | None => True end.
Proof.
  induction argv as [|s argv IH]; intros k V sp strs addrs Hs Hp Hf Hn; cbn [push_args].
  { exists (Some (sp, addrs)), (usr (fsys k)), V. rewrite app_nil_r. split; [by destruct k as [[]]|]. split; [done|]. split; [|done].
    apply (only_in_weak _ _ _ sp top); [apply (pu_sp _ _ _ _ Hp)|done|apply (pu_only _ _ _ _ Hp)]. }
  apply Forall_cons in Hf as [[Hb Hl] Hf]. cbn [length] in Hn. rewrite (pu_len _ _ _ _ Hp), (proj2 (Z.leb_gt _ _)) by lia.
  pose proof (down_spec sp (Z.of_nat (length s) + 1) (pu_sp _ _ _ _ Hp) ltac:(lia)) as (Hd1 & Hd2 & Hd3). fold (down sp (Z.of_nat (length s) + 1)).
  set (a := down sp (Z.of_nat (length s) + 1)) in *. pose proof (pu_sp _ _ _ _ Hp) as Hsp.
  assert (only_in V0 V pt base top) as Hin by (apply (only_in_weak _ _ _ sp top); [lia|lia|apply (pu_only _ _ _ _ Hp)]).
  destruct (Z.ltb_spec a base) as [Hlt|Hge].
  { exists None, (usr (fsys k)), V. split; [by destruct k as [[]]|]. done. }
  destruct (store_bytes (usr (fsys k)) V a (s ++ [0]) Hs Hin Hge) as (ok & u' & V' & E & Hs' & Ho & Hh); [rewrite length_app; cbn; lia|by apply byte_string|].
  rewrite (bind_ok _ _ _ _ _ (memop_ok _ _ _ _ E)).
  assert (only_in V0 V' pt base top) as Hin'.
  { apply (only_in_trans _ V); [done|]. rewrite length_app in Ho. cbn in Ho. by apply (only_in_weak _ _ _ _ _ _ _) with (3 := Ho); lia. }
  destruct ok; [|by exists None, u', V'].
  destruct (IH (with_usr u' k) V' a (strs ++ [s]) (addrs ++ [a])) as (r & u & V2 & E2 & Hs2 & Hin2 & Hr); [done| |done|rewrite length_app; cbn; lia|].
  - apply (push_one V V' sp); [done|lia|lia|done|done|by apply Hh].
  - exists r, u, V2. split; [exact E2|]. split; [done|]. split; [done|]. by rewrite <- app_assoc in Hr.
Qed.

(** What [main(argc, argv)] finds: [argv] at [sp], an array of addresses that
    ends with a null pointer; the strings above it, all in the stack page. *)
Definition arguments (V : views) (sp : Z) (argv : list (list Z)) : Prop :=
  base <= sp /\ sp mod 16 = 0 /\ exists addrs, length addrs = length argv /\
    holds V pt sp (concat (map (le_bytes 8) (addrs ++ [0]))) /\
    forall i s a, argv !! i = Some s -> addrs !! i = Some a ->
      sp + 8 * Z.of_nat (length argv + 1) <= a /\ a + Z.of_nat (length s) + 1 <= top /\ holds V pt a (s ++ [0]).

Lemma le_bytes_ok n : forall z, length (le_bytes n z) = n /\ Forall byte_ok (le_bytes n z).
Proof.
  induction n as [|n IH]; intros z; cbn [le_bytes length]; [done|]. destruct (IH (z / 256)) as [E Hf]. split; [lia|]. constructor; [|done].
  apply Z.mod_pos_bound. done.
Qed.
Lemma words_ok l : length (concat (map (le_bytes 8) l)) = (8 * length l)%nat /\ Forall byte_ok (concat (map (le_bytes 8) l)).
Proof.
  induction l as [|z l [E Hf]]; [done|]. cbn [map concat]. rewrite length_app, Forall_app. destruct (le_bytes_ok 8 z) as [E1 H1]. cbn [length]. split; [lia|done].
Qed.

Lemma build_stack_spec argv (k : kst S machine) : sees (usr (fsys k)) Pt V0 ->
  Forall (fun s => Forall byte_ok s /\ Z.of_nat (length s) < PGSIZE) argv -> Z.of_nat (length argv) < MAXARG ->
  exists r u V', build_stack argv pt base top k = Ok r (with_usr u k) /\ sees u Pt V' /\ only_in V0 V' pt base top /\
    match r with Some (sp, argc) => argc = Z.of_nat (length argv) /\ arguments V' sp argv | None => True end.
Proof.
  intros Hs Hf Hn. assert (top mod 16 = 0) as Htop16.
  { rewrite Htop. change PGSIZE with 4096 in *. pose proof (Z.div_mod base 4096 ltac:(done)). rewrite Hal in *.
    replace (base + 4096) with ((base / 4096 * 256 + 256) * 16) by lia. by apply Z.mod_mul. }
  destruct (push_args_spec argv k V0 top [] []) as (r & u & V1 & E & Hs1 & Hin & Hr); [done| |done|done|].
  { constructor; [done|done|change PGSIZE with 4096 in *; lia|done|done]. }
  unfold build_stack. rewrite (bind_ok _ _ _ _ _ E). destruct r as [[sp addrs]|]; [|by exists None, u, V1]. cbn [app] in Hr.
  destruct Hr as [H1 H2 H3 H4 H5]. unfold push_ustack. rewrite H2, (proj2 (Z.leb_gt _ _)) by done.
  set (n := (Z.of_nat (length argv) + 1) * 8). destruct (down_spec sp n) as (Hd1 & Hd2 & Hd3); [done|unfold n; change MAXARG with 32 in *; change PGSIZE with 4096; lia|].
  fold (down sp n). set (q := down sp n) in *. destruct (Z.ltb_spec q base) as [|Hge]; [by exists None, u, V1|].
  destruct (words_ok (addrs ++ [0])) as [Elen Hok]. rewrite length_app in Elen. cbn [length] in Elen.
  destruct (store_bytes u V1 q (concat (map (le_bytes 8) (addrs ++ [0]))) Hs1 Hin Hge) as (ok & u' & V' & E' & Hs' & Ho & Hh); [rewrite Elen; unfold n in *; lia|done|].
  rewrite bind_assoc, (bind_ok _ _ _ _ _ (memop_ok _ (with_usr u k) _ _ E')).
  exists (if ok then Some (q, Z.of_nat (length argv)) else None), u', V'. split; [by destruct ok|]. split; [done|].
  assert (only_in V1 V' pt q sp) as Ho' by (apply (only_in_weak _ _ _ _ _ _ _) with (3 := Ho); [lia|rewrite Elen; unfold n in *; lia]).
  split; [apply (only_in_trans _ V1); [done|]; by apply (only_in_weak _ _ _ _ _ _ _) with (3 := Ho'); lia|].
  destruct ok; [|done]. split; [done|]. split; [done|]. split; [done|]. exists addrs. split; [done|]. split; [by apply Hh|].
  intros i t b Ht Hb. destruct (H5 i t b Ht Hb) as (E1 & E2 & E3). split; [unfold n in *; lia|]. split; [done|].
  apply (holds_elsewhere V1 _ pt q sp); [done|lia|rewrite length_app; cbn; lia|done].
Qed.
End Stack.

(** C26.  [exec] builds the stack of the new program in the page below [top]:
    it always returns and changes nothing outside that page.  When it
    succeeds, a 16-byte aligned array of [argc] addresses and a null pointer is
    at the stack pointer, each address is that of the argument string with
    its NUL, and array and strings lie within the page without overlapping
    the array; no subtraction wraps around. *)
Theorem exec_arguments (Pt : Z -> Prop) pt base top V0 argv (k : kst S machine) :
  Pt pt -> PGSIZE <= base -> top = base + PGSIZE -> base mod PGSIZE = 0 -> top <= TRAPFRAME ->
  (forall x, base <= x < top -> is_Some (V0 pt x)) -> PGSIZE <= bufsize -> sees (usr (fsys k)) Pt V0 ->
  Forall (fun s => Forall byte_ok s /\ Z.of_nat (length s) < PGSIZE) argv -> Z.of_nat (length argv) < MAXARG ->
  exists r u V', build_stack argv pt base top k = Ok r (with_usr u k) /\ sees u Pt V' /\ only_in V0 V' pt base top /\
    match r with Some (sp, argc) => argc = Z.of_nat (length argv) /\ arguments pt base top V' sp argv | None => True end.
Proof. intros. by apply build_stack_spec. Qed.

(** ** All or nothing *)

(** Code that leaves the fields of the process alone. *)
Definition same_me {A} (c : K A) : Prop := forall k a k', c k = Ok a k' -> me k' = me k.
Lemma same_ret {A} (a : A) : same_me (ret a).
Proof. by intros k b k' [= _ <-]. Qed.
Lemma same_gets {A} (f : kst S machine -> A) : same_me (gets f).
Proof. by intros k b k' [= _ <-]. Qed.
Lemma same_hang {A} : same_me (hang : K A).
Proof. by intros k b k' [=]. Qed.
Lemma same_panic {A} m : same_me (panic m : K A).
Proof. by intros k b k' [=]. Qed.
Lemma same_undef {A} : same_me (undef : K A).
Proof. by intros k b k' [=]. Qed.
Lemma same_fsop {A} (c : M (Fs.fst S machine) A) : same_me (fsop c).
Proof. intros k a k' E. unfold fsop, zoom in E. destruct (c (fsys k)); by simplify_eq/=. Qed.
Lemma same_memop {A} (c : M machine A) : same_me (memop c).
Proof. apply same_fsop. Qed.
Lemma same_bind {A B} (c : K A) (h : A -> K B) : same_me c -> (forall a, same_me (h a)) -> same_me (bind c h).
Proof.
  intros Hc Hh k b k' E. unfold bind in E. destruct (c k) as [a k1| | |] eqn:Ec; try discriminate E.
  rewrite (Hh _ _ _ _ E). by eapply Hc.
Qed.
#[local] Hint Resolve same_ret same_gets same_hang same_panic same_undef same_fsop same_memop : same.
Ltac same_steps := repeat first
  [ solve [eauto with same]
  | apply same_bind; [|intros ?]
  | match goal with |- same_me (match ?x with _ => _ end) => destruct x end ].

Lemma same_push_args pt base : forall argv sp us, same_me (push_args argv pt base sp us).
Proof. induction argv as [|s argv IH]; intros sp us; cbn [push_args]; same_steps; apply IH. Qed.
Lemma same_build_stack argv pt base top : same_me (build_stack argv pt base top).
Proof. unfold build_stack, push_ustack. apply same_bind; [apply same_push_args|]. intros [[sp us]|]; same_steps. Qed.








(** The name of a program is what follows the last slash. *)
Lemma basename_spec : forall path last, (SLASH ∉ path -> basename path last = last) /\
  (forall l s, path = l ++ SLASH :: s -> SLASH ∉ s -> basename path last = s).
Proof.
  induction path as [|c path IH]; intros last; cbn [basename]; [split; [done|]; intros [|? ?] s E; done|]. split.
  - intros Hn. apply not_elem_of_cons in Hn as [Hc Hn]. rewrite (proj2 (Z.eqb_neq _ _)) by congruence. by apply IH.
  - intros [|d l] s E Hs.
    + injection E as -> ->. rewrite Z.eqb_refl. by apply IH.
    + injection E as -> ->. by apply (proj2 (IH _) l).
Qed.

End Args.

(** ** Examples *)
Module Ram.
(** A block layer without a disk: the blocks, and those the process holds. *)
Record ram := mkram { rblocks : gmap Z block; rheld : gmap Z block; rlogged : gset Z }.
Definition rget (h : nat) {A} (f : block -> ram -> res ram A) : M ram A := fun s =>
  match rheld s !! Z.of_nat h with Some d => f d s | None => Undef end.

Lemma ram_lookup (hs : holding) (s : ram) b h d : rheld s = snd <$> hs -> (forall b h d, hs !! b = Some (h, d) -> Z.of_nat h = b) ->
  hs !! b = Some (h, d) -> rheld s !! Z.of_nat h = Some d.
Proof. intros E Hh Hb. rewrite (Hh _ _ _ Hb), E, lookup_fmap, Hb. done. Qed.

#[export] Instance ram_blocks : Blocks ram.
Proof.
  refine {| fsdev := 1; fsblock b := 0 <= b;
    b_read _ b s := Ok (Z.to_nat b) (mkram (rblocks s) (<[b := default ∅ (rblocks s !! b)]> (rheld s)) (rlogged s));
    b_data h := rget h (fun d s => Ok d s);
    b_set h d' := rget h (fun _ s => Ok tt (mkram (rblocks s) (<[Z.of_nat h := d']> (rheld s)) (rlogged s)));
    b_log h := rget h (fun d s => Ok tt (mkram (<[Z.of_nat h := d]> (rblocks s)) (rheld s) ({[Z.of_nat h]} ∪ rlogged s)));
    b_rel h := rget h (fun _ s => Ok tt (mkram (rblocks s) (delete (Z.of_nat h) (rheld s)) (rlogged s)));
    brep s v hs lg := (forall b, v b = default ∅ (rblocks s !! b)) /\ rheld s = snd <$> hs /\ (forall b h d, hs !! b = Some (h, d) -> Z.of_nat h = b) /\ rlogged s = lg |}.
  - intros s v hs lg b (Hv & Hh & Hn & Hl) Hb _ _. eexists _, _. split; [done|]. split; [done|]. split; [cbn; by rewrite fmap_insert, Hh, <- Hv|]. split; [|done].
    intros c h d. rewrite lookup_insert_Some. intros [[-> [= <- <-]]|[_ Hc]]; [by rewrite Z2Nat.id|by apply (Hn c h d)].
  - intros s v hs lg b h d (Hv & Hh & Hn & Hl) Hb. unfold rget. by rewrite (ram_lookup hs s b h d).
  - intros s v hs lg b h d d' (Hv & Hh & Hn & Hl) Hb. unfold rget. rewrite (ram_lookup hs s b h d) by done. eexists. split; [done|]. rewrite (Hn _ _ _ Hb).
    split; [done|]. split; [cbn; by rewrite fmap_insert, Hh|]. split; [|done].
    intros c h' d1. rewrite lookup_insert_Some. intros [[-> [= <- <-]]|[_ Hc]]; [by apply (Hn _ _ _ Hb)|by apply (Hn c h' d1)].
  - intros s v hs lg b h d (Hv & Hh & Hn & Hl) Hb _. unfold rget. rewrite (ram_lookup hs s b h d) by done. eexists. split; [done|]. rewrite (Hn _ _ _ Hb).
    split; [|split; [done|split; [done|cbn; by rewrite Hl]]]. intros c. unfold setv. cbn. destruct (decide (c = b)) as [->|Hne].
    + by rewrite lookup_insert_eq.
    + by rewrite lookup_insert_ne.
  - intros s v hs lg b h d (Hv & Hh & Hn & Hl) Hb _. unfold rget. rewrite (ram_lookup hs s b h d) by done. eexists. split; [done|]. rewrite (Hn _ _ _ Hb).
    split; [done|]. split; [cbn; by rewrite fmap_delete, Hh|]. split; [|done]. intros c h' d'. rewrite lookup_delete_Some. intros [_ Hc]. by apply (Hn c h' d').
Defined.
#[export] Instance ram_txn : Txn ram := {| txn_begin := ret tt; txn_end := ret tt |}.

(** One address space, the memory itself. *)
Definition flat_view (u : machine) : views := fun p x => if decide (p = 0 /\ 0 <= x < TRAPFRAME) then Some (ld8 (Kalloc.mem u) x) else None.
Definition fits (a : Z) (n : nat) : bool := bool_decide (n = 0%nat \/ a + Z.of_nat n <= TRAPFRAME).

Definition flat : UserSpace machine.
Proof.
  refine {| bufsize := PGSIZE;
    sees u P V := (forall p, P p -> p = 0) /\ forall p x, V p x = flat_view u p x;
    copy_in _ a old := fun u => let n := if fits a (length old) then length old else Z.to_nat (TRAPFRAME - a) in
      Ok (bytes_at (Kalloc.mem u) a n ++ drop n old, fits a (length old)) u;
    copy_out _ a bs := fun u => if fits a (length bs) then Ok true (set_mem (fun m => fill m a bs) u) else Ok false u |}.
  - intros u P pt V a old [HP HV] Hpt Ha Hf Hlen. eexists _, _. split; [done|]. split; [done|].
    set (n := if fits a (length old) then length old else Z.to_nat (TRAPFRAME - a)). exists (bytes_at (Kalloc.mem u) a n).
    assert (length (bytes_at (Kalloc.mem u) a n) = n) as En by (unfold bytes_at; by rewrite length_map, length_seq).
    split; [by rewrite En|]. split; [|split].
    + apply Forall_lookup. intros i b Hb. pose proof (lookup_lt_Some _ _ _ Hb) as Hlt. rewrite bytes_at_lookup in Hb by lia. injection Hb as <-. apply KString.ld8_range.
    + intros i b Hb. pose proof (lookup_lt_Some _ _ _ Hb) as Hlt. rewrite bytes_at_lookup in Hb by lia. injection Hb as <-.
      rewrite HV. unfold flat_view. rewrite decide_True; [done|]. split; [by apply HP|]. unfold n, fits in *. case_bool_decide; lia.
    + cbn [snd]. rewrite En. unfold n, fits. case_bool_decide as Hfit; [done|]. split; [lia|]. rewrite HV. unfold flat_view. rewrite decide_False; [done|]. lia.
  - intros u P pt V a bs [HP HV] Hpt Ha Hf Hlen. unfold fits. case_bool_decide as Hfit.
    + eexists true, _, (length bs), (flat_view (set_mem (fun m => fill m a bs) u)). split; [done|]. split; [done|]. rewrite firstn_all. split; [|split; [|done]].
      * intros p x Hx Hsome. unfold put. pose proof (HP _ Hpt) as ->. rewrite !HV in *. unfold flat_view in *. destruct (decide (p = 0 /\ 0 <= x < TRAPFRAME)) as [Hpx|]; [|by destruct Hsome].
        cbn. destruct (decide (p = 0 /\ a <= x < a + Z.of_nat (length bs))) as [Hin|Hout].
        -- destruct (lookup_lt_is_Some_2 bs (Z.to_nat (x - a))) as [b Hb]; [lia|]. rewrite Hb. f_equal. rewrite <- (fill_at bs (Kalloc.mem u) a (Z.to_nat (x - a)) b Hf Hb). f_equal. lia.
        -- f_equal. apply fill_outside. apply KString.inrange_false. lia.
      * intros p x. rewrite HV. unfold flat_view. by destruct (decide _).
    + eexists false, _, 0%nat, V. split; [done|]. split; [done|]. split; [intros p x _ _; by rewrite put_nil|]. split; [done|]. destruct bs; cbn in *; lia.
Defined.
End Ram.
Import Ram.

(** A program of length 0 in the current directory's inode. *)
Definition hollow : inode := mkinode 1 1 1 None true T_FILE 0 0 1 0 (replicate 13 0).
Definition caller : kst ram machine :=
  mkkst (mkfst (mkram ∅ ∅ ∅) (mkmachine ∅ 0 ∅ []) (mksb FSMAGIC 100 65 16 30 2 32 34) [hollow] 1 0 []) [] ∅
    (mkup 7 4096 (replicate 16 None) (replicate 6 0) false 0 (replicate 16 0)).



Lemma exec_arguments_witness : exists r u, build_stack (HU := flat) [[101; 99; 104; 111]; [104; 105]] 0 4096 8192 caller = Ok r (with_usr u caller).
Proof.
  destruct (exec_arguments (HU := flat) (fun p => p = 0) 0 4096 8192 (flat_view (usr (fsys caller))) [[101; 99; 104; 111]; [104; 105]] caller) as (r & u & V' & E & _).
  - done.
  - done.
  - done.
  - done.
  - done.
  - intros x Hx. unfold flat_view. rewrite decide_True; [eauto|]. split; [done|]. change TRAPFRAME with 274877898752. lia.
  - done.
  - split; [done|]. done.
  - repeat constructor; done.
  - done.
  - exists r, u. exact E.
Defined.
