(* ===== verification/Syscall.v ===== *)
(** * System calls and traps

    kernel/sysproc.c, the dispatcher of kernel/syscall.c, and kernel/trap.c,
    on the process table with the file system and memory inside.  A call that
    goes to sleep or exits is [Asleep]; what runs after it was chosen again
    is a definition of its own. *)

From S2P Require Import Prelude Riscv Mem Lock Kalloc Vm UserIO Pipe Log.
From S2P Require Import Bio Blocks Fs File Sysfile Proc Exec.
Local Open Scope Z_scope.

(** ** kernel/syscall.h *)
Definition SYS_fork : Z := 1.
Definition SYS_exit : Z := 2.
Definition SYS_wait : Z := 3.
Definition SYS_pipe : Z := 4.
Definition SYS_read : Z := 5.
Definition SYS_kill : Z := 6.
Definition SYS_exec : Z := 7.
Definition SYS_fstat : Z := 8.
Definition SYS_chdir : Z := 9.
Definition SYS_dup : Z := 10.
Definition SYS_getpid : Z := 11.
Definition SYS_sbrk : Z := 12.
Definition SYS_sleep : Z := 13.
Definition SYS_uptime : Z := 14.
Definition SYS_open : Z := 15.
Definition SYS_write : Z := 16.
Definition SYS_mknod : Z := 17.
Definition SYS_unlink : Z := 18.
Definition SYS_link : Z := 19.
Definition SYS_mkdir : Z := 20.
Definition SYS_close : Z := 21.

(** More of the trapframe. *)
Definition TF_SATP : Z := 0.
Definition TF_KSP : Z := 8.
Definition TF_TRAP : Z := 16.
Definition TF_HARTID : Z := 32.
Definition TF_A7 : Z := 168.

Section Syscall.
Context {S : Type} {HB : Blocks S} {HT : Txn S} {HU : UserSpace machine} {HP : Pages machine}.
Abbreviation K := (M (kst S machine)).
Abbreviation P := (M (pk (kst S machine))).
Context (end_ trampoline forkret_addr ticks_addr : Z).
Context (devread devwrite : Z -> option (Z -> Z -> Z -> K Z)).
(** Uninitialised memory: the data of a new pipe and the padding of a
    [struct stat]. *)
Context (junk pad : list Z).

(** ** Calls on files, by the current process *)

Definition registers (m : gmap Z Z) (tf : Z) : list Z := map (fun n => ld64 m (tf + TF_A0 + 8 * Z.of_nat n)) (seq 0 6).

Definition enter (p : proc) (k : kst S machine) : kst S machine :=
  let f := fsys k in
  mkkst (mkfst (blks f) (usr f) (sb f) (itable f) (pid p) (default 0%nat (pcwd p)) (fheld f)) (ftable k) (pipes k)
    (mkup (pgtbl p) (sz p) (ofiles p) (registers (Kalloc.mem (usr f)) (trapframe p)) (negb (killed_ p =? 0)) (trapframe p) (pname p)).
Definition leave (k : kst S machine) (p : proc) : proc :=
  let u := me k in
  mkproc (pstate p) (pchan p) (killed_ p) (xstate p) (pid p) (parent p) (kstack p) (psz u) (pagetable u) (trapframe p)
    (ctx_ra p) (ctx_sp p) (ofile u) (Some (cwd (fsys k))) (uname u).

Definition as_proc {A} (c : K A) : P A :=
  do! i <- myproc;
  do! p <- pget i (fun p => p);
  do! a <- fileop (fun k => c (enter p k));
  do! k <- gets files;
  pset i (leave k) ;;
  ret a.

(** ** kernel/sysproc.c *)

Definition argument (n : nat) : P Z :=
  do! i <- myproc;
  do! p <- pget i (fun p => p);
  Proc.mem (load64 (trapframe p + TF_A0 + 8 * Z.of_nat n)).
Definition int_argument (n : nat) : P Z := do! a <- argument n; ret (s32 a).

Definition sys_exit : P progress := do! n <- int_argument 0; exit n ;; ret (Asleep 0).
Definition sys_getpid : P progress := do! i <- myproc; do! n <- pget i pid; ret (Done n).
Definition sys_fork : P progress := do! n <- fork end_ trampoline forkret_addr; ret (Done n).
Definition sys_wait : P progress := do! p <- argument 0; wait end_ p.
Definition sys_sbrk : P progress :=
  do! n <- int_argument 0;
  do! i <- myproc;
  do! addr <- pget i sz;
  do! r <- growproc end_ n;
  ret (Done (if r <? 0 then -1 else addr)).

(** The loop of [sys_sleep], with the tick lock held. *)
Definition sleep_round (n ticks0 : Z) : P progress :=
  do! t <- gets ticks;
  if u32 (t - ticks0) <? n then
    do! i <- myproc;
    do! k <- killed i;
    if k : bool then release "time" ;; ret (Done (-1))
    else sleep (OnAddr ticks_addr) "time" ;; ret (Asleep ticks0)
  else release "time" ;; ret (Done 0).
Definition sys_sleep : P progress :=
  do! n <- int_argument 0;
  let n := if n <? 0 then 0 else n in
  acquire "time" ;;
  do! ticks0 <- gets ticks;
  sleep_round n ticks0.
Definition sys_sleep_resume (n ticks0 : Z) : P progress := sleep_resume "time" ;; sleep_round n ticks0.

Definition sys_kill : P progress := do! p <- int_argument 0; do! r <- kill p; ret (Done r).
Definition sys_uptime : P progress :=
  acquire "time" ;;
  do! t <- gets ticks;
  release "time" ;;
  ret (Done t).

(** ** The dispatcher *)

Definition on_files (c : K Z) : P progress := do! z <- as_proc c; ret (Done z).

Definition syscalls (num : Z) : option (P progress) :=
  if num =? SYS_fork then Some sys_fork
  else if num =? SYS_exit then Some sys_exit
  else if num =? SYS_wait then Some sys_wait
  else if num =? SYS_pipe then Some (on_files (sys_pipe junk))
  else if num =? SYS_read then Some (on_files (sys_read devread))
  else if num =? SYS_kill then Some sys_kill
  else if num =? SYS_exec then Some (on_files (sys_exec (exec end_ trampoline)))
  else if num =? SYS_fstat then Some (on_files (sys_fstat pad))
  else if num =? SYS_chdir then Some (on_files sys_chdir)
  else if num =? SYS_dup then Some (on_files sys_dup)
  else if num =? SYS_getpid then Some sys_getpid
  else if num =? SYS_sbrk then Some sys_sbrk
  else if num =? SYS_sleep then Some sys_sleep
  else if num =? SYS_uptime then Some sys_uptime
  else if num =? SYS_open then Some (on_files sys_open)
  else if num =? SYS_write then Some (on_files (sys_write devwrite))
  else if num =? SYS_mknod then Some (on_files sys_mknod)
  else if num =? SYS_unlink then Some (on_files sys_unlink)
  else if num =? SYS_link then Some (on_files sys_link)
  else if num =? SYS_mkdir then Some (on_files sys_mkdir)
  else if num =? SYS_close then Some (on_files sys_close)
  else None.

(** The result goes to [a0] when the call has returned. *)
Definition finish (tf : Z) (r : progress) : P progress :=
  match r with
  | Done z => Proc.mem (store_tf tf TF_A0 (u64 z)) ;; ret (Done 0)
  | Asleep t => ret (Asleep t)
  end.

Definition syscall : P progress :=
  do! i <- myproc;
  do! p <- pget i (fun p => p);
  do! a7 <- Proc.mem (load64 (trapframe p + TF_A7));
  match syscalls (s32 a7) with
  | Some call => do! r <- call; finish (trapframe p) r
  | None => finish (trapframe p) (Done (-1))
  end.

(** ** kernel/trap.c *)

Definition trapinit : P unit := initlock "time".

Definition clockintr : P unit :=
  acquire "time" ;;
  modify (fun k => mkpk (files k) (procs k) (nextpid k) (initproc k) (curproc k) (lks k) (u32 (ticks k + 1))) ;;
  wakeup (OnAddr ticks_addr) ;;
  release "time".

(** The interrupt handlers of the devices, by interrupt number. *)
Context (device : Z -> P unit).

Definition EXTERNAL : Z := 2 ^ 63 + 9.
Definition SOFTWARE : Z := 2 ^ 63 + 1.

(** [irq] is what the interrupt controller reports, [hart] the CPU. *)
Definition devintr (scause irq hart : Z) : P Z :=
  if negb (Z.land scause (2 ^ 63) =? 0) && (Z.land scause 255 =? 9) then
    (if (irq =? UART0_IRQ) || (irq =? VIRTIO0_IRQ) then device irq else ret tt) ;;
    ret 1
  else if scause =? SOFTWARE then
    (if hart =? 0 then clockintr else ret tt) ;;
    ret 2
  else ret 0.

(** From the second test of [killed] on; [usertrapret] follows [Done]. *)
Definition usertrap_end (which_dev : Z) : P progress :=
  do! i <- myproc;
  do! k <- killed i;
  if k : bool then exit (-1) ;; ret (Asleep 0)
  else if which_dev =? 2 then yield ;; ret (Asleep 0)
  else ret (Done 0).

Definition usertrap (sstatus scause sepc stval irq hart : Z) : P progress :=
  if negb (Z.land sstatus SSTATUS_SPP =? 0) then panic "usertrap: not from user mode"
  else
    do! i <- myproc;
    do! p <- pget i (fun p => p);
    Proc.mem (store_tf (trapframe p) TF_EPC sepc) ;;
    if scause =? 8 then
      do! k <- killed i;
      if k : bool then exit (-1) ;; ret (Asleep 0)
      else
        Proc.mem (store_tf (trapframe p) TF_EPC (u64 (sepc + 4))) ;;
        do! r <- syscall;
        match r with Done _ => usertrap_end 0 | Asleep t => ret (Asleep t) end
    else if (scause =? 13) || (scause =? 15) then
      do! r <- Proc.mem (cow_page_fault_handler end_ (pgtbl p) stval);
      (if r =? MINUS1 then setkilled i else ret tt) ;;
      usertrap_end 0
    else
      do! which_dev <- devintr scause irq hart;
      (if which_dev =? 0 then setkilled i else ret tt) ;;
      usertrap_end which_dev.

(** The trapframe for the next trap; the values for [satp], [sepc] and
    [sstatus]. *)
Definition usertrapret (satp hart sstatus usertrap_addr : Z) : P (Z * Z * Z) :=
  do! i <- myproc;
  do! p <- pget i (fun p => p);
  let tf := trapframe p in
  Proc.mem (store_tf tf TF_SATP satp) ;;
  Proc.mem (store_tf tf TF_KSP (u64 (kstack p + PGSIZE))) ;;
  Proc.mem (store_tf tf TF_TRAP usertrap_addr) ;;
  Proc.mem (store_tf tf TF_HARTID hart) ;;
  let x := Z.lor (Z.land sstatus (2 ^ 64 - 1 - SSTATUS_SPP)) SSTATUS_SPIE in
  do! epc <- Proc.mem (load64 (tf + TF_EPC));
  ret (MAKE_SATP (pgtbl p), epc, x).

(** [true] when it ends in [yield]. *)
Definition kerneltrap (sstatus scause irq hart : Z) (intr : bool) : P bool :=
  if Z.land sstatus SSTATUS_SPP =? 0 then panic "kerneltrap: not from supervisor mode"
  else if intr then panic "kerneltrap: interrupts enabled"
  else
    do! which_dev <- devintr scause irq hart;
    if which_dev =? 0 then panic "kerneltrap"
    else
      do! me <- gets curproc;
      match me with
      | Some i =>
          do! s <- pget i pstate;
          if (which_dev =? 2) && bool_decide (s = RUNNING) then yield ;; ret true else ret false
      | None => ret false
      end.
End Syscall.
