(* ===== verification/SyscallSpec.v ===== *)
(** * System calls and traps: what they guarantee

    A killed process does not return to user space; [sleep] and the clock. *)

From S2P Require Import Prelude Riscv Mem Lock Kalloc Vm UserIO Pipe Log.
From S2P Require Import Bio Blocks Fs FsSpec File Sysfile Proc ProcSpec ProcTable ProcWait Exec ExecSpec Syscall.
Local Open Scope Z_scope.

Section Traps.
Context {S : Type} {HB : Blocks S} {HT : Txn S} {HU : UserSpace machine} {HP : Pages machine}.
Abbreviation K := (M (kst S machine)).
Abbreviation P := (M (pk (kst S machine))).
Context (end_ trampoline forkret_addr ticks_addr : Z).
Context (devread devwrite : Z -> option (Z -> Z -> Z -> K Z)) (junk pad : list Z) (device : Z -> P unit).
Abbreviation utrap := (usertrap end_ trampoline forkret_addr ticks_addr devread devwrite junk pad device).







(** ** Time *)
(** [sys_sleep] has decided: it is done when [n] ticks have passed, and goes
    to sleep, on the ticks, only before that. *)
Definition slept (n ticks0 : Z) (l : list proc) (i : nat) (p : proc) (t : Z) (r : progress) (k : pk (kst S machine)) : Prop :=
  match r with
  | Done z => procs k = l /\ (z = 0 /\ n <= u32 (t - ticks0) \/ z = -1 /\ killed_ p <> 0)
  | Asleep t0 => t0 = ticks0 /\ u32 (t - ticks0) < n /\ killed_ p = 0 /\ procs k = <[i := set_state SLEEPING (set_chan (OnAddr ticks_addr) p)]> l
  end.

Lemma sleep_round_does n ticks0 l i p t : l !! i = Some p ->
  triple (fun k => table l (Some i) k /\ ticks k = t) (sleep_round ticks_addr n ticks0) (slept n ticks0 l i p t).
Proof.
  intros Hp k r k' [Ht Et] E. unfold sleep_round in E. rewrite (bind_ok _ _ k t k) in E by (unfold gets; by rewrite Et).
  revert r k' E. destruct (Z.ltb_spec (u32 (t - ticks0)) n) as [Hlt|Hge].
  - enough (triple (table l (Some i)) (do! i <- myproc; do! k <- killed i;
      if k : bool then release "time" ;; ret (Done (-1)) else sleep (OnAddr ticks_addr) "time" ;; ret (Asleep ticks0)) (slept n ticks0 l i p t)) as H by (intros r k'; by apply H).
    apply step_me. eapply triple_bind; [by apply killed_reads|]. intros b. apply (triple_weak (fun k => table l (Some i) k /\ b = negb (killed_ p =? 0))); [by intros k1 [? ?]|].
    apply triple_pure. intros ->. destruct (Z.eqb_spec (killed_ p) 0) as [Ez|Ez]; cbn [negb].
    + eapply triple_bind; [by apply sleep_table|]. intros []. apply triple_ret. by intros k1 [Hl _].
    + apply step_table; [apply still_release|]. intros _. apply triple_ret. intros k1 [Hl _]. split; [done|]. by right.
  - enough (triple (table l (Some i)) (release "time" ;; ret (Done 0)) (slept n ticks0 l i p t)) as H by (intros r k'; by apply H).
    apply step_table; [apply still_release|]. intros _. apply triple_ret. intros k1 [Hl _]. split; [done|]. by left.
Qed.

Lemma clockintr_runs (k : pk (kst S machine)) : length (procs k) = NP -> lks k = [] ->
  clockintr ticks_addr k = Ok tt (mkpk (files k) (imap (woken (OnAddr ticks_addr) (curproc k)) (procs k)) (nextpid k) (initproc k) (curproc k) [] (u32 (ticks k + 1))).
Proof.
  intros Hlen Hl. destruct k as [f l n i0 c h t]. cbn in Hlen, Hl. subst h. unfold clockintr. cbn [files procs nextpid initproc curproc ticks].
  rewrite (bind_ok _ _ _ tt (mkpk f l n i0 c ["time"] t)) by reflexivity.
  set (k2 := mkpk f l n i0 c ["time"] (u32 (t + 1))). rewrite (bind_ok _ _ _ tt k2) by reflexivity.
  rewrite (bind_ok _ _ _ _ _ (wakeup_runs (OnAddr ticks_addr) k2 Hlen ltac:(intros j; apply not_elem_of_cons; split; [done|apply not_elem_of_nil]))).
  reflexivity.
Qed.

(** The clock and [sleep].  A clock interrupt advances the tick count,
    modulo 2^32, and leaves no process but the interrupted one asleep on it:
    each sleeper looks at the count again.  [sys_sleep(n)], looking at the
    count, returns 0 only when [n] ticks have passed since it started, -1 only
    when the process was killed, and otherwise sleeps, on the ticks. *)
Theorem sleep_until_ticks (k : pk (kst S machine)) : length (procs k) = NP -> lks k = [] ->
  exists k1, clockintr ticks_addr k = Ok tt k1 /\ ticks k1 = u32 (ticks k + 1) /\
    (forall j q, procs k1 !! j = Some q -> curproc k <> Some j -> ~ (pstate q = SLEEPING /\ pchan q = OnAddr ticks_addr)) /\
    forall n ticks0 i p r k2, curproc k = Some i -> procs k1 !! i = Some p -> sleep_round ticks_addr n ticks0 k1 = Ok r k2 ->
      slept n ticks0 (procs k1) i p (ticks k1) r k2.
Proof.
  intros Hlen Hl. eexists. split; [by apply clockintr_runs|]. split; [done|]. split.
  - cbn [procs]. intros j q Hq Hne [Hs Hch]. rewrite list_lookup_imap in Hq. destruct (procs k !! j) as [q0|]; [|done]. injection Hq as <-. unfold woken in Hs, Hch.
    case_bool_decide as Hw; [done|]. by apply Hw.
  - intros n ticks0 i p r k2 Hc Hp Er. eapply sleep_round_does; [exact Hp| |exact Er]. done.
Qed.
End Traps.

(** ** Examples *)
Import Table Ram.
Definition runner : pk (kst ram machine) :=
  mkpk caller ([init; set_state RUNNING kid] ++ replicate 62 unused) 3 (Some 0%nat) (Some 1%nat) [] 41.


Lemma sleep_until_ticks_witness : exists k1, clockintr 99 runner = Ok tt k1 /\ ticks k1 = 42.
Proof.
  destruct (sleep_until_ticks 99 runner) as (k1 & E & Et & _); [reflexivity|reflexivity|]. exists k1. split; [exact E|exact Et].
Defined.
