(* ===== verification/Sched.v ===== *)
(** * The scheduler, sleep and wakeup on several CPUs

    kernel/proc.c [scheduler], [sched], [yield], [sleep], [wakeup] and [kill],
    interleaved on any number of CPUs, one step for each acquisition and each
    release of a lock.  A process lock is held across the switch between a
    process and the scheduler of its CPU, so locks belong to CPUs.  [lk] is
    the lock of some condition, [cond]; processes wait for it in a loop
    around [sleep(chan, lk)] and make it true and call [wakeup(chan)] with
    [lk] held, as the pipe, the log, the disk driver and [wait] do. *)

From S2P Require Import Prelude.
Local Open Scope nat_scope.

(** What a process is doing when its code runs. *)
Inductive point :=
  | Outside                 (** not concerned with [lk] *)
  | Locked                  (** has [lk] *)
  | SleepCalled             (** in [sleep], has [lk], before [acquire(&p->lock)] *)
  | SleepLocked             (** both locks, before [release(lk)] *)
  | SleepReady              (** [p->lock] only, before [p->state = SLEEPING] and [sched] *)
  | SleepResumed            (** back from [sched] in [sleep], with [p->lock] *)
  | SleepRelock             (** before [acquire(lk)] at the end of [sleep] *)
  | WakeupAt (j : nat)      (** in [wakeup], has [lk], before process [j] *)
  | WakeupOn (j : nat)      (** with the lock of process [j] *)
  | Yielding                (** [p->lock], before the switch in [yield] or a sleep elsewhere *)
  | Resumed                 (** back from there, or in [forkret], with [p->lock] *)
  | Touching (j : nat).     (** [kill] or a wakeup of another channel, with the lock of [j] *)

Inductive mode :=
  | Scan                    (** the scheduler between two processes *)
  | Have (j : nat)          (** it has the lock of [j] *)
  | Run (i : nat) (at_ : point)
  | Back (j : nat).         (** [j] has switched to the scheduler *)

Inductive pstate := Sleeping | Runnable | Running.
#[export] Instance pstate_eq : EqDecision pstate.
Proof. solve_decision. Defined.

Record sys := mksys {
  cpu : nat -> mode;
  state : nat -> pstate;
  onchan : nat -> bool;     (** [p->chan] is the channel of the condition *)
  insleep : nat -> bool;    (** where a process that does not run will go on *)
  plock : nat -> option nat;
  lk : option nat;
  cond : bool
}.

Definition upd {A} (f : nat -> A) (i : nat) (a : A) : nat -> A := fun j => if decide (j = i) then a else f j.
Lemma upd_eq {A} (f : nat -> A) i a : upd f i a i = a.
Proof. unfold upd. by rewrite decide_True. Qed.
Lemma upd_ne {A} (f : nat -> A) i j a : j <> i -> upd f i a j = f j.
Proof. intros H. unfold upd. by rewrite decide_False. Qed.

Section Sched.
(** The number of processes. *)
Context (NPROC : nat).

Definition goes (s : sys) (c : nat) (m : mode) : nat -> mode := upd (cpu s) c m.
Definition resume (b : bool) : point := if b then SleepResumed else Resumed.

(** A step of CPU [c]. *)
Inductive step (c : nat) (s : sys) : sys -> Prop :=
  (** scheduler *)
  | s_visit j : cpu s c = Scan -> j < NPROC -> plock s j = None ->
      step c s (mksys (goes s c (Have j)) (state s) (onchan s) (insleep s) (upd (plock s) j (Some c)) (lk s) (cond s))
  | s_switch j : cpu s c = Have j -> state s j = Runnable ->
      step c s (mksys (goes s c (Run j (resume (insleep s j)))) (upd (state s) j Running) (onchan s) (insleep s) (plock s) (lk s) (cond s))
  | s_skip j : cpu s c = Have j -> state s j <> Runnable ->
      step c s (mksys (goes s c Scan) (state s) (onchan s) (insleep s) (upd (plock s) j None) (lk s) (cond s))
  | s_back j : cpu s c = Back j ->
      step c s (mksys (goes s c Scan) (state s) (onchan s) (insleep s) (upd (plock s) j None) (lk s) (cond s))
  (** yield, and sleep on another channel *)
  | s_yield i : cpu s c = Run i Outside -> plock s i = None ->
      step c s (mksys (goes s c (Run i Yielding)) (state s) (onchan s) (insleep s) (upd (plock s) i (Some c)) (lk s) (cond s))
  | s_yielded i : cpu s c = Run i Yielding ->
      step c s (mksys (goes s c (Back i)) (upd (state s) i Runnable) (onchan s) (upd (insleep s) i false) (plock s) (lk s) (cond s))
  | s_elsewhere i : cpu s c = Run i Yielding ->
      step c s (mksys (goes s c (Back i)) (upd (state s) i Sleeping) (upd (onchan s) i false) (upd (insleep s) i false) (plock s) (lk s) (cond s))
  | s_resumed i : cpu s c = Run i Resumed ->
      step c s (mksys (goes s c (Run i Outside)) (state s) (onchan s) (insleep s) (upd (plock s) i None) (lk s) (cond s))
  (** kill, and wakeup of another channel *)
  | s_touch i j : cpu s c = Run i Outside -> j < NPROC -> plock s j = None ->
      step c s (mksys (goes s c (Run i (Touching j))) (state s) (onchan s) (insleep s) (upd (plock s) j (Some c)) (lk s) (cond s))
  | s_touched i j (b : bool) : cpu s c = Run i (Touching j) ->
      step c s (mksys (goes s c (Run i Outside)) (if b && bool_decide (state s j = Sleeping) then upd (state s) j Runnable else state s)
                  (onchan s) (insleep s) (upd (plock s) j None) (lk s) (cond s))
  (** the code around the condition *)
  | s_acquire i : cpu s c = Run i Outside -> lk s = None ->
      step c s (mksys (goes s c (Run i Locked)) (state s) (onchan s) (insleep s) (plock s) (Some c) (cond s))
  | s_release i : cpu s c = Run i Locked ->
      step c s (mksys (goes s c (Run i Outside)) (state s) (onchan s) (insleep s) (plock s) None (cond s))
  | s_consume i : cpu s c = Run i Locked ->
      step c s (mksys (cpu s) (state s) (onchan s) (insleep s) (plock s) (lk s) false)
  | s_produce i : cpu s c = Run i Locked ->
      step c s (mksys (goes s c (Run i (WakeupAt 0))) (state s) (onchan s) (insleep s) (plock s) (lk s) true)
  | s_wait i : cpu s c = Run i Locked -> cond s = false ->
      step c s (mksys (goes s c (Run i SleepCalled)) (state s) (onchan s) (insleep s) (plock s) (lk s) (cond s))
  (** sleep *)
  | s_sleep1 i : cpu s c = Run i SleepCalled -> plock s i = None ->
      step c s (mksys (goes s c (Run i SleepLocked)) (state s) (onchan s) (insleep s) (upd (plock s) i (Some c)) (lk s) (cond s))
  | s_sleep2 i : cpu s c = Run i SleepLocked ->
      step c s (mksys (goes s c (Run i SleepReady)) (state s) (onchan s) (insleep s) (plock s) None (cond s))
  | s_sleep3 i : cpu s c = Run i SleepReady ->
      step c s (mksys (goes s c (Back i)) (upd (state s) i Sleeping) (upd (onchan s) i true) (upd (insleep s) i true) (plock s) (lk s) (cond s))
  | s_sleep4 i : cpu s c = Run i SleepResumed ->
      step c s (mksys (goes s c (Run i SleepRelock)) (state s) (upd (onchan s) i false) (insleep s) (upd (plock s) i None) (lk s) (cond s))
  | s_sleep5 i : cpu s c = Run i SleepRelock -> lk s = None ->
      step c s (mksys (goes s c (Run i Locked)) (state s) (onchan s) (insleep s) (plock s) (Some c) (cond s))
  (** wakeup *)
  | s_wakeup_self i : cpu s c = Run i (WakeupAt i) -> i < NPROC ->
      step c s (mksys (goes s c (Run i (WakeupAt (i + 1)))) (state s) (onchan s) (insleep s) (plock s) (lk s) (cond s))
  | s_wakeup1 i j : cpu s c = Run i (WakeupAt j) -> j < NPROC -> j <> i -> plock s j = None ->
      step c s (mksys (goes s c (Run i (WakeupOn j))) (state s) (onchan s) (insleep s) (upd (plock s) j (Some c)) (lk s) (cond s))
  | s_wakeup2 i j : cpu s c = Run i (WakeupOn j) ->
      step c s (mksys (goes s c (Run i (WakeupAt (j + 1))))
                  (if bool_decide (state s j = Sleeping) && onchan s j then upd (state s) j Runnable else state s)
                  (onchan s) (insleep s) (upd (plock s) j None) (lk s) (cond s))
  | s_wakeup_end i : cpu s c = Run i (WakeupAt NPROC) ->
      step c s (mksys (goes s c (Run i Locked)) (state s) (onchan s) (insleep s) (plock s) (lk s) (cond s)).

(** No CPU has left its scheduler; the processes have never run. *)
Definition start (s : sys) : Prop :=
  (forall c, cpu s c = Scan) /\ (forall i, state s i = Runnable) /\ (forall i, insleep s i = false) /\
  (forall j, plock s j = None) /\ lk s = None.

Inductive reachable (s0 : sys) : sys -> Prop :=
  | r_start : reachable s0 s0
  | r_step s c s' : reachable s0 s -> step c s s' -> reachable s0 s'.

(** The process lock a CPU has, whether it has [lk], the process it runs. *)
Definition has_plock (m : mode) : option nat :=
  match m with
  | Scan => None
  | Have j | Back j => Some j
  | Run i p =>
      match p with
      | SleepLocked | SleepReady | SleepResumed | Yielding | Resumed => Some i
      | WakeupOn j | Touching j => Some j
      | _ => None
      end
  end.
Definition has_lk (m : mode) : bool :=
  match m with Run _ (Locked | SleepCalled | SleepLocked | WakeupAt _ | WakeupOn _) => true | _ => false end.
Definition runs (m : mode) : option nat := match m with Run i _ => Some i | _ => None end.

Record inv (s : sys) : Prop := {
  iv_plock : forall j c, plock s j = Some c <-> has_plock (cpu s c) = Some j;
  iv_lk : forall c, lk s = Some c <-> has_lk (cpu s c) = true;
  iv_running : forall i, state s i = Running <-> exists c, runs (cpu s c) = Some i;
  iv_once : forall c c' i, runs (cpu s c) = Some i -> runs (cpu s c') = Some i -> c = c';
  iv_range : forall i, state s i <> Runnable -> i < NPROC;
  iv_have : forall c j, cpu s c = Have j -> j < NPROC;
  iv_test : forall c i p, cpu s c = Run i p -> p = SleepCalled \/ p = SleepLocked -> cond s = false;
  (** A process asleep on the channel, or about to be, while the condition
      holds: [wakeup] is running and has not passed it. *)
  iv_wakeup : forall i, (state s i = Sleeping /\ onchan s i = true) \/ (exists c, cpu s c = Run i SleepReady) -> cond s = true ->
    exists c w j, (cpu s c = Run w (WakeupAt j) \/ cpu s c = Run w (WakeupOn j)) /\ j <= i
}.

(** ** The parts of the invariant, one kind of change at a time *)
Section Parts.
Context (f : nat -> mode) (c : nat) (m : mode).

Lemma plock_same (l : nat -> option nat) : has_plock m = has_plock (f c) ->
  (forall j d, l j = Some d <-> has_plock (f d) = Some j) -> forall j d, l j = Some d <-> has_plock (upd f c m d) = Some j.
Proof. intros E H j d. unfold upd. destruct (decide (d = c)) as [->|]; [by rewrite E|done]. Qed.
Lemma plock_take (l : nat -> option nat) k : has_plock (f c) = None -> has_plock m = Some k -> l k = None ->
  (forall j d, l j = Some d <-> has_plock (f d) = Some j) -> forall j d, upd l k (Some c) j = Some d <-> has_plock (upd f c m d) = Some j.
Proof.
  intros E Em Hk H j d. unfold upd. destruct (decide (j = k)) as [->|Hj]; destruct (decide (d = c)) as [->|Hd]; [done| | |done].
  - split; [by intros [= ->]|]. intros Hl%H. congruence.
  - rewrite Em. split; [|by intros [= ->]]. intros Hl%H. congruence.
Qed.
Lemma plock_drop (l : nat -> option nat) k : has_plock (f c) = Some k -> has_plock m = None ->
  (forall j d, l j = Some d <-> has_plock (f d) = Some j) -> forall j d, upd l k None j = Some d <-> has_plock (upd f c m d) = Some j.
Proof.
  intros E Em H j d. unfold upd. pose proof (proj2 (H k c) E) as Hk. destruct (decide (j = k)) as [->|Hj]; destruct (decide (d = c)) as [->|Hd].
  - by rewrite Em.
  - split; [done|]. intros Hl%H. congruence.
  - rewrite Em. split; [|done]. intros Hl%H. congruence.
  - done.
Qed.

Lemma lk_same (l : option nat) : has_lk m = has_lk (f c) -> (forall d, l = Some d <-> has_lk (f d) = true) -> forall d, l = Some d <-> has_lk (upd f c m d) = true.
Proof. intros E H d. unfold upd. destruct (decide (d = c)) as [->|]; [by rewrite E|done]. Qed.
Lemma lk_take (l : option nat) : has_lk m = true -> l = None -> (forall d, l = Some d <-> has_lk (f d) = true) -> forall d, Some c = Some d <-> has_lk (upd f c m d) = true.
Proof.
  intros Em El H d. unfold upd. destruct (decide (d = c)) as [->|Hd]; [by rewrite Em|]. split; [congruence|]. intros Hl%H. congruence.
Qed.
Lemma lk_drop (l : option nat) : has_lk (f c) = true -> has_lk m = false -> (forall d, l = Some d <-> has_lk (f d) = true) -> forall d, None = Some d <-> has_lk (upd f c m d) = true.
Proof.
  intros E Em H d. unfold upd. pose proof (proj2 (H c) E) as Hc. destruct (decide (d = c)) as [->|Hd]; [by rewrite Em|]. split; [done|]. intros Hl%H. congruence.
Qed.

Abbreviation runs_in st f := (forall i, st i = Running <-> exists d, runs (f d) = Some i).
Abbreviation once f := (forall d d' i, runs (f d) = Some i -> runs (f d') = Some i -> d = d').

Lemma run_same (st st' : nat -> pstate) : runs m = runs (f c) -> (forall i, st' i = Running <-> st i = Running) -> runs_in st f -> runs_in st' (upd f c m).
Proof.
  intros E Hs H i. rewrite Hs, H. split; intros [d Hd]; exists d; revert Hd; unfold upd; destruct (decide (d = c)) as [->|]; congruence.
Qed.
Lemma once_same : runs m = runs (f c) -> once f -> once (upd f c m).
Proof.
  intros E H d d' i. assert (forall d, runs (upd f c m d) = runs (f d)) as Hr by (intros e; unfold upd; destruct (decide (e = c)) as [->|]; congruence).
  rewrite !Hr. apply H.
Qed.
Lemma run_leave (st : nat -> pstate) i x : runs (f c) = Some i -> runs m = None -> x <> Running -> once f -> runs_in st f -> runs_in (upd st i x) (upd f c m).
Proof.
  intros E Em Hx Ho H k. unfold upd. destruct (decide (k = i)) as [->|Hk].
  - split; [done|]. intros [d Hd]. destruct (decide (d = c)) as [->|Hdc]; [congruence|]. destruct Hdc. by apply (Ho d c i).
  - rewrite H. split; intros [d Hd]; exists d; revert Hd; destruct (decide (d = c)) as [->|]; congruence.
Qed.
Lemma once_leave : runs m = None -> once f -> once (upd f c m).
Proof. intros Em H d d' i. unfold upd. destruct (decide (d = c)), (decide (d' = c)); try congruence. apply H. Qed.
Lemma run_enter (st : nat -> pstate) i : runs (f c) = None -> runs m = Some i -> runs_in st f -> runs_in (upd st i Running) (upd f c m).
Proof.
  intros E Em H k. unfold upd. destruct (decide (k = i)) as [->|Hk].
  - split; [intros _|done]. exists c. by rewrite decide_True.
  - rewrite H. split; intros [d Hd]; exists d; revert Hd; destruct (decide (d = c)) as [->|]; congruence.
Qed.
Lemma once_enter (st : nat -> pstate) i : runs m = Some i -> st i <> Running -> runs_in st f -> once f -> once (upd f c m).
Proof.
  intros Em Hi H Ho d d' k. unfold upd. destruct (decide (d = c)) as [->|]; destruct (decide (d' = c)) as [->|]; [done| | |apply Ho].
  - rewrite Em. intros [= <-] Hd. destruct Hi. apply H. eauto.
  - rewrite Em. intros Hd [= <-]. destruct Hi. apply H. eauto.
Qed.
End Parts.

Definition sleeper (f : nat -> mode) (st : nat -> pstate) (oc : nat -> bool) (i : nat) : Prop :=
  (st i = Sleeping /\ oc i = true) \/ (exists c, f c = Run i SleepReady).
Definition waker (m : mode) (i : nat) : Prop := exists w j, (m = Run w (WakeupAt j) \/ m = Run w (WakeupOn j)) /\ j <= i.

Lemma ready_upd f c m i : (exists d, upd f c m d = Run i SleepReady) -> m = Run i SleepReady \/ exists d, d <> c /\ f d = Run i SleepReady.
Proof. intros [d Hd]. unfold upd in Hd. destruct (decide (d = c)); [by left|right; eauto]. Qed.

Lemma wakeup_keep f c m st oc (cnd : bool) st' oc' : (forall i, sleeper (upd f c m) st' oc' i -> sleeper f st oc i) ->
  (forall i, sleeper (upd f c m) st' oc' i -> waker (f c) i -> waker m i) ->
  (forall i, sleeper f st oc i -> cnd = true -> exists d, waker (f d) i) ->
  forall i, sleeper (upd f c m) st' oc' i -> cnd = true -> exists d, waker (upd f c m d) i.
Proof.
  intros H1 H2 H i Hs Hc. destruct (H i (H1 i Hs) Hc) as [d Hd]. exists d. unfold upd. destruct (decide (d = c)) as [->|]; [by apply H2|done].
Qed.

(** The sleepers when only the CPU moves. *)
Lemma sleeper_move f c m st oc i : (forall k, m <> Run k SleepReady) -> sleeper (upd f c m) st oc i -> sleeper f st oc i.
Proof. intros Hm [H|H%ready_upd]; [by left|]. destruct H as [H|(d & _ & H)]; [by destruct (Hm i)|right; eauto]. Qed.
Lemma not_waker m i : (forall w j, m <> Run w (WakeupAt j) /\ m <> Run w (WakeupOn j)) -> ~ waker m i.
Proof. intros H (w & j & [E|E] & _); by destruct (H w j). Qed.

Section Preserve.
Context (s s' : sys) (c : nat) (H : inv s) (Hs : step c s s').

Lemma plock_step : forall j d, plock s' j = Some d <-> has_plock (cpu s' d) = Some j.
Proof.
  pose proof (iv_plock _ H) as HP. destruct Hs; cbn [plock cpu]; unfold goes;
    solve [ apply plock_same; [rewrite H0; try destruct (insleep s j); reflexivity|exact HP]
          | apply plock_take; [by rewrite H0|done|done|exact HP]
          | apply plock_drop; [by rewrite H0|done|exact HP]
          | exact HP ].
Qed.
Lemma lk_step : forall d, lk s' = Some d <-> has_lk (cpu s' d) = true.
Proof.
  pose proof (iv_lk _ H) as HL. destruct Hs; cbn [lk cpu]; unfold goes;
    solve [ apply lk_same; [rewrite H0; try destruct (insleep s j); reflexivity|exact HL]
          | eapply lk_take; [done|eassumption|exact HL]
          | eapply lk_drop; [by rewrite H0|done|exact HL]
          | exact HL ].
Qed.

(** Waking up does not change who runs. *)
Lemma woken_running st j (b : bool) : forall i, (if b && bool_decide (st j = Sleeping) then upd st j Runnable else st) i = Running <-> st i = Running.
Proof.
  intros i. destruct b; cbn; [|done]. case_bool_decide as Hj; [|done]. unfold upd. destruct (decide (i = j)) as [->|]; [|done]. rewrite Hj. done.
Qed.

Lemma running_step : forall i, state s' i = Running <-> exists d, runs (cpu s' d) = Some i.
Proof.
  pose proof (iv_running _ H) as HR. pose proof (iv_once _ H) as HO. destruct Hs; cbn [state cpu]; unfold goes;
    solve [ eapply run_same; [by rewrite H0|done|exact HR]
          | eapply run_same; [by rewrite H0|apply woken_running|exact HR]
          | eapply run_same; [by rewrite H0|rewrite andb_comm; apply woken_running|exact HR]
          | eapply run_leave; [by rewrite H0|done|done|exact HO|exact HR]
          | eapply run_enter; [by rewrite H0|done|exact HR]
          | exact HR ].
Qed.
Lemma once_step : forall d d' i, runs (cpu s' d) = Some i -> runs (cpu s' d') = Some i -> d = d'.
Proof.
  pose proof (iv_running _ H) as HR. pose proof (iv_once _ H) as HO. destruct Hs; cbn [cpu]; unfold goes;
    solve [ apply once_same; [by rewrite H0|exact HO]
          | apply once_leave; [done|exact HO]
          | eapply once_enter; [done|rewrite H1; done|exact HR|exact HO]
          | exact HO ].
Qed.

Lemma run_range d i : runs (cpu s d) = Some i -> i < NPROC.
Proof. intros Hr. apply (iv_range _ H). rewrite (proj2 (iv_running _ H i)); [done|eauto]. Qed.

Lemma range_step : forall i, state s' i <> Runnable -> i < NPROC.
Proof.
  pose proof (iv_range _ H) as HR. assert (forall j x, j < NPROC -> forall i, upd (state s) j x i <> Runnable -> i < NPROC) as Hu.
  { intros j x Hj i. unfold upd. destruct (decide (i = j)) as [->|]; [done|apply HR]. }
  assert (forall (b : bool) j i, (if b then upd (state s) j Runnable else state s) i <> Runnable -> i < NPROC) as Hw.
  { intros b j i. destruct b; [|apply HR]. unfold upd. destruct (decide (i = j)); [done|apply HR]. }
  destruct Hs; cbn [state];
    solve [ exact HR | apply Hw | apply Hu; apply (run_range c); by rewrite H0 | apply Hu; by apply (iv_have _ H c) ].
Qed.
Lemma have_step : forall d j, cpu s' d = Have j -> j < NPROC.
Proof.
  pose proof (iv_have _ H) as HH. destruct Hs; cbn [cpu]; unfold goes, upd; intros d k;
    try (destruct (decide (d = c)); [try done|apply HH]); try apply HH. by intros [= <-].
Qed.
Lemma test_step : forall d i p, cpu s' d = Run i p -> p = SleepCalled \/ p = SleepLocked -> cond s' = false.
Proof.
  pose proof (iv_test _ H) as HT. assert (forall d i p, cpu s d = Run i p -> p = SleepCalled \/ p = SleepLocked -> has_lk (cpu s d) = true) as Hl.
  { intros d i p -> [-> | ->]; done. }
  destruct Hs; cbn [cpu cond]; unfold goes, upd; intros d k p; try done;
    try (destruct (decide (d = c)) as [->|Hd]; [intros [= <- <-]|try apply HT]); try (intros [[=]|[=]]); try done.
  - by destruct (insleep s j).
  - by destruct (insleep s j).
  - intros E Ep. pose proof (proj2 (iv_lk _ H d) (Hl d k p E Ep)) as E1. pose proof (proj2 (iv_lk _ H c)) as E2. rewrite H0 in E2. specialize (E2 eq_refl). congruence.
  - apply (HT c i SleepCalled); [done|by left].
Qed.

(** A process that runs is not asleep, and is not about to sleep elsewhere. *)
Lemma runner_not_sleeper i p : cpu s c = Run i p -> p <> SleepReady -> ~ sleeper (cpu s) (state s) (onchan s) i.
Proof.
  intros E Hp [[Hst _]|[d Hd]].
  - rewrite (proj2 (iv_running _ H i)) in Hst; [done|]. exists c. by rewrite E.
  - assert (d = c) as -> by (apply (iv_once _ H d c i); [by rewrite Hd|by rewrite E]). congruence.
Qed.
Lemma sleeper_range i : sleeper (cpu s) (state s) (onchan s) i -> i < NPROC.
Proof.
  intros [[Hst _]|[d Hd]]; [apply (iv_range _ H); by rewrite Hst|]. apply (run_range d). by rewrite Hd.
Qed.

(** Only the CPU moves, from and to code outside [wakeup]. *)
Lemma wakeup_move m : (forall k, m <> Run k SleepReady) -> (forall i, ~ waker (cpu s c) i) ->
  forall i, sleeper (upd (cpu s) c m) (state s) (onchan s) i -> cond s = true -> exists d, waker (upd (cpu s) c m d) i.
Proof.
  intros Hm Hw. apply (wakeup_keep _ _ _ (state s) (onchan s)).
  - intros i. by apply sleeper_move.
  - intros i _ Hi. by destruct (Hw i).
  - apply (iv_wakeup _ H).
Qed.

(** Processes stop sleeping. *)
Lemma sleeper_less f m st oc i : (forall k, m <> Run k SleepReady) -> (forall k, st k = Sleeping -> oc k = true -> state s k = Sleeping /\ onchan s k = true) ->
  sleeper (upd f c m) st oc i -> sleeper f (state s) (onchan s) i.
Proof.
  intros Hm Hk [[H1 H2]|Hr]; [left; by apply Hk|]. apply ready_upd in Hr as [Hr|(d & _ & Hr)]; [by destruct (Hm i)|right; eauto].
Qed.
Lemma woken_less (b : bool) j k : (if b then upd (state s) j Runnable else state s) k = Sleeping -> state s k = Sleeping.
Proof. destruct b; [|done]. unfold upd. by destruct (decide (k = j)). Qed.

Lemma wakeup_less m st oc : (forall k, m <> Run k SleepReady) -> (forall i, ~ waker (cpu s c) i) ->
  (forall k, st k = Sleeping -> oc k = true -> state s k = Sleeping /\ onchan s k = true) ->
  forall i, sleeper (upd (cpu s) c m) st oc i -> cond s = true -> exists d, waker (upd (cpu s) c m d) i.
Proof.
  intros Hm Hw Hk. apply (wakeup_keep _ _ _ (state s) (onchan s)).
  - intros i. by apply sleeper_less.
  - intros i _ Hi. by destruct (Hw i).
  - apply (iv_wakeup _ H).
Qed.

(** The waker passes process [j]. *)
Lemma wakeup_pass m st j p w : cpu s c = Run w p -> (p = WakeupAt j \/ p = WakeupOn j) -> m = Run w (WakeupAt (j + 1)) ->
  (forall k, st k = Sleeping -> state s k = Sleeping) -> ~ sleeper (upd (cpu s) c m) st (onchan s) j ->
  forall i, sleeper (upd (cpu s) c m) st (onchan s) i -> cond s = true -> exists d, waker (upd (cpu s) c m d) i.
Proof.
  intros Ec Ep Em Hk Hj. assert (forall k, m <> Run k SleepReady) as Hm by (intros k; by rewrite Em). apply (wakeup_keep _ _ _ (state s) (onchan s)).
  - intros i. apply sleeper_less; [done|]. intros k Hst Hoc. split; [by apply Hk|done].
  - intros i Hi (w' & j' & Hw & Hle). rewrite Ec in Hw. assert (j' = j) as -> by (destruct Ep as [-> | ->], Hw as [[=]|[=]]; done).
    exists w, (j + 1). split; [by left|]. assert (i <> j) by (intros ->; by destruct Hj). lia.
  - apply (iv_wakeup _ H).
Qed.

Ltac quiet := intros ?; apply not_waker; intros ? ?; match goal with E : cpu s c = _ |- _ => rewrite E end; done.

Lemma wakeup_step : forall i, sleeper (cpu s') (state s') (onchan s') i -> cond s' = true -> exists d, waker (cpu s' d) i.
Proof.
  destruct Hs; cbn [cpu state onchan cond]; unfold goes; try solve [apply wakeup_move; [done|quiet]]; try done.
  - apply wakeup_less; [by destruct (insleep s j)|quiet|]. intros k. unfold upd. by destruct (decide (k = j)).
  - apply wakeup_less; [done|quiet|]. intros k. unfold upd. by destruct (decide (k = i)).
  - apply wakeup_less; [done|quiet|]. intros k. unfold upd. by destruct (decide (k = i)).
  - apply wakeup_less; [done|quiet|]. intros k Hst Hoc. split; [by eapply woken_less|done].
  - intros k _ _. exists c. rewrite upd_eq. exists i, 0. split; [by left|lia].
  - intros k _ Hc. rewrite (iv_test _ H c i SleepLocked) in Hc; [done|done|by right].
  - apply (wakeup_keep _ _ _ (state s) (onchan s)).
    + intros k [[Hst Hoc]|Hr].
      * unfold upd in Hst, Hoc. destruct (decide (k = i)) as [->|]; [right; eauto|by left].
      * apply ready_upd in Hr as [Hr|(d & _ & Hr)]; [done|right; eauto].
    + intros k _ Hw. exfalso. revert Hw. apply not_waker. intros w j. by rewrite H0.
    + apply (iv_wakeup _ H).
  - apply wakeup_less; [done|quiet|]. intros k Hst. unfold upd. by destruct (decide (k = i)).
  - apply (wakeup_pass _ _ i (WakeupAt i) i); [done|by left|done|done|]. intros Hsl. apply (runner_not_sleeper i (WakeupAt i)); [done|done|]. revert Hsl. by apply sleeper_move.
  - apply (wakeup_keep _ _ _ (state s) (onchan s)); [intros k; by apply sleeper_move| |apply (iv_wakeup _ H)].
    intros k _ (w & j' & Hw & Hle). rewrite H0 in Hw. exists i, j. split; [by right|]. destruct Hw as [[=]|[=]]; lia.
  - apply (wakeup_pass _ _ j (WakeupOn j) i); [done|by right|done|by intros k; apply woken_less|]. intros [[Hst Hoc]|Hr].
    + pose proof (woken_less _ _ _ Hst) as Hst'. rewrite Hoc, bool_decide_eq_true_2 in Hst by done. cbn in Hst. rewrite upd_eq in Hst. done.
    + apply ready_upd in Hr as [Hr|(d & Hd & Hr)]; [done|]. assert (plock s j = Some c) as E1 by (apply (iv_plock _ H); by rewrite H0).
      assert (plock s j = Some d) as E2 by (apply (iv_plock _ H); by rewrite Hr). congruence.
  - apply (wakeup_keep _ _ _ (state s) (onchan s)); [intros k; by apply sleeper_move| |apply (iv_wakeup _ H)].
    intros k Hk (w & j' & Hw & Hle). exfalso. rewrite H0 in Hw. assert (j' = NPROC) as -> by (destruct Hw as [[=]|[=]]; done).
    assert (k < NPROC); [|lia]. apply sleeper_range. revert Hk. by apply sleeper_move.
Qed.

Lemma inv_step : inv s'.
Proof.
  constructor; [apply plock_step|apply lk_step|apply running_step|apply once_step|apply range_step|apply have_step|apply test_step|apply wakeup_step].
Qed.
End Preserve.

Lemma inv_start s : start s -> inv s.
Proof.
  intros (H1 & H2 & H3 & H4 & H5). constructor.
  - intros j c. rewrite H4, H1. done.
  - intros c. rewrite H5, H1. done.
  - intros i. rewrite H2. split; [done|]. intros [c Hc]. by rewrite H1 in Hc.
  - intros c c' i Hc. by rewrite H1 in Hc.
  - intros i Hi. by destruct Hi.
  - intros c j Hc. by rewrite H1 in Hc.
  - intros c i p Hc. by rewrite H1 in Hc.
  - intros i [[Hi _]|[c Hc]]; [by rewrite H2 in Hi|by rewrite H1 in Hc].
Qed.

Lemma inv_reachable s0 s : start s0 -> reachable s0 s -> inv s.
Proof. intros H0 Hr. induction Hr as [|s c s' _ IH Hs]; [by apply inv_start|]. by apply (inv_step s s' c). Qed.

(** C13.  However the CPUs interleave, no process runs on two of them: a CPU's
    process is in state RUNNING, a RUNNING process is on one CPU, and the
    lock of a process is held across the switches that start and end it. *)
Theorem one_cpu_per_process s0 s : start s0 -> reachable s0 s ->
  (forall c c' i p p', cpu s c = Run i p -> cpu s c' = Run i p' -> c = c') /\
  (forall i, state s i = Running <-> exists c p, cpu s c = Run i p) /\
  (forall c c' j, has_plock (cpu s c) = Some j -> has_plock (cpu s c') = Some j -> c = c').
Proof.
  intros H0 Hr. pose proof (inv_reachable s0 s H0 Hr) as H. split; [|split].
  - intros c c' i p p' E E'. apply (iv_once _ H c c' i); [by rewrite E|by rewrite E'].
  - intros i. rewrite (iv_running _ H i). split.
    + intros [c Hc]. destruct (cpu s c) as [| |i' p|] eqn:E; try done. injection Hc as ->. eauto.
    + intros (c & p & E). exists c. by rewrite E.
  - intros c c' j E E'. apply (iv_plock _ H) in E, E'. congruence.
Qed.

(** C3.  No wakeup is lost.  While the condition holds and a process is asleep
    on its channel, some CPU is inside [wakeup] and has not yet come to that
    process; so when nobody has the lock of the condition, no process is
    asleep although the condition holds. *)
Theorem no_lost_wakeup s0 s i : start s0 -> reachable s0 s -> state s i = Sleeping -> onchan s i = true -> cond s = true ->
  (exists c w j, (cpu s c = Run w (WakeupAt j) \/ cpu s c = Run w (WakeupOn j)) /\ j <= i) /\ lk s <> None.
Proof.
  intros H0 Hr Hi Hc Hd. pose proof (inv_reachable s0 s H0 Hr) as H. destruct (iv_wakeup _ H i) as (c & w & j & Hw & Hle); [by left|done|].
  split; [eauto|]. assert (lk s = Some c) as ->; [|done]. apply (iv_lk _ H). by destruct Hw as [-> | ->].
Qed.

(** ** The sleeper can be woken *)
Definition steps : sys -> sys -> Prop := rtc (fun s s' => exists c, step c s s').
Lemma steps_inv s s' : inv s -> steps s s' -> inv s'.
Proof. intros H Hr. induction Hr as [|s s1 s2 [c Hc] _ IH]; [done|]. apply IH. by apply (inv_step s s1 c). Qed.
Lemma one_step c s s' : step c s s' -> steps s s'.
Proof. intros H. apply rtc_once. by exists c. Qed.
Lemma two_steps c s s1 s2 : step c s s1 -> step c s1 s2 -> steps s s2.
Proof. intros H1 H2. apply (rtc_l _ _ s1); [by exists c|by apply (one_step c)]. Qed.

(** Who has the lock of a process can release it alone, unless he has [lk]. *)
Lemma lock_released s d j : has_plock (cpu s d) = Some j -> has_lk (cpu s d) = false ->
  exists s', steps s s' /\ plock s' j = None /\ forall c, c <> d -> cpu s' c = cpu s c.
Proof.
  intros Hp Hl. assert (forall f (m : mode) c, c <> d -> upd f d m c = f c) as Hu by (intros f m c; apply upd_ne).
  destruct (cpu s d) as [|k|k p|k] eqn:E; try done.
  - injection Hp as ->. destruct (decide (state s j = Runnable)) as [Hr|Hr].
    + destruct (insleep s j) eqn:Ei.
      * eexists. split; [eapply two_steps; [by eapply (s_switch d s j)|eapply s_sleep4; cbn; unfold goes; by rewrite upd_eq, Ei]|]. split; [apply upd_eq|]. intros c Hc. cbn. unfold goes. cbn. unfold goes. by rewrite !Hu.
      * eexists. split; [eapply two_steps; [by eapply (s_switch d s j)|eapply s_resumed; cbn; unfold goes; by rewrite upd_eq, Ei]|]. split; [apply upd_eq|]. intros c Hc. cbn. unfold goes. cbn. unfold goes. by rewrite !Hu.
    + eexists. split; [eapply one_step; by eapply s_skip|]. split; [apply upd_eq|]. intros c Hc. by apply Hu.
  - destruct p; try done; injection Hp as ->.
    + eexists. split; [eapply two_steps; [by eapply s_sleep3|eapply s_back; apply upd_eq]|]. split; [apply upd_eq|]. intros c Hc. cbn. unfold goes. cbn. unfold goes. by rewrite !Hu.
    + eexists. split; [eapply one_step; by eapply s_sleep4|]. split; [apply upd_eq|]. intros c Hc. by apply Hu.
    + eexists. split; [eapply two_steps; [by eapply s_yielded|eapply s_back; apply upd_eq]|]. split; [apply upd_eq|]. intros c Hc. cbn. unfold goes. cbn. unfold goes. by rewrite !Hu.
    + eexists. split; [eapply one_step; by eapply s_resumed|]. split; [apply upd_eq|]. intros c Hc. by apply Hu.
    + eexists. split; [eapply one_step; by eapply (s_touched d s _ _ false)|]. split; [apply upd_eq|]. intros c Hc. by apply Hu.
  - injection Hp as ->. eexists. split; [eapply one_step; by eapply s_back|]. split; [apply upd_eq|]. intros c Hc. by apply Hu.
Qed.

Definition asleep (s : sys) (i : nat) : Prop := state s i = Sleeping /\ onchan s i = true.

(** The process whose lock [wakeup] has does not sleep on afterwards. *)
Lemma wakeup_visits s c w j : cpu s c = Run w (WakeupOn j) ->
  exists s', steps s s' /\ cpu s' c = Run w (WakeupAt (j + 1)) /\ ~ asleep s' j.
Proof.
  intros E. eexists. split; [eapply one_step; by eapply s_wakeup2|]. split; [apply upd_eq|]. intros [Hst Hoc]. cbn in Hst, Hoc.
  rewrite Hoc, andb_true_r in Hst. case_bool_decide as Hs; [|done]. by rewrite upd_eq in Hst.
Qed.

Lemma wakeup_advances s c w j : inv s -> cpu s c = Run w (WakeupAt j) -> j < NPROC ->
  exists s', steps s s' /\ cpu s' c = Run w (WakeupAt (j + 1)) /\ (j <> w -> ~ asleep s' j).
Proof.
  intros H E Hj. destruct (decide (j = w)) as [->|Hne].
  { eexists. split; [eapply one_step; by eapply s_wakeup_self|]. split; [apply upd_eq|done]. }
  assert (exists s1, steps s s1 /\ plock s1 j = None /\ cpu s1 c = cpu s c) as (s1 & Hr1 & Hp1 & E1).
  { destruct (plock s j) as [d|] eqn:Hp; [|exists s; by split; [apply rtc_refl|]]. apply (iv_plock _ H) in Hp.
    assert (d <> c) as Hd by (intros ->; by rewrite E in Hp). destruct (lock_released s d j Hp) as (s1 & Hr & Hn & Hc).
    - apply not_true_iff_false. intros Hl%(iv_lk _ H). assert (lk s = Some c) by (apply (iv_lk _ H); by rewrite E). congruence.
    - exists s1. split; [done|]. split; [done|]. by apply Hc. }
  rewrite E in E1. destruct (wakeup_visits _ c w j (upd_eq (cpu s1) c (Run w (WakeupOn j)) : cpu (mksys (goes s1 c _) (state s1) (onchan s1) (insleep s1) (upd (plock s1) j (Some c)) (lk s1) (cond s1)) c = _)) as (s2 & Hr2 & E2 & Ha).
  exists s2. split; [|done]. etransitivity; [exact Hr1|]. eapply rtc_l; [exists c; by eapply s_wakeup1|exact Hr2].
Qed.

Lemma wakeup_reaches c w i : forall n s j, inv s -> cpu s c = Run w (WakeupAt j) -> i - j < n -> j <= i -> i < NPROC -> exists s', steps s s' /\ ~ asleep s' i.
Proof.
  induction n as [|n IH]; intros s j H E Hn Hle Hi; [lia|]. destruct (decide (i = w)) as [->|Hw].
  { exists s. split; [apply rtc_refl|]. intros [Hst _]. rewrite (proj2 (iv_running _ H w)) in Hst; [done|]. exists c. by rewrite E. }
  destruct (wakeup_advances s c w j H E) as (s1 & Hr & E1 & Ha); [lia|]. destruct (decide (i = j)) as [->|Hne]; [exists s1; by split; [|apply Ha]|].
  destruct (IH s1 (j + 1)) as (s2 & Hr2 & Ha2); [by apply (steps_inv s)|done|lia|lia|done|]. exists s2. split; [by etransitivity|done].
Qed.

(** C24.  A process that sleeps although the condition holds is on its way to
    be woken: from every reachable state the CPUs can go on so that it is no
    longer asleep on the channel, the waker going through the table and every
    CPU that has the lock of a process releasing it without waiting for
    another lock.  Neither [sleep] and [wakeup] nor the scheduler can block
    each other for good. *)
Theorem sleeper_can_wake s0 s i : start s0 -> reachable s0 s -> state s i = Sleeping -> onchan s i = true -> cond s = true ->
  exists s', steps s s' /\ ~ (state s' i = Sleeping /\ onchan s' i = true).
Proof.
  intros H0 Hr Hi Hc Hd. pose proof (inv_reachable s0 s H0 Hr) as H. assert (i < NPROC) as Hlt by (apply (iv_range _ H); by rewrite Hi).
  destruct (iv_wakeup _ H i) as (c & w & j & [E|E] & Hle); [by left|done| |].
  - by apply (wakeup_reaches c w i (S i) s j); [..|lia| |].
  - destruct (wakeup_visits s c w j E) as (s1 & Hr1 & E1 & Ha). destruct (decide (i = j)) as [->|Hne]; [by exists s1|].
    destruct (wakeup_reaches c w i (S i) s1 (j + 1)) as (s2 & Hr2 & Ha2); [by apply (steps_inv s)|done|lia|lia|done|]. exists s2. split; [by etransitivity|done].
Qed.
End Sched.

(** ** An example: process 0 sleeps, process 1 makes the condition true *)
Module Race.
Definition rest : sys := mksys (fun _ => Scan) (fun _ => Runnable) (fun _ => false) (fun _ => false) (fun _ => None) None false.
Lemma rest_start : start rest.
Proof. done. Qed.

Ltac forward R c con :=
  eapply (r_step 2 rest _ c) in R; [|eapply (con 2 c _ c); first [reflexivity|lia]];
  unfold goes in R; cbn [cpu state onchan insleep plock lk cond rest resume] in R.

Lemma asleep_with_cond : exists s, reachable 2 rest s /\ state s 0 = Sleeping /\ onchan s 0 = true /\ cond s = true.
Proof.
  pose proof (r_start 2 rest) as R.
  forward R 0 s_visit.
  forward R 0 s_switch.
  forward R 0 s_resumed.
  forward R 0 s_acquire.
  forward R 0 s_wait.
  forward R 0 s_sleep1.
  forward R 0 s_sleep2.
  forward R 0 s_sleep3.
  forward R 1 s_visit.
  forward R 1 s_switch.
  forward R 1 s_resumed.
  forward R 1 s_acquire.
  forward R 1 s_produce.
  eexists. split; [exact R|]. split; [reflexivity|]. split; reflexivity.
Qed.
End Race.
Import Race.

Lemma one_cpu_per_process_witness : exists s, reachable 2 rest s /\ forall c c' i p p', cpu s c = Run i p -> cpu s c' = Run i p' -> c = c'.
Proof.
  destruct asleep_with_cond as (s & R & _). exists s. split; [exact R|]. exact (proj1 (one_cpu_per_process 2 rest s rest_start R)).
Defined.
Lemma no_lost_wakeup_witness : exists s, reachable 2 rest s /\ exists c w j, (cpu s c = Run w (WakeupAt j) \/ cpu s c = Run w (WakeupOn j)) /\ j <= 0.
Proof.
  destruct asleep_with_cond as (s & R & H1 & H2 & H3). exists s. split; [exact R|]. exact (proj1 (no_lost_wakeup 2 rest s 0 rest_start R H1 H2 H3)).
Defined.
Lemma sleeper_can_wake_witness : exists s s', reachable 2 rest s /\ steps 2 s s' /\ ~ (state s' 0 = Sleeping /\ onchan s' 0 = true).
Proof.
  destruct asleep_with_cond as (s & R & H1 & H2 & H3). destruct (sleeper_can_wake 2 rest s 0 rest_start R H1 H2 H3) as (s' & Hs & Ha).
  exists s, s'. split; [exact R|]. split; [exact Hs|exact Ha].
Defined.
