(* ===== verification/Grep.v ===== *)
(** * user/grep.c

    The pattern matcher and the loop that cuts a stream into lines.  A C
    string is the list of its bytes before the NUL, so that reading the NUL
    is reaching the end of the list; a file is its bytes and the number of
    bytes each [read] is willing to deliver.  The matcher is proved equal to
    a declarative semantics of patterns, and the program to a definition by
    lines. *)

From S2P Require Import Prelude.
Local Open Scope Z_scope.

Definition NEWLINE : Z := 10.
Definition DOLLAR : Z := 36.
Definition STAR : Z := 42.
Definition DOT : Z := 46.
Definition CARET : Z := 94.

(** ** The matcher *)

(** [re[0] == '.' || re[0] == *text] *)
Definition fits_char (c x : Z) : bool := (c =? DOT) || (c =? x).

(** [here] is [matchhere] on the rest of the pattern. *)
Fixpoint matchstar (here : list Z -> bool) (c : Z) (text : list Z) : bool :=
  if here text then true
  else match text with [] => false | x :: text' => if (x =? c) || (c =? DOT) then matchstar here c text' else false end.

Fixpoint matchhere (re text : list Z) {struct re} : bool :=
  match re with
  | [] => true
  | c :: re1 =>
      match re1 with
      | [] =>
          if c =? DOLLAR then match text with [] => true | _ => false end
          else match text with [] => false | x :: text' => if fits_char c x then matchhere re1 text' else false end
      | d :: re2 =>
          if d =? STAR then matchstar (matchhere re2) c text
          else match text with [] => false | x :: text' => if fits_char c x then matchhere re1 text' else false end
      end
  end.

(** The loop of [match] over the positions of the text. *)
Fixpoint match_anywhere (re text : list Z) : bool :=
  if matchhere re text then true
  else match text with [] => false | _ :: text' => match_anywhere re text' end.

Definition match_ (re text : list Z) : bool :=
  match re with
  | c :: re' => if c =? CARET then matchhere re' text else match_anywhere re text
  | [] => match_anywhere re text
  end.

(** ** What a pattern means *)
Inductive item := One (c : Z) | Many (c : Z) | AtEnd.

Fixpoint items (re : list Z) : list item :=
  match re with
  | [] => []
  | c :: re1 =>
      match re1 with
      | [] => if c =? DOLLAR then [AtEnd] else [One c]
      | d :: re2 => if d =? STAR then Many c :: items re2 else One c :: items re1
      end
  end.

(** A character of a pattern stands for itself, a dot for any character. *)
Definition accepts (c x : Z) : Prop := c = DOT \/ x = c.

(** The items match a beginning of the text. *)
Fixpoint begins (l : list item) (text : list Z) : Prop :=
  match l with
  | [] => True
  | One c :: l' => exists x rest, text = x :: rest /\ accepts c x /\ begins l' rest
  | Many c :: l' => exists s rest, text = s ++ rest /\ Forall (accepts c) s /\ begins l' rest
  | AtEnd :: l' => text = [] /\ begins l' []
  end.

Definition matches (re text : list Z) : Prop :=
  match re with
  | c :: re' => if c =? CARET then begins (items re') text else exists pre post, text = pre ++ post /\ begins (items re) post
  | [] => True
  end.

Lemma fits_char_spec c x : fits_char c x = true <-> accepts c x.
Proof. unfold fits_char, accepts. rewrite orb_true_iff, !Z.eqb_eq. naive_solver. Qed.

Lemma matchstar_spec here c (Q : list Z -> Prop) : (forall t, here t = true <-> Q t) ->
  forall text, matchstar here c text = true <-> exists s rest, text = s ++ rest /\ Forall (accepts c) s /\ Q rest.
Proof.
  intros Hh text. induction text as [|x text IH]; cbn [matchstar].
  - destruct (here []) eqn:E.
    + split; [|done]. intros _. exists [], []. split; [done|]. split; [done|]. by apply Hh.
    + split; [done|]. intros (s & rest & Es & _ & HQ). apply eq_sym, app_eq_nil in Es as [-> ->]. apply Hh in HQ. congruence.
  - destruct (here (x :: text)) eqn:E.
    + split; [|done]. intros _. exists [], (x :: text). split; [done|]. split; [done|]. by apply Hh.
    + destruct ((x =? c) || (c =? DOT)) eqn:Ec.
      * rewrite IH. apply orb_true_iff in Ec. rewrite !Z.eqb_eq in Ec. split.
        -- intros (s & rest & -> & Hs & HQ). exists (x :: s), rest. split; [done|]. split; [|done]. constructor; [unfold accepts; tauto|done].
        -- intros ([|y s] & rest & Es & Hs & HQ).
           ++ cbn in Es. subst rest. apply Hh in HQ. congruence.
           ++ injection Es as -> ->. apply Forall_cons in Hs as [_ Hs]. by exists s, rest.
      * split; [done|]. intros ([|y s] & rest & Es & Hs & HQ).
        -- cbn in Es. subst rest. apply Hh in HQ. congruence.
        -- injection Es as -> ->. apply Forall_cons in Hs as [Hy _]. apply orb_false_iff in Ec. rewrite !Z.eqb_neq in Ec. unfold accepts in Hy. tauto.
Qed.

Lemma match_one_spec c l (text : list Z) (h : list Z -> bool) : (forall t, h t = true <-> begins l t) ->
  match text with [] => false | x :: text' => if fits_char c x then h text' else false end = true <-> begins (One c :: l) text.
Proof.
  intros Hh. cbn [begins]. destruct text as [|x text].
  - split; [done|]. by intros (? & ? & ? & _).
  - destruct (fits_char c x) eqn:E.
    + rewrite Hh. apply fits_char_spec in E. split; [intros H; by exists x, text|]. by intros (? & ? & [= <- <-] & _ & H).
    + split; [done|]. intros (? & ? & [= <- <-] & Ha & _). apply fits_char_spec in Ha. congruence.
Qed.

Lemma matchhere_spec : forall re text, matchhere re text = true <-> begins (items re) text.
Proof.
  enough (forall n re, (length re <= n)%nat -> forall text, matchhere re text = true <-> begins (items re) text) as H by (intros re; by apply (H (length re))).
  induction n as [|n IH]; intros [|c [|d re2]] Hlen text; cbn [length] in Hlen; try lia; try done.
  - cbn [matchhere items]. destruct (c =? DOLLAR).
    + cbn. destruct text; naive_solver.
    + by apply (match_one_spec c [] text (matchhere [])).
  - change (items (c :: d :: re2)) with (if d =? STAR then Many c :: items re2 else One c :: items (d :: re2)).
    change (matchhere (c :: d :: re2) text) with (if d =? STAR then matchstar (matchhere re2) c text
      else match text with [] => false | x :: text' => if fits_char c x then matchhere (d :: re2) text' else false end).
    destruct (d =? STAR).
    + apply matchstar_spec. intros t. apply IH. lia.
    + apply match_one_spec. intros t. apply IH. cbn. lia.
Qed.

Lemma match_anywhere_spec re text : match_anywhere re text = true <-> exists pre post, text = pre ++ post /\ begins (items re) post.
Proof.
  induction text as [|x text IH]; cbn [match_anywhere].
  - destruct (matchhere re []) eqn:E; rewrite <- ?not_true_iff_false, matchhere_spec in E.
    + split; [|done]. intros _. by exists [], [].
    + split; [done|]. intros (pre & post & Ep & H). apply eq_sym, app_eq_nil in Ep as [-> ->]. done.
  - destruct (matchhere re (x :: text)) eqn:E; rewrite <- ?not_true_iff_false, matchhere_spec in E.
    + split; [|done]. intros _. by exists [], (x :: text).
    + rewrite IH. split.
      * intros (pre & post & -> & H). by exists (x :: pre), post.
      * intros ([|y pre] & post & Ep & H); [cbn in Ep; by subst post|]. injection Ep as -> ->. by exists pre, post.
Qed.

(** C30.  The matcher of grep, which always terminates, accepts a line exactly
    when the pattern matches it: with [^] first the items of the pattern match
    a beginning of the line, otherwise they match somewhere in it, where a
    character stands for itself, [.] for any, [c*] for any number of [c] and a
    final [$] for the end of the line. *)
Theorem grep_match_equiv re text : match_ re text = true <-> matches re text.
Proof.
  destruct re as [|c re]; [|cbn; destruct (c =? CARET); [apply matchhere_spec|apply match_anywhere_spec]].
  split; [done|]. intros _. by destruct text.
Qed.

(** ** The loop over the file *)

(** What is left of the file, and how many bytes more than one the coming
    calls of [read] deliver at most; then as many as there is room for. *)
Record stream := mkstream { rest : list Z; eager : list nat }.
Definition read (room : nat) (f : stream) : list Z * stream :=
  let n := match eager f with [] => room | w :: _ => Nat.min (S w) room end in
  (take n (rest f), mkstream (drop n (rest f)) (tail (eager f))).

(** [strchr(p, '\n')]: what is before and after the newline. *)
Fixpoint cut (l : list Z) : option (list Z * list Z) :=
  match l with
  | [] => None
  | c :: l' =>
      if c =? 0 then None
      else if c =? NEWLINE then Some ([], l')
      else match cut l' with Some (a, b) => Some (c :: a, b) | None => None end
  end.

(** The loop over the lines of the buffer: the output, and what is left. *)
Fixpoint scan_lines (fuel : nat) (pattern buf : list Z) : option (list Z * list Z) :=
  match fuel with
  | O => None
  | S f =>
      match cut buf with
      | None => Some ([], buf)
      | Some (line, p) =>
          match scan_lines f pattern p with
          | None => None
          | Some (out, p') => Some ((if match_ pattern line then line ++ [NEWLINE] else []) ++ out, p')
          end
      end
  end.

Definition BUFSIZE : nat := 1024.

(** [None] when the fuel does not suffice. *)
Fixpoint grep_loop (fuel : nat) (pattern buf : list Z) (f : stream) : option (list Z) :=
  match fuel with
  | O => None
  | S n =>
      let (got, f') := read (BUFSIZE - length buf - 1) f in
      match got with
      | [] => Some []
      | _ =>
          match scan_lines (S (length (buf ++ got))) pattern (buf ++ got) with
          | None => None
          | Some (out, p) =>
              match grep_loop n pattern p f' with None => None | Some out' => Some (out ++ out') end
          end
      end
  end.
Definition grep (pattern : list Z) (f : stream) : option (list Z) := grep_loop (S (length (rest f))) pattern [] f.

(** ** By lines *)

(** The complete lines, and what follows the last newline. *)
Fixpoint chop (l : list Z) : list (list Z) * list Z :=
  match l with
  | [] => ([], [])
  | c :: l' =>
      let (ls, t) := chop l' in
      if c =? NEWLINE then ([] :: ls, t)
      else match ls with [] => ([], c :: t) | x :: ls' => ((c :: x) :: ls', t) end
  end.
Definition selected (pattern : list Z) (lines : list (list Z)) : list Z :=
  concat (map (fun l => l ++ [NEWLINE]) (List.filter (match_ pattern) lines)).

Lemma chop_app a b : chop (a ++ b) = ((chop a).1 ++ (chop ((chop a).2 ++ b)).1, (chop ((chop a).2 ++ b)).2).
Proof.
  induction a as [|c a IH]; cbn [app chop fst snd]; [by destruct (chop b)|]. rewrite IH. destruct (chop a) as [ls t]. cbn [fst snd].
  destruct (chop (t ++ b)) as [ls' t'] eqn:Et. cbn [fst snd]. destruct (c =? NEWLINE) eqn:Ec; [cbn; by rewrite Et|].
  destruct ls as [|x ls]; cbn [app fst snd]; [|by rewrite Et]. cbn [chop]. rewrite Et, Ec. by destruct ls'.
Qed.

Lemma cut_spec l : 0 ∉ l -> match cut l with
  | Some (a, b) => chop l = (a :: (chop b).1, (chop b).2) /\ (length b < length l)%nat /\ 0 ∉ b
  | None => chop l = ([], l)
  end.
Proof.
  induction l as [|c l IH]; intros H0; cbn [cut chop]; [done|]. apply not_elem_of_cons in H0 as [Hc H0]. rewrite (proj2 (Z.eqb_neq c 0)) by congruence.
  destruct (c =? NEWLINE).
  - destruct (chop l) as [ls t] eqn:El. split; [done|]. split; [cbn; lia|done].
  - specialize (IH H0). destruct (cut l) as [[a b]|]; [|by rewrite IH]. destruct IH as (-> & Hl & Hb). split; [done|]. split; [cbn; lia|done].
Qed.

Lemma scan_lines_spec pattern : forall fuel buf, (length buf < fuel)%nat -> 0 ∉ buf ->
  scan_lines fuel pattern buf = Some (selected pattern (chop buf).1, (chop buf).2).
Proof.
  induction fuel as [|f IH]; intros buf Hf H0; [lia|]. cbn [scan_lines]. pose proof (cut_spec buf H0) as Hc. destruct (cut buf) as [[a b]|].
  - destruct Hc as (-> & Hl & Hb). rewrite IH by (done || lia). cbn [fst snd]. f_equal. f_equal. unfold selected. cbn [List.filter]. by destruct (match_ pattern a).
  - by rewrite Hc.
Qed.

(** No line is as long as the buffer. *)
Definition short_lines (l : list Z) : Prop := Forall (fun x => (length x < BUFSIZE - 1)%nat) (chop l).1 /\ (length (chop l).2 < BUFSIZE - 1)%nat.

Lemma chop_tail_app a b : chop ((chop a).2 ++ b) = ((chop ((chop a).2 ++ b)).1, (chop ((chop a).2 ++ b)).2).
Proof. by destruct (chop _). Qed.
Lemma chop_tail a : chop (chop a).2 = ([], (chop a).2).
Proof.
  induction a as [|c a IH]; cbn [chop]; [done|]. destruct (chop a) as [ls t]. cbn [snd] in IH. destruct (c =? NEWLINE) eqn:Ec; [done|].
  destruct ls; cbn [snd]; [|done]. cbn [chop]. by rewrite IH, Ec.
Qed.

(** A line cut off by the end of the buffer fits. *)
Lemma short_tail a b : short_lines (a ++ b) -> (length (chop a).2 < BUFSIZE - 1)%nat.
Proof.
  unfold short_lines. rewrite chop_app. cbn [fst snd]. rewrite Forall_app. pose proof (chop_app (chop a).2 b) as E. rewrite chop_tail in E. cbn [fst snd] in E.
  intros [[_ H1] H2]. revert H1 H2. generalize (chop_tail a). generalize (chop a).2 as t. intros t Et.
  assert (match (chop (t ++ b)).1 with x :: _ => (length t <= length x)%nat | [] => (length t <= length (chop (t ++ b)).2)%nat end) as Hl.
  { clear E. induction t as [|c t IH]; [cbn [app length]; destruct (chop b) as [[|x ls] u]; cbn; lia|]. cbn [app chop] in *. destruct (chop t) as [ls t'] eqn:Ec. destruct (c =? NEWLINE) eqn:En; [done|].
    destruct ls; [|done]. injection Et as ->. specialize (IH eq_refl). destruct (chop (t ++ b)) as [[|x ls'] u]; cbn in *; lia. }
  intros H1 H2. destruct ((chop (t ++ b)).1) as [|x ls]; [lia|]. apply Forall_cons in H1 as [H1 _]. lia.
Qed.

Lemma chop_elem x a : x ∈ (chop a).2 -> x ∈ a.
Proof.
  induction a as [|c a IH]; cbn [chop]; [done|]. destruct (chop a) as [ls t]. cbn [snd] in IH. rewrite elem_of_cons.
  destruct (c =? NEWLINE); [cbn [snd]; by right; apply IH|]. destruct ls; cbn [snd]; [rewrite elem_of_cons; naive_solver|by right; apply IH].
Qed.
Lemma short_rest a b : short_lines (a ++ b) -> short_lines ((chop a).2 ++ b).
Proof. unfold short_lines. rewrite chop_app. cbn [fst snd]. rewrite Forall_app. tauto. Qed.

Lemma grep_loop_spec pattern : forall fuel buf f, (length (rest f) < fuel)%nat -> 0 ∉ buf ++ rest f -> chop buf = ([], buf) -> short_lines (buf ++ rest f) ->
  grep_loop fuel pattern buf f = Some (selected pattern (chop (buf ++ rest f)).1).
Proof.
  induction fuel as [|n IH]; intros buf [data eag] Hf H0 Hb Hs; cbn [rest] in *; [lia|]. cbn [grep_loop]. unfold read. cbn [rest eager].
  set (w := match eag with [] => _ | _ => _ end).
  assert ((0 < w)%nat) as Hw.
  { pose proof (short_tail buf data Hs) as Ht. rewrite Hb in Ht. cbn [snd] in Ht. unfold w, BUFSIZE in *. destruct eag; lia. }
  destruct (take w data) as [|c got] eqn:Eg.
  - apply (f_equal length) in Eg. rewrite length_take in Eg. cbn in Eg. destruct data; [|cbn in Eg; lia]. by rewrite app_nil_r, Hb.
  - assert (0 < length data)%nat as Hd by (destruct data; [by rewrite take_nil in Eg|cbn; lia]).
    rewrite <- Eg. clear Eg c got. assert (buf ++ data = (buf ++ take w data) ++ drop w data) as Esplit by (by rewrite <- app_assoc, take_drop).
    set (b' := buf ++ take w data) in *. rewrite Esplit in H0, Hs |- *. apply not_elem_of_app in H0 as [H0 H1]. rewrite scan_lines_spec; [|lia|done].
    rewrite (IH (chop b').2 (mkstream (drop w data) (tail eag))); cbn [rest].
    + rewrite (chop_app b'). cbn [fst]. unfold selected. by rewrite List.filter_app, map_app, concat_app.
    + rewrite length_drop. lia.
    + apply not_elem_of_app. split; [intros Hin; by apply H0, chop_elem|done].
    + apply chop_tail.
    + by apply short_rest.
Qed.

(** C31.  [grep] on a text of lines shorter than its buffer terminates and
    prints exactly the complete lines that match, in order, however the calls
    of [read] cut the file into pieces. *)
Theorem grep_by_lines pattern data eag : 0 ∉ data -> short_lines data ->
  grep pattern (mkstream data eag) = Some (selected pattern (chop data).1).
Proof. intros H0 Hs. apply (grep_loop_spec pattern _ [] (mkstream data eag)); [cbn; lia|done|done|done]. Qed.

(** Two lines, the second of which matches; the file comes byte by byte, or
    as a whole. *)
Lemma grep_by_lines_witness : grep [98; 42; 36] (mkstream [97; 10; 98; 98; 10] [0; 0; 0; 0; 0]%nat) = Some [97; 10; 98; 98; 10] /\
  grep [94; 98] (mkstream [97; 10; 98; 98; 10] []) = Some [98; 98; 10].
Proof.
  split.
  - rewrite (grep_by_lines [98; 42; 36] [97; 10; 98; 98; 10] [0; 0; 0; 0; 0]%nat); [reflexivity|by apply (bool_decide_unpack _)|].
    split; [repeat constructor|]; cbn; unfold BUFSIZE; lia.
  - reflexivity.
Defined.

Lemma chop_one_line l : NEWLINE ∉ l -> chop l = ([], l).
Proof.
  induction l as [|c l IH]; [done|]. intros H. apply not_elem_of_cons in H as [Hc H]. cbn [chop]. rewrite (IH H), (proj2 (Z.eqb_neq c NEWLINE)) by congruence. done.
Qed.

(** A line that fills the buffer ends the search without a message:
    [read] is then asked for 0 bytes and its result 0 is taken for the end of
    the file, so that nothing after the line is looked at. *)
Theorem grep_long_line pattern line data : length line = (BUFSIZE - 1)%nat -> NEWLINE ∉ line -> 0 ∉ line ->
  grep pattern (mkstream (line ++ data) []) = Some [].
Proof.
  intros Hl Hn H0. unfold grep. cbn [rest]. rewrite length_app, Hl. change (S (BUFSIZE - 1 + length data)) with (S (S (BUFSIZE - 2 + length data))).
  cbn [grep_loop]. unfold read. cbn [rest eager length]. change (BUFSIZE - 0 - 1)%nat with (BUFSIZE - 1)%nat. rewrite <- Hl, take_app_length, drop_app_length.
  destruct line as [|c line]; [done|]. cbn [app]. rewrite scan_lines_spec by (done || lia). rewrite chop_one_line by done. cbn [fst snd].
  rewrite Hl. change (BUFSIZE - (BUFSIZE - 1) - 1)%nat with 0%nat. rewrite take_0. done.
Qed.

Lemma grep_long_line_witness : grep [98] (mkstream (replicate 1023 97 ++ [10; 98; 10]) []) = Some [].
Proof.
  apply (grep_long_line [98] (replicate 1023 97) [10; 98; 10]).
  - reflexivity.
  - rewrite elem_of_replicate. intros [? _]. done.
  - rewrite elem_of_replicate. intros [? _]. done.
Defined.
