(* ===== verification/Console.v ===== *)
(** * kernel/console.c: the console

    Input arrives a character at a time in [consoleintr], which edits a line
    in a ring of 128 bytes; [consoleread] delivers completed lines.  A read
    runs under the lock until it returns or sleeps, which is one step, as in
    [Pipe.v]; what is echoed is kept as the list of bytes given to
    [uartputc_sync]. *)

From S2P Require Import Prelude Riscv Mem Lock Kalloc Vm UserIO Pipe PipeSpec.
Local Open Scope Z_scope.

Definition BACKSPACE : Z := 0x100.
Definition INPUT_BUF_SIZE : Z := 128.
(** [C(x)] *)
Definition ctrl (x : Z) : Z := x - 64.
Definition CTRL_D : Z := ctrl 68.
Definition CTRL_H : Z := ctrl 72.
Definition CTRL_P : Z := ctrl 80.
Definition CTRL_U : Z := ctrl 85.
Definition DELETE : Z := 127.
Definition NL : Z := 10.
Definition CR : Z := 13.

Record cons := mkcons { cbuf : list Z; cr : Z; cw : Z; ce : Z }.
Record cst (U : Type) := mkcst { co : cons; cus : U; echoed : list Z; cheld : list string }.
Arguments mkcst {U} _ _ _ _.
Arguments co {U} _.
Arguments cus {U} _.
Arguments echoed {U} _.
Arguments cheld {U} _.

(** [cons.buf[i % INPUT_BUF_SIZE]] *)
Definition slot (i : Z) : nat := Z.to_nat (i mod INPUT_BUF_SIZE).
Definition cget (c : cons) (i : Z) : Z := default 0 (cbuf c !! slot i).

Section Ops.
Context {U : Type} {HU : UserSpace U}.
Abbreviation C := (M (cst U)).

#[export] Instance cst_locks : Locks (cst U).
Proof.
  refine {| held := cheld; set_held l s := mkcst (co s) (cus s) (echoed s) l |}.
  - done.
  - done.
  - by intros [].
Defined.

Definition getc {A} (f : cons -> A) : C A := gets (fun s => f (co s)).
Definition setc (f : cons -> cons) : C unit := modify (fun s => mkcst (f (co s)) (cus s) (echoed s) (cheld s)).
Definition uartputc_sync (c : Z) : C unit := modify (fun s => mkcst (co s) (cus s) (echoed s ++ [u8 c]) (cheld s)).
Definition memory {A} (c : M U A) : C A := zoom cus (fun u s => mkcst (co s) u (echoed s) (cheld s)) c.

Definition consputc (c : Z) : C unit :=
  if c =? BACKSPACE then uartputc_sync 8 ;; uartputc_sync 32 ;; uartputc_sync 8 else uartputc_sync c.

Definition set_e (z : Z) (c : cons) : cons := mkcons (cbuf c) (cr c) (cw c) z.
Definition set_w (z : Z) (c : cons) : cons := mkcons (cbuf c) (cr c) z (ce c).
Definition set_r (z : Z) (c : cons) : cons := mkcons (cbuf c) z (cw c) (ce c).

(** Kill line. *)
Fixpoint kill_line (fuel : nat) : C unit :=
  match fuel with
  | O => hang
  | S f =>
      do! c <- getc (fun c => c);
      if negb (ce c =? cw c) && negb (cget c (u32 (ce c - 1)) =? NL) then
        setc (set_e (u32 (ce c - 1))) ;; consputc BACKSPACE ;; kill_line f
      else ret tt
  end.

(** The switch of [consoleintr]; [procdump] only prints. *)
Definition edit (c : Z) : C unit :=
  if c =? CTRL_P then ret tt
  else if c =? CTRL_U then
    do! k <- getc (fun k => k);
    kill_line (S (Z.to_nat (u32 (ce k - cw k))))
  else if (c =? CTRL_H) || (c =? DELETE) then
    do! k <- getc (fun k => k);
    if negb (ce k =? cw k) then setc (set_e (u32 (ce k - 1))) ;; consputc BACKSPACE else ret tt
  else
    do! k <- getc (fun k => k);
    if negb (c =? 0) && (u32 (ce k - cr k) <? INPUT_BUF_SIZE) then
      let c := if c =? CR then NL else c in
      consputc c ;;
      setc (fun k => mkcons (<[slot (ce k) := c]> (cbuf k)) (cr k) (cw k) (u32 (ce k + 1))) ;;
      do! k <- getc (fun k => k);
      if (c =? NL) || (c =? CTRL_D) || (u32 (ce k - cr k) =? INPUT_BUF_SIZE) then setc (set_w (ce k)) else ret tt
    else ret tt.

Definition consoleintr (c : Z) : C unit := acquire "cons" ;; edit c ;; release "cons".

Definition cleave (r : progress) : C progress := release "cons" ;; ret r.

(** [n] bytes are still wanted of [target]; [fileread] passes
    [user_dst] = 1. *)
Fixpoint consoleread_loop (fuel : nat) (killed : bool) (pt dst n target : Z) : C progress :=
  match fuel with
  | O => hang
  | S f =>
      if 0 <? n then
        do! k <- getc (fun k => k);
        if cr k =? cw k then (if killed then cleave (Done (-1)) else cleave (Asleep n))
        else
          let c := cget k (cr k) in
          setc (set_r (u32 (cr k + 1))) ;;
          if c =? CTRL_D then
            (if n <? target then setc (fun k => set_r (u32 (cr k - 1)) k) else ret tt) ;;
            cleave (Done (target - n))
          else
            do! ok <- memory (copy_out pt dst [c]);
            if ok : bool then
              if c =? NL then cleave (Done (target - (n - 1)))
              else consoleread_loop f killed pt (u64 (dst + 1)) (n - 1) target
            else cleave (Done (target - n))
      else cleave (Done (target - n))
  end.

(** From the start ([n = target]) or after a sleep; [dst] has advanced with
    the bytes delivered. *)
Definition consoleread (killed : bool) (pt dst n target : Z) : C progress :=
  acquire "cons" ;; consoleread_loop (S (Z.to_nat n)) killed pt dst n target.
End Ops.

(** ** Lines *)

(** Completed input, and the line that is being edited. *)
Definition typed : Type := list Z * list Z.

Definition press (c : Z) (t : typed) : typed :=
  let (ready, line) := t in
  if c =? CTRL_P then t
  else if c =? CTRL_U then (ready, [])
  else if (c =? CTRL_H) || (c =? DELETE) then (ready, removelast line)
  else if negb (c =? 0) && (Z.of_nat (length (ready ++ line)) <? INPUT_BUF_SIZE) then
    let c := if c =? CR then NL else c in
    if (c =? NL) || (c =? CTRL_D) || (Z.of_nat (length (ready ++ line)) + 1 =? INPUT_BUF_SIZE) then (ready ++ line ++ [c], [])
    else (ready, line ++ [c])
  else t.

Record shows (c : cons) (t : typed) : Prop := {
  sh_len : length (cbuf c) = 128%nat;
  sh_r : 0 <= cr c < 2 ^ 32;
  sh_w : cw c = u32 (cr c + Z.of_nat (length t.1));
  sh_e : ce c = u32 (cr c + Z.of_nat (length (t.1 ++ t.2)));
  sh_room : Z.of_nat (length (t.1 ++ t.2)) <= INPUT_BUF_SIZE;
  sh_at : forall j b, (t.1 ++ t.2) !! j = Some b -> cbuf c !! slot (cr c + Z.of_nat j) = Some b;
  (** A line being edited has no end yet. *)
  sh_line : (NL ∉ t.2) /\ (CTRL_D ∉ t.2)
}.

Lemma slot_u32 z : slot (u32 z) = slot z.
Proof. unfold slot. f_equal. unfold u32. apply Z.mod_mod_divide. by exists (2 ^ 25). Qed.
Lemma slot_range z : (slot z < 128)%nat.
Proof. unfold slot. pose proof (Z.mod_pos_bound z INPUT_BUF_SIZE ltac:(done)). unfold INPUT_BUF_SIZE in *. lia. Qed.
Lemma slot_ne a j k : 0 <= j < INPUT_BUF_SIZE -> 0 <= k < INPUT_BUF_SIZE -> j <> k -> slot (a + j) <> slot (a + k).
Proof.
  intros Hj Hk Hne E. unfold slot, INPUT_BUF_SIZE in *. pose proof (Z.mod_pos_bound (a + j) 128 ltac:(done)). pose proof (Z.mod_pos_bound (a + k) 128 ltac:(done)).
  apply Z2Nat.inj in E; [|lia..]. pose proof (Z.div_mod (a + j) 128 ltac:(done)). pose proof (Z.div_mod (a + k) 128 ltac:(done)). lia.
Qed.

(** Distances survive the wrap-around of the counters. *)
Lemma u32_distance a k : 0 <= k < 2 ^ 32 -> u32 (u32 (a + k) - a) = k.
Proof. intros Hk. unfold u32. rewrite Zminus_mod_idemp_l. replace (a + k - a) with k by lia. by apply Z.mod_small. Qed.
Lemma u32_eq_distance a j k : 0 <= j < 2 ^ 32 -> 0 <= k < 2 ^ 32 -> (u32 (a + j) =? u32 (a + k)) = (j =? k).
Proof.
  intros Hj Hk. apply eq_true_iff_eq. rewrite !Z.eqb_eq. split; [|by intros ->]. intros E. rewrite <- (u32_distance a j), <- (u32_distance a k) by done. by rewrite E.
Qed.

Lemma shows_empty c t : shows c t -> (ce c =? cw c) = bool_decide (t.2 = []).
Proof.
  intros H. pose proof (sh_room _ _ H) as Hr. rewrite length_app in Hr. unfold INPUT_BUF_SIZE in Hr. rewrite (sh_w _ _ H), (sh_e _ _ H), length_app, u32_eq_distance by lia.
  destruct t as [ready [|b line]]; cbn [fst snd length] in *; [rewrite bool_decide_true by done|rewrite bool_decide_false by done].
  - rewrite Nat.add_0_r. apply Z.eqb_refl.
  - apply Z.eqb_neq. lia.
Qed.

Lemma shows_count c t : shows c t -> u32 (ce c - cr c) = Z.of_nat (length (t.1 ++ t.2)).
Proof. intros H. pose proof (sh_room _ _ H) as Hr. unfold INPUT_BUF_SIZE in Hr. rewrite (sh_e _ _ H). apply u32_distance. lia. Qed.

(** The last character of the line is dropped. *)
Lemma shows_erase c ready line b : shows c (ready, line ++ [b]) -> shows (set_e (u32 (ce c - 1)) c) (ready, line) /\ cget c (u32 (ce c - 1)) = b.
Proof.
  intros [H1 H2 H3 H4 H5 H6 H7]. cbn [fst snd] in *. assert (u32 (ce c - 1) = u32 (cr c + Z.of_nat (length (ready ++ line)))) as Ee.
  { rewrite H4, !length_app. cbn. unfold u32. rewrite Zminus_mod_idemp_l. f_equal. lia. }
  rewrite Ee. split.
  - constructor; cbn; try done.
    + rewrite !length_app in H5. cbn in H5. rewrite length_app. lia.
    + intros j x Hj. apply H6. rewrite app_assoc. by apply lookup_app_l_Some.
    + rewrite !not_elem_of_app in H7. tauto.
  - unfold cget. rewrite slot_u32. rewrite (H6 _ b); [done|]. rewrite app_assoc. by apply list_lookup_middle.
Qed.

Lemma shows_append c ready line b : shows c (ready, line) -> Z.of_nat (length (ready ++ line)) < INPUT_BUF_SIZE -> b <> NL -> b <> CTRL_D ->
  shows (mkcons (<[slot (ce c) := b]> (cbuf c)) (cr c) (cw c) (u32 (ce c + 1))) (ready, line ++ [b]).
Proof.
  intros [H1 H2 H3 H4 H5 H6 H7] Hr Hnl Hd. cbn [fst snd] in *. constructor; cbn [fst snd cbuf cr cw ce].
  - by rewrite length_insert.
  - done.
  - done.
  - rewrite H4, app_assoc, (length_app (ready ++ line)). cbn. unfold u32. rewrite Zplus_mod_idemp_l. f_equal. lia.
  - rewrite app_assoc, (length_app (ready ++ line)). cbn. lia.
  - intros j x Hj. rewrite H4, slot_u32. rewrite app_assoc in Hj. destruct (decide (j = length (ready ++ line))) as [->|Hne].
    + rewrite list_lookup_middle in Hj by done. injection Hj as <-. apply list_lookup_insert_eq. rewrite H1. apply slot_range.
    + pose proof (lookup_lt_Some _ _ _ Hj) as Hlt. rewrite length_app in Hlt. cbn in Hlt. rewrite lookup_app_l in Hj by lia.
      rewrite list_lookup_insert_ne; [by apply H6|]. apply slot_ne; lia.
  - rewrite !not_elem_of_app, !list_elem_of_singleton. split; split; naive_solver.
Qed.

(** The same for a character that ends the line. *)
Lemma shows_commit c ready line b : shows c (ready, line) -> Z.of_nat (length (ready ++ line)) < INPUT_BUF_SIZE ->
  let e := u32 (ce c + 1) in shows (mkcons (<[slot (ce c) := b]> (cbuf c)) (cr c) e e) (ready ++ line ++ [b], []).
Proof.
  intros [H1 H2 H3 H4 H5 H6 H7] Hr. cbn [fst snd] in *. cbn zeta.
  assert (u32 (ce c + 1) = u32 (cr c + Z.of_nat (length (ready ++ line ++ [b])))) as Ee.
  { rewrite H4, (app_assoc ready), (length_app (ready ++ line)). cbn. unfold u32. rewrite Zplus_mod_idemp_l. f_equal. lia. }
  constructor; cbn [fst snd cbuf cr cw ce]; rewrite ?app_nil_r.
  - by rewrite length_insert.
  - done.
  - done.
  - done.
  - rewrite (app_assoc ready), (length_app (ready ++ line)). cbn. lia.
  - intros j x Hj. rewrite H4, slot_u32. rewrite app_assoc in Hj. destruct (decide (j = length (ready ++ line))) as [->|Hne].
    + rewrite list_lookup_middle in Hj by done. injection Hj as <-. apply list_lookup_insert_eq. rewrite H1. apply slot_range.
    + pose proof (lookup_lt_Some _ _ _ Hj) as Hlt. rewrite length_app in Hlt. cbn in Hlt. rewrite lookup_app_l in Hj by lia.
      rewrite list_lookup_insert_ne; [by apply H6|]. apply slot_ne; lia.
  - split; apply not_elem_of_nil.
Qed.

(** ** Typing *)
Section Typing.
Context {U : Type}.

(** A step that leaves memory and locks alone. *)
Definition types (s s' : cst U) (t : typed) : Prop := shows (co s') t /\ cus s' = cus s /\ cheld s' = cheld s.

Lemma kill_line_spec : forall line fuel (s : cst U) ready, (length line < fuel)%nat -> shows (co s) (ready, line) ->
  exists s', kill_line fuel s = Ok tt s' /\ types s s' (ready, []).
Proof.
  intros line. induction line as [|b line IH] using rev_ind; intros [|f] s ready Hf Hs; try lia; cbn [kill_line]; rewrite (bind_ok _ _ s (co s) s) by done.
  - rewrite (shows_empty _ _ Hs). cbn. exists s. done.
  - rewrite (shows_empty _ _ Hs). cbn [snd]. rewrite bool_decide_false by (by destruct line). cbn [negb andb].
    destruct (shows_erase _ _ _ _ Hs) as [Hs' Eb]. rewrite Eb. assert (b <> NL) as Hb.
    { destruct (sh_line _ _ Hs) as [Hn _]. cbn in Hn. intros ->. apply Hn. apply elem_of_app. right. by apply list_elem_of_singleton. }
    rewrite (proj2 (Z.eqb_neq b NL)) by done. cbn [negb].
    destruct (IH f (mkcst (set_e (u32 (ce (co s) - 1)) (co s)) (cus s) (echoed s ++ [u8 8] ++ [u8 32] ++ [u8 8]) (cheld s)) ready) as (s' & E & H);
      [rewrite length_app in Hf; cbn in Hf; lia|done|].
    exists s'. split; [|done]. rewrite <- E. unfold consputc, uartputc_sync, setc, modify, bind. cbn. by rewrite <- !app_assoc.
Qed.

Lemma echo_ok c (s : cst U) : exists o, consputc c s = Ok tt (mkcst (co s) (cus s) o (cheld s)).
Proof. unfold consputc. destruct (c =? BACKSPACE); eexists; done. Qed.

(** A character that is stored. *)
Lemma store_spec c (s : cst U) ready line : shows (co s) (ready, line) -> Z.of_nat (length (ready ++ line)) < INPUT_BUF_SIZE ->
  exists s', (consputc c ;;
      setc (fun k => mkcons (<[slot (ce k) := c]> (cbuf k)) (cr k) (cw k) (u32 (ce k + 1))) ;;
      do! k <- getc (fun k => k);
      if (c =? NL) || (c =? CTRL_D) || (u32 (ce k - cr k) =? INPUT_BUF_SIZE) then setc (set_w (ce k)) else ret tt) s = Ok tt s' /\
    types s s' (if (c =? NL) || (c =? CTRL_D) || (Z.of_nat (length (ready ++ line)) + 1 =? INPUT_BUF_SIZE) then (ready ++ line ++ [c], []) else (ready, line ++ [c])).
Proof.
  intros Hs Hr. destruct (echo_ok c s) as [o Eo]. rewrite (bind_ok _ _ _ _ _ Eo). set (k := co s) in *.
  set (k1 := mkcons (<[slot (ce k) := c]> (cbuf k)) (cr k) (cw k) (u32 (ce k + 1))). set (s1 := mkcst k1 (cus s) o (cheld s)).
  rewrite (bind_ok _ _ _ tt s1) by done. rewrite (bind_ok _ _ s1 k1 s1) by done.
  assert (u32 (ce k1 - cr k1) = Z.of_nat (length (ready ++ line)) + 1) as Ecnt.
  { cbn. rewrite (sh_e _ _ Hs). cbn [fst snd]. unfold u32. rewrite Zplus_mod_idemp_l, Zminus_mod_idemp_l. rewrite Z.mod_small; unfold INPUT_BUF_SIZE in *; lia. }
  rewrite Ecnt. destruct ((c =? NL) || (c =? CTRL_D) || _) eqn:Ec.
  - eexists. split; [done|]. split; [|done]. cbn [co]. apply (shows_commit k ready line c Hs Hr).
  - exists s1. split; [done|]. split; [|done]. rewrite !orb_false_iff, !Z.eqb_neq in Ec. destruct Ec as [[Hn Hd] _]. by apply shows_append.
Qed.

Lemma edit_spec c (s : cst U) t : shows (co s) t -> exists s', edit c s = Ok tt s' /\ types s s' (press c t).
Proof.
  intros Hs. destruct t as [ready line]. unfold edit, press. destruct (c =? CTRL_P); [by exists s|]. destruct (c =? CTRL_U).
  { rewrite (bind_ok _ _ s (co s) s) by done. apply (kill_line_spec line); [|done].
    pose proof (sh_room _ _ Hs) as Hr. cbn [fst snd] in Hr. rewrite length_app in Hr. unfold INPUT_BUF_SIZE in Hr.
    replace (u32 (ce (co s) - cw (co s))) with (Z.of_nat (length line)); [lia|]. rewrite (sh_w _ _ Hs), (sh_e _ _ Hs). cbn [fst snd]. rewrite length_app.
    unfold u32. rewrite <- Zminus_mod. replace (_ - _) with (Z.of_nat (length line)) by lia. rewrite Z.mod_small; lia. }
  destruct ((c =? CTRL_H) || (c =? DELETE)).
  { rewrite (bind_ok _ _ s (co s) s) by done. rewrite (shows_empty _ _ Hs). cbn [snd]. destruct (decide (line = [])) as [->|Hne]; [by exists s|].
    rewrite bool_decide_false by done. cbn [negb]. destruct (exists_last Hne) as (l & b & ->). destruct (shows_erase _ _ _ _ Hs) as [Hs' _].
    eexists. split; [done|]. rewrite removelast_last. done. }
  rewrite (bind_ok _ _ s (co s) s) by done. rewrite (shows_count _ _ Hs). cbn [fst snd].
  destruct (negb (c =? 0) && _) eqn:Eroom; [|by exists s]. apply andb_true_iff in Eroom as [_ Hroom%Z.ltb_lt]. by apply store_spec.
Qed.

Lemma consoleintr_step c (s : cst U) t : shows (co s) t -> "cons" ∉ cheld s -> exists s', consoleintr c s = Ok tt s' /\ types s s' (press c t).
Proof.
  intros Hs Hl. unfold consoleintr. rewrite (bind_ok _ _ _ _ _ (acquire_ok (HL := cst_locks) "cons" s Hl)). set (s1 := set_held ("cons" :: held s) s).
  destruct (edit_spec c s1 t Hs) as (s2 & E & H1 & H2 & H3). rewrite (bind_ok _ _ _ _ _ E), (release_head "cons" (cheld s)) by exact H3.
  eexists. split; [done|]. split; [exact H1|]. split; [exact H2|done].
Qed.

Fixpoint consoleintrs (l : list Z) : M (cst U) unit := match l with [] => ret tt | c :: l' => consoleintr c ;; consoleintrs l' end.

(** C32.  Typing at the console: whatever characters arrive, each interrupt
    returns with the lock free, and the ring holds what line editing gives:
    backspace and kill-line change the current line only and never a
    completed one, a newline, a control-D or a full buffer completes the
    line, what does not fit is dropped; at most 128 bytes are kept and the
    32-bit indices may wrap around. *)
Theorem console_edits l (s : cst U) t : shows (co s) t -> "cons" ∉ cheld s ->
  exists s', consoleintrs l s = Ok tt s' /\ shows (co s') (foldl (fun t c => press c t) t l) /\ cus s' = cus s /\ cheld s' = cheld s.
Proof.
  revert s t. induction l as [|c l IH]; intros s t Hs Hl; cbn [consoleintrs foldl]; [by exists s|].
  destruct (consoleintr_step c s t Hs Hl) as (s1 & E & H1 & H2 & H3). rewrite (bind_ok _ _ _ _ _ E).
  destruct (IH s1 (press c t) H1) as (s' & E' & H4 & H5 & H6); [by rewrite H3|]. exists s'. split; [done|]. split; [done|]. split; congruence.
Qed.
End Typing.

(** ** Reading *)
Lemma shows_none c t : shows c t -> (cr c =? cw c) = bool_decide (t.1 = []).
Proof.
  intros H. pose proof (sh_room _ _ H) as Hr. rewrite length_app in Hr. unfold INPUT_BUF_SIZE in Hr. rewrite (sh_w _ _ H).
  rewrite <- (u32_small (cr c)) at 1 by apply H. rewrite <- (Z.add_0_r (cr c)) at 1. rewrite u32_eq_distance by lia.
  destruct t as [[|b ready] line]; cbn [fst length]; [done|]. rewrite bool_decide_false by done. apply Z.eqb_neq. lia.
Qed.

Lemma shows_pop c b ready line : shows c (b :: ready, line) -> shows (set_r (u32 (cr c + 1)) c) (ready, line) /\ cget c (cr c) = b.
Proof.
  intros [H1 H2 H3 H4 H5 H6 H7]. cbn [fst snd app length] in *. split.
  - constructor; cbn [fst snd set_r cbuf cr cw ce].
    + done.
    + apply u32_range.
    + rewrite H3. unfold u32. rewrite Zplus_mod_idemp_l. f_equal. lia.
    + rewrite H4. unfold u32. rewrite Zplus_mod_idemp_l. f_equal. lia.
    + lia.
    + intros j x Hj. rewrite <- (H6 (S j) x Hj). f_equal. rewrite <- slot_u32. unfold u32. rewrite Zplus_mod_idemp_l. change (_ mod 2 ^ 32) with (u32 (cr c + 1 + Z.of_nat j)).
      rewrite slot_u32. f_equal. lia.
    + done.
  - pose proof (H6 0%nat b eq_refl) as E. rewrite Z.add_0_r in E. unfold cget. by rewrite E.
Qed.

Lemma set_r_back c : 0 <= cr c < 2 ^ 32 -> set_r (u32 (cr (set_r (u32 (cr c + 1)) c) - 1)) (set_r (u32 (cr c + 1)) c) = c.
Proof.
  intros H. destruct c as [b r w e]. cbn in *. unfold set_r. cbn. f_equal. unfold u32. rewrite Zminus_mod_idemp_l. replace (r + 1 - 1) with r by lia. by apply Z.mod_small.
Qed.

Section Reading.
Context {U : Type} {HU : UserSpace U} (Hbuf : 1 <= bufsize) (P : Z -> Prop) (killed : bool) (pt target : Z) (line : list Z).

(** A step of a read of [n] more bytes: [bs] goes from the front of the
    completed input to [dst]; [lost] is dropped. *)
Record gave (dst n : Z) (ready : list Z) (V : views) (r : progress) (s' : cst U) (bs lost ready' : list Z) (V' : views) : Prop := {
  gv_queue : ready = bs ++ lost ++ ready';
  gv_shows : shows (co s') (ready', line);
  gv_sees : sees (cus s') P V';
  gv_view : forall p x, x < TRAPFRAME -> is_Some (V p x) -> V' p x = put V pt dst bs p x;
  gv_dom : forall p x, is_Some (V' p x) <-> is_Some (V p x);
  gv_line : (CTRL_D ∉ bs) /\ forall l x, bs = l ++ [x] -> NL ∉ l;
  gv_stop : let m := n - Z.of_nat (length bs) in
    match r with
    | Asleep m' => m' = m /\ 0 < m /\ lost = [] /\ ready' = [] /\ killed = false /\ NL ∉ bs
    | Done x =>
        (x = -1 /\ killed = true /\ lost = [] /\ ready' = [] /\ 0 < m) \/
        (x = target - m /\
         ((lost = [] /\ (m <= 0 \/ last bs = Some NL)) \/
          (lost = [CTRL_D] /\ x = 0) \/ (lost = [] /\ head ready' = Some CTRL_D /\ 0 < x) \/
          (exists b, lost = [b] /\ b <> CTRL_D /\ 0 < m)))
    end
}.

Lemma cleave_ok h r (s : cst U) : cheld s = "cons" :: h -> cleave r s = Ok r (mkcst (co s) (cus s) (echoed s) h).
Proof. intros H. unfold cleave, bind. by rewrite (release_head (HL := cst_locks) "cons" h s) by exact H. Qed.

(** Nothing is delivered. *)
Lemma gave_none dst n ready V r (s' : cst U) lost ready' : ready = lost ++ ready' -> shows (co s') (ready', line) -> sees (cus s') P V ->
  match r with
  | Asleep m' => m' = n /\ 0 < n /\ lost = [] /\ ready' = [] /\ killed = false
  | Done x => (x = -1 /\ killed = true /\ lost = [] /\ ready' = [] /\ 0 < n) \/
      (x = target - n /\ ((lost = [] /\ n <= 0) \/ (lost = [CTRL_D] /\ x = 0) \/ (lost = [] /\ head ready' = Some CTRL_D /\ 0 < x)))
  end -> gave dst n ready V r s' [] lost ready' V.
Proof.
  intros Hq Hs Hv Hr. constructor; try done.
  - intros p x _ _. by rewrite put_nil.
  - split; [apply not_elem_of_nil|]. intros l x E. by destruct l.
  - cbn [length]. rewrite Z.sub_0_r. cbn zeta. destruct r as [x|m'].
    + destruct Hr as [Hr|[Hx [Hr|[Hr|Hr]]]]; [by left|right; split; [done|]..].
      * left. split; [apply Hr|]. left. apply Hr.
      * right; left. done.
      * right; right; left. done.
    + destruct Hr as (-> & H1 & -> & -> & H2). repeat (split; [done|]). apply not_elem_of_nil.
Qed.

(** One more byte in front of what a step gave. *)
Lemma gave_cons dst n b ready V V1 r (s' : cst U) bs lost ready' V' : b <> CTRL_D -> b <> NL -> 0 <= dst ->
  (forall p x, x < TRAPFRAME -> is_Some (V p x) -> V1 p x = put V pt dst [b] p x) -> (forall p x, is_Some (V1 p x) <-> is_Some (V p x)) ->
  gave (dst + 1) (n - 1) ready V1 r s' bs lost ready' V' -> gave dst n (b :: ready) V r s' (b :: bs) lost ready' V'.
Proof.
  intros Hd Hnl Ha Hp Hdom [G1 G2 G3 G4 G5 [G6 G6'] G7]. cbn zeta in G7. replace (n - 1 - Z.of_nat (length bs)) with (n - Z.of_nat (S (length bs))) in G7 by lia. constructor; try done.
  - by rewrite G1.
  - intros p x Hx Hs. rewrite G4 by (try done; by apply Hdom). change (b :: bs) with ([b] ++ bs). rewrite <- (put_app V pt dst [b] bs). cbn [length].
    unfold put at 1 2. change (Z.of_nat 1) with 1. destruct (decide (p = pt /\ dst + 1 <= x < dst + 1 + Z.of_nat (length bs))); [done|]. by apply Hp.
  - intros p x. by rewrite G5.
  - split; [by apply not_elem_of_cons|]. intros [|y l] x E; [apply not_elem_of_nil|]. injection E as <- E. apply not_elem_of_cons. split; [done|]. by apply (G6' l x).
  - cbn [length]. cbn zeta. destruct r as [x|m'].
    + destruct G7 as [G7|[Hx G7]]; [by left|]. right. split; [done|]. destruct G7 as [[H1 [H2|H2]]|G7]; [left; split; [done|]; by left| |by right].
      left. split; [done|]. right. by destruct bs.
    + destruct G7 as (H1 & H2 & H3 & H4 & H5 & H6). repeat (split; [done|]). by apply not_elem_of_cons.
Qed.

Lemma consoleread_loop_spec h : P pt -> forall fuel dst n ready V (s : cst U), (Z.to_nat n < fuel)%nat -> n <= target -> 0 <= dst -> dst + Z.max 0 n < 2 ^ 64 ->
  shows (co s) (ready, line) -> Forall byte_ok ready -> sees (cus s) P V -> cheld s = "cons" :: h ->
  exists r s' bs lost ready' V', consoleread_loop fuel killed pt dst n target s = Ok r s' /\ cheld s' = h /\ gave dst n ready V r s' bs lost ready' V'.
Proof.
  intros Hpt. induction fuel as [|f IH]; intros dst n ready V s Hf Hnt Ha Hn Hs Hby Hv Hh; [lia|]. cbn [consoleread_loop].
  destruct (Z.ltb_spec 0 n) as [Hpos|Hpos].
  2:{ rewrite (cleave_ok h) by done. eexists _, _, [], [], ready, V. split; [done|]. split; [done|]. apply gave_none; [done|done|done|]. right. split; [done|]. by left. }
  rewrite (bind_ok _ _ s (co s) s) by done. rewrite (shows_none _ _ Hs). cbn [fst]. destruct ready as [|b ready].
  { rewrite bool_decide_true by done. destruct killed eqn:Ek; rewrite (cleave_ok h) by done; eexists _, _, [], [], [], V; (split; [done|]); (split; [done|]); apply gave_none; try done. by left. }
  rewrite bool_decide_false by done. destruct (shows_pop _ _ _ _ Hs) as [Hs1 Eb]. rewrite Eb. cbn zeta.
  set (s1 := mkcst (set_r (u32 (cr (co s) + 1)) (co s)) (cus s) (echoed s) (cheld s)). rewrite (bind_ok _ _ s tt s1) by done.
  destruct (Z.eqb_spec b CTRL_D) as [->|Hd].
  { destruct (Z.ltb_spec n target) as [Hlt|Hge].
    - rewrite (bind_ok _ _ s1 tt (mkcst (co s) (cus s) (echoed s) (cheld s))) by (unfold setc, modify, s1; cbn [co cus echoed cheld]; by rewrite set_r_back by apply Hs).
      rewrite (cleave_ok h) by done. eexists _, _, [], [], (CTRL_D :: ready), V. split; [done|]. split; [done|]. apply gave_none; [done|done|done|].
      right. split; [done|]. right; right. split; [done|]. split; [done|lia].
    - rewrite (bind_ok _ _ s1 tt s1) by done. rewrite (cleave_ok h) by done. eexists _, _, [], [CTRL_D], ready, V. split; [done|]. split; [done|].
      apply gave_none; [done|done|done|]. right. split; [done|]. right; left. split; [done|lia]. }
  apply Forall_cons in Hby as [Hb Hby].
  destruct (copy_out_law (cus s) P pt V dst [b] Hv Hpt) as (ok & u' & k & V1 & E & Hv1 & HV1 & Hdom & Hok); [lia|by constructor|cbn; lia|].
  rewrite (bind_ok _ _ s1 ok (mkcst (co s1) u' (echoed s) (cheld s))) by (unfold memory, zoom; cbn [cus s1]; by rewrite E). destruct ok.
  2:{ rewrite (cleave_ok h) by done. eexists _, _, [], [b], ready, V1. split; [done|]. split; [done|]. assert (k = 0%nat) as -> by (cbn in Hok; lia).
      constructor; try done; [split; [apply not_elem_of_nil|]; intros l x El; by destruct l|]. cbn [length]. rewrite Z.sub_0_r. right. split; [done|]. right; right; right. by exists b. }
  subst k. cbn [take length] in HV1. destruct (Z.eqb_spec b NL) as [->|Hnl].
  { rewrite (cleave_ok h) by done. eexists _, _, [NL], [], ready, V1. split; [done|]. split; [done|]. constructor; try done.
    - split; [by apply not_elem_of_cons; split; [|apply not_elem_of_nil]|]. intros [|y l] x El; [apply not_elem_of_nil|]. injection El as _ El. by destruct l.
    - cbn [length]. right. split; [lia|]. left. split; [done|]. by right. }
  rewrite (u64_small (dst + 1)) by lia.
  destruct (IH (dst + 1) (n - 1) ready V1 (mkcst (co s1) u' (echoed s) (cheld s))) as (r & s' & bs & lost & ready' & V' & E' & Hh' & G); try done; [lia..|].
  exists r, s', (b :: bs), lost, ready', V'. split; [done|]. split; [done|]. by apply (gave_cons dst n b ready V V1).
Qed.

(** [consoleread], from the start or after a sleep, delivers completed
    input in order, at most to the end of a line, and returns the number of
    bytes; it sleeps only when it has delivered all completed input and the
    line has not ended.  A control-D ends the read: after other bytes it is
    kept, so that the next read returns 0, and a read that finds it first
    drops it and returns 0.  A byte that cannot be stored is dropped. *)
Theorem consoleread_delivers dst n ready V (s : cst U) : P pt -> n <= target -> 0 <= dst -> dst + Z.max 0 n < 2 ^ 64 ->
  shows (co s) (ready, line) -> Forall byte_ok ready -> sees (cus s) P V -> "cons" ∉ cheld s ->
  exists r s' bs lost ready' V', consoleread killed pt dst n target s = Ok r s' /\ cheld s' = cheld s /\ gave dst n ready V r s' bs lost ready' V'.
Proof.
  intros Hpt Hnt Ha Hn Hs Hby Hv Hl. unfold consoleread. rewrite (bind_ok _ _ _ _ _ (acquire_ok (HL := cst_locks) "cons" s Hl)).
  by apply (consoleread_loop_spec (cheld s) Hpt _ dst n ready V (set_held ("cons" :: held s) s)); [lia|..].
Qed.
End Reading.

(** ** Examples *)
Definition quiet : cons := mkcons (replicate 128 0) (2 ^ 32 - 1) (2 ^ 32 - 1) (2 ^ 32 - 1).
Lemma quiet_shows : shows quiet ([], []).
Proof. constructor; try done. split; apply not_elem_of_nil. Qed.

(** "hi", delete, newline. *)
Lemma console_edits_witness : exists s' : cst machine, consoleintrs [104; 105; 127; 10] (mkcst quiet (mkmachine ∅ 0 ∅ []) [] []) = Ok tt s' /\ shows (co s') ([104; 10], []).
Proof.
  destruct (console_edits [104; 105; 127; 10] (mkcst quiet (mkmachine ∅ 0 ∅ []) [] []) ([], [])) as (s' & E & H & _).
  - apply quiet_shows.
  - apply not_elem_of_nil.
  - exists s'. split; [exact E|exact H].
Defined.

Lemma consoleread_delivers_witness : exists (s s' : cst machine) pt r, co s = quiet /\ @consoleread machine demo_user false pt 100 5 5 s = Ok r s'.
Proof.
  destruct demo_sees as (u & pt & V & Hv). exists (mkcst quiet u [] []).
  destruct (@consoleread_delivers machine demo_user ltac:(done) (eq pt) false pt 5 [] 100 5 [] V (mkcst quiet u [] [])) as (r & s' & bs & lost & ready' & V' & E & _).
  - done.
  - done.
  - done.
  - done.
  - apply quiet_shows.
  - constructor.
  - exact Hv.
  - apply not_elem_of_nil.
  - exists s', pt, r. split; [reflexivity|exact E].
Defined.
