(* ===== verification/Sh.v ===== *)
(** * user/sh.c: parsing a command line

    The line is the array [buf]; its characters are read with bounds, so that
    a read outside the array is [Undef].  The parser's cursor ([*ps]) and the
    command nodes it allocates are its state: a node has an address, 0 is the
    null pointer, and [parseexec] fills in its node after [parseredirs] has
    wrapped others around it, as in the code.  A call of the shell's [panic],
    which prints a message and exits, is [Panic].  Whether the n-th [malloc]
    succeeds is a parameter; when it returns 0 the constructor's [memset]
    writes through a null pointer. *)

From S2P Require Import Prelude Riscv.
Local Open Scope Z_scope.

Definition MAXARGS : nat := 10.

Definition LT : Z := 60.
Definition BAR : Z := 124.
Definition GT : Z := 62.
Definition AMP : Z := 38.
Definition SEMI : Z := 59.
Definition LPAR : Z := 40.
Definition RPAR : Z := 41.
(** ['+'], the token for [>>], and ['a'], the token for a word. *)
Definition PLUS : Z := 43.
Definition WORD : Z := 97.

Definition whitespace : list Z := [32; 9; 13; 10; 11].
Definition symbols : list Z := [LT; BAR; GT; AMP; SEMI; LPAR; RPAR].

(** [strchr(s, c)] is not null; [s] without its NUL.  A NUL is never found. *)
Fixpoint strchr (s : list Z) (c : Z) : bool :=
  match s with [] => false | x :: s' => if x =? c then true else strchr s' c end.

(** [strlen(buf)], if the array holds a NUL. *)
Fixpoint strlen (buf : list Z) : option nat :=
  match buf with
  | [] => None
  | c :: buf' => if c =? 0 then Some O else option_map S (strlen buf')
  end.

(** ** Commands

    An argument is a pair of pointers into the line: its first character and
    the one behind its last. *)
Inductive node :=
| EXEC (argv eargv : list (option nat))
| REDIR (cmd : nat) (file efile : nat) (mode fd : Z)
| PIPE (left right : nat)
| LIST (left right : nat)
| BACK (cmd : nat).

Record parser := mkparser { buf : list Z; cur : nat; nodes : list node }.

Abbreviation PM := (M parser).

(** The node at an address. *)
Definition node_at (l : list node) (p : nat) : option node :=
  match p with O => None | S i => l !! i end.

Definition set_node (p : nat) (x : node) (s : parser) : parser :=
  mkparser (buf s) (cur s) (match p with O => nodes s | S i => <[i := x]> (nodes s) end).

(** [*p], a character of the line. *)
Definition char_at (p : nat) : PM Z := fun s =>
  match buf s !! p with Some c => Ok c s | None => Undef end.
(** [*p = 0] *)
Definition put_nul (p : nat) : PM unit := fun s =>
  if (p <? length (buf s))%nat then Ok tt (mkparser (<[p := 0]> (buf s)) (cur s) (nodes s)) else Undef.
Definition set_cur (p : nat) : PM unit := modify (fun s => mkparser (buf s) p (nodes s)).

(** ** Tokens *)

(** [while(s < es && strchr(whitespace, *s)) s++;] with [n = es - s]. *)
Fixpoint skip_space (n s : nat) : PM nat :=
  match n with
  | O => ret s
  | S n' => do! c <- char_at s; if strchr whitespace c then skip_space n' (S s) else ret s
  end.

(** [while(s < es && !strchr(whitespace, *s) && !strchr(symbols, *s)) s++;] *)
Fixpoint skip_word (n s : nat) : PM nat :=
  match n with
  | O => ret s
  | S n' =>
      do! c <- char_at s;
      if negb (strchr whitespace c) && negb (strchr symbols c) then skip_word n' (S s) else ret s
  end.

(** [gettoken(ps, es, &q, &eq)]: the token, [q] and [eq]. *)
Definition gettoken (es : nat) : PM (Z * nat * nat) :=
  do! s0 <- gets cur;
  do! q <- skip_space (es - s0) s0;
  do! c <- char_at q;
  do! r <- (if c =? 0 then ret (c, q)
            else if strchr [BAR; LPAR; RPAR; SEMI; AMP; LT] c then ret (c, S q)
            else if c =? GT then
              do! d <- char_at (S q);
              if d =? GT then ret (PLUS, S (S q)) else ret (c, S q)
            else
              do! e <- skip_word (es - q) q; ret (WORD, e));
  do! s1 <- skip_space (es - r.2) r.2;
  set_cur s1 ;;
  ret (r.1, q, r.2).

Definition peek (es : nat) (toks : list Z) : PM bool :=
  do! s0 <- gets cur;
  do! s <- skip_space (es - s0) s0;
  set_cur s ;;
  do! c <- char_at s;
  ret (negb (c =? 0) && strchr toks c).

Section Parser.
(** Whether [malloc] can deliver the node at this address. *)
Variable memory : nat -> bool.

(** ** Constructors *)
Definition alloc (x : node) : PM nat := fun s =>
  let p := S (length (nodes s)) in
  if memory p then Ok p (mkparser (buf s) (cur s) (nodes s ++ [x])) else Undef.

Definition execcmd : PM nat := alloc (EXEC (replicate MAXARGS None) (replicate MAXARGS None)).
Definition redircmd (subcmd file efile : nat) (mode fd : Z) : PM nat := alloc (REDIR subcmd file efile mode fd).
Definition pipecmd (left right : nat) : PM nat := alloc (PIPE left right).
Definition listcmd (left right : nat) : PM nat := alloc (LIST left right).
Definition backcmd (subcmd : nat) : PM nat := alloc (BACK subcmd).

(** [cmd->argv[i] = q; cmd->eargv[i] = eq;] *)
Definition set_arg (p i : nat) (q : option (nat * nat)) : PM unit := fun s =>
  match node_at (nodes s) p with
  | Some (EXEC argv eargv) =>
      if (i <? length argv)%nat && (i <? length eargv)%nat
      then Ok tt (set_node p (EXEC (<[i := fst <$> q]> argv) (<[i := snd <$> q]> eargv)) s)
      else Undef
  | _ => Undef
  end.

(** ** The parser

    Every loop consumes input; [n] bounds its rounds. *)
Fixpoint redirs_loop (n : nat) (cmd es : nat) : PM nat :=
  do! more <- peek es [LT; GT];
  if negb more then ret cmd
  else match n with
       | O => hang
       | S n' =>
           do! tok <- gettoken es;
           do! file <- gettoken es;
           if negb (file.1.1 =? WORD) then panic "missing file for redirection"
           else
             do! cmd' <- (if tok.1.1 =? LT then redircmd cmd file.1.2 file.2 O_RDONLY 0
                          else if tok.1.1 =? GT then redircmd cmd file.1.2 file.2 (Z.lor (Z.lor O_WRONLY O_CREATE) O_TRUNC) 1
                          else if tok.1.1 =? PLUS then redircmd cmd file.1.2 file.2 (Z.lor O_WRONLY O_CREATE) 1
                          else ret cmd);
             redirs_loop n' cmd' es
       end.

Definition parseredirs (cmd es : nat) : PM nat :=
  do! s <- gets cur; redirs_loop (es - s) cmd es.

(** The loop of [parseexec]; [cmd] is the node of the program, [rt] the
    command so far. *)
Fixpoint args_loop (n : nat) (cmd argc rt es : nat) : PM (nat * nat) :=
  do! stop <- peek es [BAR; RPAR; AMP; SEMI];
  if stop then ret (argc, rt)
  else match n with
       | O => hang
       | S n' =>
           do! tok <- gettoken es;
           if tok.1.1 =? 0 then ret (argc, rt)
           else if negb (tok.1.1 =? WORD) then panic "syntax"
           else
             set_arg cmd argc (Some (tok.1.2, tok.2)) ;;
             if (MAXARGS <=? S argc)%nat then panic "too many args"
             else do! rt' <- parseredirs rt es; args_loop n' cmd (S argc) rt' es
       end.

(** The part of [parseexec] for a program; the part before is [parseblock]'s. *)
Definition parseprog (es : nat) : PM nat :=
  do! cmd <- execcmd;
  do! rt <- parseredirs cmd es;
  do! s <- gets cur;
  do! r <- args_loop (S (es - s)) cmd 0 rt es;
  set_arg cmd r.1 None ;;
  ret r.2.

(** The loop of [parseline]. *)
Fixpoint back_loop (n : nat) (cmd es : nat) : PM nat :=
  do! more <- peek es [AMP];
  if negb more then ret cmd
  else match n with
       | O => hang
       | S n' => do! _ <- gettoken es; do! cmd' <- backcmd cmd; back_loop n' cmd' es
       end.

(** [f] bounds the depth of the calls. *)
Fixpoint parseline (f es : nat) : PM nat :=
  match f with
  | O => hang
  | S f' =>
      do! c <- parsepipe f' es;
      do! s <- gets cur;
      do! cmd <- back_loop (es - s) c es;
      do! more <- peek es [SEMI];
      if more then do! _ <- gettoken es; do! rest <- parseline f' es; listcmd cmd rest
      else ret cmd
  end
with parsepipe (f es : nat) : PM nat :=
  match f with
  | O => hang
  | S f' =>
      do! cmd <- parseexec f' es;
      do! more <- peek es [BAR];
      if more then do! _ <- gettoken es; do! rest <- parsepipe f' es; pipecmd cmd rest
      else ret cmd
  end
with parseexec (f es : nat) : PM nat :=
  match f with
  | O => hang
  | S f' =>
      do! block <- peek es [LPAR];
      if block then parseblock f' es else parseprog es
  end
with parseblock (f es : nat) : PM nat :=
  match f with
  | O => hang
  | S f' =>
      do! opened <- peek es [LPAR];
      if negb opened then panic "parseblock"
      else
        do! _ <- gettoken es;
        do! cmd <- parseline f' es;
        do! closed <- peek es [RPAR];
        if negb closed then panic "syntax - missing )"
        else do! _ <- gettoken es; parseredirs cmd es
  end.

(** ** NUL-terminating the words *)

(** [for(i=0; ecmd->argv[i]; i++) *ecmd->eargv[i] = 0;]  The array ends with
    a null pointer; without one the loop would leave it. *)
Fixpoint terminate_args (argv eargv : list (option nat)) : PM unit :=
  match argv, eargv with
  | None :: _, _ => ret tt
  | Some _ :: argv', Some e :: eargv' => put_nul e ;; terminate_args argv' eargv'
  | _, _ => undef
  end.

(** A node's subcommands were allocated before it, so [p] bounds the depth. *)
Fixpoint nulterminate (n : nat) (p : nat) : PM unit :=
  match p with
  | O => ret tt
  | S _ =>
      match n with
      | O => hang
      | S n' =>
          do! l <- gets nodes;
          match node_at l p with
          | Some (EXEC argv eargv) => terminate_args argv eargv
          | Some (REDIR c _ efile _ _) => nulterminate n' c ;; put_nul efile
          | Some (PIPE l r) => nulterminate n' l ;; nulterminate n' r
          | Some (LIST l r) => nulterminate n' l ;; nulterminate n' r
          | Some (BACK c) => nulterminate n' c
          | None => undef
          end
      end
  end.

Definition parsecmd : PM nat :=
  do! b <- gets buf;
  match strlen b with
  | None => undef
  | Some es =>
      set_cur 0 ;;
      do! cmd <- parseline (4 * es + 4) es;
      do! _ <- peek es [];
      do! s <- gets cur;
      if negb (s =? es)%nat then panic "syntax"
      else nulterminate cmd cmd ;; ret cmd
  end.
End Parser.

(** ** Trees

    What the nodes at an address represent; a word is its range. *)
Inductive cmd :=
| Exec (argv : list (nat * nat))
| Redir (c : cmd) (file : nat * nat) (mode fd : Z)
| Pipe (l r : cmd)
| Seq (l r : cmd)
| Back (c : cmd).

(** The arrays of a program's node after [parseexec]: the words, then a null
    pointer in both. *)
Definition arrays (ws : list (nat * nat)) (argv eargv : list (option nat)) : Prop :=
  (length ws < MAXARGS)%nat /\
  argv = (Some ∘ fst <$> ws) ++ replicate (MAXARGS - length ws) None /\
  eargv = (Some ∘ snd <$> ws) ++ replicate (MAXARGS - length ws) None.

Inductive tree (l : list node) : nat -> cmd -> Prop :=
| tree_exec p ws argv eargv : node_at l p = Some (EXEC argv eargv) -> arrays ws argv eargv -> tree l p (Exec ws)
| tree_redir p q c f e mode fd : node_at l p = Some (REDIR q f e mode fd) -> (q < p)%nat -> tree l q c -> tree l p (Redir c (f, e) mode fd)
| tree_pipe p q r c d : node_at l p = Some (PIPE q r) -> (q < p)%nat -> (r < p)%nat -> tree l q c -> tree l r d -> tree l p (Pipe c d)
| tree_list p q r c d : node_at l p = Some (LIST q r) -> (q < p)%nat -> (r < p)%nat -> tree l q c -> tree l r d -> tree l p (Seq c d)
| tree_back p q c : node_at l p = Some (BACK q) -> (q < p)%nat -> tree l q c -> tree l p (Back c).
