(* ===== verification/ShLex.v ===== *)
(** * The tokens of a command line

    [tokens] is a definition of the shell's lexical syntax by recursion on the
    characters; [peek] and [gettoken] are proved to look at and to consume its
    head, so that the parser can be reasoned about on lists of tokens. *)

From S2P Require Import Prelude Riscv Sh.
Local Open Scope Z_scope.

(** A word is the range of its characters; [>>] is [Sym PLUS]. *)
Inductive tok := Word (q e : nat) | Sym (c : Z).

Definition wordchar (c : Z) : bool := negb (strchr whitespace c) && negb (strchr symbols c).

Definition starts_word (l : list Z) : bool := match l with c :: _ => wordchar c | [] => false end.

(** The tokens of [l], whose first character is at position [p]. *)
Fixpoint tokens (p : nat) (l : list Z) : list tok :=
  match l with
  | [] => []
  | c :: l' =>
      if strchr whitespace c then tokens (S p) l'
      else if c =? GT then
        match l' with
        | d :: l'' => if d =? GT then Sym PLUS :: tokens (S (S p)) l'' else Sym GT :: tokens (S p) l'
        | [] => [Sym GT]
        end
      else if strchr symbols c then Sym c :: tokens (S p) l'
      else if starts_word l' then
        match tokens (S p) l' with Word _ e :: ts => Word p e :: ts | ts => ts end
      else Word p (S p) :: tokens (S p) l'
  end.

(** The character [peek] sees at a token. *)
Definition lead (t : tok) : Z := match t with Sym c => if c =? PLUS then GT else c | Word _ _ => WORD end.

(** [q, e] are the bounds of a maximal word of [text]. *)
Definition word_in (text : list Z) (w : nat * nat) : Prop :=
  (w.1 < w.2 <= length text)%nat /\
  (forall i c, (w.1 <= i < w.2)%nat -> text !! i = Some c -> wordchar c = true) /\
  (forall c, text !! w.2 = Some c -> wordchar c = false).

(** ** Runs of characters *)
Fixpoint run (f : Z -> bool) (l : list Z) : nat :=
  match l with c :: l' => if f c then S (run f l') else O | [] => O end.

Lemma run_le f l : (run f l <= length l)%nat.
Proof. induction l as [|c l IH]; cbn; [lia|]. case_match; lia. Qed.

Lemma run_stop f l c : l !! run f l = Some c -> f c = false.
Proof. induction l as [|d l IH]; cbn; [done|]. destruct (f d) eqn:E; cbn; naive_solver. Qed.

Lemma run_in f l i c : (i < run f l)%nat -> l !! i = Some c -> f c = true.
Proof.
  revert i. induction l as [|d l IH]; intros i; cbn; [lia|]. destruct (f d) eqn:E; [|lia].
  destruct i; cbn; [naive_solver|]. intros. eapply IH; [|done]. lia.
Qed.

Lemma tokens_space p l : tokens p l = tokens (p + run (strchr whitespace) l) (drop (run (strchr whitespace) l) l).
Proof.
  revert p. induction l as [|c l IH]; intros p; cbn [tokens run].
  - done.
  - destruct (strchr whitespace c) eqn:E.
    + cbn [drop]. rewrite IH. f_equal. lia.
    + rewrite Nat.add_0_r. cbn [drop tokens]. by rewrite E.
Qed.

Lemma starts_word_run l : starts_word l = true -> (0 < run wordchar l)%nat.
Proof. destruct l as [|c l]; [done|]. cbn. intros ->. lia. Qed.

Lemma wordchar_not c : wordchar c = true -> strchr whitespace c = false /\ (c =? GT) = false /\ strchr symbols c = false.
Proof.
  unfold wordchar. intros [H1%negb_true_iff H2%negb_true_iff]%andb_true_iff.
  split_and!; try done. revert H2. cbn. destruct (c =? GT) eqn:E; [|done].
  apply Z.eqb_eq in E. by subst c.
Qed.

Lemma tokens_word p l : starts_word l = true ->
  tokens p l = Word p (p + run wordchar l) :: tokens (p + run wordchar l) (drop (run wordchar l) l).
Proof.
  revert p. induction l as [|c l IH]; intros p Hw; [done|]. cbn in Hw.
  destruct (wordchar_not c Hw) as (E1 & E2 & E3).
  cbn [tokens run]. rewrite E1, E2, E3, Hw. cbn [drop].
  destruct (starts_word l) eqn:Es.
  - rewrite (IH _ eq_refl). by rewrite <- !Nat.add_succ_comm.
  - replace (run wordchar l) with O by (destruct l as [|d l]; cbn in *; [done|by rewrite Es]).
    rewrite Nat.add_1_r. by cbn.
Qed.

Lemma tokens_length p l : (length (tokens p l) <= length l)%nat.
Proof.
  revert p. induction l as [l IH] using (induction_ltof1 _ (@length Z)); intros p. unfold ltof in IH.
  destruct l as [|c l]; [done|]. cbn [tokens length].
  assert (H1 : forall q, (length (tokens q l) <= length l)%nat) by (intros; apply IH; cbn; lia).
  specialize (H1 (S p)).
  destruct (strchr whitespace c); [lia|]. destruct (c =? GT).
  - destruct l as [|d l]; [cbn; lia|]. destruct (d =? GT); [|cbn [length] in *; lia].
    assert (H2 := IH l ltac:(cbn; lia) (S (S p))). cbn [length]. lia.
  - destruct (strchr symbols c); [cbn [length]; lia|]. destruct (starts_word l).
    + destruct (tokens (S p) l) as [|[] ?]; cbn [length] in *; lia.
    + cbn [length]. lia.
Qed.

(** [toks] are symbols. *)
Definition are_symbols (toks : list Z) : bool := forallb (strchr symbols) toks.

Lemma strchr_elem s c : strchr s c = true <-> c ∈ s.
Proof.
  induction s as [|x s IH]; cbn; [set_solver|]. rewrite elem_of_cons. case_match; boolz; naive_solver.
Qed.

Lemma strchr_symbols toks c : are_symbols toks = true -> strchr toks c = true -> strchr symbols c = true.
Proof. unfold are_symbols. rewrite forallb_forall. intros H Hc%strchr_elem%list_elem_of_In. by apply H. Qed.

Lemma strchr_notin toks c : are_symbols toks = true -> strchr symbols c = false -> strchr toks c = false.
Proof. intros H Hc. destruct (strchr toks c) eqn:E; [|done]. by rewrite (strchr_symbols _ _ H E) in Hc. Qed.

(** What [peek] answers before the tokens [ts]. *)
Definition looks (toks : list Z) (ts : list tok) : bool :=
  match ts with t :: _ => strchr toks (lead t) | [] => false end.

(** The first token behind white space. *)
Lemma tokens_head toks p c l : strchr whitespace c = false -> are_symbols toks = true ->
  tokens p (c :: l) <> [] /\ looks toks (tokens p (c :: l)) = strchr toks c.
Proof.
  intros Hs Ht. destruct (wordchar c) eqn:Hw.
  - rewrite tokens_word by done. split; [done|]. cbn [looks lead].
    rewrite (strchr_notin toks c) by (done || apply wordchar_not, Hw). by apply strchr_notin.
  - cbn [tokens]. rewrite Hs. destruct (c =? GT) eqn:Eg.
    + apply Z.eqb_eq in Eg. subst c. destruct l as [|d l]; [done|]. by destruct (d =? GT).
    + destruct (strchr symbols c) eqn:Ec.
      * split; [done|]. cbn [looks lead]. destruct (c =? PLUS) eqn:Ep; [|done].
        apply Z.eqb_eq in Ep. by subst c.
      * exfalso. revert Hw. unfold wordchar. by rewrite Hs, Ec.
Qed.

Section Input.
Variables text junk : list Z.
Hypothesis nonzero : Forall (fun c => c <> 0) text.

(** The parser is inside the line [text], before the tokens [ts]. *)
Definition input (s : parser) (ts : list tok) : Prop :=
  buf s = text ++ 0 :: junk /\ (cur s <= length text)%nat /\ tokens (cur s) (drop (cur s) text) = ts.

Lemma char_at_line s p : buf s = text ++ 0 :: junk -> (p <= length text)%nat ->
  char_at p s = Ok (default 0 (text !! p)) s.
Proof.
  intros Hb Hp. unfold char_at. rewrite Hb. destruct (decide (p < length text)%nat).
  - rewrite lookup_app_l by done. destruct (lookup_lt_is_Some_2 text p) as [c Hc]; [done|]. by rewrite Hc.
  - replace p with (length text) by lia. rewrite lookup_app_r by lia.
    rewrite Nat.sub_diag. cbn. by rewrite lookup_ge_None_2 by lia.
Qed.

Lemma drop_cons_lookup (p : nat) : (p < length text)%nat ->
  exists c, text !! p = Some c /\ drop p text = c :: drop (S p) text.
Proof. intros Hp. destruct (lookup_lt_is_Some_2 text p Hp) as [c Hc]. exists c. split; [done|]. by apply drop_S. Qed.

Lemma skip_space_run s p : buf s = text ++ 0 :: junk -> (p <= length text)%nat ->
  skip_space (length text - p) p s = Ok (p + run (strchr whitespace) (drop p text))%nat s.
Proof.
  intros Hb. remember (length text - p)%nat as n eqn:En. revert p En. induction n as [|n IH]; intros p En Hp.
  - rewrite drop_ge by lia. cbn. by rewrite Nat.add_0_r.
  - cbn [skip_space]. unfold bind. rewrite char_at_line by done.
    destruct (drop_cons_lookup p ltac:(lia)) as (c & Hc & ->). rewrite Hc. cbn [default run].
    unfold from_option, id. destruct (strchr whitespace c); [|unfold ret; f_equal; lia].
    rewrite IH by lia. f_equal. lia.
Qed.

Lemma skip_word_run s p : buf s = text ++ 0 :: junk -> (p <= length text)%nat ->
  skip_word (length text - p) p s = Ok (p + run wordchar (drop p text))%nat s.
Proof.
  intros Hb. remember (length text - p)%nat as n eqn:En. revert p En. induction n as [|n IH]; intros p En Hp.
  - rewrite drop_ge by lia. cbn. by rewrite Nat.add_0_r.
  - cbn [skip_word]. unfold bind. rewrite char_at_line by done.
    destruct (drop_cons_lookup p ltac:(lia)) as (c & Hc & ->). rewrite Hc. cbn [default run].
    unfold from_option, id. change (negb _ && negb _) with (wordchar c).
    destruct (wordchar c); [|unfold ret; f_equal; lia].
    rewrite IH by lia. f_equal. lia.
Qed.

Lemma run_drop_le f p : (p <= length text)%nat -> (p + run f (drop p text) <= length text)%nat.
Proof. intros Hp. assert (H := run_le f (drop p text)). rewrite length_drop in H. lia. Qed.

Lemma tokens_skip p : tokens p (drop p text) =
  tokens (p + run (strchr whitespace) (drop p text)) (drop (p + run (strchr whitespace) (drop p text)) text).
Proof. rewrite tokens_space. by rewrite drop_drop. Qed.

(** Behind the white space there is the end of the line or another character. *)
Lemma after_space p : (p <= length text)%nat ->
  let p' := (p + run (strchr whitespace) (drop p text))%nat in
  (p' = length text /\ drop p' text = []) \/
  (exists c, (p' < length text)%nat /\ text !! p' = Some c /\ c <> 0 /\ drop p' text = c :: drop (S p') text /\ strchr whitespace c = false).
Proof.
  intros Hp p'. assert (Hle := run_drop_le (strchr whitespace) p Hp). fold p' in Hle.
  destruct (decide (p' = length text)) as [E|E].
  - left. split; [done|]. by apply drop_ge; lia.
  - right. destruct (drop_cons_lookup p' ltac:(lia)) as (c & Hc & Hd). exists c. split_and!; try done; [lia| |].
    + by apply (Forall_lookup_1 _ _ _ _ nonzero Hc).
    + apply (run_stop (strchr whitespace) (drop p text)). rewrite lookup_drop. exact Hc.
Qed.

Lemma peek_tokens s ts toks : input s ts -> are_symbols toks = true ->
  exists s', peek (length text) toks s = Ok (looks toks ts) s' /\ input s' ts /\ nodes s' = nodes s /\ (ts = [] <-> cur s' = length text).
Proof.
  intros (Hb & Hp & Ht) Hs. unfold peek, bind, gets, ret, set_cur, modify.
  rewrite skip_space_run by done. set (p' := (cur s + run _ _)%nat). cbn.
  assert (Hle := run_drop_le (strchr whitespace) (cur s) Hp).
  rewrite char_at_line by done. rewrite tokens_skip in Ht. fold p' in Ht, Hle.
  exists (mkparser (buf s) p' (nodes s)). split; [|split; [split_and!; done|split; [done|]]].
  - f_equal. assert (Ha := after_space (cur s) Hp). cbn zeta in Ha. fold p' in Ha. destruct Ha as [[E Hd]|(c & Hlt & Hc & Hz & Hd & Hw)].
    + rewrite Hd in Ht. cbn in Ht. subst ts. by rewrite E, lookup_ge_None_2 by lia.
    + rewrite Hc, <- Ht, Hd. cbn [default]. unfold from_option, id.
      rewrite (proj2 (Z.eqb_neq _ _) Hz). cbn [negb andb]. symmetry. by apply tokens_head.
  - cbn. assert (Ha := after_space (cur s) Hp). cbn zeta in Ha. fold p' in Ha. destruct Ha as [[E Hd]|(c & Hlt & Hc & Hz & Hd & Hw)].
    + rewrite Hd in Ht. cbn in Ht. by subst ts.
    + rewrite <- Ht, Hd. split; [|lia]. intros E. by destruct (tokens_head [] p' c (drop (S p') text) Hw eq_refl).
Qed.

(** The token as [gettoken] returns it. *)
Definition code (t : tok) : Z := match t with Word _ _ => WORD | Sym c => c end.

Lemma gettoken_nil s : input s [] -> exists s' q e, gettoken (length text) s = Ok (0, q, e) s' /\ input s' [] /\ nodes s' = nodes s.
Proof.
  intros (Hb & Hp & Ht). unfold gettoken, bind, gets. rewrite skip_space_run by done.
  set (p' := (cur s + run _ _)%nat). rewrite tokens_skip in Ht. fold p' in Ht.
  assert (Ha := after_space (cur s) Hp). cbn zeta in Ha. fold p' in Ha. destruct Ha as [[E Hd]|(c & Hlt & Hc & Hz & Hd & Hw)].
  - rewrite char_at_line by (done || lia). rewrite lookup_ge_None_2 by lia. cbn [default from_option].
    rewrite Z.eqb_refl. unfold ret. cbn [snd]. rewrite E, Nat.sub_diag. cbn.
    do 3 eexists. split; [done|]. split; [|done]. split_and!; cbn; [done|done|]. by rewrite drop_all.
  - exfalso. rewrite Hd in Ht. by destruct (tokens_head [] p' c (drop (S p') text) Hw eq_refl).
Qed.

(** What [gettoken] does once it has recognised a token that ends at [e]. *)
Lemma gettoken_rest s (q : nat) (c : Z) e ts : buf s = text ++ 0 :: junk -> (e <= length text)%nat -> tokens e (drop e text) = ts ->
  exists s', (do! s1 <- skip_space (length text - e) e; set_cur s1 ;; ret (c, q, e)) s = Ok (c, q, e) s' /\
    input s' ts /\ nodes s' = nodes s.
Proof.
  intros Hb He Ht. unfold bind. rewrite skip_space_run by done. eexists. split; [done|]. split; [|done].
  split_and!; cbn; [done|by apply run_drop_le|]. by rewrite <- tokens_skip.
Qed.

Lemma simple_symbol c : strchr whitespace c = false -> wordchar c = false -> c <> GT ->
  strchr [BAR; LPAR; RPAR; SEMI; AMP; LT] c = true /\ strchr symbols c = true.
Proof.
  intros Hs Hw Hg. assert (H : strchr symbols c = true).
  { unfold wordchar in Hw. rewrite Hs in Hw. cbn [negb andb] in Hw. by apply negb_false_iff in Hw. }
  split; [|done]. apply strchr_elem in H. apply strchr_elem. revert H. unfold symbols. rewrite !elem_of_cons. naive_solver.
Qed.

Lemma word_at_in p c : text !! p = Some c -> wordchar c = true -> word_in text (p, (p + run wordchar (drop p text))%nat).
Proof.
  intros Hc Hw. assert (Hlt := lookup_lt_Some _ _ _ Hc). split; [|split]; cbn [fst snd].
  - assert (Hr := run_drop_le wordchar p). destruct (drop_cons_lookup p Hlt) as (c' & Hc' & Hd).
    rewrite Hd in *. cbn in *. simplify_eq. rewrite Hw in *. lia.
  - intros i d Hi Hd. apply (run_in wordchar (drop p text) (i - p)); [lia|].
    rewrite lookup_drop. by replace (p + (i - p))%nat with i by lia.
  - intros d Hd. apply (run_stop wordchar (drop p text)). by rewrite lookup_drop.
Qed.

Lemma gettoken_cons s t ts : input s (t :: ts) ->
  exists s' q e, gettoken (length text) s = Ok (code t, q, e) s' /\ input s' ts /\ nodes s' = nodes s /\
    match t with Word a b => a = q /\ b = e /\ word_in text (q, e) | Sym c => strchr (PLUS :: symbols) c = true end.
Proof.
  intros (Hb & Hp & Ht). unfold gettoken. unfold bind at 1, gets. unfold bind at 1. rewrite skip_space_run by done.
  set (p' := (cur s + run _ _)%nat). rewrite tokens_skip in Ht. fold p' in Ht.
  assert (Ha := after_space (cur s) Hp). cbn zeta in Ha. fold p' in Ha.
  destruct Ha as [[E Hd]|(c & Hlt & Hc & Hz & Hd & Hw)]; [by rewrite Hd in Ht|].
  unfold bind at 1. rewrite char_at_line by (done || lia). rewrite Hc. cbn [default from_option]. unfold id.
  rewrite (proj2 (Z.eqb_neq _ _) Hz). rewrite Hd in Ht.
  destruct (wordchar c) eqn:Hwc; [|destruct (Z.eq_dec c GT) as [->|Hg]].
  - destruct (wordchar_not c Hwc) as (_ & Hg & Hsy). rewrite Hg, (strchr_notin [BAR; LPAR; RPAR; SEMI; AMP; LT] c eq_refl Hsy).
    rewrite tokens_word in Ht by (cbn; exact Hwc). rewrite <- Hd in Ht. injection Ht as <- Ht.
    unfold bind at 1 2. rewrite skip_word_run by (done || lia). unfold ret at 1. cbn [fst snd].
    destruct (gettoken_rest s p' WORD (p' + run wordchar (drop p' text)) ts) as (s' & -> & Hi & Hn); [done|apply run_drop_le; lia|by rewrite drop_drop in Ht|].
    exists s'. do 2 eexists. split_and!; try done. eapply word_at_in; eauto.
  - change (strchr _ GT) with false. rewrite Z.eqb_refl. cbn [tokens] in Ht. change (strchr whitespace GT) with false in Ht. rewrite Z.eqb_refl in Ht.
    unfold bind at 1 2. rewrite char_at_line by (done || lia).
    destruct (decide (S p' = length text)) as [El|El].
    { rewrite lookup_ge_None_2 by lia. rewrite drop_ge in Ht by lia. injection Ht as <- <-. cbn [default from_option].
      change (0 =? GT) with false. cbv iota. unfold ret at 1. cbn [fst snd].
      destruct (gettoken_rest s p' GT (S p') []) as (s' & -> & Hi & Hn); [done|lia|by rewrite drop_ge by lia|].
      exists s'. do 2 eexists. by split_and!. }
    destruct (drop_cons_lookup (S p') ltac:(lia)) as (d & Hdl & Hdd). rewrite Hdl. cbn [default from_option]. unfold id.
    rewrite Hdd in Ht. destruct (d =? GT) eqn:Edg; injection Ht as <- Ht; unfold ret at 1; cbn [fst snd].
    + destruct (gettoken_rest s p' PLUS (S (S p')) ts) as (s' & -> & Hi & Hn); [done|lia|done|].
      exists s'. do 2 eexists. by split_and!.
    + destruct (gettoken_rest s p' GT (S p') ts) as (s' & -> & Hi & Hn); [done|lia|by rewrite Hdd|].
      exists s'. do 2 eexists. by split_and!.
  - destruct (simple_symbol c Hw Hwc Hg) as [H1 H2]. rewrite H1.
    cbn [tokens] in Ht. rewrite Hw, (proj2 (Z.eqb_neq _ _) Hg), H2 in Ht. injection Ht as <- Ht.
    unfold bind at 1, ret at 1. cbn [fst snd].
    destruct (gettoken_rest s p' c (S p') ts) as (s' & -> & Hi & Hn); [done|lia|done|].
    exists s'. do 2 eexists. split_and!; try done. cbn [strchr]. by destruct (PLUS =? c).
Qed.

(** The fuel of a loop suffices for its tokens. *)
Lemma tokens_fuel s ts : input s ts -> (length ts <= length text - cur s)%nat.
Proof. intros (_ & _ & <-). etrans; [apply tokens_length|]. by rewrite length_drop. Qed.
End Input.
