(* ===== verification/ShParse.v ===== *)
(** * The parser on tokens

    A parser of token lists that builds trees, and the proof that the shell's
    parser, on characters and nodes, does the same: it stops with the same
    message, or builds nodes that represent the same tree. *)

From S2P Require Import Prelude Riscv Sh ShLex.
Local Open Scope Z_scope.

(** ** Redirections *)
Inductive rkind := From | Onto | Append.
Definition rsym (k : rkind) : Z := match k with From => LT | Onto => GT | Append => PLUS end.
Definition rmode (k : rkind) : Z :=
  match k with From => O_RDONLY | Onto => Z.lor (Z.lor O_WRONLY O_CREATE) O_TRUNC | Append => Z.lor O_WRONLY O_CREATE end.
Definition rfd (k : rkind) : Z := match k with From => 0 | _ => 1 end.
Abbreviation redir := (rkind * (nat * nat))%type.

(** The last redirection is outermost. *)
Definition wrap (rs : list redir) (c : cmd) : cmd := fold_left (fun c r => Redir c r.2 (rmode r.1) (rfd r.1)) rs c.
Definition backs (n : nat) (c : cmd) : cmd := Nat.iter n Back c.

Definition redir_of (c : Z) : option rkind :=
  if c =? LT then Some From else if c =? GT then Some Onto else if c =? PLUS then Some Append else None.

(** ** The parser of tokens *)
Abbreviation TM := (M (list tok)).

Definition no_file : string := "missing file for redirection".
Definition stops : list Z := [BAR; RPAR; AMP; SEMI].

Fixpoint tredirs (rs : list redir) (ts : list tok) : res (list tok) (list redir) :=
  match ts with
  | Sym c :: ts' =>
      match redir_of c, ts' with
      | Some k, Word q e :: ts'' => tredirs (rs ++ [(k, (q, e))]) ts''
      | Some k, _ => Panic no_file
      | None, _ => Ok rs ts
      end
  | _ => Ok rs ts
  end.

Fixpoint targs (ws : list (nat * nat)) (rs : list redir) (ts : list tok) : res (list tok) cmd :=
  match ts with
  | Word q e :: ts' => if (MAXARGS <=? S (length ws))%nat then Panic "too many args" else targs (ws ++ [(q, e)]) rs ts'
  | Sym c :: ts' =>
      match redir_of c, ts' with
      | Some k, Word q e :: ts'' => targs ws (rs ++ [(k, (q, e))]) ts''
      | Some k, _ => Panic no_file
      | None, _ => if strchr stops c then Ok (wrap rs (Exec ws)) ts else Panic "syntax"
      end
  | [] => Ok (wrap rs (Exec ws)) []
  end.

Fixpoint tbacks (ts : list tok) : nat * list tok :=
  match ts with
  | Sym c :: ts' => if c =? AMP then let r := tbacks ts' in (S r.1, r.2) else (O, ts)
  | _ => (O, ts)
  end.

Definition tpeek (toks : list Z) : TM bool := gets (looks toks).
Definition tnext : TM unit := modify tail.

Fixpoint tline (f : nat) : TM cmd :=
  match f with
  | O => hang
  | S f' =>
      do! c <- tpipe f';
      do! n <- (fun ts => Ok (tbacks ts).1 (tbacks ts).2);
      do! more <- tpeek [SEMI];
      if more then tnext ;; do! d <- tline f'; ret (Seq (backs n c) d) else ret (backs n c)
  end
with tpipe (f : nat) : TM cmd :=
  match f with
  | O => hang
  | S f' =>
      do! c <- texec f';
      do! more <- tpeek [BAR];
      if more then tnext ;; do! d <- tpipe f'; ret (Pipe c d) else ret c
  end
with texec (f : nat) : TM cmd :=
  match f with
  | O => hang
  | S f' => do! block <- tpeek [LPAR]; if block then tblock f' else targs [] []
  end
with tblock (f : nat) : TM cmd :=
  match f with
  | O => hang
  | S f' =>
      tnext ;;
      do! c <- tline f';
      do! closed <- tpeek [RPAR];
      if negb closed then panic "syntax - missing )"
      else tnext ;; do! rs <- tredirs []; ret (wrap rs c)
  end.

(** ** Facts about the token parser *)
Lemma tpeek_bind {A} toks (k : bool -> TM A) ts : bind (tpeek toks) k ts = k (looks toks ts) ts.
Proof. done. Qed.
Lemma tnext_bind {A} (k : unit -> TM A) t ts : bind tnext k (t :: ts) = k tt ts.
Proof. done. Qed.

Lemma targs_redirs ws rs ts : targs ws rs ts =
  match tredirs rs ts with Ok rs' ts' => targs ws rs' ts' | Panic m => Panic m | Undef => Undef | Hang => Hang end.
Proof.
  revert rs. induction ts as [ts IH] using (induction_ltof1 _ (@length tok)); intros rs. unfold ltof in IH.
  destruct ts as [|[q e|c] ts]; try done. cbn [targs tredirs]. destruct (redir_of c) eqn:E.
  - destruct ts as [|[q e|d] ts]; try done. apply IH. cbn. lia.
  - cbn [targs]. by rewrite E.
Qed.

Lemma redir_of_looks c ts : looks [LT; GT] (Sym c :: ts) = bool_decide (is_Some (redir_of c)).
Proof.
  unfold redir_of. cbn [looks lead strchr]. destruct (c =? PLUS) eqn:Ep.
  - apply Z.eqb_eq in Ep. by subst c.
  - rewrite (Z.eqb_sym LT c), (Z.eqb_sym GT c). by repeat case_match.
Qed.

Lemma tredirs_stop rs ts rs' ts' : tredirs rs ts = Ok rs' ts' -> looks [LT; GT] ts' = false /\ (length ts' <= length ts)%nat.
Proof.
  revert rs. induction ts as [ts IH] using (induction_ltof1 _ (@length tok)); intros rs. unfold ltof in IH.
  destruct ts as [|[q e|c] ts]; cbn [tredirs]; try (by intros [= <- <-]).
  destruct (redir_of c) eqn:E.
  - destruct ts as [|[q e|d] ts]; try done. intros H%IH; [|cbn; lia]. cbn. intuition lia.
  - intros [= <- <-]. by rewrite redir_of_looks, E.
Qed.

Lemma tbacks_le ts : (length (tbacks ts).2 <= length ts)%nat.
Proof. induction ts as [|[q e|c] ts IH]; cbn; try lia. case_match; cbn in *; lia. Qed.

(** ** Nodes *)
Lemma node_at_prefix l l' p x : l `prefix_of` l' -> node_at l p = Some x -> node_at l' p = Some x.
Proof. intros [k ->]. destruct p; [done|]. cbn. intros H. rewrite lookup_app_l; [done|]. by eapply lookup_lt_Some. Qed.

Lemma node_at_le l p x : node_at l p = Some x -> (0 < p <= length l)%nat.
Proof. destruct p; [done|]. cbn. intros H%lookup_lt_Some. lia. Qed.

Lemma tree_prefix l l' p c : l `prefix_of` l' -> tree l p c -> tree l' p c.
Proof. intros Hl. induction 1; econstructor; eauto using node_at_prefix. Qed.

Lemma tree_le l p c : tree l p c -> (0 < p <= length l)%nat.
Proof. destruct 1; eauto using node_at_le. Qed.

(** The nodes of redirections around the one at [p]. *)
Inductive chain (l : list node) (p : nat) : nat -> list redir -> Prop :=
| chain_nil : chain l p p []
| chain_snoc q r k f e rs : chain l p q rs -> (p <= q)%nat -> (q < r)%nat ->
    node_at l r = Some (REDIR q f e (rmode k) (rfd k)) -> chain l p r (rs ++ [(k, (f, e))]).

Lemma chain_ge l p q rs : chain l p q rs -> (p <= q)%nat.
Proof. destruct 1; lia. Qed.

Lemma chain_prefix l l' p q rs : l `prefix_of` l' -> chain l p q rs -> chain l' p q rs.
Proof. intros Hl. induction 1; econstructor; eauto using node_at_prefix. Qed.

Lemma tree_chain l p q rs c : tree l p c -> chain l p q rs -> tree l q (wrap rs c).
Proof.
  intros Ht. induction 1; [done|]. unfold wrap. rewrite fold_left_app. cbn. econstructor; eauto.
Qed.

(** The nodes outside of the one at [p] decide. *)
Lemma chain_node l x y l' p q rs : p = S (length l) -> chain (l ++ x :: l') p q rs -> chain (l ++ y :: l') p q rs.
Proof.
  intros ->. induction 1 as [|q r k f e rs Hc IH Hpq Hqr Hn]; [constructor|].
  econstructor; eauto. destruct r as [|r]; [done|]. cbn in *.
  rewrite lookup_app_r in * by lia. by destruct (r - length l)%nat eqn:E; [lia|].
Qed.

Fixpoint words (c : cmd) : list (nat * nat) :=
  match c with
  | Exec ws => ws
  | Redir c f _ _ => words c ++ [f]
  | Pipe l r => words l ++ words r
  | Seq l r => words l ++ words r
  | Back c => words c
  end.

Lemma words_wrap rs c : words (wrap rs c) = words c ++ (snd <$> rs).
Proof.
  revert c. induction rs as [|r rs IH]; intros c; cbn; [by rewrite app_nil_r|].
  unfold wrap in IH. rewrite IH. cbn. by rewrite <- app_assoc.
Qed.

Lemma words_backs n c : words (backs n c) = words c.
Proof. induction n; done. Qed.

(** ** The two parsers agree *)
Section Simulation.
Variables text junk : list Z.
Hypothesis nonzero : Forall (fun c => c <> 0) text.
Variable memory : nat -> bool.
Abbreviation es := (length text).
Abbreviation inp := (input text junk).

(** Both return, related by [R]; or both stop with the same message, or for
    lack of fuel; or memory ran out. *)
Definition sim {A B} (R : A -> parser -> B -> list tok -> Prop) (r : res parser A) (r' : res (list tok) B) : Prop :=
  match r, r' with
  | Ok a s, Ok b ts => R a s b ts
  | Panic m, Panic m' => m = m'
  | Undef, _ => exists p, memory p = false
  | Hang, Hang => True
  | _, _ => False
  end.

Lemma sim_bind {A B A' B'} R R' (c : PM A) (d : TM B) (k : A -> PM A') (h : B -> TM B') s ts :
  sim R (c s) (d ts) -> (forall a s' b ts', R a s' b ts' -> sim R' (k a s') (h b ts')) ->
  sim R' (bind c k s) (bind d h ts).
Proof. intros H Hk. unfold bind. destruct (c s), (d ts); cbn in *; try done; try (by subst); try (by apply Hk). Qed.

Lemma sim_mono {A B} (R R' : A -> parser -> B -> list tok -> Prop) r r' :
  (forall a s b ts, R a s b ts -> R' a s b ts) -> sim R r r' -> sim R' r r'.
Proof. intros H. destruct r, r'; cbn; auto. Qed.

Lemma peek_bind {A} toks s ts (k : bool -> PM A) : inp s ts -> are_symbols toks = true ->
  exists s', bind (peek es toks) k s = k (looks toks ts) s' /\ inp s' ts /\ nodes s' = nodes s.
Proof.
  intros Hi Ht. destruct (peek_tokens text junk nonzero s ts toks Hi Ht) as (s' & E & Hi' & Hn & _).
  exists s'. unfold bind. by rewrite E.
Qed.

Lemma gettoken_bind {A} s t ts (k : Z * nat * nat -> PM A) : inp s (t :: ts) ->
  exists s' q e, bind (gettoken es) k s = k (code t, q, e) s' /\ inp s' ts /\ nodes s' = nodes s /\
    match t with Word a b => a = q /\ b = e /\ word_in text (q, e) | Sym c => strchr (PLUS :: symbols) c = true end.
Proof.
  intros Hi. destruct (gettoken_cons text junk nonzero s t ts Hi) as (s' & q & e & E & H).
  exists s', q, e. unfold bind. by rewrite E.
Qed.

Lemma alloc_sim {A B} (R : A -> parser -> B -> list tok -> Prop) x s (k : nat -> PM A) r' :
  sim R (k (S (length (nodes s))) (mkparser (buf s) (cur s) (nodes s ++ [x]))) r' -> sim R (bind (alloc memory x) k s) r'.
Proof.
  intros H. unfold bind, alloc. destruct (memory _) eqn:E; [done|]. cbn. by exists (S (length (nodes s))).
Qed.

Lemma inp_nodes s ts l : inp s ts -> inp (mkparser (buf s) (cur s) l) ts.
Proof. done. Qed.

Lemma looks_false_not c ts : redir_of c = None -> looks [LT; GT] (Sym c :: ts) = false.
Proof. intros E. by rewrite redir_of_looks, E. Qed.

Lemma node_at_new l x : node_at (l ++ [x]) (S (length l)) = Some x.
Proof. cbn. by rewrite lookup_app_r, Nat.sub_diag by lia. Qed.

Lemma sym_not_word c : strchr (PLUS :: symbols) c = true -> (c =? WORD) = false.
Proof. intros H. destruct (c =? WORD) eqn:E; [|done]. apply Z.eqb_eq in E. by subst c. Qed.

Lemma sym_not_nul c : strchr (PLUS :: symbols) c = true -> (c =? 0) = false.
Proof. intros H. destruct (c =? 0) eqn:E; [|done]. apply Z.eqb_eq in E. by subst c. Qed.

(** The node [redirs_loop] allocates. *)
Lemma redir_choice cmd k q e :
  (if rsym k =? LT then redircmd memory cmd q e O_RDONLY 0
   else if rsym k =? GT then redircmd memory cmd q e (Z.lor (Z.lor O_WRONLY O_CREATE) O_TRUNC) 1
   else if rsym k =? PLUS then redircmd memory cmd q e (Z.lor O_WRONLY O_CREATE) 1
   else ret cmd) = alloc memory (REDIR cmd q e (rmode k) (rfd k)).
Proof. by destruct k. Qed.

Lemma redir_of_sym c k : redir_of c = Some k -> c = rsym k.
Proof. unfold redir_of. repeat case_match; boolz; naive_solver. Qed.

Ltac dopeek s1 Hi1 Hn1 :=
  match goal with
  | Hi : input _ _ ?s ?ts |- context[bind (peek _ ?toks) ?k ?s] =>
      destruct (peek_bind toks s ts k Hi eq_refl) as (s1 & -> & Hi1 & Hn1)
  end.
Ltac doget s1 q e Hi1 Hn1 Hw1 :=
  match goal with
  | Hi : input _ _ ?s (?t :: ?ts) |- context[bind (gettoken _) ?k ?s] =>
      destruct (gettoken_bind s t ts k Hi) as (s1 & q & e & -> & Hi1 & Hn1 & Hw1)
  end; cbn [code fst snd].

(** After redirections around [p] have been read. *)
Definition redirs_done (p : nat) (l : list node) (c : nat) (s : parser) (rs : list redir) (ts' : list tok) : Prop :=
  inp s ts' /\ l `prefix_of` nodes s /\ chain (nodes s) p c rs /\ (c <= length (nodes s))%nat /\
  Forall (fun r => word_in text r.2) rs.

Lemma redirs_loop_sim n p c rs s ts : inp s ts -> (length ts <= n)%nat -> chain (nodes s) p c rs -> (c <= length (nodes s))%nat ->
  Forall (fun r => word_in text r.2) rs ->
  sim (redirs_done p (nodes s)) (redirs_loop memory n c es s) (tredirs rs ts).
Proof.
  revert c rs s ts. induction n as [|n IH]; intros c rs s ts Hi Hl Hc Hle Hw; cbn [redirs_loop]; dopeek s1 Hi1 Hn1.
  - destruct ts; [|cbn in Hl; lia]. cbn. unfold redirs_done. by rewrite Hn1.
  - assert (Hdone : redirs_done p (nodes s) c s1 rs ts) by (unfold redirs_done; by rewrite Hn1).
    destruct ts as [|[q e|d] ts]; [done|done|].
    rewrite redir_of_looks. cbn [tredirs]. destruct (redir_of d) as [k|] eqn:Ed; [|done].
    rewrite bool_decide_eq_true_2 by done. cbn [negb]. apply redir_of_sym in Ed. subst d.
    doget s2 q0 e0 Hi2 Hn2 Hw2. destruct ts as [|[q e|d] ts].
    + destruct (gettoken_nil text junk nonzero s2 Hi2) as (s3 & q & e & E & _). unfold bind. by rewrite E.
    + doget s3 q1 e1 Hi3 Hn3 Hw3. destruct Hw3 as (-> & -> & Hwd). rewrite Z.eqb_refl. cbn [negb].
      rewrite redir_choice. apply alloc_sim. rewrite Hn3, Hn2, Hn1.
      eapply sim_mono; [|apply (IH _ (rs ++ [(k, (q1, e1))]) _ ts)]; cbn [nodes].
      * intros a s4 b ts' (H1 & H2 & H3). split; [done|]. split; [|done]. etrans; [|done]. by eexists.
      * done.
      * cbn in Hl. lia.
      * econstructor; [|by eapply chain_ge|..|apply node_at_new]; [eapply chain_prefix; [by eexists|done]|lia].
      * rewrite length_app. cbn. lia.
      * apply Forall_app. split; [done|]. by apply Forall_singleton.
    + doget s3 q1 e1 Hi3 Hn3 Hw3. by rewrite (sym_not_word d Hw3).
Qed.

Lemma parseredirs_sim p c rs s ts : inp s ts -> chain (nodes s) p c rs -> (c <= length (nodes s))%nat ->
  Forall (fun r => word_in text r.2) rs ->
  sim (redirs_done p (nodes s)) (parseredirs memory c es s) (tredirs rs ts).
Proof. intros Hi Hc Hle Hw. apply redirs_loop_sim; auto. by eapply tokens_fuel. Qed.

(** ** Programs *)
Lemma insert_next {A B} (f : A -> B) (ws : list A) k x :
  <[length ws := Some x]> ((Some ∘ f <$> ws) ++ replicate (S k) None) = (Some ∘ f <$> ws) ++ Some x :: replicate k None.
Proof. rewrite insert_app_r_alt by (by rewrite length_fmap). by rewrite length_fmap, Nat.sub_diag. Qed.

Lemma arrays_snoc ws argv eargv q e : arrays ws argv eargv -> (S (length ws) < MAXARGS)%nat ->
  arrays (ws ++ [(q, e)]) (<[length ws := Some q]> argv) (<[length ws := Some e]> eargv).
Proof.
  intros (Hl & -> & ->) Hlt. unfold arrays. rewrite length_app. cbn [length].
  destruct (MAXARGS - length ws)%nat as [|k] eqn:Ek; [lia|].
  replace (MAXARGS - (length ws + 1))%nat with k by lia.
  rewrite !insert_next, !fmap_app, <- !app_assoc. split_and!; [lia|done|done].
Qed.

Lemma arrays_end ws argv eargv : arrays ws argv eargv ->
  <[length ws := None]> argv = argv /\ <[length ws := None]> eargv = eargv.
Proof.
  intros (Hl & -> & ->). destruct (MAXARGS - length ws)%nat as [|k] eqn:Ek; [lia|].
  rewrite !insert_app_r_alt by (by rewrite length_fmap). by rewrite !length_fmap, Nat.sub_diag.
Qed.

Lemma arrays_length ws argv eargv : arrays ws argv eargv -> length argv = MAXARGS /\ length eargv = MAXARGS.
Proof. intros (Hl & -> & ->). rewrite !length_app, !length_fmap, !length_replicate. lia. Qed.

(** Storing an argument in the node at [p]. *)
Lemma set_arg_node l l' ws argv eargv s q : nodes s = l ++ EXEC argv eargv :: l' -> arrays ws argv eargv ->
  set_arg (S (length l)) (length ws) q s =
    Ok tt (mkparser (buf s) (cur s) (l ++ EXEC (<[length ws := fst <$> q]> argv) (<[length ws := snd <$> q]> eargv) :: l')).
Proof.
  intros Hn Ha. destruct (arrays_length _ _ _ Ha) as [H1 H2]. destruct Ha as [Hl _].
  unfold set_arg. rewrite Hn. cbn [node_at]. rewrite list_lookup_middle by done. rewrite H1, H2.
  rewrite (proj2 (Nat.ltb_lt _ _) Hl). cbn [andb]. f_equal. unfold set_node. rewrite Hn.
  by rewrite insert_app_r_alt, Nat.sub_diag by done.
Qed.

(** The arguments [ws] and redirections [rs] of the program at [S (length l)]
    have been read; [rt] is the command so far. *)
Definition reading (l : list node) (ws : list (nat * nat)) (rs : list redir) (rt : nat) (s : parser) : Prop :=
  exists argv eargv l', nodes s = l ++ EXEC argv eargv :: l' /\ arrays ws argv eargv /\
    chain (nodes s) (S (length l)) rt rs /\ (rt <= length (nodes s))%nat /\
    Forall (word_in text) ws /\ Forall (fun r => word_in text r.2) rs.

Lemma reading_word l ws rs rt s q e : reading l ws rs rt s -> (S (length ws) < MAXARGS)%nat -> word_in text (q, e) ->
  exists s', set_arg (S (length l)) (length ws) (Some (q, e)) s = Ok tt s' /\ reading l (ws ++ [(q, e)]) rs rt s' /\
    buf s' = buf s /\ cur s' = cur s.
Proof.
  intros (argv & eargv & l' & Hn & Ha & Hc & Hle & Hw & Hr) Hlt Hq. rewrite (set_arg_node _ _ _ _ _ _ _ Hn Ha).
  eexists. split; [done|]. split; [|done]. do 3 eexists. split; [done|]. cbn [nodes].
  split_and!; [by apply arrays_snoc| | |by apply Forall_app; split; [|apply Forall_singleton]|done].
  - rewrite Hn in Hc. by eapply chain_node.
  - rewrite Hn, !length_app in *. done.
Qed.

Lemma reading_redirs l ws rs rt s ts : reading l ws rs rt s -> inp s ts ->
  sim (fun rt' s' rs' ts' => reading l ws rs' rt' s' /\ inp s' ts' /\ looks [LT; GT] ts' = false /\ (length ts' <= length ts)%nat)
    (parseredirs memory rt es s) (tredirs rs ts).
Proof.
  intros (argv & eargv & l' & Hn & Ha & Hc & Hle & Hw & Hr) Hi.
  assert (H := parseredirs_sim _ _ _ _ _ Hi Hc Hle Hr).
  destruct (parseredirs memory rt es s) as [rt' s'| | |], (tredirs rs ts) as [rs' ts'| | |] eqn:Et; try done.
  destruct H as (H1 & [k Hk] & H3 & H4 & H5). destruct (tredirs_stop _ _ _ _ Et) as [H6 H7].
  split; [|done]. exists argv, eargv, (l' ++ k). split_and!; try done. by rewrite Hk, Hn, <- app_assoc.
Qed.

Lemma args_loop_sim n l ws rs rt s ts : reading l ws rs rt s -> inp s ts -> (length ts < n)%nat -> looks [LT; GT] ts = false ->
  sim (fun r s' c ts' => exists ws' rs', c = wrap rs' (Exec ws') /\ r.1 = length ws' /\ reading l ws' rs' r.2 s' /\ inp s' ts')
    (args_loop memory n (S (length l)) (length ws) rt es s) (targs ws rs ts).
Proof.
  revert ws rs rt s ts. induction n as [|n IH]; intros ws rs rt s ts Hr Hi Hn Hno; [lia|].
  cbn [args_loop]. dopeek s1 Hi1 Hn1.
  assert (Hr1 : reading l ws rs rt s1) by (unfold reading; by rewrite Hn1).
  destruct ts as [|[q e|c] ts].
  - cbn. destruct (gettoken_nil text junk nonzero s1 Hi1) as (s2 & q & e & E & Hi2 & Hn2). unfold bind. rewrite E. cbn.
    exists ws, rs. split_and!; try done. unfold reading. by rewrite Hn2.
  - cbn [looks lead]. change (strchr _ WORD) with false. cbv iota. doget s2 q1 e1 Hi2 Hn2 Hw2. destruct Hw2 as (-> & -> & Hq).
    change (WORD =? 0) with false. rewrite Z.eqb_refl. cbn [negb targs].
    assert (Hr2 : reading l ws rs rt s2) by (unfold reading; by rewrite Hn2).
    destruct (Nat.leb_spec MAXARGS (S (length ws))) as [Hmax|Hmax].
    { destruct Hr2 as (argv & eargv & l' & Hl' & Ha & _). unfold bind. by rewrite (set_arg_node _ _ _ _ _ _ _ Hl' Ha). }
    destruct (reading_word _ _ _ _ _ q1 e1 Hr2 Hmax Hq) as (s3 & E3 & Hr3 & Hb3 & Hc3). unfold bind at 1. rewrite E3.
    assert (Hi3 : inp s3 ts) by (unfold input in *; by rewrite Hb3, Hc3).
    rewrite targs_redirs. assert (Hs := reading_redirs _ _ _ _ _ _ Hr3 Hi3). unfold bind.
    destruct (parseredirs memory rt es s3) as [rt' s4| | |], (tredirs rs ts) as [rs' ts'| | |]; try done.
    destruct Hs as (Hr4 & Hi4 & Hno4 & Hlen). replace (S (length ws)) with (length (ws ++ [(q1, e1)])) by (rewrite length_app; cbn; lia).
    apply IH; try done. cbn in Hn. lia.
  - cbn [looks lead targs]. rewrite redir_of_looks in Hno.
    destruct (redir_of c) as [k|] eqn:Ek; [by rewrite bool_decide_eq_true_2 in Hno|].
    replace (if c =? PLUS then GT else c) with c by (unfold redir_of in Ek; by repeat case_match).
    change [BAR; RPAR; AMP; SEMI] with stops. destruct (strchr stops c); [by exists ws, rs|].
    doget s2 q1 e1 Hi2 Hn2 Hw2. by rewrite (sym_not_nul c Hw2), (sym_not_word c Hw2).
Qed.

(** The nodes at [p] represent [c], whose words are words of the line. *)
Definition built (l : list node) (p : nat) (s : parser) (c : cmd) (ts' : list tok) : Prop :=
  inp s ts' /\ l `prefix_of` nodes s /\ tree (nodes s) p c /\ Forall (word_in text) (words c).

Lemma parseprog_sim s ts : inp s ts -> sim (built (nodes s)) (parseprog memory es s) (targs [] [] ts).
Proof.
  intros Hi. unfold parseprog, execcmd. apply alloc_sim. set (s0 := mkparser _ _ _).
  assert (Hr0 : reading (nodes s) [] [] (S (length (nodes s))) s0).
  { do 3 eexists. split; [done|]. split; [split_and!; [unfold MAXARGS; cbn; lia|done|done]|].
    split_and!; [constructor|cbn; rewrite length_app; cbn; lia|constructor|constructor]. }
  rewrite targs_redirs. assert (Hs := reading_redirs _ _ _ _ _ ts Hr0 Hi). unfold bind at 1.
  destruct (parseredirs memory _ es s0) as [rt s1| | |], (tredirs [] ts) as [rs ts1| | |]; try done.
  destruct Hs as (Hr1 & Hi1 & Hno & _). unfold bind at 1, gets. unfold bind at 1.
  assert (Ha := args_loop_sim (S (es - cur s1)) _ [] rs rt s1 ts1 Hr1 Hi1 ltac:(apply le_n_S; by eapply tokens_fuel) Hno).
  cbn [length] in Ha. destruct (args_loop _ _ _ _ _ _ s1) as [[argc rt2] s2| | |], (targs [] rs ts1) as [c ts2| | |]; try done.
  destruct Ha as (ws & rs2 & -> & E & (argv & eargv & l' & Hn & Ha & Hc & Hle & Hw & Hrs) & Hi2). cbn [fst snd] in *. subst argc.
  unfold bind. rewrite (set_arg_node _ _ _ _ _ _ None Hn Ha). destruct (arrays_end _ _ _ Ha) as [E1 E2]. cbn [fmap option_fmap option_map].
  rewrite E1, E2, <- Hn. split; [done|]. cbn [nodes]. split; [rewrite Hn; by eexists|]. split.
  - eapply tree_chain; [|done]. econstructor; [|done]. rewrite Hn. cbn. by rewrite list_lookup_middle.
  - rewrite words_wrap. apply Forall_app. split; [done|]. by apply Forall_fmap.
Qed.

(** ** Pipelines and lines *)
Lemma built_weaken l l' p s c ts : l `prefix_of` l' -> built l' p s c ts -> built l p s c ts.
Proof. intros Hl (H1 & H2 & H3). split; [done|]. split; [|done]. by etrans. Qed.

Lemma backs_succ n c : backs n (Back c) = backs (S n) c.
Proof. unfold backs. by rewrite Nat.iter_succ_r. Qed.

Lemma back_loop_sim n p c s ts : built (nodes s) p s c ts -> (length ts <= n)%nat ->
  sim (fun p' s' k ts' => built (nodes s) p' s' (backs k c) ts') (back_loop memory n p es s) (Ok (tbacks ts).1 (tbacks ts).2).
Proof.
  revert p c s ts. induction n as [|n IH]; intros p c s ts (Hi & _ & Ht & Hw) Hl; cbn [back_loop]; dopeek s1 Hi1 Hn1.
  - destruct ts; [|cbn in Hl; lia]. cbn. split_and!; by rewrite ?Hn1.
  - assert (Hd : built (nodes s) p s1 c ts) by (split_and!; by rewrite ?Hn1).
    destruct ts as [|[q e|d] ts]; [done|done|]. cbn [looks lead tbacks].
    destruct (d =? AMP) eqn:Ed; cycle 1.
    { replace (strchr _ _) with false; [done|]. destruct (d =? PLUS); [done|]. cbn [strchr]. by rewrite Z.eqb_sym, Ed. }
    apply Z.eqb_eq in Ed. subst d. change (strchr _ _) with true. cbn [negb]. doget s2 q0 e0 Hi2 Hn2 Hw2.
    unfold backcmd. apply alloc_sim. rewrite Hn2, Hn1. cbn [fst snd].
    assert (Hs := IH (S (length (nodes s))) (Back c) (mkparser (buf s2) (cur s2) (nodes s ++ [BACK p])) ts). cbn [nodes] in Hs.
    assert (Hb : built (nodes s ++ [BACK p]) (S (length (nodes s))) (mkparser (buf s2) (cur s2) (nodes s ++ [BACK p])) (Back c) ts).
    { split_and!; [done|done| |done]. econstructor; [apply node_at_new|apply tree_le in Ht; lia|]. eapply tree_prefix; [by eexists|done]. }
    specialize (Hs Hb ltac:(cbn in Hl; lia)). destruct (back_loop _ _ _ _ _); cbn [sim] in *; try done.
    rewrite backs_succ in Hs. eapply built_weaken; [|done]. by eexists.
Qed.

Lemma alloc_built l x s c ts : inp s ts -> l `prefix_of` nodes s ->
  (tree (nodes s ++ [x]) (S (length (nodes s))) c) -> Forall (word_in text) (words c) ->
  sim (built l) (alloc memory x s) (Ok c ts).
Proof.
  intros Hi Hl Ht Hw. unfold alloc. destruct (memory _) eqn:E; cbn; [|by eexists].
  split_and!; try done. cbn. etrans; [done|]. by eexists.
Qed.

(** The cases of the next lemma: what follows the first part of a line, of a
    pipeline, and a parenthesis. *)
Lemma parseline_step f s ts : (forall s ts, inp s ts -> sim (built (nodes s)) (parseline memory f es s) (tline f ts)) ->
  (forall s ts, inp s ts -> sim (built (nodes s)) (parsepipe memory f es s) (tpipe f ts)) ->
  inp s ts -> sim (built (nodes s)) (parseline memory (S f) es s) (tline (S f) ts).
Proof.
  intros IHl IHp Hi. cbn [parseline tline]. eapply sim_bind; [by apply IHp|]. intros p s1 c ts1 H1. cbn beta.
  unfold bind at 1, gets. eapply sim_bind.
  { apply (back_loop_sim _ _ c); [|by eapply tokens_fuel, H1]. split; [apply H1|]. by split; [|apply H1]. }
  intros p2 s2 n ts2 H2. cbn beta. assert (H2' : built (nodes s) p2 s2 (backs n c) ts2). { eapply built_weaken; [apply H1|]. exact H2. }
  destruct H2' as (Hi2 & Hl2 & Ht2 & Hw2). dopeek s3 Hi3 Hn3. rewrite tpeek_bind.
  assert (Hd : built (nodes s) p2 s3 (backs n c) ts2) by (split_and!; by rewrite ?Hn3).
  destruct ts2 as [|t ts2]; [exact Hd|]. destruct (looks [SEMI] (t :: ts2)); [|exact Hd].
  doget s4 q e Hi4 Hn4 Hw4. rewrite tnext_bind.
  eapply sim_bind; [by apply IHl|]. intros p5 s5 d ts5 (Hi5 & Hl5 & Ht5 & Hw5). cbn beta. rewrite Hn4, Hn3 in Hl5.
  apply alloc_built; [done|by etrans| |by apply Forall_app]. apply tree_prefix with (l' := nodes s5) in Ht2; [|done].
  econstructor; [apply node_at_new|..]; eauto using tree_le; try (apply tree_le in Ht2, Ht5; lia).
  all: eapply tree_prefix; [by eexists|done].
Qed.

Lemma parsepipe_step f s ts : (forall s ts, inp s ts -> sim (built (nodes s)) (parsepipe memory f es s) (tpipe f ts)) ->
  (forall s ts, inp s ts -> sim (built (nodes s)) (parseexec memory f es s) (texec f ts)) ->
  inp s ts -> sim (built (nodes s)) (parsepipe memory (S f) es s) (tpipe (S f) ts).
Proof.
  intros IHp IHe Hi. cbn [parsepipe tpipe]. eapply sim_bind; [by apply IHe|]. intros p2 s2 c ts2 (Hi2 & Hl2 & Ht2 & Hw2). cbn beta.
  dopeek s3 Hi3 Hn3. rewrite tpeek_bind.
  assert (Hd : built (nodes s) p2 s3 c ts2) by (split_and!; by rewrite ?Hn3).
  destruct ts2 as [|t ts2]; [exact Hd|]. destruct (looks [BAR] (t :: ts2)); [|exact Hd].
  doget s4 q e Hi4 Hn4 Hw4. rewrite tnext_bind.
  eapply sim_bind; [by apply IHp|]. intros p5 s5 d ts5 (Hi5 & Hl5 & Ht5 & Hw5). cbn beta. rewrite Hn4, Hn3 in Hl5.
  apply alloc_built; [done|by etrans| |by apply Forall_app]. apply tree_prefix with (l' := nodes s5) in Ht2; [|done].
  econstructor; [apply node_at_new|..]; try (apply tree_le in Ht2, Ht5; lia).
  all: eapply tree_prefix; [by eexists|done].
Qed.

Lemma parseblock_step f s ts : (forall s ts, inp s ts -> sim (built (nodes s)) (parseline memory f es s) (tline f ts)) ->
  inp s ts -> looks [LPAR] ts = true -> sim (built (nodes s)) (parseblock memory (S f) es s) (tblock (S f) ts).
Proof.
  intros IHl Hi Hp. cbn [parseblock tblock]. dopeek s1 Hi1 Hn1. rewrite Hp. cbn [negb].
  destruct ts as [|t ts]; [done|]. doget s2 q e Hi2 Hn2 Hw2. rewrite tnext_bind.
  eapply sim_bind; [by apply IHl|]. intros p3 s3 c ts3 (Hi3 & Hl3 & Ht3 & Hw3). cbn beta. rewrite Hn2, Hn1 in Hl3.
  dopeek s4 Hi4 Hn4. rewrite tpeek_bind. destruct ts3 as [|t3 ts3]; [done|].
  destruct (looks [RPAR] (t3 :: ts3)); cbn [negb]; [|done].
  doget s5 q5 e5 Hi5 Hn5 Hw5. rewrite tnext_bind.
  assert (Hr := parseredirs_sim p3 p3 [] s5 ts3 Hi5 ltac:(constructor)). rewrite Hn5, Hn4 in Hr.
  specialize (Hr ltac:(by apply tree_le in Ht3; lia) ltac:(constructor)). unfold bind.
  destruct (parseredirs _ _ _ _), (tredirs [] ts3); try done. destruct Hr as (H1 & H2 & H3 & H4 & H5).
  split; [done|]. split; [by etrans|]. split; [eapply tree_chain; [by eapply tree_prefix|done]|].
  rewrite words_wrap. apply Forall_app. split; [done|]. by apply Forall_fmap.
Qed.

Lemma parse_sim f :
  (forall s ts, inp s ts -> sim (built (nodes s)) (parseline memory f es s) (tline f ts)) /\
  (forall s ts, inp s ts -> sim (built (nodes s)) (parsepipe memory f es s) (tpipe f ts)) /\
  (forall s ts, inp s ts -> sim (built (nodes s)) (parseexec memory f es s) (texec f ts)) /\
  (forall s ts, inp s ts -> looks [LPAR] ts = true -> sim (built (nodes s)) (parseblock memory f es s) (tblock f ts)).
Proof.
  induction f as [|f (IHl & IHp & IHe & IHb)]; [by split_and!|].
  split_and!; intros s ts Hi; [by apply parseline_step|by apply parsepipe_step| |by apply parseblock_step].
  cbn [parseexec texec]. dopeek s1 Hi1 Hn1. rewrite tpeek_bind, <- Hn1.
  destruct (looks [LPAR] ts) eqn:E; [by apply IHb|by apply parseprog_sim].
Qed.
End Simulation.

(** * The grammar of the shell

    A declarative grammar that assigns a tree to a sequence of tokens, and the
    proofs that the token parser accepts exactly its sentences, builds their
    trees, and always stops. *)

(** An element of a simple command. *)
Inductive elem := Arg (w : nat * nat) | Redirect (r : redir).

Definition rtoks (r : redir) : list tok := [Sym (rsym r.1); Word r.2.1 r.2.2].
Definition etoks (x : elem) : list tok := match x with Arg w => [Word w.1 w.2] | Redirect r => rtoks r end.
Definition args (l : list elem) : list (nat * nat) := flat_map (fun x => match x with Arg w => [w] | Redirect _ => [] end) l.
Definition redirects (l : list elem) : list redir := flat_map (fun x => match x with Arg _ => [] | Redirect r => [r] end) l.

(** [line]: pipelines separated by [;], each followed by any number of [&].
    [pipeline]: commands separated by [|].  [command]: a line in parentheses
    with redirections, or words and redirections in any order. *)
Inductive line : list tok -> cmd -> Prop :=
| line_last ts c n : pipeline ts c -> line (ts ++ replicate n (Sym AMP)) (backs n c)
| line_seq ts c n ts' d : pipeline ts c -> line ts' d ->
    line (ts ++ replicate n (Sym AMP) ++ Sym SEMI :: ts') (Seq (backs n c) d)
with pipeline : list tok -> cmd -> Prop :=
| pipeline_one ts c : command ts c -> pipeline ts c
| pipeline_bar ts c ts' d : command ts c -> pipeline ts' d -> pipeline (ts ++ Sym BAR :: ts') (Pipe c d)
with command : list tok -> cmd -> Prop :=
| command_block ts c rs : line ts c -> command (Sym LPAR :: ts ++ Sym RPAR :: flat_map rtoks rs) (wrap rs c)
| command_prog l : (length (args l) < MAXARGS)%nat -> command (flat_map etoks l) (wrap (redirects l) (Exec (args l))).

Scheme line_mut := Induction for line Sort Prop
with pipeline_mut := Induction for pipeline Sort Prop
with command_mut := Induction for command Sort Prop.
Combined Scheme grammar_ind from line_mut, pipeline_mut, command_mut.

(** What may follow: the end, or one of these symbols. *)
Definition ends (toks : list Z) (ts : list tok) : Prop :=
  match ts with [] => True | Sym c :: _ => c ∈ toks | Word _ _ :: _ => False end.

Definition errors : list string := ["syntax"; no_file; "too many args"; "syntax - missing )"].

(** ** Redirections and simple commands *)
Lemma redir_of_rsym k : redir_of (rsym k) = Some k.
Proof. by destruct k. Qed.

Lemma ends_redir ts : ends stops ts -> looks [LT; GT] ts = false.
Proof. destruct ts as [|[q e|c] ts]; try done. cbn -[stops]. unfold stops. rewrite !elem_of_cons, elem_of_nil. by intros [->|[->|[->|[->|[]]]]]. Qed.

Lemma tredirs_stay rs ts : looks [LT; GT] ts = false -> tredirs rs ts = Ok rs ts.
Proof.
  destruct ts as [|[q e|c] ts]; try done. rewrite redir_of_looks. cbn [tredirs].
  intros H%bool_decide_eq_false. destruct (redir_of c); [|done]. by destruct H.
Qed.

Lemma tredirs_complete rs0 rs ts : looks [LT; GT] ts = false -> tredirs rs0 (flat_map rtoks rs ++ ts) = Ok (rs0 ++ rs) ts.
Proof.
  intros Ht. revert rs0. induction rs as [|[k [q e]] rs IH]; intros rs0; cbn.
  - rewrite app_nil_r. by apply tredirs_stay.
  - rewrite redir_of_rsym. rewrite IH. by rewrite <- app_assoc.
Qed.

Lemma tredirs_sound rs0 ts :
  match tredirs rs0 ts with
  | Ok rs' ts' => exists rs, rs' = rs0 ++ rs /\ ts = flat_map rtoks rs ++ ts'
  | Panic m => m ∈ errors
  | _ => False
  end.
Proof.
  revert rs0. induction ts as [ts IH] using (induction_ltof1 _ (@length tok)); intros rs0. unfold ltof in IH.
  destruct ts as [|[q e|c] ts]; cbn [tredirs]; try (exists []; by rewrite app_nil_r).
  destruct (redir_of c) as [k|] eqn:E; [|exists []; by rewrite app_nil_r].
  apply redir_of_sym in E. subst c. destruct ts as [|[q e|d] ts]; try (by unfold errors; set_solver).
  specialize (IH ts ltac:(cbn; lia) (rs0 ++ [(k, (q, e))])).
  destruct (tredirs _ ts); try done. destruct IH as (rs & -> & ->). exists ((k, (q, e)) :: rs). by rewrite <- app_assoc.
Qed.

Lemma targs_complete ws rs l ts : (length ws + length (args l) < MAXARGS)%nat -> ends stops ts ->
  targs ws rs (flat_map etoks l ++ ts) = Ok (wrap (rs ++ redirects l) (Exec (ws ++ args l))) ts.
Proof.
  intros Hl Ht. revert ws rs Hl. induction l as [|[[q e]|[k [q e]]] l IH]; intros ws rs Hl.
  - cbn -[targs stops]. rewrite !app_nil_r. destruct ts as [|[q e|c] ts]; [done|done|]. cbn [targs].
    assert (Hno := ends_redir _ Ht). rewrite redir_of_looks in Hno. apply bool_decide_eq_false in Hno.
    destruct (redir_of c); [by destruct Hno|]. by rewrite (proj2 (strchr_elem _ _) Ht).
  - cbn [flat_map etoks fst snd app targs]. cbn [args flat_map app length] in Hl. fold (args l) in Hl.
    destruct (Nat.leb_spec MAXARGS (S (length ws))); [lia|]. rewrite IH by (rewrite length_app; cbn [length]; lia).
    by rewrite <- app_assoc.
  - cbn [flat_map etoks rtoks fst snd app targs]. rewrite redir_of_rsym. rewrite IH by exact Hl. by rewrite <- app_assoc.
Qed.

Lemma targs_sound ws rs ts : (length ws < MAXARGS)%nat ->
  match targs ws rs ts with
  | Ok c ts' => exists l, c = wrap (rs ++ redirects l) (Exec (ws ++ args l)) /\ ts = flat_map etoks l ++ ts' /\
      (length ws + length (args l) < MAXARGS)%nat
  | Panic m => m ∈ errors
  | _ => False
  end.
Proof.
  revert ws rs. induction ts as [ts IH] using (induction_ltof1 _ (@length tok)); intros ws rs Hw. unfold ltof in IH.
  assert (Hnil : exists l, wrap rs (Exec ws) = wrap (rs ++ redirects l) (Exec (ws ++ args l)) /\ ts = flat_map etoks l ++ ts /\
    (length ws + length (args l) < MAXARGS)%nat).
  { exists []. cbn. rewrite !app_nil_r. split_and!; try done. lia. }
  destruct ts as [|[q e|c] ts]; cbn [targs]; [done| |].
  - destruct (Nat.leb_spec MAXARGS (S (length ws))); [unfold errors; set_solver|].
    specialize (IH ts ltac:(cbn; lia) (ws ++ [(q, e)]) rs ltac:(rewrite length_app; cbn [length]; lia)).
    destruct (targs _ rs ts); try done. destruct IH as (l & -> & -> & Hl). rewrite length_app in Hl. cbn [length] in Hl.
    exists (Arg (q, e) :: l). rewrite <- app_assoc. split_and!; try done. cbn [args flat_map app length]. fold (args l). lia.
  - destruct (redir_of c) as [k|] eqn:E.
    + apply redir_of_sym in E. subst c. destruct ts as [|[q e|d] ts]; try (by unfold errors; set_solver).
      specialize (IH ts ltac:(cbn; lia) ws (rs ++ [(k, (q, e))]) Hw).
      destruct (targs ws _ ts); try done. destruct IH as (l & -> & -> & Hl).
      exists (Redirect (k, (q, e)) :: l). by rewrite <- app_assoc.
    + destruct (strchr stops c); [done|]. unfold errors. set_solver.
Qed.

(** ** Lines *)
Lemma tbacks_sound ts : ts = replicate (tbacks ts).1 (Sym AMP) ++ (tbacks ts).2.
Proof.
  induction ts as [|[q e|c] ts IH]; try done. cbn [tbacks]. destruct (c =? AMP) eqn:E; [|done].
  apply Z.eqb_eq in E. subst c. cbn. by rewrite <- IH.
Qed.

Lemma tbacks_complete n ts : ends [RPAR; SEMI] ts -> tbacks (replicate n (Sym AMP) ++ ts) = (n, ts).
Proof.
  intros Ht. induction n as [|n IH]; cbn.
  - destruct ts as [|[q e|c] ts]; try done. cbn in *. rewrite !elem_of_cons, elem_of_nil in Ht. by destruct Ht as [->|[->|[]]].
  - by rewrite IH.
Qed.

Lemma looks_sym x t ts : x ∈ stops \/ x = LPAR -> looks [x] (t :: ts) = true -> t = Sym x.
Proof.
  intros Hx. destruct t as [q e|c]; cbn [looks lead].
  - cbn -[stops]. case_match; [|done]. intros _. exfalso. boolz. subst x. revert Hx. unfold stops. by intros [H%strchr_elem|H].
  - cbn [strchr]. case_match; [|done]. intros _. boolz. destruct (c =? PLUS) eqn:Ec; [|by subst].
    subst x. revert Hx. unfold stops. by intros [H%strchr_elem|H].
Qed.

Lemma ends_mono toks toks' ts : toks ⊆ toks' -> ends toks ts -> ends toks' ts.
Proof. destruct ts as [|[]]; cbn; auto. Qed.

(** The token parser, given fuel for the tokens it has, reads a sentence of
    the grammar or stops with one of the messages. *)
Definition reads (G : list tok -> cmd -> Prop) (ts : list tok) (r : res (list tok) cmd) : Prop :=
  match r with
  | Ok c ts' => exists ts1, ts = ts1 ++ ts' /\ G ts1 c
  | Panic m => m ∈ errors
  | _ => False
  end.

Lemma tparse_sound f :
  (forall ts, (4 * length ts + 4 <= f)%nat -> reads line ts (tline f ts)) /\
  (forall ts, (4 * length ts + 3 <= f)%nat -> reads pipeline ts (tpipe f ts)) /\
  (forall ts, (4 * length ts + 2 <= f)%nat -> reads command ts (texec f ts)) /\
  (forall ts, (4 * length ts + 1 <= f)%nat -> looks [LPAR] ts = true -> reads command ts (tblock f ts)).
Proof.
  induction f as [|f (IHl & IHp & IHe & IHb)]; [split_and!; intros; lia|].
  split_and!; intros ts Hf.
  - cbn [tline]. specialize (IHp ts ltac:(lia)). unfold bind at 1.
    destruct (tpipe f ts) as [c ts1| | |]; try done. destruct IHp as (ta & -> & Hc).
    rewrite length_app in Hf. unfold bind at 1. rewrite tpeek_bind.
    assert (Hb := tbacks_sound ts1). destruct (tbacks ts1) as [n ts2]. cbn [fst snd] in *. subst ts1.
    destruct (looks [SEMI] ts2) eqn:Es.
    + destruct ts2 as [|t ts2]; [done|]. apply looks_sym in Es; [|left; unfold stops; set_solver]. subst t. rewrite tnext_bind.
      rewrite length_app, length_replicate in Hf. cbn [length] in Hf. specialize (IHl ts2 ltac:(lia)). unfold bind.
      destruct (tline f ts2) as [d ts3| | |]; try done. destruct IHl as (tb & -> & Hd).
      exists (ta ++ replicate n (Sym AMP) ++ Sym SEMI :: tb). split; [by rewrite <- !app_assoc|]. by constructor.
    + exists (ta ++ replicate n (Sym AMP)). split; [by rewrite <- app_assoc|]. by constructor.
  - cbn [tpipe]. specialize (IHe ts ltac:(lia)). unfold bind at 1.
    destruct (texec f ts) as [c ts1| | |]; try done. destruct IHe as (ta & -> & Hc). rewrite length_app in Hf. rewrite tpeek_bind.
    destruct (looks [BAR] ts1) eqn:Es.
    + destruct ts1 as [|t ts1]; [done|]. apply looks_sym in Es; [|left; unfold stops; set_solver]. subst t. rewrite tnext_bind.
      cbn [length] in Hf. specialize (IHp ts1 ltac:(lia)). unfold bind.
      destruct (tpipe f ts1) as [d ts3| | |]; try done. destruct IHp as (tb & -> & Hd).
      exists (ta ++ Sym BAR :: tb). split; [by rewrite <- !app_assoc|]. by constructor.
    + exists ta. split; [done|]. by constructor.
  - cbn [texec]. rewrite tpeek_bind. destruct (looks [LPAR] ts) eqn:E; [apply IHb; [lia|done]|].
    assert (Hs := targs_sound [] [] ts ltac:(unfold MAXARGS; cbn; lia)). destruct (targs [] [] ts); try done.
    destruct Hs as (l & -> & -> & Hl). exists (flat_map etoks l). split; [done|]. by constructor.
  - intros Hp. cbn [tblock]. destruct ts as [|t ts]; [done|]. apply looks_sym in Hp; [|by right]. subst t. rewrite tnext_bind.
    cbn [length] in Hf. specialize (IHl ts ltac:(lia)). unfold bind at 1.
    destruct (tline f ts) as [c ts1| | |]; try done. destruct IHl as (ta & -> & Hc). rewrite tpeek_bind.
    destruct (looks [RPAR] ts1) eqn:Es; cbn [negb]; [|unfold errors; cbn; set_solver].
    destruct ts1 as [|t ts1]; [done|]. apply looks_sym in Es; [|left; unfold stops; set_solver]. subst t. rewrite tnext_bind.
    assert (Hs := tredirs_sound [] ts1). unfold bind. destruct (tredirs [] ts1) as [rs ts2| | |]; try done.
    destruct Hs as (rs' & -> & ->). exists (Sym LPAR :: ta ++ Sym RPAR :: flat_map rtoks rs').
    split; [cbn; by rewrite <- !app_assoc|]. by constructor.
Qed.

Lemma looks_end x toks ts : ends toks ts -> x ∉ toks -> x ∈ symbols -> x <> GT -> looks [x] ts = false.
Proof.
  destruct ts as [|[q e|c] ts]; try done. intros Hc Hx Hs Hg. cbn in *. case_match; [|done]. boolz.
  destruct (c =? PLUS); [by subst|]. by subst.
Qed.

Lemma tparse_complete :
  (forall ts c, line ts c -> forall f ts', (4 * length (ts ++ ts') + 4 <= f)%nat -> ends [RPAR] ts' -> tline f (ts ++ ts') = Ok c ts') /\
  (forall ts c, pipeline ts c -> forall f ts', (4 * length (ts ++ ts') + 3 <= f)%nat -> ends [RPAR; AMP; SEMI] ts' -> tpipe f (ts ++ ts') = Ok c ts') /\
  (forall ts c, command ts c -> forall f ts', (4 * length (ts ++ ts') + 2 <= f)%nat -> ends stops ts' -> texec f (ts ++ ts') = Ok c ts').
Proof.
  apply grammar_ind.
  - intros ts c n _ IH f ts' Hf He. destruct f as [|f]; [lia|]. cbn [tline]. rewrite <- app_assoc in *. unfold bind at 1.
    assert (He' : ends [RPAR; SEMI] ts') by (eapply ends_mono; [|done]; set_solver).
    rewrite IH; [|lia|destruct n; [by eapply ends_mono; [|done]; set_solver|cbn; set_solver]].
    unfold bind at 1. rewrite tbacks_complete by done. cbn [fst snd]. rewrite tpeek_bind.
    rewrite (looks_end SEMI _ _ He); [done|set_solver|set_solver|done].
  - intros ts c n tsd d _ IH _ IHd f ts' Hf He. destruct f as [|f]; [lia|]. cbn [tline].
    rewrite <- !app_assoc in *. cbn [app] in *. unfold bind at 1. rewrite IH; [|lia|destruct n; cbn; set_solver].
    unfold bind at 1. rewrite tbacks_complete by (cbn; set_solver). cbn [fst snd]. rewrite tpeek_bind. cbn [looks lead].
    change (strchr _ _) with true. cbv iota. rewrite tnext_bind. unfold bind.
    rewrite !length_app, length_replicate in Hf. cbn [length] in Hf. rewrite length_app in Hf.
    rewrite IHd; [done|rewrite length_app; lia|done].
  - intros ts c _ IH f ts' Hf He. destruct f as [|f]; [lia|]. cbn [tpipe]. unfold bind at 1.
    rewrite IH; [|lia|eapply ends_mono; [|done]; unfold stops; set_solver]. rewrite tpeek_bind.
    rewrite (looks_end BAR _ _ He); [done|set_solver|set_solver|done].
  - intros ts c tsd d _ IH _ IHd f ts' Hf He. destruct f as [|f]; [lia|]. cbn [tpipe]. rewrite <- !app_assoc in *. cbn [app] in *.
    unfold bind at 1. rewrite IH; [|lia|unfold stops; cbn; set_solver]. rewrite tpeek_bind. cbn [looks lead].
    change (strchr _ _) with true. cbv iota. rewrite tnext_bind. unfold bind.
    rewrite !length_app in Hf. cbn [length] in Hf. rewrite length_app in Hf. rewrite IHd; [done|rewrite length_app; lia|done].
  - intros ts c rs _ IH f ts' Hf He. destruct f as [|[|f]]; [lia|cbn in Hf; lia|]. cbn [texec tblock app]. rewrite tpeek_bind.
    cbn [looks lead]. change (strchr _ _) with true. cbv iota. rewrite tnext_bind. rewrite <- app_assoc. cbn [app].
    cbn [length app] in Hf. rewrite <- app_assoc in Hf. cbn [app] in Hf. unfold bind at 1.
    rewrite IH; [|lia|cbn; set_solver]. rewrite tpeek_bind. cbn [looks lead]. change (strchr _ _) with true. cbn [negb].
    rewrite tnext_bind. unfold bind. by rewrite tredirs_complete by (by apply ends_redir).
  - intros l Hl f ts' Hf He. destruct f as [|f]; [lia|]. cbn [texec]. rewrite tpeek_bind.
    replace (looks [LPAR] _) with false; [by rewrite targs_complete|].
    destruct l as [|[[q e]|[[] [q e]]] l]; try done. symmetry. eapply looks_end; [done|unfold stops; set_solver|set_solver|done].
Qed.
