(* ===== verification/ShSpec.v ===== *)
(** * What the shell's parser promises

    [parsecmd] always stops; it accepts exactly the sentences of the grammar;
    the words of a command are NUL-terminated strings in the line; and every
    command can be written down so that parsing gives it back. *)

From S2P Require Import Prelude Riscv Sh ShLex ShParse.
Local Open Scope Z_scope.

(** ** Strings in memory *)

(** The C string at the beginning of [l]. *)
Fixpoint until_nul (l : list Z) : option (list Z) :=
  match l with [] => None | c :: l' => if c =? 0 then Some [] else cons c <$> until_nul l' end.

Definition c_string (b : list Z) (p : nat) : option (list Z) := until_nul (drop p b).
Arguments c_string : simpl never.

(** The characters of a range of the line. *)
Definition slice (text : list Z) (w : nat * nat) : list Z := take (w.2 - w.1) (drop w.1 text).

Lemma until_nul_app l l' : Forall (fun c => c <> 0) l -> until_nul (l ++ 0 :: l') = Some l.
Proof. induction 1 as [|c l Hc _ IH]; cbn; [done|]. rewrite (proj2 (Z.eqb_neq _ _) Hc), IH. done. Qed.

Lemma strlen_app l l' : Forall (fun c => c <> 0) l -> strlen (l ++ 0 :: l') = Some (length l).
Proof. induction 1 as [|c l Hc _ IH]; cbn; [done|]. by rewrite (proj2 (Z.eqb_neq _ _) Hc), IH. Qed.

(** ** NUL-termination *)
Definition put_nuls (l : list nat) (b : list Z) : list Z := foldl (fun b e => <[e := 0]> b) b l.

Lemma put_nuls_app l l' b : put_nuls (l ++ l') b = put_nuls l' (put_nuls l b).
Proof. apply foldl_app. Qed.

Lemma put_nuls_length l b : length (put_nuls l b) = length b.
Proof. revert b. induction l as [|e l IH]; intros b; cbn; [done|]. unfold put_nuls in IH. by rewrite IH, length_insert. Qed.

Lemma put_nuls_in l b i : i ∈ l -> (i < length b)%nat -> put_nuls l b !! i = Some 0.
Proof.
  induction l as [|e l IH] using rev_ind; [set_solver|]. intros Hi Hlt.
  rewrite put_nuls_app. cbn. destruct (decide (i = e)) as [->|Hne].
  - rewrite list_lookup_insert_eq; [done|]. by rewrite put_nuls_length.
  - rewrite list_lookup_insert_ne by done. apply IH; set_solver.
Qed.

Lemma put_nuls_out l b i : i ∉ l -> put_nuls l b !! i = b !! i.
Proof.
  induction l as [|e l IH] using rev_ind; [done|]. intros Hi. rewrite put_nuls_app. cbn.
  rewrite list_lookup_insert_ne by set_solver. apply IH. set_solver.
Qed.

Arguments put_nuls : simpl never.

(** The state after [l] positions have been overwritten. *)
Definition with_nuls (l : list nat) (s : parser) : parser := mkparser (put_nuls l (buf s)) (cur s) (nodes s).

Lemma put_nul_ok e s : (e < length (buf s))%nat -> put_nul e s = Ok tt (with_nuls [e] s).
Proof. intros H. unfold put_nul. by rewrite (proj2 (Nat.ltb_lt _ _) H). Qed.

Lemma with_nuls_app l l' s : with_nuls l' (with_nuls l s) = with_nuls (l ++ l') s.
Proof. unfold with_nuls. cbn. by rewrite put_nuls_app. Qed.

Lemma terminate_args_ok ws k s : Forall (fun w => (w.2 < length (buf s))%nat) ws ->
  terminate_args ((Some ∘ fst <$> ws) ++ replicate (S k) None) ((Some ∘ snd <$> ws) ++ replicate (S k) None) s = Ok tt (with_nuls (snd <$> ws) s).
Proof.
  revert s. induction ws as [|[q e] ws IH]; intros s Hw.
  - by destruct s.
  - apply Forall_cons in Hw as [He Hw]. cbn. unfold bind. rewrite put_nul_ok by done. rewrite IH; [by rewrite with_nuls_app|].
    eapply Forall_impl; [done|]. intros w. cbn. by rewrite put_nuls_length.
Qed.

Lemma nulterminate_ok n p c s : tree (nodes s) p c -> (p <= n)%nat -> Forall (fun w => (w.2 < length (buf s))%nat) (words c) ->
  nulterminate n p s = Ok tt (with_nuls (snd <$> words c) s).
Proof.
  assert (Hlen : forall l s (ws : list (nat * nat)), Forall (fun w => (w.2 < length (buf s))%nat) ws ->
    Forall (fun w => (w.2 < length (buf (with_nuls l s)))%nat) ws).
  { intros l s' ws H. eapply Forall_impl; [done|]. intros w. cbn. by rewrite put_nuls_length. }
  intros Ht. remember (nodes s) as l eqn:El. revert n s El. induction Ht as [p ws argv eargv Hn Ha|p q c f e mode fd Hn Hq Ht IH|p q r c d Hn Hq Hr Hc IHc Hd IHd|p q r c d Hn Hq Hr Hc IHc Hd IHd|p q c Hn Hq Ht IH];
    intros n s El Hle Hw; (destruct p as [|p]; [done|]); (destruct n as [|n]; [lia|]); cbn [nulterminate]; unfold bind at 1, gets; rewrite <- El, Hn.
  - destruct Ha as (Hl & -> & ->). destruct (MAXARGS - length ws)%nat as [|k] eqn:E; [lia|]. by apply terminate_args_ok.
  - cbn in Hw. apply Forall_app in Hw as [Hw1 Hw2]. rewrite Forall_singleton in Hw2. unfold bind. rewrite IH by (done || lia).
    rewrite put_nul_ok by (unfold with_nuls; cbn [buf]; rewrite put_nuls_length; exact Hw2).
    rewrite with_nuls_app. cbn [words]. by rewrite fmap_app.
  - cbn in Hw. apply Forall_app in Hw as [Hw1 Hw2]. unfold bind. rewrite IHc by (done || lia).
    rewrite IHd by (done || lia || by apply Hlen). rewrite with_nuls_app. cbn [words]. by rewrite fmap_app.
  - cbn in Hw. apply Forall_app in Hw as [Hw1 Hw2]. unfold bind. rewrite IHc by (done || lia).
    rewrite IHd by (done || lia || by apply Hlen). rewrite with_nuls_app. cbn [words]. by rewrite fmap_app.
  - apply IH; [done|lia|done].
Qed.

(** A word of the line is a string once all words are terminated. *)
Lemma word_string text junk ws w : Forall (fun c => c <> 0) text -> Forall (word_in text) ws -> w ∈ ws ->
  c_string (put_nuls (snd <$> ws) (text ++ 0 :: junk)) w.1 = Some (slice text w).
Proof.
  intros Hnz Hws Hw. assert (Hin := Forall_forall (word_in text) ws). destruct Hin as [Hin _]. specialize (Hin Hws).
  destruct (Hin w Hw) as ((Hlt & Hle) & Hch & Hend). unfold c_string.
  set (b := put_nuls _ _).
  assert (Hb : drop w.1 b = slice text w ++ 0 :: drop (S w.2) b).
  { apply list_eq. intros i. rewrite lookup_drop.
    assert (Hsl : length (slice text w) = (w.2 - w.1)%nat) by (unfold slice; rewrite length_take, length_drop; lia).
    destruct (decide (w.1 + i < w.2)%nat) as [Hi|Hi].
    - rewrite lookup_app_l by lia. unfold slice. rewrite lookup_take_lt, lookup_drop by lia. unfold b. rewrite put_nuls_out.
      + apply lookup_app_l. lia.
      + intros ([q e] & He & Hqe)%list_elem_of_fmap. cbn in He. subst e. destruct (Hin _ Hqe) as (_ & _ & Hend').
        destruct (lookup_lt_is_Some_2 text (w.1 + i)) as [c Hc]; [lia|].
        specialize (Hend' c Hc). by rewrite (Hch (w.1 + i)%nat c) in Hend' by (done || lia).
    - rewrite lookup_app_r by lia. rewrite Hsl. set (b2 := drop (S w.2) b). destruct (i - (w.2 - w.1))%nat as [|j] eqn:Ej.
      + cbn. replace (w.1 + i)%nat with w.2 by lia. apply put_nuls_in; [by apply list_elem_of_fmap_2|]. rewrite length_app. cbn. lia.
      + change ((0 :: b2) !! S j) with (b2 !! j). unfold b2. rewrite lookup_drop. f_equal. lia. }
  rewrite Hb. apply until_nul_app. by apply Forall_take, Forall_drop.
Qed.

(** ** A whole line *)
Section Line.
Variables text junk : list Z.
Hypothesis nonzero : Forall (fun c => c <> 0) text.
Variable memory : nat -> bool.
Variable s : parser.
Hypothesis line_buf : buf s = text ++ 0 :: junk.

(** The result of parsing: nodes for the tree [c], and its words terminated. *)
Definition parsed (p : nat) (s' : parser) (c : cmd) : Prop :=
  tree (nodes s') p c /\ Forall (word_in text) (words c) /\ buf s' = put_nuls (snd <$> words c) (text ++ 0 :: junk).

Lemma parsecmd_run :
  match parsecmd memory s with
  | Ok p s' => exists c, tline (4 * length text + 4) (tokens 0 text) = Ok c [] /\ parsed p s' c
  | Panic m => tline (4 * length text + 4) (tokens 0 text) = Panic m \/
      (m = "syntax"%string /\ exists c t ts, tline (4 * length text + 4) (tokens 0 text) = Ok c (t :: ts))
  | Undef => exists p, memory p = false
  | Hang => tline (4 * length text + 4) (tokens 0 text) = Hang
  end.
Proof.
  unfold parsecmd, bind at 1, gets. rewrite line_buf, strlen_app by done. unfold bind at 1, set_cur, modify.
  set (s0 := mkparser _ _ _). set (f := (4 * length text + 4)%nat).
  assert (Hi : input text junk s0 (tokens 0 text)) by (split_and!; [done|cbn; lia|done]).
  assert (Hs := proj1 (parse_sim text junk nonzero memory f) s0 _ Hi). unfold bind at 1.
  destruct (parseline memory f _ s0) as [p s1|m| |], (tline f _) as [c ts|m'| |]; cbn in Hs; try done; [|subst; by left].
  destruct Hs as (Hi1 & Hl1 & Ht1 & Hw1).
  destruct (peek_tokens text junk nonzero s1 ts [] Hi1 eq_refl) as (s2 & E2 & Hi2 & Hn2 & Hcur).
  unfold bind at 1. rewrite E2. unfold bind at 1. destruct (Nat.eqb_spec (cur s2) (length text)) as [E|E]; cbn [negb].
  - apply Hcur in E. subst ts. unfold bind. rewrite (nulterminate_ok p p c s2); [|by rewrite Hn2|done|].
    + exists c. split; [done|]. split_and!; [cbn; by rewrite Hn2|done|]. cbn. by rewrite (proj1 Hi2).
    + rewrite (proj1 Hi2). eapply Forall_impl; [done|]. intros w ((_ & H) & _). rewrite length_app. cbn. lia.
  - right. split; [done|]. destruct ts as [|t ts]; [by destruct E; apply Hcur|]. by exists c, t, ts.
Qed.

Lemma fuel_enough : (4 * length (tokens 0 text) + 4 <= 4 * length text + 4)%nat.
Proof. assert (H := tokens_length 0 text). lia. Qed.

Lemma parsecmd_sound p s' : parsecmd memory s = Ok p s' -> exists c, line (tokens 0 text) c /\ parsed p s' c.
Proof.
  intros E. assert (H := parsecmd_run). rewrite E in H. destruct H as (c & Ht & Hp). exists c. split; [|done].
  assert (Hs := proj1 (tparse_sound _) _ fuel_enough). rewrite Ht in Hs. destruct Hs as (ts1 & -> & Hl). by rewrite app_nil_r.
Qed.

Lemma parsecmd_complete c : (forall p, memory p = true) -> line (tokens 0 text) c ->
  exists p s', parsecmd memory s = Ok p s' /\ parsed p s' c.
Proof.
  intros Hm Hl. assert (Hc := proj1 tparse_complete _ _ Hl (4 * length text + 4)%nat []).
  rewrite app_nil_r in Hc. specialize (Hc fuel_enough I). assert (H := parsecmd_run). rewrite Hc in H.
  destruct (parsecmd memory s) as [p s'|m| |].
  - destruct H as (c' & [= <-] & Hp). by exists p, s'.
  - destruct H as [H|[_ (? & ? & ? & H)]]; done.
  - destruct H as (p & H). by rewrite Hm in H.
  - done.
Qed.

Lemma parsecmd_outcomes :
  match parsecmd memory s with
  | Ok _ _ => True
  | Panic m => m ∈ errors
  | Undef => exists p, memory p = false
  | Hang => False
  end.
Proof.
  assert (H := parsecmd_run). assert (Hs := proj1 (tparse_sound _) _ fuel_enough).
  destruct (parsecmd memory s) as [p s'|m| |]; try done.
  - destruct H as [H|[-> _]]; [by rewrite H in Hs|]. unfold errors. set_solver.
  - by rewrite H in Hs.
Qed.
End Line.

(** A node represents one tree. *)
Lemma arrays_inj ws ws' argv eargv : arrays ws argv eargv -> arrays ws' argv eargv -> ws = ws'.
Proof.
  assert (H : forall (ws : list (nat * nat)) argv eargv, arrays ws argv eargv -> ws = zip (omap id argv) (omap id eargv)).
  { clear. intros ws argv eargv (_ & -> & ->). rewrite !omap_app.
    replace (omap id (replicate _ None)) with (@nil nat) by (induction (MAXARGS - length ws)%nat; cbn; auto).
    rewrite !app_nil_r. induction ws as [|[q e] ws IH]; [done|]. cbn. f_equal. exact IH. }
  intros H1%H H2%H. by subst.
Qed.

Lemma tree_inj l p c c' : tree l p c -> tree l p c' -> c = c'.
Proof.
  intros H. revert c'. induction H as [p ws a e Hn Ha|p q c f e m d Hn _ _ IH|p q r c d Hn _ _ _ IHc _ IHd|p q r c d Hn _ _ _ IHc _ IHd|p q c Hn _ _ IH];
    intros c' H'; destruct H'; simplify_eq; f_equal; eauto using arrays_inj.
Qed.

(** ** Commands as text *)
Inductive stree :=
| SExec (argv : list (list Z))
| SRedir (t : stree) (k : rkind) (file : list Z)
| SPipe (l r : stree)
| SSeq (l r : stree)
| SBack (t : stree).

(** [c] is [t], with [rd] giving the characters of a word. *)
Fixpoint spells (rd : nat * nat -> option (list Z)) (c : cmd) (t : stree) : Prop :=
  match c, t with
  | Exec ws, SExec argv => rd <$> ws = Some <$> argv
  | Redir c f mode fd, SRedir t k w => spells rd c t /\ rd f = Some w /\ mode = rmode k /\ fd = rfd k
  | Pipe c d, SPipe t u => spells rd c t /\ spells rd d u
  | Seq c d, SSeq t u => spells rd c t /\ spells rd d u
  | Back c, SBack t => spells rd c t
  | _, _ => False
  end.

(** The nodes at [p] stand for [t], the words being strings in memory. *)
Definition represents (s : parser) (p : nat) (t : stree) : Prop :=
  exists c, tree (nodes s) p c /\ spells (fun w => c_string (buf s) w.1) c t.

Lemma spells_ext rd rd' c t : Forall (fun w => rd w = rd' w) (words c) -> spells rd c t -> spells rd' c t.
Proof.
  revert t. induction c as [ws|c IH f m d|c IHc d IHd|c IHc d IHd|c IH]; intros t Hw; destruct t; cbn in *; try done.
  - intros <-. symmetry. apply list_fmap_ext. intros i w Hi. by apply (Forall_lookup_1 _ _ _ _ Hw Hi).
  - apply Forall_app in Hw as [Hw1 Hw2]. rewrite Forall_singleton in Hw2. rewrite Hw2. naive_solver.
  - apply Forall_app in Hw as [Hw1 Hw2]. naive_solver.
  - apply Forall_app in Hw as [Hw1 Hw2]. naive_solver.
  - naive_solver.
Qed.

(** A tree as text: every token is followed by a space, and every proper
    subcommand is in parentheses. *)
Inductive stok := SW (w : list Z) | SS (c : Z).

Definition spell (x : stok) : list Z :=
  match x with SW w => w ++ [32] | SS c => (if c =? PLUS then [GT; GT] else [c]) ++ [32] end.
Definition layout (l : list stok) : list Z := flat_map spell l.

Definition parens (l : list stok) : list stok := SS LPAR :: l ++ [SS RPAR].
Fixpoint stoks (t : stree) : list stok :=
  match t with
  | SExec argv => SW <$> argv
  | SRedir t k w => parens (stoks t) ++ [SS (rsym k); SW w]
  | SPipe t u => parens (stoks t) ++ SS BAR :: parens (stoks u)
  | SSeq t u => parens (stoks t) ++ SS SEMI :: parens (stoks u)
  | SBack t => parens (stoks t) ++ [SS AMP]
  end.
Definition print (t : stree) : list Z := layout (stoks t).

(** Words are not empty and free of separators; not too many arguments. *)
Definition good_word (w : list Z) : Prop := w <> [] /\ Forall (fun c => wordchar c = true /\ c <> 0) w.
Fixpoint printable (t : stree) : Prop :=
  match t with
  | SExec argv => Forall good_word argv /\ (length argv < MAXARGS)%nat
  | SRedir t _ w => printable t /\ good_word w
  | SPipe t u | SSeq t u => printable t /\ printable u
  | SBack t => printable t
  end.

(** ** Lexing printed text *)
Definition good_tok (x : stok) : Prop := match x with SW w => good_word w | SS c => c ∈ PLUS :: symbols end.

(** The tokens of a printed list that starts at position [p]. *)
Fixpoint place (p : nat) (l : list stok) : list tok :=
  match l with
  | [] => []
  | x :: l' => match x with SW w => Word p (p + length w) | SS c => Sym c end :: place (p + length (spell x)) l'
  end.

Lemma place_app p l l' : place p (l ++ l') = place p l ++ place (p + length (layout l)) l'.
Proof.
  revert p. induction l as [|x l IH]; intros p; cbn; [by rewrite Nat.add_0_r|].
  rewrite IH, length_app. by rewrite Nat.add_assoc.
Qed.

Lemma run_word w l : Forall (fun c => wordchar c = true /\ c <> 0) w -> run wordchar (w ++ 32 :: l) = length w.
Proof. induction 1 as [|c w [Hc _] _ IH]; cbn; [done|]. by rewrite Hc, IH. Qed.

(** White space at the end of the line. *)
Definition blank (l : list Z) : Prop := Forall (fun c => c ∈ whitespace) l.

Lemma tokens_blank p l : blank l -> tokens p l = [].
Proof. intros H. revert p. induction H as [|c l Hc _ IH]; intros p; [done|]. cbn [tokens]. by rewrite (proj2 (strchr_elem _ _) Hc). Qed.

Lemma tokens_layout p l e : Forall good_tok l -> blank e -> tokens p (layout l ++ e) = place p l.
Proof.
  intros Hl He. revert p. induction Hl as [|x l Hx Hl IH]; intros p; [by apply tokens_blank|].
  cbn [layout flat_map place]. fold (layout l). rewrite <- app_assoc. destruct x as [w|c].
  - destruct Hx as [Hne Hw]. cbn [spell]. rewrite <- app_assoc. cbn [app]. rewrite tokens_word.
    + rewrite run_word by done. rewrite drop_app_length. f_equal. cbn [tokens]. change (strchr whitespace 32) with true. cbv iota.
      rewrite IH. f_equal. rewrite length_app. cbn. lia.
    + destruct w as [|c w]; [done|]. cbn. by apply Forall_cons in Hw as [[? _] _].
  - cbn [good_tok] in Hx. unfold symbols in Hx. rewrite !elem_of_cons, elem_of_nil in Hx.
    destruct Hx as [->|[->|[->|[->|[->|[->|[->|[->|[]]]]]]]]]; cbn [spell]; change (PLUS =? PLUS) with true; cbn -[tokens layout place];
      rewrite <- IH; repeat (cbn [tokens]; cbn -[tokens layout]); try done; do 2 f_equal; lia.
Qed.

Lemma stoks_good t : printable t -> Forall good_tok (stoks t).
Proof.
  assert (Hp : forall l, Forall good_tok l -> Forall good_tok (parens l)).
  { intros l Hl. constructor; [by apply strchr_elem|]. apply Forall_app. split; [done|]. constructor; [by apply strchr_elem|done]. }
  induction t as [argv|t IH k w|t IHt u IHu|t IHt u IHu|t IH]; cbn [stoks printable].
  - intros [H _]. by apply Forall_fmap.
  - intros [H1 H2]. apply Forall_app. split; [by apply Hp, IH|]. constructor; [apply strchr_elem; by destruct k|]. by apply Forall_singleton.
  - intros [H1 H2]. apply Forall_app. split; [by apply Hp, IHt|]. constructor; [by apply strchr_elem|]. by apply Hp, IHu.
  - intros [H1 H2]. apply Forall_app. split; [by apply Hp, IHt|]. constructor; [by apply strchr_elem|]. by apply Hp, IHu.
  - intros H. apply Forall_app. split; [by apply Hp, IH|]. constructor; [by apply strchr_elem|constructor].
Qed.

Lemma layout_nonzero l : Forall good_tok l -> Forall (fun c => c <> 0) (layout l).
Proof.
  induction 1 as [|x l Hx _ IH]; [constructor|]. cbn. apply Forall_app. split; [|done]. destruct x as [w|c].
  - apply Forall_app. split; [|by repeat constructor]. eapply Forall_impl; [apply Hx|]. naive_solver.
  - cbn in *. apply Forall_app. split; [|by repeat constructor]. destruct (c =? PLUS); [by repeat constructor|].
    constructor; [|constructor]. intros ->. by apply strchr_elem in Hx.
Qed.

(** ** The tree of printed text *)
Abbreviation chars text := (fun w => Some (slice text w)).

Lemma slice_mid text p pre w post : text = pre ++ w ++ post -> p = length pre -> slice text (p, (p + length w)%nat) = w.
Proof.
  intros -> ->. unfold slice. cbn. rewrite drop_app_length.
  replace (length pre + length w - length pre)%nat with (length w) by lia. apply take_app_length.
Qed.

Lemma place_words argv pre post text : text = pre ++ layout (SW <$> argv) ++ post ->
  exists ws, place (length pre) (SW <$> argv) = (fun w => Word w.1 w.2) <$> ws /\ chars text <$> ws = Some <$> argv.
Proof.
  revert pre. induction argv as [|w argv IH]; intros pre E; [by exists []|].
  destruct (IH (pre ++ w ++ [32])) as (ws & Hp & Hs).
  { rewrite E. change (layout (SW <$> w :: argv)) with ((w ++ [32]) ++ layout (SW <$> argv)). by rewrite <- !app_assoc. }
  exists ((length pre, (length pre + length w)%nat) :: ws). cbn -[slice]. split.
  - f_equal. rewrite <- Hp. f_equal. by rewrite (length_app pre).
  - f_equal; [|done]. f_equal. eapply (slice_mid _ _ pre); [|done]. rewrite E. cbn. by rewrite <- !app_assoc.
Qed.

Lemma args_of ws : flat_map etoks (Arg <$> ws) = (fun w => Word w.1 w.2) <$> ws /\ args (Arg <$> ws) = ws /\ redirects (Arg <$> ws) = [].
Proof. induction ws as [|w ws (H1 & H2 & H3)]; [done|]. cbn. unfold args, redirects in *. by rewrite H1, H2, H3. Qed.

(** [t] printed somewhere in [text] is a line. *)
Definition prints (t : stree) : Prop := forall pre post text, text = pre ++ print t ++ post ->
  exists c, line (place (length pre) (stoks t)) c /\ spells (chars text) c t.

Lemma prints_parens t pre post text : prints t -> text = pre ++ layout (parens (stoks t)) ++ post ->
  exists ts c, place (length pre) (parens (stoks t)) = Sym LPAR :: ts ++ [Sym RPAR] /\ line ts c /\ spells (chars text) c t.
Proof.
  intros H E. destruct (H (pre ++ [LPAR; 32]) ([RPAR; 32] ++ post) text) as (c & Hl & Hs).
  { rewrite E. unfold parens, layout, print. cbn. rewrite flat_map_app. cbn. by rewrite <- !app_assoc. }
  do 2 eexists. split_and!; [|done|done]. unfold parens. cbn [place]. rewrite place_app. cbn. by rewrite length_app.
Qed.

Lemma command_parens ts c : line ts c -> command (Sym LPAR :: ts ++ [Sym RPAR]) c.
Proof. intros H. exact (command_block ts c [] H). Qed.

Lemma line_one ts c : command ts c -> line ts c.
Proof. intros H. rewrite <- (app_nil_r ts). by apply (line_last ts c 0), pipeline_one. Qed.

Lemma layout_app l l' : layout (l ++ l') = layout l ++ layout l'.
Proof. apply flat_map_app. Qed.

(** Two commands in parentheses around a separator. *)
Lemma prints_two t u x pre post text : prints t -> prints u -> text = pre ++ layout (parens (stoks t) ++ SS x :: parens (stoks u)) ++ post ->
  exists ts us c d, place (length pre) (parens (stoks t) ++ SS x :: parens (stoks u)) = ts ++ Sym x :: us /\
    command ts c /\ command us d /\ spells (chars text) c t /\ spells (chars text) d u.
Proof.
  intros Ht Hu E. rewrite layout_app in E. cbn [layout flat_map] in E. fold (layout (parens (stoks u))) in E.
  destruct (prints_parens t pre ((spell (SS x) ++ layout (parens (stoks u))) ++ post) text Ht) as (ts & c & Ep & Hl & Hs).
  { rewrite E. by rewrite <- !app_assoc. }
  destruct (prints_parens u (pre ++ layout (parens (stoks t)) ++ spell (SS x)) post text Hu) as (us & d & Eq & Hl' & Hs').
  { rewrite E. by rewrite <- !app_assoc. }
  exists (Sym LPAR :: ts ++ [Sym RPAR]), (Sym LPAR :: us ++ [Sym RPAR]), c, d.
  split; [|by auto using command_parens]. rewrite place_app, Ep. cbn [place]. rewrite <- Eq. do 3 f_equal.
  rewrite !length_app. lia.
Qed.

Lemma print_line t : printable t -> prints t.
Proof.
  induction t as [argv|t IH k w|t IHt u IHu|t IHt u IHu|t IH]; cbn [printable]; intros Hp pre post text E; unfold print in E; cbn [stoks] in *.
  - destruct Hp as [_ Hlen]. destruct (place_words argv pre post text E) as (ws & -> & Hs).
    destruct (args_of ws) as (H1 & H2 & H3). exists (Exec ws). split; [|done]. rewrite <- H1. apply line_one.
    replace (Exec ws) with (wrap (redirects (Arg <$> ws)) (Exec (args (Arg <$> ws)))) by (by rewrite H2, H3).
    constructor. rewrite H2. apply (f_equal length) in Hs. rewrite !length_fmap in Hs. by rewrite Hs.
  - destruct Hp as [Ht Hw]. rewrite layout_app in E. destruct (prints_parens t pre (layout [SS (rsym k); SW w] ++ post) text (IH Ht)) as (ts & c & Ep & Hl & Hs).
    { rewrite E. by rewrite <- !app_assoc. }
    rewrite place_app, Ep. cbn [place]. eexists. split.
    + apply line_one. rewrite <- app_comm_cons, <- app_assoc. refine (command_block ts c [(k, (_, _))] Hl).
    + cbn [wrap fold_left fst snd spells]. split_and!; try done. f_equal.
      eapply (slice_mid _ _ (pre ++ layout (parens (stoks t)) ++ spell (SS (rsym k)))); [|by rewrite !length_app; lia].
      rewrite E. cbn [layout flat_map spell]. by rewrite <- !app_assoc.
  - destruct Hp as [Ht Hu]. destruct (prints_two t u BAR pre post text (IHt Ht) (IHu Hu) E) as (ts & us & c & d & -> & Hc & Hd & H1 & H2).
    exists (Pipe c d). split; [|done]. rewrite <- (app_nil_r (_ ++ _)). apply (line_last _ _ 0). by repeat constructor.
  - destruct Hp as [Ht Hu]. destruct (prints_two t u SEMI pre post text (IHt Ht) (IHu Hu) E) as (ts & us & c & d & -> & Hc & Hd & H1 & H2).
    exists (Seq c d). split; [|done]. apply (line_seq _ _ 0); [by constructor|by apply line_one].
  - rewrite layout_app in E. destruct (prints_parens t pre (layout [SS AMP] ++ post) text (IH Hp)) as (ts & c & Ep & Hl & Hs).
    { rewrite E. by rewrite <- !app_assoc. }
    rewrite place_app, Ep. cbn [place]. exists (Back c). split; [|done]. apply (line_last _ _ 1). by constructor; apply command_parens.
Qed.

(** ** The theorems *)

(** The end of the proofs below: strings of the terminated line. *)
Lemma parsed_strings text junk p s' c : Forall (fun c => c <> 0) text -> parsed text junk p s' c ->
  Forall (fun w => c_string (buf s') w.1 = Some (slice text w)) (words c).
Proof. intros Hnz (_ & Hw & ->). apply Forall_forall. intros w Hin. by apply word_string. Qed.

(** A line with a pipe, a block, a list, redirections and [&]. *)
Definition sample : stree :=
  SSeq (SBack (SPipe (SRedir (SExec [[108; 115]; [45; 108]]) From [102]) (SSeq (SExec [[119; 99]]) (SExec []))))
    (SRedir (SExec [[97]]) Append [98]).

Definition shell_state (t : stree) : parser := mkparser (print t ++ [0; 7]) 0 [].

Lemma sample_printable : printable sample.
Proof. repeat split; repeat constructor; done. Qed.

Lemma sample_nonzero : Forall (fun c => c <> 0) (print sample).
Proof. apply layout_nonzero, stoks_good, sample_printable. Qed.

(** C34.  Parsing a command line always comes to an end, whatever the line and
    whichever allocations succeed: [parsecmd] returns a command, or the shell
    exits with one of its four messages, or memory is exhausted.  It never
    loops and never touches a character outside the line. *)
Theorem parsecmd_terminates (text junk : list Z) (memory : nat -> bool) (s : parser) :
  Forall (fun c => c <> 0) text -> buf s = text ++ 0 :: junk ->
  match parsecmd memory s with
  | Ok _ _ => True
  | Panic m => m ∈ errors
  | Undef => exists p, memory p = false
  | Hang => False
  end.
Proof. intros Hnz Hb. by eapply parsecmd_outcomes. Qed.

Lemma parsecmd_terminates_witness :
  match parsecmd (fun p => Nat.ltb p 3) (shell_state sample) with
  | Ok _ _ => True | Panic m => m ∈ errors | Undef => exists p, (p <? 3)%nat = false | Hang => False
  end.
Proof. by apply (parsecmd_terminates (print sample) [7] (fun p => Nat.ltb p 3)); [apply sample_nonzero|]. Defined.

(** C7.  The shell accepts exactly the sentences of its grammar, for every
    spacing of the line: [parsecmd] builds nodes for the tree [c] if and only
    if the grammar assigns [c] to the tokens of the line. *)
Theorem parsecmd_grammar (text junk : list Z) (memory : nat -> bool) (s : parser) (c : cmd) :
  Forall (fun c => c <> 0) text -> buf s = text ++ 0 :: junk -> (forall p, memory p = true) ->
  (exists p s', parsecmd memory s = Ok p s' /\ tree (nodes s') p c) <-> line (tokens 0 text) c.
Proof.
  intros Hnz Hb Hm. split.
  - intros (p & s' & E & Ht). destruct (parsecmd_sound text junk Hnz memory s Hb p s' E) as (c' & Hl & Ht' & _).
    by rewrite (tree_inj _ _ _ _ Ht Ht').
  - intros Hl. destruct (parsecmd_complete text junk Hnz memory s Hb c Hm Hl) as (p & s' & E & Ht & _). by exists p, s'.
Qed.

Lemma parsecmd_grammar_witness :
  (exists p s', parsecmd (fun _ => true) (mkparser [97; 124; 98; 0] 0 []) = Ok p s' /\ tree (nodes s') p (Pipe (Exec [(0, 1)]) (Exec [(2, 3)]))%nat) <->
  line [Word 0 1; Sym BAR; Word 2 3] (Pipe (Exec [(0, 1)]) (Exec [(2, 3)]))%nat.
Proof. apply (parsecmd_grammar [97; 124; 98] [] (fun _ => true)); [by repeat constructor|done|done]. Defined.

(** C35.  A command that [parsecmd] returns is well formed: its nodes form a
    tree, a program has fewer than MAXARGS words followed by null pointers,
    and each word, of a program or of a redirection, is a maximal word of the
    line that [nulterminate] has turned into a C string with the characters
    of the line, although the strings share one buffer. *)
Theorem parsecmd_words (text junk : list Z) (memory : nat -> bool) (s : parser) (p : nat) (s' : parser) :
  Forall (fun c => c <> 0) text -> buf s = text ++ 0 :: junk -> parsecmd memory s = Ok p s' ->
  exists c, tree (nodes s') p c /\
    Forall (fun w => word_in text w /\ c_string (buf s') w.1 = Some (slice text w)) (words c).
Proof.
  intros Hnz Hb E. destruct (parsecmd_sound text junk Hnz memory s Hb p s' E) as (c & _ & Hp). exists c.
  split; [apply Hp|]. apply Forall_and. split; [apply Hp|]. by eapply parsed_strings.
Qed.

Definition a_bar_b : parser := mkparser [97; 0; 98; 0] 3
  [EXEC (Some 0%nat :: replicate 9 None) (Some 1%nat :: replicate 9 None);
   EXEC (Some 2%nat :: replicate 9 None) (Some 3%nat :: replicate 9 None); PIPE 1 2].

Lemma parsecmd_words_witness : parsecmd (fun _ => true) (mkparser [97; 124; 98; 0] 0 []) = Ok 3%nat a_bar_b /\
  exists c, tree (nodes a_bar_b) 3 c /\
    Forall (fun w => word_in [97; 124; 98] w /\ c_string (buf a_bar_b) w.1 = Some (slice [97; 124; 98] w)) (words c).
Proof.
  split; [reflexivity|]. apply (parsecmd_words [97; 124; 98] [] (fun _ => true) (mkparser [97; 124; 98; 0] 0 [])); [|reflexivity|reflexivity].
  by repeat constructor.
Defined.

Lemma blank_nonzero e : blank e -> Forall (fun c => c <> 0) e.
Proof. intros H. eapply Forall_impl; [done|]. intros c Hc ->. by apply strchr_elem in Hc. Qed.

Lemma parse_printed (t : stree) (e junk : list Z) (memory : nat -> bool) (s : parser) :
  printable t -> blank e -> buf s = (print t ++ e) ++ 0 :: junk -> (forall p, memory p = true) ->
  exists p s', parsecmd memory s = Ok p s' /\ represents s' p t.
Proof.
  intros Hp He Hb Hm. assert (Hg := stoks_good t Hp).
  assert (Hnz : Forall (fun c => c <> 0) (print t ++ e)) by (apply Forall_app; split; [by apply layout_nonzero|by apply blank_nonzero]).
  destruct (print_line t Hp [] e (print t ++ e)) as (c & Hl & Hs); [done|].
  rewrite <- (tokens_layout _ _ e) in Hl by done.
  destruct (parsecmd_complete (print t ++ e) junk Hnz memory s Hb c Hm Hl) as (p & s' & E & Hpd). exists p, s'. split; [done|].
  exists c. split; [apply Hpd|]. eapply spells_ext; [|done]. eapply Forall_impl; [by eapply parsed_strings|]. done.
Qed.

(** C36.  Every command can be typed in: the text of a tree, with a space
    after each token and subcommands in parentheses, followed by any white
    space, parses to nodes that stand for the same tree, each word being
    found as a string in memory. *)
Theorem parse_print (t : stree) (e junk : list Z) (memory : nat -> bool) (s : parser) :
  printable t -> blank e -> buf s = (print t ++ e) ++ 0 :: junk -> (forall p, memory p = true) ->
  exists p s', parsecmd memory s = Ok p s' /\ represents s' p t.
Proof. apply parse_printed. Qed.

Lemma parse_print_witness : exists p s',
  parsecmd (fun _ => true) (mkparser (print sample ++ [10; 0; 7]) 0 []) = Ok p s' /\ represents s' p sample.
Proof.
  apply (parse_print sample [10] [7] (fun _ => true)); [apply sample_printable|by apply Forall_singleton, strchr_elem|reflexivity|done].
Defined.
