(* ===== verification/ShRun.v ===== *)
(** * user/sh.c: running commands and the main loop

    A process of the shell is its descriptor table and the number of children
    it has not waited for.  A child's run is placed where it is forked; each
    process leaves events: the program it asks [exec] for, with its arguments
    and its descriptors, and its exit.  Whether [open], [fork], [pipe] and [exec]
    succeed is a parameter; descriptors are allocated as [fdalloc] does, the
    lowest free one first.  The theorem says which programs run with which
    descriptors. *)

From S2P Require Import Prelude Riscv Sysfile.
From S2P Require Import Sh ShLex ShParse ShSpec.
Local Open Scope Z_scope.

(** What a descriptor refers to: one of the shell's own files, a file that
    was opened, or an end of a pipe. *)
Inductive obj := Own (i : nat) | Opened (path : list Z) (mode : Z) | ReadEnd (id : nat) | WriteEnd (id : nat).

Record proc := mkproc { fds : list (option obj); kids : nat }.

(** The shell itself also changes its directory. *)
Inductive event :=
| Program (argv : list (list Z)) (p : proc)
| Exited (status : Z) (p : proc)
| Chdir (path : list Z).

Record world := mkworld { next_pipe : nat; forked : nat; trace : list event }.

Definition with_fds (f : list (option obj) -> list (option obj)) (x : proc) : proc := mkproc (f (fds x)) (kids x).

(** ** System calls *)
Definition close (fd : nat) (x : proc) : proc := with_fds (fun l => <[fd := None]> l) x.

(** The lowest free descriptor now refers to [o]. *)
Definition fd_for (o : obj) (x : proc) : option (nat * proc) :=
  match free_fd (fds x) 0 with
  | Some fd => Some (fd, with_fds (fun l => <[fd := Some o]> l) x)
  | None => None
  end.

Definition dup (fd : nat) (x : proc) : proc :=
  match fds x !! fd with
  | Some (Some o) => match fd_for o x with Some (_, x') => x' | None => x end
  | _ => x
  end.

Definition log_event (e : event) : M world unit :=
  modify (fun w => mkworld (next_pipe w) (forked w) (trace w ++ [e])).
Definition exit (status : Z) (x : proc) : M world unit := log_event (Exited status x).

Definition wait (x : proc) : proc := mkproc (fds x) (pred (kids x)).

Section Run.
Variables (can_open : list Z -> Z -> bool) (can_exec : list (list Z) -> bool) (can_fork can_pipe : nat -> bool).

Definition open (path : list Z) (mode : Z) (x : proc) : option proc :=
  if can_open path mode then snd <$> fd_for (Opened path mode) x else None.

(** [pipe(p)]: the two descriptors. *)
Definition pipe (x : proc) : M world (option (nat * nat * proc)) :=
  do! id <- gets next_pipe;
  modify (fun w => mkworld (S (next_pipe w)) (forked w) (trace w)) ;;
  if negb (can_pipe id) then ret None
  else
    match fd_for (ReadEnd id) x with
    | None => ret None
    | Some (p0, x) => match fd_for (WriteEnd id) x with None => ret None | Some (p1, x) => ret (Some (p0, p1, x)) end
    end.

(** [fork1] with what the child does; [panic] exits with status 1. *)
Definition fork1 (child : proc -> M world unit) (x : proc) : M world (option proc) :=
  do! n <- gets forked;
  modify (fun w => mkworld (next_pipe w) (S (forked w)) (trace w)) ;;
  if can_fork n then child (mkproc (fds x) 0) ;; ret (Some (mkproc (fds x) (S (kids x))))
  else exit 1 x ;; ret None.

(** ** Commands in memory *)
Variables (l : list node) (b : list Z).

(** The strings of an argument vector, up to the null pointer. *)
Fixpoint argv_strings (argv : list (option nat)) : option (list (list Z)) :=
  match argv with
  | [] => None
  | None :: _ => Some []
  | Some q :: argv' =>
      match c_string b q, argv_strings argv' with Some w, Some ws => Some (w :: ws) | _, _ => None end
  end.

(** [runcmd(cmd)]; [n] bounds the depth of the command. *)
Fixpoint runcmd (n : nat) (p : nat) (x : proc) : M world unit :=
  match p with
  | O => exit 1 x
  | S _ =>
      match n with
      | O => hang
      | S n' =>
          match node_at l p with
          | None => undef
          | Some (EXEC argv _) =>
              match argv_strings argv with
              | None => undef
              | Some [] => exit 1 x
              | Some ws => log_event (Program ws x) ;; if can_exec ws then ret tt else exit 0 x
              end
          | Some (REDIR c file _ mode fd) =>
              match c_string b file with
              | None => undef
              | Some path =>
                  match open path mode (close (Z.to_nat fd) x) with
                  | None => exit 1 (close (Z.to_nat fd) x)
                  | Some x' => runcmd n' c x'
                  end
              end
          | Some (LIST lhs rhs) =>
              do! r <- fork1 (runcmd n' lhs) x;
              match r with None => ret tt | Some x' => runcmd n' rhs (wait x') end
          | Some (PIPE lhs rhs) =>
              do! r <- pipe x;
              match r with
              | None => exit 1 x
              | Some (p0, p1, x1) =>
                  do! r2 <- fork1 (fun y => runcmd n' lhs (close p1 (close p0 (dup p1 (close 1 y))))) x1;
                  match r2 with
                  | None => ret tt
                  | Some x2 =>
                      do! r3 <- fork1 (fun y => runcmd n' rhs (close p1 (close p0 (dup p0 (close 0 y))))) x2;
                      match r3 with
                      | None => ret tt
                      | Some x3 => exit 0 (wait (wait (close p1 (close p0 x3))))
                      end
                  end
              end
          | Some (BACK c) =>
              do! r <- fork1 (runcmd n' c) x;
              match r with None => ret tt | Some x' => exit 0 x' end
          end
      end
  end.
End Run.

(** ** The main loop *)

(** [gets(buf, max)] with [n = max - 1 - i]: the characters stored and the
    rest of the input, at whose end [read] returns 0. *)
Fixpoint gets_line (n : nat) (inp : list Z) : list Z * list Z :=
  match n with
  | O => ([], inp)
  | S n' =>
      match inp with
      | [] => ([], [])
      | c :: inp' =>
          if (c =? 10) || (c =? 13) then ([c], inp') else let r := gets_line n' inp' in (c :: r.1, r.2)
      end
  end.

Definition CMDBUF : nat := 100.

(** [getcmd(buf, nbuf)]: the buffer and the rest of the input; none for -1. *)
Definition getcmd (inp : list Z) : option (list Z * list Z) :=
  let r := gets_line (CMDBUF - 1) inp in
  let b := r.1 ++ replicate (CMDBUF - length r.1) 0 in
  match b with c :: _ => if c =? 0 then None else Some (b, r.2) | [] => None end.

(** [buf[0] == 'c' && buf[1] == 'd' && buf[2] == ' '] *)
Definition is_cd (b : list Z) : bool :=
  match b with c :: d :: e :: _ => (c =? 99) && (d =? 100) && (e =? 32) | _ => false end.

(** [buf[strlen(buf)-1] = 0; chdir(buf+3)]: the path. *)
Definition cd_path (b : list Z) : option (list Z) :=
  match strlen b with Some n => c_string (<[pred n := 0]> b) 3 | None => None end.

Section Main.
Variables (can_open : list Z -> Z -> bool) (can_exec : list (list Z) -> bool) (can_fork can_pipe memory : nat -> bool).

(** [runcmd(parsecmd(buf))] in the child. *)
Definition run_line (b : list Z) (x : proc) : M world unit := fun w =>
  match parsecmd memory (mkparser b 0 []) with
  | Ok p s => runcmd can_open can_exec can_fork can_pipe (nodes s) (buf s) p p x w
  | Panic _ => exit 1 x w
  | Undef => Undef
  | Hang => Hang
  end.

(** The loop over commands; every round consumes input. *)
Fixpoint main_loop (n : nat) (inp : list Z) (x : proc) : M world unit :=
  match n with
  | O => hang
  | S n' =>
      match getcmd inp with
      | None => exit 0 x
      | Some (b, inp') =>
          if is_cd b then
            match cd_path b with None => undef | Some path => log_event (Chdir path) ;; main_loop n' inp' x end
          else
            do! r <- fork1 can_fork (run_line b) x;
            match r with None => ret tt | Some x' => main_loop n' inp' (wait x') end
      end
  end.

Definition console : list Z := [99; 111; 110; 115; 111; 108; 101].

(** [while((fd = open("console", O_RDWR)) >= 0) if(fd >= 3){ close(fd); break; }] *)
Fixpoint open_console (n : nat) (x : proc) : option proc :=
  match n with
  | O => None
  | S n' =>
      if negb (can_open console O_RDWR) then Some x
      else match fd_for (Opened console O_RDWR) x with
           | None => Some x
           | Some (fd, x') => if (3 <=? fd)%nat then Some (close fd x') else open_console n' x'
           end
  end.

Definition main (inp : list Z) (x : proc) : M world unit :=
  match open_console 5 x with None => hang | Some x' => main_loop (S (length inp)) inp x' end.
End Main.

(** ** Which programs run, with which descriptors *)

(** Standard input, output and error, and no other descriptor. *)
Definition std (i o e : obj) : list (option obj) := Some i :: Some o :: Some e :: replicate 13 None.

Section Wires.
Variables (can_open : list Z -> Z -> bool) (can_exec : list (list Z) -> bool).

(** The events of the processes that run [t] from a process whose standard
    files are [i], [o], [e], in the order of their creation; [n] is the next
    pipe. *)
Fixpoint wires (t : stree) (i o e : obj) (n : nat) : list event * nat :=
  match t with
  | SExec [] => ([Exited 1 (mkproc (std i o e) 0)], n)
  | SExec argv =>
      (Program argv (mkproc (std i o e) 0) :: (if can_exec argv then [] else [Exited 0 (mkproc (std i o e) 0)]), n)
  | SRedir t k f =>
      if can_open f (rmode k) then
        match k with
        | From => wires t (Opened f (rmode k)) o e n
        | _ => wires t i (Opened f (rmode k)) e n
        end
      else ([Exited 1 (mkproc (<[Z.to_nat (rfd k) := None]> (std i o e)) 0)], n)
  | SPipe t u =>
      let r1 := wires t i (WriteEnd n) e (S n) in
      let r2 := wires u (ReadEnd n) o e r1.2 in
      (r1.1 ++ r2.1 ++ [Exited 0 (mkproc (std i o e) 0)], r2.2)
  | SSeq t u =>
      let r1 := wires t i o e n in
      let r2 := wires u i o e r1.2 in
      (r1.1 ++ r2.1, r2.2)
  | SBack t =>
      let r := wires t i o e n in
      (r.1 ++ [Exited 0 (mkproc (std i o e) 1)], r.2)
  end.

Variables (can_fork can_pipe : nat -> bool).
Hypothesis fork_ok : forall n, can_fork n = true.
Hypothesis pipe_ok : forall n, can_pipe n = true.
Variables (l : list node) (b : list Z).
Abbreviation run := (runcmd can_open can_exec can_fork can_pipe l b).

(** [c] adds the events [r.1] and leaves [r.2] as the next pipe. *)
Definition adds (c : M world unit) (w : world) (r : list event * nat) : Prop :=
  wp c (fun _ w' => trace w' = trace w ++ r.1 /\ next_pipe w' = r.2) w.

Lemma adds_exit s x w : adds (exit s x) w ([Exited s x], next_pipe w).
Proof. done. Qed.

(** Running the child, then going on. *)
Lemma fork1_adds {A} child x (k : option proc -> M world A) w r Q :
  (forall w', next_pipe w' = next_pipe w -> trace w' = trace w -> adds (child (mkproc (fds x) 0)) w' r) ->
  (forall w', trace w' = trace w ++ r.1 -> next_pipe w' = r.2 -> wp (k (Some (mkproc (fds x) (S (kids x))))) Q w') ->
  wp (bind (fork1 can_fork child x) k) Q w.
Proof.
  intros Hc Hk. unfold fork1. do 2 apply wp_bind. apply wp_gets, wp_bind, wp_modify. rewrite fork_ok. apply wp_bind.
  eapply wp_mono; [by apply Hc|]. intros [] w' [H1 H2]. apply wp_ret. by apply Hk.
Qed.

Lemma pipe_adds {A} i o e m (k : option (nat * nat * proc) -> M world A) w Q :
  (forall w', trace w' = trace w -> next_pipe w' = S (next_pipe w) ->
     wp (k (Some (3, 4, mkproc (Some i :: Some o :: Some e :: Some (ReadEnd (next_pipe w)) :: Some (WriteEnd (next_pipe w)) :: replicate 11 None) m)%nat)) Q w') ->
  wp (bind (pipe can_pipe (mkproc (std i o e) m)) k) Q w.
Proof. intros Hk. unfold pipe. do 2 apply wp_bind. apply wp_gets, wp_bind, wp_modify. rewrite pipe_ok. by apply Hk. Qed.

Lemma argv_strings_spell (ws : list (nat * nat)) argv k :
  (fun w => c_string b w.1) <$> ws = Some <$> argv -> argv_strings b ((Some ∘ fst <$> ws) ++ replicate (S k) None) = Some argv.
Proof.
  revert argv. induction ws as [|[q e] ws IH]; intros argv E; destruct argv as [|a argv]; try done.
  injection E as E1 E2. cbn in *. by rewrite E1, (IH _ E2).
Qed.

Lemma runcmd_adds n p c t i o e w : tree l p c -> (p <= n)%nat -> spells (fun w => c_string b w.1) c t ->
  adds (run n p (mkproc (std i o e) 0)) w (wires t i o e (next_pipe w)).
Proof.
  intros Ht. revert n t i o e w. induction Ht as [p ws argv eargv Hn Ha|p q c f ef mode fd Hn Hq Ht IH|p q r c d Hn Hq Hr Hc IHc Hd IHd|p q r c d Hn Hq Hr Hc IHc Hd IHd|p q c Hn Hq Ht IH];
    intros n t i o e w Hle Hs; (destruct p as [|p]; [done|]); (destruct n as [|n]; [lia|]); cbn [runcmd]; rewrite Hn; destruct t; try done.
  - destruct Ha as (Hl & -> & _). destruct (MAXARGS - length ws)%nat as [|k] eqn:E; [lia|].
    rewrite (argv_strings_spell ws argv0 k Hs). destruct argv0 as [|a argv0]; [apply adds_exit|].
    cbn [wires]. apply wp_bind, wp_modify. destruct (can_exec (a :: argv0)); [done|]. split; [cbn; by rewrite <- app_assoc|done].
  - destruct Hs as (Hs & Hf & -> & ->). cbn [fst] in Hf. rewrite Hf. unfold open. cbn [wires]. destruct (can_open file (rmode k)); [|apply adds_exit].
    destruct k; apply IH; (done || lia).
  - destruct Hs as [H1 H2]. apply pipe_adds. intros w1 E1 N1.
    eapply (fork1_adds _ _ _ _ (wires t1 i (WriteEnd (next_pipe w)) e (S (next_pipe w)))).
    { intros w2 N2 E2. cbn [fds]. rewrite <- N1, <- N2. apply IHc; (done || lia). }
    intros w3 E3 N3. eapply (fork1_adds _ _ _ _ (wires t2 (ReadEnd (next_pipe w)) o e (next_pipe w3))).
    { intros w4 N4 E4. cbn [fds]. rewrite <- N4. apply IHd; (done || lia). }
    intros w5 E5 N5. cbn [wires fst snd]. rewrite <- N3. eapply wp_mono; [apply adds_exit|]. intros [] w6 [E6 N6]. cbn [fst snd] in *.
    rewrite E6, N6, E5, E3, E1. split; [|done]. by rewrite <- !app_assoc.
  - destruct Hs as [H1 H2]. eapply (fork1_adds _ _ _ _ (wires t1 i o e (next_pipe w))).
    { intros w2 N2 E2. cbn [fds]. rewrite <- N2. apply IHc; (done || lia). }
    intros w3 E3 N3. cbn [wires fst snd]. rewrite <- N3. eapply wp_mono; [apply IHd; (done || lia)|]. intros [] w4 [E4 N4].
    rewrite E4, E3, N4. split; [|done]. by rewrite <- app_assoc.
  - eapply (fork1_adds _ _ _ _ (wires t i o e (next_pipe w))).
    { intros w2 N2 E2. cbn [fds]. rewrite <- N2. apply IH; (done || lia). }
    intros w3 E3 N3. cbn [wires fst snd]. rewrite <- N3. eapply wp_mono; [apply adds_exit|]. intros [] w4 [E4 N4]. cbn [fst snd] in *.
    rewrite E4, E3, N4. split; [|done]. by rewrite <- app_assoc.
Qed.
End Wires.

(** ** A session *)

(** What is typed: a command, or a change of directory. *)
Inductive typed := Type_cmd (t : stree) | Type_cd (path : list Z).

Definition typed_line (x : typed) : list Z :=
  match x with Type_cmd t => print t | Type_cd path => [99; 100; 32] ++ path end.

(** It fits into the buffer with its newline; a command is not taken for a
    change of directory. *)
Definition typable (x : typed) : Prop :=
  (length (typed_line x) <= 98)%nat /\
  match x with
  | Type_cmd t => printable t /\ is_cd (print t ++ [10]) = false
  | Type_cd path => Forall (fun c => c <> 0 /\ c <> 10 /\ c <> 13) path
  end.

Definition session_input (l : list typed) : list Z := flat_map (fun x => typed_line x ++ [10]) l.

Section Session.
Variables (can_open : list Z -> Z -> bool) (can_exec : list (list Z) -> bool) (i o e : obj).

(** The events of a session: those of each command, then the shell's exit. *)
Fixpoint session (l : list typed) (n : nat) : list event :=
  match l with
  | [] => [Exited 0 (mkproc (std i o e) 0)]
  | Type_cmd t :: l' => let r := wires can_open can_exec t i o e n in r.1 ++ session l' r.2
  | Type_cd path :: l' => Chdir path :: session l' n
  end.
End Session.

Lemma gets_line_newline n s rest : Forall (fun c => c <> 10 /\ c <> 13) s -> (length s < n)%nat ->
  gets_line n (s ++ 10 :: rest) = (s ++ [10], rest).
Proof.
  intros Hs. revert n. induction Hs as [|c s [H1 H2] _ IH]; intros [|n] Hn; cbn in *; try lia; [done|].
  rewrite (proj2 (Z.eqb_neq _ _) H1), (proj2 (Z.eqb_neq _ _) H2). cbn. by rewrite IH by lia.
Qed.

(** A line that fits is read as a whole. *)
Lemma getcmd_line s rest : Forall (fun c => c <> 0 /\ c <> 10 /\ c <> 13) s -> (length s <= 98)%nat ->
  exists k, getcmd (s ++ 10 :: rest) = Some ((s ++ [10]) ++ 0 :: replicate k 0, rest).
Proof.
  intros Hs Hl. exists (CMDBUF - S (S (length s)))%nat. unfold getcmd.
  rewrite gets_line_newline by ((eapply Forall_impl; [done|naive_solver]) || (unfold CMDBUF; lia)). cbn [fst snd].
  replace (CMDBUF - length (s ++ [10%Z]))%nat with (S (CMDBUF - S (S (length s)))) by (rewrite length_app; unfold CMDBUF; cbn; lia).
  rewrite replicate_S. destruct s as [|c s]; [done|]. apply Forall_cons in Hs as [[Hc _] _]. cbn.
  by rewrite (proj2 (Z.eqb_neq _ _) Hc).
Qed.

Lemma print_chars t : printable t -> Forall (fun c => c <> 0 /\ c <> 10 /\ c <> 13) (print t).
Proof.
  intros H%stoks_good. unfold print. induction H as [|x l Hx _ IH]; [constructor|]. cbn. apply Forall_app. split; [|done].
  assert (Hsp : Forall (fun c : Z => c <> 0 /\ c <> 10 /\ c <> 13) [32]) by (by repeat constructor).
  destruct x as [w|c]; cbn in *; (apply Forall_app; split; [|done]).
  - eapply Forall_impl; [apply Hx|]. intros c [Hc Hz]. split_and!; [done|by intros ->|by intros ->].
  - destruct (c =? PLUS); [by repeat constructor|]. constructor; [|constructor].
    split_and!; intros ->; by apply strchr_elem in Hx.
Qed.

Lemma is_cd_app s b : is_cd (s ++ [10]) = is_cd ((s ++ [10]) ++ 0 :: b).
Proof.
  destruct s as [|c [|d [|f s]]]; [by destruct b|cbn; by destruct (c =? 99)|done|done].
Qed.

Lemma cd_path_line path k : Forall (fun c => c <> 0 /\ c <> 10 /\ c <> 13) path ->
  cd_path ((([99; 100; 32] ++ path) ++ [10]) ++ 0 :: replicate k 0) = Some path.
Proof.
  intros Hp. unfold cd_path. rewrite strlen_app.
  2:{ apply Forall_app. split; [|by repeat constructor]. apply Forall_app. split; [by repeat constructor|].
      eapply Forall_impl; [done|]. naive_solver. }
  rewrite length_app. cbn [length]. rewrite Nat.add_1_r. cbn [pred].
  rewrite <- app_assoc. rewrite insert_app_r_alt by done. rewrite Nat.sub_diag. cbn [app].
  unfold c_string. cbn [drop app]. apply until_nul_app. eapply Forall_impl; [done|]. naive_solver.
Qed.

Section SessionProof.
Variables (can_open : list Z -> Z -> bool) (can_exec : list (list Z) -> bool) (can_fork can_pipe memory : nat -> bool).
Hypothesis fork_ok : forall n, can_fork n = true.
Hypothesis pipe_ok : forall n, can_pipe n = true.
Hypothesis memory_ok : forall n, memory n = true.

Lemma run_line_adds t k i o e w : printable t ->
  adds (run_line can_open can_exec can_fork can_pipe memory ((print t ++ [10]) ++ 0 :: replicate k 0) (mkproc (std i o e) 0)) w
    (wires can_open can_exec t i o e (next_pipe w)).
Proof.
  intros Hp. destruct (parse_printed t [10] (replicate k 0) memory (mkparser ((print t ++ [10]) ++ 0 :: replicate k 0) 0 []) Hp) as (p & s' & E & c & Ht & Hs).
  { by apply Forall_singleton, strchr_elem. } { done. } { done. }
  unfold adds, run_line, wp. rewrite E. by apply (runcmd_adds _ _ _ _ fork_ok pipe_ok _ _ p p c).
Qed.

Lemma main_loop_session l n i o e w : Forall typable l -> (length (session_input l) < n)%nat ->
  wp (main_loop can_open can_exec can_fork can_pipe memory n (session_input l) (mkproc (std i o e) 0))
    (fun _ w' => trace w' = trace w ++ session can_open can_exec i o e l (next_pipe w)) w.
Proof.
  intros Hl. revert n w. induction Hl as [|x l [Hlen Hx] _ IH]; intros [|n] w Hn; try (cbn in Hn; lia); [done|].
  cbn [session_input flat_map] in *. fold (session_input l) in *. rewrite <- app_assoc in *. cbn [app] in *.
  rewrite length_app in Hn. cbn [length] in Hn. cbn [main_loop]. destruct x as [t|path]; cbn [typed_line] in *.
  - destruct Hx as [Hp Hcd]. destruct (getcmd_line (print t) (session_input l) (print_chars t Hp) Hlen) as (k & ->).
    rewrite (is_cd_app (print t) (replicate k 0)) in Hcd. rewrite Hcd.
    eapply (fork1_adds _ fork_ok _ _ _ _ (wires can_open can_exec t i o e (next_pipe w))).
    { intros w' N' E'. rewrite <- N'. by apply run_line_adds. }
    intros w' E' N'. cbn beta iota. eapply wp_mono; [apply (IH n w'); lia|]. intros [] w2 E2. cbn beta in E2.
    rewrite E2, E', N'. cbn [session]. by rewrite <- app_assoc.
  - destruct (getcmd_line ([99; 100; 32] ++ path) (session_input l)) as (k & ->); [|done|].
    { apply Forall_app. split; [by repeat constructor|done]. }
    replace (is_cd _) with true by done. rewrite (cd_path_line path k Hx). apply wp_bind, wp_modify.
    eapply wp_mono; [apply IH; lia|]. intros [] w2 E2. cbn beta in E2. rewrite E2. cbn. by rewrite <- app_assoc.
Qed.
End SessionProof.

(** C37.  A session at the shell.  For every sequence of commands and changes
    of directory that fit the line buffer, typed one per line in the printed
    form, the shell runs to the end of its input and its processes are the
    ones the commands stand for: each program gets its words as arguments and
    exactly three descriptors, connected to the files of its redirections, to
    the pipe between it and its neighbours or to the shell's own, with no end
    of a pipe left open elsewhere and no child left behind. *)
Theorem shell_session can_open can_exec can_fork can_pipe memory (l : list typed) (i o e : obj) (w : world) :
  (forall n, can_fork n = true) -> (forall n, can_pipe n = true) -> (forall n, memory n = true) -> Forall typable l ->
  exists w', main can_open can_exec can_fork can_pipe memory (session_input l) (mkproc (std i o e) 0) w = Ok tt w' /\
    trace w' = trace w ++ session can_open can_exec i o e l (next_pipe w).
Proof.
  intros Hf Hp Hm Hl. unfold main.
  replace (open_console _ _ _) with (Some (mkproc (std i o e) 0)) by (cbn; by destruct (can_open _ _)).
  destruct (wp_ok _ _ _ (main_loop_session can_open can_exec can_fork can_pipe memory Hf Hp Hm l (S (length (session_input l))) i o e w Hl ltac:(lia))) as ([] & w' & E & Ht).
  by exists w'.
Qed.

(** [ls -l | wc > f] and [cd d]. *)
Definition demo : list typed :=
  [Type_cmd (SPipe (SExec [[108; 115]; [45; 108]]) (SRedir (SExec [[119; 99]]) Onto [102])); Type_cd [100]].

Lemma shell_session_witness :
  exists w', main (fun _ _ => true) (fun _ => true) (fun _ => true) (fun _ => true) (fun _ => true)
      (session_input demo) (mkproc (std (Own 0) (Own 1) (Own 2)) 0) (mkworld 0 0 []) = Ok tt w' /\
    trace w' = [] ++ session (fun _ _ => true) (fun _ => true) (Own 0) (Own 1) (Own 2) demo 0.
Proof.
  apply (shell_session (fun _ _ => true) (fun _ => true) (fun _ => true) (fun _ => true) (fun _ => true) demo); try done.
  repeat constructor; cbn; (lia || done || (repeat constructor; done)).
Defined.
