(* ===== verification/Umalloc.v ===== *)
(** * user/umalloc.c: the memory allocator of user programs

    Free blocks form a circular list in the order of their addresses; the
    list goes through the static header [base], which lies below the heap.
    The state is the header that memory holds at each address, [freep], and
    the end of the heap.  A block of [n] units at [a] is the bytes from [a] to
    [a + 16 n], its header first.  [sbrk] either extends the heap or fails,
    which is a parameter.

    The invariant is exact: every byte of the heap is in exactly one block,
    free or allocated. *)

From S2P Require Import Prelude.
Local Open Scope Z_scope.

(** [sizeof(Header)] *)
Definition HEADER : Z := 16.

(** [Header] as memory holds it at an address: [s.ptr] and [s.size]. *)
Record heap := mkheap { hdr : Z -> Z * Z; freep : Z; brk : Z }.

Abbreviation UM := (M heap).

Definition upd (f : Z -> Z * Z) (a : Z) (v : Z * Z) : Z -> Z * Z := fun x => if x =? a then v else f x.

Definition get_ptr (a : Z) : UM Z := gets (fun h => (hdr h a).1).
Definition get_size (a : Z) : UM Z := gets (fun h => (hdr h a).2).
Definition set_ptr (a v : Z) : UM unit := modify (fun h => mkheap (upd (hdr h) a (v, (hdr h a).2)) (freep h) (brk h)).
Definition set_size (a v : Z) : UM unit := modify (fun h => mkheap (upd (hdr h) a ((hdr h a).1, v)) (freep h) (brk h)).
Definition set_freep (p : Z) : UM unit := modify (fun h => mkheap (hdr h) p (brk h)).

(** [p + n] on [Header *]. *)
Definition units (p n : Z) : Z := p + HEADER * n.

(** More rounds than the list can have blocks. *)
Definition rounds (h : heap) : nat := Z.to_nat (brk h / HEADER) + 2.

Section Malloc.
(** [&base], and whether [sbrk(n)] succeeds when the heap ends at [b]. *)
Variables (base : Z) (can_grow : Z -> Z -> bool).

(** The loop of [free]: the block before [bp]. *)
Fixpoint find_place (n : nat) (bp p : Z) : UM Z :=
  match n with
  | O => hang
  | S n' =>
      do! next <- get_ptr p;
      if (p <? bp) && (bp <? next) then ret p
      else if (next <=? p) && ((p <? bp) || (bp <? next)) then ret p
      else find_place n' bp next
  end.

(** [if(bp + bp->s.size == p->s.ptr) ... else bp->s.ptr = p->s.ptr;] *)
Definition join_next (bp p : Z) : UM unit :=
  do! next <- get_ptr p;
  do! bsize <- get_size bp;
  if units bp bsize =? next then
    do! nsize <- get_size next;
    set_size bp (u32 (bsize + nsize)) ;;
    do! nnext <- get_ptr next;
    set_ptr bp nnext
  else set_ptr bp next.

(** [if(p + p->s.size == bp) ... else p->s.ptr = bp;] *)
Definition join_prev (bp p : Z) : UM unit :=
  do! psize <- get_size p;
  if units p psize =? bp then
    do! bsize <- get_size bp;
    set_size p (u32 (psize + bsize)) ;;
    do! bnext <- get_ptr bp;
    set_ptr p bnext
  else set_ptr p bp.

Definition free (ap : Z) : UM unit :=
  let bp := ap - HEADER in
  do! fp <- gets freep;
  do! n <- gets rounds;
  do! p <- find_place n bp fp;
  join_next bp p ;;
  join_prev bp p ;;
  set_freep p.

(** [sbrk(n)]: the old end of the heap, or none for -1. *)
Definition sbrk (n : Z) : UM (option Z) := fun h =>
  if can_grow (brk h) n then Ok (Some (brk h)) (mkheap (hdr h) (freep h) (brk h + n)) else Ok None h.

(** 0 stands for the null pointer. *)
Definition morecore (nu : Z) : UM Z :=
  let nu := if nu <? 4096 then 4096 else nu in
  do! p <- sbrk (s32 (nu * HEADER));
  match p with
  | None => ret 0
  | Some hp => set_size hp nu ;; free (units hp 1) ;; gets freep
  end.

(** [(nbytes + sizeof(Header) - 1)/sizeof(Header) + 1] *)
Definition nunits (nbytes : Z) : Z := u32 ((nbytes + HEADER - 1) / HEADER + 1).

(** The body of the loop of [malloc] once a block is large enough. *)
Definition take_block (nu prevp p : Z) : UM Z :=
  do! size <- get_size p;
  do! r <- (if size =? nu then do! next <- get_ptr p; set_ptr prevp next ;; ret p
            else
              set_size p (u32 (size - nu)) ;;
              do! size' <- get_size p;
              set_size (units p size') nu ;;
              ret (units p size'));
  set_freep prevp ;;
  ret (units r 1).

Fixpoint malloc_loop (n : nat) (nu prevp p : Z) : UM Z :=
  match n with
  | O => hang
  | S n' =>
      do! size <- get_size p;
      if nu <=? size then take_block nu prevp p
      else
        do! fp <- gets freep;
        if p =? fp then
          do! p <- morecore nu;
          if p =? 0 then ret 0 else do! next <- get_ptr p; malloc_loop n' nu p next
        else do! next <- get_ptr p; malloc_loop n' nu p next
  end.

Definition malloc (nbytes : Z) : UM Z :=
  let nu := nunits nbytes in
  do! fp <- gets freep;
  do! prevp <- (if fp =? 0 then set_ptr base base ;; set_freep base ;; set_size base 0 ;; ret base else ret fp);
  do! p <- get_ptr prevp;
  do! n <- gets rounds;
  malloc_loop (2 * n + 2) nu prevp p.
End Malloc.
