(* ===== verification/UmallocSpec.v ===== *)
(** * The heap of a user program is exactly its blocks *)

From S2P Require Import Prelude Umalloc.
Local Open Scope Z_scope.

(** A block: address and number of units. *)
Abbreviation block := (Z * Z)%type.

(** How many of the blocks contain the byte at [x]. *)
Definition covers (x : Z) (b : block) : Z := if (b.1 <=? x) && (x <? units b.1 b.2) then 1 else 0.
Fixpoint count (x : Z) (l : list block) : Z := match l with [] => 0 | b :: l' => covers x b + count x l' end.

(** The list from block [b] through [l], whose last block points to [z]. *)
Fixpoint path (f : Z -> Z * Z) (b : block) (l : list block) (z : Z) : Prop :=
  match l with
  | [] => f b.1 = (z, b.2)
  | c :: l' => f b.1 = (c.1, b.2) /\ path f c l' z
  end.

(** Blocks in increasing order, not adjacent, from [lo] on. *)
Fixpoint ascending (lo : Z) (l : list block) : Prop :=
  match l with
  | [] => True
  | b :: l' => lo < b.1 /\ 0 < b.2 /\ ascending (units b.1 b.2) l'
  end.

(** ** Counting *)
Lemma covers_range x b : 0 <= covers x b <= 1.
Proof. unfold covers. case_match; lia. Qed.

Lemma covers_1 x b : covers x b = 1 <-> b.1 <= x < units b.1 b.2.
Proof. unfold covers. case_match eqn:E; boolz; [lia|]. split; [done|]. intros H. by rewrite (proj2 (Z.leb_le _ _)), (proj2 (Z.ltb_lt _ _)) in E by lia. Qed.

Lemma covers_0 x b : ~ (b.1 <= x < units b.1 b.2) -> covers x b = 0.
Proof. intros H. assert (H1 := covers_range x b). assert (H2 := covers_1 x b). destruct (Z.eq_dec (covers x b) 1); [|lia]. tauto. Qed.

(** Adjacent blocks make one. *)
Lemma covers_join x a n m : 0 <= n -> 0 <= m -> covers x (a, n + m) = covers x (a, n) + covers x (units a n, m).
Proof.
  intros Hn Hm. unfold covers, units, HEADER. cbn [fst snd].
  destruct (Z.leb_spec a x), (Z.ltb_spec x (a + 16 * (n + m))), (Z.ltb_spec x (a + 16 * n)), (Z.leb_spec (a + 16 * n) x), (Z.ltb_spec x (a + 16 * n + 16 * m)); cbn; lia.
Qed.

Lemma count_app x l l' : count x (l ++ l') = count x l + count x l'.
Proof. induction l as [|b l IH]; cbn; lia. Qed.

Lemma count_nonneg x l : 0 <= count x l.
Proof. induction l as [|b l IH]; cbn; [lia|]. assert (H := covers_range x b). lia. Qed.

Lemma count_elem x b l : b ∈ l -> covers x b <= count x l.
Proof.
  induction 1 as [b l|b c l _ IH]; cbn; [assert (H := count_nonneg x l)|assert (H := covers_range x c)]; lia.
Qed.

(** ** Paths *)
Lemma path_app f b l c l' z : path f b (l ++ c :: l') z <-> path f b l c.1 /\ path f c l' z.
Proof. revert b. induction l as [|d l IH]; intros b; cbn; [done|]. rewrite IH. tauto. Qed.

Lemma path_frame f g b l z : (forall x, x ∈ b.1 :: l.*1 -> f x = g x) -> path f b l z -> path g b l z.
Proof.
  revert b. induction l as [|c l IH]; intros b Hx; cbn.
  - intros <-. symmetry. apply Hx. set_solver.
  - intros [<- H]. split; [symmetry; apply Hx; set_solver|]. apply IH; [|done]. intros x Hi. apply Hx. set_solver.
Qed.

Lemma path_lookup f b l z i c : path f b l z -> (b :: l) !! i = Some c ->
  f c.1 = (from_option fst z ((b :: l) !! S i), c.2).
Proof.
  revert b i. induction l as [|d l IH]; intros b i Hp Hi.
  - destruct i; [|done]. injection Hi as <-. exact Hp.
  - destruct Hp as [Hb Hp]. destruct i as [|i]; [by injection Hi as <-|]. exact (IH d i Hp Hi).
Qed.

(** The block behind the one at an index, cyclically. *)
Lemma path_next f b l i c : path f b l b.1 -> (b :: l) !! i = Some c ->
  exists d, (b :: l) !! (S i mod length (b :: l))%nat = Some d /\ f c.1 = (d.1, c.2).
Proof.
  intros Hp Hi. rewrite (path_lookup f b l b.1 i c Hp Hi). apply lookup_lt_Some in Hi.
  destruct (decide (S i < length (b :: l))%nat) as [H|H].
  - rewrite Nat.mod_small by done. destruct (lookup_lt_is_Some_2 (b :: l) (S i) H) as [d Hd]. exists d. by rewrite Hd.
  - replace (S i) with (length (b :: l)) by lia. rewrite Nat.Div0.mod_same. exists b. by rewrite (lookup_ge_None_2 (b :: l) (length (b :: l))) by lia.
Qed.

Lemma ascending_weak lo lo' l : lo' <= lo -> ascending lo l -> ascending lo' l.
Proof. destruct l; cbn; [done|]. intuition lia. Qed.

Lemma ascending_app lo l b l' : ascending lo (l ++ b :: l') <-> ascending lo l /\ ascending lo (l ++ [b]) /\ ascending (units b.1 b.2) l'.
Proof. revert lo. induction l as [|c l IH]; intros lo; cbn; [tauto|]. rewrite IH. tauto. Qed.

(** Every block of an ascending list is above the bound; sizes are positive. *)
Lemma ascending_elem lo l b : ascending lo l -> b ∈ l -> lo < b.1 /\ 0 < b.2.
Proof.
  revert lo. induction l as [|c l IH]; intros lo; cbn; [set_solver|]. intros (H1 & H2 & H3) [->|Hb]%elem_of_cons; [done|].
  destruct (IH _ H3 Hb) as [H4 H5]. unfold units, HEADER in H4. lia.
Qed.

Lemma ascending_lt lo l i j b c : ascending lo l -> l !! i = Some b -> l !! j = Some c -> (i < j)%nat -> units b.1 b.2 < c.1.
Proof.
  revert lo i j. induction l as [|d l IH]; intros lo i j; cbn; [done|]. intros (H1 & H2 & H3) Hi Hj Hij.
  destruct j as [|j]; [lia|]. destruct i as [|i].
  - injection Hi as <-. change ((d :: l) !! S j) with (l !! j) in Hj. apply list_elem_of_lookup_2 in Hj.
    exact (proj1 (ascending_elem _ _ _ H3 Hj)).
  - eapply IH; eauto. lia.
Qed.

(** ** The invariant *)
Section Inv.
(** The heap starts at [start], above [base]; it never exceeds [limit]. *)
Variables (base start limit : Z) (can_grow : Z -> Z -> bool).
Hypothesis base_pos : 0 < base.
Hypothesis base_low : units base 1 <= start.
Hypothesis limit_small : limit < 2 ^ 36.
Hypothesis grow_limit : forall b n, can_grow b n = true -> b + n <= limit.

Abbreviation ring fr := ((base, 0) :: fr).

(** [fr] are the free blocks, [lv] the allocated ones. *)
Record heap_ok (h : heap) (fr lv : list block) : Prop := {
  ok_path : path (hdr h) (base, 0) fr base;
  ok_asc : ascending (start - 1) fr;
  ok_freep : freep h ∈ (ring fr).*1;
  ok_live : Forall (fun b => 0 < b.2 /\ (hdr h b.1).2 = b.2) lv;
  ok_tile : forall x, count x fr + count x lv = if (start <=? x) && (x <? brk h) then 1 else 0;
  ok_brk : start <= brk h <= limit
}.

(** Blocks lie in the heap and do not overlap. *)
Lemma block_in h fr lv b : heap_ok h fr lv -> b ∈ fr ++ lv -> 0 < b.2 -> start <= b.1 /\ units b.1 b.2 <= brk h.
Proof.
  intros H Hb Hn. assert (Ht := ok_tile _ _ _ H).
  assert (Hin : forall x, covers x b = 1 -> start <= x < brk h).
  { intros x Hx. specialize (Ht x). assert (Hc := count_elem x b _ Hb). rewrite count_app, Ht, Hx in Hc.
    destruct (Z.leb_spec start x), (Z.ltb_spec x (brk h)); cbn in Hc; lia. }
  assert (H1 : covers b.1 b = 1) by (apply covers_1; unfold units, HEADER; lia).
  assert (H2 : covers (units b.1 b.2 - 1) b = 1) by (apply covers_1; unfold units, HEADER; lia).
  apply Hin in H1, H2. lia.
Qed.

Lemma live_free_apart h fr lv b c : heap_ok h fr lv -> b ∈ lv -> c ∈ fr -> b.1 < c.1 -> units b.1 b.2 <= c.1.
Proof.
  intros H Hb Hc Hlt. destruct (Z.le_gt_cases (units b.1 b.2) c.1) as [?|Hgt]; [done|exfalso].
  assert (Ht := ok_tile _ _ _ H c.1). destruct (ascending_elem _ _ _ (ok_asc _ _ _ H) Hc) as [_ Hn].
  assert (H1 := count_elem c.1 c fr Hc). assert (H2 := count_elem c.1 b lv Hb).
  rewrite (proj2 (covers_1 c.1 c)) in H1 by (unfold units, HEADER; lia).
  rewrite (proj2 (covers_1 c.1 b)) in H2 by lia. revert Ht. case_match; lia.
Qed.

Lemma free_live_apart h fr lv b c : heap_ok h fr lv -> b ∈ lv -> c ∈ fr -> c.1 < b.1 -> units c.1 c.2 <= b.1.
Proof.
  intros H Hb Hc Hlt. destruct (Z.le_gt_cases (units c.1 c.2) b.1) as [?|Hgt]; [done|exfalso].
  assert (Ht := ok_tile _ _ _ H b.1). assert (Hlv := ok_live _ _ _ H). rewrite Forall_forall in Hlv. destruct (Hlv b Hb) as [Hn _].
  assert (H1 := count_elem b.1 c fr Hc). assert (H2 := count_elem b.1 b lv Hb).
  rewrite (proj2 (covers_1 b.1 c)) in H1 by lia.
  rewrite (proj2 (covers_1 b.1 b)) in H2 by (unfold units, HEADER; lia). revert Ht. case_match; lia.
Qed.

Lemma live_not_free h fr lv b c : heap_ok h fr lv -> b ∈ lv -> c ∈ fr -> b.1 <> c.1.
Proof.
  intros H Hb Hc E. assert (Ht := ok_tile _ _ _ H b.1). assert (Hlv := ok_live _ _ _ H). rewrite Forall_forall in Hlv. destruct (Hlv b Hb) as [Hn _].
  destruct (ascending_elem _ _ _ (ok_asc _ _ _ H) Hc) as [_ Hm].
  assert (H1 := count_elem b.1 c fr Hc). assert (H2 := count_elem b.1 b lv Hb).
  rewrite (proj2 (covers_1 b.1 c)) in H1 by (unfold units, HEADER; lia).
  rewrite (proj2 (covers_1 b.1 b)) in H2 by (unfold units, HEADER; lia). revert Ht. case_match; lia.
Qed.

(** The length of the list is bounded by the heap. *)
Lemma ascending_length lo l top : ascending lo l -> (forall b, b ∈ l -> units b.1 b.2 <= top) -> l <> [] -> lo + HEADER * Z.of_nat (length l) < top.
Proof.
  revert lo. induction l as [|b l IH]; intros lo Ha Ht Hne; [done|]. destruct Ha as (H1 & H2 & H3).
  destruct l as [|c l].
  - specialize (Ht b ltac:(set_solver)). unfold units, HEADER in *. cbn [length]. lia.
  - specialize (IH _ H3 ltac:(set_solver) ltac:(done)). unfold units, HEADER in *. cbn [length] in *. lia.
Qed.

Lemma rounds_enough h fr lv : heap_ok h fr lv -> (length (ring fr) < rounds h)%nat.
Proof.
  intros H. unfold rounds. destruct (decide (fr = [])) as [->|Hne]; [cbn; lia|].
  assert (Hl := ascending_length _ _ (brk h) (ok_asc _ _ _ H)).
  assert (Hb : Z.of_nat (length fr) <= brk h / HEADER); [|cbn [length]; lia].
  apply Z.div_le_lower_bound; [done|].
  enough (start - 1 + HEADER * Z.of_nat (length fr) < brk h) by (unfold units, HEADER in *; lia).
  apply Hl; [|done]. intros b Hb. apply (block_in h fr lv b H); [set_solver|]. by apply (ascending_elem _ _ _ (ok_asc _ _ _ H)).
Qed.

(** ** The loop of [free] *)
Lemma ring_lt fr i j b c : ascending (start - 1) fr -> ring fr !! i = Some b -> ring fr !! j = Some c -> (i < j)%nat ->
  units b.1 b.2 < c.1 /\ b.1 < c.1.
Proof.
  intros Ha Hi Hj Hij. assert (Hlow := base_low). unfold units, HEADER in *. destruct j as [|j]; [lia|].
  change (ring fr !! S j) with (fr !! j) in Hj. destruct i as [|i].
  - injection Hi as <-. cbn [fst snd]. apply list_elem_of_lookup_2 in Hj. destruct (ascending_elem _ _ _ Ha Hj). lia.
  - change (ring fr !! S i) with (fr !! i) in Hi. assert (H1 := ascending_lt _ _ i j _ _ Ha Hi Hj ltac:(lia)).
    apply list_elem_of_lookup_2 in Hi. destruct (ascending_elem _ _ _ Ha Hi). unfold units, HEADER in *. lia.
Qed.

(** [bp] is between the first [k] free blocks and the others. *)
Definition between (fr : list block) (k : nat) (bp : Z) : Prop :=
  base < bp /\ (k <= length fr)%nat /\
  (forall b, b ∈ take k fr -> b.1 < bp) /\ (forall b, b ∈ drop k fr -> bp < b.1).

Lemma between_lookup fr k bp i b : between fr k bp -> ring fr !! i = Some b -> ((i <= k)%nat -> b.1 < bp) /\ ((k < i)%nat -> bp < b.1).
Proof.
  intros (H0 & Hk & H1 & H2) Hi. destruct i as [|i]; [injection Hi as <-; split; [done|lia]|].
  change (ring fr !! S i) with (fr !! i) in Hi. split; intros Hik.
  - apply H1. apply list_elem_of_lookup_2 with i. by rewrite lookup_take_lt by lia.
  - apply H2. apply list_elem_of_lookup_2 with (i - k)%nat. rewrite lookup_drop. by replace (k + (i - k))%nat with i by lia.
Qed.

Lemma find_place_ok h fr lv k bp p : heap_ok h fr lv -> between fr k bp -> ring fr !! k = Some p ->
  forall m n i b, ring fr !! i = Some b -> ((i + m) mod length (ring fr))%nat = k -> (m < n)%nat ->
  find_place n bp b.1 h = Ok p.1 h.
Proof.
  intros H Hb Hk. set (L := length (ring fr)). induction m as [m IH] using lt_wf_ind. intros n i b Hi Hm Hn.
  destruct n as [|n]; [lia|]. cbn [find_place]. unfold get_ptr, bind, gets.
  assert (HL : (i < L)%nat) by (by eapply lookup_lt_Some).
  destruct (path_next _ _ _ i b (ok_path _ _ _ H) Hi) as (d & Hd & ->). fold L in Hd. cbn [fst].
  destruct (between_lookup fr k bp i b Hb Hi) as [Hbi Hbi'].
  destruct (between_lookup fr k bp _ d Hb Hd) as [Hdi Hdi'].
  destruct (decide (i = k)) as [->|Hik].
  - replace p with b by congruence. rewrite (proj2 (Z.ltb_lt _ _) (Hbi (le_n k))). cbn [andb].
    destruct (decide (S k < L)%nat) as [Hlt|Hge].
    + rewrite Nat.mod_small in Hdi' by done. by rewrite (proj2 (Z.ltb_lt _ _) (Hdi' ltac:(lia))).
    + replace (S k) with L in Hd by lia. rewrite Nat.Div0.mod_same in Hd. injection Hd as <-. cbn [fst].
      destruct (bp <? base); [done|]. cbn [orb]. rewrite (proj2 (Z.leb_le _ _)); [done|].
      destruct k as [|k]; [by injection Hi as <-|]. destruct (ring_lt fr 0 (S k) (base, 0) b (ok_asc _ _ _ H) eq_refl Hi ltac:(lia)). cbn in *. lia.
  - destruct m as [|m]; [rewrite Nat.add_0_r, Nat.mod_small in Hm by done; lia|].
    assert (Hrec : find_place n bp d.1 h = Ok p.1 h).
    { apply (IH m ltac:(lia) n (S i mod L)%nat d Hd); [|lia]. rewrite Nat.Div0.add_mod_idemp_l. by rewrite Nat.add_succ_comm. }
    destruct (decide (S i < L)%nat) as [Hlt|Hge].
    + rewrite Nat.mod_small in Hd, Hdi, Hdi' by done. destruct (ring_lt _ _ _ _ _ (ok_asc _ _ _ H) Hi Hd ltac:(lia)) as [_ Hbd].
      rewrite (proj2 (Z.leb_gt d.1 b.1)) by lia. cbn [andb].
      replace ((b.1 <? bp) && (bp <? d.1)) with false; [exact Hrec|]. symmetry. apply andb_false_iff.
      destruct (decide (i < k)%nat); [right; apply Z.ltb_ge; specialize (Hdi ltac:(lia)); lia|left; apply Z.ltb_ge; specialize (Hbi' ltac:(lia)); lia].
    + replace (S i) with L in Hd by lia. rewrite Nat.Div0.mod_same in Hd. injection Hd as <-. cbn [fst].
      assert (Hki : (k < i)%nat) by (apply lookup_lt_Some in Hk; fold L in Hk; lia).
      rewrite (proj2 (Z.ltb_ge b.1 bp)) by (specialize (Hbi' Hki); lia). destruct Hb as (Hb0 & _).
      rewrite (proj2 (Z.ltb_ge bp base)) by lia. cbn [andb orb]. rewrite andb_false_r. exact Hrec.
Qed.

(** From anywhere in the list, in the rounds the code is given. *)
Lemma find_place_freep h fr lv k bp p : heap_ok h fr lv -> between fr k bp -> ring fr !! k = Some p ->
  find_place (rounds h) bp (freep h) h = Ok p.1 h.
Proof.
  intros H Hb Hk. destruct (proj1 (list_elem_of_fmap _ _ _) (ok_freep _ _ _ H)) as (b & Eb & Hin).
  apply list_elem_of_lookup_1 in Hin as (i & Hi). rewrite Eb. set (L := length (ring fr)).
  assert (Hi' := lookup_lt_Some _ _ _ Hi). assert (Hk' := lookup_lt_Some _ _ _ Hk). fold L in Hi', Hk'.
  assert (Hr := rounds_enough h fr lv H). fold L in Hr. destruct (decide (i <= k)%nat).
  - eapply (find_place_ok h fr lv k bp p H Hb Hk (k - i) _ i b Hi); fold L; [|lia].
    replace (i + (k - i))%nat with k by lia. by apply Nat.mod_small.
  - eapply (find_place_ok h fr lv k bp p H Hb Hk (L + k - i) _ i b Hi); fold L; [|lia].
    replace (i + (L + k - i))%nat with (k + 1 * L)%nat by lia. rewrite Nat.Div0.mod_add. by apply Nat.mod_small.
Qed.

(** ** [free] *)

(** The list [l] of blocks, whose last one points to [z]. *)
Definition lpath (f : Z -> Z * Z) (l : list block) (z : Z) : Prop := match l with [] => True | b :: l' => path f b l' z end.

Lemma lpath_app f l c l' z : lpath f (l ++ c :: l') z <-> lpath f l c.1 /\ path f c l' z.
Proof. destruct l as [|b l]; cbn; [tauto|]. apply path_app. Qed.

Lemma lpath_frame f g l z : (forall x, x ∈ l.*1 -> f x = g x) -> lpath f l z -> lpath g l z.
Proof. destruct l as [|b l]; [done|]. apply path_frame. Qed.

(** The address of the first block, or [base]. *)
Definition first (l : list block) : Z := from_option fst base (head l).

Lemma path_head f b l : path f b l base -> f b.1 = (first l, b.2).
Proof. destruct l; cbn; [done|]. by intros [-> _]. Qed.

(** Where a block that is not in the list belongs. *)
Lemma between_exists lo fr a : ascending lo fr -> (forall b, b ∈ fr -> b.1 <> a) -> base < a -> exists k, between fr k a.
Proof.
  intros Ha Hne Hlo. revert lo Ha. induction fr as [|b fr IH]; intros lo Ha.
  - exists 0%nat. split_and!; cbn; try lia; set_solver.
  - destruct Ha as (H1 & H2 & H3). destruct (Z.lt_ge_cases b.1 a) as [Hlt|Hge].
    + destruct (IH ltac:(set_solver) _ H3) as (k & _ & Hk & Ht & Hd). exists (S k). split_and!; cbn; [done|lia| |done].
      intros c [->|Hc]%elem_of_cons; [done|by apply Ht].
    + exists 0%nat. assert (b.1 <> a) by (apply Hne; set_solver). split_and!; cbn; [done|lia|set_solver|].
      intros c [->|Hc]%elem_of_cons; [lia|]. destruct (ascending_elem _ _ _ H3 Hc) as [H4 _]. unfold units, HEADER in H4. lia.
Qed.

Lemma hdr_upd_eq f a v : upd f a v a = v.
Proof. unfold upd. by rewrite Z.eqb_refl. Qed.

Lemma hdr_upd_ne f a v x : x <> a -> upd f a v x = f x.
Proof. intros H. unfold upd. by rewrite (proj2 (Z.eqb_neq _ _) H). Qed.

Lemma path_upd f a v b l z : a ∉ b.1 :: l.*1 -> path f b l z -> path (upd f a v) b l z.
Proof. intros Ha. apply path_frame. intros x Hx. rewrite hdr_upd_ne; [done|]. by intros ->. Qed.

(** Changing the first block of a path. *)
Lemma path_first f b n l z : b.1 ∉ l.*1 -> path f b l z -> path (upd f b.1 ((f b.1).1, n)) (b.1, n) l z.
Proof.
  intros Hb. destruct l as [|c l]; cbn; intros H.
  - by rewrite hdr_upd_eq, H.
  - destruct H as [H1 H2]. rewrite hdr_upd_eq, H1. split; [done|]. by apply path_upd.
Qed.

(** Joining the freed block [(a, n)] with the blocks [v] behind it. *)
Lemma join_next_ok h p a n v : path (hdr h) p v base -> (hdr h a).2 = n -> 0 < n -> base < a ->
  a ∉ p.1 :: v.*1 -> ascending (units a n - 1) v -> (forall c, c ∈ v -> n + c.2 < 2 ^ 32) ->
  exists f' n' v', join_next a p.1 h = Ok tt (mkheap f' (freep h) (brk h)) /\
    (forall x, x <> a -> f' x = hdr h x) /\ path f' (a, n') v' base /\ n <= n' /\ ascending (units a n') v' /\
    (forall x, covers x (a, n') + count x v' = covers x (a, n) + count x v) /\ (forall x, x ∈ v'.*1 -> x ∈ v.*1) /\
    (length v' <= length v)%nat.
Proof.
  intros Hp Hn Hn0 Hba Ha Hv Hsz. unfold join_next, get_ptr, get_size, set_ptr, set_size, bind, gets, modify. rewrite Hn.
  rewrite (path_head _ _ _ Hp). cbn [fst].
  destruct (Z.eqb_spec (units a n) (first v)) as [E|E].
  - destruct v as [|c v]; [exfalso; cbn in E; unfold units, HEADER in E; lia|]. cbn [first from_option head fst] in E. destruct Hp as [Hp1 Hp2], Hv as (_ & Hc & Hv).
    assert (Hac : c.1 <> a) by (intros <-; set_solver). cbn [hdr freep brk first head from_option]. rewrite (path_head _ _ _ Hp2). cbn [snd].
    rewrite u32_small by (specialize (Hsz c ltac:(set_solver)); lia). rewrite (hdr_upd_ne _ _ _ c.1) by done. rewrite (path_head _ _ _ Hp2), hdr_upd_eq. cbn [fst snd].
    do 2 eexists. exists v. split; [done|]. split_and!.
    + intros x Hx. by rewrite !hdr_upd_ne.
    + destruct v as [|d v]; cbn; rewrite hdr_upd_eq; [done|]. split; [done|]. destruct Hp2 as [_ Hp3]. by do 2 (apply path_upd; [set_solver|]).
    + lia.
    + destruct v as [|d v]; [done|]. destruct Hv as (Hv1 & Hv2). split; [|done]. unfold units, HEADER in *. lia.
    + intros x. rewrite covers_join by lia. cbn. rewrite E. destruct c; cbn. lia.
    + set_solver.
    + cbn. lia.
  - do 2 eexists. exists v. split; [done|]. split_and!.
    + intros x Hx. cbn. by rewrite hdr_upd_ne.
    + cbn. rewrite Hn. destruct v as [|d v]; cbn; rewrite hdr_upd_eq; [done|]. split; [done|]. destruct Hp as [_ Hp]. by apply path_upd; [set_solver|].
    + lia.
    + destruct v as [|d v]; [done|]. destruct Hv as (Hv1 & Hv2). split; [|done]. cbn in E. lia.
    + done.
    + done.
    + done.
Qed.

(** Joining the block [p] with the freed block behind it. *)
Lemma join_prev_ok h p a n v : path (hdr h) (a, n) v base -> (hdr h p.1).2 = p.2 -> 0 <= p.2 -> 0 < n ->
  p.1 ∉ a :: v.*1 -> a ∉ v.*1 -> units p.1 p.2 <= a -> p.2 + n < 2 ^ 32 -> ascending (units a n) v ->
  exists f' m v', join_prev a p.1 h = Ok tt (mkheap f' (freep h) (brk h)) /\
    (forall x, x <> p.1 -> f' x = hdr h x) /\ path f' (p.1, m) v' base /\ ascending (units p.1 m) v' /\ p.2 <= m /\
    (forall x, covers x (p.1, m) + count x v' = covers x p + covers x (a, n) + count x v) /\
    (forall x, x ∈ v'.*1 -> x ∈ a :: v.*1) /\ (m = p.2 \/ units p.1 p.2 = a) /\ (length v' <= S (length v))%nat /\
    exists b, b ∈ (p.1, m) :: v' /\ n <= b.2.
Proof.
  intros Hp Hn Hp0 Hn0 Hpa Hav Hle Hsz Hv. unfold join_prev, get_ptr, get_size, set_ptr, set_size, bind, gets, modify. rewrite Hn.
  assert (Hap : a <> p.1) by set_solver.
  destruct (Z.eqb_spec (units p.1 p.2) a) as [E|E].
  - assert (Ha := path_head _ _ _ Hp). cbn [fst snd] in Ha. rewrite Ha. cbn [hdr snd fst freep brk]. rewrite u32_small by lia.
    rewrite (hdr_upd_ne _ _ _ a) by done. rewrite Ha, hdr_upd_eq. cbn [fst snd].
    eexists _, (p.2 + n), v. split; [done|]. split_and!.
    + intros x Hx. by rewrite !hdr_upd_ne.
    + destruct v as [|d v]; cbn; rewrite hdr_upd_eq; [done|]. split; [done|]. destruct Hp as [_ Hp]. by do 2 (apply path_upd; [set_solver|]).
    + eapply ascending_weak; [|done]. unfold units, HEADER in *. lia.
    + lia.
    + intros x. rewrite covers_join by lia. rewrite E. destruct p; cbn. lia.
    + set_solver.
    + by right.
    + lia.
    + eexists. split; [apply list_elem_of_here|]. cbn. lia.
  - eexists _, p.2, ((a, n) :: v). split; [done|]. split_and!.
    + intros x Hx. cbn. by rewrite hdr_upd_ne.
    + cbn. rewrite Hn, hdr_upd_eq. split; [done|]. by apply path_upd.
    + cbn. split_and!; [lia|done|done].
    + lia.
    + intros x. destruct p; cbn. lia.
    + done.
    + by left.
    + done.
    + exists (a, n). split; [apply list_elem_of_further, list_elem_of_here|]. cbn. lia.
Qed.

Lemma ascending_lower lo lo' l : ascending lo l -> (forall b, b ∈ l -> lo' < b.1) -> ascending lo' l.
Proof. destruct l as [|b l]; [done|]. intros (_ & H) Hl. split; [apply Hl; apply list_elem_of_here|done]. Qed.

Lemma ascending_grow lo l b m : ascending lo (l ++ [b]) -> b.2 <= m -> ascending lo (l ++ [(b.1, m)]).
Proof. revert lo. induction l as [|c l IH]; intros lo; cbn; [intuition lia|]. naive_solver. Qed.

Lemma ascending_drop lo l k : ascending lo l -> exists lo', ascending lo' (drop k l).
Proof. revert lo k. induction l as [|b l IH]; intros lo [|k]; cbn; eauto. intros (_ & _ & H). eauto. Qed.

Lemma ascending_nodup lo l : ascending lo l -> NoDup (l.*1).
Proof.
  revert lo. induction l as [|b l IH]; intros lo; cbn; [constructor|]. intros (_ & Hb & H). constructor; [|by eapply IH].
  intros (c & E & Hc)%list_elem_of_fmap. destruct (ascending_elem _ _ _ H Hc). unfold units, HEADER in *. lia.
Qed.

Lemma ring_nodup fr : ascending (start - 1) fr -> NoDup ((ring fr).*1).
Proof.
  intros H. cbn. constructor; [|by eapply ascending_nodup]. intros (c & E & Hc)%list_elem_of_fmap.
  destruct (ascending_elem _ _ _ H Hc). assert (Hl := base_low). unfold units, HEADER in Hl. lia.
Qed.

Lemma live_apart h fr l1 b l2 c : heap_ok h fr (l1 ++ b :: l2) -> (c ∈ l1 ++ l2) -> b.1 <> c.1.
Proof.
  intros H Hc E. assert (Ht := ok_tile _ _ _ H c.1). assert (Hlv := ok_live _ _ _ H). rewrite Forall_forall in Hlv.
  destruct (Hlv b ltac:(set_solver)) as [Hb _]. destruct (Hlv c ltac:(set_solver)) as [Hcc _].
  assert (H1 := count_elem c.1 c (l1 ++ l2) Hc). assert (H2 := count_nonneg c.1 fr).
  rewrite count_app in *. cbn in Ht. rewrite (proj2 (covers_1 c.1 b)), (proj2 (covers_1 c.1 c)) in * by (rewrite ?E; unfold units, HEADER; lia).
  revert Ht. case_match; lia.
Qed.

Lemma ring_not_live h fr lv b : heap_ok h fr lv -> b ∈ ring fr -> b.1 ∉ lv.*1.
Proof.
  intros H Hb (c & E & Hc)%list_elem_of_fmap. apply elem_of_cons in Hb as [->|Hb].
  - assert (Hlv := ok_live _ _ _ H). rewrite Forall_forall in Hlv. destruct (Hlv c Hc) as [Hn _].
    destruct (block_in _ _ _ c H ltac:(set_solver) Hn). assert (Hl := base_low). unfold units, HEADER in *. cbn in E. lia.
  - by apply (live_not_free _ _ _ c b H Hc Hb).
Qed.

(** The facts about a live block that the joins need. *)
Lemma live_facts h fr lv a n : heap_ok h fr lv -> (a, n) ∈ lv ->
  0 < n /\ (hdr h a).2 = n /\ start <= a /\ units a n <= brk h /\ base < a /\ (a ∉ (ring fr).*1) /\
  (forall c, c ∈ fr -> n + c.2 < 2 ^ 32).
Proof.
  intros H Ha. assert (Hlv := ok_live _ _ _ H). rewrite Forall_forall in Hlv. destruct (Hlv _ Ha) as [Hn Hsz]. cbn in Hn, Hsz.
  destruct (block_in h fr lv (a, n) H ltac:(set_solver) Hn) as [H1 H2]. cbn in H1, H2. assert (Hl := base_low). assert (Hlim := limit_small). assert (Hbp := base_pos).
  assert (Hbk := ok_brk _ _ _ H). assert (Hba : base < a) by (unfold units, HEADER in Hl; lia). split_and!; try done.
  - cbn. intros [->|(c & E & Hc)%list_elem_of_fmap]%elem_of_cons; [lia|]. by apply (live_not_free h fr lv (a, n) c H Ha Hc).
  - intros c Hc. assert (Hne := live_not_free h fr lv (a, n) c H Ha Hc). cbn in Hne.
    assert (Hc0 := proj2 (ascending_elem _ _ _ (ok_asc _ _ _ H) Hc)). destruct (block_in h fr lv c H ltac:(set_solver) Hc0) as [H3 H4].
    destruct (Z.lt_ge_cases a c.1).
    + assert (H5 := live_free_apart h fr lv (a, n) c H Ha Hc ltac:(done)). unfold units, HEADER in *. cbn in *. lia.
    + assert (H5 := free_live_apart h fr lv (a, n) c H Ha Hc ltac:(cbn; lia)). unfold units, HEADER in *. cbn in *. lia.
Qed.

(** The block [p] behind which a live block belongs. *)
Lemma free_place h fr lv a n : heap_ok h fr lv -> (a, n) ∈ lv ->
  exists q p v, ring fr = q ++ p :: v /\ find_place (rounds h) a (freep h) h = Ok p.1 h /\
    ascending (units a n - 1) v /\ units p.1 p.2 <= a /\ 0 <= p.2.
Proof.
  intros H Hin. destruct (live_facts _ _ _ _ _ H Hin) as (Hn & Hsz & Hst & Htop & Hba & Hring & Hbig).
  assert (Hasc := ok_asc _ _ _ H).
  destruct (between_exists _ fr a Hasc) as (k & Hk); [intros b Hb E; apply Hring; cbn; apply list_elem_of_further; rewrite <- E; by apply list_elem_of_fmap_2|done|].
  destruct (lookup_lt_is_Some_2 (ring fr) k) as [p Hp]; [destruct Hk as (_ & ? & _); cbn; lia|].
  exists (take k (ring fr)), p, (drop k fr). split; [symmetry; exact (take_drop_middle (ring fr) k p Hp)|].
  split; [by eapply find_place_freep|]. split; [|].
  - destruct (ascending_drop _ _ k Hasc) as (lo & Hlo). eapply ascending_lower; [done|]. intros c Hc.
    destruct Hk as (_ & _ & _ & Hk). assert (H1 := live_free_apart _ _ _ (a, n) c H Hin). cbn in H1.
    assert (Hcf : c ∈ fr) by (rewrite <- (take_drop k fr); set_solver). specialize (H1 Hcf (Hk c Hc)). lia.
  - destruct (between_lookup _ _ _ _ _ Hk Hp) as [Hlt _]. specialize (Hlt (le_n k)). destruct k as [|k].
    + injection Hp as <-. unfold units, HEADER. cbn in *. lia.
    + change (ring fr !! S k) with (fr !! k) in Hp. apply list_elem_of_lookup_2 in Hp.
      split; [by apply (free_live_apart _ _ _ (a, n) p H Hin)|]. destruct (ascending_elem _ _ _ Hasc Hp). lia.
Qed.

(** A ring whose block [p] and the blocks behind it have been replaced. *)
Lemma rebuild fr q p v f m v' : ring fr = q ++ p :: v -> ascending (start - 1) fr -> lpath f q p.1 -> path f (p.1, m) v' base ->
  ascending (units p.1 m) v' -> p.2 <= m -> (m = p.2 \/ base < p.1) -> (forall b, b ∈ v' -> start <= b.1) ->
  exists fr', ring fr' = q ++ (p.1, m) :: v' /\ path f (base, 0) fr' base /\ ascending (start - 1) fr'.
Proof.
  intros E Ha Hq Hp Hv Hm Hor Hst. destruct q as [|b q].
  - injection E as <- ->. cbn in Hor. replace m with 0 in * by lia. exists v'. split_and!; [done|done|].
    eapply ascending_lower; [done|]. intros b Hb. specialize (Hst b Hb). lia.
  - injection E as <- ->. exists (q ++ (p.1, m) :: v'). split_and!; [done|by apply path_app|].
    apply ascending_app in Ha as (H1 & H2 & H3). apply ascending_app. split_and!; [done|by apply ascending_grow|done].
Qed.

(** The free list does not reach beyond the heap. *)
Lemma merged_top h fr lv a n n' p v v1 : heap_ok h fr lv -> (a, n) ∈ lv -> 0 < n' ->
  (forall x, covers x p + count x v <= count x fr) -> (forall x, covers x (a, n') + count x v1 = covers x (a, n) + count x v) ->
  units a n' <= brk h.
Proof.
  intros H Hin Hn' Hcnt C1. set (x := units a n' - 1). assert (Hx := C1 x).
  rewrite (proj2 (covers_1 x (a, n'))) in Hx by (unfold x, units, HEADER; cbn; lia).
  assert (Ht := ok_tile _ _ _ H x). assert (H1 := count_elem x _ _ Hin). assert (H2 := count_nonneg x v1).
  assert (H3 := Hcnt x). assert (H4 := covers_range x p). revert Ht.
  destruct (Z.leb_spec start x), (Z.ltb_spec x (brk h)); cbn [andb]; unfold x in *; lia.
Qed.

(** Both joins: the block [p] and those behind it become [(p.1, m) :: v2]. *)
Lemma joins_ok h fr lv a n q p v : heap_ok h fr lv -> (a, n) ∈ lv -> ring fr = q ++ p :: v ->
  ascending (units a n - 1) v -> units p.1 p.2 <= a -> 0 <= p.2 ->
  exists f2 m v2, (join_next a p.1 ;; join_prev a p.1) h = Ok tt (mkheap f2 (freep h) (brk h)) /\
    (forall x, x <> a -> x <> p.1 -> f2 x = hdr h x) /\ path f2 (p.1, m) v2 base /\ ascending (units p.1 m) v2 /\ p.2 <= m /\
    (forall x, covers x (p.1, m) + count x v2 = covers x p + covers x (a, n) + count x v) /\
    (m = p.2 \/ base < p.1) /\ (forall c, c ∈ v2 -> start <= c.1) /\ (length v2 <= S (length v))%nat /\
    exists b, b ∈ (p.1, m) :: v2 /\ n <= b.2.
Proof.
  intros H Hin Hsplit Hva Hpa Hp0. destruct (live_facts _ _ _ _ _ H Hin) as (Hn & Hsz & Hst & Htop & Hba & Hring & Hbig).
  assert (Hasc := ok_asc _ _ _ H). assert (Hnd := ring_nodup fr Hasc).
  assert (Hpath := ok_path _ _ _ H). change (lpath (hdr h) (ring fr) base) in Hpath. rewrite Hsplit in Hpath, Hnd, Hring.
  apply lpath_app in Hpath as [Hq Hv]. rewrite fmap_app in Hnd, Hring. apply NoDup_app in Hnd as (_ & _ & Hnd3). cbn in Hnd3, Hring.
  apply NoDup_cons in Hnd3 as [Hpv Hnv].
  assert (Hvfr : forall c, c ∈ v -> c ∈ fr) by (intros c Hc; destruct q; injection Hsplit as ? ->; set_solver).
  destruct (join_next_ok h p a n v Hv Hsz Hn Hba) as (f1 & n' & v1 & E1 & F1 & P1 & Hn' & A1 & C1 & S1 & L1); [set_solver|done|by intros c Hc; apply Hbig, Hvfr|].
  assert (Hcnt : forall x, covers x p + count x v <= count x fr).
  { intros x. assert (Hc := f_equal (count x) Hsplit). rewrite count_app in Hc. cbn in Hc. rewrite (covers_0 x (base, 0)) in Hc by (unfold units; cbn; lia).
    assert (Hq0 := count_nonneg x q). lia. }
  assert (Htop' := merged_top h fr lv a n n' p v v1 H Hin ltac:(lia) Hcnt C1).
  assert (Hbk := ok_brk _ _ _ H). assert (Hlow := base_low). assert (Hlim := limit_small). assert (Hbp := base_pos).
  assert (Hpr : p = (base, 0) \/ start <= p.1).
  { assert (p ∈ ring fr) as [->|Hpf]%elem_of_cons by (rewrite Hsplit; set_solver); [by left|right]. destruct (ascending_elem _ _ _ Hasc Hpf). lia. }
  destruct (join_prev_ok (mkheap f1 (freep h) (brk h)) p a n' v1 P1) as (f2 & m & v2 & E2 & F2 & P2 & A2 & Hm & C2 & S2 & Hor & L2 & b & Hb & Hbn).
  { cbn. rewrite F1 by set_solver. by rewrite (path_head _ _ _ Hv). } { done. } { lia. } { set_solver. } { set_solver. } { done. }
  { destruct Hpr as [->|Hps]; unfold units, HEADER in *; cbn in *; lia. } { done. }
  exists f2, m, v2. split_and!; try done; [unfold bind; by rewrite E1|intros x Hx Hxp; rewrite F2 by done; by apply F1|..].
  - intros x. specialize (C1 x). specialize (C2 x). lia.
  - destruct Hor as [->|E]; [by left|right]. destruct Hpr as [->|Hps]; unfold units, HEADER in *; cbn in *; lia.
  - intros c Hc. assert (Hx := S2 c.1 ltac:(by apply list_elem_of_fmap_2)). apply elem_of_cons in Hx as [->|Hx]; [done|].
    apply S1, list_elem_of_fmap in Hx as (d & -> & Hd). destruct (ascending_elem _ _ _ Hasc (Hvfr d Hd)). lia.
  - lia.
  - exists b. split; [done|lia].
Qed.

Lemma free_ok h fr l1 a n l2 : heap_ok h fr (l1 ++ (a, n) :: l2) ->
  exists h' fr', free (units a 1) h = Ok tt h' /\ heap_ok h' fr' (l1 ++ l2) /\ brk h' = brk h /\
    (forall x, count x fr' = count x fr + covers x (a, n)) /\ (length fr' <= S (length fr))%nat /\ exists b, b ∈ fr' /\ n <= b.2.
Proof.
  intros H. assert (Hin : (a, n) ∈ l1 ++ (a, n) :: l2) by set_solver.
  destruct (live_facts _ _ _ _ _ H Hin) as (Hn & _ & _ & _ & _ & Hring & _). assert (Hasc := ok_asc _ _ _ H).
  destruct (free_place _ _ _ _ _ H Hin) as (q & p & v & Hsplit & Efind & Hva & Hpa & Hp0).
  destruct (joins_ok _ _ _ _ _ _ _ _ H Hin Hsplit Hva Hpa Hp0) as (f2 & m & v2 & E2 & F & P2 & A2 & Hm & C2 & Hor & Hv2 & L2 & b & Hb & Hbn).
  assert (Hpath := ok_path _ _ _ H). change (lpath (hdr h) (ring fr) base) in Hpath. assert (Hnd := ring_nodup fr Hasc).
  rewrite Hsplit in Hpath, Hnd, Hring. apply lpath_app in Hpath as [Hq _]. rewrite fmap_app in Hnd, Hring.
  apply NoDup_app in Hnd as (_ & Hnd2 & _). cbn in Hnd2, Hring.
  destruct (rebuild fr q p v f2 m v2 Hsplit Hasc) as (fr' & Hring' & Hpath' & Hasc'); try done.
  { eapply lpath_frame; [|done]. intros x Hx. symmetry. apply F; [set_solver|]. intros ->. by apply (Hnd2 p.1 Hx), list_elem_of_here. }
  assert (Hcov : forall x, count x fr' = count x fr + covers x (a, n)).
  { intros x. assert (H1 := f_equal (count x) Hring'). assert (H2 := f_equal (count x) Hsplit). rewrite count_app in H1, H2. cbn in H1, H2.
    specialize (C2 x). lia. }
  exists (mkheap f2 p.1 (brk h)), fr'. split_and!; [|constructor| | | |]; cbn [hdr freep brk]; try done.
  - unfold free. cbv zeta. replace (units a 1 - HEADER) with a by (unfold units, HEADER; lia).
    unfold bind in E2. unfold bind, gets. rewrite Efind. destruct (join_next a p.1 h); try done. by rewrite E2.
  - rewrite Hring', fmap_app. set_solver.
  - apply Forall_forall. intros c Hc. assert (Hlv := ok_live _ _ _ H). rewrite Forall_forall in Hlv.
    destruct (Hlv c ltac:(set_solver)) as [Hc1 Hc2]. split; [done|]. rewrite F; [done| |].
    + intros E. by apply (live_apart h fr l1 (a, n) l2 c H Hc).
    + intros E. apply (ring_not_live h fr _ p H); [rewrite Hsplit; set_solver|]. rewrite <- E. apply list_elem_of_fmap_2. set_solver.
  - intros x. rewrite Hcov. assert (Ht := ok_tile _ _ _ H x). rewrite count_app in *. cbn in Ht. lia.
  - apply (ok_brk _ _ _ H).
  - assert (H1 := f_equal length Hring'). assert (H2 := f_equal length Hsplit). rewrite length_app in H1, H2. cbn in H1, H2. lia.
  - exists b. split; [|lia]. assert (b ∈ ring fr') as [->|?]%elem_of_cons by (rewrite Hring'; set_solver); [cbn in Hbn; lia|done].
Qed.

(** ** [malloc] *)
Lemma ascending_remove lo l p w : ascending lo (l ++ p :: w) -> ascending lo (l ++ w).
Proof.
  revert lo. induction l as [|d l IH]; intros lo; cbn.
  - intros (H1 & H2 & H3). eapply ascending_weak; [|done]. unfold units, HEADER. lia.
  - intros (H1 & H2 & H3). split_and!; [done|done|]. by apply IH.
Qed.

Lemma ascending_shrink lo l p w m : ascending lo (l ++ p :: w) -> 0 < m <= p.2 -> ascending lo (l ++ (p.1, m) :: w).
Proof.
  revert lo. induction l as [|d l IH]; intros lo; cbn.
  - intros (H1 & H2 & H3) Hm. split_and!; [done|lia|]. eapply ascending_weak; [|done]. unfold units, HEADER. lia.
  - intros (H1 & H2 & H3) Hm. split_and!; [done|done|]. by apply IH.
Qed.

(** Neighbours in the ring. *)
Lemma ring_pair fr j q p : ring fr !! j = Some q -> ring fr !! S j = Some p ->
  exists u w, ring fr = u ++ q :: p :: w /\ fr = take j fr ++ p :: w.
Proof.
  intros Hq Hp. exists (take j (ring fr)), (drop (S j) fr). change (ring fr !! S j) with (fr !! j) in Hp.
  assert (Hw := take_drop_middle fr j p Hp). split; [|done].
  rewrite <- (take_drop_middle (ring fr) j q Hq) at 1. f_equal. f_equal. change (drop (S j) (ring fr)) with (drop j fr). by apply drop_S.
Qed.

(** No block, free or live, starts inside a free one. *)
Lemma inside_free h fr lv p x : heap_ok h fr lv -> p ∈ fr -> p.1 < x < units p.1 p.2 -> (x ∉ (ring fr).*1) /\ (x ∉ lv.*1).
Proof.
  intros H Hp Hx. assert (Hasc := ok_asc _ _ _ H). split.
  - cbn. intros [->|(c & -> & Hc)%list_elem_of_fmap]%elem_of_cons.
    + destruct (ascending_elem _ _ _ Hasc Hp). assert (Hl := base_low). unfold units, HEADER in *. lia.
    + apply list_elem_of_lookup_1 in Hp as (i & Hi), Hc as (j & Hj). destruct (lt_eq_lt_dec i j) as [[Hij|Hij]|Hij].
      * assert (H1 := ascending_lt _ _ _ _ _ _ Hasc Hi Hj Hij). lia.
      * subst j. replace c with p in * by congruence. lia.
      * assert (H1 := ascending_lt _ _ _ _ _ _ Hasc Hj Hi Hij). apply list_elem_of_lookup_2 in Hj.
        destruct (ascending_elem _ _ _ Hasc Hj). unfold units, HEADER in *. lia.
  - intros (c & -> & Hc)%list_elem_of_fmap. assert (H1 := free_live_apart _ _ _ c p H Hc Hp ltac:(lia)). lia.
Qed.

Lemma ring_sizes h fr lv i b : heap_ok h fr lv -> ring fr !! i = Some b -> (hdr h b.1).2 = b.2.
Proof. intros H Hi. destruct (path_next _ _ _ i b (ok_path _ _ _ H) Hi) as (d & _ & ->). done. Qed.

Lemma live_upd (f : Z -> Z * Z) a v (lv : list block) : (a ∉ lv.*1) -> Forall (fun b => 0 < b.2 /\ (f b.1).2 = b.2) lv ->
  Forall (fun b => 0 < b.2 /\ (upd f a v b.1).2 = b.2) lv.
Proof.
  intros Ha Hl. apply Forall_forall. intros b Hb. rewrite Forall_forall in Hl. rewrite hdr_upd_ne; [by apply Hl|].
  intros <-. by apply Ha, list_elem_of_fmap_2.
Qed.

Lemma take_whole h fr lv j q p nu : heap_ok h fr lv -> ring fr !! j = Some q -> ring fr !! S j = Some p -> p.2 = nu -> 0 < nu ->
  exists h' fr', take_block nu q.1 p.1 h = Ok (units p.1 1) h' /\ heap_ok h' fr' ((p.1, nu) :: lv) /\ brk h' = brk h.
Proof.
  intros H Hq Hp En Hnu. destruct (ring_pair fr j q p Hq Hp) as (u & w & Hr & Hfr). assert (Hasc := ok_asc _ _ _ H).
  assert (Hpath := ok_path _ _ _ H). change (lpath (hdr h) (ring fr) base) in Hpath. rewrite Hr in Hpath.
  apply lpath_app in Hpath as [Hu [Hqp Hpw]]. assert (Hnd := ring_nodup fr Hasc). rewrite Hr, fmap_app in Hnd.
  apply NoDup_app in Hnd as (_ & Hnd2 & Hnd3). cbn in Hnd2, Hnd3. apply NoDup_cons in Hnd3 as [Hqn Hnd3]. apply NoDup_cons in Hnd3 as [Hpn _].
  set (l1 := take j fr) in *. assert (Hr' : ring (l1 ++ w) = u ++ q :: w).
  { rewrite Hfr in Hr. cbn in Hr. assert (Ht : u ++ [q] = ring l1).
    { apply (app_inv_tail (p :: w)). rewrite <- app_assoc. cbn. by rewrite <- Hr. }
    rewrite app_comm_cons, <- Ht. by rewrite <- app_assoc. }
  exists (mkheap (upd (hdr h) q.1 (first w, q.2)) q.1 (brk h)), (l1 ++ w).
  assert (Hqr : q ∈ ring fr) by (by eapply list_elem_of_lookup_2).
  split_and!; [|constructor| ]; cbn [hdr freep brk]; try apply (ok_brk _ _ _ H); try done.
  - unfold take_block, get_size, get_ptr, set_ptr, set_freep, bind, gets, modify, ret. rewrite (path_head _ _ _ Hpw). cbn [snd fst].
    rewrite En, Z.eqb_refl. cbn [hdr]. rewrite Hqp, (path_head _ _ _ Hpw). done.
  - change (lpath (upd (hdr h) q.1 (first w, q.2)) (ring (l1 ++ w)) base). rewrite Hr'. apply lpath_app. split.
    + eapply lpath_frame; [|done]. intros x Hx. rewrite hdr_upd_ne; [done|]. intros ->. by apply (Hnd2 q.1 Hx), list_elem_of_here.
    + destruct w as [|c w]; cbn; rewrite hdr_upd_eq; [done|]. split; [done|]. destruct Hpw as [_ Hpw]. apply path_upd; [|done]. set_solver.
  - rewrite Hfr in Hasc. by eapply ascending_remove.
  - rewrite Hr', fmap_app. set_solver.
  - constructor.
    + cbn. split; [done|]. rewrite hdr_upd_ne by set_solver. by rewrite (path_head _ _ _ Hpw).
    + apply live_upd; [by eapply ring_not_live|apply (ok_live _ _ _ H)].
  - intros x. rewrite <- (ok_tile _ _ _ H x). rewrite Hfr at 1. rewrite !count_app. cbn.
    replace (p.1, nu) with p by (destruct p; cbn in *; congruence). lia.
Qed.

Lemma take_tail h fr lv j q p nu : heap_ok h fr lv -> ring fr !! j = Some q -> ring fr !! S j = Some p -> nu < p.2 -> 0 < nu ->
  exists h' fr', take_block nu q.1 p.1 h = Ok (units (units p.1 (p.2 - nu)) 1) h' /\
    heap_ok h' fr' ((units p.1 (p.2 - nu), nu) :: lv) /\ brk h' = brk h.
Proof.
  intros H Hq Hp Hlt Hnu. destruct (ring_pair fr j q p Hq Hp) as (u & w & Hr & Hfr). assert (Hasc := ok_asc _ _ _ H).
  assert (Hpath := ok_path _ _ _ H). assert (Hnd := ascending_nodup _ _ Hasc). assert (Hsz := ring_sizes _ _ _ _ _ H Hp).
  set (l1 := take j fr) in *. assert (Hpf : p ∈ fr) by (rewrite Hfr; set_solver).
  assert (Hbnd : p.2 < 2 ^ 32).
  { destruct (ascending_elem _ _ _ Hasc Hpf) as [_ Hp0]. destruct (block_in _ _ _ p H ltac:(set_solver) Hp0) as [H1 H2].
    assert (Hl := limit_small). assert (Hb := base_pos). assert (Hlo := base_low). assert (Hbk := ok_brk _ _ _ H). unfold units, HEADER in *. lia. }
  set (r := units p.1 (p.2 - nu)). assert (Hri : p.1 < r < units p.1 p.2) by (unfold r, units, HEADER; lia).
  destruct (inside_free _ _ _ p r H Hpf Hri) as [Hr1 Hr2].
  set (f1 := upd (hdr h) p.1 ((hdr h p.1).1, p.2 - nu)).
  exists (mkheap (upd f1 r ((f1 r).1, nu)) q.1 (brk h)), (l1 ++ (p.1, p.2 - nu) :: w).
  assert (Hpnd : (p.1 ∉ l1.*1) /\ (p.1 ∉ w.*1)).
  { rewrite Hfr, fmap_app in Hnd. apply NoDup_app in Hnd as (_ & H1 & H2). cbn in H1, H2. apply NoDup_cons in H2 as [H2 _].
    split; [|done]. intros Hin. by apply (H1 _ Hin), list_elem_of_here. }
  assert (Hpb : p.1 <> base) by (destruct (ascending_elem _ _ _ Hasc Hpf); assert (Hl := base_low); unfold units, HEADER in *; lia).
  split_and!; [|constructor| ]; cbn [hdr freep brk]; try apply (ok_brk _ _ _ H); try done.
  - unfold take_block, get_size, get_ptr, set_size, set_freep, bind, gets, modify, ret. rewrite Hsz.
    rewrite (proj2 (Z.eqb_neq _ _)) by lia. rewrite u32_small by lia. cbn [hdr]. rewrite hdr_upd_eq. done.
  - apply path_upd; [rewrite Hfr in Hr1; rewrite fmap_app in *; cbn in *; rewrite fmap_app in *; cbn in *; set_solver|].
    rewrite Hfr in Hpath. apply path_app in Hpath as [H1 H2]. apply path_app. split.
    + apply path_upd; [set_solver|done].
    + unfold f1. apply path_first; [apply Hpnd|done].
  - rewrite Hfr in Hasc. apply ascending_shrink; [done|lia].
  - assert (Hqr : q ∈ ring fr) by (by eapply list_elem_of_lookup_2). rewrite Hfr in Hqr. rewrite fmap_cons, fmap_app, fmap_cons. cbn.
    apply elem_of_cons in Hqr as [->|Hqr]; [set_solver|]. apply elem_of_app in Hqr as [Hqr|Hqr].
    + apply list_elem_of_further, elem_of_app. left. by apply list_elem_of_fmap_2.
    + apply list_elem_of_further, elem_of_app. right. apply elem_of_cons in Hqr as [->|Hqr]; [set_solver|].
      apply list_elem_of_further. by apply list_elem_of_fmap_2.
  - constructor; [cbn; split; [done|]; by rewrite hdr_upd_eq|]. apply live_upd; [done|]. unfold f1.
    apply live_upd; [apply (ring_not_live _ _ _ p H); set_solver|apply (ok_live _ _ _ H)].
  - intros x. rewrite <- (ok_tile _ _ _ H x). rewrite Hfr at 1. rewrite !count_app. cbn.
    assert (Hj := covers_join x p.1 (p.2 - nu) nu ltac:(lia) ltac:(lia)). fold r in Hj.
    replace (p.2 - nu + nu) with p.2 in Hj by lia. destruct p; cbn in *. lia.
Qed.

(** A block of [nu] units was taken from the heap [h]. *)
Definition taken (nu : Z) (h : heap) (lv : list block) (c : UM Z) : Prop :=
  exists a h' fr', c h = Ok (units a 1) h' /\ heap_ok h' fr' ((a, nu) :: lv) /\ brk h' = brk h.

Lemma take_ok h fr lv j q p nu : heap_ok h fr lv -> ring fr !! j = Some q -> ring fr !! S j = Some p -> 0 < nu <= p.2 ->
  taken nu h lv (take_block nu q.1 p.1).
Proof.
  intros H Hq Hp [H0 Hle]. destruct (Z.eq_dec p.2 nu) as [E|E].
  - destruct (take_whole _ _ _ _ _ _ _ H Hq Hp E H0) as (h' & fr' & Hx). by exists p.1, h', fr'.
  - destruct (take_tail _ _ _ _ _ _ nu H Hq Hp ltac:(lia) H0) as (h' & fr' & Hx). by exists (units p.1 (p.2 - nu)), h', fr'.
Qed.

Lemma succ_mod x L j : (0 < L)%nat -> (S x mod L)%nat = S j -> (x mod L)%nat = j.
Proof.
  intros HL E. assert (Hx := Nat.div_mod_eq x L). assert (Hm := Nat.mod_upper_bound x L ltac:(lia)).
  destruct (decide (S (x mod L) < L)%nat) as [Hlt|Hge].
  - rewrite Hx in E. rewrite (Nat.mul_comm L) in E. replace (S (x / L * L + x mod L))%nat with (S (x mod L) + x / L * L)%nat in E by lia.
    rewrite Nat.Div0.mod_add, Nat.mod_small in E by done. lia.
  - rewrite Hx in E. rewrite (Nat.mul_comm L) in E. replace (S (x / L * L + x mod L))%nat with ((S (x / L)) * L)%nat in E by lia.
    by rewrite Nat.Div0.mod_mul in E.
Qed.

(** The [t]-th block after [freep]. *)
Definition nth_block (fr : list block) (f t : nat) (b : block) : Prop := ring fr !! ((f + t) mod length (ring fr))%nat = Some b.

Lemma nth_exists fr f t : exists b, nth_block fr f t b.
Proof. apply lookup_lt_is_Some_2. apply Nat.mod_upper_bound. done. Qed.

Lemma nth_next h fr lv f t b c : heap_ok h fr lv -> nth_block fr f t b -> nth_block fr f (S t) c -> hdr h b.1 = (c.1, b.2).
Proof.
  intros H Hb Hc. destruct (path_next _ _ _ _ _ (ok_path _ _ _ H) Hb) as (d & Hd & ->). unfold nth_block in Hc.
  rewrite <- Nat.add_succ_comm in Hc. rewrite <- (Nat.add_1_r ((f + t) mod _)), Nat.Div0.add_mod_idemp_l in Hd.
  replace (f + t + 1)%nat with (S f + t)%nat in Hd by lia. congruence.
Qed.

Lemma nth_freep h fr lv f t b p : heap_ok h fr lv -> ring fr !! f = Some p -> nth_block fr f t b -> (0 < t <= length (ring fr))%nat ->
  b.1 = p.1 <-> t = length (ring fr).
Proof.
  intros H Hp Hb Ht. assert (Hf := lookup_lt_Some _ _ _ Hp). set (L := length (ring fr)) in *. unfold nth_block in Hb. fold L in Hb.
  split.
  - intros E. assert (Hnd := ring_nodup fr (ok_asc _ _ _ H)).
    assert (Ei : ((f + t) mod L)%nat = f).
    { eapply NoDup_lookup; [exact Hnd| |]; rewrite list_lookup_fmap; [by rewrite Hb|by rewrite Hp, E]. }
    destruct (decide (f + t < L)%nat); [rewrite Nat.mod_small in Ei by done; lia|].
    replace (f + t)%nat with (f + t - L + 1 * L)%nat in Ei by lia. rewrite Nat.Div0.mod_add, Nat.mod_small in Ei by lia. lia.
  - intros ->. replace (f + L)%nat with (f + 1 * L)%nat in Hb by lia. rewrite Nat.Div0.mod_add, Nat.mod_small in Hb by done. congruence.
Qed.

(** What the loop does when it comes back to [freep]. *)
Definition refill (n : nat) (nu : Z) : UM Z :=
  do! p <- morecore can_grow nu; if p =? 0 then ret 0 else do! next <- get_ptr p; malloc_loop can_grow n nu p next.

Lemma malloc_step n nu q p h : malloc_loop can_grow (S n) nu q p h =
  if nu <=? (hdr h p).2 then take_block nu q p h
  else if p =? freep h then refill n nu h else malloc_loop can_grow n nu p (hdr h p).1 h.
Proof. cbn [malloc_loop]. unfold bind at 1, get_size at 1, gets at 1. destruct (nu <=? _); [done|]. unfold bind at 1, gets at 1. by destruct (p =? freep h). Qed.

(** From the [k]-th block on the loop takes a block, or comes back to [freep]
    without having found one. *)
Lemma malloc_scan h fr lv nu f p0 m r : heap_ok h fr lv -> ring fr !! f = Some p0 -> freep h = p0.1 -> 0 < nu ->
  forall k q p, (k + S r)%nat = length (ring fr) -> nth_block fr f k q -> nth_block fr f (S k) p ->
  taken nu h lv (malloc_loop can_grow (S r + m) nu q.1 p.1) \/
  ((forall t b, (k < t <= length (ring fr))%nat -> nth_block fr f t b -> b.2 < nu) /\
   malloc_loop can_grow (S r + m) nu q.1 p.1 h = refill m nu h).
Proof.
  intros H Hf Hfp Hnu. induction r as [|r IH]; intros k q p Hk Hq Hp; cbn [Nat.add]; unfold taken; rewrite malloc_step, Hfp;
    destruct (nth_exists fr f (S (S k))) as (c & Hc); assert (Hpc := nth_next _ _ _ _ _ _ _ H Hp Hc); rewrite Hpc; cbn [fst snd].
  all: destruct (Z.leb_spec nu p.2) as [Hfit|Hsmall].
  all: try (left; destruct ((f + S k) mod length (ring fr))%nat as [|j] eqn:Ej;
    [unfold nth_block in Hp; rewrite Ej in Hp; injection Hp as <-; cbn in Hfit; lia|];
    unfold nth_block in Hp, Hq; rewrite Ej in Hp; rewrite Nat.add_succ_r in Ej; apply succ_mod in Ej; [|cbn; lia]; rewrite Ej in Hq;
    by eapply take_ok).
  - right. rewrite (proj2 (Z.eqb_eq p.1 p0.1)) by (eapply nth_freep; eauto; lia). split; [|done].
    intros t b Ht Hb. replace t with (S k) in Hb by lia. unfold nth_block in *. rewrite Hp in Hb. by injection Hb as <-.
  - assert (Hne : p.1 <> p0.1) by (intros E; eapply nth_freep in E; eauto; lia).
    rewrite (proj2 (Z.eqb_neq _ _) Hne). destruct (IH (S k) p c ltac:(lia) Hp Hc) as [Ht|[Hall Ht]]; [by left|right]. split; [|done].
    intros t b Ht' Hb. destruct (decide (t = S k)) as [->|]; [|apply (Hall t b); [lia|done]].
    unfold nth_block in *. rewrite Hp in Hb. by injection Hb as <-.
Qed.

Lemma freep_index h fr lv : heap_ok h fr lv -> exists f p0, ring fr !! f = Some p0 /\ freep h = p0.1.
Proof.
  intros H. destruct (proj1 (list_elem_of_fmap _ _ _) (ok_freep _ _ _ H)) as (b & Eb & Hin).
  apply list_elem_of_lookup_1 in Hin as (i & Hi). by exists i, b.
Qed.

(** One round of the loop from [freep]. *)
Lemma malloc_round h fr lv nu m : heap_ok h fr lv -> 0 < nu -> (length (ring fr) <= m)%nat ->
  taken nu h lv (fun h => malloc_loop can_grow m nu (freep h) (hdr h (freep h)).1 h) \/
  (Forall (fun b => b.2 < nu) fr /\
   malloc_loop can_grow m nu (freep h) (hdr h (freep h)).1 h = refill (m - length (ring fr)) nu h).
Proof.
  intros H Hnu Hm. destruct (freep_index _ _ _ H) as (f & p0 & Hf & Hfp). set (L := length (ring fr)) in *.
  assert (Hf' := lookup_lt_Some _ _ _ Hf). fold L in Hf'.
  assert (H0 : nth_block fr f 0 p0) by (unfold nth_block; rewrite Nat.add_0_r, Nat.mod_small by done; done).
  destruct (nth_exists fr f 1) as (p & Hp). assert (Hn := nth_next _ _ _ _ _ _ _ H H0 Hp).
  unfold taken. rewrite Hfp, Hn. cbn [fst]. replace m with (S (L - 1) + (m - L))%nat by lia.
  destruct (malloc_scan h fr lv nu f p0 (m - L) (L - 1) H Hf Hfp Hnu 0 p0 p ltac:(unfold L; cbn; lia) H0 Hp) as [Ht|[Hall Ht]]; [by left|right].
  replace (S (L - 1) + (m - L) - L)%nat with (m - L)%nat by lia. split; [|done].
  apply Forall_forall. intros b Hb. apply list_elem_of_lookup_1 in Hb as (i & Hi).
  change (fr !! i) with (ring fr !! S i) in Hi. assert (Hi' := lookup_lt_Some _ _ _ Hi). fold L in Hi'.
  destruct (decide (f < S i)%nat).
  - apply (Hall (S i - f)%nat b); [fold L; lia|]. unfold nth_block. replace (f + (S i - f))%nat with (S i) by lia. by rewrite Nat.mod_small by (fold L; lia).
  - apply (Hall (L + S i - f)%nat b); [fold L; lia|]. unfold nth_block. fold L.
    replace (f + (L + S i - f))%nat with (S i + 1 * L)%nat by lia. rewrite Nat.Div0.mod_add. by rewrite Nat.mod_small.
Qed.

(** ** More memory *)

(** The units [morecore] asks for. *)
Definition request (nu : Z) : Z := if nu <? 4096 then 4096 else nu.

Lemma grown_ok h fr lv n : heap_ok h fr lv -> 0 < n -> brk h + n * HEADER <= limit ->
  heap_ok (mkheap (upd (hdr h) (brk h) ((hdr h (brk h)).1, n)) (freep h) (brk h + n * HEADER)) fr ((brk h, n) :: lv).
Proof.
  intros H Hn Hlim. assert (Hbk := ok_brk _ _ _ H). assert (Hasc := ok_asc _ _ _ H). assert (Hlow := base_low).
  assert (Hnew : forall b, b ∈ fr ++ lv -> 0 < b.2 -> b.1 <> brk h).
  { intros b Hb Hb0. destruct (block_in _ _ _ b H Hb Hb0). unfold units, HEADER in *. lia. }
  constructor; cbn [hdr freep brk].
  - apply path_upd; [|apply (ok_path _ _ _ H)]. cbn. intros [E|(c & E & Hc)%list_elem_of_fmap]%elem_of_cons.
    + unfold units, HEADER in *. lia.
    + destruct (ascending_elem _ _ _ Hasc Hc). apply (Hnew c); [set_solver|done|done].
  - done.
  - apply (ok_freep _ _ _ H).
  - constructor; [cbn; by rewrite hdr_upd_eq|]. apply live_upd; [|apply (ok_live _ _ _ H)].
    intros (c & E & Hc)%list_elem_of_fmap. assert (Hlv := ok_live _ _ _ H). rewrite Forall_forall in Hlv. destruct (Hlv c Hc) as [Hc0 _].
    apply (Hnew c); [set_solver|done|done].
  - intros x. cbn. assert (Ht := ok_tile _ _ _ H x). revert Ht. unfold covers, units, HEADER in *. cbn [fst snd].
    destruct (Z.leb_spec start x), (Z.ltb_spec x (brk h)), (Z.leb_spec (brk h) x), (Z.ltb_spec x (brk h + 16 * n)), (Z.ltb_spec x (brk h + n * 16)); cbn [andb]; lia.
  - unfold HEADER in *. lia.
Qed.

Lemma morecore_ok h fr lv nu : heap_ok h fr lv -> 0 < nu -> nu * HEADER < 2 ^ 31 ->
  if can_grow (brk h) (request nu * HEADER)
  then exists h' fr', morecore can_grow nu h = Ok (freep h') h' /\ heap_ok h' fr' lv /\ (length fr' <= S (length fr))%nat /\
         brk h' = brk h + request nu * HEADER /\ exists b, b ∈ fr' /\ nu <= b.2
  else morecore can_grow nu h = Ok 0 h.
Proof.
  intros H Hnu Hsz. assert (Hreq : nu <= request nu /\ request nu * HEADER < 2 ^ 31).
  { unfold request, HEADER in *. destruct (Z.ltb_spec nu 4096); lia. }
  change (morecore can_grow nu) with (do! p <- sbrk can_grow (s32 (request nu * HEADER));
    match p with None => ret 0 | Some hp => set_size hp (request nu) ;; free (units hp 1) ;; gets freep end).
  rewrite s32_small by (unfold HEADER in *; lia). unfold bind, sbrk.
  destruct (can_grow _ _) eqn:Eg; [|done]. unfold set_size, modify. cbn [hdr freep brk].
  assert (Hg := grown_ok _ _ _ (request nu) H ltac:(lia) (grow_limit _ _ Eg)).
  destruct (free_ok _ _ [] (brk h) (request nu) lv Hg) as (h' & fr' & E & Hok & Hb & _ & Hl & b & Hbf & Hbn).
  exists h', fr'. rewrite E. split_and!; try done. exists b. split; [done|lia].
Qed.

Lemma freep_pos h fr lv : heap_ok h fr lv -> freep h <> 0.
Proof.
  intros H. destruct (freep_index _ _ _ H) as (f & p0 & Hf & ->). apply list_elem_of_lookup_2 in Hf. assert (Hl := base_low). assert (Hp := base_pos).
  apply elem_of_cons in Hf as [->|Hf]; [cbn; lia|]. destruct (ascending_elem _ _ _ (ok_asc _ _ _ H) Hf). unfold units, HEADER in *. lia.
Qed.

(** The loop of [malloc] from [freep], with the rounds [malloc] allows. *)
Lemma malloc_loop_ok h fr lv nu : heap_ok h fr lv -> 0 < nu -> nu * HEADER < 2 ^ 31 ->
  exists r h', malloc_loop can_grow (2 * rounds h + 2) nu (freep h) (hdr h (freep h)).1 h = Ok r h' /\
    ((exists a fr', r = units a 1 /\ heap_ok h' fr' ((a, nu) :: lv)) \/
     (r = 0 /\ h' = h /\ Forall (fun b => b.2 < nu) fr /\ can_grow (brk h) (request nu * HEADER) = false)).
Proof.
  intros H Hnu Hsz. assert (Hr := rounds_enough _ _ _ H).
  destruct (malloc_round h fr lv nu (2 * rounds h + 2) H Hnu ltac:(lia)) as [(a & h' & fr' & E & Hok & _)|[Hall E]].
  { rewrite E. do 2 eexists. split; [done|]. left. by exists a, fr'. }
  rewrite E. unfold refill. assert (Hm := morecore_ok h fr lv nu H Hnu Hsz). unfold bind at 1.
  destruct (can_grow _ _) eqn:Eg.
  - destruct Hm as (h1 & fr1 & -> & Hok1 & Hl1 & _ & b & Hb & Hbn). rewrite (proj2 (Z.eqb_neq _ _) (freep_pos _ _ _ Hok1)).
    unfold bind, get_ptr, gets.
    destruct (malloc_round h1 fr1 lv nu (2 * rounds h + 2 - length (ring fr)) Hok1 Hnu ltac:(cbn in *; lia)) as [(a & h' & fr' & E' & Hok & _)|[Hall' _]].
    + rewrite E'. do 2 eexists. split; [done|]. left. by exists a, fr'.
    + rewrite Forall_forall in Hall'. specialize (Hall' b Hb). lia.
  - rewrite Hm. exists 0, h. split; [done|]. by right.
Qed.

(** ** Any use of the allocator *)

(** Before the first call there is no list; afterwards the invariant holds. *)
Definition ready (h : heap) (fr lv : list block) : Prop :=
  heap_ok h fr lv \/ (freep h = 0 /\ fr = [] /\ lv = [] /\ brk h = start /\ start <= limit).

(** The largest request whose size in bytes fits [sbrk]'s argument. *)
Definition MAXREQUEST : Z := 2 ^ 31 - 32.

Lemma nunits_ok nbytes : 0 <= nbytes <= MAXREQUEST -> 0 < nunits nbytes /\ nunits nbytes * HEADER < 2 ^ 31 /\ nbytes <= (nunits nbytes - 1) * HEADER.
Proof.
  intros Hn. unfold nunits, MAXREQUEST, HEADER in *. assert (Hd := Z.div_mod (nbytes + 16 - 1) 16 ltac:(lia)).
  assert (Hm := Z.mod_pos_bound (nbytes + 16 - 1) 16 ltac:(lia)). rewrite u32_small by lia. lia.
Qed.

Lemma malloc_ready h fr lv nbytes : ready h fr lv -> 0 <= nbytes <= MAXREQUEST ->
  exists r h', malloc base can_grow nbytes h = Ok r h' /\
    ((exists a fr', r = units a 1 /\ heap_ok h' fr' ((a, nunits nbytes) :: lv)) \/
     (r = 0 /\ heap_ok h' fr lv /\ Forall (fun b => b.2 < nunits nbytes) fr /\ can_grow (brk h) (request (nunits nbytes) * HEADER) = false)).
Proof.
  intros Hr Hn. destruct (nunits_ok nbytes Hn) as (Hnu & Hsz & _). unfold malloc. cbv zeta. unfold bind at 1, gets.
  destruct Hr as [H|(Hf & -> & -> & Hb & Hlim)].
  - rewrite (proj2 (Z.eqb_neq _ _) (freep_pos _ _ _ H)). unfold bind, ret, get_ptr, gets.
    destruct (malloc_loop_ok h fr lv (nunits nbytes) H Hnu Hsz) as (r & h' & E & [Hx|(-> & -> & Hx)]); exists r, h' || exists 0, h; rewrite E; [by eauto|].
    split; [done|]. by right.
  - rewrite Hf. cbn [Z.eqb]. unfold bind, ret, get_ptr, gets, set_ptr, set_freep, set_size, modify. cbn [hdr freep brk].
    set (h1 := mkheap _ base _). assert (H : heap_ok h1 [] []).
    { unfold h1. constructor; cbn [hdr freep brk path ascending]; try done.
      - rewrite !hdr_upd_eq. done.
      - apply list_elem_of_here.
      - intros x. rewrite Hb. cbn. destruct (Z.leb_spec start x), (Z.ltb_spec x start); cbn; lia.
      - lia. }
    destruct (malloc_loop_ok h1 [] [] (nunits nbytes) H Hnu Hsz) as (r & h' & E & [Hx|(-> & -> & Hx)]).
    + exists r, h'. split; [exact E|]. by left.
    + exists 0, h1. split; [exact E|]. right. by split_and!; try apply Hx.
Qed.

(** A program writes into its blocks, not into their headers. *)
Lemma write_ok h fr lv g : heap_ok h fr lv -> (forall x, g x <> hdr h x -> exists b, b ∈ lv /\ b.1 < x < units b.1 b.2) ->
  heap_ok (mkheap g (freep h) (brk h)) fr lv.
Proof.
  intros H Hg. assert (Hin : forall x c, c ∈ fr ++ lv -> 0 < c.2 -> x = c.1 -> g x = hdr h x).
  { intros x c Hc Hc0 ->. destruct (decide (g c.1 = hdr h c.1)) as [|Hne]; [done|exfalso].
    destruct (Hg _ Hne) as (b & Hb & Hlt). assert (Ht := ok_tile _ _ _ H c.1). assert (Hlv := ok_live _ _ _ H).
    apply elem_of_app in Hc as [Hc|Hc].
    - assert (H1 := live_free_apart _ _ _ b c H Hb Hc ltac:(lia)). lia.
    - apply list_elem_of_split in Hb as (l1 & l2 & ->).
      assert (Hcb : c ∈ l1 ++ l2) by (apply elem_of_app in Hc as [?|[->|?]%elem_of_cons]; [set_solver|lia|set_solver]).
      assert (H1 := count_elem c.1 c _ Hcb). rewrite count_app in *. cbn in Ht.
      rewrite (proj2 (covers_1 c.1 c)) in H1 by (unfold units, HEADER; lia). rewrite (proj2 (covers_1 c.1 b)) in Ht by lia.
      assert (H2 := count_nonneg c.1 fr). revert Ht. case_match; lia. }
  constructor; cbn [hdr freep brk]; try apply H.
  - eapply path_frame; [|apply (ok_path _ _ _ H)]. cbn. intros x [->|(c & -> & Hc)%list_elem_of_fmap]%elem_of_cons.
    + destruct (decide (hdr h base = g base)) as [|Hne]; [done|]. destruct (Hg base) as (b & Hb & Hlt); [congruence|].
      assert (Hlv := ok_live _ _ _ H). rewrite Forall_forall in Hlv. destruct (Hlv b Hb) as [Hb0 _].
      destruct (block_in _ _ _ b H ltac:(set_solver) Hb0). assert (Hl := base_low). unfold units, HEADER in *. lia.
    + symmetry. apply (Hin c.1 c); [set_solver| |done]. by apply (ascending_elem _ _ _ (ok_asc _ _ _ H)).
  - apply Forall_forall. intros c Hc. assert (Hlv := ok_live _ _ _ H). rewrite Forall_forall in Hlv. destruct (Hlv c Hc) as [Hc0 Hc1].
    split; [done|]. rewrite (Hin c.1 c); [done|set_solver|done|done].
Qed.

(** The states a program can bring about that frees only what it was given
    and writes only into its blocks; [lv] are the blocks it holds. *)
Inductive reach : heap -> list block -> Prop :=
| reach_start f : start <= limit -> reach (mkheap f 0 start) []
| reach_malloc h lv nbytes r h' : reach h lv -> 0 <= nbytes <= MAXREQUEST -> malloc base can_grow nbytes h = Ok r h' ->
    reach h' (if r =? 0 then lv else (r - HEADER, nunits nbytes) :: lv)
| reach_free h l1 b l2 h' : reach h (l1 ++ b :: l2) -> free (units b.1 1) h = Ok tt h' -> reach h' (l1 ++ l2)
| reach_write h lv g : reach h lv -> (forall x, g x <> hdr h x -> exists b, b ∈ lv /\ b.1 < x < units b.1 b.2) ->
    reach (mkheap g (freep h) (brk h)) lv.

Lemma reach_ready h lv : reach h lv -> exists fr, ready h fr lv.
Proof.
  induction 1 as [f Hlim|h lv nbytes r h' _ (fr & Hr) Hn E|h l1 [a n] l2 h' _ (fr & Hr) E|h lv g _ (fr & Hr) Hg].
  - exists []. right. split_and!; done.
  - destruct (malloc_ready h fr lv nbytes Hr Hn) as (r' & h2 & E' & Hx). rewrite E in E'. injection E' as <- <-.
    destruct Hx as [(a & fr' & -> & Hok)|(-> & Hok & _)].
    + exists fr'. left. assert (Ha : start <= a).
      { assert (H1 := block_in h' fr' _ (a, nunits nbytes) Hok). cbn in H1. apply H1; [set_solver|]. by apply nunits_ok. }
      assert (Hl := base_low). assert (Hp := base_pos). rewrite (proj2 (Z.eqb_neq _ _)) by (unfold units, HEADER in *; lia).
      by replace (units a 1 - HEADER) with a by (unfold units, HEADER; lia).
    + exists fr. by left.
  - destruct Hr as [Hok|(_ & _ & Hl & _)]; [|by destruct l1].
    destruct (free_ok h fr l1 a n l2 Hok) as (h2 & fr' & E' & Hok' & _). cbn [fst] in E. rewrite E in E'. injection E' as <-.
    exists fr'. by left.
  - exists fr. destruct Hr as [Hok|(H1 & H2 & -> & H4)]; [left; by apply write_ok|right]. destruct H4. by split_and!.
Qed.

Lemma blocks_disjoint h fr b lv c : heap_ok h fr (b :: lv) -> c ∈ lv -> units b.1 b.2 <= c.1 \/ units c.1 c.2 <= b.1.
Proof.
  intros H Hc. assert (Hlv := ok_live _ _ _ H). rewrite Forall_forall in Hlv.
  destruct (Hlv b ltac:(set_solver)) as [Hb0 _]. destruct (Hlv c ltac:(set_solver)) as [Hc0 _].
  destruct (Z.le_gt_cases (units b.1 b.2) c.1) as [|H1]; [by left|]. destruct (Z.le_gt_cases (units c.1 c.2) b.1) as [|H2]; [by right|exfalso].
  set (x := Z.max b.1 c.1). assert (Ht := ok_tile _ _ _ H x). assert (H3 := count_elem x c lv Hc). assert (H4 := count_nonneg x fr). cbn in Ht.
  rewrite (proj2 (covers_1 x b)) in Ht by (unfold x, units, HEADER in *; lia).
  rewrite (proj2 (covers_1 x c)) in H3 by (unfold x, units, HEADER in *; lia). revert Ht. case_match; lia.
Qed.

(** C38.  [malloc] in any state a program can bring about, for any request up
    to 2 GB: the loops end; the result is a block of the heap that is large
    enough and overlaps no block the program holds, or null when [sbrk] has
    refused. *)
Theorem malloc_block (h : heap) (lv : list block) (nbytes : Z) : reach h lv -> 0 <= nbytes <= MAXREQUEST ->
  exists r h', malloc base can_grow nbytes h = Ok r h' /\
    if r =? 0 then can_grow (brk h) (request (nunits nbytes) * HEADER) = false
    else let b := (r - HEADER, nunits nbytes) in
      r + nbytes <= units b.1 b.2 <= brk h' /\ start <= b.1 /\
      (forall c, c ∈ lv -> units b.1 b.2 <= c.1 \/ units c.1 c.2 <= b.1).
Proof.
  intros Hr Hn. destruct (reach_ready h lv Hr) as (fr & Hrd). destruct (nunits_ok nbytes Hn) as (Hnu & _ & Hsz).
  destruct (malloc_ready h fr lv nbytes Hrd Hn) as (r & h' & E & [(a & fr' & -> & Hok)|(-> & _ & _ & Hg)]); do 2 eexists; (split; [exact E|]); [|done].
  assert (Hin := block_in h' fr' _ (a, nunits nbytes) Hok ltac:(set_solver) Hnu). cbn in Hin.
  assert (Hl := base_low). assert (Hp := base_pos). rewrite (proj2 (Z.eqb_neq _ _)) by (unfold units, HEADER in *; lia). cbv zeta.
  replace (units a 1 - HEADER) with a by (unfold units, HEADER; lia). cbn [fst snd].
  split_and!; [unfold units, HEADER in *; lia|lia|lia|]. intros c Hc. by apply (blocks_disjoint h' fr' (a, nunits nbytes) lv c Hok).
Qed.

(** C8.  The invariant of the allocator, in any state a program can bring
    about once it has called [malloc]: the blocks the program holds and the
    free blocks tile the heap, so that every byte is in exactly one of them
    and none is lost; the free list is circular, in increasing order and has
    no two adjacent blocks; and freeing any block the program holds ends
    normally and gives exactly its bytes back. *)
Theorem heap_tiled (h : heap) (lv : list block) : reach h lv -> freep h <> 0 ->
  exists fr, heap_ok h fr lv /\
    forall l1 a n l2, lv = l1 ++ (a, n) :: l2 ->
      exists h' fr', free (units a 1) h = Ok tt h' /\ heap_ok h' fr' (l1 ++ l2) /\
        forall x, count x fr' = count x fr + covers x (a, n).
Proof.
  intros Hr Hf. destruct (reach_ready h lv Hr) as (fr & [Hok|(H0 & _)]); [|done]. exists fr. split; [done|].
  intros l1 a n l2 ->. destruct (free_ok h fr l1 a n l2 Hok) as (h' & fr' & E & Hok' & _ & Hc & _). by exists h', fr'.
Qed.
End Inv.

(** ** A small heap *)
Module Demo.
Definition grow (b n : Z) : bool := b + n <=? 2 ^ 20.
Definition heap0 : heap := mkheap (fun _ => (0, 0)) 0 4096.

(** The heap after [malloc(100)]. *)
Definition after : Z * heap := match malloc 16 grow 100 heap0 with Ok r h => (r, h) | _ => (0, heap0) end.

Lemma after_ok : malloc 16 grow 100 heap0 = Ok after.1 after.2.
Proof. reflexivity. Qed.

Lemma grow_small b n : grow b n = true -> b + n <= 2 ^ 20.
Proof. apply Z.leb_le. Qed.

Lemma after_reach : reach 16 4096 (2 ^ 20) grow after.2 [(after.1 - HEADER, nunits 100)].
Proof.
  change [(after.1 - HEADER, nunits 100)] with (if after.1 =? 0 then [] else [(after.1 - HEADER, nunits 100)]).
  apply (reach_malloc 16 4096 (2 ^ 20) grow heap0 [] 100); [by apply reach_start|by unfold MAXREQUEST|apply after_ok].
Qed.

Lemma malloc_block_witness :
  exists r h', malloc 16 grow 5000 after.2 = Ok r h' /\
    if r =? 0 then grow (brk after.2) (request (nunits 5000) * HEADER) = false
    else let b := (r - HEADER, nunits 5000) in
      r + 5000 <= units b.1 b.2 <= brk h' /\ 4096 <= b.1 /\
      (forall c, c ∈ [(after.1 - HEADER, nunits 100)] -> units b.1 b.2 <= c.1 \/ units c.1 c.2 <= b.1).
Proof.
  apply (malloc_block 16 4096 (2 ^ 20) grow ltac:(done) ltac:(done) ltac:(done) grow_small after.2 _ 5000); [apply after_reach|by unfold MAXREQUEST].
Defined.

Lemma heap_tiled_witness :
  exists fr, heap_ok 16 4096 (2 ^ 20) after.2 fr [(after.1 - HEADER, nunits 100)] /\
    forall l1 a n l2, [(after.1 - HEADER, nunits 100)] = l1 ++ (a, n) :: l2 ->
      exists h' fr', free (units a 1) after.2 = Ok tt h' /\ heap_ok 16 4096 (2 ^ 20) h' fr' (l1 ++ l2) /\
        forall x, count x fr' = count x fr + covers x (a, n).
Proof.
  apply (heap_tiled 16 4096 (2 ^ 20) grow ltac:(done) ltac:(done) ltac:(done) grow_small after.2); [apply after_reach|].
  assert (E : freep after.2 = 16) by reflexivity. rewrite E. done.
Defined.
End Demo.
