(* ===== verification/Uart.v ===== *)
(** * kernel/uart.c and the output side of kernel/console.c

    The driver keeps a ring of 32 bytes to transmit, with 64-bit counters.
    The device is what its registers answer: each read of the line status
    register takes the next answer from a list, each read of the receive
    register the next byte that has arrived, and all writes to registers are
    recorded in order.  Code between two sleeps is one step, as in [Pipe.v];
    the console's own state is that of [Console.v]. *)

From S2P Require Import Prelude Riscv Mem Lock Kalloc Vm UserIO Pipe PipeSpec Console.
Local Open Scope Z_scope.

Definition RHR : Z := 0.
Definition THR : Z := 0.
Definition IER : Z := 1.
Definition IER_RX_ENABLE : Z := Z.shiftl 1 0.
Definition IER_TX_ENABLE : Z := Z.shiftl 1 1.
Definition FCR : Z := 2.
Definition FCR_FIFO_ENABLE : Z := Z.shiftl 1 0.
Definition FCR_FIFO_CLEAR : Z := Z.shiftl 3 1.
Definition LCR : Z := 3.
Definition LCR_EIGHT_BITS : Z := Z.shiftl 3 0.
Definition LCR_BAUD_LATCH : Z := Z.shiftl 1 7.
Definition LSR_RX_READY : Z := Z.shiftl 1 0.
Definition LSR_TX_IDLE : Z := Z.shiftl 1 5.
Definition UART_TX_BUF_SIZE : Z := 32.

(** The driver's variables, the answers of the device and its record of
    writes (register, value). *)
Record uart := mkuart {
  uart_tx_buf : list Z; uart_tx_w : Z; uart_tx_r : Z;
  lsr : list Z; rx : list Z; written : list (Z * Z); panicked : bool
}.
Record ust (U : Type) := mkust { un : uart; con : cst U }.
Arguments mkust {U} _ _.
Arguments un {U} _.
Arguments con {U} _.

(** [uart_tx_buf[i % UART_TX_BUF_SIZE]] *)
Definition tx_slot (i : Z) : nat := Z.to_nat (i mod UART_TX_BUF_SIZE).

Section Ops.
Context {U : Type} {HU : UserSpace U}.
Abbreviation UA := (M (ust U)).

#[export] Instance ust_locks : Locks (ust U).
Proof.
  refine {| held s := cheld (con s); set_held l s := mkust (un s) (mkcst (co (con s)) (cus (con s)) (echoed (con s)) l) |}.
  - done.
  - done.
  - by intros [? []].
Defined.

Definition getu {A} (f : uart -> A) : UA A := gets (fun s => f (un s)).
Definition setu (f : uart -> uart) : UA unit := modify (fun s => mkust (f (un s)) (con s)).
Definition on_console {A} (c : M (cst U) A) : UA A := zoom con (fun k s => mkust (un s) k) c.

(** [ReadReg(LSR)]; a device that has no more to say answers 0. *)
Definition read_lsr : UA Z :=
  do! v <- getu (fun u => default 0 (head (lsr u)));
  setu (fun u => mkuart (uart_tx_buf u) (uart_tx_w u) (uart_tx_r u) (tail (lsr u)) (rx u) (written u) (panicked u)) ;;
  ret v.
(** [ReadReg(RHR)] *)
Definition read_rhr : UA Z :=
  do! v <- getu (fun u => default 0 (head (rx u)));
  setu (fun u => mkuart (uart_tx_buf u) (uart_tx_w u) (uart_tx_r u) (lsr u) (tail (rx u)) (written u) (panicked u)) ;;
  ret v.
Definition WriteReg (reg v : Z) : UA unit :=
  setu (fun u => mkuart (uart_tx_buf u) (uart_tx_w u) (uart_tx_r u) (lsr u) (rx u) (written u ++ [(reg, u8 v)]) (panicked u)).

Definition uartinit : UA unit :=
  WriteReg IER 0x00 ;;
  WriteReg LCR LCR_BAUD_LATCH ;;
  WriteReg 0 0x03 ;;
  WriteReg 1 0x00 ;;
  WriteReg LCR LCR_EIGHT_BITS ;;
  WriteReg FCR (Z.lor FCR_FIFO_ENABLE FCR_FIFO_CLEAR) ;;
  WriteReg IER (Z.lor IER_TX_ENABLE IER_RX_ENABLE) ;;
  initlock "uart".

(** [wakeup(&uart_tx_r)] makes sleepers run again; they look at the ring
    anew. *)
Fixpoint uartstart_loop (n : nat) : UA unit :=
  match n with
  | O => hang
  | S n' =>
      do! u <- getu (fun u => u);
      if uart_tx_w u =? uart_tx_r u then ret tt
      else
        do! v <- read_lsr;
        if Z.land v LSR_TX_IDLE =? 0 then ret tt
        else
          let c := default 0 (uart_tx_buf u !! tx_slot (uart_tx_r u)) in
          setu (fun u => mkuart (uart_tx_buf u) (uart_tx_w u) (u64 (uart_tx_r u + 1)) (lsr u) (rx u) (written u) (panicked u)) ;;
          WriteReg THR c ;;
          uartstart_loop n'
  end.

(** The ring holds UART_TX_BUF_SIZE bytes. *)
Definition uartstart : UA unit := uartstart_loop (S (Z.to_nat UART_TX_BUF_SIZE)).

(** [uartputc(c)]: [false] when the process goes to sleep because the ring is
    full; it looks again, from here, when it is woken. *)
Definition uartputc (c : Z) : UA bool :=
  acquire "uart" ;;
  do! p <- getu panicked;
  if p : bool then hang
  else
    do! u <- getu (fun u => u);
    if uart_tx_w u =? u64 (uart_tx_r u + UART_TX_BUF_SIZE) then release "uart" ;; ret false
    else
      setu (fun u => mkuart (<[tx_slot (uart_tx_w u) := u8 c]> (uart_tx_buf u)) (u64 (uart_tx_w u + 1)) (uart_tx_r u) (lsr u) (rx u) (written u) (panicked u)) ;;
      uartstart ;;
      release "uart" ;;
      ret true.

(** [while((ReadReg(LSR) & LSR_TX_IDLE) == 0) ;] with [n] answers to come. *)
Fixpoint wait_idle (n : nat) : UA unit :=
  match n with
  | O => hang
  | S n' => do! v <- read_lsr; if Z.land v LSR_TX_IDLE =? 0 then wait_idle n' else ret tt
  end.

(** Interrupts are off in between. *)
Definition uartputc_spin (c : Z) : UA unit :=
  do! p <- getu panicked;
  if p : bool then hang
  else do! n <- getu (fun u => length (lsr u)); wait_idle n ;; WriteReg THR c.

Definition uartgetc : UA Z :=
  do! v <- read_lsr;
  if negb (Z.land v 0x01 =? 0) then read_rhr else ret (-1).

Fixpoint uartintr_loop (n : nat) : UA unit :=
  match n with
  | O => hang
  | S n' => do! c <- uartgetc; if c =? -1 then ret tt else on_console (consoleintr c) ;; uartintr_loop n'
  end.

(** Each round takes an answer of the device; without one there is no input. *)
Definition uartintr : UA unit :=
  do! n <- getu (fun u => S (length (lsr u)));
  uartintr_loop n ;;
  acquire "uart" ;;
  uartstart ;;
  release "uart".

(** [consolewrite] is through with [i] bytes, or sleeps with [i] bytes done
    and [c] in hand. *)
Inductive wprogress := WDone (i : Z) | WAsleep (i c : Z).

(** [filewrite] passes [user_src] = 1. *)
Fixpoint consolewrite_loop (fuel : nat) (pt src i n : Z) : UA wprogress :=
  match fuel with
  | O => hang
  | S f =>
      if i <? n then
        do! r <- on_console (memory (copy_in pt (u64 (src + i)) [0]));
        if r.2 : bool then
          let c := default 0 (head r.1) in
          do! ok <- uartputc c;
          if ok : bool then consolewrite_loop f pt src (i + 1) n else ret (WAsleep i c)
        else ret (WDone i)
      else ret (WDone i)
  end.

Definition consolewrite (pt src n : Z) : UA wprogress := consolewrite_loop (S (Z.to_nat n)) pt src 0 n.

(** What a sleeper does when it is woken. *)
Definition consolewrite_resume (pt src i c n : Z) : UA wprogress :=
  do! ok <- uartputc c;
  if ok : bool then consolewrite_loop (S (Z.to_nat n)) pt src (i + 1) n else ret (WAsleep i c).
End Ops.

(** * The serial port transmits what it is given, in order *)

Lemma tx_slot_u64 z : tx_slot (u64 z) = tx_slot z.
Proof. unfold tx_slot. f_equal. unfold u64. apply Z.mod_mod_divide. by exists (2 ^ 59). Qed.
Lemma tx_slot_lt z : (tx_slot z < 32)%nat.
Proof. unfold tx_slot. assert (H := Z.mod_pos_bound z UART_TX_BUF_SIZE ltac:(done)). unfold UART_TX_BUF_SIZE in *. lia. Qed.
Lemma tx_slot_ne a j k : 0 <= j < 32 -> 0 <= k < 32 -> j <> k -> tx_slot (a + j) <> tx_slot (a + k).
Proof.
  intros Hj Hk Hne E. unfold tx_slot, UART_TX_BUF_SIZE in *. assert (H1 := Z.mod_pos_bound (a + j) 32 ltac:(done)). assert (H2 := Z.mod_pos_bound (a + k) 32 ltac:(done)).
  apply Z2Nat.inj in E; [|lia..]. assert (H3 := Z.div_mod (a + j) 32 ltac:(done)). assert (H4 := Z.div_mod (a + k) 32 ltac:(done)). lia.
Qed.

(** The ring holds the bytes [q]; the counters may have wrapped around. *)
Record pending (u : uart) (q : list Z) : Prop := {
  pd_len : length (uart_tx_buf u) = 32%nat;
  pd_r : 0 <= uart_tx_r u < 2 ^ 64;
  pd_w : uart_tx_w u = u64 (uart_tx_r u + Z.of_nat (length q));
  pd_room : (length q <= 32)%nat;
  pd_byte : Forall byte_ok q;
  pd_at : forall j b, q !! j = Some b -> uart_tx_buf u !! tx_slot (uart_tx_r u + Z.of_nat j) = Some b
}.

Lemma u64_eq_distance a j k : 0 <= j < 2 ^ 64 -> 0 <= k < 2 ^ 64 -> (u64 (a + j) =? u64 (a + k)) = (j =? k).
Proof.
  intros Hj Hk. apply eq_true_iff_eq. rewrite !Z.eqb_eq. split; [|by intros ->]. intros E.
  assert (H : forall i, 0 <= i < 2 ^ 64 -> u64 (u64 (a + i) - a) = i).
  { intros i Hi. unfold u64. rewrite Zminus_mod_idemp_l. replace (a + i - a) with i by lia. by apply Z.mod_small. }
  rewrite <- (H j), <- (H k) by done. by rewrite E.
Qed.

Lemma pending_full u q : pending u q -> (uart_tx_w u =? u64 (uart_tx_r u + UART_TX_BUF_SIZE)) = (length q =? 32)%nat.
Proof.
  intros H. assert (Hr := pd_room _ _ H). rewrite (pd_w _ _ H), u64_eq_distance by (unfold UART_TX_BUF_SIZE; lia).
  unfold UART_TX_BUF_SIZE. destruct (Nat.eqb_spec (length q) 32); [apply Z.eqb_eq|apply Z.eqb_neq]; lia.
Qed.

Lemma pending_empty u q : pending u q -> (uart_tx_w u =? uart_tx_r u) = (length q =? 0)%nat.
Proof.
  intros H. assert (Hr := pd_room _ _ H). rewrite (pd_w _ _ H). rewrite <- (u64_small (uart_tx_r u)) at 2 by apply H.
  rewrite <- (Z.add_0_r (uart_tx_r u)) at 2. rewrite u64_eq_distance by lia. destruct (Nat.eqb_spec (length q) 0); [apply Z.eqb_eq|apply Z.eqb_neq]; lia.
Qed.

(** What the driver's functions leave as it is. *)
Definition with_queue (u : uart) (b : list Z) (w r : Z) (a : list Z) (out : list Z) : uart :=
  mkuart b w r a (rx u) (written u ++ (pair THR <$> out)) (panicked u).

Lemma pending_pop u b q out a : pending u (b :: q) ->
  pending (with_queue u (uart_tx_buf u) (uart_tx_w u) (u64 (uart_tx_r u + 1)) a out) q /\ uart_tx_buf u !! tx_slot (uart_tx_r u) = Some b /\ u8 b = b.
Proof.
  intros [H1 H2 H3 H4 H5 H6]. apply Forall_cons in H5 as [Hb H5]. split_and!.
  - constructor; cbn [with_queue uart_tx_buf uart_tx_r uart_tx_w length] in *; try done.
    + apply u64_range.
    + rewrite H3. unfold u64. rewrite Zplus_mod_idemp_l. f_equal. lia.
    + lia.
    + intros j x Hj. rewrite <- (H6 (S j) x Hj). f_equal. rewrite <- tx_slot_u64. unfold u64. rewrite Zplus_mod_idemp_l.
      change (_ mod 2 ^ 64) with (u64 (uart_tx_r u + 1 + Z.of_nat j)). rewrite tx_slot_u64. f_equal. lia.
  - assert (E := H6 0%nat b eq_refl). by rewrite Z.add_0_r in E.
  - by apply u8_small.
Qed.

Lemma pending_push u q c : pending u q -> (length q < 32)%nat ->
  pending (mkuart (<[tx_slot (uart_tx_w u) := u8 c]> (uart_tx_buf u)) (u64 (uart_tx_w u + 1)) (uart_tx_r u) (lsr u) (rx u) (written u) (panicked u)) (q ++ [u8 c]).
Proof.
  intros [H1 H2 H3 H4 H5 H6] Hr. constructor; cbn [uart_tx_buf uart_tx_r uart_tx_w].
  - by rewrite length_insert.
  - done.
  - rewrite H3, length_app. cbn. unfold u64. rewrite Zplus_mod_idemp_l. f_equal. lia.
  - rewrite length_app. cbn. lia.
  - apply Forall_app. split; [done|]. apply Forall_singleton, u8_range.
  - intros j x Hj. rewrite H3, tx_slot_u64. destruct (decide (j = length q)) as [->|Hne].
    + rewrite list_lookup_middle in Hj by done. injection Hj as <-. apply list_lookup_insert_eq. rewrite H1. apply tx_slot_lt.
    + assert (Hlt := lookup_lt_Some _ _ _ Hj). rewrite length_app in Hlt. cbn in Hlt. rewrite lookup_app_l in Hj by lia.
      rewrite list_lookup_insert_ne; [by apply H6|]. apply tx_slot_ne; lia.
Qed.

Section Spec.
Context {U : Type}.

(** The step from [s] to [s'] turns the queue [q] into [q'] and transmits
    [out]; input and console are left alone. *)
Definition transmits (s s' : ust U) (q' out : list Z) : Prop :=
  pending (un s') q' /\ written (un s') = written (un s) ++ (pair THR <$> out) /\
  rx (un s') = rx (un s) /\ panicked (un s') = panicked (un s) /\ con s' = con s.

Lemma transmits_none (s : ust U) q : pending (un s) q -> transmits s s q [].
Proof. intros H. split_and!; try done. cbn. by rewrite app_nil_r. Qed.

(** How many times in a row the device says that it can take a byte. *)
Fixpoint ready (a : list Z) : nat :=
  match a with [] => O | v :: a' => if Z.land v LSR_TX_IDLE =? 0 then O else S (ready a') end.

Lemma uartstart_loop_spec n (s : ust U) q : pending (un s) q -> (length q < n)%nat ->
  exists s' out q', uartstart_loop n s = Ok tt s' /\ q = out ++ q' /\ out = take (ready (lsr (un s))) q /\ transmits s s' q' out.
Proof.
  revert s q. induction n as [|n IH]; intros s q Hq Hn; [lia|]. cbn [uartstart_loop].
  rewrite (bind_ok _ _ s (un s) s) by done. rewrite (pending_empty _ _ Hq).
  destruct q as [|b q].
  - cbn. exists s, [], []. split_and!; try done; [by rewrite take_nil|by apply transmits_none].
  - cbn [length Nat.eqb]. set (s1 := mkust (with_queue (un s) (uart_tx_buf (un s)) (uart_tx_w (un s)) (uart_tx_r (un s)) (tail (lsr (un s))) []) (con s)).
    rewrite (bind_ok _ _ s (default 0 (head (lsr (un s)))) s1) by (unfold s1, with_queue; cbn; rewrite app_nil_r; done).
    assert (Er : ready (lsr (un s)) = if Z.land (default 0 (head (lsr (un s)))) LSR_TX_IDLE =? 0 then O else S (ready (tail (lsr (un s))))) by by destruct (lsr (un s)).
    rewrite Er. destruct (Z.land _ _ =? 0).
    + exists s1, [], (b :: q). split_and!; [done|done|done|]. split_and!; try done.
      destruct Hq as [H1 H2 H3 H4 H5 H6]. by constructor.
    + destruct (pending_pop (un s) b q [b] (tail (lsr (un s))) Hq) as (Hq' & -> & Hb). cbn [default from_option]. unfold id.
      set (s2 := mkust (with_queue (un s) (uart_tx_buf (un s)) (uart_tx_w (un s)) (u64 (uart_tx_r (un s) + 1)) (tail (lsr (un s))) [b]) (con s)).
      destruct (IH s2 q Hq' ltac:(cbn in Hn; lia)) as (s' & out & q' & E & Eq & Ho & H1 & H2 & H3 & H4 & H5).
      exists s', (b :: out), q'. split_and!; [|by rewrite Eq|cbn [take]; f_equal; exact Ho|]; cycle 1.
      { split_and!; try done. rewrite H2. cbn. by rewrite <- app_assoc. }
      unfold bind, setu, WriteReg, modify. cbn [un con s1 with_queue uart_tx_buf uart_tx_w uart_tx_r lsr rx written panicked fmap list_fmap].
      rewrite Hb, app_nil_r. exact E.
Qed.

Lemma uartstart_spec (s : ust U) q : pending (un s) q ->
  exists s' out q', uartstart s = Ok tt s' /\ q = out ++ q' /\ out = take (ready (lsr (un s))) q /\ transmits s s' q' out.
Proof. intros Hq. apply uartstart_loop_spec; [done|]. assert (H := pd_room _ _ Hq). change (length q < 33)%nat. lia. Qed.

Lemma transmits_held (s s' : ust U) q' out l : transmits (set_held l s) s' q' out -> held s' = l /\ transmits s (set_held (held s) s') q' out.
Proof.
  intros (H1 & H2 & H3 & H4 & H5). split; [cbn; by rewrite H5|]. split_and!; try done. cbn. rewrite H5. destruct s as [u [a b c d]]. done.
Qed.

(** [uartputc] with the lock taken and the ring examined. *)
Lemma uartputc_looks (s : ust U) q c : pending (un s) q -> "uart" ∉ held s -> panicked (un s) = false ->
  uartputc c s = (if (length q =? 32)%nat then release "uart" ;; ret false
    else setu (fun u => mkuart (<[tx_slot (uart_tx_w u) := u8 c]> (uart_tx_buf u)) (u64 (uart_tx_w u + 1)) (uart_tx_r u) (lsr u) (rx u) (written u) (panicked u)) ;;
      uartstart ;; release "uart" ;; ret true) (set_held ("uart" :: held s) s).
Proof.
  intros Hq Hl Hp. unfold uartputc. rewrite (bind_ok _ _ _ _ _ (acquire_ok (HL := ust_locks) "uart" s Hl)).
  set (s1 := set_held ("uart" :: held s) s). rewrite (bind_ok _ _ s1 false s1) by (unfold getu, gets; cbn; by rewrite Hp).
  rewrite (bind_ok _ _ s1 (un s) s1) by done. by rewrite (pending_full _ _ Hq).
Qed.

(** No room: the process sleeps, and nothing has changed. *)
Lemma uartputc_full (s : ust U) q c : pending (un s) q -> "uart" ∉ held s -> panicked (un s) = false -> length q = 32%nat ->
  uartputc c s = Ok false s.
Proof.
  intros Hq Hl Hp Hfull. rewrite (uartputc_looks s q c Hq Hl Hp), Hfull. cbn [Nat.eqb].
  set (s1 := set_held ("uart" :: held s) s). rewrite (bind_ok _ _ _ _ _ (release_head (HL := ust_locks) "uart" (held s) s1 eq_refl)).
  unfold ret. f_equal. unfold s1. rewrite set_held_set. apply set_held_id.
Qed.

Lemma uartputc_room (s : ust U) q c : pending (un s) q -> "uart" ∉ held s -> panicked (un s) = false -> length q <> 32%nat ->
  exists s' out q', uartputc c s = Ok true s' /\ q ++ [u8 c] = out ++ q' /\ out = take (ready (lsr (un s))) (q ++ [u8 c]) /\ transmits s s' q' out.
Proof.
  intros Hq Hl Hp Hroom. rewrite (uartputc_looks s q c Hq Hl Hp), (proj2 (Nat.eqb_neq _ _) Hroom). set (s1 := set_held ("uart" :: held s) s).
  assert (Hr := pd_room _ _ Hq). assert (Hq1 := pending_push _ _ c Hq ltac:(lia)). rewrite (bind_ok _ _ s1 tt (mkust _ (con s1))) by done.
  match type of Hq1 with pending ?u _ => destruct (uartstart_spec (mkust u (con s1)) _ Hq1) as (s2 & out & q' & E & Eq & Ho & Ht) end.
  rewrite (bind_ok _ _ _ _ _ E). change (con s1) with (con (set_held ("uart" :: held s) s)) in Ht.
  match type of Ht with transmits (mkust ?u _) _ _ _ => destruct (transmits_held (mkust u (con s)) s2 q' out ("uart" :: held s) Ht) as [Hh Ht'] end.
  rewrite (bind_ok _ _ _ _ _ (release_head (HL := ust_locks) "uart" (held s) s2 Hh)).
  exists (set_held (held s) s2), out, q'. split_and!; done.
Qed.

(** ** Input *)

(** The answers left when the interrupt has taken the input. *)
Fixpoint after_input (a : list Z) : list Z :=
  match a with [] => [] | v :: a' => if negb (Z.land v 0x01 =? 0) then after_input a' else a' end.

(** The characters an interrupt finds: while the device says that input is
    ready, the next byte. *)
Fixpoint arrivals (a r : list Z) : list Z :=
  match a with
  | [] => []
  | v :: a' => if negb (Z.land v 0x01 =? 0) then default 0 (head r) :: arrivals a' (tail r) else []
  end.

Lemma uartintr_loop_spec a n (s : ust U) t : lsr (un s) = a -> (length a < n)%nat -> Forall byte_ok (rx (un s)) ->
  shows (co (con s)) t -> "cons" ∉ held s ->
  exists s', uartintr_loop n s = Ok tt s' /\ shows (co (con s')) (foldl (fun t c => press c t) t (arrivals a (rx (un s)))) /\
    cus (con s') = cus (con s) /\ held s' = held s /\
    (forall q, pending (un s) q -> pending (un s') q) /\ written (un s') = written (un s) /\ panicked (un s') = panicked (un s) /\
    lsr (un s') = after_input a.
Proof.
  revert n s t. induction a as [|v a IH]; intros n s t Ha Hn Hrx Hs Hl; (destruct n as [|n]; [lia|]); cbn [uartintr_loop]; unfold uartgetc.
  - exists (mkust (mkuart (uart_tx_buf (un s)) (uart_tx_w (un s)) (uart_tx_r (un s)) [] (rx (un s)) (written (un s)) (panicked (un s))) (con s)).
    split_and!; try done; [|by intros q []; constructor]. unfold read_lsr, getu, setu, bind, gets, modify, ret. rewrite Ha. done.
  - cbn [arrivals after_input]. set (s1 := mkust (mkuart (uart_tx_buf (un s)) (uart_tx_w (un s)) (uart_tx_r (un s)) a (rx (un s)) (written (un s)) (panicked (un s))) (con s)).
    assert (E1 : read_lsr s = Ok v s1) by (unfold read_lsr, getu, setu, bind, gets, modify, ret; by rewrite Ha).
    rewrite bind_assoc, (bind_ok _ _ _ _ _ E1). destruct (negb (Z.land v 1 =? 0)); cbn [foldl].
    + set (c := default 0 (head (rx (un s)))). set (s2 := mkust (mkuart (uart_tx_buf (un s)) (uart_tx_w (un s)) (uart_tx_r (un s)) a (tail (rx (un s))) (written (un s)) (panicked (un s))) (con s)).
      rewrite (bind_ok _ _ s1 c s2) by done.
      assert (Hc : 0 <= c < 256) by (unfold c; destruct Hrx as [|b r Hb _]; cbn; [lia|exact Hb]).
      rewrite (proj2 (Z.eqb_neq c (-1))) by lia.
      destruct (consoleintr_step c (con s) t Hs Hl) as (k & Ek & Hk & Hu & Hh).
      rewrite (bind_ok _ _ s2 tt (mkust (un s2) k)) by (unfold on_console, zoom; cbn; by rewrite Ek).
      destruct (IH n (mkust (un s2) k) (press c t)) as (s' & E & H1 & H2 & H3 & H4 & H5 & H6 & H7); try done.
      { cbn in Hn. lia. } { cbn. by destruct Hrx. } { cbn. by rewrite Hh. }
      exists s'. split_and!; try done.
      * by rewrite H2.
      * rewrite H3. cbn. by rewrite Hh.
      * intros q Hq. apply H4. by destruct Hq; constructor.
    + exists s1. split_and!; try done. by intros q []; constructor.
Qed.

Lemma uartintr_spec (s : ust U) q t : pending (un s) q -> shows (co (con s)) t -> ("uart" ∉ held s) -> ("cons" ∉ held s) ->
  Forall byte_ok (rx (un s)) ->
  exists s' out q', uartintr s = Ok tt s' /\ q = out ++ q' /\ out = take (ready (after_input (lsr (un s)))) q /\ pending (un s') q' /\
    written (un s') = written (un s) ++ (pair THR <$> out) /\ panicked (un s') = panicked (un s) /\
    shows (co (con s')) (foldl (fun t c => press c t) t (arrivals (lsr (un s)) (rx (un s)))) /\ held s' = held s.
Proof.
  intros Hq Hs Hl Hc Hrx. unfold uartintr. rewrite (bind_ok _ _ s (S (length (lsr (un s)))) s) by done.
  destruct (uartintr_loop_spec (lsr (un s)) (S (length (lsr (un s)))) s t eq_refl ltac:(lia) Hrx Hs Hc) as (s1 & E1 & H1 & H2 & H3 & H4 & H5 & H6 & H7).
  rewrite (bind_ok _ _ _ _ _ E1). assert (Hl1 : "uart" ∉ held s1) by (by rewrite H3).
  rewrite (bind_ok _ _ _ _ _ (acquire_ok (HL := ust_locks) "uart" s1 Hl1)).
  assert (Hq1 : pending (un (set_held ("uart" :: held s1) s1)) q) by exact (H4 q Hq).
  destruct (uartstart_spec _ q Hq1) as (s2 & out & q' & E & Eq & Ho & Ht). change (lsr (un _)) with (lsr (un s1)) in Ho. rewrite H7 in Ho.
  rewrite (bind_ok _ _ _ _ _ E). destruct (transmits_held s1 s2 q' out ("uart" :: held s1) Ht) as [Hh (T1 & T2 & T3 & T4 & T5)].
  exists (set_held (held s1) s2), out, q'. split_and!; try done.
  - apply (release_head (HL := ust_locks) "uart" (held s1) s2 Hh).
  - rewrite T2. by rewrite H5.
  - by rewrite T4.
  - by rewrite T5.
Qed.

(** ** Any use of the port *)

(** A character from a writer, or an interrupt; [a] is what the device answers
    meanwhile, [r] the input that has arrived. *)
Inductive uop := Putc (c : Z) (a : list Z) | Intr (a r : list Z).

(** The device as the operation finds it. *)
Definition device (a r : list Z) : M (ust U) unit :=
  setu (fun u => mkuart (uart_tx_buf u) (uart_tx_w u) (uart_tx_r u) a r (written u) (panicked u)).

Fixpoint uart_run (l : list uop) : M (ust U) (list Z) :=
  match l with
  | [] => ret []
  | Putc c a :: l' =>
      device a [] ;; do! ok <- uartputc c; do! cs <- uart_run l'; ret (if ok : bool then u8 c :: cs else cs)
  | Intr a r :: l' => device a r ;; uartintr ;; uart_run l'
  end.

Definition typed_in (l : list uop) : list Z := flat_map (fun x => match x with Putc _ _ => [] | Intr a r => arrivals a r end) l.

(** A queue of 32 bytes with the same use: the bytes it accepts, the bytes it
    hands to the device, each time as many as the device is ready for, and
    what it still holds at the end. *)
Fixpoint port (l : list uop) (q : list Z) : list Z * list Z * list Z :=
  match l with
  | [] => ([], [], q)
  | Putc c a :: l' =>
      if (length q =? 32)%nat then port l' q
      else let q1 := q ++ [u8 c] in
           let r := port l' (drop (ready a) q1) in (u8 c :: r.1.1, take (ready a) q1 ++ r.1.2, r.2)
  | Intr a _ :: l' =>
      let k := ready (after_input a) in
      let r := port l' (drop k q) in (r.1.1, take k q ++ r.1.2, r.2)
  end.

(** The queue loses nothing and keeps the order. *)
Lemma port_fifo l q : q ++ (port l q).1.1 = (port l q).1.2 ++ (port l q).2.
Proof.
  revert q. induction l as [|[c a|a r] l IH]; intros q; cbn [port fst snd]; [by rewrite app_nil_r| |].
  - destruct (length q =? 32)%nat; [apply IH|]. cbn [fst snd]. rewrite <- app_assoc, <- IH, app_assoc, take_drop, <- app_assoc. done.
  - by rewrite <- app_assoc, <- IH, app_assoc, take_drop.
Qed.

(** The serial port is a queue.  Under any sequence of characters from
    any number of writers and interrupts, whatever the device answers: no
    call gets stuck; a character is refused exactly while the ring holds 32
    bytes; the bytes written to the device are the first bytes of the queue,
    as many as the device says it is ready for, so that bytes go out each
    once and in the order of acceptance; what is not yet out is in the ring;
    the 64-bit counters may wrap around; and all input reaches line editing
    in order. *)
Theorem uart_fifo (l : list uop) (s : ust U) (q : list Z) (t : typed) : pending (un s) q -> shows (co (con s)) t ->
  ("uart" ∉ held s) -> ("cons" ∉ held s) -> panicked (un s) = false ->
  Forall (fun x => match x with Putc _ _ => True | Intr _ r => Forall byte_ok r end) l ->
  exists s', uart_run l s = Ok (port l q).1.1 s' /\ pending (un s') (port l q).2 /\
    written (un s') = written (un s) ++ (pair THR <$> (port l q).1.2) /\ q ++ (port l q).1.1 = (port l q).1.2 ++ (port l q).2 /\
    shows (co (con s')) (foldl (fun t c => press c t) t (typed_in l)).
Proof.
  revert s q t. induction l as [|[c a|a r] l IH]; intros s q t Hq Hs Hl Hc Hp Hb; cbn [uart_run typed_in flat_map foldl].
  - exists s. cbn [port fst snd]. split_and!; try done; [cbn; by rewrite app_nil_r|by rewrite app_nil_r].
  - apply Forall_cons in Hb as [_ Hb]. rewrite (bind_ok _ _ s tt (mkust _ (con s))) by done. set (s0 := mkust _ (con s)).
    assert (Hq0 : pending (un s0) q) by (by destruct Hq; constructor). assert (Hfifo := port_fifo (Putc c a :: l) q). cbn [port] in *.
    destruct (Nat.eqb_spec (length q) 32) as [Hfull|Hroom].
    + rewrite (bind_ok _ _ _ _ _ (uartputc_full s0 q c Hq0 Hl Hp Hfull)).
      destruct (IH s0 q t Hq0 Hs Hl Hc Hp Hb) as (s' & E & G). rewrite (bind_ok _ _ _ _ _ E). by exists s'.
    + destruct (uartputc_room s0 q c Hq0 Hl Hp Hroom) as (s1 & out1 & q1 & E1 & Eq1 & Ho & H1 & H2 & H3 & H4 & H5). rewrite (bind_ok _ _ _ _ _ E1).
      change (lsr (un s0)) with a in Ho. assert (q1 = drop (ready a) (q ++ [u8 c])) as Eq by (apply (app_inv_head out1); rewrite <- Eq1; rewrite Ho at 1; by rewrite take_drop). subst q1 out1.
      destruct (IH s1 _ t H1) as (s' & E & G1 & G2 & G3 & G4); [by rewrite H5|by cbn; rewrite H5|by cbn; rewrite H5|by rewrite H4|done|].
      rewrite (bind_ok _ _ _ _ _ E). exists s'. cbn [fst snd] in *. split_and!; try done. rewrite G2, H2. by rewrite <- app_assoc, fmap_app.
  - apply Forall_cons in Hb as [Hr Hb]. rewrite (bind_ok _ _ s tt (mkust _ (con s))) by done. set (s0 := mkust _ (con s)).
    assert (Hq0 : pending (un s0) q) by (by destruct Hq; constructor). assert (Hfifo := port_fifo (Intr a r :: l) q). cbn [port] in *.
    destruct (uartintr_spec s0 q t Hq0 Hs Hl Hc Hr) as (s1 & out1 & q1 & E1 & Eq1 & Ho & H1 & H2 & H3 & H4 & H5). rewrite (bind_ok _ _ _ _ _ E1).
    change (lsr (un s0)) with a in Ho. assert (q1 = drop (ready (after_input a)) q) as Eq by (apply (app_inv_head out1); rewrite <- Eq1; rewrite Ho at 1; by rewrite take_drop). subst q1 out1.
    destruct (IH s1 _ _ H1 H4) as (s' & E & G1 & G2 & G3 & G4); [by rewrite H5|by rewrite H5|by rewrite H3|done|].
    exists s'. cbn [fst snd] in *. split_and!; try done; [rewrite G2, H2; by rewrite <- app_assoc, fmap_app|by rewrite foldl_app].
Qed.
End Spec.

(** ** Writing to the console *)
Section Write.
Context {U : Type} {HU : UserSpace U} (Hbuf : 1 <= bufsize) (P : Z -> Prop) (V : views) (pt src n : Z).
Hypothesis pt_ok : P pt.
Hypothesis src_ok : 0 <= src /\ src + n < 2 ^ 64.

(** One byte of the process's memory. *)
Lemma fetch_one (s : ust U) a : sees (cus (con s)) P V -> 0 <= a < 2 ^ 64 ->
  exists r u', on_console (memory (copy_in pt a [0])) s = Ok r (mkust (un s) (mkcst (co (con s)) u' (echoed (con s)) (cheld (con s)))) /\
    sees u' P V /\ if r.2 then exists b, r.1 = [b] /\ byte_ok b /\ V pt a = Some b else V pt a = None.
Proof.
  intros Hs Ha. destruct (copy_in_law (cus (con s)) P pt V a [0] Hs pt_ok Ha) as (r & u' & E & Hs' & bs & H1 & H2 & H3 & H4); [by repeat constructor|done|].
  exists r, u'. split_and!; [|done|].
  - unfold on_console, memory, zoom. by rewrite E.
  - destruct (r.2).
    + destruct bs as [|b [|]]; try done. exists b. rewrite H1. apply Forall_cons in H2 as [Hb _]. split_and!; [done|done|].
      assert (E0 := H3 0%nat b eq_refl). by rewrite Z.add_0_r in E0.
    + destruct H4 as [Hl H4]. destruct bs; [|cbn in Hl; lia]. cbn in H4. by rewrite Z.add_0_r in H4.
Qed.

(** The bytes [bs] from [src + i] on have been accepted. *)
Record wrote (s s' : ust U) (i : Z) (q : list Z) (r : wprogress) (bs out q' : list Z) : Prop := {
  wr_queue : q ++ bs = out ++ q';
  wr_pending : pending (un s') q';
  wr_out : written (un s') = written (un s) ++ (pair THR <$> out);
  wr_user : forall j b, bs !! j = Some b -> V pt (src + i + Z.of_nat j) = Some b;
  wr_sees : sees (cus (con s')) P V;
  wr_same : co (con s') = co (con s) /\ held s' = held s /\ panicked (un s') = panicked (un s);
  wr_end : match r with
           | WDone i' => i' = i + Z.of_nat (length bs) /\ (i' = n \/ (i' < n /\ V pt (src + i') = None))
           | WAsleep i' c => i' = i + Z.of_nat (length bs) /\ i' < n /\ V pt (src + i') = Some c /\ length q' = 32%nat
           end
}.

(** Nothing was accepted. *)
Lemma sent_none (s : ust U) i q r k : pending (un s) q -> sees (cus k) P V -> co k = co (con s) -> cheld k = cheld (con s) ->
  match r with
  | WDone i' => i' = i /\ (i' = n \/ (i' < n /\ V pt (src + i') = None))
  | WAsleep i' c => i' = i /\ i' < n /\ V pt (src + i') = Some c /\ length q = 32%nat
  end -> wrote s (mkust (un s) k) i q r [] [] q.
Proof.
  intros Hq Hk Hk1 Hk2 Hr. constructor; try done.
  - by rewrite app_nil_r.
  - cbn. by rewrite app_nil_r.
  - destruct r; cbn; rewrite Z.add_0_r; done.
Qed.

Lemma consolewrite_loop_spec f i (s : ust U) q : 0 <= i <= n -> (Z.to_nat (n - i) < f)%nat ->
  pending (un s) q -> ("uart" ∉ held s) -> panicked (un s) = false -> sees (cus (con s)) P V ->
  exists s' r bs out q', consolewrite_loop f pt src i n s = Ok r s' /\ wrote s s' i q r bs out q'.
Proof.
  revert i s q. induction f as [|f IH]; intros i s q Hi Hf Hq Hl Hp Hs; [lia|]. cbn [consolewrite_loop].
  destruct (Z.ltb_spec i n) as [Hin|Hin]; cycle 1.
  { exists s, (WDone i), [], [], q. split; [done|]. destruct s as [u k]. apply (sent_none (mkust u k)); try done. split; [done|left; lia]. }
  rewrite u64_small by lia. destruct (fetch_one s (src + i) Hs ltac:(lia)) as (r & u' & E & Hs' & Hr). rewrite (bind_ok _ _ _ _ _ E).
  set (k := mkcst _ u' _ _). destruct (r.2); cycle 1.
  { do 2 eexists. exists [], [], q. split; [done|]. apply sent_none; try done. split; [done|by right]. }
  destruct Hr as (b & -> & Hb & HV). cbn [head default from_option]. unfold id. destruct (Nat.eq_dec (length q) 32%nat) as [Hfull|Hroom].
  { rewrite (bind_ok _ _ _ _ _ (uartputc_full (mkust (un s) k) q b Hq Hl Hp Hfull)). do 2 eexists. exists [], [], q. split; [done|]. by apply sent_none. }
  destruct (uartputc_room (mkust (un s) k) q b Hq Hl Hp Hroom) as (s1 & out1 & q1 & E1 & Eq1 & _ & T1 & T2 & T3 & T4 & T5). rewrite (bind_ok _ _ _ _ _ E1).
  destruct (IH (i + 1) s1 q1 ltac:(lia) ltac:(lia) T1) as (s' & r' & bs & out & q' & E2 & [W1 W2 W3 W4 W5 W6 W7]);
    [by cbn; rewrite T5|by rewrite T4|by rewrite T5|].
  exists s', r', (b :: bs), (out1 ++ out), q'. split; [done|]. rewrite (u8_small b) in Eq1 by apply Hb. constructor; try done.
  - change (q ++ b :: bs) with (q ++ [b] ++ bs). by rewrite app_assoc, Eq1, <- !app_assoc, W1.
  - rewrite W3, T2. by rewrite <- app_assoc, fmap_app.
  - intros [|j] x Hj; [injection Hj as <-; by rewrite Z.add_0_r|]. rewrite <- (W4 j x Hj). f_equal. lia.
  - destruct W6 as (H1 & H2 & H3). rewrite H1, H2, H3, T4. cbn. by rewrite T5.
  - cbn [length]. destruct r'; destruct W7 as [-> W7]; (split; [lia|done]).
Qed.

(** Writing to the console hands the serial port the bytes of the
    caller's memory, in order and each once: [consolewrite] stops after all
    of them, before the first byte the process may not read, or asleep with
    the next byte in hand while the ring is full; what has been accepted is
    on the device or in the ring behind what was there before. *)
Theorem consolewrite_sends (s : ust U) (q : list Z) : 0 <= n -> pending (un s) q -> ("uart" ∉ held s) -> panicked (un s) = false ->
  sees (cus (con s)) P V ->
  exists s' r bs out q', consolewrite pt src n s = Ok r s' /\ wrote s s' 0 q r bs out q'.
Proof. intros Hn Hq Hl Hp Hs. apply consolewrite_loop_spec; try done; lia. Qed.
End Write.

(** ** Examples *)

(** A port whose counters are about to wrap around. *)
Definition idle_port : uart := mkuart (replicate 32 0) (2 ^ 64 - 1) (2 ^ 64 - 1) [] [] [] false.
Lemma idle_pending : pending idle_port [].
Proof. constructor; try done; cbn. lia. Qed.

(** Two characters while the device is busy, then an interrupt that finds it
    idle once and brings a newline. *)
Definition port_use : list uop := [Putc 104 [0]; Putc 105 []; Intr [1; 0; 32] [10]].

Lemma uart_fifo_witness : exists (s' : ust machine),
  uart_run port_use (mkust idle_port (mkcst quiet (mkmachine ∅ 0 ∅ []) [] [])) = Ok [104; 105] s' /\ pending (un s') [105] /\
    written (un s') = [(THR, 104)] /\ [] ++ [104; 105] = [104] ++ [105] /\ shows (co (con s')) ([10], []).
Proof.
  apply (uart_fifo port_use (mkust idle_port (mkcst quiet (mkmachine ∅ 0 ∅ []) [] [])) [] ([], [])); try apply not_elem_of_nil.
  - apply idle_pending.
  - apply quiet_shows.
  - reflexivity.
  - repeat constructor; done.
Defined.

Lemma consolewrite_sends_witness : exists (s s' : ust machine) pt r, un s = idle_port /\ @consolewrite machine demo_user pt 100 5 s = Ok r s'.
Proof.
  destruct demo_sees as (u & pt & V & Hv). exists (mkust idle_port (mkcst quiet u [] [])).
  destruct (@consolewrite_sends machine demo_user ltac:(done) (eq pt) V pt 100 5 eq_refl ltac:(done) (mkust idle_port (mkcst quiet u [] [])) []) as (s' & r & bs & out & q' & E & _).
  - done.
  - apply idle_pending.
  - apply not_elem_of_nil.
  - reflexivity.
  - exact Hv.
  - exists s', pt, r. split; [reflexivity|exact E].
Defined.
