(* ===== verification/Printf.v ===== *)
(** * Numbers as text

    What kernel/printf.c and user/printf.c share: [printint] converts a number
    in a buffer of 16 characters, last digit first, and puts the buffer out
    from its end; [printptr] puts out 16 hexadecimal digits.  The two files
    differ in the letters of the digits and in where a character goes, which
    are arguments here.  The lemmas say which numeral is put out. *)

From S2P Require Import Prelude.
Local Open Scope Z_scope.

(** The characters of a literal. *)
Definition codes (s : string) : list Z := (fun c => Z.of_N (Ascii.N_of_ascii c)) <$> String.list_ascii_of_string s.

(** ** Formats and arguments

    An argument of [printf] is the contents of a register or a string; a
    string is the list of its characters, and the null pointer is
    [VStr None]. *)
Inductive vararg := VInt (z : Z) | VStr (s : option (list Z)).
Definition PERCENT : Z := 37.
Definition null_text : list Z := Eval cbv in codes "(null)".

(** A format is a sequence of characters and directives. *)
Inductive piece := Lit (c : Z) | Directive (c : Z).
Fixpoint pieces (fmt : list Z) : list piece :=
  match fmt with
  | [] => []
  | c :: fmt' =>
      if c =? PERCENT then match fmt' with [] => [] | d :: fmt'' => Directive d :: pieces fmt'' end
      else Lit c :: pieces fmt'
  end.

(** The text of a format, given what a directive stands for and which
    arguments it leaves. *)
Fixpoint text (directive : Z -> list vararg -> option (list Z * list vararg)) (ps : list piece) (ap : list vararg) : option (list Z) :=
  match ps with
  | [] => Some []
  | Lit c :: ps' => (cons c) <$> text directive ps' ap
  | Directive c :: ps' =>
      match directive c ap with
      | None => None
      | Some (w, ap') => (app w) <$> text directive ps' ap'
      end
  end.

(** Characters, and strings of characters. *)
Definition char_ok (c : Z) : Prop := 0 <= c < 256.
Definition vararg_ok (a : vararg) : Prop := match a with VStr (Some s) => Forall char_ok s | _ => True end.

(** ** Output

    Where characters go: states that characters can be added to. *)
Class Output (T : Type) := {
  put : list Z -> T -> T;
  put_nil : forall s, put [] s = s;
  put_put : forall a b s, put b (put a s) = put (a ++ b) s
}.

Section Numbers.
Context {T : Type}.
Variables (digits : list Z) (putc : Z -> M T unit).

(** [do { buf[i++] = digits[x % base]; } while((x /= base) != 0);] *)
Fixpoint convert (n : nat) (x base : Z) (buf : list Z) : M T (list Z) :=
  match n with
  | O => hang
  | S n' =>
      if (16 <=? length buf)%nat then undef
      else match digits !! Z.to_nat (x mod base) with
           | None => undef
           | Some d => if x / base =? 0 then ret (buf ++ [d]) else convert n' (x / base) base (buf ++ [d])
           end
  end.

(** [buf[i++] = '-'] *)
Definition add_sign (neg : bool) (buf : list Z) : M T (list Z) :=
  if neg then if (16 <=? length buf)%nat then undef else ret (buf ++ [45]) else ret buf.

(** [while(--i >= 0) putc(buf[i]);] *)
Fixpoint flush (i : nat) (buf : list Z) : M T unit :=
  match i with
  | O => ret tt
  | S i' => match buf !! i' with None => undef | Some c => putc c ;; flush i' buf end
  end.

(** [xx] is an [int]. *)
Definition print_number (xx base : Z) (sign : bool) : M T unit :=
  let neg := sign && (xx <? 0) in
  let x := if neg then u32 (- xx) else u32 xx in
  do! buf <- convert 33 x base [];
  do! buf <- add_sign neg buf;
  flush (length buf) buf.

(** [for(i = 0; i < 16; i++, x <<= 4) putc(digits[x >> 60]);] *)
Fixpoint print_nibbles (n : nat) (x : Z) : M T unit :=
  match n with
  | O => ret tt
  | S n' =>
      match digits !! Z.to_nat (Z.shiftr x 60) with
      | None => undef
      | Some d => putc d ;; print_nibbles n' (u64 (Z.shiftl x 4))
      end
  end.
Definition print_pointer (x : Z) : M T unit := putc 48 ;; putc 120 ;; print_nibbles 16 x.

(** [for(; *s; s++) putc( *s);] *)
Fixpoint print_string (s : list Z) : M T unit :=
  match s with [] => ret tt | c :: s' => putc c ;; print_string s' end.
End Numbers.

(** ** Numerals *)

(** The digits of [x], first digit first; [n] bounds their number. *)
Fixpoint numeral (n : nat) (digits : list Z) (base x : Z) : list Z :=
  match n with
  | O => []
  | S n' => (if x / base =? 0 then [] else numeral n' digits base (x / base)) ++ [default 0 (digits !! Z.to_nat (x mod base))]
  end.

Definition decimal (digits : list Z) (z : Z) : list Z :=
  if z <? 0 then 45 :: numeral 33 digits 10 (- z) else numeral 33 digits 10 z.

(** The [n] lowest hexadecimal digits of [x]. *)
Fixpoint nibbles (n : nat) (digits : list Z) (x : Z) : list Z :=
  match n with O => [] | S n' => default 0 (digits !! Z.to_nat (Z.shiftr x (4 * Z.of_nat n') mod 16)) :: nibbles n' digits x end.

(** Reading a numeral. *)
Definition digit_value (c : Z) : Z :=
  if (48 <=? c) && (c <=? 57) then c - 48
  else if (97 <=? c) && (c <=? 102) then c - 87
  else if (65 <=? c) && (c <=? 70) then c - 55 else 0.
Definition value (base : Z) (w : list Z) : Z := fold_left (fun a c => a * base + digit_value c) w 0.

(** The digits have their values, and are characters. *)
Definition digits_ok (digits : list Z) : Prop :=
  length digits = 16%nat /\ forall i c, digits !! i = Some c -> digit_value c = Z.of_nat i /\ 0 <= c < 256 /\
    ((i < 10)%nat -> c = 48 + Z.of_nat i).

Section Facts.
Context {T : Type} {HO : Output T}.
Variables (digits : list Z) (putc : Z -> M T unit).
Hypothesis Hd : digits_ok digits.
Hypothesis Hputc : forall c s, 0 <= c < 256 -> putc c s = Ok tt (put [c] s).

Lemma digit_lookup i : 0 <= i < 16 -> exists c, digits !! Z.to_nat i = Some c /\ digit_value c = i /\ 0 <= c < 256 /\ (i < 10 -> c = 48 + i).
Proof.
  intros Hi. destruct Hd as [Hl H]. destruct (lookup_lt_is_Some_2 digits (Z.to_nat i)) as [c Hc]; [lia|].
  destruct (H _ _ Hc) as (H1 & H2 & H3). exists c. split; [done|]. split; [lia|]. split; [done|]. intros Hi'. rewrite H3 by lia. lia.
Qed.

Lemma value_snoc base w c : value base (w ++ [c]) = value base w * base + digit_value c.
Proof. unfold value. by rewrite fold_left_app. Qed.

(** [k] digits are enough for [x]. *)
Lemma numeral_spec base n k x : 1 < base <= 16 -> 0 <= x < base ^ Z.of_nat k -> (0 < k <= n)%nat ->
  value base (numeral n digits base x) = x /\ (0 < length (numeral n digits base x) <= k)%nat /\
  Forall (fun c => 0 <= c < 256) (numeral n digits base x) /\
  (base = 10 -> Forall (fun c => 48 <= c <= 57) (numeral n digits base x)).
Proof.
  intros Hb. revert k x. induction n as [|n IH]; intros k x Hx Hk; [lia|]. cbn [numeral].
  pose proof (Z.mod_pos_bound x base ltac:(lia)) as Hm. pose proof (Z.div_mod x base ltac:(lia)) as Hdm.
  destruct (digit_lookup (x mod base)) as (c & -> & Hv & Hc & Hten); [lia|]. change (default 0 (Some c)) with c.
  assert (Hq : 0 <= x / base) by (apply Z.div_pos; lia).
  assert (Hlast : 0 <= c < 256 /\ (base = 10 -> 48 <= c <= 57)) by (split; [done|intros ->; rewrite Hten; lia]).
  destruct (Z.eqb_spec (x / base) 0) as [E|E].
  - cbn [app]. unfold value. cbn [fold_left length]. split; [rewrite E in Hdm; lia|]. split; [lia|].
    split; [by constructor|]. intros E10. constructor; [by apply Hlast|constructor].
  - destruct k as [|[|k]]; [lia|change (base ^ Z.of_nat 1) with (base ^ 1) in Hx; rewrite Z.pow_1_r in Hx; rewrite Z.div_small in E; lia|].
    destruct (IH (S k) (x / base)) as (H1 & H2 & H3 & H4); [|lia|].
    { split; [done|]. apply Z.div_lt_upper_bound; [lia|]. rewrite <- Z.pow_succ_r, <- Nat2Z.inj_succ by lia. lia. }
    rewrite value_snoc, H1, Hv, length_app. cbn [length]. split; [lia|]. split; [lia|].
    split; [apply Forall_app; split; [done|by constructor]|]. intros E10. apply Forall_app. split; [by apply H4|].
    constructor; [by apply Hlast|constructor].
Qed.

(** The buffer has room. *)
Lemma convert_spec base n k x buf (s : T) : 1 < base <= 16 -> 0 <= x < base ^ Z.of_nat k -> (0 < k <= n)%nat -> (length buf + k <= 16)%nat ->
  convert digits n x base buf s = Ok (buf ++ rev (numeral n digits base x)) s.
Proof.
  intros Hb. revert k x buf. induction n as [|n IH]; intros k x buf Hx Hk Hl; [lia|]. cbn [convert numeral].
  rewrite (proj2 (Nat.leb_gt _ _)) by lia.
  pose proof (Z.mod_pos_bound x base ltac:(lia)) as Hm.
  destruct (digit_lookup (x mod base)) as (c & -> & Hv & Hc & Hten); [lia|]. change (default 0 (Some c)) with c.
  destruct (Z.eqb_spec (x / base) 0) as [E|E]; [by cbn [app rev]|].
  destruct k as [|[|k]]; [lia|change (base ^ Z.of_nat 1) with (base ^ 1) in Hx; rewrite Z.pow_1_r in Hx; rewrite Z.div_small in E; lia|].
  rewrite (IH (S k)); [|split|lia|rewrite length_app; cbn; lia].
  - rewrite rev_app_distr, <- app_assoc. done.
  - apply Z.div_pos; lia.
  - apply Z.div_lt_upper_bound; [lia|]. rewrite <- Z.pow_succ_r, <- Nat2Z.inj_succ by lia. lia.
Qed.

Lemma flush_spec buf i (s : T) : Forall (fun c => 0 <= c < 256) buf -> (i <= length buf)%nat ->
  flush putc i buf s = Ok tt (put (rev (take i buf)) s).
Proof.
  intros Hb. revert s. induction i as [|i IH]; intros s Hi; cbn [flush]; [by rewrite put_nil|].
  destruct (lookup_lt_is_Some_2 buf i ltac:(lia)) as [c Hc]. rewrite Hc.
  rewrite (bind_ok _ _ _ _ _ (Hputc c s (Forall_lookup_1 _ _ _ _ Hb Hc))), IH by lia.
  rewrite put_put, (take_S_r _ _ _ Hc), rev_app_distr. done.
Qed.

(** The numeral of an [int], with its sign if it is to be signed. *)
Definition number_text (xx base : Z) (sign : bool) : list Z :=
  if sign && (xx <? 0) then 45 :: numeral 33 digits base (- xx) else numeral 33 digits base (u32 xx).

Lemma print_number_spec xx base sign (s : T) : base = 10 \/ base = 16 -> - 2 ^ 31 <= xx < 2 ^ 31 ->
  print_number digits putc xx base sign s = Ok tt (put (number_text xx base sign) s).
Proof.
  intros Hb Hx. unfold print_number, number_text. set (neg := sign && (xx <? 0)).
  set (x := if neg then u32 (- xx) else u32 xx).
  assert (Hxr : 0 <= x < 2 ^ 32) by (unfold x; destruct neg; apply u32_range).
  assert (Hk : 0 <= x < base ^ Z.of_nat 10) by (destruct Hb as [->| ->]; cbn; lia).
  rewrite (bind_ok _ _ _ _ _ (convert_spec base 33 10 x [] s ltac:(lia) Hk ltac:(lia) ltac:(cbn; lia))). cbn [app].
  destruct (numeral_spec base 33 10 x ltac:(lia) Hk ltac:(lia)) as (_ & Hlen & Hbytes & _).
  set (w := numeral 33 digits base x) in *. unfold add_sign.
  assert (Hr : length (rev w) = length w) by apply length_rev.
  assert (Hf : forall b, Forall (fun c => 0 <= c < 256) b -> flush putc (length b) b s = Ok tt (put (rev b) s)).
  { intros b H. rewrite flush_spec by done. by rewrite take_ge. }
  destruct neg eqn:En.
  - rewrite (proj2 (Nat.leb_gt _ _)) by lia. unfold bind at 1, ret at 1. rewrite Hf.
    + rewrite rev_app_distr, rev_involutive. cbn [rev app]. unfold w, x. rewrite u32_small; [done|].
      unfold neg in En. apply andb_true_iff in En as [_ En]. lia.
    + apply Forall_app. split; [by apply Forall_rev|]. by constructor; [lia|].
  - unfold bind at 1, ret at 1. rewrite Hf; [by rewrite rev_involutive|by apply Forall_rev].
Qed.

Lemma print_string_spec w (s : T) : Forall (fun c => 0 <= c < 256) w -> print_string putc w s = Ok tt (put w s).
Proof.
  intros H. revert s. induction H as [|c w Hc Hw IH]; intros s; cbn [print_string]; [by rewrite put_nil|].
  by rewrite (bind_ok _ _ _ _ _ (Hputc c s Hc)), IH, put_put.
Qed.

(** The digit at the top of the shifted word. *)
Lemma top_nibble x m : 0 <= x -> 0 <= m < 16 -> Z.shiftr (u64 (Z.shiftl x (4 * (15 - m)))) 60 = Z.shiftr x (4 * m) mod 16.
Proof.
  intros Hx Hm. unfold u64. apply Z.bits_inj'. intros i Hi. rewrite Z.shiftr_spec by done.
  change (Z.shiftr x (4 * m) mod 16) with (Z.shiftr x (4 * m) mod 2 ^ 4). destruct (Z.ltb_spec i 4).
  - rewrite Z.mod_pow2_bits_low, Z.shiftl_spec, Z.mod_pow2_bits_low, Z.shiftr_spec by lia. f_equal. lia.
  - rewrite !Z.mod_pow2_bits_high by lia. done.
Qed.

Lemma shift_again x k : 0 <= k -> u64 (Z.shiftl (u64 (Z.shiftl x k)) 4) = u64 (Z.shiftl x (k + 4)).
Proof.
  intros Hk. unfold u64. apply Z.bits_inj'. intros i Hi. destruct (Z.ltb_spec i 64).
  - rewrite !Z.mod_pow2_bits_low, !Z.shiftl_spec by lia. destruct (Z.ltb_spec i 4).
    + rewrite !Z.testbit_neg_r by lia. done.
    + rewrite Z.mod_pow2_bits_low, Z.shiftl_spec by lia. f_equal. lia.
  - rewrite !Z.mod_pow2_bits_high by lia. done.
Qed.

Lemma print_nibbles_spec n x (s : T) : 0 <= x -> (n <= 16)%nat ->
  print_nibbles digits putc n (u64 (Z.shiftl x (4 * (16 - Z.of_nat n)))) s = Ok tt (put (nibbles n digits x) s).
Proof.
  intros Hx. revert s. induction n as [|n IH]; intros s Hn; cbn [print_nibbles nibbles]; [by rewrite put_nil|].
  replace (16 - Z.of_nat (S n)) with (15 - Z.of_nat n) by lia. rewrite top_nibble by lia.
  destruct (digit_lookup (Z.shiftr x (4 * Z.of_nat n) mod 16)) as (c & -> & Hv & Hc & _); [by apply Z.mod_pos_bound|].
  rewrite (bind_ok _ _ _ _ _ (Hputc c s Hc)), shift_again by lia.
  replace (4 * (15 - Z.of_nat n) + 4) with (4 * (16 - Z.of_nat n)) by lia. rewrite IH by lia. by rewrite put_put.
Qed.

Lemma print_pointer_spec x (s : T) : 0 <= x < 2 ^ 64 ->
  print_pointer digits putc x s = Ok tt (put (48 :: 120 :: nibbles 16 digits x) s).
Proof.
  intros Hx. unfold print_pointer. rewrite (bind_ok _ _ _ _ _ (Hputc 48 s ltac:(lia))), (bind_ok _ _ _ _ _ (Hputc 120 _ ltac:(lia))).
  pose proof (print_nibbles_spec 16 x (put [120] (put [48] s)) ltac:(lia) ltac:(lia)) as E.
  rewrite Z.sub_diag, Z.shiftl_0_r, u64_small in E by done. by rewrite E, !put_put.
Qed.

Lemma value_from base w a : fold_left (fun a c => a * base + digit_value c) w a = a * base ^ Z.of_nat (length w) + value base w.
Proof.
  revert a. induction w as [|c w IH]; intros a; cbn [fold_left length]; [unfold value; cbn [fold_left]; rewrite Z.pow_0_r; lia|].
  unfold value. cbn [fold_left]. rewrite !IH, Nat2Z.inj_succ, Z.pow_succ_r by lia. lia.
Qed.

Lemma nibbles_value n x : 0 <= x -> value 16 (nibbles n digits x) = x mod 16 ^ Z.of_nat n /\ length (nibbles n digits x) = n.
Proof.
  intros Hx. induction n as [|n [IH IHl]]; cbn [nibbles length]; [by rewrite Z.mod_1_r|]. split; [|by rewrite IHl].
  destruct (digit_lookup (Z.shiftr x (4 * Z.of_nat n) mod 16)) as (c & -> & Hv & _); [by apply Z.mod_pos_bound|].
  unfold value. cbn [fold_left]. change (default 0 (Some c)) with c. rewrite value_from, IH, IHl, Hv.
  rewrite Z.shiftr_div_pow2, Z.pow_mul_r by lia. change (2 ^ 4) with 16.
  rewrite Nat2Z.inj_succ, Z.pow_succ_r, (Z.mul_comm 16) by lia.
  rewrite (Z.rem_mul_r x (16 ^ Z.of_nat n) 16) by lia. lia.
Qed.
End Facts.
