(* ===== verification/Kprintf.v ===== *)
(** * kernel/printf.c

    [printf] puts characters on the console under its own lock, which [panic]
    switches off.  A format is the list of its characters; the null pointer
    is [None].  The theorems say what appears on the console and that
    [panic] prints whatever locks the CPU has. *)

From S2P Require Import Prelude Riscv Mem Lock Kalloc Vm UserIO Pipe PipeSpec Console Printf.
Local Open Scope Z_scope.

(** [pr.locking], [panicked] and the console. *)
Record pst (U : Type) := mkpst { locking : bool; kpanicked : Z; kcon : cst U }.
Arguments mkpst {U} _ _ _.
Arguments locking {U} _.
Arguments kpanicked {U} _.
Arguments kcon {U} _.

Definition kdigits : list Z := Eval cbv in codes "0123456789abcdef".

Section Ops.
Context {U : Type}.
Abbreviation K := (M (pst U)).

#[export] Instance pst_locks : Locks (pst U).
Proof.
  refine {| held s := cheld (kcon s);
            set_held l s := mkpst (locking s) (kpanicked s) (mkcst (co (kcon s)) (cus (kcon s)) (echoed (kcon s)) l) |}.
  - done.
  - done.
  - by intros [? ? []].
Defined.

Definition kputc (c : Z) : K unit := zoom kcon (fun k s => mkpst (locking s) (kpanicked s) k) (consputc c).
Definition kprintint (xx base : Z) (sign : bool) : K unit := print_number kdigits kputc xx base sign.
Definition kprintptr (x : Z) : K unit := print_pointer kdigits kputc x.

(** [switch(c)] *)
Definition kconversion (c : Z) (ap : list vararg) : K (list vararg) :=
  if c =? 100 then match ap with VInt z :: ap' => kprintint (s32 z) 10 true ;; ret ap' | _ => undef end
  else if c =? 120 then match ap with VInt z :: ap' => kprintint (s32 z) 16 true ;; ret ap' | _ => undef end
  else if c =? 112 then match ap with VInt z :: ap' => kprintptr (u64 z) ;; ret ap' | _ => undef end
  else if c =? 115 then
    match ap with VStr s :: ap' => print_string kputc (default null_text s) ;; ret ap' | _ => undef end
  else if c =? PERCENT then kputc PERCENT ;; ret ap
  else kputc PERCENT ;; kputc c ;; ret ap.

(** [for(i = 0; (c = fmt[i] & 0xff) != 0; i++)] *)
Fixpoint kprintf_loop (fmt : list Z) (ap : list vararg) : K unit :=
  match fmt with
  | [] => ret tt
  | c :: fmt' =>
      if negb (c =? PERCENT) then kputc c ;; kprintf_loop fmt' ap
      else match fmt' with
           | [] => ret tt
           | d :: fmt'' => do! ap' <- kconversion d ap; kprintf_loop fmt'' ap'
           end
  end.

Definition kprintf (fmt : option (list Z)) (ap : list vararg) : K unit :=
  do! l <- gets locking;
  (if l : bool then acquire "pr" else ret tt) ;;
  match fmt with
  | None => panic "null fmt"
  | Some f => kprintf_loop f ap ;; if l : bool then release "pr" else ret tt
  end.

(** [panic(s)] up to its endless loop. *)
Definition panic_message (msg : list Z) : K unit :=
  modify (fun s => mkpst false (kpanicked s) (kcon s)) ;;
  kprintf (Some (codes "panic: ")) [] ;;
  kprintf (Some msg) [] ;;
  kprintf (Some [10]) [] ;;
  modify (fun s => mkpst (locking s) 1 (kcon s)).
Definition kpanic (msg : list Z) : K unit := panic_message msg ;; hang.

Definition printfinit : K unit :=
  initlock "pr" ;; modify (fun s => mkpst true (kpanicked s) (kcon s)).

(** ** What appears on the console *)

(** The hexadecimal numeral of a negative number has a sign. *)
Definition kdirective (c : Z) (ap : list vararg) : option (list Z * list vararg) :=
  if c =? 37 then Some ([37], ap)
  else if (c =? 100) || (c =? 120) || (c =? 112) then
    match ap with
    | VInt z :: ap' =>
        Some (if c =? 100 then decimal kdigits (s32 z)
              else if c =? 120 then (if s32 z <? 0 then 45 :: numeral 33 kdigits 16 (- s32 z) else numeral 33 kdigits 16 (s32 z))
              else codes "0x" ++ nibbles 16 kdigits (u64 z), ap')
    | _ => None
    end
  else if c =? 115 then match ap with VStr s :: ap' => Some (default (codes "(null)") s, ap') | _ => None end
  else Some ([37; c], ap).

Lemma kdigits_fine : digits_ok kdigits.
Proof. split; [done|]. intros i c H. do 16 (destruct i as [|i]; [injection H as <-; cbn; lia|]). done. Qed.

#[export] Instance console_output : Output (pst U).
Proof.
  refine {| put w s := mkpst (locking s) (kpanicked s) (mkcst (co (kcon s)) (cus (kcon s)) (echoed (kcon s) ++ w) (cheld (kcon s))) |}.
  - intros [? ? []]. cbn. by rewrite app_nil_r.
  - intros a b [? ? []]. cbn. by rewrite app_assoc.
Defined.

Lemma kputc_put c (s : pst U) : 0 <= c < 256 -> kputc c s = Ok tt (put [c] s).
Proof.
  intros Hc. unfold kputc, zoom, consputc. rewrite (proj2 (Z.eqb_neq c BACKSPACE)) by (unfold BACKSPACE; lia).
  unfold uartputc_sync, modify. by rewrite u8_small.
Qed.

Lemma kprintint_text xx base (s : pst U) : base = 10 \/ base = 16 -> - 2 ^ 31 <= xx < 2 ^ 31 ->
  kprintint xx base true s = Ok tt (put (if xx <? 0 then 45 :: numeral 33 kdigits base (- xx) else numeral 33 kdigits base xx) s).
Proof.
  intros Hb Hx. unfold kprintint. rewrite (print_number_spec kdigits kputc kdigits_fine kputc_put) by done. unfold number_text. cbn [andb].
  destruct (Z.ltb_spec xx 0); [done|]. by rewrite u32_small by lia.
Qed.

#[local] Opaque numeral nibbles.

Lemma kconversion_text c ap w ap' (s : pst U) : char_ok c -> Forall vararg_ok ap -> kdirective c ap = Some (w, ap') ->
  kconversion c ap s = Ok ap' (put w s) /\ Forall vararg_ok ap'.
Proof.
  intros Hc Hap. unfold kdirective, kconversion, PERCENT.
  destruct (Z.eqb_spec c 37) as [->|H37]; cbn [Z.eqb Pos.eqb orb].
  { intros [= <- <-]. split; [|done]. by rewrite (bind_ok _ _ _ _ _ (kputc_put 37 s ltac:(lia))). }
  destruct (Z.eqb_spec c 115) as [->|H115]; cbn [Z.eqb Pos.eqb orb].
  { destruct ap as [|[z|t] ap]; try done. intros [= <- <-]. apply Forall_cons_1 in Hap as [Ht Hap]. split; [|done].
    by rewrite (bind_ok _ _ _ _ _ (print_string_spec kputc kputc_put (default null_text t) s ltac:(destruct t as [t|]; [exact Ht|repeat constructor; lia]))). }
  destruct (Z.eqb_spec c 100) as [->|H100]; cbn [Z.eqb Pos.eqb orb].
  { destruct ap as [|[z|t] ap]; try done. intros [= <- <-]. apply Forall_cons_1 in Hap as [_ Hap]. split; [|done].
    by rewrite (bind_ok _ _ _ _ _ (kprintint_text (s32 z) 10 s ltac:(auto) (s32_range z))). }
  destruct (Z.eqb_spec c 120) as [->|H120]; cbn [Z.eqb Pos.eqb orb].
  { destruct ap as [|[z|t] ap]; try done. intros [= <- <-]. apply Forall_cons_1 in Hap as [_ Hap]. split; [|done].
    by rewrite (bind_ok _ _ _ _ _ (kprintint_text (s32 z) 16 s ltac:(auto) (s32_range z))). }
  destruct (Z.eqb_spec c 112) as [->|H112]; cbn [Z.eqb Pos.eqb orb].
  { destruct ap as [|[z|t] ap]; try done. intros [= <- <-]. apply Forall_cons_1 in Hap as [_ Hap]. split; [|done].
    unfold kprintptr. by rewrite (bind_ok _ _ _ _ _ (print_pointer_spec kdigits kputc kdigits_fine kputc_put (u64 z) s (u64_range z))). }
  intros [= <- <-]. split; [|done]. rewrite (bind_ok _ _ _ _ _ (kputc_put 37 s ltac:(lia))), (bind_ok _ _ _ _ _ (kputc_put c _ Hc)). by rewrite put_put.
Qed.

Lemma kprintf_loop_text n fmt ap w (s : pst U) : (length fmt <= n)%nat -> Forall char_ok fmt -> Forall vararg_ok ap ->
  text kdirective (pieces fmt) ap = Some w -> kprintf_loop fmt ap s = Ok tt (put w s).
Proof.
  revert fmt ap w s. induction n as [|n IH]; intros [|c fmt] ap w s Hn Hf Hap; cbn [length] in Hn; try lia;
    cbn [kprintf_loop pieces text]; try (by intros [= <-]; rewrite put_nil).
  apply Forall_cons_1 in Hf as [Hc Hf]. destruct (Z.eqb_spec c PERCENT) as [->|Hne]; cbn [negb].
  - destruct fmt as [|d fmt]; [by intros [= <-]; rewrite put_nil|]. apply Forall_cons_1 in Hf as [Hd Hf]. cbn [text length] in *.
    destruct (kdirective d ap) as [[w1 ap1]|] eqn:E1; [|done]. destruct (kconversion_text d ap w1 ap1 s Hd Hap E1) as [E Hap1].
    destruct (text kdirective (pieces fmt) ap1) as [w2|] eqn:E2; [|done]. intros [= <-].
    rewrite (bind_ok _ _ _ _ _ E), (IH fmt ap1 w2 (put w1 s)) by (done || lia). by rewrite put_put.
  - cbn [text]. destruct (text kdirective (pieces fmt) ap) as [w'|] eqn:E; [|done]. intros [= <-].
    rewrite (bind_ok _ _ _ _ _ (kputc_put c s Hc)), (IH fmt ap w' (put [c] s)) by (done || lia). by rewrite put_put.
Qed.

Lemma kprintf_spec fmt ap w (s : pst U) : Forall char_ok fmt -> Forall vararg_ok ap -> text kdirective (pieces fmt) ap = Some w ->
  (locking s = true -> "pr" ∉ held s) -> kprintf (Some fmt) ap s = Ok tt (put w s).
Proof.
  intros Hf Ha Et Hl. unfold kprintf. unfold bind at 1, gets. destruct (locking s) eqn:El.
  - rewrite (bind_ok _ _ _ _ _ (acquire_ok "pr" s (Hl eq_refl))). set (s1 := set_held ("pr" :: held s) s).
    rewrite (bind_ok _ _ _ _ _ (kprintf_loop_text (length fmt) fmt ap w s1 (le_n _) Hf Ha Et)).
    rewrite (release_head "pr" (held s)) by done. unfold s1. by destruct s as [? ? []].
  - unfold bind at 1, ret at 1. by rewrite (bind_ok _ _ _ _ _ (kprintf_loop_text (length fmt) fmt ap w s (le_n _) Hf Ha Et)).
Qed.
End Ops.

(** A text without percent signs stands for itself. *)
Lemma text_plain directive ap w : Forall (fun c => c <> PERCENT) w -> text directive (pieces w) ap = Some w.
Proof.
  induction 1 as [|c w Hc Hw IH]; [done|]. cbn [pieces]. rewrite (proj2 (Z.eqb_neq _ _) Hc). cbn [text]. by rewrite IH.
Qed.

(** ** Theorems *)

(** [printf] puts exactly the text of its format on the console and
    returns with the locks it was called with, while printing is locked as
    well as after a panic has switched the lock off. *)
Theorem printf_text {U} fmt ap w (s : pst U) : Forall char_ok fmt -> Forall vararg_ok ap -> text kdirective (pieces fmt) ap = Some w ->
  (locking s = true -> "pr" ∉ held s) ->
  kprintf (Some fmt) ap s = Ok tt (mkpst (locking s) (kpanicked s) (mkcst (co (kcon s)) (cus (kcon s)) (echoed (kcon s) ++ w) (cheld (kcon s)))).
Proof. apply kprintf_spec. Qed.

Lemma printf_text_witness :
  let s := mkpst true 0 (mkcst (mkcons [] 0 0 0) tt [] []) in
  kprintf (Some (codes "hart %d %x %p")) [VInt 1; VInt (-1); VInt (2 ^ 31)] s =
  Ok tt (mkpst (locking s) (kpanicked s) (mkcst (co (kcon s)) (cus (kcon s)) (echoed (kcon s) ++ codes "hart 1 -1 0x0000000080000000") (cheld (kcon s)))).
Proof.
  apply printf_text; [|repeat constructor|reflexivity|].
  - repeat (apply Forall_cons; split; [split; done|]). apply Forall_nil. done.
  - intros _ H. apply elem_of_nil in H. done.
Defined.

(** [panic] always prints: whatever locks the CPU has, the lock of
    [printf] included, the message appears on the console between "panic: "
    and a newline, and then output from other CPUs is switched off. *)
Theorem panic_prints {U} msg (s : pst U) : Forall char_ok msg -> Forall (fun c => c <> PERCENT) msg ->
  panic_message msg s =
  Ok tt (mkpst false 1 (mkcst (co (kcon s)) (cus (kcon s)) (echoed (kcon s) ++ codes "panic: " ++ msg ++ [10]) (cheld (kcon s)))).
Proof.
  intros Hc Hp. unfold panic_message. unfold bind at 1, modify at 1. set (s1 := mkpst false (kpanicked s) (kcon s)).
  assert (E : forall w (s' : pst U), Forall char_ok w -> Forall (fun c => c <> PERCENT) w -> locking s' = false -> kprintf (Some w) [] s' = Ok tt (put w s')).
  { intros w s' H1 H2 Hl. apply kprintf_spec; [done|constructor|by apply text_plain|]. intros Hl'. rewrite Hl in Hl'. done. }
  assert (Hlit : Forall char_ok (codes "panic: ") /\ Forall (fun c => c <> PERCENT) (codes "panic: ")).
  { split; repeat (apply Forall_cons; split; [done|]); by apply Forall_nil. }
  destruct Hlit. erewrite bind_ok by (by apply E). erewrite bind_ok by (by apply E).
  erewrite bind_ok by (apply E; [repeat constructor; lia|repeat constructor; unfold PERCENT; lia|done]).
  rewrite !put_put. reflexivity.
Qed.

(** With the lock held, and locking switched on. *)
Lemma panic_prints_witness :
  let s := mkpst true 0 (mkcst (mkcons [] 0 0 0) tt [] ["pr"]) in
  panic_message (codes "kfree") s =
  Ok tt (mkpst false 1 (mkcst (co (kcon s)) (cus (kcon s)) (echoed (kcon s) ++ codes "panic: " ++ codes "kfree" ++ [10]) (cheld (kcon s)))).
Proof.
  apply panic_prints; repeat (apply Forall_cons; split; [done|]); by apply Forall_nil.
Defined.
