(* ===== verification/Ulib.v ===== *)
(** * user/ulib.c: strings and memory of user programs

    Memory is byte-addressed, as in [Mem.v].  [atoi] and [strcmp] read C
    strings, which are the lists of their characters before the NUL. *)

From S2P Require Import Prelude Mem.
From S2P Require Import Printf.
Import KString.
Local Open Scope Z_scope.

(** [while(( *s++ = *t++) != 0) ;] with [n] characters to go at most. *)
Fixpoint strcpy (n : nat) (m : gmap Z Z) (s t : Z) : option (gmap Z Z) :=
  match n with
  | O => None
  | S n' =>
      let c := ld8 m t in
      let m' := st8 m s c in
      if c =? 0 then Some m' else strcpy n' m' (s + 1) (t + 1)
  end.

(** [while( *p && *p == *q) p++, q++; return (uchar)*p - (uchar)*q;] *)
Fixpoint strcmp (p q : list Z) : Z :=
  match p, q with
  | [], [] => 0
  | [], d :: _ => - d
  | c :: _, [] => c
  | c :: p', d :: q' => if c =? d then strcmp p' q' else c - d
  end.

(** [for(i = 0; i < n; i++) cdst[i] = c;] *)
Fixpoint umemset (n : nat) (m : gmap Z Z) (dst c : Z) : gmap Z Z :=
  match n with O => m | S n' => umemset n' (st8 m dst c) (dst + 1) c end.

(** [n] is an [int]; with a negative one the loops do nothing. *)
Definition umemmove (m : gmap Z Z) (vdst vsrc n : Z) : gmap Z Z :=
  if vdst <? vsrc then copy_up (Z.to_nat n) m vdst vsrc
  else copy_down (Z.to_nat n) m (vdst + n) (vsrc + n).

Fixpoint umemcmp (n : nat) (m : gmap Z Z) (p1 p2 : Z) : Z :=
  match n with
  | O => 0
  | S n' => if negb (ld8 m p1 =? ld8 m p2) then ld8 m p1 - ld8 m p2 else umemcmp n' m (p1 + 1) (p2 + 1)
  end.

Definition umemcpy (m : gmap Z Z) (dst src n : Z) : gmap Z Z := umemmove m dst src n.

(** [while('0' <= *s && *s <= '9') n = n*10 + *s++ - '0';] with 32 bits. *)
Fixpoint atoi_loop (n : Z) (s : list Z) : Z :=
  match s with
  | [] => n
  | c :: s' => if (48 <=? c) && (c <=? 57) then atoi_loop (s32 (n * 10 + c - 48)) s' else n
  end.
Definition atoi (s : list Z) : Z := atoi_loop 0 s.

(** ** What they do *)

Lemma strcpy_spec k n m s t : (forall i, 0 <= i < Z.of_nat k -> ld8 m (t + i) <> 0) -> ld8 m (t + Z.of_nat k) = 0 -> (k < n)%nat ->
  s <= t \/ t + Z.of_nat k < s ->
  exists m', strcpy n m s t = Some m' /\
    forall x, ld8 m' x = if inrange s (Z.of_nat k + 1) x then ld8 m (x - s + t) else ld8 m x.
Proof.
  revert n m s t. induction k as [|k IH]; intros n m s t Hc Hz Hn Hd; (destruct n as [|n]; [lia|]); cbn [strcpy].
  - rewrite Z.add_0_r in Hz. rewrite Hz. cbn [Z.eqb]. eexists. split; [done|]. intros x. rewrite ld8_st8.
    destruct (Z.eqb_spec s x) as [->|]; inr_cases; try lia. replace (x - x + t) with t by lia. by rewrite Hz.
  - pose proof (Hc 0 ltac:(lia)) as H0. rewrite Z.add_0_r in H0. rewrite (proj2 (Z.eqb_neq _ _) H0).
    destruct (IH n (st8 m s (ld8 m t)) (s + 1) (t + 1)) as (m' & E & Hm').
    + intros i Hi. rewrite ld8_st8, (proj2 (Z.eqb_neq _ _)) by lia. specialize (Hc (i + 1) ltac:(lia)).
      by replace (t + 1 + i) with (t + (i + 1)) by lia.
    + rewrite ld8_st8, (proj2 (Z.eqb_neq _ _)) by lia. by replace (t + 1 + Z.of_nat k) with (t + Z.of_nat (S k)) by lia.
    + lia.
    + lia.
    + exists m'. split; [done|]. intros x. rewrite Hm', !ld8_st8, u8_ld8.
      destruct (Z.eqb_spec s x); destruct (Z.eqb_spec s (x - (s + 1) + (t + 1))); inr_cases; try lia; try done; f_equal; lia.
Qed.

(** The user's [memmove] and the kernel's agree on every byte. *)
Lemma memmove_agree m dst src n x : 0 <= n -> ld8 (umemmove m dst src n) x = ld8 (memmove m dst src n) x.
Proof.
  intros Hn. rewrite memmove_spec by done. unfold umemmove. destruct (Z.ltb_spec dst src).
  - rewrite copy_up_spec by lia. by rewrite Z2Nat.id.
  - rewrite copy_down_spec, Z2Nat.id by lia. replace (dst + n - n) with dst by lia. inr_cases; [f_equal; lia|done].
Qed.

Lemma umemset_spec n m d c x : ld8 (umemset n m d c) x = if inrange d (Z.of_nat n) x then u8 c else ld8 m x.
Proof. rewrite <- memset_loop_spec. revert m d. induction n as [|n IH]; intros m d; [done|]. apply IH. Qed.

Lemma umemcmp_zero n m p q : umemcmp n m p q = 0 <-> forall i, 0 <= i < Z.of_nat n -> ld8 m (p + i) = ld8 m (q + i).
Proof.
  revert p q. induction n as [|n IH]; intros p q; cbn [umemcmp]; [split; [lia|done]|].
  destruct (Z.eqb_spec (ld8 m p) (ld8 m q)) as [E|E]; cbn [negb].
  - rewrite IH. split; intros H i Hi.
    + destruct (decide (i = 0)) as [->|]; [by rewrite !Z.add_0_r|]. specialize (H (i - 1) ltac:(lia)).
      by replace (p + 1 + (i - 1)) with (p + i) in H by lia; replace (q + 1 + (i - 1)) with (q + i) in H by lia.
    + specialize (H (i + 1) ltac:(lia)). by replace (p + 1 + i) with (p + (i + 1)) by lia; replace (q + 1 + i) with (q + (i + 1)) by lia.
  - split; [lia|]. intros H. specialize (H 0 ltac:(lia)). rewrite !Z.add_0_r in H. done.
Qed.

(** The order of strings: by the first character that differs, a prefix
    first. *)
Fixpoint before (p q : list Z) : Prop :=
  match p, q with
  | [], _ :: _ => True
  | c :: p', d :: q' => c < d \/ (c = d /\ before p' q')
  | _, [] => False
  end.

Lemma strcmp_order p q : Forall (fun c => 0 < c) p -> Forall (fun c => 0 < c) q ->
  (strcmp p q = 0 <-> p = q) /\ (strcmp p q < 0 <-> before p q).
Proof.
  intros Hp. revert q. induction Hp as [|c p Hc Hp IH]; intros [|d q] Hq; cbn; [done| | |].
  - apply Forall_cons_1 in Hq as [Hd _]. split; [split; [lia|done]|]. split; [done|lia].
  - split; [split; [lia|done]|]. split; [lia|done].
  - apply Forall_cons_1 in Hq as [Hd Hq]. destruct (IH q Hq) as [IH1 IH2].
    destruct (Z.eqb_spec c d) as [->|Hne].
    + split; [rewrite IH1; split; [by intros ->|by intros [= ->]]|]. rewrite IH2. split; [tauto|]. intros [|[_ H]]; [lia|done].
    + split; [split; [lia|by intros [= ->]]|]. split; [left; lia|]. intros [|[? _]]; [lia|done].
Qed.

(** * user/printf.c

    The output of a program is the sequence of characters it writes, each
    with its descriptor.  An argument of [printf] is the contents of a
    register or a string; a string is the list of its characters, and the
    null pointer is [VStr None].  The theorems say what [vprintf] writes for
    a format, and that [atoi] reads back what [%d] writes. *)

Definition uout : Type := list (Z * Z).

Definition fd_output (fd : Z) : Output uout.
Proof.
  refine {| put w s := s ++ (pair fd <$> w) |}.
  - intros s. apply app_nil_r.
  - intros a b s. by rewrite fmap_app, <- app_assoc.
Defined.

Definition digits : list Z := Eval cbv in codes "0123456789ABCDEF".

Definition putc (fd c : Z) : M uout unit := modify (fun s => s ++ [(fd, u8 c)]).
Definition printint (fd xx base : Z) (sgn : bool) : M uout unit := print_number digits (putc fd) xx base sgn.
Definition printptr (fd x : Z) : M uout unit := print_pointer digits (putc fd) x.

(** The branches for the character after a [%]; the rest of the arguments. *)
Definition conversion (fd c : Z) (ap : list vararg) : M uout (list vararg) :=
  if c =? 100 then match ap with VInt z :: ap' => printint fd (s32 z) 10 true ;; ret ap' | _ => undef end
  else if c =? 108 then match ap with VInt z :: ap' => printint fd (s32 z) 10 false ;; ret ap' | _ => undef end
  else if c =? 120 then match ap with VInt z :: ap' => printint fd (s32 z) 16 false ;; ret ap' | _ => undef end
  else if c =? 112 then match ap with VInt z :: ap' => printptr fd (u64 z) ;; ret ap' | _ => undef end
  else if c =? 115 then
    match ap with VStr s :: ap' => print_string (putc fd) (default null_text s) ;; ret ap' | _ => undef end
  else if c =? 99 then match ap with VInt z :: ap' => putc fd (u32 z) ;; ret ap' | _ => undef end
  else if c =? PERCENT then putc fd c ;; ret ap
  else putc fd PERCENT ;; putc fd c ;; ret ap.

(** [for(i = 0; fmt[i]; i++)] with the variable [state]. *)
Fixpoint vprintf_loop (fd : Z) (fmt : list Z) (state : Z) (ap : list vararg) : M uout unit :=
  match fmt with
  | [] => ret tt
  | c :: fmt' =>
      if state =? 0 then
        if c =? PERCENT then vprintf_loop fd fmt' PERCENT ap else putc fd c ;; vprintf_loop fd fmt' state ap
      else if state =? PERCENT then do! ap' <- conversion fd c ap; vprintf_loop fd fmt' 0 ap'
      else vprintf_loop fd fmt' state ap
  end.

Definition vprintf (fd : Z) (fmt : list Z) (ap : list vararg) : M uout unit := vprintf_loop fd fmt 0 ap.
Definition fprintf (fd : Z) (fmt : list Z) (ap : list vararg) : M uout unit := vprintf fd fmt ap.
Definition uprintf (fmt : list Z) (ap : list vararg) : M uout unit := vprintf 1 fmt ap.

(** ** The text of a format *)

(** What a directive stands for; none when the argument is missing or of the
    other kind.  The number of a [%l] is cut to 32 bits. *)
Definition directive_text (c : Z) (ap : list vararg) : option (list Z * list vararg) :=
  if c =? 37 then Some ([37], ap)
  else if (c =? 100) || (c =? 108) || (c =? 120) || (c =? 112) || (c =? 99) then
    match ap with
    | VInt z :: ap' =>
        Some (if c =? 100 then decimal digits (s32 z)
              else if c =? 108 then numeral 33 digits 10 (u32 z)
              else if c =? 120 then numeral 33 digits 16 (u32 z)
              else if c =? 112 then codes "0x" ++ nibbles 16 digits (u64 z)
              else [u8 z], ap')
    | _ => None
    end
  else if c =? 115 then match ap with VStr s :: ap' => Some (default (codes "(null)") s, ap') | _ => None end
  else Some ([37; c], ap).

Lemma digits_fine : digits_ok digits.
Proof.
  split; [done|]. intros i c H. do 16 (destruct i as [|i]; [injection H as <-; cbn; lia|]). done.
Qed.

Section Spec.
Variable fd : Z.
#[local] Existing Instance fd_output.
#[local] Instance here : Output uout := fd_output fd.

Lemma putc_put c (s : uout) : 0 <= c < 256 -> putc fd c s = Ok tt (put [c] s).
Proof. intros H. unfold putc, modify. by rewrite u8_small. Qed.

Lemma u32_s32 z : u32 (s32 z) = u32 z.
Proof.
  unfold u32, s32. rewrite Zminus_mod_idemp_l. f_equal. lia.
Qed.

Lemma u8_u32 z : u8 (u32 z) = u8 z.
Proof. unfold u8, u32. change (2 ^ 32) with (2 ^ 8 * 2 ^ 24). rewrite Z.rem_mul_r by done. rewrite Z.mul_comm, Z.mod_add by done. apply Z.mod_mod. done. Qed.

Lemma printint_text xx base sgn (s : uout) : base = 10 \/ base = 16 -> - 2 ^ 31 <= xx < 2 ^ 31 ->
  printint fd xx base sgn s = Ok tt (put (number_text digits xx base sgn) s).
Proof. intros Hb Hx. apply (print_number_spec digits (putc fd) digits_fine putc_put); done. Qed.

Lemma decimal_text z : - 2 ^ 31 <= z < 2 ^ 31 -> number_text digits z 10 true = decimal digits z.
Proof. intros Hz. unfold number_text, decimal. cbn [andb]. destruct (Z.ltb_spec z 0); [done|]. by rewrite u32_small by lia. Qed.

Lemma unsigned_text z base : number_text digits (s32 z) base false = numeral 33 digits base (u32 z).
Proof. unfold number_text. cbn [andb]. by rewrite u32_s32. Qed.

#[local] Opaque numeral decimal nibbles number_text.

Lemma conversion_text c ap w ap' (s : uout) : char_ok c -> Forall vararg_ok ap -> directive_text c ap = Some (w, ap') ->
  conversion fd c ap s = Ok ap' (put w s) /\ Forall vararg_ok ap'.
Proof.
  intros Hc Hap. unfold directive_text, conversion. unfold PERCENT.
  destruct (Z.eqb_spec c 37) as [->|H37]; cbn [Z.eqb Pos.eqb orb].
  { intros [= <- <-]. split; [|done]. by rewrite (bind_ok _ _ _ _ _ (putc_put 37 s ltac:(lia))). }
  destruct (Z.eqb_spec c 115) as [->|H115]; cbn [Z.eqb Pos.eqb orb].
  { destruct ap as [|[z|t] ap]; try done. intros [= <- <-]. apply Forall_cons_1 in Hap as [Ht Hap]. split; [|done].
    rewrite (bind_ok _ _ _ _ _ (print_string_spec (putc fd) putc_put (default null_text t) s ltac:(destruct t as [t|]; [exact Ht|repeat constructor; lia]))).
    done. }
  assert (Hint : forall z b sgn, b = 10 \/ b = 16 -> printint fd (s32 z) b sgn s = Ok tt (put (number_text digits (s32 z) b sgn) s))
    by (intros; apply printint_text; [done|apply s32_range]).
  destruct (Z.eqb_spec c 100) as [->|H100]; cbn [Z.eqb Pos.eqb orb].
  { destruct ap as [|[z|t] ap]; try done. intros [= <- <-]. apply Forall_cons_1 in Hap as [_ Hap]. split; [|done].
    rewrite (bind_ok _ _ _ _ _ (Hint z 10 true ltac:(auto))). by rewrite decimal_text by apply s32_range. }
  destruct (Z.eqb_spec c 108) as [->|H108]; cbn [Z.eqb Pos.eqb orb].
  { destruct ap as [|[z|t] ap]; try done. intros [= <- <-]. apply Forall_cons_1 in Hap as [_ Hap]. split; [|done].
    rewrite (bind_ok _ _ _ _ _ (Hint z 10 false ltac:(auto))). by rewrite unsigned_text. }
  destruct (Z.eqb_spec c 120) as [->|H120]; cbn [Z.eqb Pos.eqb orb].
  { destruct ap as [|[z|t] ap]; try done. intros [= <- <-]. apply Forall_cons_1 in Hap as [_ Hap]. split; [|done].
    rewrite (bind_ok _ _ _ _ _ (Hint z 16 false ltac:(auto))). by rewrite unsigned_text. }
  destruct (Z.eqb_spec c 112) as [->|H112]; cbn [Z.eqb Pos.eqb orb].
  { destruct ap as [|[z|t] ap]; try done. intros [= <- <-]. apply Forall_cons_1 in Hap as [_ Hap]. split; [|done].
    unfold printptr. by rewrite (bind_ok _ _ _ _ _ (print_pointer_spec digits (putc fd) digits_fine putc_put (u64 z) s (u64_range z))). }
  destruct (Z.eqb_spec c 99) as [->|H99]; cbn [Z.eqb Pos.eqb orb].
  { destruct ap as [|[z|t] ap]; try done. intros [= <- <-]. apply Forall_cons_1 in Hap as [_ Hap]. split; [|done].
    unfold putc, bind, modify, ret. by rewrite u8_u32. }
  intros [= <- <-]. split; [|done]. rewrite (bind_ok _ _ _ _ _ (putc_put 37 s ltac:(lia))), (bind_ok _ _ _ _ _ (putc_put c _ Hc)). by rewrite put_put.
Qed.

Lemma vprintf_loop_text fmt : Forall char_ok fmt -> forall ap w (s : uout), Forall vararg_ok ap ->
  (text directive_text (pieces fmt) ap = Some w -> vprintf_loop fd fmt 0 ap s = Ok tt (put w s)) /\
  (text directive_text (pieces (PERCENT :: fmt)) ap = Some w -> vprintf_loop fd fmt PERCENT ap s = Ok tt (put w s)).
Proof.
  induction 1 as [|c fmt Hc Hfmt IH]; intros ap w s Hap; [by split; intros [= <-]; rewrite put_nil|].
  assert (Hdir : forall ap w s, Forall vararg_ok ap -> text directive_text (Directive c :: pieces fmt) ap = Some w ->
    (do! ap' <- conversion fd c ap; vprintf_loop fd fmt 0 ap') s = Ok tt (put w s)).
  { clear -Hc IH. intros ap w s Hap. cbn [text]. destruct (directive_text c ap) as [[w1 ap1]|] eqn:E; [|done].
    destruct (conversion_text c ap w1 ap1 s Hc Hap E) as [E1 Hap1]. destruct (text directive_text (pieces fmt) ap1) as [w2|] eqn:E2; [|done].
    intros [= <-]. rewrite (bind_ok _ _ _ _ _ E1). rewrite (proj1 (IH ap1 w2 (put w1 s) Hap1) E2). by rewrite put_put. }
  cbn [vprintf_loop pieces]. split.
  - destruct (Z.eqb_spec c PERCENT) as [->|Hne]; cbn [Z.eqb].
    + intros E. by apply IH.
    + cbn [text]. destruct (text directive_text (pieces fmt) ap) as [w'|] eqn:E; [|done]. intros [= <-].
      rewrite (bind_ok _ _ _ _ _ (putc_put c s Hc)). rewrite (proj1 (IH ap w' (put [c] s) Hap) E). by rewrite put_put.
  - intros E. by apply Hdir.
Qed.
End Spec.

(** ** Theorems *)

(** For a format and arguments that fit it, [vprintf] writes exactly the
    text of the format to the descriptor and returns: characters as they are,
    decimal and hexadecimal numerals, pointers of sixteen digits, strings
    with "(null)" for the null pointer; an unknown directive is written as it
    stands and a percent sign at the end is dropped. *)
Theorem vprintf_text fd fmt ap w s : Forall char_ok fmt -> Forall vararg_ok ap -> text directive_text (pieces fmt) ap = Some w ->
  vprintf fd fmt ap s = Ok tt (s ++ (pair fd <$> w)).
Proof. intros Hf Ha E. by apply (vprintf_loop_text fd fmt Hf ap w s Ha). Qed.

#[local] Transparent numeral decimal nibbles number_text.

(** An unfinished directive at the end. *)
Lemma vprintf_text_witness :
  vprintf 2 (codes "%d/%x %s%") [VInt (-12); VInt 255; VStr None] [] = Ok tt ([] ++ (pair 2 <$> codes "-12/FF (null)")).
Proof.
  apply vprintf_text; [|repeat constructor|reflexivity].
  repeat (apply Forall_cons; split; [split; done|]). apply Forall_nil. done.
Defined.

Lemma atoi_loop_value w n : Forall (fun c => 48 <= c <= 57) w -> 0 <= n -> n * 10 ^ Z.of_nat (length w) + value 10 w < 2 ^ 31 ->
  atoi_loop n w = n * 10 ^ Z.of_nat (length w) + value 10 w.
Proof.
  intros H. revert n. induction H as [|c w Hc Hw IH]; intros n Hn Hlt; cbn [atoi_loop length] in *; [unfold value; cbn [fold_left]; lia|].
  assert (Hv : value 10 (c :: w) = (c - 48) * 10 ^ Z.of_nat (length w) + value 10 w).
  { unfold value at 1. cbn [fold_left]. rewrite value_from. unfold digit_value. rewrite (proj2 (Z.leb_le _ _)), (proj2 (Z.leb_le _ _)) by lia. cbn [andb]. lia. }
  assert (Hpos : forall w', Forall (fun c => 48 <= c <= 57) w' -> 0 <= value 10 w').
  { clear. intros w' H. assert (G : forall a, 0 <= a -> 0 <= fold_left (fun a c => a * 10 + digit_value c) w' a); [|by apply G].
    induction H as [|c w' Hc Hw IH]; intros a Ha; cbn [fold_left]; [done|]. apply IH. unfold digit_value.
    rewrite (proj2 (Z.leb_le _ _)), (proj2 (Z.leb_le _ _)) by lia. cbn [andb]. lia. }
  pose proof (Hpos w Hw) as Hv0. rewrite Hv in *. rewrite Nat2Z.inj_succ, Z.pow_succ_r in * by lia.
  pose proof (Z.pow_pos_nonneg 10 (Z.of_nat (length w)) ltac:(lia) ltac:(lia)) as Hp.
  rewrite (proj2 (Z.leb_le _ _)), (proj2 (Z.leb_le _ _)) by lia. cbn [andb].
  rewrite s32_small by nia. rewrite IH; [nia|lia|nia].
Qed.

(** [atoi] reads back what [printf] writes: for every non-negative
    [int] the characters a [%d] writes are read as that number, also when
    other text follows. *)
Theorem printf_atoi fd x rest s : 0 <= x < 2 ^ 31 -> (forall c, head rest = Some c -> c < 48 \/ 57 < c) ->
  exists w, vprintf fd (codes "%d") [VInt x] s = Ok tt (s ++ (pair fd <$> w)) /\ atoi (w ++ rest) = x.
Proof.
  intros Hx Hrest. exists (decimal digits x). split.
  - apply (vprintf_loop_text fd (codes "%d")); [repeat (constructor; [split; done|]); constructor|by constructor|].
    change (Some (decimal digits (s32 x) ++ []) = Some (decimal digits x)). rewrite app_nil_r, s32_small by lia. reflexivity.
  - unfold decimal. rewrite (proj2 (Z.ltb_ge _ _)) by lia.
    destruct (numeral_spec digits digits_fine 10 33 10 x ltac:(lia) ltac:(cbn; lia) ltac:(lia)) as (Hv & _ & _ & Hdig). specialize (Hdig eq_refl).
    set (w := numeral 33 digits 10 x) in *. unfold atoi.
    assert (Hstop : forall n, atoi_loop n rest = n).
    { intros n. destruct rest as [|c r]; [done|]. cbn [atoi_loop]. specialize (Hrest c eq_refl).
      destruct ((48 <=? c) && (c <=? 57)) eqn:E; [boolz; lia|done]. }
    assert (Happ : forall w n, Forall (fun c => 48 <= c <= 57) w -> atoi_loop n (w ++ rest) = atoi_loop n w).
    { intros w' n H. revert n. induction H as [|c w' Hc Hw IH]; intros n; cbn [app atoi_loop]; [apply Hstop|].
      destruct ((48 <=? c) && (c <=? 57)); [apply IH|done]. }
    rewrite Happ, atoi_loop_value, Hv by (done || lia). lia.
Qed.

Lemma printf_atoi_witness : exists w, vprintf 1 (codes "%d") [VInt 2147483647] [] = Ok tt ([] ++ (pair 1 <$> w)) /\ atoi (w ++ codes " KB") = 2147483647.
Proof. apply printf_atoi; [done|]. intros c [= <-]. left. done. Defined.
