(* ===== verification/Virtio.v ===== *)
(** * kernel/virtio_disk.c: the disk driver

    The driver hands the device chains of three descriptors (header, data,
    status) through the ring [avail] and gets the head of a finished chain
    back through the ring [used].  An address in a descriptor names the object
    it points to.  A process in [virtio_disk_rw] sleeps for free descriptors
    or for its request; a stretch of code under the lock is one function.
    Registers of the device answer as the argument [mmio] says; writes to
    them are recorded. *)

From S2P Require Import Prelude Riscv Lock Bio.
Local Open Scope Z_scope.

(** ** kernel/virtio.h *)
Definition VIRTIO_MMIO_MAGIC_VALUE : Z := 0x000.
Definition VIRTIO_MMIO_VERSION : Z := 0x004.
Definition VIRTIO_MMIO_DEVICE_ID : Z := 0x008.
Definition VIRTIO_MMIO_VENDOR_ID : Z := 0x00c.
Definition VIRTIO_MMIO_DEVICE_FEATURES : Z := 0x010.
Definition VIRTIO_MMIO_DRIVER_FEATURES : Z := 0x020.
Definition VIRTIO_MMIO_QUEUE_SEL : Z := 0x030.
Definition VIRTIO_MMIO_QUEUE_NUM_MAX : Z := 0x034.
Definition VIRTIO_MMIO_QUEUE_NUM : Z := 0x038.
Definition VIRTIO_MMIO_QUEUE_READY : Z := 0x044.
Definition VIRTIO_MMIO_QUEUE_NOTIFY : Z := 0x050.
Definition VIRTIO_MMIO_INTERRUPT_STATUS : Z := 0x060.
Definition VIRTIO_MMIO_INTERRUPT_ACK : Z := 0x064.
Definition VIRTIO_MMIO_STATUS : Z := 0x070.
Definition VIRTIO_MMIO_QUEUE_DESC_LOW : Z := 0x080.
Definition VIRTIO_MMIO_QUEUE_DESC_HIGH : Z := 0x084.
Definition VIRTIO_MMIO_DRIVER_DESC_LOW : Z := 0x090.
Definition VIRTIO_MMIO_DRIVER_DESC_HIGH : Z := 0x094.
Definition VIRTIO_MMIO_DEVICE_DESC_LOW : Z := 0x0a0.
Definition VIRTIO_MMIO_DEVICE_DESC_HIGH : Z := 0x0a4.
Definition VIRTIO_CONFIG_S_ACKNOWLEDGE : Z := 1.
Definition VIRTIO_CONFIG_S_DRIVER : Z := 2.
Definition VIRTIO_CONFIG_S_DRIVER_OK : Z := 4.
Definition VIRTIO_CONFIG_S_FEATURES_OK : Z := 8.
Definition VIRTIO_BLK_F_RO : Z := 5.
Definition VIRTIO_BLK_F_SCSI : Z := 7.
Definition VIRTIO_BLK_F_CONFIG_WCE : Z := 11.
Definition VIRTIO_BLK_F_MQ : Z := 12.
Definition VIRTIO_F_ANY_LAYOUT : Z := 27.
Definition VIRTIO_RING_F_INDIRECT_DESC : Z := 28.
Definition VIRTIO_RING_F_EVENT_IDX : Z := 29.
Definition NUM : nat := 8.
Definition VRING_DESC_F_NEXT : Z := 1.
Definition VRING_DESC_F_WRITE : Z := 2.
Definition VIRTIO_BLK_T_IN : Z := 0.
Definition VIRTIO_BLK_T_OUT : Z := 1.

(** ** State *)

(** What an address in a descriptor points to: [disk.ops[i]], the data of a
    buffer, [disk.info[i].status]. *)
Inductive dma := Null | Op (i : nat) | Data (b : nat) | Status (i : nat).

Record virtq_desc := mkdesc { addr : dma; len : Z; flags : Z; next : nat }.
Record virtio_blk_req := mkreq { rtype : Z; reserved : Z; sector : Z }.
Record dinfo := mkinfo { info_b : option nat; status : Z }.
(** The fields of [struct buf] the driver uses. *)
Record dbuf := mkdbuf { dblockno : Z; ddata : list Z; in_disk : Z }.

Record disk := mkdisk {
  desc : list virtq_desc;
  avail_ring : list nat; avail_idx : Z;
  used_ring : list nat; dev_used_idx : Z;
  dfree : list bool; used_idx : Z;
  info : list dinfo; ops : list virtio_blk_req;
  bufs : list dbuf;
  mmio_writes : list (Z * Z); dheld : list string
}.

#[export] Instance disk_locks : Locks disk.
Proof.
  refine {| held := dheld;
    set_held l s := mkdisk (desc s) (avail_ring s) (avail_idx s) (used_ring s) (dev_used_idx s) (dfree s) (used_idx s) (info s) (ops s) (bufs s) (mmio_writes s) l |}.
  - done.
  - done.
  - by intros [].
Defined.

Abbreviation V := (M disk).

Definition set_desc (f : list virtq_desc -> list virtq_desc) (s : disk) : disk :=
  mkdisk (f (desc s)) (avail_ring s) (avail_idx s) (used_ring s) (dev_used_idx s) (dfree s) (used_idx s) (info s) (ops s) (bufs s) (mmio_writes s) (dheld s).
Definition set_avail (r : list nat) (i : Z) (s : disk) : disk :=
  mkdisk (desc s) r i (used_ring s) (dev_used_idx s) (dfree s) (used_idx s) (info s) (ops s) (bufs s) (mmio_writes s) (dheld s).
Definition set_used (r : list nat) (i : Z) (s : disk) : disk :=
  mkdisk (desc s) (avail_ring s) (avail_idx s) r i (dfree s) (used_idx s) (info s) (ops s) (bufs s) (mmio_writes s) (dheld s).
Definition set_dfree (f : list bool -> list bool) (s : disk) : disk :=
  mkdisk (desc s) (avail_ring s) (avail_idx s) (used_ring s) (dev_used_idx s) (f (dfree s)) (used_idx s) (info s) (ops s) (bufs s) (mmio_writes s) (dheld s).
Definition set_used_idx (i : Z) (s : disk) : disk :=
  mkdisk (desc s) (avail_ring s) (avail_idx s) (used_ring s) (dev_used_idx s) (dfree s) i (info s) (ops s) (bufs s) (mmio_writes s) (dheld s).
Definition set_info (f : list dinfo -> list dinfo) (s : disk) : disk :=
  mkdisk (desc s) (avail_ring s) (avail_idx s) (used_ring s) (dev_used_idx s) (dfree s) (used_idx s) (f (info s)) (ops s) (bufs s) (mmio_writes s) (dheld s).
Definition set_ops (f : list virtio_blk_req -> list virtio_blk_req) (s : disk) : disk :=
  mkdisk (desc s) (avail_ring s) (avail_idx s) (used_ring s) (dev_used_idx s) (dfree s) (used_idx s) (info s) (f (ops s)) (bufs s) (mmio_writes s) (dheld s).
Definition set_bufs (f : list dbuf -> list dbuf) (s : disk) : disk :=
  mkdisk (desc s) (avail_ring s) (avail_idx s) (used_ring s) (dev_used_idx s) (dfree s) (used_idx s) (info s) (ops s) (f (bufs s)) (mmio_writes s) (dheld s).
Definition write_reg (r v : Z) : V unit := modify (fun s =>
  mkdisk (desc s) (avail_ring s) (avail_idx s) (used_ring s) (dev_used_idx s) (dfree s) (used_idx s) (info s) (ops s) (bufs s) (mmio_writes s ++ [(r, u32 v)]) (dheld s)).

(** An element of an array. *)
Definition elem {A} (get : disk -> list A) (i : nat) : V A := fun s =>
  match get s !! i with Some x => Ok x s | None => Undef end.

(** ** Initialisation *)
Section Init.
(** The registers of the device, and what the three calls of [kalloc]
    return. *)
Variables (mmio : Z -> Z) (kalloc_desc kalloc_avail kalloc_used : Z).

Definition without (features bit : Z) : Z := Z.land features (Z.lnot (Z.shiftl 1 bit)).
Definition negotiate (features : Z) : Z :=
  fold_left without
    [VIRTIO_BLK_F_RO; VIRTIO_BLK_F_SCSI; VIRTIO_BLK_F_CONFIG_WCE; VIRTIO_BLK_F_MQ; VIRTIO_F_ANY_LAYOUT;
     VIRTIO_RING_F_EVENT_IDX; VIRTIO_RING_F_INDIRECT_DESC] features.

Definition virtio_disk_init : V unit :=
  initlock "virtio_disk" ;;
  if negb (mmio VIRTIO_MMIO_MAGIC_VALUE =? 0x74726976) || negb (mmio VIRTIO_MMIO_VERSION =? 2) ||
     negb (mmio VIRTIO_MMIO_DEVICE_ID =? 2) || negb (mmio VIRTIO_MMIO_VENDOR_ID =? 0x554d4551)
  then panic "could not find virtio disk"
  else
    write_reg VIRTIO_MMIO_STATUS 0 ;;
    let st := Z.lor 0 VIRTIO_CONFIG_S_ACKNOWLEDGE in
    write_reg VIRTIO_MMIO_STATUS st ;;
    let st := Z.lor st VIRTIO_CONFIG_S_DRIVER in
    write_reg VIRTIO_MMIO_STATUS st ;;
    write_reg VIRTIO_MMIO_DRIVER_FEATURES (negotiate (mmio VIRTIO_MMIO_DEVICE_FEATURES)) ;;
    let st := Z.lor st VIRTIO_CONFIG_S_FEATURES_OK in
    write_reg VIRTIO_MMIO_STATUS st ;;
    let st := mmio VIRTIO_MMIO_STATUS in
    if Z.land st VIRTIO_CONFIG_S_FEATURES_OK =? 0 then panic "virtio disk FEATURES_OK unset"
    else
      write_reg VIRTIO_MMIO_QUEUE_SEL 0 ;;
      if negb (mmio VIRTIO_MMIO_QUEUE_READY =? 0) then panic "virtio disk should not be ready"
      else if mmio VIRTIO_MMIO_QUEUE_NUM_MAX =? 0 then panic "virtio disk has no queue 0"
      else if mmio VIRTIO_MMIO_QUEUE_NUM_MAX <? Z.of_nat NUM then panic "virtio disk max queue too short"
      else if (kalloc_desc =? 0) || (kalloc_avail =? 0) || (kalloc_used =? 0) then panic "virtio disk kalloc"
      else
        modify (set_desc (fun _ => replicate NUM (mkdesc Null 0 0 0))) ;;
        modify (set_avail (replicate NUM O) 0) ;;
        modify (set_used (replicate NUM O) 0) ;;
        write_reg VIRTIO_MMIO_QUEUE_NUM (Z.of_nat NUM) ;;
        write_reg VIRTIO_MMIO_QUEUE_DESC_LOW kalloc_desc ;;
        write_reg VIRTIO_MMIO_QUEUE_DESC_HIGH (Z.shiftr kalloc_desc 32) ;;
        write_reg VIRTIO_MMIO_DRIVER_DESC_LOW kalloc_avail ;;
        write_reg VIRTIO_MMIO_DRIVER_DESC_HIGH (Z.shiftr kalloc_avail 32) ;;
        write_reg VIRTIO_MMIO_DEVICE_DESC_LOW kalloc_used ;;
        write_reg VIRTIO_MMIO_DEVICE_DESC_HIGH (Z.shiftr kalloc_used 32) ;;
        write_reg VIRTIO_MMIO_QUEUE_READY 1 ;;
        modify (set_dfree (fun _ => replicate NUM true)) ;;
        write_reg VIRTIO_MMIO_STATUS (Z.lor st VIRTIO_CONFIG_S_DRIVER_OK).
End Init.

(** ** Descriptors *)
Fixpoint first_free (i : nat) (l : list bool) : option nat :=
  match l with [] => None | true :: _ => Some i | false :: l' => first_free (S i) l' end.

Definition alloc_desc : V (option nat) :=
  do! l <- gets dfree;
  match first_free 0 l with
  | Some i => modify (set_dfree (fun l => <[i := false]> l)) ;; ret (Some i)
  | None => ret None
  end.

(** [wakeup(&disk.free[0])] lets the processes that wait for descriptors try
    again. *)
Definition free_desc (i : nat) : V unit :=
  if (NUM <=? i)%nat then panic "free_desc 1"
  else
    do! f <- elem dfree i;
    if f : bool then panic "free_desc 2"
    else
      modify (set_desc (fun l => <[i := mkdesc Null 0 0 0]> l)) ;;
      modify (set_dfree (fun l => <[i := true]> l)).

(** A chain has at most NUM descriptors. *)
Fixpoint free_chain (n : nat) (i : nat) : V unit :=
  match n with
  | O => hang
  | S n' =>
      do! d <- elem desc i;
      free_desc i ;;
      if hasbit (flags d) VRING_DESC_F_NEXT then free_chain n' (next d) else ret tt
  end.

Definition alloc3_desc : V (option (nat * nat * nat)) :=
  do! a <- alloc_desc;
  match a with
  | None => ret None
  | Some i0 =>
      do! b <- alloc_desc;
      match b with
      | None => free_desc i0 ;; ret None
      | Some i1 =>
          do! c <- alloc_desc;
          match c with
          | None => free_desc i0 ;; free_desc i1 ;; ret None
          | Some i2 => ret (Some (i0, i1, i2))
          end
      end
  end.

(** ** Requests *)

(** The process sleeps for descriptors, or for its request with the
    descriptors it has, or returns. *)
Inductive progress := NeedDesc | InFlight (idx : nat * nat * nat) | Returned.

Definition set_in_disk (v : Z) (b : nat) : V unit :=
  do! x <- elem bufs b;
  modify (set_bufs (fun l => <[b := mkdbuf (dblockno x) (ddata x) v]> l)).

(** From the formatting of the descriptors to the notification. *)
Definition submit (b : nat) (write : bool) (sec : Z) (idx : nat * nat * nat) : V unit :=
  let '(i0, i1, i2) := idx in
  modify (set_ops (fun l => <[i0 := mkreq (if write then VIRTIO_BLK_T_OUT else VIRTIO_BLK_T_IN) 0 sec]> l)) ;;
  modify (set_desc (fun l => <[i0 := mkdesc (Op i0) 16 VRING_DESC_F_NEXT i1]> l)) ;;
  modify (set_desc (fun l => <[i1 := mkdesc (Data b) BSIZE (Z.lor (if write then 0 else VRING_DESC_F_WRITE) VRING_DESC_F_NEXT) i2]> l)) ;;
  do! x <- elem info i0;
  modify (set_info (fun l => <[i0 := mkinfo (info_b x) 0xff]> l)) ;;
  modify (set_desc (fun l => <[i2 := mkdesc (Status i0) 1 VRING_DESC_F_WRITE 0]> l)) ;;
  set_in_disk 1 b ;;
  modify (set_info (fun l => <[i0 := mkinfo (Some b) 0xff]> l)) ;;
  do! a <- gets avail_idx;
  do! r <- gets avail_ring;
  modify (set_avail (<[Z.to_nat (a mod Z.of_nat NUM) := i0]> r) a) ;;
  do! r <- gets avail_ring;
  modify (set_avail r (u16 (a + 1))) ;;
  write_reg VIRTIO_MMIO_QUEUE_NOTIFY 0.

(** The end of [virtio_disk_rw], from [while(b->disk == 1)] on, with the lock
    held. *)
Definition await (b : nat) (idx : nat * nat * nat) : V progress :=
  do! x <- elem bufs b;
  if in_disk x =? 1 then release "virtio_disk" ;; ret (InFlight idx)
  else
    do! _ <- elem info idx.1.1;
    modify (set_info (fun l => <[idx.1.1 := mkinfo None (from_option status 0 (l !! idx.1.1))]> l)) ;;
    free_chain NUM idx.1.1 ;;
    release "virtio_disk" ;;
    ret Returned.

(** [virtio_disk_rw(b, write)], also from where it waits for descriptors. *)
Definition virtio_disk_rw (b : nat) (write : bool) : V progress :=
  do! x <- elem bufs b;
  let sec := u32 (dblockno x * (BSIZE / 512)) in
  acquire "virtio_disk" ;;
  do! r <- alloc3_desc;
  match r with
  | None => release "virtio_disk" ;; ret NeedDesc
  | Some idx => submit b write sec idx ;; await b idx
  end.

(** A process that slept for its request goes on. *)
Definition virtio_disk_rw_resume (b : nat) (idx : nat * nat * nat) : V progress :=
  acquire "virtio_disk" ;; await b idx.

(** One round per entry of the ring. *)
Fixpoint intr_loop (n : nat) : V unit :=
  do! u <- gets used_idx;
  do! d <- gets dev_used_idx;
  if u =? d then ret tt
  else match n with
       | O => hang
       | S n' =>
           do! id <- elem used_ring (Z.to_nat (u mod Z.of_nat NUM));
           do! x <- elem info id;
           if negb (status x =? 0) then panic "virtio_disk_intr status"
           else match info_b x with
                | None => undef
                | Some b =>
                    set_in_disk 0 b ;;
                    modify (set_used_idx (u16 (u + 1))) ;;
                    intr_loop n'
                end
       end.

Definition virtio_disk_intr (mmio : Z -> Z) : V unit :=
  acquire "virtio_disk" ;;
  write_reg VIRTIO_MMIO_INTERRUPT_ACK (Z.land (mmio VIRTIO_MMIO_INTERRUPT_STATUS) 0x3) ;;
  intr_loop NUM ;;
  release "virtio_disk".
