(* ===== verification/VirtioInv.v ===== *)
(** * The disk driver with the device

    Processes call [virtio_disk_rw], the device takes chains from the ring in
    order and completes them in any order, and interrupts run the handler, in
    any interleaving; a completion while the handler runs has the effect of
    one just before it.  The specification is a disk on which requests take
    effect atomically. *)

From S2P Require Import Prelude Riscv Mem Lock Bio Virtio.
Local Open Scope Z_scope.

(** ** The device

    What the virtio specification says of a block device: it reads the
    header, transfers the data, writes the status and puts the head of the
    chain in the ring of used chains. *)
Definition bytes_at (m : Z -> Z) (a : Z) (n : nat) : list Z := (fun i => m (a + Z.of_nat i)) <$> seq 0 n.
Definition overwrite (m : Z -> Z) (a : Z) (w : list Z) : Z -> Z := fun x =>
  if inrange a (Z.of_nat (length w)) x then default 0 (w !! Z.to_nat (x - a)) else m x.

(** The parts of a chain: the request, its buffer and its status. *)
Definition chain (d : disk) (i : nat) : option (virtio_blk_req * (virtq_desc * nat) * nat) :=
  match desc d !! i with
  | Some (mkdesc (Op k) 16 f0 n0) =>
      match desc d !! n0 with
      | Some (mkdesc (Data b) l f1 n1 as d1) =>
          match desc d !! n1, ops d !! k with
          | Some (mkdesc (Status j) 1 f2 _), Some q =>
              if hasbit f0 VRING_DESC_F_NEXT && hasbit f1 VRING_DESC_F_NEXT && hasbit f2 VRING_DESC_F_WRITE && negb (hasbit f2 VRING_DESC_F_NEXT)
              then Some (q, (d1, b), j) else None
          | _, _ => None
          end
      | _ => None
      end
  | _ => None
  end.

(** The request with head [i], and what it does to the disk's bytes. *)
Definition device_do (i : nat) (d : disk) (m : Z -> Z) : option (disk * (Z -> Z)) :=
  match chain d i with
  | Some (q, (d1, b), j) =>
      match bufs d !! b, info d !! j with
      | Some x, Some y =>
          let a := sector q * 512 in
          let n := Z.to_nat (len d1) in
          let done d' := set_used (<[Z.to_nat (dev_used_idx d mod Z.of_nat NUM) := i]> (used_ring d)) (u16 (dev_used_idx d + 1))
                           (set_info (fun l => <[j := mkinfo (info_b y) 0]> l) d') in
          if rtype q =? VIRTIO_BLK_T_OUT then
            if hasbit (flags d1) VRING_DESC_F_WRITE then None
            else Some (done d, overwrite m a (take n (ddata x)))
          else if rtype q =? VIRTIO_BLK_T_IN then
            if hasbit (flags d1) VRING_DESC_F_WRITE
            then Some (done (set_bufs (fun l => <[b := mkdbuf (dblockno x) (bytes_at m a n ++ drop n (ddata x)) (in_disk x)]> l) d), m)
            else None
          else None
      | _, _ => None
      end
  | None => None
  end.

(** ** The system *)
Inductive thread := TIdle | TWaitDesc (b : nat) (w : bool) | TWaitIO (b : nat) (w : bool) (idx : nat * nat * nat).
Record sys := mksys { drv : disk; media : Z -> Z; dev_idx : Z; fetched : list nat; threads : list thread }.

Definition thread_buf (x : thread) : option nat :=
  match x with TIdle => None | TWaitDesc b _ | TWaitIO b _ _ => Some b end.
Definition after (b : nat) (w : bool) (r : progress) : thread :=
  match r with NeedDesc => TWaitDesc b w | InFlight idx => TWaitIO b w idx | Returned => TIdle end.

(** A process calls with a buffer that it alone has (its sleep lock) and whose
    fields it may have set; sleeping processes may run at any time. *)
Inductive vstep (s : sys) : sys -> Prop :=
| SCall t b w blk data : threads s !! t = Some TIdle -> (b < length (bufs (drv s)))%nat ->
    (forall t' x, threads s !! t' = Some x -> thread_buf x <> Some b) ->
    length data = Z.to_nat BSIZE -> 0 <= blk < 2 ^ 31 ->
    vstep s (mksys (set_bufs (fun l => <[b := mkdbuf blk data 0]> l) (drv s)) (media s) (dev_idx s) (fetched s) (<[t := TWaitDesc b w]> (threads s)))
| SRun t b w r d : threads s !! t = Some (TWaitDesc b w) -> virtio_disk_rw b w (drv s) = Ok r d ->
    vstep s (mksys d (media s) (dev_idx s) (fetched s) (<[t := after b w r]> (threads s)))
| SResume t b w idx r d : threads s !! t = Some (TWaitIO b w idx) -> virtio_disk_rw_resume b idx (drv s) = Ok r d ->
    vstep s (mksys d (media s) (dev_idx s) (fetched s) (<[t := after b w r]> (threads s)))
| SFetch i : dev_idx s <> avail_idx (drv s) -> avail_ring (drv s) !! Z.to_nat (dev_idx s mod Z.of_nat NUM) = Some i ->
    vstep s (mksys (drv s) (media s) (u16 (dev_idx s + 1)) (fetched s ++ [i]) (threads s))
| SComplete F i F' d m : fetched s = F ++ i :: F' -> device_do i (drv s) (media s) = Some (d, m) ->
    vstep s (mksys d m (dev_idx s) (F ++ F') (threads s))
| SIntr mmio d : virtio_disk_intr mmio (drv s) = Ok tt d ->
    vstep s (mksys d (media s) (dev_idx s) (fetched s) (threads s)).

(** After initialisation, with any number of buffers and processes. *)
Inductive vstart : sys -> Prop :=
| VStart mmio p1 p2 p3 d0 d m nt : virtio_disk_init mmio p1 p2 p3 d0 = Ok tt d -> dheld d0 = [] -> used_idx d0 = 0 ->
    length (info d0) = NUM -> length (ops d0) = NUM ->
    vstart (mksys d m 0 [] (replicate nt TIdle)).

Definition vreach (s : sys) : Prop := exists s0, vstart s0 /\ rtc vstep s0 s.

(** ** An atomic disk *)
Inductive athread := AIdle | APending (w : bool) (blk : Z) (data : list Z) | ADone (w : bool) (blk : Z) (data : list Z).
Record asys := mkasys { ablocks : Z -> list Z; athreads : list athread }.

(** A request takes effect in one step: a write replaces a block, a read
    delivers it. *)
Inductive astep (a : asys) : asys -> Prop :=
| ACall t w blk data : athreads a !! t = Some AIdle -> astep a (mkasys (ablocks a) (<[t := APending w blk data]> (athreads a)))
| AWrite t blk data B : athreads a !! t = Some (APending true blk data) ->
    (forall n, 0 <= n -> B n = if n =? blk then data else ablocks a n) ->
    astep a (mkasys B (<[t := ADone true blk data]> (athreads a)))
| ARead t blk data : athreads a !! t = Some (APending false blk data) ->
    astep a (mkasys (ablocks a) (<[t := ADone false blk (ablocks a blk)]> (athreads a)))
| AReturn t w blk data : athreads a !! t = Some (ADone w blk data) ->
    astep a (mkasys (ablocks a) (<[t := AIdle]> (athreads a))).

(** What the state of the driver means. *)
Definition abs_thread (d : disk) (x : thread) : athread :=
  match x with
  | TIdle => AIdle
  | TWaitDesc b w => match bufs d !! b with Some y => APending w (dblockno y) (ddata y) | None => AIdle end
  | TWaitIO b w idx =>
      match bufs d !! b, info d !! idx.1.1 with
      | Some y, Some z => if status z =? 0 then ADone w (dblockno y) (ddata y) else APending w (dblockno y) (ddata y)
      | _, _ => AIdle
      end
  end.
Definition abs (s : sys) : asys :=
  mkasys (fun n => bytes_at (media s) (n * BSIZE) (Z.to_nat BSIZE)) (abs_thread (drv s) <$> threads s).

(** ** Rings *)
Definition vslot (i : Z) : nat := Z.to_nat (i mod Z.of_nat NUM).

Record queued (ring : list nat) (from to : Z) (q : list nat) : Prop := {
  q_len : length ring = NUM;
  q_to : to = u16 (from + Z.of_nat (length q));
  q_from : 0 <= from < 2 ^ 16;
  q_room : (length q <= NUM)%nat;
  q_at : forall j x, q !! j = Some x -> ring !! vslot (from + Z.of_nat j) = Some x
}.

Lemma vslot_u16 z : vslot (u16 z) = vslot z.
Proof. unfold vslot. f_equal. unfold u16. apply Z.mod_mod_divide. by exists (2 ^ 13). Qed.
Lemma vslot_lt z : (vslot z < NUM)%nat.
Proof. unfold vslot. assert (H := Z.mod_pos_bound z (Z.of_nat NUM) ltac:(done)). unfold NUM in *. lia. Qed.
Lemma vslot_ne a j k : 0 <= j < 8 -> 0 <= k < 8 -> j <> k -> vslot (a + j) <> vslot (a + k).
Proof.
  intros Hj Hk Hne E. unfold vslot, NUM in *. assert (H1 := Z.mod_pos_bound (a + j) 8 ltac:(done)). assert (H2 := Z.mod_pos_bound (a + k) 8 ltac:(done)).
  apply Z2Nat.inj in E; [|lia..]. assert (H3 := Z.div_mod (a + j) 8 ltac:(done)). assert (H4 := Z.div_mod (a + k) 8 ltac:(done)). lia.
Qed.
Lemma u16_step z k : u16 (u16 z + k) = u16 (z + k).
Proof. unfold u16. by rewrite Zplus_mod_idemp_l. Qed.
Lemma u16_range z : 0 <= u16 z < 2 ^ 16.
Proof. by apply Z.mod_pos_bound. Qed.

Lemma queued_empty ring from to q : queued ring from to q -> from = to <-> q = [].
Proof.
  intros [H1 H2 H3 H4 _]. split; [|intros ->; rewrite H2; cbn; rewrite Z.add_0_r; unfold u16; by rewrite Z.mod_small].
  intros ->. destruct q as [|x q]; [done|]. exfalso. cbn [length] in *. unfold NUM in *. unfold u16 in H2.
  assert (H := Z.div_mod (to + Z.of_nat (S (length q))) (2 ^ 16) ltac:(done)). rewrite <- H2 in H. lia.
Qed.

Lemma queued_push ring from to q x : queued ring from to q -> (length q < NUM)%nat ->
  queued (<[vslot to := x]> ring) from (u16 (to + 1)) (q ++ [x]).
Proof.
  intros [H1 H2 H3 H4 H5] Hr. constructor.
  - by rewrite length_insert.
  - rewrite H2, u16_step, length_app. cbn. f_equal. lia.
  - done.
  - rewrite length_app. cbn. lia.
  - intros j y Hj. rewrite H2, vslot_u16. destruct (decide (j = length q)) as [->|Hne].
    + rewrite list_lookup_middle in Hj by done. injection Hj as <-. apply list_lookup_insert_eq. rewrite H1. apply vslot_lt.
    + assert (Hlt := lookup_lt_Some _ _ _ Hj). rewrite length_app in Hlt. cbn in Hlt. rewrite lookup_app_l in Hj by lia.
      rewrite list_lookup_insert_ne; [by apply H5|]. unfold NUM in *. apply vslot_ne; lia.
Qed.

Lemma queued_pop ring from to x q : queued ring from to (x :: q) -> ring !! vslot from = Some x /\ queued ring (u16 (from + 1)) to q.
Proof.
  intros [H1 H2 H3 H4 H5]. split; [by rewrite <- (H5 0%nat x eq_refl), Z.add_0_r|]. cbn [length] in *. constructor; [done| | |lia|].
  - rewrite u16_step, H2. f_equal. lia.
  - apply u16_range.
  - intros j y Hj. rewrite <- (H5 (S j) y Hj). rewrite <- (vslot_u16 (u16 _ + _)), u16_step, vslot_u16. do 2 f_equal. lia.
Qed.

(** * What the disk driver keeps true

    Each request in progress owns three descriptors, formatted for it; a
    descriptor without owner is free.  The heads of the requests the device
    has not returned are in the two rings or with the device, each once. *)

Definition heads (idx : nat * nat * nat) : list nat := [idx.1.1; idx.1.2; idx.2].

(** The descriptors [idx] are formatted for a request. *)
Record formatted (d : disk) (b : nat) (w : bool) (idx : nat * nat * nat) (x : dbuf) (st : Z) : Prop := {
  fm_nodup : NoDup (heads idx);
  fm_buf : bufs d !! b = Some x;
  fm_0 : desc d !! idx.1.1 = Some (mkdesc (Op idx.1.1) 16 VRING_DESC_F_NEXT idx.1.2);
  fm_1 : desc d !! idx.1.2 = Some (mkdesc (Data b) BSIZE (Z.lor (if w then 0 else VRING_DESC_F_WRITE) VRING_DESC_F_NEXT) idx.2);
  fm_2 : desc d !! idx.2 = Some (mkdesc (Status idx.1.1) 1 VRING_DESC_F_WRITE 0);
  fm_op : ops d !! idx.1.1 = Some (mkreq (if w then VIRTIO_BLK_T_OUT else VIRTIO_BLK_T_IN) 0 (2 * dblockno x));
  fm_info : info d !! idx.1.1 = Some (mkinfo (Some b) st)
}.

Definition buf_ok (x : dbuf) : Prop := length (ddata x) = Z.to_nat BSIZE /\ 0 <= dblockno x < 2 ^ 31.

(** Where the request is: with the device or on the way to it ([P]), on the
    way back ([Q]), or finished. *)
Definition stage (P Q : list nat) (i : nat) (st dk : Z) : Prop :=
  (i ∈ P /\ (i ∉ Q) /\ st = 255 /\ dk = 1) \/ ((i ∉ P) /\ i ∈ Q /\ st = 0 /\ dk = 1) \/ ((i ∉ P) /\ (i ∉ Q) /\ st = 0 /\ dk = 0).

Definition owns (s : sys) (t : nat) (i : nat) : Prop :=
  exists b w idx, threads s !! t = Some (TWaitIO b w idx) /\ i ∈ heads idx.

Record vinv (s : sys) (A Q : list nat) : Prop := {
  v_desc : length (desc (drv s)) = NUM;
  v_free : length (dfree (drv s)) = NUM;
  v_info : length (info (drv s)) = NUM;
  v_ops : length (ops (drv s)) = NUM;
  v_held : dheld (drv s) = [];
  v_avail : queued (avail_ring (drv s)) (dev_idx s) (avail_idx (drv s)) A;
  v_used : queued (used_ring (drv s)) (used_idx (drv s)) (dev_used_idx (drv s)) Q;
  v_nodup : NoDup (A ++ fetched s ++ Q);
  v_io : forall t b w idx, threads s !! t = Some (TWaitIO b w idx) ->
    exists x st, formatted (drv s) b w idx x st /\ buf_ok x /\ stage (A ++ fetched s) Q idx.1.1 st (in_disk x);
  v_head : forall i, i ∈ A ++ fetched s ++ Q -> exists t b w i1 i2, threads s !! t = Some (TWaitIO b w (i, i1, i2));
  v_wait : forall t b w, threads s !! t = Some (TWaitDesc b w) -> exists x, bufs (drv s) !! b = Some x /\ buf_ok x;
  v_owner : forall i f, dfree (drv s) !! i = Some f -> (f = false <-> exists t, owns s t i);
  v_one : forall t t' i, owns s t i -> owns s t' i -> t = t';
  v_buf : forall t t' x x' b, threads s !! t = Some x -> threads s !! t' = Some x' -> thread_buf x = Some b -> thread_buf x' = Some b -> t = t'
}.

(** ** Formatted descriptors under changes elsewhere *)
Lemma formatted_frame d d' b w idx x st : formatted d b w idx x st ->
  (forall i, i ∈ heads idx -> desc d' !! i = desc d !! i) -> bufs d' !! b = bufs d !! b ->
  ops d' !! idx.1.1 = ops d !! idx.1.1 -> info d' !! idx.1.1 = info d !! idx.1.1 -> formatted d' b w idx x st.
Proof.
  intros [H1 H2 H3 H4 H5 H6 H7] Hd Hb Ho Hi. constructor; [done|by rewrite Hb| | | |by rewrite Ho|by rewrite Hi];
    rewrite Hd; try done; unfold heads; set_solver.
Qed.

Lemma heads_lt d b w idx x st i : length (desc d) = NUM -> formatted d b w idx x st -> i ∈ heads idx -> (i < NUM)%nat.
Proof.
  intros Hl [H1 H2 H3 H4 H5 H6 H7] Hi. rewrite <- Hl. unfold heads in Hi. rewrite !elem_of_cons, elem_of_nil in Hi.
  destruct Hi as [->|[->|[->|[]]]]; by eapply lookup_lt_Some.
Qed.

(** Two requests have different heads and buffers. *)
Lemma other_heads s A Q t t' b b' w w' idx idx' : vinv s A Q -> t <> t' ->
  threads s !! t = Some (TWaitIO b w idx) -> threads s !! t' = Some (TWaitIO b' w' idx') ->
  (forall i, i ∈ heads idx -> i ∉ heads idx') /\ b <> b'.
Proof.
  intros H Hne E E'. split.
  - intros i Hi Hi'. apply Hne. apply (v_one _ _ _ H t t' i); by do 3 eexists.
  - intros ->. apply Hne. by apply (v_buf _ _ _ H t t' _ _ b' E E').
Qed.

(** ** Allocation of descriptors *)
Lemma first_free_spec l i : match first_free i l with
  | Some j => exists k, j = (i + k)%nat /\ l !! k = Some true
  | None => forall k f, l !! k = Some f -> f = false end.
Proof.
  revert i. induction l as [|f l IH]; intros i; cbn [first_free]; [done|]. destruct f; [by exists 0%nat; split; [lia|]|].
  specialize (IH (S i)). destruct (first_free (S i) l) as [j|].
  - destruct IH as (k & -> & Hk). exists (S k). split; [lia|done].
  - intros [|k] f Hk; [by injection Hk|by eapply IH].
Qed.

Lemma alloc_desc_spec d : match first_free 0 (dfree d) with
  | Some i => alloc_desc d = Ok (Some i) (set_dfree (fun l => <[i := false]> l) d) /\ dfree d !! i = Some true
  | None => alloc_desc d = Ok None d /\ forall k f, dfree d !! k = Some f -> f = false end.
Proof.
  pose proof (first_free_spec (dfree d) 0) as H. unfold alloc_desc, bind, gets.
  destruct (first_free 0 (dfree d)) as [i|]; [|done]. destruct H as (k & -> & Hk). done.
Qed.

Lemma free_desc_spec d i : (i < NUM)%nat -> dfree d !! i = Some false ->
  free_desc i d = Ok tt (set_dfree (fun l => <[i := true]> l) (set_desc (fun l => <[i := mkdesc Null 0 0 0]> l) d)).
Proof. intros Hi Hf. unfold free_desc. rewrite (proj2 (Nat.leb_gt _ _)) by done. unfold bind, elem. rewrite Hf. done. Qed.

(** Only descriptors that are free differ. *)
Record same_but_free (d d' : disk) : Prop := {
  sb_eq : d' = set_desc (fun _ => desc d') d;
  sb_len : length (desc d') = length (desc d);
  sb_desc : forall i, dfree d !! i <> Some true -> desc d' !! i = desc d !! i
}.

(** Give a descriptor back that was just taken. *)
Lemma retake (l : list bool) i f : l !! i = Some f -> <[i := f]> (<[i := false]> l) = l.
Proof. intros H. rewrite list_insert_insert_eq. by apply list_insert_id. Qed.

Lemma alloc3_spec d : length (dfree d) = NUM -> length (desc d) = NUM ->
  (exists i0 i1 i2, alloc3_desc d = Ok (Some (i0, i1, i2)) (set_dfree (fun l => <[i2 := false]> (<[i1 := false]> (<[i0 := false]> l))) d) /\
     NoDup [i0; i1; i2] /\ forall i, i ∈ [i0; i1; i2] -> dfree d !! i = Some true) \/
  (exists d' i j, alloc3_desc d = Ok None d' /\ same_but_free d d' /\ forall k, dfree d !! k = Some true -> k = i \/ k = j).
Proof.
  intros Hl Hd. unfold alloc3_desc.
  assert (Hlt : forall (l : list bool) i f, length l = NUM -> l !! i = Some f -> (i < NUM)%nat) by (intros l i f <-; apply lookup_lt_Some).
  pose proof (alloc_desc_spec d) as H0. destruct (first_free 0 (dfree d)) as [i0|].
  2:{ right. exists d, 0%nat, 0%nat. destruct H0 as [E H0]. rewrite (bind_ok _ _ _ _ _ E). split; [done|].
      split; [by constructor; [destruct d| |]|]. intros k Hk. by apply H0 in Hk. }
  destruct H0 as [E0 F0]. rewrite (bind_ok _ _ _ _ _ E0). set (d1 := set_dfree _ d) in *.
  assert (G0 : dfree d1 !! i0 = Some false) by (apply list_lookup_insert_eq; rewrite Hl; by eapply Hlt).
  pose proof (alloc_desc_spec d1) as H1. destruct (first_free 0 (dfree d1)) as [i1|].
  2:{ right. destruct H1 as [E1 H1]. rewrite (bind_ok _ _ _ _ _ E1), (bind_ok _ _ _ _ _ (free_desc_spec d1 i0 (Hlt _ _ _ Hl F0) G0)).
      eexists _, i0, i0. split; [done|]. split; [|intros k Hk; destruct (decide (k = i0)) as [->|N]; [by left|];
        specialize (H1 k true); cbn in H1; rewrite list_lookup_insert_ne in H1 by done; by apply H1 in Hk].
      constructor; cbn.
      - unfold set_dfree, set_desc, d1. cbn. by rewrite retake.
      - by rewrite length_insert.
      - intros i Hi. destruct (decide (i = i0)) as [->|]; [done|]. by rewrite list_lookup_insert_ne. }
  destruct H1 as [E1 F1]. rewrite (bind_ok _ _ _ _ _ E1). set (d2 := set_dfree _ d1) in *.
  assert (N01 : i0 <> i1) by (intros ->; rewrite G0 in F1; done).
  assert (F1' : dfree d !! i1 = Some true) by (cbn in F1; by rewrite list_lookup_insert_ne in F1).
  assert (G1 : dfree d2 !! i1 = Some false) by (apply list_lookup_insert_eq; cbn; rewrite length_insert, Hl; by eapply Hlt).
  assert (G0' : dfree d2 !! i0 = Some false) by (cbn; by rewrite list_lookup_insert_ne).
  pose proof (alloc_desc_spec d2) as H2. destruct (first_free 0 (dfree d2)) as [i2|].
  2:{ right. destruct H2 as [E2 H2]. rewrite (bind_ok _ _ _ _ _ E2), (bind_ok _ _ _ _ _ (free_desc_spec d2 i0 (Hlt _ _ _ Hl F0) G0')).
      erewrite bind_ok; [|apply free_desc_spec; [by eapply Hlt|cbn; rewrite list_lookup_insert_ne by done; exact G1]].
      eexists _, i0, i1. split; [done|]. split; [|intros k Hk; destruct (decide (k = i0)) as [->|N]; [by left|]; destruct (decide (k = i1)) as [->|N']; [by right|];
        specialize (H2 k true); cbn in H2; rewrite !list_lookup_insert_ne in H2 by done; by apply H2 in Hk].
      constructor; cbn.
      - unfold set_dfree, set_desc, d2, d1. cbn. f_equal. rewrite (list_insert_insert_ne _ i0 i1) by done.
        rewrite list_insert_insert_eq, retake by done. by apply list_insert_id.
      - by rewrite !length_insert.
      - intros i Hi. destruct (decide (i = i0)) as [->|]; [done|]. destruct (decide (i = i1)) as [->|]; [done|]. by rewrite !list_lookup_insert_ne. }
  destruct H2 as [E2 F2]. rewrite (bind_ok _ _ _ _ _ E2). left. exists i0, i1, i2. split; [done|].
  assert (N02 : i0 <> i2) by (intros ->; rewrite G0' in F2; done). assert (N12 : i1 <> i2) by (intros ->; rewrite G1 in F2; done).
  split; [repeat constructor; set_solver|]. intros i. rewrite !elem_of_cons, elem_of_nil. intros [->|[->|[->|[]]]]; [done|done|].
  cbn in F2. by rewrite !list_lookup_insert_ne in F2.
Qed.

(** ** Submitting *)
Definition submitted (d : disk) (b : nat) (w : bool) (idx : nat * nat * nat) (x : dbuf) : disk :=
  let '(i0, i1, i2) := idx in
  mkdisk
    (<[i2 := mkdesc (Status i0) 1 VRING_DESC_F_WRITE 0]>
      (<[i1 := mkdesc (Data b) BSIZE (Z.lor (if w then 0 else VRING_DESC_F_WRITE) VRING_DESC_F_NEXT) i2]>
        (<[i0 := mkdesc (Op i0) 16 VRING_DESC_F_NEXT i1]> (desc d))))
    (<[vslot (avail_idx d) := i0]> (avail_ring d)) (u16 (avail_idx d + 1)) (used_ring d) (dev_used_idx d)
    (<[i2 := false]> (<[i1 := false]> (<[i0 := false]> (dfree d)))) (used_idx d)
    (<[i0 := mkinfo (Some b) 255]> (info d))
    (<[i0 := mkreq (if w then VIRTIO_BLK_T_OUT else VIRTIO_BLK_T_IN) 0 (2 * dblockno x)]> (ops d))
    (<[b := mkdbuf (dblockno x) (ddata x) 1]> (bufs d)) (mmio_writes d ++ [(VIRTIO_MMIO_QUEUE_NOTIFY, 0)]) [].

Lemma rw_spec d b w x : dheld d = [] -> length (dfree d) = NUM -> length (desc d) = NUM -> length (info d) = NUM ->
  bufs d !! b = Some x -> 0 <= dblockno x < 2 ^ 31 ->
  (exists d' i j, virtio_disk_rw b w d = Ok NeedDesc d' /\ same_but_free d d' /\ forall k, dfree d !! k = Some true -> k = i \/ k = j) \/
  (exists idx, virtio_disk_rw b w d = Ok (InFlight idx) (submitted d b w idx x) /\ NoDup (heads idx) /\
     forall i, i ∈ heads idx -> dfree d !! i = Some true).
Proof.
  intros Hh Hf Hd Hi Hb Hblk. set (d1 := set_held ["virtio_disk"] d).
  assert (E0 : virtio_disk_rw b w d = (do! r <- alloc3_desc;
    match r with None => release "virtio_disk" ;; ret NeedDesc | Some idx => submit b w (2 * dblockno x) idx ;; await b idx end) d1).
  { unfold virtio_disk_rw. unfold bind at 1, elem at 1. rewrite Hb.
    assert (Hh' : held d = []) by exact Hh.
    rewrite (bind_ok _ _ _ _ _ (acquire_ok "virtio_disk" d ltac:(rewrite Hh'; apply not_elem_of_nil))). rewrite Hh'.
    change (BSIZE / 512) with 2. rewrite u32_small, Z.mul_comm by lia. done. }
  rewrite E0. clear E0. destruct (alloc3_spec d1 Hf Hd) as [(i0 & i1 & i2 & E & Hn & Hfree)|(d' & j & j' & E & S & Hfew)].
  - right. exists (i0, i1, i2). split; [|done]. rewrite (bind_ok _ _ _ _ _ E).
    destruct (lookup_lt_is_Some_2 (info d) i0) as [y Hy].
    { rewrite Hi, <- Hf. eapply lookup_lt_Some. apply (Hfree i0). set_solver. }
    assert (Hbl : (b < length (bufs d))%nat) by by eapply lookup_lt_Some.
    unfold submit, await, set_in_disk, bind, modify, gets, elem, write_reg, ret, d1. cbn. rewrite Hy. cbn. rewrite Hb. cbn.
    rewrite list_lookup_insert_eq by done. cbn. unfold submitted, vslot. rewrite list_insert_insert_eq. done.
  - left. destruct S as [S1 S2 S3]. rewrite (bind_ok _ _ _ _ _ E), S1. unfold bind at 1.
    rewrite (release_head "virtio_disk" []) by done. eexists _, j, j'. split; [done|]. split; [|exact Hfew]. constructor; [|done|done]. cbn. by destruct d; cbn in *; subst.
Qed.

(** ** Finishing *)
Definition finished (d : disk) (idx : nat * nat * nat) (st : Z) : disk :=
  let '(i0, i1, i2) := idx in
  let z := mkdesc Null 0 0 0 in
  mkdisk (<[i2 := z]> (<[i1 := z]> (<[i0 := z]> (desc d)))) (avail_ring d) (avail_idx d) (used_ring d) (dev_used_idx d)
    (<[i2 := true]> (<[i1 := true]> (<[i0 := true]> (dfree d)))) (used_idx d) (<[i0 := mkinfo None st]> (info d)) (ops d) (bufs d) (mmio_writes d) [].

Lemma resume_waits d b idx x : dheld d = [] -> bufs d !! b = Some x -> in_disk x = 1 ->
  virtio_disk_rw_resume b idx d = Ok (InFlight idx) d.
Proof.
  intros Hh Hb Hi. unfold virtio_disk_rw_resume. assert (Hh' : held d = []) by exact Hh.
  rewrite (bind_ok _ _ _ _ _ (acquire_ok "virtio_disk" d ltac:(rewrite Hh'; apply not_elem_of_nil))). rewrite Hh'.
  unfold await. unfold bind at 1, elem. cbn [bufs set_held disk_locks]. rewrite Hb, Hi. cbn [Z.eqb Pos.eqb].
  unfold bind. rewrite (release_head "virtio_disk" []) by done. by destruct d; cbn in *; subst.
Qed.

Lemma resume_finishes d b w idx x st : dheld d = [] -> length (desc d) = NUM -> formatted d b w idx x st ->
  (forall i, i ∈ heads idx -> dfree d !! i = Some false) -> in_disk x <> 1 ->
  virtio_disk_rw_resume b idx d = Ok Returned (finished d idx st).
Proof.
  intros Hh Hl Hfm Hfree Hi. destruct idx as [[i0 i1] i2].
  assert (Hlt : forall i, i ∈ [i0; i1; i2] -> (i < NUM)%nat) by (intros i; apply (heads_lt d b w (i0, i1, i2) x st i Hl Hfm)).
  destruct Hfm as [H1 H2 H3 H4 H5 H6 H7]. cbn [fst snd heads] in *.
  assert (N : i0 <> i1 /\ i0 <> i2 /\ i1 <> i2) by (apply NoDup_cons in H1 as [N1 H1]; apply NoDup_cons in H1 as [N2 _]; set_solver).
  unfold virtio_disk_rw_resume. assert (Hh' : held d = []) by exact Hh.
  rewrite (bind_ok _ _ _ _ _ (acquire_ok "virtio_disk" d ltac:(rewrite Hh'; apply not_elem_of_nil))). rewrite Hh'.
  unfold await. unfold bind at 1, elem at 1. cbn [bufs set_held disk_locks]. rewrite H2, (proj2 (Z.eqb_neq _ _) Hi).
  unfold bind at 1, elem at 1. cbn [info set_held disk_locks fst snd]. rewrite H7. unfold bind at 1, modify at 1.
  cbn [info set_held disk_locks fst snd]. set (d1 := set_info _ _).
  assert (Hi0 : from_option status 0 (info d !! i0) = st) by (by rewrite H7).
  (* the first descriptor *)
  unfold NUM. cbn [free_chain]. unfold bind at 1 2, elem at 1. change (desc d1) with (desc d). rewrite H3.
  assert (F0 : dfree d1 !! i0 = Some false) by (apply Hfree; set_solver).
  rewrite (bind_ok _ _ _ _ _ (free_desc_spec d1 i0 (Hlt i0 ltac:(set_solver)) F0)). set (d2 := set_dfree _ _). cbn [flags next].
  rewrite (eq_refl : hasbit VRING_DESC_F_NEXT VRING_DESC_F_NEXT = true). unfold bind at 1, elem at 1. assert (D1 : desc d2 !! i1 = desc d !! i1) by (cbn; rewrite list_lookup_insert_ne by naive_solver; done).
  rewrite D1, H4. assert (F1 : dfree d2 !! i1 = Some false) by (cbn; rewrite list_lookup_insert_ne by naive_solver; apply Hfree; set_solver).
  rewrite (bind_ok _ _ _ _ _ (free_desc_spec d2 i1 (Hlt i1 ltac:(set_solver)) F1)). set (d3 := set_dfree _ _).
  assert (Hn : hasbit (Z.lor (if w then 0 else VRING_DESC_F_WRITE) VRING_DESC_F_NEXT) VRING_DESC_F_NEXT = true) by by destruct w.
  cbn [flags next]. rewrite Hn. unfold bind at 1, elem at 1.
  assert (D2 : desc d3 !! i2 = desc d !! i2) by (cbn; rewrite !list_lookup_insert_ne by naive_solver; done).
  rewrite D2, H5. assert (F2 : dfree d3 !! i2 = Some false) by (cbn; rewrite !list_lookup_insert_ne by naive_solver; apply Hfree; set_solver).
  rewrite (bind_ok _ _ _ _ _ (free_desc_spec d3 i2 (Hlt i2 ltac:(set_solver)) F2)). cbn [flags].
  rewrite (eq_refl : hasbit VRING_DESC_F_WRITE VRING_DESC_F_NEXT = false).
  unfold ret at 1. unfold bind at 1. rewrite (release_head "virtio_disk" []) by done. unfold finished, d3, d2, d1. cbn. by rewrite Hi0.
Qed.

(** ** The interrupt handler *)
Definition clear_disk (l : list dbuf) (b : nat) : list dbuf :=
  match l !! b with Some x => <[b := mkdbuf (dblockno x) (ddata x) 0]> l | None => l end.
Definition head_buf (y : list dinfo) (id : nat) : option nat := match y !! id with Some x => info_b x | None => None end.
Definition clear_all (y : list dinfo) (Q : list nat) (l : list dbuf) : list dbuf :=
  fold_left (fun l id => match head_buf y id with Some b => clear_disk l b | None => l end) Q l.

Lemma clear_disk_lookup l b b' : clear_disk l b !! b' =
  (fun x => if decide (b = b') then mkdbuf (dblockno x) (ddata x) 0 else x) <$> l !! b'.
Proof.
  unfold clear_disk. destruct (decide (b = b')) as [->|Hne].
  - destruct (l !! b') as [x|] eqn:E; [|by rewrite E]. apply list_lookup_insert_eq. by eapply lookup_lt_Some.
  - destruct (l !! b) eqn:E; [rewrite list_lookup_insert_ne by done|]; by destruct (l !! b').
Qed.

Lemma clear_all_length y Q l : length (clear_all y Q l) = length l.
Proof.
  revert l. induction Q as [|id Q IH]; intros l; [done|]. cbn. change (fold_left _ Q ?k) with (clear_all y Q k). rewrite IH.
  destruct (head_buf y id) as [b|]; [|done]. unfold clear_disk. destruct (l !! b); [apply length_insert|done].
Qed.

Lemma clear_all_other y Q l b : (forall id, id ∈ Q -> head_buf y id <> Some b) -> clear_all y Q l !! b = l !! b.
Proof.
  revert l. induction Q as [|id Q IH]; intros l H; [done|]. cbn. change (fold_left _ Q ?k) with (clear_all y Q k). rewrite IH by set_solver.
  specialize (H id ltac:(set_solver)). destruct (head_buf y id) as [b'|]; [|done]. rewrite clear_disk_lookup.
  destruct (decide (b' = b)); [naive_solver|]. by destruct (l !! b).
Qed.

(** Once cleared, a buffer stays as it is. *)
Lemma clear_all_again y Q l b blk data : l !! b = Some (mkdbuf blk data 0) -> clear_all y Q l !! b = Some (mkdbuf blk data 0).
Proof.
  revert l. induction Q as [|i Q IH]; intros l Hx; [done|]. cbn. change (fold_left _ Q ?k) with (clear_all y Q k). apply IH.
  destruct (head_buf y i) as [b'|]; [|done]. rewrite clear_disk_lookup, Hx. cbn. by destruct (decide (b' = b)).
Qed.

Lemma clear_all_in y Q l b x id : id ∈ Q -> head_buf y id = Some b -> l !! b = Some x ->
  clear_all y Q l !! b = Some (mkdbuf (dblockno x) (ddata x) 0).
Proof.
  revert l x. induction Q as [|i Q IH]; intros l x Hi Hb Hx; [set_solver|]. cbn. change (fold_left _ Q ?k) with (clear_all y Q k).
  apply elem_of_cons in Hi as [<-|Hi].
  - rewrite Hb. apply clear_all_again. rewrite clear_disk_lookup, Hx. cbn. by rewrite decide_True.
  - destruct (head_buf y i) as [b'|]; [|by apply IH]. destruct (decide (b' = b)) as [->|Hne].
    + apply clear_all_again. rewrite clear_disk_lookup, Hx. cbn. by rewrite decide_True.
    + apply IH; [done..|]. rewrite clear_disk_lookup, Hx. cbn. by rewrite decide_False.
Qed.

Lemma intr_loop_spec n Q d : queued (used_ring d) (used_idx d) (dev_used_idx d) Q -> (length Q <= n)%nat ->
  (forall id, id ∈ Q -> exists b x, info d !! id = Some (mkinfo (Some b) 0) /\ bufs d !! b = Some x) ->
  intr_loop n d = Ok tt (set_used_idx (dev_used_idx d) (set_bufs (clear_all (info d) Q) d)).
Proof.
  revert n d. induction Q as [|id Q IH]; intros n d Hq Hn Hok.
  - assert (E : used_idx d = dev_used_idx d) by (by apply (queued_empty _ _ _ _ Hq)).
    destruct n; cbn [intr_loop]; unfold bind, gets; rewrite E, Z.eqb_refl; unfold ret; destruct d; cbn in *; by subst.
  - destruct n as [|n]; [cbn in Hn; lia|]. cbn [intr_loop]. unfold bind at 1 2, gets.
    assert (Hne : used_idx d <> dev_used_idx d) by (intros E; by apply (queued_empty _ _ _ _ Hq) in E).
    rewrite (proj2 (Z.eqb_neq _ _) Hne). destruct (queued_pop _ _ _ _ _ Hq) as [Hid Hq'].
    unfold bind at 1, elem at 1. change (Z.to_nat (used_idx d mod Z.of_nat NUM)) with (vslot (used_idx d)). rewrite Hid.
    destruct (Hok id ltac:(set_solver)) as (b & x & Hinfo & Hb). unfold bind at 1, elem at 1. rewrite Hinfo. cbn [status info_b Z.eqb negb].
    unfold set_in_disk, bind, elem, modify. rewrite Hb. cbn [set_bufs set_used_idx].
    set (d1 := set_used_idx _ _). rewrite (IH n d1); [| |cbn in Hn; lia|].
    + unfold d1. cbn. unfold set_used_idx, set_bufs. cbn. do 2 f_equal. unfold head_buf. rewrite Hinfo. cbn. unfold clear_disk. by rewrite Hb.
    + exact Hq'.
    + intros id' Hid'. destruct (Hok id' ltac:(set_solver)) as (b' & x' & H1 & H2). exists b'. cbn. destruct (decide (b' = b)) as [->|Hbb].
      * eexists. split; [done|]. apply list_lookup_insert_eq. by eapply lookup_lt_Some.
      * exists x'. split; [done|]. by rewrite list_lookup_insert_ne.
Qed.

Lemma intr_spec mmio Q d : dheld d = [] -> queued (used_ring d) (used_idx d) (dev_used_idx d) Q ->
  (forall id, id ∈ Q -> exists b x, info d !! id = Some (mkinfo (Some b) 0) /\ bufs d !! b = Some x) ->
  exists regs, virtio_disk_intr mmio d = Ok tt (mkdisk (desc d) (avail_ring d) (avail_idx d) (used_ring d) (dev_used_idx d) (dfree d) (dev_used_idx d)
    (info d) (ops d) (clear_all (info d) Q (bufs d)) regs []).
Proof.
  intros Hh Hq Hok. eexists. unfold virtio_disk_intr. assert (Hh' : held d = []) by exact Hh.
  rewrite (bind_ok _ _ _ _ _ (acquire_ok "virtio_disk" d ltac:(rewrite Hh'; apply not_elem_of_nil))). rewrite Hh'.
  unfold bind at 1, write_reg, modify. unfold bind at 1. rewrite (intr_loop_spec NUM Q); [|exact Hq|exact (q_room _ _ _ _ Hq)|exact Hok].
  rewrite (release_head "virtio_disk" []) by done. reflexivity.
Qed.
