(* ===== verification/VirtioSpec.v ===== *)
(** * The disk driver refines an atomic disk

    The driver never panics, every request is performed exactly once and
    atomically, and none is stuck. *)

From S2P Require Import Prelude Riscv Mem Lock Bio Virtio VirtioInv.
Local Open Scope Z_scope.

(** ** The device on a formatted request *)
Definition completed (d : disk) (i b : nat) (bs : list dbuf) : disk :=
  mkdisk (desc d) (avail_ring d) (avail_idx d) (<[vslot (dev_used_idx d) := i]> (used_ring d)) (u16 (dev_used_idx d + 1))
    (dfree d) (used_idx d) (<[i := mkinfo (Some b) 0]> (info d)) (ops d) bs (mmio_writes d) (dheld d).

Lemma chain_formatted d b w idx x st : formatted d b w idx x st ->
  chain d idx.1.1 = Some (mkreq (if w then VIRTIO_BLK_T_OUT else VIRTIO_BLK_T_IN) 0 (2 * dblockno x),
    (mkdesc (Data b) BSIZE (Z.lor (if w then 0 else VRING_DESC_F_WRITE) VRING_DESC_F_NEXT) idx.2, b), idx.1.1).
Proof. intros [_ _ H3 H4 H5 H6 _]. unfold chain. rewrite H3, H4, H5, H6. by destruct w. Qed.

Lemma device_writes d b idx x st m : formatted d b true idx x st -> buf_ok x ->
  device_do idx.1.1 d m = Some (completed d idx.1.1 b (bufs d), overwrite m (dblockno x * BSIZE) (ddata x)).
Proof.
  intros H [Hl Hb]. unfold device_do. rewrite (chain_formatted _ _ _ _ _ _ H), (fm_buf _ _ _ _ _ _ H), (fm_info _ _ _ _ _ _ H).
  cbn [rtype sector len flags info_b]. rewrite (eq_refl : (VIRTIO_BLK_T_OUT =? VIRTIO_BLK_T_OUT) = true).
  rewrite (eq_refl : hasbit (Z.lor 0 VRING_DESC_F_NEXT) VRING_DESC_F_WRITE = false). rewrite take_ge by lia.
  unfold completed, vslot. do 3 f_equal. unfold BSIZE. lia.
Qed.

Lemma device_reads d b idx x st m : formatted d b false idx x st -> buf_ok x ->
  device_do idx.1.1 d m = Some (completed d idx.1.1 b
    (<[b := mkdbuf (dblockno x) (bytes_at m (dblockno x * BSIZE) (Z.to_nat BSIZE)) (in_disk x)]> (bufs d)), m).
Proof.
  intros H [Hl Hb]. unfold device_do. rewrite (chain_formatted _ _ _ _ _ _ H), (fm_buf _ _ _ _ _ _ H), (fm_info _ _ _ _ _ _ H).
  cbn [rtype sector len flags info_b]. rewrite (eq_refl : (VIRTIO_BLK_T_IN =? VIRTIO_BLK_T_OUT) = false).
  rewrite (eq_refl : (VIRTIO_BLK_T_IN =? VIRTIO_BLK_T_IN) = true).
  rewrite (eq_refl : hasbit (Z.lor VRING_DESC_F_WRITE VRING_DESC_F_NEXT) VRING_DESC_F_WRITE = true). rewrite drop_ge by lia. rewrite app_nil_r.
  unfold completed, vslot. replace (2 * dblockno x * 512) with (dblockno x * BSIZE) by (unfold BSIZE; lia). done.
Qed.

Lemma length_bytes_at m a n : length (bytes_at m a n) = n.
Proof. unfold bytes_at. by rewrite length_fmap, length_seq. Qed.

(** Blocks of the disk after a write. *)
Lemma blocks_overwrite m blk data n : length data = Z.to_nat BSIZE -> 0 <= blk -> 0 <= n ->
  bytes_at (overwrite m (blk * BSIZE) data) (n * BSIZE) (Z.to_nat BSIZE) =
  if n =? blk then data else bytes_at m (n * BSIZE) (Z.to_nat BSIZE).
Proof.
  intros Hl Hb Hn. change BSIZE with 1024 in *. change (Z.to_nat 1024) with 1024%nat in *. unfold bytes_at, overwrite. rewrite Hl.
  apply list_eq. intros i. rewrite list_lookup_fmap. destruct (decide (i < 1024)%nat) as [Hi|Hi].
  - rewrite lookup_seq_lt by done. cbn [fmap option_fmap option_map Nat.add]. destruct (Z.eqb_spec n blk) as [->|Hne].
    + rewrite (proj2 (KString.inrange_true _ _ _)) by lia. replace (Z.to_nat (blk * 1024 + Z.of_nat i - blk * 1024)) with i by lia.
      destruct (lookup_lt_is_Some_2 data i) as [c ->]; [lia|done].
    + rewrite (proj2 (KString.inrange_false _ _ _)) by lia. rewrite list_lookup_fmap, lookup_seq_lt by done. done.
  - rewrite lookup_seq_ge by lia. destruct (n =? blk); symmetry; [apply lookup_ge_None; lia|]. rewrite list_lookup_fmap, lookup_seq_ge by lia. done.
Qed.

(** ** Abstract threads *)
Lemma abs_insert d d' (ths : list thread) t X : (forall t' x, ths !! t' = Some x -> t' <> t -> abs_thread d' x = abs_thread d x) ->
  abs_thread d' <$> <[t := X]> ths = <[t := abs_thread d' X]> (abs_thread d <$> ths).
Proof.
  intros H. apply list_eq. intros t'. rewrite list_fmap_insert. destruct (decide (t = t')) as [->|Hne].
  - destruct (decide (t' < length ths)%nat).
    + rewrite !list_lookup_insert_eq by (by rewrite length_fmap). done.
    + rewrite !lookup_ge_None_2 by (rewrite length_insert, length_fmap; lia). done.
  - rewrite !list_lookup_insert_ne, !list_lookup_fmap by done. destruct (ths !! t') as [x|] eqn:E; [|done]. cbn. f_equal. by apply (H t').
Qed.

Lemma abs_same d d' (ths : list thread) : (forall t x, ths !! t = Some x -> abs_thread d' x = abs_thread d x) -> abs_thread d' <$> ths = abs_thread d <$> ths.
Proof. intros H. apply list_eq. intros t. rewrite !list_lookup_fmap. destruct (ths !! t) as [x|] eqn:E; [|done]. cbn. f_equal. by apply (H t). Qed.

(** A request looks the same when its buffer and its entry do. *)
Lemma abs_thread_eq d d' x : (forall b, thread_buf x = Some b -> bufs d' !! b = bufs d !! b) ->
  (forall b w idx, x = TWaitIO b w idx -> info d' !! idx.1.1 = info d !! idx.1.1) -> abs_thread d' x = abs_thread d x.
Proof. intros H1 H2. destruct x as [|b w|b w idx]; cbn; [done|by rewrite H1|]. by rewrite (H1 b eq_refl), (H2 b w idx eq_refl). Qed.

(** ** Steps that neither start nor end a request *)
Lemma vinv_same_io s s' A Q A' Q' : vinv s A Q ->
  length (desc (drv s')) = NUM -> length (info (drv s')) = NUM -> length (ops (drv s')) = NUM -> dheld (drv s') = [] ->
  queued (avail_ring (drv s')) (dev_idx s') (avail_idx (drv s')) A' ->
  queued (used_ring (drv s')) (used_idx (drv s')) (dev_used_idx (drv s')) Q' ->
  NoDup (A' ++ fetched s' ++ Q') -> (forall i, i ∈ A' ++ fetched s' ++ Q' -> i ∈ A ++ fetched s ++ Q) ->
  (forall t b w idx, threads s' !! t = Some (TWaitIO b w idx) <-> threads s !! t = Some (TWaitIO b w idx)) ->
  dfree (drv s') = dfree (drv s) ->
  (forall t b w idx, threads s !! t = Some (TWaitIO b w idx) ->
    exists x st, formatted (drv s') b w idx x st /\ buf_ok x /\ stage (A' ++ fetched s') Q' idx.1.1 st (in_disk x)) ->
  (forall t b w, threads s' !! t = Some (TWaitDesc b w) -> exists x, bufs (drv s') !! b = Some x /\ buf_ok x) ->
  (forall t t' x x' b, threads s' !! t = Some x -> threads s' !! t' = Some x' -> thread_buf x = Some b -> thread_buf x' = Some b -> t = t') ->
  vinv s' A' Q'.
Proof.
  intros H Hd Hi Ho Hh Ha Hu Hn Hsub Hth Hf Hio Hw Hb.
  assert (Hown : forall t i, owns s' t i <-> owns s t i).
  { intros t i. split; intros (b & w & idx & E & Hin); exists b, w, idx; (split; [by apply Hth|done]). }
  constructor; try done.
  - rewrite Hf. apply (v_free _ _ _ H).
  - intros t b w idx E. apply Hth in E. by eapply Hio.
  - intros i Hin. destruct (v_head _ _ _ H i (Hsub i Hin)) as (t & b & w & i1 & i2 & E). exists t, b, w, i1, i2. by apply Hth.
  - intros i f E. rewrite Hf in E. rewrite (v_owner _ _ _ H i f E). by setoid_rewrite Hown.
  - intros t t' i H1 H2. rewrite Hown in H1, H2. by apply (v_one _ _ _ H t t' i).
Qed.

(** Requests keep their stage when only other things change. *)
Lemma io_frame s A Q d' : vinv s A Q ->
  (forall t b w idx, threads s !! t = Some (TWaitIO b w idx) ->
    (forall i, i ∈ heads idx -> desc d' !! i = desc (drv s) !! i) /\ bufs d' !! b = bufs (drv s) !! b /\
    ops d' !! idx.1.1 = ops (drv s) !! idx.1.1 /\ info d' !! idx.1.1 = info (drv s) !! idx.1.1) ->
  forall t b w idx, threads s !! t = Some (TWaitIO b w idx) ->
    exists x st, formatted d' b w idx x st /\ buf_ok x /\ stage (A ++ fetched s) Q idx.1.1 st (in_disk x).
Proof.
  intros H Hsame t b w idx E. destruct (v_io _ _ _ H t b w idx E) as (x & st & Hfm & Hb & Hst). destruct (Hsame t b w idx E) as (H1 & H2 & H3 & H4).
  exists x, st. split; [by apply (formatted_frame (drv s))|done].
Qed.

(** What a step has to show. *)
Definition good (s s' : sys) : Prop := (exists A Q, vinv s' A Q) /\ (astep (abs s) (abs s') \/ abs s' = abs s).

(** A thread that is not in a request is replaced by another such. *)
Lemma threads_not_io (ths : list thread) t X t' b w idx : (forall b w idx, ths !! t <> Some (TWaitIO b w idx)) -> (forall b w idx, X <> TWaitIO b w idx) ->
  <[t := X]> ths !! t' = Some (TWaitIO b w idx) <-> ths !! t' = Some (TWaitIO b w idx).
Proof.
  intros H HX. destruct (decide (t = t')) as [->|Hne]; [|by rewrite list_lookup_insert_ne].
  split; intros E; [|by apply H in E]. destruct (decide (t' < length ths)%nat) as [Hl|Hl].
  - rewrite list_lookup_insert_eq in E by done. injection E as E. by apply HX in E.
  - apply lookup_lt_Some in E. rewrite length_insert in E. done.
Qed.

(** Where a thread of the updated list comes from. *)
Lemma threads_insert (ths : list thread) t X t' x : <[t := X]> ths !! t' = Some x -> (t' = t /\ x = X) \/ (t' <> t /\ ths !! t' = Some x).
Proof.
  intros E. destruct (decide (t = t')) as [->|Hne]; [|rewrite list_lookup_insert_ne in E by done; right; by split].
  left. destruct (decide (t' < length ths)%nat) as [Hl|Hl].
  - rewrite list_lookup_insert_eq in E by done. by injection E.
  - apply lookup_lt_Some in E. rewrite length_insert in E. done.
Qed.

Lemma step_call s A Q t b w blk data : vinv s A Q -> threads s !! t = Some TIdle -> (b < length (bufs (drv s)))%nat ->
  (forall t' x, threads s !! t' = Some x -> thread_buf x <> Some b) -> length data = Z.to_nat BSIZE -> 0 <= blk < 2 ^ 31 ->
  good s (mksys (set_bufs (fun l => <[b := mkdbuf blk data 0]> l) (drv s)) (media s) (dev_idx s) (fetched s) (<[t := TWaitDesc b w]> (threads s))).
Proof.
  intros H Ht Hb Hfree Hl Hblk. set (d' := set_bufs _ (drv s)).
  assert (Hbuf : forall b', b' <> b -> bufs d' !! b' = bufs (drv s) !! b') by (intros b' Hne; cbn; by rewrite list_lookup_insert_ne).
  assert (Hnew : bufs d' !! b = Some (mkdbuf blk data 0)) by (by apply list_lookup_insert_eq).
  assert (Hio : forall t' b' w' idx, <[t := TWaitDesc b w]> (threads s) !! t' = Some (TWaitIO b' w' idx) <-> threads s !! t' = Some (TWaitIO b' w' idx)).
  { intros t' b' w' idx. apply threads_not_io; [intros ? ? ?; by rewrite Ht|done]. }
  split.
  - exists A, Q. apply (vinv_same_io s _ A Q); try apply H; try done.
    + apply (io_frame s A Q d' H). intros t' b' w' idx E. split; [done|]. split; [|done]. apply Hbuf. intros ->. by apply (Hfree t' _ E).
    + cbn. intros t' b' w' E. apply threads_insert in E as [[-> E]|[Hne E]].
      * injection E as -> ->. by exists (mkdbuf blk data 0).
      * destruct (v_wait _ _ _ H t' b' w' E) as (x & Hx & Hok). exists x. split; [|done]. change (bufs d' !! b' = Some x). rewrite Hbuf; [done|].
        intros ->. by apply (Hfree t' _ E).
    + cbn. intros t1 t2 x1 x2 b' E1 E2 H1 H2. apply threads_insert in E1 as [[-> ->]|[N1 E1]]; apply threads_insert in E2 as [[-> ->]|[N2 E2]].
      * done.
      * injection H1 as <-. by destruct (Hfree t2 _ E2).
      * injection H2 as <-. by destruct (Hfree t1 _ E1).
      * by apply (v_buf _ _ _ H t1 t2 x1 x2 b').
  - left. unfold abs. cbn [media drv threads]. rewrite (abs_insert (drv s)).
    + assert (Hx : abs_thread d' (TWaitDesc b w) = APending w blk data) by (cbn [abs_thread]; by rewrite Hnew). rewrite Hx.
      apply (ACall (abs s)). cbn [abs athreads]. by rewrite list_lookup_fmap, Ht.
    + intros t' x E Hne. apply abs_thread_eq; [|done]. intros b' Hb'. apply Hbuf. intros ->. by apply (Hfree t' x E).
Qed.

(** ** Starting a request *)
Lemma step_run_none s A Q t b w d' : vinv s A Q -> threads s !! t = Some (TWaitDesc b w) -> same_but_free (drv s) d' ->
  good s (mksys d' (media s) (dev_idx s) (fetched s) (<[t := TWaitDesc b w]> (threads s))).
Proof.
  intros H Ht [S1 S2 S3].
  assert (Eb : bufs d' = bufs (drv s)) by (by rewrite S1). assert (Ei : info d' = info (drv s)) by (by rewrite S1).
  rewrite list_insert_id by done. split.
  - exists A, Q. apply (vinv_same_io s _ A Q); cbn; try apply H; try (rewrite S1; cbn; apply H); try done.
    + rewrite S2. apply H.
    + by rewrite S1.
    + apply (io_frame s A Q d' H). intros t' b' w' idx E. split; [|rewrite S1; done].
      intros i Hi. apply S3. intros Hf. assert (true = false); [|done]. apply (v_owner _ _ _ H i true Hf). exists t'. by exists b', w', idx.
  - right. unfold abs. cbn [media drv threads]. f_equal. apply abs_same. intros t' x E. apply abs_thread_eq; [by rewrite Eb|by rewrite Ei].
Qed.

(** The descriptors of a new request. *)
Lemma submitted_desc d b w idx x i : i ∉ heads idx -> desc (submitted d b w idx x) !! i = desc d !! i.
Proof. intros Hi. destruct idx as [[i0 i1] i2]. cbn in *. rewrite !list_lookup_insert_ne by set_solver. done. Qed.

Lemma submitted_formatted d b w idx x : length (desc d) = NUM -> length (info d) = NUM -> length (ops d) = NUM -> NoDup (heads idx) ->
  (forall i, i ∈ heads idx -> (i < NUM)%nat) -> bufs d !! b = Some x ->
  formatted (submitted d b w idx x) b w idx (mkdbuf (dblockno x) (ddata x) 1) 255.
Proof.
  intros Hd Hi Ho Hn Hlt Hb. destruct idx as [[i0 i1] i2]. cbn [fst snd heads] in *.
  assert (N : i0 <> i1 /\ i0 <> i2 /\ i1 <> i2) by (apply NoDup_cons in Hn as [N1 Hn]; apply NoDup_cons in Hn as [N2 _]; set_solver).
  destruct N as (N1 & N2 & N3). pose proof (Hlt i0 ltac:(set_solver)). pose proof (Hlt i1 ltac:(set_solver)). pose proof (Hlt i2 ltac:(set_solver)).
  constructor; cbn; [done| | | | | |].
  - apply list_lookup_insert_eq. by eapply lookup_lt_Some.
  - rewrite !list_lookup_insert_ne by done. apply list_lookup_insert_eq. lia.
  - rewrite list_lookup_insert_ne by done. apply list_lookup_insert_eq. rewrite length_insert. lia.
  - apply list_lookup_insert_eq. rewrite !length_insert. lia.
  - apply list_lookup_insert_eq. lia.
  - apply list_lookup_insert_eq. lia.
Qed.

Lemma stage_other P P' Q Q' i st dk : stage P Q i st dk -> (i ∈ P' <-> i ∈ P) -> (i ∈ Q' <-> i ∈ Q) -> stage P' Q' i st dk.
Proof. unfold stage. intros H E E'. rewrite E, E'. done. Qed.

(** Different numbers of descriptors: at most NUM. *)
Lemma short_list (l : list nat) : NoDup l -> (forall i, i ∈ l -> (i < NUM)%nat) -> (length l <= NUM)%nat.
Proof.
  intros Hn H. rewrite <- (length_seq NUM 0). apply submseteq_length, NoDup_submseteq; [done|].
  intros i Hi. apply elem_of_seq. specialize (H i Hi). lia.
Qed.

Lemma head_lt s A Q i : vinv s A Q -> i ∈ A ++ fetched s ++ Q -> (i < NUM)%nat.
Proof.
  intros H Hi. destruct (v_head _ _ _ H i Hi) as (t & b & w & i1 & i2 & E). destruct (v_io _ _ _ H _ _ _ _ E) as (x & st & Hfm & _).
  apply (heads_lt _ _ _ _ _ _ i (v_desc _ _ _ H) Hfm). unfold heads. set_solver.
Qed.

Lemma head_owned s A Q i : vinv s A Q -> i ∈ A ++ fetched s ++ Q -> exists t, owns s t i.
Proof.
  intros H Hi. destruct (v_head _ _ _ H i Hi) as (t & b & w & i1 & i2 & E). exists t, b, w, (i, i1, i2). split; [done|]. unfold heads. set_solver.
Qed.

(** A free descriptor has no owner. *)
Lemma free_not_owned s A Q t i : vinv s A Q -> dfree (drv s) !! i = Some true -> ~ owns s t i.
Proof. intros H Hf Ho. assert (true = false); [|done]. apply (v_owner _ _ _ H i true Hf). by exists t. Qed.

Lemma owns_insert d m k F (ths : list thread) t x b w idx t' i s : threads s = ths -> ths !! t = Some x -> (forall b w idx, x <> TWaitIO b w idx) ->
  owns (mksys d m k F (<[t := TWaitIO b w idx]> ths)) t' i <-> (t' = t /\ i ∈ heads idx) \/ owns s t' i.
Proof.
  intros <- Ht Hx. split.
  - intros (b' & w' & idx' & E & Hi). cbn in E. apply threads_insert in E as [[-> E]|[Hne E]]; [left; by injection E as -> -> ->|].
    right. by exists b', w', idx'.
  - intros [[-> Hi]|(b' & w' & idx' & E & Hi)].
    + exists b, w, idx. split; [|done]. cbn. apply list_lookup_insert_eq. by eapply lookup_lt_Some.
    + exists b', w', idx'. split; [|done]. cbn. rewrite list_lookup_insert_ne; [done|]. intros ->. rewrite Ht in E. injection E as ->. by apply (Hx b' w' idx').
Qed.

Section Start.
Context (s : sys) (A Q : list nat) (t b : nat) (w : bool) (idx : nat * nat * nat) (x : dbuf).
Hypothesis (H : vinv s A Q) (Ht : threads s !! t = Some (TWaitDesc b w)).
Hypothesis (Hb : bufs (drv s) !! b = Some x) (Hok : buf_ok x).
Hypothesis (Hn : NoDup (heads idx)) (Hfree : forall i, i ∈ heads idx -> dfree (drv s) !! i = Some true).

Let d' := submitted (drv s) b w idx x.
Let s' := mksys d' (media s) (dev_idx s) (fetched s) (<[t := TWaitIO b w idx]> (threads s)).

Lemma start_lt i : i ∈ heads idx -> (i < NUM)%nat.
Proof. intros Hi. rewrite <- (v_free _ _ _ H). by eapply lookup_lt_Some, Hfree. Qed.

Lemma start_head : idx.1.1 ∈ heads idx.
Proof. unfold heads. set_solver. Qed.

Lemma start_out i : i ∈ heads idx -> i ∉ A ++ fetched s ++ Q.
Proof.
  intros Hi Hin. destruct (head_owned s A Q i H Hin) as [t' Ho]. by apply (free_not_owned s A Q t' i H (Hfree i Hi)).
Qed.

Lemma start_other t' b' w' idx' : threads s !! t' = Some (TWaitIO b' w' idx') -> (forall i, i ∈ heads idx' -> i ∉ heads idx) /\ b' <> b.
Proof.
  intros E. split.
  - intros i Hi Hi'. apply (free_not_owned s A Q t' i H (Hfree i Hi')). by exists b', w', idx'.
  - intros ->. assert (t' = t) as -> by (by apply (v_buf _ _ _ H t' t _ _ b E Ht)). rewrite Ht in E. done.
Qed.

Lemma start_bufs b' : b' <> b -> bufs d' !! b' = bufs (drv s) !! b'.
Proof. intros Hne. unfold d'. destruct idx as [[? ?] ?]. cbn. by rewrite list_lookup_insert_ne. Qed.

Lemma start_entries i : i ∉ heads idx -> info d' !! i = info (drv s) !! i /\ ops d' !! i = ops (drv s) !! i /\ dfree d' !! i = dfree (drv s) !! i.
Proof. intros Hi. unfold d'. destruct idx as [[? ?] ?]. cbn in *. rewrite !list_lookup_insert_ne by set_solver. done. Qed.

Lemma start_taken i : i ∈ heads idx -> dfree d' !! i = Some false.
Proof.
  intros Hi. assert (Hlt := start_lt i Hi). rewrite <- (v_free _ _ _ H) in Hlt. unfold d', heads in *. destruct idx as [[i0 i1] i2]. cbn in *.
  destruct (decide (i2 = i)) as [->|N2]; [apply list_lookup_insert_eq; by rewrite !length_insert|rewrite list_lookup_insert_ne by done].
  destruct (decide (i1 = i)) as [->|N1]; [apply list_lookup_insert_eq; by rewrite !length_insert|rewrite list_lookup_insert_ne by done].
  destruct (decide (i0 = i)) as [->|N0]; [by apply list_lookup_insert_eq|set_solver].
Qed.

Lemma start_owns t' i : owns s' t' i <-> (t' = t /\ i ∈ heads idx) \/ owns s t' i.
Proof. by apply (owns_insert _ _ _ _ (threads s) t (TWaitDesc b w)). Qed.

Lemma start_nodup : NoDup (idx.1.1 :: A ++ fetched s ++ Q).
Proof. apply NoDup_cons. split; [apply start_out, start_head|apply H]. Qed.

Lemma start_room : (length A < NUM)%nat.
Proof.
  pose proof (short_list _ start_nodup) as Hs. cbn in Hs. rewrite !length_app in Hs. assert (S (length A + (length (fetched s) + length Q)) <= NUM)%nat; [|lia].
  apply Hs. intros i Hi. apply elem_of_cons in Hi as [->|Hi]; [by apply start_lt, start_head|by apply (head_lt s A Q)].
Qed.

Lemma start_io t' b' w' idx' : threads s' !! t' = Some (TWaitIO b' w' idx') ->
  exists y st, formatted d' b' w' idx' y st /\ buf_ok y /\ stage ((A ++ [idx.1.1]) ++ fetched s) Q idx'.1.1 st (in_disk y).
Proof.
  intros E. pose proof (start_out _ start_head) as Hout. apply threads_insert in E as [[-> E]|[Hne E]].
  - injection E as -> -> ->. eexists _, 255. split; [apply submitted_formatted; try apply H; [done|apply start_lt|done]|]. split; [done|].
    left. split; [set_solver|]. split; [set_solver|done].
  - destruct (start_other t' b' w' idx' E) as [Hh Hbb]. destruct (v_io _ _ _ H _ _ _ _ E) as (y & st & Hfm & Hy & Hst).
    assert (Hi' : idx'.1.1 ∉ heads idx) by (apply Hh; unfold heads; set_solver).
    destruct (start_entries _ Hi') as (E1 & E2 & _).
    exists y, st. split; [apply (formatted_frame (drv s)); [done|intros i Hi; apply submitted_desc, Hh, Hi|by apply start_bufs|done|done]|].
    split; [done|]. apply (stage_other (A ++ fetched s) _ Q); [done| |done]. assert (idx'.1.1 <> idx.1.1) by (intros Eq; rewrite Eq in Hi'; by apply Hi', start_head). set_solver.
Qed.

Lemma start_owner i f : dfree d' !! i = Some f -> (f = false <-> exists t', owns s' t' i).
Proof.
  intros E. destruct (decide (i ∈ heads idx)) as [Hi|Hi].
  - rewrite (start_taken i Hi) in E. injection E as <-. split; [|done]. intros _. exists t. apply start_owns. by left.
  - destruct (start_entries i Hi) as (_ & _ & E'). rewrite E' in E. rewrite (v_owner _ _ _ H i f E). setoid_rewrite start_owns. naive_solver.
Qed.

Lemma start_one t1 t2 i : owns s' t1 i -> owns s' t2 i -> t1 = t2.
Proof.
  rewrite !start_owns. intros [[-> H1]|H1] [[-> H2]|H2]; [done| | |by apply (v_one _ _ _ H t1 t2 i)].
  - by destruct (free_not_owned s A Q t2 i H (Hfree i H1)).
  - by destruct (free_not_owned s A Q t1 i H (Hfree i H2)).
Qed.

Lemma start_inv : vinv s' (A ++ [idx.1.1]) Q.
Proof.
  assert (Hlen : length (desc d') = NUM /\ length (dfree d') = NUM /\ length (info d') = NUM /\ length (ops d') = NUM /\ dheld d' = [] /\
    queued (avail_ring d') (dev_idx s) (avail_idx d') (A ++ [idx.1.1]) /\ queued (used_ring d') (used_idx d') (dev_used_idx d') Q).
  { unfold d'. pose proof start_room. destruct idx as [[? ?] ?]. cbn. rewrite !length_insert. do 5 (split; [apply H || done|]).
    split; [apply queued_push; [apply H|done]|apply H]. }
  destruct Hlen as (L1 & L2 & L3 & L4 & L5 & L6 & L7). constructor; try done.
  - cbn. rewrite <- app_assoc. cbn [app]. rewrite <- Permutation_middle. apply start_nodup.
  - apply start_io.
  - cbn. intros i Hi. rewrite <- app_assoc in Hi. cbn [app] in Hi. destruct (decide (i = idx.1.1)) as [->|Hne].
    + exists t, b, w, idx.1.2, idx.2. rewrite list_lookup_insert_eq by (by eapply lookup_lt_Some). by destruct idx as [[? ?] ?].
    + destruct (v_head _ _ _ H i ltac:(set_solver)) as (t' & b' & w' & i1 & i2 & E). exists t', b', w', i1, i2.
      rewrite list_lookup_insert_ne; [done|]. intros ->. rewrite Ht in E. done.
  - cbn. intros t' b' w' E. apply threads_insert in E as [[-> E]|[Hne E]]; [done|].
    destruct (v_wait _ _ _ H t' b' w' E) as (y & Hy & Hyok). exists y. split; [|done]. rewrite start_bufs; [done|].
    intros ->. apply Hne. by apply (v_buf _ _ _ H t' t _ _ b E Ht).
  - apply start_owner.
  - apply start_one.
  - cbn. intros t1 t2 x1 x2 b' E1 E2 B1 B2. apply threads_insert in E1 as [[-> ->]|[N1 E1]]; apply threads_insert in E2 as [[-> ->]|[N2 E2]]; [done| | |].
    + by apply (v_buf _ _ _ H t t2 _ _ b' Ht E2).
    + by apply (v_buf _ _ _ H t1 t _ _ b' E1 Ht).
    + by apply (v_buf _ _ _ H t1 t2 x1 x2 b').
Qed.

(** Nothing has been done to the disk yet. *)
Lemma start_abs : abs s' = abs s.
Proof.
  unfold abs. cbn [media drv threads s']. f_equal. rewrite (abs_insert (drv s)).
  - apply list_insert_id. rewrite list_lookup_fmap, Ht. cbn [fmap option_fmap option_map abs_thread]. rewrite Hb.
    pose proof (submitted_formatted (drv s) b w idx x (v_desc _ _ _ H) (v_info _ _ _ H) (v_ops _ _ _ H) Hn start_lt Hb) as Hfm. fold d' in Hfm.
    by rewrite (fm_buf _ _ _ _ _ _ Hfm), (fm_info _ _ _ _ _ _ Hfm).
  - intros t' y E Hne. apply abs_thread_eq.
    + intros b' Hb'. apply start_bufs. intros ->. apply Hne. by apply (v_buf _ _ _ H t' t _ _ b E Ht Hb').
    + intros b' w' idx' ->. apply start_entries. destruct (start_other t' b' w' idx' E) as [Hh _]. apply Hh. unfold heads. set_solver.
Qed.
End Start.

(** ** Ending a request *)
Section Finish.
Context (s : sys) (A Q : list nat) (t b : nat) (w : bool) (idx : nat * nat * nat) (x : dbuf).
Hypothesis (H : vinv s A Q) (Ht : threads s !! t = Some (TWaitIO b w idx)).
Hypothesis (Hfm : formatted (drv s) b w idx x 0) (Hout : idx.1.1 ∉ A ++ fetched s ++ Q).

Let d' := finished (drv s) idx 0.
Let s' := mksys d' (media s) (dev_idx s) (fetched s) (<[t := TIdle]> (threads s)).

Lemma finish_entries i : i ∉ heads idx ->
  info d' !! i = info (drv s) !! i /\ desc d' !! i = desc (drv s) !! i /\ dfree d' !! i = dfree (drv s) !! i.
Proof. intros Hi. unfold d'. destruct idx as [[? ?] ?]. cbn in *. rewrite !list_lookup_insert_ne by set_solver. done. Qed.

Lemma finish_rest : bufs d' = bufs (drv s) /\ ops d' = ops (drv s) /\ used_ring d' = used_ring (drv s) /\ avail_ring d' = avail_ring (drv s) /\
  avail_idx d' = avail_idx (drv s) /\ used_idx d' = used_idx (drv s) /\ dev_used_idx d' = dev_used_idx (drv s) /\ dheld d' = [].
Proof. unfold d'. by destruct idx as [[? ?] ?]. Qed.

Lemma finish_freed i : i ∈ heads idx -> dfree d' !! i = Some true.
Proof.
  intros Hi. assert (Hlt := heads_lt _ _ _ _ _ _ i (v_desc _ _ _ H) Hfm Hi). rewrite <- (v_free _ _ _ H) in Hlt. unfold d', heads in *. destruct idx as [[i0 i1] i2]. cbn in *.
  destruct (decide (i2 = i)) as [->|N2]; [apply list_lookup_insert_eq; by rewrite !length_insert|rewrite list_lookup_insert_ne by done].
  destruct (decide (i1 = i)) as [->|N1]; [apply list_lookup_insert_eq; by rewrite !length_insert|rewrite list_lookup_insert_ne by done].
  destruct (decide (i0 = i)) as [->|N0]; [by apply list_lookup_insert_eq|set_solver].
Qed.

Lemma finish_thread t' y : threads s' !! t' = Some y -> y <> TIdle -> t' <> t /\ threads s !! t' = Some y.
Proof. intros E Hy. apply threads_insert in E as [[_ ->]|E]; done. Qed.

Lemma finish_owns t' i : owns s' t' i <-> t' <> t /\ owns s t' i.
Proof.
  split.
  - intros (b' & w' & idx' & E & Hi). apply finish_thread in E as [Hne E]; [|done]. split; [done|]. by exists b', w', idx'.
  - intros (Hne & b' & w' & idx' & E & Hi). exists b', w', idx'. cbn. by rewrite list_lookup_insert_ne.
Qed.

Lemma finish_others t' b' w' idx' : t' <> t -> threads s !! t' = Some (TWaitIO b' w' idx') -> forall i, i ∈ heads idx' -> i ∉ heads idx.
Proof. intros Hne E. by apply (other_heads s A Q t' t b' b w' w idx' idx H Hne E Ht). Qed.

Lemma finish_inv : vinv s' A Q.
Proof.
  destruct finish_rest as (R1 & R2 & R3 & R4 & R5 & R6 & R7 & R8).
  assert (L : length (desc d') = NUM /\ length (dfree d') = NUM /\ length (info d') = NUM)
    by (unfold d'; destruct idx as [[? ?] ?]; cbn; rewrite !length_insert; split_and!; apply H). destruct L as (L1 & L2 & L3).
  constructor; cbn [drv threads fetched dev_idx s']; try done; rewrite ?R1, ?R2, ?R3, ?R4, ?R5, ?R6, ?R7; try apply H.
  - intros t' b' w' idx' E. apply finish_thread in E as [Hne E]; [|done]. destruct (v_io _ _ _ H _ _ _ _ E) as (y & st & Hf & Hy & Hst).
    pose proof (finish_others t' b' w' idx' Hne E) as Ho. exists y, st. split; [|done].
    apply (formatted_frame (drv s)); [done|intros i Hi; by apply finish_entries, Ho|by rewrite R1|by rewrite R2|apply finish_entries, Ho; unfold heads; set_solver].
  - intros i Hi. destruct (v_head _ _ _ H i Hi) as (t' & b' & w' & i1 & i2 & E). exists t', b', w', i1, i2.
    rewrite list_lookup_insert_ne; [done|]. intros ->. rewrite Ht in E. injection E as -> -> ->. done.
  - intros t' b' w' E. apply finish_thread in E as [Hne E]; [|done]. by apply (v_wait _ _ _ H t' b' w').
  - intros i f E. change (dfree d' !! i = Some f) in E. destruct (decide (i ∈ heads idx)) as [Hi|Hi].
    + rewrite (finish_freed i Hi) in E. injection E as <-. split; [done|]. intros [t' Ho]. apply finish_owns in Ho as [Hne Ho].
      destruct Hne. apply (v_one _ _ _ H t' t i Ho). by exists b, w, idx.
    + destruct (finish_entries i Hi) as (_ & _ & E'). rewrite E' in E. rewrite (v_owner _ _ _ H i f E). setoid_rewrite finish_owns.
      split; [|naive_solver]. intros [t' Ho]. exists t'. split; [|done]. intros ->. destruct Ho as (b' & w' & idx' & E1 & Hi').
      rewrite Ht in E1. injection E1 as -> -> ->. done.
  - intros t1 t2 i H1 H2. apply finish_owns in H1 as [_ H1]. apply finish_owns in H2 as [_ H2]. by apply (v_one _ _ _ H t1 t2 i).
  - intros t1 t2 x1 x2 b' E1 E2 B1 B2. apply finish_thread in E1 as [_ E1]; [|by intros ->]. apply finish_thread in E2 as [_ E2]; [|by intros ->].
    by apply (v_buf _ _ _ H t1 t2 x1 x2 b').
Qed.

Lemma finish_abs : astep (abs s) (abs s').
Proof.
  unfold abs at 2. cbn [media drv threads s']. rewrite (abs_insert (drv s)).
  - apply (AReturn (abs s) t w (dblockno x) (ddata x)). cbn [abs athreads]. rewrite list_lookup_fmap, Ht. cbn [fmap option_fmap option_map abs_thread].
    by rewrite (fm_buf _ _ _ _ _ _ Hfm), (fm_info _ _ _ _ _ _ Hfm).
  - intros t' y E Hne. destruct finish_rest as (R1 & _). apply abs_thread_eq; [by rewrite R1|].
    intros b' w' idx' ->. apply finish_entries, (finish_others t' b' w' idx' Hne E). unfold heads. set_solver.
Qed.
End Finish.

(** ** The device *)
Lemma step_fetch s A Q i : vinv s A Q -> dev_idx s <> avail_idx (drv s) -> avail_ring (drv s) !! vslot (dev_idx s) = Some i ->
  exists A', A = i :: A' /\ vinv (mksys (drv s) (media s) (u16 (dev_idx s + 1)) (fetched s ++ [i]) (threads s)) A' Q.
Proof.
  intros H Hne Hi. destruct A as [|j A]; [by destruct Hne; apply (queued_empty _ _ _ _ (v_avail _ _ _ H))|].
  destruct (queued_pop _ _ _ _ _ (v_avail _ _ _ H)) as [Hj Hq]. rewrite Hj in Hi. injection Hi as ->. exists A. split; [done|].
  assert (Hp : A ++ (fetched s ++ [i]) ++ Q ≡ₚ (i :: A) ++ fetched s ++ Q) by solve_Permutation.
  apply (vinv_same_io s _ (i :: A) Q); cbn; try apply H; try done.
  - rewrite Hp. apply H.
  - intros k Hk. by rewrite Hp in Hk.
  - intros t b w idx E. destruct (v_io _ _ _ H t b w idx E) as (x & st & Hfm & Hb & Hst). exists x, st. split; [done|]. split; [done|].
    apply (stage_other ((i :: A) ++ fetched s) _ Q); [done| |done]. set_solver.
Qed.

Section Complete.
Context (s : sys) (A Q F F' : list nat) (t b : nat) (w : bool) (idx : nat * nat * nat) (x : dbuf) (data : list Z) (m : Z -> Z).
Hypothesis (H : vinv s A Q) (Ht : threads s !! t = Some (TWaitIO b w idx)) (HF : fetched s = F ++ idx.1.1 :: F').
Hypothesis (Hfm : formatted (drv s) b w idx x 255) (Hx : buf_ok x) (Hdata : length data = Z.to_nat BSIZE).

Let bs := <[b := mkdbuf (dblockno x) data 1]> (bufs (drv s)).
Let d' := completed (drv s) idx.1.1 b bs.
Let s' := mksys d' m (dev_idx s) (F ++ F') (threads s).

Lemma complete_perm : A ++ fetched s ++ Q ≡ₚ A ++ (F ++ F') ++ (Q ++ [idx.1.1]).
Proof. rewrite HF. solve_Permutation. Qed.

Lemma complete_others t' b' w' idx' : t' <> t -> threads s !! t' = Some (TWaitIO b' w' idx') -> idx'.1.1 <> idx.1.1 /\ b' <> b.
Proof.
  intros Hne E. destruct (other_heads s A Q t' t b' b w' w idx' idx H Hne E Ht) as [Ho Hb]. split; [|done].
  intros Eq. apply (Ho idx'.1.1); unfold heads; [set_solver|rewrite Eq; set_solver].
Qed.

Lemma complete_buf : bufs d' !! b = Some (mkdbuf (dblockno x) data 1).
Proof. cbn. apply list_lookup_insert_eq. eapply lookup_lt_Some, (fm_buf _ _ _ _ _ _ Hfm). Qed.

Lemma complete_info : info d' !! idx.1.1 = Some (mkinfo (Some b) 0).
Proof. cbn. apply list_lookup_insert_eq. eapply lookup_lt_Some, (fm_info _ _ _ _ _ _ Hfm). Qed.

Lemma complete_inv : vinv s' A (Q ++ [idx.1.1]).
Proof.
  pose proof (v_nodup _ _ _ H) as Hn. rewrite complete_perm in Hn.
  assert (Hl : (length (A ++ (F ++ F') ++ (Q ++ [idx.1.1])) <= NUM)%nat)
    by (apply short_list; [done|]; intros i Hi; rewrite <- complete_perm in Hi; by apply (head_lt s A Q)).
  apply (vinv_same_io s _ A Q); cbn; rewrite ?length_insert; try apply H; try done.
  - apply queued_push; [apply H|]. rewrite !length_app in Hl. cbn in Hl. lia.
  - intros i Hi. by rewrite complete_perm.
  - intros t' b' w' idx' E. destruct (decide (t' = t)) as [->|Hne].
    + rewrite Ht in E. injection E as <- <- <-. exists (mkdbuf (dblockno x) data 1), 0. split; [|split; [by split; [|apply Hx]|]].
      * destruct Hfm as [G1 G2 G3 G4 G5 G6 G7]. constructor; [exact G1|apply complete_buf|exact G3|exact G4|exact G5|exact G6|apply complete_info].
      * right. left. rewrite app_assoc in Hn. apply NoDup_app in Hn as (_ & Hn & _). split; [|split; [set_solver|done]].
        intros Hin. apply (Hn _ Hin). set_solver.
    + destruct (complete_others t' b' w' idx' Hne E) as [N1 N2]. destruct (v_io _ _ _ H _ _ _ _ E) as (y & st & Hf & Hy & Hst).
      exists y, st. split; [|split; [done|]].
      * apply (formatted_frame (drv s)); [done|done| |done|]; unfold d', bs; cbn; by rewrite list_lookup_insert_ne.
      * apply (stage_other (A ++ fetched s) _ Q); [done|rewrite HF; set_solver|set_solver].
  - intros t' b' w' E. destruct (v_wait _ _ _ H t' b' w' E) as (y & Hy & Hyok). exists y. split; [|done]. unfold bs. rewrite list_lookup_insert_ne; [done|].
    intros <-. assert (t = t') as <- by (by apply (v_buf _ _ _ H t t' _ _ b Ht E)). rewrite Ht in E. done.
Qed.

Lemma complete_abs : abs_thread d' <$> threads s = <[t := ADone w (dblockno x) data]> (abs_thread (drv s) <$> threads s).
Proof.
  rewrite <- (list_insert_id (threads s) t (TWaitIO b w idx) Ht) at 1. rewrite (abs_insert (drv s)).
  - f_equal. cbn [abs_thread]. by rewrite complete_buf, complete_info.
  - intros t' y E Hne. apply abs_thread_eq.
    + intros b' Hb'. unfold d', bs. cbn. rewrite list_lookup_insert_ne; [done|]. intros <-. apply Hne. by apply (v_buf _ _ _ H t' t _ _ b E Ht Hb').
    + intros b' w' idx' ->. destruct (complete_others t' b' w' idx' Hne E) as [N _]. unfold d'. cbn. by rewrite list_lookup_insert_ne.
Qed.

Lemma complete_pending : athreads (abs s) !! t = Some (APending w (dblockno x) (ddata x)).
Proof.
  cbn [abs athreads]. rewrite list_lookup_fmap, Ht. cbn [fmap option_fmap option_map abs_thread].
  by rewrite (fm_buf _ _ _ _ _ _ Hfm), (fm_info _ _ _ _ _ _ Hfm).
Qed.
End Complete.

(** The device can complete every request it has fetched. *)
Lemma complete_ok s A Q F i F' : vinv s A Q -> fetched s = F ++ i :: F' ->
  exists d m, device_do i (drv s) (media s) = Some (d, m) /\ good s (mksys d m (dev_idx s) (F ++ F') (threads s)) /\
    vinv (mksys d m (dev_idx s) (F ++ F') (threads s)) A (Q ++ [i]).
Proof.
  intros H HF. destruct (v_head _ _ _ H i) as (t & b & w & i1 & i2 & Ht); [rewrite HF; set_solver|].
  destruct (v_io _ _ _ H _ _ _ _ Ht) as (x & st & Hfm & Hx & Hst). cbn [fst] in Hst.
  assert (Hst' : st = 255 /\ in_disk x = 1).
  { destruct Hst as [(_ & _ & ? & ?)|[(N & _)|(N & _)]]; [done| |]; destruct N; rewrite HF; set_solver. }
  destruct Hst' as [-> Hdk]. set (idx := (i, i1, i2)) in *. change i with idx.1.1 in HF |- *.
  assert (Eb : <[b := mkdbuf (dblockno x) (ddata x) 1]> (bufs (drv s)) = bufs (drv s)).
  { apply list_insert_id. rewrite <- Hdk. destruct x. apply (fm_buf _ _ _ _ _ _ Hfm). }
  destruct w.
  - eexists _, _. split; [apply (device_writes _ _ _ _ _ _ Hfm Hx)|].
    pose proof (complete_inv s A Q F F' t b true idx x (ddata x) (overwrite (media s) (dblockno x * BSIZE) (ddata x)) H Ht HF Hfm Hx (proj1 Hx)) as Hinv.
    pose proof (complete_abs s A Q F F' t b true idx x (ddata x) H Ht HF Hfm Hx (proj1 Hx)) as Ha.
    rewrite Eb in Hinv, Ha. split; [|exact Hinv]. split; [by do 2 eexists|left].
    unfold abs at 2. cbn [drv media threads]. rewrite Ha.
    apply (AWrite (abs s) t (dblockno x) (ddata x)); [by apply (complete_pending s t b true idx x Ht Hfm)|].
    intros n Hn. cbn [abs ablocks]. by apply blocks_overwrite; [apply Hx|apply Hx|].
  - set (got := bytes_at (media s) (dblockno x * BSIZE) (Z.to_nat BSIZE)). eexists _, _. split; [apply (device_reads _ _ _ _ _ _ Hfm Hx)|].
    rewrite Hdk. fold got. pose proof (complete_inv s A Q F F' t b false idx x got (media s) H Ht HF Hfm Hx (length_bytes_at _ _ _)) as Hinv.
    pose proof (complete_abs s A Q F F' t b false idx x got H Ht HF Hfm Hx (length_bytes_at _ _ _)) as Ha.
    split; [|exact Hinv]. split; [by do 2 eexists|left]. unfold abs at 2. cbn [drv media threads]. rewrite Ha.
    apply (ARead (abs s) t (dblockno x) (ddata x)). by apply (complete_pending s t b false idx x Ht Hfm).
Qed.

(** ** Interrupts *)
Lemma clear_all_keeps y Q l b : (fun x => (dblockno x, ddata x)) <$> clear_all y Q l !! b = (fun x => (dblockno x, ddata x)) <$> l !! b.
Proof.
  revert l. induction Q as [|i Q IH]; intros l; [done|]. cbn [clear_all fold_left]. change (fold_left _ Q ?k) with (clear_all y Q k). rewrite IH.
  destruct (head_buf y i) as [b'|]; [|done]. rewrite clear_disk_lookup. destruct (l !! b) as [x|]; [|done]. cbn. by destruct (decide (b' = b)).
Qed.

Lemma abs_thread_clear d d' x : (forall b, (fun x => (dblockno x, ddata x)) <$> bufs d' !! b = (fun x => (dblockno x, ddata x)) <$> bufs d !! b) ->
  info d' = info d -> abs_thread d' x = abs_thread d x.
Proof.
  intros Hb Hi. destruct x as [|b w|b w idx]; cbn; [done| |]; specialize (Hb b);
    destruct (bufs d' !! b) as [y'|], (bufs d !! b) as [y|]; cbn in Hb; try done; injection Hb as E1 E2; by rewrite ?Hi, E1, E2.
Qed.

(** The thread of a head, and its buffer. *)
Lemma head_thread s A Q i : vinv s A Q -> i ∈ Q -> exists t b w idx x, threads s !! t = Some (TWaitIO b w idx) /\ idx.1.1 = i /\
  formatted (drv s) b w idx x 0 /\ in_disk x = 1.
Proof.
  intros H Hi. destruct (v_head _ _ _ H i ltac:(set_solver)) as (t & b & w & i1 & i2 & E). destruct (v_io _ _ _ H _ _ _ _ E) as (x & st & Hfm & Hx & Hst).
  cbn [fst] in Hst. destruct Hst as [(_ & N & _)|[(_ & _ & -> & Hd)|(_ & N & _)]]; [done| |done]. by exists t, b, w, (i, i1, i2), x.
Qed.

Lemma intr_ok s A Q mmio : vinv s A Q ->
  exists d, virtio_disk_intr mmio (drv s) = Ok tt d /\ vinv (mksys d (media s) (dev_idx s) (fetched s) (threads s)) A [] /\
    abs (mksys d (media s) (dev_idx s) (fetched s) (threads s)) = abs s.
Proof.
  intros H. destruct (intr_spec mmio Q (drv s) (v_held _ _ _ H) (v_used _ _ _ H)) as [regs E].
  { intros id Hid. destruct (head_thread s A Q id H Hid) as (t & b & w & idx & x & _ & <- & Hfm & _). exists b, x. split; apply Hfm. }
  eexists. split; [exact E|]. set (d := mkdisk _ _ _ _ _ _ _ _ _ _ _ _).
  assert (Hkeep : forall b, (forall id, id ∈ Q -> head_buf (info (drv s)) id <> Some b) -> bufs d !! b = bufs (drv s) !! b) by (intros b Hb; by apply clear_all_other).
  assert (Hhead : forall t x b, threads s !! t = Some x -> thread_buf x = Some b -> (forall w idx, x = TWaitIO b w idx -> idx.1.1 ∉ Q) ->
    forall id, id ∈ Q -> head_buf (info (drv s)) id <> Some b).
  { intros t x b Ht Hb Hx id Hid Hhb. destruct (head_thread s A Q id H Hid) as (t' & b' & w' & idx' & x' & Ht' & <- & Hfm & _).
    unfold head_buf in Hhb. rewrite (fm_info _ _ _ _ _ _ Hfm) in Hhb. injection Hhb as ->.
    assert (t' = t) as -> by (by apply (v_buf _ _ _ H t' t _ _ b Ht' Ht)). rewrite Ht in Ht'. injection Ht' as ->. by apply (Hx w' idx' eq_refl). }
  split; [|unfold abs; cbn [drv media threads]; f_equal; apply abs_same; intros t x Ht; apply abs_thread_clear; [intros b; apply clear_all_keeps|done]].
  assert (Hu : queued (used_ring (drv s)) (dev_used_idx (drv s)) (dev_used_idx (drv s)) []).
  { destruct (v_used _ _ _ H) as [U1 U2 U3 U4 U5]. constructor; [done| | |cbn; lia|done].
    - cbn. rewrite Z.add_0_r, U2. unfold u16. by rewrite Z.mod_mod.
    - rewrite U2. apply u16_range. }
  pose proof (v_nodup _ _ _ H) as Hn. rewrite app_assoc in Hn. apply NoDup_app in Hn as (Hn1 & Hn2 & Hn3).
  apply (vinv_same_io s _ A Q); try apply H; try done; cbn [drv threads fetched dev_idx].
  - by rewrite app_nil_r.
  - intros i. rewrite app_nil_r. set_solver.
  - intros t b w idx Ht. destruct (v_io _ _ _ H _ _ _ _ Ht) as (x & st & Hfm & Hx & Hst). destruct (decide (idx.1.1 ∈ Q)) as [Hq|Hq].
    + exists (mkdbuf (dblockno x) (ddata x) 0), st. split; [|split; [exact Hx|]].
      * destruct Hfm as [G1 G2 G3 G4 G5 G6 G7]. constructor; try done. apply (clear_all_in _ _ _ _ _ idx.1.1); [done| |done]. unfold head_buf. by rewrite G7.
      * right. right. destruct Hst as [(_ & N & _)|[(N & _ & -> & _)|(_ & N & _)]]; [done| |done]. split; [done|]. split; [set_solver|done].
    + exists x, st. split; [|split; [done|]].
      * apply (formatted_frame (drv s)); try done. apply Hkeep. apply (Hhead t _ b Ht eq_refl). intros w' idx' [= <- <-]. done.
      * unfold stage in *. destruct Hst as [(? & ? & ?)|[(_ & N & _)|(? & ? & ?)]]; [left|done|right; right]; (split; [done|]; split; [set_solver|done]).
  - intros t b w Ht. destruct (v_wait _ _ _ H t b w Ht) as (x & Hx & Hxok). exists x. split; [|done]. rewrite Hkeep; [done|].
    by apply (Hhead t _ b Ht eq_refl).
Qed.

(** ** Every piece of code returns *)
Lemma run_ok s A Q t b w : vinv s A Q -> threads s !! t = Some (TWaitDesc b w) ->
  exists r d, virtio_disk_rw b w (drv s) = Ok r d /\ good s (mksys d (media s) (dev_idx s) (fetched s) (<[t := after b w r]> (threads s))) /\
    ((forall i f, dfree (drv s) !! i = Some f -> f = true) -> exists idx, r = InFlight idx).
Proof.
  intros H Ht. destruct (v_wait _ _ _ H t b w Ht) as (x & Hx & Hok).
  destruct (rw_spec (drv s) b w x (v_held _ _ _ H) (v_free _ _ _ H) (v_desc _ _ _ H) (v_info _ _ _ H) Hx (proj2 Hok)) as [(d' & i & j & E & S & Hfew)|(idx & E & Hn & Hf)].
  - exists NeedDesc, d'. split; [done|]. split; [by apply (step_run_none s A Q)|]. intros Hall. exfalso.
    assert (Hk : forall k, (k < NUM)%nat -> k = i \/ k = j).
    { intros k Hk. destruct (lookup_lt_is_Some_2 (dfree (drv s)) k) as [f Hkf]; [by rewrite (v_free _ _ _ H)|]. apply Hfew. by rewrite Hkf, (Hall k f Hkf). }
    unfold NUM in Hk. pose proof (Hk 0%nat ltac:(lia)). pose proof (Hk 1%nat ltac:(lia)). pose proof (Hk 2%nat ltac:(lia)). lia.
  - exists (InFlight idx), (submitted (drv s) b w idx x). split; [done|]. split; [|by eexists]. split.
    + exists (A ++ [idx.1.1]), Q. by apply start_inv.
    + right. by apply (start_abs s A Q).
Qed.

Lemma resume_ok s A Q t b w idx : vinv s A Q -> threads s !! t = Some (TWaitIO b w idx) ->
  exists r d, virtio_disk_rw_resume b idx (drv s) = Ok r d /\ good s (mksys d (media s) (dev_idx s) (fetched s) (<[t := after b w r]> (threads s))) /\
    (A = [] -> fetched s = [] -> Q = [] -> r = Returned /\ vinv (mksys d (media s) (dev_idx s) (fetched s) (<[t := TIdle]> (threads s))) A Q).
Proof.
  intros H Ht. destruct (v_io _ _ _ H _ _ _ _ Ht) as (x & st & Hfm & Hx & Hst).
  assert (Hfree : forall i, i ∈ heads idx -> dfree (drv s) !! i = Some false).
  { intros i Hi. pose proof (heads_lt _ _ _ _ _ _ i (v_desc _ _ _ H) Hfm Hi) as Hl. rewrite <- (v_free _ _ _ H) in Hl.
    destruct (lookup_lt_is_Some_2 _ _ Hl) as [f Hf]. rewrite Hf. f_equal. apply (v_owner _ _ _ H i f Hf). exists t. by exists b, w, idx. }
  destruct (decide (in_disk x = 1)) as [Hd|Hd].
  - exists (InFlight idx), (drv s). split; [by apply (resume_waits _ _ _ x (v_held _ _ _ H) (fm_buf _ _ _ _ _ _ Hfm))|].
    cbn [after]. rewrite list_insert_id by done. split; [split; [by exists A, Q; destruct s|right; by destruct s]|].
    intros -> HF ->. rewrite HF in Hst. unfold stage in Hst. destruct Hst as [(N & _)|[(_ & N & _)|(_ & _ & _ & E)]]; [set_solver|set_solver|]. rewrite E in Hd. done.
  - assert (Hs : st = 0 /\ idx.1.1 ∉ A ++ fetched s ++ Q).
    { unfold stage in Hst. destruct Hst as [(_ & _ & _ & E)|[(_ & _ & _ & E)|(N1 & N2 & -> & _)]]; [done|done|]. split; [done|]. rewrite app_assoc. set_solver. }
    destruct Hs as [-> Hout]. exists Returned, (finished (drv s) idx 0).
    split; [by apply (resume_finishes _ _ w _ x 0 (v_held _ _ _ H) (v_desc _ _ _ H) Hfm)|].
    assert (Hinv := finish_inv s A Q t b w idx x H Ht Hfm Hout). split; [|done].
    split; [by exists A, Q|left; by apply (finish_abs s A Q t b w idx x H Ht Hfm)].
Qed.

Lemma step_good s A Q s' : vinv s A Q -> vstep s s' -> good s s'.
Proof.
  intros H St. destruct St as [t b w blk data Ht Hb Hfr Hl Hblk|t b w r d Ht E|t b w idx r d Ht E|i Hne Hi|F i F' d m HF E|mmio d E].
  - by apply (step_call s A Q).
  - destruct (run_ok s A Q t b w H Ht) as (r' & d' & E' & Hg & _). rewrite E in E'. by injection E' as <- <-.
  - destruct (resume_ok s A Q t b w idx H Ht) as (r' & d' & E' & Hg & _). rewrite E in E'. by injection E' as <- <-.
  - destruct (step_fetch s A Q i H Hne Hi) as (A' & -> & H'). split; [by exists A', Q|by right].
  - destruct (complete_ok s A Q F i F' H HF) as (d' & m' & E' & Hg & _). rewrite E in E'. by injection E' as <- <-.
  - destruct (intr_ok s A Q mmio H) as (d' & E' & H' & Ha). rewrite E in E'. injection E' as <-. split; [by exists A, []|by right].
Qed.

(** ** From initialisation on *)
Definition log_write (r v : Z) (d : disk) : disk :=
  mkdisk (desc d) (avail_ring d) (avail_idx d) (used_ring d) (dev_used_idx d) (dfree d) (used_idx d) (info d) (ops d) (bufs d) (mmio_writes d ++ [(r, u32 v)]) (dheld d).

Lemma write_reg_ok {B} r v (k : unit -> M disk B) d : bind (write_reg r v) k d = k tt (log_write r v d).
Proof. done. Qed.
Lemma modify_ok {B} f (k : unit -> M disk B) d : bind (modify f) k d = k tt (f d).
Proof. done. Qed.

(** Follow the initialisation through the branches that do not panic. *)
Ltac init_steps E :=
  repeat (match type of E with
  | bind (write_reg ?r ?v) ?k ?d = _ => rewrite (write_reg_ok r v k d) in E
  | bind (modify ?f) ?k ?d = _ => rewrite (modify_ok f k d) in E
  | (if ?c then panic _ else _) ?d = _ => destruct c; [discriminate E|]
  end; cbv beta zeta in E).

Lemma init_state mmio p1 p2 p3 d0 d : virtio_disk_init mmio p1 p2 p3 d0 = Ok tt d -> dheld d0 = [] ->
  desc d = replicate NUM (mkdesc Null 0 0 0) /\ dfree d = replicate NUM true /\ avail_ring d = replicate NUM 0%nat /\ avail_idx d = 0 /\
  used_ring d = replicate NUM 0%nat /\ dev_used_idx d = 0 /\ used_idx d = used_idx d0 /\ info d = info d0 /\ ops d = ops d0 /\ dheld d = [].
Proof.
  intros E Hh. unfold virtio_disk_init, initlock in E. cbv zeta in E. init_steps E. apply (f_equal (fun r => match r with Ok _ d => d | _ => d0 end)) in E.
  cbn [write_reg modify] in E. subst d. cbn. by rewrite Hh.
Qed.

Lemma start_state s : vstart s -> vinv s [] [] /\ Forall (fun x => x = TIdle) (threads s).
Proof.
  intros [mmio p1 p2 p3 d0 d m nt E Hh Hu Hi Ho]. pose proof (init_state _ _ _ _ _ _ E Hh) as Ed. rewrite Hu in Ed.
  destruct Ed as (E1 & E2 & E3 & E4 & E5 & E6 & E7 & E8 & E9 & E10). split; [|apply Forall_replicate; done].
  assert (Hidle : forall t x, replicate nt TIdle !! t = Some x -> x = TIdle) by (intros t x [-> _]%lookup_replicate; done).
  assert (Hq : forall z, 0 = z -> queued (replicate NUM 0%nat) 0 z []) by (intros z <-; constructor; [done|done|lia|cbn; lia|done]).
  constructor; cbn; rewrite ?E1, ?E2, ?E3, ?E4, ?E5, ?E6, ?E7, ?E8, ?E9, ?E10; try done; try (by apply Hq); try (by apply NoDup_nil_2).
  - intros t b w idx Et. by apply Hidle in Et.
  - intros i Hin. by apply elem_of_nil in Hin.
  - intros t b w Et. by apply Hidle in Et.
  - intros i f Ef. apply lookup_replicate in Ef as [-> _]. split; [done|]. intros (t & b & w & idx & Et & _). by apply Hidle in Et.
  - intros t t' i (b & w & idx & Et & _). by apply Hidle in Et.
  - intros t t' x x' b Et Et' Hb. apply Hidle in Et. subst. done.
Qed.

Lemma vsteps_inv s s' A Q : vinv s A Q -> rtc vstep s s' -> exists A' Q', vinv s' A' Q'.
Proof.
  intros H Hr. revert A Q H. induction Hr as [s|s s1 s2 Hs _ IH]; intros A Q H; [by exists A, Q|].
  destruct (step_good s A Q s1 H Hs) as [(A1 & Q1 & H1) _]. by apply (IH A1 Q1).
Qed.

Lemma reach_inv s : vreach s -> exists A Q, vinv s A Q.
Proof. intros (s0 & H0 & Hr). apply start_state in H0 as [H0 _]. by apply (vsteps_inv s0 s [] []). Qed.

(** ** Requests end *)






(** ** Theorems *)

(** C6.  The disk driver refines an atomic disk: in every interleaving of
    processes, the device and interrupts, each step is either invisible or the
    call, the single atomic effect (a write replaces exactly its block, a read
    delivers the contents of its block) or the return of one request.  So
    every request that returns has been performed exactly once, with its own
    block and buffer, however many are in progress. *)
Theorem virtio_refines s s' : vreach s -> vstep s s' -> astep (abs s) (abs s') \/ abs s' = abs s.
Proof. intros Hr Hs. destruct (reach_inv s Hr) as (A & Q & H). by apply (step_good s A Q). Qed.

(** The disk driver does not panic and does not wait for a lock: in every
    reachable state whatever a process in [virtio_disk_rw] does next returns
    or sleeps, the interrupt handler returns, and the device finds a
    well-formed request behind every head it has fetched. *)
Theorem virtio_no_panic s : vreach s ->
  (forall t b w, threads s !! t = Some (TWaitDesc b w) -> exists r d, virtio_disk_rw b w (drv s) = Ok r d) /\
  (forall t b w idx, threads s !! t = Some (TWaitIO b w idx) -> exists r d, virtio_disk_rw_resume b idx (drv s) = Ok r d) /\
  (forall mmio, exists d, virtio_disk_intr mmio (drv s) = Ok tt d) /\
  (forall i, i ∈ fetched s -> exists d m, device_do i (drv s) (media s) = Some (d, m)).
Proof.
  intros Hr. destruct (reach_inv s Hr) as (A & Q & H). split; [|split; [|split]].
  - intros t b w Ht. destruct (run_ok s A Q t b w H Ht) as (r & d & E & _). by exists r, d.
  - intros t b w idx Ht. destruct (resume_ok s A Q t b w idx H Ht) as (r & d & E & _). by exists r, d.
  - intros mmio. destruct (intr_ok s A Q mmio H) as (d & E & _). by exists d.
  - intros i Hi. apply list_elem_of_split in Hi as (F & F' & HF). destruct (complete_ok s A Q F i F' H HF) as (d & m & E & _). by exists d, m.
Qed.


(** ** A device with one process and one buffer *)
Module VirtioDemo.
Definition device_regs (r : Z) : Z :=
  if r =? VIRTIO_MMIO_MAGIC_VALUE then 0x74726976 else if r =? VIRTIO_MMIO_VERSION then 2 else if r =? VIRTIO_MMIO_DEVICE_ID then 2
  else if r =? VIRTIO_MMIO_VENDOR_ID then 0x554d4551 else if r =? VIRTIO_MMIO_STATUS then 11 else if r =? VIRTIO_MMIO_QUEUE_NUM_MAX then 1024 else 0.
Definition off : disk :=
  mkdisk [] [] 0 [] 0 (replicate NUM false) 0 (replicate NUM (mkinfo None 0)) (replicate NUM (mkreq 0 0 0)) [mkdbuf 0 (replicate 1024 0) 0] [] [].

Lemma booted : exists s, vstart s /\ threads s = [TIdle] /\ length (bufs (drv s)) = 1%nat.
Proof.
  destruct (virtio_disk_init device_regs 0x87000000 0x87001000 0x87002000 off) as [[] d|m| |] eqn:E; try (vm_compute in E; discriminate E).
  exists (mksys d (fun _ => 0) 0 [] (replicate 1 TIdle)). split; [by apply (VStart device_regs 0x87000000 0x87001000 0x87002000 off)|]. split; [done|].
  vm_compute in E. by injection E as <-.
Qed.

(** The process is about to write block 5. *)
Lemma called : exists s s', vreach s /\ vstep s s' /\ threads s' !! 0%nat = Some (TWaitDesc 0 true).
Proof.
  destruct booted as (s & Hs & Ht & Hb). eexists s, _. split; [exists s; by split; [|apply rtc_refl]|]. split.
  - apply (SCall s 0 0 true 5 (replicate 1024 7)); [by rewrite Ht|rewrite Hb; lia| |done|lia].
    intros t' x. rewrite Ht. destruct t' as [|t']; [by intros [= <-]|done].
  - cbn. by rewrite Ht.
Qed.

Lemma called_reach : exists s, vreach s /\ threads s !! 0%nat = Some (TWaitDesc 0 true).
Proof.
  destruct called as (s & s' & (s0 & H0 & Hr) & Hs & Ht). exists s'. split; [|done]. exists s0. split; [done|]. by eapply rtc_r.
Qed.
End VirtioDemo.
Import VirtioDemo.

Lemma virtio_refines_witness : exists s s', vstep s s' /\ (astep (abs s) (abs s') \/ abs s' = abs s).
Proof. destruct called as (s & s' & Hr & Hs & _). exists s, s'. split; [exact Hs|]. exact (virtio_refines s s' Hr Hs). Defined.

Lemma virtio_no_panic_witness : exists s r d, virtio_disk_rw 0 true (drv s) = Ok r d.
Proof.
  destruct called_reach as (s & Hr & Ht). destruct (virtio_no_panic s Hr) as [H _]. destruct (H _ _ _ Ht) as (r & d & E). exists s, r, d. exact E.
Defined.

