(* ===== verification/Boot.v ===== *)
(** * kernel/riscv.h: registers of a hart

    The control and status registers and the general registers that the
    kernel's C code and kernelvec.S name, with the accessors of riscv.h.  Some
    supervisor registers are views of machine registers, as the privileged
    architecture defines: [sstatus] of [mstatus], [sie] and [sip] of [mie] and
    [mip] for the interrupts that are delegated.  Memory is doublewords. *)

From S2P Require Import Prelude Riscv.
Local Open Scope Z_scope.

Inductive reg :=
| MHARTID | MSTATUS | MEPC | MIE | MIP | MIDELEG | MEDELEG | MTVEC | MSCRATCH | MCOUNTEREN | PMPCFG0 | PMPADDR0
| SSTATUS | SIE | SIP | STVEC | SEPC | SCAUSE | STVAL | SATP | TIME
| TP | SP | RA | A0 | A1 | A2 | A3.
#[export] Instance reg_eq_dec : EqDecision reg.
Proof. solve_decision. Defined.

Inductive mode := User | Supervisor | Machine.
#[export] Instance mode_eq_dec : EqDecision mode.
Proof. solve_decision. Defined.

(** [tlb]: translations that the hart may have cached. *)
Record hart := mkhart { regs : reg -> Z; ram : Z -> Z; at_mode : mode; pc : Z; tlb : gset Z }.
Abbreviation HM := (M hart).

Definition set_reg (r : reg) (x : Z) (f : reg -> Z) : reg -> Z := fun q => if decide (q = r) then x else f q.
Definition with_regs (f : reg -> Z) (h : hart) : hart := mkhart f (ram h) (at_mode h) (pc h) (tlb h).

(** ** Views *)

(** The fields of [mstatus] that supervisor mode sees. *)
Definition SSTATUS_MASK : Z := 0x80000003000DE762.
(** The interrupts that can be delegated: supervisor software, timer and
    external. *)
Definition DELEGABLE : Z := 0x222.

(** The bits of [old] outside [mask], those of [x] inside. *)
Definition merge (old x mask : Z) : Z := Z.lor (Z.land old (Z.lnot mask)) (Z.land x mask).

Definition csr_read (f : reg -> Z) (r : reg) : Z :=
  match r with
  | SSTATUS => Z.land (f MSTATUS) SSTATUS_MASK
  | SIE => Z.land (f MIE) (f MIDELEG)
  | SIP => Z.land (f MIP) (f MIDELEG)
  | _ => f r
  end.
Definition csr_write (r : reg) (x : Z) (f : reg -> Z) : reg -> Z :=
  match r with
  | SSTATUS => set_reg MSTATUS (merge (f MSTATUS) x SSTATUS_MASK) f
  | SIE => set_reg MIE (merge (f MIE) x (f MIDELEG)) f
  | SIP => set_reg MIP (merge (f MIP) x (Z.land (f MIDELEG) 2)) f
  | MIDELEG => set_reg MIDELEG (Z.land x DELEGABLE) f
  | _ => set_reg r x f
  end.

Definition csrr (r : reg) : HM Z := gets (fun h => csr_read (regs h) r).
Definition csrw (r : reg) (x : Z) : HM unit := modify (fun h => with_regs (csr_write r (u64 x) (regs h)) h).

(** ** The accessors *)
Definition r_mhartid : HM Z := csrr MHARTID.

Definition MSTATUS_MPP_MASK : Z := Z.shiftl 3 11.
Definition MSTATUS_MPP_M : Z := Z.shiftl 3 11.
Definition MSTATUS_MPP_S : Z := Z.shiftl 1 11.
Definition MSTATUS_MPP_U : Z := Z.shiftl 0 11.
Definition MSTATUS_MIE : Z := Z.shiftl 1 3.
Definition r_mstatus : HM Z := csrr MSTATUS.
Definition w_mstatus (x : Z) : HM unit := csrw MSTATUS x.
Definition w_mepc (x : Z) : HM unit := csrw MEPC x.

Definition SSTATUS_UPIE : Z := Z.shiftl 1 4.
Definition SSTATUS_UIE : Z := Z.shiftl 1 0.
Definition r_sstatus : HM Z := csrr SSTATUS.
Definition w_sstatus (x : Z) : HM unit := csrw SSTATUS x.
Definition r_sip : HM Z := csrr SIP.
Definition w_sip (x : Z) : HM unit := csrw SIP x.

Definition SIE_SEIE : Z := Z.shiftl 1 9.
Definition SIE_STIE : Z := Z.shiftl 1 5.
Definition SIE_SSIE : Z := Z.shiftl 1 1.
Definition r_sie : HM Z := csrr SIE.
Definition w_sie (x : Z) : HM unit := csrw SIE x.

Definition MIE_MEIE : Z := Z.shiftl 1 11.
Definition MIE_MTIE : Z := Z.shiftl 1 7.
Definition MIE_MSIE : Z := Z.shiftl 1 3.
Definition r_mie : HM Z := csrr MIE.
Definition w_mie (x : Z) : HM unit := csrw MIE x.
Definition w_sepc (x : Z) : HM unit := csrw SEPC x.
Definition r_sepc : HM Z := csrr SEPC.
Definition r_medeleg : HM Z := csrr MEDELEG.
Definition w_medeleg (x : Z) : HM unit := csrw MEDELEG x.
Definition r_mideleg : HM Z := csrr MIDELEG.
Definition w_mideleg (x : Z) : HM unit := csrw MIDELEG x.
Definition w_stvec (x : Z) : HM unit := csrw STVEC x.
Definition r_stvec : HM Z := csrr STVEC.
Definition w_mtvec (x : Z) : HM unit := csrw MTVEC x.
Definition w_pmpcfg0 (x : Z) : HM unit := csrw PMPCFG0 x.
Definition w_pmpaddr0 (x : Z) : HM unit := csrw PMPADDR0 x.
Definition w_satp (x : Z) : HM unit := csrw SATP x.
Definition r_satp : HM Z := csrr SATP.
Definition w_mscratch (x : Z) : HM unit := csrw MSCRATCH x.
Definition r_scause : HM Z := csrr SCAUSE.
Definition r_stval : HM Z := csrr STVAL.
Definition w_mcounteren (x : Z) : HM unit := csrw MCOUNTEREN x.
Definition r_mcounteren : HM Z := csrr MCOUNTEREN.
Definition r_time : HM Z := csrr TIME.
Definition hart_intr_on : HM unit := do! x <- r_sstatus; w_sstatus (Z.lor x SSTATUS_SIE).
Definition hart_intr_off : HM unit := do! x <- r_sstatus; w_sstatus (Z.land x (Z.lnot SSTATUS_SIE)).
Definition hart_intr_get : HM bool := do! x <- r_sstatus; ret (hasbit x SSTATUS_SIE).
Definition r_sp : HM Z := csrr SP.
Definition r_tp : HM Z := csrr TP.
Definition w_tp (x : Z) : HM unit := csrw TP x.
Definition r_ra : HM Z := csrr RA.
Definition sfence_vma : HM unit := modify (fun h => mkhart (regs h) (ram h) (at_mode h) (pc h) ∅).

(** ** Memory, traps and returns *)
Definition load (a : Z) : HM Z := gets (fun h => ram h a).
Definition set_ram (a x : Z) (m : Z -> Z) : Z -> Z := fun b => if b =? a then u64 x else m b.
Definition store (a x : Z) : HM unit :=
  modify (fun h => mkhart (regs h) (set_ram a x (ram h)) (at_mode h) (pc h) (tlb h)).

Definition mode_code (m : mode) : Z := match m with User => 0 | Supervisor => 1 | Machine => 3 end.

(** [mret]: to the mode in [MPP] at [mepc]. *)
Definition mret : HM unit := fun h =>
  let s := regs h MSTATUS in
  let back m := Ok tt (mkhart (set_reg MSTATUS (merge s (Z.lor (Z.shiftl (Z.land (Z.shiftr s 7) 1) 3) (Z.shiftl 1 7))
                                                 (Z.lor (Z.lor MSTATUS_MPP_MASK (Z.shiftl 1 7)) MSTATUS_MIE)) (regs h))
                              (ram h) m (regs h MEPC) (tlb h)) in
  match Z.land (Z.shiftr s 11) 3 with
  | 0 => back User
  | 1 => back Supervisor
  | 3 => back Machine
  | _ => Undef
  end.

(** A trap to machine mode. *)
Definition trap_machine (h : hart) : hart :=
  let s := regs h MSTATUS in
  mkhart (set_reg MEPC (pc h) (set_reg MSTATUS (merge s (Z.lor (Z.shiftl (mode_code (at_mode h)) 11) (Z.shiftl (Z.land (Z.shiftr s 3) 1) 7))
                                                 (Z.lor (Z.lor MSTATUS_MPP_MASK (Z.shiftl 1 7)) MSTATUS_MIE)) (regs h)))
         (ram h) Machine (regs h MTVEC) (tlb h).

(** Which mode takes interrupt [i], if any. *)
Definition taken_by (h : hart) (i : Z) : option mode :=
  if negb (Z.testbit (regs h MIP) i && Z.testbit (regs h MIE) i) then None
  else if Z.testbit (regs h MIDELEG) i then
    match at_mode h with
    | User => Some Supervisor
    | Supervisor => if Z.testbit (regs h MSTATUS) 1 then Some Supervisor else None
    | Machine => None
    end
  else
    match at_mode h with
    | Machine => if Z.testbit (regs h MSTATUS) 3 then Some Machine else None
    | _ => Some Machine
    end.

(** ** Bits *)
Lemma set_reg_eq r x f : set_reg r x f r = x.
Proof. unfold set_reg. by rewrite decide_True. Qed.
Lemma set_reg_ne r x f q : q <> r -> set_reg r x f q = f q.
Proof. intros H. unfold set_reg. by rewrite decide_False. Qed.

Lemma set_ram_eq a x m : set_ram a x m a = u64 x.
Proof. unfold set_ram. by rewrite Z.eqb_refl. Qed.
Lemma set_ram_ne a x m b : b <> a -> set_ram a x m b = m b.
Proof. intros H. unfold set_ram. by rewrite (proj2 (Z.eqb_neq b a)). Qed.

(** The two bits of [MPP]. *)
Lemma mpp_bits s : Z.land (Z.shiftr s 11) 3 = Z.b2z (Z.testbit s 11) + 2 * Z.b2z (Z.testbit s 12).
Proof.
  change 3 with (Z.ones 2). rewrite Z.land_ones by lia. change (2 ^ 2) with (2 * 2). rewrite Z.rem_mul_r by lia.
  rewrite <- !Z.bit0_mod. change 2 with (2 ^ 1) at 2. rewrite <- Z.shiftr_div_pow2 by lia. by rewrite !Z.shiftr_spec by lia.
Qed.

Lemma merge_bit old x mask i : Z.testbit (merge old x mask) i = if Z.testbit mask i then Z.testbit x i else Z.testbit old i.
Proof.
  destruct (Z.ltb_spec i 0); [by rewrite !Z.testbit_neg_r; [destruct (Z.testbit mask i)|done..]|].
  unfold merge. rewrite Z.lor_spec, !Z.land_spec, Z.lnot_spec by lia. by destruct (Z.testbit mask i), (Z.testbit old i), (Z.testbit x i).
Qed.

(** What [mret] and a trap to machine mode change of [mstatus]. *)
Definition TRAP_MASK : Z := Z.lor (Z.lor MSTATUS_MPP_MASK (Z.shiftl 1 7)) MSTATUS_MIE.

Lemma merge_trap s x : Z.land (merge s x TRAP_MASK) SSTATUS_MASK = Z.land s SSTATUS_MASK.
Proof.
  apply Z.bits_inj'. intros i Hi. rewrite !Z.land_spec, merge_bit. destruct (Z.testbit TRAP_MASK i) eqn:E1; [|done].
  destruct (Z.testbit SSTATUS_MASK i) eqn:E2; [|by rewrite !andb_false_r].
  assert (E : Z.testbit (Z.land TRAP_MASK SSTATUS_MASK) i = true) by (by rewrite Z.land_spec, E1, E2). by rewrite Z.bits_0 in E.
Qed.

(** [mret] goes to the mode in [MPP] and leaves user mode there. *)
Lemma mret_eq h m : Z.land (Z.shiftr (regs h MSTATUS) 11) 3 = mode_code m -> exists x,
  let h' := mkhart (set_reg MSTATUS (merge (regs h MSTATUS) x TRAP_MASK) (regs h)) (ram h) m (regs h MEPC) (tlb h) in
  mret h = Ok tt h' /\ Z.land (Z.shiftr (regs h' MSTATUS) 11) 3 = mode_code User.
Proof.
  intros E. eexists. cbn zeta. split; [unfold mret; rewrite E; destruct m; reflexivity|].
  cbn [regs]. rewrite set_reg_eq, mpp_bits, !merge_bit, !Z.lor_spec, !Z.shiftl_spec, !Z.land_spec by done.
  change (Z.testbit 1 (11 - 3)) with false. change (Z.testbit 1 (12 - 3)) with false. by rewrite !andb_false_r.
Qed.

Lemma trap_machine_mpp h : Z.land (Z.shiftr (regs (trap_machine h) MSTATUS) 11) 3 = mode_code (at_mode h).
Proof.
  unfold trap_machine. cbn [regs]. rewrite set_reg_ne, set_reg_eq, mpp_bits, !merge_bit, !Z.lor_spec, !Z.shiftl_spec by done.
  change (11 - 11) with 0. change (12 - 11) with 1. rewrite !Z.land_spec. change (Z.testbit 1 (11 - 7)) with false. change (Z.testbit 1 (12 - 7)) with false.
  rewrite !andb_false_r, !orb_false_r. by destruct (at_mode h).
Qed.

Lemma u64_bit x i : 0 <= i < 64 -> Z.testbit (u64 x) i = Z.testbit x i.
Proof. intros H. unfold u64. apply Z.mod_pow2_bits_low. lia. Qed.

(** The interrupt flag of a hart is the one that [push_off] and [pop_off] in
    [Spinlock.v] keep. *)
Lemma hart_intr_get_eq h : hart_intr_get h = Ok (Z.testbit (regs h MSTATUS) 1) h.
Proof.
  unfold hart_intr_get, r_sstatus, csrr, bind, gets, ret. cbn [csr_read]. do 2 f_equal. unfold SSTATUS_SIE. rewrite Z.shiftl_1_l, hasbit_pow2 by done.
  rewrite Z.land_spec. by rewrite andb_true_r.
Qed.

Lemma hart_intr_on_eq h : exists f, hart_intr_on h = Ok tt (with_regs f h) /\ Z.testbit (f MSTATUS) 1 = true /\
  (forall r, r <> MSTATUS -> f r = regs h r) /\ forall i, 0 <= i < 64 -> i <> 1 -> Z.testbit (f MSTATUS) i = Z.testbit (regs h MSTATUS) i.
Proof.
  eexists. split; [reflexivity|]. cbn [csr_write csr_read]. rewrite set_reg_eq, merge_bit. split; [|split].
  - rewrite u64_bit, Z.lor_spec by lia. by rewrite orb_true_r.
  - intros r Hr. by apply set_reg_ne.
  - intros i Hi Hne. rewrite merge_bit, u64_bit, Z.lor_spec, Z.land_spec by lia. unfold SSTATUS_SIE. rewrite Z.shiftl_1_l, (Z.pow2_bits_false 1 i) by lia.
    destruct (Z.testbit SSTATUS_MASK i); by rewrite ?andb_true_r, ?orb_false_r.
Qed.

Lemma hart_intr_off_eq h : exists f, hart_intr_off h = Ok tt (with_regs f h) /\ Z.testbit (f MSTATUS) 1 = false /\
  (forall r, r <> MSTATUS -> f r = regs h r) /\ forall i, 0 <= i < 64 -> i <> 1 -> Z.testbit (f MSTATUS) i = Z.testbit (regs h MSTATUS) i.
Proof.
  eexists. split; [reflexivity|]. cbn [csr_write csr_read]. rewrite set_reg_eq, merge_bit. split; [|split].
  - rewrite u64_bit, Z.land_spec by lia. by rewrite andb_false_r.
  - intros r Hr. by apply set_reg_ne.
  - intros i Hi Hne. rewrite merge_bit, u64_bit, !Z.land_spec, Z.lnot_spec by lia. unfold SSTATUS_SIE. rewrite Z.shiftl_1_l, (Z.pow2_bits_false 1 i) by lia.
    destruct (Z.testbit SSTATUS_MASK i); by rewrite ?andb_true_r.
Qed.

(** * kernel/start.c, kernel/kernelvec.S: timervec

    What runs in machine mode: [start], on each hart after entry.S, and
    [timervec], at each timer interrupt.  The addresses that the linker gives
    to [main], [timervec] and [timer_scratch] are parameters. *)

(** ** kernel/memlayout.h: the core local interruptor *)
Definition CLINT : Z := 0x2000000.
Definition CLINT_MTIMECMP (hartid : Z) : Z := CLINT + 0x4000 + 8 * hartid.
Definition CLINT_MTIME : Z := CLINT + 0xBFF8.

(** Membership in a list of constants. *)
Ltac listed := apply (bool_decide_unpack _); vm_compute; exact I.

Section Start.
Variables main_addr timervec_addr timer_scratch : Z.

(** [&timer_scratch[id][0]] *)
Definition scratch (id : Z) : Z := timer_scratch + 40 * id.

Definition timerinit : HM unit :=
  do! hartid <- r_mhartid;
  let id := s32 hartid in
  let interval := 1000000 in
  do! now <- load CLINT_MTIME;
  store (CLINT_MTIMECMP id) (now + interval) ;;
  store (scratch id + 24) (CLINT_MTIMECMP id) ;;
  store (scratch id + 32) interval ;;
  w_mscratch (scratch id) ;;
  w_mtvec timervec_addr ;;
  do! x <- r_mstatus;
  w_mstatus (Z.lor x MSTATUS_MIE) ;;
  do! y <- r_mie;
  w_mie (Z.lor y MIE_MTIE).

(** [start] up to its [mret]. *)
Definition start_setup : HM unit :=
  do! x <- r_mstatus;
  w_mstatus (Z.lor (Z.land x (Z.lnot MSTATUS_MPP_MASK)) MSTATUS_MPP_S) ;;
  w_mepc main_addr ;;
  w_satp 0 ;;
  w_medeleg 0xffff ;;
  w_mideleg 0xffff ;;
  do! e <- r_sie;
  w_sie (Z.lor (Z.lor (Z.lor e SIE_SEIE) SIE_STIE) SIE_SSIE) ;;
  w_pmpaddr0 0x3fffffffffffff ;;
  w_pmpcfg0 0xf ;;
  timerinit ;;
  do! hartid <- r_mhartid;
  w_tp (s32 hartid).

Definition start : HM unit := start_setup ;; mret.

(** ** kernel/kernelvec.S *)

(** [csrrw r, csr, r], [sd r, off(base)], [ld r, off(base)] and
    [add r, r, q]. *)
Definition csrrw (r csr : reg) : HM unit := do! x <- csrr r; do! y <- csrr csr; csrw csr x ;; csrw r y.
Definition sd (r base : reg) (off : Z) : HM unit := do! b <- csrr base; do! x <- csrr r; store (b + off) x.
Definition ld (r base : reg) (off : Z) : HM unit := do! b <- csrr base; do! x <- load (b + off); csrw r x.
Definition add (r q : reg) : HM unit := do! x <- csrr r; do! y <- csrr q; csrw r (x + y).

(** Up to its [mret]. *)
Definition timervec_body : HM unit :=
  csrrw A0 MSCRATCH ;;
  sd A1 A0 0 ;;
  sd A2 A0 8 ;;
  sd A3 A0 16 ;;
  ld A1 A0 24 ;;
  ld A2 A0 32 ;;
  ld A3 A1 0 ;;
  add A3 A2 ;;
  sd A3 A1 0 ;;
  csrw A1 2 ;;
  do! x <- csrr A1;
  csrw SIP x ;;
  ld A3 A0 16 ;;
  ld A2 A0 8 ;;
  ld A1 A0 0 ;;
  csrrw A0 MSCRATCH.

Definition timervec : HM unit := timervec_body ;; mret.

(** ** Symbolic execution *)
Lemma ld_eq r base off f m a p t : ld r base off (mkhart f m a p t) = Ok tt (mkhart (csr_write r (u64 (m (csr_read f base + off))) f) m a p t).
Proof. reflexivity. Qed.
Lemma sd_eq r base off f m a p t : sd r base off (mkhart f m a p t) = Ok tt (mkhart f (set_ram (csr_read f base + off) (csr_read f r) m) a p t).
Proof. reflexivity. Qed.
Lemma csrw_eq r x f m a p t : csrw r x (mkhart f m a p t) = Ok tt (mkhart (csr_write r (u64 x) f) m a p t).
Proof. reflexivity. Qed.
Lemma csrr_eq r f m a p t : csrr r (mkhart f m a p t) = Ok (csr_read f r) (mkhart f m a p t).
Proof. reflexivity. Qed.
Lemma load_eq x f m a p t : load x (mkhart f m a p t) = Ok (m x) (mkhart f m a p t).
Proof. reflexivity. Qed.
Lemma store_eq x y f m a p t : store x y (mkhart f m a p t) = Ok tt (mkhart f (set_ram x y m) a p t).
Proof. reflexivity. Qed.
Lemma add_eq r q f m a p t : add r q (mkhart f m a p t) = Ok tt (mkhart (csr_write r (u64 (csr_read f r + csr_read f q)) f) m a p t).
Proof. reflexivity. Qed.

Ltac getreg := cbn [csr_read csr_write regs]; repeat first [rewrite set_reg_eq | rewrite set_reg_ne by discriminate].
Ltac machine := repeat (first [rewrite csrr_eq | rewrite csrw_eq | rewrite load_eq | rewrite store_eq]; cbn beta iota).

(** ** What the timer needs *)

(** The linker puts [timer_scratch] into the kernel's memory. *)
Definition linked : Prop := KERNBASE <= timer_scratch /\ timer_scratch + 320 <= PHYSTOP /\ 0 <= main_addr < 2 ^ 64 /\ 0 <= timervec_addr < 2 ^ 64.

(** Hart [id]'s machine mode is set up for timer interrupts. *)
Record timer_ready (id : Z) (h : hart) : Prop := {
  tr_scratch : regs h MSCRATCH = scratch id;
  tr_vector : regs h MTVEC = timervec_addr;
  tr_delegated : regs h MIDELEG = DELEGABLE;
  tr_enabled : Z.testbit (regs h MIE) 7 = true;
  tr_cmp : ram h (scratch id + 24) = CLINT_MTIMECMP id;
  tr_interval : ram h (scratch id + 32) = 1000000;
}.

(** The general registers that [timervec] uses hold 64-bit values. *)
Definition in_range (h : hart) : Prop := forall r, r ∈ [A0; A1; A2; A3] -> 0 <= regs h r < 2 ^ 64.

(** What the code below machine mode sees: registers, except that a software
    interrupt may be pending, mode and program counter. *)
Record same_view (h h' : hart) : Prop := {
  sv_regs : forall r, r ∉ [MSTATUS; MEPC; MIP] -> regs h' r = regs h r;
  sv_status : csr_read (regs h') SSTATUS = csr_read (regs h) SSTATUS;
  sv_pending : forall i, 0 <= i < 64 -> i <> 1 -> Z.testbit (regs h' MIP) i = Z.testbit (regs h MIP) i;
  sv_mode : at_mode h' = at_mode h;
  sv_pc : pc h' = pc h;
  sv_tlb : tlb h' = tlb h;
}.

Lemma timervec_runs id h : linked -> 0 <= id < NCPU -> timer_ready id h -> in_range h ->
  exists f m, timervec_body h = Ok tt (mkhart f m (at_mode h) (pc h) (tlb h)) /\ (forall r, r <> MIP -> f r = regs h r) /\
    f MIP = merge (regs h MIP) 2 2 /\ m (CLINT_MTIMECMP id) = u64 (ram h (CLINT_MTIMECMP id) + 1000000) /\
    forall a, a <> CLINT_MTIMECMP id -> a ∉ [scratch id; scratch id + 8; scratch id + 16] -> m a = ram h a.
Proof.
  intros (L1 & L2 & _) Hid [R1 R2 R3 R4 R5 R6] Hr. destruct h as [f m a p t]. cbn [regs ram at_mode pc tlb] in *.
  assert (HB : KERNBASE <= scratch id < PHYSTOP) by (unfold scratch; change NCPU with 8 in Hid; lia).
  assert (HC : 0 <= CLINT_MTIMECMP id < KERNBASE) by (unfold CLINT_MTIMECMP; change NCPU with 8 in Hid; change CLINT with 0x2000000; change KERNBASE with 0x80000000; lia).
  assert (V : forall r, r ∈ [A0; A1; A2; A3] -> u64 (f r) = f r) by (intros r Hi; apply u64_small, (Hr r Hi)).
  change PHYSTOP with (0x80000000 + 0x8000000) in HB. change KERNBASE with 0x80000000 in HB, HC.
  revert R1 R5 R6 HB HC. generalize (scratch id) as B, (CLINT_MTIMECMP id) as C. intros B C R1 R5 R6 HB HC.
  unfold timervec_body, csrrw, bind. machine. getreg. rewrite R1, (V A0), (u64_small B) by (lia || listed).
  do 3 (rewrite sd_eq; cbn beta iota; getreg). rewrite ld_eq. cbn beta iota. getreg. rewrite !set_ram_ne, R5 by lia.
  rewrite ld_eq. cbn beta iota. getreg. rewrite !set_ram_ne, R6 by lia.
  rewrite ld_eq. cbn beta iota. getreg. rewrite !(u64_small C), !set_ram_ne by lia. 
  rewrite add_eq. cbn beta iota. getreg. rewrite sd_eq. cbn beta iota. getreg. machine. getreg.
  rewrite R3.
  do 3 (rewrite ld_eq; cbn beta iota; getreg; rewrite ?Z.add_0_r; rewrite ?set_ram_ne, ?set_ram_eq by lia; rewrite ?(set_ram_ne _ _ _ B), ?set_ram_eq by lia).
  machine. getreg.
  eexists _, _. split; [reflexivity|]. rewrite !(V A0), !(V A1), !(V A2), !(V A3), (u64_small B) by (lia || listed). split; [|split; [|split]].
  - intros r Hm. destruct r; getreg; done || (apply V; listed).
  - by getreg.
  - rewrite set_ram_eq. unfold u64. by rewrite Z.mod_mod, <- Z.add_mod.
  - intros x Hx Hs. rewrite !not_elem_of_cons in Hs. by rewrite !set_ram_ne by tauto.
Qed.

(** A timer interrupt below machine mode: what the interrupted code sees stays
    as it was, the next interrupt is an interval later, and a software
    interrupt is pending for supervisor mode. *)
Record ticked (id : Z) (h h' : hart) : Prop := {
  tk_view : same_view h h';
  tk_next : ram h' (CLINT_MTIMECMP id) = u64 (ram h (CLINT_MTIMECMP id) + 1000000);
  tk_memory : forall a, a <> CLINT_MTIMECMP id -> a ∉ [scratch id; scratch id + 8; scratch id + 16] -> ram h' a = ram h a;
  tk_software : Z.testbit (regs h' MIP) 1 = true;
}.

Lemma timervec_ticks id h : linked -> 0 <= id < NCPU -> timer_ready id h -> in_range h ->
  exists h', timervec (trap_machine h) = Ok tt h' /\ ticked id h h'.
Proof.
  intros HL Hid [R1 R2 R3 R4 R5 R6] Hr.
  assert (K : forall r, r <> MSTATUS -> r <> MEPC -> regs (trap_machine h) r = regs h r) by (intros r ? ?; unfold trap_machine; cbn [regs]; by rewrite !set_reg_ne).
  destruct (timervec_runs id (trap_machine h) HL Hid) as (f & m & E & Hf & HM & Hc & Hm).
  { split; try (rewrite K by done); done. }
  { intros r Hi. rewrite K by set_solver. by apply Hr. }
  destruct (mret_eq (mkhart f m (at_mode (trap_machine h)) (pc (trap_machine h)) (tlb (trap_machine h))) (at_mode h)) as (x & E2 & _).
  { cbn [regs]. rewrite Hf by done. apply trap_machine_mpp. }
  eexists. unfold timervec, bind. rewrite E. split; [exact E2|]. cbn [regs ram tlb] in *. split; [split|..]; cbn [regs at_mode pc tlb].
  - intros r Hi. rewrite !not_elem_of_cons in Hi. rewrite set_reg_ne by tauto. rewrite Hf by tauto. apply K; tauto.
  - cbn [csr_read]. rewrite set_reg_eq, merge_trap, Hf by done. unfold trap_machine. cbn [regs]. getreg. apply merge_trap.
  - intros i Hi Hne. rewrite set_reg_ne, HM, merge_bit, K by done. replace (Z.testbit 2 i) with false; [done|]. symmetry. apply (Z.pow2_bits_false 1 i). lia.
  - done.
  - rewrite Hf by done. unfold trap_machine. cbn [regs]. by getreg.
  - done.
  - exact Hc.
  - exact Hm.
  - rewrite set_reg_ne, HM, merge_bit by done. done.
Qed.

(** ** [start] *)

(** What [start] leaves to the kernel, apart from mode and program counter. *)
Record prepared (id : Z) (h h' : hart) : Prop := {
  st_tp : regs h' TP = id;
  st_satp : regs h' SATP = 0;
  st_exceptions : regs h' MEDELEG = 0xffff;
  st_enabled : forall i, i ∈ [1; 5; 9] -> Z.testbit (regs h' MIE) i = true;
  st_intr : Z.testbit (regs h' MSTATUS) 1 = Z.testbit (regs h MSTATUS) 1;
  st_pmp : regs h' PMPADDR0 = 2 ^ 54 - 1 /\ regs h' PMPCFG0 = 15;
  st_pending : regs h' MIP = regs h MIP;
  st_general : forall r, r ∈ [SP; RA; A0; A1; A2; A3] -> regs h' r = regs h r;
  st_ready : timer_ready id h';
  st_timer : ram h' (CLINT_MTIMECMP id) = u64 (ram h CLINT_MTIME + 1000000);
  st_memory : forall a, a ∉ [CLINT_MTIMECMP id; scratch id + 24; scratch id + 32] -> ram h' a = ram h a;
}.

(** The status word that [start] computes. *)
Lemma status_bits s i : 0 <= i < 64 ->
  Z.testbit (u64 (Z.lor (u64 (Z.lor (Z.land s (Z.lnot MSTATUS_MPP_MASK)) MSTATUS_MPP_S)) MSTATUS_MIE)) i =
  (Z.testbit s i && negb (Z.testbit MSTATUS_MPP_MASK i)) || Z.testbit MSTATUS_MPP_S i || Z.testbit MSTATUS_MIE i.
Proof. intros Hi. by rewrite u64_bit, Z.lor_spec, u64_bit, Z.lor_spec, Z.land_spec, Z.lnot_spec by lia. Qed.

(** The interrupt-enable word. *)
Lemma enable_bits e i : i ∈ [1; 5; 7; 9] ->
  Z.testbit (u64 (Z.lor (merge e (u64 (Z.lor (Z.lor (Z.lor (Z.land e DELEGABLE) SIE_SEIE) SIE_STIE) SIE_SSIE)) DELEGABLE) MIE_MTIE)) i = true.
Proof.
  intros Hi. assert (H : i = 1 \/ i = 5 \/ i = 7 \/ i = 9) by set_solver.
  rewrite u64_bit, Z.lor_spec, merge_bit, u64_bit, !Z.lor_spec by lia. destruct H as [->|[->|[->| ->]]]; cbn -[Z.land]; by rewrite ?orb_true_r.
Qed.

Lemma start_setup_ok id h : linked -> 0 <= id < NCPU -> regs h MHARTID = id -> exists h1,
  start_setup h = Ok tt h1 /\ prepared id h h1 /\ regs h1 MEPC = main_addr /\ Z.land (Z.shiftr (regs h1 MSTATUS) 11) 3 = mode_code Supervisor /\ at_mode h1 = at_mode h /\
  Z.testbit (regs h1 MSTATUS) 3 = true.
Proof.
  intros (L1 & L2 & L3 & L4) Hid E. change NCPU with 8 in Hid. destruct h as [f m a p t]. cbn [regs ram at_mode pc tlb] in *.
  assert (HB : KERNBASE <= scratch id /\ scratch id + 40 <= PHYSTOP) by (unfold scratch; lia).
  assert (HC : 0 <= CLINT_MTIMECMP id < KERNBASE) by (unfold CLINT_MTIMECMP; change CLINT with 0x2000000; change KERNBASE with 0x80000000; lia).
  unfold start_setup, timerinit, bind, r_mhartid, r_mstatus, r_sie, r_mie, w_mstatus, w_mepc, w_satp, w_medeleg, w_mideleg, w_sie, w_pmpaddr0, w_pmpcfg0, w_mscratch, w_mtvec, w_mie, w_tp.
  machine. getreg. rewrite E, s32_small by lia. change (Z.land (u64 65535) DELEGABLE) with DELEGABLE.
  eexists. split; [reflexivity|]. change KERNBASE with 0x80000000 in HB, HC. change PHYSTOP with (0x80000000 + 0x8000000) in HB. split; [|split; [|split; [|split]]].
  - split; cbn [regs ram]; getreg; try reflexivity.
    + apply u64_small. lia.
    + intros i Hi. apply enable_bits. set_solver.
    + rewrite status_bits by lia. cbn. by rewrite andb_true_r, !orb_false_r.
    + by split.
    + intros r Hr. rewrite !set_reg_ne by (intros ->; set_solver). done.
    + split; cbn [regs ram]; getreg; try reflexivity.
      * apply u64_small. lia.
      * by apply u64_small.
      * apply enable_bits. set_solver.
      * rewrite set_ram_ne, set_ram_eq by lia. apply u64_small. lia.
      * by rewrite set_ram_eq.
    + by rewrite !set_ram_ne, set_ram_eq by lia.
    + intros x Hx. rewrite !not_elem_of_cons in Hx. by rewrite !set_ram_ne by tauto.
  - cbn [regs]. getreg. by apply u64_small.
  - cbn [regs]. getreg. rewrite mpp_bits, !status_bits by lia. by destruct (Z.testbit (f MSTATUS) 11), (Z.testbit (f MSTATUS) 12).
  - done.
  - cbn [regs]. getreg. rewrite status_bits by lia. by rewrite orb_true_r.
Qed.

Lemma start_returns id h : linked -> 0 <= id < NCPU -> regs h MHARTID = id -> exists h',
  start h = Ok tt h' /\ at_mode h' = Supervisor /\ pc h' = main_addr /\ prepared id h h'.
Proof.
  intros HL Hid E. destruct (start_setup_ok id h HL Hid E) as (h1 & E1 & P & Hp & Hm & _). destruct (mret_eq h1 Supervisor Hm) as (x & E2 & _).
  eexists. unfold start, bind. rewrite E1. split; [exact E2|]. split; [done|]. split; [exact Hp|]. destruct P as [? ? ? ? Hi ? ? ? R ? ?].
  split; cbn [regs ram]; try (rewrite set_reg_ne by discriminate); try done.
  - rewrite set_reg_eq, merge_bit. exact Hi.
  - intros r Hr. rewrite set_reg_ne by (intros ->; set_solver). auto.
  - destruct R. split; cbn [regs ram]; rewrite ?set_reg_ne by discriminate; done.
Qed.
(** ** Timer interrupts while the kernel runs *)

(** The registers that code below machine mode can write. *)
Definition supervisor_reg (r : reg) : bool :=
  match r with SSTATUS | SIE | SIP | STVEC | SEPC | SCAUSE | STVAL | SATP | TP | SP | RA | A0 | A1 | A2 | A3 => true | _ => false end.

(** What happens to a hart below machine mode: it writes a register or memory,
    continues elsewhere, maybe in the other mode, or flushes its translations;
    other harts and devices write memory; interrupts become pending or stop
    being so; and a timer interrupt is taken. *)
Inductive hstep (id : Z) : hart -> hart -> Prop :=
| step_csrw h r x : supervisor_reg r = true -> hstep id h (with_regs (csr_write r (u64 x) (regs h)) h)
| step_store h a x : a ∉ [scratch id + 24; scratch id + 32] -> hstep id h (mkhart (regs h) (set_ram a x (ram h)) (at_mode h) (pc h) (tlb h))
| step_jump h m p : m <> Machine -> hstep id h (mkhart (regs h) (ram h) m p (tlb h))
| step_tlb h t : hstep id h (mkhart (regs h) (ram h) (at_mode h) (pc h) t)
| step_pending h x : hstep id h (with_regs (set_reg MIP x (regs h)) h)
| step_timer h h' : taken_by h 7 = Some Machine -> timervec (trap_machine h) = Ok tt h' -> hstep id h h'.

Record below (id : Z) (h : hart) : Prop := {
  be_ready : timer_ready id h;
  be_range : in_range h;
  be_mode : at_mode h <> Machine;
}.

Lemma same_view_ready id h h' : same_view h h' -> ram h' (scratch id + 24) = ram h (scratch id + 24) -> ram h' (scratch id + 32) = ram h (scratch id + 32) ->
  timer_ready id h -> timer_ready id h'.
Proof. intros [V _ _ _ _ _] E1 E2 []. split; rewrite ?E1, ?E2, ?V by set_solver; done. Qed.

Lemma ticked_below id h h' : linked -> 0 <= id < NCPU -> below id h -> ticked id h h' -> below id h'.
Proof.
  intros (L1 & L2 & _) Hid [R Rg Hm] [V _ M _]. change NCPU with 8 in Hid.
  assert (scratch id <> 0 /\ CLINT_MTIMECMP id < scratch id) as [_ ?].
  { unfold CLINT_MTIMECMP, scratch. change CLINT with 0x2000000. change KERNBASE with 0x80000000 in L1. lia. }
  split.
  - apply (same_view_ready id h h' V); [..|done]; apply M; rewrite ?not_elem_of_cons; lia || (repeat split; lia || set_solver).
  - intros r Hr. rewrite (sv_regs _ _ V) by set_solver. by apply Rg.
  - by rewrite (sv_mode _ _ V).
Qed.

Lemma csrw_below id h r x : supervisor_reg r = true -> below id h -> below id (with_regs (csr_write r (u64 x) (regs h)) h).
Proof.
  intros Hs [[R1 R2 R3 R4 R5 R6] Rg Hm].
  assert (K : forall q, q ∈ [MSCRATCH; MTVEC; MIDELEG] -> csr_write r (u64 x) (regs h) q = regs h q).
  { intros q Hq. destruct r; try discriminate Hs; apply set_reg_ne; intros ->; set_solver. }
  split; [split|..]; cbn [with_regs regs ram at_mode]; try (rewrite K by listed); try done.
  - destruct r; try discriminate Hs; cbn [csr_write]; getreg; try done. by rewrite R3, merge_bit.
  - intros q Hq. cbn [with_regs regs]. destruct (decide (q = r)) as [->|Hn].
    + replace (csr_write r (u64 x) (regs h) r) with (u64 x); [apply u64_range|]. clear -Hq. rewrite !elem_of_cons in Hq. destruct Hq as [->|[->|[->|[->|Hq]]]]; [..|by apply elem_of_nil in Hq]; symmetry; apply set_reg_eq.
    + replace (csr_write r (u64 x) (regs h) q) with (regs h q); [by apply Rg|]. destruct r; try discriminate Hs; symmetry; apply set_reg_ne; done || (intros ->; set_solver).
Qed.

Lemma hstep_below id h h' : linked -> 0 <= id < NCPU -> hstep id h h' -> below id h -> below id h'.
Proof.
  intros HL Hid [h0 r x Hr|h0 a x Ha|h0 m p Hm|h0 t|h0 x|h0 h1 Ht E] B.
  - by apply csrw_below.
  - destruct B as [[] ? ?]. rewrite !not_elem_of_cons in Ha. split; [split|..]; cbn [regs ram at_mode]; rewrite ?set_ram_ne by (intros <-; tauto); done.
  - destruct B as [[] ? ?]. by split; [split|..].
  - destruct B as [[] ? ?]. by split; [split|..].
  - destruct B as [[] Rg ?]. split; [split|..]; cbn [with_regs regs ram at_mode]; rewrite ?set_reg_ne by discriminate; try done.
    intros r Hr. cbn [with_regs regs]. rewrite set_reg_ne by (intros ->; set_solver). by apply Rg.
  - destruct (timervec_ticks id h0 HL Hid (be_ready _ _ B) (be_range _ _ B)) as (h2 & E2 & T). rewrite E2 in E. injection E as <-. by apply (ticked_below id h0 h2 HL Hid B).
Qed.

Lemma start_below id h h' : linked -> 0 <= id < NCPU -> regs h MHARTID = id -> in_range h -> start h = Ok tt h' -> below id h'.
Proof.
  intros HL Hid E Rg Es. destruct (start_returns id h HL Hid E) as (h1 & E1 & Hm & _ & P). rewrite E1 in Es. injection Es as <-.
  split; [exact (st_ready _ _ _ P)| |by rewrite Hm]. intros r Hr. rewrite (st_general _ _ _ P) by set_solver. by apply Rg.
Qed.

Lemma software_taken id h h' : timer_ready id h -> ticked id h h' -> Z.testbit (regs h MIE) 1 = true ->
  at_mode h = User \/ at_mode h = Supervisor /\ Z.testbit (regs h MSTATUS) 1 = true -> taken_by h' 1 = Some Supervisor.
Proof.
  intros R [V _ _ S] He Hm. unfold taken_by. rewrite S, !(sv_regs _ _ V) by listed. rewrite He, (tr_delegated _ _ R), (sv_mode _ _ V). change (Z.testbit DELEGABLE 1) with true. cbn [negb andb].
  destruct Hm as [->|[-> Hs]]; [done|]. replace (Z.testbit (regs h' MSTATUS) 1) with true; [done|]. rewrite <- Hs.
  pose proof (f_equal (fun x => Z.testbit x 1) (sv_status _ _ V)) as E. cbn [csr_read] in E. rewrite !Z.land_spec in E.
  change (Z.testbit SSTATUS_MASK 1) with true in E. by rewrite !andb_true_r in E.
Qed.

(** A supervisor interrupt is never taken by machine mode, and by supervisor
    mode exactly when it is pending, enabled, and the hart runs user code or
    has its interrupts on. *)
Lemma supervisor_takes id h i : timer_ready id h -> i ∈ [1; 5; 9] -> taken_by h i =
  if Z.testbit (regs h MIP) i && Z.testbit (regs h MIE) i &&
     (bool_decide (at_mode h = User) || bool_decide (at_mode h = Supervisor) && Z.testbit (regs h MSTATUS) 1)
  then Some Supervisor else None.
Proof.
  intros R Hi. unfold taken_by. rewrite (tr_delegated _ _ R). replace (Z.testbit DELEGABLE i) with true.
  2:{ rewrite !elem_of_cons, elem_of_nil in Hi. by destruct Hi as [->|[->|[->|[]]]]. }
  destruct (Z.testbit (regs h MIP) i), (Z.testbit (regs h MIE) i); cbn; try done. by destruct (at_mode h).
Qed.

(** A timer interrupt inside [start], after [timerinit] has enabled it: the
    handler's trap and return overwrite [mepc] and the previous mode, and
    [start]'s [mret] goes on in user mode at the interrupted instruction. *)
Lemma start_interrupted id h : linked -> 0 <= id < NCPU -> regs h MHARTID = id -> in_range h -> at_mode h = Machine -> Z.testbit (regs h MIP) 7 = true ->
  exists h1 h2 h3, start_setup h = Ok tt h1 /\ taken_by h1 7 = Some Machine /\ timervec (trap_machine h1) = Ok tt h2 /\ at_mode h2 = Machine /\ pc h2 = pc h1 /\
    mret h2 = Ok tt h3 /\ at_mode h3 = User /\ pc h3 = pc h1.
Proof.
  intros HL Hid E Rg Hm Hb. destruct (start_setup_ok id h HL Hid E) as (h1 & E1 & P & _ & _ & Hm1 & H3). exists h1.
  set (t := trap_machine h1).
  assert (K : forall r, r <> MSTATUS -> r <> MEPC -> regs t r = regs h1 r) by (intros r ? ?; unfold t, trap_machine; cbn [regs]; by rewrite !set_reg_ne).
  destruct (timervec_runs id t HL Hid) as (f & m & E2 & Hf & _).
  { destruct (st_ready _ _ _ P). by split; try (rewrite K by done). }
  { intros r Hr. rewrite K by (intros ->; set_solver). rewrite (st_general _ _ _ P) by set_solver. by apply Rg. }
  destruct (mret_eq (mkhart f m (at_mode t) (pc t) (tlb t)) Machine) as (x & E3 & Hx); [cbn [regs]; rewrite Hf by done; unfold t; by rewrite trap_machine_mpp, Hm1, Hm|].
  eexists. destruct (mret_eq _ User Hx) as (y & E4 & _). eexists. split; [exact E1|]. split.
  { unfold taken_by. rewrite (st_pending _ _ _ P), Hb, (tr_enabled _ _ (st_ready _ _ _ P)), (tr_delegated _ _ (st_ready _ _ _ P)), Hm1, Hm, H3. done. }
  split; [unfold timervec, bind; rewrite E2; exact E3|]. split; [done|]. cbn [regs pc]. rewrite Hf by done. split; [unfold t, trap_machine; cbn [regs]; by getreg|].
  split; [exact E4|]. split; [done|]. cbn [regs pc]. rewrite set_reg_ne, Hf by done. unfold t, trap_machine. cbn [regs]. by getreg.
Qed.

(** [start] on each hart, from any registers and memory: it returns to
    [main] in supervisor mode with the hart's number in [tp], paging off and
    interrupts as they were; it sets the hart's timer one interval from now and
    writes no other memory than that and the hart's scratch area; a pending
    software, timer or external interrupt will be taken by supervisor mode,
    when the hart runs user code or has interrupts on, and never by machine
    mode; a pending machine timer interrupt is taken by machine mode. *)
Theorem start_prepares id h : linked -> 0 <= id < NCPU -> regs h MHARTID = id -> exists h',
  start h = Ok tt h' /\ at_mode h' = Supervisor /\ pc h' = main_addr /\ prepared id h h' /\
  (forall i, i ∈ [1; 5; 9] -> Z.testbit (regs h MIP) i = true -> taken_by h' i = if Z.testbit (regs h MSTATUS) 1 then Some Supervisor else None) /\
  (Z.testbit (regs h MIP) 7 = true -> taken_by h' 7 = Some Machine).
Proof.
  intros HL Hid E. destruct (start_returns id h HL Hid E) as (h' & E1 & Hm & Hp & P). exists h'. do 4 (split; [done|]). destruct P as [? ? ? He Hi ? Hpe ? R ? ?]. split.
  - intros i Hs Hb. rewrite (supervisor_takes id h' i R Hs), Hpe, Hb, (He i Hs), Hm, Hi. done.
  - intros Hb. unfold taken_by. by rewrite Hpe, Hb, (tr_enabled _ _ R), (tr_delegated _ _ R), Hm.
Qed.

(** C22.  Whatever the kernel and its user programs do after [start], a timer
    interrupt is taken in machine mode, and [timervec] returns to the
    interrupted code with every register it can see, its mode and its memory as
    they were; the next timer interrupt is an interval later, and a software
    interrupt is pending that supervisor mode takes if user code was
    interrupted or its interrupts are on. *)
Theorem timer_interrupts id h0 h1 h : linked -> 0 <= id < NCPU -> regs h0 MHARTID = id -> in_range h0 -> start h0 = Ok tt h1 -> rtc (hstep id) h1 h ->
  Z.testbit (regs h MIP) 7 = true -> taken_by h 7 = Some Machine /\ exists h', timervec (trap_machine h) = Ok tt h' /\ ticked id h h' /\
    (Z.testbit (regs h MIE) 1 = true -> at_mode h = User \/ at_mode h = Supervisor /\ Z.testbit (regs h MSTATUS) 1 = true -> taken_by h' 1 = Some Supervisor).
Proof.
  intros HL Hid E Rg Es Hr Hb. assert (B : below id h).
  { apply (start_below id h0 h1 HL Hid E Rg) in Es as B. clear -Hr B HL Hid. induction Hr as [|x y z Hx _ IH]; [done|]. apply IH. exact (hstep_below id x y HL Hid Hx B). }
  destruct B as [R Rn Hm]. split.
  - unfold taken_by. rewrite Hb, (tr_enabled _ _ R), (tr_delegated _ _ R). by destruct (at_mode h).
  - destruct (timervec_ticks id h HL Hid R Rn) as (h' & E' & T). exists h'. do 2 (split; [done|]). by apply (software_taken id).
Qed.
End Start.

Module StartDemo.
Definition main_addr : Z := 0x80000ea6.
Definition timervec_addr : Z := 0x80005d70.
Definition timer_scratch : Z := 0x800089e0.
Definition reset : hart := mkhart (fun r => match r with MHARTID => 1 | MIP => 2 ^ 7 | _ => 0 end) (fun a => if a =? CLINT_MTIME then 500 else 0) Machine 0x80000000 ∅.
Lemma linked_demo : linked main_addr timervec_addr timer_scratch.
Proof. by vm_compute. Qed.
Lemma range_demo : in_range reset.
Proof. intros r Hr. cbn. destruct r; try lia; rewrite !elem_of_cons, elem_of_nil in Hr; intuition discriminate. Qed.
End StartDemo.

Lemma start_prepares_witness : exists h', start StartDemo.main_addr StartDemo.timervec_addr StartDemo.timer_scratch StartDemo.reset = Ok tt h' /\
  taken_by h' 7 = Some Machine /\ ram h' 0x2004008 = 1000500.
Proof.
  destruct (start_prepares StartDemo.main_addr StartDemo.timervec_addr StartDemo.timer_scratch 1 StartDemo.reset StartDemo.linked_demo ltac:(by vm_compute) eq_refl) as (h' & E & _ & _ & P & _ & T).
  exists h'. split; [exact E|]. split; [by apply T|]. exact (st_timer _ _ _ _ _ P).
Defined.

Lemma timer_interrupts_witness : exists h1 h h', start StartDemo.main_addr StartDemo.timervec_addr StartDemo.timer_scratch StartDemo.reset = Ok tt h1 /\
  at_mode h = User /\ timervec (trap_machine h) = Ok tt h' /\ at_mode h' = User /\ taken_by h' 1 = Some Supervisor.
Proof.
  destruct (start_returns StartDemo.main_addr StartDemo.timervec_addr StartDemo.timer_scratch 1 StartDemo.reset StartDemo.linked_demo ltac:(by vm_compute) eq_refl) as (h1 & E & Hm & Hp & P).
  set (h := mkhart (regs h1) (ram h1) User 0 (tlb h1)).
  destruct (timer_interrupts StartDemo.main_addr StartDemo.timervec_addr StartDemo.timer_scratch 1 StartDemo.reset h1 h StartDemo.linked_demo ltac:(by vm_compute) eq_refl StartDemo.range_demo E) as (_ & h' & E' & T & S).
  - by apply rtc_once, step_jump.
  - cbn. by rewrite (st_pending _ _ _ _ _ P).
  - exists h1, h, h'. do 3 (split; [done|]). split; [by rewrite (sv_mode _ _ (tk_view _ _ _ _ T))|]. apply S; [|by left]. apply (st_enabled _ _ _ _ _ P). listed.
Defined.
