(* ===== verification/Plic.v ===== *)
(** * kernel/plic.c: the interrupt controller

    The controller is a device: an interface with the registers that plic.c
    loads and stores, what they mean, and laws from the controller's
    specification.  The driver is proved against the laws; a controller that
    satisfies them is at the end. *)

From S2P Require Import Prelude Riscv Boot.
Local Open Scope Z_scope.

(** ** kernel/memlayout.h *)
Definition PLIC_SENABLE (hart : Z) : Z := PLIC + 0x2080 + hart * 0x100.
Definition PLIC_SPRIORITY (hart : Z) : Z := PLIC + 0x201000 + hart * 0x2000.
Definition PLIC_SCLAIM (hart : Z) : Z := PLIC + 0x201004 + hart * 0x2000.

(** ** The device *)

(** [enabled d c s]: source [s] is enabled for hart [c]'s supervisor mode. *)
Class Controller (D : Type) := {
  read32 : Z -> D -> Z * D;
  write32 : Z -> Z -> D -> D;
  priority : D -> Z -> Z;
  enabled : D -> Z -> Z -> bool;
  threshold : D -> Z -> Z;
  pending : D -> Z -> bool;
}.

(** The sources that hart [c] can claim. *)
Definition eligible `{Controller D} (d : D) (c s : Z) : Prop :=
  0 < s < 1024 /\ pending d s = true /\ enabled d c s = true /\ 0 < priority d s.

Record same_config `{Controller D} (d d' : D) : Prop := {
  sc_priority : forall s, priority d' s = priority d s;
  sc_enabled : forall c s, enabled d' c s = enabled d c s;
  sc_threshold : forall c, threshold d' c = threshold d c;
}.

Class ControllerLaws (D : Type) `{Controller D} : Prop := {
  write_priority d s v : 0 < s < 1024 -> 0 <= v <= 7 -> let d' := write32 (PLIC + s * 4) v d in
    (forall q, priority d' q = if q =? s then v else priority d q) /\
    (forall c q, enabled d' c q = enabled d c q) /\ (forall c, threshold d' c = threshold d c) /\ (forall q, pending d' q = pending d q);
  write_enable d c v : 0 <= c < NCPU -> let d' := write32 (PLIC_SENABLE c) v d in
    (forall e q, enabled d' e q = if (e =? c) && (0 <=? q) && (q <? 32) then Z.testbit v q else enabled d e q) /\
    (forall q, priority d' q = priority d q) /\ (forall e, threshold d' e = threshold d e) /\ (forall q, pending d' q = pending d q);
  write_threshold d c v : 0 <= c < NCPU -> 0 <= v <= 7 -> let d' := write32 (PLIC_SPRIORITY c) v d in
    (forall e, threshold d' e = if e =? c then v else threshold d e) /\
    (forall q, priority d' q = priority d q) /\ (forall e q, enabled d' e q = enabled d e q) /\ (forall q, pending d' q = pending d q);
  read_claim d c : 0 <= c < NCPU -> let '(s, d') := read32 (PLIC_SCLAIM c) d in
    same_config d d' /\ (forall q, pending d' q = if q =? s then false else pending d q) /\
    (s = 0 /\ (forall q, ~ eligible d c q) \/ eligible d c s /\ forall q, eligible d c q -> priority d q <= priority d s);
  write_complete d c v : 0 <= c < NCPU -> same_config d (write32 (PLIC_SCLAIM c) v d) /\ forall q, pending d q = true -> pending (write32 (PLIC_SCLAIM c) v d) q = true;
}.

Section Driver.
Context `{Controller D}.
Abbreviation PM := (M (hart * D)).

(** kernel/proc.c *)
Definition cpuid : PM Z := do! x <- zoom fst (fun h s => (h, snd s)) r_tp; ret (s32 x).

Definition plic_store (a v : Z) : PM unit := modify (fun s => (fst s, write32 a (u32 v) (snd s))).
Definition plic_load (a : Z) : PM Z := fun s => let '(v, d) := read32 a (snd s) in Ok v (fst s, d).

Definition plicinit : PM unit :=
  plic_store (PLIC + UART0_IRQ * 4) 1 ;;
  plic_store (PLIC + VIRTIO0_IRQ * 4) 1.

Definition plicinithart : PM unit :=
  do! hart <- cpuid;
  plic_store (PLIC_SENABLE hart) (Z.lor (Z.shiftl 1 UART0_IRQ) (Z.shiftl 1 VIRTIO0_IRQ)) ;;
  plic_store (PLIC_SPRIORITY hart) 0.

Definition plic_claim : PM Z :=
  do! hart <- cpuid;
  do! irq <- plic_load (PLIC_SCLAIM hart);
  ret (s32 irq).

Definition plic_complete (irq : Z) : PM unit :=
  do! hart <- cpuid;
  plic_store (PLIC_SCLAIM hart) irq.

(** ** What the driver sets up *)
Context `{!ControllerLaws D}.

Record irqs_on (d : D) : Prop := {
  on_uart : priority d UART0_IRQ = 1;
  on_disk : priority d VIRTIO0_IRQ = 1;
}.

(** Hart [c] listens to the serial port and the disk and to nothing else. *)
Record listening (c : Z) (d : D) : Prop := {
  li_enabled : forall s, enabled d c s = bool_decide (s = UART0_IRQ \/ s = VIRTIO0_IRQ);
  li_threshold : threshold d c = 0;
}.

(** At reset no source beyond the first word is enabled. *)
Definition at_reset (d : D) : Prop := forall c s, ~ 0 <= s < 32 -> enabled d c s = false.

Lemma cpuid_eq h d c : 0 <= c < NCPU -> regs h TP = c -> cpuid (h, d) = Ok c (h, d).
Proof. intros Hc E. change NCPU with 8 in Hc. unfold cpuid, bind, zoom, r_tp, csrr, gets, ret. cbn [fst csr_read]. by rewrite E, s32_small by lia. Qed.

Lemma plicinit_ok h d : exists d', plicinit (h, d) = Ok tt (h, d') /\ irqs_on d' /\
  (forall c s, enabled d' c s = enabled d c s) /\ (forall c, threshold d' c = threshold d c) /\ forall s, pending d' s = pending d s.
Proof.
  eexists. split; [reflexivity|]. cbn [fst snd]. change (u32 1) with 1.
  destruct (write_priority d UART0_IRQ 1) as (P1 & E1 & T1 & Q1); [done..|].
  destruct (write_priority (write32 (PLIC + UART0_IRQ * 4) 1 d) VIRTIO0_IRQ 1) as (P2 & E2 & T2 & Q2); [done..|].
  split; [split; rewrite P2; [apply P1|done]|]. repeat split; intros; rewrite ?E2, ?T2, ?Q2; auto.
Qed.

Lemma plicinithart_ok h d c : 0 <= c < NCPU -> regs h TP = c -> at_reset d -> exists d', plicinithart (h, d) = Ok tt (h, d') /\ listening c d' /\ at_reset d' /\
  (forall s, priority d' s = priority d s) /\ (forall s, pending d' s = pending d s) /\ forall e, e <> c -> listening e d -> listening e d'.
Proof.
  intros Hc E Hr. unfold plicinithart, bind. rewrite (cpuid_eq _ _ _ Hc E). eexists. split; [reflexivity|]. cbn [fst snd].
  set (v := u32 (Z.lor _ _)). destruct (write_enable d c v Hc) as (E1 & P1 & T1 & Q1).
  destruct (write_threshold (write32 (PLIC_SENABLE c) v d) c 0 Hc ltac:(lia)) as (T2 & P2 & E2 & Q2). change (u32 0) with 0.
  assert (Hv : forall s, 0 <= s < 32 -> Z.testbit v s = bool_decide (s = UART0_IRQ \/ s = VIRTIO0_IRQ)).
  { intros s Hs. assert (Hz : Forall (fun s => Z.testbit v s = bool_decide (s = UART0_IRQ \/ s = VIRTIO0_IRQ)) (seqZ 0 32)).
    { apply (bool_decide_unpack _). by vm_compute. }
    rewrite Forall_forall in Hz. apply Hz, elem_of_seqZ. lia. }
  split; [split|split; [|split; [|split]]].
  - intros s. rewrite E2, E1, Z.eqb_refl. destruct (Z.leb_spec 0 s), (Z.ltb_spec s 32); cbn [andb]; [by apply Hv|..];
      rewrite Hr by lia; symmetry; apply bool_decide_eq_false; change UART0_IRQ with 10; change VIRTIO0_IRQ with 1; lia.
  - by rewrite T2, Z.eqb_refl.
  - intros e s Hs. rewrite E2, E1. destruct (Z.leb_spec 0 s), (Z.ltb_spec s 32); try lia; rewrite ?andb_false_r, ?andb_true_r; by apply Hr.
  - intros s. by rewrite P2, P1.
  - intros s. by rewrite Q2, Q1.
  - intros e He [L1 L2]. split; [intros s; rewrite E2, E1|rewrite T2, T1]; rewrite (proj2 (Z.eqb_neq e c) He); cbn [andb]; [apply L1|exact L2].
Qed.

(** ** Running *)

(** A claim by a listening hart: nothing, the serial port or the disk; one of
    them whenever it is pending; and what is claimed is no longer pending. *)
Record claimed (c irq : Z) (d d' : D) : Prop := {
  cl_source : irq = 0 \/ irq = UART0_IRQ \/ irq = VIRTIO0_IRQ;
  cl_was : irq <> 0 -> pending d irq = true;
  cl_none : irq = 0 -> pending d UART0_IRQ = false /\ pending d VIRTIO0_IRQ = false;
  cl_taken : pending d' irq = false;
  cl_rest : forall s, s <> irq -> pending d' s = pending d s;
}.

Lemma claim_ok h d c : 0 <= c < NCPU -> regs h TP = c -> listening c d -> irqs_on d -> exists irq d',
  plic_claim (h, d) = Ok irq (h, d') /\ same_config d d' /\ claimed c irq d d'.
Proof.
  intros Hc E [L _] [O1 O2]. pose proof (read_claim d c Hc) as R. destruct (read32 (PLIC_SCLAIM c) d) as [s d'] eqn:Er. destruct R as (C & Q & S).
  assert (Hs : s = 0 \/ s = UART0_IRQ \/ s = VIRTIO0_IRQ).
  { destruct S as [[-> _]|[(_ & _ & S & _) _]]; [by left|]. right. rewrite L in S. by apply bool_decide_eq_true in S. }
  exists s, d'. split; [|split; [done|split]].
  - unfold plic_claim, bind, plic_load, ret. rewrite (cpuid_eq _ _ _ Hc E). cbn [fst snd]. rewrite Er, s32_small; [done|].
    change UART0_IRQ with 10 in Hs. change VIRTIO0_IRQ with 1 in Hs. lia.
  - done.
  - intros Hn. destruct S as [[-> _]|[(_ & S & _ & _) _]]; [by destruct Hn|done].
  - intros ->. destruct S as [[_ S]|[((? & _) & _) _]]; [|lia].
    split; apply not_true_iff_false; intros Hp; [apply (S UART0_IRQ)|apply (S VIRTIO0_IRQ)]; (split; [done|]); (split; [done|]); rewrite L, ?O1, ?O2; (split; [by apply bool_decide_eq_true; auto|lia]).
  - by rewrite Q, Z.eqb_refl.
  - intros q Hq. by rewrite Q, (proj2 (Z.eqb_neq q s) Hq).
Qed.

(** The controller while the harts run: [S] are the harts that have called
    [plicinithart].  Devices raise interrupts at any time. *)
Inductive pstep : D * gset Z -> D * gset Z -> Prop :=
| p_init h c d d' S : 0 <= c < NCPU -> regs h TP = c -> plicinithart (h, d) = Ok tt (h, d') -> pstep (d, S) (d', {[c]} ∪ S)
| p_claim h c irq d d' S : 0 <= c < NCPU -> regs h TP = c -> c ∈ S -> plic_claim (h, d) = Ok irq (h, d') -> pstep (d, S) (d', S)
| p_complete h c irq d d' S : 0 <= c < NCPU -> regs h TP = c -> plic_complete irq (h, d) = Ok tt (h, d') -> pstep (d, S) (d', S)
| p_raise d d' S : same_config d d' -> pstep (d, S) (d', S).

Definition plic_inv (s : D * gset Z) : Prop := irqs_on (fst s) /\ at_reset (fst s) /\ forall c, c ∈ snd s -> listening c (fst s).

Lemma same_config_inv d d' S : same_config d d' -> plic_inv (d, S) -> plic_inv (d', S).
Proof.
  intros [P E T] ([O1 O2] & R & L). cbn [fst snd] in *. split; [by split; cbn; rewrite P|]. split; [intros c s Hs; cbn; rewrite E; by apply R|].
  intros c Hc. destruct (L c Hc) as [L1 L2]. by split; intros; cbn; rewrite ?E, ?T.
Qed.

Lemma pstep_inv s s' : pstep s s' -> plic_inv s -> plic_inv s'.
Proof.
  intros [h c d d' S Hc E Hs|h c irq d d' S Hc E Hi Hs|h c irq d d' S Hc E Hs|d d' S C] I.
  - destruct I as ([O1 O2] & R & L). cbn [fst snd] in *. destruct (plicinithart_ok h d c Hc E R) as (d2 & E2 & Lc & R2 & P2 & _ & O). rewrite Hs in E2. injection E2 as <-.
    split; [by split; cbn; rewrite P2|]. split; [done|]. cbn. intros e He. destruct (decide (e = c)) as [->|Hn]; [done|]. apply O; [done|]. apply L. set_solver.
  - destruct I as (O & R & L). destruct (claim_ok h d c Hc E (L c Hi) O) as (i & d2 & E2 & C & _). rewrite Hs in E2. injection E2 as -> <-. by apply (same_config_inv d).
  - unfold plic_complete, bind in Hs. rewrite (cpuid_eq _ _ _ Hc E) in Hs. injection Hs as <-. apply (same_config_inv d); [|done]. by apply write_complete.
  - by apply (same_config_inv d).
Qed.

(** C23.  The interrupt controller as plic.c programs it: after [plicinit], in
    whatever order harts call [plicinithart], claim and complete interrupts and
    devices raise them, a hart that has called [plicinithart] claims the serial
    port, the disk, or nothing, and nothing only if neither is pending; an
    interrupt that one hart has claimed is not pending for another. *)
Theorem plic_claims h0 d0 d1 d S h c : at_reset d0 -> plicinit (h0, d0) = Ok tt (h0, d1) -> rtc pstep (d1, ∅) (d, S) ->
  c ∈ S -> 0 <= c < NCPU -> regs h TP = c -> exists irq d', plic_claim (h, d) = Ok irq (h, d') /\ same_config d d' /\ claimed c irq d d'.
Proof.
  intros R E Hr Hin Hc Ht. destruct (plicinit_ok h0 d0) as (d2 & E2 & O & En & _). rewrite E in E2. injection E2 as <-.
  assert (I : plic_inv (d1, ∅)). { split; [done|]. split; [|set_solver]. intros e s Hs. cbn. rewrite En. by apply R. }
  assert (J : plic_inv (d, S)).
  { clear -Hr I ControllerLaws0. remember (d, S) as e eqn:Ee. clear Ee. induction Hr as [|x y z Hx _ IH]; [done|]. by eapply IH, pstep_inv. }
  destruct J as (O' & _ & L). by apply claim_ok; [..|apply L|].
Qed.
End Driver.

(** ** A controller *)
Module SimplePlic.
Record t := mk { prio : Z -> Z; en : Z -> Z -> bool; thr : Z -> Z; pend : Z -> bool }.

Definition can (d : t) (c s : Z) : bool := (0 <? s) && (s <? 1024) && pend d s && en d c s && (0 <? prio d s).
(** The eligible source of highest priority. *)
Fixpoint best (d : t) (c : Z) (l : list Z) : Z :=
  match l with
  | [] => 0
  | s :: l => let b := best d c l in if can d c s && ((b =? 0) || (prio d b <? prio d s)) then s else b
  end.

Definition read (a : Z) (d : t) : Z * t :=
  let o := a - (PLIC + 0x201004) in
  if (0 <=? o) && (o mod 0x2000 =? 0) then
    let s := best d (o / 0x2000) (seqZ 1 1023) in (s, mk (prio d) (en d) (thr d) (fun q => if q =? s then false else pend d q))
  else (0, d).

Definition write (a v : Z) (d : t) : t :=
  let o := a - PLIC in
  if o <? 0x1000 then mk (fun q => if q =? o / 4 then v else prio d q) (en d) (thr d) (pend d)
  else if o <? 0x200000 then
    mk (prio d) (fun e q => if (e =? (o - 0x2080) / 0x100) && (0 <=? q) && (q <? 32) then Z.testbit v q else en d e q) (thr d) (pend d)
  else if (o - 0x201000) mod 0x2000 =? 0 then mk (prio d) (en d) (fun e => if e =? (o - 0x201000) / 0x2000 then v else thr d e) (pend d)
  else d.

#[global] Instance controller : Controller t := { read32 := read; write32 := write; priority := prio; enabled := en; threshold := thr; pending := pend }.

Lemma can_eligible d c s : can d c s = true <-> eligible d c s.
Proof. unfold can, eligible. cbn. rewrite !andb_true_iff, !Z.ltb_lt. tauto. Qed.

Lemma best_ok d c l : (best d c l = 0 /\ forall q, q ∈ l -> ~ eligible d c q) \/
  (eligible d c (best d c l) /\ forall q, q ∈ l -> eligible d c q -> prio d q <= prio d (best d c l)).
Proof.
  induction l as [|s l IH]; [left; split; [done|]; intros q Hq; by apply elem_of_nil in Hq|]. cbn [best].
  destruct (can d c s) eqn:Hs; cbn [andb].
  - apply can_eligible in Hs. destruct (Z.eqb_spec (best d c l) 0) as [E|E]; cbn [orb].
    + right. split; [done|]. intros q Hq He. apply elem_of_cons in Hq as [->|Hq]; [done|].
      destruct IH as [[_ IH]|[[] _]]; [by destruct (IH q Hq)|lia].
    + destruct IH as [[? _]|[IH1 IH2]]; [done|]. right. destruct (Z.ltb_spec (prio d (best d c l)) (prio d s)); (split; [done|]); intros q Hq He;
        apply elem_of_cons in Hq as [->|Hq]; try lia; specialize (IH2 q Hq He); lia.
  - assert (Hn : ~ eligible d c s) by (by rewrite <- can_eligible, Hs).
    destruct IH as [[IH1 IH2]|[IH1 IH2]]; [left|right]; (split; [done|]); intros q Hq; apply elem_of_cons in Hq as [->|Hq]; auto. by intros.
Qed.

#[global] Instance controller_laws : ControllerLaws t.
Proof.
  split.
  - intros d s v Hs Hv. cbn. unfold write. replace (PLIC + s * 4 - PLIC) with (s * 4) by lia. rewrite (proj2 (Z.ltb_lt _ _)) by lia. rewrite Z.div_mul by lia. done.
  - intros d c v Hc. change NCPU with 8 in Hc. cbn. unfold write, PLIC_SENABLE. replace (PLIC + 0x2080 + c * 0x100 - PLIC) with (0x2080 + c * 0x100) by lia.
    rewrite (proj2 (Z.ltb_ge _ 0x1000)), (proj2 (Z.ltb_lt _ 0x200000)) by lia. replace (0x2080 + c * 0x100 - 0x2080) with (c * 0x100) by lia. rewrite Z.div_mul by lia. done.
  - intros d c v Hc Hv. change NCPU with 8 in Hc. cbn. unfold write, PLIC_SPRIORITY. replace (PLIC + 0x201000 + c * 0x2000 - PLIC) with (0x201000 + c * 0x2000) by lia.
    rewrite (proj2 (Z.ltb_ge _ 0x1000)), (proj2 (Z.ltb_ge _ 0x200000)) by lia. replace (0x201000 + c * 0x2000 - 0x201000) with (c * 0x2000) by lia.
    rewrite Z.mod_mul, Z.div_mul by lia. done.
  - intros d c Hc. change NCPU with 8 in Hc. cbn. unfold read, PLIC_SCLAIM. replace (PLIC + 0x201004 + c * 0x2000 - (PLIC + 0x201004)) with (c * 0x2000) by lia.
    rewrite (proj2 (Z.leb_le _ _)), Z.mod_mul, Z.div_mul by lia. cbn [andb Z.eqb].
    split; [done|]. split; [done|]. destruct (best_ok d c (seqZ 1 1023)) as [[E N]|[E N]]; [left|right]; (split; [done|]); intros q.
    + intros He. apply (N q); [|done]. apply elem_of_seqZ. destruct He; lia.
    + intros He. apply (N q); [|done]. apply elem_of_seqZ. destruct He; lia.
  - intros d c v Hc. change NCPU with 8 in Hc. cbn. unfold write, PLIC_SCLAIM. replace (PLIC + 0x201004 + c * 0x2000 - PLIC) with (0x201004 + c * 0x2000) by lia.
    rewrite (proj2 (Z.ltb_ge _ 0x1000)), (proj2 (Z.ltb_ge _ 0x200000)) by lia. replace (0x201004 + c * 0x2000 - 0x201000) with (4 + c * 0x2000) by lia.
    rewrite Z.mod_add by lia. by split.
Qed.

(** The disk and an unused source are pending. *)
Definition d0 : t := mk (fun _ => 0) (fun _ _ => false) (fun _ => 7) (fun s => (s =? 1) || (s =? 3)).
Definition hart3 : hart := mkhart (fun r => match r with TP => 3 | _ => 0 end) (fun _ => 0) Supervisor 0 ∅.
End SimplePlic.

Lemma plic_claims_witness : exists (d d' : SimplePlic.t), plic_claim (SimplePlic.hart3, d) = Ok VIRTIO0_IRQ (SimplePlic.hart3, d').
Proof.
  destruct (plicinit_ok SimplePlic.hart3 SimplePlic.d0) as (d1 & E1 & _ & En & _ & Q1).
  assert (R : at_reset d1) by (intros c s _; apply En).
  destruct (plicinithart_ok SimplePlic.hart3 d1 3 ltac:(by vm_compute) eq_refl R) as (d & E2 & _ & _ & _ & Q2 & _).
  destruct (plic_claims SimplePlic.hart3 SimplePlic.d0 d1 d ({[3]} ∪ ∅) SimplePlic.hart3 3) as (irq & d' & E & _ & C).
  - by intros c s _.
  - exact E1.
  - apply rtc_once. by eapply (p_init SimplePlic.hart3).
  - set_solver.
  - by vm_compute.
  - reflexivity.
  - exists d, d'. rewrite E. do 2 f_equal. destruct (cl_source _ _ _ _ C) as [Hi|[Hi|Hi]]; [..|done].
    + destruct (cl_none _ _ _ _ C Hi) as [_ Hp]. rewrite Q2, Q1 in Hp. discriminate Hp.
    + pose proof (cl_was _ _ _ _ C) as Hp. rewrite Hi, Q2, Q1 in Hp. by specialize (Hp ltac:(done)).
Defined.
