(* ===== verification/Main.v ===== *)
(** * kernel/main.c: booting all harts

    [main] runs on every hart, after [start]: hart 0 initialises the kernel and
    sets [started], the others wait for that and then set up what each hart has
    of its own.  The harts interleave at every call.  The initialisation calls
    whose state belongs to one component are modelled and proved with it
    ([kinit] in [Kalloc.v] and so on); here they are events, and the calls that
    act on the hart, on the interrupt controller and on [kernel_pagetable] have
    their effects. *)

From S2P Require Import Prelude Riscv Boot Plic.
Local Open Scope Z_scope.

Inductive call :=
| Consoleinit | Printfinit | Printf (fmt : string) | Kinit | Kvminit | Kvminithart | Procinit | Trapinit | Trapinithart
| Plicinit | Plicinithart | Binit | Iinit | Fileinit | Virtio_disk_init | Userinit | Scheduler.
Inductive instr := Call (c : call) | Synchronize | Set_started | Wait_started.
#[export] Instance call_eq_dec : EqDecision call.
Proof. solve_decision. Defined.
#[export] Instance instr_eq_dec : EqDecision instr.
Proof. solve_decision. Defined.

Definition newline : string := String (Ascii.ascii_of_nat 10) EmptyString.

Definition main (cpuid : Z) : list instr :=
  (if cpuid =? 0 then
     [Call Consoleinit; Call Printfinit; Call (Printf newline); Call (Printf ("xv6 kernel is booting" ++ newline)); Call (Printf newline);
      Call Kinit; Call Kvminit; Call Kvminithart; Call Procinit; Call Trapinit; Call Trapinithart; Call Plicinit; Call Plicinithart;
      Call Binit; Call Iinit; Call Fileinit; Call Virtio_disk_init; Call Userinit; Synchronize; Set_started]
   else
     [Wait_started; Synchronize; Call (Printf ("hart %d starting" ++ newline)); Call Kvminithart; Call Trapinithart; Call Plicinithart])
  ++ [Call Scheduler].

Section Main.
Context `{ControllerLaws D}.
(** [kernel_pagetable] as [kvmmake] returns it, and the address of
    [kernelvec]. *)
Variables kvmmade kernelvec : Z.

(** kernel/vm.c, kernel/trap.c *)
Definition kvminithart (kernel_pagetable : Z) : HM unit :=
  sfence_vma ;;
  w_satp (MAKE_SATP kernel_pagetable) ;;
  sfence_vma.
Definition trapinithart : HM unit := w_stvec kernelvec.

Record system := mksystem {
  started : Z; kernel_pagetable : Z; plic : D; harts : Z -> hart;
  next : Z -> nat;  (** the instruction of [main] that a hart is at *)
  trace : list (Z * call)
}.

Definition on_hart (c : HM unit) : M (hart * D) unit := zoom fst (fun h s => (h, snd s)) c.
Definition run_call (kpt : Z) (c : call) : M (hart * D) unit :=
  match c with
  | Kvminithart => on_hart (kvminithart kpt)
  | Trapinithart => on_hart trapinithart
  | Plicinit => plicinit
  | Plicinithart => plicinithart
  | _ => ret tt
  end.

Definition set_at {A} (id : Z) (x : A) (f : Z -> A) : Z -> A := fun i => if i =? id then x else f i.
Definition advance (id : Z) (s : system) : system :=
  mksystem (started s) (kernel_pagetable s) (plic s) (harts s) (set_at id (S (next s id)) (next s)) (trace s).

(** One instruction of hart [id]; at [Wait_started] it goes on only when
    [started] is not 0. *)
Definition exec (id : Z) (i : instr) (s : system) : option system :=
  match i with
  | Call c =>
      match run_call (kernel_pagetable s) c (harts s id, plic s) with
      | Ok _ (h, d) =>
          Some (mksystem (started s) (if c is Kvminit then kvmmade else kernel_pagetable s) d (set_at id h (harts s))
                         (set_at id (S (next s id)) (next s)) (trace s ++ [(id, c)]))
      | _ => None
      end
  | Synchronize => Some (advance id s)
  | Set_started => Some (mksystem 1 (kernel_pagetable s) (plic s) (harts s) (set_at id (S (next s id)) (next s)) (trace s))
  | Wait_started => if started s =? 0 then None else Some (advance id s)
  end.

Inductive bstep : system -> system -> Prop :=
| b_step id i s s' : 0 <= id < NCPU -> main id !! next s id = Some i -> exec id i s = Some s' -> bstep s s'.

(** All harts come from [start]: at the first instruction of [main], with
    their number in [tp]. *)
Record powered (s : system) : Prop := {
  po_started : started s = 0;
  po_next : forall id, next s id = O;
  po_trace : trace s = [];
  po_tp : forall id, 0 <= id < NCPU -> regs (harts s id) TP = id;
  po_plic : at_reset (plic s);
}.

(** ** Invariant *)
Definition calls (l : list instr) : list call := omap (fun i => if i is Call c then Some c else None) l.
Definition calls_of (id : Z) (tr : list (Z * call)) : list call := omap (fun e => if fst e =? id then Some (snd e) else None) tr.
(** What hart 0 does before it sets [started]. *)
Definition boot_calls : list call := calls (take 20 (main 0)).

Record hart_set (kpt : Z) (h : hart) : Prop := {
  hs_satp : regs h SATP = u64 (MAKE_SATP kpt);
  hs_tlb : tlb h = ∅;
}.

Record boot_inv (s : system) : Prop := {
  bi_tp : forall id, 0 <= id < NCPU -> regs (harts s id) TP = id;
  bi_reset : at_reset (plic s);
  bi_calls : forall id, 0 <= id < NCPU -> calls_of id (trace s) = calls (take (next s id) (main id));
  bi_started : started s <> 0 -> (20 <= next s 0)%nat;
  bi_set : (20 <= next s 0)%nat -> started s <> 0;
  bi_waited : forall id, 0 < id < NCPU -> (0 < next s id)%nat -> started s <> 0;
  bi_kpt : (6 < next s 0)%nat -> kernel_pagetable s = kvmmade;
  bi_irqs : (11 < next s 0)%nat -> irqs_on (plic s);
  bi_satp : forall id, 0 <= id < NCPU -> Kvminithart ∈ calls (take (next s id) (main id)) -> hart_set kvmmade (harts s id);
  bi_stvec : forall id, 0 <= id < NCPU -> Trapinithart ∈ calls (take (next s id) (main id)) -> regs (harts s id) STVEC = u64 kernelvec;
  bi_listen : forall id, 0 <= id < NCPU -> Plicinithart ∈ calls (take (next s id) (main id)) -> listening id (plic s);
  bi_order : forall pre i c post, trace s = pre ++ (i, c) :: post -> i <> 0 -> boot_calls ⊆ calls_of 0 pre;
}.

(** ** What one instruction does *)
Lemma set_at_eq {A} id (x : A) f : set_at id x f id = x.
Proof. unfold set_at. by rewrite Z.eqb_refl. Qed.
Lemma set_at_ne {A} id (x : A) f j : j <> id -> set_at id x f j = f j.
Proof. intros E. unfold set_at. by rewrite (proj2 (Z.eqb_neq j id) E). Qed.

Lemma listening_same e (d d' : D) : (forall c s, enabled d' c s = enabled d c s) -> (forall c, threshold d' c = threshold d c) -> listening e d -> listening e d'.
Proof. intros E T [L1 L2]. split; intros; by rewrite ?E, ?T. Qed.

(** A call, on the hart [h] that makes it and the controller. *)
Record acted (kpt : Z) (c : call) (id : Z) (h : hart) (d : D) (h' : hart) (d' : D) : Prop := {
  ac_tp : regs h' TP = id;
  ac_reset : at_reset d';
  ac_irqs : c = Plicinit \/ irqs_on d -> irqs_on d';
  ac_satp : forall k, (c = Kvminithart -> kpt = k) -> c = Kvminithart \/ hart_set k h -> hart_set k h';
  ac_stvec : c = Trapinithart \/ regs h STVEC = u64 kernelvec -> regs h' STVEC = u64 kernelvec;
  ac_listen : forall e, e = id /\ c = Plicinithart \/ listening e d -> listening e d';
}.

Lemma run_call_ok kpt c id h d : 0 <= id < NCPU -> regs h TP = id -> at_reset d -> exists h' d', run_call kpt c (h, d) = Ok tt (h', d') /\ acted kpt c id h d h' d'.
Proof.
  intros Hid Ht Hr.
  assert (Same : c <> Plicinit -> c <> Kvminithart -> c <> Trapinithart -> c <> Plicinithart -> acted kpt c id h d h d).
  { intros ????. split; try done; tauto. }
  destruct c; try (exists h, d; split; [reflexivity|by apply Same]).
  - eexists _, _. split; [reflexivity|]. split; cbn; try done; try (intros [|]; done).
    + intros k E _. rewrite (E eq_refl). split; cbn; [apply set_reg_eq|done].
    + intros e [[_ ?]|]; done.
  - eexists _, _. split; [reflexivity|]. split; cbn; try done; try (intros [|]; done).
    + intros k _ [|[E1 E2]]; [done|]. split; cbn; [by rewrite set_reg_ne|done].
    + intros e [[_ ?]|]; done.
  - destruct (plicinit_ok h d) as (d' & E & O & En & T & _). exists h, d'. split; [exact E|]. split; try done.
    + intros c s Hs. rewrite En. by apply Hr.
    + by intros k _ [|].
    + by intros [|].
    + intros e [[_ ?]|L]; [done|]. by apply (listening_same e d).
  - destruct (plicinithart_ok h d id Hid Ht Hr) as (d' & E & L & R & P & _ & O). exists h, d'. split; [exact E|]. split; try done.
    + intros [|[]]; [done|]. by split; rewrite P.
    + by intros k _ [|].
    + by intros [|].
    + intros e He. destruct (decide (e = id)) as [->|Hn]; [done|]. destruct He as [[? _]|He]; [done|]. by apply O.
Qed.

Record effect (id : Z) (i : instr) (s s' : system) : Prop := {
  ef_next : next s' = set_at id (S (next s id)) (next s);
  ef_trace : trace s' = trace s ++ (if i is Call c then [(id, c)] else []);
  ef_others : forall j, j <> id -> harts s' j = harts s j;
  ef_started : started s' = if i is Set_started then 1 else started s;
  ef_wait : i = Wait_started -> started s <> 0;
  ef_kpt : i = Call Kvminit \/ kernel_pagetable s = kvmmade -> kernel_pagetable s' = kvmmade;
  ef_acted : if i is Call c then acted (kernel_pagetable s) c id (harts s id) (plic s) (harts s' id) (plic s')
             else harts s' id = harts s id /\ plic s' = plic s;
}.

(** An instruction can be done unless the hart has to wait. *)
Lemma exec_ok id i s : 0 <= id < NCPU -> regs (harts s id) TP = id -> at_reset (plic s) -> (i = Wait_started -> started s <> 0) ->
  exists s', exec id i s = Some s' /\ effect id i s s'.
Proof.
  intros Hid Ht Hr Hw. destruct i as [c| | |]; cbn [exec].
  - destruct (run_call_ok (kernel_pagetable s) c id (harts s id) (plic s) Hid Ht Hr) as (h & d & -> & A). eexists. split; [reflexivity|]. split; cbn; try done.
    + intros j Hj. by rewrite set_at_ne.
    + intros [[= ->]|E]; [done|]. by destruct c.
    + by rewrite set_at_eq.
  - eexists. split; [reflexivity|]. split; cbn; rewrite ?app_nil_r; try done; by intros [|].
  - eexists. split; [reflexivity|]. split; cbn; rewrite ?app_nil_r; try done; by intros [|].
  - rewrite (proj2 (Z.eqb_neq _ _) (Hw eq_refl)). eexists. split; [reflexivity|]. split; cbn; rewrite ?app_nil_r; try done; by intros [|].
Qed.

(** ** Where the calls are *)
Lemma main0_at n i : main 0 !! n = Some i ->
  (i = Call Kvminithart -> (6 < n)%nat) /\ (i = Set_started -> n = 19%nat) /\ (n = 6%nat -> i = Call Kvminit) /\ (n = 11%nat -> i = Call Plicinit) /\ i <> Wait_started /\
  (n = 19%nat -> i = Set_started).
Proof. intros E. do 21 (destruct n as [|n]; [injection E as <-; repeat split; (lia || done)|]). discriminate E. Qed.

Lemma main_other id : id <> 0 -> main id = main 1.
Proof. intros E. unfold main. by rewrite (proj2 (Z.eqb_neq id 0) E). Qed.

Lemma main_other_at id n i : id <> 0 -> main id !! n = Some i -> i <> Set_started /\ (n = O -> i = Wait_started).
Proof. intros Hn E. rewrite (main_other id Hn) in E. do 7 (destruct n as [|n]; [injection E as <-; by split|]). discriminate E. Qed.

Lemma calls_take id n i : main id !! n = Some i -> calls (take (S n) (main id)) = calls (take n (main id)) ++ (if i is Call c then [c] else []).
Proof. intros E. rewrite (take_S_r _ _ _ E). unfold calls. rewrite omap_app. by destruct i. Qed.

Lemma calls_of_snoc id tr j c : calls_of id (tr ++ [(j, c)]) = calls_of id tr ++ (if j =? id then [c] else []).
Proof. unfold calls_of. rewrite omap_app. cbn. by destruct (j =? id). Qed.

Lemma boot_calls_done n : (20 <= n)%nat -> boot_calls ⊆ calls (take n (main 0)).
Proof.
  intros Hn. unfold boot_calls. rewrite <- (take_drop 20 (take n (main 0))), take_take, Nat.min_l by lia. unfold calls. rewrite omap_app. set_solver.
Qed.

(** A hart other than 0 has not passed [Wait_started] before [started]. *)
Lemma past_wait id i s : boot_inv s -> 0 <= id < NCPU -> main id !! next s id = Some i -> id <> 0 -> i <> Wait_started -> started s <> 0.
Proof.
  intros I Hid E Hn Hw. apply (bi_waited s I id); [lia|]. destruct (next s id) eqn:En; [|lia]. destruct Hw. by apply (main_other_at id 0 i).
Qed.

(** When a hart sets [satp], hart 0 has made the page table. *)
Lemma kpt_made id s : boot_inv s -> 0 <= id < NCPU -> main id !! next s id = Some (Call Kvminithart) -> kernel_pagetable s = kvmmade.
Proof.
  intros I Hid E. apply (bi_kpt s I). destruct (decide (id = 0)) as [->|Hn].
  - by apply main0_at in E as [E _]; apply E.
  - pose proof (bi_started s I (past_wait id _ s I Hid E Hn ltac:(done))). lia.
Qed.

(** ** The invariant is kept *)
Section Step.
Context (id : Z) (i : instr) (s s' : system) (I : boot_inv s) (Hid : 0 <= id < NCPU) (E : main id !! next s id = Some i) (F : effect id i s s').

Lemma next_same j : j <> id -> next s' j = next s j.
Proof. intros Hj. rewrite (ef_next _ _ _ _ F). by apply set_at_ne. Qed.
Lemma next_own : next s' id = S (next s id).
Proof. rewrite (ef_next _ _ _ _ F). apply set_at_eq. Qed.

Lemma new_call j c : c ∈ calls (take (next s' j) (main j)) -> c ∈ calls (take (next s j) (main j)) \/ j = id /\ i = Call c.
Proof.
  destruct (decide (j = id)) as [->|Hj]; [|rewrite next_same by done; by left]. rewrite next_own, (calls_take _ _ _ E), elem_of_app.
  intros [Hc|Hc]; [by left|]. right. split; [done|]. destruct i; try by apply elem_of_nil in Hc. apply list_elem_of_singleton in Hc. by subst.
Qed.

(** What the instruction does with the hart and the controller. *)
Lemma step_reset : at_reset (plic s').
Proof. pose proof (ef_acted _ _ _ _ F) as A. pose proof (bi_reset s I) as R. destruct i; [exact (ac_reset _ _ _ _ _ _ _ A)|..]; by destruct A as [_ ->]. Qed.
Lemma step_tp : regs (harts s' id) TP = id.
Proof. pose proof (ef_acted _ _ _ _ F) as A. pose proof (bi_tp s I id Hid) as R. destruct i; [exact (ac_tp _ _ _ _ _ _ _ A)|..]; by destruct A as [-> _]. Qed.
Lemma step_irqs : i = Call Plicinit \/ irqs_on (plic s) -> irqs_on (plic s').
Proof.
  intros Hc. pose proof (ef_acted _ _ _ _ F) as A. destruct i as [c| | |]; [|destruct A as [_ ->]; by destruct Hc..].
  apply (ac_irqs _ _ _ _ _ _ _ A). destruct Hc as [[= ->]|]; [by left|by right].
Qed.
Lemma step_satp : i = Call Kvminithart \/ hart_set kvmmade (harts s id) -> hart_set kvmmade (harts s' id).
Proof.
  intros Hc. pose proof (ef_acted _ _ _ _ F) as A. destruct i as [c| | |]; [|destruct A as [-> _]; by destruct Hc..].
  apply (ac_satp _ _ _ _ _ _ _ A); [intros ->; by apply (kpt_made id)|]. destruct Hc as [[= ->]|]; [by left|by right].
Qed.
Lemma step_stvec : i = Call Trapinithart \/ regs (harts s id) STVEC = u64 kernelvec -> regs (harts s' id) STVEC = u64 kernelvec.
Proof.
  intros Hc. pose proof (ef_acted _ _ _ _ F) as A. destruct i as [c| | |]; [|destruct A as [-> _]; by destruct Hc..].
  apply (ac_stvec _ _ _ _ _ _ _ A). destruct Hc as [[= ->]|]; [by left|by right].
Qed.
Lemma step_listen e : e = id /\ i = Call Plicinithart \/ listening e (plic s) -> listening e (plic s').
Proof.
  intros Hc. pose proof (ef_acted _ _ _ _ F) as A. destruct i as [c| | |]; [|destruct A as [_ ->]; by destruct Hc as [[_ ?]|]..].
  apply (ac_listen _ _ _ _ _ _ _ A). destruct Hc as [[-> [= ->]]|]; [by left|by right].
Qed.

Lemma step_calls j : 0 <= j < NCPU -> calls_of j (trace s') = calls (take (next s' j) (main j)).
Proof.
  intros Hj. rewrite (ef_trace _ _ _ _ F). destruct (decide (j = id)) as [->|Hn].
  - rewrite next_own, (calls_take _ _ _ E), <- (bi_calls s I id Hid). destruct i; rewrite ?app_nil_r; try done. by rewrite calls_of_snoc, Z.eqb_refl.
  - rewrite next_same, <- (bi_calls s I j Hj) by done. destruct i; rewrite ?app_nil_r; try done. by rewrite calls_of_snoc, (proj2 (Z.eqb_neq id j)), app_nil_r by done.
Qed.

Lemma step_order pre j c post : trace s' = pre ++ (j, c) :: post -> j <> 0 -> boot_calls ⊆ calls_of 0 pre.
Proof.
  rewrite (ef_trace _ _ _ _ F). intros Et Hj. destruct i as [b| | |] eqn:Ei; rewrite ?app_nil_r in Et; try by apply (bi_order s I pre j c post).
  destruct (decide (post = [])) as [->|Hp].
  - apply app_inj_2 in Et as [<- [= -> ->]]; [|done]. rewrite (bi_calls s I 0) by (change NCPU with 8; lia). apply boot_calls_done, (bi_started s I).
    by apply (past_wait j (Call c) s).
  - destruct (exists_last Hp) as (l & x & ->). rewrite app_comm_cons, app_assoc in Et. apply app_inj_2 in Et as [Et _]; [|done]. by apply (bi_order s I pre j c l).
Qed.

Lemma boot_step_inv : boot_inv s'.
Proof.
  assert (Z0 : 0 <= 0 < NCPU) by (change NCPU with 8; lia).
  assert (HZ : main 0 !! next s 0 = Some i /\ next s' 0 = S (next s 0) \/ id <> 0 /\ next s' 0 = next s 0).
  { destruct (decide (id = 0)) as [<-|]; [left; split; [exact E|exact next_own]|right; split; [done|by apply next_same]]. }
  assert (W : id <> 0 -> started s <> 0).
  { intros Hn. destruct (decide (i = Wait_started)) as [Ew|Ew]; [by apply (ef_wait _ _ _ _ F)|by apply (past_wait id i s)]. }
  split.
  - intros j Hj. destruct (decide (j = id)) as [->|Hn]; [apply step_tp|]. rewrite (ef_others _ _ _ _ F) by done. by apply (bi_tp s I).
  - apply step_reset.
  - apply step_calls.
  - rewrite (ef_started _ _ _ _ F). intros Hs. destruct HZ as [[E0 ->]|[Hn ->]]; [|by apply (bi_started s I), W].
    apply main0_at in E0 as (_ & E1 & _). destruct i; [..|rewrite E1; [lia|done]|]; pose proof (bi_started s I Hs); lia.
  - rewrite (ef_started _ _ _ _ F). intros Hn. destruct HZ as [[E0 N]|[Hi N]]; [|specialize (W Hi); by destruct i].
    apply main0_at in E0 as (_ & _ & _ & _ & _ & E1). destruct (decide (next s 0 = 19%nat)) as [E2|E2]; [by rewrite (E1 E2)|].
    assert (Hs : started s <> 0) by (apply (bi_set s I); lia). by destruct i.
  - intros j Hj Hp. rewrite (ef_started _ _ _ _ F). assert (Hs : started s <> 0); [|by destruct i].
    destruct (decide (j = id)) as [Ej|Hn]; [apply W; lia|]. rewrite next_same in Hp by done. by apply (bi_waited s I j).
  - intros Hn. apply (ef_kpt _ _ _ _ F). destruct HZ as [[E0 N]|[_ N]]; [|right; apply (bi_kpt s I); lia].
    apply main0_at in E0 as (_ & _ & E1 & _). destruct (decide (next s 0 = 6%nat)); [left; auto|right; apply (bi_kpt s I); lia].
  - intros Hn. apply step_irqs. destruct HZ as [[E0 N]|[_ N]]; [|right; apply (bi_irqs s I); lia].
    apply main0_at in E0 as (_ & _ & _ & E1 & _). destruct (decide (next s 0 = 11%nat)); [left; auto|right; apply (bi_irqs s I); lia].
  - intros j Hj Hc. apply new_call in Hc. destruct (decide (j = id)) as [->|Hn]; [|rewrite (ef_others _ _ _ _ F) by done; apply (bi_satp s I); tauto].
    apply step_satp. destruct Hc as [Hc|[_ Hc]]; [right; by apply (bi_satp s I)|by left].
  - intros j Hj Hc. apply new_call in Hc. destruct (decide (j = id)) as [->|Hn]; [|rewrite (ef_others _ _ _ _ F) by done; apply (bi_stvec s I); tauto].
    apply step_stvec. destruct Hc as [Hc|[_ Hc]]; [right; by apply (bi_stvec s I)|by left].
  - intros j Hj Hc. apply new_call in Hc. apply step_listen. destruct Hc as [Hc|Hc]; [right; by apply (bi_listen s I)|by left].
  - apply step_order.
Qed.
End Step.

Lemma bstep_inv s s' : bstep s s' -> boot_inv s -> boot_inv s'.
Proof.
  intros [id i t t' Hid E Ex] I. destruct (decide (i = Wait_started /\ started t = 0)) as [[-> Es]|Hw].
  - cbn [exec] in Ex. by rewrite Es in Ex.
  - destruct (exec_ok id i t Hid (bi_tp t I id Hid) (bi_reset t I)) as (t2 & Ex2 & F); [tauto|]. rewrite Ex in Ex2. injection Ex2 as <-. by apply (boot_step_inv id i t).
Qed.

Lemma powered_inv s : powered s -> boot_inv s.
Proof.
  intros [P1 P2 P3 P4 P5].
  assert (C : forall id c, ~ c ∈ calls (take (next s id) (main id))) by (intros id c; rewrite P2; apply not_elem_of_nil).
  split; try done; rewrite ?P2; try lia.
  - intros id _. by rewrite P2, P3.
  - intros id _. rewrite P2. lia.
  - intros id _ Hc. by destruct (C id _ Hc).
  - intros id _ Hc. by destruct (C id _ Hc).
  - intros id _ Hc. by destruct (C id _ Hc).
  - intros pre i c post E. rewrite P3 in E. by destruct pre.
Qed.

Lemma booting_inv s0 s : powered s0 -> rtc bstep s0 s -> boot_inv s.
Proof. intros P Hr. apply powered_inv in P. induction Hr as [|x y z Hx _ IH]; [done|]. by apply IH, (bstep_inv x). Qed.

(** ** All harts get to the scheduler *)
Lemma hart_finishes k : forall id s, boot_inv s -> 0 <= id < NCPU -> id = 0 \/ started s <> 0 -> (length (main id) - next s id <= k)%nat -> exists s',
  rtc bstep s s' /\ boot_inv s' /\ (length (main id) <= next s' id)%nat /\ (forall j, j <> id -> next s' j = next s j).
Proof.
  induction k as [|k IH]; intros id s I Hid Hs Hk.
  - exists s. split; [apply rtc_refl|]. split; [done|]. split; [lia|done].
  - destruct (main id !! next s id) as [i|] eqn:E; [|apply lookup_ge_None in E; exists s; split; [apply rtc_refl|split; [done|split; [lia|done]]]].
    destruct (exec_ok id i s Hid (bi_tp s I id Hid) (bi_reset s I)) as (s1 & Ex & F).
    { intros ->. destruct Hs as [->|Hs]; [|done]. by destruct (main0_at _ _ E) as (_ & _ & _ & _ & Hw & _). }
    assert (I1 : boot_inv s1) by (by apply (boot_step_inv id i s)).
    destruct (IH id s1 I1 Hid) as (s' & R & I' & L & O).
    + destruct Hs as [|Hs]; [by left|right]. rewrite (ef_started _ _ _ _ F). by destruct i.
    + rewrite (ef_next _ _ _ _ F), set_at_eq. lia.
    + exists s'. split; [|split; [done|split; [done|]]].
      * eapply rtc_l; [|exact R]. by apply (b_step id i).
      * intros j Hj. rewrite O, (ef_next _ _ _ _ F) by done. by apply set_at_ne.
Qed.

Lemma harts_finish (l : list Z) : forall s, boot_inv s -> (20 <= next s 0)%nat -> (forall id, id ∈ l -> 0 < id < NCPU) -> exists s',
  rtc bstep s s' /\ boot_inv s' /\ (forall id, id ∈ l -> (length (main id) <= next s' id)%nat) /\ forall j, j ∉ l -> next s' j = next s j.
Proof.
  induction l as [|id l IH]; intros s I Hs Hl.
  - exists s. split; [apply rtc_refl|]. split; [done|]. split; [|done]. intros id Hid. by apply elem_of_nil in Hid.
  - destruct (IH s I Hs) as (s1 & R1 & I1 & L1 & O1); [set_solver|].
    assert (Hid : 0 < id < NCPU) by (apply Hl; set_solver).
    assert (H1 : (20 <= next s1 0)%nat). { rewrite O1; [done|]. intros Hz. assert (0 < 0) by (apply Hl; set_solver). lia. }
    destruct (hart_finishes (length (main id)) id s1 I1) as (s' & R & I' & L & O); [lia|right; by apply (bi_set s1 I1)|lia|].
    exists s'. split; [by etrans|]. split; [done|]. split.
    + intros j Hj. destruct (decide (j = id)) as [->|Hn]; [done|]. rewrite O by done. apply L1. set_solver.
    + intros j Hj. rewrite O, O1 by set_solver. done.
Qed.

Lemma finished s id : boot_inv s -> 0 <= id < NCPU -> (length (main id) <= next s id)%nat -> Scheduler ∈ calls_of id (trace s).
Proof.
  intros I Hid L. rewrite (bi_calls s I id Hid), take_ge by done. unfold main, calls. rewrite omap_app. set_solver.
Qed.

Lemma scheduler_last id n : 0 <= id < NCPU -> Scheduler ∈ calls (take n (main id)) -> (length (main id) <= n)%nat.
Proof.
  intros Hid Hc. destruct (decide (id = 0)) as [->|Hn]; [|rewrite (main_other id Hn) in *];
    do 21 (destruct n as [|n]; [apply (bool_decide_pack _) in Hc; vm_compute in Hc; done || (cbn; lia)|]); cbn; lia.
Qed.
Lemma every_hart id c : c ∈ [Kvminithart; Trapinithart; Plicinithart] -> c ∈ calls (main id).
Proof.
  intros Hc. assert (Hs : Forall (fun c => c ∈ calls (main 0) /\ c ∈ calls (main 1)) [Kvminithart; Trapinithart; Plicinithart]) by (apply (bool_decide_unpack _); by vm_compute).
  rewrite Forall_forall in Hs. destruct (Hs c Hc). destruct (decide (id = 0)) as [->|Hn]; [done|]. by rewrite (main_other id Hn).
Qed.
Lemma main_long id : (0 < length (main id))%nat.
Proof. unfold main. rewrite length_app. cbn. lia. Qed.

(** C21.  Booting, in every interleaving of the harts: a hart other than 0 makes
    no call before hart 0 has made all its initialisation calls, each hart
    makes the calls of [main] in order, and a hart that has entered the
    scheduler runs on the kernel page table that [kvminit] made, with no stale
    translations, takes traps at [kernelvec], and listens to the interrupts of
    the serial port and the disk and no others, which have a priority. *)
Theorem boot_order s0 s : powered s0 -> rtc bstep s0 s ->
  (forall pre i c post, trace s = pre ++ (i, c) :: post -> i <> 0 -> boot_calls ⊆ calls_of 0 pre) /\
  forall id, 0 <= id < NCPU -> calls_of id (trace s) `prefix_of` calls (main id) /\
    (Scheduler ∈ calls_of id (trace s) ->
     hart_set kvmmade (harts s id) /\ regs (harts s id) STVEC = u64 kernelvec /\ listening id (plic s) /\ irqs_on (plic s)).
Proof.
  intros P R. pose proof (booting_inv s0 s P R) as I. split; [exact (bi_order s I)|]. intros id Hid. rewrite (bi_calls s I id Hid). split.
  { exists (calls (drop (next s id) (main id))). unfold calls. by rewrite <- omap_app, take_drop. }
  intros Hc. apply scheduler_last in Hc; [|done].
  assert (K : forall c, c ∈ [Kvminithart; Trapinithart; Plicinithart] -> c ∈ calls (take (next s id) (main id))).
  { intros c Hc'. rewrite take_ge by done. by apply every_hart. }
  split; [apply (bi_satp s I); [done|]; apply K; set_solver|]. split; [apply (bi_stvec s I); [done|]; apply K; set_solver|].
  split; [apply (bi_listen s I); [done|]; apply K; set_solver|]. apply (bi_irqs s I). destruct (decide (id = 0)) as [->|Hn]; [cbn in Hc; lia|].
  pose proof (bi_started s I (bi_waited s I id ltac:(lia) ltac:(pose proof (main_long id); lia))). lia.
Qed.

(** From every state that booting can reach, the harts can go on until
    all of them are in the scheduler. *)
Theorem boot_completes s0 s : powered s0 -> rtc bstep s0 s -> exists s', rtc bstep s s' /\ forall id, 0 <= id < NCPU -> Scheduler ∈ calls_of id (trace s').
Proof.
  intros P R. pose proof (booting_inv s0 s P R) as I.
  destruct (hart_finishes (length (main 0)) 0 s I) as (s1 & R1 & I1 & L1 & _); [change NCPU with 8; lia|by left|lia|].
  destruct (harts_finish (seqZ 1 7) s1 I1) as (s2 & R2 & I2 & L2 & O2); [cbn in L1; lia|intros id Hid; apply elem_of_seqZ in Hid; change NCPU with 8; lia|].
  exists s2. split; [by etrans|]. intros id Hid. apply finished; [done..|]. destruct (decide (id = 0)) as [->|Hn].
  - rewrite O2; [done|]. rewrite elem_of_seqZ. lia.
  - apply L2. apply elem_of_seqZ. change NCPU with 8 in Hid. lia.
Qed.
End Main.

Module MainDemo.
Definition hart_at (id : Z) : hart := mkhart (fun r => match r with TP => id | _ => 0 end) (fun _ => 0) Supervisor 0 ∅.
Definition power : system := mksystem 0 0 SimplePlic.d0 hart_at (fun _ => O) [].
Definition kpt : Z := 0x87fff000.
Definition vec : Z := 0x80005c40.
Lemma power_ok : powered power.
Proof. by split. Qed.
End MainDemo.

Lemma boot_order_witness : exists s : system, rtc (bstep MainDemo.kpt MainDemo.vec) MainDemo.power s /\ Scheduler ∈ calls_of 0 (trace s) /\
  regs (harts s 0) STVEC = u64 MainDemo.vec /\ listening 0 (plic s).
Proof.
  pose proof (powered_inv MainDemo.kpt MainDemo.vec _ MainDemo.power_ok) as I.
  assert (Hc : 0 <= 0 < NCPU) by (by vm_compute).
  destruct (hart_finishes MainDemo.kpt MainDemo.vec 21 0 _ I Hc) as (s & R & I' & L & _); [by left|by apply Nat.leb_le|].
  exists s. split; [exact R|]. assert (Hs : Scheduler ∈ calls_of 0 (trace s)) by (by apply (finished MainDemo.kpt MainDemo.vec)).
  split; [exact Hs|]. destruct (boot_order MainDemo.kpt MainDemo.vec MainDemo.power s MainDemo.power_ok R) as [_ B].
  destruct (B 0 Hc) as [_ B0]. destruct (B0 Hs) as (_ & ? & ? & _). by split.
Defined.

Lemma boot_completes_witness : exists s : system, rtc (bstep MainDemo.kpt MainDemo.vec) MainDemo.power s /\ Scheduler ∈ calls_of 7 (trace s).
Proof.
  destruct (boot_completes MainDemo.kpt MainDemo.vec MainDemo.power MainDemo.power MainDemo.power_ok (rtc_refl _ _)) as (s & R & B).
  exists s. split; [exact R|]. apply B. by vm_compute.
Defined.
