(* ===== verification/Programs.v ===== *)
(** * user/: the small programs

    cat, wc, echo, ls, rm, mkdir, ln, kill, zombie and init, and grep as a
    process.  A program is an
    interaction tree whose events are system calls; the kernel is a handler
    that answers them.  A C string is the list of its characters before the
    NUL, [argv] the list of the arguments. *)

From S2P Require Import Prelude Riscv Fs.
From S2P Require Import Grep.
From S2P Require Import Printf Ulib.
From ITree Require Import Core.ITreeDefinition.
Local Open Scope Z_scope.

(** ** System calls (user/user.h) *)

(** [Read] answers with the bytes it delivers, no bytes at the end of the file,
    or nothing for the result -1; [Fstat] with the record or nothing.
    [Undefined] is what C leaves undefined. *)
Inductive sysE : Type -> Type :=
| Open (path : list Z) (omode : Z) : sysE Z
| Read (fd n : Z) : sysE (option (list Z))
| Write (fd : Z) (bytes : list Z) : sysE Z
| Close (fd : Z) : sysE Z
| Fstat (fd : Z) : sysE (option stat)
| Dup (fd : Z) : sysE Z
| Mknod (path : list Z) (major minor : Z) : sysE Z
| Unlink (path : list Z) : sysE Z
| Mkdir (path : list Z) : sysE Z
| Link (old new : list Z) : sysE Z
| Kill (pid : Z) : sysE Z
| Fork : sysE Z
| Wait : sysE Z
| Exec (path : list Z) (argv : list (list Z)) : sysE Z
| Sleep (n : Z) : sysE Z
| Exit (status : Z) : sysE Empty_set
| Undefined : sysE Empty_set.

Abbreviation prog := (itree sysE).
Notation "'call!' x <- t ; k" := (ITree.bind t (fun x => k)) (at level 10, x name, t at level 99, k at level 200).
Notation "t >> k" := (ITree.bind t (fun _ => k)) (at level 100, k at level 200, right associativity).

Definition sys {X} (e : sysE X) : prog X := ITree.trigger e.
Definition exit {R} (status : Z) : prog R := call! v <- sys (Exit status); match v : Empty_set with end.

(** [printf] writes one character at a time and ignores the results. *)
Fixpoint puts (out : uout) : prog unit :=
  match out with [] => Ret tt | (fd, c) :: out' => sys (Write fd [c]) >> puts out' end.
Definition uprint (fd : Z) (fmt : string) (ap : list vararg) : prog unit :=
  match vprintf fd (codes fmt) ap [] with
  | Ok _ out => puts out
  | _ => call! v <- sys Undefined; match v : Empty_set with end
  end.

(** A format that ends its line. *)
Definition line (s : string) : string := (s +:+ String (Ascii.ascii_of_nat 10) EmptyString)%string.

(** user/ulib.c *)
Fixpoint ustrchr (s : list Z) (c : Z) : option (list Z) :=
  match s with [] => None | x :: s' => if x =? c then Some s else ustrchr s' c end.
Definition ustat (n : list Z) : prog (option stat) :=
  call! fd <- sys (Open n O_RDONLY);
  if fd <? 0 then Ret None
  else
    call! r <- sys (Fstat fd);
    sys (Close fd) >>
    Ret r.
(** [_main]: [exit(0)] when [main] returns. *)
Definition user_main {R} (main : prog unit) : prog R := main >> exit 0.

(** ** user/wc.c *)
Record wc_state := mkcounts { wc_l : Z; wc_w : Z; wc_c : Z; wc_inword : bool }.
Definition wc_blanks : list Z := [32; 13; 9; 10; 11].

Definition wc_char (s : wc_state) (x : Z) : wc_state :=
  let l' := if x =? 10 then s32 (wc_l s + 1) else wc_l s in
  let c' := s32 (wc_c s + 1) in
  match ustrchr wc_blanks x with
  | Some _ => mkcounts l' (wc_w s) c' false
  | None => if wc_inword s then mkcounts l' (wc_w s) c' true else mkcounts l' (s32 (wc_w s + 1)) c' true
  end.

(** The loop of [wc]; no counts after a read error. *)
Definition wc_loop (fd : Z) (s : wc_state) : prog (option wc_state) :=
  ITree.iter (fun s =>
    call! n <- sys (Read fd 512);
    match n with
    | Some [] => Ret (inr (Some s))
    | Some buf => Ret (inl (foldl wc_char s buf))
    | None => Ret (inr None)
    end) s.

Definition wc (fd : Z) (name : list Z) : prog unit :=
  call! r <- wc_loop fd (mkcounts 0 0 0 false);
  match r with
  | None => uprint 1 (line "wc: read error") [] >> exit 1
  | Some s => uprint 1 (line "%d %d %d %s") [VInt (wc_l s); VInt (wc_w s); VInt (wc_c s); VStr (Some name)]
  end.

Fixpoint wc_files (args : list (list Z)) : prog unit :=
  match args with
  | [] => exit 0
  | a :: args' =>
      call! fd <- sys (Open a O_RDONLY);
      if fd <? 0 then uprint 1 (line "wc: cannot open %s") [VStr (Some a)] >> exit 1
      else wc fd a >> sys (Close fd) >> wc_files args'
  end.
Definition wc_main (argv : list (list Z)) : prog unit :=
  match tail argv with [] => wc 0 [] >> exit 0 | args => wc_files args end.

(** ** user/cat.c *)
(** The loop of [cat]; [false] after a read error. *)
Definition cat_loop (fd : Z) : prog bool :=
  ITree.iter (fun _ : unit =>
    call! n <- sys (Read fd 512);
    match n with
    | Some [] => Ret (inr true)
    | Some buf =>
        call! r <- sys (Write 1 buf);
        if r =? Z.of_nat (length buf) then Ret (inl tt) else uprint 2 (line "cat: write error") [] >> exit 1
    | None => Ret (inr false)
    end) tt.

Definition cat (fd : Z) : prog unit :=
  call! n <- cat_loop fd;
  if n : bool then Ret tt else uprint 2 (line "cat: read error") [] >> exit 1.

Fixpoint cat_files (args : list (list Z)) : prog unit :=
  match args with
  | [] => exit 0
  | a :: args' =>
      call! fd <- sys (Open a O_RDONLY);
      if fd <? 0 then uprint 2 (line "cat: cannot open %s") [VStr (Some a)] >> exit 1
      else cat fd >> sys (Close fd) >> cat_files args'
  end.
Definition cat_main (argv : list (list Z)) : prog unit :=
  match tail argv with [] => cat 0 >> exit 0 | args => cat_files args end.

(** ** user/echo.c *)
Fixpoint echo_args (args : list (list Z)) : prog unit :=
  match args with
  | [] => exit 0
  | a :: args' => sys (Write 1 a) >> sys (Write 1 (if args' is [] then [10] else [32])) >> echo_args args'
  end.
Definition echo_main (argv : list (list Z)) : prog unit := echo_args (tail argv).

(** ** user/rm.c, mkdir.c, ln.c, kill.c, zombie.c *)
Fixpoint rm_loop (args : list (list Z)) : prog unit :=
  match args with
  | [] => exit 0
  | a :: args' =>
      call! r <- sys (Unlink a);
      if r <? 0 then uprint 2 (line "rm: %s failed to delete") [VStr (Some a)] >> exit 0 else rm_loop args'
  end.
Definition rm_main (argv : list (list Z)) : prog unit :=
  match tail argv with [] => uprint 2 (line "Usage: rm files...") [] >> exit 1 | args => rm_loop args end.

Fixpoint mkdir_loop (args : list (list Z)) : prog unit :=
  match args with
  | [] => exit 0
  | a :: args' =>
      call! r <- sys (Mkdir a);
      if r <? 0 then uprint 2 (line "mkdir: %s failed to create") [VStr (Some a)] >> exit 0 else mkdir_loop args'
  end.
Definition mkdir_main (argv : list (list Z)) : prog unit :=
  match tail argv with [] => uprint 2 (line "Usage: mkdir files...") [] >> exit 1 | args => mkdir_loop args end.

Definition ln_main (argv : list (list Z)) : prog unit :=
  match argv with
  | [_; old; new] =>
      call! r <- sys (Link old new);
      (if r <? 0 then uprint 2 (line "link %s %s: failed") [VStr (Some old); VStr (Some new)] else Ret tt) >>
      exit 0
  | _ => uprint 2 (line "Usage: ln old new") [] >> exit 1
  end.

Fixpoint kill_args (args : list (list Z)) : prog unit :=
  match args with [] => exit 0 | a :: args' => sys (Kill (atoi a)) >> kill_args args' end.
Definition kill_main (argv : list (list Z)) : prog unit :=
  match tail argv with [] => uprint 2 (line "usage: kill pid...") [] >> exit 1 | args => kill_args args end.

Definition zombie_main : prog unit :=
  call! pid <- sys Fork;
  (if 0 <? pid then sys (Sleep 5) >> Ret tt else Ret tt) >>
  exit 0.

(** ** user/grep.c *)

(** The loop over the lines in the buffer; what is left. *)
Fixpoint grep_lines (fuel : nat) (pattern buf : list Z) : prog (list Z) :=
  match fuel with
  | O => Ret buf
  | S f =>
      match cut buf with
      | None => Ret buf
      | Some (l, p) => (if match_ pattern l then sys (Write 1 (l ++ [NEWLINE])) >> Ret tt else Ret tt) >> grep_lines f pattern p
      end
  end.
Definition grep_fd (pattern : list Z) (fd : Z) : prog unit :=
  ITree.iter (fun buf =>
    call! n <- sys (Read fd (1024 - Z.of_nat (length buf) - 1));
    match n with
    | None | Some [] => Ret (inr tt)
    | Some got => call! p <- grep_lines (S (length (buf ++ got))) pattern (buf ++ got); Ret (inl p)
    end) [].
Fixpoint grep_files (pattern : list Z) (args : list (list Z)) : prog unit :=
  match args with
  | [] => exit 0
  | a :: args' =>
      call! fd <- sys (Open a O_RDONLY);
      if fd <? 0 then uprint 1 (line "grep: cannot open %s") [VStr (Some a)] >> exit 1
      else grep_fd pattern fd >> sys (Close fd) >> grep_files pattern args'
  end.
Definition grep_main (argv : list (list Z)) : prog unit :=
  match tail argv with
  | [] => uprint 2 (line "usage: grep pattern [file ...]") [] >> exit 1
  | [pattern] => grep_fd pattern 0 >> exit 0
  | pattern :: args => grep_files pattern args
  end.

(** ** user/ls.c *)
(** [for(p=path+strlen(path); p >= path && *p != '/'; p--) ; p++;] where [n] is
    [p - path]. *)
Fixpoint last_slash (path : list Z) (n : nat) : nat :=
  match n with
  | O => O
  | S n' => match path !! n' with Some x => if x =? 47 then n else last_slash path n' | None => n end
  end.

Definition fmtname (path : list Z) : list Z :=
  let p := drop (last_slash path (length path)) path in
  if DIRSIZ <=? Z.of_nat (length p) then p else p ++ replicate (Z.to_nat DIRSIZ - length p) 32.

(** The string in an array. *)
Fixpoint cstring (l : list Z) : list Z := match l with [] => [] | x :: l' => if x =? 0 then [] else x :: cstring l' end.

(** One entry: [de.inum] and [de.name]; [buf] holds [path/]. *)
Definition ls_entry (buf de : list Z) : prog unit :=
  let inum := nth 0 de 0 + 256 * nth 1 de 0 in
  if inum =? 0 then Ret tt
  else
    let name := buf ++ cstring (take (Z.to_nat DIRSIZ) (drop 2 de)) in
    call! r <- ustat name;
    match r with
    | None => uprint 1 (line "ls: cannot stat %s") [VStr (Some name)]
    | Some st => uprint 1 (line "%s %d %d %d") [VStr (Some (fmtname name)); VInt (st_type st); VInt (st_ino st); VInt (st_size st)]
    end.

Definition ls_entries (fd : Z) (buf : list Z) : prog unit :=
  ITree.iter (fun _ : unit =>
    call! n <- sys (Read fd 16);
    match n with
    | Some de => if (length de =? 16)%nat then ls_entry buf de >> Ret (inl tt) else Ret (inr tt)
    | None => Ret (inr tt)
    end) tt.

Definition ls (path : list Z) : prog unit :=
  call! fd <- sys (Open path O_RDONLY);
  if fd <? 0 then uprint 2 (line "ls: cannot open %s") [VStr (Some path)]
  else
    call! r <- sys (Fstat fd);
    match r with
    | None => uprint 2 (line "ls: cannot stat %s") [VStr (Some path)] >> sys (Close fd) >> Ret tt
    | Some st =>
        (if (st_type st =? T_DEVICE) || (st_type st =? T_FILE) then
           uprint 1 (line "%s %d %d %l") [VStr (Some (fmtname path)); VInt (st_type st); VInt (st_ino st); VInt (st_size st)]
         else if st_type st =? T_DIR then
           if 512 <? Z.of_nat (length path) + 1 + DIRSIZ + 1 then uprint 1 (line "ls: path too long") []
           else ls_entries fd (path ++ [47])
         else Ret tt) >>
        sys (Close fd) >> Ret tt
    end.

Fixpoint ls_paths (args : list (list Z)) : prog unit := match args with [] => exit 0 | a :: args' => ls a >> ls_paths args' end.
Definition ls_main (argv : list (list Z)) : prog unit := match tail argv with [] => ls [46] >> exit 0 | args => ls_paths args end.

(** ** user/init.c *)
Definition CONSOLE : Z := 1.

(** The inner init_loop, which ends when the shell with this [pid] has exited. *)
Definition init_wait (pid : Z) : prog unit :=
  ITree.iter (fun _ : unit =>
    call! wpid <- sys Wait;
    if wpid =? pid then Ret (inr tt)
    else if wpid <? 0 then uprint 1 (line "init: wait returned an error") [] >> exit 1
    else Ret (inl tt)) tt.

Definition init_loop : prog unit :=
  ITree.iter (fun _ : unit =>
    uprint 1 (line "init: starting sh") [] >>
    call! pid <- sys Fork;
    if pid <? 0 then uprint 1 (line "init: fork failed") [] >> exit 1
    else if pid =? 0 then
      sys (Exec (codes "sh") [codes "sh"]) >>
      uprint 1 (line "init: exec sh failed") [] >>
      exit 1
    else
      init_wait pid >>
      Ret (inl tt)) tt.

Definition init_main : prog unit :=
  call! fd <- sys (Open (codes "console") O_RDWR);
  (if fd <? 0 then sys (Mknod (codes "console") CONSOLE 0) >> sys (Open (codes "console") O_RDWR) >> Ret tt else Ret tt) >>
  sys (Dup 0) >>
  sys (Dup 0) >>
  init_loop.

(** ** Runs *)

(** A program returns, exits, or becomes another one by [exec]. *)
Inductive outcome (R : Type) := Returned (r : R) | Exited (status : Z) | Became (path : list Z) (argv : list (list Z)).
Arguments Returned {R}. Arguments Exited {R}. Arguments Became {R}.

Section Run.
(** The kernel: [None] for a call that does not return, such as a successful
    [exec]. *)
Context {W : Type} (kernel : forall X, sysE X -> W -> option (X * W)).
Arguments kernel {X}.

Inductive runF {R} : itree' sysE R -> W -> outcome R -> W -> Prop :=
| run_ret r w : runF (RetF r) w (Returned r) w
| run_tau t w o w' : runF (observe t) w o w' -> runF (TauF t) w o w'
| run_exit z k w : runF (VisF (Exit z) k) w (Exited z) w
| run_exec path argv k w : kernel (Exec path argv) w = None -> runF (VisF (Exec path argv) k) w (Became path argv) w
| run_vis X (e : sysE X) k x w w1 o w' : kernel e w = Some (x, w1) -> runF (observe (k x)) w1 o w' -> runF (VisF e k) w o w'.
Definition run {R} (t : prog R) (w : W) (o : outcome R) (w' : W) : Prop := runF (observe t) w o w'.

Lemma observe_bind {R S} (t : prog R) (k : R -> prog S) : observe (ITree.bind t k) =
  match observe t with RetF r => observe (k r) | TauF t' => TauF (ITree.bind t' k) | VisF e q => VisF e (fun x => ITree.bind (q x) k) end.
Proof. change (observe (ITree.bind t k)) with (observe (match observe t with RetF r => k r | TauF t' => Tau (ITree.bind t' k) | VisF e q => Vis e (fun x => ITree.bind (q x) k) end)). by destruct (observe t). Qed.

Lemma run_bind {R S} (t : prog R) (k : R -> prog S) w x w1 o w' : run t w (Returned x) w1 -> run (k x) w1 o w' -> run (ITree.bind t k) w o w'.
Proof.
  unfold run. intros Ht Hk. remember (observe t) as ot eqn:Et. remember (Returned x) as ox eqn:Eo. revert t Et Hk.
  induction Ht as [r w|t0 w o0 w2 _ IH|z k0 w|path argv k0 w _|X e k0 y w w2 o0 w3 E _ IH]; intros t Et Hk; try discriminate Eo.
  - injection Eo as ->. by rewrite observe_bind, <- Et.
  - rewrite observe_bind, <- Et. apply run_tau. by apply (IH Eo t0).
  - rewrite observe_bind, <- Et. eapply run_vis; [exact E|]. by apply (IH Eo (k0 y)).
Qed.

(** A program that ends inside its first part. *)
Definition cast {R S} (o : outcome R) : option (outcome S) :=
  match o with Returned _ => None | Exited z => Some (Exited z) | Became p a => Some (Became p a) end.
Lemma run_bind_end {R S} (t : prog R) (k : R -> prog S) w o o' w' : run t w o w' -> cast o = Some o' -> run (ITree.bind t k) w o' w'.
Proof.
  unfold run. intros Ht. remember (observe t) as ot eqn:Et. revert t Et.
  induction Ht as [r w|t0 w o0 w2 _ IH|y k0 w|path argv k0 w En|X e k0 y w w2 o0 w3 E _ IH]; intros t Et Eo; try discriminate Eo; rewrite observe_bind, <- Et.
  - apply run_tau. by apply (IH t0).
  - injection Eo as <-. apply run_exit.
  - injection Eo as <-. by apply run_exec.
  - eapply run_vis; [exact E|]. by apply (IH (k0 y)).
Qed.

Lemma run_sys {X S} (e : sysE X) (k : X -> prog S) w x w1 o w' : kernel e w = Some (x, w1) -> run (k x) w1 o w' -> run (ITree.bind (sys e) k) w o w'.
Proof. intros E Hk. unfold run. rewrite observe_bind. eapply run_vis; [exact E|]. rewrite observe_bind. exact Hk. Qed.
Lemma exit_run {R} z w : run (exit z : prog R) w (Exited z) w.
Proof. unfold run, exit. rewrite observe_bind. apply run_exit. Qed.

Lemma observe_iter {I R} (body : I -> prog (I + R)) i : observe (ITree.iter body i) =
  observe (ITree.bind (body i) (fun lr => match lr with inl j => Tau (ITree.iter body j) | inr r => Ret r end)).
Proof. reflexivity. Qed.

Lemma run_iter {I R} (body : I -> prog (I + R)) i w j w1 o w' : run (body i) w (Returned (inl j)) w1 -> run (ITree.iter body j) w1 o w' -> run (ITree.iter body i) w o w'.
Proof. intros Hb Hr. unfold run. rewrite observe_iter. apply (run_bind (body i) _ w (inl j) w1); [exact Hb|]. by apply run_tau. Qed.
Lemma run_iter_done {I R} (body : I -> prog (I + R)) i w r w1 : run (body i) w (Returned (inr r)) w1 -> run (ITree.iter body i) w (Returned r) w1.
Proof. intros Hb. unfold run. rewrite observe_iter. apply (run_bind (body i) _ w (inr r) w1); [exact Hb|]. apply run_ret. Qed.
Lemma run_iter_end {I R} (body : I -> prog (I + R)) i w o o' w1 : run (body i) w o w1 -> cast o = Some o' -> run (ITree.iter body i) w o' w1.
Proof. intros Hb E. unfold run. rewrite observe_iter. by apply (run_bind_end (body i) _ w o). Qed.

(** ** Printing *)

(** The kernel takes these characters one by one. *)
Fixpoint takes (out : uout) (w w' : W) : Prop :=
  match out with [] => w' = w | (fd, c) :: out' => exists n w1, kernel (Write fd [c]) w = Some (n, w1) /\ takes out' w1 w' end.

Lemma puts_run out w w' : takes out w w' -> run (puts out) w (Returned tt) w'.
Proof.
  revert w. induction out as [|[fd c] out IH]; intros w; cbn; [intros ->; apply run_ret|]. intros (n & w1 & E & H). eapply run_sys; [exact E|]. by apply IH.
Qed.

Lemma print_run fd fmt ap t w w' : Forall char_ok (codes fmt) -> Forall vararg_ok ap -> text directive_text (pieces (codes fmt)) ap = Some t ->
  takes (pair fd <$> t) w w' -> run (uprint fd fmt ap) w (Returned tt) w'.
Proof. intros Hf Ha Et H. unfold uprint. rewrite (vprintf_text fd (codes fmt) ap t [] Hf Ha Et). by apply puts_run. Qed.

(** ** Reading *)

(** Successive [read]s deliver these pieces, then the end of the file. *)
Inductive delivers (fd n : Z) : W -> list (list Z) -> W -> Prop :=
| del_end w w' : kernel (Read fd n) w = Some (Some [], w') -> delivers fd n w [] w'
| del_piece w p w1 ps w' : p <> [] -> kernel (Read fd n) w = Some (Some p, w1) -> delivers fd n w1 ps w' -> delivers fd n w (p :: ps) w'.

(** ** wc *)
Definition blank (x : Z) : bool := if ustrchr wc_blanks x is Some _ then true else false.
(** The text between blanks. *)
Fixpoint fields (bs : list Z) : list (list Z) :=
  match bs with
  | [] => [[]]
  | x :: bs' => if blank x then [] :: fields bs' else match fields bs' with f :: fs => (x :: f) :: fs | [] => [[x]] end
  end.
(** Words are the fields that are not empty. *)
Definition words (bs : list Z) : Z := Z.of_nat (length (filter (fun f => f <> []) (fields bs))).
Definition lines (bs : list Z) : Z := Z.of_nat (length (filter (fun x => x = 10) bs)).

Lemma words_cons x bs : words (x :: bs) = if blank x then words bs else if fields bs is (_ :: _) :: _ then words bs else words bs + 1.
Proof.
  unfold words. cbn [fields]. destruct (blank x); [by rewrite filter_cons_False by (intros H; by apply H)|].
  destruct (fields bs) as [|[|y f] fs] eqn:E.
  - by destruct bs as [|z bs]; [|cbn in E; destruct (blank z); [|destruct (fields bs)]].
  - rewrite filter_cons_True, filter_cons_False by (done || (intros H; by apply H)). cbn [length]. lia.
  - by rewrite !filter_cons_True by done.
Qed.

Lemma words_bound bs : 0 <= words bs <= Z.of_nat (length bs).
Proof.
  induction bs as [|x bs IH]; [by cbn|]. rewrite words_cons. cbn [length]. destruct (blank x); [lia|]. destruct (fields bs) as [|[|? ?] ?]; lia.
Qed.
Lemma lines_cons x bs : lines (x :: bs) = (if x =? 10 then 1 else 0) + lines bs.
Proof. unfold lines. rewrite filter_cons. destruct (decide (x = 10)) as [->|Hx]; [cbn [length Z.eqb Pos.eqb]; lia|]. by rewrite (proj2 (Z.eqb_neq x 10) Hx). Qed.
Lemma lines_bound bs : 0 <= lines bs <= Z.of_nat (length bs).
Proof. unfold lines. pose proof (length_filter (fun x : Z => x = 10) bs). lia. Qed.

(** The words that begin in [bs] when the last character was in a word. *)
Definition new_words (inword : bool) (bs : list Z) : Z := if inword then if fields bs is (_ :: _) :: _ then words bs - 1 else words bs else words bs.

Lemma new_words_cons b x bs : new_words b (x :: bs) = if blank x then new_words false bs else (if b then 0 else 1) + new_words true bs.
Proof.
  unfold new_words. rewrite words_cons. cbn [fields]. destruct (blank x); [by destruct b|]. destruct (fields bs) as [|[|? ?] ?]; destruct b; lia.
Qed.

Lemma counts_bytes bs : forall s, 0 <= wc_l s -> 0 <= wc_w s -> 0 <= wc_c s ->
  wc_l s + Z.of_nat (length bs) < 2 ^ 31 -> wc_w s + Z.of_nat (length bs) < 2 ^ 31 -> wc_c s + Z.of_nat (length bs) < 2 ^ 31 ->
  let s' := foldl wc_char s bs in
  wc_l s' = wc_l s + lines bs /\ wc_w s' = wc_w s + new_words (wc_inword s) bs /\ wc_c s' = wc_c s + Z.of_nat (length bs).
Proof.
  induction bs as [|x bs IH]; intros [l w c i] H1 H2 H3 H4 H5 H6; cbn [wc_l wc_w wc_c wc_inword length] in *.
  { cbn [foldl wc_l wc_w wc_c]. change (lines []) with 0. replace (new_words i []) with 0 by (by destruct i). lia. }
  cbn [foldl]. rewrite new_words_cons, lines_cons. unfold blank.
  assert (E : exists l' w' j, wc_char (mkcounts l w c i) x = mkcounts l' w' (c + 1) j /\ l' = l + (if x =? 10 then 1 else 0) /\
    (if ustrchr wc_blanks x is Some _ then w' = w /\ j = false else w' = w + (if i then 0 else 1) /\ j = true)).
  { unfold wc_char. cbn [wc_l wc_w wc_c wc_inword]. rewrite !s32_small by lia.
    destruct (x =? 10), (ustrchr wc_blanks x), i; eexists _, _, _; (split; [reflexivity|]); split; try lia; split; done || lia. }
  destruct E as (l' & w' & j & -> & -> & Hw). destruct (IH (mkcounts (l + (if x =? 10 then 1 else 0)) w' (c + 1) j)) as (E1 & E2 & E3);
    cbn [wc_l wc_w wc_c wc_inword] in *; try (destruct (x =? 10), (ustrchr wc_blanks x), i; lia).
  rewrite E1, E2, E3. destruct (ustrchr wc_blanks x); destruct Hw as [-> ->]; destruct (x =? 10), i; lia.
Qed.

Lemma wc_reads fd w ps w1 : delivers fd 512 w ps w1 -> forall s, run (wc_loop fd s) w (Returned (Some (foldl wc_char s (concat ps)))) w1.
Proof.
  induction 1 as [w w' E|w p w1 ps w' Hp E _ IH]; intros s.
  - apply run_iter_done. eapply run_sys; [exact E|]. apply run_ret.
  - cbn [concat]. rewrite foldl_app. eapply run_iter; [|apply IH]. eapply run_sys; [exact E|]. destruct p; [done|]. apply run_ret.
Qed.

Lemma wc_line a b c name : text directive_text (pieces (codes (line "%d %d %d %s"))) [VInt a; VInt b; VInt c; VStr (Some name)] =
  Some (decimal digits (s32 a) ++ [32] ++ decimal digits (s32 b) ++ [32] ++ decimal digits (s32 c) ++ [32] ++ name ++ [10]).
Proof. reflexivity. Qed.

(** C40.  [wc] on a file: however the calls of [read] cut it into pieces, it
    prints the number of lines, of words and of characters, and the name; a
    word is a longest stretch without blanks.  Files are below 2 GB, the range
    of the counters. *)
Theorem wc_counts fd name ps w w1 w2 : delivers fd 512 w ps w1 -> Z.of_nat (length (concat ps)) < 2 ^ 31 -> Forall char_ok name ->
  takes (pair 1 <$> decimal digits (lines (concat ps)) ++ [32] ++ decimal digits (words (concat ps)) ++ [32] ++
                    decimal digits (Z.of_nat (length (concat ps))) ++ [32] ++ name ++ [10]) w1 w2 ->
  run (wc fd name) w (Returned tt) w2.
Proof.
  intros Hd Hl Hn Ht. eapply run_bind; [apply (wc_reads fd w ps w1 Hd)|]. cbn beta iota.
  destruct (counts_bytes (concat ps) (mkcounts 0 0 0 false)) as (E1 & E2 & E3); cbn [wc_l wc_w wc_c wc_inword] in *; try lia.
  pose proof (lines_bound (concat ps)). pose proof (words_bound (concat ps)). change (new_words false (concat ps)) with (words (concat ps)) in E2.
  eapply print_run; [..|exact Ht].
  - repeat (apply Forall_cons; split; [by split|]). by apply Forall_nil.
  - repeat constructor. done.
  - rewrite E1, E2, E3, !Z.add_0_l, wc_line, !s32_small by lia. done.
Qed.

(** ** init *)

(** [wait] returns other processes, orphans, and then [pid]. *)
Inductive reaps (pid : Z) : W -> W -> Prop :=
| reap_shell w w' : kernel Wait w = Some (pid, w') -> reaps pid w w'
| reap_orphan w p w1 w' : 0 <= p -> p <> pid -> kernel Wait w = Some (p, w1) -> reaps pid w1 w' -> reaps pid w w'.

Definition starting : uout := pair 1 <$> codes (line "init: starting sh").

(** The shell has been started and has exited [n] times. *)
Inductive restarts : nat -> W -> W -> Prop :=
| restart_none w : restarts 0 w w
| restart_one n w w1 pid w2 w3 w' : takes starting w w1 -> kernel Fork w1 = Some (pid, w2) -> 0 < pid -> reaps pid w2 w3 -> restarts n w3 w' -> restarts (S n) w w'.

Lemma plain_run fmt w w' : Forall char_ok (codes fmt) -> text directive_text (pieces (codes fmt)) [] = Some (codes fmt) ->
  takes (pair 1 <$> codes fmt) w w' -> run (uprint 1 fmt []) w (Returned tt) w'.
Proof. intros Hf E. by eapply print_run. Qed.

Lemma starting_run w w' : takes starting w w' -> run (uprint 1 (line "init: starting sh") []) w (Returned tt) w'.
Proof. apply plain_run; [|reflexivity]. repeat (apply Forall_cons; split; [by split|]). by apply Forall_nil. Qed.

Lemma wait_shell_run pid w w' : reaps pid w w' -> run (init_wait pid) w (Returned tt) w'.
Proof.
  induction 1 as [w w' E|w p w1 w' Hp Hn E _ IH].
  - apply run_iter_done. eapply run_sys; [exact E|]. cbn beta. rewrite Z.eqb_refl. apply run_ret.
  - eapply run_iter; [|exact IH]. eapply run_sys; [exact E|]. cbn beta. rewrite (proj2 (Z.eqb_neq p pid) Hn), (proj2 (Z.ltb_ge p 0)) by done. apply run_ret.
Qed.

Lemma init_restarts n w w1 o w' : restarts n w w1 -> run init_loop w1 o w' -> run init_loop w o w'.
Proof.
  induction 1 as [|n w w1 pid w2 w3 w4 T F Hp R _ IH]; [done|]. intros Hr. eapply run_iter; [|by apply IH].
  eapply run_bind; [by apply starting_run|]. eapply run_sys; [exact F|]. cbn beta.
  rewrite (proj2 (Z.ltb_ge pid 0)), (proj2 (Z.eqb_neq pid 0)) by lia. eapply run_bind; [by apply wait_shell_run|]. apply run_ret.
Qed.

(** init: however often the shell has exited, and whatever orphans were
    collected in between, the next child that init forks becomes a shell. *)
Theorem init_starts_shell n w w1 w2 w3 : restarts n w w1 -> takes starting w1 w2 -> kernel Fork w2 = Some (0, w3) -> kernel (Exec (codes "sh") [codes "sh"]) w3 = None ->
  run init_loop w (Became (codes "sh") [codes "sh"]) w3.
Proof.
  intros R T F E. apply (init_restarts n w w1); [done|]. eapply (run_iter_end _ _ _ (Became _ _)); [|reflexivity].
  eapply run_bind; [by apply starting_run|]. eapply run_sys; [exact F|]. cbn beta. change (0 <? 0) with false. change (0 =? 0) with true. cbn iota.
  unfold run. rewrite observe_bind. by apply run_exec.
Qed.
End Run.

(** ** On a kernel *)

(** Open files are what is still to be read of them and how much each [read]
    will deliver ([Grep.stream]); all output is kept. *)
Record unix := mkunix { opened : gmap Z stream; output : uout }.
Definition unix_kernel (X : Type) (e : sysE X) (u : unix) : option (X * unix) :=
  match e in sysE X return option (X * unix) with
  | Read fd n =>
      match opened u !! fd with
      | None => Some (None, u)
      | Some f => let (got, f') := read (Z.to_nat n) f in Some (Some got, mkunix (<[fd := f']> (opened u)) (output u))
      end
  | Write fd bytes => Some (Z.of_nat (length bytes), mkunix (opened u) (output u ++ (pair fd <$> bytes)))
  | Exit _ => None
  | Undefined => None
  | Fstat _ => Some (None, u)
  | Open _ _ | Close _ | Dup _ | Mknod _ _ _ | Unlink _ | Mkdir _ | Link _ _ | Kill _ | Fork | Wait | Exec _ _ | Sleep _ => Some (-1, u)
  end.

Lemma unix_takes out u : takes unix_kernel out u (mkunix (opened u) (output u ++ out)).
Proof.
  revert u. induction out as [|[fd c] out IH]; intros [o l]; cbn; [by rewrite app_nil_r|]. eexists _, _. split; [reflexivity|].
  specialize (IH (mkunix o (l ++ [(fd, c)]))). cbn in IH. by rewrite <- app_assoc in IH.
Qed.

(** [read] makes progress until the end of the file. *)
Lemma read_splits n f got f' : read n f = (got, f') -> rest f = got ++ rest f' /\ (n <> O -> got = [] -> rest f = []).
Proof.
  unfold read. intros E. injection E as <- <-. cbn [rest]. split; [by rewrite take_drop|]. intros Hn E. destruct (rest f) as [|x l]; [done|].
  destruct (eager f) as [|w ?]; destruct n; by cbn in E || lia.
Qed.

Lemma unix_read fd n o out f got f' : o !! fd = Some f -> read (Z.to_nat n) f = (got, f') ->
  unix_kernel _ (Read fd n) (mkunix o out) = Some (Some got, mkunix (<[fd := f']> o) out).
Proof. intros Hf Er. unfold unix_kernel. cbn [opened output]. by rewrite Hf, Er. Qed.

Lemma copy_run fd n : forall o out f, (length (rest f) <= n)%nat -> o !! fd = Some f -> exists e,
  run unix_kernel (cat_loop fd) (mkunix o out) (Returned true) (mkunix (<[fd := mkstream [] e]> o) (out ++ (pair 1 <$> rest f))).
Proof.
  induction n as [|n IH]; intros o out f Hl Hf; destruct (read 512 f) as [got f'] eqn:Er; destruct (read_splits _ _ _ _ Er) as [E1 E2];
    (assert (K : unix_kernel _ (Read fd 512) (mkunix o out) = Some (Some got, mkunix (<[fd := f']> o) out)) by (by apply (unix_read fd 512 o out f)));
    destruct got as [|x got].
  1, 3: exists (eager f'); rewrite (E2 ltac:(done) eq_refl) in *; destruct f' as [r e]; cbn in E1; subst r; cbn [fmap list_fmap]; rewrite app_nil_r;
    apply run_iter_done; (eapply run_sys; [exact K|]); apply run_ret.
  { rewrite E1, length_app in Hl. cbn in Hl. lia. }
  destruct (IH (<[fd := f']> o) (out ++ (pair 1 <$> x :: got)) f') as [e He]; [rewrite E1, length_app in Hl; cbn in Hl; lia|by rewrite lookup_insert_eq|].
  exists e. rewrite insert_insert_eq, <- app_assoc, <- fmap_app, <- E1 in He. eapply run_iter; [|exact He].
  eapply run_sys; [exact K|]. cbn beta iota. eapply run_sys; [reflexivity|]. cbn beta. rewrite Z.eqb_refl. apply run_ret.
Qed.

(** [cat] copies what is left of the file to its output. *)
Theorem cat_copies fd u f : opened u !! fd = Some f -> exists e,
  run unix_kernel (cat fd) u (Returned tt) (mkunix (<[fd := mkstream [] e]> (opened u)) (output u ++ (pair 1 <$> rest f))).
Proof.
  intros Hf. destruct u as [o out]. destruct (copy_run fd (length (rest f)) o out f ltac:(lia) Hf) as [e He]. exists e. eapply run_bind; [exact He|]. apply run_ret.
Qed.

(** grep as a process writes what [Grep.grep] computes. *)
Lemma grep_lines_run pattern fuel : forall buf out p o l, scan_lines fuel pattern buf = Some (out, p) ->
  run unix_kernel (grep_lines fuel pattern buf) (mkunix o l) (Returned p) (mkunix o (l ++ (pair 1 <$> out))).
Proof.
  induction fuel as [|fuel IH]; intros buf out p o l E; [done|]. cbn [scan_lines grep_lines] in *. destruct (cut buf) as [[x q]|].
  - destruct (scan_lines fuel pattern q) as [[out' p']|] eqn:Es; [|done]. injection E as <- <-. rewrite fmap_app, app_assoc.
    destruct (match_ pattern x).
    + eapply run_bind; [|by apply IH]. eapply run_sys; [reflexivity|]. apply run_ret.
    + eapply run_bind; [apply run_ret|]. cbn [fmap list_fmap]. rewrite app_nil_r. by apply IH.
  - injection E as <- <-. cbn. rewrite app_nil_r. apply run_ret.
Qed.

Lemma grep_loop_run pattern fd fuel : forall buf f out o l, grep_loop fuel pattern buf f = Some out -> o !! fd = Some f -> exists f',
  run unix_kernel (ITree.iter (fun buf =>
    call! n <- sys (Read fd (1024 - Z.of_nat (length buf) - 1));
    match n with
    | None | Some [] => Ret (inr tt)
    | Some got => call! p <- grep_lines (S (length (buf ++ got))) pattern (buf ++ got); Ret (inl p)
    end) buf) (mkunix o l) (Returned tt) (mkunix (<[fd := f']> o) (l ++ (pair 1 <$> out))).
Proof.
  induction fuel as [|fuel IH]; intros buf f out o l E Hf; [done|]. cbn [grep_loop] in E.
  destruct (read (BUFSIZE - length buf - 1) f) as [got f'] eqn:Er.
  assert (K : unix_kernel _ (Read fd (1024 - Z.of_nat (length buf) - 1)) (mkunix o l) = Some (Some got, mkunix (<[fd := f']> o) l)).
  { apply (unix_read _ _ _ _ f); [done|]. replace (Z.to_nat _) with (BUFSIZE - length buf - 1)%nat by (unfold BUFSIZE; lia). done. }
  destruct got as [|x got].
  - injection E as <-. exists f'. cbn. rewrite app_nil_r. apply run_iter_done. eapply run_sys; [exact K|]. apply run_ret.
  - destruct (scan_lines _ _ _) as [[out1 p]|] eqn:Es; [|done]. destruct (grep_loop fuel pattern p f') as [out2|] eqn:Eg; [|done]. injection E as <-.
    destruct (IH p f' out2 (<[fd := f']> o) (l ++ (pair 1 <$> out1)) Eg) as [f2 H2]; [by rewrite lookup_insert_eq|].
    exists f2. rewrite insert_insert_eq, <- app_assoc, <- fmap_app in H2. eapply run_iter; [|exact H2]. eapply run_sys; [exact K|]. cbn beta iota.
    eapply run_bind; [by apply grep_lines_run|]. apply run_ret.
Qed.

Theorem grep_process pattern fd u f out : opened u !! fd = Some f -> grep pattern f = Some out -> exists f',
  run unix_kernel (grep_fd pattern fd) u (Returned tt) (mkunix (<[fd := f']> (opened u)) (output u ++ (pair 1 <$> out))).
Proof. intros Hf E. destruct u as [o l]. by apply (grep_loop_run pattern fd _ [] f out o l E). Qed.

Lemma last_slash_entry dir name : 47 ∉ name -> forall n, (n <= length name)%nat -> last_slash (dir ++ [47] ++ name) (length dir + 1 + n) = (length dir + 1)%nat.
Proof.
  intros Hn. induction n as [|n IH]; intros Hl.
  - rewrite Nat.add_0_r, Nat.add_1_r. cbn [last_slash app]. by rewrite list_lookup_middle.
  - rewrite Nat.add_succ_r. cbn [last_slash]. rewrite app_assoc, lookup_app_r by (rewrite length_app; cbn; lia).
    replace (length dir + 1 + n - length (dir ++ [47%Z]))%nat with n by (rewrite length_app; cbn; lia).
    destruct (name !! n) as [x|] eqn:Ex; [|apply lookup_ge_None in Ex; lia]. rewrite (proj2 (Z.eqb_neq x 47)), <- app_assoc; [by apply IH; lia|].
    intros ->. by apply Hn, list_elem_of_lookup; exists n.
Qed.

(** The name that [ls] prints for an entry of a directory. *)
Lemma fmtname_entry dir name : 47 ∉ name -> (length name < 14)%nat -> fmtname (dir ++ [47] ++ name) = name ++ replicate (14 - length name) 32.
Proof.
  intros Hn Hl. unfold fmtname. replace (last_slash _ _) with (length dir + 1)%nat.
  - rewrite app_assoc. replace (length dir + 1)%nat with (length (dir ++ [47])) by (rewrite length_app; done). rewrite drop_app_length.
    rewrite (proj2 (Z.leb_gt _ _)) by (change DIRSIZ with 14; lia). done.
  - symmetry. rewrite !length_app. cbn [length]. rewrite Nat.add_assoc. apply (last_slash_entry dir name Hn). lia.
Qed.

(** [echo] writes its arguments, separated by blanks, and a newline. *)
Fixpoint echoed (args : list (list Z)) : list Z :=
  match args with [] => [] | [a] => a ++ [10] | a :: args' => a ++ [32] ++ echoed args' end.
Theorem echo_writes argv u : run unix_kernel (echo_main argv) u (Exited 0) (mkunix (opened u) (output u ++ (pair 1 <$> echoed (tail argv)))).
Proof.
  unfold echo_main. generalize (tail argv) as l. intros l. revert u. induction l as [|a l IH]; intros [o out]; cbn [opened output].
  - cbn. rewrite app_nil_r. apply exit_run.
  - cbn [echo_args]. eapply run_sys; [reflexivity|]. cbn beta. eapply run_sys; [reflexivity|]. cbn beta. cbn [opened output].
    replace (out ++ (pair 1 <$> echoed (a :: l))) with (((out ++ (pair 1 <$> a)) ++ (pair 1 <$> (if l is [] then [10] else [32]))) ++ (pair 1 <$> echoed l)); [apply IH|].
    destruct l; cbn [echoed]; rewrite !fmap_app, <- !app_assoc; [by rewrite app_nil_r|done].
Qed.


Module WcDemo.
Definition start : unix := mkunix {[3 := mkstream (codes "one two  three" ++ [10] ++ codes "four" ++ [10]) [5; 1]%nat]} [].
End WcDemo.

Lemma wc_counts_witness : exists u, run unix_kernel (wc 3 (codes "f")) WcDemo.start (Returned tt) u /\ output u = pair 1 <$> codes (line "2 4 20 f").
Proof.
  eexists. split.
  - eapply (wc_counts unix_kernel 3 (codes "f")).
    + eapply del_piece; [|reflexivity|]; [done|]. eapply del_piece; [|reflexivity|]; [done|]. eapply del_piece; [|reflexivity|]; [done|]. by apply del_end.
    + by vm_compute.
    + by repeat constructor.
    + apply unix_takes.
  - reflexivity.
Defined.
