(* ===== verification/Sleeplock.v ===== *)
(** * kernel/sleeplock.c

    A sleep lock, taken and given back by any number of processes.  What a
    process does between taking the spinlock of the sleep lock and sleeping or
    returning is one step: [sleep] gives the spinlock back and puts the process
    to sleep at once, as [Sched.v] proves of it. *)

From S2P Require Import Prelude Lock.
Local Open Scope Z_scope.

Record sleeplock := mksl { locked : Z; lkpid : Z; lkname : string }.
(** [sleepers]: the processes asleep on the channel [lk]. *)
Record slst := mkslst { slk : sleeplock; sleepers : gset Z; slheld : list string }.

#[export] Instance sl_locks : Locks slst.
Proof.
  refine {| held := slheld; set_held l s := mkslst (slk s) (sleepers s) l |}.
  - done.
  - done.
  - by intros [].
Defined.

Definition set_lock (l : sleeplock) : M slst unit := modify (fun s => mkslst l (sleepers s) (slheld s)).

Definition initsleeplock (name : string) : M slst unit :=
  initlock "sleep lock" ;;
  set_lock (mksl 0 0 name).

(** From taking the spinlock, in [acquiresleep] or again in [sleep], to
    [sleep] or the return: [true] when the lock was taken. *)
Definition acquiresleep (pid : Z) : M slst bool :=
  acquire "sleep lock" ;;
  do! l <- gets slk;
  if locked l =? 0 then
    set_lock (mksl 1 pid (lkname l)) ;;
    release "sleep lock" ;;
    ret true
  else
    modify (fun s => mkslst (slk s) ({[pid]} ∪ sleepers s) (slheld s)) ;;
    release "sleep lock" ;;
    ret false.

(** [wakeup(lk)] leaves no process asleep on the channel. *)
Definition releasesleep : M slst unit :=
  acquire "sleep lock" ;;
  do! l <- gets slk;
  set_lock (mksl 0 0 (lkname l)) ;;
  modify (fun s => mkslst (slk s) ∅ (slheld s)) ;;
  release "sleep lock".

Definition holdingsleep (pid : Z) : M slst bool :=
  acquire "sleep lock" ;;
  do! l <- gets slk;
  release "sleep lock" ;;
  ret (negb (locked l =? 0) && (lkpid l =? pid)).

(** ** Processes *)

(** [holders]: processes between the return of [acquiresleep] and
    [releasesleep]; [waiters]: processes inside [acquiresleep], asleep or woken
    and not yet running. *)
Record sl_system := mksls { kern : slst; holders : gset Z; waiters : gset Z }.

(** A process calls [acquiresleep] or, woken, tries again; [kill] wakes a
    process without a reason; the holder calls [releasesleep]. *)
Inductive slstep : sl_system -> sl_system -> Prop :=
| sl_take p k k' H W : p ∉ H -> p ∉ sleepers k -> acquiresleep p k = Ok true k' -> slstep (mksls k H W) (mksls k' ({[p]} ∪ H) (W ∖ {[p]}))
| sl_sleep p k k' H W : p ∉ H -> p ∉ sleepers k -> acquiresleep p k = Ok false k' -> slstep (mksls k H W) (mksls k' H ({[p]} ∪ W))
| sl_kill p k H W : slstep (mksls k H W) (mksls (mkslst (slk k) (sleepers k ∖ {[p]}) (slheld k)) H W)
| sl_release p k k' H W : p ∈ H -> releasesleep k = Ok tt k' -> slstep (mksls k H W) (mksls k' (H ∖ {[p]}) W).

Record sl_inv (s : sl_system) : Prop := {
  sl_spin : slheld (kern s) = [];
  sl_owner : (locked (slk (kern s)) = 0 /\ holders s = ∅ /\ sleepers (kern s) = ∅) \/ (locked (slk (kern s)) <> 0 /\ holders s = {[lkpid (slk (kern s))]});
  sl_waiting : sleepers (kern s) ⊆ waiters s;
  sl_apart : holders s ## waiters s;
}.

Lemma sl_acquire_free p l S : locked l = 0 -> acquiresleep p (mkslst l S []) = Ok true (mkslst (mksl 1 p (lkname l)) S []).
Proof. intros E. unfold acquiresleep, bind, acquire, release, holding, gets, set_lock, modify, ret. cbn. by rewrite E. Qed.
Lemma sl_acquire_taken p l S : locked l <> 0 -> acquiresleep p (mkslst l S []) = Ok false (mkslst l ({[p]} ∪ S) []).
Proof. intros E. unfold acquiresleep, bind, acquire, release, holding, gets, modify, ret. cbn. by rewrite (proj2 (Z.eqb_neq _ _) E). Qed.
Lemma sl_release_eq l S : releasesleep (mkslst l S []) = Ok tt (mkslst (mksl 0 0 (lkname l)) ∅ []).
Proof. reflexivity. Qed.
Lemma sl_holding_eq p l S : holdingsleep p (mkslst l S []) = Ok (negb (locked l =? 0) && (lkpid l =? p)) (mkslst l S []).
Proof. reflexivity. Qed.

Lemma slstep_inv s s' : slstep s s' -> sl_inv s -> sl_inv s'.
Proof.
  intros [p [l S h] k' H W Hp Hs E|p [l S h] k' H W Hp Hs E|p [l S h] H W|p [l S h] k' H W Hp E] [I1 I2 I3 I4]; cbn [kern holders waiters slk sleepers slheld] in *; subst h.
  - destruct I2 as [(L & -> & ->)|(L & ->)].
    + rewrite (sl_acquire_free p l _ L) in E. injection E as <-. split; cbn; [done|right; split; [done|set_solver]|set_solver|set_solver].
    + by rewrite (sl_acquire_taken p l _ L) in E.
  - destruct I2 as [(L & -> & ->)|(L & ->)].
    + by rewrite (sl_acquire_free p l _ L) in E.
    + rewrite (sl_acquire_taken p l _ L) in E. injection E as <-. split; cbn; [done|by right|set_solver|set_solver].
  - split; cbn; [done| |set_solver|done]. destruct I2 as [(L & -> & ->)|(L & ->)]; [left|right]; set_solver.
  - rewrite sl_release_eq in E. injection E as <-. destruct I2 as [(_ & -> & _)|(L & ->)]; [set_solver|]. split; cbn; [done|left; set_solver|set_solver|set_solver].
Qed.

(** The lock as [initsleeplock] leaves it. *)
Definition sl_start (name : string) : sl_system := mksls (mkslst (mksl 0 0 name) ∅ []) ∅ ∅.
Lemma initsleeplock_start name l S : initsleeplock name (mkslst l S []) = Ok tt (mkslst (mksl 0 0 name) S []).
Proof. reflexivity. Qed.

Lemma sl_reach name s : rtc slstep (sl_start name) s -> sl_inv s.
Proof.
  intros R. assert (I : sl_inv (sl_start name)) by (split; cbn; [done|by left|set_solver|set_solver]).
  remember (sl_start name) as s0 eqn:E0. clear E0. induction R as [|x y z Hx _ IH]; [done|]. by apply IH, (slstep_inv x).
Qed.

(** In every interleaving at most one process has a sleep lock, [holdingsleep]
    answers whether it is the caller, and while the lock is free no process is
    asleep waiting for it. *)
Theorem sleeplock_exclusion name s : rtc slstep (sl_start name) s ->
  (forall p q, p ∈ holders s -> q ∈ holders s -> p = q) /\
  (forall p, holdingsleep p (kern s) = Ok (bool_decide (p ∈ holders s)) (kern s)) /\
  (holders s = ∅ -> sleepers (kern s) = ∅).
Proof.
  intros R. destruct (sl_reach name s R) as [I1 I2 I3 I4]. destruct s as [[l S h] H W]. cbn in *. subst h.
  destruct I2 as [(L & -> & ->)|(L & ->)]; (split; [set_solver|]).
  - split; [|done]. intros p. rewrite sl_holding_eq, L. cbn. by rewrite bool_decide_eq_false_2 by set_solver.
  - split; [|set_solver]. intros p. rewrite sl_holding_eq, (proj2 (Z.eqb_neq _ _) L). cbn. f_equal.
    destruct (Z.eqb_spec (lkpid l) p) as [->|Hn]; symmetry; [apply bool_decide_eq_true|apply bool_decide_eq_false]; set_solver.
Qed.

(** A process that waits for the lock can get it: the holder gives it back,
    which wakes the process, and it tries again. *)
Theorem sleeplock_granted name s p : rtc slstep (sl_start name) s -> p ∈ waiters s -> exists s', rtc slstep s s' /\ p ∈ holders s'.
Proof.
  intros R Hp. destruct (sl_reach name s R) as [I1 I2 I3 I4]. destruct s as [[l S h] H W]. cbn in *. subst h.
  assert (G : forall l W, locked l = 0 -> exists s', slstep (mksls (mkslst l ∅ []) ∅ W) s' /\ p ∈ holders s').
  { intros l0 W0 L. eexists. split; [eapply (sl_take p); [set_solver|set_solver|by apply sl_acquire_free]|]. cbn. set_solver. }
  destruct I2 as [(L & -> & ->)|(L & ->)].
  - destruct (G l W L) as (s' & S' & Hs). exists s'. split; [by apply rtc_once|done].
  - destruct (G (mksl 0 0 (lkname l)) W eq_refl) as (s' & S' & Hs). exists s'. split; [|done].
    eapply rtc_l; [eapply (sl_release (lkpid l)); [set_solver|apply sl_release_eq]|]. replace ({[lkpid l]} ∖ {[lkpid l]} : gset Z) with (∅ : gset Z) by set_solver. by apply rtc_once.
Qed.

Lemma sleeplock_granted_witness : exists s s', waiters s = {[2]} /\ rtc slstep s s' /\ 2 ∈ holders s'.
Proof.
  set (l1 := mksl 1 1 "inode"). set (s := mksls (mkslst l1 ({[2]} ∪ ∅) []) ({[1]} ∪ ∅) ({[2]} ∪ (∅ ∖ {[1]}))).
  assert (R : rtc slstep (sl_start "inode") s).
  { eapply rtc_l; [eapply (sl_take 1); [set_solver|set_solver|by apply sl_acquire_free]|].
    apply rtc_once. eapply (sl_sleep 2); [set_solver|set_solver|by apply sl_acquire_taken]. }
  exists s. destruct (sleeplock_granted "inode" s 2 R) as (s' & R' & H'); [set_solver|]. exists s'. split; [set_solver|done].
Defined.
